(* ===== verification/_CoqProject ===== *)
-Q . S2P
Prelude.v
Timers.v
TimersInv.v
TimersWheel.v
TimersSteps.v
TimersProps.v
TimersLive.v
SduWindow.v
BitEncoding.v
PdcpSnUtil.v
BitStream.v
BitFields.v
NruPacking.v
GtpuPdu.v
GtpuPduProps.v
GtpuNru.v
F1uCu.v
F1uDu.v
F1uProps.v
GtpuNgu.v
GtpuNguProps.v
GtpuPath.v
GtpuPathProps.v
MacUlPdu.v
MacUlProps.v
MacRnti.v
MacUl.v
MacUlRx.v
MacDlPdu.v
MacDl.v
MacDlProps.v
Security.v
Snow3g.v
Zuc.v
SecAlgorithms.v
SecurityEngine.v
SecurityContext.v
SecurityProps.v
PdcpBase.v
PdcpRx.v
PdcpRxInv.v
PdcpRxProps.v
PdcpTx.v
PdcpTxInv.v
PdcpRxReport.v
PdcpTxSend.v
PdcpTxProps.v
PdcpTransfer.v
PdcpExamples.v
PdcpBoundary.v
RlcAmPdu.v
RlcUmPdu.v
RlcSegments.v
RlcRxAm.v
RlcRxAmInv.v
RlcRxAmReport.v
RlcRxAmProps.v
RlcSduQueue.v
RlcRetxQueue.v
RlcTxAm.v
RlcTxAmInv.v
RlcTxAmStatus.v
RlcTxAmProps.v
RlcRxUm.v
RlcRxUmProps.v
RlcTxUm.v
RlcTxUmProps.v
RlcUmTransfer.v
RlcTm.v
MacDlRlc.v
MacDlExamples.v
SlotPoint.v
HarqManager.v
HarqInv.v
HarqOps.v
HarqRun.v
HarqProps.v
DlLogicalChannels.v
DlLcProps.v
