(* ===== verification/Prelude.v ===== *)
(** * Verification of the user plane of srsRAN: MAC, RLC, PDCP, F1-U, GTP-U and what they stand on

    Everything modelled is C++ under [src/srsRAN]. In the downlink an IP packet comes through a GTP-U tunnel (N3) to the PDCP entity of its bearer, which numbers it with a
    COUNT, protects it with the security engine and hands the PDU over F1-U (NR-U messages in a GTP-U tunnel) to the DU; there RLC cuts it into the grants of the
    scheduler, and MAC writes it into the transport blocks of HARQ processes. In the uplink MAC takes transport blocks apart, RLC reassembles the SDUs (and, in acknowledged
    mode, reports what is missing), F1-U brings them to PDCP, which reconstructs COUNTs, deciphers, verifies, reorders and delivers. Timers, executors, slots
    and codecs serve all of them. This development models the entities of these layers, the data structures they keep, the codecs of their PDUs, the ciphers, MACs and key
    derivation behind the engine, and from the scheduler its view of logical channels and its HARQ processes.

    ** Style

    A C++ object is a record of its members; a method is one function from a state to an [outcome] of a state, which
    is where failed assertions, accesses out of bounds, uncaught exceptions and loops that run out of fuel show. What an
    entity does to others (SDUs delivered, PDUs sent, notifications, deferred tasks, metrics) is appended
    to a list of events in the order of the calls. Machine integers are [Z] with their wrap-around
    written out ([u8], [u16], [u32], [u64]); a buffer is the list of its octets, and memory that is written in place (the HARQ buffers of MAC) is a list that is
    updated by index. Pointers are keys into maps ([MacDl], [HarqManager], [Timers]). Definitions keep the names of the source, with a prefix
    where two entities share a name ([um_], [txu_], [tm_], [rx_], [tx_], [pdcp_], [gtpu_], [ngu_], [nru_], [ul_], [dl_], [harq_], [lc_], [s3g_], [zuc_]).
    Definitions are executable; concrete runs are evaluated in the examples and witnesses. Where one component uses another through an interface, the
    interface is a class with laws ([SecurityEngine], [StatusProvider], [MacSduTxBuilder]), the user is proved against the laws and the
    implementation proves them.

    ** Files, in the order of their dependencies

    - [Prelude.v] (this file): outcomes and their monad, machine integers, loops with fuel and their rules, sequence
      numbers modulo a power of two ([SnSpace]), timers as seen by the entities, shared lemmas, hints and tactics.
    - [Timers.v]: [include/srsran/support/timers.h], [lib/support/timers.cpp] as a step relation of clients, ticks and executors; [TimersInv.v],
      [TimersWheel.v], [TimersSteps.v], [TimersProps.v], [TimersLive.v].
    - [SduWindow.v]: [include/srsran/adt/circular_map.h], [lib/support/sdu_window_impl.h]; the windows of all entities.
    - [BitEncoding.v], [BitStream.v], [BitFields.v]: [lib/support/bit_encoding.cpp], arithmetically, bit by bit and as fields, and codecs made of fields.
    - [PdcpSnUtil.v]: [include/srsran/pdcp/pdcp_sn_util.h], by which RLC finds the PDCP SN of an SDU.
    - [NruPacking.v]: [lib/nru] and [lib/psup], the contents of GTP-U extension headers. [GtpuPdu.v], [GtpuPduProps.v]: [gtpu_pdu.cpp].
      [GtpuNru.v]: the tunnels of F1-U. [GtpuNgu.v], [GtpuNguProps.v]: those of N3, with reordering. [GtpuPath.v], [GtpuPathProps.v]: the TEID pool, the
      demultiplexer and the echo procedure.
    - [F1uCu.v], [F1uDu.v]: [lib/f1u], both ends of a bearer; [F1uProps.v]: end to end over the tunnels.
    - [MacUlPdu.v], [MacUlProps.v]: UL-SCH PDUs; [MacRnti.v]: C-RNTIs; [MacUl.v], [MacUlRx.v]: UEs, received PDUs and Msg3 ([lib/mac/mac_ul]).
    - [MacDlPdu.v], [MacDl.v], [MacDlProps.v]: DL-SCH PDUs, UEs, HARQ buffers and the assembly of transport blocks ([lib/mac/mac_dl]), over any bearer;
      [MacDlRlc.v]: over the entities of RLC; [MacDlExamples.v].
    - [Security.v]: configurations, and the class [SecurityEngine] with its laws, against which PDCP is proved.
    - [Snow3g.v], [Zuc.v]: [lib/security/s3g.cpp], [zuc.cpp]. [SecAlgorithms.v]: NEA1-3 and NIA1-3 of [ciphering.h],
      [integrity.h] and the NIA2/NEA2 engines, with the published test sets of the repository's tests.
    - [SecurityEngine.v]: [security_engine_impl.cpp] with the engines it is made of, an instance of the class.
      [SecurityContext.v]: [security.cpp], algorithm selection and key derivation. [SecurityProps.v]: their properties.
    - [PdcpBase.v]: [pdcp_entity_tx_rx_base.h], [pdcp_sn.h], [pdcp_pdu.h]: COUNT, SN, HFN, headers.
    - [PdcpRx.v]: [pdcp_entity_rx.cpp]; [PdcpRxInv.v], [PdcpRxProps.v], [PdcpRxReport.v]: its
      invariant, properties and status report.
    - [PdcpTx.v]: [pdcp_entity_tx.cpp]; [PdcpTxInv.v], [PdcpTxSend.v], [PdcpTxProps.v] likewise; [PdcpExamples.v]: concrete
      bearers. [PdcpTransfer.v]: the two entities composed over a lossy, reordering, duplicating channel.
      [PdcpBoundary.v]: inputs on which the code does not do what it means to.
    - [RlcAmPdu.v], [RlcUmPdu.v]: [rlc_am_pdu.cpp], [rlc_um_pdu.h]; headers and STATUS PDUs.
    - [RlcSegments.v]: segment sets and reassembly. [RlcRxAm.v]: [rlc_rx_am_entity.cpp]; [RlcRxAmInv.v],
      [RlcRxAmReport.v], [RlcRxAmProps.v]: invariant, status reports, properties.
    - [RlcSduQueue.v], [RlcRetxQueue.v]: [rlc_sdu_queue_lockfree.h], [rlc_retx_queue.h] and the lists they refine.
    - [RlcTxAm.v]: [rlc_tx_am_entity.cpp]; [RlcTxAmInv.v], [RlcTxAmStatus.v], [RlcTxAmProps.v]. It uses
      the receiving entity through the class [StatusProvider].
    - [RlcRxUm.v], [RlcRxUmProps.v], [RlcTxUm.v], [RlcTxUmProps.v], [RlcUmTransfer.v], [RlcTm.v]: the UM and TM entities.
    - [SlotPoint.v]: [include/srsran/ran/slot_point.h] and the size of rings indexed by slots. [HarqManager.v]: [lib/scheduler/cell/cell_harq_manager.cpp];
      [HarqInv.v] (invariant), [HarqOps.v] (what operations and slots do), [HarqRun.v] (both directions, and sequences of calls), [HarqProps.v] (properties and
      instances).
    - [DlLogicalChannels.v]: [lib/scheduler/ue_scheduling/dl_logical_channel_manager.cpp]; [DlLcProps.v], with the composition with MAC and instances.

    ** What the theorems show

    - Composition: [pdcp_end_to_end], [pdcp_status_report_exact] (PDCP to PDCP), [um_lossless_transfer], [um_transfer_drains] (RLC UM to RLC UM),
      [f1u_downlink_transparent], [f1u_uplink_transparent] (CU-UP to DU over GTP-U), [mac_um_octets_in_order] (RLC under MAC), [dl_block_assembled] (scheduler and MAC).
    - Safety in every reachable state of the events that the bounds below admit, by an invariant and closed forms of the handlers: [rx_never_fails],
      [tx_never_fails], [um_rx_never_fails], [um_tx_never_fails], [pdcp_rx_never_fails], [pdcp_tx_never_fails],
      [pdcp_tx_window_sound], [ngu_rx_never_fails], [timers_never_fail], [harq_never_fails].
    - Delivery: [segments_reassembled], [full_sdu_delivered_once], [um_segments_reassembled], [pdcp_rx_in_order],
      [pdcp_rx_lossless], [pdcp_rx_gap_expires], [tm_transparent], [ngu_rx_in_order], [mac_ul_pdu_handled], [mac_ul_msg3].
    - Transmission: [pulled_pdu_genuine], [um_pulled_pdu_genuine], [polling_rules], [buffer_state_exact],
      [pdcp_tx_count_unique], [pdcp_tx_discard_expiry], [pdcp_tx_notifications], [pdcp_tx_recovery_complete], [mac_dl_assembled], [mac_dl_retx_repeats], [dl_block_built].
    - Status reports of RLC: [status_report_exact] on the receiving, [status_report_applied] on the transmitting side.
    - HARQ: [harq_ack_timeout_exact], [harq_ndi_tells_new_data], [harq_reports_decide]; slots: [slot_order_exact].
    - Security: [engine_round_trip], [verify_integrity_exact], [apply_ciphering_is_stream], [nia2_is_rfc4493],
      [s3g_is_snow3g] (the cipher of 128-NEA1 against its definition by fields and sequences), [zuc_register_is_field], [kdf_separates_keys], [security_context_configures].
    - Timers: [timer_expires_on_time], [running_timer_fires], [unique_timer_refines_timer_state].
    - Codecs and containers: [status_roundtrip], [header_roundtrip], [um_header_roundtrip], [data_header_roundtrip], [gtpu_roundtrip], [gtpu_dissect_total],
      [nru_tunnel_roundtrip], [mac_ul_unpack_exact], [count_estimation_spec], [bit_fields_roundtrip], [status_unpack_total], [sdu_window_refines_map],
      [sdu_queue_refines_fifo], [retx_queue_refines_list], [teid_pool_refines_set], [rnti_manager_refines_map].
    - Errors: [data_pdu_discarded], [pdcp_rx_rejected_pdu], [teid_pool_hangs]; and the theorems of [PdcpBoundary.v], of the files of examples and at the ends of
      [RlcRxAmProps.v], [RlcTxAmProps.v], [RlcRxUmProps.v], [RlcAmPdu.v] and [MacUlRx.v] on behaviour the code does not mean to have.

    ** Hypotheses and bounds

    - Loops over a window have one unit of fuel more than the window has SNs ([loop_fuel], [um_loop_fuel],
      [ack_loop_fuel], [rx_loop_fuel]); loops between two COUNTs have their distance plus one; loops over a buffer
      the number of its bits or octets plus one. The theorems that an event succeeds show that this is enough;
      [status_report_turns] shows that for the status reports of PDCP less is not. A search in a TEID pool has one unit more than its range, the search for a free C-RNTI
      2^16, the assembly of a transport block one more than its octets, a list of 4 logical channels 5, a visit of the wheel of HARQ timeouts one more than the processes
      in its place; the extension headers of GTP-U have 11, as no packet has more than 10.
    - RLC: SDUs are not empty and have less than 2^15 octets in AM ([sdu_ok]; an empty one stops the entity, [empty_sdu_blocks_sn]) and less than 2^16 in UM
      ([um_sdu_ok]), the queue has less than 2^16 slots; the segments that a peer sends to an AM entity end within the 16 bits of SO ([pdu_bounded]; others
      fail an assertion, [oversized_segment_fails_assertion]); its status reports do not acknowledge what was not sent ([sent_status]; others do,
      [unsent_nack_fails_assertion]); grants are at least [min_grant] where progress is claimed. A discarded SDU that a pull of an UM entity finds last in the
      queue is sent ([um_discarded_sdu_sent]); [um_lossless_transfer] and [mac_um_octets_in_order] say so.
    - PDCP: PDUs of the peer arrive within one window of RX_DELIV ([in_window]) and below the hard limit on COUNT, which fits 32 bits; SDUs
      are not empty and have at most 9000 octets ([sdu_sendable]). Outside of that see [PdcpBoundary.v]; an empty SDU makes the code access memory out of
      bounds ([empty_sdu_out_of_bounds]).
    - Timers: a front-end is given fewer than 2^32 commands, durations fit the wheel, and identities are below 2^32 - 1.
    - F1-U: no 256 consecutive SNs wait in the CU-UP bearer to be sent as discards ([no_long_wait]); a block of 256 is lost ([block_size_wraps]). GTP-U: fields fit their widths; where order is claimed packets arrive less than 2^15 beyond the
      first that is missing.
    - MAC: grants are below 2^16 octets and fit their transport block, which [dl_block_built] shows of what the scheduler builds; a long BSR reports at least one group.
    - HARQ: every slot is indicated, handles are of processes that exist, acknowledgements are scheduled at most 32 slots ahead, the wait for them is at most 5088 slots, and what
      is saved for a retransmission agrees with the transmission ([admissible]).
    - Security: AES (one block, counter mode) and CMAC of mbedtls are the class [Mbedtls], with the laws of their
      documentation ([MbedtlsLaws]: lengths, octets, a counter-mode stream that depends on key and nonce); HMAC-SHA-256 is a parameter
      of which only the length is used. Whether allocation succeeds is an argument ([append_ok], [tx_memory]).

    ** Not modelled

    Log output, PCAP and latency metrics (no effect on the state); memory pools and reference counts of byte buffers; thread pools and worker managers (an executor is the
    queue of its tasks, or a deferred task is an event of the output); concurrent interleavings inside the lock-free queue and the RNTI table (their operations are taken one
    after the other); the factories and metrics containers of RLC and PDCP; header compression, which the code does not have; SDAP, which only passes
    SDUs on. Of MAC, the control procedures (coroutines), the adapter to the scheduler and the broadcast, paging and random access PDUs; of the scheduler, the history of
    allocations of non-terrestrial networks, the policies and the resource allocators, which compute in floating point over channel estimates. The PHY is signal processing in
    floating point and SIMD; the ASN.1 codecs are generated; RRC, F1AP, E1AP, NGAP and E2 are coroutines over generated messages; sockets, radios and drivers are input and
    output; the xApp, Open5GS and Zabbix parts are scripts. *)

From Stdlib Require Export ZArith Lia.
From stdpp Require Export base numbers gmap list.

#[export] Set Default Goal Selector "!".
Open Scope Z_scope.

(** ** Outcomes of code that may hit a [srsran_assert]

    [fail assertion] is a failed [srsran_assert] (the process aborts);
    [fail out_of_fuel] is a loop cut off by its fuel, which the termination
    theorems rule out; [fail invalid_access] is an access outside a buffer, which
    C++ leaves undefined; [fail uncaught_exception] is an exception that nothing
    catches (the process ends). *)
Inductive failure := assertion | out_of_fuel | invalid_access | uncaught_exception.

Inductive outcome (A : Type) :=
| ok (a : A)
| fail (f : failure).
Arguments ok {A} a.
Arguments fail {A} f.

#[export] Instance failure_eq_dec : EqDecision failure.
Proof. solve_decision. Defined.
#[export] Instance outcome_eq_dec {A} `{EqDecision A} : EqDecision (outcome A).
Proof. solve_decision. Defined.

#[export] Instance outcome_ret : MRet outcome := fun A a => ok a.
#[export] Instance outcome_bind : MBind outcome := fun A B k m =>
  match m with ok a => k a | fail f => fail f end.

(** [srsran_assert(c, ...)] *)
Definition srsran_assert (c : bool) : outcome unit :=
  if c then ok tt else fail assertion.

(** ** Machine integers *)
Definition u8 (x : Z) : Z := x mod 2 ^ 8.
Definition u16 (x : Z) : Z := x mod 2 ^ 16.
Definition u32 (x : Z) : Z := x mod 2 ^ 32.
Definition u64 (x : Z) : Z := x mod 2 ^ 64.

Lemma u32_small x : 0 <= x < 2 ^ 32 -> u32 x = x.
Proof. apply Z.mod_small. Qed.
Lemma u16_small x : 0 <= x < 2 ^ 16 -> u16 x = x.
Proof. apply Z.mod_small. Qed.

(** ** Byte buffers: lists of octets, an octet being a [Z] in [0, 256). *)
Abbreviation bytes := (list Z).

Definition is_byte (b : Z) : Prop := 0 <= b < 256.
Definition is_bytes (l : bytes) : Prop := Forall is_byte l.

(** The C++ [size()] or [length()] of a container, as a [Z]. *)
Abbreviation zlen l := (Z.of_nat (length l)).

(** [byte_buffer_view{d, o, n}]: the [n] bytes of [d] from offset [o]. *)
Definition slice {A} (d : list A) (o n : Z) : list A :=
  take (Z.to_nat n) (drop (Z.to_nat o) d).

(** ** Sequence numbers

    [sn_dist m b x] is the code's [(x - b) % m] on [uint32_t]: the distance of
    [x] from the modulus base [b]. *)
Definition sn_dist (m b x : Z) : Z := u32 (x - b) mod m.

(** [(sn + 1) % mod] *)
Definition sn_next (m x : Z) : Z := u32 (x + 1) mod m.

Declare Scope rlc_scope.
Delimit Scope rlc_scope with rlc.
Notation "x ⊖[ m ] b" := (sn_dist m b x) (at level 50, m at level 200, left associativity) : rlc_scope.

(** A sequence number space of cardinality [m] with a window of half of it. *)
Class SnSpace (m W : Z) : Prop := {
  sn_window_pos : 0 < W;
  sn_cardinality : m = 2 * W;
  sn_divides : (m | 2 ^ 32)
}.

(** ** Loops

    [for (i = i0; cond(i); i = incr(i)) { body }] over a state [s]; the body
    returns the new state and whether it executed [break]. *)
Section loops.
Context {X : Type}.

Fixpoint for_loop (fuel : nat) (cond : Z -> X -> bool) (incr : Z -> Z)
    (body : Z -> X -> outcome (X * bool)) (i : Z) (s : X) : outcome (Z * X) :=
  match fuel with
  | O => fail out_of_fuel
  | S fuel =>
      if cond i s then
        r ← body i s;
        if r.2 : bool then ok (i, r.1)
        else for_loop fuel cond incr body (incr i) r.1
      else ok (i, s)
  end.

(** Total correctness rule: an invariant [P] at the loop head, a measure that
    drops with every iteration, a postcondition [Q] at both exits. *)
Lemma for_loop_rule (P Q : Z -> X -> Prop) (mu : Z -> X -> nat)
    fuel cond incr body i s :
  P i s ->
  (mu i s < fuel)%nat ->
  (forall i s, P i s -> cond i s = false -> Q i s) ->
  (forall i s, P i s -> cond i s = true ->
     exists s' b, body i s = ok (s', b) /\
       (b = true -> Q i s') /\
       (b = false -> P (incr i) s' /\ (mu (incr i) s' < mu i s)%nat)) ->
  exists i' s', for_loop fuel cond incr body i s = ok (i', s') /\ Q i' s'.
Proof.
  intros HP Hmu Hexit Hstep. revert i s HP Hmu.
  induction fuel as [|fuel IH]; intros i s HP Hmu; [lia|]. simpl.
  destruct (cond i s) eqn:Hc; [|eauto].
  destruct (Hstep i s HP Hc) as (s' & b & Hb & Hbrk & Hcont).
  rewrite Hb; simpl. destruct b; [eauto|].
  destruct (Hcont eq_refl) as [HP' Hmu']. apply IH; [done|lia].
Qed.
End loops.

(** [while (cond) { body }] *)
Section while_loop.
Context {X : Type}.

Fixpoint while_loop (fuel : nat) (cond : X -> bool) (body : X -> outcome X) (s : X) : outcome X :=
  match fuel with
  | O => fail out_of_fuel
  | S fuel => if cond s then s ← body s; while_loop fuel cond body s else ok s
  end.

(** An invariant [P] and a measure: the loop ends, in a state where [cond] is false. *)
Lemma while_loop_rule (P : X -> Prop) (mu : X -> nat) fuel cond body s :
  P s -> (mu s < fuel)%nat ->
  (forall s, P s -> cond s = true -> exists s', body s = ok s' /\ P s' /\ (mu s' < mu s)%nat) ->
  exists s', while_loop fuel cond body s = ok s' /\ P s' /\ cond s' = false.
Proof.
  intros HP Hmu Hstep. revert s HP Hmu. induction fuel as [|fuel IH]; intros s HP Hmu; [lia|]. simpl.
  destruct (cond s) eqn:Hc; [|eauto]. destruct (Hstep s HP Hc) as (s' & -> & HP' & Hmu').
  simpl. apply IH; [done|lia].
Qed.
End while_loop.

(** ** Timers

    The state of a [unique_timer] as its owner sees it ([state_t] of
    [timer_frontend]): the timer manager sets it to expired and calls the expiry
    callback in one task of the owner's executor. *)
Inductive timer_state := timer_stopped | timer_running | timer_expired.
#[export] Instance timer_state_eq_dec : EqDecision timer_state.
Proof. solve_decision. Defined.

Definition is_running (t : timer_state) : bool :=
  match t with timer_running => true | _ => false end.
Definition timer_run (t : timer_state) : timer_state := timer_running.
Definition timer_stop (t : timer_state) : timer_state :=
  if is_running t then timer_stopped else t.

(** ** Tactics *)

(** Case analysis on every boolean comparison of [Z] in sight. *)
Ltac zcases :=
  repeat match goal with
  | H : context [?a <? ?b] |- _ => destruct (Z.ltb_spec a b)
  | H : context [?a <=? ?b] |- _ => destruct (Z.leb_spec a b)
  | H : context [?a =? ?b] |- _ => destruct (Z.eqb_spec a b)
  | |- context [?a <? ?b] => destruct (Z.ltb_spec a b)
  | |- context [?a <=? ?b] => destruct (Z.leb_spec a b)
  | |- context [?a =? ?b] => destruct (Z.eqb_spec a b)
  end.

(** Resolves a comparison of the goal that [lia] can decide. *)
Ltac zfalse :=
  match goal with
  | |- context [?a <? ?b] => rewrite (proj2 (Z.ltb_ge a b)) by lia
  | |- context [?a <=? ?b] => rewrite (proj2 (Z.leb_gt a b)) by lia
  | |- context [?a =? ?b] => rewrite (proj2 (Z.eqb_neq a b)) by lia
  end.
Ltac ztrue :=
  match goal with
  | |- context [?a <? ?b] => rewrite (proj2 (Z.ltb_lt a b)) by lia
  | |- context [?a <=? ?b] => rewrite (proj2 (Z.leb_le a b)) by lia
  | |- context [?a =? ?b] => rewrite (proj2 (Z.eqb_eq a b)) by lia
  end.

(** Linear arithmetic with [/] and [mod] by constants. *)
Ltac divmod := Z.div_mod_to_equations; lia.

(** ** Lemmas on outcomes *)
Lemma bind_ok {A B} (a : A) (k : A -> outcome B) : (ok a ≫= k) = k a.
Proof. done. Qed.

Lemma bind_ok_inv {A B} (x : outcome A) (k : A -> outcome B) b :
  (x ≫= k) = ok b -> exists a, x = ok a /\ k a = ok b.
Proof. destruct x as [a|f]; simpl; [eauto|done]. Qed.

Lemma srsran_assert_ok (c : bool) : c = true -> srsran_assert c = ok tt.
Proof. by intros ->. Qed.

(** ** Lemmas on lists *)
Lemma list_filter_ext_in {A} (P Q : A -> Prop) `{forall x, Decision (P x)} `{forall x, Decision (Q x)} (l : list A) :
  (forall x, x ∈ l -> P x <-> Q x) -> filter P l = filter Q l.
Proof.
  induction l as [|x l IH]; intros Hpq; [done|]. rewrite !filter_cons, IH by (intros; apply Hpq; by right).
  destruct (Hpq x) as [H1 H2]; [by left|]. repeat case_decide; tauto.
Qed.

(** ** Lemmas on slices *)
Lemma slice_length {A} (d : list A) o n :
  0 <= o -> 0 <= n -> o + n <= zlen d -> zlen (slice d o n) = n.
Proof. intros. unfold slice. rewrite length_take, length_drop. lia. Qed.

Lemma slice_full {A} (d : list A) : slice d 0 (zlen d) = d.
Proof. unfold slice. rewrite drop_0, Nat2Z.id. apply take_ge; lia. Qed.

Lemma slice_drop {A} (d : list A) o n k :
  0 <= o -> 0 <= k <= n -> drop (Z.to_nat k) (slice d o n) = slice d (o + k) (n - k).
Proof.
  intros. unfold slice. rewrite skipn_firstn_comm, drop_drop. f_equal; [lia|f_equal; lia].
Qed.

Lemma slice_take {A} (d : list A) o n k :
  0 <= k <= n -> take (Z.to_nat k) (slice d o n) = slice d o k.
Proof. intros. unfold slice. rewrite take_take. f_equal; lia. Qed.

Lemma slice_app {A} (d : list A) o n k :
  0 <= o -> 0 <= n -> 0 <= k -> slice d o n ++ slice d (o + n) k = slice d o (n + k).
Proof.
  intros. unfold slice.
  replace (Z.to_nat (o + n)) with (Z.to_nat o + Z.to_nat n)%nat by lia.
  replace (Z.to_nat (n + k)) with (Z.to_nat n + Z.to_nat k)%nat by lia.
  rewrite <- drop_drop, take_take_drop. done.
Qed.

Lemma slice_nil {A} (d : list A) o n : n <= 0 -> slice d o n = [].
Proof. intros. unfold slice. replace (Z.to_nat n) with 0%nat by lia. done. Qed.

(** ** Lemmas on sequence numbers *)
Section sn.
Context {m W : Z} {HSN : SnSpace m W}.

Local Lemma sn_facts : 0 < W /\ m = 2 * W /\ m <> 0 /\ 0 < m.
Proof using HSN. destruct HSN; lia. Qed.

Lemma u32_mod x : u32 x mod m = x mod m.
Proof using HSN.
  unfold u32. destruct sn_divides as [k Hk]. pose proof sn_facts.
  rewrite Hk, (Z.mul_comm k m).
  rewrite Z.rem_mul_r by nia. rewrite (Z.mul_comm m), Z.mod_add by lia.
  apply Z.mod_mod; lia.
Qed.

Lemma sn_dist_mod b x : sn_dist m b x = (x - b) mod m.
Proof using HSN. apply u32_mod. Qed.

Lemma sn_next_mod x : sn_next m x = (x + 1) mod m.
Proof using HSN. apply u32_mod. Qed.

Lemma sn_dist_range b x : 0 <= sn_dist m b x < m.
Proof using HSN.
  rewrite sn_dist_mod. pose proof sn_facts. apply Z.mod_pos_bound; lia.
Qed.

Lemma sn_next_range x : 0 <= sn_next m x < m.
Proof using HSN.
  rewrite sn_next_mod. pose proof sn_facts. apply Z.mod_pos_bound; lia.
Qed.

Lemma sn_dist_self b : sn_dist m b b = 0.
Proof using HSN. rewrite sn_dist_mod, Z.sub_diag. done. Qed.

(** Distances only see residues. *)
Lemma sn_dist_mod_r b x : sn_dist m b (x mod m) = sn_dist m b x.
Proof using HSN.
  rewrite !sn_dist_mod. pose proof sn_facts. apply Zminus_mod_idemp_l.
Qed.

Lemma sn_dist_mod_l b x : sn_dist m (b mod m) x = sn_dist m b x.
Proof using HSN.
  rewrite !sn_dist_mod. pose proof sn_facts. apply Zminus_mod_idemp_r.
Qed.

Lemma sn_dist_add b d : 0 <= d < m -> sn_dist m b (b + d) = d.
Proof using HSN.
  intros. rewrite sn_dist_mod. replace (b + d - b) with d by lia.
  apply Z.mod_small; lia.
Qed.

Lemma sn_dist_inv b x : 0 <= x < m -> x = (b + sn_dist m b x) mod m.
Proof using HSN.
  intros. rewrite sn_dist_mod. pose proof sn_facts.
  rewrite Zplus_mod_idemp_r. replace (b + (x - b)) with x by lia.
  symmetry; apply Z.mod_small; lia.
Qed.

Lemma sn_dist_inj b x y :
  0 <= x < m -> 0 <= y < m -> sn_dist m b x = sn_dist m b y -> x = y.
Proof using HSN.
  intros Hx Hy E. rewrite (sn_dist_inv b x Hx), (sn_dist_inv b y Hy), E. done.
Qed.

Lemma sn_dist_0 b x : 0 <= b < m -> 0 <= x < m -> sn_dist m b x = 0 <-> x = b.
Proof using HSN.
  intros Hb Hx. split; [|intros ->; apply sn_dist_self].
  intros E. apply (sn_dist_inj b); [done..|]. by rewrite sn_dist_self.
Qed.

Lemma sn_dist_next b x :
  sn_dist m b (sn_next m x) = if sn_dist m b x + 1 =? m then 0 else sn_dist m b x + 1.
Proof using HSN.
  rewrite sn_next_mod, sn_dist_mod_r. pose proof (sn_dist_range b x) as Hr.
  rewrite !sn_dist_mod in *. replace (x + 1 - b) with (x - b + 1) by lia.
  rewrite <- Zplus_mod_idemp_l. zcases.
  - rewrite e. apply Z.mod_same. lia.
  - apply Z.mod_small. lia.
Qed.

Lemma sn_dist_next_lt b x : sn_dist m b x + 1 < m -> sn_dist m b (sn_next m x) = sn_dist m b x + 1.
Proof using HSN. intros. rewrite sn_dist_next. zcases; lia. Qed.

Lemma sn_dist_succ b x : sn_dist m b (x + 1) = sn_dist m b (sn_next m x).
Proof using HSN. rewrite sn_next_mod. by rewrite sn_dist_mod_r. Qed.

(** Moving the modulus base from [b] to [b']. *)
Lemma sn_dist_rebase b b' x :
  sn_dist m b' x =
  if sn_dist m b b' <=? sn_dist m b x then sn_dist m b x - sn_dist m b b'
  else sn_dist m b x - sn_dist m b b' + m.
Proof using HSN.
  pose proof (sn_dist_range b x). pose proof (sn_dist_range b b').
  assert (E : sn_dist m b' x = (sn_dist m b x - sn_dist m b b') mod m).
  { rewrite !sn_dist_mod. rewrite <- Zminus_mod. f_equal. lia. }
  rewrite E. zcases.
  - apply Z.mod_small. lia.
  - rewrite <- (Z.mod_small (sn_dist m b x - sn_dist m b b' + m) m) by lia.
    rewrite <- (Z_mod_plus_full _ 1). f_equal; lia.
Qed.

Lemma sn_dist_base_next b x :
  0 <= b < m -> 0 <= x < m -> x <> b ->
  sn_dist m (sn_next m b) x = sn_dist m b x - 1.
Proof using HSN.
  intros Hb Hx Hne. pose proof sn_facts. pose proof (sn_dist_range b x).
  assert (sn_dist m b x <> 0) by (rewrite sn_dist_0 by done; done).
  assert (m <> 1) by lia.
  rewrite (sn_dist_rebase b), sn_dist_next_lt by (rewrite sn_dist_self; lia).
  rewrite sn_dist_self. zcases; lia.
Qed.

(** Sequence numbers below a bound, one step further. *)
Lemma sn_dist_le_next b x n :
  sn_dist m b n + 1 < m -> 0 <= x < m -> 0 <= n < m ->
  sn_dist m b x < sn_dist m b (sn_next m n) <-> sn_dist m b x < sn_dist m b n \/ x = n.
Proof using HSN.
  intros Hn Hx Hnr. rewrite sn_dist_next_lt by done. split; [|intros [?| ->]; lia].
  intros H. destruct (decide (sn_dist m b x < sn_dist m b n)); [by left|right].
  apply (sn_dist_inj b); lia.
Qed.

(** Within one window, distinct sequence numbers use distinct slots of an
    array of [W] elements. *)
Lemma sn_slot_inj b x y :
  0 <= x < m -> 0 <= y < m ->
  sn_dist m b x < W -> sn_dist m b y < W -> x mod W = y mod W -> x = y.
Proof using HSN.
  intros Hx Hy Dx Dy E. pose proof sn_facts. apply (sn_dist_inj b); [done..|].
  pose proof (sn_dist_range b x). pose proof (sn_dist_range b y).
  assert (Hs : forall z, sn_dist m b z mod W = (z - b) mod W).
  { intros z. rewrite sn_dist_mod. destruct HSN as [_ -> _].
    rewrite (Z.mul_comm 2 W), Z.rem_mul_r by lia.
    rewrite (Z.mul_comm W), Z.mod_add by lia. apply Z.mod_mod; lia. }
  rewrite <- (Z.mod_small (sn_dist m b x) W), <- (Z.mod_small (sn_dist m b y) W) by lia.
  rewrite !Hs, (Zminus_mod x b W), (Zminus_mod y b W), E. done.
Qed.
End sn.

(** ** Automation

    [rlc]: ranges of sequence numbers and results that reduce; [auto with rlc] and
    [autorewrite with rlc] close the common cases. *)
Create HintDb rlc.
Create Rewrite HintDb rlc.
#[export] Hint Resolve sn_dist_range sn_next_range u32_small u16_small srsran_assert_ok : rlc.
#[export] Hint Rewrite @bind_ok @slice_full : rlc.

(** ** Bit fields as arithmetic *)

Lemma land_shiftl_low a b k : 0 <= k -> 0 <= b < 2 ^ k -> Z.land (Z.shiftl a k) b = 0.
Proof.
  intros Hk Hb. apply Z.bits_inj'. intros i Hi. rewrite Z.land_spec, Z.bits_0.
  destruct (decide (i < k)).
  - by rewrite Z.shiftl_spec_low.
  - rewrite <- (Z.mod_small b (2 ^ k)), Z.mod_pow2_bits_high, andb_false_r by lia. done.
Qed.

Lemma lor_shiftl_add a b k :
  0 <= k -> 0 <= b < 2 ^ k -> Z.lor (Z.shiftl a k) b = a * 2 ^ k + b.
Proof.
  intros Hk Hb. pose proof (Z.add_lor_land (Z.shiftl a k) b) as H.
  rewrite land_shiftl_low, Z.shiftl_mul_pow2 in H by lia.
  rewrite Z.shiftl_mul_pow2 by lia. lia.
Qed.

Lemma land_mask x k : 0 <= k -> Z.land x (2 ^ k - 1) = x mod 2 ^ k.
Proof. intros. rewrite <- Z.land_ones by lia. by rewrite Z.ones_equiv, <- Z.sub_1_r. Qed.

(** Proof by computation over all [0 <= x < n]. *)
Lemma forall_below (n : Z) (P : Z -> bool) :
  forallb P (Z.of_nat <$> seq 0 (Z.to_nat n)) = true ->
  forall x, 0 <= x < n -> P x = true.
Proof.
  rewrite forallb_forall. intros H x Hx. apply H, list_elem_of_In, list_elem_of_fmap.
  exists (Z.to_nat x). split; [lia|]. apply elem_of_seq. lia.
Qed.

(** A byte masked by a single bit. *)
Lemma land_pow2_testbit x k : 0 <= k -> (Z.land x (2 ^ k) =? 0) = negb (Z.testbit x k).
Proof.
  intros. destruct (Z.testbit x k) eqn:E; simpl.
  - apply Z.eqb_neq. intros H0. apply (f_equal (fun z => Z.testbit z k)) in H0.
    rewrite Z.land_spec, E, Z.pow2_bits_true, Z.bits_0 in H0 by lia. done.
  - apply Z.eqb_eq, Z.bits_inj'. intros i Hi. rewrite Z.land_spec, Z.bits_0.
    destruct (decide (i = k)) as [->|]; [by rewrite E|].
    rewrite Z.pow2_bits_false by lia. apply andb_false_r.
Qed.

(** Closes [forall x, 0 <= x < n -> Q x] for decidable [Q] by evaluation. *)
Lemma decide_below (n : Z) (Q : Z -> Prop) `{forall x, Decision (Q x)} :
  forallb (fun x => bool_decide (Q x)) (Z.of_nat <$> seq 0 (Z.to_nat n)) = true ->
  forall x, 0 <= x < n -> Q x.
Proof.
  intros Hall x Hx. apply (bool_decide_eq_true (Q x)).
  by apply (forall_below n (fun x => bool_decide (Q x)) Hall).
Qed.

Ltac by_evaluation n x :=
  generalize dependent x;
  match goal with
  | |- forall x, ?A -> ?B => apply (decide_below n (fun x => B)); vm_compute; reflexivity
  | |- forall x, ?B => fail "range hypothesis expected"
  end.
