(* ===== verification/Timers.v ===== *)
(** * The timers ([include/srsran/support/timers.h], [lib/support/timers.cpp])

    A [unique_timer] (front-end) belongs to one execution context; the [timer_manager] (back-end) runs in the thread that
    calls [tick()]. They share the pending commands, the pool of free timers and, of each front-end, the identifier of
    its last command. Expiry is a task handed to the executor of the front-end.

    The model has every method as a function; [step] cuts them where another thread can be seen to run in
    between, so that [wsteps] has the interleavings of any number of clients, the ticking thread and the executors.
    Timers are named by their ids: [timers[id].frontend->id] is [id]. *)
From S2P Require Import Prelude.

(** ** Data *)

(** [timer_duration] counts milliseconds in 64 bits, signed. *)
Definition INVALID_DURATION : Z := 2 ^ 63 - 1.
Definition WHEEL_SHIFT : Z := 16.
Definition WHEEL_SIZE : Z := Z.shiftl 1 WHEEL_SHIFT.
Definition WHEEL_MASK : Z := WHEEL_SIZE - 1.
(** [std::numeric_limits<unsigned>::max() / 2] *)
Definition MAX_TIMER_DURATION : Z := (2 ^ 32 - 1) / 2.
(** [timer_id_t::invalid] *)
Definition timer_id_invalid : Z := 2 ^ 32 - 1.

Inductive action_t := action_start | action_stop | action_destroy.

Record cmd_t := mk_cmd { c_id : Z; c_cmd_id : Z; c_action : action_t; c_duration : Z }.

(** [std::variant<cmd_t, std::unique_ptr<timer_frontend>>] *)
Inductive timer_event :=
| tev_create (id : Z)
| tev_cmd (c : cmd_t).

Record timer_frontend := mk_frontend {
  fe_exec : option Z;           (* the executor, by its name; None is nullptr *)
  fe_cmd_id : Z;
  fe_state : timer_state;
  fe_duration : Z;
  fe_callback : bool            (* whether a timeout_callback is set *)
}.

Record timer_backend_context := mk_backend { be_cmd_id : Z; be_state : timer_state; be_timeout : Z }.

Record timer_handle := mk_handle { th_frontend : option Z; th_backend : timer_backend_context }.

(** What [trigger_timeout_handling] captures: the executor, the timer and the epoch of the run that expired. *)
Record expiry_task := mk_task { t_exec : Z; t_id : Z; t_epoch : Z }.

(** The members of [timer_manager], with the objects it owns through pointers ([frontends]), the tasks that wait in
    executors and the log of the callbacks made. *)
Record timer_manager := mk_manager {
  cur_time : Z;
  nof_timers_running : Z;
  timers : list timer_handle;
  timer_pool : list Z;
  next_timer_id : Z;
  time_wheel : gmap Z (list Z);
  failed_to_trigger_timers : list (Z * Z);
  pending_cmds : list timer_event;
  frontends : gmap Z timer_frontend;
  tasks : list expiry_task;
  callbacks : list (Z * Z)      (* id and epoch of each callback, the latest last *)
}.

(** Assignments to single members. *)
Definition set_cur_time (m : timer_manager) x := mk_manager x (nof_timers_running m) (timers m) (timer_pool m)
  (next_timer_id m) (time_wheel m) (failed_to_trigger_timers m) (pending_cmds m) (frontends m) (tasks m) (callbacks m).
Definition set_running (m : timer_manager) n w := mk_manager (cur_time m) n (timers m) (timer_pool m)
  (next_timer_id m) w (failed_to_trigger_timers m) (pending_cmds m) (frontends m) (tasks m) (callbacks m).
Definition set_timers (m : timer_manager) x := mk_manager (cur_time m) (nof_timers_running m) x (timer_pool m)
  (next_timer_id m) (time_wheel m) (failed_to_trigger_timers m) (pending_cmds m) (frontends m) (tasks m) (callbacks m).
Definition set_pool (m : timer_manager) x := mk_manager (cur_time m) (nof_timers_running m) (timers m) x
  (next_timer_id m) (time_wheel m) (failed_to_trigger_timers m) (pending_cmds m) (frontends m) (tasks m) (callbacks m).
Definition set_next_id (m : timer_manager) x := mk_manager (cur_time m) (nof_timers_running m) (timers m) (timer_pool m)
  x (time_wheel m) (failed_to_trigger_timers m) (pending_cmds m) (frontends m) (tasks m) (callbacks m).
Definition set_failed (m : timer_manager) x := mk_manager (cur_time m) (nof_timers_running m) (timers m) (timer_pool m)
  (next_timer_id m) (time_wheel m) x (pending_cmds m) (frontends m) (tasks m) (callbacks m).
Definition set_pending (m : timer_manager) x := mk_manager (cur_time m) (nof_timers_running m) (timers m) (timer_pool m)
  (next_timer_id m) (time_wheel m) (failed_to_trigger_timers m) x (frontends m) (tasks m) (callbacks m).
Definition set_frontends (m : timer_manager) x := mk_manager (cur_time m) (nof_timers_running m) (timers m) (timer_pool m)
  (next_timer_id m) (time_wheel m) (failed_to_trigger_timers m) (pending_cmds m) x (tasks m) (callbacks m).
Definition set_tasks (m : timer_manager) x := mk_manager (cur_time m) (nof_timers_running m) (timers m) (timer_pool m)
  (next_timer_id m) (time_wheel m) (failed_to_trigger_timers m) (pending_cmds m) (frontends m) x (callbacks m).
Definition set_callbacks (m : timer_manager) x := mk_manager (cur_time m) (nof_timers_running m) (timers m) (timer_pool m)
  (next_timer_id m) (time_wheel m) (failed_to_trigger_timers m) (pending_cmds m) (frontends m) (tasks m) x.

Definition default_frontend : timer_frontend := mk_frontend None 0 timer_stopped INVALID_DURATION false.
Definition default_handle : timer_handle := mk_handle None (mk_backend 0 timer_stopped 0).

(** [timers[id]] and the object behind a pointer to a front-end. *)
Definition get_timer (m : timer_manager) (id : Z) : outcome timer_handle :=
  match timers m !! Z.to_nat id with Some h => ok h | None => fail invalid_access end.
Definition get_frontend (m : timer_manager) (id : Z) : outcome timer_frontend :=
  match frontends m !! id with Some f => ok f | None => fail invalid_access end.
Definition frontend_of (m : timer_manager) (h : timer_handle) : outcome timer_frontend :=
  match th_frontend h with Some id => get_frontend m id | None => fail invalid_access end.

Definition set_handle (m : timer_manager) (id : Z) (h : timer_handle) : timer_manager :=
  set_timers m (<[Z.to_nat id := h]> (timers m)).
Definition set_backend (m : timer_manager) (id : Z) (h : timer_handle) (b : timer_backend_context) : timer_manager :=
  set_handle m id (mk_handle (th_frontend h) b).
Definition set_frontend (m : timer_manager) (id : Z) (f : timer_frontend) : timer_manager :=
  set_frontends m (<[id := f]> (frontends m)).

(** ** The front-end

    Each method returns the new front-end and the command it pushes, if any; all of them count [cmd_id] up first. *)
Definition fe_bump (f : timer_frontend) : timer_frontend :=
  mk_frontend (fe_exec f) (u32 (fe_cmd_id f + 1)) (fe_state f) (fe_duration f) (fe_callback f).
Definition fe_set_state (f : timer_frontend) (s : timer_state) : timer_frontend :=
  mk_frontend (fe_exec f) (fe_cmd_id f) s (fe_duration f) (fe_callback f).
Definition fe_set_duration (f : timer_frontend) (d : Z) : timer_frontend :=
  mk_frontend (fe_exec f) (fe_cmd_id f) (fe_state f) d (fe_callback f).
Definition fe_set_callback (f : timer_frontend) (c : bool) : timer_frontend :=
  mk_frontend (fe_exec f) (fe_cmd_id f) (fe_state f) (fe_duration f) c.
Definition fe_set_exec (f : timer_frontend) (e : option Z) : timer_frontend :=
  mk_frontend e (fe_cmd_id f) (fe_state f) (fe_duration f) (fe_callback f).

(** [cmd_t{id, cmd_id, start, (unsigned)duration.count()}]; the other commands leave the duration 0. *)
Definition start_cmd (id : Z) (f : timer_frontend) : cmd_t :=
  mk_cmd id (fe_cmd_id f) action_start (u32 (fe_duration f)).

Definition frontend_destroy (id : Z) (f : timer_frontend) : outcome (timer_frontend * option cmd_t) :=
  let f := fe_set_state (fe_bump f) timer_stopped in
  ok (f, Some (mk_cmd id (fe_cmd_id f) action_destroy 0)).

Definition frontend_set (dur : Z) (id : Z) (f : timer_frontend) : outcome (timer_frontend * option cmd_t) :=
  srsran_assert (dur <=? MAX_TIMER_DURATION);;
  let f := fe_set_duration (fe_bump f) dur in
  ok (f, if is_running (fe_state f) then Some (start_cmd id f) else None).

Definition frontend_set_callback (dur : Z) (callback : bool) (id : Z) (f : timer_frontend)
    : outcome (timer_frontend * option cmd_t) :=
  '(f, c) ← frontend_set dur id f;
  ok (fe_set_callback f callback, c).

Definition frontend_run (id : Z) (f : timer_frontend) : outcome (timer_frontend * option cmd_t) :=
  let f := fe_set_state (fe_bump f) timer_running in
  ok (f, Some (start_cmd id f)).

Definition frontend_stop (id : Z) (f : timer_frontend) : outcome (timer_frontend * option cmd_t) :=
  let f := fe_set_state (fe_bump f) timer_stopped in
  ok (f, Some (mk_cmd id (fe_cmd_id f) action_stop 0)).

(** *** [unique_timer], whose [handle] is the id of a front-end or null *)
Definition is_valid (handle : option Z) : bool := match handle with Some _ => true | None => false end.
Definition handle_frontend (m : timer_manager) (handle : option Z) : option timer_frontend :=
  id ← handle; frontends m !! id.
Definition unique_timer_id (handle : option Z) : Z := default timer_id_invalid handle.
Definition is_set (m : timer_manager) (handle : option Z) : bool :=
  match handle_frontend m handle with Some f => negb (fe_duration f =? INVALID_DURATION) | None => false end.
Definition timer_is_running (m : timer_manager) (handle : option Z) : bool :=
  match handle_frontend m handle with Some f => is_running (fe_state f) | None => false end.
Definition has_expired (m : timer_manager) (handle : option Z) : bool :=
  match handle_frontend m handle with Some f => bool_decide (fe_state f = timer_expired) | None => false end.
Definition timer_duration (m : timer_manager) (handle : option Z) : Z :=
  match handle_frontend m handle with Some f => fe_duration f | None => INVALID_DURATION end.

(** The calls a client makes on its [unique_timer]. *)
Inductive timer_op :=
| op_set (dur : Z)
| op_set_callback (dur : Z) (callback : bool)
| op_run
| op_stop
| op_reset.

(** [stop()] only reaches a running front-end; the others assert that the handle is valid, except [reset()]. *)
Definition unique_timer_op (op : timer_op) (id : Z) (f : timer_frontend) : outcome (timer_frontend * option cmd_t) :=
  match op with
  | op_set dur => frontend_set dur id f
  | op_set_callback dur callback => frontend_set_callback dur callback id f
  | op_run => frontend_run id f
  | op_stop => if is_running (fe_state f) then frontend_stop id f else ok (f, None)
  | op_reset => frontend_destroy id f
  end.

Definition push_timer_command (m : timer_manager) (c : cmd_t) : timer_manager :=
  set_pending m (pending_cmds m ++ [tev_cmd c]).

(** A whole call on a valid handle, and on one that [reset] or a move left null. *)
Definition unique_timer_call (op : timer_op) (handle : option Z) (m : timer_manager) : outcome timer_manager :=
  match handle with
  | None => match op with op_stop | op_reset => ok m | _ => fail assertion end
  | Some id =>
      f ← get_frontend m id;
      '(f, c) ← unique_timer_op op id f;
      let m := set_frontend m id f in
      ok (match c with Some c => push_timer_command m c | None => m end)
  end.

(** ** The back-end *)

(** Elements of the wheel: [intrusive_double_linked_list] of handles, by their ids. *)
Definition wheel_index (timeout : Z) : Z := Z.land timeout WHEEL_MASK.
Definition wheel_bucket (w : gmap Z (list Z)) (k : Z) : list Z := default [] (w !! k).
Definition wheel_push_front (w : gmap Z (list Z)) (k id : Z) : gmap Z (list Z) :=
  <[k := id :: wheel_bucket w k]> w.
(** [pop] of an element that is not in the list would corrupt it. *)
Definition wheel_pop (w : gmap Z (list Z)) (k id : Z) : outcome (gmap Z (list Z)) :=
  if bool_decide (id ∈ wheel_bucket w k) then ok (<[k := filter (.≠ id) (wheel_bucket w k)]> w)
  else fail invalid_access.

(** The back-end runs in the ticking thread. [defer] of an executor may refuse the task: [accept]. *)
Definition trigger_timeout_handling (accept : bool) (timer : timer_handle) (m : timer_manager)
    : outcome (timer_manager * bool) :=
  f ← frontend_of m timer;
  match fe_exec f, th_frontend timer with
  | Some exec, Some id =>
      ok (if accept then (set_tasks m (tasks m ++ [mk_task exec id (be_cmd_id (th_backend timer))]), true)
          else (m, false))
  | _, _ => fail invalid_access
  end.

Definition try_stop_timer_backend (accept : bool) (id : Z) (expiry_reason : bool) (m : timer_manager)
    : outcome (timer_manager * bool) :=
  timer ← get_timer m id;
  let b := th_backend timer in
  if negb (is_running (be_state b)) then ok (m, false) else
  w ← wheel_pop (time_wheel m) (wheel_index (be_timeout b)) id;
  let m := set_running m (u64 (nof_timers_running m - 1)) w in
  let timer := mk_handle (th_frontend timer)
    (mk_backend (be_cmd_id b) (if expiry_reason then timer_expired else timer_stopped) (be_timeout b)) in
  let m := set_handle m id timer in
  if negb expiry_reason then ok (m, true) else
  f ← frontend_of m timer;
  if be_cmd_id (th_backend timer) =? fe_cmd_id f then
    '(m, success) ← trigger_timeout_handling accept timer m;
    ok (if success : bool then (m, true)
        else (set_failed m (failed_to_trigger_timers m ++ [(id, be_cmd_id (th_backend timer))]), true))
  else ok (m, true).

Definition stop_timer_backend (accept : bool) (id : Z) (expiry_reason : bool) (m : timer_manager) : outcome timer_manager :=
  timer ← get_timer m id;
  srsran_assert (is_running (be_state (th_backend timer)));;
  '(m, _) ← try_stop_timer_backend accept id expiry_reason m;
  ok m.

Definition start_timer_backend (id : Z) (duration : Z) (m : timer_manager) : outcome timer_manager :=
  timer ← get_timer m id;
  srsran_assert (negb (is_running (be_state (th_backend timer))));;
  srsran_assert (is_valid (th_frontend timer));;
  let timeout := u32 (cur_time m + Z.max duration 1) in
  let m := set_backend m id timer (mk_backend (be_cmd_id (th_backend timer)) timer_running timeout) in
  ok (set_running m (u64 (nof_timers_running m + 1)) (wheel_push_front (time_wheel m) (wheel_index timeout) id)).

Definition destroy_timer_backend (id : Z) (m : timer_manager) : outcome timer_manager :=
  timer ← get_timer m id;
  srsran_assert (negb (is_running (be_state (th_backend timer))));;
  f ← frontend_of m timer;
  let m := set_frontend m id (mk_frontend None (fe_cmd_id f) timer_stopped INVALID_DURATION false) in
  let m := set_backend m id timer (mk_backend (be_cmd_id (th_backend timer)) timer_stopped 0) in
  ok (set_pool m (timer_pool m ++ [id])).

(** [timers.resize(n)] appends default handles. *)
Definition create_timer_handle (id : Z) (m : timer_manager) : outcome timer_manager :=
  srsran_assert (match timers m !! Z.to_nat id with Some h => negb (is_valid (th_frontend h)) | None => true end);;
  let ts := timers m ++ replicate (S (Z.to_nat id) - length (timers m)) default_handle in
  ok (set_timers m (alter (fun h => mk_handle (Some id) (th_backend h)) (Z.to_nat id) ts)).

(** One turn of the loop over [cmds_to_process]. *)
Definition process_command (ev : timer_event) (m : timer_manager) : outcome timer_manager :=
  match ev with
  | tev_create id => create_timer_handle id m
  | tev_cmd c =>
      timer ← get_timer m (c_id c);
      let b := th_backend timer in
      let m := set_backend m (c_id c) timer (mk_backend (c_cmd_id c) (be_state b) (be_timeout b)) in
      '(m, _) ← try_stop_timer_backend false (c_id c) false m;
      match c_action c with
      | action_start => start_timer_backend (c_id c) (c_duration c) m
      | action_destroy => destroy_timer_backend (c_id c) m
      | action_stop => ok m
      end
  end.

(** One turn of the loop of [handle_postponed_timeouts]; the result tells whether the loop goes on. *)
Definition postponed_turn (accept : bool) (m : timer_manager) : outcome (timer_manager * bool) :=
  match failed_to_trigger_timers m with
  | [] => ok (m, false)
  | (id, prev_cmd_id) :: rest =>
      timer ← get_timer m id;
      f ← frontend_of m timer;
      let e := be_cmd_id (th_backend timer) in
      '(m, failed) ← (if (e =? prev_cmd_id) && (e =? fe_cmd_id f) then
                        '(m, success) ← trigger_timeout_handling accept timer m; ok (m, negb success)
                      else ok (m, false));
      ok (if failed : bool then (m, false) else (set_failed m rest, true))
  end.

Fixpoint postponed_loop (fuel : nat) (accept : Z -> bool) (m : timer_manager) : outcome timer_manager :=
  match fuel with
  | O => fail out_of_fuel
  | S fuel =>
      '(m, go) ← postponed_turn (accept (default 0 (fst <$> head (failed_to_trigger_timers m)))) m;
      if go : bool then postponed_loop fuel accept m else ok m
  end.

(** Every turn of the loop that goes on removes an element. *)
Definition handle_postponed_timeouts (accept : Z -> bool) (m : timer_manager) : outcome timer_manager :=
  postponed_loop (S (length (failed_to_trigger_timers m))) accept m.

(** One turn of the loop over the bucket of the current time. *)
Definition expire_turn (accept : bool) (elem : Z) (m : timer_manager) : outcome timer_manager :=
  it ← get_timer m elem;
  match th_frontend it with
  | None => fail assertion
  | Some id =>
      timer ← get_timer m id;
      if negb (cur_time m =? be_timeout (th_backend timer)) then ok m
      else stop_timer_backend accept id true m
  end.

(** A loop over the elements of a container. *)
Fixpoint for_each {A B} (body : A -> B -> outcome B) (l : list A) (s : B) : outcome B :=
  match l with
  | [] => ok s
  | x :: l => s ← body x s; for_each body l s
  end.

(** The loop over the bucket moves its iterator on before the element may be removed, and removes nothing else, so it
    visits the elements the bucket has when it starts. *)
Definition tick (accept : Z -> bool) (m : timer_manager) : outcome timer_manager :=
  let cmds_to_process := pending_cmds m in
  let m := set_pending m [] in
  m ← for_each process_command cmds_to_process m;
  m ← handle_postponed_timeouts accept m;
  let m := set_cur_time m (u32 (cur_time m + 1)) in
  for_each (fun id => expire_turn (accept id) id) (wheel_bucket (time_wheel m) (wheel_index (cur_time m))) m.

(** The task that [trigger_timeout_handling] defers, run by the executor of the front-end. *)
Definition run_expiry_task (t : expiry_task) (m : timer_manager) : outcome timer_manager :=
  f ← get_frontend m (t_id t);
  if fe_cmd_id f =? t_epoch t then
    srsran_assert (is_running (fe_state f));;
    let m := set_frontend m (t_id t) (fe_set_state f timer_expired) in
    ok (if fe_callback f then set_callbacks m (callbacks m ++ [(t_id t, t_epoch t)]) else m)
  else ok m.

(** ** Creation *)

(** The constructor, which reserves [capacity] timers. *)
Definition timer_manager_ctor (capacity : nat) : timer_manager :=
  let ids := Z.of_nat <$> seq 0 capacity in
  mk_manager 0 0 ((fun id => mk_handle (Some id) (mk_backend 0 timer_stopped 0)) <$> ids) ids (Z.of_nat capacity)
    ∅ [] [] (list_to_map ((fun id => (id, default_frontend)) <$> ids)) [] [].

(** [create_frontend_timer]: [reuse] is what [pop] of the pool finds. A front-end that is new still has to be forwarded
    to the back-end. *)
Definition create_frontend_timer (exec : Z) (reuse : option Z) (m : timer_manager) : outcome (timer_manager * Z) :=
  match reuse with
  | Some id =>
      let m := set_pool m (filter (.≠ id) (timer_pool m)) in
      f ← get_frontend m id;
      srsran_assert (negb (is_valid (fe_exec f)));;
      ok (set_frontend m id (fe_set_exec f (Some exec)), id)
  | None =>
      let id := next_timer_id m in
      let m := set_next_id m (u32 (next_timer_id m + 1)) in
      ok (set_frontend m id (fe_set_exec default_frontend (Some exec)), id)
  end.
Definition forward_timer (id : Z) (m : timer_manager) : timer_manager :=
  set_pending m (pending_cmds m ++ [tev_create id]).

Definition create_unique_timer (exec : Z) (reuse : option Z) (m : timer_manager) : outcome (timer_manager * option Z) :=
  '(m, id) ← create_frontend_timer exec reuse m;
  ok (match reuse with Some _ => m | None => forward_timer id m end, Some id).

Definition nof_timers (m : timer_manager) : Z := zlen (timers m) - Z.min (zlen (timers m)) (zlen (timer_pool m)).
Definition nof_running_timers (m : timer_manager) : Z := u32 (nof_timers_running m).

(** ** Interleavings

    Where the ticking thread is. *)
Inductive tick_phase :=
| phase_idle
| phase_commands (cmds_to_process : list timer_event)
| phase_postponed
| phase_advance
| phase_expire (todo : list Z).

(** What the owner of a timer is doing: nothing, about to forward a new front-end, or about to push a command. *)
Inductive client := client_idle | client_forward | client_push (c : cmd_t).

Record world := mk_world {
  w_mgr : timer_manager;
  w_phase : tick_phase;
  w_clients : gmap Z client     (* the live [unique_timer]s *)
}.

(** A step of some thread. The two halves of a call on a timer are its accesses to the front-end and its push under the mutex. *)
Inductive label :=
| l_create (exec : Z) (reuse : option Z)
| l_op (id : Z) (op : timer_op)
| l_push (id : Z)
| l_tick (accept : bool)
| l_exec (k : nat).

(** The ticking thread, up to the next point where another thread may run. *)
Definition tick_step (accept : bool) (p : tick_phase) (m : timer_manager) : outcome (timer_manager * tick_phase) :=
  match p with
  | phase_idle => ok (set_pending m [], phase_commands (pending_cmds m))
  | phase_commands (ev :: cmds) => m ← process_command ev m; ok (m, phase_commands cmds)
  | phase_commands [] => ok (m, phase_postponed)
  | phase_postponed =>
      '(m, go) ← postponed_turn accept m; ok (m, if go : bool then phase_postponed else phase_advance)
  | phase_advance =>
      let m := set_cur_time m (u32 (cur_time m + 1)) in
      ok (m, phase_expire (wheel_bucket (time_wheel m) (wheel_index (cur_time m))))
  | phase_expire (id :: todo) => m ← expire_turn accept id m; ok (m, phase_expire todo)
  | phase_expire [] => ok (m, phase_idle)
  end.

Definition step (l : label) (w : world) : outcome world :=
  let m := w_mgr w in
  match l with
  | l_create exec reuse =>
      '(m, id) ← create_frontend_timer exec reuse m;
      ok (mk_world m (w_phase w)
        (<[id := match reuse with Some _ => client_idle | None => client_forward end]> (w_clients w)))
  | l_op id op =>
      f ← get_frontend m id;
      '(f, c) ← unique_timer_op op id f;
      ok (mk_world (set_frontend m id f) (w_phase w)
        (<[id := match c with Some c => client_push c | None => client_idle end]> (w_clients w)))
  | l_push id =>
      match w_clients w !! id with
      | Some client_forward => ok (mk_world (forward_timer id m) (w_phase w) (<[id := client_idle]> (w_clients w)))
      | Some (client_push c) =>
          ok (mk_world (push_timer_command m c) (w_phase w)
            (match c_action c with
             | action_destroy => delete id (w_clients w)
             | _ => <[id := client_idle]> (w_clients w)
             end))
      | _ => ok w
      end
  | l_tick accept => '(m, p) ← tick_step accept (w_phase w) m; ok (mk_world m p (w_clients w))
  | l_exec k =>
      match tasks m !! k with
      | Some t => m ← run_expiry_task t (set_tasks m (delete k (tasks m))); ok (mk_world m (w_phase w) (w_clients w))
      | None => ok w
      end
  end.

(** What the threads may do: clients reuse timers of the pool, call one method at a time on the timers they own, with durations
    that fit, and fewer than 2^32 times per timer; an executor runs its tasks when the client in it is not in a call. *)
Definition enabled (l : label) (w : world) : bool :=
  let m := w_mgr w in
  match l with
  | l_create _ (Some id) => bool_decide (id ∈ timer_pool m)
  | l_create _ None => next_timer_id m <? timer_id_invalid
  | l_op id op =>
      match w_clients w !! id, frontends m !! id with
      | Some client_idle, Some f =>
          (fe_cmd_id f + 1 <? 2 ^ 32) &&
          match op with op_set d | op_set_callback d _ => d <=? MAX_TIMER_DURATION | _ => true end
      | _, _ => false
      end
  | l_push id => match w_clients w !! id with Some client_forward | Some (client_push _) => true | _ => false end
  | l_tick _ => true
  | l_exec k =>
      match tasks m !! k with
      | Some t => match w_clients w !! t_id t with Some (client_push _) => false | _ => true end
      | None => false
      end
  end.

Definition init_world (capacity : nat) : world := mk_world (timer_manager_ctor capacity) phase_idle ∅.

(** Runs, with the number of ticks that advance the time in them. *)
Definition advances (l : label) (w : world) : nat :=
  match l, w_phase w with l_tick _, phase_advance => 1 | _, _ => 0 end.
Inductive wsteps : nat -> world -> world -> Prop :=
| wsteps_refl w : wsteps 0 w w
| wsteps_step n w1 l w2 w3 :
    wsteps n w1 w2 -> enabled l w2 = true -> step l w2 = ok w3 -> wsteps (n + advances l w2) w1 w3.

Definition reachable (w : world) : Prop := exists capacity n, Z.of_nat capacity < 2 ^ 31 /\ wsteps n (init_world capacity) w.
