(* ===== verification/TimersInv.v ===== *)
(** * Invariant of the timers, in every interleaving

    Each timer is described by a [view]: all that the world holds about it. The right to expire is a token that
    the start command of a run carries; it moves to the back-end, to a task of the executor or to the list of
    postponed timeouts, and is consumed by the expiry. [view_ok] says that no run has two tokens and that the
    current run has one exactly when the front-end is running. Steps of one timer do not change the views of others. *)
From stdpp Require Import sorting.
From S2P Require Import Prelude Timers.

(** ** Views *)
Record view := mk_view {
  v_alloc : bool;               (* the front-end exists *)
  v_created : bool;             (* the back-end knows it *)
  v_known : bool;               (* the back-end knows it or will before the commands in the queue end *)
  v_free : bool;
  v_client : option client;
  v_fe : timer_frontend;
  v_be : timer_backend_context;
  v_cmds : list cmd_t;          (* commands the back-end has not processed, the one about to be pushed last *)
  v_tasks : list Z;
  v_failed : list Z;
  v_fired : list Z
}.

Definition w_queue (w : world) : list timer_event :=
  match w_phase w with phase_commands cmds => cmds | _ => [] end ++ pending_cmds (w_mgr w).

Definition event_cmd (id : Z) (ev : timer_event) : option cmd_t :=
  match ev with tev_cmd c => if c_id c =? id then Some c else None | tev_create _ => None end.
Definition cmds_for (id : Z) (q : list timer_event) : list cmd_t := omap (event_cmd id) q.

Definition creates (id : Z) (ev : timer_event) : bool := match ev with tev_create i => i =? id | _ => false end.

Definition handle_of (m : timer_manager) (id : Z) : timer_handle := default default_handle (timers m !! Z.to_nat id).
Definition created (m : timer_manager) (id : Z) : bool := is_valid (th_frontend (handle_of m id)).

(** The ids known after a queue, and queues in which the commands of a timer follow its creation. *)
Definition known_after (known : Z -> bool) (q : list timer_event) (id : Z) : bool := known id || existsb (creates id) q.
Fixpoint queue_ok (known : Z -> bool) (q : list timer_event) : Prop :=
  match q with
  | [] => True
  | tev_create id :: q => 0 <= id /\ known id = false /\ queue_ok (fun i => known i || (id =? i)) q
  | tev_cmd c :: q => 0 <= c_id c /\ known (c_id c) = true /\ queue_ok known q
  end.

Definition client_cmd (c : option client) : list cmd_t := match c with Some (client_push c) => [c] | _ => [] end.

Definition epochs {A} (key : A -> Z) (epoch : A -> Z) (id : Z) (l : list A) : list Z :=
  epoch <$> filter (fun x => key x = id) l.

Definition view_of (w : world) (id : Z) : view :=
  let m := w_mgr w in
  {| v_alloc := bool_decide (is_Some (frontends m !! id));
     v_created := created m id;
     v_known := known_after (created m) (w_queue w) id;
     v_free := bool_decide (id ∈ timer_pool m);
     v_client := w_clients w !! id;
     v_fe := default default_frontend (frontends m !! id);
     v_be := th_backend (handle_of m id);
     v_cmds := cmds_for id (w_queue w) ++ client_cmd (w_clients w !! id);
     v_tasks := epochs t_id t_epoch id (tasks m);
     v_failed := epochs fst snd id (failed_to_trigger_timers m);
     v_fired := epochs fst snd id (callbacks m) |}.

(** ** Tokens *)
Definition is_start (c : cmd_t) : Prop := c_action c = action_start.
#[export] Instance is_start_dec c : Decision (is_start c).
Proof. unfold is_start. destruct (c_action c); [by left|by right..]. Defined.
Definition start_tokens (cs : list cmd_t) : list Z := c_cmd_id <$> filter is_start cs.
Definition be_token (b : timer_backend_context) : list Z := if is_running (be_state b) then [be_cmd_id b] else [].
Definition tokens (v : view) : list Z := start_tokens (v_cmds v) ++ be_token (v_be v) ++ v_tasks v ++ v_failed v.

Record view_ok (v : view) : Prop := {
  vo_once : NoDup (tokens v ++ v_fired v);
  vo_bound : Forall (fun e => e <= fe_cmd_id (v_fe v)) (tokens v ++ v_fired v);
  vo_current : fe_cmd_id (v_fe v) ∈ tokens v <-> fe_state (v_fe v) = timer_running;
  vo_order : StronglySorted Z.lt (be_cmd_id (v_be v) :: (c_cmd_id <$> v_cmds v));
  vo_cmds : Forall (fun e => e <= fe_cmd_id (v_fe v)) (be_cmd_id (v_be v) :: (c_cmd_id <$> v_cmds v));
  vo_failed : Forall (fun e => e <= be_cmd_id (v_be v)) (v_failed v);
  vo_range : 0 <= be_cmd_id (v_be v) /\ fe_cmd_id (v_fe v) < 2 ^ 32;
  vo_durations : Forall (fun c => 0 <= c_duration c < 2 ^ 32) (v_cmds v);
  vo_exec : is_Some (v_client v) -> is_Some (fe_exec (v_fe v));
  vo_running : fe_state (v_fe v) = timer_running -> is_Some (fe_exec (v_fe v));
  vo_destroy c : c ∈ v_cmds v -> c_action c = action_destroy ->
    last (v_cmds v) = Some c /\ fe_state (v_fe v) = timer_stopped /\ v_free v = false /\
    (v_client v = None \/ v_client v = Some (client_push c));
  vo_free : v_free v = true ->
    v_client v = None /\ v_cmds v = [] /\ fe_exec (v_fe v) = None /\ v_created v = true /\ fe_state (v_fe v) = timer_stopped;
  vo_known : match v_client v with
             | Some client_forward => v_known v = false /\ v_cmds v = []
             | Some _ => v_known v = true
             | None => True
             end;
  vo_alloc : v_alloc v = false ->
    v_client v = None /\ v_known v = false /\ v_free v = false /\ v_cmds v = [] /\ tokens v ++ v_fired v = []
}.

(** ** The invariant *)
Definition be_running (h : timer_handle) : Prop := be_state (th_backend h) = timer_running.
#[export] Instance be_running_dec h : Decision (be_running h).
Proof. apply _. Defined.

(** The back-end: the wheel holds the running timers, each in the bucket of its timeout. *)
Record wheel_ok (m : timer_manager) (p : tick_phase) : Prop := {
  wh_handles i h : timers m !! i = Some h -> h = default_handle \/ th_frontend h = Some (Z.of_nat i);
  wh_wheel k id : id ∈ wheel_bucket (time_wheel m) k <->
    0 <= id /\ be_running (handle_of m id) /\ wheel_index (be_timeout (th_backend (handle_of m id))) = k;
  wh_nodup k : NoDup (wheel_bucket (time_wheel m) k);
  wh_count : nof_timers_running m = zlen (filter be_running (timers m));
  wh_time : 0 <= cur_time m < 2 ^ 32;
  wh_timeout id : 0 <= id -> be_running (handle_of m id) ->
    let t := be_timeout (th_backend (handle_of m id)) in
    0 <= t < 2 ^ 32 /\ (t = cur_time m -> exists todo, p = phase_expire todo /\ id ∈ todo);
  wh_todo todo : p = phase_expire todo ->
    NoDup todo /\ forall id, id ∈ todo -> id ∈ wheel_bucket (time_wheel m) (wheel_index (cur_time m))
}.

Record winv (w : world) : Prop := {
  wi_views id : 0 <= id -> view_ok (view_of w id);
  wi_alloc id : is_Some (frontends (w_mgr w) !! id) <-> 0 <= id < next_timer_id (w_mgr w);
  wi_next : 0 <= next_timer_id (w_mgr w) <= timer_id_invalid;
  wi_len : zlen (timers (w_mgr w)) <= next_timer_id (w_mgr w);
  wi_queue : queue_ok (created (w_mgr w)) (w_queue w);
  wi_clients id cl : w_clients w !! id = Some cl -> 0 <= id /\ match cl with client_push c => c_id c = id | _ => True end;
  wi_failed : Forall (fun p => 0 <= p.1 /\ created (w_mgr w) p.1 = true) (failed_to_trigger_timers (w_mgr w));
  wi_tasks : Forall (fun t => 0 <= t_id t) (tasks (w_mgr w));
  wi_pool : NoDup (timer_pool (w_mgr w)) /\ Forall (fun id => 0 <= id) (timer_pool (w_mgr w));
  wi_wheel : wheel_ok (w_mgr w) (w_phase w)
}.

(** ** Lemmas on views *)

Lemma sorted_app_one (a : Z) l x :
  StronglySorted Z.lt (a :: l) -> Forall (fun e => e < x) (a :: l) -> StronglySorted Z.lt (a :: l ++ [x]).
Proof.
  intros Hs Hf. apply (StronglySorted_app_2 _ (a :: l) [x]); [|done|by repeat constructor].
  intros y z Hy Hz. apply list_elem_of_singleton in Hz as ->. by rewrite Forall_forall in Hf; apply Hf.
Qed.

Lemma start_tokens_app cs cs' : start_tokens (cs ++ cs') = start_tokens cs ++ start_tokens cs'.
Proof. unfold start_tokens. by rewrite filter_app, fmap_app. Qed.

Lemma start_tokens_sub cs e : e ∈ start_tokens cs -> e ∈ c_cmd_id <$> cs.
Proof.
  unfold start_tokens. rewrite !list_elem_of_fmap. intros (c & -> & [_ ?]%list_elem_of_filter). eauto.
Qed.

(** Weakening by a larger [cmd_id]. *)
Lemma le_bumped n (l : list Z) : Forall (fun e => e <= n) l -> Forall (fun e => e <= n + 1) l.
Proof. intros H. eapply Forall_impl; [exact H|]. simpl. lia. Qed.
Lemma not_elem_bumped n (l : list Z) : Forall (fun e => e <= n) l -> n + 1 ∉ l.
Proof. rewrite Forall_forall. intros H Hin. specialize (H _ Hin). lia. Qed.

(** *** A call of the client *)
Definition view_op (v : view) (f : timer_frontend) (oc : option cmd_t) : view :=
  mk_view (v_alloc v) (v_created v) (v_known v) (v_free v)
    (Some match oc with Some c => client_push c | None => client_idle end)
    f (v_be v) (v_cmds v ++ option_list oc) (v_tasks v) (v_failed v) (v_fired v).

(** What all methods of the front-end have in common. *)
Record bumped (f f' : timer_frontend) (oc : option cmd_t) : Prop := {
  bu_id : fe_cmd_id f' = fe_cmd_id f + 1;
  bu_exec : fe_exec f' = fe_exec f;
  bu_cmd : match oc with
           | Some c => c_cmd_id c = fe_cmd_id f' /\ 0 <= c_duration c < 2 ^ 32 /\
                       (is_start c <-> fe_state f' = timer_running) /\
                       (c_action c = action_destroy -> fe_state f' = timer_stopped)
           | None => fe_state f' <> timer_running
           end
}.

Lemma view_op_tokens v f oc :
  tokens (view_op v f oc) ++ v_fired v ≡ₚ
  start_tokens (option_list oc) ++ tokens v ++ v_fired v.
Proof. unfold tokens. simpl. rewrite start_tokens_app. solve_Permutation. Qed.

Lemma view_op_ok v f oc :
  view_ok v -> v_client v = Some client_idle -> fe_cmd_id (v_fe v) + 1 < 2 ^ 32 -> bumped (v_fe v) f oc ->
  view_ok (view_op v f oc).
Proof.
  intros Hv Hc Hr [Hid Hex Hoc]. destruct Hv.
  assert (Hst : forall e, e ∈ start_tokens (option_list oc) <->
            e = fe_cmd_id f /\ fe_state f = timer_running).
  { intros e. unfold start_tokens. destruct oc as [c|]; simpl.
    - destruct Hoc as (He & _ & Hs & _). rewrite filter_cons, filter_nil. case_decide; simpl.
      + rewrite list_elem_of_singleton, He. tauto.
      + rewrite elem_of_nil. tauto.
    - rewrite elem_of_nil. tauto. }
  assert (Hnew : fe_cmd_id f ∉ tokens v ++ v_fired v).
  { rewrite Hid. by apply not_elem_bumped. }
  constructor; simpl.
  - rewrite view_op_tokens. apply NoDup_app. split; [|split; [|done]].
    + unfold start_tokens. destruct oc as [c|]; simpl; [|apply NoDup_nil_2].
      rewrite filter_cons, filter_nil. case_decide; simpl; [apply NoDup_singleton|apply NoDup_nil_2].
    + intros e [-> _]%Hst. done.
  - rewrite view_op_tokens, Hid. apply Forall_app; split; [|by apply le_bumped].
    apply Forall_forall. intros e [-> _]%Hst. lia.
  - assert (E : fe_cmd_id f ∈ tokens (view_op v f oc) <-> fe_cmd_id f ∈ start_tokens (option_list oc)).
    { assert (Hp : tokens (view_op v f oc) ≡ₚ start_tokens (option_list oc) ++ tokens v)
        by (unfold tokens; simpl; rewrite start_tokens_app; solve_Permutation).
      rewrite Hp, elem_of_app. split; [|by left]. intros [?|?]; [done|].
      destruct Hnew. apply elem_of_app. by left. }
    rewrite E, Hst. tauto.
  - rewrite fmap_app. destruct oc as [c|]; simpl; [|by rewrite app_nil_r].
    apply sorted_app_one; [done|]. destruct Hoc as [-> _]. rewrite Hid.
    eapply Forall_impl; [exact vo_cmds0|]. simpl. lia.
  - rewrite Hid, fmap_app, app_comm_cons, Forall_app. split; [by apply le_bumped|].
    destruct oc as [c|]; simpl; [|done]. destruct Hoc as [-> _]. rewrite Hid. by repeat constructor.
  - done.
  - rewrite Hid. lia.
  - apply Forall_app; split; [done|]. destruct oc as [c|]; simpl; [|done]. repeat constructor; tauto.
  - intros _. rewrite Hex. apply vo_exec0. by rewrite Hc.
  - intros _. rewrite Hex. apply vo_exec0. by rewrite Hc.
  - intros c Hin Hd. apply elem_of_app in Hin as [Hin|Hin].
    { destruct (vo_destroy0 c Hin Hd) as (_ & _ & _ & [?|?]); congruence. }
    destruct oc as [c'|]; simpl in Hin; [apply list_elem_of_singleton in Hin as ->|by apply elem_of_nil in Hin].
    simpl. rewrite last_snoc. repeat split; [|destruct (v_free v) eqn:E; [|done]|by right].
    + destruct Hoc as (_ & _ & _ & ?). auto.
    + destruct vo_free0; [done|congruence].
  - intros ?. destruct vo_free0; [done|congruence].
  - rewrite Hc in vo_known0. by destruct oc.
  - intros ?. destruct vo_alloc0; [done|congruence].
Qed.

(** *** Steps of the back-end: tokens move or are dropped, but not the one of the current run *)
Lemma view_shrink v v' pre :
  view_ok v ->
  v_alloc v' = v_alloc v -> v_created v' = v_created v -> v_known v' = v_known v -> v_free v' = v_free v ->
  v_client v' = v_client v -> v_fe v' = v_fe v -> v_fired v' = v_fired v ->
  v_cmds v = pre ++ v_cmds v' ->
  tokens v' ⊆+ tokens v ->
  (fe_cmd_id (v_fe v) ∈ tokens v -> fe_cmd_id (v_fe v) ∈ tokens v') ->
  StronglySorted Z.lt (be_cmd_id (v_be v') :: (c_cmd_id <$> v_cmds v')) ->
  0 <= be_cmd_id (v_be v') <= fe_cmd_id (v_fe v) ->
  Forall (fun e => e <= be_cmd_id (v_be v')) (v_failed v') ->
  view_ok v'.
Proof.
  intros Hv Ea Ec Ek Ef El Ee Er Hcs Hsub Hcur Hs Hb Hfl. destruct Hv.
  assert (Hsub' : tokens v' ++ v_fired v ⊆+ tokens v ++ v_fired v) by (by apply submseteq_skips_r).
  constructor; rewrite ?Ea, ?Ec, ?Ek, ?Ef, ?El, ?Ee, ?Er; try done.
  - apply submseteq_Permutation in Hsub' as [k Hk]. rewrite Hk in vo_once0. by apply NoDup_app in vo_once0 as [? _].
  - apply submseteq_Permutation in Hsub' as [k Hk]. rewrite Hk in vo_bound0. by apply Forall_app in vo_bound0 as [? _].
  - rewrite <- vo_current0. split; [|done]. intros ?. by eapply elem_of_submseteq.
  - constructor; [lia|]. rewrite Hcs, fmap_app in vo_cmds0. inversion vo_cmds0 as [|? ? _ H]; subst.
    by apply Forall_app in H as [_ ?].
  - lia.
  - rewrite Hcs in vo_durations0. by apply Forall_app in vo_durations0 as [_ ?].
  - intros c Hin Hd. destruct (vo_destroy0 c) as (Hl & ?); [rewrite Hcs; apply elem_of_app; by right|done|].
    split; [|done]. rewrite Hcs, last_app in Hl. destruct (last (v_cmds v')) eqn:E; [done|].
    apply last_None in E. rewrite E in Hin. by apply elem_of_nil in Hin.
  - intros Hf. destruct (vo_free0 Hf) as (? & Hn & ?). repeat split; [done| |tauto..].
    rewrite Hcs in Hn. by apply app_eq_nil in Hn as [_ ?].
  - destruct (v_client v) as [[]|]; [done| |done|done]. destruct vo_known0 as [? Hn]. split; [done|].
    rewrite Hcs in Hn. by apply app_eq_nil in Hn as [_ ?].
  - intros Hn. destruct (vo_alloc0 Hn) as (? & ? & ? & Hn2 & Ht). repeat split; [done..| |].
    + rewrite Hcs in Hn2. by apply app_eq_nil in Hn2 as [_ ?].
    + rewrite Ht in Hsub'. by apply submseteq_nil_r in Hsub'.
Qed.

Definition view_backend (v : view) (b : timer_backend_context) (cs : list cmd_t) (ts fl : list Z) : view :=
  mk_view (v_alloc v) (v_created v) (v_known v) (v_free v) (v_client v) (v_fe v) b cs ts fl (v_fired v).

Lemma be_token_running b : be_state b = timer_running -> be_token b = [be_cmd_id b].
Proof. unfold be_token. by intros ->. Qed.
Lemma be_token_other b : be_state b <> timer_running -> be_token b = [].
Proof. unfold be_token. by destruct (be_state b). Qed.

(** What the order of the commands says about the first of them. *)
Lemma view_first v c cs :
  view_ok v -> v_cmds v = c :: cs ->
  be_cmd_id (v_be v) < c_cmd_id c /\ c_cmd_id c <= fe_cmd_id (v_fe v) /\ 0 <= c_cmd_id c /\
  StronglySorted Z.lt (c_cmd_id c :: (c_cmd_id <$> cs)) /\
  Forall (fun e => e <= c_cmd_id c) (v_failed v).
Proof.
  intros [] E. rewrite E in *. simpl in *. inversion vo_order0 as [|? ? Ho Hlt]; subst.
  inversion Hlt as [|? ? Hc _]; subst. inversion vo_cmds0 as [|? ? _ Hle]; subst.
  inversion Hle as [|? ? Hc' _]; subst. repeat split; [lia|lia|lia|done|].
  eapply Forall_impl; [exact vo_failed0|]. simpl. lia.
Qed.

(** A start or stop command is processed. *)
Lemma view_process_ok v c cs b :
  view_ok v -> v_cmds v = c :: cs -> be_cmd_id b = c_cmd_id c ->
  (is_start c <-> be_state b = timer_running) ->
  view_ok (view_backend v b cs (v_tasks v) (v_failed v)).
Proof.
  intros Hv E Hid Hrun. destruct (view_first v c cs Hv E) as (H1 & H2 & H3 & H4 & H5).
  assert (Et : start_tokens (c :: cs) = be_token b ++ start_tokens cs).
  { unfold start_tokens. rewrite filter_cons. case_decide as Hc.
    - rewrite be_token_running by tauto. simpl. by rewrite Hid.
    - by rewrite be_token_other by tauto. }
  apply (view_shrink v _ [c]); simpl; rewrite ?Hid; try done.
  - unfold tokens. simpl. rewrite E, Et. solve_submseteq.
  - unfold tokens. simpl. rewrite E, Et, !elem_of_app. intros [[?|?]|[Hb|[?|?]]]; [tauto..| |tauto|tauto].
    unfold be_token in Hb. destruct (is_running _); [|by apply elem_of_nil in Hb].
    apply list_elem_of_singleton in Hb. lia.
Qed.

Ltac view_facts Hv :=
  let H := fresh "Hcmds" in
  pose proof (vo_order _ Hv); pose proof (proj1 (vo_range _ Hv)); pose proof (vo_failed _ Hv);
  pose proof (vo_cmds _ Hv) as H; apply Forall_cons in H as [? _].

(** The current run has a token in at most one place. *)
Lemma view_failed_current v e fl :
  view_ok v -> v_failed v = e :: fl -> e = fe_cmd_id (v_fe v) -> be_cmd_id (v_be v) = e.
Proof.
  intros [] E He. rewrite E in vo_failed0. inversion vo_failed0 as [|? ? Hle _]; subst.
  inversion vo_cmds0 as [|? ? Hle2 _]; subst. lia.
Qed.

(** A postponed timeout is dropped because its run is over, or dispatched. *)
Lemma view_postponed_drop v e fl :
  view_ok v -> v_failed v = e :: fl -> (be_cmd_id (v_be v) <> e \/ be_cmd_id (v_be v) <> fe_cmd_id (v_fe v)) ->
  view_ok (view_backend v (v_be v) (v_cmds v) (v_tasks v) fl).
Proof.
  intros Hv E Hne. pose proof (view_failed_current v e fl Hv E) as Hcur.
  view_facts Hv. pose proof (vo_failed v Hv) as Hf. rewrite E in Hf. inversion Hf; subst.
  apply (view_shrink v _ []); simpl; try done.
  - unfold tokens. simpl. rewrite E. solve_submseteq.
  - unfold tokens. simpl. rewrite E, !elem_of_app, elem_of_cons. intros [?|[?|[?|[?|?]]]]; [tauto..| |tauto].
    exfalso. destruct Hne as [Hne|Hne]; apply Hne; [auto|]. rewrite Hcur; auto.
Qed.

Lemma view_postponed_dispatch v e fl :
  view_ok v -> v_failed v = e :: fl -> view_ok (view_backend v (v_be v) (v_cmds v) (v_tasks v ++ [e]) fl).
Proof.
  intros Hv E. view_facts Hv. pose proof (vo_failed v Hv) as Hf. rewrite E in Hf. inversion Hf; subst.
  assert (Hp : tokens (view_backend v (v_be v) (v_cmds v) (v_tasks v ++ [e]) fl) ≡ₚ tokens v).
  { unfold tokens. simpl. rewrite E. solve_Permutation. }
  apply (view_shrink v _ []); simpl; try done; by rewrite Hp.
Qed.

(** A run expires in the back-end. *)
Lemma view_expire_ok v b ts fl :
  view_ok v -> be_state (v_be v) = timer_running ->
  be_state b <> timer_running -> be_cmd_id b = be_cmd_id (v_be v) ->
  (if be_cmd_id b =? fe_cmd_id (v_fe v) then
     (ts = v_tasks v ++ [be_cmd_id b] /\ fl = v_failed v) \/ (ts = v_tasks v /\ fl = v_failed v ++ [be_cmd_id b])
   else ts = v_tasks v /\ fl = v_failed v) ->
  view_ok (view_backend v b (v_cmds v) ts fl).
Proof.
  intros Hv Hr Hb Hid Hcase. view_facts Hv.
  assert (Hok : Forall (fun e => e <= be_cmd_id b) fl).
  { rewrite Hid. pose proof (vo_failed v Hv). zcases; destruct_or?; destruct_and?; subst; try done.
    apply Forall_app; split; [done|]. rewrite Hid. by repeat constructor. }
  assert (Hsub : tokens (view_backend v b (v_cmds v) ts fl) ⊆+ tokens v /\
    (fe_cmd_id (v_fe v) ∈ tokens v -> fe_cmd_id (v_fe v) ∈ tokens (view_backend v b (v_cmds v) ts fl))).
  { unfold tokens. simpl. rewrite (be_token_running _ Hr), (be_token_other _ Hb), <- Hid.
    zcases; destruct_or?; destruct_and?; subst.
    - split; [solve_submseteq|]. rewrite !elem_of_app. simpl. tauto.
    - split; [solve_submseteq|]. rewrite !elem_of_app. simpl. tauto.
    - split; [solve_submseteq|]. rewrite !elem_of_app, list_elem_of_singleton. intros [?|[?|?]]; [tauto|congruence|tauto]. }
  destruct Hsub. apply (view_shrink v _ []); simpl; rewrite ?Hid; try done. by rewrite <- Hid.
Qed.

(** A destroy command is the last of its timer; when it is processed the timer returns to the pool. *)
Definition cleared (f : timer_frontend) : timer_frontend :=
  mk_frontend None (fe_cmd_id f) timer_stopped INVALID_DURATION false.
Definition view_destroyed (v : view) (c : cmd_t) : view :=
  mk_view (v_alloc v) (v_created v) (v_known v) true (v_client v) (cleared (v_fe v))
    (mk_backend (c_cmd_id c) timer_stopped 0) [] (v_tasks v) (v_failed v) (v_fired v).

Lemma view_destroy_last v c cs :
  view_ok v -> v_cmds v = c :: cs ++ client_cmd (v_client v) -> c_action c = action_destroy ->
  cs = [] /\ v_client v = None.
Proof.
  intros Hv E Hd. destruct (view_first v c _ Hv E) as (_ & _ & _ & Hs & _).
  destruct (vo_destroy v Hv c) as (Hl & _ & _ & Hc); [rewrite E; by left|done|].
  assert (Hno : c ∉ cs ++ client_cmd (v_client v)).
  { intros Hin. inversion Hs as [|? ? _ Hlt]; subst. rewrite Forall_forall in Hlt.
    specialize (Hlt (c_cmd_id c)). rewrite list_elem_of_fmap in Hlt. specialize (Hlt ltac:(eauto)). lia. }
  destruct (cs ++ client_cmd (v_client v)) as [|x l] eqn:Ecs.
  - apply app_eq_nil in Ecs as [-> Hn]. split; [done|]. destruct Hc as [?|Hc]; [done|]. by rewrite Hc in Hn.
  - rewrite E, last_cons_cons in Hl. by apply last_Some_elem_of in Hl.
Qed.

Lemma view_destroy_ok v c cs :
  view_ok v -> v_cmds v = c :: cs ++ client_cmd (v_client v) -> c_action c = action_destroy ->
  v_created v = true -> view_ok (view_destroyed v c).
Proof.
  intros Hv E Hd Hcr. destruct (view_destroy_last v c cs Hv E Hd) as [-> Hc].
  destruct (view_first v c _ Hv E) as (H1 & H2 & H3 & H4 & H5).
  destruct (vo_destroy v Hv c) as (_ & Hst & _ & _); [rewrite E; by left|done|].
  assert (Hsub : tokens (view_destroyed v c) ⊆+ tokens v) by (unfold tokens; simpl; solve_submseteq).
  assert (Hsub' : tokens (view_destroyed v c) ++ v_fired v ⊆+ tokens v ++ v_fired v) by (by apply submseteq_skips_r).
  destruct Hv. constructor; simpl; try done.
  - apply submseteq_Permutation in Hsub' as [k Hk]. rewrite Hk in vo_once0. by apply NoDup_app in vo_once0 as [? _].
  - apply submseteq_Permutation in Hsub' as [k Hk]. rewrite Hk in vo_bound0. by apply Forall_app in vo_bound0 as [? _].
  - split; [|done]. intros Hin. eapply elem_of_submseteq in Hin; [|done]. apply vo_current0 in Hin. congruence.
  - repeat constructor.
  - by repeat constructor.
  - lia.
  - by rewrite Hc.
  - by intros ? ?%elem_of_nil.
  - by rewrite Hc.
  - intros Hn. destruct (vo_alloc0 Hn) as (_ & _ & _ & Hn' & _). by rewrite E in Hn'.
Qed.

(** *** The second half of a call *)
Definition view_client (v : view) (k : bool) (cl : option client) : view :=
  mk_view (v_alloc v) (v_created v) k (v_free v) cl (v_fe v) (v_be v) (v_cmds v) (v_tasks v) (v_failed v) (v_fired v).

Lemma view_push_ok v c :
  view_ok v -> v_client v = Some (client_push c) -> c ∈ v_cmds v ->
  view_ok (view_client v (v_known v)
    (match c_action c with action_destroy => None | _ => Some client_idle end)).
Proof.
  intros Hv Hc Hin. assert (Hd : forall c', c' ∈ v_cmds v -> c_action c' = action_destroy -> c' = c).
  { intros c' Hin' Ha. destruct (vo_destroy v Hv c' Hin' Ha) as (_ & _ & _ & [?|?]); congruence. }
  destruct Hv. constructor; simpl; try done.
  - intros _. apply vo_exec0. by rewrite Hc.
  - intros c' Hin' Ha. specialize (Hd c' Hin' Ha) as ->. destruct (vo_destroy0 c Hin' Ha) as (? & ? & ? & _).
    rewrite Ha. auto.
  - intros Hf. destruct (vo_free0 Hf); congruence.
  - rewrite Hc in vo_known0. by destruct (c_action c).
  - intros Hf. destruct (vo_alloc0 Hf); congruence.
Qed.

Lemma view_forward_ok v :
  view_ok v -> v_client v = Some client_forward -> view_ok (view_client v true (Some client_idle)).
Proof.
  intros [] Hc. rewrite Hc in vo_known0. destruct vo_known0 as [_ Hn]. constructor; simpl; try done.
  - intros _. apply vo_exec0. by rewrite Hc.
  - rewrite Hn. by intros ? ?%elem_of_nil.
  - intros Hf. destruct (vo_free0 Hf); congruence.
  - intros Hf. destruct (vo_alloc0 Hf); congruence.
Qed.

(** *** Creation *)
Definition view_own (v : view) (ex : Z) (cl : client) : view :=
  mk_view true (v_created v) (v_known v) false (Some cl) (fe_set_exec (v_fe v) (Some ex)) (v_be v) (v_cmds v) (v_tasks v)
    (v_failed v) (v_fired v).

Lemma view_reuse_ok v ex : view_ok v -> v_free v = true -> v_known v = true -> view_ok (view_own v ex client_idle).
Proof.
  intros [] Hf Hk. destruct (vo_free0 Hf) as (Hc & Hn & He & Hcr & Hst). constructor; simpl; try done.
  rewrite Hn. by intros ? ?%elem_of_nil.
Qed.

Lemma view_new_ok v ex : view_ok v -> v_alloc v = false -> view_ok (view_own v ex client_forward).
Proof.
  intros [] Hf. destruct (vo_alloc0 Hf) as (Hc & Hk & Hfr & Hn & Ht). constructor; simpl; try done.
  rewrite Hn. by intros ? ?%elem_of_nil.
Qed.

Lemma view_created_ok v : view_ok v -> v_known v = true ->
  view_ok (mk_view (v_alloc v) true (v_known v) (v_free v) (v_client v) (v_fe v) (v_be v) (v_cmds v) (v_tasks v)
    (v_failed v) (v_fired v)).
Proof.
  intros [] Hk. constructor; simpl; try done. intros Hf. destruct (vo_free0 Hf) as (? & ? & ? & _ & ?). auto.
Qed.

(** *** An executor runs an expiry task *)
Definition view_exec (v : view) (e : Z) (ts : list Z) : view :=
  let cur := fe_cmd_id (v_fe v) =? e in
  mk_view (v_alloc v) (v_created v) (v_known v) (v_free v) (v_client v)
    (if cur then fe_set_state (v_fe v) timer_expired else v_fe v) (v_be v) (v_cmds v) ts (v_failed v)
    (v_fired v ++ if cur && fe_callback (v_fe v) then [e] else []).

Lemma view_task_running v e : view_ok v -> e ∈ v_tasks v -> fe_cmd_id (v_fe v) = e -> fe_state (v_fe v) = timer_running.
Proof. intros [] Hin He. apply vo_current0. rewrite He. unfold tokens. rewrite !elem_of_app. tauto. Qed.

Lemma view_exec_ok v e ts :
  view_ok v -> v_tasks v ≡ₚ e :: ts -> view_ok (view_exec v e ts).
Proof.
  intros Hv Hp. assert (Hin : e ∈ v_tasks v) by (rewrite Hp; by left).
  pose proof (view_task_running v e Hv Hin) as Hrun.
  assert (Hperm : tokens v ≡ₚ e :: tokens (view_exec v e ts)) by (unfold tokens; simpl; rewrite Hp; solve_Permutation).
  assert (Hone : NoDup ((e :: tokens (view_exec v e ts)) ++ v_fired v)) by (rewrite <- Hperm; apply Hv).
  assert (Hsub : tokens (view_exec v e ts) ++ v_fired (view_exec v e ts) ⊆+ tokens v ++ v_fired v).
  { rewrite Hperm. simpl. destruct (_ && _); solve_submseteq. }
  assert (Eid : fe_cmd_id (v_fe (view_exec v e ts)) = fe_cmd_id (v_fe v)) by (simpl; by zcases).
  assert (Eex : fe_exec (v_fe (view_exec v e ts)) = fe_exec (v_fe v)) by (simpl; by zcases).
  assert (Hcur : fe_cmd_id (v_fe v) ∈ tokens v <-> fe_cmd_id (v_fe v) = e \/ fe_cmd_id (v_fe v) ∈ tokens (view_exec v e ts))
    by (rewrite Hperm, elem_of_cons; tauto).
  destruct Hv. constructor; rewrite ?Eid, ?Eex; try done.
  - apply submseteq_Permutation in Hsub as [k Hk]. rewrite Hk in vo_once0. by apply NoDup_app in vo_once0 as [? _].
  - apply submseteq_Permutation in Hsub as [k Hk]. rewrite Hk in vo_bound0. by apply Forall_app in vo_bound0 as [? _].
  - simpl. destruct (Z.eqb_spec (fe_cmd_id (v_fe v)) e) as [He|He].
    + simpl. split; [|done]. intros Hin'. exfalso. rewrite He in Hin'. simpl in Hone. apply NoDup_cons in Hone as [Hno _].
      apply Hno, elem_of_app. by left.
    + rewrite <- vo_current0, Hcur. tauto.
  - simpl. zcases; [by intros _; apply vo_running0, Hrun|done].
  - intros c Hc Hd. destruct (vo_destroy0 c Hc Hd) as (? & Hst & ?). simpl. split; [done|]. split; [|done].
    zcases; [|done]. rewrite Hrun in Hst; done.
  - intros Hf. destruct (vo_free0 Hf) as (? & ? & ? & ? & Hst). simpl. repeat split; [done|done| |done|]; zcases; try done.
    rewrite Hrun in Hst; done.
  - intros Hf. destruct (vo_alloc0 Hf) as (? & ? & ? & ? & Hn). repeat split; [done..|].
    exfalso. apply app_eq_nil in Hn as [Hn _]. rewrite Hn in Hperm. by apply Permutation_nil_l in Hperm.
Qed.
