(* ===== verification/TimersWheel.v ===== *)
(** * The timer wheel: how starts, stops and ticks change it *)
From stdpp Require Import sorting.
From S2P Require Import Prelude Timers TimersInv.

(** ** Handles *)
Definition has_handle (m : timer_manager) (id : Z) : Prop := 0 <= id < zlen (timers m).

Lemma get_timer_ok m id : has_handle m id -> get_timer m id = ok (handle_of m id).
Proof.
  intros Hid. unfold get_timer, handle_of. destruct (lookup_lt_is_Some_2 (timers m) (Z.to_nat id)) as [h Hh]; [unfold has_handle in *; lia|].
  by rewrite Hh.
Qed.

Lemma created_handle m id : 0 <= id -> created m id = true -> has_handle m id.
Proof.
  intros Hid. unfold created, handle_of, has_handle. destruct (timers m !! Z.to_nat id) as [h|] eqn:E; [|done].
  apply lookup_lt_Some in E. lia.
Qed.

Lemma running_handle m id : 0 <= id -> be_running (handle_of m id) -> has_handle m id.
Proof.
  intros Hid. unfold be_running, handle_of, has_handle. destruct (timers m !! Z.to_nat id) as [h|] eqn:E; [|done].
  apply lookup_lt_Some in E. lia.
Qed.

Lemma handle_of_set m id h i :
  has_handle m id -> 0 <= i -> handle_of (set_handle m id h) i = if decide (i = id) then h else handle_of m i.
Proof.
  intros Hid Hi. unfold handle_of. simpl. unfold has_handle in Hid. case_decide; subst.
  - by rewrite list_lookup_insert_eq by lia.
  - by rewrite list_lookup_insert_ne by lia.
Qed.

Lemma created_set m id h i :
  has_handle m id -> 0 <= i -> th_frontend h = th_frontend (handle_of m id) -> created (set_handle m id h) i = created m i.
Proof. intros. unfold created. rewrite handle_of_set by done. case_decide; subst; congruence. Qed.

(** Counting the running handles. *)
Lemma filter_insert_length {A} (P : A -> Prop) `{forall x, Decision (P x)} (l : list A) k x y :
  l !! k = Some x ->
  zlen (filter P (<[k := y]> l)) =
  zlen (filter P l) + (if decide (P y) then 1 else 0) - (if decide (P x) then 1 else 0).
Proof.
  intros Hk. assert (Hlt : (k < length l)%nat) by (by eapply lookup_lt_Some).
  rewrite insert_take_drop by done. rewrite <- (take_drop_middle l k x Hk) at 3.
  rewrite !filter_app, !filter_cons, !length_app. repeat case_decide; simpl; lia.
Qed.

(** What the back-end keeps to itself. *)
Lemma wheel_ok_frame m m' p :
  timers m' = timers m -> time_wheel m' = time_wheel m -> nof_timers_running m' = nof_timers_running m ->
  cur_time m' = cur_time m -> wheel_ok m p -> wheel_ok m' p.
Proof. intros E1 E2 E3 E4 []. constructor; unfold handle_of in *; rewrite ?E1, ?E2, ?E3, ?E4; done. Qed.

(** ** The wheel *)
Lemma wheel_bucket_insert w k l j : wheel_bucket (<[k := l]> w) j = if decide (j = k) then l else wheel_bucket w j.
Proof. unfold wheel_bucket. rewrite lookup_insert. repeat case_decide; subst; done. Qed.

Section wheel.
Context (m : timer_manager) (p : tick_phase) (Hm : wheel_ok m p) (id : Z) (Hid : has_handle m id).
Context (Hcap : zlen (timers m) <= timer_id_invalid).

Local Abbreviation h := (handle_of m id).

Lemma handle_lookup : timers m !! Z.to_nat id = Some h.
Proof using Hid.
  unfold handle_of. destruct (lookup_lt_is_Some_2 (timers m) (Z.to_nat id)) as [x Hx]; [unfold has_handle in *; lia|].
  by rewrite Hx.
Qed.

Lemma count_range : 0 <= nof_timers_running m < 2 ^ 32.
Proof using Hm Hcap.
  rewrite (wh_count _ _ Hm). pose proof (length_filter be_running (timers m)). unfold timer_id_invalid in *. lia.
Qed.

(** An assignment to the handle of a timer that does not change whether and when it runs. *)
Lemma wheel_update x :
  (x = default_handle \/ th_frontend x = Some id) ->
  (be_running x <-> be_running h) ->
  (be_running h -> be_timeout (th_backend x) = be_timeout (th_backend h)) ->
  wheel_ok (set_handle m id x) p.
Proof using Hm Hid.
  intros Hfe Hrun Ht. pose proof Hm as []. constructor; simpl; try done.
  - intros i y. destruct (decide (Z.to_nat id = i)) as [<-|].
    + rewrite list_lookup_insert_eq by (unfold has_handle in *; lia). intros [= <-].
      rewrite Z2Nat.id by apply Hid. done.
    + rewrite list_lookup_insert_ne by done. apply wh_handles.
  - intros k i. rewrite wh_wheel. split; intros [Hi Hr]; (split; [done|]); revert Hr;
      rewrite (handle_of_set m id x i Hid Hi); case_decide; try done; subst; intros [Hr <-].
    + split; [tauto|]. by rewrite Ht by tauto.
    + assert (be_running h) by tauto. rewrite Ht; done.
  - rewrite wh_count, (filter_insert_length _ _ _ _ x handle_lookup). repeat case_decide; try tauto; lia.
  - intros i Hi. rewrite handle_of_set by done. case_decide; [|by apply wh_timeout]. subst. intros Hr.
    assert (Hr' : be_running h) by tauto. rewrite (Ht Hr'). by apply wh_timeout.
Qed.

(** A running timer stops: it leaves the wheel. *)
Definition stopped_manager (b : timer_backend_context) : timer_manager :=
  let k := wheel_index (be_timeout (th_backend h)) in
  set_handle (set_running m (u64 (nof_timers_running m - 1)) (<[k := filter (.≠ id) (wheel_bucket (time_wheel m) k)]> (time_wheel m)))
    id (mk_handle (th_frontend h) b).

Lemma running_in_bucket :
  be_running h -> id ∈ wheel_bucket (time_wheel m) (wheel_index (be_timeout (th_backend h))).
Proof using Hm Hid. intros Hr. apply (wh_wheel _ _ Hm). split; [apply Hid|done]. Qed.

Lemma wheel_stop b p' :
  be_running h -> th_frontend h = Some id -> be_state b <> timer_running ->
  (forall i todo, i <> id -> p = phase_expire todo -> i ∈ todo -> exists todo', p' = phase_expire todo' /\ i ∈ todo') ->
  (forall todo', p' = phase_expire todo' -> NoDup todo' /\ forall i, i ∈ todo' -> i <> id /\ exists todo, p = phase_expire todo /\ i ∈ todo) ->
  wheel_ok (stopped_manager b) p'.
Proof using Hm Hid Hcap.
  intros Hr Hfe Hb Hp1 Hp2. pose proof (running_in_bucket Hr) as Hin. pose proof count_range as Hcnt.
  assert (Hsm : forall i, 0 <= i -> handle_of (stopped_manager b) i =
                  if decide (i = id) then mk_handle (th_frontend h) b else handle_of m i).
  { intros i Hi. unfold stopped_manager. by rewrite handle_of_set. }
  assert (Hc : nof_timers_running m = zlen (filter be_running (<[Z.to_nat id := mk_handle (th_frontend h) b]> (timers m))) + 1).
  { rewrite (filter_insert_length _ _ _ _ _ handle_lookup), (wh_count _ _ Hm). repeat case_decide; try done. lia. }
  pose proof Hm as []. constructor; try done.
  - intros i y. unfold stopped_manager. simpl. destruct (decide (Z.to_nat id = i)) as [<-|].
    + rewrite list_lookup_insert_eq by (unfold has_handle in *; lia). intros [= <-].
      rewrite Z2Nat.id by apply Hid. by right.
    + rewrite list_lookup_insert_ne by done. apply wh_handles.
  - intros k i. unfold stopped_manager at 1. simpl. rewrite wheel_bucket_insert.
    assert (E : i ∈ (if decide (k = wheel_index (be_timeout (th_backend h))) then
                filter (.≠ id) (wheel_bucket (time_wheel m) (wheel_index (be_timeout (th_backend h)))) else wheel_bucket (time_wheel m) k) <->
              i <> id /\ i ∈ wheel_bucket (time_wheel m) k).
    { destruct (decide (k = _)) as [->|]; [by rewrite list_elem_of_filter|]. split; [|tauto]. intros Hi. split; [|done]. intros ->.
      apply wh_wheel in Hi as (_ & _ & <-). done. }
    rewrite E, wh_wheel. split.
    + intros (? & ? & ?). split; [done|]. rewrite Hsm by done. by rewrite decide_False.
    + intros [Hi Hx]. rewrite Hsm in Hx by done. case_decide; [by destruct Hx|]. done.
  - intros k. unfold stopped_manager. simpl. rewrite wheel_bucket_insert. case_decide; [by apply NoDup_filter|done].
  - unfold stopped_manager. simpl. unfold u64. rewrite Z.mod_small; lia.
  - intros i Hi. rewrite Hsm by done. case_decide; [done|]. intros Hri t. subst t.
    destruct (wh_timeout i Hi Hri) as [? Ht]. split; [done|]. intros He. destruct (Ht He) as (todo & ? & ?). eauto.
  - intros todo' Ht. destruct (Hp2 todo' Ht) as [? Hall]. split; [done|]. intros i Hi.
    destruct (Hall i Hi) as (Hne & todo & Htodo & Hit). destruct (wh_todo todo Htodo) as [_ Hb'].
    specialize (Hb' i Hit). unfold stopped_manager. simpl. rewrite wheel_bucket_insert.
    case_decide as Hd; [|done]. rewrite list_elem_of_filter, <- Hd. done.
Qed.

(** A timer starts. *)
Definition started_manager (d : Z) : timer_manager :=
  let t := u32 (cur_time m + Z.max d 1) in
  set_running (set_handle m id (mk_handle (th_frontend h) (mk_backend (be_cmd_id (th_backend h)) timer_running t)))
    (u64 (nof_timers_running m + 1)) (wheel_push_front (time_wheel m) (wheel_index t) id).

Lemma start_timer_backend_eq d :
  ~ be_running h -> th_frontend h = Some id -> start_timer_backend id d m = ok (started_manager d).
Proof using Hid.
  intros Hn Hfe. unfold start_timer_backend. rewrite get_timer_ok, bind_ok by done. unfold be_running in Hn.
  rewrite !srsran_assert_ok by (rewrite ?Hfe; by destruct (be_state (th_backend h))). done.
Qed.

Lemma start_timeout d : 0 <= d < 2 ^ 32 -> u32 (cur_time m + Z.max d 1) <> cur_time m.
Proof using Hm.
  intros Hd. pose proof (wh_time _ _ Hm). unfold u32. intros E.
  assert ((cur_time m + Z.max d 1) mod 2 ^ 32 = cur_time m + Z.max d 1 \/
          (cur_time m + Z.max d 1) mod 2 ^ 32 = cur_time m + Z.max d 1 - 2 ^ 32).
  { destruct (decide (cur_time m + Z.max d 1 < 2 ^ 32)); [left; apply Z.mod_small; lia|right].
    rewrite <- (Z_mod_plus_full _ (-1)). apply Z.mod_small. lia. }
  lia.
Qed.

Lemma wheel_start d :
  ~ be_running h -> th_frontend h = Some id -> (forall todo, p <> phase_expire todo) -> 0 <= d < 2 ^ 32 ->
  wheel_ok (started_manager d) p.
Proof using Hm Hid Hcap.
  intros Hn Hfe Hp Hd. pose proof count_range as Hcnt. pose proof (start_timeout d Hd) as Hne.
  unfold started_manager. set (t := u32 (cur_time m + Z.max d 1)) in *.
  set (x := mk_handle (th_frontend h) (mk_backend (be_cmd_id (th_backend h)) timer_running t)).
  assert (Hsm : forall i, 0 <= i -> handle_of (set_running (set_handle m id x) (u64 (nof_timers_running m + 1))
                  (wheel_push_front (time_wheel m) (wheel_index t) id)) i = if decide (i = id) then x else handle_of m i).
  { intros i Hi. by apply (handle_of_set m). }
  assert (Hc : nof_timers_running m + 1 = zlen (filter be_running (<[Z.to_nat id := x]> (timers m)))).
  { rewrite (filter_insert_length _ _ _ _ _ handle_lookup), (wh_count _ _ Hm). repeat case_decide; try done. lia. }
  assert (Hnot : forall k, id ∉ wheel_bucket (time_wheel m) k) by (intros k; rewrite (wh_wheel _ _ Hm); tauto).
  pose proof Hm as []. constructor; try done.
  - intros i y. simpl. destruct (decide (Z.to_nat id = i)) as [<-|].
    + rewrite list_lookup_insert_eq by (unfold has_handle in *; lia). intros [= <-].
      rewrite Z2Nat.id by apply Hid. by right.
    + rewrite list_lookup_insert_ne by done. apply wh_handles.
  - intros k i. unfold set_running, wheel_push_front at 1. simpl. rewrite wheel_bucket_insert.
    assert (E : i ∈ (if decide (k = wheel_index t) then id :: wheel_bucket (time_wheel m) (wheel_index t) else wheel_bucket (time_wheel m) k)
              <-> (i = id /\ wheel_index t = k) \/ (i <> id /\ i ∈ wheel_bucket (time_wheel m) k)).
    { destruct (decide (k = wheel_index t)) as [->|Hk].
      - rewrite elem_of_cons. split; [intros [->|Hi]; [by left|]|intros [[-> _]|[_ ?]]; [by left|by right]].
        right. split; [|done]. intros ->. by destruct (Hnot (wheel_index t)).
      - split; [|by intros [[_ <-]|[_ ?]]]. intros Hi. right. split; [|done]. intros ->. by destruct (Hnot k). }
    rewrite E, wh_wheel. split.
    + intros [[-> <-]|(? & ? & ?)]; (split; [try apply Hid; done|]); rewrite Hsm by (try apply Hid; done).
      * by rewrite decide_True.
      * by rewrite decide_False.
    + intros [Hi Hx]. rewrite Hsm in Hx by done. case_decide; [left; tauto|right; tauto].
  - intros k. unfold set_running, wheel_push_front. simpl. rewrite wheel_bucket_insert. case_decide; [|done]. by apply NoDup_cons.
  - simpl. unfold u64. rewrite Z.mod_small; lia.
  - intros i Hi. rewrite Hsm by done. case_decide; [|by apply wh_timeout]. intros _. simpl.
    split; [apply Z.mod_pos_bound; lia|done].
  - intros todo Ht. by destruct (Hp todo).
Qed.
End wheel.

(** The time advances: the timers that expire now are in the bucket that is visited. *)
Lemma wheel_advance m p :
  wheel_ok m p ->
  (forall todo, p <> phase_expire todo) ->
  let t := u32 (cur_time m + 1) in
  wheel_ok (set_cur_time m t) (phase_expire (wheel_bucket (time_wheel m) (wheel_index t))).
Proof.
  intros [] Hp t. assert (0 <= t < 2 ^ 32) by (apply Z.mod_pos_bound; lia). constructor; simpl; try done.
  - intros i Hi Hr. destruct (wh_timeout i Hi Hr) as [? _]. split; [done|]. intros E. eexists. split; [done|].
    apply wh_wheel. split; [done|]. split; [done|]. by rewrite <- E.
  - intros todo [= <-]. split; [apply wh_nodup|done].
Qed.

(** A turn of the loop over the bucket that leaves the timer alone. *)
Lemma wheel_skip m id todo :
  wheel_ok m (phase_expire (id :: todo)) -> be_timeout (th_backend (handle_of m id)) <> cur_time m ->
  wheel_ok m (phase_expire todo).
Proof.
  intros [] Hne. constructor; try done.
  - intros i Hi Hr. destruct (wh_timeout i Hi Hr) as [? Ht]. split; [done|]. intros E. destruct (Ht E) as (? & [= <-] & Hin).
    eexists. split; [done|]. apply elem_of_cons in Hin as [->|]; [|done]. done.
  - intros todo' [= <-]. destruct (wh_todo _ eq_refl) as [Hnd Hall]. apply NoDup_cons in Hnd as [_ ?].
    split; [done|]. intros i Hi. apply Hall. by right.
Qed.

(** Phases that do not visit a bucket. *)
Lemma wheel_phase m p p' :
  wheel_ok m p -> (forall id todo, p = phase_expire todo -> id ∉ todo) -> (forall todo, p' <> phase_expire todo) -> wheel_ok m p'.
Proof.
  intros [] Hp Hp'. constructor; try done.
  - intros i Hi Hr. destruct (wh_timeout i Hi Hr) as [? Ht]. split; [done|]. intros E. destruct (Ht E) as (todo & Hx & Hin).
    by destruct (Hp i todo Hx).
  - intros todo Ht. by destruct (Hp' todo).
Qed.

(** ** The operations of the back-end *)

(** Only the back-end of timer [id] changes, to [b]. *)
Record backend_step (m m' : timer_manager) (id : Z) (b : timer_backend_context) : Prop := {
  bs_handle i : 0 <= i -> handle_of m' i = if decide (i = id) then mk_handle (Some id) b else handle_of m i;
  bs_len : length (timers m') = length (timers m);
  bs_pool : timer_pool m' = timer_pool m;
  bs_next : next_timer_id m' = next_timer_id m;
  bs_failed : failed_to_trigger_timers m' = failed_to_trigger_timers m;
  bs_pending : pending_cmds m' = pending_cmds m;
  bs_frontends : frontends m' = frontends m;
  bs_tasks : tasks m' = tasks m;
  bs_callbacks : callbacks m' = callbacks m;
  bs_time : cur_time m' = cur_time m
}.

Lemma backend_step_trans m1 m2 m3 id b b' : backend_step m1 m2 id b -> backend_step m2 m3 id b' -> backend_step m1 m3 id b'.
Proof.
  intros [] []. constructor; try congruence. intros i Hi. rewrite bs_handle1, bs_handle0 by done. by repeat case_decide.
Qed.

Section backend.
Context (m : timer_manager) (p : tick_phase) (Hm : wheel_ok m p) (id : Z) (Hpos : 0 <= id).
Context (Hcap : zlen (timers m) <= timer_id_invalid) (Hcr : created m id = true).

Local Abbreviation h := (handle_of m id).

Lemma created_has : has_handle m id.
Proof using Hpos Hcr. by apply created_handle. Qed.

Lemma created_frontend : th_frontend h = Some id.
Proof using Hm Hpos Hcr.
  pose proof (handle_lookup m id created_has) as Hl. destruct (wh_handles _ _ Hm _ _ Hl) as [E|E].
  - unfold created in Hcr. by rewrite E in Hcr.
  - rewrite E. by rewrite Z2Nat.id.
Qed.

Lemma set_backend_step b : backend_step m (set_backend m id h b) id b.
Proof using Hm Hpos Hcr.
  constructor; try done; [|apply length_insert]. intros i Hi. unfold set_backend.
  rewrite handle_of_set, created_frontend by (done || apply created_has). done.
Qed.

Lemma wheel_update_backend b :
  (be_state b = timer_running <-> be_running h) ->
  (be_running h -> be_timeout b = be_timeout (th_backend h)) ->
  wheel_ok (set_backend m id h b) p.
Proof using Hm Hpos Hcr.
  intros Hr Ht. apply wheel_update; try done; [apply created_has|]. right. apply created_frontend.
Qed.

Lemma wheel_pop_ok :
  be_running h ->
  let k := wheel_index (be_timeout (th_backend h)) in
  wheel_pop (time_wheel m) k id = ok (<[k := filter (.≠ id) (wheel_bucket (time_wheel m) k)]> (time_wheel m)).
Proof using Hm Hpos Hcr.
  intros Hr. unfold wheel_pop. rewrite bool_decide_eq_true_2; [done|]. apply (running_in_bucket m p Hm id created_has Hr).
Qed.

Lemma stopped_step b : backend_step m (stopped_manager m id b) id b.
Proof using Hm Hpos Hcr.
  constructor; try done; [|apply length_insert]. intros i Hi. unfold stopped_manager. rewrite created_frontend.
  exact (handle_of_set (set_running m _ _) id _ i created_has Hi).
Qed.

Lemma started_step d :
  backend_step m (started_manager m id d) id
    (mk_backend (be_cmd_id (th_backend h)) timer_running (u32 (cur_time m + Z.max d 1))).
Proof using Hm Hpos Hcr.
  constructor; try done; [|apply length_insert]. intros i Hi. unfold started_manager. rewrite created_frontend.
  apply (handle_of_set _ id _ i created_has Hi).
Qed.

(** Stopping without expiry. *)
Lemma try_stop_command a :
  (forall todo, p <> phase_expire todo) ->
  exists m' r b, try_stop_timer_backend a id false m = ok (m', r) /\ wheel_ok m' p /\ backend_step m m' id b /\
    be_cmd_id b = be_cmd_id (th_backend h) /\ be_state b <> timer_running.
Proof using Hm Hpos Hcr Hcap.
  intros Hp. unfold try_stop_timer_backend. rewrite (get_timer_ok m id created_has), bind_ok.
  destruct (decide (be_running h)) as [Hr|Hr]; pose proof Hr as Hr'; unfold be_running in Hr'.
  - rewrite Hr'. cbn [is_running negb]. rewrite (wheel_pop_ok Hr), bind_ok.
    exists (stopped_manager m id (mk_backend (be_cmd_id (th_backend h)) timer_stopped (be_timeout (th_backend h)))), true.
    eexists. split; [done|]. split; [|split; [apply stopped_step|done]].
    apply (wheel_stop m p Hm id created_has Hcap); try done; [apply created_frontend|..].
    + intros i todo _ Hx. by destruct (Hp todo).
    + intros todo Hx. by destruct (Hp todo).
  - exists m, false, (th_backend h). split; [by destruct (be_state (th_backend h))|]. split; [done|]. split; [|done].
    constructor; try done. intros i Hi. case_decide; subst; [|done].
    transitivity (mk_handle (th_frontend h) (th_backend h)); [by destruct h|]. by rewrite created_frontend.
Qed.

(** What the expiry of a timer adds: a task, a postponed timeout, or nothing when its run is over. *)
Definition expiry_outcome (accept : bool) (f : timer_frontend) (m1 m' : timer_manager) : Prop :=
  let e := be_cmd_id (th_backend h) in
  if e =? fe_cmd_id f then
    exists ex, fe_exec f = Some ex /\
    m' = if accept then set_tasks m1 (tasks m1 ++ [mk_task ex id e])
         else set_failed m1 (failed_to_trigger_timers m1 ++ [(id, e)])
  else m' = m1.

Lemma try_stop_expiry a f :
  be_running h -> frontends m !! id = Some f -> (be_cmd_id (th_backend h) = fe_cmd_id f -> is_Some (fe_exec f)) ->
  exists m', try_stop_timer_backend a id true m = ok (m', true) /\
    expiry_outcome a f (stopped_manager m id (mk_backend (be_cmd_id (th_backend h)) timer_expired (be_timeout (th_backend h)))) m'.
Proof using Hm Hpos Hcr Hcap.
  intros Hr Hf Hex. unfold try_stop_timer_backend. rewrite (get_timer_ok m id created_has), bind_ok.
  pose proof Hr as Hr'. unfold be_running in Hr'. rewrite Hr'. cbn [is_running negb]. rewrite (wheel_pop_ok Hr), bind_ok.
  unfold expiry_outcome. cbn [negb th_backend be_cmd_id].
  unfold frontend_of, get_frontend. cbn [th_frontend frontends set_handle set_timers set_running]. rewrite created_frontend, Hf, bind_ok.
  destruct (Z.eqb_spec (be_cmd_id (th_backend h)) (fe_cmd_id f)) as [E|E].
  2: { eexists. split; [done|]. unfold stopped_manager. by rewrite created_frontend. }
  destruct (Hex E) as [ex Hx]. unfold trigger_timeout_handling, frontend_of, get_frontend.
  cbn [th_frontend frontends set_handle set_timers set_running]. rewrite Hf, bind_ok, Hx. exists (if a then
    set_tasks (stopped_manager m id (mk_backend (be_cmd_id (th_backend h)) timer_expired (be_timeout (th_backend h))))
      (tasks m ++ [mk_task ex id (be_cmd_id (th_backend h))])
    else set_failed (stopped_manager m id (mk_backend (be_cmd_id (th_backend h)) timer_expired (be_timeout (th_backend h))))
      (failed_to_trigger_timers m ++ [(id, be_cmd_id (th_backend h))])).
  unfold stopped_manager. rewrite created_frontend. destruct a; (split; [done|]); by exists ex.
Qed.
End backend.

(** ** Processing a command *)
Definition command_effect (c : cmd_t) (f : timer_frontend) (m m' : timer_manager) (b : timer_backend_context) : Prop :=
  be_cmd_id b = c_cmd_id c /\ (is_start c <-> be_state b = timer_running) /\
  (is_start c -> be_timeout b = u32 (cur_time m + Z.max (c_duration c) 1)) /\
  match c_action c with
  | action_destroy => b = mk_backend (c_cmd_id c) timer_stopped 0 /\
      exists m1, backend_step m m1 (c_id c) b /\
        m' = set_pool (set_frontend m1 (c_id c) (cleared f)) (timer_pool m1 ++ [c_id c])
  | _ => backend_step m m' (c_id c) b
  end.

Lemma process_cmd_ok m p c f :
  wheel_ok m p -> (forall todo, p <> phase_expire todo) -> zlen (timers m) <= timer_id_invalid ->
  0 <= c_id c -> created m (c_id c) = true -> 0 <= c_duration c < 2 ^ 32 -> frontends m !! c_id c = Some f ->
  exists m' b, process_command (tev_cmd c) m = ok m' /\ wheel_ok m' p /\ command_effect c f m m' b.
Proof.
  intros Hm Hp Hcap Hid Hcr Hd Hf. set (id := c_id c) in *.
  pose proof (created_has m id Hid Hcr) as Hhas. unfold process_command. fold id.
  rewrite (get_timer_ok m id Hhas), bind_ok. set (h := handle_of m id).
  set (b1 := mk_backend (c_cmd_id c) (be_state (th_backend h)) (be_timeout (th_backend h))).
  pose proof (set_backend_step m p Hm id Hid Hcr b1) as S1. fold h in S1.
  pose proof (wheel_update_backend m p Hm id Hid Hcr b1) as Hm1. fold h in Hm1. specialize (Hm1 ltac:(done) ltac:(done)).
  set (m1 := set_backend m id h b1) in *.
  assert (Hcap1 : zlen (timers m1) <= timer_id_invalid) by (by rewrite (bs_len _ _ _ _ S1)).
  assert (Hcr1 : created m1 id = true) by (unfold created; by rewrite (bs_handle _ _ _ _ S1), decide_True by done).
  destruct (try_stop_command m1 p Hm1 id Hid Hcap1 Hcr1 false Hp) as (m2 & r & b2 & -> & Hm2 & S2 & Hcmd2 & Hst2).
  rewrite bind_ok. pose proof (backend_step_trans _ _ _ _ _ _ S1 S2) as S12.
  rewrite (bs_handle _ _ _ _ S1), decide_True in Hcmd2 by done. simpl in Hcmd2.
  assert (Hh2 : handle_of m2 id = mk_handle (Some id) b2) by (by rewrite (bs_handle _ _ _ _ S12), decide_True by done).
  assert (Hcr2 : created m2 id = true) by (unfold created; by rewrite Hh2).
  assert (Hcap2 : zlen (timers m2) <= timer_id_invalid) by (by rewrite (bs_len _ _ _ _ S12)).
  assert (Hn2 : ~ be_running (handle_of m2 id)) by (unfold be_running; by rewrite Hh2).
  destruct (c_action c) eqn:Ha.
  - rewrite (start_timer_backend_eq m2 id (created_has m2 id Hid Hcr2) (c_duration c) Hn2) by (by rewrite Hh2).
    exists (started_manager m2 id (c_duration c)). eexists. split; [done|]. split.
    { apply wheel_start; try done; [by apply created_has|by rewrite Hh2]. }
    pose proof (started_step m2 p Hm2 id Hid Hcr2 (c_duration c)) as S3. unfold command_effect, is_start. rewrite Ha.
    split; [|split; [|split; [|exact (backend_step_trans _ _ _ _ _ _ S12 S3)]]]; simpl.
    + by rewrite Hh2.
    + done.
    + intros _. by rewrite (bs_time _ _ _ _ S12).
  - exists m2, b2. split; [done|]. split; [done|]. unfold command_effect, is_start. rewrite Ha. by split_and!.
  - unfold destroy_timer_backend. rewrite (get_timer_ok m2 id), bind_ok, Hh2 by (by apply created_has).
    rewrite srsran_assert_ok by (simpl; by destruct (be_state b2)). rewrite bind_ok. unfold frontend_of, get_frontend.
    cbn [th_frontend]. rewrite (bs_frontends _ _ _ _ S12), Hf, !bind_ok. cbn [th_backend]. rewrite Hcmd2.
    set (b3 := mk_backend (c_cmd_id c) timer_stopped 0).
    pose proof (set_backend_step m2 p Hm2 id Hid Hcr2 b3) as S3. rewrite Hh2 in S3.
    pose proof (wheel_update_backend m2 p Hm2 id Hid Hcr2 b3 ltac:(by split) ltac:(done)) as Hm3. rewrite Hh2 in Hm3.
    eexists. exists b3. split; [done|]. split; [by apply (wheel_ok_frame (set_backend m2 id (mk_handle (Some id) b2) b3))|].
    unfold command_effect, is_start. rewrite Ha. split; [done|]. split; [done|]. split; [done|]. split; [done|].
    eexists. split; [exact (backend_step_trans _ _ _ _ _ _ S12 S3)|]. done.
Qed.

(** ** A new handle *)
Lemma default_not_running : ~ be_running default_handle.
Proof. done. Qed.

Lemma uncreated_default m p id : wheel_ok m p -> 0 <= id -> created m id = false -> handle_of m id = default_handle.
Proof.
  intros Hm Hid Hc. unfold created, handle_of in *. destruct (timers m !! Z.to_nat id) as [h|] eqn:E; [|done].
  destruct (wh_handles _ _ Hm _ _ E) as [->|Hx]; [done|]. simpl in Hc. by rewrite Hx in Hc.
Qed.

Definition resized (ts : list timer_handle) (id : Z) : list timer_handle :=
  ts ++ replicate (S (Z.to_nat id) - length ts) default_handle.

Lemma resized_lookup ts id i : default default_handle (resized ts id !! i) = default default_handle (ts !! i).
Proof.
  unfold resized. destruct (decide (i < length ts)%nat).
  - by rewrite lookup_app_l.
  - rewrite lookup_app_r by lia. rewrite (lookup_ge_None_2 ts) by lia. destruct (_ !! _) as [x|] eqn:E; [|done].
    by apply lookup_replicate_1 in E as [-> _].
Qed.

Lemma resized_count ts id : filter be_running (resized ts id) = filter be_running ts.
Proof.
  unfold resized. rewrite filter_app. assert (E : forall n, filter be_running (replicate n default_handle) = []).
  { induction n; [done|]. simpl. by rewrite filter_cons_False. }
  by rewrite E, app_nil_r.
Qed.

Definition with_handle (m : timer_manager) (id : Z) : timer_manager :=
  set_timers m (<[Z.to_nat id := mk_handle (Some id) (mk_backend 0 timer_stopped 0)]> (resized (timers m) id)).

Lemma with_handle_lookup m id i :
  0 <= id -> 0 <= i ->
  handle_of (with_handle m id) i = if decide (i = id) then mk_handle (Some id) (mk_backend 0 timer_stopped 0) else handle_of m i.
Proof.
  intros Hid Hi. unfold handle_of at 1, with_handle. cbn [timers set_timers]. case_decide; subst.
  - rewrite list_lookup_insert_eq; [done|]. unfold resized. rewrite length_app, length_replicate. lia.
  - rewrite list_lookup_insert_ne by lia. apply resized_lookup.
Qed.

Lemma create_handle_ok m p id :
  wheel_ok m p -> 0 <= id -> created m id = false ->
  create_timer_handle id m = ok (with_handle m id) /\ wheel_ok (with_handle m id) p.
Proof.
  intros Hm Hid Hc. pose proof (uncreated_default m p id Hm Hid Hc) as Hdef.
  assert (Hlk : resized (timers m) id !! Z.to_nat id = Some default_handle).
  { destruct (lookup_lt_is_Some_2 (resized (timers m) id) (Z.to_nat id)) as [x Hx].
    { unfold resized. rewrite length_app, length_replicate. lia. }
    rewrite Hx. f_equal. unfold handle_of in Hdef. by rewrite <- resized_lookup with (id := id), Hx in Hdef. }
  split.
  { unfold create_timer_handle. rewrite srsran_assert_ok.
    - rewrite bind_ok. unfold with_handle. f_equal. f_equal. fold (resized (timers m) id).
      apply list_eq. intros i. destruct (decide (i = Z.to_nat id)) as [->|].
      + rewrite list_lookup_alter_eq, Hlk, list_lookup_insert_eq by (by eapply lookup_lt_Some). done.
      + by rewrite list_lookup_alter_ne, list_lookup_insert_ne by done.
    - unfold handle_of in Hdef. destruct (timers m !! _) as [h|]; [|done]. simpl in Hdef. by subst. }
  pose proof Hm as []. constructor; try done.
  - intros i h. unfold with_handle. cbn [timers set_timers]. destruct (decide (i = Z.to_nat id)) as [->|].
    + rewrite list_lookup_insert_eq by (by eapply lookup_lt_Some). intros [= <-]. right. simpl. by rewrite Z2Nat.id.
    + rewrite list_lookup_insert_ne by done. intros Hi. pose proof (resized_lookup (timers m) id i) as Hr. rewrite Hi in Hr.
      destruct (timers m !! i) eqn:E; simpl in Hr; subst; [eauto|by left].
  - intros k i. split.
    + intros Hin. apply wh_wheel in Hin as (Hi & Hr & Hk). rewrite with_handle_lookup by done. case_decide; subst; [|done].
      by rewrite Hdef in Hr.
    + intros (Hi & Hx). rewrite with_handle_lookup in Hx by done. apply wh_wheel. case_decide; subst; [by destruct Hx|done].
  - unfold with_handle. cbn [timers set_timers nof_timers_running].
    rewrite (filter_insert_length _ _ _ _ _ Hlk), resized_count, wh_count. repeat case_decide; try done. lia.
  - intros i Hi. rewrite with_handle_lookup by done. case_decide; [done|]. by apply wh_timeout.
Qed.
