(* ===== verification/TimersSteps.v ===== *)
(** * Every step of every thread succeeds and keeps the invariant of the timers *)
From stdpp Require Import sorting.
From S2P Require Import Prelude Timers TimersInv TimersWheel.

(** ** Queues *)
Lemma cmds_for_app id q q' : cmds_for id (q ++ q') = cmds_for id q ++ cmds_for id q'.
Proof. apply omap_app. Qed.

Lemma cmds_for_create id i : cmds_for id [tev_create i] = [].
Proof. done. Qed.
Lemma cmds_for_cmd id c : cmds_for id [tev_cmd c] = if c_id c =? id then [c] else [].
Proof. simpl. unfold cmds_for. simpl. by destruct (_ =? _). Qed.

Lemma known_after_app known q q' id : known_after known (q ++ q') id = known_after (known_after known q) q' id.
Proof. unfold known_after. by rewrite existsb_app, orb_assoc. Qed.

Lemma queue_ok_ext known known' q :
  (forall id, 0 <= id -> known id = known' id) -> queue_ok known q -> queue_ok known' q.
Proof.
  revert known known'. induction q as [|[i|c] q IH]; intros known known' He; simpl; [done| |].
  - intros (? & Hk & Hq). rewrite <- He by done. split; [done|]. split; [done|]. eapply IH; [|exact Hq].
    intros j Hj. simpl. by rewrite He.
  - intros (? & Hk & Hq). rewrite <- He by done. eauto.
Qed.

Lemma queue_ok_app known q q' : queue_ok known q -> queue_ok (known_after known q) q' -> queue_ok known (q ++ q').
Proof.
  revert known. induction q as [|[i|c] q IH]; intros known; simpl.
  - intros _. apply queue_ok_ext. intros id _. unfold known_after. simpl. by rewrite orb_false_r.
  - intros (? & ? & Hq) Hq'. split; [done|]. split; [done|]. apply IH; [done|]. eapply queue_ok_ext; [|exact Hq'].
    intros id _. unfold known_after. simpl. by rewrite orb_assoc.
  - intros (? & ? & Hq) Hq'. auto.
Qed.

Lemma epochs_app {A} key epoch id (l l' : list A) : epochs key epoch id (l ++ l') = epochs key epoch id l ++ epochs key epoch id l'.
Proof. unfold epochs. by rewrite filter_app, fmap_app. Qed.
Lemma epochs_cons {A} key epoch id x (l : list A) :
  epochs key epoch id (x :: l) = (if key x =? id then [epoch x] else []) ++ epochs key epoch id l.
Proof. unfold epochs. rewrite filter_cons. case_decide; zcases; done. Qed.

(** ** Updates *)
Lemma views_change w w' id :
  (forall i, 0 <= i -> view_ok (view_of w i)) ->
  (forall i, 0 <= i -> i <> id -> view_of w' i = view_of w i) -> (0 <= id -> view_ok (view_of w' id)) ->
  forall i, 0 <= i -> view_ok (view_of w' i).
Proof. intros Hv Ho Hi i Hp. destruct (decide (i = id)) as [->|]; [auto|]. rewrite Ho by done. auto. Qed.

Lemma set_frontend_view w id f p cl i :
  i <> id -> view_of (mk_world (set_frontend (w_mgr w) id f) p (<[id := cl]> (w_clients w))) i =
             view_of (mk_world (w_mgr w) p (w_clients w)) i.
Proof. intros. unfold view_of. simpl. by rewrite !lookup_insert_ne by done. Qed.

(** ** Calls of clients *)
Lemma u32_range x : 0 <= u32 x < 2 ^ 32.
Proof. apply Z.mod_pos_bound. lia. Qed.

Lemma unique_timer_op_ok op id f :
  0 <= fe_cmd_id f -> fe_cmd_id f + 1 < 2 ^ 32 ->
  (match op with op_set d | op_set_callback d _ => d <=? MAX_TIMER_DURATION | _ => true end) = true ->
  exists f' oc, unique_timer_op op id f = ok (f', oc) /\ (forall c, oc = Some c -> c_id c = id) /\
    (bumped f f' oc \/ (f' = f /\ oc = None)).
Proof.
  intros H0 H1 Hd.
  assert (Hb : u32 (fe_cmd_id f + 1) = fe_cmd_id f + 1) by (apply u32_small; lia).
  pose proof (u32_range (fe_duration f)) as Hr.
  assert (Hset : forall d cb, (d <=? MAX_TIMER_DURATION) = true ->
    let f' := fe_set_callback (fe_set_duration (fe_bump f) d) cb in
    bumped f f' (if is_running (fe_state f) then Some (start_cmd id (fe_set_duration (fe_bump f) d)) else None)).
  { intros d cb _ f'. pose proof (u32_range d). constructor; simpl; [done|done|].
    destruct (fe_state f) eqn:E; simpl; [done| |done]. unfold is_start. simpl. done. }
  destruct op as [d|d cb| | |]; simpl.
  - unfold frontend_set. rewrite Hd. simpl. do 2 eexists. split; [done|]. split; [by destruct (is_running _); intros ? [= <-]|].
    left. apply (Hset d (fe_callback f) Hd).
  - unfold frontend_set_callback, frontend_set. rewrite Hd. simpl. do 2 eexists. split; [done|].
    split; [by destruct (is_running _); intros ? [= <-]|]. left. apply (Hset d cb Hd).
  - do 2 eexists. split; [done|]. split; [by intros ? [= <-]|]. left. constructor; simpl; done.
  - destruct (fe_state f) eqn:E; simpl; try (by exists f, None; split_and!; [| |right]). do 2 eexists. split; [done|]. split; [by intros ? [= <-]|].
    left. constructor; simpl; [done|done|]. done.
  - do 2 eexists. split; [done|]. split; [by intros ? [= <-]|]. left. constructor; simpl; [done|done|]. done.
Qed.

Lemma get_frontend_ok w id : winv w -> 0 <= id < next_timer_id (w_mgr w) ->
  exists f, get_frontend (w_mgr w) id = ok f /\ frontends (w_mgr w) !! id = Some f.
Proof.
  intros Hw Hid. apply (wi_alloc w Hw) in Hid as [f Hf]. exists f. unfold get_frontend. by rewrite Hf.
Qed.

(** Facts on a timer that exists. *)
Lemma view_fe_eq w id f : frontends (w_mgr w) !! id = Some f -> v_fe (view_of w id) = f.
Proof. intros H. simpl. by rewrite H. Qed.

Lemma client_alloc w id c : winv w -> 0 <= id -> w_clients w !! id = Some c -> exists f, frontends (w_mgr w) !! id = Some f.
Proof.
  intros Hw Hid Hc. destruct (frontends (w_mgr w) !! id) as [f|] eqn:E; [eauto|].
  destruct (vo_alloc _ (wi_views w Hw id Hid)) as (Hn & _); [|simpl in Hn; congruence].
  simpl. rewrite E. apply bool_decide_eq_false. by intros [? ?].
Qed.

Lemma step_op_ok w id op :
  winv w -> enabled (l_op id op) w = true -> exists w', step (l_op id op) w = ok w' /\ winv w'.
Proof.
  intros Hw. simpl. destruct (w_clients w !! id) as [[]|] eqn:Hc; [|done..].
  destruct (frontends (w_mgr w) !! id) as [f|] eqn:Hf; [|done]. intros [Hlt%Z.ltb_lt Hd]%andb_true_iff.
  assert (Hid : 0 <= id < next_timer_id (w_mgr w)) by (apply (wi_alloc w Hw); eauto).
  pose proof (wi_views w Hw id (proj1 Hid)) as Hv. pose proof (view_fe_eq w id f Hf) as Hfe.
  assert (H0 : 0 <= fe_cmd_id f).
  { view_facts Hv. rewrite Hfe in *. lia. }
  destruct (unique_timer_op_ok op id f H0 Hlt Hd) as (f' & oc & Hop & Hcid & Hb).
  unfold get_frontend. rewrite Hf, bind_ok, Hop, bind_ok. eexists. split; [done|]. clear Hop.
  assert (Hview : view_of (mk_world (set_frontend (w_mgr w) id f') (w_phase w)
      (<[id := match oc with Some c => client_push c | None => client_idle end]> (w_clients w))) id =
    match oc with Some _ => view_op (view_of w id) f' oc | None => view_op (view_of w id) f' None end).
  { unfold view_of, view_op. simpl. rewrite !lookup_insert_eq, Hf, Hc. simpl.
    destruct oc as [c|]; simpl; by rewrite ?app_nil_r. }
  destruct Hw. constructor; simpl; try done.
  - apply (views_change w _ id); [done| |].
    + intros i Hi Hne. rewrite set_frontend_view by done. by destruct w.
    + intros _. rewrite Hview. destruct Hb as [Hb|[-> ->]].
      * destruct oc; apply view_op_ok; rewrite ?Hfe; done.
      * replace (view_op (view_of w id) f None) with (view_of w id); [done|].
        unfold view_op. simpl. rewrite Hc, Hf. simpl. rewrite !app_nil_r. unfold view_of. rewrite Hc, Hf. simpl. by rewrite app_nil_r.
  - intros i. rewrite lookup_insert. case_decide; [|apply wi_alloc]. subst. split; [by intros _|eauto].
  - intros i c. rewrite lookup_insert. case_decide; [|apply wi_clients]. subst. destruct oc; intros [= <-]; (split; [apply Hid|auto]).
  - by apply (wheel_ok_frame (w_mgr w)).
Qed.

Lemma bind_some {A B} (x : outcome A) a (k : A -> outcome B) : x = ok a -> (x ≫= k) = k a.
Proof. by intros ->. Qed.

(** *** The push of a command, or of a new front-end *)
Lemma queue_push w id ev cl :
  w_queue (mk_world (set_pending (w_mgr w) (pending_cmds (w_mgr w) ++ [ev])) (w_phase w) (<[id := cl]> (w_clients w))) =
  w_queue w ++ [ev].
Proof. unfold w_queue. simpl. by rewrite app_assoc. Qed.

Lemma step_push_cmd w id c cls :
  winv w -> 0 <= id -> w_clients w !! id = Some (client_push c) ->
  (forall i, i <> id -> cls !! i = w_clients w !! i) ->
  cls !! id = (match c_action c with action_destroy => None | _ => Some client_idle end) ->
  winv (mk_world (push_timer_command (w_mgr w) c) (w_phase w) cls).
Proof.
  intros Hw Hid Hc Hne Heq. pose proof (wi_views w Hw id Hid) as Hv. destruct (wi_clients w Hw id _ Hc) as [_ Hcid].
  pose proof (vo_known _ Hv) as Hk. simpl in Hk. rewrite Hc in Hk.
  assert (Hq : w_queue (mk_world (push_timer_command (w_mgr w) c) (w_phase w) cls) = w_queue w ++ [tev_cmd c])
    by (unfold w_queue; simpl; by rewrite app_assoc).
  assert (Hkn : forall i, known_after (created (w_mgr w)) (w_queue w ++ [tev_cmd c]) i =
                     known_after (created (w_mgr w)) (w_queue w) i).
  { intros i. rewrite known_after_app. unfold known_after at 1. simpl. by rewrite orb_false_r. }
  destruct Hw. constructor; simpl; try done.
  - apply (views_change w _ id); [done| |].
    + intros i Hi Hn. unfold view_of. rewrite Hq. simpl. rewrite Hne, Hkn, cmds_for_app, cmds_for_cmd by done.
      rewrite Hcid, (proj2 (Z.eqb_neq id i)), app_nil_r by done. done.
    + intros _. pose proof (view_push_ok _ c Hv) as Hp. simpl in Hp. rewrite Hc in Hp.
      specialize (Hp eq_refl ltac:(apply elem_of_app; right; by left)).
      unfold view_of. rewrite Hq. simpl. rewrite Heq, Hkn, cmds_for_app, cmds_for_cmd, Hcid, Z.eqb_refl.
      unfold view_client in Hp. simpl in Hp. rewrite Hc in Hp. simpl in Hp.
      by destruct (c_action c); simpl; rewrite ?app_nil_r.
  - rewrite Hq. apply queue_ok_app; [done|]. simpl. rewrite Hcid. done.
  - intros i c'. destruct (decide (i = id)) as [->|]; [rewrite Heq; destruct (c_action c); intros [= <-]; done|]. rewrite Hne by done. apply wi_clients.
  - by apply (wheel_ok_frame (w_mgr w)).
Qed.

Lemma step_forward w id :
  winv w -> 0 <= id -> w_clients w !! id = Some client_forward ->
  winv (mk_world (forward_timer id (w_mgr w)) (w_phase w) (<[id := client_idle]> (w_clients w))).
Proof.
  intros Hw Hid Hc. pose proof (wi_views w Hw id Hid) as Hv.
  pose proof (vo_known _ Hv) as Hk. simpl in Hk. rewrite Hc in Hk. destruct Hk as [Hk _].
  set (w' := mk_world _ _ _). assert (Hq : w_queue w' = w_queue w ++ [tev_create id]) by apply queue_push.
  assert (Hkn : forall i, known_after (created (w_mgr w)) (w_queue w ++ [tev_create id]) i =
                     known_after (created (w_mgr w)) (w_queue w) i || (id =? i)).
  { intros i. rewrite known_after_app. unfold known_after at 1. simpl. by rewrite orb_false_r. }
  destruct Hw. constructor; subst w'; simpl; try done.
  - apply (views_change w _ id); [done| |].
    + intros i Hi Hn. unfold view_of. rewrite Hq. simpl.
      rewrite Hkn, cmds_for_app, cmds_for_create, lookup_insert_ne, (proj2 (Z.eqb_neq id i)), orb_false_r, app_nil_r by done. done.
    + intros _. pose proof (view_forward_ok _ Hv Hc) as Hp.
      unfold view_of. rewrite Hq. simpl. rewrite Hkn, cmds_for_app, cmds_for_create, lookup_insert_eq, Z.eqb_refl, orb_true_r, app_nil_r.
      unfold view_client in Hp. simpl in Hp. by rewrite Hc in Hp.
  - rewrite Hq. apply queue_ok_app; [done|]. simpl. done.
  - intros i c'. rewrite lookup_insert. case_decide; [|apply wi_clients]. subst. by intros [= <-].
  - by apply (wheel_ok_frame (w_mgr w)).
Qed.

Lemma step_push_ok w id :
  winv w -> enabled (l_push id) w = true -> exists w', step (l_push id) w = ok w' /\ winv w'.
Proof.
  intros Hw. simpl. destruct (w_clients w !! id) as [cl|] eqn:Hc; [|done].
  destruct (wi_clients w Hw id cl Hc) as [Hid _].
  destruct cl as [| |c]; [done| |]; intros _; (eexists; split; [done|]).
  - by apply step_forward.
  - apply (step_push_cmd w id c); [done..| |].
    + intros i Hi. destruct (c_action c); rewrite ?lookup_insert_ne, ?lookup_delete_ne by done; done.
    + destruct (c_action c); rewrite ?lookup_insert_eq, ?lookup_delete_eq; done.
Qed.

(** *** Executors *)
Lemma epochs_delete {A} key epoch id k (l : list A) x :
  l !! k = Some x -> epochs key epoch id l ≡ₚ (if key x =? id then [epoch x] else []) ++ epochs key epoch id (delete k l).
Proof.
  intros Hk. unfold epochs. rewrite (delete_Permutation l k x Hk) at 1. rewrite filter_cons. case_decide; zcases; done.
Qed.
Lemma epochs_delete_ne {A} key epoch id k (l : list A) x :
  l !! k = Some x -> key x <> id -> epochs key epoch id (delete k l) = epochs key epoch id l.
Proof.
  intros Hk Hne. unfold epochs. rewrite <- (take_drop_middle l k x Hk) at 2. rewrite delete_take_drop, !filter_app, filter_cons_False by done. done.
Qed.

Definition task_effect (t : expiry_task) (f : timer_frontend) (m m' : timer_manager) : Prop :=
  let cur := fe_cmd_id f =? t_epoch t in
  frontends m' = (if cur then <[t_id t := fe_set_state f timer_expired]> (frontends m) else frontends m) /\
  callbacks m' = callbacks m ++ (if cur && fe_callback f then [(t_id t, t_epoch t)] else []) /\
  tasks m' = tasks m /\ cur_time m' = cur_time m /\ nof_timers_running m' = nof_timers_running m /\
  timers m' = timers m /\ timer_pool m' = timer_pool m /\ next_timer_id m' = next_timer_id m /\
  time_wheel m' = time_wheel m /\ failed_to_trigger_timers m' = failed_to_trigger_timers m /\ pending_cmds m' = pending_cmds m.

Lemma run_expiry_task_spec t m f :
  frontends m !! t_id t = Some f -> (fe_cmd_id f = t_epoch t -> fe_state f = timer_running) ->
  exists m', run_expiry_task t m = ok m' /\ task_effect t f m m'.
Proof.
  intros Hf Hr. unfold run_expiry_task, get_frontend, task_effect. rewrite Hf, bind_ok.
  destruct (Z.eqb_spec (fe_cmd_id f) (t_epoch t)) as [E|]; [rewrite (Hr E); simpl; destruct (fe_callback f)|]; eexists;
    (split; [done|]); simpl; rewrite ?app_nil_r; done.
Qed.

(** The timer of a task exists, and runs if the task is of its current run. *)
Lemma task_timer w k t :
  winv w -> tasks (w_mgr w) !! k = Some t ->
  0 <= t_id t /\ exists f, frontends (w_mgr w) !! t_id t = Some f /\ (fe_cmd_id f = t_epoch t -> fe_state f = timer_running).
Proof.
  intros Hw Hk. assert (Hid : 0 <= t_id t).
  { pose proof (wi_tasks w Hw) as Ht. rewrite Forall_forall in Ht. apply Ht. by eapply list_elem_of_lookup_2. }
  split; [done|]. pose proof (wi_views w Hw (t_id t) Hid) as Hv.
  assert (Hin : t_epoch t ∈ v_tasks (view_of w (t_id t))).
  { simpl. rewrite (epochs_delete t_id t_epoch (t_id t) k _ t Hk), Z.eqb_refl. by left. }
  pose proof (view_task_running _ (t_epoch t) Hv Hin) as Hrun. simpl in Hrun.
  destruct (frontends (w_mgr w) !! t_id t) as [f|] eqn:Hf; [eauto|].
  destruct (vo_alloc _ Hv) as (_ & _ & _ & _ & Hn).
  - simpl. rewrite Hf. apply bool_decide_eq_false. by intros [? ?].
  - exfalso. assert (Hin' : t_epoch t ∈ tokens (view_of w (t_id t)) ++ v_fired (view_of w (t_id t)))
      by (unfold tokens; rewrite !elem_of_app; tauto).
    rewrite Hn in Hin'. by apply elem_of_nil in Hin'.
Qed.

Lemma step_exec_ok w k :
  winv w -> enabled (l_exec k) w = true -> exists w', step (l_exec k) w = ok w' /\ winv w'.
Proof.
  intros Hw. simpl. destruct (tasks (w_mgr w) !! k) as [t|] eqn:Hk; [|done]. intros _.
  destruct (task_timer w k t Hw Hk) as (Hid & f & Hf & Hrun).
  destruct (run_expiry_task_spec t (set_tasks (w_mgr w) (delete k (tasks (w_mgr w)))) f Hf Hrun)
    as (m' & -> & E1 & E2 & E3 & E4 & E5 & E6 & E7 & E8 & E9 & E10 & E11).
  rewrite bind_ok. eexists. split; [done|]. simpl in *.
  pose proof (wi_views w Hw (t_id t) Hid) as Hv.
  pose proof (epochs_delete t_id t_epoch (t_id t) k _ t Hk) as Hp. rewrite Z.eqb_refl in Hp.
  pose proof (view_exec_ok _ _ _ Hv Hp) as Hok. unfold view_exec in Hok. simpl in Hok. rewrite Hf in Hok. simpl in Hok.
  assert (Hq : w_queue (mk_world m' (w_phase w) (w_clients w)) = w_queue w) by (unfold w_queue; simpl; by rewrite E11).
  assert (Hcr : created m' = created (w_mgr w)) by (unfold created, handle_of; by rewrite E6).
  destruct Hw. constructor; rewrite ?Hq; simpl; rewrite ?Hcr, ?E3, ?E6, ?E7, ?E8, ?E10; try done.
  - apply (views_change w _ (t_id t)); [done| |].
    + intros i Hi Hne. unfold view_of. rewrite Hq. simpl. rewrite Hcr, E1, E2, E3, E7, E10, epochs_app. unfold handle_of. rewrite E6.
      rewrite (epochs_delete_ne _ _ _ _ _ _ Hk) by done.
      assert (En : epochs fst snd i (if (fe_cmd_id f =? t_epoch t) && fe_callback f then [(t_id t, t_epoch t)] else []) = []).
      { destruct (_ && _); [|done]. rewrite epochs_cons. simpl. by rewrite (proj2 (Z.eqb_neq (t_id t) i)). }
      rewrite En, app_nil_r. zcases; [by rewrite lookup_insert_ne|done].
    + intros _. unfold view_of. rewrite Hq. simpl. rewrite Hcr, E1, E2, E3, E7, E10, epochs_app. unfold handle_of. rewrite E6.
      assert (Ef : (if fe_cmd_id f =? t_epoch t then <[t_id t := fe_set_state f timer_expired]> (frontends (w_mgr w))
                    else frontends (w_mgr w)) !! t_id t =
                   Some (if fe_cmd_id f =? t_epoch t then fe_set_state f timer_expired else f))
        by (zcases; [by rewrite lookup_insert_eq|done]).
      rewrite Ef. simpl. destruct (_ && _); [|exact Hok]. by rewrite epochs_cons, Z.eqb_refl.
  - intros i. rewrite E1. zcases; [|apply wi_alloc]. rewrite <- wi_alloc.
    destruct (decide (t_id t = i)) as [<-|]; [|by rewrite lookup_insert_ne]. rewrite lookup_insert_eq, Hf. split; eauto.
  - by apply Forall_delete.
  - by apply (wheel_ok_frame (w_mgr w)).
Qed.

(** *** Creation *)
Lemma wheel_len_handle w i h : winv w -> timers (w_mgr w) !! i = Some h -> Z.of_nat i < next_timer_id (w_mgr w).
Proof. intros Hw Hl%lookup_lt_Some. pose proof (wi_len w Hw). lia. Qed.

Lemma known_created w id : created (w_mgr w) id = true -> v_known (view_of w id) = true.
Proof. simpl. unfold known_after. by intros ->. Qed.

Lemma step_reuse_ok w ex id :
  winv w -> id ∈ timer_pool (w_mgr w) -> exists w', step (l_create ex (Some id)) w = ok w' /\ winv w'.
Proof.
  intros Hw Hin. destruct (wi_pool w Hw) as [Hnd Hpos]. simpl.
  assert (Hid : 0 <= id) by (rewrite Forall_forall in Hpos; auto).
  pose proof (wi_views w Hw id Hid) as Hv. assert (Hfree : v_free (view_of w id) = true) by (by apply bool_decide_eq_true).
  destruct (vo_free _ Hv Hfree) as (Hc & Hn & He & Hcr & Hst). simpl in *.
  assert (Hf : exists f, frontends (w_mgr w) !! id = Some f).
  { destruct (frontends (w_mgr w) !! id) eqn:E; [eauto|]. destruct (vo_alloc _ Hv) as (_ & _ & Hn' & _); [|simpl in Hn'; congruence].
    simpl. rewrite E. apply bool_decide_eq_false. by intros [? ?]. }
  destruct Hf as [f Hf]. rewrite Hf in He. simpl in He. unfold get_frontend. simpl. rewrite Hf. simpl. rewrite He. simpl.
  eexists. split; [done|].
  pose proof (view_reuse_ok _ ex Hv Hfree (known_created w id Hcr)) as Hok. unfold view_own in Hok. simpl in Hok.
  rewrite Hf, Hc in Hok. simpl in Hok.
  destruct Hw. constructor; simpl; try done.
  - apply (views_change w _ id); [done| |].
    + intros i Hi Hne. unfold view_of. simpl. rewrite !lookup_insert_ne by done. f_equal.
      apply bool_decide_ext. rewrite list_elem_of_filter. split; [by intros [_ ?]|by split].
    + intros _. unfold view_of. simpl. rewrite !lookup_insert_eq. simpl.
      rewrite (bool_decide_eq_false_2 (id ∈ _)) by (rewrite list_elem_of_filter; tauto). exact Hok.
  - intros i. rewrite <- wi_alloc.
    destruct (decide (id = i)) as [<-|]; [|by rewrite lookup_insert_ne]. rewrite lookup_insert_eq, Hf. split; eauto.
  - intros i c. destruct (decide (id = i)) as [<-|]; [|rewrite lookup_insert_ne by done; apply wi_clients].
    rewrite lookup_insert_eq. by intros [= <-].
  - split; [by apply NoDup_filter|]. apply Forall_forall. intros i [_ Hi]%list_elem_of_filter. rewrite Forall_forall in Hpos. auto.
  - by apply (wheel_ok_frame (w_mgr w)).
Qed.

Lemma step_new_ok w ex :
  winv w -> next_timer_id (w_mgr w) < timer_id_invalid -> exists w', step (l_create ex None) w = ok w' /\ winv w'.
Proof.
  intros Hw Hlt. eexists. split; [done|]. set (id := next_timer_id (w_mgr w)).
  pose proof (wi_next w Hw) as Hnext. assert (Hid : 0 <= id) by lia.
  pose proof (wi_views w Hw id Hid) as Hv.
  assert (Hf : frontends (w_mgr w) !! id = None).
  { apply eq_None_not_Some. rewrite (wi_alloc w Hw). lia. }
  assert (Halloc : v_alloc (view_of w id) = false) by (simpl; rewrite Hf; apply bool_decide_eq_false; by intros [? ?]).
  pose proof (view_new_ok _ ex Hv Halloc) as Hok. destruct (vo_alloc _ Hv Halloc) as (Hc & Hk & Hfr & Hn & _).
  unfold view_own in Hok. simpl in *. rewrite Hf, Hc in Hok. simpl in Hok.
  assert (E : u32 (id + 1) = id + 1) by (apply u32_small; unfold timer_id_invalid, id in *; lia).
  destruct Hw. constructor; simpl; rewrite ?E; try done.
  - apply (views_change w _ id); [done| |].
    + intros i Hi Hne. unfold view_of. simpl. rewrite !lookup_insert_ne by done. done.
    + intros _. unfold view_of. simpl. rewrite !lookup_insert_eq. simpl. rewrite Hfr. exact Hok.
  - intros i. destruct (decide (id = i)) as [<-|].
    + rewrite lookup_insert_eq. split; [lia|eauto].
    + rewrite lookup_insert_ne, wi_alloc by done. unfold id in *. lia.
  - unfold id in *. lia.
  - unfold id in *. lia.
  - intros i c. destruct (decide (id = i)) as [<-|]; [|rewrite lookup_insert_ne by done; apply wi_clients].
    rewrite lookup_insert_eq. by intros [= <-].
  - by apply (wheel_ok_frame (w_mgr w)).
Qed.

(** ** The ticking thread *)

Lemma known_alloc w id : winv w -> 0 <= id -> known_after (created (w_mgr w)) (w_queue w) id = true ->
  exists f, frontends (w_mgr w) !! id = Some f.
Proof.
  intros Hw Hid Hk. destruct (frontends (w_mgr w) !! id) as [f|] eqn:E; [eauto|].
  destruct (vo_alloc _ (wi_views w Hw id Hid)) as (_ & Hn & _); [|simpl in Hn; congruence].
  simpl. rewrite E. apply bool_decide_eq_false. by intros [? ?].
Qed.

Lemma backend_step_created m m' id b i :
  backend_step m m' id b -> 0 <= i -> created m id = true -> created m' i = created m i.
Proof. intros Hs Hi Hc. unfold created in *. rewrite (bs_handle _ _ _ _ Hs) by done. case_decide; subst; [by rewrite Hc|done]. Qed.

Lemma wi_cap w : winv w -> zlen (timers (w_mgr w)) <= timer_id_invalid.
Proof. intros []. lia. Qed.

(** The views of a world whose back-end changed at one timer. *)
Lemma backend_step_view_of w m1 id b p i :
  backend_step (w_mgr w) m1 id b -> created (w_mgr w) id = true -> 0 <= i ->
  existsb (creates i) (w_queue (mk_world m1 p (w_clients w))) = existsb (creates i) (w_queue w) ->
  view_of (mk_world m1 p (w_clients w)) i =
  mk_view (v_alloc (view_of w i)) (v_created (view_of w i)) (v_known (view_of w i)) (v_free (view_of w i)) (v_client (view_of w i))
    (v_fe (view_of w i)) (if decide (i = id) then b else v_be (view_of w i))
    (cmds_for i (w_queue (mk_world m1 p (w_clients w))) ++ client_cmd (w_clients w !! i))
    (v_tasks (view_of w i)) (v_failed (view_of w i)) (v_fired (view_of w i)).
Proof.
  intros Hs Hcr Hi Hq. unfold view_of, known_after. rewrite Hq. cbn.
  rewrite (bs_frontends _ _ _ _ Hs), (bs_pool _ _ _ _ Hs), (bs_tasks _ _ _ _ Hs), (bs_failed _ _ _ _ Hs), (bs_callbacks _ _ _ _ Hs).
  rewrite (bs_handle _ _ _ _ Hs), (backend_step_created _ _ _ _ _ Hs) by done. by case_decide.
Qed.

Lemma backend_step_view w m1 id b p q i :
  backend_step (w_mgr w) m1 id b -> created (w_mgr w) id = true -> 0 <= i -> i <> id ->
  w_queue w = q :: w_queue (mk_world m1 p (w_clients w)) -> creates i q = false -> event_cmd i q = None ->
  view_of (mk_world m1 p (w_clients w)) i = view_of w i.
Proof.
  intros Hs Hcr Hi Hne Hq Hcq Heq. rewrite (backend_step_view_of w m1 id b) by (try done; rewrite Hq; simpl; by rewrite Hcq).
  rewrite decide_False by done. unfold view_of. rewrite Hq. unfold cmds_for. simpl. by rewrite Heq.
Qed.

Section command.
Context (w : world) (c : cmd_t) (cmds : list timer_event).
Context (Hw : winv w) (Hph : w_phase w = phase_commands (tev_cmd c :: cmds)).

Local Abbreviation id := (c_id c).

Lemma command_queue m' : pending_cmds m' = pending_cmds (w_mgr w) ->
  w_queue w = tev_cmd c :: w_queue (mk_world m' (phase_commands cmds) (w_clients w)).
Proof using Hph. intros E. unfold w_queue. simpl. by rewrite Hph, E. Qed.

Lemma command_facts :
  0 <= id /\ created (w_mgr w) id = true /\ queue_ok (created (w_mgr w)) (cmds ++ pending_cmds (w_mgr w)) /\
  v_cmds (view_of w id) = c :: cmds_for id (cmds ++ pending_cmds (w_mgr w)) ++ client_cmd (w_clients w !! id) /\
  0 <= c_duration c < 2 ^ 32.
Proof using Hw Hph.
  pose proof (wi_queue w Hw) as Hq. unfold w_queue in Hq. rewrite Hph in Hq. simpl in Hq. destruct Hq as (Hid & Hcr & Hq).
  assert (Hc : v_cmds (view_of w id) = c :: cmds_for id (cmds ++ pending_cmds (w_mgr w)) ++ client_cmd (w_clients w !! id)).
  { simpl. unfold w_queue. rewrite Hph. unfold cmds_for. simpl. by rewrite Z.eqb_refl. }
  split; [done|]. split; [done|]. split; [done|]. split; [done|].
  pose proof (vo_durations _ (wi_views w Hw id Hid)) as Hd. rewrite Hc in Hd. by apply Forall_cons in Hd as [? _].
Qed.

Lemma command_start_stop m' b :
  c_action c <> action_destroy -> backend_step (w_mgr w) m' id b -> be_cmd_id b = c_cmd_id c ->
  (is_start c <-> be_state b = timer_running) -> wheel_ok m' (phase_commands cmds) ->
  winv (mk_world m' (phase_commands cmds) (w_clients w)).
Proof using Hw Hph.
  intros Ha Hs Hid Hrun Hwh. destruct command_facts as (Hpos & Hcr & Hqok & Hc & Hd).
  pose proof (wi_views w Hw id Hpos) as Hv. pose proof (view_process_ok _ c _ b Hv Hc Hid Hrun) as Hok.
  pose proof (command_queue m' (bs_pending _ _ _ _ Hs)) as Hq. pose proof Hw as Hw'.
  destruct Hw'. constructor; cbn [w_mgr w_phase w_clients]; try done.
  - apply (views_change w _ id); [done| |].
    + intros i Hi Hne. apply (backend_step_view w m' id b _ (tev_cmd c)); try done. simpl. by rewrite (proj2 (Z.eqb_neq id i)).
    + intros _. unfold view_backend in Hok. cbn in Hok. unfold view_of. cbn.
      rewrite (bs_frontends _ _ _ _ Hs), (bs_pool _ _ _ _ Hs), (bs_tasks _ _ _ _ Hs), (bs_failed _ _ _ _ Hs), (bs_callbacks _ _ _ _ Hs).
      rewrite (bs_handle _ _ _ _ Hs), decide_True by done. cbn.
      unfold known_after in *. rewrite (backend_step_created _ _ _ _ _ Hs), Hcr in * by done. simpl in *.
      unfold w_queue. cbn. by rewrite (bs_pending _ _ _ _ Hs).
  - by rewrite (bs_frontends _ _ _ _ Hs), (bs_next _ _ _ _ Hs).
  - by rewrite (bs_next _ _ _ _ Hs).
  - by rewrite (bs_len _ _ _ _ Hs), (bs_next _ _ _ _ Hs).
  - unfold w_queue. cbn. rewrite (bs_pending _ _ _ _ Hs). eapply queue_ok_ext; [|exact Hqok].
    intros i Hi. by rewrite (backend_step_created _ _ _ _ _ Hs).
  - rewrite (bs_failed _ _ _ _ Hs). eapply Forall_impl; [exact wi_failed|]. intros [i e] [Hi Hci]. split; [done|].
    by rewrite (backend_step_created _ _ _ _ _ Hs).
  - by rewrite (bs_tasks _ _ _ _ Hs).
  - by rewrite (bs_pool _ _ _ _ Hs).
Qed.

Lemma command_destroy m1 f b :
  c_action c = action_destroy -> backend_step (w_mgr w) m1 id b -> b = mk_backend (c_cmd_id c) timer_stopped 0 ->
  frontends (w_mgr w) !! id = Some f ->
  let m' := set_pool (set_frontend m1 id (cleared f)) (timer_pool m1 ++ [id]) in
  wheel_ok m' (phase_commands cmds) ->
  winv (mk_world m' (phase_commands cmds) (w_clients w)).
Proof using Hw Hph.
  intros Ha Hs Hb Hf m' Hwh. destruct command_facts as (Hpos & Hcr & Hqok & Hc & Hd).
  pose proof (wi_views w Hw id Hpos) as Hv.
  destruct (view_destroy_last _ _ _ Hv Hc Ha) as [Hcs Hcl]. pose proof (view_destroy_ok _ _ _ Hv Hc Ha Hcr) as Hok.
  destruct (vo_destroy _ Hv c) as (_ & _ & Hfr & _); [rewrite Hc; by left|done|].
  pose proof (command_queue m' (bs_pending _ _ _ _ Hs)) as Hq. cbn in Hcl, Hfr. pose proof Hw as Hw'.
  destruct Hw'. constructor; subst m'; cbn [w_mgr w_phase w_clients]; try done.
  - apply (views_change w _ id); [done| |].
    + intros i Hi Hne. rewrite <- (backend_step_view w m1 id b (phase_commands cmds) (tev_cmd c) i); try done.
      * unfold view_of. cbn. rewrite lookup_insert_ne by done. f_equal. apply bool_decide_ext.
        rewrite elem_of_app, list_elem_of_singleton. split; [by intros [?| ->]|by left].
      * simpl. by rewrite (proj2 (Z.eqb_neq id i)).
    + intros _. unfold view_destroyed in Hok. cbn in Hok. rewrite Hf in Hok. unfold view_of. cbn. rewrite lookup_insert_eq.
      rewrite (bs_tasks _ _ _ _ Hs), (bs_failed _ _ _ _ Hs), (bs_callbacks _ _ _ _ Hs).
      assert (Hh : handle_of (set_pool (set_frontend m1 id (cleared f)) (timer_pool m1 ++ [id])) id = mk_handle (Some id) b).
      { change (handle_of m1 id = mk_handle (Some id) b). by rewrite (bs_handle _ _ _ _ Hs), decide_True. }
      rewrite Hh. unfold w_queue, known_after, created, cmds_for in *. cbn. rewrite (bs_pending _ _ _ _ Hs), Hh, Hcs, Hcl. cbn.
      rewrite (bool_decide_eq_true_2 (id ∈ _)) by (rewrite elem_of_app, list_elem_of_singleton; by right).
      rewrite Hcr, Hcl in Hok. cbn in Hok. subst b. exact Hok.
  - intros i. cbn. rewrite (bs_frontends _ _ _ _ Hs), (bs_next _ _ _ _ Hs), <- wi_alloc.
    destruct (decide (id = i)) as [<-|]; [|by rewrite lookup_insert_ne]. rewrite lookup_insert_eq, Hf. split; eauto.
  - cbn. by rewrite (bs_next _ _ _ _ Hs).
  - cbn. by rewrite (bs_len _ _ _ _ Hs), (bs_next _ _ _ _ Hs).
  - unfold w_queue. cbn. rewrite (bs_pending _ _ _ _ Hs). eapply queue_ok_ext; [|exact Hqok].
    intros i Hi. exact (eq_sym (backend_step_created _ _ _ _ _ Hs Hi Hcr)).
  - cbn. rewrite (bs_failed _ _ _ _ Hs). eapply Forall_impl; [exact wi_failed|]. intros [i e] [Hi Hci]. split; [done|].
    etransitivity; [exact (backend_step_created _ _ _ _ _ Hs Hi Hcr)|done].
  - cbn. by rewrite (bs_tasks _ _ _ _ Hs).
  - cbn. rewrite (bs_pool _ _ _ _ Hs). destruct wi_pool as [Hnd Hall]. split.
    + apply NoDup_app. split; [done|]. split; [|apply NoDup_singleton]. intros i Hi ->%list_elem_of_singleton.
      by apply bool_decide_eq_false in Hfr.
    + apply Forall_app. split; [done|]. by repeat constructor.
Qed.

Lemma tick_cmd_ok a :
  exists m', tick_step a (w_phase w) (w_mgr w) = ok (m', phase_commands cmds) /\
    winv (mk_world m' (phase_commands cmds) (w_clients w)).
Proof using Hw Hph.
  destruct command_facts as (Hpos & Hcr & Hqok & Hc & Hd).
  destruct (known_alloc w id Hw Hpos) as [f Hf]; [unfold known_after; by rewrite Hcr|].
  pose proof (wheel_phase _ _ (phase_commands cmds) (wi_wheel w Hw)) as Hwh. rewrite Hph in Hwh.
  specialize (Hwh ltac:(done) ltac:(done)).
  destruct (process_cmd_ok (w_mgr w) (phase_commands cmds) c f) as (m' & b & Hp & Hwh' & Heff); try done; [by apply wi_cap|].
  exists m'. rewrite Hph. unfold tick_step. rewrite Hp, bind_ok. split; [done|].
  destruct Heff as (He & Hrun & _ & Hs). destruct (c_action c) eqn:Ha.
  - by apply (command_start_stop m' b); try congruence.
  - by apply (command_start_stop m' b); try congruence.
  - destruct Hs as (Hb & m1 & Hs & ->). by apply (command_destroy m1 f b).
Qed.
End command.

Lemma tick_create_ok w id cmds a :
  winv w -> w_phase w = phase_commands (tev_create id :: cmds) ->
  exists m', tick_step a (w_phase w) (w_mgr w) = ok (m', phase_commands cmds) /\
    winv (mk_world m' (phase_commands cmds) (w_clients w)).
Proof.
  intros Hw Hph. pose proof (wi_queue w Hw) as Hq. unfold w_queue in Hq. rewrite Hph in Hq. simpl in Hq.
  destruct Hq as (Hid & Hcr & Hqok). pose proof (wi_views w Hw id Hid) as Hv.
  assert (Hk : v_known (view_of w id) = true).
  { simpl. unfold w_queue, known_after. rewrite Hph. simpl. by rewrite Z.eqb_refl, orb_true_r. }
  destruct (known_alloc w id Hw Hid Hk) as [f Hf].
  pose proof (wheel_phase _ _ (phase_commands cmds) (wi_wheel w Hw)) as Hwh. rewrite Hph in Hwh.
  specialize (Hwh ltac:(done) ltac:(done)).
  destruct (create_handle_ok _ _ id Hwh Hid Hcr) as [He Hwh'].
  pose proof (uncreated_default _ _ id Hwh Hid Hcr) as Hdef.
  exists (with_handle (w_mgr w) id). rewrite Hph. unfold tick_step, process_command. rewrite He, bind_ok. split; [done|].
  assert (Hcre : forall i, 0 <= i -> created (with_handle (w_mgr w) id) i = created (w_mgr w) i || (id =? i)).
  { intros i Hi. unfold created. rewrite with_handle_lookup by done. case_decide; subst.
    - by rewrite Z.eqb_refl, orb_true_r.
    - by rewrite (proj2 (Z.eqb_neq id i)), orb_false_r. }
  assert (Hkn : forall i, 0 <= i ->
    known_after (created (with_handle (w_mgr w) id)) (cmds ++ pending_cmds (w_mgr w)) i =
    known_after (created (w_mgr w)) (w_queue w) i).
  { intros i Hi. unfold known_after, w_queue. rewrite Hcre, Hph by done. simpl. by rewrite orb_assoc. }
  pose proof (view_created_ok _ Hv Hk) as Hok. cbn in Hok. rewrite Hf in Hok.
  pose proof Hw as []. constructor; cbn [w_mgr w_phase w_clients]; try done.
  - apply (views_change w _ id); [done| |].
    + intros i Hi Hne. unfold view_of. cbn -[known_after with_handle cmds_for]. rewrite with_handle_lookup, decide_False by done.
      rewrite Hcre, (proj2 (Z.eqb_neq id i)), orb_false_r by done. f_equal.
      * by apply Hkn.
      * f_equal. unfold w_queue. cbn -[cmds_for with_handle]. rewrite Hph. done.
    + intros _. unfold view_of. cbn -[known_after with_handle cmds_for w_queue].
      change (frontends (with_handle (w_mgr w) id)) with (frontends (w_mgr w)).
      rewrite with_handle_lookup, decide_True, Hcre, Z.eqb_refl, orb_true_r, Hf by done.
      rewrite Hdef in Hok. unfold known_after, w_queue, cmds_for in *. rewrite Hph in Hok. cbn in *.
      rewrite Hcre, Z.eqb_refl, orb_true_r by done. by rewrite Z.eqb_refl, orb_true_r in Hok.
  - cbn. unfold resized. rewrite length_insert, length_app, length_replicate.
    assert (0 <= id < next_timer_id (w_mgr w)) by (apply wi_alloc; eauto). lia.
  - eapply queue_ok_ext; [|exact Hqok]. intros i Hi. by rewrite Hcre.
  - cbn. eapply Forall_impl; [exact wi_failed|]. intros [i e] [Hi Hci]. split; [done|]. rewrite Hcre by done. by rewrite Hci.
Qed.

(** *** Postponed timeouts *)
Lemma view_same w m' p i :
  w_queue (mk_world m' p (w_clients w)) = w_queue w -> timers m' = timers (w_mgr w) -> timer_pool m' = timer_pool (w_mgr w) ->
  frontends m' = frontends (w_mgr w) -> callbacks m' = callbacks (w_mgr w) ->
  view_of (mk_world m' p (w_clients w)) i =
  mk_view (v_alloc (view_of w i)) (v_created (view_of w i)) (v_known (view_of w i)) (v_free (view_of w i)) (v_client (view_of w i))
    (v_fe (view_of w i)) (v_be (view_of w i)) (v_cmds (view_of w i)) (epochs t_id t_epoch i (tasks m'))
    (epochs fst snd i (failed_to_trigger_timers m')) (v_fired (view_of w i)).
Proof. intros Hq Ht Hp Hf Hc. unfold view_of, created, handle_of. rewrite Hq. cbn. by rewrite Ht, Hp, Hf, Hc. Qed.

(** A change of tasks and postponed timeouts of one timer. *)
Lemma winv_tokens w m' p id :
  winv w -> w_queue (mk_world m' p (w_clients w)) = w_queue w -> timers m' = timers (w_mgr w) ->
  timer_pool m' = timer_pool (w_mgr w) -> frontends m' = frontends (w_mgr w) -> callbacks m' = callbacks (w_mgr w) ->
  next_timer_id m' = next_timer_id (w_mgr w) -> wheel_ok m' p ->
  (forall i, i <> id -> epochs t_id t_epoch i (tasks m') = epochs t_id t_epoch i (tasks (w_mgr w)) /\
     epochs fst snd i (failed_to_trigger_timers m') = epochs fst snd i (failed_to_trigger_timers (w_mgr w))) ->
  (0 <= id -> view_ok (view_backend (view_of w id) (v_be (view_of w id)) (v_cmds (view_of w id))
    (epochs t_id t_epoch id (tasks m')) (epochs fst snd id (failed_to_trigger_timers m')))) ->
  Forall (fun p => 0 <= p.1 /\ created (w_mgr w) p.1 = true) (failed_to_trigger_timers m') ->
  Forall (fun t => 0 <= t_id t) (tasks m') ->
  winv (mk_world m' p (w_clients w)).
Proof.
  intros Hw Hq Ht Hp Hf Hc Hn Hwh Hother Hok Hfl Htk. pose proof (fun i => view_same w m' p i Hq Ht Hp Hf Hc) as Hview.
  assert (Hcr : created m' = created (w_mgr w)) by (unfold created, handle_of; by rewrite Ht).
  destruct Hw. constructor; rewrite ?Hq; cbn [w_mgr w_phase w_clients]; rewrite ?Hcr, ?Ht, ?Hp, ?Hf, ?Hn; try done.
  apply (views_change w _ id); [done| |].
  - intros i _ Hne. rewrite Hview. destruct (Hother i Hne) as [-> ->]. done.
  - intros Hid. rewrite Hview. by apply Hok.
Qed.

Lemma created_exists w id : winv w -> 0 <= id -> created (w_mgr w) id = true -> exists f, frontends (w_mgr w) !! id = Some f.
Proof. intros Hw Hid Hcr. apply known_alloc; [done..|]. unfold known_after. by rewrite Hcr. Qed.

Section postponed.
Context (w : world) (Hw : winv w) (Hph : w_phase w = phase_postponed).

Lemma postponed_wheel p : (forall todo, p <> phase_expire todo) -> wheel_ok (w_mgr w) p.
Proof using Hw Hph. intros Hp. apply (wheel_phase _ (w_phase w)); [apply Hw| |done]. by rewrite Hph. Qed.

Lemma postponed_stay p :
  p = phase_postponed \/ p = phase_advance -> winv (mk_world (w_mgr w) p (w_clients w)).
Proof using Hw Hph.
  intros Hp. assert (Hq : w_queue (mk_world (w_mgr w) p (w_clients w)) = w_queue w)
    by (unfold w_queue; cbn; rewrite Hph; by destruct Hp; subst).
  apply (winv_tokens w _ _ (-1)); try done; [apply postponed_wheel; by destruct Hp; subst|apply Hw|apply Hw].
Qed.

Context (id e : Z) (rest : list (Z * Z)) (Hfl : failed_to_trigger_timers (w_mgr w) = (id, e) :: rest).

Lemma postponed_head :
  0 <= id /\ created (w_mgr w) id = true /\ Forall (fun p => 0 <= p.1 /\ created (w_mgr w) p.1 = true) rest /\
  v_failed (view_of w id) = e :: epochs fst snd id rest /\
  forall i, i <> id -> epochs fst snd i rest = epochs fst snd i (failed_to_trigger_timers (w_mgr w)).
Proof using Hw Hfl.
  pose proof (wi_failed w Hw) as Hall. rewrite Hfl in Hall. apply Forall_cons in Hall as [[Hid Hcr] Hrest].
  split; [done|]. split; [done|]. split; [done|]. split.
  - cbn. rewrite Hfl, epochs_cons. cbn. by rewrite Z.eqb_refl.
  - intros i Hi. rewrite Hfl, epochs_cons. cbn. by rewrite (proj2 (Z.eqb_neq id i)).
Qed.

Lemma postponed_drop f :
  frontends (w_mgr w) !! id = Some f ->
  (be_cmd_id (th_backend (handle_of (w_mgr w) id)) <> e \/ be_cmd_id (th_backend (handle_of (w_mgr w) id)) <> fe_cmd_id f) ->
  winv (mk_world (set_failed (w_mgr w) rest) phase_postponed (w_clients w)).
Proof using Hw Hph Hfl.
  intros Hf Hcond. destruct postponed_head as (Hid & Hcr & Hrest & Hvf & Hne).
  apply (winv_tokens w _ _ id); try done; [unfold w_queue; cbn; by rewrite Hph| |..|by destruct Hw].
  - apply (wheel_ok_frame (w_mgr w)); [done..|]. by apply postponed_wheel.
  - intros i Hi. split; [done|]. by apply Hne.
  - intros _. apply (view_postponed_drop (view_of w id) e); [by apply Hw|done|]. by rewrite (view_fe_eq w id f Hf).
Qed.

Lemma postponed_dispatch ex :
  winv (mk_world (set_failed (set_tasks (w_mgr w) (tasks (w_mgr w) ++ [mk_task ex id e])) rest) phase_postponed (w_clients w)).
Proof using Hw Hph Hfl.
  destruct postponed_head as (Hid & Hcr & Hrest & Hvf & Hne).
  apply (winv_tokens w _ _ id); try done; [unfold w_queue; cbn; by rewrite Hph| |..].
  - apply (wheel_ok_frame (w_mgr w)); [done..|]. by apply postponed_wheel.
  - intros i Hi. split; [|by apply Hne]. cbn [tasks set_failed set_tasks]. rewrite epochs_app, epochs_cons. cbn.
    by rewrite (proj2 (Z.eqb_neq id i)), app_nil_r.
  - intros _. cbn [tasks set_failed set_tasks failed_to_trigger_timers]. rewrite epochs_app, epochs_cons. cbn [t_id t_epoch].
    rewrite Z.eqb_refl. apply (view_postponed_dispatch (view_of w id) e); [by apply Hw|done].
  - cbn. apply Forall_app. split; [apply Hw|]. by repeat constructor.
Qed.
End postponed.

Lemma tick_postponed_ok w a :
  winv w -> w_phase w = phase_postponed ->
  exists m' p, tick_step a (w_phase w) (w_mgr w) = ok (m', p) /\ winv (mk_world m' p (w_clients w)).
Proof.
  intros Hw Hph. rewrite Hph. cbn [tick_step]. unfold postponed_turn.
  destruct (failed_to_trigger_timers (w_mgr w)) as [|[id e] rest] eqn:Hfl.
  { eexists _, _. split; [done|]. apply postponed_stay; auto. }
  destruct (postponed_head w Hw id e rest Hfl) as (Hid & Hcr & Hrest & Hvf & Hne).
  destruct (created_exists w id Hw Hid Hcr) as [f Hf]. pose proof (wi_views w Hw id Hid) as Hv.
  rewrite get_timer_ok, bind_ok by (by apply created_has). unfold frontend_of, get_frontend.
  rewrite (created_frontend _ _ (wi_wheel w Hw) id Hid Hcr), Hf, bind_ok. pose proof (view_fe_eq w id f Hf) as Hfe.
  destruct (_ && _) eqn:Hcond.
  2: { rewrite bind_ok. eexists _, _. split; [done|]. apply (postponed_drop w Hw Hph id e rest Hfl f Hf).
       apply andb_false_iff in Hcond as [?%Z.eqb_neq|?%Z.eqb_neq]; tauto. }
  apply andb_true_iff in Hcond as [He%Z.eqb_eq He'%Z.eqb_eq].
  assert (Hrun : fe_state (v_fe (view_of w id)) = timer_running).
  { apply (vo_current _ Hv). rewrite Hfe, <- He', He. unfold tokens. rewrite Hvf, !elem_of_app, elem_of_cons. tauto. }
  destruct (vo_running _ Hv Hrun) as [ex Hex]. rewrite Hfe in Hex.
  unfold trigger_timeout_handling, frontend_of, get_frontend.
  rewrite (created_frontend _ _ (wi_wheel w Hw) id Hid Hcr), Hf, bind_ok, Hex, He.
  destruct a; (eexists _, _; split; [done|]).
  - by apply (postponed_dispatch w Hw Hph id e rest Hfl).
  - apply postponed_stay; auto.
Qed.

(** *** The other phases *)
Lemma tick_idle_ok w a :
  winv w -> w_phase w = phase_idle ->
  exists m' p, tick_step a (w_phase w) (w_mgr w) = ok (m', p) /\ winv (mk_world m' p (w_clients w)).
Proof.
  intros Hw Hph. rewrite Hph. eexists _, _. split; [done|].
  apply (winv_tokens w _ _ (-1)); try done; [| |apply Hw..].
  - unfold w_queue. cbn. by rewrite Hph, app_nil_r.
  - apply (wheel_ok_frame (w_mgr w)); [done..|]. apply (wheel_phase _ (w_phase w)); [apply Hw|by rewrite Hph|done].
Qed.

Lemma tick_commands_done_ok w a :
  winv w -> w_phase w = phase_commands [] ->
  exists m' p, tick_step a (w_phase w) (w_mgr w) = ok (m', p) /\ winv (mk_world m' p (w_clients w)).
Proof.
  intros Hw Hph. rewrite Hph. eexists _, _. split; [done|].
  apply (winv_tokens w _ _ (-1)); try done; [| |apply Hw..].
  - unfold w_queue. cbn. by rewrite Hph.
  - apply (wheel_phase _ (w_phase w)); [apply Hw|by rewrite Hph|done].
Qed.

Lemma tick_advance_ok w a :
  winv w -> w_phase w = phase_advance ->
  exists m' p, tick_step a (w_phase w) (w_mgr w) = ok (m', p) /\ winv (mk_world m' p (w_clients w)).
Proof.
  intros Hw Hph. rewrite Hph. eexists _, _. split; [done|].
  apply (winv_tokens w _ _ (-1)); try done; [| |apply Hw..].
  - unfold w_queue. cbn. by rewrite Hph.
  - apply (wheel_advance (w_mgr w) (w_phase w)); [apply Hw|by rewrite Hph].
Qed.

Lemma tick_expired_ok w a :
  winv w -> w_phase w = phase_expire [] ->
  exists m' p, tick_step a (w_phase w) (w_mgr w) = ok (m', p) /\ winv (mk_world m' p (w_clients w)).
Proof.
  intros Hw Hph. rewrite Hph. eexists _, _. split; [done|].
  apply (winv_tokens w _ _ (-1)); try done; [| |apply Hw..].
  - unfold w_queue. cbn. by rewrite Hph.
  - apply (wheel_phase _ (w_phase w)); [apply Hw| |done]. rewrite Hph. intros i todo [= <-]. apply not_elem_of_nil.
Qed.

Section expire.
Context (w : world) (id : Z) (todo : list Z) (Hw : winv w) (Hph : w_phase w = phase_expire (id :: todo)).

Local Abbreviation h := (handle_of (w_mgr w) id).
Local Abbreviation b' := (mk_backend (be_cmd_id (th_backend h)) timer_expired (be_timeout (th_backend h))).
Local Abbreviation m1 := (stopped_manager (w_mgr w) id b').

Lemma expire_head : 0 <= id /\ be_running h /\ created (w_mgr w) id = true /\ NoDup (id :: todo).
Proof using Hw Hph.
  destruct (wh_todo _ _ (wi_wheel w Hw) _ Hph) as [Hnd Hall]. specialize (Hall id ltac:(by left)).
  apply (wh_wheel _ _ (wi_wheel w Hw)) in Hall as (Hid & Hr & _). split; [done|]. split; [done|]. split; [|done].
  destruct (created (w_mgr w) id) eqn:E; [done|]. by rewrite (uncreated_default _ _ id (wi_wheel w Hw) Hid E) in Hr.
Qed.

Lemma expire_queue m' p : pending_cmds m' = pending_cmds (w_mgr w) -> (forall cmds, p <> phase_commands cmds) ->
  w_queue (mk_world m' p (w_clients w)) = w_queue w.
Proof using Hph. intros E Hp. unfold w_queue. cbn. rewrite E, Hph. destruct p; try done. by destruct (Hp cmds_to_process). Qed.

Lemma expire_skip :
  be_timeout (th_backend h) <> cur_time (w_mgr w) -> winv (mk_world (w_mgr w) (phase_expire todo) (w_clients w)).
Proof using Hw Hph.
  intros Hne. apply (winv_tokens w _ _ (-1)); try done; [by apply expire_queue| |apply Hw..].
  apply (wheel_skip _ id); [rewrite <- Hph; apply Hw|done].
Qed.

Lemma expire_wheel : wheel_ok m1 (phase_expire todo).
Proof using Hw Hph.
  destruct expire_head as (Hid & Hr & Hcr & Hnd). apply NoDup_cons in Hnd as [Hnin Hnd].
  apply (wheel_stop _ (w_phase w) (wi_wheel w Hw) id (created_has _ _ Hid Hcr) (wi_cap w Hw)); try done.
  - by apply (created_frontend _ _ (wi_wheel w Hw)).
  - rewrite Hph. intros i todo' Hne [= <-] Hin. eexists. split; [done|]. by apply elem_of_cons in Hin as [?|?].
  - intros todo' [= <-]. split; [done|]. intros i Hi. split; [by intros ->|]. rewrite Hph. eexists. split; [done|]. by right.
Qed.

(** The timer expires in the back-end; its token goes to [ts] or [fl], or is dropped. *)
Lemma expire_stop m' ts fl :
  tasks m' = tasks (w_mgr w) ++ ts -> failed_to_trigger_timers m' = failed_to_trigger_timers (w_mgr w) ++ fl ->
  m' = set_failed (set_tasks m1 (tasks m')) (failed_to_trigger_timers m') ->
  Forall (fun t => t_id t = id) ts -> Forall (fun p => p.1 = id) fl ->
  (if be_cmd_id (th_backend h) =? fe_cmd_id (v_fe (view_of w id)) then
     (t_epoch <$> ts = [be_cmd_id (th_backend h)] /\ fl = []) \/ (ts = [] /\ fl.*2 = [be_cmd_id (th_backend h)])
   else ts = [] /\ fl = []) ->
  winv (mk_world m' (phase_expire todo) (w_clients w)).
Proof using Hw Hph.
  intros Hts Hfl Hm' Hids Hidf Hcase. destruct expire_head as (Hid & Hr & Hcr & Hnd).
  pose proof (stopped_step (w_mgr w) (w_phase w) (wi_wheel w Hw) id Hid Hcr b') as Hs. pose proof (wi_views w Hw id Hid) as Hv.
  assert (Hat : forall i, epochs t_id t_epoch i ts = if decide (i = id) then t_epoch <$> ts else []).
  { intros i. clear -Hids. induction Hids as [|t ts Ht _ IH]; [by case_decide|]. rewrite epochs_cons, IH, Ht.
    zcases; case_decide; subst; done. }
  assert (Haf : forall i, epochs fst snd i fl = if decide (i = id) then fl.*2 else []).
  { intros i. clear -Hidf. induction Hidf as [|t ts Ht _ IH]; [by case_decide|]. rewrite epochs_cons, IH, Ht.
    zcases; case_decide; subst; done. }
  assert (Hq : forall m, pending_cmds m = pending_cmds (w_mgr w) -> w_queue (mk_world m (phase_expire todo) (w_clients w)) = w_queue w)
    by (intros; by apply expire_queue).
  assert (Hview : forall i, 0 <= i -> view_of (mk_world m' (phase_expire todo) (w_clients w)) i =
    view_backend (view_of w i) (if decide (i = id) then b' else v_be (view_of w i)) (v_cmds (view_of w i))
      (v_tasks (view_of w i) ++ if decide (i = id) then t_epoch <$> ts else [])
      (v_failed (view_of w i) ++ if decide (i = id) then fl.*2 else [])).
  { intros i Hi. rewrite <- Hat, <- Haf.
    pose proof (backend_step_view_of w m1 id b' (phase_expire todo) i Hs Hcr Hi) as E. rewrite (Hq m1 (bs_pending _ _ _ _ Hs)) in E.
    specialize (E eq_refl). unfold view_backend. cbn. rewrite <- !epochs_app, <- Hts, <- Hfl.
    rewrite Hm'. unfold view_of in *. rewrite Hq by apply Hs. rewrite (Hq m1 (bs_pending _ _ _ _ Hs)) in E. 
    pose proof (f_equal v_created E) as E1. pose proof (f_equal v_known E) as E2. pose proof (f_equal v_be E) as E3. cbn in *.
    f_equal; [exact E1|exact E2|exact E3]. }
  clear Hat Haf. pose proof expire_wheel as Hwh. pose proof Hw as [].
  constructor; rewrite ?(Hq m') by (rewrite Hm'; apply Hs); cbn [w_mgr w_phase w_clients]; try done.
  - intros i Hi. rewrite Hview by done. case_decide; [subst i|rewrite !app_nil_r; exact (wi_views i Hi)].
    apply (view_expire_ok _ _ _ _ Hv Hr); [done|done|]. cbn [be_cmd_id].
    destruct (_ =? _); [destruct Hcase as [[-> ->]|[-> ->]]; [left|right]|destruct Hcase as [-> ->]]; cbn; by rewrite ?app_nil_r.
  - intros i. rewrite Hm'. apply wi_alloc.
  - by rewrite Hm'.
  - rewrite Hm'. cbn. by rewrite length_insert.
  - eapply queue_ok_ext; [|exact wi_queue]. intros i Hi. rewrite Hm'. symmetry. by apply (backend_step_created (w_mgr w) m1 id b').
  - rewrite Hfl. apply Forall_app. split.
    + eapply Forall_impl; [exact wi_failed|]. intros [i e] [Hi Hci]. split; [done|].
      rewrite Hm'. rewrite <- Hci. by apply (backend_step_created (w_mgr w) m1 id b').
    + eapply Forall_impl; [exact Hidf|]. intros [i e] Hx. cbn in *. subst i. split; [done|].
      rewrite Hm'. rewrite <- Hcr. by apply (backend_step_created (w_mgr w) m1 id b').
  - rewrite Hts. apply Forall_app. split; [done|]. eapply Forall_impl; [exact Hids|]. intros t Ht. cbn in Ht. lia.
  - by rewrite Hm'.
  - rewrite Hm'. by apply (wheel_ok_frame m1).
Qed.
End expire.

Lemma tick_expire_ok w a id todo :
  winv w -> w_phase w = phase_expire (id :: todo) ->
  exists m' p, tick_step a (w_phase w) (w_mgr w) = ok (m', p) /\ winv (mk_world m' p (w_clients w)).
Proof.
  intros Hw Hph. rewrite Hph. cbn [tick_step]. destruct (expire_head w id todo Hw Hph) as (Hid & Hr & Hcr & Hnd).
  pose proof (created_has _ _ Hid Hcr) as Hhas. pose proof (wi_wheel w Hw) as Hwh. unfold expire_turn.
  rewrite (get_timer_ok _ _ Hhas), bind_ok, (created_frontend _ _ Hwh id Hid Hcr), (get_timer_ok _ _ Hhas), bind_ok.
  destruct (Z.eqb_spec (cur_time (w_mgr w)) (be_timeout (th_backend (handle_of (w_mgr w) id)))) as [Ht|Ht]; cbn [negb].
  2: { eexists _, _. split; [done|]. apply (expire_skip w id todo Hw Hph). congruence. }
  destruct (created_exists w id Hw Hid Hcr) as [f Hf]. pose proof (wi_views w Hw id Hid) as Hv.
  pose proof (view_fe_eq w id f Hf) as Hfe.
  destruct (try_stop_expiry (w_mgr w) (w_phase w) Hwh id Hid (wi_cap w Hw) Hcr a f Hr Hf) as (m' & Hstop & Hout).
  { intros He. rewrite <- Hfe. apply (vo_running _ Hv), (vo_current _ Hv). rewrite Hfe, <- He. unfold tokens. cbn.
    rewrite (be_token_running _ Hr), !elem_of_app, list_elem_of_singleton. tauto. }
  unfold stop_timer_backend. rewrite (get_timer_ok _ _ Hhas), bind_ok. unfold be_running in Hr. rewrite Hr.
  rewrite srsran_assert_ok, bind_ok, Hstop, bind_ok by done. eexists _, _. split; [done|].
  unfold expiry_outcome in Hout. rewrite <- Hfe in Hout. destruct (_ =? _) eqn:Hcur.
  - destruct Hout as (ex & _ & ->). destruct a.
    + apply (expire_stop w id todo Hw Hph _ [mk_task ex id (be_cmd_id (th_backend (handle_of (w_mgr w) id)))] []); try done.
      * by rewrite app_nil_r.
      * by repeat constructor.
      * rewrite Hcur. by left.
    + apply (expire_stop w id todo Hw Hph _ [] [(id, be_cmd_id (th_backend (handle_of (w_mgr w) id)))]); try done.
      * by rewrite app_nil_r.
      * by repeat constructor.
      * rewrite Hcur. by right.
  - subst m'. apply (expire_stop w id todo Hw Hph _ [] []); try done; [by rewrite app_nil_r..|by rewrite Hcur].
Qed.

Lemma tick_step_ok w a :
  winv w -> exists w', step (l_tick a) w = ok w' /\ winv w'.
Proof.
  intros Hw. assert (H : exists m' p, tick_step a (w_phase w) (w_mgr w) = ok (m', p) /\ winv (mk_world m' p (w_clients w))).
  { destruct (w_phase w) as [|[|[id|c] cmds]| | |[|id todo]] eqn:Hph; rewrite <- Hph.
    - by apply tick_idle_ok.
    - by apply tick_commands_done_ok.
    - destruct (tick_create_ok w id cmds a Hw Hph) as (m' & ? & ?). eauto.
    - destruct (tick_cmd_ok w c cmds Hw Hph a) as (m' & ? & ?). eauto.
    - by apply tick_postponed_ok.
    - by apply tick_advance_ok.
    - by apply tick_expired_ok.
    - by apply (tick_expire_ok w a id todo). }
  destruct H as (m' & p & Ht & Hw'). cbn [step]. rewrite Ht, bind_ok. eauto.
Qed.

(** Every enabled step succeeds and keeps the invariant. *)
Lemma step_ok w l : winv w -> enabled l w = true -> exists w', step l w = ok w' /\ winv w'.
Proof.
  intros Hw He. destruct l as [ex [id|]|id op|id|a|k].
  - apply step_reuse_ok; [done|]. by apply bool_decide_eq_true in He.
  - apply step_new_ok; [done|]. by apply Z.ltb_lt in He.
  - by apply step_op_ok.
  - by apply step_push_ok.
  - by apply tick_step_ok.
  - by apply step_exec_ok.
Qed.
