(* ===== verification/TimersProps.v ===== *)
(** * Properties of the timers: safety, timing, genuineness of callbacks, and the abstract timer of the entities *)
From stdpp Require Import sorting.
From S2P Require Import Prelude Timers TimersInv TimersWheel TimersSteps.

(** ** The initial world *)
Section init.
Context (n : nat) (Hn : Z.of_nat n < 2 ^ 31).

Local Abbreviation ids := (Z.of_nat <$> seq 0 n).

Lemma elem_of_ids i : i ∈ ids <-> 0 <= i < Z.of_nat n.
Proof.
  rewrite list_elem_of_fmap. split.
  - intros (k & -> & Hk%elem_of_seq). lia.
  - intros Hi. exists (Z.to_nat i). split; [lia|]. apply elem_of_seq. lia.
Qed.

Lemma init_handle_lookup k :
  timers (timer_manager_ctor n) !! k = if decide (k < n)%nat then Some (mk_handle (Some (Z.of_nat k)) (mk_backend 0 timer_stopped 0)) else None.
Proof.
  simpl. rewrite !list_lookup_fmap. case_decide.
  - by rewrite lookup_seq_lt.
  - by rewrite lookup_seq_ge by lia.
Qed.

Lemma init_handle_of i : 0 <= i ->
  handle_of (timer_manager_ctor n) i = if decide (i < Z.of_nat n) then mk_handle (Some i) (mk_backend 0 timer_stopped 0) else default_handle.
Proof.
  intros Hi. unfold handle_of. rewrite init_handle_lookup. repeat case_decide; try lia; [|done].
  simpl. by rewrite Z2Nat.id.
Qed.

Lemma init_frontend i :
  frontends (timer_manager_ctor n) !! i = if decide (0 <= i < Z.of_nat n) then Some default_frontend else None.
Proof.
  simpl. case_decide as Hi.
  - apply elem_of_list_to_map.
    + rewrite <- list_fmap_compose. simpl. rewrite list_fmap_id. apply (NoDup_fmap_2 Z.of_nat), NoDup_seq.
    + apply list_elem_of_fmap. exists i. split; [done|]. by apply elem_of_ids.
  - apply not_elem_of_list_to_map. rewrite <- list_fmap_compose. simpl. rewrite list_fmap_id. by rewrite elem_of_ids.
Qed.

Lemma init_view i : 0 <= i ->
  view_of (init_world n) i =
  if decide (i < Z.of_nat n)
  then mk_view true true true true None default_frontend (mk_backend 0 timer_stopped 0) [] [] [] []
  else mk_view false false false false None default_frontend (mk_backend 0 timer_stopped 0) [] [] [] [].
Proof.
  intros Hi. unfold view_of, known_after, created. cbn [w_mgr w_clients init_world]. rewrite init_frontend, init_handle_of by done.
  assert (Hp : i ∈ timer_pool (timer_manager_ctor n) <-> 0 <= i < Z.of_nat n) by apply elem_of_ids.
  rewrite (bool_decide_ext _ _ Hp). change (w_clients (init_world n)) with (∅ : gmap Z client). rewrite lookup_empty.
  destruct (decide (i < Z.of_nat n)).
  - by rewrite decide_True, (bool_decide_eq_true_2 (0 <= i < Z.of_nat n)) by done.
  - by rewrite decide_False, (bool_decide_eq_false_2 (0 <= i < Z.of_nat n)) by lia.
Qed.

Lemma init_inv : winv (init_world n).
Proof using Hn.
  assert (Hw : wheel_ok (timer_manager_ctor n) phase_idle).
  { constructor; try done.
    - intros k h. rewrite init_handle_lookup. case_decide; [|done]. intros [= <-]. by right.
    - intros k i. split; [by intros ?%elem_of_nil|]. intros (Hi & Hr & _). rewrite init_handle_of in Hr by done.
      by case_decide.
    - intros k. apply NoDup_nil_2.
    - simpl. induction (seq 0 n) as [|x l IH]; [done|]. by rewrite fmap_cons, fmap_cons, filter_cons_False.
    - intros i Hi. rewrite init_handle_of by done. by case_decide. }
  constructor; try done; cbn [w_mgr w_clients w_phase init_world].
  - intros i Hi. rewrite init_view by done. case_decide; constructor; cbn; try done; try (by repeat constructor).
    + split; [by intros ?%elem_of_nil|done].
    + by intros ? ?%elem_of_nil.
    + split; [by intros ?%elem_of_nil|done].
    + by intros ? ?%elem_of_nil.
  - intros i. rewrite init_frontend. cbn. case_decide; [split; [done|by eexists]|]. split; [by intros [? ?]|done].
  - cbn. unfold timer_id_invalid. lia.
  - cbn. rewrite !length_fmap, length_seq. lia.
  - split; [cbn; apply (NoDup_fmap_2 Z.of_nat), NoDup_seq|]. apply Forall_forall. intros i Hi%elem_of_ids. lia.
Qed.
End init.

Lemma wsteps_inv k w w' : wsteps k w w' -> winv w -> winv w'.
Proof.
  induction 1 as [|k w1 l w2 w3 _ IH He Hs]; [done|]. intros Hw. destruct (step_ok w2 l (IH Hw) He) as (w' & Hs' & Hw').
  rewrite Hs in Hs'. by injection Hs' as <-.
Qed.

Lemma reachable_inv w : reachable w -> winv w.
Proof. intros (n & k & Hn & Hs). by apply (wsteps_inv k (init_world n)), init_inv. Qed.

(** ** What a step changes *)
Lemma step_other l w w' :
  (forall a, l <> l_tick a) -> step l w = ok w' ->
  timers (w_mgr w') = timers (w_mgr w) /\ cur_time (w_mgr w') = cur_time (w_mgr w) /\ w_phase w' = w_phase w /\
  failed_to_trigger_timers (w_mgr w') = failed_to_trigger_timers (w_mgr w).
Proof.
  intros Hl. destruct l as [ex [id|]|id op|id|a|k]; cbn [step].
  - unfold create_frontend_timer. intros [[m i] [Hc Hw]]%bind_ok_inv. injection Hw as <-.
    apply bind_ok_inv in Hc as (f & _ & Hc). apply bind_ok_inv in Hc as ([] & _ & Hc). by injection Hc as <- <-.
  - intros Hw. by injection Hw as <-.
  - intros (f & _ & Hw)%bind_ok_inv. apply bind_ok_inv in Hw as ([f' oc] & _ & Hw). by injection Hw as <-.
  - destruct (w_clients w !! id) as [[| |c]|]; intros Hw; by injection Hw as <-.
  - by destruct (Hl a).
  - destruct (tasks (w_mgr w) !! k) as [t|]; [|intros Hw; by injection Hw as <-].
    intros (m & Hm & Hw)%bind_ok_inv. injection Hw as <-. unfold run_expiry_task in Hm.
    apply bind_ok_inv in Hm as (f & _ & Hm). destruct (_ =? _); [|by injection Hm as <-].
    apply bind_ok_inv in Hm as ([] & _ & Hm). injection Hm as <-. by destruct (fe_callback f).
Qed.

(** The back-end of a timer changes with a later command, or expires when its timeout is reached. *)
Definition backend_change (m m' : timer_manager) (id : Z) : Prop :=
  let b := th_backend (handle_of m id) in let b' := th_backend (handle_of m' id) in
  b' = b \/ be_cmd_id b < be_cmd_id b' \/
  (be_state b = timer_running /\ b' = mk_backend (be_cmd_id b) timer_expired (be_timeout b) /\ be_timeout b = cur_time m).

Record tick_effect (w : world) (m' : timer_manager) (p' : tick_phase) : Prop := {
  te_backend id : 0 <= id -> backend_change (w_mgr w) m' id;
  te_time : cur_time m' = match w_phase w with phase_advance => u32 (cur_time (w_mgr w) + 1) | _ => cur_time (w_mgr w) end;
  te_frontends id cl : w_clients w !! id = Some cl -> frontends m' !! id = frontends (w_mgr w) !! id;
  te_callbacks : callbacks m' = callbacks (w_mgr w);
  te_pending : w_phase w <> phase_idle -> pending_cmds m' = pending_cmds (w_mgr w)
}.

Lemma command_tick_effect w c cmds m' :
  winv w -> w_phase w = phase_commands (tev_cmd c :: cmds) -> process_command (tev_cmd c) (w_mgr w) = ok m' ->
  tick_effect w m' (phase_commands cmds) /\
  exists b, be_cmd_id b = c_cmd_id c /\ (is_start c -> be_state b = timer_running /\
    be_timeout b = u32 (cur_time (w_mgr w) + Z.max (c_duration c) 1)) /\ th_backend (handle_of m' (c_id c)) = b.
Proof.
  intros Hw Hph Hp. destruct (command_facts w c cmds Hw Hph) as (Hpos & Hcr & Hqok & Hc & Hd).
  pose proof (wi_views w Hw _ Hpos) as Hv. destruct (view_first _ _ _ Hv Hc) as (Hlt & _).
  destruct (created_exists w _ Hw Hpos Hcr) as [f Hf].
  pose proof (wheel_phase _ _ (phase_commands cmds) (wi_wheel w Hw)) as Hwh. rewrite Hph in Hwh.
  specialize (Hwh ltac:(done) ltac:(done)).
  destruct (process_cmd_ok (w_mgr w) (phase_commands cmds) c f) as (m2 & b & Hp2 & _ & He & Hst & Hto & Hs); try done; [by apply wi_cap|].
  rewrite Hp in Hp2. injection Hp2 as <-.
  assert (H : exists m1, backend_step (w_mgr w) m1 (c_id c) b /\ timers m' = timers m1 /\ cur_time m' = cur_time m1 /\
            callbacks m' = callbacks m1 /\ pending_cmds m' = pending_cmds m1 /\ (forall id cl, w_clients w !! id = Some cl -> frontends m' !! id = frontends (w_mgr w) !! id)).
  { destruct (c_action c) eqn:Ha.
    - exists m'. split_and!; try done. intros. by rewrite (bs_frontends _ _ _ _ Hs).
    - exists m'. split_and!; try done. intros. by rewrite (bs_frontends _ _ _ _ Hs).
    - destruct Hs as (_ & m1 & Hs & ->). exists m1. split_and!; try done. intros i cl Hcl. cbn.
      rewrite (bs_frontends _ _ _ _ Hs). destruct (view_destroy_last _ _ _ Hv Hc Ha) as [_ Hn]. cbn in Hn.
      rewrite lookup_insert_ne; [done|congruence]. }
  destruct H as (m1 & Hs1 & Ht & Hct & Hcb & Hpd & Hfe).
  assert (Hh : forall i, 0 <= i -> handle_of m' i = if decide (i = c_id c) then mk_handle (Some (c_id c)) b else handle_of (w_mgr w) i).
  { intros i Hi. unfold handle_of at 1. rewrite Ht. by apply (bs_handle _ _ _ _ Hs1). }
  split; [constructor|].
  - intros i Hi. unfold backend_change. rewrite Hh by done. case_decide; [subst|by left]. right. left. cbn. by rewrite He.
  - by rewrite Hct, (bs_time _ _ _ _ Hs1), Hph.
  - done.
  - by rewrite Hcb, (bs_callbacks _ _ _ _ Hs1).
  - intros _. by rewrite Hpd, (bs_pending _ _ _ _ Hs1).
  - exists b. rewrite Hh, decide_True by done. split; [done|]. split; [|done]. intros Hstart. split; [by apply Hst|auto].
Qed.

Lemma expire_tick_effect w a id todo m' :
  winv w -> w_phase w = phase_expire (id :: todo) -> expire_turn a id (w_mgr w) = ok m' ->
  tick_effect w m' (phase_expire todo) /\ (a = true -> failed_to_trigger_timers m' = failed_to_trigger_timers (w_mgr w)).
Proof.
  intros Hw Hph. destruct (expire_head w id todo Hw Hph) as (Hid & Hr & Hcr & Hnd).
  pose proof (created_has _ _ Hid Hcr) as Hhas. pose proof (wi_wheel w Hw) as Hwh. unfold expire_turn.
  rewrite (get_timer_ok _ _ Hhas), bind_ok, (created_frontend _ _ Hwh id Hid Hcr), (get_timer_ok _ _ Hhas), bind_ok.
  destruct (Z.eqb_spec (cur_time (w_mgr w)) (be_timeout (th_backend (handle_of (w_mgr w) id)))) as [Ht|Ht]; cbn [negb].
  2: { intros [= <-]. split; [|done]. constructor; try done; [by left|by rewrite Hph]. }
  unfold stop_timer_backend. rewrite (get_timer_ok _ _ Hhas), bind_ok. unfold be_running in Hr. rewrite Hr.
  rewrite srsran_assert_ok, bind_ok by done. intros ([m2 r] & Hstop & Hm)%bind_ok_inv. injection Hm as <-.
  destruct (created_exists w id Hw Hid Hcr) as [f Hf]. pose proof (wi_views w Hw id Hid) as Hv.
  destruct (try_stop_expiry (w_mgr w) (w_phase w) Hwh id Hid (wi_cap w Hw) Hcr a f Hr Hf) as (m3 & Hstop' & Hout).
  { intros He. rewrite <- (view_fe_eq w id f Hf). apply (vo_running _ Hv), (vo_current _ Hv).
    rewrite (view_fe_eq w id f Hf), <- He. unfold tokens. cbn.
    rewrite (be_token_running _ Hr), !elem_of_app, list_elem_of_singleton. tauto. }
  rewrite Hstop in Hstop'. injection Hstop' as -> ->.
  pose proof (stopped_step (w_mgr w) (w_phase w) Hwh id Hid Hcr
    (mk_backend (be_cmd_id (th_backend (handle_of (w_mgr w) id))) timer_expired (be_timeout (th_backend (handle_of (w_mgr w) id))))) as Hs.
  set (m1 := stopped_manager _ _ _) in *.
  assert (H : timers m3 = timers m1 /\ cur_time m3 = cur_time m1 /\ callbacks m3 = callbacks m1 /\ frontends m3 = frontends m1 /\ pending_cmds m3 = pending_cmds m1 /\
              (a = true -> failed_to_trigger_timers m3 = failed_to_trigger_timers m1)).
  { unfold expiry_outcome in Hout. destruct (_ =? _); [destruct Hout as (ex & _ & ->); by destruct a|by subst]. }
  destruct H as (E1 & E2 & E3 & E4 & E6 & E5). split; [constructor|].
  - intros i Hi. unfold backend_change. assert (Hh : handle_of m3 i = handle_of m1 i) by (unfold handle_of; by rewrite E1).
    rewrite Hh, (bs_handle _ _ _ _ Hs) by done. case_decide; [subst i|by left]. right. right. done.
  - by rewrite E2, (bs_time _ _ _ _ Hs), Hph.
  - intros i cl _. by rewrite E4, (bs_frontends _ _ _ _ Hs).
  - by rewrite E3, (bs_callbacks _ _ _ _ Hs).
  - intros _. by rewrite E6, (bs_pending _ _ _ _ Hs).
  - intros Ha. by rewrite (E5 Ha), (bs_failed _ _ _ _ Hs).
Qed.

Lemma postponed_turn_effect a m m' go :
  postponed_turn a m = ok (m', go) ->
  timers m' = timers m /\ cur_time m' = cur_time m /\ frontends m' = frontends m /\ callbacks m' = callbacks m /\
  pending_cmds m' = pending_cmds m /\ (a = true -> go = false -> failed_to_trigger_timers m' = []).
Proof.
  unfold postponed_turn. destruct (failed_to_trigger_timers m) as [|[id e] rest] eqn:Hfl; [by intros [= <- <-]|].
  intros (h & _ & H)%bind_ok_inv. apply bind_ok_inv in H as (f & _ & H). apply bind_ok_inv in H as ([m1 failed] & H1 & H).
  assert (E : timers m1 = timers m /\ cur_time m1 = cur_time m /\ frontends m1 = frontends m /\ callbacks m1 = callbacks m /\
              pending_cmds m1 = pending_cmds m /\ (a = true -> failed = false)).
  { destruct (_ && _); [|by injection H1 as <- <-]. apply bind_ok_inv in H1 as ([m2 s] & H2 & H1). injection H1 as <- <-.
    unfold trigger_timeout_handling in H2. apply bind_ok_inv in H2 as (f' & _ & H2).
    destruct (fe_exec f'), (th_frontend h); try done. destruct a; by injection H2 as <- <-. }
  destruct E as (E1 & E2 & E3 & E4 & E6 & E5). destruct failed; injection H as <- <-; repeat split; try done. intros Ha. by specialize (E5 Ha).
Qed.

Lemma tick_step_effect w a m' p' : winv w -> tick_step a (w_phase w) (w_mgr w) = ok (m', p') -> tick_effect w m' p'.
Proof.
  intros Hw. destruct (w_phase w) as [|[|[id|c] cmds]| | |[|id todo]] eqn:Hph; cbn [tick_step].
  - intros [= <- <-]. constructor; try done; [by left|by rewrite Hph].
  - intros [= <- <-]. constructor; try done; [by left|by rewrite Hph].
  - intros (m & Hm & H)%bind_ok_inv. injection H as <- <-.
    pose proof (wi_queue w Hw) as Hq. unfold w_queue in Hq. rewrite Hph in Hq. destruct Hq as (Hid & Hcr & _).
    destruct (create_handle_ok _ _ id (wi_wheel w Hw) Hid Hcr) as [He _]. cbn [process_command] in Hm. rewrite He in Hm. injection Hm as <-.
    constructor; try done; [|by rewrite Hph]. intros i Hi. left. rewrite with_handle_lookup by done. case_decide; [subst|done].
    by rewrite (uncreated_default _ _ _ (wi_wheel w Hw) Hid Hcr).
  - intros (m & Hm & H)%bind_ok_inv. injection H as <- <-. by apply (command_tick_effect w c cmds).
  - intros ([m go] & Hm & H)%bind_ok_inv. injection H as <- <-. apply postponed_turn_effect in Hm as (E1 & E2 & E3 & E4 & E5 & _).
    constructor; try done; [|by rewrite Hph|by rewrite E3]. left. unfold handle_of. by rewrite E1.
  - intros [= <- <-]. constructor; try done; [by left|by rewrite Hph].
  - intros [= <- <-]. constructor; try done; [by left|by rewrite Hph].
  - intros (m & Hm & H)%bind_ok_inv. injection H as <- <-. by apply (expire_tick_effect w a id todo).
Qed.

(** ** Safety *)

(** C5: in every interleaving of clients, ticks and executors, no operation of the timers fails: no assertion, no access
    to a timer that does not exist, no executor that is null, no corrupted list of the wheel. *)
Theorem timers_never_fail w l : reachable w -> enabled l w = true -> exists w', step l w = ok w' /\ reachable w'.
Proof.
  intros Hr He. destruct (step_ok w l (reachable_inv w Hr) He) as (w' & Hs & _). exists w'. split; [done|].
  destruct Hr as (n & k & Hn & Hk). exists n, (k + advances l w)%nat. split; [done|]. by apply (wsteps_step _ _ l w).
Qed.

(** The timer wheel: each bucket holds, once, exactly the running timers whose timeout has its index, and
    [nof_running_timers] counts the running timers. *)
Theorem timer_wheel_exact w k :
  reachable w ->
  NoDup (wheel_bucket (time_wheel (w_mgr w)) k) /\
  (forall id, id ∈ wheel_bucket (time_wheel (w_mgr w)) k <->
     0 <= id /\ exists h, timers (w_mgr w) !! Z.to_nat id = Some h /\ be_running h /\ wheel_index (be_timeout (th_backend h)) = k) /\
  nof_running_timers (w_mgr w) = zlen (filter be_running (timers (w_mgr w))).
Proof.
  intros Hr. pose proof (reachable_inv w Hr) as Hw. pose proof (wi_wheel w Hw) as []. split; [apply wh_nodup|]. split.
  - intros id. rewrite wh_wheel. split; intros [Hid H]; (split; [done|]).
    + destruct H as [Hrun Hk]. pose proof (running_handle _ _ Hid Hrun) as Hh. exists (handle_of (w_mgr w) id).
      split; [|done]. unfold handle_of. destruct (lookup_lt_is_Some_2 (timers (w_mgr w)) (Z.to_nat id)) as [x Hx];
        [unfold has_handle in *; lia|]. by rewrite Hx.
    + destruct H as (h & Hh & Hrun). unfold handle_of. by rewrite Hh.
  - unfold nof_running_timers. rewrite u32_small; [done|].
    by apply (count_range _ _ (wi_wheel w Hw) (wi_cap w Hw)).
Qed.

(** ** Timing *)
Section run.
Context (w0 : world) (id : Z) (Hw0 : winv w0) (Hid : 0 <= id) (Hrun : be_running (handle_of (w_mgr w0) id)).
Context (Hph0 : forall todo, w_phase w0 <> phase_expire todo).

Local Abbreviation b0 := (th_backend (handle_of (w_mgr w0) id)).

(** The ticks left. *)
Definition ticks_left (m : timer_manager) (b : timer_backend_context) : Z := u32 (be_timeout b - cur_time m).

Record run_state (n : nat) (w : world) : Prop := {
  rs_time : cur_time (w_mgr w) = u32 (cur_time (w_mgr w0) + Z.of_nat n);
  rs_order : be_cmd_id b0 <= be_cmd_id (th_backend (handle_of (w_mgr w) id));
  rs_state : be_cmd_id (th_backend (handle_of (w_mgr w) id)) = be_cmd_id b0 ->
    (th_backend (handle_of (w_mgr w) id) = b0 /\ Z.of_nat n <= ticks_left (w_mgr w0) b0) \/
    (th_backend (handle_of (w_mgr w) id) = mk_backend (be_cmd_id b0) timer_expired (be_timeout b0) /\
     ticks_left (w_mgr w0) b0 <= Z.of_nat n)
}.

Lemma u32_shift c n : 0 <= c < 2 ^ 32 -> 0 <= n < 2 ^ 32 -> u32 (c + n) = c + n \/ u32 (c + n) = c + n - 2 ^ 32.
Proof.
  intros. unfold u32. destruct (decide (c + n < 2 ^ 32)); [left; apply Z.mod_small; lia|right].
  rewrite <- (Z_mod_plus_full _ (-1)). apply Z.mod_small. lia.
Qed.

Lemma ticks_left_range : 1 <= ticks_left (w_mgr w0) b0 < 2 ^ 32.
Proof using Hw0 Hid Hrun Hph0.
  pose proof (wi_wheel w0 Hw0) as []. destruct (wh_timeout id Hid Hrun) as [Ht Hne].
  assert (be_timeout b0 <> cur_time (w_mgr w0)) by (intros E; destruct (Hne E) as (todo & Hp & _); by destruct (Hph0 todo)).
  unfold ticks_left, u32. assert ((be_timeout b0 - cur_time (w_mgr w0)) mod 2 ^ 32 <> 0); [|pose proof (Z.mod_pos_bound (be_timeout b0 - cur_time (w_mgr w0)) (2 ^ 32)); lia].
  intros E. apply Z.mod_divide in E as [q Hq]; [|lia]. assert (q = 0) by lia. lia.
Qed.

(** The timeout is reached after as many ticks as are left. *)
Lemma timeout_reached n :
  Z.of_nat n < 2 ^ 32 -> be_timeout b0 = u32 (cur_time (w_mgr w0) + Z.of_nat n) -> Z.of_nat n = ticks_left (w_mgr w0) b0.
Proof using Hw0.
  intros Hn E. pose proof (wh_time _ _ (wi_wheel w0 Hw0)) as Hc. unfold ticks_left. rewrite E.
  destruct (u32_shift (cur_time (w_mgr w0)) (Z.of_nat n) Hc ltac:(lia)) as [-> | ->].
  - rewrite u32_small; lia.
  - unfold u32. rewrite <- (Z_mod_plus_full _ 1). rewrite Z.mod_small; lia.
Qed.

Lemma timeout_at_left : u32 (cur_time (w_mgr w0) + ticks_left (w_mgr w0) b0) = be_timeout b0.
Proof using Hw0 Hid Hrun.
  pose proof (wi_wheel w0 Hw0) as []. destruct (wh_timeout id Hid Hrun) as [Ht _]. unfold ticks_left, u32.
  rewrite Zplus_mod_idemp_r. replace (_ + (_ - _)) with (be_timeout b0) by lia. by apply Z.mod_small.
Qed.

Lemma run_state_step n w l w' :
  winv w -> run_state n w -> enabled l w = true -> step l w = ok w' -> run_state (n + advances l w) w'.
Proof using Hw0 Hid Hrun Hph0.
  intros Hw [Ht Ho Hst] He Hs. pose proof ticks_left_range as Hleft.
  assert (Hcase : (exists a, l = l_tick a) \/ forall a, l <> l_tick a) by (destruct l; [by right..|left; eauto|by right]).
  destruct Hcase as [[a ->]|Hl'].
  2: { destruct (step_other l w w' Hl' Hs) as (E1 & E2 & E3 & _).
       assert (Ea : advances l w = 0%nat) by (destruct l; try done; by destruct (Hl' accept)).
       rewrite Ea, Nat.add_0_r. assert (Hh : handle_of (w_mgr w') id = handle_of (w_mgr w) id) by (unfold handle_of; by rewrite E1).
       constructor; rewrite ?Hh, ?E2; done. }
  cbn [step] in Hs. apply bind_ok_inv in Hs as ([m' p'] & Htick & Hs). injection Hs as <-.
  destruct (tick_step_effect w a m' p' Hw Htick) as [Hb Htime _ _]. specialize (Hb id Hid). unfold backend_change in Hb.
  assert (Ha : cur_time m' = u32 (cur_time (w_mgr w0) + Z.of_nat (n + advances (l_tick a) w))).
  { rewrite Htime, Ht. cbn [advances]. destruct (w_phase w); rewrite ?Nat.add_0_r; try done.
    unfold u32. rewrite Zplus_mod_idemp_l. f_equal. lia. }
  constructor; cbn [w_mgr]; [done| |].
  { destruct Hb as [-> |[?|(_ & -> & _)]]; [done|lia|done]. }
  intros Heq. destruct Hb as [Hsame|[Hlt|(Hr & Hex & Hto)]]; [|lia|].
  - rewrite Hsame in *. destruct (Hst Heq) as [[Hb Hn]|[Hb Hn]]; [left|right; split; [done|lia]]. split; [done|].
    cbn [advances]. destruct (w_phase w) eqn:Hp; try lia.
    destruct (decide (Z.of_nat n = ticks_left (w_mgr w0) b0)) as [E|]; [|lia]. exfalso.
    pose proof (wi_wheel w Hw) as []. destruct (wh_timeout id Hid) as [_ Hnow]; [unfold be_running; by rewrite Hb|].
    rewrite Hb in Hnow. destruct Hnow as (todo & Hp' & _); [|congruence]. by rewrite Ht, E, timeout_at_left.
  - rewrite Hex in Heq. cbn in Heq. right. destruct (Hst Heq) as [[Hb Hn]|[Hb Hn]]; [|by rewrite Hb in Hr].
    rewrite Hex, Hb. split; [done|]. rewrite Hb, Ht in Hto. apply timeout_reached in Hto; lia.
Qed.

Lemma run_state_steps n w : wsteps n w0 w -> run_state n w.
Proof using Hw0 Hid Hrun Hph0.
  intros Hs. remember w0 as w1 eqn:E in Hs. induction Hs as [w|n w1 l w2 w3 Hs IH He Hst]; subst.
  - pose proof (wh_time _ _ (wi_wheel w0 Hw0)). pose proof ticks_left_range. constructor; [rewrite Z.add_0_r; symmetry; by apply u32_small|done|].
    intros _. left. split; [done|lia].
  - apply (run_state_step n w2 l w3); try done; [by apply (wsteps_inv n w0)|by apply IH].
Qed.
End run.

(** A run that has not expired has neither a callback nor a task. *)
Lemma running_no_callback w id :
  winv w -> 0 <= id -> be_running (handle_of (w_mgr w) id) ->
  let e := be_cmd_id (th_backend (handle_of (w_mgr w) id)) in
  ((id, e) ∉ callbacks (w_mgr w)) /\ forall t, t ∈ tasks (w_mgr w) -> t_id t = id -> t_epoch t <> e.
Proof.
  intros Hw Hid Hr e. pose proof (vo_once _ (wi_views w Hw id Hid)) as Hnd. unfold tokens in Hnd. cbn in Hnd.
  rewrite (be_token_running _ Hr), <- !app_assoc in Hnd. fold e in Hnd.
  apply NoDup_app in Hnd as (_ & _ & Hnd). cbn in Hnd. apply NoDup_cons in Hnd as [Hno _]. split.
  - intros Hin. apply Hno. rewrite !elem_of_app. right. right. unfold epochs. apply list_elem_of_fmap.
    exists (id, e). split; [done|]. by apply list_elem_of_filter.
  - intros t Hin Hti He. apply Hno. rewrite !elem_of_app. left. unfold epochs. apply list_elem_of_fmap.
    exists t. split; [done|]. by apply list_elem_of_filter.
Qed.

(** When the back-end has expired, the expiry of a front-end that still runs waits. *)
Definition expiry_waits (w : world) (id e : Z) : Prop :=
  (exists t, t ∈ tasks (w_mgr w) /\ t_id t = id /\ t_epoch t = e) \/ (id, e) ∈ failed_to_trigger_timers (w_mgr w).

Lemma expired_token w id f :
  winv w -> 0 <= id -> ~ be_running (handle_of (w_mgr w) id) ->
  frontends (w_mgr w) !! id = Some f -> fe_state f = timer_running ->
  fe_cmd_id f = be_cmd_id (th_backend (handle_of (w_mgr w) id)) -> expiry_waits w id (fe_cmd_id f).
Proof.
  intros Hw Hid Hn Hf Hfr He. pose proof (wi_views w Hw id Hid) as Hv. pose proof (view_fe_eq w _ f Hf) as Hfe.
  pose proof (proj2 (vo_current _ Hv)) as Htok. rewrite Hfe in Htok. specialize (Htok Hfr). unfold tokens in Htok. cbn in Htok.
  rewrite (be_token_other _ Hn), !elem_of_app in Htok. destruct Htok as [Hc|[Hc|[Hc|Hc]]].
  - exfalso. apply start_tokens_sub in Hc. pose proof (vo_order _ Hv) as Ho. apply StronglySorted_inv in Ho as [_ Hlt].
    rewrite Forall_forall in Hlt. specialize (Hlt _ Hc). cbn in Hlt. lia.
  - by apply elem_of_nil in Hc.
  - left. unfold epochs in Hc. apply list_elem_of_fmap in Hc as (t & Ht & Hin). apply list_elem_of_filter in Hin as [? ?]. eauto.
  - right. unfold epochs in Hc. apply list_elem_of_fmap in Hc as ([i e] & He' & Hin). apply list_elem_of_filter in Hin as [Hi ?].
    cbn in *. by subst.
Qed.

(** The start command of a run has been processed. *)
Lemma start_processed w c cmds a w1 :
  winv w -> w_phase w = phase_commands (tev_cmd c :: cmds) -> c_action c = action_start -> step (l_tick a) w = ok w1 ->
  winv w1 /\ 0 <= c_id c /\ be_running (handle_of (w_mgr w1) (c_id c)) /\ w_phase w1 = phase_commands cmds /\
  be_cmd_id (th_backend (handle_of (w_mgr w1) (c_id c))) = c_cmd_id c /\
  ticks_left (w_mgr w1) (th_backend (handle_of (w_mgr w1) (c_id c))) = Z.max (c_duration c) 1.
Proof.
  intros Hw Hph Ha Hs. destruct (command_facts w c cmds Hw Hph) as (Hid & Hcr & _ & _ & Hd).
  cbn [step] in Hs. apply bind_ok_inv in Hs as ([m' p'] & Htick & Hs). injection Hs as <-.
  destruct (tick_cmd_ok w c cmds Hw Hph a) as (m1 & Ht1 & Hw1). rewrite Htick in Ht1. injection Ht1 as -> ->.
  rewrite Hph in Htick. cbn [tick_step] in Htick. apply bind_ok_inv in Htick as (mm & Hp & Hq). injection Hq as ->.
  destruct (command_tick_effect w c cmds m1 Hw Hph Hp) as [Heff (b & Hb & Hst & Hhb)]. destruct (Hst Ha) as [Hbr Hbt].
  cbn [w_mgr w_phase]. unfold be_running, ticks_left. rewrite Hhb. repeat (split; [done|]).
  rewrite Hbt, (te_time _ _ _ Heff), Hph. pose proof (wh_time _ _ (wi_wheel w Hw)) as Hct.
  destruct (u32_shift (cur_time (w_mgr w)) (Z.max (c_duration c) 1) Hct ltac:(lia)) as [-> | ->].
  - rewrite u32_small; lia.
  - unfold u32. rewrite <- (Z_mod_plus_full _ 1). rewrite Z.mod_small; lia.
Qed.

(** C8: timing. Between the tick that picks up the start command of a run and the next command of the same timer, whatever else
    happens in any order, the timer runs for exactly [max(duration, 1)] ticks, and then has expired: before,
    the run has neither a task nor a callback; from then on, while the front-end counts on it, the expiry waits in the
    executor or in the list of postponed timeouts. *)
Theorem timer_expires_on_time w c cmds a w1 n w2 :
  reachable w -> w_phase w = phase_commands (tev_cmd c :: cmds) -> c_action c = action_start ->
  step (l_tick a) w = ok w1 -> wsteps n w1 w2 ->
  be_cmd_id (th_backend (handle_of (w_mgr w2) (c_id c))) = c_cmd_id c ->
  ((Z.of_nat n < Z.max (c_duration c) 1) ->
     be_running (handle_of (w_mgr w2) (c_id c)) /\ ((c_id c, c_cmd_id c) ∉ callbacks (w_mgr w2)) /\
     forall t, t ∈ tasks (w_mgr w2) -> t_id t = c_id c -> t_epoch t <> c_cmd_id c) /\
  ((Z.max (c_duration c) 1 <= Z.of_nat n) -> w_phase w2 = phase_idle ->
     be_state (th_backend (handle_of (w_mgr w2) (c_id c))) = timer_expired /\
     forall f, frontends (w_mgr w2) !! c_id c = Some f -> fe_cmd_id f = c_cmd_id c -> fe_state f = timer_running ->
       expiry_waits w2 (c_id c) (c_cmd_id c)).
Proof.
  intros Hr Hph Ha Hs Hn Heq. pose proof (reachable_inv w Hr) as Hw.
  destruct (start_processed w c cmds a w1 Hw Hph Ha Hs) as (Hw1 & Hid & Hrun & Hph1 & Hb & Hleft).
  pose proof (run_state_steps _ (c_id c) Hw1 Hid Hrun ltac:(by rewrite Hph1) n w2 Hn) as [Htime _ Hstate].
  rewrite Hb, Hleft in Hstate. specialize (Hstate Heq).
  pose proof (wsteps_inv _ _ _ Hn Hw1) as Hw2. split.
  - intros Hlt. destruct Hstate as [[Hb2 _]|[_ ?]]; [|lia].
    assert (Hr2 : be_running (handle_of (w_mgr w2) (c_id c))) by (unfold be_running; by rewrite Hb2).
    split; [done|]. rewrite <- Heq. by apply running_no_callback.
  - intros Hge Hidle. assert (Hb2 : be_state (th_backend (handle_of (w_mgr w2) (c_id c))) = timer_expired).
    { destruct Hstate as [[Hb2 Hle]|[-> _]]; [|done]. exfalso. pose proof (wi_wheel w2 Hw2) as [].
      destruct (wh_timeout (c_id c) Hid) as [_ Hnow]; [unfold be_running; by rewrite Hb2|].
      destruct Hnow as (todo & Hp' & _); [|congruence].
      rewrite Hb2, Htime, <- (timeout_at_left w1 (c_id c) Hw1 Hid Hrun), Hleft. f_equal. lia. }
    split; [done|]. intros f Hf He Hfr. rewrite <- He. apply expired_token; try done; [unfold be_running; by rewrite Hb2|congruence].
Qed.
