(* ===== verification/TimersLive.v ===== *)
(** * The tick as a whole: it is a run of steps, running timers fire, and front-ends refine the timers of the entities *)
From stdpp Require Import sorting.
From S2P Require Import Prelude Timers TimersInv TimersWheel TimersSteps TimersProps.

(** ** The tick is a run of steps of the ticking thread *)
Lemma wsteps_trans a b w1 w2 w3 : wsteps a w1 w2 -> wsteps b w2 w3 -> wsteps (a + b) w1 w3.
Proof.
  intros H1 H2. revert H1. induction H2 as [w|n w2' l w w' _ IH He Hs]; intros H1; [by rewrite Nat.add_0_r|].
  rewrite Nat.add_assoc. apply (wsteps_step _ _ l w); [by apply IH|done|done].
Qed.

Lemma tick_wsteps w a m' p' : tick_step a (w_phase w) (w_mgr w) = ok (m', p') ->
  wsteps (advances (l_tick a) w) w (mk_world m' p' (w_clients w)).
Proof.
  intros Ht. apply (wsteps_step 0 w (l_tick a) w); [constructor|done|]. cbn [step]. by rewrite Ht.
Qed.

(** What part of a tick leaves as it was. *)
Record tick_frame (w : world) (m' : timer_manager) : Prop := {
  tf_frontends id cl : w_clients w !! id = Some cl -> frontends m' !! id = frontends (w_mgr w) !! id;
  tf_pending : pending_cmds m' = pending_cmds (w_mgr w)
}.

Lemma tick_frame_trans w m1 p m2 : tick_frame w m1 -> tick_frame (mk_world m1 p (w_clients w)) m2 -> tick_frame w m2.
Proof.
  intros [F1 P1] [F2 P2]. constructor.
  - intros i cl Hc. by rewrite (F2 i cl Hc), <- (F1 i cl Hc).
  - by rewrite P2.
Qed.

Lemma step_tick_inv w a m' p' : winv w -> tick_step a (w_phase w) (w_mgr w) = ok (m', p') -> winv (mk_world m' p' (w_clients w)).
Proof.
  intros Hw Ht. destruct (tick_step_ok w a Hw) as (w' & Hs & Hw'). cbn [step] in Hs. rewrite Ht in Hs. by injection Hs as <-.
Qed.

Lemma commands_run cmds : forall w, winv w -> w_phase w = phase_commands cmds ->
  exists m', for_each process_command cmds (w_mgr w) = ok m' /\
    wsteps 0 w (mk_world m' (phase_commands []) (w_clients w)) /\ tick_frame w m'.
Proof.
  induction cmds as [|ev cmds IH]; intros w Hw Hph.
  - exists (w_mgr w). split; [done|]. split; [|done]. rewrite <- Hph. destruct w. constructor.
  - destruct (tick_step_ok w true Hw) as (w1 & Hs & Hw1). cbn [step] in Hs.
    apply bind_ok_inv in Hs as ([m1 p1] & Ht & Hs). injection Hs as <-.
    pose proof (tick_wsteps w true m1 p1 Ht) as Hst. pose proof (tick_step_effect w true m1 p1 Hw Ht) as [_ _ Hf _ Hp].
    rewrite Hph in Ht. cbn [tick_step] in Ht. apply bind_ok_inv in Ht as (m2 & Hev & Ht). injection Ht as -> <-.
    destruct (IH _ Hw1 eq_refl) as (m' & He & Hst' & Hfr). exists m'. cbn [for_each]. rewrite Hev, bind_ok. split; [done|].
    split.
    + pose proof (wsteps_trans _ _ _ _ _ Hst Hst') as H. cbn [advances] in H. by rewrite Hph in H.
    + eapply tick_frame_trans; [|exact Hfr]. constructor; [done|]. apply Hp. by rewrite Hph.
Qed.

Lemma postponed_run (accept : Z -> bool) fuel : forall w, winv w -> w_phase w = phase_postponed ->
  (length (failed_to_trigger_timers (w_mgr w)) < fuel)%nat ->
  exists m', postponed_loop fuel accept (w_mgr w) = ok m' /\
    wsteps 0 w (mk_world m' phase_advance (w_clients w)) /\ tick_frame w m' /\
    ((forall id, accept id = true) -> failed_to_trigger_timers m' = []).
Proof.
  induction fuel as [|fuel IH]; intros w Hw Hph Hlen; [lia|]. cbn [postponed_loop].
  set (a := accept _). destruct (tick_step_ok w a Hw) as (w1 & Hs & Hw1). cbn [step] in Hs.
  apply bind_ok_inv in Hs as ([m1 p1] & Ht & Hs). injection Hs as <-.
  pose proof (tick_wsteps w a m1 p1 Ht) as Hst. pose proof (tick_step_effect w a m1 p1 Hw Ht) as [_ _ Hf _ Hp].
  rewrite Hph in Ht. cbn [tick_step] in Ht. apply bind_ok_inv in Ht as ([m2 go] & Hev & Ht). injection Ht as -> <-.
  assert (Hfr : tick_frame w m1) by (constructor; [done|apply Hp; by rewrite Hph]).
  rewrite Hev, bind_ok. cbn [advances] in Hst. rewrite Hph in Hst. destruct go.
  - destruct (IH _ Hw1 eq_refl) as (m' & He & Hst' & Hfr' & Hfl); cbn [w_mgr].
    { unfold postponed_turn in Hev. destruct (failed_to_trigger_timers (w_mgr w)) as [|[id e] rest]; [done|].
      apply bind_ok_inv in Hev as (h & _ & Hev). apply bind_ok_inv in Hev as (f & _ & Hev).
      apply bind_ok_inv in Hev as ([mm failed] & _ & Hev). destruct failed; [done|]. injection Hev as <-. cbn in *. lia. }
    exists m'. split; [done|]. split; [exact (wsteps_trans _ _ _ _ _ Hst Hst')|]. split; [|done].
    by eapply tick_frame_trans.
  - exists m1. split; [done|]. split; [done|]. split; [done|]. intros Ha. apply postponed_turn_effect in Hev as (_ & _ & _ & _ & _ & Hfl).
    apply Hfl; [apply Ha|done].
Qed.

Lemma expire_run (accept : Z -> bool) todo : forall w, winv w -> w_phase w = phase_expire todo ->
  exists m', for_each (fun id => expire_turn (accept id) id) todo (w_mgr w) = ok m' /\
    wsteps 0 w (mk_world m' phase_idle (w_clients w)) /\ tick_frame w m' /\
    ((forall id, accept id = true) -> failed_to_trigger_timers m' = failed_to_trigger_timers (w_mgr w)).
Proof.
  induction todo as [|id todo IH]; intros w Hw Hph.
  - exists (w_mgr w). split; [done|]. split; [|done].
    pose proof (tick_wsteps w true (w_mgr w) phase_idle) as H. cbn [advances] in H. rewrite Hph in H. by apply H.
  - destruct (tick_step_ok w (accept id) Hw) as (w1 & Hs & Hw1). cbn [step] in Hs.
    apply bind_ok_inv in Hs as ([m1 p1] & Ht & Hs). injection Hs as <-.
    pose proof (tick_wsteps w _ m1 p1 Ht) as Hst. pose proof (tick_step_effect w _ m1 p1 Hw Ht) as [_ _ Hf _ Hp].
    rewrite Hph in Ht. cbn [tick_step] in Ht. apply bind_ok_inv in Ht as (m2 & Hev & Ht). injection Ht as -> <-.
    destruct (IH _ Hw1 eq_refl) as (m' & He & Hst' & Hfr & Hfl). exists m'. cbn [for_each]. rewrite Hev, bind_ok.
    destruct (expire_tick_effect w (accept id) id todo m1 Hw Hph Hev) as [_ Hfl1].
    split; [done|]. split; [|split].
    + pose proof (wsteps_trans _ _ _ _ _ Hst Hst') as H. cbn [advances] in H. by rewrite Hph in H.
    + eapply tick_frame_trans; [|exact Hfr]. constructor; [done|]. apply Hp. by rewrite Hph.
    + intros Ha. rewrite Hfl by done. cbn. auto.
Qed.

(** A whole tick. *)
Lemma tick_run (accept : Z -> bool) w :
  winv w -> w_phase w = phase_idle ->
  exists m', tick accept (w_mgr w) = ok m' /\ wsteps 1 w (mk_world m' phase_idle (w_clients w)) /\
    pending_cmds m' = [] /\ (forall id cl, w_clients w !! id = Some cl -> frontends m' !! id = frontends (w_mgr w) !! id) /\
    ((forall id, accept id = true) -> failed_to_trigger_timers m' = []).
Proof.
  intros Hw Hph. unfold tick. set (m0 := set_pending (w_mgr w) []).
  assert (T0 : tick_step true (w_phase w) (w_mgr w) = ok (m0, phase_commands (pending_cmds (w_mgr w)))) by (by rewrite Hph).
  pose proof (tick_wsteps _ _ _ _ T0) as S0. pose proof (step_tick_inv _ _ _ _ Hw T0) as W0.
  destruct (commands_run _ _ W0 eq_refl) as (m1 & E1 & S1 & F1). cbn [w_mgr] in E1.
  rewrite E1, bind_ok. pose proof (wsteps_inv _ _ _ S1 W0) as W1.
  assert (T1 : tick_step true (phase_commands []) m1 = ok (m1, phase_postponed)) by done.
  pose proof (tick_wsteps (mk_world m1 (phase_commands []) (w_clients w)) _ _ _ T1) as S2.
  pose proof (step_tick_inv _ _ _ _ W1 T1) as W2.
  destruct (postponed_run accept (S (length (failed_to_trigger_timers m1))) _ W2 eq_refl) as (m2 & E2 & S3 & F2 & L2); [cbn; lia|].
  unfold handle_postponed_timeouts. cbn [w_mgr] in E2. rewrite E2, bind_ok. pose proof (wsteps_inv _ _ _ S3 W2) as W3.
  assert (T3 : tick_step true phase_advance m2 = ok (set_cur_time m2 (u32 (cur_time m2 + 1)),
    phase_expire (wheel_bucket (time_wheel m2) (wheel_index (u32 (cur_time m2 + 1)))))) by done.
  pose proof (tick_wsteps (mk_world m2 phase_advance (w_clients w)) _ _ _ T3) as S4. pose proof (step_tick_inv _ _ _ _ W3 T3) as W4.
  destruct (expire_run accept _ _ W4 eq_refl) as (m3 & E3 & S5 & F3 & L3). exists m3. split; [exact E3|]. split; [|split; [|split]].
  - cbn [advances w_phase] in S0, S2, S4. rewrite Hph in S0.
    exact (wsteps_trans _ _ _ _ _ (wsteps_trans _ _ _ _ _ (wsteps_trans _ _ _ _ _ (wsteps_trans _ _ _ _ _
      (wsteps_trans _ _ _ _ _ S0 S1) S2) S3) S4) S5).
  - rewrite (tf_pending _ _ F3). cbn. rewrite (tf_pending _ _ F2). cbn. by rewrite (tf_pending _ _ F1).
  - intros id cl Hc. rewrite (tf_frontends _ _ F3 id cl Hc). cbn. rewrite (tf_frontends _ _ F2 id cl Hc). cbn.
    by rewrite (tf_frontends _ _ F1 id cl Hc).
  - intros Ha. rewrite (L3 Ha). cbn. by apply L2.
Qed.

(** C0: [tick], as the code has it, never fails and is one of the runs of the interleaving semantics, with one advance of the time;
    it takes all pending commands and leaves the front-ends that clients own alone. *)
Theorem tick_is_interleaving (accept : Z -> bool) w :
  reachable w -> w_phase w = phase_idle ->
  exists m', tick accept (w_mgr w) = ok m' /\ wsteps 1 w (mk_world m' phase_idle (w_clients w)) /\
    pending_cmds m' = [] /\ (forall id cl, w_clients w !! id = Some cl -> frontends m' !! id = frontends (w_mgr w) !! id).
Proof.
  intros Hr Hph. destruct (tick_run accept w (reachable_inv w Hr) Hph) as (m' & ? & ? & ? & ? & _). eauto.
Qed.

(** ** Liveness *)
Fixpoint ticks (n : nat) (accept : Z -> bool) (m : timer_manager) : outcome timer_manager :=
  match n with O => ok m | S n => m ← tick accept m; ticks n accept m end.

Lemma ticks_run (accept : Z -> bool) n : forall w, winv w -> w_phase w = phase_idle ->
  exists m', ticks n accept (w_mgr w) = ok m' /\ wsteps n w (mk_world m' phase_idle (w_clients w)) /\
    (forall id cl, w_clients w !! id = Some cl -> frontends m' !! id = frontends (w_mgr w) !! id) /\
    ((0 < n)%nat -> pending_cmds m' = [] /\ ((forall id, accept id = true) -> failed_to_trigger_timers m' = [])).
Proof.
  induction n as [|n IH]; intros w Hw Hph.
  - exists (w_mgr w). split; [done|]. split; [|split; [done|lia]]. rewrite <- Hph. destruct w. constructor.
  - destruct (tick_run accept w Hw Hph) as (m1 & E1 & S1 & P1 & F1 & L1). pose proof (wsteps_inv _ _ _ S1 Hw) as W1.
    destruct (IH _ W1 eq_refl) as (m2 & E2 & S2 & F2 & L2). exists m2. cbn [ticks]. rewrite E1, bind_ok. split; [done|].
    split; [exact (wsteps_trans _ _ _ _ _ S1 S2)|]. split.
    + intros id cl Hc. by rewrite (F2 id cl Hc), <- (F1 id cl Hc).
    + intros _. destruct n as [|n]; [|apply L2; lia]. cbn in E2. injection E2 as <-. done.
Qed.

(** The token of a running front-end, once all commands are processed and no timeout is postponed. *)
Lemma settled_token w id f :
  winv w -> 0 <= id -> w_phase w = phase_idle -> w_clients w !! id = Some client_idle -> pending_cmds (w_mgr w) = [] ->
  frontends (w_mgr w) !! id = Some f -> fe_state f = timer_running ->
  (be_running (handle_of (w_mgr w) id) /\ be_cmd_id (th_backend (handle_of (w_mgr w) id)) = fe_cmd_id f) \/
  expiry_waits w id (fe_cmd_id f).
Proof.
  intros Hw Hid Hph Hc Hp Hf Hfr. pose proof (wi_views w Hw id Hid) as Hv. pose proof (view_fe_eq w _ f Hf) as Hfe.
  pose proof (proj2 (vo_current _ Hv)) as Htok. rewrite Hfe in Htok. specialize (Htok Hfr). unfold tokens in Htok. cbn in Htok.
  rewrite Hc in Htok. unfold w_queue in Htok. rewrite Hph, Hp in Htok. cbn in Htok. unfold be_token in Htok.
  rewrite !elem_of_app in Htok. destruct Htok as [Ht|[Ht|Ht]].
  - left. destruct (be_state (th_backend (handle_of (w_mgr w) id))) eqn:Hb; cbn in Ht; try by apply elem_of_nil in Ht.
    apply list_elem_of_singleton in Ht. done.
  - right. left. unfold epochs in Ht. apply list_elem_of_fmap in Ht as (t & Ht & Hin).
    apply list_elem_of_filter in Hin as [? ?]. eauto.
  - right. right. unfold epochs in Ht. apply list_elem_of_fmap in Ht as ([i e] & He & Hin).
    apply list_elem_of_filter in Hin as [Hi ?]. cbn in *. by subst.
Qed.

(** After enough ticks with accepting executors, the task of the current run is in the executor. *)
Lemma running_timer_dispatched w id f :
  winv w -> 0 <= id -> w_phase w = phase_idle -> w_clients w !! id = Some client_idle ->
  frontends (w_mgr w) !! id = Some f -> fe_state f = timer_running ->
  exists n m, (Z.of_nat n <= 2 ^ 32) /\ ticks n (fun _ => true) (w_mgr w) = ok m /\
    wsteps n w (mk_world m phase_idle (w_clients w)) /\ frontends m !! id = Some f /\
    exists t, t ∈ tasks m /\ t_id t = id /\ t_epoch t = fe_cmd_id f.
Proof.
  intros Hw Hid Hph Hc Hf Hfr. pose proof (fun n => ticks_run (fun _ => true) n w Hw Hph) as Hticks.
  destruct (Hticks 1%nat) as (m1 & E1 & S1 & F1 & L1). destruct (L1 ltac:(lia)) as [P1 Fl1]. specialize (Fl1 ltac:(done)).
  pose proof (wsteps_inv _ _ _ S1 Hw) as W1. assert (Hf1 : frontends m1 !! id = Some f) by (by rewrite (F1 id _ Hc)).
  destruct (settled_token _ id f W1 Hid eq_refl Hc P1 Hf1 Hfr) as [[Hr He]|[Ht|Ht]].
  2: { exists 1%nat, m1. split; [lia|]. repeat (split; [done|]). exact Ht. }
  2: { cbn in Ht. rewrite Fl1 in Ht. by apply elem_of_nil in Ht. }
  cbn [w_mgr] in Hr, He. set (w1 := mk_world m1 phase_idle (w_clients w)) in *.
  pose proof (ticks_left_range w1 id W1 Hid Hr ltac:(done)) as Hleft.
  set (r := Z.to_nat (ticks_left m1 (th_backend (handle_of m1 id)))).
  destruct (ticks_run (fun _ => true) r w1 W1 eq_refl) as (m2 & E2 & S2 & F2 & L2).
  assert (Hr0 : (0 < r)%nat) by (unfold r; cbn [w1 w_mgr] in Hleft; lia).
  destruct (L2 Hr0) as [P2 Fl2]. specialize (Fl2 ltac:(done)).
  pose proof (wsteps_inv _ _ _ S2 W1) as W2. assert (Hf2 : frontends m2 !! id = Some f) by (by rewrite (F2 id _ Hc)).
  exists (1 + r)%nat, m2. cbn [w1 w_mgr] in Hleft, E2. split; [unfold r; lia|].
  split; [cbn [ticks plus] in E1 |- *; destruct (tick _ _); [injection E1 as ->; exact E2|done]|].
  split; [exact (wsteps_trans _ _ _ _ _ S1 S2)|]. split; [done|].
  destruct (settled_token _ id f W2 Hid eq_refl Hc P2 Hf2 Hfr) as [[Hr2 He2]|[Ht|Ht]]; [|done|].
  - exfalso. destruct (run_state_steps w1 id W1 Hid Hr ltac:(done) r _ S2) as [Htime _ Hst]. cbn [w_mgr] in *.
    destruct Hst as [[Hb _]|[Hb _]]; [exact (eq_trans He2 (eq_sym He))| |by unfold be_running in Hr2; cbn [w_mgr] in Hr2; rewrite Hb in Hr2].
    pose proof (wi_wheel _ W2) as []. destruct (wh_timeout id Hid Hr2) as [_ Hnow]. cbn [w_mgr w_phase] in Hnow.
    rewrite Hb, Htime, <- (timeout_at_left w1 id W1 Hid Hr) in Hnow. cbn [w1 w_mgr] in Hnow. unfold r in Hnow.
    rewrite Z2Nat.id in Hnow by lia. by destruct (Hnow eq_refl) as (todo & ? & _).
  - cbn in Ht. rewrite Fl2 in Ht. by apply elem_of_nil in Ht.
Qed.

(** C34: a running timer fires. From any state between two ticks, if its owner leaves it alone and the executors accept tasks, a running
    timer has its task in its executor after at most 2^32 ticks; the task sets the front-end to expired and calls
    the callback, if there is one. *)
Theorem running_timer_fires w id f :
  reachable w -> w_phase w = phase_idle -> w_clients w !! id = Some client_idle ->
  frontends (w_mgr w) !! id = Some f -> fe_state f = timer_running ->
  exists n m k t m', (Z.of_nat n <= 2 ^ 32) /\ ticks n (fun _ => true) (w_mgr w) = ok m /\
    tasks m !! k = Some t /\ t_id t = id /\ t_epoch t = fe_cmd_id f /\
    step (l_exec k) (mk_world m phase_idle (w_clients w)) = ok (mk_world m' phase_idle (w_clients w)) /\
    frontends m' !! id = Some (fe_set_state f timer_expired) /\
    callbacks m' = callbacks m ++ if fe_callback f then [(id, fe_cmd_id f)] else [].
Proof.
  intros Hr Hph Hc Hf Hfr. pose proof (reachable_inv w Hr) as Hw. destruct (wi_clients w Hw id _ Hc) as [Hid _].
  destruct (running_timer_dispatched w id f Hw Hid Hph Hc Hf Hfr) as (n & m & Hn & Ht & Hs & Hfm & t & Hin & Hti & Hte).
  apply list_elem_of_lookup in Hin as [k Hk].
  destruct (run_expiry_task_spec t (set_tasks m (delete k (tasks m))) f) as (m' & Hrun & Heff); [by rewrite Hti|done|].
  exists n, m, k, t, m'. repeat (split; [done|]). cbn [step w_mgr]. rewrite Hk, Hrun. split; [done|].
  destruct Heff as (E1 & E2 & _). rewrite Hte, Z.eqb_refl, Hti in *. split; [by rewrite E1, lookup_insert_eq|]. rewrite E2.
  cbn. done.
Qed.

(** ** The timer of an entity

    The entities of the other files have a [timer_state]: [timer_run] and [timer_stop] when they call the timer, and an expiry event
    that may come while the timer runs. *)
Definition op_effect (op : timer_op) (s : timer_state) : timer_state :=
  match op with
  | op_run => timer_run s
  | op_stop => timer_stop s
  | op_reset => timer_stopped
  | op_set _ | op_set_callback _ _ => s
  end.

Lemma unique_timer_op_effect op id f f' oc :
  unique_timer_op op id f = ok (f', oc) -> fe_state f' = op_effect op (fe_state f).
Proof.
  destruct op as [d|d cb| | |]; cbn [unique_timer_op].
  - unfold frontend_set. intros ([] & _ & H)%bind_ok_inv. by injection H as <- _.
  - unfold frontend_set_callback, frontend_set. intros ([f1 c1] & H1 & H)%bind_ok_inv. injection H as <- _.
    apply bind_ok_inv in H1 as ([] & _ & H1). by injection H1 as <- _.
  - by intros [= <- _].
  - cbn. unfold timer_stop. destruct (is_running (fe_state f)) eqn:E; intros H; injection H as <- _; [done|by rewrite ?E].
  - by intros [= <- _].
Qed.

(** The effect of a step on the front-end of a timer, and on the log of callbacks. *)
Definition expiry_step (k : nat) (w w' : world) (id : Z) (f f' : timer_frontend) : Prop :=
  exists t, tasks (w_mgr w) !! k = Some t /\ t_id t = id /\ t_epoch t = fe_cmd_id f /\
    fe_state f = timer_running /\ f' = fe_set_state f timer_expired /\
    callbacks (w_mgr w') = callbacks (w_mgr w) ++ if fe_callback f then [(id, fe_cmd_id f)] else [].

Lemma step_exec_frontend k w w' id f :
  winv w -> step (l_exec k) w = ok w' -> frontends (w_mgr w) !! id = Some f ->
  exists f', frontends (w_mgr w') !! id = Some f' /\ (f' = f \/ expiry_step k w w' id f f').
Proof.
  intros Hw. cbn [step]. destruct (tasks (w_mgr w) !! k) as [t|] eqn:Hk; [|intros H Hf; injection H as <-; eauto].
  intros (m & Hm & H)%bind_ok_inv Hf. injection H as <-. destruct (task_timer w k t Hw Hk) as (Hid & g & Hg & Hrun).
  destruct (run_expiry_task_spec t (set_tasks (w_mgr w) (delete k (tasks (w_mgr w)))) g Hg Hrun) as (m' & Hm' & E1 & E2 & _).
  rewrite Hm in Hm'. injection Hm' as <-. cbn [w_mgr]. rewrite E1. destruct (Z.eqb_spec (fe_cmd_id g) (t_epoch t)) as [E|E]; [|eauto].
  destruct (decide (t_id t = id)) as [<-|Hne]; [|rewrite lookup_insert_ne by done; eauto].
  rewrite lookup_insert_eq. assert (g = f) by congruence. subst g. eexists. split; [done|]. right.
  exists t. rewrite E. repeat (split; [auto|]). cbn. by rewrite E2.
Qed.

Lemma step_other_callbacks l w w' :
  winv w -> (forall k, l <> l_exec k) -> step l w = ok w' -> callbacks (w_mgr w') = callbacks (w_mgr w).
Proof.
  intros Hw Hl. destruct l as [ex [id|]|id op|id|a|k]; cbn [step].
  - unfold create_frontend_timer. intros [[m i] [Hc H]]%bind_ok_inv. injection H as <-.
    apply bind_ok_inv in Hc as (f & _ & Hc). apply bind_ok_inv in Hc as ([] & _ & Hc). by injection Hc as <- <-.
  - intros H. by injection H as <-.
  - intros (f & _ & H)%bind_ok_inv. apply bind_ok_inv in H as ([f' oc] & _ & H). by injection H as <-.
  - destruct (w_clients w !! id) as [[| |c]|]; intros H; by injection H as <-.
  - intros ([m' p'] & Ht & H)%bind_ok_inv. injection H as <-. by apply (tick_step_effect w a m' p' Hw Ht).
  - by destruct (Hl k).
Qed.

(** C35: front-ends refine the timers of the entities: whatever the threads do, the state of a timer that is owned changes
    as [timer_run] and [timer_stop] say when its owner calls it, and otherwise only from running to expired,
    in the executor of its owner, together with the callback, once per run; nothing else calls back. *)
Theorem unique_timer_refines_timer_state w l w' id f :
  reachable w -> enabled l w = true -> step l w = ok w' ->
  is_Some (w_clients w !! id) -> frontends (w_mgr w) !! id = Some f ->
  exists f', frontends (w_mgr w') !! id = Some f' /\
    match l with
    | l_op i op => if i =? id then fe_state f' = op_effect op (fe_state f) else f' = f
    | l_exec k => f' = f \/ expiry_step k w w' id f f'
    | _ => f' = f
    end /\
    match l with l_exec _ => True | _ => callbacks (w_mgr w') = callbacks (w_mgr w) end.
Proof.
  intros Hr He Hs [cl Hc] Hf. pose proof (reachable_inv w Hr) as Hw.
  assert (Hcb : match l with l_exec _ => True | _ => callbacks (w_mgr w') = callbacks (w_mgr w) end)
    by (destruct l; try done; by apply (step_other_callbacks _ w w' Hw) in Hs).
  destruct l as [ex [i|]|i op|i|a|k]; cbn [step] in Hs.
  - destruct (wi_clients w Hw id cl Hc) as [Hid _]. unfold create_frontend_timer in Hs.
    apply bind_ok_inv in Hs as ([m j] & Hm & Hs). injection Hs as <-. apply bind_ok_inv in Hm as (g & _ & Hm).
    apply bind_ok_inv in Hm as ([] & _ & Hm). injection Hm as <- <-. exists f. cbn. split; [|done].
    rewrite lookup_insert_ne; [done|]. intros ->. cbn in He. apply bool_decide_eq_true in He.
    destruct (vo_free _ (wi_views w Hw id Hid)) as [Hn _]; [by apply bool_decide_eq_true|]. cbn in Hn. congruence.
  - injection Hs as <-. exists f. cbn. split; [|done]. rewrite lookup_insert_ne; [done|]. intros E.
    assert (H : is_Some (frontends (w_mgr w) !! id)) by eauto. apply (wi_alloc w Hw) in H. lia.
  - apply bind_ok_inv in Hs as (g & Hg & Hs). apply bind_ok_inv in Hs as ([f' oc] & Hop & Hs). injection Hs as <-.
    cbn. zcases; subst.
    + unfold get_frontend in Hg. rewrite Hf in Hg. injection Hg as <-. exists f'. rewrite lookup_insert_eq. split; [done|].
      split; [by apply (unique_timer_op_effect op id f f' oc)|done].
    + exists f. by rewrite lookup_insert_ne.
  - exists f. split; [|done]. destruct (w_clients w !! i) as [[| |c]|]; injection Hs as <-; done.
  - apply bind_ok_inv in Hs as ([m' p'] & Ht & Hs). injection Hs as <-. exists f. split; [|done].
    cbn [w_mgr]. by rewrite (te_frontends _ _ _ (tick_step_effect w a m' p' Hw Ht) id cl Hc).
  - destruct (step_exec_frontend k w w' id f Hw Hs Hf) as (f' & ? & ?). eauto.
Qed.

(** ** Callbacks *)
Lemma callbacks_nonneg n w0 w : wsteps n w0 w -> winv w0 -> callbacks (w_mgr w0) = [] -> Forall (fun p => 0 <= p.1) (callbacks (w_mgr w)).
Proof.
  induction 1 as [w|n w1 l w2 w3 Hst IH He Hs]; intros Hw0 H0; [by rewrite H0|]. specialize (IH Hw0 H0).
  pose proof (wsteps_inv _ _ _ Hst Hw0) as Hw.
  assert (Hcase : (exists k, l = l_exec k) \/ forall k, l <> l_exec k) by (destruct l; [by right..|left; eauto]).
  destruct Hcase as [[k ->]|Hl]; [|by rewrite (step_other_callbacks l w2 w3 Hw Hl Hs)].
  cbn [step] in Hs. destruct (tasks (w_mgr w2) !! k) as [t|] eqn:Hk; [|by injection Hs as <-].
  apply bind_ok_inv in Hs as (m & Hm & Hs). injection Hs as <-. destruct (task_timer w2 k t Hw Hk) as (Hid & g & Hg & Hrun).
  destruct (run_expiry_task_spec t (set_tasks (w_mgr w2) (delete k (tasks (w_mgr w2)))) g Hg Hrun) as (m' & Hm' & _ & E2 & _).
  rewrite Hm in Hm'. injection Hm' as <-. cbn [w_mgr]. rewrite E2. apply Forall_app. split; [done|].
  destruct (_ && _); [by repeat constructor|done].
Qed.

Lemma NoDup_by_epochs (l : list (Z * Z)) : (forall id, id ∈ l.*1 -> NoDup (epochs fst snd id l)) -> NoDup l.
Proof.
  induction l as [|[i e] l IH]; intros H; [constructor|]. apply NoDup_cons. split.
  - intros Hin. specialize (H i ltac:(by left)). rewrite epochs_cons in H. cbn in H. rewrite Z.eqb_refl in H. cbn in H.
    apply NoDup_cons in H as [Hno _]. apply Hno. unfold epochs. apply list_elem_of_fmap. exists (i, e). split; [done|].
    by apply list_elem_of_filter.
  - apply IH. intros id Hid. specialize (H id ltac:(by right)). rewrite epochs_cons in H. by apply NoDup_app in H as (_ & _ & H).
Qed.

(** Callbacks are genuine: in any interleaving every run of a timer calls back at most once; a run that has called back was
    started, no longer runs, and no task for it is left. *)
Theorem timer_callbacks_genuine w :
  reachable w ->
  NoDup (callbacks (w_mgr w)) /\
  forall id e f, (id, e) ∈ callbacks (w_mgr w) -> frontends (w_mgr w) !! id = Some f ->
    e <= fe_cmd_id f /\ (e = fe_cmd_id f -> fe_state f <> timer_running) /\
    forall t, t ∈ tasks (w_mgr w) -> t_id t = id -> t_epoch t <> e.
Proof.
  intros Hr. pose proof (reachable_inv w Hr) as Hw.
  assert (Hnn : Forall (fun p => 0 <= p.1) (callbacks (w_mgr w))).
  { destruct Hr as (n & k & Hn & Hs). by apply (callbacks_nonneg k (init_world n)); [|apply init_inv|]. }
  rewrite Forall_forall in Hnn. split.
  - apply NoDup_by_epochs. intros id Hid. apply list_elem_of_fmap in Hid as ([i e] & -> & Hin). specialize (Hnn _ Hin). cbn in Hnn |- *.
    pose proof (vo_once _ (wi_views w Hw i Hnn)) as Hnd. by apply NoDup_app in Hnd as (_ & _ & Hnd).
  - intros id e f Hin Hf. pose proof (Hnn _ Hin) as Hid. cbn in Hid. pose proof (wi_views w Hw id Hid) as Hv.
    pose proof (view_fe_eq w id f Hf) as Hfe. assert (Hfired : e ∈ v_fired (view_of w id)).
    { cbn. unfold epochs. apply list_elem_of_fmap. exists (id, e). split; [done|]. by apply list_elem_of_filter. }
    assert (Hno : e ∉ tokens (view_of w id)).
    { intros Ht. pose proof (vo_once _ Hv) as Hnd. apply NoDup_app in Hnd as (_ & Hd & _). by apply (Hd e). }
    split; [|split].
    + pose proof (vo_bound _ Hv) as Hb. rewrite Forall_forall, Hfe in Hb. apply Hb, elem_of_app. by right.
    + intros -> Hrun. apply Hno. rewrite <- Hfe. apply (vo_current _ Hv). by rewrite Hfe.
    + intros t Ht Hti He. apply Hno. unfold tokens. rewrite !elem_of_app. right. right. left. cbn. unfold epochs.
      apply list_elem_of_fmap. exists t. split; [done|]. by apply list_elem_of_filter.
Qed.

(** * Timers: concrete runs, and calls that the code does not allow *)

(** ** Executing labels *)
Fixpoint run_labels (ls : list label) (w : world) : outcome (nat * world) :=
  match ls with
  | [] => ok (0%nat, w)
  | l :: ls =>
      srsran_assert (enabled l w);;
      w' ← step l w;
      '(n, w'') ← run_labels ls w';
      ok ((advances l w + n)%nat, w'')
  end.

Lemma run_labels_wsteps ls : forall w n w', run_labels ls w = ok (n, w') -> wsteps n w w'.
Proof.
  induction ls as [|l ls IH]; intros w n w'; cbn [run_labels].
  - intros H. injection H as <- <-. constructor.
  - intros ([] & He & H)%bind_ok_inv. apply bind_ok_inv in H as (w1 & Hs & H). apply bind_ok_inv in H as ([k w2] & Hk & H).
    injection H as <- <-. apply (wsteps_trans (advances l w) k w w1); [|by apply IH].
    apply (wsteps_step 0 w l w); [constructor| |done]. by destruct (enabled l w).
Qed.

Lemma run_labels_reachable ls n w : run_labels ls (init_world 2) = ok (n, w) -> reachable w.
Proof. intros H. exists 2%nat, n. split; [lia|]. by apply (run_labels_wsteps ls). Qed.

Definition result_world (r : outcome (nat * world)) : world := match r with ok (_, w) => w | fail _ => init_world 0 end.

(** A timer of duration 2 is started; the ticking thread has picked up the command. *)
Definition ex_start : list label :=
  [l_create 7 (Some 0); l_op 0 (op_set_callback 2 true); l_op 0 op_run; l_push 0; l_tick true].
Definition ex_picked_up : world := Eval vm_compute in result_world (run_labels ex_start (init_world 2)).
Definition ex_cmd : cmd_t := mk_cmd 0 2 action_start 2.
Definition ex_running : world := Eval vm_compute in result_world (run_labels [l_tick true] ex_picked_up).
(** Two ticks later it has expired; executors were full. *)
Definition ex_two_ticks : list label := repeat (l_tick false) 10.
Definition ex_expired : world := Eval vm_compute in result_world (run_labels ex_two_ticks ex_running).

Lemma ex_picked_up_reachable : reachable ex_picked_up.
Proof. apply (run_labels_reachable ex_start 0). vm_compute. reflexivity. Qed.

Example ex_two_ticks_run : run_labels ex_two_ticks ex_running = ok (2%nat, ex_expired).
Proof. vm_compute. reflexivity. Qed.

Lemma timer_expires_on_time_witness :
  be_state (th_backend (handle_of (w_mgr ex_expired) 0)) = timer_expired /\
  forall f, frontends (w_mgr ex_expired) !! 0 = Some f -> fe_cmd_id f = 2 -> fe_state f = timer_running ->
    expiry_waits ex_expired 0 2.
Proof.
  refine (proj2 (timer_expires_on_time ex_picked_up ex_cmd [] true ex_running 2 ex_expired ex_picked_up_reachable _ _ _ _ _) _ _).
  - reflexivity.
  - reflexivity.
  - vm_compute. reflexivity.
  - apply (run_labels_wsteps ex_two_ticks), ex_two_ticks_run.
  - reflexivity.
  - vm_compute. congruence.
  - reflexivity.
Defined.

(** The state after the tick that picks the command up, and after the expiry was carried out. *)
Definition ex_idle : world := Eval vm_compute in result_world (run_labels (ex_start ++ repeat (l_tick true) 5) (init_world 2)).
Definition ex_frontend : timer_frontend := mk_frontend (Some 7) 2 timer_running 2 true.
Lemma ex_idle_reachable : reachable ex_idle.
Proof. apply (run_labels_reachable (ex_start ++ repeat (l_tick true) 5) 1). vm_compute. reflexivity. Qed.

Definition ex_fired_labels : list label := ex_start ++ repeat (l_tick true) 11 ++ [l_exec 0].
Definition ex_fired : world := Eval vm_compute in result_world (run_labels ex_fired_labels (init_world 2)).
Lemma ex_fired_reachable : reachable ex_fired.
Proof. apply (run_labels_reachable ex_fired_labels 2). vm_compute. reflexivity. Qed.
Example ex_fired_callback : callbacks (w_mgr ex_fired) = [(0, 2)].
Proof. reflexivity. Qed.

Lemma timers_never_fail_witness :
  enabled (l_op 0 op_stop) ex_idle = true /\ exists w', step (l_op 0 op_stop) ex_idle = ok w' /\ reachable w'.
Proof. split; [reflexivity|]. apply (timers_never_fail ex_idle (l_op 0 op_stop) ex_idle_reachable). reflexivity. Defined.

Lemma timer_wheel_exact_witness :
  wheel_bucket (time_wheel (w_mgr ex_idle)) 2 = [0] /\ NoDup (wheel_bucket (time_wheel (w_mgr ex_idle)) 2) /\
  nof_running_timers (w_mgr ex_idle) = zlen (filter be_running (timers (w_mgr ex_idle))).
Proof.
  split; [reflexivity|]. destruct (timer_wheel_exact ex_idle 2 ex_idle_reachable) as (Hnd & _ & Hn). split; [exact Hnd|exact Hn].
Defined.

Lemma tick_is_interleaving_witness :
  exists m', tick (fun _ => true) (w_mgr ex_idle) = ok m' /\ wsteps 1 ex_idle (mk_world m' phase_idle (w_clients ex_idle)) /\
    pending_cmds m' = [] /\
    (forall id cl, w_clients ex_idle !! id = Some cl -> frontends m' !! id = frontends (w_mgr ex_idle) !! id).
Proof. apply (tick_is_interleaving (fun _ => true) ex_idle ex_idle_reachable). reflexivity. Defined.

Lemma running_timer_fires_witness :
  exists n m k t m', Z.of_nat n <= 2 ^ 32 /\ ticks n (fun _ => true) (w_mgr ex_idle) = ok m /\
    tasks m !! k = Some t /\ t_id t = 0 /\ t_epoch t = 2 /\
    step (l_exec k) (mk_world m phase_idle (w_clients ex_idle)) = ok (mk_world m' phase_idle (w_clients ex_idle)) /\
    frontends m' !! 0 = Some (fe_set_state ex_frontend timer_expired) /\ callbacks m' = callbacks m ++ [(0, 2)].
Proof.
  refine (running_timer_fires ex_idle 0 ex_frontend ex_idle_reachable _ _ _ _); reflexivity.
Defined.

Lemma timer_callbacks_genuine_witness : NoDup (callbacks (w_mgr ex_fired)) /\ callbacks (w_mgr ex_fired) = [(0, 2)].
Proof. split; [exact (proj1 (timer_callbacks_genuine ex_fired ex_fired_reachable))|reflexivity]. Defined.

Lemma unique_timer_refines_timer_state_witness :
  exists w' f', step (l_op 0 op_stop) ex_idle = ok w' /\ frontends (w_mgr w') !! 0 = Some f' /\ fe_state f' = timer_stop timer_running.
Proof.
  eexists. destruct (unique_timer_refines_timer_state ex_idle (l_op 0 op_stop)
    (result_world (run_labels [l_op 0 op_stop] ex_idle)) 0 ex_frontend ex_idle_reachable) as (f' & Hf & Hs & _).
  - reflexivity.
  - vm_compute. reflexivity.
  - exists client_idle. reflexivity.
  - reflexivity.
  - exists f'. split; [vm_compute; reflexivity|]. split; [exact Hf|exact Hs].
Defined.

(** ** Calls that are not allowed *)

(** [set] with more than half of the range of [unsigned] ends the process; a negative duration passes, and the start command
    carries it modulo 2^32. *)
Lemma timer_set_errors dur id f :
  (MAX_TIMER_DURATION < dur -> frontend_set dur id f = fail assertion) /\
  (dur <= MAX_TIMER_DURATION -> fe_state f = timer_running ->
     exists f' c, frontend_set dur id f = ok (f', Some c) /\ c_action c = action_start /\ c_duration c = dur mod 2 ^ 32).
Proof.
  unfold frontend_set. split.
  - intros H. by rewrite (proj2 (Z.leb_gt dur MAX_TIMER_DURATION)) by done.
  - intros H Hr. rewrite (proj2 (Z.leb_le dur MAX_TIMER_DURATION)) by done. cbn. rewrite Hr. eauto.
Qed.

(** A null handle: [stop] and [reset] do nothing, the rest asserts. *)
Lemma unique_timer_null op m :
  unique_timer_call op None m = match op with op_stop | op_reset => ok m | _ => fail assertion end.
Proof. by destruct op. Qed.

(** A timer that is run before it is set has the duration [INVALID_DURATION], of which the command keeps 32 bits: it expires after
    2^32 - 1 ticks. *)
Lemma run_without_set id ex :
  exists f' c, frontend_run id (fe_set_exec default_frontend (Some ex)) = ok (f', Some c) /\
    c_duration c = 2 ^ 32 - 1 /\ fe_state f' = timer_running.
Proof. eexists _, _. split; [done|]. split; reflexivity. Qed.

(** Every start of an allowed run is due within the range that the wheel distinguishes. *)
Example ex_wheel_wrap : wheel_index (u32 (2 ^ 32 - 1 + 2)) = 1.
Proof. reflexivity. Qed.
