(* ===== verification/SduWindow.v ===== *)
(** * The SDU window of the RLC entities

    [circular_map<K, T, N>] of [include/srsran/adt/circular_map.h], an array of
    [N] slots indexed by [key % N], and [sdu_window_impl] of
    [lib/support/sdu_window_impl.h], which stores the SDU info objects of the
    transmit and receive windows by sequence number.

    Within one window of sequence numbers the slots never collide, and the
    container behaves as a finite map from sequence numbers ([wget]). *)

From S2P Require Import Prelude.

Section circular_map.
Context {T : Type} (N : Z).

(** [slots !! idx] is [buffer[idx]] when [present[idx]]. *)
Record circular_map := mk_circular_map {
  slots : gmap Z (Z * T);
  count : Z
}.

Definition cm_empty : circular_map := mk_circular_map ∅ 0.

Definition cm_contains (m : circular_map) (key : Z) : bool :=
  match slots m !! (key mod N) with
  | Some (k, _) => k =? key
  | None => false
  end.

(** [insert(key, obj)]: refused when the slot is taken. *)
Definition cm_insert (m : circular_map) (key : Z) (obj : T) : bool * circular_map :=
  match slots m !! (key mod N) with
  | Some _ => (false, m)
  | None => (true, mk_circular_map (<[key mod N := (key, obj)]> (slots m)) (count m + 1))
  end.

Definition cm_erase (m : circular_map) (key : Z) : bool * circular_map :=
  if cm_contains m key
  then (true, mk_circular_map (delete (key mod N) (slots m)) (count m - 1))
  else (false, m).

Definition cm_overwrite (m : circular_map) (key : Z) (obj : T) : circular_map :=
  let m := match slots m !! (key mod N) with
           | Some (k, _) => (cm_erase m k).2
           | None => m
           end in
  (cm_insert m key obj).2.

(** [operator[]] read: asserts that the key is present. *)
Definition cm_at (m : circular_map) (key : Z) : outcome T :=
  match slots m !! (key mod N) with
  | Some (k, v) => if k =? key then ok v else fail assertion
  | None => fail assertion
  end.

(** A write through the reference returned by [operator[]]. *)
Definition cm_set (m : circular_map) (key : Z) (v : T) : outcome circular_map :=
  if cm_contains m key
  then ok (mk_circular_map (<[key mod N := (key, v)]> (slots m)) (count m))
  else fail assertion.

Definition cm_is_empty (m : circular_map) : bool := count m =? 0.
Definition cm_full (m : circular_map) : bool := count m =? N.

(** [sdu_window_impl::add_sn]: [init] is the value-initialised [T()]. *)
Definition add_sn (init : T) (w : circular_map) (sn : Z) : outcome circular_map :=
  if cm_contains w sn then fail assertion else ok (cm_overwrite w sn init).

Definition remove_sn (w : circular_map) (sn : Z) : outcome circular_map :=
  if cm_contains w sn then ok (cm_erase w sn).2 else fail assertion.

Definition has_sn (w : circular_map) (sn : Z) : bool := cm_contains w sn.

(** ** The finite map that a window represents *)
Definition wget (w : circular_map) (sn : Z) : option T :=
  match slots w !! (sn mod N) with
  | Some (k, v) => if k =? sn then Some v else None
  | None => None
  end.

(** Every element sits in the slot of its key, and [count] counts them. *)
Definition window_wf (w : circular_map) : Prop :=
  (forall idx k v, slots w !! idx = Some (k, v) -> idx = k mod N) /\
  count w = Z.of_nat (size (slots w)).

(** No element other than [sn] itself occupies the slot of [sn]. *)
Definition slot_free (w : circular_map) (sn : Z) : Prop :=
  forall k, is_Some (wget w k) -> k mod N = sn mod N -> k = sn.

Lemma window_wf_empty : window_wf cm_empty.
Proof. split; [intros ??? H|]; simpl in *; [by rewrite lookup_empty in H|done]. Qed.

Lemma wget_empty sn : wget cm_empty sn = None.
Proof. unfold wget; simpl. by rewrite lookup_empty. Qed.

Lemma has_sn_wget w sn : has_sn w sn = bool_decide (is_Some (wget w sn)).
Proof.
  unfold has_sn, cm_contains, wget. destruct (slots w !! _) as [[k v]|]; [|done].
  by destruct (k =? sn).
Qed.

Lemma has_sn_true w sn v : wget w sn = Some v -> has_sn w sn = true.
Proof. intros H. rewrite has_sn_wget, H. done. Qed.

Lemma has_sn_false w sn : wget w sn = None -> has_sn w sn = false.
Proof. intros H. rewrite has_sn_wget, H. done. Qed.

Lemma cm_at_ok w sn v : wget w sn = Some v -> cm_at w sn = ok v.
Proof.
  unfold wget, cm_at. destruct (slots w !! _) as [[k v']|]; [|done].
  destruct (k =? sn); congruence.
Qed.

Lemma wget_slot w sn v : wget w sn = Some v -> slots w !! (sn mod N) = Some (sn, v).
Proof.
  unfold wget. destruct (slots w !! _) as [[k v']|]; [|done].
  destruct (Z.eqb_spec k sn); congruence.
Qed.

Lemma slot_wget w sn v : slots w !! (sn mod N) = Some (sn, v) -> wget w sn = Some v.
Proof. unfold wget. intros ->. by rewrite Z.eqb_refl. Qed.

(** A free slot holds nothing when its own element is absent. *)
Lemma slot_free_None w sn :
  window_wf w -> slot_free w sn -> wget w sn = None -> slots w !! (sn mod N) = None.
Proof.
  intros [Hidx _] Hfree Hn. destruct (slots w !! (sn mod N)) as [[k v]|] eqn:E; [|done].
  pose proof (Hidx _ _ _ E) as Hk. rewrite Hk in E. apply slot_wget in E.
  rewrite (Hfree k) in E by (eauto || done). congruence.
Qed.

Lemma add_sn_ok init w sn :
  window_wf w -> slot_free w sn -> wget w sn = None ->
  exists w', add_sn init w sn = ok w' /\ window_wf w' /\ count w' = count w + 1 /\
    forall k, wget w' k = if decide (k = sn) then Some init else wget w k.
Proof.
  intros Hwf Hfree Hn. pose proof (slot_free_None _ _ Hwf Hfree Hn) as Hs.
  unfold add_sn. rewrite (has_sn_false _ _ Hn : cm_contains w sn = false).
  unfold cm_overwrite, cm_insert. rewrite !Hs; simpl.
  eexists; split; [done|]. destruct Hwf as [Hidx Hc]. split; [split|split]; simpl.
  - intros idx k v. destruct (decide (idx = sn mod N)) as [->|].
    + rewrite lookup_insert_eq. by intros [= <- <-].
    + rewrite lookup_insert_ne by done. apply Hidx.
  - rewrite map_size_insert_None by done. lia.
  - done.
  - intros k. unfold wget; simpl. destruct (decide (k = sn)) as [->|Hne].
    + rewrite lookup_insert_eq. by rewrite Z.eqb_refl.
    + destruct (decide (k mod N = sn mod N)) as [E|E].
      * rewrite E, lookup_insert_eq, Hs. by destruct (Z.eqb_spec sn k); [congruence|].
      * by rewrite lookup_insert_ne.
Qed.

Lemma remove_sn_ok w sn v :
  window_wf w -> wget w sn = Some v ->
  exists w', remove_sn w sn = ok w' /\ window_wf w' /\ count w' = count w - 1 /\
    forall k, wget w' k = if decide (k = sn) then None else wget w k.
Proof.
  intros [Hidx Hc] Hv. pose proof (wget_slot _ _ _ Hv) as Hs.
  unfold remove_sn, cm_erase. rewrite (has_sn_true _ _ _ Hv : cm_contains w sn = true).
  eexists; split; [done|]. simpl. split; [split|split]; simpl.
  - intros idx k x Hx. apply lookup_delete_Some in Hx as [_ Hx]. eauto.
  - assert (size (slots w) <> 0)%nat.
    { intros E%map_size_empty_inv. by rewrite E, lookup_empty in Hs. }
    rewrite map_size_delete, Hs. lia.
  - done.
  - intros k. unfold wget; simpl. destruct (decide (k = sn)) as [->|Hne].
    + by rewrite lookup_delete_eq.
    + destruct (decide (k mod N = sn mod N)) as [E|E].
      * rewrite E, lookup_delete_eq, Hs. by destruct (Z.eqb_spec sn k); [congruence|].
      * by rewrite lookup_delete_ne.
Qed.

(** Without the assumption that the slot is free: its element is overwritten. *)
Lemma add_sn_overwrites init w sn :
  window_wf w -> wget w sn = None ->
  exists w', add_sn init w sn = ok w' /\ window_wf w' /\
    forall k, wget w' k = if decide (k = sn) then Some init else if decide (k mod N = sn mod N) then None else wget w k.
Proof.
  intros Hwf Hn. destruct (slots w !! (sn mod N)) as [[k0 v0]|] eqn:E.
  - pose proof (proj1 Hwf _ _ _ E) as Hk0. assert (Hv0 : wget w k0 = Some v0) by (apply slot_wget; by rewrite <- Hk0).
    destruct (remove_sn_ok w k0 v0 Hwf Hv0) as (w1 & Hr & Hwf1 & _ & Hget1).
    assert (Hfree : slot_free w1 sn).
    { intros k [v Hv] Hk. rewrite Hget1 in Hv. destruct (decide (k = k0)) as [->|Hne]; [done|].
      apply wget_slot in Hv as Hs. pose proof (wget_slot _ _ _ Hv0) as Hs0.
      assert (Hs' : wget w k = Some v) by done. apply wget_slot in Hs'. rewrite <- Hk0, Hk in *. rewrite E in Hs'. congruence. }
    assert (Hn1 : wget w1 sn = None) by (rewrite Hget1; by destruct (decide (sn = k0))).
    destruct (add_sn_ok init w1 sn Hwf1 Hfree Hn1) as (w2 & Ha & Hwf2 & _ & Hget2). exists w2. split_and!.
    + unfold remove_sn in Hr. destruct (cm_contains w k0) eqn:Hc; [|done]. injection Hr as Hr.
      unfold add_sn in *. rewrite (has_sn_false _ _ Hn : cm_contains w sn = false).
      rewrite (has_sn_false _ _ Hn1 : cm_contains w1 sn = false) in Ha. injection Ha as <-.
      pose proof (slot_free_None _ _ Hwf1 Hfree Hn1) as Hs1. unfold cm_overwrite. by rewrite E, Hs1, Hr.
    + done.
    + intros k. rewrite Hget2, Hget1. destruct (decide (k = sn)); [done|]. destruct (decide (k = k0)) as [->|Hne].
      * by rewrite decide_True.
      * destruct (decide (k mod N = sn mod N)) as [Hk|]; [|done].
        destruct (wget w k) as [v|] eqn:Hv; [|done]. apply wget_slot in Hv. rewrite Hk, E in Hv. congruence.
  - assert (Hfree : slot_free w sn) by (intros k [v Hv%wget_slot] Hk; rewrite Hk in Hv; congruence).
    destruct (add_sn_ok init w sn Hwf Hfree Hn) as (w' & ? & ? & _ & Hget). exists w'. split_and!; try done.
    intros k. rewrite Hget. destruct (decide (k = sn)); [done|]. destruct (decide (k mod N = sn mod N)) as [Hk|]; [|done].
    destruct (wget w k) as [v|] eqn:Hv; [|done]. apply wget_slot in Hv. rewrite Hk, E in Hv. congruence.
Qed.

Lemma cm_set_ok w sn v x :
  window_wf w -> wget w sn = Some x ->
  exists w', cm_set w sn v = ok w' /\ window_wf w' /\ count w' = count w /\
    forall k, wget w' k = if decide (k = sn) then Some v else wget w k.
Proof.
  intros [Hidx Hc] Hx. pose proof (wget_slot _ _ _ Hx) as Hs.
  unfold cm_set. rewrite (has_sn_true _ _ _ Hx : cm_contains w sn = true).
  eexists; split; [done|]. split; [split|split]; simpl.
  - intros idx k y. destruct (decide (idx = sn mod N)) as [->|].
    + rewrite lookup_insert_eq. by intros [= <- <-].
    + rewrite lookup_insert_ne by done. apply Hidx.
  - rewrite map_size_insert_Some by eauto. done.
  - done.
  - intros k. unfold wget; simpl. destruct (decide (k = sn)) as [->|Hne].
    + rewrite lookup_insert_eq. by rewrite Z.eqb_refl.
    + destruct (decide (k mod N = sn mod N)) as [E|E].
      * rewrite E, lookup_insert_eq, Hs. by destruct (Z.eqb_spec sn k); [congruence|].
      * by rewrite lookup_insert_ne.
Qed.
End circular_map.
Arguments circular_map T : clear implicits.
Arguments mk_circular_map {T}.
Arguments cm_empty {T}.

(** ** Windows of a sequence number space *)
Section window.
Context {m W : Z} {HSN : SnSpace m W} {T : Type}.

(** Every stored sequence number lies within [W] of the base [b]. *)
Definition window_in (b : Z) (w : circular_map T) : Prop :=
  forall k, is_Some (wget W w k) -> 0 <= k < m /\ sn_dist m b k < W.

Lemma window_in_slot_free b w sn :
  window_in b w -> 0 <= sn < m -> sn_dist m b sn < W -> slot_free W w sn.
Proof using HSN.
  intros Hin Hsn Hd k Hk E. destruct (Hin k Hk). by apply (sn_slot_inj b).
Qed.

Lemma window_add init b w sn :
  window_wf W w -> window_in b w -> 0 <= sn < m -> sn_dist m b sn < W ->
  wget W w sn = None ->
  exists w', add_sn W init w sn = ok w' /\ window_wf W w' /\ count w' = count w + 1 /\
    forall k, wget W w' k = if decide (k = sn) then Some init else wget W w k.
Proof using HSN.
  intros Hwf Hin Hsn Hd Hn. apply add_sn_ok; [done| |done].
  by eapply window_in_slot_free.
Qed.
End window.

(** ** The window as a finite map *)
Section refinement.
Context {m W : Z} {HSN : SnSpace m W} {T : Type}.

(** [w] represents the map [g] of the sequence numbers in the window from [b]. *)
Record represents (b : Z) (w : circular_map T) (g : gmap Z T) : Prop := {
  rep_wf : window_wf W w;
  rep_in : window_in (m := m) (W := W) b w;
  rep_get : forall k, wget W w k = g !! k;
  rep_count : count w = Z.of_nat (size g)
}.

(** What [sdu_window] promises for one sequence number. *)
Definition refines_map_at (init : T) (b : Z) (w : circular_map T) (g : gmap Z T) (sn : Z) : Prop :=
  has_sn W w sn = bool_decide (is_Some (g !! sn)) /\
  match g !! sn with
  | None =>
      (exists w', add_sn W init w sn = ok w' /\ represents b w' (<[sn := init]> g)) /\
      remove_sn W w sn = fail assertion /\ cm_at W w sn = fail assertion /\
      (forall v, cm_set W w sn v = fail assertion)
  | Some x =>
      add_sn W init w sn = fail assertion /\
      (exists w', remove_sn W w sn = ok w' /\ represents b w' (delete sn g)) /\
      cm_at W w sn = ok x /\
      (forall v, exists w', cm_set W w sn v = ok w' /\ represents b w' (<[sn := v]> g))
  end.

Lemma represents_empty b : represents b cm_empty ∅.
Proof.
  split; [apply window_wf_empty| |by intros k; rewrite wget_empty|done].
  intros k Hk. rewrite wget_empty in Hk. by destruct Hk.
Qed.
End refinement.

(** Within one window of sequence numbers, [sdu_window] behaves as a finite map:
    whatever the window holds, lookups, additions, removals and updates answer as the map does,
    and the operations that the map does not allow (adding a present element, removing or
    reading an absent one) fail their assertion. *)
Theorem sdu_window_refines_map {m W : Z} {HSN : SnSpace m W} {T : Type} (init : T) b w g sn :
  represents (m := m) (W := W) b w g -> 0 <= sn < m -> sn_dist m b sn < W ->
  refines_map_at (m := m) (W := W) init b w g sn.
Proof.
  intros [Hwf Hin Hget Hcount] Hsn Hd. unfold refines_map_at. pose proof (Hget sn) as Hg.
  split; [by rewrite has_sn_wget, Hg|]. destruct (g !! sn) as [x|] eqn:E.
  - pose proof (has_sn_true _ _ _ _ Hg) as Hh. unfold has_sn in Hh.
    split; [unfold add_sn; by rewrite Hh|]. split.
    { destruct (remove_sn_ok _ _ _ _ Hwf Hg) as (w' & Hr & Hwf' & Hc & Hget').
      exists w'. split; [done|]. split; [done| | |].
      - intros k Hk. rewrite Hget' in Hk. destruct (decide (k = sn)); [by destruct Hk|auto].
      - intros k. rewrite Hget'. destruct (decide (k = sn)) as [->|].
        + by rewrite lookup_delete_eq.
        + by rewrite lookup_delete_ne.
      - rewrite map_size_delete_Some by eauto. rewrite Hc, Hcount.
        assert (size g <> 0%nat); [|lia]. rewrite map_size_non_empty_iff. intros ->. by rewrite lookup_empty in E. }
    split; [by apply cm_at_ok|]. intros v.
    destruct (cm_set_ok _ _ _ v _ Hwf Hg) as (w' & Hr & Hwf' & Hc & Hget').
    exists w'. split; [done|]. split; [done| | |].
    + intros k Hk. rewrite Hget' in Hk. destruct (decide (k = sn)) as [->|]; [done|auto].
    + intros k. rewrite Hget'. destruct (decide (k = sn)) as [->|].
      * by rewrite lookup_insert_eq.
      * by rewrite lookup_insert_ne.
    + rewrite map_size_insert_Some by eauto. lia.
  - pose proof (has_sn_false _ _ _ Hg) as Hh. unfold has_sn in Hh. split.
    { destruct (window_add init b w sn Hwf Hin Hsn Hd Hg) as (w' & Hr & Hwf' & Hc & Hget').
      exists w'. split; [done|]. split; [done| | |].
      - intros k Hk. rewrite Hget' in Hk. destruct (decide (k = sn)) as [->|]; [done|auto].
      - intros k. rewrite Hget'. destruct (decide (k = sn)) as [->|].
        + by rewrite lookup_insert_eq.
        + by rewrite lookup_insert_ne.
      - rewrite map_size_insert_None by done. lia. }
    split; [unfold remove_sn; by rewrite Hh|]. unfold wget in Hg. split.
    + unfold cm_at. destruct (slots w !! _) as [[k v]|]; [|done]. by destruct (k =? sn).
    + intros v. unfold cm_set. by rewrite Hh.
Qed.

#[export] Instance sn_space_8 : SnSpace 8 4.
Proof. split; [lia|lia|]. by exists (2 ^ 29). Defined.

Lemma sdu_window_refines_map_witness :
  refines_map_at (m := 8) (W := 4) 0 6 cm_empty ∅ 1.
Proof. apply (sdu_window_refines_map (m := 8) (W := 4) 0 6 cm_empty ∅ 1); [apply represents_empty|lia|vm_compute; done]. Defined.
