(* ===== verification/BitEncoding.v ===== *)
(** * Bit encoder and decoder

    [bit_encoder] and [bit_decoder] of [include/srsran/support/bit_encoding.h] and
    [lib/support/bit_encoding.cpp]: bit fields written to and read from a byte
    buffer, most significant bit first. The buffer is a list of octets; [offset]
    is the number of bits used in its last octet, or read of its first one.

    The specification is arithmetic: what was written so far is one number, and
    [pack v n] appends [n] binary digits to it. *)

From S2P Require Import Prelude.

Record bit_encoder := mk_encoder { enc_bytes : bytes; enc_offset : Z }.

Definition encoder_init (l : bytes) : bit_encoder := mk_encoder l 0.

(** [writer.back() += x] *)
Definition add_to_back (l : bytes) (x : Z) : bytes :=
  match last l with
  | Some b => removelast l ++ [u8 (b + x)]
  | None => l
  end.

(** [append_ok]: whether the buffer can grow; [bit_encoder::pack] returns false
    when it cannot. *)
Section bit_encoder.
Context (append_ok : bytes -> bool).

Fixpoint pack_loop (fuel : nat) (e : bit_encoder) (val n_bits : Z) : outcome (bool * bit_encoder) :=
  match fuel with
  | O => fail out_of_fuel
  | S fuel =>
      if negb (0 <? n_bits) then ok (true, e)
      else if (enc_offset e =? 0) && negb (append_ok (enc_bytes e)) then ok (false, e)
      else
        let l := if enc_offset e =? 0 then enc_bytes e ++ [0] else enc_bytes e in
        let val := if n_bits <? 64 then Z.land val (2 ^ n_bits - 1) else val in
        if n_bits <? 8 - enc_offset e then
          let shifted_val := u8 (Z.shiftl val (8 - enc_offset e - n_bits)) in
          pack_loop fuel (mk_encoder (add_to_back l shifted_val) (enc_offset e + n_bits)) val 0
        else
          let shifted_val := u8 (Z.shiftr val (n_bits - 8 + enc_offset e)) in
          pack_loop fuel (mk_encoder (add_to_back l shifted_val) 0) val (n_bits - (8 - enc_offset e))
  end.

Definition bit_encoder_pack (e : bit_encoder) (val n_bits : Z) : outcome (bool * bit_encoder) :=
  _ ← srsran_assert (n_bits <=? 64);
  pack_loop (S (Z.to_nat n_bits)) e val n_bits.
End bit_encoder.

Definition align_bytes_zero (e : bit_encoder) : bit_encoder := mk_encoder (enc_bytes e) 0.

(** [bit_decoder]: [dec_bytes] are the octets from the iterator on. *)
Record bit_decoder := mk_decoder { dec_bytes : bytes; dec_offset : Z }.

Definition decoder_init (l : bytes) : bit_decoder := mk_decoder l 0.

(** The loop of [unpack]: [None] is the return value false. *)
Fixpoint unpack_loop (fuel : nat) (d : bit_decoder) (val n_bits : Z) : outcome (option Z * bit_decoder) :=
  match fuel with
  | O => fail out_of_fuel
  | S fuel =>
      if negb (0 <? n_bits) then ok (Some val, d)
      else match dec_bytes d with
      | [] => ok (None, d)
      | b :: rest =>
          let offset := dec_offset d in
          if n_bits <? 8 - offset then
            let mask := u8 (u8 (Z.shiftl 1 (8 - offset)) - u8 (Z.shiftl 1 (8 - offset - n_bits))) in
            unpack_loop fuel (mk_decoder (b :: rest) (offset + n_bits))
              (val + Z.shiftr (Z.land b mask) (8 - offset - n_bits)) 0
          else
            let mask := u8 (Z.shiftl 1 (8 - offset) - 1) in
            unpack_loop fuel (mk_decoder rest 0)
              (val + Z.shiftl (Z.land b mask) (n_bits - 8 + offset)) (n_bits - (8 - offset))
      end
  end.

(** [unpack] into a variable of [width] bits. *)
Definition bit_decoder_unpack (width : Z) (d : bit_decoder) (n_bits : Z)
    : outcome (option Z * bit_decoder) :=
  _ ← srsran_assert (n_bits <=? width);
  unpack_loop (S (Z.to_nat n_bits)) d 0 n_bits.

(** What [unpack] leaves in its reference argument: when it runs out of octets it returns false, and what it
    has read so far stays in [val]. *)
Fixpoint unpack_val_loop (fuel : nat) (d : bit_decoder) (val n_bits : Z) : outcome (bool * Z * bit_decoder) :=
  match fuel with
  | O => fail out_of_fuel
  | S fuel =>
      if negb (0 <? n_bits) then ok (true, val, d)
      else match dec_bytes d with
      | [] => ok (false, val, d)
      | b :: rest =>
          let offset := dec_offset d in
          if n_bits <? 8 - offset then
            let mask := u8 (u8 (Z.shiftl 1 (8 - offset)) - u8 (Z.shiftl 1 (8 - offset - n_bits))) in
            unpack_val_loop fuel (mk_decoder (b :: rest) (offset + n_bits))
              (val + Z.shiftr (Z.land b mask) (8 - offset - n_bits)) 0
          else
            let mask := u8 (Z.shiftl 1 (8 - offset) - 1) in
            unpack_val_loop fuel (mk_decoder rest 0)
              (val + Z.shiftl (Z.land b mask) (n_bits - 8 + offset)) (n_bits - (8 - offset))
      end
  end.

Definition bit_decoder_unpack_val (width : Z) (d : bit_decoder) (n_bits : Z) : outcome (bool * Z * bit_decoder) :=
  srsran_assert (n_bits <=? width);; unpack_val_loop (S (Z.to_nat n_bits)) d 0 n_bits.

Lemma unpack_val_loop_unpack fuel d val n :
  unpack_loop fuel d val n = ('(found, val, d) ← unpack_val_loop fuel d val n; ok (if found : bool then Some val else None, d)).
Proof.
  revert d val n. induction fuel as [|fuel IH]; intros d val n; [done|]. simpl.
  destruct (negb (0 <? n)); [done|]. destruct (dec_bytes d) as [|x rest]; [done|]. by destruct (n <? _).
Qed.

Definition advance_bits (d : bit_decoder) (n_bits : Z) : bool * bit_decoder :=
  let extra_bits := (dec_offset d + n_bits) mod 8 in
  let bytes_required := (dec_offset d + n_bits + 7) / 8 in
  let bytes_offset := (dec_offset d + n_bits) / 8 in
  if zlen (dec_bytes d) <? bytes_required then (false, d)
  else (true, mk_decoder (drop (Z.to_nat bytes_offset) (dec_bytes d)) extra_bits).

(** ** Specification *)

(** The octets as one number, most significant first. *)
Definition be_value (l : bytes) : Z := foldl (fun acc b => acc * 256 + b) 0 l.

(** The bits of an encoder: how many, and their value. *)
Definition enc_nbits (e : bit_encoder) : Z :=
  8 * (zlen (enc_bytes e) - (if enc_offset e =? 0 then 0 else 1)) + enc_offset e.
Definition enc_pad (e : bit_encoder) : Z := (- enc_offset e) mod 8.
Definition enc_value (e : bit_encoder) : Z := be_value (enc_bytes e) / 2 ^ enc_pad e.

(** Octets, and zeros in the unused part of the last one. *)
Record encoder_wf (e : bit_encoder) : Prop := {
  ew_bytes : is_bytes (enc_bytes e);
  ew_offset : 0 <= enc_offset e < 8;
  ew_nonempty : enc_offset e <> 0 -> enc_bytes e <> [];
  ew_pad : be_value (enc_bytes e) mod 2 ^ enc_pad e = 0
}.

(** The bits a decoder has left: how many, and their value. *)
Definition dec_nbits (d : bit_decoder) : Z := 8 * zlen (dec_bytes d) - dec_offset d.
Definition dec_value (d : bit_decoder) : Z := be_value (dec_bytes d) mod 2 ^ dec_nbits d.

Record decoder_wf (d : bit_decoder) : Prop := {
  dw_bytes : is_bytes (dec_bytes d);
  dw_offset : 0 <= dec_offset d < 8;
  dw_nonempty : dec_offset d <> 0 -> dec_bytes d <> []
}.

(** ** Lemmas *)

Lemma foldl_be_value l acc :
  foldl (fun acc b => acc * 256 + b) acc l = acc * 2 ^ (8 * zlen l) + be_value l.
Proof.
  unfold be_value. revert acc. induction l as [|b l IH]; intros acc; [simpl; lia|].
  cbn [foldl length]. rewrite (IH (acc * 256 + b)), (IH (0 * 256 + b)).
  replace (8 * Z.of_nat (S (length l))) with (8 * zlen l + 8) by lia.
  rewrite Z.pow_add_r by lia. lia.
Qed.

Lemma be_value_app l1 l2 : be_value (l1 ++ l2) = be_value l1 * 2 ^ (8 * zlen l2) + be_value l2.
Proof. unfold be_value at 1. rewrite foldl_app. apply foldl_be_value. Qed.

Lemma be_value_cons b l : be_value (b :: l) = b * 2 ^ (8 * zlen l) + be_value l.
Proof. apply (be_value_app [b] l). Qed.

Lemma be_value_snoc l b : be_value (l ++ [b]) = be_value l * 256 + b.
Proof. rewrite be_value_app. unfold be_value at 2. simpl. lia. Qed.

Lemma be_value_range l : is_bytes l -> 0 <= be_value l < 2 ^ (8 * zlen l).
Proof.
  induction l as [|b l IH] using rev_ind; intros H; [vm_compute; split; congruence|].
  apply Forall_app in H as [Hl Hb%Forall_inv]. specialize (IH Hl).
  rewrite be_value_snoc, length_app. simpl. unfold is_byte in Hb.
  replace (8 * Z.of_nat (length l + 1)) with (8 * zlen l + 8) by lia.
  rewrite Z.pow_add_r by lia. lia.
Qed.

Lemma add_to_back_snoc l b x : add_to_back (l ++ [b]) x = l ++ [u8 (b + x)].
Proof. unfold add_to_back. by rewrite last_snoc, removelast_last. Qed.

(** An encoder with room in its last octet: [V * 2 ^ k] is the value of the
    buffer, [k] the number of free bits. *)
Lemma prepared e :
  encoder_wf e ->
  let l := if enc_offset e =? 0 then enc_bytes e ++ [0] else enc_bytes e in
  let k := 8 - enc_offset e in
  exists l0 b, l = l0 ++ [b] /\ is_bytes l0 /\ 0 <= b /\ b + 2 ^ k <= 256 /\
    be_value l = enc_value e * 2 ^ k /\ zlen l0 * 8 + enc_offset e = enc_nbits e.
Proof.
  intros [Hb Ho Hne Hpad] l k. unfold enc_value, enc_pad, enc_nbits in *.
  destruct (Z.eqb_spec (enc_offset e) 0) as [E|E].
  - exists (enc_bytes e), 0. unfold l, k. rewrite E, be_value_snoc. simpl. rewrite Z.div_1_r.
    split_and!; try done; lia.
  - replace ((- enc_offset e) mod 8) with k in * by (unfold k; divmod).
    assert (Hk : 1 <= k <= 7) by (unfold k; lia).
    destruct (enc_bytes e) as [|b l0 _] eqn:El using rev_ind; [by destruct (Hne E)|].
    exists l0, b. apply Forall_app in Hb as [Hl0 Hb%Forall_inv]. unfold is_byte in Hb.
    assert (H2 : 2 ^ k * 2 ^ (8 - k) = 256) by (rewrite <- Z.pow_add_r by lia; by replace (k + (8 - k)) with 8 by lia).
    assert (0 < 2 ^ k) by (apply Z.pow_pos_nonneg; lia).
    rewrite be_value_snoc, <- H2 in Hpad.
    replace (be_value l0 * (2 ^ k * 2 ^ (8 - k)) + b) with (b + (be_value l0 * 2 ^ (8 - k)) * 2 ^ k) in Hpad by lia.
    rewrite Z.mod_add in Hpad by lia.
    assert (Hq : b / 2 ^ k < 2 ^ (8 - k)) by (apply Z.div_lt_upper_bound; lia).
    pose proof (Z.div_mod b (2 ^ k) ltac:(lia)) as Hdm.
    split_and!; try done; try lia.
    + nia.
    + unfold l. rewrite be_value_snoc, <- H2.
      replace (be_value l0 * (2 ^ k * 2 ^ (8 - k)) + b) with (b + (be_value l0 * 2 ^ (8 - k)) * 2 ^ k) by lia.
      rewrite Z.div_add by lia. nia.
    + rewrite length_app. simpl. lia.
Qed.

Lemma mod_split v n k :
  0 <= k <= n -> v mod 2 ^ n = (v mod 2 ^ n) / 2 ^ (n - k) * 2 ^ (n - k) + v mod 2 ^ (n - k).
Proof.
  intros. assert (0 < 2 ^ (n - k)) by (apply Z.pow_pos_nonneg; lia).
  rewrite (Z.div_mod (v mod 2 ^ n) (2 ^ (n - k))) at 1 by lia.
  replace (2 ^ n) with (2 ^ (n - k) * 2 ^ k) at 2
    by (rewrite <- Z.pow_add_r by lia; f_equal; lia).
  assert (0 < 2 ^ k) by (apply Z.pow_pos_nonneg; lia).
  rewrite Z.rem_mul_r by lia.
  rewrite (Z.mul_comm (2 ^ (n - k)) (_ mod 2 ^ k)), Z.mod_add by lia. rewrite Z.mod_mod by lia. lia.
Qed.

Lemma pack_loop_ok fuel e val n :
  encoder_wf e -> 0 <= n <= 64 -> 0 <= val < 2 ^ 64 -> (Z.to_nat n < fuel)%nat ->
  exists e', pack_loop (fun _ => true) fuel e val n = ok (true, e') /\ encoder_wf e' /\
    enc_nbits e' = enc_nbits e + n /\ enc_value e' = enc_value e * 2 ^ n + val mod 2 ^ n.
Proof.
  revert e val n. induction fuel as [|fuel IH]; intros e val n He Hn Hval Hf; [lia|]. simpl.
  destruct (Z.ltb_spec 0 n) as [Hpos|]; simpl.
  2:{ exists e. replace n with 0 by lia. change (2 ^ 0) with 1. rewrite Z.mod_1_r.
      split_and!; try done; lia. }
  rewrite andb_false_r.
  assert (Hv : (if n <? 64 then Z.land val (2 ^ n - 1) else val) = val mod 2 ^ n).
  { destruct (Z.ltb_spec n 64); [apply land_mask; lia|]. replace n with 64 by lia.
    by rewrite Z.mod_small. }
  rewrite Hv. clear Hv. set (v := val mod 2 ^ n).
  assert (Hvr : 0 <= v < 2 ^ n) by (apply Z.mod_pos_bound; lia).
  assert (2 ^ n <= 2 ^ 64) by (apply Z.pow_le_mono_r; lia).
  destruct (prepared e He) as (l0 & b & El & Hl0 & Hb0 & Hb1 & Hval0 & Hnb).
  pose proof (ew_offset _ He) as Ho. set (l := if enc_offset e =? 0 then _ else _) in *.
  assert (Hadd : forall x, 0 <= x < 2 ^ (8 - enc_offset e) ->
    add_to_back l x = l0 ++ [b + x] /\ be_value (l0 ++ [b + x]) = enc_value e * 2 ^ (8 - enc_offset e) + x /\
    is_bytes (l0 ++ [b + x])).
  { intros x Hx. rewrite El, add_to_back_snoc. unfold u8. rewrite Z.mod_small by lia.
    split_and!; [done| |apply Forall_app; split; [done|]; constructor; [unfold is_byte; lia|constructor]].
    rewrite <- Hval0, El, !be_value_snoc. lia. }
  destruct (Z.ltb_spec n (8 - enc_offset e)) as [Hlt|Hge].
  - set (k := 8 - enc_offset e - n). set (x := Z.shiftl v k).
    assert (Ex : x = v * 2 ^ k) by (apply Z.shiftl_mul_pow2; unfold k; lia).
    assert (E2 : 2 ^ (8 - enc_offset e) = 2 ^ n * 2 ^ k)
      by (rewrite <- Z.pow_add_r by (unfold k; lia); f_equal; unfold k; lia).
    assert (Hk : 0 < 2 ^ k) by (apply Z.pow_pos_nonneg; unfold k; lia).
    assert (Hx : 0 <= x < 2 ^ (8 - enc_offset e)) by (rewrite Ex, E2; nia).
    assert (Hu : u8 x = x).
    { apply Z.mod_small. split; [lia|]. eapply Z.lt_le_trans; [apply Hx|].
      apply (Z.pow_le_mono_r 2 _ 8); lia. }
    rewrite Hu. destruct (Hadd x Hx) as (-> & Ev & Hbytes).
    assert (Hpad : enc_pad (mk_encoder (l0 ++ [b + x]) (enc_offset e + n)) = k)
      by (unfold enc_pad, k; simpl; divmod).
    assert (Hval' : be_value (l0 ++ [b + x]) = (enc_value e * 2 ^ n + v) * 2 ^ k) by (rewrite Ev, Ex, E2; lia).
    destruct fuel as [|fuel]; [lia|]. simpl. eexists. split; [done|]. split_and!.
    + constructor; [done|simpl; lia|by intros _; destruct l0|]. rewrite Hpad. simpl. rewrite Hval'.
      apply Z.mod_mul. lia.
    + unfold enc_nbits in *. simpl. rewrite length_app. simpl. zfalse. lia.
    + unfold enc_value at 1. rewrite Hpad. simpl. rewrite Hval'. apply Z.div_mul. lia.
  - set (k := 8 - enc_offset e) in *. set (x := Z.shiftr v (n - 8 + enc_offset e)).
    assert (Ex : x = v / 2 ^ (n - k)) by (unfold x, k; rewrite Z.shiftr_div_pow2 by lia; f_equal; f_equal; lia).
    assert (E2 : 2 ^ n = 2 ^ k * 2 ^ (n - k)) by (rewrite <- Z.pow_add_r by lia; f_equal; lia).
    assert (Hk : 0 < 2 ^ (n - k)) by (apply Z.pow_pos_nonneg; lia).
    assert (Hx : 0 <= x < 2 ^ k).
    { rewrite Ex. split; [apply Z.div_pos; lia|]. apply Z.div_lt_upper_bound; lia. }
    assert (Hu : u8 x = x).
    { apply Z.mod_small. split; [lia|]. eapply Z.lt_le_trans; [apply Hx|].
      apply (Z.pow_le_mono_r 2 _ 8); unfold k; lia. }
    rewrite Hu. destruct (Hadd x Hx) as (-> & Ev & Hbytes).
    destruct (IH (mk_encoder (l0 ++ [b + x]) 0) v (n - k)) as (e' & E & He' & N' & V'); [|lia|lia|lia|].
    { constructor; [done|simpl; lia|done|]. unfold enc_pad. simpl. apply Z.mod_1_r. }
    exists e'. rewrite E. split_and!; try done.
    + rewrite N'. unfold enc_nbits in *. simpl. rewrite length_app. simpl. lia.
    + rewrite V'. unfold enc_value at 1, enc_pad. simpl. rewrite Z.div_1_r, Ev.
      assert (Em : v mod 2 ^ (n - k) = val mod 2 ^ (n - k)).
      { unfold v. rewrite E2, (Z.mul_comm (2 ^ k)). rewrite Z.rem_mul_r by lia.
        rewrite (Z.mul_comm (2 ^ (n - k)) (_ mod 2 ^ k)), Z.mod_add, Z.mod_mod by lia. done. }
      pose proof (mod_split val n k ltac:(lia)) as Hs. fold v in Hs. rewrite <- Ex in Hs.
      rewrite E2, Em. nia.
Qed.

(** The bits of [b] from position [lo] up to [hi]. *)
Lemma land_field b lo hi :
  0 <= lo <= hi -> Z.shiftr (Z.land b (2 ^ hi - 2 ^ lo)) lo = (b mod 2 ^ hi) / 2 ^ lo.
Proof.
  intros H. rewrite <- Z.shiftr_div_pow2 by lia.
  assert (E : 2 ^ hi - 2 ^ lo = Z.shiftl (Z.ones (hi - lo)) lo).
  { rewrite Z.shiftl_mul_pow2, Z.ones_equiv, <- Z.sub_1_r, Z.mul_sub_distr_r, <- Z.pow_add_r by lia.
    f_equal; [f_equal|]; lia. }
  rewrite E. apply Z.bits_inj'. intros i Hi.
  rewrite !Z.shiftr_spec, Z.land_spec, Z.shiftl_spec by lia.
  replace (i + lo - lo) with i by lia.
  destruct (decide (i < hi - lo)).
  - rewrite Z.ones_spec_low, andb_true_r by lia. by rewrite Z.mod_pow2_bits_low by lia.
  - rewrite Z.ones_spec_high, andb_false_r by lia. by rewrite Z.mod_pow2_bits_high by lia.
Qed.

(** The first octet of a decoder. *)
Lemma dec_first b rest off :
  is_byte b -> is_bytes rest -> 0 <= off < 8 ->
  let r := be_value rest in
  dec_value (mk_decoder (b :: rest) off) = b mod 2 ^ (8 - off) * 2 ^ (8 * zlen rest) + r /\
  0 <= r < 2 ^ (8 * zlen rest) /\
  dec_nbits (mk_decoder (b :: rest) off) = 8 * zlen rest + (8 - off).
Proof.
  intros Hb Hrest Ho r. unfold dec_value, dec_nbits, r. simpl dec_bytes. simpl dec_offset.
  pose proof (be_value_range rest Hrest) as Hr. rewrite be_value_cons, length_cons.
  replace (8 * Z.of_nat (S (length rest)) - off) with (8 * zlen rest + (8 - off)) by lia.
  split_and!; try lia. assert (0 < 2 ^ (8 - off)) by (apply Z.pow_pos_nonneg; lia).
  rewrite Z.pow_add_r by lia. rewrite Z.rem_mul_r by lia.
  rewrite (Z.add_comm (b * _)). rewrite Z.mod_add by lia. rewrite (Z.mod_small (be_value rest)) by lia.
  rewrite Z.div_add by lia. rewrite (Z.div_small (be_value rest)), Z.add_0_l by lia. lia.
Qed.

(** Reading [n] bits takes the [n] leading digits of what is left; it fails exactly
    when fewer are left. *)
Definition unpack_post (d : bit_decoder) (val n : Z) (r : option Z * bit_decoder) : Prop :=
  if n <=? dec_nbits d then
    exists d', r = (Some (val + dec_value d / 2 ^ (dec_nbits d - n)), d') /\ decoder_wf d' /\
      dec_nbits d' = dec_nbits d - n /\ dec_value d' = dec_value d mod 2 ^ (dec_nbits d - n)
  else r.1 = None /\ decoder_wf r.2.

Lemma unpack_loop_ok fuel d val n :
  decoder_wf d -> 0 <= n -> (Z.to_nat n < fuel)%nat ->
  exists r, unpack_loop fuel d val n = ok r /\ unpack_post d val n r.
Proof.
  revert d val n. induction fuel as [|fuel IH]; intros d val n Hd Hn Hf; [lia|]. simpl.
  unfold unpack_post. pose proof Hd as [Hb Ho Hne]. destruct d as [l off]; simpl in Hb, Ho, Hne.
  destruct (Z.ltb_spec 0 n) as [Hpos|]; simpl.
  2:{ eexists. split; [done|]. replace n with 0 by lia.
      assert (0 <= dec_nbits (mk_decoder l off)).
      { unfold dec_nbits; simpl. destruct l; simpl; [|lia].
        destruct (decide (off = 0)); [lia|]. by destruct Hne. }
      ztrue. exists (mk_decoder l off). rewrite Z.sub_0_r.
      assert (0 <= dec_value (mk_decoder l off) < 2 ^ dec_nbits (mk_decoder l off))
        by (apply Z.mod_pos_bound, Z.pow_pos_nonneg; lia).
      rewrite Z.div_small, Z.mod_small, Z.add_0_r by lia. done. }
  destruct l as [|b rest].
  { eexists. split; [done|]. unfold dec_nbits; simpl. zfalse. done. }
  apply Forall_cons in Hb as [Hb Hrest].
  destruct (dec_first b rest off Hb Hrest Ho) as (Ev & Hr & Enb).
  set (r := be_value rest) in *. set (L := 8 * zlen rest) in *.
  assert (0 < 2 ^ L) by (apply Z.pow_pos_nonneg; unfold L; lia).
  destruct (Z.ltb_spec n (8 - off)) as [Hlt|Hge].
  - destruct fuel as [|fuel]; [lia|]. simpl. eexists. split; [done|]. rewrite Enb.
    unfold L at 1. ztrue. fold L.
    eexists. split; [|split_and!].
    + f_equal. f_equal. f_equal. rewrite Ev.
      assert (Em : u8 (u8 (Z.shiftl 1 (8 - off)) - u8 (Z.shiftl 1 (8 - off - n))) = 2 ^ (8 - off) - 2 ^ (8 - off - n)).
      { rewrite !Z.shiftl_1_l. unfold u8.
        assert (2 ^ (8 - off - n) < 2 ^ (8 - off)) by (apply Z.pow_lt_mono_r; lia).
        assert (2 ^ (8 - off) <= 2 ^ 8) by (apply Z.pow_le_mono_r; lia).
        assert (0 < 2 ^ (8 - off - n)) by (apply Z.pow_pos_nonneg; lia).
        rewrite (Z.mod_small (2 ^ (8 - off - n))) by lia.
        destruct (decide (off = 0)) as [->|]; [change (2 ^ (8 - 0)) with 256; change (256 mod 2 ^ 8) with 0|].
        - change (2 ^ (8 - 0)) with 256 in *. change (2 ^ 8) with 256 in *.
          rewrite <- (Z.mod_small (256 - 2 ^ (8 - 0 - n)) 256) by lia.
          rewrite <- (Z.mod_add (0 - _) 1) by lia. f_equal. lia.
        - assert (2 ^ (8 - off) < 2 ^ 8) by (apply Z.pow_lt_mono_r; lia).
          rewrite !Z.mod_small by (rewrite ?Z.mod_small by lia; lia). done. }
      rewrite Em, land_field by lia.
      replace (L + (8 - off) - n) with (L + (8 - off - n)) by lia.
      assert (0 < 2 ^ (8 - off - n)) by (apply Z.pow_pos_nonneg; lia).
      rewrite Z.pow_add_r, <- Z.div_div by (lia || unfold L; lia).
      rewrite Z.div_add_l, (Z.div_small r) by lia. by rewrite Z.add_0_r.
    + constructor; simpl; [by constructor|lia|done].
    + destruct (dec_first b rest (off + n) Hb Hrest ltac:(lia)) as (_ & _ & ->). fold L. lia.
    + destruct (dec_first b rest (off + n) Hb Hrest ltac:(lia)) as (-> & _ & _). fold L r. rewrite Ev.
      replace (L + (8 - off) - n) with (L + (8 - (off + n))) by lia.
      assert (0 < 2 ^ (8 - (off + n))) by (apply Z.pow_pos_nonneg; lia).
      rewrite Z.pow_add_r, Z.rem_mul_r by (lia || unfold L; lia).
      rewrite (Z.add_comm (b mod 2 ^ (8 - off) * 2 ^ L)), Z.mod_add, (Z.mod_small r), Z.div_add, (Z.div_small r) by lia.
      rewrite Z.add_0_l.
      replace (8 - off) with ((8 - (off + n)) + n) at 1 by lia.
      rewrite Z.pow_add_r by lia. assert (0 < 2 ^ n) by (apply Z.pow_pos_nonneg; lia).
      rewrite Z.rem_mul_r by lia.
      rewrite (Z.mul_comm (2 ^ (8 - (off + n))) (_ mod 2 ^ n)), Z.mod_add, Z.mod_mod by lia. lia.
  - assert (Em : u8 (Z.shiftl 1 (8 - off) - 1) = 2 ^ (8 - off) - 1).
    { rewrite Z.shiftl_1_l. unfold u8. assert (2 ^ (8 - off) <= 2 ^ 8) by (apply Z.pow_le_mono_r; lia).
      assert (0 < 2 ^ (8 - off)) by (apply Z.pow_pos_nonneg; lia). apply Z.mod_small. lia. }
    rewrite Em, land_mask by lia. set (f := b mod 2 ^ (8 - off)) in *.
    destruct (IH (mk_decoder rest 0) (val + Z.shiftl f (n - 8 + off)) (n - (8 - off))) as (res & E & Hpost);
      [by constructor|lia|lia|].
    exists res. split; [done|]. unfold unpack_post in Hpost.
    assert (E0 : dec_nbits (mk_decoder rest 0) = L) by (unfold dec_nbits, L; simpl; lia).
    assert (Er : dec_value (mk_decoder rest 0) = r).
    { unfold dec_value. rewrite E0. simpl. apply Z.mod_small. lia. }
    rewrite E0, Er in Hpost. rewrite Enb, Ev.
    destruct (Z.leb_spec n (L + (8 - off))) as [Hle|Hgt].
    + rewrite (proj2 (Z.leb_le _ _)) in Hpost by lia. destruct Hpost as (d' & -> & H1 & H2 & H3).
      exists d'. rewrite Z.shiftl_mul_pow2 by lia.
      replace (L + (8 - off) - n) with (L - (n - (8 - off))) by lia.
      set (m := n - (8 - off)) in *. replace (n - 8 + off) with m by (unfold m; lia).
      assert (EL : 2 ^ L = 2 ^ m * 2 ^ (L - m)) by (rewrite <- Z.pow_add_r by lia; f_equal; lia).
      assert (0 < 2 ^ (L - m)) by (apply Z.pow_pos_nonneg; lia).
      split_and!; try done.
      * f_equal. f_equal. rewrite EL, Z.mul_assoc, Z.div_add_l by lia. lia.
      * rewrite H3, EL, Z.mul_assoc, (Z.add_comm (_ * _)), Z.mod_add by lia. done.
    + rewrite (proj2 (Z.leb_gt _ _)) in Hpost by lia. done.
Qed.

Lemma bit_decoder_unpack_ok width d n :
  decoder_wf d -> 0 <= n <= width ->
  exists r, bit_decoder_unpack width d n = ok r /\ unpack_post d 0 n r.
Proof.
  intros Hd Hn. unfold bit_decoder_unpack. ztrue. apply unpack_loop_ok; [done|lia|lia].
Qed.

(** *** Sequences of fields *)

(** Bit fields [(value, width)] written one after the other. *)
Fixpoint pack_fields (append_ok : bytes -> bool) (e : bit_encoder) (fields : list (Z * Z))
    : outcome (bool * bit_encoder) :=
  match fields with
  | [] => ok (true, e)
  | (v, n) :: rest =>
      '(packed, e) ← bit_encoder_pack append_ok e v n;
      if packed : bool then pack_fields append_ok e rest else ok (false, e)
  end.

Fixpoint unpack_fields (d : bit_decoder) (widths : list Z) : outcome (option (list Z) * bit_decoder) :=
  match widths with
  | [] => ok (Some [], d)
  | n :: rest =>
      '(v, d) ← bit_decoder_unpack 64 d n;
      match v with
      | None => ok (None, d)
      | Some v =>
          '(vs, d) ← unpack_fields d rest;
          ok (match vs with Some vs => Some (v :: vs) | None => None end, d)
      end
  end.

Definition fields_nbits (fields : list (Z * Z)) : Z := foldr (fun f acc => f.2 + acc) 0 fields.

Fixpoint fields_value (fields : list (Z * Z)) : Z :=
  match fields with
  | [] => 0
  | (v, n) :: rest => v mod 2 ^ n * 2 ^ fields_nbits rest + fields_value rest
  end.

Definition field_ok (f : Z * Z) : Prop := 0 <= f.1 < 2 ^ 64 /\ 0 <= f.2 <= 64.

Lemma fields_nbits_nonneg fields : Forall field_ok fields -> 0 <= fields_nbits fields.
Proof. induction 1 as [|f fields [_ Hf] _ IH]; simpl; lia. Qed.

Lemma fields_value_range fields :
  Forall field_ok fields -> 0 <= fields_value fields < 2 ^ fields_nbits fields.
Proof.
  induction 1 as [|[v n] fields [Hv Hn] H IH]; [simpl; lia|]. simpl in *.
  pose proof (fields_nbits_nonneg _ H). pose proof (Z.mod_pos_bound v (2 ^ n)).
  assert (0 < 2 ^ n) by (apply Z.pow_pos_nonneg; lia). rewrite Z.pow_add_r by lia. nia.
Qed.

Lemma pack_fields_ok e fields :
  encoder_wf e -> Forall field_ok fields ->
  exists e', pack_fields (fun _ => true) e fields = ok (true, e') /\ encoder_wf e' /\
    enc_nbits e' = enc_nbits e + fields_nbits fields /\
    enc_value e' = enc_value e * 2 ^ fields_nbits fields + fields_value fields.
Proof.
  intros He H. revert e He. induction H as [|[v n] fields [Hv Hn] H IH]; intros e He; simpl.
  - exists e. split_and!; try done; lia.
  - simpl in Hv, Hn. unfold bit_encoder_pack. rewrite srsran_assert_ok, bind_ok by (apply Z.leb_le; lia).
    destruct (pack_loop_ok (S (Z.to_nat n)) e v n He Hn Hv) as (e1 & -> & He1 & N1 & V1); [lia|].
    rewrite bind_ok. cbv beta match.
    destruct (IH e1 He1) as (e2 & E2 & He2 & N2 & V2).
    exists e2. split_and!; try done; [lia|]. rewrite V2, V1.
    pose proof (fields_nbits_nonneg _ H). rewrite Z.pow_add_r by lia. lia.
Qed.

Lemma unpack_fields_ok d fields p :
  decoder_wf d -> Forall field_ok fields -> 0 <= p ->
  dec_nbits d = fields_nbits fields + p -> dec_value d / 2 ^ p = fields_value fields ->
  exists d', unpack_fields d (snd <$> fields) = ok (Some ((fun f => f.1 mod 2 ^ f.2) <$> fields), d').
Proof.
  intros Hd H Hp. revert d Hd. induction H as [|[v n] fields [Hv Hn] H IH]; intros d Hd Nd Vd; [by exists d|].
  rewrite !fmap_cons. cbn [unpack_fields fst snd fields_nbits foldr fields_value] in *.
  fold (fields_nbits fields) in Nd.
  destruct (bit_decoder_unpack_ok 64 d n Hd Hn) as (r & -> & Hpost). rewrite bind_ok.
  pose proof (fields_nbits_nonneg _ H) as Hnn. pose proof (fields_value_range _ H) as Hfr.
  unfold unpack_post in Hpost. rewrite (proj2 (Z.leb_le _ _)) in Hpost by lia.
  destruct Hpost as (d1 & -> & Hd1 & N1 & V1). cbv beta match.
  replace (dec_nbits d - n) with (p + fields_nbits fields) in * by lia.
  assert (0 < 2 ^ p) by (apply Z.pow_pos_nonneg; lia).
  assert (0 < 2 ^ fields_nbits fields) by (apply Z.pow_pos_nonneg; lia).
  assert (Ev : dec_value d / 2 ^ (p + fields_nbits fields) = v mod 2 ^ n).
  { rewrite Z.pow_add_r, <- Z.div_div, Vd, Z.div_add_l, Z.div_small by lia. lia. }
  destruct (IH d1 Hd1) as (d2 & E2); [lia| |].
  { rewrite V1, Z.pow_add_r, Z.rem_mul_r by lia.
    rewrite (Z.mul_comm (2 ^ p) (_ mod 2 ^ _)), Z.div_add, Vd by lia.
    rewrite Z.div_small by (apply Z.mod_pos_bound; lia).
    rewrite Z.add_comm, Z.add_0_r, Z.add_comm, Z.mod_add, Z.mod_small by lia. done. }
  rewrite E2, bind_ok. cbv beta match. rewrite Ev. by exists d2.
Qed.

Lemma encoder_init_wf : encoder_wf (encoder_init []).
Proof. constructor; [constructor|simpl; lia|done|done]. Qed.

(** Bit fields of any widths written one after the other by the encoder
    are read back by the decoder, each value reduced to the width it was written
    with; the loops end, also over octet boundaries. *)
Theorem bit_fields_roundtrip fields :
  Forall field_ok fields ->
  exists e d, pack_fields (fun _ => true) (encoder_init []) fields = ok (true, e) /\
    unpack_fields (decoder_init (enc_bytes e)) (snd <$> fields)
      = ok (Some ((fun f => f.1 mod 2 ^ f.2) <$> fields), d).
Proof.
  intros H. destruct (pack_fields_ok _ _ encoder_init_wf H) as (e & E & He & N & V).
  pose proof (fields_nbits_nonneg _ H) as Hnn. pose proof (be_value_range _ (ew_bytes _ He)) as Hr.
  unfold enc_nbits in N. pose proof (ew_offset _ He).
  change (enc_value (encoder_init [])) with 0 in V.
  assert (Hpad : 0 <= enc_pad e) by (unfold enc_pad; divmod).
  assert (Hd : dec_nbits (decoder_init (enc_bytes e)) = fields_nbits fields + enc_pad e).
  { unfold dec_nbits, enc_pad. simpl in *. destruct (Z.eqb_spec (enc_offset e) 0); divmod. }
  destruct (unpack_fields_ok (decoder_init (enc_bytes e)) fields (enc_pad e)) as (d & Ed).
  - constructor; simpl; [apply (ew_bytes _ He)|lia|done].
  - done.
  - done.
  - done.
  - unfold dec_value. rewrite Z.mod_small; [apply V|]. unfold dec_nbits. simpl. by rewrite Z.sub_0_r.
  - eauto.
Qed.

Lemma bit_fields_roundtrip_witness :
  exists e d, pack_fields (fun _ => true) (encoder_init []) [(1, 1); (300, 12); (7, 2)] = ok (true, e) /\
    unpack_fields (decoder_init (enc_bytes e)) [1; 12; 2] = ok (Some [1; 300; 3], d).
Proof.
  apply (bit_fields_roundtrip [(1, 1); (300, 12); (7, 2)]).
  repeat constructor; simpl; lia.
Defined.
