(* ===== verification/PdcpSnUtil.v ===== *)
(** * The PDCP SN of a PDCP PDU

    [get_pdcp_sn] of [include/srsran/pdcp/pdcp_sn_util.h], by which the RLC finds
    the PDCP SN of the SDUs it is given. *)

From S2P Require Import Prelude BitEncoding.

Inductive pdcp_sn_size := pdcp_sn_invalid | pdcp_sn_12bits | pdcp_sn_18bits.

#[export] Instance pdcp_sn_size_eq_dec : EqDecision pdcp_sn_size.
Proof. solve_decision. Defined.

(** The reserved bits and the SN, when both could be read. *)
Definition checked_sn (reserved sn : option Z) : option Z :=
  match reserved, sn with
  | Some r, Some sn => if negb (r =? 0) then None else Some sn
  | _, _ => None
  end.

Definition get_pdcp_sn (pdcp_pdu : bytes) (pdcp_sn_len : pdcp_sn_size) (is_srb : bool)
    : outcome (option Z) :=
  if bool_decide (pdcp_pdu = []) then ok None
  else if is_srb && negb (bool_decide (pdcp_sn_len = pdcp_sn_12bits)) then ok None
  else
    '(dc_field, decoder) ← bit_decoder_unpack 8 (decoder_init pdcp_pdu) 1;
    match dc_field with
    | None => ok None
    | Some dc_field =>
        if negb is_srb && (dc_field =? 0) then ok None
        else if is_srb && (dc_field =? 1) then ok None
        else match pdcp_sn_len with
        | pdcp_sn_12bits =>
            '(reserved, decoder) ← bit_decoder_unpack 8 decoder 3;
            '(pdcp_sn, _) ← bit_decoder_unpack 32 decoder 12;
            ok (checked_sn reserved pdcp_sn)
        | pdcp_sn_18bits =>
            '(reserved, decoder) ← bit_decoder_unpack 8 decoder 5;
            '(pdcp_sn, _) ← bit_decoder_unpack 32 decoder 18;
            ok (checked_sn reserved pdcp_sn)
        | pdcp_sn_invalid => ok None
        end
    end.

(** ** Lemmas *)

Lemma decoder_init_wf l : is_bytes l -> decoder_wf (decoder_init l).
Proof. intros H. constructor; [done|simpl; lia|done]. Qed.

(** One read, with the decoder it leaves. *)
Lemma unpack_step width d n :
  decoder_wf d -> 0 <= n <= width -> n <= dec_nbits d ->
  exists d', bit_decoder_unpack width d n = ok (Some (dec_value d / 2 ^ (dec_nbits d - n)), d') /\
    decoder_wf d' /\ dec_nbits d' = dec_nbits d - n /\
    dec_value d' = dec_value d mod 2 ^ (dec_nbits d - n).
Proof.
  intros Hd Hn Hle. destruct (bit_decoder_unpack_ok width d n Hd Hn) as (r & -> & Hpost).
  unfold unpack_post in Hpost. rewrite (proj2 (Z.leb_le _ _)) in Hpost by done.
  destruct Hpost as (d' & -> & H). by exists d'.
Qed.

(** A read, successful or not: a value below [2 ^ n]. *)
Lemma unpack_total width d n :
  decoder_wf d -> 0 <= n <= width ->
  exists o d', bit_decoder_unpack width d n = ok (o, d') /\
    decoder_wf d' /\ forall v, o = Some v -> 0 <= v < 2 ^ n.
Proof.
  intros Hd Hn. destruct (bit_decoder_unpack_ok width d n Hd Hn) as ([o d'] & -> & Hpost).
  exists o, d'. split; [done|]. unfold unpack_post in Hpost.
  destruct (Z.leb_spec n (dec_nbits d)); [|by destruct Hpost as [Ho ?]; simpl in Ho; subst].
  destruct Hpost as (d1 & [= -> ->] & Hd1 & _). split; [done|]. intros v [= <-].
  rewrite Z.add_0_l.
  assert (0 < 2 ^ (dec_nbits d - n)) by (apply Z.pow_pos_nonneg; lia).
  assert (0 <= dec_value d < 2 ^ dec_nbits d) by (apply Z.mod_pos_bound, Z.pow_pos_nonneg; lia).
  split; [apply Z.div_pos; lia|]. apply Z.div_lt_upper_bound; [done|].
  rewrite <- Z.pow_add_r by lia. replace (dec_nbits d - n + n) with (dec_nbits d) by lia. lia.
Qed.

Lemma get_pdcp_sn_ok pdu len is_srb :
  is_bytes pdu -> exists o, get_pdcp_sn pdu len is_srb = ok o /\
    forall sn, o = Some sn -> 0 <= sn < 2 ^ 18.
Proof.
  intros H. unfold get_pdcp_sn. destruct (bool_decide (pdu = [])); [by exists None|].
  destruct (is_srb && _); [by exists None|].
  destruct (unpack_total 8 (decoder_init pdu) 1) as (dc & d & -> & Hd & _); [by apply decoder_init_wf|lia|].
  rewrite bind_ok. cbv beta match. destruct dc as [dc|]; [|by exists None].
  destruct (negb is_srb && _); [by exists None|]. destruct (is_srb && _); [by exists None|].
  assert (Hread : forall n m, 0 <= n <= 8 -> 0 <= m <= 18 ->
    exists o, ('(reserved, decoder) ← bit_decoder_unpack 8 d n;
       '(pdcp_sn, _) ← bit_decoder_unpack 32 decoder m;
       ok (checked_sn reserved pdcp_sn)) = ok o /\ forall sn, o = Some sn -> 0 <= sn < 2 ^ 18).
  { intros n m Hn Hm. destruct (unpack_total 8 d n Hd) as (r & d1 & -> & Hd1 & _); [lia|].
    rewrite bind_ok. cbv beta match.
    destruct (unpack_total 32 d1 m) as (v & d2 & -> & _ & Hv); [done|lia|]. rewrite bind_ok.
    eexists. split; [done|]. intros sn Hsn. unfold checked_sn in Hsn.
    destruct r as [r|], v as [v|]; try done. destruct (negb _); [done|]. injection Hsn as ->.
    specialize (Hv _ eq_refl). assert (2 ^ m <= 2 ^ 18) by (apply Z.pow_le_mono_r; lia). lia. }
  destruct len; [by exists None|apply Hread; lia..].
Qed.

(** The SN of a PDCP data PDU with a 12-bit SN, of a DRB (D/C set) or of
    an SRB, is the one in its header; a DRB control PDU has none, and whatever the
    octets, the SN found fits 18 bits. *)
Theorem get_pdcp_sn_spec (sn : Z) (payload : bytes) (is_srb : bool) :
  0 <= sn < 2 ^ 12 -> is_bytes payload ->
  get_pdcp_sn ((if is_srb then sn / 256 else 128 + sn / 256) :: sn mod 256 :: payload)
    pdcp_sn_12bits is_srb = ok (Some sn) /\
  get_pdcp_sn (sn / 256 :: payload) pdcp_sn_12bits false = ok None /\
  forall pdu len, is_bytes pdu -> exists o, get_pdcp_sn pdu len is_srb = ok o /\
    forall sn, o = Some sn -> 0 <= sn < 2 ^ 18.
Proof.
  intros Hsn Hp. split_and!; [| |intros; by apply get_pdcp_sn_ok]; clear Hp.
  - destruct is_srb; by_evaluation (2 ^ 12) sn.
  - by_evaluation (2 ^ 12) sn.
Qed.

Lemma get_pdcp_sn_spec_witness :
  get_pdcp_sn [129; 44; 7] pdcp_sn_12bits false = ok (Some 300).
Proof. apply (get_pdcp_sn_spec 300 [7] false); [lia|repeat constructor; unfold is_byte; lia]. Defined.
