(* ===== verification/BitStream.v ===== *)
(** * The bits of a buffer, one by one

    A second view of [BitEncoding.v], for code that packs or unpacks single bits until the buffer ends
    (the bitmap of a PDCP status report): the bits of an octet string as a list of booleans, most
    significant first. [unpack_bit] and [pack_bit] say that one call moves one bit. *)

From S2P Require Import Prelude BitEncoding.

Definition octet_bits (x : Z) : list bool := (fun i => Z.testbit x (7 - i)) <$> seqZ 0 8.
Definition bits_of (l : bytes) : list bool := flat_map octet_bits l.

Lemma bits_of_app l1 l2 : bits_of (l1 ++ l2) = bits_of l1 ++ bits_of l2.
Proof. apply flat_map_app. Qed.

Lemma bits_of_length l : length (bits_of l) = (8 * length l)%nat.
Proof. induction l as [|x l IH]; [done|]. cbn [bits_of flat_map]. rewrite length_app. fold (bits_of l). rewrite IH. simpl. lia. Qed.

(** ** Reading *)

(** What a decoder has left. *)
Definition left_bits (d : bit_decoder) : list bool := drop (Z.to_nat (dec_offset d)) (bits_of (dec_bytes d)).

(** Octets, and an offset into the first of them. *)
Definition reading (d : bit_decoder) : Prop := is_bytes (dec_bytes d) /\ 0 <= dec_offset d < 8.

Lemma bit_mask_value off x : 0 <= off < 8 -> is_byte x ->
  (if 1 <? 8 - off
   then Z.shiftr (Z.land x (u8 (u8 (Z.shiftl 1 (8 - off)) - u8 (Z.shiftl 1 (8 - off - 1))))) (8 - off - 1)
   else Z.shiftl (Z.land x (u8 (Z.shiftl 1 (8 - off) - 1))) (1 - 8 + off)) = Z.b2z (Z.testbit x (7 - off)).
Proof.
  intros Ho Hx. unfold is_byte in Hx. revert Hx.
  assert (off ∈ [0; 1; 2; 3; 4; 5; 6; 7]) as Hin by (repeat (rewrite elem_of_cons); lia). clear Ho.
  repeat (apply elem_of_cons in Hin as [->|Hin]; [intros Hx; by_evaluation 256 x|]). by apply elem_of_nil in Hin.
Qed.

(** One bit. *)
Lemma unpack_bit d :
  reading d ->
  match left_bits d with
  | [] => exists v d', bit_decoder_unpack_val 32 d 1 = ok (false, v, d')
  | x :: xs => exists d', bit_decoder_unpack_val 32 d 1 = ok (true, Z.b2z x, d') /\ reading d' /\ left_bits d' = xs
  end.
Proof.
  intros [Hb Ho]. destruct d as [l off]. simpl in Hb, Ho. unfold left_bits. simpl. destruct l as [|x rest].
  { simpl. rewrite drop_nil. by eexists _, _. }
  apply Forall_cons in Hb as [Hx Hrest]. cbn [bits_of flat_map]. fold (bits_of rest).
  assert (Hd : drop (Z.to_nat off) (octet_bits x ++ bits_of rest) =
    Z.testbit x (7 - off) :: drop (S (Z.to_nat off)) (octet_bits x ++ bits_of rest)).
  { apply drop_S. rewrite lookup_app_l by (simpl; lia). unfold octet_bits. rewrite list_lookup_fmap, lookup_seqZ_lt by lia.
    simpl. do 2 f_equal. lia. }
  rewrite Hd. pose proof (bit_mask_value off x Ho Hx) as Hv. unfold bit_decoder_unpack_val. simpl. cbn -[Z.shiftl Z.shiftr Z.land u8].
  destruct (Z.ltb_spec 1 (8 - off)) as [H1|H1]; cbn -[Z.shiftl Z.shiftr Z.land u8]; rewrite Hv.
  - eexists. split; [done|]. split; [split; [by constructor|simpl; lia]|]. simpl dec_offset. simpl dec_bytes.
    by replace (Z.to_nat (off + 1)) with (S (Z.to_nat off)) by lia.
  - replace off with 7 by lia. cbn. eexists. split; [done|]. split; [split; [done|simpl; lia]|]. done.
Qed.

(** The bits that one turn of [unpack] takes out of an octet. *)
Lemma bits_inside off m x : 0 <= off < 8 -> 0 <= m < 8 - off -> is_byte x ->
  0 <= Z.shiftr (Z.land x (u8 (u8 (Z.shiftl 1 (8 - off)) - u8 (Z.shiftl 1 (8 - off - m))))) (8 - off - m) < 2 ^ m.
Proof.
  intros Ho Hm Hx. unfold is_byte in Hx. revert Hx.
  assert (off ∈ [0; 1; 2; 3; 4; 5; 6; 7]) as Hin by (repeat (rewrite elem_of_cons); lia).
  assert (m ∈ [0; 1; 2; 3; 4; 5; 6; 7]) as Him by (repeat (rewrite elem_of_cons); lia).
  repeat (apply elem_of_cons in Hin as [->|Hin]; [
    repeat (apply elem_of_cons in Him as [->|Him]; [first [exfalso; lia | intros Hx; by_evaluation 256 x]|]); by apply elem_of_nil in Him|]).
  by apply elem_of_nil in Hin.
Qed.

Lemma bits_to_end off x : 0 <= off < 8 -> Z.land x (u8 (Z.shiftl 1 (8 - off) - 1)) = x mod 2 ^ (8 - off).
Proof.
  intros Ho. rewrite Z.shiftl_1_l. assert (0 < 2 ^ (8 - off) <= 2 ^ 8) by (split; [apply Z.pow_pos_nonneg|apply Z.pow_le_mono_r]; lia).
  unfold u8. rewrite Z.mod_small by lia. apply land_mask. lia.
Qed.

(** Any number of bits: the value has as many, and the decoder goes on reading. *)
Lemma unpack_val_range width d n :
  reading d -> 0 <= n <= width ->
  exists found v d', bit_decoder_unpack_val width d n = ok (found, v, d') /\ reading d' /\ 0 <= v < 2 ^ n /\
    (length (left_bits d') <= length (left_bits d))%nat.
Proof.
  intros Hd Hn. unfold bit_decoder_unpack_val. rewrite srsran_assert_ok by (apply Z.leb_le; lia). rewrite bind_ok.
  assert (H : forall fuel d v m, reading d -> 0 <= m -> 0 <= v -> (Z.to_nat m < fuel)%nat ->
    exists found v' d', unpack_val_loop fuel d v m = ok (found, v', d') /\ reading d' /\ v <= v' < v + 2 ^ m /\
      (length (left_bits d') <= length (left_bits d))%nat).
  { induction fuel as [|fuel IH]; intros [l off] v m [Hb Ho] Hm Hv Hf; [lia|]. simpl in Hb, Ho.
    cbn -[Z.shiftl Z.shiftr Z.land u8 Z.pow].
    assert (0 < 2 ^ m) by (apply Z.pow_pos_nonneg; lia).
    destruct (Z.ltb_spec 0 m); cbn -[Z.shiftl Z.shiftr Z.land u8 Z.pow]; [|by eexists _, _, _; split; [done|]; split; [done|]; split; [lia|]].
    destruct l as [|x rest]; [by eexists _, _, _; split; [done|]; split; [done|]; split; [lia|]|].
    apply Forall_cons in Hb as [Hx Hrest].
    destruct (Z.ltb_spec m (8 - off)) as [Hlt|Hge].
    - pose proof (bits_inside off m x Ho ltac:(lia) Hx) as Hval. set (y := Z.shiftr _ _) in *.
      destruct (IH (mk_decoder (x :: rest) (off + m)) (v + y) 0) as (f & v' & d' & -> & Hd' & Hv' & Hl);
        [split; [by constructor|simpl; lia]|lia|lia|lia|].
      exists f, v', d'. split; [done|]. split; [done|]. split; [lia|]. etransitivity; [exact Hl|]. unfold left_bits. simpl dec_offset.
      rewrite !length_drop. simpl dec_bytes. lia.
    - rewrite bits_to_end by done. pose proof (Z.mod_pos_bound x (2 ^ (8 - off))) as Hmod.
      specialize (Hmod ltac:(apply Z.pow_pos_nonneg; lia)). set (y := x mod _) in *.
      assert (E : 2 ^ m = 2 ^ (8 - off) * 2 ^ (m - (8 - off))) by (rewrite <- Z.pow_add_r by lia; f_equal; lia).
      assert (0 < 2 ^ (m - (8 - off))) by (apply Z.pow_pos_nonneg; lia).
      rewrite Z.shiftl_mul_pow2 by lia. replace (m - 8 + off) with (m - (8 - off)) by lia.
      destruct (IH (mk_decoder rest 0) (v + y * 2 ^ (m - (8 - off))) (m - (8 - off))) as (f & v' & d' & -> & Hd' & Hv' & Hl);
        [split; [done|simpl; lia]|lia|nia|lia|].
      exists f, v', d'. split; [done|]. split; [done|]. split; [nia|]. etransitivity; [exact Hl|].
      unfold left_bits. rewrite !length_drop, !bits_of_length. simpl. lia. }
  destruct (H (S (Z.to_nat n)) d 0 n Hd) as (f & v & d' & -> & Hd' & Hv & Hl); [lia|lia|lia|].
  exists f, v, d'. split; [done|]. split; [done|]. split; [lia|done].
Qed.

(** ** Writing *)
Section pack_bit.
Context (append_ok : bytes -> bool) (Hmem : forall l, append_ok l = true).

(** Behind the octets [pre] the encoder has written [bits], and zeros up to the end of the last octet. *)
Definition written (pre : bytes) (e : bit_encoder) (bits : list bool) : Prop :=
  0 <= enc_offset e < 8 /\
  exists l pad, enc_bytes e = pre ++ l /\ is_bytes l /\ bits_of l = bits ++ replicate pad false /\ (pad < 8)%nat /\
    Z.of_nat pad = (- enc_offset e) mod 8.

Lemma written_start pre : written pre (mk_encoder pre 0) [].
Proof using Type. split; [simpl; lia|]. exists [], 0%nat. split; [by rewrite app_nil_r|]. split; [constructor|]. split; [done|]. split; [lia|done]. Qed.

Lemma add_bit off x (v : bool) : 0 < off < 8 -> is_byte x -> drop (Z.to_nat off) (octet_bits x) = replicate (Z.to_nat (8 - off)) false ->
  let y := u8 (x + u8 (if 1 <? 8 - off then Z.shiftl (Z.b2z v) (8 - off - 1) else Z.shiftr (Z.b2z v) (1 - 8 + off))) in
  is_byte y /\ octet_bits y = take (Z.to_nat off) (octet_bits x) ++ v :: replicate (Z.to_nat (8 - off - 1)) false.
Proof.
  intros Ho Hx. unfold is_byte in Hx. revert Hx.
  assert (off ∈ [1; 2; 3; 4; 5; 6; 7]) as Hin by (repeat (rewrite elem_of_cons); lia). clear Ho.
  repeat (apply elem_of_cons in Hin as [->|Hin]; [destruct v; intros Hx; unfold is_byte; by_evaluation 256 x|]). by apply elem_of_nil in Hin.
Qed.

Lemma pack_bit pre e bits v :
  written pre e bits ->
  exists e', bit_encoder_pack append_ok e (Z.b2z v) 1 = ok (true, e') /\ written pre e' (bits ++ [v]).
Proof using Hmem.
  intros (Ho & l & pad & El & Hb & Hbits & Hpad & Hpo). destruct e as [l' off]. simpl in *. subst l'.
  assert (Ev : Z.land (Z.b2z v) (2 ^ 1 - 1) = Z.b2z v) by (by destruct v).
  unfold bit_encoder_pack. rewrite srsran_assert_ok by done. rewrite bind_ok.
  change (S (Z.to_nat 1)) with 2%nat. cbn -[Z.shiftl Z.shiftr Z.land u8 Z.modulo Z.b2z Z.pow]. rewrite Hmem, Ev. simpl negb. rewrite andb_false_r.
  destruct (Z.eqb_spec off 0) as [->|Hne].
  - cbn -[Z.shiftl Z.shiftr Z.land u8 Z.modulo Z.b2z Z.pow]. rewrite add_to_back_snoc. eexists. split; [done|].
    assert (pad = 0%nat) as -> by (change ((- 0) mod 8) with 0 in Hpo; lia). simpl in Hbits. rewrite app_nil_r in Hbits.
    split; [simpl; lia|]. eexists _, 7%nat. split; [by rewrite <- app_assoc|]. split; [|split; [|by split; [lia|]]].
    + apply Forall_app. split; [done|]. apply Forall_singleton. by destruct v.
    + rewrite bits_of_app, Hbits, <- app_assoc. f_equal. by destruct v.
  - assert (Hl8 : (8 * length l)%nat = (length bits + pad)%nat) by (rewrite <- bits_of_length, Hbits, length_app, length_replicate; done).
    assert (Hpv : Z.of_nat pad = 8 - off) by (rewrite Hpo; divmod).
    destruct l as [|x l0 _] using rev_ind; [simpl in Hl8; lia|]. rewrite app_assoc, add_to_back_snoc.
    rewrite length_app in Hl8. simpl in Hl8.
    apply Forall_app in Hb as [Hb0 Hx]. apply Forall_cons in Hx as [Hx _].
    assert (Hsplit : bits_of l0 ++ take (Z.to_nat off) (octet_bits x) = bits /\
      drop (Z.to_nat off) (octet_bits x) = replicate (Z.to_nat (8 - off)) false).
    { replace (Z.to_nat (8 - off)) with pad by lia. apply app_inj_1.
      - rewrite length_app, bits_of_length, length_take. simpl. lia.
      - rewrite <- app_assoc, take_drop, <- Hbits, bits_of_app. cbn [bits_of flat_map]. by rewrite app_nil_r. }
    destruct Hsplit as [<- Hzero]. destruct (add_bit off x v ltac:(lia) Hx Hzero) as [Hy Hyb]. revert Hy Hyb.
    assert (Hdone : forall y e', octet_bits y = take (Z.to_nat off) (octet_bits x) ++ v :: replicate (Z.to_nat (8 - off - 1)) false ->
      is_byte y -> e' = mk_encoder ((pre ++ l0) ++ [y]) ((off + 1) mod 8) ->
      written pre e' ((bits_of l0 ++ take (Z.to_nat off) (octet_bits x)) ++ [v])).
    { intros y e' Hyb Hy ->. cbn [enc_bytes enc_offset].
      split; [cbn [enc_offset]; divmod|]. exists (l0 ++ [y]), (Z.to_nat (8 - off - 1)).
      split; [cbn [enc_bytes]; by rewrite <- app_assoc|]. split; [apply Forall_app; split; [done|by apply Forall_singleton]|].
      rewrite bits_of_app. cbn [bits_of flat_map enc_offset]. rewrite app_nil_r, Hyb.
      split; [by rewrite <- !app_assoc|]. split; [lia|]. divmod. }
    destruct (Z.ltb_spec 1 (8 - off)); intros Hy Hyb.
    + cbn -[Z.shiftl Z.shiftr Z.land u8 Z.modulo Z.b2z Z.pow octet_bits]. eexists. split; [done|].
      eapply Hdone; [done|done|]. by rewrite Z.mod_small by lia.
    + assert (off = 7) as -> by lia. cbn -[Z.shiftl Z.shiftr Z.land u8 Z.modulo Z.b2z Z.pow octet_bits]. rewrite add_to_back_snoc.
      eexists. split; [done|]. by eapply Hdone.
Qed.
End pack_bit.
