(* ===== verification/BitFields.v ===== *)
(** * Bit fields and byte ranges, as the message codecs use them

    The byte operations of [bit_encoder] and [bit_decoder] ([lib/support/bit_encoding.cpp]), and the view in which all
    their operations are specified for message codecs: a buffer is the sequence of its bits, a field is a sequence of
    bits, and a call moves the bits of one field. *)
From S2P Require Import Prelude BitEncoding BitStream.

(** ** Sequences of bits as numbers *)
Definition bits_value (l : list bool) : Z := foldl (fun acc b => acc * 2 + Z.b2z b) 0 l.

(** The [n] binary digits of [v], most significant first. *)
Fixpoint to_bits (n : nat) (v : Z) : list bool :=
  match n with O => [] | S n => Z.odd (v / 2 ^ Z.of_nat n) :: to_bits n v end.

Lemma foldl_bits_value l acc : foldl (fun acc b => acc * 2 + Z.b2z b) acc l = acc * 2 ^ zlen l + bits_value l.
Proof.
  unfold bits_value. revert acc. induction l as [|b l IH]; intros acc; [simpl; lia|].
  cbn [foldl length]. rewrite (IH (acc * 2 + Z.b2z b)), (IH (0 * 2 + Z.b2z b)).
  replace (Z.of_nat (S (length l))) with (zlen l + 1) by lia. rewrite Z.pow_add_r by lia. lia.
Qed.

Lemma bits_value_app l1 l2 : bits_value (l1 ++ l2) = bits_value l1 * 2 ^ zlen l2 + bits_value l2.
Proof. unfold bits_value at 1. rewrite foldl_app. apply foldl_bits_value. Qed.

Lemma bits_value_cons b l : bits_value (b :: l) = Z.b2z b * 2 ^ zlen l + bits_value l.
Proof. apply (bits_value_app [b] l). Qed.

Lemma bits_value_range l : 0 <= bits_value l < 2 ^ zlen l.
Proof.
  induction l as [|b l IH]; [vm_compute; split; congruence|]. rewrite bits_value_cons. cbn [length].
  replace (Z.of_nat (S (length l))) with (zlen l + 1) by lia. rewrite Z.pow_add_r by lia. destruct b; simpl Z.b2z; lia.
Qed.

Lemma bits_value_inj l1 l2 : length l1 = length l2 -> bits_value l1 = bits_value l2 -> l1 = l2.
Proof.
  revert l2. induction l1 as [|b1 l1 IH]; intros [|b2 l2] Hl Hv; try done. injection Hl as Hl.
  rewrite !bits_value_cons, Hl in Hv. pose proof (bits_value_range l1) as H1. pose proof (bits_value_range l2) as H2.
  rewrite Hl in H1. assert (b1 = b2) as -> by (destruct b1, b2; simpl in Hv; try done; lia). f_equal. apply IH; [done|]. lia.
Qed.

Lemma to_bits_length n v : length (to_bits n v) = n.
Proof. induction n; simpl; congruence. Qed.

Lemma bits_value_to_bits n v : bits_value (to_bits n v) = v mod 2 ^ Z.of_nat n.
Proof.
  induction n as [|n IH]; [simpl; by rewrite Z.mod_1_r|]. cbn [to_bits]. rewrite bits_value_cons, IH, to_bits_length.
  replace (Z.of_nat (S n)) with (Z.of_nat n + 1) by lia.
  assert (0 < 2 ^ Z.of_nat n) by (apply Z.pow_pos_nonneg; lia).
  rewrite Z.pow_add_r, Z.rem_mul_r by lia. change (2 ^ 1) with 2.
  rewrite (Zmod_odd (v / _)). destruct (Z.odd _); simpl Z.b2z; lia.
Qed.

Lemma to_bits_value l : to_bits (length l) (bits_value l) = l.
Proof.
  apply bits_value_inj; [apply to_bits_length|]. rewrite bits_value_to_bits. apply Z.mod_small, bits_value_range.
Qed.

Lemma to_bits_mod n v w : v mod 2 ^ Z.of_nat n = w mod 2 ^ Z.of_nat n -> to_bits n v = to_bits n w.
Proof. intros E. apply bits_value_inj; [by rewrite !to_bits_length|]. by rewrite !bits_value_to_bits. Qed.

Lemma bits_value_take n l : (n <= length l)%nat -> bits_value (take n l) = bits_value l / 2 ^ Z.of_nat (length l - n).
Proof.
  intros Hn. rewrite <- (take_drop n l) at 2. rewrite bits_value_app, length_drop.
  rewrite Z.div_add_l by (apply Z.pow_nonzero; lia). rewrite Z.div_small; [lia|].
  rewrite <- length_drop. apply bits_value_range.
Qed.

Lemma bits_value_drop n l : (n <= length l)%nat -> bits_value (drop n l) = bits_value l mod 2 ^ Z.of_nat (length l - n).
Proof.
  intros Hn. rewrite <- (take_drop n l) at 2. rewrite bits_value_app, length_drop.
  rewrite Z.add_comm, Z.mod_add by (apply Z.pow_nonzero; lia). symmetry. apply Z.mod_small.
  rewrite <- length_drop. apply bits_value_range.
Qed.

Lemma octet_bits_to_bits x : is_byte x -> octet_bits x = to_bits 8 x.
Proof. unfold is_byte. intros Hx. by_evaluation 256 x. Qed.

Lemma bits_value_bits_of l : is_bytes l -> bits_value (bits_of l) = be_value l.
Proof.
  induction l as [|x l IH] using rev_ind; intros Hl; [done|]. apply Forall_app in Hl as [Hl Hx%Forall_inv].
  rewrite bits_of_app, bits_value_app, be_value_snoc, (IH Hl). cbn [bits_of flat_map]. rewrite app_nil_r.
  rewrite octet_bits_to_bits, bits_value_to_bits, to_bits_length by done. unfold is_byte in Hx. change (2 ^ Z.of_nat 8) with 256.
  rewrite Z.mod_small; lia.
Qed.

Lemma bits_of_inj l1 l2 : is_bytes l1 -> is_bytes l2 -> bits_of l1 = bits_of l2 -> l1 = l2.
Proof.
  revert l2. induction l1 as [|x1 l1 IH]; intros [|x2 l2] H1 H2 E; try done.
  apply Forall_cons in H1 as [Hx1 H1]. apply Forall_cons in H2 as [Hx2 H2]. cbn [bits_of flat_map] in E.
  apply app_inj_1 in E as [Ex El]; [|done]. f_equal; [|by apply IH].
  rewrite !octet_bits_to_bits in Ex by done. apply (f_equal bits_value) in Ex. rewrite !bits_value_to_bits in Ex.
  unfold is_byte in *. change (2 ^ Z.of_nat 8) with 256 in Ex. rewrite !Z.mod_small in Ex; lia.
Qed.

(** ** Reading a field *)
Lemma left_bits_length d : decoder_wf d -> zlen (left_bits d) = dec_nbits d.
Proof.
  intros [Hb Ho Hne]. unfold left_bits, dec_nbits. rewrite length_drop, bits_of_length.
  destruct (dec_bytes d); [destruct (decide (dec_offset d = 0)) as [->|]; [done|by destruct Hne]|]. simpl. lia.
Qed.

Lemma left_bits_value d : decoder_wf d -> bits_value (left_bits d) = dec_value d.
Proof.
  intros Hd. pose proof (left_bits_length d Hd) as Hl. destruct Hd as [Hb Ho Hne]. unfold left_bits, dec_value in *.
  destruct (decide (dec_bytes d = [])) as [E|E].
  { rewrite E in *. simpl. rewrite drop_nil. by rewrite Z.mod_0_l by (apply Z.pow_nonzero; [lia|]; rewrite <- Hl; lia). }
  rewrite length_drop in Hl. rewrite bits_value_drop, bits_value_bits_of; [by rewrite Hl|done|].
  rewrite bits_of_length. destruct (dec_bytes d); [done|]. simpl. lia.
Qed.

(** [unpack] takes the next [n] bits, if there are as many. *)
Lemma unpack_bits width d n :
  decoder_wf d -> 0 <= n <= width ->
  exists r, bit_decoder_unpack width d n = ok r /\ decoder_wf r.2 /\
    if n <=? zlen (left_bits d)
    then r.1 = Some (bits_value (take (Z.to_nat n) (left_bits d))) /\ left_bits r.2 = drop (Z.to_nat n) (left_bits d)
    else r.1 = None.
Proof.
  intros Hd Hn. destruct (bit_decoder_unpack_ok width d n Hd Hn) as (r & Hr & Hpost). exists r. split; [done|].
  unfold unpack_post in Hpost. rewrite (left_bits_length d Hd). pose proof (left_bits_length d Hd) as Hl.
  destruct (Z.leb_spec n (dec_nbits d)) as [Hle|]; [|by destruct Hpost].
  destruct Hpost as (d' & -> & Hd' & Hnb & Hval). simpl. split; [done|]. pose proof (left_bits_length d' Hd') as Hl'. split.
  - rewrite bits_value_take, left_bits_value; [|done|lia].
    replace (Z.of_nat (length (left_bits d) - Z.to_nat n)) with (dec_nbits d - n) by lia. by rewrite Z.add_0_l.
  - apply bits_value_inj; [rewrite length_drop; lia|]. rewrite (left_bits_value d' Hd'), Hval.
    rewrite bits_value_drop, left_bits_value; [|done|lia]. f_equal. f_equal. lia.
Qed.

(** ** Writing a field *)

(** The bits written so far. *)
Definition enc_bits (e : bit_encoder) : list bool := take (Z.to_nat (enc_nbits e)) (bits_of (enc_bytes e)).

Lemma enc_nbits_bounds e : encoder_wf e -> 0 <= enc_nbits e <= 8 * zlen (enc_bytes e) /\
  8 * zlen (enc_bytes e) = enc_nbits e + enc_pad e.
Proof.
  intros [Hb Ho Hne Hp]. unfold enc_nbits, enc_pad in *. destruct (Z.eqb_spec (enc_offset e) 0) as [->|E].
  - change ((-0) mod 8) with 0. lia.
  - assert ((- enc_offset e) mod 8 = 8 - enc_offset e) by divmod. specialize (Hne E). destruct (enc_bytes e); [done|]. simpl. lia.
Qed.

Lemma enc_bits_length e : encoder_wf e -> zlen (enc_bits e) = enc_nbits e.
Proof. intros He. destruct (enc_nbits_bounds e He). unfold enc_bits. rewrite length_take, bits_of_length. lia. Qed.

Lemma enc_bits_value e : encoder_wf e -> bits_value (enc_bits e) = enc_value e.
Proof.
  intros He. destruct (enc_nbits_bounds e He) as [Hr Hp]. unfold enc_bits, enc_value.
  rewrite bits_value_take, bits_value_bits_of; [|apply He|rewrite bits_of_length; lia]. do 2 f_equal.
  rewrite bits_of_length. lia.
Qed.

(** The octets of an encoder: its bits and zeros up to the next octet. *)
Lemma enc_bytes_bits e : encoder_wf e -> bits_of (enc_bytes e) = enc_bits e ++ replicate (Z.to_nat (enc_pad e)) false.
Proof.
  intros He. destruct (enc_nbits_bounds e He) as [Hr Hp]. rewrite <- (take_drop (Z.to_nat (enc_nbits e)) (bits_of (enc_bytes e))) at 1.
  unfold enc_bits. f_equal. assert (Hz : forall n, bits_value (replicate n false) = 0).
  { induction n as [|n IH]; [done|]. simpl. by rewrite bits_value_cons, IH. }
  apply bits_value_inj.
  - rewrite length_drop, bits_of_length, length_replicate. lia.
  - rewrite Hz, bits_value_drop, bits_value_bits_of; [|apply He|rewrite bits_of_length; lia].
    rewrite bits_of_length. replace (Z.of_nat (8 * length (enc_bytes e) - Z.to_nat (enc_nbits e))) with (enc_pad e) by lia. apply He.
Qed.

Lemma pack_bits e v n :
  encoder_wf e -> 0 <= n <= 64 -> 0 <= v < 2 ^ 64 ->
  exists e', bit_encoder_pack (fun _ => true) e v n = ok (true, e') /\ encoder_wf e' /\
    enc_bits e' = enc_bits e ++ to_bits (Z.to_nat n) v.
Proof.
  intros He Hn Hv. unfold bit_encoder_pack. rewrite srsran_assert_ok, bind_ok by (apply Z.leb_le; lia).
  destruct (pack_loop_ok (S (Z.to_nat n)) e v n He Hn Hv) as (e' & -> & He' & Hnb & Hval); [lia|].
  exists e'. split; [done|]. split; [done|]. apply bits_value_inj.
  - pose proof (enc_bits_length e He). pose proof (enc_bits_length e' He'). rewrite length_app, to_bits_length. lia.
  - rewrite bits_value_app, to_bits_length, bits_value_to_bits, !enc_bits_value by done. rewrite Hval, Z2Nat.id by lia. done.
Qed.

(** ** The byte operations *)

(** [byte_buffer_writer::append] of a range: octet by octet, until the buffer cannot grow. *)
Fixpoint append_range (append_ok : bytes -> bool) (l span : bytes) : bool * bytes :=
  match span with
  | [] => (true, l)
  | b :: span => if append_ok l then append_range append_ok (l ++ [b]) span else (false, l)
  end.

(** [std::all_of] over [pack(byte, 8U)]. *)
Fixpoint pack_each (append_ok : bytes -> bool) (e : bit_encoder) (span : bytes) : outcome (bool * bit_encoder) :=
  match span with
  | [] => ok (true, e)
  | b :: span =>
      '(packed, e) ← bit_encoder_pack append_ok e b 8;
      if packed : bool then pack_each append_ok e span else ok (false, e)
  end.

Definition pack_bytes (append_ok : bytes -> bool) (e : bit_encoder) (span : bytes) : outcome (bool * bit_encoder) :=
  if zlen span =? 0 then ok (true, e)
  else if enc_offset e =? 0 then let '(appended, l) := append_range append_ok (enc_bytes e) span in ok (appended, mk_encoder l 0)
  else pack_each append_ok e span.

(** [align_bytes]: the sanity check, that an offset is an offset into an octet, is [decoder_wf]. *)
Definition align_bytes (d : bit_decoder) : bit_decoder :=
  if negb (dec_offset d =? 0) then mk_decoder (tail (dec_bytes d)) 0 else d.

Fixpoint unpack_each (n : nat) (d : bit_decoder) : outcome (option bytes * bit_decoder) :=
  match n with
  | O => ok (Some [], d)
  | S n =>
      '(b, d) ← bit_decoder_unpack 8 d 8;
      match b with
      | None => ok (None, d)
      | Some b => '(l, d) ← unpack_each n d; ok (option_map (cons b) l, d)
      end
  end.

Definition unpack_bytes (n : Z) (d : bit_decoder) : outcome (option bytes * bit_decoder) :=
  if n =? 0 then ok (Some [], d)
  else if zlen (dec_bytes d) <? n then ok (None, d)
  else if dec_offset d =? 0 then ok (Some (take (Z.to_nat n) (dec_bytes d)), mk_decoder (drop (Z.to_nat n) (dec_bytes d)) 0)
  else unpack_each (Z.to_nat n) d.

(** [unpack_aligned_bytes]: an empty view when the buffer holds fewer octets. *)
Definition unpack_aligned_bytes (n_bytes : Z) (d : bit_decoder) : bytes * bit_decoder :=
  let d := align_bytes d in
  if n_bytes =? 0 then ([], d)
  else if zlen (dec_bytes d) <? n_bytes then ([], d)
  else (take (Z.to_nat n_bytes) (dec_bytes d), mk_decoder (drop (Z.to_nat n_bytes) (dec_bytes d)) (dec_offset d)).

(** [bit_decoder::nof_bytes], for a decoder over a buffer of [total] octets. *)
Definition decoder_nof_bytes (total : Z) (d : bit_decoder) : Z :=
  total - zlen (dec_bytes d) + (if negb (dec_offset d =? 0) then 1 else 0).

(** ** Lemmas on the byte operations *)
Lemma append_range_ok l span : append_range (fun _ => true) l span = (true, l ++ span).
Proof. revert l. induction span as [|b span IH]; intros l; simpl; [by rewrite app_nil_r|]. by rewrite IH, <- app_assoc. Qed.

Lemma encoder_aligned l : is_bytes l -> encoder_wf (mk_encoder l 0).
Proof. intros Hl. constructor; [done|simpl; lia|done|]. unfold enc_pad. simpl. apply Z.mod_1_r. Qed.

Lemma enc_bits_aligned l : enc_bits (mk_encoder l 0) = bits_of l.
Proof. unfold enc_bits, enc_nbits. simpl. apply take_ge. rewrite bits_of_length. lia. Qed.

Lemma decoder_aligned l : is_bytes l -> decoder_wf (mk_decoder l 0).
Proof. intros Hl. by constructor; [|simpl; lia|]. Qed.

Lemma left_bits_aligned l : left_bits (mk_decoder l 0) = bits_of l.
Proof. done. Qed.

(** Packing at most 64 bits hits no assertion, whether or not the buffer can grow. *)
Definition offset_ok (e : bit_encoder) : Prop := 0 <= enc_offset e < 8.

Lemma pack_total append_ok e v n :
  offset_ok e -> n <= 64 -> exists packed e', bit_encoder_pack append_ok e v n = ok (packed, e') /\ offset_ok e'.
Proof.
  intros Ho Hn. unfold bit_encoder_pack. rewrite srsran_assert_ok, bind_ok by (apply Z.leb_le; lia).
  assert (H : forall fuel e v n, offset_ok e -> (Z.to_nat n < fuel)%nat ->
    exists packed e', pack_loop append_ok fuel e v n = ok (packed, e') /\ offset_ok e').
  { clear. induction fuel as [|fuel IH]; intros e v n Ho Hf; [lia|]. unfold offset_ok in *. simpl.
    destruct (Z.ltb_spec 0 n); [|by eexists _, _]. cbn [negb]. destruct (_ && _); [by eexists _, _|].
    destruct (Z.ltb_spec n (8 - enc_offset e)); apply IH; simpl; lia. }
  apply H; [done|lia].
Qed.

Lemma pack_each_total append_ok e span :
  offset_ok e -> exists packed e', pack_each append_ok e span = ok (packed, e') /\ offset_ok e'.
Proof.
  revert e. induction span as [|b span IH]; intros e Ho; simpl; [by eexists _, _|].
  destruct (pack_total append_ok e b 8 Ho ltac:(lia)) as (packed & e' & -> & He'). rewrite bind_ok.
  destruct packed; [by apply IH|by eexists _, _].
Qed.

Lemma pack_bytes_total append_ok e span :
  offset_ok e -> exists packed e', pack_bytes append_ok e span = ok (packed, e') /\ offset_ok e'.
Proof.
  intros Ho. unfold pack_bytes. destruct (_ =? 0); [by eexists _, _|]. destruct (_ =? 0); [|by apply pack_each_total].
  destruct (append_range _ _ _) as [packed l]. exists packed, (mk_encoder l 0). split; [done|]. unfold offset_ok. simpl. lia.
Qed.

Lemma octet_to_bits b : is_byte b -> bits_of [b] = to_bits 8 b.
Proof. intros Hb. cbn [bits_of flat_map]. by rewrite app_nil_r, octet_bits_to_bits. Qed.

Lemma pack_each_bits e span :
  encoder_wf e -> is_bytes span ->
  exists e', pack_each (fun _ => true) e span = ok (true, e') /\ encoder_wf e' /\ enc_bits e' = enc_bits e ++ bits_of span.
Proof.
  revert e. induction span as [|b span IH]; intros e He Hs; [exists e; by rewrite app_nil_r|].
  apply Forall_cons in Hs as [Hb Hs]. simpl.
  destruct (pack_bits e b 8 He ltac:(lia)) as (e1 & -> & He1 & E1); [unfold is_byte in Hb; lia|]. rewrite bind_ok.
  destruct (IH e1 He1 Hs) as (e2 & -> & He2 & E2). exists e2. split; [done|]. split; [done|].
  change (Z.to_nat 8) with 8%nat in E1. rewrite E2, E1, <- app_assoc. f_equal. by rewrite <- (octet_to_bits b Hb), <- (bits_of_app [b]).
Qed.

Lemma pack_bytes_bits e span :
  encoder_wf e -> is_bytes span ->
  exists e', pack_bytes (fun _ => true) e span = ok (true, e') /\ encoder_wf e' /\ enc_bits e' = enc_bits e ++ bits_of span.
Proof.
  intros He Hs. unfold pack_bytes. destruct (Z.eqb_spec (zlen span) 0) as [E|_].
  { destruct span; [|simpl in E; lia]. exists e. by rewrite app_nil_r. }
  destruct (Z.eqb_spec (enc_offset e) 0) as [E|_]; [|by apply pack_each_bits].
  rewrite append_range_ok. eexists. split; [done|]. split; [apply encoder_aligned, Forall_app; split; [apply He|done]|].
  destruct e as [l off]. simpl in E. subst off. by rewrite !enc_bits_aligned, bits_of_app.
Qed.

(** At an octet boundary the decoder has whole octets left. *)
Lemma left_bits_octets d l : decoder_wf d -> is_bytes l -> left_bits d = bits_of l -> d = mk_decoder l 0.
Proof.
  intros Hd Hl E. pose proof (left_bits_length d Hd) as Hn. rewrite E, bits_of_length in Hn. destruct Hd as [Hb Ho _].
  destruct d as [l' off]. unfold dec_nbits in Hn. simpl in *. assert (off = 0) as -> by lia. f_equal.
  by apply bits_of_inj.
Qed.

Lemma left_bits_boundary d : decoder_wf d -> zlen (left_bits d) mod 8 = 0 -> d = mk_decoder (dec_bytes d) 0.
Proof.
  intros Hd E. rewrite (left_bits_length d Hd) in E. destruct Hd as [_ Ho _]. destruct d as [l off]. unfold dec_nbits in E. simpl in *.
  f_equal. divmod.
Qed.

(** [n] octets from an octet boundary on. *)
Lemma unpack_aligned_bits d l rest :
  decoder_wf d -> is_bytes l -> left_bits d = bits_of l ++ rest -> zlen rest mod 8 = 0 ->
  exists d', unpack_aligned_bytes (zlen l) d = (l, d') /\ decoder_wf d' /\ left_bits d' = rest.
Proof.
  intros Hd Hl E Hr. assert (E0 : d = mk_decoder (dec_bytes d) 0).
  { apply left_bits_boundary; [done|]. rewrite E, length_app, bits_of_length. divmod. }
  destruct Hd as [Hb _ _]. destruct d as [l' off]. simpl in *. injection E0 as ->. rewrite left_bits_aligned in E.
  assert (Hle : (length l <= length l')%nat).
  { apply (f_equal length) in E. rewrite length_app, !bits_of_length in E. lia. }
  assert (Et : take (length l) l' = l /\ bits_of (drop (length l) l') = rest).
  { rewrite <- (take_drop (length l) l'), bits_of_app in E. apply app_inj_1 in E as [E1 E2].
    - split; [|done]. apply bits_of_inj; [by apply Forall_take|done|done].
    - rewrite !bits_of_length, length_take. lia. }
  destruct Et as [Et Er]. exists (mk_decoder (drop (length l) l') 0). unfold unpack_aligned_bytes, align_bytes. simpl.
  split; [|split; [by apply decoder_aligned, Forall_drop|done]].
  destruct (Z.eqb_spec (zlen l) 0) as [E0|_]; [destruct l; [|simpl in E0; lia]; done|].
  destruct (Z.ltb_spec (zlen l') (zlen l)); [lia|]. by rewrite Nat2Z.id, Et.
Qed.

(** Whatever the length asked for, it stays a decoder, and the octets are octets of the buffer. *)
Lemma unpack_aligned_total n d :
  decoder_wf d -> decoder_wf (unpack_aligned_bytes n d).2 /\ is_bytes (unpack_aligned_bytes n d).1 /\
    dec_nbits (unpack_aligned_bytes n d).2 <= dec_nbits d.
Proof.
  intros [Hb Ho Hne].
  assert (Ha : align_bytes d = mk_decoder (dec_bytes (align_bytes d)) 0 /\ is_bytes (dec_bytes (align_bytes d)) /\
    8 * zlen (dec_bytes (align_bytes d)) <= dec_nbits d).
  { destruct d as [l off]. unfold align_bytes, dec_nbits. simpl in *. destruct (Z.eqb_spec off 0) as [->|]; simpl.
    - split; [done|]. split; [done|lia].
    - split; [done|]. destruct l as [|x l]; [by destruct Hne|]. apply Forall_cons in Hb as [_ Hb]. cbn [tail length]. split; [done|lia]. }
  unfold unpack_aligned_bytes. destruct Ha as (Ea & Hba & Hle). rewrite Ea. simpl. set (l := dec_bytes (align_bytes d)) in *.
  assert (Hz : dec_nbits (mk_decoder l 0) = 8 * zlen l) by (unfold dec_nbits; simpl; lia).
  destruct (n =? 0); [split; [by apply decoder_aligned|]; split; [constructor|simpl; lia]|].
  destruct (zlen l <? n); [split; [by apply decoder_aligned|]; split; [constructor|simpl; lia]|]. simpl.
  split; [by apply decoder_aligned, Forall_drop|]. split; [by apply Forall_take|]. unfold dec_nbits at 1. simpl. rewrite length_drop. lia.
Qed.

(** * Readers and writers of fields

    What [VERIFY_READ], [VERIFY_WRITE] and the [&=] chains of the message codecs build from [bit_decoder] and
    [bit_encoder], as two small monads, and what it takes to verify a codec: [reads r bits a] (the reader takes
    exactly these bits and returns [a]), [writes w bits] (the writer appends exactly these bits) and
    [reader_ok r P] (the reader never fails, and what it returns satisfies [P]), each with a rule per combinator. *)

(** ** Readers

    A function that reads fields returns false at the first one that is missing; what it has written through its
    reference arguments by then is given up by all callers, so that [None] stands for it. *)
Definition reader (A : Type) : Type := bit_decoder -> outcome (option (A * bit_decoder)).

#[export] Instance reader_ret : MRet reader := fun A a d => ok (Some (a, d)).
#[export] Instance reader_bind : MBind reader := fun A B k r d =>
  res ← r d; match res with None => ok None | Some (a, d) => k a d end.

Definition reject {A} : reader A := fun _ => ok None.
Definition lift {A} (o : outcome A) : reader A := fun d => a ← o; ok (Some (a, d)).

(** [VERIFY_READ(decoder.unpack(x, n))] for a variable of [width] bits. *)
Definition read (width n : Z) : reader Z := fun d =>
  '(v, d) ← bit_decoder_unpack width d n; ok (option_map (fun v => (v, d)) v).

(** [decoder.unpack(x, n);], whatever it returns. *)
Definition read_unchecked (width n : Z) : reader Z := fun d =>
  '(_, v, d) ← bit_decoder_unpack_val width d n; ok (Some (v, d)).

(** A [bool] is one bit of a variable of eight. *)
Definition to_flag (v : Z) : bool := negb (v =? 0).
Definition read_bool : reader bool := v ← read 8 1; mret (to_flag v).
Definition read_bool_unchecked : reader bool := v ← read_unchecked 8 1; mret (to_flag v).

Definition read_when {A} (c : bool) (r : reader A) : reader (option A) := if c then x ← r; mret (Some x) else mret None.

(** [decoder.unpack_bytes(span)], and [decoder.unpack_aligned_bytes(n)]. *)
Definition read_bytes (n : Z) : reader bytes := fun d => '(l, d) ← unpack_bytes n d; ok (option_map (fun l => (l, d)) l).
Definition read_aligned_bytes (n : Z) : reader bytes := fun d => ok (Some (unpack_aligned_bytes n d)).

Fixpoint read_times {A} (n : nat) (r : list A -> reader (list A)) (acc : list A) : reader (list A) :=
  match n with O => mret acc | S n => acc ← r acc; read_times n r acc end.

(** ** Writers *)
Definition writer : Type := bit_encoder -> outcome (bool * bit_encoder).

Section writers.
Context (append_ok : bytes -> bool).

Definition write (v n : Z) : writer := fun e => bit_encoder_pack append_ok e v n.
Definition write_bool (b : bool) : writer := write (Z.b2z b) 1.
Definition write_bytes (span : bytes) : writer := fun e => pack_bytes append_ok e span.
Definition write_nothing : writer := fun e => ok (true, e).

(** [VERIFY_WRITE(w1); w2] *)
Definition write_then (w1 w2 : writer) : writer := fun e =>
  '(packed, e) ← w1 e; if packed : bool then w2 e else ok (false, e).

(** [pack_ok &= w1; pack_ok &= w2;] *)
Definition write_and (w1 w2 : writer) : writer := fun e =>
  '(packed1, e) ← w1 e; '(packed2, e) ← w2 e; ok (packed1 && packed2, e).

Definition write_when (c : bool) (w : writer) : writer := if c then w else write_nothing.
Definition write_option {A} (o : option A) (w : A -> writer) : writer :=
  match o with Some a => w a | None => write_nothing end.

Fixpoint write_each {A} (l : list A) (w : A -> writer) : writer :=
  match l with [] => write_nothing | a :: l => write_then (w a) (write_each l w) end.
End writers.

Declare Scope codec_scope.
Notation "w1 ;> w2" := (write_then w1 w2) (at level 60, right associativity) : codec_scope.
Notation "w1 &> w2" := (write_and w1 w2) (at level 60, right associativity) : codec_scope.
Open Scope codec_scope.

(** ** What a reader takes *)
Definition reads {A} (r : reader A) (bits : list bool) (a : A) : Prop :=
  forall d rest, decoder_wf d -> left_bits d = bits ++ rest ->
    exists d', r d = ok (Some (a, d')) /\ decoder_wf d' /\ left_bits d' = rest.

(** The same, when whole octets follow. *)
Definition reads_octets {A} (r : reader A) (bits : list bool) (a : A) : Prop :=
  forall d rest, decoder_wf d -> left_bits d = bits ++ rest -> zlen rest mod 8 = 0 ->
    exists d', r d = ok (Some (a, d')) /\ decoder_wf d' /\ left_bits d' = rest.

Lemma reads_reads_octets {A} (r : reader A) bits a : reads r bits a -> reads_octets r bits a.
Proof. intros H d rest Hd E _. by apply H. Qed.

Lemma reads_ret {A} (a : A) : reads (mret a) [] a.
Proof. intros d rest Hd E. by exists d. Qed.

Lemma reads_bind {A B} (r : reader A) (k : A -> reader B) b1 b2 a b :
  reads r b1 a -> reads (k a) b2 b -> reads (r ≫= k) (b1 ++ b2) b.
Proof.
  intros Hr Hk d rest Hd E. rewrite <- app_assoc in E. destruct (Hr d _ Hd E) as (d1 & E1 & Hd1 & L1).
  destruct (Hk d1 rest Hd1 L1) as (d2 & E2 & Hd2 & L2). exists d2. split; [|done].
  unfold mbind, reader_bind. rewrite E1. exact E2.
Qed.

Lemma reads_octets_bind {A B} (r : reader A) (k : A -> reader B) b1 b2 a b :
  reads_octets r b1 a -> reads_octets (k a) b2 b -> zlen b2 mod 8 = 0 -> reads_octets (r ≫= k) (b1 ++ b2) b.
Proof.
  intros Hr Hk H2 d rest Hd E Hrest. rewrite <- app_assoc in E.
  destruct (Hr d _ Hd E) as (d1 & E1 & Hd1 & L1); [rewrite length_app; divmod|].
  destruct (Hk d1 rest Hd1 L1 Hrest) as (d2 & E2 & Hd2 & L2). exists d2. split; [|done].
  unfold mbind, reader_bind. rewrite E1. exact E2.
Qed.

(** A step that takes nothing. *)
Lemma reads_bind_nil {A B} (r : reader A) (k : A -> reader B) bits a b :
  reads r [] a -> reads (k a) bits b -> reads (r ≫= k) bits b.
Proof. apply reads_bind. Qed.

(** The last field. *)
Lemma reads_bind_last {A B} (r : reader A) (k : A -> reader B) bits a b :
  reads r bits a -> reads (k a) [] b -> reads (r ≫= k) bits b.
Proof. intros Hr Hk. rewrite <- (app_nil_r bits). by eapply reads_bind. Qed.

Lemma reads_lift {A} (o : outcome A) a : o = ok a -> reads (lift o) [] a.
Proof. intros -> d rest Hd E. by exists d. Qed.

(** A check that passes. *)
Lemma reads_check {A} (c : bool) (r : reader A) bits a : c = false -> reads r bits a -> reads (if c then reject else r) bits a.
Proof. by intros ->. Qed.

Lemma to_bits_read n v rest :
  0 <= n -> 0 <= v < 2 ^ n -> bits_value (take (Z.to_nat n) (to_bits (Z.to_nat n) v ++ rest)) = v /\
  drop (Z.to_nat n) (to_bits (Z.to_nat n) v ++ rest) = rest /\ (n <=? zlen (to_bits (Z.to_nat n) v ++ rest)) = true.
Proof.
  intros Hn Hv. pose proof (to_bits_length (Z.to_nat n) v) as Hl. split_and!.
  - rewrite take_app_length' by done. rewrite bits_value_to_bits, Z2Nat.id by lia. by apply Z.mod_small.
  - by apply drop_app_length'.
  - apply Z.leb_le. rewrite length_app. lia.
Qed.

Lemma reads_field width n v : 0 <= n <= width -> 0 <= v < 2 ^ n -> reads (read width n) (to_bits (Z.to_nat n) v) v.
Proof.
  intros Hn Hv d rest Hd E. destruct (unpack_bits width d n Hd Hn) as ([o d'] & Er & Hd' & Hp). rewrite E in Hp.
  destruct (to_bits_read n v rest ltac:(lia) Hv) as (Et & Edr & Hle). rewrite Hle, Et, Edr in Hp. simpl in Hp. destruct Hp as [-> El].
  exists d'. unfold read. by rewrite Er.
Qed.

Lemma unpack_val_unpack width d n :
  bit_decoder_unpack width d n =
  ('(found, val, d) ← bit_decoder_unpack_val width d n; ok (if found : bool then Some val else None, d)).
Proof.
  unfold bit_decoder_unpack, bit_decoder_unpack_val. destruct (srsran_assert _); [|done]. apply unpack_val_loop_unpack.
Qed.

Lemma reads_unchecked width n v :
  0 <= n <= width -> 0 <= v < 2 ^ n -> reads (read_unchecked width n) (to_bits (Z.to_nat n) v) v.
Proof.
  intros Hn Hv d rest Hd E. destruct (reads_field width n v Hn Hv d rest Hd E) as (d' & Er & H). exists d'. split; [|done].
  unfold read in Er. rewrite unpack_val_unpack in Er. unfold read_unchecked.
  destruct (bit_decoder_unpack_val width d n) as [[[found w] d1]|]; [|done]. unfold mbind, outcome_bind in *. destruct found; simpl in *; congruence.
Qed.

Lemma to_flag_b2z b : to_flag (Z.b2z b) = b.
Proof. by destruct b. Qed.

Lemma b2z_range b n : 0 < n -> 0 <= Z.b2z b < 2 ^ n.
Proof. intros Hn. assert (2 ^ 1 <= 2 ^ n) by (apply Z.pow_le_mono_r; lia). destruct b; simpl; lia. Qed.

Lemma reads_bool b : reads read_bool [b] b.
Proof.
  rewrite <- (app_nil_r [b]). replace [b] with (to_bits (Z.to_nat 1) (Z.b2z b)) by (by destruct b).
  apply (reads_bind _ _ _ _ (Z.b2z b)); [apply reads_field; [lia|by apply b2z_range]|]. rewrite to_flag_b2z. apply reads_ret.
Qed.

Lemma reads_bool_unchecked b : reads read_bool_unchecked [b] b.
Proof.
  rewrite <- (app_nil_r [b]). replace [b] with (to_bits (Z.to_nat 1) (Z.b2z b)) by (by destruct b).
  apply (reads_bind _ _ _ _ (Z.b2z b)); [apply reads_unchecked; [lia|by apply b2z_range]|]. rewrite to_flag_b2z. apply reads_ret.
Qed.

Definition option_bits {A} (f : A -> list bool) (o : option A) : list bool := from_option f [] o.

Lemma reads_when {A} (r : reader A) (f : A -> list bool) (o : option A) :
  (forall a, o = Some a -> reads r (f a) a) -> reads (read_when (bool_decide (is_Some o)) r) (option_bits f o) o.
Proof.
  intros H. destruct o as [a|].
  - rewrite bool_decide_true by done. simpl. rewrite <- (app_nil_r (f a)). apply (reads_bind _ _ _ _ a); [by apply H|apply reads_ret].
  - rewrite bool_decide_false by (by intros [? ?]). apply reads_ret.
Qed.

Lemma reads_times {A} (r : list A -> reader (list A)) (f : A -> list bool) (l acc : list A) :
  (forall l1 a l2, l = l1 ++ a :: l2 -> reads (r (acc ++ l1)) (f a) ((acc ++ l1) ++ [a])) ->
  reads (read_times (length l) r acc) (concat (f <$> l)) (acc ++ l).
Proof.
  revert acc. induction l as [|a l IH]; intros acc H; [rewrite app_nil_r; apply reads_ret|]. simpl.
  apply (reads_bind _ _ _ _ (acc ++ [a])); [by pose proof (H [] a l eq_refl) as Ha; rewrite app_nil_r in Ha|].
  replace (acc ++ a :: l) with ((acc ++ [a]) ++ l) by (by rewrite <- app_assoc). apply IH. intros l1 b l2 ->.
  pose proof (H (a :: l1) b l2 eq_refl) as Hb. by rewrite <- app_assoc.
Qed.

Lemma reads_aligned_bytes l : is_bytes l -> reads_octets (read_aligned_bytes (zlen l)) (bits_of l) l.
Proof.
  intros Hl d rest Hd E Hr. destruct (unpack_aligned_bits d l rest Hd Hl E Hr) as (d' & Eu & Hd' & Ed'). exists d'.
  unfold read_aligned_bytes. by rewrite Eu.
Qed.

(** ** What a writer appends *)
Definition writes (w : writer) (bits : list bool) : Prop :=
  forall e, encoder_wf e -> exists e', w e = ok (true, e') /\ encoder_wf e' /\ enc_bits e' = enc_bits e ++ bits.

Local Abbreviation mem := (fun _ => true).

Lemma writes_field v n : 0 <= n <= 64 -> 0 <= v < 2 ^ 64 -> writes (write mem v n) (to_bits (Z.to_nat n) v).
Proof. intros Hn Hv e He. by apply pack_bits. Qed.

Lemma writes_bool b : writes (write_bool mem b) [b].
Proof. intros e He. replace [b] with (to_bits (Z.to_nat 1) (Z.b2z b)) by (by destruct b). apply pack_bits; [done|lia|by apply b2z_range]. Qed.

Lemma writes_bytes span : is_bytes span -> writes (write_bytes mem span) (bits_of span).
Proof. intros Hs e He. by apply pack_bytes_bits. Qed.

Lemma writes_nothing : writes write_nothing [].
Proof. intros e He. exists e. by rewrite app_nil_r. Qed.

Lemma writes_then w1 w2 b1 b2 : writes w1 b1 -> writes w2 b2 -> writes (w1 ;> w2) (b1 ++ b2).
Proof.
  intros H1 H2 e He. destruct (H1 e He) as (e1 & E1 & He1 & B1). destruct (H2 e1 He1) as (e2 & E2 & He2 & B2).
  exists e2. unfold write_then. rewrite E1, bind_ok. split; [done|]. split; [done|]. by rewrite B2, B1, <- app_assoc.
Qed.

Lemma writes_and w1 w2 b1 b2 : writes w1 b1 -> writes w2 b2 -> writes (w1 &> w2) (b1 ++ b2).
Proof.
  intros H1 H2 e He. destruct (H1 e He) as (e1 & E1 & He1 & B1). destruct (H2 e1 He1) as (e2 & E2 & He2 & B2).
  exists e2. unfold write_and. rewrite E1, bind_ok, E2, bind_ok. split; [done|]. split; [done|]. by rewrite B2, B1, <- app_assoc.
Qed.

Lemma writes_when c w b : (c = true -> writes w b) -> writes (write_when c w) (if c then b else []).
Proof. intros H. destruct c; [by apply H|apply writes_nothing]. Qed.

Lemma writes_option {A} (o : option A) w f : (forall a, o = Some a -> writes (w a) (f a)) -> writes (write_option o w) (option_bits f o).
Proof. intros H. destruct o; [by apply H|apply writes_nothing]. Qed.

Lemma writes_each {A} (l : list A) w f : (forall a, a ∈ l -> writes (w a) (f a)) -> writes (write_each l w) (concat (f <$> l)).
Proof.
  induction l as [|a l IH]; intros H; [apply writes_nothing|]. apply writes_then; [apply H; by left|].
  apply IH. intros b Hb. apply H. by right.
Qed.

(** ** What a reader returns, whatever it reads *)
Definition reader_ok {A} (r : reader A) (P : A -> Prop) : Prop :=
  forall d, decoder_wf d -> exists res, r d = ok res /\
    match res with Some (a, d') => P a /\ decoder_wf d' /\ dec_nbits d' <= dec_nbits d | None => True end.

Lemma reader_ok_ret {A} (a : A) (P : A -> Prop) : P a -> reader_ok (mret a) P.
Proof. intros Ha d Hd. exists (Some (a, d)). split; [done|]. split; [done|]. split; [done|lia]. Qed.

Lemma reader_ok_reject {A} (P : A -> Prop) : reader_ok reject P.
Proof. intros d Hd. by exists None. Qed.

Lemma reader_ok_check {A} (c : bool) (r : reader A) (P : A -> Prop) : (c = false -> reader_ok r P) -> reader_ok (if c then reject else r) P.
Proof. intros H. destruct c; [apply reader_ok_reject|by apply H]. Qed.

Lemma reader_ok_bind {A B} (r : reader A) (k : A -> reader B) (P : A -> Prop) (Q : B -> Prop) :
  reader_ok r P -> (forall a, P a -> reader_ok (k a) Q) -> reader_ok (r ≫= k) Q.
Proof.
  intros Hr Hk d Hd. unfold mbind, reader_bind. destruct (Hr d Hd) as ([[a d']|] & -> & H); simpl; [|by exists None].
  destruct H as (Ha & Hd' & Hl). destruct (Hk a Ha d' Hd') as (res & E & H). exists res. split; [exact E|].
  destruct res as [[b d'']|]; [|done]. destruct H as (Hb & Hd'' & Hl'). split; [done|]. split; [done|]. lia.
Qed.

Lemma reader_ok_weaken {A} (r : reader A) (P Q : A -> Prop) : reader_ok r P -> (forall a, P a -> Q a) -> reader_ok r Q.
Proof.
  intros H HPQ d Hd. destruct (H d Hd) as (res & E & Hres). exists res. split; [done|]. destruct res as [[a d']|]; [|done].
  destruct Hres. split; [by apply HPQ|done].
Qed.

Lemma decoder_wf_reading d : decoder_wf d -> reading d.
Proof. intros [H1 H2 _]. by split. Qed.

Lemma reader_ok_unchecked width n : 0 <= n <= width -> reader_ok (read_unchecked width n) (fun v => 0 <= v < 2 ^ n).
Proof.
  intros Hn d Hd. destruct (unpack_val_range width d n (decoder_wf_reading d Hd) Hn) as (found & v & d' & E & Hd' & Hv & Hle).
  exists (Some (v, d')). unfold read_unchecked. rewrite E. split; [done|]. split; [done|].
  pose proof (left_bits_length d Hd) as Hn0.
  destruct (bit_decoder_unpack_ok width d n Hd Hn) as ([o d2] & E2 & Hp). rewrite unpack_val_unpack, E in E2.
  injection E2 as Eo Ed. subst d2. unfold unpack_post in Hp. destruct (n <=? _).
  - destruct Hp as (d'' & Eq & Hwf & _). injection Eq as _ ->. pose proof (left_bits_length d'' Hwf). split; [done|lia].
  - destruct Hp as [_ Hwf]. simpl in Hwf. pose proof (left_bits_length d' Hwf). split; [done|lia].
Qed.

Lemma reader_ok_read width n : 0 <= n <= width -> reader_ok (read width n) (fun v => 0 <= v < 2 ^ n).
Proof.
  intros Hn d Hd. destruct (reader_ok_unchecked width n Hn d Hd) as (res & E & H). unfold read_unchecked in E. unfold read.
  rewrite unpack_val_unpack. destruct (bit_decoder_unpack_val width d n) as [[[found v] d']|]; [|done].
  injection E as <-. destruct found; simpl; [by exists (Some (v, d'))|by exists None].
Qed.

Lemma reader_ok_bool : reader_ok read_bool (fun _ => True).
Proof. eapply reader_ok_bind; [apply reader_ok_read; lia|]. intros v _. by apply reader_ok_ret. Qed.

Lemma reader_ok_bool_unchecked : reader_ok read_bool_unchecked (fun _ => True).
Proof. eapply reader_ok_bind; [apply reader_ok_unchecked; lia|]. intros v _. by apply reader_ok_ret. Qed.

Lemma reader_ok_when {A} c (r : reader A) (P : A -> Prop) :
  (c = true -> reader_ok r P) -> reader_ok (read_when c r) (fun o => forall a, o = Some a -> P a).
Proof.
  intros H. destruct c; [|by apply reader_ok_ret]. eapply reader_ok_bind; [by apply H|]. intros a Ha.
  apply reader_ok_ret. by intros ? [= <-].
Qed.

Lemma reader_ok_times {A} n (r : list A -> reader (list A)) (P : nat -> list A -> Prop) acc k :
  P k acc -> (forall i l, (k <= i < k + n)%nat -> P i l -> reader_ok (r l) (P (S i))) ->
  reader_ok (read_times n r acc) (P (k + n)%nat).
Proof.
  revert k acc. induction n as [|n IH]; intros k acc H0 Hr; [rewrite Nat.add_0_r; by apply reader_ok_ret|]. simpl.
  eapply (reader_ok_bind _ _ (P (S k))); [by apply Hr; [lia|]|]. intros l Hl. replace (k + S n)%nat with (S k + n)%nat by lia.
  apply IH; [done|]. intros i l' Hi. apply Hr. lia.
Qed.

Lemma reader_ok_lift {A} (o : outcome A) (P : A -> Prop) a : o = ok a -> P a -> reader_ok (lift o) P.
Proof. intros -> Ha d Hd. exists (Some (a, d)). split; [done|]. split; [done|]. split; [done|lia]. Qed.

Lemma reader_ok_aligned_bytes n : reader_ok (read_aligned_bytes n) is_bytes.
Proof.
  intros d Hd. eexists. split; [reflexivity|]. destruct (unpack_aligned_total n d Hd) as (H1 & H2 & H3).
  destruct (unpack_aligned_bytes n d). by split.
Qed.

(** ** A writer never fails, even when the buffer cannot grow *)
Definition writer_ok (w : writer) : Prop :=
  forall e, offset_ok e -> exists packed e', w e = ok (packed, e') /\ offset_ok e'.

Section memory.
Context (append_ok : bytes -> bool).

Lemma writer_ok_field v n : n <= 64 -> writer_ok (write append_ok v n).
Proof. intros Hn e He. by apply pack_total. Qed.

Lemma writer_ok_bool b : writer_ok (write_bool append_ok b).
Proof. by apply writer_ok_field. Qed.

Lemma writer_ok_bytes span : writer_ok (write_bytes append_ok span).
Proof. intros e He. by apply pack_bytes_total. Qed.

Lemma writer_ok_nothing : writer_ok write_nothing.
Proof. intros e He. by eexists _, _. Qed.

Lemma writer_ok_then w1 w2 : writer_ok w1 -> writer_ok w2 -> writer_ok (w1 ;> w2).
Proof.
  intros H1 H2 e He. unfold write_then. destruct (H1 e He) as (packed & e1 & -> & He1). rewrite bind_ok.
  destruct packed; [by apply H2|by eexists _, _].
Qed.

Lemma writer_ok_and w1 w2 : writer_ok w1 -> writer_ok w2 -> writer_ok (w1 &> w2).
Proof.
  intros H1 H2 e He. unfold write_and. destruct (H1 e He) as (p1 & e1 & -> & He1). rewrite bind_ok.
  destruct (H2 e1 He1) as (p2 & e2 & -> & He2). rewrite bind_ok. by eexists _, _.
Qed.

Lemma writer_ok_when c w : writer_ok w -> writer_ok (write_when c w).
Proof. intros H. destruct c; [done|apply writer_ok_nothing]. Qed.

Lemma writer_ok_option {A} (o : option A) w : (forall a, writer_ok (w a)) -> writer_ok (write_option o w).
Proof. intros H. destruct o; [apply H|apply writer_ok_nothing]. Qed.

Lemma writer_ok_each {A} (l : list A) w : (forall a, writer_ok (w a)) -> writer_ok (write_each l w).
Proof. intros H. induction l as [|a l IH]; [apply writer_ok_nothing|by apply writer_ok_then]. Qed.
End memory.

(** ** Automation: a codec is verified field by field *)
Create HintDb codec discriminated.
#[export] Hint Resolve reads_ret reads_field reads_unchecked reads_bool reads_bool_unchecked reads_when : codec.
#[export] Hint Resolve writes_field writes_bool writes_bytes writes_nothing writes_then writes_and writes_when writes_option writes_each : codec.
#[export] Hint Resolve writer_ok_field writer_ok_bool writer_ok_bytes writer_ok_nothing writer_ok_then writer_ok_and writer_ok_when
  writer_ok_option writer_ok_each : codec.
