(* ===== verification/NruPacking.v ===== *)
(** * NR-U packing

    [lib/nru/nru_packing.cpp]: the frames of the NR user plane protocol that go between CU-UP and DU in the RAN container
    of a GTP-U packet, DL user data (PDU type 0) and DL data delivery status (PDU type 1), with the messages of
    [include/srsran/nru/nru_message.h]. [dl_user_data_bits] and [delivery_status_bits] are the formats; packing appends
    them with the padding, unpacking takes them back. *)
From S2P Require Import Prelude BitEncoding BitStream BitFields.

(** ** Messages *)
Record nru_pdcp_sn_discard_block := mk_discard_block { pdcp_sn_start : Z; block_size : Z }.
Record nru_lost_nru_sn_range := mk_lost_range { nru_sn_start : Z; nru_sn_end : Z }.

Definition nru_max_nof_pdcp_sn_discard_blocks : Z := 16.
Definition nru_max_nof_lost_nru_sn_ranges : Z := 2.

(** [static_vector::push_back] *)
Definition static_push {A} (capacity : Z) (l : list A) (x : A) : outcome (list A) :=
  srsran_assert (zlen l <? capacity);; ok (l ++ [x]).

Record nru_dl_user_data := mk_dl_user_data {
  report_polling : bool;
  request_out_of_seq_report : bool;
  report_delivered : bool;
  user_data_existence_flag : bool;
  assist_info_report_polling_flag : bool;
  retransmission_flag : bool;
  nru_sn : Z;
  dl_discard_pdcp_sn : option Z;
  discard_blocks : option (list nru_pdcp_sn_discard_block);
  dl_report_pdcp_sn : Z
}.

Record nru_dl_data_delivery_status := mk_delivery_status {
  final_frame_ind : bool;
  desired_buffer_size_for_drb : Z;
  desired_data_rate : option Z;
  lost_nru_sn_ranges : option (list nru_lost_nru_sn_range);
  highest_delivered_pdcp_sn : option Z;
  highest_transmitted_pdcp_sn : option Z;
  cause_value : option Z;
  highest_delivered_retransmitted_pdcp_sn : option Z;
  highest_retransmitted_pdcp_sn : option Z
}.

(** [nru_dl_user_data{}] and [nru_dl_data_delivery_status{}] *)
Definition dl_user_data_init : nru_dl_user_data := mk_dl_user_data false false false false false false 0 None None 0.
Definition delivery_status_init : nru_dl_data_delivery_status := mk_delivery_status false 0 None None None None None None None.

#[export] Instance discard_block_eq_dec : EqDecision nru_pdcp_sn_discard_block.
Proof. solve_decision. Defined.
#[export] Instance lost_range_eq_dec : EqDecision nru_lost_nru_sn_range.
Proof. solve_decision. Defined.
#[export] Instance dl_user_data_eq_dec : EqDecision nru_dl_user_data.
Proof. solve_decision. Defined.
#[export] Instance delivery_status_eq_dec : EqDecision nru_dl_data_delivery_status.
Proof. solve_decision. Defined.

(** [enum class nru_pdu_type : uint8_t]; any octet can be cast to it. *)
Definition pdu_dl_user_data : Z := 0.
Definition pdu_dl_data_delivery_status : Z := 1.

Definition get_pdu_type (container : bytes) : outcome Z :=
  match container with
  | [] => srsran_assert false;; ok 0
  | b :: _ => ok (Z.shiftr b 4)
  end.

(** ** Unpacking

    [out] is the object behind the reference argument. *)
Definition read_discard_block (blocks : list nru_pdcp_sn_discard_block) : reader (list nru_pdcp_sn_discard_block) :=
  _ ← lift (static_push nru_max_nof_pdcp_sn_discard_blocks blocks (mk_discard_block 0 0));
  start ← read 32 24;
  size ← read 8 8;
  mret (blocks ++ [mk_discard_block start size]).

Definition read_discard_blocks : reader (list nru_pdcp_sn_discard_block) :=
  nof_discard_blocks ← read 8 8;
  if nru_max_nof_pdcp_sn_discard_blocks <? nof_discard_blocks then reject
  else read_times (Z.to_nat nof_discard_blocks) read_discard_block [].

Definition dl_user_data_reader (out : nru_dl_user_data) : reader nru_dl_user_data :=
  pdu_type ← read 8 4;
  if negb (pdu_type =? pdu_dl_user_data) then reject else
  spare ← read 8 1;
  if negb (spare =? 0) then reject else
  dl_discard_blocks ← read_bool;
  dl_flush ← read_bool;
  report_polling ← read_bool;
  spare ← read 8 3;
  if negb (spare =? 0) then reject else
  request_out_of_seq_report ← read_bool_unchecked;
  report_delivered ← read_bool_unchecked;
  user_data_existence_flag ← read_bool_unchecked;
  assist_info_report_polling_flag ← read_bool_unchecked;
  retransmission_flag ← read_bool;
  nru_sn ← read 32 24;
  discard_sn ← read_when dl_flush (read 32 24);
  blocks ← read_when dl_discard_blocks read_discard_blocks;
  report_sn ← read_when report_delivered (read 32 24);
  mret {| report_polling := report_polling; request_out_of_seq_report := request_out_of_seq_report;
          report_delivered := report_delivered; user_data_existence_flag := user_data_existence_flag;
          assist_info_report_polling_flag := assist_info_report_polling_flag; retransmission_flag := retransmission_flag;
          nru_sn := nru_sn; dl_discard_pdcp_sn := union discard_sn (dl_discard_pdcp_sn out);
          discard_blocks := union blocks (discard_blocks out);
          dl_report_pdcp_sn := default (dl_report_pdcp_sn out) report_sn |}.

(** Both [unpack]s: the container is not empty, its length is [n*4-2], and the fields can be read. *)
Definition unpack_container {A} (r : reader A) (container : bytes) : outcome (option A) :=
  if zlen container =? 0 then ok None
  else if negb ((zlen container + 2) mod 4 =? 0) then ok None
  else res ← r (decoder_init container); ok (option_map fst res).

Definition unpack_dl_user_data (out : nru_dl_user_data) (container : bytes) : outcome (option nru_dl_user_data) :=
  unpack_container (dl_user_data_reader out) container.

Definition read_lost_range (ranges : list nru_lost_nru_sn_range) : reader (list nru_lost_nru_sn_range) :=
  _ ← lift (static_push nru_max_nof_lost_nru_sn_ranges ranges (mk_lost_range 0 0));
  first ← read 32 24;
  last ← read 32 24;
  mret (ranges ++ [mk_lost_range first last]).

Definition read_lost_ranges : reader (list nru_lost_nru_sn_range) :=
  nof_lost_sn_ranges ← read 8 8;
  if nru_max_nof_lost_nru_sn_ranges <? nof_lost_sn_ranges then reject
  else read_times (Z.to_nat nof_lost_sn_ranges) read_lost_range [].

Definition delivery_status_reader (out : nru_dl_data_delivery_status) : reader nru_dl_data_delivery_status :=
  pdu_type ← read 8 4;
  if negb (pdu_type =? pdu_dl_data_delivery_status) then reject else
  highest_transmitted_pdcp_sn_indication ← read_bool;
  highest_delivered_pdcp_sn_indication ← read_bool;
  final_frame_ind ← read_bool;
  lost_packet_report ← read_bool;
  spare ← read 8 4;
  if negb (spare =? 0) then reject else
  data_rate_indication ← read_bool;
  highest_retransmitted_pdcp_sn_indication ← read_bool;
  highest_delivered_retransmitted_pdcp_sn_indication ← read_bool;
  cause_report ← read_bool;
  desired_buffer_size_for_drb ← read 32 32;
  rate ← read_when data_rate_indication (read 32 32);
  ranges ← read_when lost_packet_report read_lost_ranges;
  delivered ← read_when highest_delivered_pdcp_sn_indication (read 32 24);
  transmitted ← read_when highest_transmitted_pdcp_sn_indication (read 32 24);
  cause ← read_when cause_report (read 32 8);
  delivered_retx ← read_when highest_delivered_retransmitted_pdcp_sn_indication (read 32 24);
  retransmitted ← read_when highest_retransmitted_pdcp_sn_indication (read 32 24);
  mret {| final_frame_ind := final_frame_ind; desired_buffer_size_for_drb := desired_buffer_size_for_drb;
          desired_data_rate := union rate (desired_data_rate out); lost_nru_sn_ranges := union ranges (lost_nru_sn_ranges out);
          highest_delivered_pdcp_sn := union delivered (highest_delivered_pdcp_sn out);
          highest_transmitted_pdcp_sn := union transmitted (highest_transmitted_pdcp_sn out);
          cause_value := union cause (cause_value out);
          highest_delivered_retransmitted_pdcp_sn := union delivered_retx (highest_delivered_retransmitted_pdcp_sn out);
          highest_retransmitted_pdcp_sn := union retransmitted (highest_retransmitted_pdcp_sn out) |}.

Definition unpack_delivery_status (out : nru_dl_data_delivery_status) (container : bytes)
    : outcome (option nru_dl_data_delivery_status) :=
  unpack_container (delivery_status_reader out) container.

(** ** Packing *)
Section pack.
Context (append_ok : bytes -> bool).

(** [dl_discard_blocks] of [pack] *)
Definition has_discard_blocks (m : nru_dl_user_data) : bool :=
  match discard_blocks m with Some (_ :: _) => true | _ => false end.

Definition write_discard_block (b : nru_pdcp_sn_discard_block) : writer :=
  write append_ok (pdcp_sn_start b) 24 ;> write append_ok (block_size b) 8.

Definition dl_user_data_writer (m : nru_dl_user_data) : writer :=
  write append_ok pdu_dl_user_data 4 ;>
  write append_ok 0 1 ;>
  write_bool append_ok (has_discard_blocks m) ;>
  write_bool append_ok (bool_decide (is_Some (dl_discard_pdcp_sn m))) ;>
  write_bool append_ok (report_polling m) ;>
  write append_ok 0 3 ;>
  write_bool append_ok (request_out_of_seq_report m) ;>
  write_bool append_ok (report_delivered m) ;>
  write_bool append_ok (user_data_existence_flag m) ;>
  write_bool append_ok (assist_info_report_polling_flag m) ;>
  write_bool append_ok (retransmission_flag m) ;>
  write append_ok (nru_sn m) 24 ;>
  write_option (dl_discard_pdcp_sn m) (fun sn => write append_ok sn 24) ;>
  write_when (has_discard_blocks m)
    (write_option (discard_blocks m) (fun blocks => write append_ok (zlen blocks) 8 ;> write_each blocks write_discard_block)) ;>
  write_when (report_delivered m) (write append_ok (dl_report_pdcp_sn m) 24).

Definition write_lost_range (r : nru_lost_nru_sn_range) : writer :=
  write append_ok (nru_sn_start r) 24 ;> write append_ok (nru_sn_end r) 24.

Definition delivery_status_writer (m : nru_dl_data_delivery_status) : writer :=
  write append_ok pdu_dl_data_delivery_status 4 ;>
  write_bool append_ok (bool_decide (is_Some (highest_transmitted_pdcp_sn m))) ;>
  write_bool append_ok (bool_decide (is_Some (highest_delivered_pdcp_sn m))) ;>
  write_bool append_ok (final_frame_ind m) ;>
  write_bool append_ok (bool_decide (is_Some (lost_nru_sn_ranges m))) ;>
  write append_ok 0 4 ;>
  write_bool append_ok (bool_decide (is_Some (desired_data_rate m))) ;>
  write_bool append_ok (bool_decide (is_Some (highest_retransmitted_pdcp_sn m))) ;>
  write_bool append_ok (bool_decide (is_Some (highest_delivered_retransmitted_pdcp_sn m))) ;>
  write_bool append_ok (bool_decide (is_Some (cause_value m))) ;>
  write append_ok (desired_buffer_size_for_drb m) 32 ;>
  write_option (desired_data_rate m) (fun rate => write append_ok rate 32) ;>
  write_option (lost_nru_sn_ranges m) (fun ranges => write append_ok (zlen ranges) 8 ;> write_each ranges write_lost_range) ;>
  write_option (highest_delivered_pdcp_sn m) (fun sn => write append_ok sn 24) ;>
  write_option (highest_transmitted_pdcp_sn m) (fun sn => write append_ok sn 24) ;>
  write_option (cause_value m) (fun cause => write append_ok cause 8) ;>
  write_option (highest_delivered_retransmitted_pdcp_sn m) (fun sn => write append_ok sn 24) ;>
  write_option (highest_retransmitted_pdcp_sn m) (fun sn => write append_ok sn 24).

(** The padding loop, to [n*4-2] octets. *)
Fixpoint pad_loop (fuel : nat) (start_len : Z) (out_buf : bytes) : outcome (bool * bytes) :=
  match fuel with
  | O => fail out_of_fuel
  | S fuel =>
      if (zlen out_buf - start_len + 2) mod 4 =? 0 then ok (true, out_buf)
      else if append_ok out_buf then pad_loop fuel start_len (out_buf ++ [0]) else ok (false, out_buf)
  end.

Definition pack_container (w : writer) (out_buf : bytes) : outcome (bool * bytes) :=
  let start_len := zlen out_buf in
  '(packed, encoder) ← w (encoder_init out_buf);
  if packed : bool then pad_loop 4 start_len (enc_bytes encoder) else ok (false, enc_bytes encoder).

Definition pack_dl_user_data (out_buf : bytes) (m : nru_dl_user_data) : outcome (bool * bytes) :=
  pack_container (dl_user_data_writer m) out_buf.

Definition pack_delivery_status (out_buf : bytes) (m : nru_dl_data_delivery_status) : outcome (bool * bytes) :=
  pack_container (delivery_status_writer m) out_buf.
End pack.

(** ** Formats *)
Definition discard_block_bits (b : nru_pdcp_sn_discard_block) : list bool := to_bits 24 (pdcp_sn_start b) ++ to_bits 8 (block_size b).
Definition discard_blocks_bits (l : list nru_pdcp_sn_discard_block) : list bool :=
  to_bits 8 (zlen l) ++ concat (discard_block_bits <$> l).

(** What of a message is on the wire: no empty list of blocks, and a PDCP SN to report only with its flag. *)
Definition sent_user_data (m : nru_dl_user_data) : nru_dl_user_data :=
  {| report_polling := report_polling m; request_out_of_seq_report := request_out_of_seq_report m;
     report_delivered := report_delivered m; user_data_existence_flag := user_data_existence_flag m;
     assist_info_report_polling_flag := assist_info_report_polling_flag m; retransmission_flag := retransmission_flag m;
     nru_sn := nru_sn m; dl_discard_pdcp_sn := dl_discard_pdcp_sn m;
     discard_blocks := if has_discard_blocks m then discard_blocks m else None;
     dl_report_pdcp_sn := if report_delivered m then dl_report_pdcp_sn m else 0 |}.

Definition dl_user_data_bits (m : nru_dl_user_data) : list bool :=
  to_bits 4 pdu_dl_user_data ++ to_bits 1 0 ++ [has_discard_blocks m] ++ [bool_decide (is_Some (dl_discard_pdcp_sn m))] ++
  [report_polling m] ++ to_bits 3 0 ++ [request_out_of_seq_report m] ++ [report_delivered m] ++ [user_data_existence_flag m] ++
  [assist_info_report_polling_flag m] ++ [retransmission_flag m] ++ to_bits 24 (nru_sn m) ++
  option_bits (to_bits 24) (dl_discard_pdcp_sn m) ++
  (if has_discard_blocks m then option_bits discard_blocks_bits (discard_blocks m) else []) ++
  (if report_delivered m then to_bits 24 (dl_report_pdcp_sn m) else []).

Definition lost_range_bits (r : nru_lost_nru_sn_range) : list bool := to_bits 24 (nru_sn_start r) ++ to_bits 24 (nru_sn_end r).
Definition lost_ranges_bits (l : list nru_lost_nru_sn_range) : list bool := to_bits 8 (zlen l) ++ concat (lost_range_bits <$> l).

Definition delivery_status_bits (m : nru_dl_data_delivery_status) : list bool :=
  to_bits 4 pdu_dl_data_delivery_status ++ [bool_decide (is_Some (highest_transmitted_pdcp_sn m))] ++
  [bool_decide (is_Some (highest_delivered_pdcp_sn m))] ++ [final_frame_ind m] ++
  [bool_decide (is_Some (lost_nru_sn_ranges m))] ++ to_bits 4 0 ++ [bool_decide (is_Some (desired_data_rate m))] ++
  [bool_decide (is_Some (highest_retransmitted_pdcp_sn m))] ++
  [bool_decide (is_Some (highest_delivered_retransmitted_pdcp_sn m))] ++ [bool_decide (is_Some (cause_value m))] ++
  to_bits 32 (desired_buffer_size_for_drb m) ++ option_bits (to_bits 32) (desired_data_rate m) ++
  option_bits lost_ranges_bits (lost_nru_sn_ranges m) ++ option_bits (to_bits 24) (highest_delivered_pdcp_sn m) ++
  option_bits (to_bits 24) (highest_transmitted_pdcp_sn m) ++ option_bits (to_bits 8) (cause_value m) ++
  option_bits (to_bits 24) (highest_delivered_retransmitted_pdcp_sn m) ++
  option_bits (to_bits 24) (highest_retransmitted_pdcp_sn m).

(** ** Messages whose fields fit *)
Definition fits (n v : Z) : Prop := 0 <= v < 2 ^ n.
Definition opt_fits (n : Z) (o : option Z) : Prop := forall v, o = Some v -> fits n v.

Definition discard_block_ok (b : nru_pdcp_sn_discard_block) : Prop := fits 24 (pdcp_sn_start b) /\ fits 8 (block_size b).
Definition discard_blocks_ok (l : list nru_pdcp_sn_discard_block) : Prop :=
  zlen l <= nru_max_nof_pdcp_sn_discard_blocks /\ Forall discard_block_ok l.
Definition lost_range_ok (r : nru_lost_nru_sn_range) : Prop := fits 24 (nru_sn_start r) /\ fits 24 (nru_sn_end r).
Definition lost_ranges_ok (l : list nru_lost_nru_sn_range) : Prop :=
  zlen l <= nru_max_nof_lost_nru_sn_ranges /\ Forall lost_range_ok l.

Record user_data_ok (m : nru_dl_user_data) : Prop := {
  uok_sn : fits 24 (nru_sn m);
  uok_discard_sn : opt_fits 24 (dl_discard_pdcp_sn m);
  uok_blocks : forall l, discard_blocks m = Some l -> discard_blocks_ok l;
  uok_report : fits 24 (dl_report_pdcp_sn m)
}.

Record delivery_status_ok (m : nru_dl_data_delivery_status) : Prop := {
  sok_size : fits 32 (desired_buffer_size_for_drb m);
  sok_rate : opt_fits 32 (desired_data_rate m);
  sok_ranges : forall l, lost_nru_sn_ranges m = Some l -> lost_ranges_ok l;
  sok_delivered : opt_fits 24 (highest_delivered_pdcp_sn m);
  sok_transmitted : opt_fits 24 (highest_transmitted_pdcp_sn m);
  sok_cause : opt_fits 8 (cause_value m);
  sok_delivered_retx : opt_fits 24 (highest_delivered_retransmitted_pdcp_sn m);
  sok_retransmitted : opt_fits 24 (highest_retransmitted_pdcp_sn m)
}.

(** ** Packing appends the format *)
Local Abbreviation mem := (fun _ => true).

Lemma writes_fit n v : 0 <= n <= 64 -> fits n v -> writes (write mem v n) (to_bits (Z.to_nat n) v).
Proof.
  unfold fits. intros Hn Hv. apply writes_field; [done|]. assert (2 ^ n <= 2 ^ 64) by (apply Z.pow_le_mono_r; lia). lia.
Qed.

Lemma dl_user_data_writes m : user_data_ok m -> writes (dl_user_data_writer mem m) (dl_user_data_bits m).
Proof.
  intros [Hsn Hdsn Hbl Hrep]. unfold dl_user_data_writer, dl_user_data_bits.
  repeat (apply writes_then; [first [apply writes_bool | by apply writes_fit | idtac]|]).
  - apply writes_option. intros sn E. apply (writes_fit 24 sn); [lia|by apply Hdsn].
  - apply writes_when. intros _. apply writes_option. intros l E. destruct (Hbl l E) as [Hl Hf]. unfold nru_max_nof_pdcp_sn_discard_blocks in Hl.
    apply writes_then; [apply (writes_fit 8); [lia|unfold fits; lia]|]. apply writes_each. intros b Hb.
    rewrite Forall_forall in Hf. destruct (Hf b Hb). apply writes_then; [by apply (writes_fit 24)|by apply (writes_fit 8)].
  - apply writes_when. intros _. by apply (writes_fit 24).
Qed.

Lemma delivery_status_writes m : delivery_status_ok m -> writes (delivery_status_writer mem m) (delivery_status_bits m).
Proof.
  intros [Hsz Hrate Hran Hdel Htr Hca Hdr Hrt]. unfold delivery_status_writer, delivery_status_bits.
  repeat (apply writes_then; [first [apply writes_bool | by apply writes_fit | idtac]|]).
  - apply writes_option. intros v E. apply (writes_fit 32); [lia|by apply Hrate].
  - apply writes_option. intros l E. destruct (Hran l E) as [Hl Hf]. unfold nru_max_nof_lost_nru_sn_ranges in Hl.
    apply writes_then; [apply (writes_fit 8); [lia|unfold fits; lia]|]. apply writes_each. intros b Hb.
    rewrite Forall_forall in Hf. destruct (Hf b Hb). apply writes_then; by apply (writes_fit 24).
  - apply writes_option. intros v E. apply (writes_fit 24); [lia|by apply Hdel].
  - apply writes_option. intros v E. apply (writes_fit 24); [lia|by apply Htr].
  - apply writes_option. intros v E. apply (writes_fit 8); [lia|by apply Hca].
  - apply writes_option. intros v E. apply (writes_fit 24); [lia|by apply Hdr].
  - apply writes_option. intros v E. apply (writes_fit 24); [lia|by apply Hrt].
Qed.

(** ** Unpacking takes the format *)
Lemma reads_fit width n v : 0 <= n <= width -> fits n v -> reads (read width n) (to_bits (Z.to_nat n) v) v.
Proof. intros Hn Hv. by apply reads_field. Qed.

Lemma reads_discard_blocks l : discard_blocks_ok l -> reads read_discard_blocks (discard_blocks_bits l) l.
Proof.
  intros [Hl Hf]. unfold nru_max_nof_pdcp_sn_discard_blocks in Hl. unfold read_discard_blocks, discard_blocks_bits.
  eapply reads_bind; [apply (reads_fit 8 8); [lia|unfold fits; lia]|]. apply reads_check.
  { unfold nru_max_nof_pdcp_sn_discard_blocks. lia. }
  rewrite Nat2Z.id. apply (reads_times _ _ l []). intros l1 [start size] l2 ->. simpl.
  rewrite Forall_forall in Hf. destruct (Hf (mk_discard_block start size)) as [Hs Hz]; [set_solver|].
  rewrite length_app in Hl. simpl in Hl.
  eapply reads_bind_nil; [apply reads_lift; unfold static_push, nru_max_nof_pdcp_sn_discard_blocks; rewrite srsran_assert_ok; [done|lia]|].
  unfold discard_block_bits. eapply reads_bind; [by apply (reads_fit 32 24)|].
  eapply reads_bind_last; [by apply (reads_fit 8 8)|apply reads_ret].
Qed.

Lemma reads_lost_ranges l : lost_ranges_ok l -> reads read_lost_ranges (lost_ranges_bits l) l.
Proof.
  intros [Hl Hf]. unfold nru_max_nof_lost_nru_sn_ranges in Hl. unfold read_lost_ranges, lost_ranges_bits.
  eapply reads_bind; [apply (reads_fit 8 8); [lia|unfold fits; lia]|]. apply reads_check.
  { unfold nru_max_nof_lost_nru_sn_ranges. lia. }
  rewrite Nat2Z.id. apply (reads_times _ _ l []). intros l1 [first last] l2 ->. simpl.
  rewrite Forall_forall in Hf. destruct (Hf (mk_lost_range first last)) as [Hs Hz]; [set_solver|].
  rewrite length_app in Hl. simpl in Hl.
  eapply reads_bind_nil; [apply reads_lift; unfold static_push, nru_max_nof_lost_nru_sn_ranges; rewrite srsran_assert_ok; [done|lia]|].
  unfold lost_range_bits. eapply reads_bind; [by apply (reads_fit 32 24)|].
  eapply reads_bind_last; [by apply (reads_fit 32 24)|apply reads_ret].
Qed.

Lemma union_None_r {A} (o : option A) : union o None = o.
Proof. by destruct o. Qed.

Lemma reads_dl_user_data m :
  user_data_ok m -> reads (dl_user_data_reader dl_user_data_init) (dl_user_data_bits m) (sent_user_data m).
Proof.
  intros [Hsn Hdsn Hbl Hrep]. unfold dl_user_data_reader, dl_user_data_bits.
  repeat first [apply reads_check; [done|] |
    eapply reads_bind; [first [apply reads_bool | apply reads_bool_unchecked | by apply reads_fit]|]].
  eapply reads_bind; [apply reads_when; intros v E; apply (reads_fit 32 24); [lia|by apply Hdsn]|].
  assert (E : (if has_discard_blocks m then option_bits discard_blocks_bits (discard_blocks m) else []) =
    option_bits discard_blocks_bits (discard_blocks (sent_user_data m)) /\
    has_discard_blocks m = bool_decide (is_Some (discard_blocks (sent_user_data m)))) .
  { unfold sent_user_data, has_discard_blocks. simpl. destruct (discard_blocks m) as [[|]|]; done. }
  destruct E as [-> Eb]. rewrite Eb. eapply reads_bind.
  { apply reads_when. intros l El. apply reads_discard_blocks, Hbl. simpl in El. by destruct (has_discard_blocks m). }
  eapply reads_bind_last.
  { unfold read_when. instantiate (1 := if report_delivered m then Some (dl_report_pdcp_sn m) else None).
    destruct (report_delivered m); [|apply reads_ret]. eapply reads_bind_last; [by apply (reads_fit 32 24)|apply reads_ret]. }
  simpl. rewrite !union_None_r. unfold sent_user_data. destruct (report_delivered m); apply reads_ret.
Qed.

Lemma reads_delivery_status m :
  delivery_status_ok m -> reads (delivery_status_reader delivery_status_init) (delivery_status_bits m) m.
Proof.
  intros [Hsz Hrate Hran Hdel Htr Hca Hdr Hrt]. unfold delivery_status_reader, delivery_status_bits.
  repeat first [apply reads_check; [done|] |
    eapply reads_bind; [first [apply reads_bool | by apply reads_fit]|]].
  eapply reads_bind; [apply reads_when; intros v E; apply (reads_fit 32 32); [lia|by apply Hrate]|].
  eapply reads_bind; [apply reads_when; intros v E; by apply reads_lost_ranges, Hran|].
  eapply reads_bind; [apply reads_when; intros v E; apply (reads_fit 32 24); [lia|by apply Hdel]|].
  eapply reads_bind; [apply reads_when; intros v E; apply (reads_fit 32 24); [lia|by apply Htr]|].
  eapply reads_bind; [apply reads_when; intros v E; apply (reads_fit 32 8); [lia|by apply Hca]|].
  eapply reads_bind; [apply reads_when; intros v E; apply (reads_fit 32 24); [lia|by apply Hdr]|].
  eapply reads_bind_last; [apply reads_when; intros v E; apply (reads_fit 32 24); [lia|by apply Hrt]|].
  simpl. rewrite !union_None_r. destruct m. apply reads_ret.
Qed.

(** ** The container: whole octets, and padding *)
Lemma pad_loop_ok fuel start l :
  0 <= start <= zlen l -> (4 - (zlen l - start + 2) mod 4) mod 4 < Z.of_nat fuel ->
  exists k, pad_loop mem fuel start l = ok (true, l ++ replicate k 0) /\ (zlen l + Z.of_nat k - start + 2) mod 4 = 0 /\ (k < 4)%nat.
Proof.
  revert l. induction fuel as [|fuel IH]; intros l Hs Hf; [exfalso; divmod|]. simpl.
  destruct (Z.eqb_spec ((zlen l - start + 2) mod 4) 0) as [E|E].
  { exists 0%nat. rewrite app_nil_r. split; [done|]. split; [|lia]. by rewrite Z.add_0_r. }
  destruct (IH (l ++ [0])) as (k & -> & Hk & Hlt); rewrite ?length_app; simpl; [lia|divmod|].
  rewrite length_app in Hk. simpl in Hk. exists (S k). rewrite <- app_assoc. split; [done|].
  assert (Hk' : (zlen l + Z.of_nat (S k) - start + 2) mod 4 = 0) by (etrans; [|exact Hk]; f_equal; lia).
  split; [done|]. clear -E Hk' Hlt. assert (k <> 3%nat) by (intros ->; divmod). lia.
Qed.

Lemma enc_whole_octets e : encoder_wf e -> enc_nbits e mod 8 = 0 -> bits_of (enc_bytes e) = enc_bits e.
Proof.
  intros He E. destruct (enc_nbits_bounds e He) as [_ Hp]. rewrite (enc_bytes_bits e He).
  assert (enc_pad e = 0) as ->; [|apply app_nil_r]. unfold enc_pad in *. divmod.
Qed.

Lemma replicate_zero_bits k : bits_of (replicate k 0) = replicate (8 * k) false.
Proof. induction k as [|k IH]; [done|]. replace (8 * S k)%nat with (8 + 8 * k)%nat by lia. rewrite replicate_add, <- IH. done. Qed.

(** Fields that fill whole octets are appended as octets. *)
Lemma writes_whole w bits out :
  writes w bits -> is_bytes out -> zlen bits mod 8 = 0 ->
  exists e c, w (encoder_init out) = ok (true, e) /\ enc_bytes e = out ++ c /\ is_bytes c /\ bits_of c = bits.
Proof.
  intros Hw Hout H8. unfold encoder_init. destruct (Hw (mk_encoder out 0) (encoder_aligned out Hout)) as (e & E & He & Eb).
  rewrite enc_bits_aligned in Eb. pose proof (enc_bits_length e He) as Hl.
  assert (Ebb : bits_of (enc_bytes e) = bits_of out ++ bits).
  { rewrite enc_whole_octets; [done|done|]. rewrite <- Hl, Eb, length_app, bits_of_length. divmod. }
  assert (Hle : (length out <= length (enc_bytes e))%nat).
  { apply (f_equal length) in Ebb. rewrite length_app, !bits_of_length in Ebb. lia. }
  exists e, (drop (length out) (enc_bytes e)). split; [exact E|].
  rewrite <- (take_drop (length out) (enc_bytes e)), bits_of_app in Ebb. apply app_inj_1 in Ebb as [E1 E2].
  - split; [|split; [apply Forall_drop, He|done]]. rewrite <- (take_drop (length out) (enc_bytes e)) at 1. f_equal.
    apply bits_of_inj; [apply Forall_take, He|done|done].
  - rewrite !bits_of_length, length_take. lia.
Qed.

Lemma pack_container_ok w bits out :
  writes w bits -> is_bytes out -> zlen bits mod 8 = 0 ->
  exists c k, pack_container mem w out = ok (true, out ++ c) /\ is_bytes c /\ (zlen c + 2) mod 4 = 0 /\
    bits_of c = bits ++ replicate k false /\ 8 * zlen c <= zlen bits + 24.
Proof.
  intros Hw Hout H8. unfold pack_container. destruct (writes_whole w bits out Hw Hout H8) as (e & c & -> & Es & Hc & Ec).
  rewrite bind_ok, Es. assert (Hlc : 8 * zlen c = zlen bits) by (rewrite <- Ec, bits_of_length; lia).
  destruct (pad_loop_ok 4 (zlen out) (out ++ c)) as (k & Ek & Hk & Hk4); [rewrite length_app; lia|divmod|].
  exists (c ++ replicate k 0), (8 * k)%nat. rewrite Ek, <- app_assoc. split; [done|]. split; [|split; [|split]].
  - apply Forall_app. split; [done|]. apply Forall_replicate. unfold is_byte. lia.
  - rewrite length_app, length_replicate. rewrite length_app in Hk. etrans; [|exact Hk]. f_equal. lia.
  - by rewrite bits_of_app, Ec, replicate_zero_bits.
  - rewrite length_app, length_replicate. lia.
Qed.

Lemma unpack_container_reads {A} (r : reader A) (a : A) bits c k :
  reads r bits a -> is_bytes c -> (zlen c + 2) mod 4 = 0 -> bits_of c = bits ++ replicate k false -> unpack_container r c = ok (Some a).
Proof.
  intros Hr Hc H4 E. unfold unpack_container. destruct (Z.eqb_spec (zlen c) 0) as [E0|_]; [rewrite E0 in H4; discriminate H4|].
  rewrite H4. simpl. unfold decoder_init.
  destruct (Hr (mk_decoder c 0) _ (decoder_aligned c Hc) E) as (d' & -> & _). done.
Qed.

Lemma concat_fixed_length {A} (f : A -> list bool) (n : nat) (l : list A) :
  (forall a, length (f a) = n) -> length (concat (f <$> l)) = (n * length l)%nat.
Proof.
  intros H. induction l as [|a l IH]; [simpl; lia|]. rewrite fmap_cons. cbn [concat length]. rewrite length_app, H, IH. lia.
Qed.

Lemma option_bits_octets {A} (f : A -> list bool) (o : option A) :
  (forall a, zlen (f a) mod 8 = 0) -> zlen (option_bits f o) mod 8 = 0.
Proof. intros H. destruct o; [apply H|done]. Qed.

Lemma dl_user_data_octets m : zlen (dl_user_data_bits m) mod 8 = 0.
Proof.
  assert (Hb : forall l, zlen (discard_blocks_bits l) mod 8 = 0).
  { intros l. unfold discard_blocks_bits. rewrite length_app, (concat_fixed_length discard_block_bits 32), to_bits_length; [divmod|].
    intros b. unfold discard_block_bits. by rewrite length_app, !to_bits_length. }
  assert (Hn : forall n (v : Z), zlen (to_bits (8 * n) v) mod 8 = 0) by (intros n v; rewrite to_bits_length; divmod).
  pose proof (option_bits_octets _ (dl_discard_pdcp_sn m) (Hn 3%nat)) as H1.
  pose proof (option_bits_octets _ (discard_blocks m) Hb) as H2. pose proof (Hn 3%nat (dl_report_pdcp_sn m)) as H3.
  unfold dl_user_data_bits. rewrite !length_app, !to_bits_length. change (8 * 3)%nat with 24%nat in *. cbn [length].
  destruct (has_discard_blocks m), (report_delivered m); cbn [length] in *; clear Hb Hn; divmod.
Qed.

Lemma delivery_status_octets m : zlen (delivery_status_bits m) mod 8 = 0.
Proof.
  assert (Hb : forall l, zlen (lost_ranges_bits l) mod 8 = 0).
  { intros l. unfold lost_ranges_bits. rewrite length_app, (concat_fixed_length lost_range_bits 48), to_bits_length; [divmod|].
    intros b. unfold lost_range_bits. by rewrite length_app, !to_bits_length. }
  assert (Hn : forall n (v : Z), zlen (to_bits (8 * n) v) mod 8 = 0) by (intros n v; rewrite to_bits_length; divmod).
  pose proof (option_bits_octets _ (desired_data_rate m) (Hn 4%nat)) as H1.
  pose proof (option_bits_octets _ (lost_nru_sn_ranges m) Hb) as H2.
  pose proof (option_bits_octets _ (highest_delivered_pdcp_sn m) (Hn 3%nat)) as H3.
  pose proof (option_bits_octets _ (highest_transmitted_pdcp_sn m) (Hn 3%nat)) as H4.
  pose proof (option_bits_octets _ (cause_value m) (Hn 1%nat)) as H5.
  pose proof (option_bits_octets _ (highest_delivered_retransmitted_pdcp_sn m) (Hn 3%nat)) as H6.
  pose proof (option_bits_octets _ (highest_retransmitted_pdcp_sn m) (Hn 3%nat)) as H7.
  unfold delivery_status_bits. rewrite !length_app, !to_bits_length.
  change (8 * 3)%nat with 24%nat in *. change (8 * 4)%nat with 32%nat in *. change (8 * 1)%nat with 8%nat in *.
  cbn [length]. clear Hb Hn. divmod.
Qed.

(** The longest formats. *)
Lemma option_bits_length {A} (f : A -> list bool) (o : option A) n : 0 <= n -> (forall a, o = Some a -> zlen (f a) <= n) -> 0 <= zlen (option_bits f o) <= n.
Proof. intros Hn H. destruct o; simpl; [|lia]. split; [lia|by apply H]. Qed.

Lemma dl_user_data_length m : user_data_ok m -> zlen (dl_user_data_bits m) <= 608.
Proof.
  intros Hm. assert (H1 : 0 <= zlen (option_bits (to_bits 24) (dl_discard_pdcp_sn m)) <= 24).
  { apply option_bits_length; [lia|]. intros v _. by rewrite to_bits_length. }
  assert (H2 : 0 <= zlen (option_bits discard_blocks_bits (discard_blocks m)) <= 520).
  { apply option_bits_length; [lia|]. intros l El. destruct (uok_blocks _ Hm l El) as [Hl _]. unfold nru_max_nof_pdcp_sn_discard_blocks in Hl.
    unfold discard_blocks_bits. rewrite length_app, (concat_fixed_length discard_block_bits 32), to_bits_length; [lia|].
    intros b. unfold discard_block_bits. by rewrite length_app, !to_bits_length. }
  unfold dl_user_data_bits. rewrite !length_app, !to_bits_length. cbn [length].
  destruct (has_discard_blocks m), (report_delivered m); rewrite ?to_bits_length; cbn [length]; lia.
Qed.

Lemma delivery_status_length m : delivery_status_ok m -> zlen (delivery_status_bits m) <= 288.
Proof.
  intros Hm. assert (Hopt : forall n (o : option Z), 0 <= zlen (option_bits (to_bits n) o) <= Z.of_nat n).
  { intros n o. apply option_bits_length; [lia|]. intros v _. by rewrite to_bits_length. }
  assert (H2 : 0 <= zlen (option_bits lost_ranges_bits (lost_nru_sn_ranges m)) <= 104).
  { apply option_bits_length; [lia|]. intros l El. destruct (sok_ranges _ Hm l El) as [Hl _]. unfold nru_max_nof_lost_nru_sn_ranges in Hl.
    unfold lost_ranges_bits. rewrite length_app, (concat_fixed_length lost_range_bits 48), to_bits_length; [lia|].
    intros b. unfold lost_range_bits. by rewrite length_app, !to_bits_length. }
  unfold delivery_status_bits. rewrite !length_app, !to_bits_length. cbn [length].
  pose proof (Hopt 32%nat (desired_data_rate m)). pose proof (Hopt 24%nat (highest_delivered_pdcp_sn m)).
  pose proof (Hopt 24%nat (highest_transmitted_pdcp_sn m)). pose proof (Hopt 8%nat (cause_value m)).
  pose proof (Hopt 24%nat (highest_delivered_retransmitted_pdcp_sn m)). pose proof (Hopt 24%nat (highest_retransmitted_pdcp_sn m)). lia.
Qed.

Lemma get_pdu_type_bits c t rest : is_bytes c -> fits 4 t -> bits_of c = to_bits 4 t ++ rest -> get_pdu_type c = ok t.
Proof.
  unfold fits. intros Hc Ht E. destruct c as [|b c]; [done|]. apply Forall_cons in Hc as [Hb _]. simpl. f_equal.
  change (b :: c) with ([b] ++ c) in E. rewrite bits_of_app, octet_to_bits in E by done.
  apply (f_equal (take 4)) in E. rewrite take_app_le, take_app_length' in E by (rewrite to_bits_length; lia).
  apply (f_equal bits_value) in E. rewrite bits_value_take, !bits_value_to_bits, to_bits_length in E by (rewrite to_bits_length; lia).
  unfold is_byte in Hb. change (2 ^ Z.of_nat 8) with 256 in E. change (2 ^ Z.of_nat 4) with 16 in E. change (2 ^ Z.of_nat (8 - 4)) with 16 in E.
  rewrite (Z.mod_small b), (Z.mod_small t) in E by lia. by rewrite Z.shiftr_div_pow2 by lia.
Qed.

(** ** Whatever arrives, unpacking returns, and what it returns fits *)
Lemma read_fits width n : 0 <= n <= width -> reader_ok (read width n) (fits n).
Proof. apply reader_ok_read. Qed.

Lemma static_push_ok {A} capacity (l : list A) x : zlen l < capacity -> static_push capacity l x = ok (l ++ [x]).
Proof. intros H. unfold static_push. by rewrite srsran_assert_ok by (apply Z.ltb_lt; lia). Qed.

Lemma read_discard_blocks_ok : reader_ok read_discard_blocks discard_blocks_ok.
Proof.
  unfold read_discard_blocks, discard_blocks_ok. eapply reader_ok_bind; [apply (read_fits 8 8); lia|]. intros n Hn. apply reader_ok_check. intros E.
  unfold fits in Hn. unfold nru_max_nof_pdcp_sn_discard_blocks in *.
  eapply reader_ok_weaken; [apply (reader_ok_times _ _ (fun i l => length l = i /\ Forall discard_block_ok l) _ 0%nat)|].
  - done.
  - intros i l Hi [Hl Hf]. eapply (reader_ok_bind _ _ (fun _ => True)).
    { eapply reader_ok_lift; [apply static_push_ok|done]. unfold nru_max_nof_pdcp_sn_discard_blocks. lia. }
    intros _ _. eapply reader_ok_bind; [apply (read_fits 32 24); lia|]. intros start Hs.
    eapply reader_ok_bind; [apply (read_fits 8 8); lia|]. intros size Hz. apply reader_ok_ret.
    rewrite length_app. simpl. split; [lia|]. apply Forall_app. split; [done|]. by apply Forall_singleton.
  - simpl. intros l [Hl Hf]. split; [lia|done].
Qed.

Lemma read_lost_ranges_ok : reader_ok read_lost_ranges lost_ranges_ok.
Proof.
  unfold read_lost_ranges, lost_ranges_ok. eapply reader_ok_bind; [apply (read_fits 8 8); lia|]. intros n Hn. apply reader_ok_check. intros E.
  unfold fits in Hn. unfold nru_max_nof_lost_nru_sn_ranges in *.
  eapply reader_ok_weaken; [apply (reader_ok_times _ _ (fun i l => length l = i /\ Forall lost_range_ok l) _ 0%nat)|].
  - done.
  - intros i l Hi [Hl Hf]. eapply (reader_ok_bind _ _ (fun _ => True)).
    { eapply reader_ok_lift; [apply static_push_ok|done]. unfold nru_max_nof_lost_nru_sn_ranges. lia. }
    intros _ _. eapply reader_ok_bind; [apply (read_fits 32 24); lia|]. intros first Hs.
    eapply reader_ok_bind; [apply (read_fits 32 24); lia|]. intros last Hz. apply reader_ok_ret.
    rewrite length_app. simpl. split; [lia|]. apply Forall_app. split; [done|]. by apply Forall_singleton.
  - simpl. intros l [Hl Hf]. split; [lia|done].
Qed.

Lemma union_fits n o o' : opt_fits n o -> opt_fits n o' -> opt_fits n (union o o').
Proof. unfold opt_fits. intros H H' v. destruct o, o'; simpl; intros [= <-]; auto. Qed.

(** One step through a reader of a message. *)
Ltac reader_step :=
  first [ apply reader_ok_check; intros _
        | eapply reader_ok_bind; [first [apply reader_ok_bool | apply reader_ok_bool_unchecked | by apply read_fits]|]; intros ? ?
        | eapply reader_ok_bind; [apply reader_ok_when; intros _; first [by apply read_fits | apply read_discard_blocks_ok | apply read_lost_ranges_ok]|]; intros ? ? ].

Lemma dl_user_data_reader_ok out : user_data_ok out -> reader_ok (dl_user_data_reader out) user_data_ok.
Proof.
  intros [Hsn Hdsn Hbl Hrep]. unfold dl_user_data_reader. repeat reader_step. apply reader_ok_ret.
  constructor; simpl; [done|by apply union_fits| |].
  - match goal with |- forall l, union ?o ?o' = _ -> _ => destruct o, o'; simpl; intros ? [= <-]; auto end.
  - match goal with |- fits 24 (default _ ?o) => destruct o; simpl; auto end.
Qed.

Lemma delivery_status_reader_ok out : delivery_status_ok out -> reader_ok (delivery_status_reader out) delivery_status_ok.
Proof.
  intros [Hsz Hrate Hran Hdel Htr Hca Hdr Hrt]. unfold delivery_status_reader. repeat reader_step. apply reader_ok_ret.
  constructor; simpl; try done; try by apply union_fits.
  match goal with |- forall l, union ?o ?o' = _ -> _ => destruct o, o'; simpl; intros ? [= <-]; auto end.
Qed.

Lemma unpack_container_ok {A} (r : reader A) (P : A -> Prop) c :
  reader_ok r P -> is_bytes c -> exists res, unpack_container r c = ok res /\ forall a, res = Some a -> P a.
Proof.
  intros Hr Hc. unfold unpack_container. destruct (_ =? 0); [by exists None|]. destruct (negb _); [by exists None|].
  destruct (Hr (decoder_init c) (decoder_aligned c Hc)) as ([[a d']|] & -> & H); [exists (Some a)|by exists None].
  split; [done|]. intros ? [= <-]. apply H.
Qed.

Lemma user_data_init_ok : user_data_ok dl_user_data_init.
Proof. by constructor; [| | |]. Qed.

Lemma delivery_status_init_ok : delivery_status_ok delivery_status_init.
Proof. by constructor. Qed.

(** ** Packing returns even when the buffer cannot grow *)
Lemma pad_loop_total append_ok fuel start l :
  (4 - (zlen l - start + 2) mod 4) mod 4 < Z.of_nat fuel -> exists packed l', pad_loop append_ok fuel start l = ok (packed, l').
Proof.
  revert l. induction fuel as [|fuel IH]; intros l Hf; [exfalso; divmod|]. simpl.
  destruct (Z.eqb_spec ((zlen l - start + 2) mod 4) 0) as [E|E]; [by eexists _, _|].
  destruct (append_ok l); [|by eexists _, _]. apply IH; rewrite ?length_app; simpl; divmod.
Qed.

Lemma pack_container_total append_ok w out : writer_ok w -> exists packed out', pack_container append_ok w out = ok (packed, out').
Proof.
  intros Hw. unfold pack_container. destruct (Hw (encoder_init out)) as (packed & e & -> & _); [by unfold offset_ok|].
  rewrite bind_ok. destruct packed; [apply pad_loop_total; divmod|by eexists _, _].
Qed.

Lemma dl_user_data_writer_ok append_ok m : writer_ok (dl_user_data_writer append_ok m).
Proof.
  unfold dl_user_data_writer, write_discard_block.
  repeat first [apply writer_ok_then | apply writer_ok_bool | apply writer_ok_field; lia | apply writer_ok_option; intros ? | apply writer_ok_when
    | apply writer_ok_each; intros ?].
Qed.

Lemma delivery_status_writer_ok append_ok m : writer_ok (delivery_status_writer append_ok m).
Proof.
  unfold delivery_status_writer, write_lost_range.
  repeat first [apply writer_ok_then | apply writer_ok_bool | apply writer_ok_field; lia | apply writer_ok_option; intros ?
    | apply writer_ok_each; intros ?].
Qed.

(** ** The properties *)
Lemma pack_user_data_spec m out :
  user_data_ok m -> is_bytes out ->
  exists c, pack_dl_user_data mem out m = ok (true, out ++ c) /\ is_bytes c /\ (zlen c + 2) mod 4 = 0 /\ zlen c < 254 /\
    get_pdu_type c = ok pdu_dl_user_data /\ unpack_dl_user_data dl_user_data_init c = ok (Some (sent_user_data m)).
Proof.
  intros Hm Hout.
  destruct (pack_container_ok _ _ out (dl_user_data_writes m Hm) Hout (dl_user_data_octets m)) as (c & k & E & Hc & H4 & Eb & Hlen).
  exists c. split; [exact E|]. split; [done|]. split; [done|]. split; [pose proof (dl_user_data_length m Hm); lia|]. split.
  - eapply get_pdu_type_bits; [done| |rewrite Eb; exact (eq_sym (app_assoc (to_bits 4 pdu_dl_user_data) _ _))]. unfold fits, pdu_dl_user_data. lia.
  - eapply unpack_container_reads; [by apply reads_dl_user_data|done..].
Qed.

Lemma pack_delivery_status_spec m out :
  delivery_status_ok m -> is_bytes out ->
  exists c, pack_delivery_status mem out m = ok (true, out ++ c) /\ is_bytes c /\ (zlen c + 2) mod 4 = 0 /\ zlen c < 254 /\
    get_pdu_type c = ok pdu_dl_data_delivery_status /\ unpack_delivery_status delivery_status_init c = ok (Some m).
Proof.
  intros Hm Hout.
  destruct (pack_container_ok _ _ out (delivery_status_writes m Hm) Hout (delivery_status_octets m)) as (c & k & E & Hc & H4 & Eb & Hlen).
  exists c. split; [exact E|]. split; [done|]. split; [done|]. split; [pose proof (delivery_status_length m Hm); lia|]. split.
  - eapply get_pdu_type_bits; [done| |rewrite Eb; exact (eq_sym (app_assoc (to_bits 4 pdu_dl_data_delivery_status) _ _))]. unfold fits, pdu_dl_data_delivery_status. lia.
  - eapply unpack_container_reads; [by apply reads_delivery_status|done..].
Qed.

(** NR-U messages survive the wire: every message whose fields fit is packed behind what the buffer holds as a container of [n*4-2] octets
    that starts with its PDU type, and unpacking the container gives the message back (of DL user data what is on the wire: an empty list of
    discard blocks is not, and an SN to report only with its flag). *)
Theorem nru_roundtrip (out : bytes) :
  is_bytes out ->
  (forall m, user_data_ok m -> exists c, pack_dl_user_data (fun _ => true) out m = ok (true, out ++ c) /\ (zlen c + 2) mod 4 = 0 /\
    get_pdu_type c = ok pdu_dl_user_data /\ unpack_dl_user_data dl_user_data_init c = ok (Some (sent_user_data m))) /\
  (forall m, delivery_status_ok m -> exists c, pack_delivery_status (fun _ => true) out m = ok (true, out ++ c) /\ (zlen c + 2) mod 4 = 0 /\
    get_pdu_type c = ok pdu_dl_data_delivery_status /\ unpack_delivery_status delivery_status_init c = ok (Some m)).
Proof.
  intros Hout. split; intros m Hm.
  - destruct (pack_user_data_spec m out Hm Hout) as (c & E & _ & H4 & _ & H). exact (ex_intro _ c (conj E (conj H4 H))).
  - destruct (pack_delivery_status_spec m out Hm Hout) as (c & E & _ & H4 & _ & H). exact (ex_intro _ c (conj E (conj H4 H))).
Qed.

(** Whatever octets a peer sends as an NR RAN container, unpacking them returns, without an assertion (on the capacity of the lists) and
    without reading past the end, and the fields of what it returns fit their widths; packing returns too, whether or not memory runs out. *)
Theorem nru_unpack_total (c out : bytes) (append_ok : bytes -> bool) :
  is_bytes c ->
  (exists r, unpack_dl_user_data dl_user_data_init c = ok r /\ forall m, r = Some m -> user_data_ok m) /\
  (exists r, unpack_delivery_status delivery_status_init c = ok r /\ forall m, r = Some m -> delivery_status_ok m) /\
  (forall m, exists packed out', pack_dl_user_data append_ok out m = ok (packed, out')) /\
  (forall m, exists packed out', pack_delivery_status append_ok out m = ok (packed, out')).
Proof.
  intros Hc. split_and!.
  - apply unpack_container_ok; [apply dl_user_data_reader_ok, user_data_init_ok|done].
  - apply unpack_container_ok; [apply delivery_status_reader_ok, delivery_status_init_ok|done].
  - intros m. apply pack_container_total, dl_user_data_writer_ok.
  - intros m. apply pack_container_total, delivery_status_writer_ok.
Qed.

(** ** Examples *)
Definition ex_user_data : nru_dl_user_data :=
  mk_dl_user_data true false true true false false 66051 (Some 197121) (Some [mk_discard_block 4660 3; mk_discard_block 22136 1]) 11259375.
Definition ex_status : nru_dl_data_delivery_status :=
  mk_delivery_status true 4294967295 None (Some []) (Some 16777215) (Some 7) None None (Some 5).

Lemma ex_user_data_ok : user_data_ok ex_user_data.
Proof.
  constructor.
  - by unfold fits.
  - by intros v [= <-].
  - intros l [= <-]. split; [done|]. by repeat constructor.
  - by unfold fits.
Qed.

Example nru_roundtrip_witness :
  pack_dl_user_data (fun _ => true) [1] ex_user_data =
    ok (true, [1; 7; 12; 1; 2; 3; 3; 2; 1; 2; 0; 18; 52; 3; 0; 86; 120; 1; 171; 205; 239; 0; 0]) /\
  user_data_ok ex_user_data /\
  exists c, pack_dl_user_data (fun _ => true) [1] ex_user_data = ok (true, [1] ++ c) /\ (zlen c + 2) mod 4 = 0 /\
    get_pdu_type c = ok pdu_dl_user_data /\ unpack_dl_user_data dl_user_data_init c = ok (Some (sent_user_data ex_user_data)).
Proof.
  split; [by vm_compute|]. split; [apply ex_user_data_ok|]. assert (H : is_bytes [1]) by (by repeat constructor).
  exact (proj1 (nru_roundtrip [1] H) ex_user_data ex_user_data_ok).
Defined.

Example nru_unpack_total_witness :
  is_bytes [7; 12; 255; 1; 2; 3] /\
  (exists r, unpack_dl_user_data dl_user_data_init [7; 12; 255; 1; 2; 3] = ok r /\ forall m, r = Some m -> user_data_ok m) /\
  unpack_dl_user_data dl_user_data_init [7; 12; 255; 1; 2; 3] = ok None /\
  unpack_delivery_status delivery_status_init [16; 0; 0; 0; 1; 0] = ok (Some (mk_delivery_status false 256 None None None None None None None)).
Proof.
  assert (H : is_bytes [7; 12; 255; 1; 2; 3]) by (by repeat constructor). split; [exact H|]. split; [|by vm_compute].
  destruct (nru_unpack_total [7; 12; 255; 1; 2; 3] [] (fun _ => true) H) as [Hu _]. exact Hu.
Defined.

(** * PDU session containers

    [lib/psup/psup_packing.cpp] with the messages of [include/srsran/psup/psup_message.h]: the DL PDU session information that a UPF puts in front of
    every packet on N3, packed and unpacked. *)

(** [psup_pdu_type], [qos_flow_id_t::invalid] *)
Definition dl_pdu_session_information_type : Z := 0.
Definition qos_flow_id_invalid : Z := 64.

Record psup_dl_pdu_session_information := mk_session_information {
  rqi : bool;
  qos_flow_id : Z;
  ppi : option Z;
  dl_sending_time_stamp : option Z;
  dl_qfi_sn : option Z
}.

#[export] Instance psup_dl_pdu_session_information_eq_dec : EqDecision psup_dl_pdu_session_information.
Proof. solve_decision. Defined.

(** [psup_dl_pdu_session_information{}] *)
Definition session_information_init : psup_dl_pdu_session_information := mk_session_information false qos_flow_id_invalid None None None.

(** No result of [unpack] is looked at: what is missing reads as 0. Spare bits only make a log entry. *)
Definition session_information_reader (out : psup_dl_pdu_session_information) : reader psup_dl_pdu_session_information :=
  pdu_type ← read_unchecked 8 4;
  if negb (pdu_type =? dl_pdu_session_information_type) then reject else
  qmp ← read_bool_unchecked;
  snp ← read_bool_unchecked;
  _ ← read_unchecked 8 2;
  ppp ← read_bool_unchecked;
  rqi ← read_bool_unchecked;
  qos_flow_id ← read_unchecked 8 6;
  ppi' ← read_when ppp (ppi ← read_unchecked 8 3; _ ← read_unchecked 8 5; mret ppi);
  time_stamp ← read_when qmp (read_unchecked 64 64);
  qfi_sn ← read_when snp (read_unchecked 32 24);
  mret (mk_session_information rqi qos_flow_id (union ppi' (ppi out)) (union time_stamp (dl_sending_time_stamp out)) (union qfi_sn (dl_qfi_sn out))).

Definition psup_unpack (out : psup_dl_pdu_session_information) (container : bytes) : outcome (option psup_dl_pdu_session_information) :=
  res ← session_information_reader out (decoder_init container); ok (option_map fst res).

Definition session_information_writer (append_ok : bytes -> bool) (m : psup_dl_pdu_session_information) : writer :=
  write append_ok dl_pdu_session_information_type 4 &>
  write_bool append_ok (bool_decide (is_Some (dl_sending_time_stamp m))) &>
  write_bool append_ok (bool_decide (is_Some (dl_qfi_sn m))) &>
  write append_ok 0 2 &>
  write_bool append_ok (bool_decide (is_Some (ppi m))) &>
  write_bool append_ok (rqi m) &>
  write append_ok (qos_flow_id m) 6 &>
  write_option (ppi m) (fun ppi => write append_ok ppi 3 &> write append_ok 0 5) &>
  write_option (dl_sending_time_stamp m) (fun v => write append_ok v 64) &>
  write_option (dl_qfi_sn m) (fun v => write append_ok v 24).

(** The results of the [pack]s are not looked at either, only those of the padding. *)
Definition psup_pack (append_ok : bytes -> bool) (out_buf : bytes) (m : psup_dl_pdu_session_information) : outcome (bool * bytes) :=
  '(_, encoder) ← session_information_writer append_ok m (encoder_init out_buf);
  pad_loop append_ok 4 (zlen out_buf) (enc_bytes encoder).

(** ** The format *)
Definition session_information_bits (m : psup_dl_pdu_session_information) : list bool :=
  to_bits 4 dl_pdu_session_information_type ++ [bool_decide (is_Some (dl_sending_time_stamp m))] ++ [bool_decide (is_Some (dl_qfi_sn m))] ++
  to_bits 2 0 ++ [bool_decide (is_Some (ppi m))] ++ [rqi m] ++ to_bits 6 (qos_flow_id m) ++
  option_bits (fun ppi => to_bits 3 ppi ++ to_bits 5 0) (ppi m) ++ option_bits (to_bits 64) (dl_sending_time_stamp m) ++
  option_bits (to_bits 24) (dl_qfi_sn m).

Record session_information_ok (m : psup_dl_pdu_session_information) : Prop := {
  iok_qfi : fits 6 (qos_flow_id m);
  iok_ppi : opt_fits 3 (ppi m);
  iok_time : opt_fits 64 (dl_sending_time_stamp m);
  iok_sn : opt_fits 24 (dl_qfi_sn m)
}.

Lemma session_information_writes m :
  session_information_ok m -> writes (session_information_writer mem m) (session_information_bits m).
Proof.
  intros [Hq Hp Ht Hs]. unfold session_information_writer, session_information_bits.
  repeat (apply writes_and; [first [apply writes_bool | by apply writes_fit | idtac]|]).
  - apply writes_option. intros v E. apply writes_and; [apply (writes_fit 3); [lia|by apply Hp]|by apply (writes_fit 5)].
  - apply writes_option. intros v E. apply (writes_fit 64); [lia|by apply Ht].
  - apply writes_option. intros v E. apply (writes_fit 24); [lia|by apply Hs].
Qed.

Lemma unchecked_fit width n v : 0 <= n <= width -> fits n v -> reads (read_unchecked width n) (to_bits (Z.to_nat n) v) v.
Proof. intros Hn Hv. by apply reads_unchecked. Qed.

Lemma reads_session_information m :
  session_information_ok m -> reads (session_information_reader session_information_init) (session_information_bits m) m.
Proof.
  intros [Hq Hp Ht Hs]. unfold session_information_reader, session_information_bits.
  repeat first [apply reads_check; [done|] | eapply reads_bind; [first [apply reads_bool_unchecked | by apply unchecked_fit]|]].
  eapply reads_bind.
  { apply (reads_when _ (fun ppi => to_bits 3 ppi ++ to_bits 5 0)). intros v E. eapply reads_bind; [apply (unchecked_fit 8 3); [lia|by apply Hp]|].
    eapply reads_bind_last; [by apply (unchecked_fit 8 5 0)|apply reads_ret]. }
  eapply reads_bind; [apply reads_when; intros v E; apply (unchecked_fit 64 64); [lia|by apply Ht]|].
  eapply reads_bind_last; [apply reads_when; intros v E; apply (unchecked_fit 32 24); [lia|by apply Hs]|].
  cbn [ppi dl_sending_time_stamp dl_qfi_sn session_information_init]. rewrite !union_None_r. destruct m. apply reads_ret.
Qed.

Lemma session_information_octets m : zlen (session_information_bits m) mod 8 = 0.
Proof.
  assert (H1 : zlen (option_bits (fun ppi => to_bits 3 ppi ++ to_bits 5 0) (ppi m)) mod 8 = 0) by (apply option_bits_octets; intros v; done).
  assert (H2 : zlen (option_bits (to_bits 64) (dl_sending_time_stamp m)) mod 8 = 0) by (apply option_bits_octets; intros v; done).
  assert (H3 : zlen (option_bits (to_bits 24) (dl_qfi_sn m)) mod 8 = 0) by (apply option_bits_octets; intros v; done).
  unfold session_information_bits. rewrite !length_app, !to_bits_length. cbn [length]. divmod.
Qed.

Lemma session_information_length m : zlen (session_information_bits m) <= 112.
Proof.
  unfold session_information_bits. rewrite !length_app, !to_bits_length. unfold option_bits.
  destruct (ppi m), (dl_sending_time_stamp m), (dl_qfi_sn m); cbn [from_option]; rewrite ?length_app, ?to_bits_length; cbn [length]; lia.
Qed.

(** [psup_pack] is [pack_container] as long as there is memory. *)
Lemma psup_pack_container m out : session_information_ok m -> is_bytes out ->
  psup_pack mem out m = pack_container mem (session_information_writer mem m) out.
Proof.
  intros Hm Hout. unfold psup_pack, pack_container. destruct (session_information_writes m Hm (encoder_init out) (encoder_aligned out Hout)) as (e & E & _).
  by rewrite E, !bind_ok.
Qed.

Lemma psup_spec m out :
  session_information_ok m -> is_bytes out ->
  exists c, psup_pack mem out m = ok (true, out ++ c) /\ is_bytes c /\ (zlen c + 2) mod 4 = 0 /\ zlen c <= 17 /\
    psup_unpack session_information_init c = ok (Some m).
Proof.
  intros Hm Hout.
  destruct (pack_container_ok _ _ out (session_information_writes m Hm) Hout (session_information_octets m)) as (c & k & E & Hc & H4 & Eb & Hl).
  exists c. split; [by rewrite psup_pack_container|]. split; [exact Hc|]. split; [exact H4|]. pose proof (session_information_length m).
  split; [divmod|]. unfold psup_unpack.
  destruct (reads_session_information m Hm (decoder_init c) _ (decoder_aligned c Hc) Eb) as (d & -> & _). done.
Qed.

(** Any container is unpacked, without an assertion, and what it says fits. *)
Lemma psup_unpack_total c :
  is_bytes c -> exists r, psup_unpack session_information_init c = ok r /\ forall m, r = Some m -> session_information_ok m.
Proof.
  intros Hc. assert (Hu : forall width n, 0 <= n <= width -> reader_ok (read_unchecked width n) (fits n)) by (intros; by apply reader_ok_unchecked).
  assert (H : reader_ok (session_information_reader session_information_init) session_information_ok).
  { unfold session_information_reader.
    repeat first [apply reader_ok_check; intros ? | eapply reader_ok_bind; [first [apply reader_ok_bool_unchecked | by apply Hu]|]; intros ? ?].
    eapply (reader_ok_bind _ _ (opt_fits 3)).
    { apply (reader_ok_when _ _ (fits 3)). intros _. eapply reader_ok_bind; [apply (Hu 8 3); lia|]. intros v Hv.
      eapply reader_ok_bind; [apply (Hu 8 5); lia|]. intros w _. by apply reader_ok_ret. }
    intros p Hp. eapply (reader_ok_bind _ _ (opt_fits 64)); [apply (reader_ok_when _ _ (fits 64)); intros _; apply (Hu 64 64); lia|]. intros t Ht.
    eapply (reader_ok_bind _ _ (opt_fits 24)); [apply (reader_ok_when _ _ (fits 24)); intros _; apply (Hu 32 24); lia|]. intros n Hn.
    apply reader_ok_ret. constructor; cbn [session_information_init qos_flow_id ppi dl_sending_time_stamp dl_qfi_sn]; rewrite ?union_None_r; done. }
  unfold psup_unpack. destruct (H (decoder_init c) (decoder_aligned c Hc)) as ([[m d]|] & -> & Hm); [|by exists None].
  eexists. split; [done|]. intros ? [= <-]. apply Hm.
Qed.

(** An empty container is a DL PDU session information for QoS flow 0. *)
Lemma psup_unpack_empty : psup_unpack session_information_init [] = ok (Some (mk_session_information false 0 None None None)).
Proof. by vm_compute. Qed.
