(* ===== verification/GtpuPdu.v ===== *)
(** * GTP-U PDUs

    [lib/gtpu/gtpu_pdu.h] and [lib/gtpu/gtpu_pdu.cpp]: the header of a GTP-U packet with its optional part and its chain
    of extension headers, written in front of a payload ([gtpu_write_header]) and taken apart ([gtpu_dissect_pdu],
    [gtpu_extract_msg]), and the information elements of the management messages. *)
From S2P Require Import Prelude BitEncoding BitStream BitFields NruPacking.

(** ** Data *)
Definition GTPU_BASE_HEADER_LEN : Z := 8.
Definition GTPU_EXTENDED_HEADER_LEN : Z := 12.
Definition GTPU_FLAGS_VERSION_V1 : Z := 1.
Definition GTPU_FLAGS_GTP_PROTOCOL : Z := 1.
Definition GTPU_MSG_ECHO_REQUEST : Z := 1.
Definition GTPU_MSG_ECHO_RESPONSE : Z := 2.
Definition GTPU_MSG_ERROR_INDICATION : Z := 26.
Definition GTPU_MSG_SUPPORTED_EXTENSION_HEADERS_NOTIFICATION : Z := 31.
Definition GTPU_MSG_END_MARKER : Z := 254.
Definition GTPU_MSG_DATA_PDU : Z := 255.
Definition GTPU_MAX_NUM_HEADER_EXTENSIONS : Z := 10.
Definition GTPU_PRIVATE_EXTENSION_VALUE_LENGTH : Z := 1.

(** [gtpu_extension_header_type]: an octet off the wire is cast to it, so that it has 256 values. *)
Definition no_more_extension_headers : Z := 0.
Definition reserved_0 : Z := 1.
Definition reserved_1 : Z := 2.
Definition long_pdcp_pdu_number_0 : Z := 3.
Definition service_class_indicator : Z := 32.
Definition udp_port : Z := 64.
Definition ran_container : Z := 129.
Definition long_pdcp_pdu_number_1 : Z := 130.
Definition xw_ran_container : Z := 131.
Definition nr_ran_container : Z := 132.
Definition pdu_session_container : Z := 133.
Definition pdcp_pdu_number : Z := 192.
Definition reserved_2 : Z := 193.
Definition reserved_3 : Z := 194.

(** [gtpu_comprehension] *)
Definition required_at_endpoint_not_intermediate_node : Z := 2.
Definition required_at_endpoint_and_intermediate_node : Z := 3.

(** [gtpu_information_element_type] *)
Definition ie_type_recovery : Z := 14.
Definition ie_type_tunnel_endpoint_identifier_data_i : Z := 16.
Definition ie_type_gsn_address : Z := 133.
Definition ie_type_private_extension : Z := 255.

Record gtpu_extension_header := mk_ext { extension_header_type : Z; container : bytes }.

Record gtpu_flags := mk_flags { version : Z; protocol_type : Z; ext_hdr : bool; has_seq_number : bool; has_n_pdu : bool }.

Record gtpu_header := mk_gtpu_header {
  flags : gtpu_flags;
  message_type : Z;
  hdr_length : Z;
  teid : Z;
  seq_number : Z;
  n_pdu : Z;
  next_ext_hdr_type : Z;
  ext_list : list gtpu_extension_header
}.

(** [gtpu_header{}] *)
Definition gtpu_header_init : gtpu_header :=
  mk_gtpu_header (mk_flags 1 0 false false false) 0 0 0 0 0 no_more_extension_headers [].

Record gtpu_dissected_pdu := mk_dissected { pdu_buf : bytes; pdu_hdr : gtpu_header; pdu_hdr_len : Z }.

#[export] Instance gtpu_extension_header_eq_dec : EqDecision gtpu_extension_header.
Proof. solve_decision. Defined.
#[export] Instance gtpu_flags_eq_dec : EqDecision gtpu_flags.
Proof. solve_decision. Defined.
#[export] Instance gtpu_header_eq_dec : EqDecision gtpu_header.
Proof. solve_decision. Defined.
#[export] Instance gtpu_dissected_pdu_eq_dec : EqDecision gtpu_dissected_pdu.
Proof. solve_decision. Defined.

(** ** Checks *)
Definition gtpu_supported_flags_check (f : gtpu_flags) : bool :=
  if negb (version f =? GTPU_FLAGS_VERSION_V1) then false
  else if negb (protocol_type f =? GTPU_FLAGS_GTP_PROTOCOL) then false
  else if has_n_pdu f then false
  else true.

Definition gtpu_supported_msg_type_check (message_type : Z) : bool :=
  negb (negb (message_type =? GTPU_MSG_DATA_PDU) && negb (message_type =? GTPU_MSG_ECHO_REQUEST) &&
        negb (message_type =? GTPU_MSG_ECHO_RESPONSE) && negb (message_type =? GTPU_MSG_ERROR_INDICATION) &&
        negb (message_type =? GTPU_MSG_END_MARKER)).

Definition gtpu_extension_header_comprehension_check (type : Z) : bool :=
  if type =? no_more_extension_headers then true
  else if (type =? nr_ran_container) || (type =? pdu_session_container) then true
  else if type =? pdcp_pdu_number then true
  else if (type =? reserved_0) || (type =? reserved_1) || (type =? reserved_2) || (type =? reserved_3) then false
  else
    let comp := Z.shiftr type 6 in
    negb ((comp =? required_at_endpoint_not_intermediate_node) || (comp =? required_at_endpoint_and_intermediate_node)).

(** The optional part of the header is there. *)
Definition has_optional_part (h : gtpu_header) : bool :=
  negb (zlen (ext_list h) =? 0) || has_seq_number (flags h) || has_n_pdu (flags h).

(** [uint16_t] arithmetic throughout. *)
Definition gtpu_get_length (h : gtpu_header) (sdu : bytes) : Z :=
  let len := u16 (zlen sdu) in
  let len := if has_optional_part h then u16 (len + 4) else len in
  foldl (fun len ext => u16 (u16 (len + 2) + zlen (container ext))) len (ext_list h).

(** ** Writing *)
Section write.
Context (append_ok : bytes -> bool).

(** [payload] is a [uint8_t]. *)
Definition gtpu_write_ext_header (ext : gtpu_extension_header) (next_extension_header_type : Z) : writer := fun encoder =>
  let payload := u8 (1 + zlen (container ext) + 1) in
  srsran_assert (payload mod 4 =? 0);;
  let length := payload / 4 in
  (write append_ok length 8 &> write_bytes append_ok (container ext) &> write append_ok next_extension_header_type 8) encoder.

(** The loop over the extension headers, each with the type of the next one. *)
Fixpoint write_extensions (l : list gtpu_extension_header) : writer :=
  match l with
  | [] => write_nothing
  | ext :: l =>
      gtpu_write_ext_header ext (match l with [] => no_more_extension_headers | next :: _ => extension_header_type next end) ;>
      write_extensions l
  end.

Definition header_writer (h : gtpu_header) (length : Z) : writer :=
  write append_ok (version (flags h)) 3 &>
  write append_ok (protocol_type (flags h)) 1 &>
  write append_ok 0 1 &>
  write append_ok (if zlen (ext_list h) =? 0 then 0 else 1) 1 &>
  write append_ok (if has_seq_number (flags h) then 1 else 0) 1 &>
  write append_ok (if has_n_pdu (flags h) then 1 else 0) 1 &>
  write append_ok (message_type h) 8 &>
  write append_ok length 16 &>
  write append_ok (teid h) 32 &>
  write_when (has_optional_part h)
    (write append_ok (seq_number h) 16 &>
     write append_ok (n_pdu h) 8 &>
     write append_ok (match ext_list h with [] => no_more_extension_headers | ext :: _ => extension_header_type ext end) 8).

(** [pdu.prepend(std::move(hdr_buf))]: into an empty buffer it is a move, otherwise it takes a segment. *)
Definition prepend (pdu hdr_buf : bytes) : bool * bytes :=
  if (zlen pdu =? 0) || append_ok hdr_buf then (true, hdr_buf ++ pdu) else (false, pdu).

(** The buffer is changed only at the end. *)
Definition gtpu_write_header (pdu : bytes) (h : gtpu_header) : outcome (bool * bytes) :=
  if negb (gtpu_supported_flags_check (flags h)) then ok (false, pdu)
  else if negb (gtpu_supported_msg_type_check (message_type h)) then ok (false, pdu)
  else
    '(pack_ok, encoder) ← (header_writer h (gtpu_get_length h pdu) ;> write_extensions (ext_list h)) (encoder_init []);
    if pack_ok : bool then ok (prepend pdu (enc_bytes encoder)) else ok (false, pdu).

(** [gtpu_write_ie_recovery], [gtpu_write_ie_private_extension] *)
Definition gtpu_write_ie_recovery (pdu : bytes) (restart_counter : Z) : outcome (bool * bytes) :=
  '(pack_ok, enc) ← (write append_ok ie_type_recovery 8 &> write append_ok restart_counter 8) (encoder_init pdu);
  ok (pack_ok, enc_bytes enc).

Fixpoint write_and_each (l : bytes) (w : writer) : writer :=
  match l with [] => w | v :: l => write_and_each l (w &> write append_ok v 8) end.

Definition gtpu_write_ie_private_extension (pdu : bytes) (extension_identifier : Z) (extension_value : bytes) : outcome (bool * bytes) :=
  '(pack_ok, enc) ←
    write_and_each extension_value
      (write append_ok ie_type_private_extension 8 &> write append_ok (u16 (zlen extension_value + 2)) 16 &>
       write append_ok extension_identifier 16) (encoder_init pdu);
  ok (pack_ok, enc_bytes enc).
End write.

(** ** Reading *)

(** [gtpu_read_teid]: the octets 5 to 8, if the packet is long enough. *)
Definition gtpu_read_teid (pdu : bytes) : outcome (option Z) :=
  if zlen pdu <? GTPU_BASE_HEADER_LEN then ok None
  else match drop 4 pdu with
  | b3 :: b2 :: b1 :: b0 :: _ =>
      ok (Some (Z.lor (Z.lor (Z.lor (Z.lor 0 (Z.shiftl b3 24)) (Z.shiftl b2 16)) (Z.shiftl b1 8)) (Z.shiftl b0 0)))
  | _ => fail invalid_access
  end.

Definition gtpu_unpack_ext_header_type : reader Z := read_unchecked 8 8.

(** The container, and the type of the next extension header. *)
Definition gtpu_read_ext_header : reader (bytes * Z) :=
  length ← read_unchecked 8 8;
  let payload := u16 (length * 4 - 2) in
  container ← read_aligned_bytes payload;
  next ← gtpu_unpack_ext_header_type;
  mret (container, next).

(** The do-while loop. *)
Fixpoint read_extensions (fuel : nat) (next_type : Z) (acc : list gtpu_extension_header) : reader (list gtpu_extension_header) :=
  match fuel with
  | O => lift (fail out_of_fuel)
  | S fuel =>
      if negb (gtpu_extension_header_comprehension_check next_type) then reject else
      '(container, next) ← gtpu_read_ext_header;
      if zlen acc <? GTPU_MAX_NUM_HEADER_EXTENSIONS then
        acc ← lift (static_push GTPU_MAX_NUM_HEADER_EXTENSIONS acc (mk_ext next_type container));
        if negb (next =? no_more_extension_headers) then read_extensions fuel next acc else mret acc
      else reject
  end.

(** The list holds ten, and the eleventh is an error. *)
Definition ext_fuel : nat := 11.

Definition header_reader (buf_len : Z) : reader gtpu_header :=
  version ← read_unchecked 8 3;
  protocol_type ← read_unchecked 8 1;
  _ ← read_unchecked 8 1;
  ext_hdr ← read_bool_unchecked;
  has_seq_number ← read_bool_unchecked;
  has_n_pdu ← read_bool_unchecked;
  let flags := mk_flags version protocol_type ext_hdr has_seq_number has_n_pdu in
  if negb (gtpu_supported_flags_check flags) then reject else
  message_type ← read_unchecked 8 8;
  length ← read_unchecked 16 16;
  teid ← read_unchecked 32 32;
  let expected_length := u16 (buf_len - GTPU_BASE_HEADER_LEN) in
  if negb (length =? expected_length) then reject else
  if ext_hdr || has_seq_number || has_n_pdu then
    if buf_len <? GTPU_EXTENDED_HEADER_LEN then reject else
    seq_number ← read_unchecked 16 16;
    n_pdu ← read_unchecked 8 8;
    next_ext_hdr_type ← gtpu_unpack_ext_header_type;
    if negb (gtpu_extension_header_comprehension_check next_ext_hdr_type) then reject else
    if ext_hdr then
      if next_ext_hdr_type =? no_more_extension_headers then reject else
      ext_list ← read_extensions ext_fuel next_ext_hdr_type [];
      mret (mk_gtpu_header flags message_type length teid seq_number n_pdu next_ext_hdr_type ext_list)
    else mret (mk_gtpu_header flags message_type length teid seq_number n_pdu next_ext_hdr_type [])
  else mret (mk_gtpu_header flags message_type length teid 0 0 no_more_extension_headers []).

Definition gtpu_dissect_pdu (raw_pdu : bytes) : outcome (option gtpu_dissected_pdu) :=
  if zlen raw_pdu <? GTPU_BASE_HEADER_LEN then ok None
  else
    res ← header_reader (zlen raw_pdu) (decoder_init raw_pdu);
    ok (option_map (fun '(hdr, decoder) => mk_dissected raw_pdu hdr (decoder_nof_bytes (zlen raw_pdu) decoder)) res).

(** [trim_head] asserts that there are as many octets. *)
Definition trim_head (l : bytes) (n : Z) : outcome bytes := srsran_assert (n <=? zlen l);; ok (drop (Z.to_nat n) l).

Definition gtpu_extract_msg (pdu : gtpu_dissected_pdu) : outcome bytes := trim_head (pdu_buf pdu) (pdu_hdr_len pdu).

(** ** Error indications *)
Inductive gtpu_peer_address := ipv4_addr (a : bytes) | ipv6_addr (a : bytes).
Record gtpu_msg_error_indication := mk_error_indication { teid_i : Z; peer_address : gtpu_peer_address }.

Definition gtpu_read_ie_type : reader Z := read 8 8.
Definition gtpu_read_ie_teid_i : reader Z := read 32 32.

Definition gtpu_read_ie_gtpu_peer_address : reader gtpu_peer_address :=
  length ← read 16 16;
  if length =? 4 then
    a ← read_bytes 4; mret (ipv4_addr a)
  else if length =? 16 then
    a ← read_bytes 16; mret (ipv6_addr a)
  else reject.

(** Every [read_ok &=] that fails makes the result false: without octets the next type is 0, which is neither of the two expected. *)
Definition error_indication_reader : reader gtpu_msg_error_indication :=
  ie_type ← gtpu_read_ie_type;
  if negb (ie_type =? ie_type_tunnel_endpoint_identifier_data_i) then reject else
  teid_i ← gtpu_read_ie_teid_i;
  ie_type ← gtpu_read_ie_type;
  if negb (ie_type =? ie_type_gsn_address) then reject else
  address ← gtpu_read_ie_gtpu_peer_address;
  mret (mk_error_indication teid_i address).

Definition gtpu_read_msg_error_indication (pdu : bytes) : outcome (option gtpu_msg_error_indication) :=
  res ← error_indication_reader (decoder_init pdu); ok (option_map fst res).
