(* ===== verification/GtpuPduProps.v ===== *)
(** * GTP-U PDUs: the format, the round trip, and what a peer can send

    [gtpu_write_header] appends the format of [header_bits] in front of the payload; [gtpu_dissect_pdu] takes it back; no
    octets a peer sends make dissecting fail or loop. *)
From S2P Require Import Prelude BitEncoding BitStream BitFields NruPacking GtpuPdu.

Local Abbreviation mem := (fun _ => true).

(** ** Headers that can be sent *)

(** The container and its two octets are a number of 32-bit words that fits an octet; the type is one that receivers comprehend. *)
Record ext_ok (ext : gtpu_extension_header) : Prop := {
  eok_bytes : is_bytes (container ext);
  eok_words : (zlen (container ext) + 2) mod 4 = 0;
  eok_length : 0 < zlen (container ext) < 254;
  eok_type : fits 8 (extension_header_type ext) /\ extension_header_type ext <> no_more_extension_headers;
  eok_check : gtpu_extension_header_comprehension_check (extension_header_type ext) = true
}.

Record header_ok (h : gtpu_header) : Prop := {
  hok_flags : gtpu_supported_flags_check (flags h) = true;
  hok_ext_flag : ext_hdr (flags h) = negb (zlen (ext_list h) =? 0);
  hok_msg_type : gtpu_supported_msg_type_check (message_type h) = true;
  hok_teid : fits 32 (teid h);
  hok_sn : fits 16 (seq_number h);
  hok_n_pdu : fits 8 (n_pdu h);
  hok_ext_count : zlen (ext_list h) <= GTPU_MAX_NUM_HEADER_EXTENSIONS;
  hok_exts : Forall ext_ok (ext_list h)
}.

(** ** The format *)
Definition first_type (l : list gtpu_extension_header) : Z :=
  match l with [] => no_more_extension_headers | ext :: _ => extension_header_type ext end.

Definition ext_bits (ext : gtpu_extension_header) (next : Z) : list bool :=
  to_bits 8 ((zlen (container ext) + 2) / 4) ++ bits_of (container ext) ++ to_bits 8 next.

Fixpoint exts_bits (l : list gtpu_extension_header) : list bool :=
  match l with [] => [] | ext :: l => ext_bits ext (first_type l) ++ exts_bits l end.

Definition optional_bits (h : gtpu_header) : list bool :=
  to_bits 16 (seq_number h) ++ to_bits 8 (n_pdu h) ++ to_bits 8 (first_type (ext_list h)).

Definition header_bits (h : gtpu_header) (length : Z) : list bool :=
  to_bits 3 (version (flags h)) ++ to_bits 1 (protocol_type (flags h)) ++ to_bits 1 0 ++
  to_bits 1 (if zlen (ext_list h) =? 0 then 0 else 1) ++ to_bits 1 (if has_seq_number (flags h) then 1 else 0) ++
  to_bits 1 (if has_n_pdu (flags h) then 1 else 0) ++ to_bits 8 (message_type h) ++ to_bits 16 length ++ to_bits 32 (teid h) ++
  (if has_optional_part h then optional_bits h else []).

Lemma flags_check_inv f : gtpu_supported_flags_check f = true -> version f = 1 /\ protocol_type f = 1 /\ has_n_pdu f = false.
Proof.
  unfold gtpu_supported_flags_check, GTPU_FLAGS_VERSION_V1, GTPU_FLAGS_GTP_PROTOCOL.
  destruct (Z.eqb_spec (version f) 1), (Z.eqb_spec (protocol_type f) 1), (has_n_pdu f); done.
Qed.

Lemma msg_type_fits t : gtpu_supported_msg_type_check t = true -> fits 8 t.
Proof.
  unfold gtpu_supported_msg_type_check, GTPU_MSG_DATA_PDU, GTPU_MSG_ECHO_REQUEST, GTPU_MSG_ECHO_RESPONSE, GTPU_MSG_ERROR_INDICATION, GTPU_MSG_END_MARKER.
  unfold fits. repeat match goal with |- context [t =? ?c] => destruct (Z.eqb_spec t c); [intros _; subst t; lia|] end. done.
Qed.

Lemma first_type_fits l : Forall ext_ok l -> fits 8 (first_type l).
Proof. intros H. destruct l as [|ext l]; [unfold fits; simpl; unfold no_more_extension_headers; lia|]. apply Forall_cons in H as [H _]. apply H. Qed.

(** ** Writing appends the format *)
Lemma writes_bit (c : bool) : writes (write mem (if c then 0 else 1) 1) (to_bits 1 (if c then 0 else 1)).
Proof. apply (writes_fit 1); [lia|]. unfold fits. destruct c; lia. Qed.

Lemma writes_flag (c : bool) : writes (write mem (if c then 1 else 0) 1) (to_bits 1 (if c then 1 else 0)).
Proof. apply (writes_fit 1); [lia|]. unfold fits. destruct c; lia. Qed.

Lemma header_writes h length :
  header_ok h -> fits 16 length -> writes (header_writer mem h length) (header_bits h length).
Proof.
  intros Hh Hlen. destruct (flags_check_inv _ (hok_flags _ Hh)) as (Hv & Hp & Hn). unfold header_writer, header_bits.
  apply writes_and; [rewrite Hv; apply (writes_fit 3); unfold fits; lia|].
  apply writes_and; [rewrite Hp; apply (writes_fit 1); unfold fits; lia|].
  apply writes_and; [apply (writes_fit 1); unfold fits; lia|].
  apply writes_and; [apply writes_bit|]. apply writes_and; [apply writes_flag|]. apply writes_and; [apply writes_flag|].
  apply writes_and; [apply (writes_fit 8); [lia|]; by apply msg_type_fits, Hh|].
  apply writes_and; [by apply (writes_fit 16)|]. apply writes_and; [apply (writes_fit 32); [lia|apply Hh]|].
  apply writes_when. intros _. unfold optional_bits. apply writes_and; [apply (writes_fit 16); [lia|apply Hh]|].
  apply writes_and; [apply (writes_fit 8); [lia|apply Hh]|]. apply (writes_fit 8 (first_type _)); [lia|]. apply first_type_fits, Hh.
Qed.

Lemma ext_writes ext next : ext_ok ext -> fits 8 next -> writes (gtpu_write_ext_header mem ext next) (ext_bits ext next).
Proof.
  intros [Hb Hw Hl _ _] Hn. assert (E : u8 (1 + zlen (container ext) + 1) = zlen (container ext) + 2) by (unfold u8; rewrite Z.mod_small; lia).
  assert (H : writes (write mem ((zlen (container ext) + 2) / 4) 8 &> write_bytes mem (container ext) &> write mem next 8) (ext_bits ext next)).
  { apply writes_and; [apply (writes_fit 8); [lia|unfold fits; divmod]|]. apply writes_and; [by apply writes_bytes|by apply (writes_fit 8)]. }
  intros e He. unfold gtpu_write_ext_header. rewrite E. rewrite srsran_assert_ok by (apply Z.eqb_eq; lia). by apply H.
Qed.

Lemma exts_write l : Forall ext_ok l -> writes (write_extensions mem l) (exts_bits l).
Proof.
  induction l as [|ext l IH]; intros H; [apply writes_nothing|]. apply Forall_cons in H as [He Hl].
  apply writes_then; [|by apply IH]. apply (ext_writes ext (first_type l)); [done|by apply first_type_fits].
Qed.

(** ** Dissecting takes the format *)
Lemma reads_octets_unchecked width n v : 0 <= n <= width -> fits n v -> reads_octets (read_unchecked width n) (to_bits (Z.to_nat n) v) v.
Proof. intros Hn Hv. by apply reads_reads_octets, reads_unchecked. Qed.

Lemma reads_fit_unchecked width n v : 0 <= n <= width -> fits n v -> reads (read_unchecked width n) (to_bits (Z.to_nat n) v) v.
Proof. intros Hn Hv. by apply reads_unchecked. Qed.

(** A field may end inside an octet. *)
Lemma reads_bind_octets {A B} (r : reader A) (k : A -> reader B) b1 b2 a b :
  reads r b1 a -> reads_octets (k a) b2 b -> reads_octets (r ≫= k) (b1 ++ b2) b.
Proof.
  intros Hr Hk d rest Hd E Hrest. rewrite <- app_assoc in E. destruct (Hr d _ Hd E) as (d1 & E1 & Hd1 & L1).
  destruct (Hk d1 rest Hd1 L1 Hrest) as (d2 & E2 & Hd2 & L2). exists d2. split; [|done]. unfold mbind, reader_bind. rewrite E1. exact E2.
Qed.

Lemma ext_bits_octets ext next : zlen (ext_bits ext next) mod 8 = 0.
Proof. unfold ext_bits. rewrite !length_app, !to_bits_length, bits_of_length. divmod. Qed.

Lemma exts_bits_octets l : zlen (exts_bits l) mod 8 = 0.
Proof. induction l as [|ext l IH]; [done|]. cbn [exts_bits]. rewrite length_app. pose proof (ext_bits_octets ext (first_type l)). divmod. Qed.

Lemma reads_octets_ret {A} (a : A) : reads_octets (mret a) [] a.
Proof. apply reads_reads_octets, reads_ret. Qed.

Lemma ext_reads ext next : ext_ok ext -> fits 8 next -> reads_octets gtpu_read_ext_header (ext_bits ext next) (container ext, next).
Proof.
  intros [Hb Hw Hl _ _] Hn. unfold gtpu_read_ext_header, ext_bits.
  eapply reads_octets_bind; [apply (reads_octets_unchecked 8 8); [lia|unfold fits; divmod]| |rewrite length_app, to_bits_length, bits_of_length; divmod].
  assert (E : u16 ((zlen (container ext) + 2) / 4 * 4 - 2) = zlen (container ext)) by (unfold u16; rewrite Z.mod_small; divmod).
  cbv zeta. rewrite E. eapply reads_octets_bind; [by apply reads_aligned_bytes| |rewrite to_bits_length; divmod].
  rewrite <- (app_nil_r (to_bits 8 next)). eapply reads_octets_bind; [by apply (reads_octets_unchecked 8 8)|apply reads_octets_ret|done].
Qed.

Lemma reads_octets_check {A} (c : bool) (r : reader A) bits a : c = false -> reads_octets r bits a -> reads_octets (if c then reject else r) bits a.
Proof. by intros ->. Qed.

Lemma exts_read fuel l acc :
  Forall ext_ok l -> l <> [] -> (length l <= fuel)%nat -> zlen (acc ++ l) <= GTPU_MAX_NUM_HEADER_EXTENSIONS ->
  reads_octets (read_extensions fuel (first_type l) acc) (exts_bits l) (acc ++ l).
Proof.
  revert l acc. induction fuel as [|fuel IH]; intros [|ext l] acc Hl Hne Hf Hc; try done; [simpl in Hf; lia|].
  apply Forall_cons in Hl as [He Hl]. pose proof (first_type_fits l Hl) as Hfit. rewrite length_app in Hc. cbn [length] in Hc.
  cbn [read_extensions first_type exts_bits]. apply reads_octets_check; [by rewrite (eok_check _ He)|].
  eapply reads_octets_bind; [by apply ext_reads| |apply exts_bits_octets]. cbv beta iota.
  destruct (Z.ltb_spec (zlen acc) GTPU_MAX_NUM_HEADER_EXTENSIONS) as [Hlt|]; [|lia].
  eapply (reads_octets_bind _ _ [] _ (acc ++ [ext])); [| |apply exts_bits_octets].
  { apply reads_reads_octets, reads_lift. unfold static_push. rewrite srsran_assert_ok by (apply Z.ltb_lt; lia). by destruct ext. }
  destruct l as [|ext' l]; [apply reads_octets_ret|]. pose proof (Forall_inv Hl) as He'.
  cbn [first_type]. destruct (Z.eqb_spec (extension_header_type ext') no_more_extension_headers) as [E|_]; [by apply (eok_type _ He') in E|].
  simpl negb. replace (acc ++ ext :: ext' :: l) with ((acc ++ [ext]) ++ ext' :: l) by (by rewrite <- app_assoc).
  apply (IH (ext' :: l)); [done|done|cbn [length] in *; lia|]. rewrite !length_app. cbn [length] in *. lia.
Qed.

(** What the receiver knows of the header: without the optional part its fields are 0. *)
Definition received_header (h : gtpu_header) (length : Z) : gtpu_header :=
  let opt := has_optional_part h in
  mk_gtpu_header (flags h) (message_type h) length (teid h) (if opt then seq_number h else 0) (if opt then n_pdu h else 0)
    (first_type (ext_list h)) (ext_list h).

Lemma optional_part_flags h : header_ok h -> has_optional_part h = ext_hdr (flags h) || has_seq_number (flags h) || has_n_pdu (flags h).
Proof. intros Hh. unfold has_optional_part. by rewrite (hok_ext_flag _ Hh). Qed.

Lemma comprehends_first l : Forall ext_ok l -> gtpu_extension_header_comprehension_check (first_type l) = true.
Proof. intros H. destruct l as [|ext l]; [done|]. apply Forall_inv in H. apply H. Qed.

Lemma optional_reads h length :
  header_ok h -> has_optional_part h = true ->
  reads_octets
    (seq_number ← read_unchecked 16 16;
     n_pdu ← read_unchecked 8 8;
     next_ext_hdr_type ← gtpu_unpack_ext_header_type;
     if negb (gtpu_extension_header_comprehension_check next_ext_hdr_type) then reject else
     if ext_hdr (flags h) then
       if next_ext_hdr_type =? no_more_extension_headers then reject else
       ext_list ← read_extensions ext_fuel next_ext_hdr_type [];
       mret (mk_gtpu_header (flags h) (message_type h) length (teid h) seq_number n_pdu next_ext_hdr_type ext_list)
     else mret (mk_gtpu_header (flags h) (message_type h) length (teid h) seq_number n_pdu next_ext_hdr_type []))
    (optional_bits h ++ exts_bits (ext_list h)) (received_header h length).
Proof.
  intros Hh Hopt. unfold optional_bits. rewrite <- !app_assoc.
  eapply reads_bind_octets; [apply (reads_fit_unchecked 16 16); [lia|apply Hh]|].
  eapply reads_bind_octets; [apply (reads_fit_unchecked 8 8); [lia|apply Hh]|].
  eapply reads_bind_octets; [apply (reads_fit_unchecked 8 8); [lia|by apply first_type_fits, Hh]|].
  apply reads_octets_check; [by rewrite comprehends_first by apply Hh|].
  unfold received_header. rewrite Hopt, (hok_ext_flag _ Hh). destruct (ext_list h) as [|ext l] eqn:El; [apply reads_octets_ret|].
  change (negb (zlen (ext :: l) =? 0)) with true. cbv iota. pose proof (hok_exts _ Hh) as Hex. rewrite El in Hex.
  apply reads_octets_check; [apply Z.eqb_neq, (eok_type _ (Forall_inv Hex))|].
  rewrite <- (app_nil_r (exts_bits _)). eapply reads_octets_bind; [|apply reads_octets_ret|done].
  pose proof (hok_ext_count _ Hh) as Hc. rewrite El in Hc. unfold GTPU_MAX_NUM_HEADER_EXTENSIONS in Hc.
  apply (exts_read ext_fuel (ext :: l) []); [done|done| |done]. unfold ext_fuel. lia.
Qed.

Lemma header_reads h buf_len :
  header_ok h -> 8 <= buf_len -> (has_optional_part h = true -> 12 <= buf_len) ->
  reads_octets (header_reader buf_len) (header_bits h (u16 (buf_len - 8)) ++ exts_bits (ext_list h)) (received_header h (u16 (buf_len - 8))).
Proof.
  intros Hh H8 H12. destruct (flags_check_inv _ (hok_flags _ Hh)) as (Hv & Hp & Hn). unfold header_reader, header_bits. rewrite <- !app_assoc.
  assert (Hlen : fits 16 (u16 (buf_len - 8))) by (apply Z.mod_pos_bound; lia).
  eapply reads_bind_octets; [apply (reads_fit_unchecked 8 3); [lia|rewrite Hv; unfold fits; lia]|].
  eapply reads_bind_octets; [apply (reads_fit_unchecked 8 1); [lia|rewrite Hp; unfold fits; lia]|].
  eapply reads_bind_octets; [apply (reads_fit_unchecked 8 1); [lia|unfold fits; lia]|].
  assert (Hb : forall b : bool, to_bits 1 (if b then 1 else 0) = [b]) by (by intros []).
  assert (Hb' : forall b : bool, to_bits 1 (if b then 0 else 1) = [negb b]) by (by intros []).
  rewrite Hb', !Hb, <- (hok_ext_flag _ Hh).
  eapply reads_bind_octets; [apply reads_bool_unchecked|]. eapply reads_bind_octets; [apply reads_bool_unchecked|].
  eapply reads_bind_octets; [apply reads_bool_unchecked|]. cbv zeta.
  assert (Ef : mk_flags (version (flags h)) (protocol_type (flags h)) (ext_hdr (flags h)) (has_seq_number (flags h)) (has_n_pdu (flags h)) = flags h)
    by (by destruct (flags h)). rewrite Ef.
  apply reads_octets_check; [by rewrite (hok_flags _ Hh)|].
  eapply reads_bind_octets; [apply (reads_fit_unchecked 8 8); [lia|by apply msg_type_fits, Hh]|].
  eapply reads_bind_octets; [by apply (reads_fit_unchecked 16 16)|].
  eapply reads_bind_octets; [apply (reads_fit_unchecked 32 32); [lia|apply Hh]|].
  apply reads_octets_check; [by rewrite Z.eqb_refl|]. rewrite <- (optional_part_flags h Hh).
  destruct (has_optional_part h) eqn:Eo.
  - apply reads_octets_check; [apply Z.ltb_ge; unfold GTPU_EXTENDED_HEADER_LEN; auto|]. by apply optional_reads.
  - unfold received_header. rewrite Eo. unfold has_optional_part in Eo. destruct (ext_list h); [|done]. apply reads_octets_ret.
Qed.

(** ** The length field *)
Fixpoint exts_len (l : list gtpu_extension_header) : Z :=
  match l with [] => 0 | ext :: l => 2 + zlen (container ext) + exts_len l end.

Definition header_len (h : gtpu_header) : Z :=
  GTPU_BASE_HEADER_LEN + (if has_optional_part h then 4 else 0) + exts_len (ext_list h).

Lemma exts_bits_length l : zlen (exts_bits l) = 8 * exts_len l.
Proof.
  induction l as [|ext l IH]; [done|]. cbn [exts_bits exts_len]. unfold ext_bits. rewrite !length_app, !to_bits_length, bits_of_length. lia.
Qed.

Lemma header_bits_length h n : zlen (header_bits h n ++ exts_bits (ext_list h)) = 8 * header_len h.
Proof.
  rewrite length_app, Nat2Z.inj_add, exts_bits_length. unfold header_bits, header_len, optional_bits, GTPU_BASE_HEADER_LEN.
  rewrite !length_app, !to_bits_length. destruct (has_optional_part h); rewrite ?length_app, ?to_bits_length; cbn [length]; lia.
Qed.

(** It wraps around at 16 bits, and so does what the receiver compares it with. *)
Lemma get_length_eq h pdu : gtpu_get_length h pdu = u16 (header_len h + zlen pdu - 8).
Proof.
  unfold gtpu_get_length, header_len, GTPU_BASE_HEADER_LEN. cbv zeta.
  assert (H : forall l n, foldl (fun len ext => u16 (u16 (len + 2) + zlen (container ext))) (u16 n) l = u16 (n + exts_len l)).
  { induction l as [|ext l IH]; intros n; [simpl; by rewrite Z.add_0_r|]. cbn [foldl exts_len].
    replace (u16 (u16 (u16 n + 2) + zlen (container ext))) with (u16 (n + 2 + zlen (container ext))).
    - rewrite IH. f_equal. lia.
    - unfold u16. by rewrite Zplus_mod_idemp_l, Z.add_assoc, (Z.add_comm 2), <- Z.add_assoc, Zplus_mod_idemp_l, Z.add_assoc
        || (rewrite Zplus_mod_idemp_l, <- (Z.add_assoc (n mod _)), Zplus_mod_idemp_l; f_equal; lia). }
  destruct (has_optional_part h).
  - replace (u16 (u16 (zlen pdu) + 4)) with (u16 (zlen pdu + 4)) by (unfold u16; by rewrite Zplus_mod_idemp_l).
    rewrite H. f_equal. lia.
  - rewrite H. f_equal. lia.
Qed.

(** ** Totality *)
Lemma unchecked_fits width n : 0 <= n <= width -> reader_ok (read_unchecked width n) (fits n).
Proof. apply reader_ok_unchecked. Qed.

(** What a receiver may assume of a dissected header. *)
Definition received_exts (l : list gtpu_extension_header) : Prop :=
  zlen l <= GTPU_MAX_NUM_HEADER_EXTENSIONS /\ Forall (fun ext => is_bytes (container ext) /\ fits 8 (extension_header_type ext)) l.

Lemma read_ext_header_ok : reader_ok gtpu_read_ext_header (fun '(c, next) => is_bytes c /\ fits 8 next).
Proof.
  unfold gtpu_read_ext_header. eapply reader_ok_bind; [apply (unchecked_fits 8 8); lia|]. intros n _. cbv zeta.
  eapply reader_ok_bind; [apply reader_ok_aligned_bytes|]. intros c Hc.
  eapply reader_ok_bind; [apply (unchecked_fits 8 8); lia|]. intros next Hn. by apply reader_ok_ret.
Qed.

Lemma read_extensions_ok fuel next acc :
  fits 8 next -> received_exts acc -> zlen acc + Z.of_nat fuel = 11 -> reader_ok (read_extensions fuel next acc) received_exts.
Proof.
  revert next acc. induction fuel as [|fuel IH]; intros next acc Hn [Hc Hf] Hfuel; [unfold GTPU_MAX_NUM_HEADER_EXTENSIONS in *; lia|].
  cbn [read_extensions]. apply reader_ok_check. intros _. eapply reader_ok_bind; [apply read_ext_header_ok|].
  intros [c next'] [Hb Hn']. destruct (Z.ltb_spec (zlen acc) GTPU_MAX_NUM_HEADER_EXTENSIONS) as [Hlt|]; [|apply reader_ok_reject].
  assert (Hacc : received_exts (acc ++ [mk_ext next c])).
  { split; [rewrite length_app; simpl; lia|]. apply Forall_app. split; [done|]. by apply Forall_singleton. }
  eapply (reader_ok_bind _ _ (fun l => l = acc ++ [mk_ext next c])); [by eapply reader_ok_lift; [apply static_push_ok|]|].
  intros l ->. destruct (negb _); [|by apply reader_ok_ret]. apply IH; [done|done|]. rewrite length_app. simpl. lia.
Qed.

Lemma header_reader_ok buf_len : reader_ok (header_reader buf_len) (fun h => received_exts (ext_list h) /\
  fits 32 (teid h) /\ gtpu_supported_flags_check (flags h) = true /\ fits 16 (seq_number h)).
Proof.
  unfold header_reader.
  repeat first [apply reader_ok_check; intros ? | eapply reader_ok_bind; [first [apply reader_ok_bool_unchecked | by apply unchecked_fits]|]; intros ? ?
    | progress cbv zeta].
  assert (Hnil : received_exts []) by (by split). assert (Hz : fits 16 0) by (unfold fits; lia).
  assert (Hfl : forall b, negb b = false -> b = true) by (by intros []).
  match goal with |- reader_ok (if ?c then _ else _) _ => destruct c end; [|apply reader_ok_ret; cbn [ext_list teid flags seq_number]; auto].
  repeat first [apply reader_ok_check; intros ? | eapply reader_ok_bind; [by apply unchecked_fits|]; intros ? ?].
  match goal with |- reader_ok (if ?c then _ else _) _ => destruct c end; [|apply reader_ok_ret; cbn [ext_list teid flags seq_number]; auto].
  apply reader_ok_check. intros _. eapply reader_ok_bind; [by apply read_extensions_ok|]. intros l Hl. apply reader_ok_ret. cbn [ext_list teid flags seq_number]. auto.
Qed.

Lemma nof_bytes_range (buf : bytes) d :
  decoder_wf d -> dec_nbits d <= 8 * zlen buf -> 0 <= decoder_nof_bytes (zlen buf) d <= zlen buf.
Proof.
  intros [_ Ho Hne] Hl. unfold decoder_nof_bytes, dec_nbits in *. destruct (Z.eqb_spec (dec_offset d) 0) as [E|E]; simpl; [lia|].
  specialize (Hne E). destruct (dec_bytes d); [done|]. cbn [length] in *. lia.
Qed.

Lemma dissect_ok raw :
  is_bytes raw -> exists r, gtpu_dissect_pdu raw = ok r /\
    forall p, r = Some p -> pdu_buf p = raw /\ 0 <= pdu_hdr_len p <= zlen raw /\ received_exts (ext_list (pdu_hdr p)) /\
      fits 16 (seq_number (pdu_hdr p)).
Proof.
  intros Hr. unfold gtpu_dissect_pdu. destruct (_ <? _); [by exists None|].
  destruct (header_reader_ok (zlen raw) (decoder_init raw) (decoder_aligned raw Hr)) as ([[h d]|] & E & H); rewrite E, bind_ok; [|by exists None].
  eexists. split; [done|]. intros p [= <-]. destruct H as ((Hex & _ & _ & Hsn) & Hd & Hl). cbn [pdu_buf pdu_hdr_len pdu_hdr].
  split; [done|]. split; [|done]. apply nof_bytes_range; [done|]. unfold decoder_init, dec_nbits in *. cbn [dec_bytes dec_offset] in Hl. lia.
Qed.

(** ** The round trip *)
Lemma read_teid_bits pdu v rest1 rest2 :
  is_bytes pdu -> fits 32 v -> zlen rest1 = 32 -> bits_of pdu = rest1 ++ to_bits 32 v ++ rest2 -> gtpu_read_teid pdu = ok (Some v).
Proof.
  intros Hp Hv Hl E. unfold gtpu_read_teid, GTPU_BASE_HEADER_LEN.
  assert (H8 : 8 <= zlen pdu).
  { apply (f_equal length) in E. rewrite bits_of_length, !length_app, to_bits_length in E. lia. }
  destruct (Z.ltb_spec (zlen pdu) 8); [lia|].
  assert (E4 : bits_of (drop 4 pdu) = to_bits 32 v ++ rest2).
  { rewrite <- (take_drop 4 pdu), bits_of_app in E. apply app_inj_1 in E as [_ E]; [done|]. rewrite bits_of_length, length_take. lia. }
  assert (Hd : is_bytes (drop 4 pdu)) by (by apply Forall_drop). destruct (drop 4 pdu) as [|b3 [|b2 [|b1 [|b0 l]]]] eqn:Ed;
    try (apply (f_equal length) in Ed; rewrite length_drop in Ed; simpl in Ed; lia).
  change (b3 :: b2 :: b1 :: b0 :: l) with ([b3; b2; b1; b0] ++ l) in E4, Hd. rewrite bits_of_app in E4.
  apply app_inj_1 in E4 as [E4 _]; [|by rewrite bits_of_length, to_bits_length]. apply Forall_app in Hd as [Hd _].
  apply (f_equal bits_value) in E4. rewrite bits_value_bits_of, bits_value_to_bits in E4 by done.
  unfold fits in Hv. change (2 ^ Z.of_nat 32) with (2 ^ 32) in E4. rewrite (Z.mod_small v) in E4 by lia. rewrite <- E4.
  do 2 f_equal. clear -Hd. repeat (apply Forall_cons in Hd as [? Hd]). unfold is_byte in *.
  assert (Hor : forall a b k, 0 <= b < 2 ^ k -> 0 <= k -> Z.lor (Z.shiftl a k) b = a * 2 ^ k + b).
  { intros a b k Hb Hk. pose proof (Z.add_lor_land (Z.shiftl a k) b) as Hadd. rewrite Z.shiftl_mul_pow2 in * by lia.
    assert (Z.land (a * 2 ^ k) b = 0); [|lia]. apply Z.bits_inj'. intros i Hi. rewrite Z.land_spec, Z.bits_0. destruct (Z_lt_dec i k).
    - by rewrite Z.mul_pow2_bits_low by lia.
    - replace b with (b mod 2 ^ k) by (by apply Z.mod_small). by rewrite Z.mod_pow2_bits_high, andb_false_r by lia. }
  unfold be_value. cbn [foldl]. rewrite Z.lor_0_l, Z.shiftl_0_r, <- !Z.lor_assoc.
  replace (Z.lor (Z.shiftl b1 8) b0) with (b1 * 2 ^ 8 + b0) by (symmetry; apply Hor; lia).
  replace (Z.lor (Z.shiftl b2 16) (b1 * 2 ^ 8 + b0)) with (b2 * 2 ^ 16 + (b1 * 2 ^ 8 + b0)) by (symmetry; apply Hor; lia).
  rewrite Hor by lia. lia.
Qed.

Lemma write_header_ok h pdu :
  header_ok h -> is_bytes pdu ->
  exists hdr, gtpu_write_header mem pdu h = ok (true, hdr ++ pdu) /\ is_bytes hdr /\ zlen hdr = header_len h /\
    bits_of hdr = header_bits h (u16 (header_len h + zlen pdu - 8)) ++ exts_bits (ext_list h).
Proof.
  intros Hh Hp. unfold gtpu_write_header. rewrite (hok_flags _ Hh), (hok_msg_type _ Hh), get_length_eq. simpl negb. cbv iota.
  set (n := u16 _). assert (Hn : fits 16 n) by (apply Z.mod_pos_bound; lia).
  destruct (writes_then _ _ _ _ (header_writes h n Hh Hn) (exts_write _ (hok_exts _ Hh)) (encoder_init [])) as (e & -> & He & Eb).
  { apply encoder_aligned. constructor. }
  rewrite bind_ok. unfold prepend. rewrite orb_true_r. exists (enc_bytes e). split; [done|]. split; [apply He|].
  change (enc_bits (encoder_init [])) with (@nil bool) in Eb. rewrite app_nil_l in Eb. pose proof (header_bits_length h n) as Hl. rewrite <- Eb, (enc_bits_length e He) in Hl.
  assert (Ew : bits_of (enc_bytes e) = enc_bits e) by (apply enc_whole_octets; [done|rewrite Hl; divmod]).
  rewrite Ew, Eb. split; [|done]. apply (f_equal length) in Ew. rewrite bits_of_length in Ew. pose proof (enc_bits_length e He). lia.
Qed.

Lemma exts_len_nonneg l : 0 <= exts_len l.
Proof. induction l; simpl; lia. Qed.

Lemma dissect_written h hdr pdu :
  header_ok h -> is_bytes hdr -> is_bytes pdu -> zlen hdr = header_len h ->
  bits_of hdr = header_bits h (u16 (header_len h + zlen pdu - 8)) ++ exts_bits (ext_list h) ->
  gtpu_dissect_pdu (hdr ++ pdu) =
    ok (Some (mk_dissected (hdr ++ pdu) (received_header h (u16 (header_len h + zlen pdu - 8))) (zlen hdr))) /\
  gtpu_read_teid (hdr ++ pdu) = ok (Some (teid h)).
Proof.
  intros Hh Hb Hp Hl Eb. assert (Hbp : is_bytes (hdr ++ pdu)) by (by apply Forall_app).
  pose proof (exts_len_nonneg (ext_list h)) as Hex. assert (Et : zlen (hdr ++ pdu) = header_len h + zlen pdu) by (rewrite length_app; lia).
  unfold header_len, GTPU_BASE_HEADER_LEN in Hl. split.
  - unfold gtpu_dissect_pdu, GTPU_BASE_HEADER_LEN. destruct (Z.ltb_spec (zlen (hdr ++ pdu)) 8) as [Hlt|_].
    { rewrite length_app in Hlt. destruct (has_optional_part h); lia. }
    rewrite <- Et.
    destruct (header_reads h (zlen (hdr ++ pdu)) Hh) with (d := decoder_init (hdr ++ pdu)) (rest := bits_of pdu) as (d' & -> & Hd' & El).
    + rewrite length_app. destruct (has_optional_part h); lia.
    + intros Ho. rewrite Ho in Hl. rewrite length_app. lia.
    + by apply decoder_aligned.
    + rewrite Et, <- Eb, <- bits_of_app. done.
    + rewrite bits_of_length. divmod.
    + apply left_bits_octets in El; [|done|done]. subst d'. rewrite bind_ok. cbn [option_map]. do 3 f_equal.
      unfold decoder_nof_bytes. cbn [dec_bytes dec_offset]. rewrite length_app. simpl. lia.
  - unfold header_bits in Eb. eapply (read_teid_bits _ (teid h) (to_bits 3 (version (flags h)) ++ to_bits 1 (protocol_type (flags h)) ++ to_bits 1 0 ++
      to_bits 1 (if zlen (ext_list h) =? 0 then 0 else 1) ++ to_bits 1 (if has_seq_number (flags h) then 1 else 0) ++
      to_bits 1 (if has_n_pdu (flags h) then 1 else 0) ++ to_bits 8 (message_type h) ++ to_bits 16 (u16 (header_len h + zlen pdu - 8)))); [done|apply Hh| |].
    + rewrite !length_app, !to_bits_length. done.
    + rewrite bits_of_app, Eb, <- !app_assoc. reflexivity.
Qed.

Lemma extract_ok raw h n : 0 <= n <= zlen raw -> gtpu_extract_msg (mk_dissected raw h n) = ok (drop (Z.to_nat n) raw).
Proof. intros Hn. unfold gtpu_extract_msg, trim_head. cbn [pdu_buf pdu_hdr_len]. by rewrite srsran_assert_ok by (apply Z.leb_le; lia). Qed.

(** All of it in one statement, for the tunnels. *)
Lemma write_dissect h pdu :
  header_ok h -> is_bytes pdu ->
  exists raw p, gtpu_write_header mem pdu h = ok (true, raw) /\ is_bytes raw /\ gtpu_read_teid raw = ok (Some (teid h)) /\
    gtpu_dissect_pdu raw = ok (Some p) /\ pdu_hdr p = received_header h (u16 (zlen raw - 8)) /\ pdu_buf p = raw /\ gtpu_extract_msg p = ok pdu.
Proof.
  intros Hh Hp. destruct (write_header_ok h pdu Hh Hp) as (hdr & E & Hb & Hl & Eb).
  destruct (dissect_written h hdr pdu Hh Hb Hp Hl Eb) as [Ed Et]. eexists (hdr ++ pdu), _. split; [exact E|].
  split; [by apply Forall_app|]. split; [exact Et|]. split; [exact Ed|]. cbn [pdu_hdr pdu_buf]. split; [|split; [done|]].
  - f_equal. f_equal. rewrite length_app. lia.
  - rewrite extract_ok by (rewrite length_app; lia). f_equal. rewrite Nat2Z.id. apply drop_app_length.
Qed.

(** C9: A GTP-U packet written for a payload is taken apart to the same: the demultiplexer reads the tunnel it was written for, dissecting gives the
    header back with its extension headers (and the length of the packet), and what is left behind the header is the payload. *)
Theorem gtpu_roundtrip (h : gtpu_header) (pdu : bytes) :
  header_ok h -> is_bytes pdu ->
  exists raw p, gtpu_write_header (fun _ => true) pdu h = ok (true, raw) /\ gtpu_read_teid raw = ok (Some (teid h)) /\
    gtpu_dissect_pdu raw = ok (Some p) /\ pdu_hdr p = received_header h (u16 (zlen raw - 8)) /\ gtpu_extract_msg p = ok pdu.
Proof.
  intros Hh Hp. destruct (write_dissect h pdu Hh Hp) as (raw & p & E & _ & Et & Ed & Eh & _ & Ex).
  exact (ex_intro _ raw (ex_intro _ p (conj E (conj Et (conj Ed (conj Eh Ex)))))).
Qed.

(** C38: Whatever packet a peer sends, dissecting it returns, without an assertion and within the ten extension headers the list holds, and the
    header it found is not longer than the packet: [gtpu_extract_msg] never trims more than there is. *)
Theorem gtpu_dissect_total (raw : bytes) :
  is_bytes raw ->
  exists r, gtpu_dissect_pdu raw = ok r /\
    forall p, r = Some p ->
      zlen (ext_list (pdu_hdr p)) <= GTPU_MAX_NUM_HEADER_EXTENSIONS /\
      exists hdr msg, gtpu_extract_msg p = ok msg /\ raw = hdr ++ msg /\ zlen hdr = pdu_hdr_len p.
Proof.
  intros Hr. destruct (dissect_ok raw Hr) as (r & E & H). exists r. split; [exact E|]. intros p ->.
  destruct (H p eq_refl) as (Hbuf & Hlen & [Hc _] & _). split; [done|]. destruct p as [buf h n]. cbn [pdu_buf pdu_hdr_len] in *. subst buf.
  exists (take (Z.to_nat n) raw), (drop (Z.to_nat n) raw). split; [by apply extract_ok|]. rewrite take_drop, length_take. split; [done|lia].
Qed.

(** ** Error indications *)
Lemma reader_ok_bytes n : 0 <= n -> reader_ok (read_bytes n) is_bytes.
Proof.
  intros Hn d Hd. unfold read_bytes, unpack_bytes. pose proof Hd as [Hb Ho Hne].
  destruct (n =? 0). { exists (Some ([], d)). split; [done|]. split; [constructor|]. split; [done|lia]. }
  destruct (Z.ltb_spec (zlen (dec_bytes d)) n); [by exists None|]. destruct (Z.eqb_spec (dec_offset d) 0) as [E|_].
  { eexists (Some (_, _)). split; [done|]. split; [by apply Forall_take|]. split; [by apply decoder_aligned, Forall_drop|].
    unfold dec_nbits. cbn [dec_bytes dec_offset]. rewrite length_drop. lia. }
  clear H Hb Ho Hne. revert d Hd. induction (Z.to_nat n) as [|k IH]; intros d Hd.
  { exists (Some ([], d)). split; [done|]. split; [constructor|]. split; [done|lia]. }
  cbn [unpack_each]. destruct (reader_ok_read 8 8 ltac:(lia) d Hd) as (res & E & H). unfold read in E.
  destruct (bit_decoder_unpack 8 d 8) as [[[b|] d1]|]; cbn in E; [injection E as <-|by exists None|done].
  destruct H as (Hb & Hd1 & Hl). rewrite bind_ok. destruct (IH d1 Hd1) as (res & E' & H').
  destruct (unpack_each k d1) as [[[l|] d2]|]; cbn in E'; [injection E' as <-|by exists None|done]. cbn.
  eexists (Some (_, _)). split; [done|]. destruct H' as (Hbl & Hd2 & Hl2). split; [by constructor|]. split; [done|lia].
Qed.

(** An error indication names a tunnel and an address of 4 or 16 octets, or is rejected. *)
Definition address_ok (a : gtpu_peer_address) : Prop := match a with ipv4_addr l => is_bytes l | ipv6_addr l => is_bytes l end.

Lemma error_indication_total msg :
  is_bytes msg -> exists r, gtpu_read_msg_error_indication msg = ok r /\
    forall i, r = Some i -> fits 32 (teid_i i) /\ address_ok (peer_address i).
Proof.
  intros Hm. assert (H : reader_ok error_indication_reader (fun i => fits 32 (teid_i i) /\ address_ok (peer_address i))).
  { unfold error_indication_reader. eapply reader_ok_bind; [apply (read_fits 8 8); lia|]. intros t _. apply reader_ok_check. intros _.
    eapply reader_ok_bind; [apply (read_fits 32 32); lia|]. intros id Hid. eapply reader_ok_bind; [apply (read_fits 8 8); lia|]. intros t' _.
    apply reader_ok_check. intros _. eapply (reader_ok_bind _ _ address_ok); [|intros a Ha; by apply reader_ok_ret].
    unfold gtpu_read_ie_gtpu_peer_address. eapply reader_ok_bind; [apply (read_fits 16 16); lia|]. intros n _.
    destruct (n =? 4); [|destruct (n =? 16); [|apply reader_ok_reject]];
      (eapply reader_ok_bind; [apply reader_ok_bytes; lia|]; intros a Ha; by apply reader_ok_ret). }
  unfold gtpu_read_msg_error_indication. destruct (H (decoder_init msg) (decoder_aligned msg Hm)) as ([[i d]|] & -> & Hi); [|by exists None].
  eexists. split; [done|]. intros ? [= <-]. apply Hi.
Qed.

(** ** Examples *)
Definition ex_ext : gtpu_extension_header := mk_ext nr_ran_container [17; 0; 0; 0; 1; 0].
Definition ex_header : gtpu_header :=
  mk_gtpu_header (mk_flags 1 1 true false false) GTPU_MSG_DATA_PDU 0 305419896 0 0 nr_ran_container [ex_ext].

Lemma ex_header_ok : header_ok ex_header.
Proof.
  constructor; try done. constructor; [|constructor]. constructor; try done. by repeat constructor.
Qed.

Example gtpu_roundtrip_witness :
  gtpu_write_header (fun _ => true) [170; 187] ex_header =
    ok (true, [52; 255; 0; 14; 18; 52; 86; 120; 0; 0; 0; 132; 2; 17; 0; 0; 0; 1; 0; 0; 170; 187]) /\
  exists raw p, gtpu_write_header (fun _ => true) [170; 187] ex_header = ok (true, raw) /\ gtpu_read_teid raw = ok (Some 305419896) /\
    gtpu_dissect_pdu raw = ok (Some p) /\ pdu_hdr p = received_header ex_header (u16 (zlen raw - 8)) /\ gtpu_extract_msg p = ok [170; 187].
Proof.
  split; [by vm_compute|]. assert (Hb : is_bytes [170; 187]) by (by repeat constructor).
  exact (gtpu_roundtrip ex_header [170; 187] ex_header_ok Hb).
Defined.

(** An extension header whose length octet is 0 asks for 65534 octets and gets none; the packet is accepted. *)
Definition ex_zero_length : bytes := [52; 255; 0; 6; 0; 0; 0; 1; 0; 0; 0; 132; 0; 0].

Example gtpu_dissect_total_witness :
  (exists r, gtpu_dissect_pdu ex_zero_length = ok r /\
    forall p, r = Some p ->
      zlen (ext_list (pdu_hdr p)) <= GTPU_MAX_NUM_HEADER_EXTENSIONS /\
      exists hdr msg, gtpu_extract_msg p = ok msg /\ ex_zero_length = hdr ++ msg /\ zlen hdr = pdu_hdr_len p) /\
  exists p, gtpu_dissect_pdu ex_zero_length = ok (Some p) /\ ext_list (pdu_hdr p) = [mk_ext nr_ran_container []].
Proof.
  split; [|by eexists; vm_compute]. assert (H : is_bytes ex_zero_length) by (by repeat constructor).
  exact (gtpu_dissect_total ex_zero_length H).
Defined.
