(* ===== verification/GtpuNru.v ===== *)
(** * The NR-U tunnels of F1-U

    [lib/gtpu/gtpu_tunnel_nru_tx_impl.h] and [lib/gtpu/gtpu_tunnel_nru_rx_impl.h] over [lib/gtpu/gtpu_tunnel_base_rx.h]: NR-U messages become
    GTP-U packets whose extension header carries the packed NR-U frame, and packets become messages again. *)
From S2P Require Import Prelude BitEncoding BitStream BitFields NruPacking GtpuPdu GtpuPduProps.

(** ** Messages *)
Record nru_dl_message := mk_dl_message { dl_t_pdu : bytes; dl_user_data : nru_dl_user_data }.

(** [assistance_information] is never set. *)
Record nru_ul_message := mk_ul_message { ul_t_pdu : option bytes; data_delivery_status : option nru_dl_data_delivery_status }.

#[export] Instance nru_dl_message_eq_dec : EqDecision nru_dl_message.
Proof. solve_decision. Defined.
#[export] Instance nru_ul_message_eq_dec : EqDecision nru_ul_message.
Proof. solve_decision. Defined.

(** ** Sending: the packet that goes to [send_pdu], or none *)
Section tx.
Context (append_ok : bytes -> bool) (peer_teid : Z).

(** The header both directions start from. *)
Definition nru_header (next : Z) (exts : list gtpu_extension_header) : gtpu_header :=
  mk_gtpu_header (mk_flags GTPU_FLAGS_VERSION_V1 GTPU_FLAGS_GTP_PROTOCOL true false false) GTPU_MSG_DATA_PDU 0 peer_teid 0 0 next exts.

Definition nru_tx_handle_dl_sdu (dl_message : nru_dl_message) : outcome (option bytes) :=
  '(packed, ext_buf) ← pack_dl_user_data append_ok [] (dl_user_data dl_message);
  if negb packed then ok None else
  let hdr := nru_header nr_ran_container [mk_ext nr_ran_container ext_buf] in
  '(write_ok, buf) ← gtpu_write_header append_ok (dl_t_pdu dl_message) hdr;
  if negb write_ok then ok None else ok (Some buf).

(** [copy_ok]: [deep_copy] of the chain of the T-PDU finds memory. *)
Definition nru_tx_handle_ul_sdu (copy_ok : bool) (ul_message : nru_ul_message) : outcome (option bytes) :=
  hdr ← match data_delivery_status ul_message with
    | Some status =>
        '(packed, ext_buf) ← pack_delivery_status append_ok [] status;
        ok (if negb packed then None else Some (nru_header nr_ran_container [mk_ext nr_ran_container ext_buf]))
    | None => ok (Some (nru_header no_more_extension_headers []))
    end;
  match hdr with
  | None => ok None
  | Some hdr =>
      match ul_t_pdu ul_message with
      | Some t_pdu =>
          if negb copy_ok then ok None else
          '(write_ok, buf) ← gtpu_write_header append_ok t_pdu hdr; ok (if negb write_ok then None else Some buf)
      | None => '(write_ok, buf) ← gtpu_write_header append_ok [] hdr; ok (if negb write_ok then None else Some buf)
      end
  end.
End tx.

(** ** Receiving *)

(** [std::variant<nru_dl_user_data, nru_dl_data_delivery_status> nru_msg] *)
Inductive nru_frame := frame_dl (m : nru_dl_user_data) | frame_ul (m : nru_dl_data_delivery_status).

(** What goes to the lower layer. *)
Inductive nru_sdu := new_dl_sdu (m : nru_dl_message) | new_ul_sdu (m : nru_ul_message).

#[export] Instance nru_sdu_eq_dec : EqDecision nru_sdu.
Proof. solve_decision. Defined.

(** The loop over the extension headers; [None] is the return for an unsupported PDU type. A frame that cannot be unpacked is replaced later. *)
Fixpoint nru_scan (l : list gtpu_extension_header) (nru_msg : nru_frame) (have_nr_ran_container : bool) : outcome (option (nru_frame * bool)) :=
  match l with
  | [] => ok (Some (nru_msg, have_nr_ran_container))
  | ext :: l =>
      if extension_header_type ext =? nr_ran_container then
        if negb have_nr_ran_container then
          pdu_type ← get_pdu_type (container ext);
          if pdu_type =? pdu_dl_user_data then
            r ← unpack_dl_user_data dl_user_data_init (container ext);
            match r with
            | Some m => nru_scan l (frame_dl m) true
            | None => nru_scan l (frame_dl dl_user_data_init) false
            end
          else if pdu_type =? pdu_dl_data_delivery_status then
            r ← unpack_delivery_status delivery_status_init (container ext);
            match r with
            | Some m => nru_scan l (frame_ul m) true
            | None => nru_scan l (frame_ul delivery_status_init) false
            end
          else ok None
        else nru_scan l nru_msg have_nr_ran_container
      else nru_scan l nru_msg have_nr_ran_container
  end.

(** [chain_ok]: [byte_buffer_chain::create] finds memory. *)
Definition nru_rx_handle_dissected (chain_ok : bool) (pdu : gtpu_dissected_pdu) : outcome (option nru_sdu) :=
  scanned ← nru_scan (ext_list (pdu_hdr pdu)) (frame_dl dl_user_data_init) false;
  match scanned with
  | None => ok None
  | Some (nru_msg, have_nr_ran_container) =>
      let nru_msg := if negb have_nr_ran_container then frame_ul delivery_status_init else nru_msg in
      t_pdu ← gtpu_extract_msg pdu;
      match nru_msg with
      | frame_dl m => ok (Some (new_dl_sdu (mk_dl_message t_pdu m)))
      | frame_ul status =>
          if negb chain_ok then ok None
          else ok (Some (new_ul_sdu (mk_ul_message (if negb (zlen t_pdu =? 0) then Some t_pdu else None) (Some status))))
      end
  end.

(** [gtpu_tunnel_base_rx::handle_pdu], not in test mode. *)
Definition nru_rx_handle_pdu (chain_ok : bool) (buf : bytes) : outcome (option nru_sdu) :=
  dissected_pdu ← gtpu_dissect_pdu buf;
  match dissected_pdu with None => ok None | Some pdu => nru_rx_handle_dissected chain_ok pdu end.

(** ** What is sent is received *)
Local Abbreviation mem := (fun _ => true).

(** The flag [ext_hdr] of a header to write is not looked at. *)
Definition with_ext_flag (h : gtpu_header) : gtpu_header :=
  mk_gtpu_header (mk_flags (version (flags h)) (protocol_type (flags h)) (negb (zlen (ext_list h) =? 0)) (has_seq_number (flags h)) (has_n_pdu (flags h)))
    (message_type h) (hdr_length h) (teid h) (seq_number h) (n_pdu h) (next_ext_hdr_type h) (ext_list h).

Lemma write_header_ext_flag append_ok pdu h : gtpu_write_header append_ok pdu h = gtpu_write_header append_ok pdu (with_ext_flag h).
Proof. reflexivity. Qed.

Lemma nru_header_ok teid next exts :
  fits 32 teid -> Forall ext_ok exts -> zlen exts <= 10 -> header_ok (with_ext_flag (nru_header teid next exts)).
Proof. intros Ht He Hl. constructor; try done; by unfold fits. Qed.

(** A packed frame is a container: [n*4-2] octets, and not many. *)
Lemma nru_ext_ok c : is_bytes c -> (zlen c + 2) mod 4 = 0 -> zlen c < 254 -> ext_ok (mk_ext nr_ran_container c).
Proof.
  intros Hc H4 Hl. constructor; cbn [container extension_header_type]; try done.
  destruct (decide (zlen c = 0)) as [E|E]; [rewrite E in H4; discriminate H4|]. lia.
Qed.

Lemma write_one_ext teid t_pdu c :
  fits 32 teid -> is_bytes t_pdu -> ext_ok (mk_ext nr_ran_container c) ->
  exists raw p, gtpu_write_header mem t_pdu (nru_header teid nr_ran_container [mk_ext nr_ran_container c]) = ok (true, raw) /\ is_bytes raw /\
    gtpu_read_teid raw = ok (Some teid) /\ gtpu_dissect_pdu raw = ok (Some p) /\ ext_list (pdu_hdr p) = [mk_ext nr_ran_container c] /\
    gtpu_extract_msg p = ok t_pdu.
Proof.
  intros Ht Hp He. rewrite write_header_ext_flag. set (h := with_ext_flag _).
  assert (Hh : header_ok h) by (apply nru_header_ok; [done|by apply Forall_singleton|simpl; lia]).
  destruct (write_dissect h t_pdu Hh Hp) as (raw & p & E & Hr & Et & Ed & Eh & _ & Ex). exists raw, p.
  split; [exact E|]. split; [exact Hr|]. split; [exact Et|]. split; [exact Ed|]. split; [by rewrite Eh|exact Ex].
Qed.

Lemma nru_dl_transfer teid m :
  fits 32 teid -> is_bytes (dl_t_pdu m) -> user_data_ok (dl_user_data m) ->
  exists raw, nru_tx_handle_dl_sdu mem teid m = ok (Some raw) /\ is_bytes raw /\ gtpu_read_teid raw = ok (Some teid) /\
    nru_rx_handle_pdu true raw = ok (Some (new_dl_sdu (mk_dl_message (dl_t_pdu m) (sent_user_data (dl_user_data m))))).
Proof.
  intros Ht Hp Hm. destruct (pack_user_data_spec _ [] Hm ltac:(constructor)) as (c & Ep & Hc & H4 & Hl & Etype & Eu).
  destruct (write_one_ext teid (dl_t_pdu m) c Ht Hp (nru_ext_ok c Hc H4 Hl)) as (raw & p & Ew & Hr & Et & Ed & Ee & Ex).
  exists raw. split; [|split; [exact Hr|split; [exact Et|]]].
  - unfold nru_tx_handle_dl_sdu. rewrite Ep, app_nil_l, bind_ok. simpl negb. cbv iota. rewrite Ew, bind_ok. reflexivity.
  - unfold nru_rx_handle_pdu, nru_rx_handle_dissected. rewrite Ed, bind_ok, Ee. cbn [nru_scan extension_header_type container].
    rewrite Z.eqb_refl. simpl negb. cbv iota. rewrite Etype, bind_ok. rewrite Z.eqb_refl, Eu, !bind_ok. simpl negb. cbv iota. by rewrite Ex, bind_ok.
Qed.

(** What the UL side makes of a message: an empty T-PDU is none, and no status is the status with nothing in it. *)
Definition received_ul (m : nru_ul_message) : nru_ul_message :=
  mk_ul_message (match ul_t_pdu m with Some l => if negb (zlen l =? 0) then Some l else None | None => None end)
    (Some (default delivery_status_init (data_delivery_status m))).

Definition sent_t_pdu (m : nru_ul_message) : bytes := default [] (ul_t_pdu m).

Lemma received_t_pdu m : (if negb (zlen (sent_t_pdu m) =? 0) then Some (sent_t_pdu m) else None) = ul_t_pdu (received_ul m).
Proof. unfold sent_t_pdu, received_ul. by destruct (ul_t_pdu m). Qed.

(** The second half of [handle_sdu]. *)
Lemma send_ul m hdr raw :
  gtpu_write_header mem (sent_t_pdu m) hdr = ok (true, raw) ->
  match ul_t_pdu m with
  | Some t_pdu => '(write_ok, buf) ← gtpu_write_header mem t_pdu hdr; ok (if negb write_ok then None else Some buf)
  | None => '(write_ok, buf) ← gtpu_write_header mem [] hdr; ok (if negb write_ok then None else Some buf)
  end = ok (Some raw).
Proof. unfold sent_t_pdu. destruct (ul_t_pdu m) as [l|]; cbn [default negb from_option id]; intros E; rewrite E; reflexivity. Qed.

Lemma sent_t_pdu_bytes m : (forall l, ul_t_pdu m = Some l -> is_bytes l) -> is_bytes (sent_t_pdu m).
Proof. intros H. unfold sent_t_pdu. destruct (ul_t_pdu m); [by apply H|constructor]. Qed.

Lemma nru_ul_status_transfer teid m s :
  fits 32 teid -> is_bytes (sent_t_pdu m) -> data_delivery_status m = Some s -> delivery_status_ok s ->
  exists raw, nru_tx_handle_ul_sdu mem teid true m = ok (Some raw) /\ is_bytes raw /\ gtpu_read_teid raw = ok (Some teid) /\
    nru_rx_handle_pdu true raw = ok (Some (new_ul_sdu (received_ul m))).
Proof.
  intros Ht Hb Es Hs. destruct (pack_delivery_status_spec s [] Hs ltac:(constructor)) as (c & Ep & Hc & H4 & Hl & Etype & Eu).
  destruct (write_one_ext teid (sent_t_pdu m) c Ht Hb (nru_ext_ok c Hc H4 Hl)) as (raw & p & Ew & Hr & Et & Ed & Ee & Ex).
  exists raw. split; [|split; [exact Hr|split; [exact Et|]]].
  - unfold nru_tx_handle_ul_sdu. rewrite Es, Ep, app_nil_l, bind_ok. cbn [negb]. rewrite bind_ok. cbv beta iota. exact (send_ul m _ raw Ew).
  - unfold nru_rx_handle_pdu, nru_rx_handle_dissected. rewrite Ed, bind_ok, Ee. cbn [nru_scan extension_header_type container].
    rewrite Z.eqb_refl. cbn [negb]. rewrite Etype, bind_ok. change (pdu_dl_data_delivery_status =? pdu_dl_user_data) with false. cbv iota.
    rewrite Z.eqb_refl, Eu, !bind_ok. cbn [negb]. rewrite Ex, bind_ok, received_t_pdu. unfold received_ul. by rewrite Es.
Qed.

Lemma nru_ul_plain_transfer teid m :
  fits 32 teid -> is_bytes (sent_t_pdu m) -> data_delivery_status m = None ->
  exists raw, nru_tx_handle_ul_sdu mem teid true m = ok (Some raw) /\ is_bytes raw /\ gtpu_read_teid raw = ok (Some teid) /\
    nru_rx_handle_pdu true raw = ok (Some (new_ul_sdu (received_ul m))).
Proof.
  intros Ht Hb Es.
  assert (Hh : header_ok (with_ext_flag (nru_header teid no_more_extension_headers []))) by (apply nru_header_ok; [done|constructor|simpl; lia]).
  destruct (write_dissect _ (sent_t_pdu m) Hh Hb) as (raw & p & Ew & Hr & Et & Ed & Eh & _ & Ex). rewrite <- write_header_ext_flag in Ew.
  exists raw. split; [|split; [exact Hr|split; [exact Et|]]].
  - unfold nru_tx_handle_ul_sdu. rewrite Es, bind_ok. cbn [negb]. exact (send_ul m _ raw Ew).
  - unfold nru_rx_handle_pdu, nru_rx_handle_dissected. rewrite Ed, bind_ok, Eh. change (ext_list (received_header _ _)) with (@nil gtpu_extension_header).
    cbn [nru_scan]. rewrite bind_ok. cbn [negb]. rewrite Ex, bind_ok, received_t_pdu. unfold received_ul. by rewrite Es.
Qed.

Lemma nru_ul_transfer teid m :
  fits 32 teid -> (forall l, ul_t_pdu m = Some l -> is_bytes l) -> (forall s, data_delivery_status m = Some s -> delivery_status_ok s) ->
  exists raw, nru_tx_handle_ul_sdu mem teid true m = ok (Some raw) /\ is_bytes raw /\ gtpu_read_teid raw = ok (Some teid) /\
    nru_rx_handle_pdu true raw = ok (Some (new_ul_sdu (received_ul m))).
Proof.
  intros Ht Hp Hs. pose proof (sent_t_pdu_bytes m Hp) as Hb. destruct (data_delivery_status m) as [s|] eqn:Es.
  - exact (nru_ul_status_transfer teid m s Ht Hb Es (Hs s eq_refl)).
  - exact (nru_ul_plain_transfer teid m Ht Hb Es).
Qed.

(** ** What a peer can send *)
Lemma pdu_type_of c : c <> [] -> exists t, get_pdu_type c = ok t.
Proof. destruct c; [done|]. by eexists. Qed.

Definition empty_container (ext : gtpu_extension_header) : Prop := extension_header_type ext = nr_ran_container /\ container ext = [].

Lemma scan_total l frame have :
  Forall (fun ext => is_bytes (container ext)) l ->
  (exists r, nru_scan l frame have = ok r) \/ (nru_scan l frame have = fail assertion /\ exists ext, ext ∈ l /\ empty_container ext).
Proof.
  revert frame have. induction l as [|ext l IH]; intros frame have Hl; [left; by eexists|]. apply Forall_cons in Hl as [Hb Hl].
  assert (Hstep : forall frame have, (exists r, nru_scan l frame have = ok r) \/
    (nru_scan l frame have = fail assertion /\ exists x, x ∈ ext :: l /\ empty_container x)).
  { intros f h. destruct (IH f h Hl) as [H|[H (x & Hx & He)]]; [by left|right]. split; [done|]. exists x. split; [by right|done]. }
  cbn [nru_scan]. destruct (Z.eqb_spec (extension_header_type ext) nr_ran_container) as [Et|_]; [|apply Hstep].
  destruct have; simpl negb; cbv iota; [apply Hstep|]. destruct (decide (container ext = [])) as [E|E].
  { right. rewrite E. split; [done|]. exists ext. by split; [left|]. }
  destruct (pdu_type_of _ E) as (t & ->). rewrite bind_ok. destruct (t =? _); [|destruct (t =? _); [|left; by eexists]].
  - destruct (unpack_container_ok _ _ _ (dl_user_data_reader_ok _ user_data_init_ok) Hb) as (r & Er & _). unfold unpack_dl_user_data.
    rewrite Er, bind_ok. destruct r; apply Hstep.
  - destruct (unpack_container_ok _ _ _ (delivery_status_reader_ok _ delivery_status_init_ok) Hb) as (r & Er & _). unfold unpack_delivery_status.
    rewrite Er, bind_ok. destruct r; apply Hstep.
Qed.

Lemma nru_rx_total chain_ok raw :
  is_bytes raw ->
  (exists r, nru_rx_handle_pdu chain_ok raw = ok r) \/
  (nru_rx_handle_pdu chain_ok raw = fail assertion /\
   exists p ext, gtpu_dissect_pdu raw = ok (Some p) /\ ext ∈ ext_list (pdu_hdr p) /\ empty_container ext).
Proof.
  intros Hr. destruct (dissect_ok raw Hr) as (r & Ed & Hp). unfold nru_rx_handle_pdu. rewrite Ed, bind_ok. destruct r as [p|]; [|left; by eexists].
  destruct (Hp p eq_refl) as (Hbuf & Hlen & [_ Hex] & _). unfold nru_rx_handle_dissected.
  destruct (scan_total (ext_list (pdu_hdr p)) (frame_dl dl_user_data_init) false) as [(r & ->)|(E & ext & Hin & He)].
  { eapply Forall_impl; [exact Hex|]. simpl. by intros ext [H _]. }
  - left. rewrite bind_ok. destruct r as [[frame have]|]; [|by eexists]. destruct p as [buf h n]. cbn [pdu_buf pdu_hdr_len] in *. subst buf.
    rewrite (extract_ok raw h n Hlen), bind_ok. destruct (if negb have then _ else frame); [by eexists|]. destruct chain_ok; by eexists.
  - right. rewrite E. split; [done|]. exists p, ext. by split.
Qed.

(** NR-U messages cross F1-U: a DL message handed to the sending tunnel is one packet for the peer's tunnel, from which the receiving tunnel gives
    up the same T-PDU with what is on the wire of the DL user data; a UL message arrives with its T-PDU and its delivery status (without one, as the
    status in which nothing is set). *)
Theorem nru_tunnel_roundtrip (peer_teid : Z) :
  fits 32 peer_teid ->
  (forall m, is_bytes (dl_t_pdu m) -> user_data_ok (dl_user_data m) ->
    exists raw, nru_tx_handle_dl_sdu (fun _ => true) peer_teid m = ok (Some raw) /\ gtpu_read_teid raw = ok (Some peer_teid) /\
      nru_rx_handle_pdu true raw = ok (Some (new_dl_sdu (mk_dl_message (dl_t_pdu m) (sent_user_data (dl_user_data m)))))) /\
  (forall m, (forall l, ul_t_pdu m = Some l -> is_bytes l) -> (forall s, data_delivery_status m = Some s -> delivery_status_ok s) ->
    exists raw, nru_tx_handle_ul_sdu (fun _ => true) peer_teid true m = ok (Some raw) /\ gtpu_read_teid raw = ok (Some peer_teid) /\
      nru_rx_handle_pdu true raw = ok (Some (new_ul_sdu (received_ul m)))).
Proof.
  intros Ht. split.
  - intros m Hp Hm. destruct (nru_dl_transfer peer_teid m Ht Hp Hm) as (raw & E & _ & H). exact (ex_intro _ raw (conj E H)).
  - intros m Hp Hm. destruct (nru_ul_transfer peer_teid m Ht Hp Hm) as (raw & E & _ & H). exact (ex_intro _ raw (conj E H)).
Qed.

(** Whatever packet arrives, the NR-U tunnel returns, with one exception: an NR RAN container of length 0, of which [get_pdu_type] asserts that it
    is not empty. A peer can send one. *)
Theorem nru_rx_stops_only_on_empty_container (chain_ok : bool) (raw : bytes) :
  is_bytes raw ->
  (exists r, nru_rx_handle_pdu chain_ok raw = ok r) \/
  (nru_rx_handle_pdu chain_ok raw = fail assertion /\
   exists p ext, gtpu_dissect_pdu raw = ok (Some p) /\ ext ∈ ext_list (pdu_hdr p) /\ extension_header_type ext = nr_ran_container /\ container ext = []).
Proof. apply nru_rx_total. Qed.

(** ** Examples *)
Definition ex_dl_message : nru_dl_message := mk_dl_message [170; 187] ex_user_data.

Example nru_tunnel_roundtrip_witness :
  fits 32 4660 /\ user_data_ok (dl_user_data ex_dl_message) /\
  exists raw, nru_tx_handle_dl_sdu (fun _ => true) 4660 ex_dl_message = ok (Some raw) /\ gtpu_read_teid raw = ok (Some 4660) /\
    nru_rx_handle_pdu true raw = ok (Some (new_dl_sdu (mk_dl_message [170; 187] (sent_user_data ex_user_data)))).
Proof.
  assert (Ht : fits 32 4660) by (unfold fits; lia). assert (Hb : is_bytes (dl_t_pdu ex_dl_message)) by (by repeat constructor).
  split; [exact Ht|]. split; [exact ex_user_data_ok|]. exact (proj1 (nru_tunnel_roundtrip 4660 Ht) ex_dl_message Hb ex_user_data_ok).
Defined.

(** Fourteen octets stop the process. *)
Example nru_rx_stops_only_on_empty_container_witness :
  is_bytes ex_zero_length /\ nru_rx_handle_pdu true ex_zero_length = fail assertion /\
  ((exists r, nru_rx_handle_pdu true ex_zero_length = ok r) \/
   (nru_rx_handle_pdu true ex_zero_length = fail assertion /\
    exists p ext, gtpu_dissect_pdu ex_zero_length = ok (Some p) /\ ext ∈ ext_list (pdu_hdr p) /\ extension_header_type ext = nr_ran_container /\
      container ext = [])).
Proof.
  assert (H : is_bytes ex_zero_length) by (by repeat constructor). split; [exact H|]. split; [by vm_compute|].
  exact (nru_rx_stops_only_on_empty_container true ex_zero_length H).
Defined.
