(* ===== verification/F1uCu.v ===== *)
(** * The F1-U bearer of the CU-UP

    [lib/f1u/cu_up/f1u_bearer_impl.cpp]: sends PDCP PDUs down with the blocks of discarded SNs it has gathered, and takes PDUs and delivery status
    from below. Handlers return the new state and, in order, what they do to the outside; a task given to an executor is an output, and an input
    when it runs. *)
From S2P Require Import Prelude BitEncoding BitStream BitFields NruPacking GtpuPdu GtpuPduProps GtpuNru.

(** [unset_pdcp_sn], [UINT32_MAX] *)
Definition unset_pdcp_sn : Z := 2 ^ 32 - 1.

Record f1u_bearer := mk_bearer {
  dl_notif_timer : timer_state;
  notif_highest_transmitted_pdcp_sn : Z;
  notif_highest_delivered_pdcp_sn : Z;
  discard_blocks : list nru_pdcp_sn_discard_block
}.

Definition init : f1u_bearer := mk_bearer timer_stopped unset_pdcp_sn unset_pdcp_sn [].

Definition set_timer (s : f1u_bearer) (t : timer_state) : f1u_bearer :=
  mk_bearer t (notif_highest_transmitted_pdcp_sn s) (notif_highest_delivered_pdcp_sn s) (discard_blocks s).
Definition set_blocks (s : f1u_bearer) (l : list nru_pdcp_sn_discard_block) : f1u_bearer :=
  mk_bearer (dl_notif_timer s) (notif_highest_transmitted_pdcp_sn s) (notif_highest_delivered_pdcp_sn s) l.
Definition set_transmitted (s : f1u_bearer) (sn : Z) : f1u_bearer :=
  mk_bearer (dl_notif_timer s) sn (notif_highest_delivered_pdcp_sn s) (discard_blocks s).
Definition set_delivered (s : f1u_bearer) (sn : Z) : f1u_bearer :=
  mk_bearer (dl_notif_timer s) (notif_highest_transmitted_pdcp_sn s) sn (discard_blocks s).

(** What a bearer does to the outside: the notifiers, the inactivity timer of the UE, and the UL executor. *)
Inductive output :=
| tx_pdu (msg : nru_dl_message)
| rx_sdu (sdu : bytes)
| on_transmit_notification (pdcp_sn : Z)
| on_delivery_notification (pdcp_sn : Z)
| on_retransmit_notification (pdcp_sn : Z)
| on_delivery_retransmitted_notification (pdcp_sn : Z)
| inactivity_timer_run
| defer_pdu (msg : nru_ul_message).

#[export] Instance output_eq_dec : EqDecision output.
Proof. solve_decision. Defined.

(** [handle_pdu]: the task goes to the UL executor, which may be full. *)
Definition handle_pdu (accepted : bool) (s : f1u_bearer) (msg : nru_ul_message) : f1u_bearer * list output :=
  (s, if accepted then [defer_pdu msg] else []).

(** The three parts of [handle_pdu_impl]. *)
Definition handle_t_pdu (msg : nru_ul_message) : list output :=
  match ul_t_pdu msg with
  | Some t_pdu => if negb (zlen t_pdu =? 0) then [inactivity_timer_run; rx_sdu t_pdu] else []
  | None => []
  end.

Definition handle_highest_transmitted (s : f1u_bearer) (o : option Z) : f1u_bearer * list output :=
  match o with
  | Some pdcp_sn =>
      if negb (pdcp_sn =? notif_highest_transmitted_pdcp_sn s)
      then (set_transmitted s pdcp_sn, [inactivity_timer_run; on_transmit_notification pdcp_sn])
      else (s, [])
  | None => (s, [])
  end.

Definition handle_highest_delivered (s : f1u_bearer) (o : option Z) : f1u_bearer * list output :=
  match o with
  | Some pdcp_sn =>
      if negb (pdcp_sn =? notif_highest_delivered_pdcp_sn s) then (set_delivered s pdcp_sn, [on_delivery_notification pdcp_sn]) else (s, [])
  | None => (s, [])
  end.

Definition option_output (f : Z -> output) (o : option Z) : list output := match o with Some v => [f v] | None => [] end.

Definition handle_pdu_impl (s : f1u_bearer) (msg : nru_ul_message) : f1u_bearer * list output :=
  let outs := handle_t_pdu msg in
  match data_delivery_status msg with
  | None => (s, outs)
  | Some status =>
      let '(s, outs1) := handle_highest_transmitted s (highest_transmitted_pdcp_sn status) in
      let '(s, outs2) := handle_highest_delivered s (highest_delivered_pdcp_sn status) in
      let outs3 := option_output on_retransmit_notification (highest_retransmitted_pdcp_sn status) in
      let outs4 := option_output on_delivery_retransmitted_notification (highest_delivered_retransmitted_pdcp_sn status) in
      (s, outs ++ outs1 ++ outs2 ++ outs3 ++ outs4)
  end.

(** [fill_discard_blocks]: the blocks go into the message. *)
Definition fill_discard_blocks (s : f1u_bearer) (m : nru_dl_user_data) : f1u_bearer * nru_dl_user_data :=
  match discard_blocks s with
  | [] => (s, m)
  | blocks =>
      (set_blocks s [],
       mk_dl_user_data (report_polling m) (request_out_of_seq_report m) (report_delivered m) (user_data_existence_flag m)
         (assist_info_report_polling_flag m) (retransmission_flag m) (nru_sn m) (dl_discard_pdcp_sn m) (Some blocks) (dl_report_pdcp_sn m))
  end.

Definition retx_user_data (is_retx : bool) : nru_dl_user_data := mk_dl_user_data false false false false false is_retx 0 None None 0.

Definition handle_sdu (s : f1u_bearer) (sdu : bytes) (is_retx : bool) : f1u_bearer * list output :=
  let '(s, user_data) := fill_discard_blocks s (retx_user_data is_retx) in
  (set_timer s (timer_stop (dl_notif_timer s)), [tx_pdu (mk_dl_message sdu user_data)]).

Definition flush_discard_blocks (s : f1u_bearer) : f1u_bearer * list output :=
  let '(s, user_data) := fill_discard_blocks s dl_user_data_init in
  let s := set_timer s (timer_stop (dl_notif_timer s)) in
  (s, match NruPacking.discard_blocks user_data with Some _ => [tx_pdu (mk_dl_message [] user_data)] | None => [] end).

(** [block_size] is a [uint8_t]. *)
Definition discard_sdu (s : f1u_bearer) (pdcp_sn : Z) : outcome (f1u_bearer * list output) :=
  let s := if negb (is_running (dl_notif_timer s)) then set_timer s (timer_run (dl_notif_timer s)) else s in
  match last (discard_blocks s) with
  | None =>
      blocks ← static_push nru_max_nof_pdcp_sn_discard_blocks (discard_blocks s) (mk_discard_block pdcp_sn 1);
      ok (set_blocks s blocks, [])
  | Some last_block =>
      if u32 (pdcp_sn_start last_block + block_size last_block) =? pdcp_sn
      then ok (set_blocks s (removelast (discard_blocks s) ++ [mk_discard_block (pdcp_sn_start last_block) (u8 (block_size last_block + 1))]), [])
      else
        blocks ← static_push nru_max_nof_pdcp_sn_discard_blocks (discard_blocks s) (mk_discard_block pdcp_sn 1);
        let s := set_blocks s blocks in
        ok (if zlen blocks =? nru_max_nof_pdcp_sn_discard_blocks then flush_discard_blocks s else (s, []))
  end.

(** The timer fires: it is no longer running when its callback runs. *)
Definition on_expired_dl_notif_timer (s : f1u_bearer) : f1u_bearer * list output := flush_discard_blocks (set_timer s timer_expired).

Definition stop (s : f1u_bearer) : f1u_bearer := set_timer s (timer_stop (dl_notif_timer s)).

(** ** Inputs *)
Inductive input :=
| in_sdu (sdu : bytes) (is_retx : bool)
| in_discard (pdcp_sn : Z)
| in_dl_notif_timer_expiry
| in_pdu (accepted : bool) (msg : nru_ul_message)
| in_task (msg : nru_ul_message).

Definition step (s : f1u_bearer) (i : input) : outcome (f1u_bearer * list output) :=
  match i with
  | in_sdu sdu is_retx => ok (handle_sdu s sdu is_retx)
  | in_discard pdcp_sn => discard_sdu s pdcp_sn
  | in_dl_notif_timer_expiry => ok (on_expired_dl_notif_timer s)
  | in_pdu accepted msg => ok (handle_pdu accepted s msg)
  | in_task msg => ok (handle_pdu_impl s msg)
  end.

Fixpoint run (s : f1u_bearer) (l : list input) : outcome (f1u_bearer * list output) :=
  match l with
  | [] => ok (s, [])
  | i :: l => '(s, outs1) ← step s i; '(s, outs2) ← run s l; ok (s, outs1 ++ outs2)
  end.
