(* ===== verification/F1uDu.v ===== *)
(** * The F1-U bearer of the DU

    [lib/f1u/du/f1u_bearer_impl.cpp]: gives PDUs and discards to RLC and reports what RLC has sent. Handlers return the new state and, in order, what
    they do to the outside; a task given to an executor is an output, and an input when it runs. *)
From S2P Require Import Prelude BitEncoding BitStream BitFields NruPacking GtpuPdu GtpuPduProps GtpuNru F1uCu.

Record f1u_bearer := mk_bearer {
  stopped : bool;
  ul_notif_timer : timer_state;
  desired_buffer_size_for_data_radio_bearer : Z;
  highest_transmitted_pdcp_sn : Z;
  highest_delivered_pdcp_sn : Z;
  highest_retransmitted_pdcp_sn : Z;
  highest_delivered_retransmitted_pdcp_sn : Z;
  notif_desired_buffer_size_for_data_radio_bearer : Z;
  notif_highest_retransmitted_pdcp_sn : Z;
  notif_highest_delivered_retransmitted_pdcp_sn : Z
}.

(** The constructor, which starts the timer. *)
Definition init (rlc_queue_bytes_limit : Z) : f1u_bearer :=
  mk_bearer false (timer_run timer_stopped) rlc_queue_bytes_limit unset_pdcp_sn unset_pdcp_sn unset_pdcp_sn unset_pdcp_sn 0 unset_pdcp_sn unset_pdcp_sn.

Definition set_timer (s : f1u_bearer) (t : timer_state) : f1u_bearer :=
  mk_bearer (stopped s) t (desired_buffer_size_for_data_radio_bearer s) (highest_transmitted_pdcp_sn s) (highest_delivered_pdcp_sn s)
    (highest_retransmitted_pdcp_sn s) (highest_delivered_retransmitted_pdcp_sn s) (notif_desired_buffer_size_for_data_radio_bearer s)
    (notif_highest_retransmitted_pdcp_sn s) (notif_highest_delivered_retransmitted_pdcp_sn s).
Definition set_notified (s : f1u_bearer) (buffer_size retx delivered_retx : Z) : f1u_bearer :=
  mk_bearer (stopped s) (ul_notif_timer s) (desired_buffer_size_for_data_radio_bearer s) (highest_transmitted_pdcp_sn s) (highest_delivered_pdcp_sn s)
    (highest_retransmitted_pdcp_sn s) (highest_delivered_retransmitted_pdcp_sn s) buffer_size retx delivered_retx.

Inductive output :=
| tx_pdu (msg : nru_ul_message)
| rx_sdu (sdu : bytes) (is_retx : bool)
| on_discard_sdu (pdcp_sn : Z)
| execute_pdu (msg : nru_dl_message).

#[export] Instance output_eq_dec : EqDecision output.
Proof. solve_decision. Defined.

(** The stores into the atomic variables, which other executors make. *)
Definition store_highest_transmitted (s : f1u_bearer) (v : Z) : f1u_bearer :=
  mk_bearer (stopped s) (ul_notif_timer s) (desired_buffer_size_for_data_radio_bearer s) v (highest_delivered_pdcp_sn s)
    (highest_retransmitted_pdcp_sn s) (highest_delivered_retransmitted_pdcp_sn s) (notif_desired_buffer_size_for_data_radio_bearer s)
    (notif_highest_retransmitted_pdcp_sn s) (notif_highest_delivered_retransmitted_pdcp_sn s).
Definition store_desired_buffer_size (s : f1u_bearer) (v : Z) : f1u_bearer :=
  mk_bearer (stopped s) (ul_notif_timer s) v (highest_transmitted_pdcp_sn s) (highest_delivered_pdcp_sn s)
    (highest_retransmitted_pdcp_sn s) (highest_delivered_retransmitted_pdcp_sn s) (notif_desired_buffer_size_for_data_radio_bearer s)
    (notif_highest_retransmitted_pdcp_sn s) (notif_highest_delivered_retransmitted_pdcp_sn s).
Definition handle_delivery_notification (s : f1u_bearer) (v : Z) : f1u_bearer :=
  mk_bearer (stopped s) (ul_notif_timer s) (desired_buffer_size_for_data_radio_bearer s) (highest_transmitted_pdcp_sn s) v
    (highest_retransmitted_pdcp_sn s) (highest_delivered_retransmitted_pdcp_sn s) (notif_desired_buffer_size_for_data_radio_bearer s)
    (notif_highest_retransmitted_pdcp_sn s) (notif_highest_delivered_retransmitted_pdcp_sn s).
Definition handle_retransmit_notification (s : f1u_bearer) (v : Z) : f1u_bearer :=
  mk_bearer (stopped s) (ul_notif_timer s) (desired_buffer_size_for_data_radio_bearer s) (highest_transmitted_pdcp_sn s) (highest_delivered_pdcp_sn s)
    v (highest_delivered_retransmitted_pdcp_sn s) (notif_desired_buffer_size_for_data_radio_bearer s)
    (notif_highest_retransmitted_pdcp_sn s) (notif_highest_delivered_retransmitted_pdcp_sn s).
Definition handle_delivery_retransmitted_notification (s : f1u_bearer) (v : Z) : f1u_bearer :=
  mk_bearer (stopped s) (ul_notif_timer s) (desired_buffer_size_for_data_radio_bearer s) (highest_transmitted_pdcp_sn s) (highest_delivered_pdcp_sn s)
    (highest_retransmitted_pdcp_sn s) v (notif_desired_buffer_size_for_data_radio_bearer s)
    (notif_highest_retransmitted_pdcp_sn s) (notif_highest_delivered_retransmitted_pdcp_sn s).

(** Two stores; a report may come between them. *)
Definition handle_transmit_notification (s : f1u_bearer) (highest_pdcp_sn desired_buf_size : Z) : f1u_bearer :=
  store_desired_buffer_size (store_highest_transmitted s highest_pdcp_sn) desired_buf_size.

(** [fill_*]: a value, and whether it was added. The two highest SNs are added whenever they are set, the retransmitted ones when they have changed. *)
Definition fill_set (v : Z) : option Z := if negb (v =? unset_pdcp_sn) then Some v else None.
Definition fill_changed (v notified : Z) : option Z := if negb (v =? notified) then Some v else None.

(** [fill_data_delivery_status] *)
Definition fill_data_delivery_status (s : f1u_bearer) : f1u_bearer * option nru_dl_data_delivery_status :=
  let buffer_size := desired_buffer_size_for_data_radio_bearer s in
  let buffer_size_changed := negb (buffer_size =? notif_desired_buffer_size_for_data_radio_bearer s) in
  let transmitted := fill_set (highest_transmitted_pdcp_sn s) in
  let delivered := fill_set (highest_delivered_pdcp_sn s) in
  let retransmitted := fill_changed (highest_retransmitted_pdcp_sn s) (notif_highest_retransmitted_pdcp_sn s) in
  let delivered_retx := fill_changed (highest_delivered_retransmitted_pdcp_sn s) (notif_highest_delivered_retransmitted_pdcp_sn s) in
  let value_added := buffer_size_changed || bool_decide (is_Some transmitted) || bool_decide (is_Some delivered) ||
    bool_decide (is_Some retransmitted) || bool_decide (is_Some delivered_retx) in
  let status := {| final_frame_ind := false; desired_buffer_size_for_drb := buffer_size; desired_data_rate := None; lost_nru_sn_ranges := None;
    NruPacking.highest_delivered_pdcp_sn := delivered; NruPacking.highest_transmitted_pdcp_sn := transmitted; cause_value := None;
    NruPacking.highest_delivered_retransmitted_pdcp_sn := delivered_retx; NruPacking.highest_retransmitted_pdcp_sn := retransmitted |} in
  let s := set_notified s buffer_size (default (notif_highest_retransmitted_pdcp_sn s) retransmitted)
    (default (notif_highest_delivered_retransmitted_pdcp_sn s) delivered_retx) in
  (set_timer s (timer_run (ul_notif_timer s)), if value_added then Some status else None).

Definition handle_sdu (s : f1u_bearer) (sdu : bytes) : f1u_bearer * list output :=
  let '(s, status) := fill_data_delivery_status s in (s, [tx_pdu (mk_ul_message (Some sdu) status)]).

Definition send_data_delivery_status (s : f1u_bearer) : f1u_bearer * list output :=
  let '(s, status) := fill_data_delivery_status s in
  (s, match status with Some _ => [tx_pdu (mk_ul_message None status)] | None => [] end).

Definition on_expired_ul_notif_timer (s : f1u_bearer) : f1u_bearer * list output := send_data_delivery_status (set_timer s timer_expired).

Definition stop (s : f1u_bearer) : f1u_bearer :=
  let s := if negb (stopped s) then set_timer s (timer_stop (ul_notif_timer s)) else s in
  mk_bearer true (ul_notif_timer s) (desired_buffer_size_for_data_radio_bearer s) (highest_transmitted_pdcp_sn s) (highest_delivered_pdcp_sn s)
    (highest_retransmitted_pdcp_sn s) (highest_delivered_retransmitted_pdcp_sn s) (notif_desired_buffer_size_for_data_radio_bearer s)
    (notif_highest_retransmitted_pdcp_sn s) (notif_highest_delivered_retransmitted_pdcp_sn s).

(** The loop over the SNs of a block, with [uint32_t] bounds. *)
Fixpoint discard_range (fuel : nat) (pdcp_sn pdcp_sn_end : Z) : outcome (list output) :=
  match fuel with
  | O => fail out_of_fuel
  | S fuel => if pdcp_sn <? pdcp_sn_end then outs ← discard_range fuel (u32 (pdcp_sn + 1)) pdcp_sn_end; ok (on_discard_sdu pdcp_sn :: outs) else ok []
  end.

(** A block has at most 255 SNs. *)
Definition discard_fuel : nat := 256.

Fixpoint discard_all (blocks : list nru_pdcp_sn_discard_block) : outcome (list output) :=
  match blocks with
  | [] => ok []
  | block :: blocks =>
      outs1 ← discard_range discard_fuel (pdcp_sn_start block) (u32 (pdcp_sn_start block + block_size block));
      outs2 ← discard_all blocks; ok (outs1 ++ outs2)
  end.

Definition handle_pdu_impl (s : f1u_bearer) (msg : nru_dl_message) : outcome (f1u_bearer * list output) :=
  let outs := if negb (zlen (dl_t_pdu msg) =? 0) then [rx_sdu (dl_t_pdu msg) (retransmission_flag (dl_user_data msg))] else [] in
  let '(s, outs1) := if report_polling (dl_user_data msg) then send_data_delivery_status s else (s, []) in
  outs2 ← match NruPacking.discard_blocks (dl_user_data msg) with Some blocks => discard_all blocks | None => ok [] end;
  ok (s, outs ++ outs1 ++ outs2).

Definition handle_pdu (accepted : bool) (s : f1u_bearer) (msg : nru_dl_message) : f1u_bearer * list output :=
  (s, if accepted then [execute_pdu msg] else []).

(** ** Inputs *)
Inductive input :=
| in_sdu (sdu : bytes)
| in_transmitted (pdcp_sn : Z)
| in_buffer_size (desired_buf_size : Z)
| in_delivered (pdcp_sn : Z)
| in_retransmitted (pdcp_sn : Z)
| in_delivered_retransmitted (pdcp_sn : Z)
| in_ul_notif_timer_expiry
| in_pdu (accepted : bool) (msg : nru_dl_message)
| in_task (msg : nru_dl_message)
| in_stop.

Definition step (s : f1u_bearer) (i : input) : outcome (f1u_bearer * list output) :=
  match i with
  | in_sdu sdu => ok (handle_sdu s sdu)
  | in_transmitted v => ok (store_highest_transmitted s v, [])
  | in_buffer_size v => ok (store_desired_buffer_size s v, [])
  | in_delivered v => ok (handle_delivery_notification s v, [])
  | in_retransmitted v => ok (handle_retransmit_notification s v, [])
  | in_delivered_retransmitted v => ok (handle_delivery_retransmitted_notification s v, [])
  | in_ul_notif_timer_expiry => ok (on_expired_ul_notif_timer s)
  | in_pdu accepted msg => ok (handle_pdu accepted s msg)
  | in_task msg => handle_pdu_impl s msg
  | in_stop => ok (stop s, [])
  end.

Fixpoint run (s : f1u_bearer) (l : list input) : outcome (f1u_bearer * list output) :=
  match l with
  | [] => ok (s, [])
  | i :: l => '(s, outs1) ← step s i; '(s, outs2) ← run s l; ok (s, outs1 ++ outs2)
  end.
