(* ===== verification/F1uProps.v ===== *)
(** * F1-U end to end

    A CU-UP bearer and a DU bearer joined by the tunnels of [GtpuNru.v], in both directions: what PDCP hands down reaches RLC, and what RLC
    reports reaches PDCP. *)
From S2P Require Import Prelude BitEncoding BitStream BitFields NruPacking GtpuPdu GtpuPduProps GtpuNru F1uCu F1uDu.

Local Abbreviation mem := (fun _ => true).

(** ** The SNs of discard blocks *)
Definition expand (b : nru_pdcp_sn_discard_block) : list Z := seqZ (pdcp_sn_start b) (block_size b).
Definition expand_all (l : list nru_pdcp_sn_discard_block) : list Z := concat (expand <$> l).

(** A block as [discard_sdu] makes it. *)
Definition block_ok (b : nru_pdcp_sn_discard_block) : Prop := fits 24 (pdcp_sn_start b) /\ 1 <= block_size b <= 255.

Lemma expand_all_app l1 l2 : expand_all (l1 ++ l2) = expand_all l1 ++ expand_all l2.
Proof. unfold expand_all. by rewrite fmap_app, concat_app. Qed.

Lemma expand_all_snoc l b : expand_all (l ++ [b]) = expand_all l ++ expand b.
Proof. rewrite expand_all_app. unfold expand_all at 2. simpl. by rewrite app_nil_r. Qed.

Lemma expand_one sn : expand (mk_discard_block sn 1) = [sn].
Proof. reflexivity. Qed.

Lemma expand_grow sn n : 0 <= n -> expand (mk_discard_block sn (n + 1)) = expand (mk_discard_block sn n) ++ [sn + n].
Proof. intros Hn. unfold expand. cbn [pdcp_sn_start block_size]. by rewrite seqZ_app, (seqZ_cons _ 1) by lia. Qed.

(** No 256 consecutive SNs in a row: the size of a block is an octet (see [block_size_wraps]). *)
Definition no_long_run (l : list Z) : Prop := ~ exists l1 sn l2, l = l1 ++ seqZ sn 256 ++ l2.

(** The number of runs of consecutive SNs. *)
Fixpoint runs (l : list Z) : Z :=
  match l with
  | [] => 0
  | a :: rest => match rest with [] => 1 | b :: _ => if a + 1 =? b then runs rest else runs rest + 1 end
  end.

Lemma runs_snoc l p sn : runs ((l ++ [p]) ++ [sn]) = runs (l ++ [p]) + if p + 1 =? sn then 0 else 1.
Proof.
  induction l as [|a l IH]; [cbn; by destruct (p + 1 =? sn)|]. destruct l as [|b l]; cbn [app runs] in *; rewrite IH; by destruct (a + 1 =? _); lia.
Qed.

(** ** CU-UP: the discards gathered and the PDUs sent *)
Module Cu.
Import F1uCu.

Definition discard_in (i : input) : option Z := match i with in_discard sn => Some sn | _ => None end.
Definition sdu_in (i : input) : option (bytes * bool) := match i with in_sdu sdu is_retx => Some (sdu, is_retx) | _ => None end.
Definition msg_out (o : output) : option nru_dl_message := match o with tx_pdu m => Some m | _ => None end.

Definition input_ok (i : input) : Prop :=
  match i with in_sdu sdu _ => is_bytes sdu | in_discard sn => fits 24 sn | _ => True end.

(** A message as the bearer sends it: it passes the wire unchanged, and its blocks are well-formed. *)
Definition msg_ok (m : nru_dl_message) : Prop :=
  is_bytes (dl_t_pdu m) /\ user_data_ok (dl_user_data m) /\ sent_user_data (dl_user_data m) = dl_user_data m /\
  report_polling (dl_user_data m) = false /\ forall l, NruPacking.discard_blocks (dl_user_data m) = Some l -> Forall block_ok l.

Definition msg_discards (m : nru_dl_message) : list Z := expand_all (default [] (NruPacking.discard_blocks (dl_user_data m))).
Definition msg_sdu (m : nru_dl_message) : list (bytes * bool) :=
  if negb (zlen (dl_t_pdu m) =? 0) then [(dl_t_pdu m, retransmission_flag (dl_user_data m))] else [].

Definition sent (outs : list output) : list nru_dl_message := omap msg_out outs.
Definition sent_discards (outs : list output) : list Z := concat (msg_discards <$> sent outs).
Definition sent_sdus (outs : list output) : list (bytes * bool) := concat (msg_sdu <$> sent outs).

(** The PDUs that are not empty. *)
Definition real_sdus (l : list input) : list (bytes * bool) := filter (fun p => p.1 <> []) (omap sdu_in l).

Record inv (s : f1u_bearer) : Prop := {
  inv_blocks : Forall block_ok (discard_blocks s);
  inv_count : zlen (discard_blocks s) < nru_max_nof_pdcp_sn_discard_blocks;
  inv_runs : runs (expand_all (discard_blocks s)) = zlen (discard_blocks s);
  inv_timer : discard_blocks s <> [] -> is_running (dl_notif_timer s) = true
}.

Lemma f1u_init_inv : inv init.
Proof. constructor; [constructor|done|done|done]. Qed.

(** The SNs that wait for a message after an input, given those that waited before: a discard joins them, unless it is the one that begins the 16th
    run, on which all are sent; an SDU and the expiry of the timer send them. *)
Definition gather (g : list Z) (i : input) : list Z :=
  match i with
  | in_discard sn => if runs (g ++ [sn]) =? nru_max_nof_pdcp_sn_discard_blocks then [] else g ++ [sn]
  | in_sdu _ _ | in_dl_notif_timer_expiry => []
  | in_pdu _ _ | in_task _ => g
  end.

(** No 256 consecutive SNs wait at any moment. *)
Fixpoint no_long_wait (g : list Z) (l : list input) : Prop :=
  match l with
  | [] => True
  | i :: l => no_long_run (g ++ option_list (discard_in i)) /\ no_long_wait (gather g i) l
  end.

(** A message that carries some of the blocks. *)
Lemma fill_msg_ok s sdu (is_retx : bool) :
  Forall block_ok (discard_blocks s) -> zlen (discard_blocks s) <= nru_max_nof_pdcp_sn_discard_blocks -> is_bytes sdu ->
  let m := mk_dl_message sdu (fill_discard_blocks s (retx_user_data is_retx)).2 in
  msg_ok m /\ msg_discards m = expand_all (discard_blocks s) /\ retransmission_flag (dl_user_data m) = is_retx /\
  discard_blocks (fill_discard_blocks s (retx_user_data is_retx)).1 = [].
Proof.
  intros Hb Hc Hs. unfold fill_discard_blocks. destruct (discard_blocks s) as [|b l] eqn:E; cbn -[expand_all].
  - split; [|done]. split; [exact Hs|]. split; [|done]. by constructor.
  - split; [|done]. split; [exact Hs|]. split; [|split; [done|split; [done|]]].
    + constructor; cbn; [unfold fits; lia|done| |unfold fits; lia]. intros ? [= <-]. split; [unfold nru_max_nof_pdcp_sn_discard_blocks in *; lia|].
      eapply Forall_impl; [exact Hb|]. intros [start size] [H1 H2]. split; [done|]. unfold fits. cbn in *. lia.
    + by intros ? [= <-].
Qed.

(** What one input adds. *)
Definition effect (s : f1u_bearer) (i : input) (s' : f1u_bearer) (outs : list output) : Prop :=
  inv s' /\ Forall msg_ok (sent outs) /\
  sent_discards outs ++ expand_all (discard_blocks s') = expand_all (discard_blocks s) ++ option_list (discard_in i) /\
  sent_sdus outs = real_sdus [i] /\ expand_all (discard_blocks s') = gather (expand_all (discard_blocks s)) i.

Lemma handle_sdu_effect s sdu is_retx :
  inv s -> is_bytes sdu -> effect s (in_sdu sdu is_retx) (handle_sdu s sdu is_retx).1 (handle_sdu s sdu is_retx).2.
Proof.
  intros [Hb Hc _ _] Hs. destruct (fill_msg_ok s sdu is_retx Hb ltac:(lia) Hs) as (Hm & Hd & Hr & Hn). unfold handle_sdu.
  destruct (fill_discard_blocks s (retx_user_data is_retx)) as [s1 m]. cbn in Hm, Hd, Hr, Hn. cbn [fst snd].
  split; [constructor; unfold set_timer; cbn; rewrite Hn; [constructor|done|done|done]|]. split; [by constructor|].
  unfold sent_discards, sent_sdus, real_sdus. cbn -[expand_all]. rewrite Hn, !app_nil_r. split; [exact Hd|].
  split; [|done]. unfold msg_sdu. cbn. rewrite Hr. by destruct sdu.
Qed.

Lemma flush_ok s :
  Forall block_ok (discard_blocks s) -> zlen (discard_blocks s) <= nru_max_nof_pdcp_sn_discard_blocks ->
  inv (flush_discard_blocks s).1 /\ Forall msg_ok (sent (flush_discard_blocks s).2) /\
  sent_discards (flush_discard_blocks s).2 = expand_all (discard_blocks s) /\ discard_blocks (flush_discard_blocks s).1 = [] /\
  sent_sdus (flush_discard_blocks s).2 = [].
Proof.
  intros Hb Hc. destruct (fill_msg_ok s [] false Hb Hc ltac:(constructor)) as (Hm & Hd & Hr & Hn). unfold flush_discard_blocks.
  change dl_user_data_init with (retx_user_data false). unfold fill_discard_blocks, sent_discards, sent_sdus in *.
  destruct (discard_blocks s) as [|b l] eqn:E; cbn -[expand_all] in *.
  - split; [|by rewrite E]. constructor; cbn; rewrite E; [constructor|done|done|done].
  - split; [constructor; [constructor|done|done|done]|]. split; [by constructor|]. split; [by rewrite app_nil_r|done].
Qed.

Lemma discard_effect s sn :
  inv s -> fits 24 sn -> no_long_run (expand_all (discard_blocks s) ++ [sn]) ->
  exists s' outs, discard_sdu s sn = ok (s', outs) /\ effect s (in_discard sn) s' outs.
Proof.
  intros [Hb Hc Hr _] Hsn Hrun. unfold discard_sdu, nru_max_nof_pdcp_sn_discard_blocks in *.
  set (s1 := if negb (is_running _) then _ else s).
  assert (H1 : discard_blocks s1 = discard_blocks s /\ is_running (dl_notif_timer s1) = true).
  { unfold s1. destruct (is_running (dl_notif_timer s)) eqn:E; by split. }
  destruct H1 as [E1 Et]. clearbody s1. rewrite E1.
  assert (Hkeep : forall blocks, Forall block_ok blocks -> zlen blocks < 16 -> expand_all blocks = expand_all (discard_blocks s) ++ [sn] ->
    runs (expand_all (discard_blocks s) ++ [sn]) = zlen blocks -> effect s (in_discard sn) (set_blocks s1 blocks) []).
  { intros blocks Hbl Hl E Er. split; [constructor; cbn [set_blocks discard_blocks]; by rewrite ?E|]. split; [constructor|]. split; [exact E|]. split; [done|].
    cbn [set_blocks discard_blocks gather]. rewrite Er. unfold nru_max_nof_pdcp_sn_discard_blocks. zfalse. exact E. }
  assert (Hnew : block_ok (mk_discard_block sn 1)) by (split; [done|cbn; lia]).
  destruct (discard_blocks s) as [|b l _] eqn:El using rev_ind.
  { rewrite static_push_ok by (cbn; lia). rewrite bind_ok. eexists _, _. split; [done|]. apply Hkeep; [by constructor|cbn; lia|done|done]. }
  rewrite last_snoc. apply Forall_app in Hb as [Hl Hbok]. apply Forall_inv in Hbok. destruct Hbok as [Hst Hsz]. unfold fits in Hst.
  destruct b as [start size]. cbn [pdcp_sn_start block_size] in *. rewrite expand_all_snoc in *. rewrite length_app in Hc, Hr. cbn [length] in Hc, Hr.
  assert (Er : runs ((expand_all l ++ expand (mk_discard_block start size)) ++ [sn]) = zlen l + 1 + if start + size =? sn then 0 else 1).
  { replace size with (size - 1 + 1) in Hr |- * by lia. rewrite expand_grow, (app_assoc (expand_all l)) in * by lia. rewrite runs_snoc, Hr.
    rewrite <- Z.add_assoc. lia. }
  destruct (Z.eqb_spec (u32 (start + size)) sn) as [E|E].
  - rewrite u32_small in E by lia. subst sn. rewrite Z.eqb_refl in Er. eexists _, _. split; [done|]. rewrite removelast_last.
    assert (size <> 255).
    { intros ->. apply Hrun. exists (expand_all l), start, []. rewrite <- app_assoc. f_equal. rewrite app_nil_r. symmetry. exact (expand_grow start 255 ltac:(lia)). }
    assert (Eu : u8 (size + 1) = size + 1) by (unfold u8; apply Z.mod_small; lia). rewrite Eu.
    apply Hkeep; [apply Forall_app; split; [done|]; apply Forall_singleton; split; unfold fits; cbn; lia|rewrite length_app; cbn [length]; lia| |].
    + rewrite expand_all_snoc, expand_grow, app_assoc by lia. reflexivity.
    + rewrite Er, length_app. cbn [length]. lia.
  - rewrite u32_small in E by lia. rewrite (proj2 (Z.eqb_neq _ _) E), <- Z.add_assoc in Er. change (1 + 1) with 2 in Er.
    rewrite static_push_ok by (rewrite length_app; cbn [length]; lia). rewrite bind_ok. cbv zeta.
    set (blocks := (l ++ [mk_discard_block start size]) ++ [mk_discard_block sn 1]).
    assert (Hblocks : Forall block_ok blocks) by (repeat apply Forall_app_2; [done|apply Forall_singleton; by split|by apply Forall_singleton]).
    assert (Eb : expand_all blocks = (expand_all l ++ expand (mk_discard_block start size)) ++ [sn]) by (unfold blocks; by rewrite !expand_all_snoc).
    assert (Hlen : zlen blocks = zlen l + 2) by (unfold blocks; rewrite !length_app; cbn [length]; lia).
    destruct (Z.eqb_spec (zlen blocks) 16) as [E16|E16].
    + destruct (flush_ok (set_blocks s1 blocks) Hblocks) as (Hi & Hm & Hd & Hn & Hs); [unfold nru_max_nof_pdcp_sn_discard_blocks; cbn; lia|].
      destruct (flush_discard_blocks _) as [s' outs]. cbn [fst snd] in *. exists s', outs. split; [done|]. split; [done|]. split; [done|].
      rewrite Hd, Hn, app_nil_r. cbn [discard_blocks set_blocks discard_in option_list gather]. rewrite El, expand_all_snoc, Er. split; [exact Eb|].
      split; [exact Hs|]. unfold nru_max_nof_pdcp_sn_discard_blocks. rewrite <- Hlen, E16. done.
    + eexists _, _. split; [done|]. apply Hkeep; [done|lia|exact Eb|].
      by rewrite Er, Hlen.
Qed.

Lemma sent_app o1 o2 : sent (o1 ++ o2) = sent o1 ++ sent o2.
Proof. apply omap_app. Qed.

(** Delivery status only moves what was notified. *)
Definition notifies (s s' : f1u_bearer) (outs : list output) : Prop :=
  discard_blocks s' = discard_blocks s /\ dl_notif_timer s' = dl_notif_timer s /\ sent outs = [].

Lemma transmitted_notifies s o : notifies s (handle_highest_transmitted s o).1 (handle_highest_transmitted s o).2.
Proof. unfold notifies, handle_highest_transmitted. destruct o as [v|]; [|done]. by destruct (negb _). Qed.

Lemma delivered_notifies s o : notifies s (handle_highest_delivered s o).1 (handle_highest_delivered s o).2.
Proof. unfold notifies, handle_highest_delivered. destruct o as [v|]; [|done]. by destruct (negb _). Qed.

Lemma task_notifies s msg : notifies s (handle_pdu_impl s msg).1 (handle_pdu_impl s msg).2.
Proof.
  assert (Ht : sent (handle_t_pdu msg) = []) by (unfold handle_t_pdu; destruct (ul_t_pdu msg) as [l|]; [by destruct (negb _)|done]).
  unfold handle_pdu_impl. destruct (data_delivery_status msg) as [st|]; [|by split].
  pose proof (transmitted_notifies s (NruPacking.highest_transmitted_pdcp_sn st)) as (E1 & E2 & E3).
  destruct (handle_highest_transmitted s _) as [s1 o1]. cbn [fst snd] in *.
  pose proof (delivered_notifies s1 (NruPacking.highest_delivered_pdcp_sn st)) as (F1 & F2 & F3).
  destruct (handle_highest_delivered s1 _) as [s2 o2]. cbn [fst snd] in *. unfold notifies. rewrite !sent_app, Ht, E3, F3, F1, F2.
  split; [done|]. split; [done|]. by destruct (NruPacking.highest_retransmitted_pdcp_sn st), (NruPacking.highest_delivered_retransmitted_pdcp_sn st).
Qed.

Lemma task_effect s msg : inv s -> effect s (in_task msg) (handle_pdu_impl s msg).1 (handle_pdu_impl s msg).2.
Proof.
  intros [Hb Hc Hr Ht]. destruct (task_notifies s msg) as (E1 & E2 & E3).
  split; [constructor; rewrite ?E1, ?E2; done|]. unfold sent_discards, sent_sdus. rewrite E3, E1.
  split; [constructor|]. cbn -[expand_all]. by rewrite app_nil_r.
Qed.

Lemma f1u_step_ok s i :
  inv s -> input_ok i -> no_long_run (expand_all (discard_blocks s) ++ option_list (discard_in i)) ->
  exists s' outs, step s i = ok (s', outs) /\ effect s i s' outs.
Proof.
  intros Hi Hin Hrun. destruct i as [sdu is_retx|sn| |accepted msg|msg]; cbn [step input_ok] in *.
  - pose proof (handle_sdu_effect s sdu is_retx Hi Hin) as H. destruct (handle_sdu s sdu is_retx) as [s' outs]. by exists s', outs.
  - by apply discard_effect.
  - destruct Hi as [Hb Hc _ _]. destruct (flush_ok (set_timer s timer_expired) Hb ltac:(cbn; lia)) as (Hi & Hm & Hd & Hn & Hs).
    unfold on_expired_dl_notif_timer. destruct (flush_discard_blocks _) as [s' outs]. cbn [fst snd] in *. eexists _, _. split; [done|].
    split; [done|]. split; [done|]. rewrite Hd, Hn, app_nil_r. split; [by rewrite app_nil_r|]. split; [exact Hs|done].
  - eexists _, _. split; [done|]. split; [done|]. split; [destruct accepted; constructor|]. cbn [option_list discard_in].
    rewrite app_nil_r. by destruct accepted.
  - destruct (handle_pdu_impl s msg) as [s' outs] eqn:E. exists s', outs. split; [done|]. pose proof (task_effect s msg Hi) as H. by rewrite E in H.
Qed.

Lemma sent_discards_app o1 o2 : sent_discards (o1 ++ o2) = sent_discards o1 ++ sent_discards o2.
Proof. unfold sent_discards. by rewrite sent_app, fmap_app, concat_app. Qed.

Lemma sent_sdus_app o1 o2 : sent_sdus (o1 ++ o2) = sent_sdus o1 ++ sent_sdus o2.
Proof. unfold sent_sdus. by rewrite sent_app, fmap_app, concat_app. Qed.

Lemma real_sdus_cons i l : real_sdus (i :: l) = real_sdus [i] ++ real_sdus l.
Proof. unfold real_sdus. change (i :: l) with ([i] ++ l). by rewrite omap_app, filter_app. Qed.

Lemma omap_discard_cons i l : omap discard_in (i :: l) = option_list (discard_in i) ++ omap discard_in l.
Proof. cbn. by destruct (discard_in i). Qed.

(** Any run of inputs: no discard is lost, doubled or reordered, and every SDU goes out once, in order. *)
Lemma run_ok l s :
  inv s -> Forall input_ok l -> no_long_wait (expand_all (discard_blocks s)) l ->
  exists s' outs, run s l = ok (s', outs) /\ inv s' /\ Forall msg_ok (sent outs) /\
    sent_discards outs ++ expand_all (discard_blocks s') = expand_all (discard_blocks s) ++ omap discard_in l /\ sent_sdus outs = real_sdus l.
Proof.
  revert s. induction l as [|i l IH]; intros s Hi Hl Hrun.
  { exists s, []. split; [done|]. split; [done|]. split; [constructor|]. cbn -[expand_all]. by rewrite app_nil_r. }
  apply Forall_cons in Hl as [Hil Hl]. destruct Hrun as [Hrun Hrest].
  destruct (f1u_step_ok s i Hi Hil Hrun) as (s1 & o1 & E1 & Hi1 & Hm1 & Hd1 & Hs1 & Hg1). rewrite <- Hg1 in Hrest.
  destruct (IH s1 Hi1 Hl Hrest) as (s2 & o2 & E2 & Hi2 & Hm2 & Hd2 & Hs2).
  exists s2, (o1 ++ o2). cbn [run]. rewrite E1, bind_ok, E2, bind_ok. split; [done|]. split; [done|].
  rewrite sent_app, sent_discards_app, sent_sdus_app, real_sdus_cons, omap_discard_cons.
  split; [by apply Forall_app|]. split; [|by rewrite Hs1, Hs2]. by rewrite <- app_assoc, Hd2, !app_assoc, Hd1.
Qed.
End Cu.

(** ** DU: what arrives *)
Module DuRx.
Import F1uDu.

Definition sdu_out (o : output) : option (bytes * bool) := match o with rx_sdu sdu is_retx => Some (sdu, is_retx) | _ => None end.
Definition discard_out (o : output) : option Z := match o with on_discard_sdu sn => Some sn | _ => None end.

Lemma discard_range_ok fuel a n :
  0 <= n -> (Z.to_nat n < fuel)%nat -> 0 <= a -> a + n < 2 ^ 32 -> discard_range fuel a (a + n) = ok (on_discard_sdu <$> seqZ a n).
Proof.
  revert a n. induction fuel as [|fuel IH]; intros a n Hn Hf Ha Hr; [lia|]. cbn [discard_range].
  destruct (Z.ltb_spec a (a + n)) as [H|H]; [|by replace n with 0 by lia].
  rewrite u32_small by lia. replace (a + n) with ((a + 1) + (n - 1)) by lia. rewrite IH by lia. rewrite bind_ok, (seqZ_cons a n) by lia. cbn.
  by replace (Z.pred n) with (n - 1) by lia.
Qed.

Lemma discard_all_ok l : Forall discard_block_ok l -> discard_all l = ok (on_discard_sdu <$> expand_all l).
Proof.
  induction l as [|b l IH]; intros H; [done|]. apply Forall_cons in H as [[Hs Hz] Hl]. unfold fits in Hs, Hz. cbn [discard_all].
  rewrite u32_small, discard_range_ok by (unfold discard_fuel; lia). rewrite bind_ok, IH, bind_ok by done. by rewrite <- fmap_app.
Qed.

Lemma handle_msg s m :
  Cu.msg_ok m -> exists outs, handle_pdu_impl s m = ok (s, outs) /\ omap sdu_out outs = Cu.msg_sdu m /\ omap discard_out outs = Cu.msg_discards m.
Proof.
  intros (_ & _ & _ & Hp & Hb). unfold handle_pdu_impl, Cu.msg_sdu, Cu.msg_discards. rewrite Hp.
  assert (E : match NruPacking.discard_blocks (dl_user_data m) with Some blocks => discard_all blocks | None => ok [] end =
    ok (on_discard_sdu <$> expand_all (default [] (NruPacking.discard_blocks (dl_user_data m))))).
  { destruct (NruPacking.discard_blocks (dl_user_data m)) as [l|]; [|done]. apply discard_all_ok.
    eapply Forall_impl; [by apply Hb|]. intros b [Hst Hsz]. split; [done|unfold fits; lia]. }
  rewrite E, bind_ok. eexists. split; [done|]. set (l := expand_all _). rewrite app_nil_l, !omap_app.
  assert (E1 : omap sdu_out (on_discard_sdu <$> l) = []) by (clear; induction l; done).
  assert (E2 : omap discard_out (on_discard_sdu <$> l) = l) by (clear; induction l as [|x l IH]; [done|]; cbn in *; by rewrite IH).
  rewrite E1, E2, app_nil_r. by destruct (negb _).
Qed.
End DuRx.

(** ** Down: CU-UP to DU *)

(** A message that [tx_pdu] hands to the tunnel, as it comes out at the other end. *)
Definition dl_wire (teid : Z) (m : nru_dl_message) : outcome (option nru_dl_message) :=
  raw ← nru_tx_handle_dl_sdu mem teid m;
  match raw with
  | None => ok None
  | Some raw => r ← nru_rx_handle_pdu true raw; ok (match r with Some (new_dl_sdu m) => Some m | _ => None end)
  end.

(** The DU bearer takes what the CU-UP bearer sends. *)
Fixpoint dl_deliver (teid : Z) (s : F1uDu.f1u_bearer) (l : list nru_dl_message) : outcome (F1uDu.f1u_bearer * list F1uDu.output) :=
  match l with
  | [] => ok (s, [])
  | m :: l =>
      r ← dl_wire teid m;
      '(s, outs1) ← match r with Some m => F1uDu.handle_pdu_impl s m | None => ok (s, []) end;
      '(s, outs2) ← dl_deliver teid s l;
      ok (s, outs1 ++ outs2)
  end.

Lemma dl_wire_ok teid m : fits 32 teid -> Cu.msg_ok m -> dl_wire teid m = ok (Some m).
Proof.
  intros Ht (Hb & Hu & Hs & _). destruct (nru_dl_transfer teid m Ht Hb Hu) as (raw & E & _ & _ & Er). unfold dl_wire.
  rewrite E, bind_ok, Er, bind_ok, Hs. by destruct m.
Qed.

Lemma dl_deliver_ok teid s l :
  fits 32 teid -> Forall Cu.msg_ok l ->
  exists outs, dl_deliver teid s l = ok (s, outs) /\ omap DuRx.sdu_out outs = concat (Cu.msg_sdu <$> l) /\
    omap DuRx.discard_out outs = concat (Cu.msg_discards <$> l).
Proof.
  intros Ht. induction l as [|m l IH]; intros H; [by exists []|]. apply Forall_cons in H as [Hm Hl].
  destruct (DuRx.handle_msg s m Hm) as (o1 & E1 & Es1 & Ed1). destruct (IH Hl) as (o2 & E2 & Es2 & Ed2). exists (o1 ++ o2). cbn [dl_deliver].
  rewrite dl_wire_ok, bind_ok, E1, bind_ok, E2, bind_ok by done. split; [done|]. rewrite !omap_app, Es1, Es2, Ed1, Ed2. done.
Qed.

(** C6: F1-U down, end to end: whatever SDUs and discards PDCP hands to the CU-UP bearer, with its timer expiring and messages from the DU arriving in
    between, the DU bearer gives RLC exactly the SDUs that are not empty, in order and with their retransmission flags, and exactly the discards, in
    order; what is missing at the end are the discards the CU-UP bearer still gathers, and then its timer runs. The histories covered are those in
    which no 256 consecutive SNs wait in the CU-UP bearer for a message that takes them along: the size of a block is an octet, and a block of 256
    discards is lost ([block_size_wraps]). Longer runs that SDUs, the timer or the sixteenth block send in parts are covered. *)
Theorem f1u_downlink_transparent (teid limit : Z) (l : list F1uCu.input) :
  fits 32 teid -> Forall Cu.input_ok l -> Cu.no_long_wait [] l ->
  exists cu outs du_outs, F1uCu.run F1uCu.init l = ok (cu, outs) /\ dl_deliver teid (F1uDu.init limit) (Cu.sent outs) = ok (F1uDu.init limit, du_outs) /\
    omap DuRx.sdu_out du_outs = Cu.real_sdus l /\
    omap DuRx.discard_out du_outs ++ expand_all (F1uCu.discard_blocks cu) = omap Cu.discard_in l /\
    (F1uCu.discard_blocks cu <> [] -> is_running (F1uCu.dl_notif_timer cu) = true).
Proof.
  intros Ht Hl Hrun. destruct (Cu.run_ok l F1uCu.init Cu.f1u_init_inv Hl Hrun) as (cu & outs & E & Hi & Hm & Hd & Hs).
  destruct (dl_deliver_ok teid (F1uDu.init limit) (Cu.sent outs) Ht Hm) as (du_outs & Ed & Es & Edd). exists cu, outs, du_outs.
  split; [exact E|]. split; [exact Ed|]. rewrite Es, Edd. split; [exact Hs|]. split; [exact Hd|]. apply Hi.
Qed.

(** ** Up: DU to CU-UP *)

(** The value of the last of some notifications; [unset_pdcp_sn] before the first one. *)
Definition last_of {A} (f : A -> option Z) (l : list A) : Z := default unset_pdcp_sn (last (omap f l)).

Lemma last_of_app {A} (f : A -> option Z) l1 l2 : last_of f (l1 ++ l2) = default (last_of f l1) (last (omap f l2)).
Proof. unfold last_of. rewrite omap_app, last_app. by destruct (last (omap f l2)). Qed.

Definition cu_transmitted (o : F1uCu.output) : option Z := match o with F1uCu.on_transmit_notification v => Some v | _ => None end.
Definition cu_delivered (o : F1uCu.output) : option Z := match o with F1uCu.on_delivery_notification v => Some v | _ => None end.
Definition cu_retransmitted (o : F1uCu.output) : option Z := match o with F1uCu.on_retransmit_notification v => Some v | _ => None end.
Definition cu_delivered_retx (o : F1uCu.output) : option Z := match o with F1uCu.on_delivery_retransmitted_notification v => Some v | _ => None end.
Definition cu_sdu (o : F1uCu.output) : option bytes := match o with F1uCu.rx_sdu l => Some l | _ => None end.

Definition du_transmitted (i : F1uDu.input) : option Z := match i with F1uDu.in_transmitted v => Some v | _ => None end.
Definition du_delivered (i : F1uDu.input) : option Z := match i with F1uDu.in_delivered v => Some v | _ => None end.
Definition du_retransmitted (i : F1uDu.input) : option Z := match i with F1uDu.in_retransmitted v => Some v | _ => None end.
Definition du_delivered_retx (i : F1uDu.input) : option Z := match i with F1uDu.in_delivered_retransmitted v => Some v | _ => None end.
Definition du_sdu (i : F1uDu.input) : option bytes := match i with F1uDu.in_sdu l => Some l | _ => None end.
Definition du_msg (o : F1uDu.output) : option nru_ul_message := match o with F1uDu.tx_pdu m => Some m | _ => None end.

Definition du_input_ok (i : F1uDu.input) : Prop :=
  match i with
  | F1uDu.in_sdu sdu => is_bytes sdu
  | F1uDu.in_transmitted v | F1uDu.in_delivered v | F1uDu.in_retransmitted v | F1uDu.in_delivered_retransmitted v => fits 24 v
  | F1uDu.in_buffer_size v => fits 32 v
  | F1uDu.in_task msg => user_data_ok (dl_user_data msg)
  | _ => True
  end.

Definition ul_wire (teid : Z) (m : nru_ul_message) : outcome (option nru_ul_message) :=
  raw ← nru_tx_handle_ul_sdu mem teid true m;
  match raw with
  | None => ok None
  | Some raw => r ← nru_rx_handle_pdu true raw; ok (match r with Some (new_ul_sdu m) => Some m | _ => None end)
  end.

Fixpoint ul_deliver (teid : Z) (s : F1uCu.f1u_bearer) (l : list nru_ul_message) : outcome (F1uCu.f1u_bearer * list F1uCu.output) :=
  match l with
  | [] => ok (s, [])
  | m :: l =>
      r ← ul_wire teid m;
      let '(s, outs1) := match r with Some m => F1uCu.handle_pdu_impl s m | None => (s, []) end in
      '(s, outs2) ← ul_deliver teid s l;
      ok (s, outs1 ++ outs2)
  end.

Module Ul.
Definition sn_ok (v : Z) : Prop := v = unset_pdcp_sn \/ fits 24 v.

Record inv (s : F1uDu.f1u_bearer) : Prop := {
  inv_buffer : fits 32 (F1uDu.desired_buffer_size_for_data_radio_bearer s);
  inv_tx : sn_ok (F1uDu.highest_transmitted_pdcp_sn s);
  inv_dlv : sn_ok (F1uDu.highest_delivered_pdcp_sn s);
  inv_retx : sn_ok (F1uDu.highest_retransmitted_pdcp_sn s);
  inv_dretx : sn_ok (F1uDu.highest_delivered_retransmitted_pdcp_sn s);
  inv_set : F1uDu.highest_retransmitted_pdcp_sn s = unset_pdcp_sn -> F1uDu.notif_highest_retransmitted_pdcp_sn s = unset_pdcp_sn;
  inv_set' : F1uDu.highest_delivered_retransmitted_pdcp_sn s = unset_pdcp_sn -> F1uDu.notif_highest_delivered_retransmitted_pdcp_sn s = unset_pdcp_sn
}.

(** Until it is stopped, the bearer will report. *)
Definition timer_ok (s : F1uDu.f1u_bearer) : Prop := F1uDu.stopped s = false -> is_running (F1uDu.ul_notif_timer s) = true.

(** What the CU-UP bearer has told PDCP, against what the DU bearer has reported. *)
Record related (s : F1uDu.f1u_bearer) (c : F1uCu.f1u_bearer) (outs : list F1uCu.output) : Prop := {
  rel_tx : F1uDu.highest_transmitted_pdcp_sn s = unset_pdcp_sn -> F1uCu.notif_highest_transmitted_pdcp_sn c = unset_pdcp_sn;
  rel_dlv : F1uDu.highest_delivered_pdcp_sn s = unset_pdcp_sn -> F1uCu.notif_highest_delivered_pdcp_sn c = unset_pdcp_sn;
  rel_last_tx : last_of cu_transmitted outs = F1uCu.notif_highest_transmitted_pdcp_sn c;
  rel_last_dlv : last_of cu_delivered outs = F1uCu.notif_highest_delivered_pdcp_sn c;
  rel_retx : last_of cu_retransmitted outs = F1uDu.notif_highest_retransmitted_pdcp_sn s;
  rel_dretx : last_of cu_delivered_retx outs = F1uDu.notif_highest_delivered_retransmitted_pdcp_sn s
}.

(** Everything has been reported. *)
Definition up_to_date (s : F1uDu.f1u_bearer) (outs : list F1uCu.output) : Prop :=
  last_of cu_transmitted outs = F1uDu.highest_transmitted_pdcp_sn s /\ last_of cu_delivered outs = F1uDu.highest_delivered_pdcp_sn s /\
  last_of cu_retransmitted outs = F1uDu.highest_retransmitted_pdcp_sn s /\
  last_of cu_delivered_retx outs = F1uDu.highest_delivered_retransmitted_pdcp_sn s.

Lemma sn_ok_set v : sn_ok v -> opt_fits 24 (F1uDu.fill_set v).
Proof.
  intros [->|H]; unfold F1uDu.fill_set; [done|]. destruct (negb _); [|done]. by intros ? [= <-].
Qed.

Lemma sn_ok_changed v n : sn_ok v -> (v = unset_pdcp_sn -> n = unset_pdcp_sn) -> opt_fits 24 (F1uDu.fill_changed v n).
Proof.
  intros [->|H] Hn; unfold F1uDu.fill_changed; [rewrite (Hn eq_refl); done|]. destruct (negb _); [|done]. by intros ? [= <-].
Qed.

Lemma fill_ok s st : inv s -> (F1uDu.fill_data_delivery_status s).2 = Some st -> delivery_status_ok st.
Proof.
  intros [Hb H1 H2 H3 H4 H5 H6]. unfold F1uDu.fill_data_delivery_status. cbn [snd]. intros E. destruct (_ || _); [|done]. injection E as <-.
  constructor; cbn -[fits Z.pow]; try done; try by apply sn_ok_set. all: by apply sn_ok_changed.
Qed.

(** The fields of the status that arrives, whether or not one was sent. *)
Lemma fill_fields s :
  let st := default delivery_status_init (F1uDu.fill_data_delivery_status s).2 in
  NruPacking.highest_transmitted_pdcp_sn st = F1uDu.fill_set (F1uDu.highest_transmitted_pdcp_sn s) /\
  NruPacking.highest_delivered_pdcp_sn st = F1uDu.fill_set (F1uDu.highest_delivered_pdcp_sn s) /\
  NruPacking.highest_retransmitted_pdcp_sn st = F1uDu.fill_changed (F1uDu.highest_retransmitted_pdcp_sn s) (F1uDu.notif_highest_retransmitted_pdcp_sn s) /\
  NruPacking.highest_delivered_retransmitted_pdcp_sn st =
    F1uDu.fill_changed (F1uDu.highest_delivered_retransmitted_pdcp_sn s) (F1uDu.notif_highest_delivered_retransmitted_pdcp_sn s).
Proof.
  unfold F1uDu.fill_data_delivery_status. cbn [snd]. destruct (negb _); [done|].
  destruct (F1uDu.fill_set (F1uDu.highest_transmitted_pdcp_sn s)); [done|]. destruct (F1uDu.fill_set (F1uDu.highest_delivered_pdcp_sn s)); [done|].
  destruct (F1uDu.fill_changed (F1uDu.highest_retransmitted_pdcp_sn s) _); [done|].
  by destruct (F1uDu.fill_changed (F1uDu.highest_delivered_retransmitted_pdcp_sn s) _).
Qed.

Lemma default_changed v n : default n (F1uDu.fill_changed v n) = v.
Proof. unfold F1uDu.fill_changed. by destruct (Z.eqb_spec v n). Qed.

Lemma default_set v n : (v = unset_pdcp_sn -> n = unset_pdcp_sn) -> default n (F1uDu.fill_set v) = v.
Proof. unfold F1uDu.fill_set. destruct (Z.eqb_spec v unset_pdcp_sn) as [->|]; [|done]. simpl. auto. Qed.

Lemma fill_inv s : inv s -> inv (F1uDu.fill_data_delivery_status s).1.
Proof.
  intros [Hb H1 H2 H3 H4 H5 H6]. unfold F1uDu.fill_data_delivery_status, F1uDu.set_timer, F1uDu.set_notified. cbn [fst].
  constructor; cbn -[fits]; try done; by rewrite default_changed.
Qed.

(** The steps of [handle_pdu_impl], by what they output. *)
Definition silent (outs : list F1uCu.output) : Prop :=
  omap cu_retransmitted outs = [] /\ omap cu_delivered_retx outs = [] /\ omap cu_sdu outs = [].

Lemma transmitted_step c o :
  let r := F1uCu.handle_highest_transmitted c o in
  F1uCu.notif_highest_transmitted_pdcp_sn r.1 = default (F1uCu.notif_highest_transmitted_pdcp_sn c) o /\
  F1uCu.notif_highest_delivered_pdcp_sn r.1 = F1uCu.notif_highest_delivered_pdcp_sn c /\
  default (F1uCu.notif_highest_transmitted_pdcp_sn c) (last (omap cu_transmitted r.2)) = F1uCu.notif_highest_transmitted_pdcp_sn r.1 /\
  omap cu_delivered r.2 = [] /\ silent r.2.
Proof.
  unfold F1uCu.handle_highest_transmitted. destruct o as [v|]; [|done].
  destruct (Z.eqb_spec v (F1uCu.notif_highest_transmitted_pdcp_sn c)) as [->|]; done.
Qed.

Lemma delivered_step c o :
  let r := F1uCu.handle_highest_delivered c o in
  F1uCu.notif_highest_delivered_pdcp_sn r.1 = default (F1uCu.notif_highest_delivered_pdcp_sn c) o /\
  F1uCu.notif_highest_transmitted_pdcp_sn r.1 = F1uCu.notif_highest_transmitted_pdcp_sn c /\
  default (F1uCu.notif_highest_delivered_pdcp_sn c) (last (omap cu_delivered r.2)) = F1uCu.notif_highest_delivered_pdcp_sn r.1 /\
  omap cu_transmitted r.2 = [] /\ silent r.2.
Proof.
  unfold F1uCu.handle_highest_delivered. destruct o as [v|]; [|done].
  destruct (Z.eqb_spec v (F1uCu.notif_highest_delivered_pdcp_sn c)) as [->|]; done.
Qed.

Lemma t_pdu_step msg (f : F1uCu.output -> option Z) :
  f F1uCu.inactivity_timer_run = None -> (forall l, f (F1uCu.rx_sdu l) = None) -> omap f (F1uCu.handle_t_pdu msg) = [].
Proof.
  intros H1 H2. unfold F1uCu.handle_t_pdu. destruct (ul_t_pdu msg) as [l|]; [|done]. destruct (negb _); [|done]. cbn. by rewrite H1, H2.
Qed.

(** What a status makes the CU-UP bearer do. *)
Lemma cu_handle c msg st :
  data_delivery_status msg = Some st ->
  let r := F1uCu.handle_pdu_impl c msg in
  F1uCu.notif_highest_transmitted_pdcp_sn r.1 = default (F1uCu.notif_highest_transmitted_pdcp_sn c) (NruPacking.highest_transmitted_pdcp_sn st) /\
  F1uCu.notif_highest_delivered_pdcp_sn r.1 = default (F1uCu.notif_highest_delivered_pdcp_sn c) (NruPacking.highest_delivered_pdcp_sn st) /\
  default (F1uCu.notif_highest_transmitted_pdcp_sn c) (last (omap cu_transmitted r.2)) = F1uCu.notif_highest_transmitted_pdcp_sn r.1 /\
  default (F1uCu.notif_highest_delivered_pdcp_sn c) (last (omap cu_delivered r.2)) = F1uCu.notif_highest_delivered_pdcp_sn r.1 /\
  last (omap cu_retransmitted r.2) = NruPacking.highest_retransmitted_pdcp_sn st /\
  last (omap cu_delivered_retx r.2) = NruPacking.highest_delivered_retransmitted_pdcp_sn st /\
  omap cu_sdu r.2 = omap cu_sdu (F1uCu.handle_t_pdu msg).
Proof.
  intros E. unfold F1uCu.handle_pdu_impl. rewrite E.
  pose proof (transmitted_step c (NruPacking.highest_transmitted_pdcp_sn st)) as (A1 & A2 & A3 & A4 & A5 & A6 & A7).
  destruct (F1uCu.handle_highest_transmitted c _) as [c1 o1]. cbn [fst snd] in *.
  pose proof (delivered_step c1 (NruPacking.highest_delivered_pdcp_sn st)) as (B1 & B2 & B3 & B4 & B5 & B6 & B7).
  destruct (F1uCu.handle_highest_delivered c1 _) as [c2 o2]. cbn [fst snd] in *.
  assert (Hr : forall (f : F1uCu.output -> option Z) k o, f (k 0) = None -> (forall v, f (k v) = None) -> omap f (F1uCu.option_output k o) = []).
  { intros f k [v|] _ H; [|done]. cbn. by rewrite H. }
  rewrite !omap_app, !t_pdu_step, A4, A5, A6, A7, B4, B5, B6, B7 by done.
  rewrite !app_nil_l, ?app_nil_r, B1, B2, A1.
  destruct (NruPacking.highest_retransmitted_pdcp_sn st), (NruPacking.highest_delivered_retransmitted_pdcp_sn st); cbn [F1uCu.option_output omap list_omap cu_transmitted
    cu_delivered cu_retransmitted cu_delivered_retx cu_sdu]; rewrite ?app_nil_r, <- ?A2, <- ?B1, <- ?A1; done.
Qed.

Lemma last_of_snoc {A} (f : A -> option Z) l1 l2 v : default (last_of f l1) (last (omap f l2)) = v -> last_of f (l1 ++ l2) = v.
Proof. by rewrite last_of_app. Qed.

(** A report brings the CU-UP bearer up to date. *)
Lemma report s c outs t_pdu :
  inv s -> related s c outs ->
  let s' := (F1uDu.fill_data_delivery_status s).1 in
  let m := mk_ul_message t_pdu (Some (default delivery_status_init (F1uDu.fill_data_delivery_status s).2)) in
  let r := F1uCu.handle_pdu_impl c m in
  related s' r.1 (outs ++ r.2) /\ up_to_date s' (outs ++ r.2) /\ omap cu_sdu r.2 = omap cu_sdu (F1uCu.handle_t_pdu m).
Proof.
  intros Hi [R1 R2 R3 R4 R5 R6] s' m. destruct (fill_fields s) as (F1 & F2 & F3 & F4).
  destruct (cu_handle c m _ eq_refl) as (C1 & C2 & C3 & C4 & C5 & C6 & C7). rewrite F1 in C1. rewrite F2 in C2. rewrite F3 in C5. rewrite F4 in C6.
  rewrite default_set in C1, C2 by done. set (r := F1uCu.handle_pdu_impl c m) in *. intros r'. subst r'.
  assert (L1 : last_of cu_transmitted (outs ++ r.2) = F1uDu.highest_transmitted_pdcp_sn s) by (apply last_of_snoc; by rewrite R3, C3).
  assert (L2 : last_of cu_delivered (outs ++ r.2) = F1uDu.highest_delivered_pdcp_sn s) by (apply last_of_snoc; by rewrite R4, C4).
  assert (L3 : last_of cu_retransmitted (outs ++ r.2) = F1uDu.highest_retransmitted_pdcp_sn s) by (apply last_of_snoc; by rewrite R5, C5, default_changed).
  assert (L4 : last_of cu_delivered_retx (outs ++ r.2) = F1uDu.highest_delivered_retransmitted_pdcp_sn s)
    by (apply last_of_snoc; by rewrite R6, C6, default_changed).
  split; [|split; [by split_and!|done]]. unfold s', F1uDu.fill_data_delivery_status, F1uDu.set_timer, F1uDu.set_notified. cbn [fst].
  constructor; cbn -[last_of omap F1uDu.fill_changed F1uCu.handle_pdu_impl]; rewrite ?default_changed; congruence.
Qed.

(** Nothing is sent when there is nothing to report. *)
Lemma no_report s c outs :
  inv s -> related s c outs -> (F1uDu.fill_data_delivery_status s).2 = None ->
  related (F1uDu.fill_data_delivery_status s).1 c outs /\ up_to_date (F1uDu.fill_data_delivery_status s).1 outs.
Proof.
  intros Hi Hr E. destruct (report s c outs None Hi Hr) as (H1 & H2 & _). rewrite E in H1, H2. cbn in H1, H2.
  by rewrite app_nil_r in H1, H2.
Qed.

Definition is_report (i : F1uDu.input) : Prop := match i with F1uDu.in_sdu _ | F1uDu.in_ul_notif_timer_expiry => True | _ => False end.

Lemma ul_wire_ok teid t_pdu status :
  fits 32 teid -> (forall l, t_pdu = Some l -> is_bytes l) -> (forall st, status = Some st -> delivery_status_ok st) ->
  ul_wire teid (mk_ul_message t_pdu status) = ok (Some (received_ul (mk_ul_message t_pdu status))).
Proof.
  intros Ht Hp Hs. destruct (nru_ul_transfer teid (mk_ul_message t_pdu status) Ht Hp Hs) as (raw & E & _ & _ & Er). unfold ul_wire.
  by rewrite E, bind_ok, Er, bind_ok.
Qed.

Lemma deliver_one teid c t_pdu status :
  fits 32 teid -> (forall l, t_pdu = Some l -> is_bytes l) -> (forall st, status = Some st -> delivery_status_ok st) ->
  ul_deliver teid c [mk_ul_message t_pdu status] = ok (F1uCu.handle_pdu_impl c (received_ul (mk_ul_message t_pdu status))).
Proof.
  intros Ht Hp Hs. cbn [ul_deliver]. rewrite ul_wire_ok, bind_ok by done. destruct (F1uCu.handle_pdu_impl c _) as [c' o]. cbn. by rewrite app_nil_r.
Qed.

(** The outcome of a step for the other end. *)
Definition arrives (teid : Z) (i : F1uDu.input) (s' : F1uDu.f1u_bearer) (c : F1uCu.f1u_bearer) (outs : list F1uCu.output) (o : list F1uDu.output) (now : Prop) : Prop :=
  exists c' o', ul_deliver teid c (omap du_msg o) = ok (c', o') /\ related s' c' (outs ++ o') /\
    omap cu_sdu o' = filter (fun l => l <> []) (option_list (du_sdu i)) /\ (now -> up_to_date s' (outs ++ o')).

Lemma nothing_arrives teid i s' c outs o : omap du_msg o = [] -> du_sdu i = None -> related s' c outs -> arrives teid i s' c outs o False.
Proof. intros E Ei Hr. exists c, []. rewrite E, Ei, app_nil_r. by split_and!. Qed.

Lemma send_arrives teid i s c outs :
  fits 32 teid -> inv s -> related s c outs -> du_sdu i = None ->
  arrives teid i (F1uDu.send_data_delivery_status s).1 c outs (F1uDu.send_data_delivery_status s).2 True /\ inv (F1uDu.send_data_delivery_status s).1.
Proof.
  intros Ht Hi Hr Ei. pose proof (fill_inv s Hi) as Hi'. pose proof (fun st => fill_ok s st Hi) as Hok. pose proof (report s c outs None Hi Hr) as Hrep.
  pose proof (no_report s c outs Hi Hr) as Hno. unfold F1uDu.send_data_delivery_status.
  destruct (F1uDu.fill_data_delivery_status s) as [s' st]. cbn [fst snd] in *. split; [|done]. destruct st as [st|].
  - destruct Hrep as (H1 & H2 & H3). unfold arrives. cbn [omap list_omap du_msg]. rewrite deliver_one by (try done; intros ? [= <-]; by apply Hok).
    eexists _, _. split; [apply f_equal, surjective_pairing|]. unfold received_ul. cbn [ul_t_pdu data_delivery_status].
    split; [exact H1|]. rewrite Ei. split; [exact H3|]. intros _. exact H2.
  - exists c, []. rewrite app_nil_r, Ei. destruct (Hno eq_refl) as [H1 H2]. by split_and!.
Qed.

Lemma sdu_arrives teid sdu s c outs :
  fits 32 teid -> is_bytes sdu -> inv s -> related s c outs ->
  arrives teid (F1uDu.in_sdu sdu) (F1uDu.handle_sdu s sdu).1 c outs (F1uDu.handle_sdu s sdu).2 True /\ inv (F1uDu.handle_sdu s sdu).1.
Proof.
  intros Ht Hb Hi Hr. pose proof (fill_inv s Hi) as Hi'. pose proof (fun st => fill_ok s st Hi) as Hok.
  pose proof (report s c outs (if negb (zlen sdu =? 0) then Some sdu else None) Hi Hr) as Hrep. unfold F1uDu.handle_sdu.
  destruct (F1uDu.fill_data_delivery_status s) as [s' st]. cbn [fst snd] in *. split; [|done]. destruct Hrep as (H1 & H2 & H3).
  unfold arrives. cbn [omap list_omap du_msg]. rewrite deliver_one by (try done; try (by intros ? [= <-]); intros; by apply Hok).
  eexists _, _. split; [apply f_equal, surjective_pairing|]. unfold received_ul. cbn [ul_t_pdu data_delivery_status].
  split; [exact H1|]. split; [|by intros _; exact H2]. rewrite H3. unfold F1uCu.handle_t_pdu. cbn [ul_t_pdu]. by destruct sdu.
Qed.

(** What RLC last said. *)
Definition stores (i : F1uDu.input) (s s' : F1uDu.f1u_bearer) : Prop :=
  F1uDu.highest_transmitted_pdcp_sn s' = default (F1uDu.highest_transmitted_pdcp_sn s) (du_transmitted i) /\
  F1uDu.highest_delivered_pdcp_sn s' = default (F1uDu.highest_delivered_pdcp_sn s) (du_delivered i) /\
  F1uDu.highest_retransmitted_pdcp_sn s' = default (F1uDu.highest_retransmitted_pdcp_sn s) (du_retransmitted i) /\
  F1uDu.highest_delivered_retransmitted_pdcp_sn s' = default (F1uDu.highest_delivered_retransmitted_pdcp_sn s) (du_delivered_retx i).

Lemma send_keeps i s :
  du_transmitted i = None -> du_delivered i = None -> du_retransmitted i = None -> du_delivered_retx i = None ->
  stores i s (F1uDu.send_data_delivery_status s).1 /\ timer_ok (F1uDu.send_data_delivery_status s).1.
Proof. intros E1 E2 E3 E4. unfold stores. by rewrite E1, E2, E3, E4. Qed.

Lemma du_task s msg :
  user_data_ok (dl_user_data msg) ->
  exists o2, F1uDu.handle_pdu_impl s msg =
    ok ((if report_polling (dl_user_data msg) then F1uDu.send_data_delivery_status s else (s, [])).1,
        (if negb (zlen (dl_t_pdu msg) =? 0) then [F1uDu.rx_sdu (dl_t_pdu msg) (retransmission_flag (dl_user_data msg))] else []) ++
        (if report_polling (dl_user_data msg) then F1uDu.send_data_delivery_status s else (s, [])).2 ++ o2) /\ omap du_msg o2 = [].
Proof.
  intros Hm. unfold F1uDu.handle_pdu_impl.
  assert (E : exists l, match NruPacking.discard_blocks (dl_user_data msg) with Some blocks => F1uDu.discard_all blocks | None => ok [] end =
    ok (F1uDu.on_discard_sdu <$> l)).
  { destruct (NruPacking.discard_blocks (dl_user_data msg)) as [l|] eqn:El; [|by exists []]. exists (expand_all l).
    apply DuRx.discard_all_ok, (uok_blocks _ Hm l El). }
  destruct E as (l & El). rewrite El. destruct (if report_polling _ then _ else _) as [s1 o1]. rewrite bind_ok. eexists. split; [done|].
  clear. induction l; done.
Qed.

Lemma step_arrives teid i s c outs :
  fits 32 teid -> du_input_ok i -> inv s -> timer_ok s -> related s c outs ->
  exists s' o, F1uDu.step s i = ok (s', o) /\ inv s' /\ timer_ok s' /\ stores i s s' /\ arrives teid i s' c outs o (is_report i).
Proof.
  intros Ht Hin Hi Htm Hr. assert (Hunset : forall v, fits 24 v -> v <> unset_pdcp_sn) by (intros v Hv ->; unfold fits, unset_pdcp_sn in Hv; lia).
  assert (Hsn : forall v, fits 24 v -> sn_ok v) by (intros v Hv; by right).
  destruct Hi as [H1 H2 H3 H4 H5 H6 H7] eqn:Ei; clear Ei. destruct Hr as [R1 R2 R3 R4 R5 R6] eqn:Er; clear Er.
  destruct i as [sdu|v|v|v|v|v| |acc msg|msg| ]; cbn [F1uDu.step du_input_ok is_report] in *;
    try (eexists _, _; split; [reflexivity|]; split; [constructor; cbn -[fits]; first [by auto | by intros ->; destruct (Hunset _ Hin)]|]; split; [exact Htm|]; split; [done|];
      apply nothing_arrives; [done|done|]; constructor; cbn -[last_of]; try done; by intros ->; destruct (Hunset _ Hin)).
  - destruct (sdu_arrives teid sdu s c outs Ht Hin Hi Hr) as [(c' & o' & A1 & A2 & A3 & A4) Hi'].
    assert (Hk : stores (F1uDu.in_sdu sdu) s (F1uDu.handle_sdu s sdu).1 /\ timer_ok (F1uDu.handle_sdu s sdu).1) by done.
    destruct Hk as [Hk1 Hk2]. destruct (F1uDu.handle_sdu s sdu) as [s' o]. exists s', o. cbn [fst snd] in *. split_and!; [done..|].
    exists c', o'. split_and!; auto.
  - assert (Hi0 : inv (F1uDu.set_timer s timer_expired)) by (by constructor).
    assert (Hr0 : related (F1uDu.set_timer s timer_expired) c outs) by (by constructor).
    destruct (send_arrives teid F1uDu.in_ul_notif_timer_expiry _ c outs Ht Hi0 Hr0 eq_refl) as [(c' & o' & A1 & A2 & A3 & A4) Hi'].
    destruct (send_keeps F1uDu.in_ul_notif_timer_expiry (F1uDu.set_timer s timer_expired)) as [Hk1 Hk2]; [done..|].
    unfold F1uDu.on_expired_ul_notif_timer. destruct (F1uDu.send_data_delivery_status _) as [s' o]. exists s', o. cbn [fst snd] in *.
    split; [done|]. split; [done|]. split; [exact Hk2|]. split; [exact Hk1|]. exists c', o'. split_and!; auto.
  - eexists _, _. split; [reflexivity|]. split; [done|]. split; [done|]. split; [done|]. apply nothing_arrives; [by destruct acc|done|by constructor].
  - destruct (du_task s msg Hin) as (o2 & -> & Eo). destruct (report_polling (dl_user_data msg)).
    + destruct (send_arrives teid (F1uDu.in_task msg) s c outs Ht Hi Hr eq_refl) as [(c' & o' & A1 & A2 & A3 & A4) Hi'].
      destruct (send_keeps (F1uDu.in_task msg) s) as [Hk1 Hk2]; [done..|]. destruct (F1uDu.send_data_delivery_status s) as [s' o]. cbn [fst snd] in *.
      eexists _, _. split; [reflexivity|]. split_and!; [done..|]. exists c', o'. split_and!; [|done|done|done].
      rewrite !omap_app, Eo, app_nil_r. rewrite <- A1. by destruct (negb _).
    + eexists _, _. split; [reflexivity|]. split; [done|]. split; [done|]. split; [done|].
      apply nothing_arrives; [rewrite !omap_app, Eo; by destruct (negb _)|done|by constructor].
  - eexists _, _. split; [reflexivity|]. unfold F1uDu.stop. destruct (negb (F1uDu.stopped s)); (split; [by constructor|]); (split; [done|]); (split; [done|]);
      (apply nothing_arrives; [done|done|by constructor]).
Qed.

Lemma run_arrives teid l s c outs :
  fits 32 teid -> Forall du_input_ok l -> inv s -> timer_ok s -> related s c outs ->
  exists s' o c' o', F1uDu.run s l = ok (s', o) /\ inv s' /\ timer_ok s' /\ ul_deliver teid c (omap du_msg o) = ok (c', o') /\
    related s' c' (outs ++ o') /\ omap cu_sdu o' = filter (fun l => l <> []) (omap du_sdu l) /\
    (forall i, last l = Some i -> is_report i -> up_to_date s' (outs ++ o')) /\
    F1uDu.highest_transmitted_pdcp_sn s' = default (F1uDu.highest_transmitted_pdcp_sn s) (last (omap du_transmitted l)) /\
    F1uDu.highest_delivered_pdcp_sn s' = default (F1uDu.highest_delivered_pdcp_sn s) (last (omap du_delivered l)) /\
    F1uDu.highest_retransmitted_pdcp_sn s' = default (F1uDu.highest_retransmitted_pdcp_sn s) (last (omap du_retransmitted l)) /\
    F1uDu.highest_delivered_retransmitted_pdcp_sn s' = default (F1uDu.highest_delivered_retransmitted_pdcp_sn s) (last (omap du_delivered_retx l)).
Proof.
  intros Ht. revert s c outs. induction l as [|i l IH]; intros s c outs Hl Hi Htm Hr.
  { exists s, [], c, []. rewrite app_nil_r. by split_and!. }
  apply Forall_cons in Hl as [Hil Hl].
  destruct (step_arrives teid i s c outs Ht Hil Hi Htm Hr) as (s1 & o1 & E1 & Hi1 & Ht1 & (K1 & K2 & K3 & K4) & (c1 & p1 & D1 & Hr1 & S1 & U1)).
  destruct (IH s1 c1 (outs ++ p1) Hl Hi1 Ht1 Hr1) as (s2 & o2 & c2 & p2 & E2 & Hi2 & Ht2 & D2 & Hr2 & S2 & U2 & L1 & L2 & L3 & L4).
  exists s2, (o1 ++ o2), c2, (p1 ++ p2). cbn [F1uDu.run]. rewrite E1, bind_ok, E2, bind_ok, app_assoc.
  assert (Hdel : forall c la lb ca pa cb pb, ul_deliver teid c la = ok (ca, pa) -> ul_deliver teid ca lb = ok (cb, pb) -> ul_deliver teid c (la ++ lb) = ok (cb, pa ++ pb)).
  { clear. intros c la lb. revert c. induction la as [|m la IH]; intros c ca pa cb pb Ha Hb; [injection Ha as <- <-; done|]. cbn [ul_deliver app] in *.
    destruct (ul_wire teid m) as [r|]; [|done]. rewrite !bind_ok in *. destruct (match r with Some _ => _ | None => _ end) as [cx px].
    destruct (ul_deliver teid cx la) as [[cy py]|] eqn:E; [|done]. rewrite bind_ok in Ha. injection Ha as <- <-. rewrite (IH _ _ _ _ _ E Hb), bind_ok.
    by rewrite app_assoc. }
  assert (Hcons : forall {B} (f : F1uDu.input -> option B), omap f (i :: l) = option_list (f i) ++ omap f l) by (intros B f; cbn; by destruct (f i)).
  assert (Hlast : forall (f : F1uDu.input -> option Z) v, default (default v (f i)) (last (omap f l)) = default v (last (omap f (i :: l)))).
  { intros f v. rewrite Hcons, last_app. destruct (last (omap f l)); [done|]. by destruct (f i). }
  split; [done|]. split; [done|]. split; [done|]. split; [rewrite omap_app; by eapply Hdel|]. split; [done|].
  split; [rewrite omap_app, S1, S2, Hcons; by rewrite filter_app|]. split.
  { intros j Hj Hrep. destruct l as [|i' l].
    - injection Hj as <-. cbn in E2. injection E2 as <- <-. cbn in D2. injection D2 as <- <-. rewrite app_nil_r. by apply U1.
    - by apply (U2 j). }
  rewrite L1, L2, L3, L4, K1, K2, K3, K4, !Hlast. done.
Qed.

Lemma f1u_ul_init_inv limit : fits 32 limit -> inv (F1uDu.init limit).
Proof. intros Hl. constructor; cbn; auto; by left. Qed.

Lemma init_related limit : related (F1uDu.init limit) F1uCu.init [].
Proof. by constructor. Qed.
End Ul.

(** C19: F1-U up, end to end: whatever PDUs RLC hands to the DU bearer and whatever it stores of its progress, with messages from the CU-UP (and their
    polls) arriving in between, the CU-UP bearer gives PDCP exactly the PDUs that are not empty, in order; and once the notification timer has
    expired the last notification of each kind PDCP has had is the last value RLC stored. The timer runs until the bearer is stopped. *)
Theorem f1u_uplink_transparent (teid limit : Z) (l : list F1uDu.input) :
  fits 32 teid -> fits 32 limit -> Forall du_input_ok l ->
  exists du outs cu cu_outs, F1uDu.run (F1uDu.init limit) (l ++ [F1uDu.in_ul_notif_timer_expiry]) = ok (du, outs) /\
    ul_deliver teid F1uCu.init (omap du_msg outs) = ok (cu, cu_outs) /\
    omap cu_sdu cu_outs = filter (fun p => p <> []) (omap du_sdu l) /\
    last_of cu_transmitted cu_outs = last_of du_transmitted l /\ last_of cu_delivered cu_outs = last_of du_delivered l /\
    last_of cu_retransmitted cu_outs = last_of du_retransmitted l /\ last_of cu_delivered_retx cu_outs = last_of du_delivered_retx l /\
    (F1uDu.stopped du = false -> is_running (F1uDu.ul_notif_timer du) = true).
Proof.
  intros Ht Hlim Hl. set (l' := l ++ [F1uDu.in_ul_notif_timer_expiry]).
  assert (Hl' : Forall du_input_ok l') by (apply Forall_app; split; [done|by constructor]).
  assert (Ho : forall {B} (f : F1uDu.input -> option B), f F1uDu.in_ul_notif_timer_expiry = None -> omap f l' = omap f l).
  { intros B f E. unfold l'. rewrite omap_app. cbn. by rewrite E, app_nil_r. }
  assert (Htm : Ul.timer_ok (F1uDu.init limit)) by done.
  destruct (Ul.run_arrives teid l' (F1uDu.init limit) F1uCu.init [] Ht Hl' (Ul.f1u_ul_init_inv limit Hlim) Htm (Ul.init_related limit))
    as (du & outs & cu & cu_outs & E & _ & Ht' & D & _ & S & U & L1 & L2 & L3 & L4).
  destruct (U F1uDu.in_ul_notif_timer_expiry) as (U1 & U2 & U3 & U4); [unfold l'; apply last_snoc|done|]. rewrite app_nil_l in *.
  exists du, outs, cu, cu_outs. split; [exact E|]. split; [exact D|]. rewrite U1, U2, U3, U4, L1, L2, L3, L4, S, !Ho by done. done.
Qed.

(** ** Where the code does not do what it means to *)

(** [block_size++] on a [uint8_t]: 256 discards in a row make a block of size 0, and RLC discards nothing. *)
Lemma block_size_wraps :
  exists cu outs du_outs, F1uCu.run F1uCu.init ((F1uCu.in_discard <$> seqZ 0 256) ++ [F1uCu.in_dl_notif_timer_expiry]) = ok (cu, outs) /\
    F1uCu.discard_blocks cu = [] /\ dl_deliver 1 (F1uDu.init 0) (Cu.sent outs) = ok (F1uDu.init 0, du_outs) /\ omap DuRx.discard_out du_outs = [].
Proof. eexists _, _, _. split; [vm_compute; reflexivity|]. split; [reflexivity|]. split; [vm_compute; reflexivity|]. reflexivity. Qed.

(** The status is attached although nothing has changed since the last report: a highest SN that is set always counts. *)
Lemma status_repeated :
  exists s outs, F1uDu.run (F1uDu.init 0) [F1uDu.in_transmitted 7; F1uDu.in_sdu [1]; F1uDu.in_sdu [2]] = ok (s, outs) /\
    (data_delivery_status <$> omap du_msg outs) =
      [Some (mk_delivery_status false 0 None None None (Some 7) None None None); Some (mk_delivery_status false 0 None None None (Some 7) None None None)].
Proof. eexists _, _. split; [vm_compute; reflexivity|]. reflexivity. Qed.

(** A PDU of RLC after [stop] starts the notification timer again. *)
Lemma stop_does_not_last sdu s : F1uDu.stopped (F1uDu.stop s) = true /\ is_running (F1uDu.ul_notif_timer (F1uDu.handle_sdu (F1uDu.stop s) sdu).1) = true.
Proof. done. Qed.

(** ** Examples *)
Lemma no_long_run_short l : (length l < 256)%nat -> no_long_run l.
Proof. intros Hl (l1 & sn & l2 & ->). rewrite !length_app, length_seqZ in Hl. lia. Qed.

Fixpoint short_waits (g : list Z) (l : list F1uCu.input) : bool :=
  match l with
  | [] => true
  | i :: l => (length (g ++ option_list (Cu.discard_in i)) <? 256)%nat && short_waits (Cu.gather g i) l
  end.

Lemma no_long_wait_short g l : short_waits g l = true -> Cu.no_long_wait g l.
Proof.
  revert g. induction l as [|i l IH]; intros g H; [done|]. cbn [short_waits] in H. apply andb_true_iff in H as [H1 H2].
  split; [apply no_long_run_short; by apply Nat.ltb_lt|by apply IH].
Qed.

(** 400 consecutive SNs, sent in two parts, among others. *)
Definition ex_down : list F1uCu.input :=
  (F1uCu.in_discard <$> seqZ 1000 200) ++ [F1uCu.in_sdu [7] false] ++ (F1uCu.in_discard <$> seqZ 1200 200) ++
  [F1uCu.in_discard 5; F1uCu.in_discard 6; F1uCu.in_sdu [1; 2] true; F1uCu.in_pdu true (mk_ul_message None None); F1uCu.in_discard 9; F1uCu.in_sdu [] false;
   F1uCu.in_sdu [3] false; F1uCu.in_discard 4].

Example f1u_downlink_transparent_witness :
  fits 32 7 /\ Forall Cu.input_ok ex_down /\ Cu.no_long_wait [] ex_down /\
  Cu.real_sdus ex_down = [([7], false); ([1; 2], true); ([3], false)] /\
  exists cu outs du_outs, F1uCu.run F1uCu.init ex_down = ok (cu, outs) /\ dl_deliver 7 (F1uDu.init 100) (Cu.sent outs) = ok (F1uDu.init 100, du_outs) /\
    omap DuRx.sdu_out du_outs = Cu.real_sdus ex_down /\
    omap DuRx.discard_out du_outs ++ expand_all (F1uCu.discard_blocks cu) = omap Cu.discard_in ex_down /\
    (F1uCu.discard_blocks cu <> [] -> is_running (F1uCu.dl_notif_timer cu) = true).
Proof.
  assert (Ht : fits 32 7) by (unfold fits; lia).
  assert (Hd : forall a, 0 <= a < 2 ^ 20 -> Forall Cu.input_ok (F1uCu.in_discard <$> seqZ a 200)).
  { intros a Ha. apply Forall_fmap, Forall_seqZ. intros sn Hsn. unfold compose, Cu.input_ok, fits. lia. }
  assert (Hl : Forall Cu.input_ok ex_down).
  { apply Forall_app. split; [apply Hd; lia|]. apply Forall_cons. split; [unfold Cu.input_ok, is_bytes; repeat constructor; lia|].
    apply Forall_app. split; [apply Hd; lia|]. repeat constructor; unfold Cu.input_ok, fits; lia. }
  assert (Hr : Cu.no_long_wait [] ex_down) by (apply no_long_wait_short; vm_compute; reflexivity).
  split; [exact Ht|]. split; [exact Hl|]. split; [exact Hr|]. split; [vm_compute; reflexivity|].
  exact (f1u_downlink_transparent 7 100 ex_down Ht Hl Hr).
Defined.

Definition ex_up : list F1uDu.input :=
  [F1uDu.in_sdu [1]; F1uDu.in_transmitted 3; F1uDu.in_retransmitted 2; F1uDu.in_sdu [2; 3]; F1uDu.in_delivered 1; F1uDu.in_retransmitted 2; F1uDu.in_buffer_size 50; F1uDu.in_transmitted 4].

Example f1u_uplink_transparent_witness :
  fits 32 7 /\ fits 32 100 /\ Forall du_input_ok ex_up /\ last_of du_transmitted ex_up = 4 /\
  exists du outs cu cu_outs, F1uDu.run (F1uDu.init 100) (ex_up ++ [F1uDu.in_ul_notif_timer_expiry]) = ok (du, outs) /\
    ul_deliver 7 F1uCu.init (omap du_msg outs) = ok (cu, cu_outs) /\
    omap cu_sdu cu_outs = filter (fun p => p <> []) (omap du_sdu ex_up) /\
    last_of cu_transmitted cu_outs = last_of du_transmitted ex_up /\ last_of cu_delivered cu_outs = last_of du_delivered ex_up /\
    last_of cu_retransmitted cu_outs = last_of du_retransmitted ex_up /\ last_of cu_delivered_retx cu_outs = last_of du_delivered_retx ex_up /\
    (F1uDu.stopped du = false -> is_running (F1uDu.ul_notif_timer du) = true).
Proof.
  assert (Ht : fits 32 7) by (unfold fits; lia). assert (Hlim : fits 32 100) by (unfold fits; lia).
  assert (Hl : Forall du_input_ok ex_up) by (repeat constructor; unfold du_input_ok, fits, is_byte; lia).
  split; [exact Ht|]. split; [exact Hlim|]. split; [exact Hl|]. split; [vm_compute; reflexivity|].
  exact (f1u_uplink_transparent 7 100 ex_up Ht Hlim Hl).
Defined.
