(* ===== verification/GtpuNgu.v ===== *)
(** * The NG-U tunnels of N3

    [lib/gtpu/gtpu_tunnel_ngu_rx_impl.h], which restores the order of the packets a UPF numbers, and [lib/gtpu/gtpu_tunnel_ngu_tx_impl.h], over
    [lib/gtpu/gtpu_tunnel_base_rx.h]. *)
From S2P Require Import Prelude SduWindow BitEncoding BitStream BitFields NruPacking GtpuPdu GtpuPduProps.

(** ** Sending *)
Section tx.
Context (append_ok : bytes -> bool) (peer_teid : Z).

(** The four fields of the UL PDU session information. *)
Definition ul_session_writer (qfi : Z) : writer :=
  write append_ok 1 4 &> write append_ok 0 4 &> write append_ok 0 1 &> write append_ok qfi 7.

Definition ngu_tx_handle_sdu (stopped : bool) (buf : bytes) (qfi : Z) : outcome (option bytes) :=
  if stopped then ok None else
  '(pack_ok, encoder) ← ul_session_writer qfi (encoder_init []);
  if negb pack_ok then ok None else
  let hdr := mk_gtpu_header (mk_flags GTPU_FLAGS_VERSION_V1 GTPU_FLAGS_GTP_PROTOCOL true false false) GTPU_MSG_DATA_PDU (u16 (zlen buf + 4 + 4))
    peer_teid 0 0 pdu_session_container [mk_ext pdu_session_container (enc_bytes encoder)] in
  '(write_ok, buf) ← gtpu_write_header append_ok buf hdr;
  if negb write_ok then ok None else ok (Some buf).
End tx.

(** ** Receiving: data *)
Definition gtpu_sn_mod : Z := 65536.
Definition gtpu_rx_window_size : Z := 32768.

Record gtpu_rx_sdu_info := mk_rx_sdu_info { rx_sdu : bytes; rx_qos_flow_id : Z; rx_sn : option Z }.

(** [gtpu_rx_sdu_info{}] *)
Definition rx_sdu_info_init : gtpu_rx_sdu_info := mk_rx_sdu_info [] qos_flow_id_invalid None.

Record ngu_rx_config := mk_ngu_rx_config { t_reordering : Z; cfg_test_mode : bool }.

Record ngu_rx := mk_ngu_rx {
  rx_next : Z;
  rx_deliv : Z;
  rx_reord : Z;
  rx_window : circular_map gtpu_rx_sdu_info;
  reordering_timer : timer_state;
  ngu_stopped : bool
}.

(** The timer is created only with a [t_reordering]; without, it never runs. *)
Definition ngu_rx_init : ngu_rx := mk_ngu_rx 0 0 0 cm_empty timer_stopped false.

Definition set_next (s : ngu_rx) (v : Z) : ngu_rx := mk_ngu_rx v (rx_deliv s) (rx_reord s) (rx_window s) (reordering_timer s) (ngu_stopped s).
Definition set_deliv (s : ngu_rx) (v : Z) : ngu_rx := mk_ngu_rx (rx_next s) v (rx_reord s) (rx_window s) (reordering_timer s) (ngu_stopped s).
Definition set_reord (s : ngu_rx) (v : Z) : ngu_rx := mk_ngu_rx (rx_next s) (rx_deliv s) v (rx_window s) (reordering_timer s) (ngu_stopped s).
Definition set_window (s : ngu_rx) (w : circular_map gtpu_rx_sdu_info) : ngu_rx :=
  mk_ngu_rx (rx_next s) (rx_deliv s) (rx_reord s) w (reordering_timer s) (ngu_stopped s).
Definition set_timer (s : ngu_rx) (t : timer_state) : ngu_rx :=
  mk_ngu_rx (rx_next s) (rx_deliv s) (rx_reord s) (rx_window s) t (ngu_stopped s).

(** What goes to the lower layer: an SDU and its QoS flow. *)
Definition sdu_out : Type := bytes * Z.
Definition deliver_sdu (i : gtpu_rx_sdu_info) : sdu_out := (rx_sdu i, rx_qos_flow_id i).

(** ** Receiving: operations *)

(** [(sn - st.rx_deliv) % gtpu_sn_mod] as a [uint16_t]. *)
Definition rx_mod_base (s : ngu_rx) (sn : Z) : Z := sn_dist gtpu_sn_mod (rx_deliv s) sn.
Definition inside_rx_window (s : ngu_rx) (sn : Z) : bool := rx_mod_base s sn <? gtpu_rx_window_size.

(** The SDU at [rx_deliv] of the window is delivered and removed. *)
Definition deliver_front (s : ngu_rx) : outcome (ngu_rx * sdu_out) :=
  sdu_info ← cm_at gtpu_rx_window_size (rx_window s) (rx_deliv s);
  w ← remove_sn gtpu_rx_window_size (rx_window s) (rx_deliv s);
  ok (set_window s w, deliver_sdu sdu_info).

Fixpoint deliver_loop (fuel : nat) (s : ngu_rx) : outcome (ngu_rx * list sdu_out) :=
  match fuel with
  | O => fail out_of_fuel
  | S fuel =>
      if negb (rx_deliv s =? rx_next s) && has_sn gtpu_rx_window_size (rx_window s) (rx_deliv s) then
        '(s, out) ← deliver_front s;
        '(s, outs) ← deliver_loop fuel (set_deliv s (u16 (rx_deliv s + 1)));
        ok (s, out :: outs)
      else ok (s, [])
  end.

(** One turn per SN up to RX_NEXT. *)
Definition deliver_all_consecutive_sdus (s : ngu_rx) : outcome (ngu_rx * list sdu_out) :=
  deliver_loop (S (Z.to_nat (rx_mod_base s (rx_next s)))) s.

(** The loop of [handle_t_reordering_expire], up to RX_REORD. *)
Fixpoint expire_loop (fuel : nat) (s : ngu_rx) : outcome (ngu_rx * list sdu_out) :=
  match fuel with
  | O => fail out_of_fuel
  | S fuel =>
      if negb (rx_deliv s =? rx_reord s) then
        '(s, outs1) ← (if has_sn gtpu_rx_window_size (rx_window s) (rx_deliv s)
                      then '(s, out) ← deliver_front s; ok (s, [out]) else ok (s, []));
        '(s, outs2) ← expire_loop fuel (set_deliv s (u16 (rx_deliv s + 1)));
        ok (s, outs1 ++ outs2)
      else ok (s, [])
  end.

Section rx.
Context (cfg : ngu_rx_config).

Definition ngu_handle_t_reordering_expire (s : ngu_rx) : outcome (ngu_rx * list sdu_out) :=
  if is_running (reordering_timer s) then ok (s, [])
  else if negb (inside_rx_window s (rx_reord s)) then ok (s, [])
  else
    '(s, outs1) ← expire_loop (S (Z.to_nat (rx_mod_base s (rx_reord s)))) s;
    '(s, outs2) ← deliver_all_consecutive_sdus s;
    let s :=
      if rx_mod_base s (rx_deliv s) <? rx_mod_base s (rx_next s) then
        if t_reordering cfg =? 0 then s else set_timer (set_reord s (rx_next s)) (timer_run (reordering_timer s))
      else s in
    ok (s, outs1 ++ outs2).

(** The timer fires: it is expired when [reordering_callback] runs. *)
Definition ngu_reordering_callback (s : ngu_rx) : outcome (ngu_rx * list sdu_out) := ngu_handle_t_reordering_expire (set_timer s timer_expired).

(** The loop over the extension headers: the first PDU session container that can be unpacked. *)
Fixpoint ngu_scan (l : list gtpu_extension_header) (info : option psup_dl_pdu_session_information) : outcome (option psup_dl_pdu_session_information) :=
  match l with
  | [] => ok info
  | ext :: l =>
      if extension_header_type ext =? pdu_session_container then
        match info with
        | None => info ← psup_unpack session_information_init (container ext); ngu_scan l info
        | Some _ => ngu_scan l info
        end
      else ngu_scan l info
  end.

(** After the PDU has been put into the window. *)
Definition ngu_move_on (s : ngu_rx) (sn : Z) : outcome (ngu_rx * list sdu_out) :=
  let s := if rx_mod_base s (rx_next s) <=? rx_mod_base s sn then set_next s (u16 (sn + 1)) else s in
  '(s, outs) ← (if rx_mod_base s sn =? rx_mod_base s (rx_deliv s) then deliver_all_consecutive_sdus s else ok (s, []));
  let s := if is_running (reordering_timer s) && negb (inside_rx_window s (rx_reord s)) then set_timer s (timer_stop (reordering_timer s)) else s in
  if t_reordering cfg =? 0 then
    '(s, outs') ← ngu_handle_t_reordering_expire (set_reord s (rx_next s)); ok (s, outs ++ outs')
  else if negb (is_running (reordering_timer s)) && (rx_mod_base s (rx_deliv s) <? rx_mod_base s (rx_next s)) then
    ok (set_timer (set_reord s (rx_next s)) (timer_run (reordering_timer s)), outs)
  else ok (s, outs).

(** A numbered SDU. *)
Definition ngu_handle_sn (s : ngu_rx) (sn : Z) (sdu : bytes) (qfi : Z) : outcome (ngu_rx * list sdu_out) :=
  let info := mk_rx_sdu_info sdu qfi (Some sn) in
  if negb (inside_rx_window s sn) then ok (s, [deliver_sdu info])
  else if rx_mod_base s sn <? rx_mod_base s (rx_deliv s) then ok (s, [deliver_sdu info])
  else if has_sn gtpu_rx_window_size (rx_window s) sn then ok (s, [])
  else
    w ← add_sn gtpu_rx_window_size rx_sdu_info_init (rx_window s) sn;
    w ← cm_set gtpu_rx_window_size w sn info;
    ngu_move_on (set_window s w) sn.

(** [handle_pdu] of a dissected PDU, not in test mode. *)
Definition ngu_handle_dissected (s : ngu_rx) (pdu : gtpu_dissected_pdu) : outcome (ngu_rx * list sdu_out) :=
  if ngu_stopped s then ok (s, []) else
  info ← ngu_scan (ext_list (pdu_hdr pdu)) None;
  match info with
  | None => ok (s, [])
  | Some info =>
      sdu ← gtpu_extract_msg pdu;
      if negb (has_seq_number (flags (pdu_hdr pdu))) || (t_reordering cfg =? 0)
      then ok (s, [deliver_sdu (mk_rx_sdu_info sdu (qos_flow_id info) None)])
      else ngu_handle_sn s (seq_number (pdu_hdr pdu)) sdu (qos_flow_id info)
  end.

(** [gtpu_tunnel_base_rx::handle_pdu]: in test mode the packet is the SDU, of QoS flow 1. *)
Definition ngu_rx_handle_pdu (s : ngu_rx) (buf : bytes) : outcome (ngu_rx * list sdu_out) :=
  if cfg_test_mode cfg then
    if ngu_stopped s then ok (s, []) else ok (s, [deliver_sdu (mk_rx_sdu_info buf 1 None)])
  else
    dissected_pdu ← gtpu_dissect_pdu buf;
    match dissected_pdu with None => ok (s, []) | Some pdu => ngu_handle_dissected s pdu end.

Definition ngu_stop (s : ngu_rx) : ngu_rx :=
  if negb (ngu_stopped s)
  then mk_ngu_rx (rx_next s) (rx_deliv s) (rx_reord s) (rx_window s) (timer_stop (reordering_timer s)) true
  else s.

(** ** Inputs *)
Inductive ngu_input := ngu_pdu (buf : bytes) | ngu_timer_expiry | ngu_stop_request.

Definition ngu_step (s : ngu_rx) (i : ngu_input) : outcome (ngu_rx * list sdu_out) :=
  match i with
  | ngu_pdu buf => ngu_rx_handle_pdu s buf
  | ngu_timer_expiry => if is_running (reordering_timer s) then ngu_reordering_callback s else ok (s, [])
  | ngu_stop_request => ok (ngu_stop s, [])
  end.

Fixpoint ngu_run (s : ngu_rx) (l : list ngu_input) : outcome (ngu_rx * list sdu_out) :=
  match l with
  | [] => ok (s, [])
  | i :: l => '(s, outs1) ← ngu_step s i; '(s, outs2) ← ngu_run s l; ok (s, outs1 ++ outs2)
  end.
End rx.
