(* ===== verification/GtpuNguProps.v ===== *)
(** * The NG-U tunnel restores the order of the packets

    The receiver of [GtpuNgu] with its 16-bit state variables, against the indices they stand for: [lo] is the first SDU not delivered, [hi] the next
    one expected, and the window is the map of those that wait in between. *)
From S2P Require Import Prelude SduWindow BitEncoding BitStream BitFields NruPacking GtpuPdu GtpuPduProps GtpuNgu.

#[export] Instance gtpu_sn_space : SnSpace gtpu_sn_mod gtpu_rx_window_size.
Proof. split; [done|done|]. by exists (2 ^ 16). Qed.

Local Abbreviation md := gtpu_sn_mod.
Local Abbreviation W := gtpu_rx_window_size.
Local Abbreviation waiting := (gmap Z gtpu_rx_sdu_info).

Record sim (s : ngu_rx) (lo hi : Z) (g : waiting) : Prop := {
  sim_deliv : rx_deliv s = lo mod md;
  sim_next : rx_next s = hi mod md;
  sim_reord : fits 16 (rx_reord s);
  sim_range : 0 <= lo <= hi /\ hi <= lo + W;
  sim_wf : window_wf W (rx_window s);
  sim_get : forall k, lo <= k < lo + md -> wget W (rx_window s) (k mod md) = g !! k;
  sim_sns : forall k, is_Some (wget W (rx_window s) k) -> 0 <= k < md;
  sim_keys : forall k, is_Some (g !! k) -> lo <= k < hi
}.

Lemma sn_fits_range x : fits 16 x <-> 0 <= x < md.
Proof. done. Qed.

Lemma sim_init : sim ngu_rx_init 0 0 ∅.
Proof.
  assert (He : forall k, wget W (rx_window ngu_rx_init) k = None) by (intros k; apply wget_empty).
  split; [done|done|done|done|apply window_wf_empty| | |]; intros k Hk; rewrite ?He, ?lookup_empty in *; [done|by destruct Hk|by destruct Hk].
Qed.

Section sim.
Context {s : ngu_rx} {lo hi : Z} {g : waiting} (Hs : sim s lo hi g).

(** The modulus base of a sequence number is its distance from [lo]. *)
Lemma mod_base_index k : lo <= k < lo + md -> rx_mod_base s (k mod md) = k - lo.
Proof using Hs.
  intros Hk. unfold rx_mod_base. rewrite (sim_deliv _ _ _ _ Hs), sn_dist_mod_l, sn_dist_mod_r, sn_dist_mod. apply Z.mod_small. lia.
Qed.

Lemma mod_base_sn sn : fits 16 sn -> exists k, lo <= k < lo + md /\ sn = k mod md /\ rx_mod_base s sn = k - lo.
Proof using Hs.
  intros Hsn. pose proof (sn_dist_range (m := md) (rx_deliv s) sn) as Hr. exists (lo + rx_mod_base s sn). unfold rx_mod_base in *.
  split; [lia|]. split; [|lia]. rewrite (sim_deliv _ _ _ _ Hs), sn_dist_mod_l. by apply sn_dist_inv.
Qed.

Lemma mod_base_next : rx_mod_base s (rx_next s) = hi - lo.
Proof using Hs. rewrite (sim_next _ _ _ _ Hs). apply mod_base_index. pose proof (sim_range _ _ _ _ Hs). unfold md, W in *. lia. Qed.

Lemma mod_base_deliv : rx_mod_base s (rx_deliv s) = 0.
Proof using. apply (sn_dist_self (m := md)). Qed.

Lemma sim_window_in : window_in (m := md) (W := W) (lo mod md) (rx_window s).
Proof using Hs.
  intros k Hk. pose proof (sim_sns _ _ _ _ Hs k Hk) as Hr. split; [done|]. rewrite sn_dist_mod_l.
  destruct (mod_base_sn k Hr) as (i & Hi & -> & _). rewrite (sim_get _ _ _ _ Hs) in Hk by done.
  pose proof (sim_keys _ _ _ _ Hs i Hk). pose proof (sim_range _ _ _ _ Hs). rewrite sn_dist_mod_r, sn_dist_mod, Z.mod_small; unfold md, W in *; lia.
Qed.

Lemma has_sn_index k : lo <= k < lo + md -> has_sn W (rx_window s) (k mod md) = bool_decide (is_Some (g !! k)).
Proof using Hs. intros Hk. by rewrite has_sn_wget, (sim_get _ _ _ _ Hs). Qed.
End sim.

(** Only the window, the timer and [rx_reord] change. *)
Lemma sim_ext s s' lo hi g :
  sim s lo hi g -> rx_deliv s' = rx_deliv s -> rx_next s' = rx_next s -> rx_window s' = rx_window s -> fits 16 (rx_reord s') -> sim s' lo hi g.
Proof. intros [] E1 E2 E3 E4. by split; rewrite ?E1, ?E2, ?E3. Qed.

(** ** Putting an SDU into the window *)
Definition put_next (s : ngu_rx) (sn : Z) : ngu_rx :=
  if rx_mod_base s (rx_next s) <=? rx_mod_base s sn then set_next s (u16 (sn + 1)) else s.

Lemma u16_succ k : u16 (k mod md + 1) = (k + 1) mod md.
Proof. unfold u16. change md with (2 ^ 16). apply Zplus_mod_idemp_l. Qed.

Lemma sim_put s lo hi g k i :
  sim s lo hi g -> lo <= k < lo + W -> g !! k = None ->
  exists w1 w, add_sn W rx_sdu_info_init (rx_window s) (k mod md) = ok w1 /\ cm_set W w1 (k mod md) i = ok w /\
    sim (put_next (set_window s w) (k mod md)) lo (Z.max hi (k + 1)) (<[k := i]> g).
Proof.
  intros Hs Hk Hn. assert (Hk' : lo <= k < lo + md) by (unfold md, W in *; lia). pose proof (sim_range _ _ _ _ Hs) as Hr.
  pose proof (Z.mod_pos_bound k md ltac:(done)) as Hsn.
  destruct (window_add (m := md) rx_sdu_info_init (lo mod md) (rx_window s) (k mod md)) as (w1 & E1 & Hwf1 & _ & G1).
  { apply Hs. } { apply (sim_window_in Hs). } { done. }
  { rewrite sn_dist_mod_l, sn_dist_mod_r, sn_dist_mod, Z.mod_small; unfold md, W in *; lia. } { by rewrite (sim_get _ _ _ _ Hs). }
  destruct (cm_set_ok W w1 (k mod md) i rx_sdu_info_init Hwf1) as (w & E2 & Hwf2 & _ & G2); [by rewrite G1, decide_True|].
  exists w1, w. split; [done|]. split; [done|]. set (s1 := set_window s w).
  assert (Enext : rx_next (put_next s1 (k mod md)) = Z.max hi (k + 1) mod md).
  { unfold put_next. change (rx_mod_base s1) with (rx_mod_base s). change (rx_next s1) with (rx_next s).
    rewrite (mod_base_next Hs), (mod_base_index Hs) by done. zcases; cbn [rx_next set_next].
    - rewrite u16_succ. f_equal. lia.
    - change (rx_next s1) with (rx_next s). rewrite (sim_next _ _ _ _ Hs). f_equal. lia. }
  assert (Eq : forall A (f : ngu_rx -> A), (forall v, f (set_next s1 v) = f s1) -> f (put_next s1 (k mod md)) = f s1).
  { intros A f Hf. unfold put_next. by destruct (_ <=? _). }
  split; [by rewrite Eq; [apply Hs|]|done|by rewrite Eq; [apply Hs|]|unfold md, W in *; lia| | | |].
  - by rewrite Eq.
  - intros j Hj. rewrite Eq by done. cbn [rx_window set_window s1]. rewrite G2, G1. destruct (decide (j mod md = k mod md)) as [E|E].
    + assert (j = k) as -> by (apply (f_equal (rx_mod_base s)) in E; rewrite !(mod_base_index Hs) in E by done; lia). by rewrite lookup_insert_eq.
    + rewrite lookup_insert_ne by (by intros ->). by apply Hs.
  - intros j. rewrite Eq by done. cbn [rx_window set_window s1]. rewrite G2, G1. destruct (decide (j = k mod md)) as [->|]; [done|]. by apply Hs.
  - intros j. destruct (decide (j = k)) as [->|]; [lia|]. rewrite lookup_insert_ne by done. intros Hj. apply (sim_keys _ _ _ _ Hs) in Hj. lia.
Qed.

(** ** Moving the lower edge of the window *)
Definition beyond (b : Z) (g : waiting) : waiting := filter (fun kv => b <= kv.1) g.

Lemma beyond_lookup b g k : beyond b g !! k = if decide (b <= k) then g !! k else None.
Proof.
  unfold beyond. rewrite map_lookup_filter. destruct (g !! k) as [i|]; cbn [mbind option_bind]; [|by destruct (decide (b <= k))].
  unfold guard. cbn [fst]. by destruct (decide (b <= k)).
Qed.

(** What waits from [a] to below [b], in order. *)
Definition released (g : waiting) (a b : Z) : list sdu_out := omap (fun k => deliver_sdu <$> g !! k) (seqZ a (b - a)).

Lemma released_nil g a : released g a a = [].
Proof. unfold released. by rewrite Z.sub_diag. Qed.

Lemma released_cons g a b : a < b -> released g a b = option_list (deliver_sdu <$> g !! a) ++ released g (a + 1) b.
Proof.
  intros Hab. unfold released. rewrite seqZ_cons by lia. replace (Z.pred (b - a)) with (b - (a + 1)) by lia. replace (Z.succ a) with (a + 1) by lia.
  cbn [omap list_omap]. by destruct (g !! a).
Qed.

Lemma released_app g a b c : a <= b <= c -> released g a b ++ released g b c = released g a c.
Proof.
  intros H. unfold released. rewrite <- omap_app. f_equal. replace (c - a) with ((b - a) + (c - b)) by lia. rewrite seqZ_app by lia.
  f_equal. f_equal. lia.
Qed.

Lemma released_beyond g a b c : c <= a -> released (beyond c g) a b = released g a b.
Proof.
  intros H. unfold released. apply list_omap_ext, Forall_Forall2_diag, Forall_forall. intros k Hk%elem_of_seqZ. by rewrite beyond_lookup, decide_True by lia.
Qed.

Lemma beyond_beyond a b g : a <= b -> beyond b (beyond a g) = beyond b g.
Proof. intros H. apply map_eq. intros k. rewrite !beyond_lookup. repeat case_decide; try done. lia. Qed.

Lemma beyond_all lo hi s g : sim s lo hi g -> beyond lo g = g.
Proof.
  intros Hs. apply map_eq. intros k. rewrite beyond_lookup. case_decide as H; [done|]. destruct (g !! k) eqn:E; [|done].
  pose proof (sim_keys _ _ _ _ Hs k ltac:(eauto)). lia.
Qed.

Definition advance (s : ngu_rx) : ngu_rx := set_deliv s (u16 (rx_deliv s + 1)).

Lemma sim_advance s lo hi g w :
  sim s lo hi g -> lo < hi -> window_wf W w ->
  (forall k, wget W w k = if decide (k = lo mod md) then None else wget W (rx_window s) k) ->
  sim (advance (set_window s w)) (lo + 1) hi (beyond (lo + 1) g).
Proof.
  intros Hs Hlt Hwf Hg. pose proof (sim_range _ _ _ _ Hs) as Hr. split; cbn [advance set_deliv set_window rx_deliv rx_next rx_reord rx_window].
  - rewrite (sim_deliv _ _ _ _ Hs). apply u16_succ.
  - apply Hs.
  - apply Hs.
  - lia.
  - done.
  - intros k Hk. rewrite Hg, beyond_lookup, (decide_True (P := lo + 1 <= k)) by lia. destruct (decide (k = lo + md)) as [->|Hne].
    + rewrite decide_True by (by rewrite <- (Z.mul_1_l md) at 1; rewrite Z.mod_add).
      destruct (g !! (lo + md)) eqn:E; [|done]. pose proof (sim_keys _ _ _ _ Hs (lo + md) ltac:(eauto)). unfold md, W in *. lia.
    + destruct (decide (k mod md = lo mod md)) as [E|]; [|apply Hs; lia].
      apply (f_equal (rx_mod_base s)) in E. rewrite !(mod_base_index Hs) in E by lia. lia.
  - intros k. rewrite Hg. destruct (decide (k = lo mod md)); [by intros []|]. apply Hs.
  - intros k. rewrite beyond_lookup. case_decide as H; [|by intros []]. intros Hk. apply (sim_keys _ _ _ _ Hs) in Hk. lia.
Qed.

Lemma sim_skip s lo hi g : sim s lo hi g -> lo < hi -> g !! lo = None -> sim (advance s) (lo + 1) hi (beyond (lo + 1) g).
Proof.
  intros Hs Hlt Hn. replace s with (set_window s (rx_window s)) at 1 by (by destruct s). apply sim_advance; [done|done|apply Hs|].
  intros k. destruct (decide (k = lo mod md)) as [->|]; [|done]. rewrite (sim_get _ _ _ _ Hs); [done|]. unfold md; lia.
Qed.

Lemma sim_front s lo hi g i :
  sim s lo hi g -> g !! lo = Some i ->
  exists w, deliver_front s = ok (set_window s w, deliver_sdu i) /\ sim (advance (set_window s w)) (lo + 1) hi (beyond (lo + 1) g).
Proof.
  intros Hs Hi. assert (Hg : wget W (rx_window s) (rx_deliv s) = Some i).
  { rewrite (sim_deliv _ _ _ _ Hs), (sim_get _ _ _ _ Hs); [done|]. unfold md; lia. }
  destruct (remove_sn_ok W _ _ _ (sim_wf _ _ _ _ Hs) Hg) as (w & E & Hwf & _ & G). exists w. split.
  - unfold deliver_front. by rewrite (cm_at_ok _ _ _ _ Hg), bind_ok, E, bind_ok.
  - apply sim_advance; [done| |done|by rewrite <- (sim_deliv _ _ _ _ Hs)]. pose proof (sim_keys _ _ _ _ Hs lo ltac:(eauto)). lia.
Qed.

(** What the loops leave alone. *)
Definition same_rest (s s' : ngu_rx) : Prop :=
  rx_reord s' = rx_reord s /\ reordering_timer s' = reordering_timer s /\ ngu_stopped s' = ngu_stopped s.

(** [lo] has moved to [lo'], and what waited in between is out. *)
Record moved (s : ngu_rx) (lo hi : Z) (g : waiting) (lo' : Z) (s' : ngu_rx) : Prop := {
  mv_range : lo <= lo' <= hi;
  mv_sim : sim s' lo' hi (beyond lo' g);
  mv_rest : same_rest s s'
}.

Lemma moved_refl s lo hi g : sim s lo hi g -> moved s lo hi g lo s.
Proof. intros Hs. pose proof (sim_range _ _ _ _ Hs). split; [lia|by rewrite (beyond_all _ _ _ _ Hs)|done]. Qed.

Lemma moved_step s s1 s2 lo hi g lo' :
  same_rest s s1 -> moved s1 (lo + 1) hi (beyond (lo + 1) g) lo' s2 -> moved s lo hi g lo' s2.
Proof.
  intros (E1 & E2 & E3) [Hr Hsim (F1 & F2 & F3)]. split; [lia| |split_and!; congruence].
  rewrite beyond_beyond in Hsim by lia. done.
Qed.

Lemma deliv_is_index s lo hi g k : sim s lo hi g -> lo <= k <= hi -> (rx_deliv s =? k mod md) = (lo =? k).
Proof.
  intros Hs Hk. pose proof (sim_range _ _ _ _ Hs) as Hr. rewrite (sim_deliv _ _ _ _ Hs). destruct (Z.eqb_spec lo k) as [->|Hne]; [apply Z.eqb_refl|].
  apply Z.eqb_neq. intros E. apply (f_equal (rx_mod_base s)) in E. rewrite !(mod_base_index Hs) in E by (unfold md, W in *; lia). lia.
Qed.

(** The first SDU not there, from [lo] on. *)
Definition first_gap (g : waiting) (lo hi lo' : Z) : Prop :=
  (forall k, lo <= k < lo' -> is_Some (g !! k)) /\ g !! lo' = None.

Lemma deliver_loop_ok fuel s lo hi g :
  sim s lo hi g -> hi - lo < Z.of_nat fuel ->
  exists s' lo', deliver_loop fuel s = ok (s', released g lo lo') /\ moved s lo hi g lo' s' /\ first_gap g lo hi lo'.
Proof.
  revert s lo g. induction fuel as [|fuel IH]; intros s lo g Hs Hf; [pose proof (sim_range _ _ _ _ Hs); lia|].
  pose proof (sim_range _ _ _ _ Hs) as Hr. cbn [deliver_loop].
  assert (Hmd : lo <= lo < lo + md) by (unfold md; lia).
  rewrite (sim_next _ _ _ _ Hs), (deliv_is_index _ _ _ _ hi Hs) by lia. rewrite (sim_deliv _ _ _ _ Hs), (has_sn_index Hs) by done.
  destruct (g !! lo) as [i|] eqn:Hi.
  - pose proof (sim_keys _ _ _ _ Hs lo ltac:(eauto)). zfalse. rewrite bool_decide_eq_true_2 by eauto. cbn [negb andb].
    destruct (sim_front _ _ _ _ _ Hs Hi) as (w & -> & Hs1). rewrite bind_ok.
    destruct (IH _ _ _ Hs1) as (s' & lo' & E & Hm & Hgap & Hnone); [lia|].
    unfold advance in E. rewrite E, bind_ok. pose proof (mv_range _ _ _ _ _ _ Hm). exists s', lo'. unfold first_gap. split_and!.
    + rewrite (released_cons g lo lo') by lia. rewrite Hi, released_beyond by lia. done.
    + by eapply moved_step; [|exact Hm].
    + intros k Hk. destruct (decide (k = lo)) as [->|]; [eauto|]. specialize (Hgap k ltac:(lia)). by rewrite beyond_lookup, decide_True in Hgap by lia.
    + by rewrite beyond_lookup, decide_True in Hnone by lia.
  - rewrite bool_decide_eq_false_2 by (by intros []). rewrite andb_false_r. exists s, lo. rewrite released_nil.
    split; [done|]. split; [by apply moved_refl|]. split; [lia|done].
Qed.

Lemma expire_loop_ok fuel s lo hi g r :
  sim s lo hi g -> rx_reord s = r mod md -> lo <= r <= hi -> r - lo < Z.of_nat fuel ->
  exists s', expire_loop fuel s = ok (s', released g lo r) /\ moved s lo hi g r s'.
Proof.
  revert s lo g. induction fuel as [|fuel IH]; intros s lo g Hs Er Hr Hf; [lia|].
  assert (Hmd : lo <= lo < lo + md) by (unfold md; lia). cbn [expire_loop]. rewrite Er, (deliv_is_index _ _ _ _ r Hs) by done.
  destruct (Z.eqb_spec lo r) as [<-|Hne]; cbn [negb].
  { exists s. rewrite released_nil. split; [done|by apply moved_refl]. }
  rewrite (sim_deliv _ _ _ _ Hs), (has_sn_index Hs) by done. rewrite (released_cons g lo r) by lia. destruct (g !! lo) as [i|] eqn:Hi.
  - rewrite bool_decide_eq_true_2 by eauto. destruct (sim_front _ _ _ _ _ Hs Hi) as (w & -> & Hs1). rewrite !bind_ok.
    destruct (IH _ _ _ Hs1 Er) as (s' & E & Hm); [lia..|]. unfold advance in E. rewrite E, bind_ok. exists s'.
    rewrite released_beyond by lia. split; [done|]. by eapply moved_step; [|exact Hm].
  - rewrite bool_decide_eq_false_2 by (by intros []). rewrite bind_ok.
    pose proof (sim_skip _ _ _ _ Hs ltac:(lia) Hi) as Hs1. destruct (IH _ _ _ Hs1 Er) as (s' & E & Hm); [lia..|].
    unfold advance in E. rewrite E, bind_ok. exists s'. rewrite released_beyond by lia. split; [done|]. by eapply moved_step; [|exact Hm].
Qed.

(** ** The handlers *)
Record ngu_inv (s : ngu_rx) (lo hi : Z) (g : waiting) : Prop := {
  inv_sim : sim s lo hi g;
  inv_gap : g !! lo = None;
  inv_timer : is_running (reordering_timer s) = true -> exists r, rx_reord s = r mod md /\ lo <= r <= hi;
  (** While SDUs wait the timer runs, unless the window is as wide as it can be. *)
  inv_waits : lo < hi -> is_running (reordering_timer s) = true \/ hi = lo + W
}.

Lemma inv_init : ngu_inv ngu_rx_init 0 0 ∅.
Proof. split; [apply sim_init|done|done|lia]. Qed.

(** [rx_reord := rx_next; run()] *)
Definition rearmed (s : ngu_rx) : ngu_rx := set_timer (set_reord s (rx_next s)) (timer_run (reordering_timer s)).

Lemma rearmed_inv s lo hi g : sim s lo hi g -> g !! lo = None -> ngu_inv (rearmed s) lo hi g.
Proof.
  intros Hs Hg. assert (Hf : fits 16 (hi mod md)) by (pose proof (Z.mod_pos_bound hi md ltac:(done)); exact H). pose proof (sim_range _ _ _ _ Hs).
  split; [|done| |by left].
  - eapply sim_ext; [exact Hs|done..|]. cbn [rx_reord rearmed set_timer set_reord]. by rewrite (sim_next _ _ _ _ Hs).
  - intros _. exists hi. split; [apply Hs|lia].
Qed.

Lemma started_inv s lo hi g :
  sim s lo hi g -> g !! lo = None -> (is_running (reordering_timer s) = true -> exists r, rx_reord s = r mod md /\ lo <= r <= hi) ->
  ngu_inv (if negb (is_running (reordering_timer s)) && (rx_mod_base s (rx_deliv s) <? rx_mod_base s (rx_next s)) then rearmed s else s) lo hi g.
Proof.
  intros Hs Hg Ht. rewrite (mod_base_next Hs), mod_base_deliv. pose proof (sim_range _ _ _ _ Hs) as Hr.
  destruct (is_running (reordering_timer s)) eqn:E; cbn [negb andb].
  - split; [done|done|by intros _; apply Ht|by left].
  - destruct (Z.ltb_spec 0 (hi - lo)); [by apply rearmed_inv|]. split; [done|done|by rewrite E|lia].
Qed.

(** The timer is stopped when the window has left [rx_reord] behind. *)
Definition timer_checked (s : ngu_rx) : ngu_rx :=
  if is_running (reordering_timer s) && negb (inside_rx_window s (rx_reord s)) then set_timer s (timer_stop (reordering_timer s)) else s.

Lemma timer_checked_inv s lo hi g lo0 r :
  sim s lo hi g -> (is_running (reordering_timer s) = true -> rx_reord s = r mod md /\ lo0 <= r <= hi) -> lo0 <= lo <= lo0 + W ->
  sim (timer_checked s) lo hi g /\
  (is_running (reordering_timer (timer_checked s)) = true -> exists r, rx_reord (timer_checked s) = r mod md /\ lo <= r <= hi) /\
  ngu_stopped (timer_checked s) = ngu_stopped s.
Proof.
  intros Hs Ht Hlo. unfold timer_checked. pose proof (sim_range _ _ _ _ Hs) as Hr. destruct (is_running (reordering_timer s)) eqn:E; cbn [andb].
  2: { split; [done|]. by rewrite E. }
  destruct (Ht eq_refl) as [Er Hb]. unfold inside_rx_window. destruct (Z.ltb_spec (rx_mod_base s (rx_reord s)) W) as [Hin|Hout]; cbn [negb].
  - split; [done|]. split; [|done]. intros _. exists r. split; [done|]. split; [|lia]. destruct (decide (lo <= r)) as [|Hlt]; [done|].
    assert (Em : rx_reord s = (r + md) mod md) by (rewrite Er; by rewrite <- (Z.mul_1_l md) at 2; rewrite Z.mod_add).
    rewrite Em, (mod_base_index Hs) in Hin by (unfold md, W in *; lia). unfold md, W in *; lia.
  - split; [|split; [|done]].
    + eapply sim_ext; [exact Hs|done..|apply Hs].
    + cbn [set_timer reordering_timer]. unfold timer_stop. by rewrite E.
Qed.

Section handlers.
Context (cfg : ngu_rx_config) (Ht : t_reordering cfg <> 0).

Lemma move_on_ok s lo hi g k i w :
  ngu_inv s lo hi g -> lo <= k < lo + W -> sim (put_next (set_window s w) (k mod md)) lo (Z.max hi (k + 1)) (<[k := i]> g) ->
  exists s' lo', ngu_move_on cfg (set_window s w) (k mod md) = ok (s', released (<[k := i]> g) lo lo') /\
    ngu_inv s' lo' (Z.max hi (k + 1)) (beyond lo' (<[k := i]> g)) /\ lo <= lo' <= Z.max hi (k + 1) /\
    first_gap (<[k := i]> g) lo (Z.max hi (k + 1)) lo' /\ ngu_stopped s' = ngu_stopped s.
Proof using Ht.
  intros Hi Hk Hput. set (hi' := Z.max hi (k + 1)) in *. set (g' := <[k := i]> g) in *. set (s1 := put_next (set_window s w) (k mod md)) in *.
  assert (Hs1 : reordering_timer s1 = reordering_timer s /\ rx_reord s1 = rx_reord s /\ ngu_stopped s1 = ngu_stopped s)
    by (subst s1; unfold put_next; by destruct (_ <=? _)).
  pose proof (sim_range _ _ _ _ Hput) as Hr. pose proof (sim_range _ _ _ _ (inv_sim _ _ _ _ Hi)).
  unfold ngu_move_on. change (if rx_mod_base (set_window s w) (rx_next (set_window s w)) <=? rx_mod_base (set_window s w) (k mod md) then _ else _) with s1.
  cbv zeta.
  assert (Hd : exists s2 lo', (if rx_mod_base s1 (k mod md) =? rx_mod_base s1 (rx_deliv s1) then deliver_all_consecutive_sdus s1 else ok (s1, [])) =
      ok (s2, released g' lo lo') /\ moved s1 lo hi' g' lo' s2 /\ first_gap g' lo hi' lo').
  { rewrite mod_base_deliv, (mod_base_index Hput) by (unfold md, W in *; lia). destruct (Z.eqb_spec (k - lo) 0) as [E|E].
    - apply deliver_loop_ok; [done|]. rewrite (mod_base_next Hput). lia.
    - exists s1, lo. rewrite released_nil. split; [done|]. split; [by apply moved_refl|]. split; [lia|]. subst g'. rewrite lookup_insert_ne by lia. apply Hi. }
  destruct Hd as (s2 & lo' & -> & Hm & Hgap). rewrite bind_ok. exists (if negb (is_running (reordering_timer (timer_checked s2))) &&
    (rx_mod_base (timer_checked s2) (rx_deliv (timer_checked s2)) <? rx_mod_base (timer_checked s2) (rx_next (timer_checked s2)))
    then rearmed (timer_checked s2) else timer_checked s2), lo'.
  fold (timer_checked s2). rewrite (proj2 (Z.eqb_neq (t_reordering cfg) 0)) by done. split; [by destruct (_ && _)|].
  destruct (mv_rest _ _ _ _ _ _ Hm) as (R1 & R2 & R3). destruct Hs1 as (E1 & E2 & E3).
  assert (Hr0 : exists r, is_running (reordering_timer s2) = true -> rx_reord s2 = r mod md /\ lo <= r <= hi').
  { rewrite R1, R2, E1, E2. destruct (is_running (reordering_timer s)) eqn:E; [|by exists 0]. destruct (inv_timer _ _ _ _ Hi E) as (r & ? & ?).
    exists r. intros _. split; [done|lia]. }
  destruct Hr0 as (r & Hr0). pose proof (mv_range _ _ _ _ _ _ Hm).
  destruct (timer_checked_inv s2 lo' hi' (beyond lo' g') lo r (mv_sim _ _ _ _ _ _ Hm) Hr0 ltac:(lia)) as (Hsim & Htm & Hst).
  split; [|split; [done|split; [done|]]].
  - apply started_inv; [done| |done]. rewrite beyond_lookup, decide_True by lia. apply Hgap.
  - destruct (_ && _); cbn [ngu_stopped rearmed set_timer set_reord]; congruence.
Qed.

Lemma expiry_ok s lo hi g :
  ngu_inv s lo hi g -> is_running (reordering_timer s) = true ->
  exists s' lo' r, ngu_reordering_callback cfg s = ok (s', released g lo lo') /\ ngu_inv s' lo' hi (beyond lo' g) /\ lo <= lo' <= hi /\
    ngu_stopped s' = ngu_stopped s /\ rx_reord s = r mod md /\ lo <= r <= hi /\
    ((r = lo + W /\ lo' = lo) \/ (r <= lo' /\ first_gap g r hi lo')).
Proof using Ht.
  intros Hi Hrun. destruct (inv_timer _ _ _ _ Hi Hrun) as (r & Er & Hr). unfold ngu_reordering_callback. set (s1 := set_timer s timer_expired).
  pose proof (inv_sim _ _ _ _ Hi) as Hs. assert (Hs1 : sim s1 lo hi g) by (eapply sim_ext; [exact Hs|done..|apply Hs]).
  pose proof (sim_range _ _ _ _ Hs) as Hrange. unfold ngu_handle_t_reordering_expire. cbn [is_running reordering_timer s1 set_timer].
  change (rx_reord s1) with (rx_reord s) at 1. unfold inside_rx_window. rewrite Er, (mod_base_index Hs1) by (unfold md, W in *; lia).
  destruct (Z.ltb_spec (r - lo) W) as [Hin|Hout]; cbn [negb].
  2: { exists s1, lo, r. rewrite released_nil. split; [done|]. split; [|split; [lia|split; [done|split; [done|split; [lia|left; lia]]]]].
    rewrite (beyond_all _ _ _ _ Hs1). split; [done|apply Hi|done|right; lia]. }
  destruct (expire_loop_ok (S (Z.to_nat (rx_mod_base s1 (rx_reord s1)))) s1 lo hi g r Hs1 Er Hr) as (s2 & -> & Hm1).
  { change (rx_reord s1) with (rx_reord s). rewrite Er, (mod_base_index Hs1) by (unfold md, W in *; lia). lia. }
  rewrite bind_ok. unfold deliver_all_consecutive_sdus. pose proof (mv_sim _ _ _ _ _ _ Hm1) as Hs2.
  destruct (deliver_loop_ok (S (Z.to_nat (rx_mod_base s2 (rx_next s2)))) s2 r hi (beyond r g) Hs2) as (s3 & lo' & -> & Hm2 & Hgap & Hnone).
  { rewrite (mod_base_next Hs2). lia. }
  rewrite bind_ok. pose proof (mv_range _ _ _ _ _ _ Hm2) as Hlo'. rewrite released_beyond, released_app by lia.
  pose proof (mv_sim _ _ _ _ _ _ Hm2) as Hs3. rewrite beyond_beyond in Hs3 by lia. rewrite beyond_lookup, decide_True in Hnone by lia.
  destruct (mv_rest _ _ _ _ _ _ Hm1) as (A1 & A2 & A3). destruct (mv_rest _ _ _ _ _ _ Hm2) as (B1 & B2 & B3).
  assert (Hnr : is_running (reordering_timer s3) = false) by (by rewrite B2, A2).
  rewrite (proj2 (Z.eqb_neq (t_reordering cfg) 0)) by done. fold (rearmed s3). do 3 eexists. split; [reflexivity|].
  split; [|split; [lia|split; [|split; [reflexivity|split; [exact Hr|right; split; [lia|]]]]]].
  - pose proof (started_inv s3 lo' hi (beyond lo' g) Hs3) as H. rewrite Hnr in H. apply H; [|done]. by rewrite beyond_lookup, decide_True by lia.
  - destruct (_ <? _); cbn [ngu_stopped rearmed set_timer set_reord]; by rewrite B3, A3.
  - split; [|done]. intros k Hk. specialize (Hgap k Hk). by rewrite beyond_lookup, decide_True in Hgap by lia.
Qed.

(** ** Numbered SDUs *)

(** [handle_pdu] with a sequence number: what falls outside the window or has been there already does not move the window. *)
Lemma handle_sn_ok s lo hi g k sdu qfi :
  ngu_inv s lo hi g -> lo <= k < lo + md ->
  let i := mk_rx_sdu_info sdu qfi (Some (k mod md)) in
  (lo + W <= k /\ ngu_handle_sn cfg s (k mod md) sdu qfi = ok (s, [deliver_sdu i])) \/
  (k < lo + W /\ is_Some (g !! k) /\ ngu_handle_sn cfg s (k mod md) sdu qfi = ok (s, [])) \/
  (k < lo + W /\ g !! k = None /\ exists s' lo',
    ngu_handle_sn cfg s (k mod md) sdu qfi = ok (s', released (<[k := i]> g) lo lo') /\
    ngu_inv s' lo' (Z.max hi (k + 1)) (beyond lo' (<[k := i]> g)) /\ lo <= lo' <= Z.max hi (k + 1) /\
    first_gap (<[k := i]> g) lo (Z.max hi (k + 1)) lo' /\ ngu_stopped s' = ngu_stopped s).
Proof using Ht.
  intros Hi Hk i. pose proof (inv_sim _ _ _ _ Hi) as Hs. unfold ngu_handle_sn. fold i. unfold inside_rx_window.
  rewrite (mod_base_index Hs), mod_base_deliv, (has_sn_index Hs) by done. destruct (Z.ltb_spec (k - lo) W); cbn [negb]; [|left; split; [lia|done]].
  zfalse. destruct (g !! k) as [j|] eqn:Hg.
  - right; left. rewrite bool_decide_eq_true_2 by eauto. split; [lia|]. split; [eauto|done].
  - right; right. rewrite bool_decide_eq_false_2 by (by intros []). split; [lia|]. split; [done|].
    destruct (sim_put s lo hi g k i Hs ltac:(lia) Hg) as (w1 & w & -> & E & Hput). rewrite bind_ok, E, bind_ok.
    exact (move_on_ok s lo hi g k i w Hi ltac:(lia) Hput).
Qed.

Definition ngu_reachable (s : ngu_rx) : Prop := exists lo hi g, ngu_inv s lo hi g.

Lemma scan_ok l info : Forall (fun ext => is_bytes (container ext) /\ fits 8 (extension_header_type ext)) l ->
  (forall i, info = Some i -> fits 6 (qos_flow_id i)) -> exists r, ngu_scan l info = ok r /\ forall i, r = Some i -> fits 6 (qos_flow_id i).
Proof using.
  revert info. induction l as [|ext l IH]; intros info Hl Hinfo; [by exists info|]. apply Forall_cons in Hl as [[Hb _] Hl]. cbn [ngu_scan].
  destruct (_ =? _); [|by apply IH]. destruct info as [i|]; [by apply IH|].
  destruct (psup_unpack_total _ Hb) as (r & -> & Hr). rewrite bind_ok. apply IH; [done|]. intros i E. by apply iok_qfi, Hr.
Qed.
End handlers.

(** ** Packets *)
Local Abbreviation mem := (fun _ => true).

(** A UPF's packet: numbered, with a DL PDU session information in front of the SDU. *)
Definition numbered_header (teid sn : Z) (c : bytes) : gtpu_header :=
  mk_gtpu_header (mk_flags GTPU_FLAGS_VERSION_V1 GTPU_FLAGS_GTP_PROTOCOL true true false) GTPU_MSG_DATA_PDU 0 teid sn 0 pdu_session_container
    [mk_ext pdu_session_container c].

Definition numbered_packet (teid sn : Z) (info : psup_dl_pdu_session_information) (sdu raw : bytes) : Prop :=
  exists c, psup_pack mem [] info = ok (true, c) /\ gtpu_write_header mem sdu (numbered_header teid sn c) = ok (true, raw).

Lemma session_ext_ok c : is_bytes c -> (zlen c + 2) mod 4 = 0 -> zlen c < 254 -> ext_ok (mk_ext pdu_session_container c).
Proof.
  intros Hc H4 Hl. constructor; cbn [container extension_header_type]; try done.
  destruct (decide (zlen c = 0)) as [E|E]; [rewrite E in H4; discriminate H4|]. lia.
Qed.

Lemma numbered_header_ok teid sn c : fits 32 teid -> fits 16 sn -> ext_ok (mk_ext pdu_session_container c) -> header_ok (numbered_header teid sn c).
Proof. intros Ht Hsn He. constructor; try done. by apply Forall_singleton. Qed.

(** The packet is taken as its SDU, its QoS flow and its sequence number. *)
Lemma numbered_packet_received cfg s teid sn info sdu raw :
  t_reordering cfg <> 0 -> cfg_test_mode cfg = false -> ngu_stopped s = false -> fits 32 teid -> fits 16 sn -> session_information_ok info ->
  is_bytes sdu -> numbered_packet teid sn info sdu raw ->
  ngu_rx_handle_pdu cfg s raw = ngu_handle_sn cfg s sn sdu (qos_flow_id info).
Proof.
  intros Ht Htest Hstop Hteid Hsn Hinfo Hsdu (c & Ep & Ew). destruct (psup_spec info [] Hinfo ltac:(constructor)) as (c' & Ep' & Hc & H4 & Hl & Eu).
  rewrite Ep, app_nil_l in Ep'. injection Ep' as <-.
  assert (Hh : header_ok (numbered_header teid sn c)) by (exact (numbered_header_ok _ _ _ Hteid Hsn (session_ext_ok c Hc H4 ltac:(lia)))).
  destruct (write_dissect _ sdu Hh Hsdu) as (raw' & p & Ew' & _ & _ & Ed & Eh & _ & Ex). rewrite Ew in Ew'. injection Ew' as <-.
  unfold ngu_rx_handle_pdu. rewrite Htest, Ed, bind_ok. unfold ngu_handle_dissected. rewrite Hstop, Eh.
  cbn [received_header numbered_header ext_list ngu_scan extension_header_type container]. rewrite Z.eqb_refl, Eu, !bind_ok, Ex, bind_ok.
  cbn [flags has_seq_number negb orb]. rewrite (proj2 (Z.eqb_neq (t_reordering cfg) 0)) by done. reflexivity.
Qed.

Definition ul_header (peer_teid length : Z) (c : bytes) : gtpu_header :=
  mk_gtpu_header (mk_flags GTPU_FLAGS_VERSION_V1 GTPU_FLAGS_GTP_PROTOCOL true false false) GTPU_MSG_DATA_PDU length peer_teid 0 0 pdu_session_container
    [mk_ext pdu_session_container c].

Lemma ul_header_ok teid length c : fits 32 teid -> ext_ok (mk_ext pdu_session_container c) -> header_ok (ul_header teid length c).
Proof. intros Ht He. constructor; try done. by apply Forall_singleton. Qed.

(** What is sent up: a packet that the peer takes apart to the PDU session container (UL, of the QoS flow) and the SDU. *)
Lemma ngu_tx_received peer_teid sdu qfi :
  fits 32 peer_teid -> fits 7 qfi -> is_bytes sdu ->
  exists raw p c, ngu_tx_handle_sdu mem peer_teid false sdu qfi = ok (Some raw) /\ gtpu_read_teid raw = ok (Some peer_teid) /\
    gtpu_dissect_pdu raw = ok (Some p) /\ ext_list (pdu_hdr p) = [mk_ext pdu_session_container c] /\
    bits_of c = to_bits 4 1 ++ to_bits 4 0 ++ to_bits 1 0 ++ to_bits 7 qfi /\ gtpu_extract_msg p = ok sdu.
Proof.
  intros Ht Hq Hsdu. assert (Hw : writes (ul_session_writer mem qfi) (to_bits 4 1 ++ to_bits 4 0 ++ to_bits 1 0 ++ to_bits 7 qfi)).
  { unfold ul_session_writer. repeat (apply writes_and; [apply writes_fit; unfold fits; lia|]). by apply (writes_fit 7). }
  destruct (writes_whole _ _ [] Hw ltac:(constructor)) as (e & c & E & Ee & Hc & Eb); [by rewrite !length_app, !to_bits_length|].
  assert (Hl : zlen c = 2). { apply (f_equal length) in Eb. rewrite bits_of_length, !length_app, !to_bits_length in Eb. lia. }
  rewrite app_nil_l in Ee. unfold ngu_tx_handle_sdu. rewrite E, bind_ok, Ee. cbv iota. simpl negb. cbv iota zeta.
  set (h := mk_gtpu_header _ _ _ _ _ _ _ _).
  assert (Hh : header_ok h) by (apply ul_header_ok; [exact Ht|]; apply session_ext_ok; [exact Hc|by rewrite Hl|lia]).
  destruct (write_dissect h sdu Hh Hsdu) as (raw & p & Ew & _ & Et & Ed & Eh & _ & Ex). exists raw, p, c. rewrite Ew, bind_ok.
  split; [done|]. split; [exact Et|]. split; [exact Ed|]. split; [by rewrite Eh|]. by split.
Qed.

(** ** Any packets *)

(** At rest: stopped with the timer, or with the window in order; without [t_reordering] nothing is ever kept. *)
Definition ngu_rest (cfg : ngu_rx_config) (s : ngu_rx) : Prop :=
  exists lo hi g, (ngu_stopped s = true /\ is_running (reordering_timer s) = false /\ sim s lo hi g) \/
    (ngu_stopped s = false /\ ngu_inv s lo hi g /\ (t_reordering cfg = 0 -> is_running (reordering_timer s) = false)).

Lemma rest_init cfg : ngu_rest cfg ngu_rx_init.
Proof. exists 0, 0, ∅. right. split; [done|]. split; [apply inv_init|done]. Qed.

Lemma rest_handle_sn cfg s sn sdu qfi :
  t_reordering cfg <> 0 -> ngu_stopped s = false -> ngu_rest cfg s -> fits 16 sn ->
  exists s' outs, ngu_handle_sn cfg s sn sdu qfi = ok (s', outs) /\ ngu_rest cfg s'.
Proof.
  intros Ht Hst (lo & hi & g & [(H & _)|(_ & Hi & Hz)]) Hsn; [congruence|].
  destruct (mod_base_sn (inv_sim _ _ _ _ Hi) sn Hsn) as (k & Hk & -> & _).
  destruct (handle_sn_ok cfg Ht s lo hi g k sdu qfi Hi Hk) as [(_ & ->)|[(_ & _ & ->)|(_ & _ & s' & lo' & -> & Hi' & _ & _ & Hs')]].
  1,2: do 2 eexists; split; [reflexivity|]; exists lo, hi, g; right; by split.
  do 2 eexists. split; [reflexivity|]. do 3 eexists. right. split; [by rewrite Hs'|]. split; [exact Hi'|]. by intros ?%Ht.
Qed.

Lemma rest_handle_pdu cfg s buf :
  is_bytes buf -> ngu_rest cfg s -> exists s' outs, ngu_rx_handle_pdu cfg s buf = ok (s', outs) /\ ngu_rest cfg s'.
Proof.
  intros Hb Hr. unfold ngu_rx_handle_pdu. destruct (cfg_test_mode cfg).
  { destruct (ngu_stopped s); do 2 eexists; by split. }
  destruct (dissect_ok buf Hb) as (r & -> & Hp). rewrite bind_ok. destruct r as [p|]; [|do 2 eexists; by split].
  destruct (Hp p eq_refl) as (Hbuf & Hlen & [_ Hex] & Hsn). unfold ngu_handle_dissected. destruct (ngu_stopped s) eqn:Hst; [do 2 eexists; by split|].
  destruct (scan_ok (ext_list (pdu_hdr p)) None Hex ltac:(done)) as ([info|] & -> & _); rewrite bind_ok; [|do 2 eexists; by split].
  destruct p as [pb h n]. cbn [pdu_buf pdu_hdr_len pdu_hdr] in *. subst pb. rewrite (extract_ok buf h n Hlen), bind_ok.
  destruct (Z.eqb_spec (t_reordering cfg) 0) as [E|E]; [rewrite orb_true_r; do 2 eexists; by split|]. rewrite orb_false_r.
  destruct (negb _); [do 2 eexists; by split|]. by apply rest_handle_sn.
Qed.

Lemma rest_step cfg s i :
  (forall buf, i = ngu_pdu buf -> is_bytes buf) -> ngu_rest cfg s -> exists s' outs, ngu_step cfg s i = ok (s', outs) /\ ngu_rest cfg s'.
Proof.
  intros Hb Hr. destruct i as [buf| |]; cbn [ngu_step]; [apply rest_handle_pdu; [by apply Hb|done]| |].
  - destruct (is_running (reordering_timer s)) eqn:Hrun; [|do 2 eexists; by split].
    destruct Hr as (lo & hi & g & [(_ & H & _)|(Hst & Hi & Hz)]); [congruence|].
    assert (Ht : t_reordering cfg <> 0) by (intros E%Hz; congruence).
    destruct (expiry_ok cfg Ht s lo hi g Hi Hrun) as (s' & lo' & r & -> & Hi' & _ & Hs' & _). do 2 eexists. split; [reflexivity|].
    do 3 eexists. right. split; [by rewrite Hs'|]. split; [exact Hi'|]. by intros ?%Ht.
  - do 2 eexists. split; [reflexivity|]. unfold ngu_stop. destruct Hr as (lo & hi & g & [(Hst & Hrun & Hs)|(Hst & Hi & _)]); rewrite Hst; cbn [negb].
    + exists lo, hi, g. by left.
    + exists lo, hi, g. left. split; [done|]. split; [by destruct (reordering_timer s)|].
      pose proof (inv_sim _ _ _ _ Hi) as Hs. eapply sim_ext; [exact Hs|done..|apply Hs].
Qed.

Lemma rest_run cfg l s :
  Forall (fun i => forall buf, i = ngu_pdu buf -> is_bytes buf) l -> ngu_rest cfg s -> exists s' outs, ngu_run cfg s l = ok (s', outs) /\ ngu_rest cfg s'.
Proof.
  revert s. induction l as [|i l IH]; intros s Hl Hr; [do 2 eexists; by split|]. apply Forall_cons in Hl as [Hi Hl]. cbn [ngu_run].
  destruct (rest_step cfg s i Hi Hr) as (s1 & outs1 & -> & Hr1). rewrite bind_ok. destruct (IH s1 Hl Hr1) as (s2 & outs2 & -> & Hr2).
  rewrite bind_ok. do 2 eexists. by split.
Qed.

(** Whatever a peer sends on N3, in whatever order packets, expiries of t-Reordering and the stop of the tunnel come, the receiver returns, no
    assertion of the window fails and its loops end; its window is never wider than half the sequence numbers, and as long as it is not stopped, an SDU
    waits only while t-Reordering runs, unless the window is as wide as it can be. *)
Theorem ngu_rx_never_fails (cfg : ngu_rx_config) (l : list ngu_input) :
  Forall (fun i => forall buf, i = ngu_pdu buf -> is_bytes buf) l ->
  exists s outs, ngu_run cfg ngu_rx_init l = ok (s, outs) /\ rx_mod_base s (rx_next s) <= gtpu_rx_window_size /\
    (ngu_stopped s = false -> rx_deliv s <> rx_next s -> is_running (reordering_timer s) = true \/ rx_mod_base s (rx_next s) = gtpu_rx_window_size).
Proof.
  intros Hl. destruct (rest_run cfg l ngu_rx_init Hl (rest_init cfg)) as (s & outs & E & lo & hi & g & Hr). exists s, outs. split; [exact E|].
  assert (Hs : sim s lo hi g) by (destruct Hr as [(_ & _ & Hs)|(_ & Hi & _)]; [exact Hs|apply Hi]). pose proof (sim_range _ _ _ _ Hs).
  rewrite (mod_base_next Hs). split; [lia|]. intros Hst Hne. destruct Hr as [(H0 & _)|(_ & Hi & _)]; [congruence|].
  destruct (inv_waits _ _ _ _ Hi) as [|]; [|by left|right; lia]. destruct (decide (lo = hi)) as [->|]; [|lia].
  rewrite (sim_deliv _ _ _ _ Hs), (sim_next _ _ _ _ Hs) in Hne. done.
Qed.

(** ** Numbered packets, in any order *)
Section in_order.
Context (cfg : ngu_rx_config) (teid : Z) (infos : Z -> psup_dl_pdu_session_information) (sdus : Z -> bytes).
Context (Ht : t_reordering cfg <> 0) (Htest : cfg_test_mode cfg = false) (Hteid : fits 32 teid).
Context (Hinfos : forall n, session_information_ok (infos n)) (Hsdus : forall n, is_bytes (sdus n)).

Definition sent_out (n : Z) : sdu_out := (sdus n, qos_flow_id (infos n)).
Definition is_packet (n : Z) (raw : bytes) : Prop := numbered_packet teid (n mod md) (infos n) (sdus n) raw.

(** The next packet is one that has not been here, and from less than a window beyond the first that is missing. *)
Fixpoint arrives_within (arrived ns : list Z) : Prop :=
  match ns with
  | [] => True
  | n :: ns => 0 <= n /\ (n ∉ arrived) /\ (forall k, 0 <= k <= n - W -> k ∈ arrived) /\ arrives_within (arrived ++ [n]) ns
  end.

Record received (s : ngu_rx) (arrived : list Z) (lo hi : Z) (g : waiting) : Prop := {
  rc_inv : ngu_inv s lo hi g;
  rc_stopped : ngu_stopped s = false;
  rc_below : forall k, 0 <= k < lo -> k ∈ arrived;
  rc_waiting : forall k, lo <= k -> k ∈ arrived <-> is_Some (g !! k);
  rc_genuine : forall k i, g !! k = Some i -> deliver_sdu i = sent_out k
}.

Lemma released_sent g a b :
  (forall k, a <= k < b -> is_Some (g !! k)) -> (forall k i, g !! k = Some i -> deliver_sdu i = sent_out k) -> released g a b = sent_out <$> seqZ a (b - a).
Proof using.
  intros Hall Hg. unfold released. assert (Hl : Forall (fun k => a <= k < b) (seqZ a (b - a))) by (apply Forall_forall; intros k Hk%elem_of_seqZ; lia).
  induction Hl as [|k l Hk Hl IH]; [done|]. destruct (Hall k Hk) as [i Hi]. cbn [omap list_omap]. rewrite Hi, fmap_cons, IH.
  cbn [fmap option_fmap option_map]. by rewrite (Hg k i Hi).
Qed.

Lemma received_step s arrived lo hi g n raw :
  received s arrived lo hi g -> 0 <= n -> n ∉ arrived -> (forall k, 0 <= k <= n - W -> k ∈ arrived) -> is_packet n raw ->
  exists s' lo' hi' g', ngu_rx_handle_pdu cfg s raw = ok (s', sent_out <$> seqZ lo (lo' - lo)) /\ lo <= lo' /\ received s' (arrived ++ [n]) lo' hi' g'.
Proof using All.
  intros Hr H0 Hn Hw Hp. pose proof (rc_inv _ _ _ _ _ Hr) as Hi. pose proof (sim_range _ _ _ _ (inv_sim _ _ _ _ Hi)) as Hrange.
  assert (Hge : lo <= n). { destruct (decide (lo <= n)); [done|]. exfalso. apply Hn, (rc_below _ _ _ _ _ Hr). lia. }
  assert (Hlo : lo ∉ arrived). { rewrite (rc_waiting _ _ _ _ _ Hr) by lia. rewrite (inv_gap _ _ _ _ Hi). by intros []. }
  assert (Hlt : n < lo + W). { destruct (decide (n < lo + W)); [done|]. exfalso. apply Hlo, Hw. lia. }
  assert (Hgn : g !! n = None). { destruct (g !! n) eqn:E; [|done]. exfalso. apply Hn, (rc_waiting _ _ _ _ _ Hr); [done|by eexists]. }
  rewrite (numbered_packet_received cfg s teid (n mod md) (infos n) (sdus n) raw Ht Htest (rc_stopped _ _ _ _ _ Hr) Hteid
    (Z.mod_pos_bound n md eq_refl) (Hinfos n) (Hsdus n) Hp).
  set (i := mk_rx_sdu_info (sdus n) (qos_flow_id (infos n)) (Some (n mod md))).
  destruct (handle_sn_ok cfg Ht s lo hi g n (sdus n) (qos_flow_id (infos n)) Hi ltac:(unfold md, W in *; lia))
    as [(H & _)|[(_ & [] & _)|(_ & _ & s' & lo' & -> & Hi' & Hlo' & [Hall _] & Hst)]]; [lia|congruence|].
  change (mk_rx_sdu_info _ _ _) with i in Hi', Hall |- *.
  assert (Hgen : forall k j, <[n := i]> g !! k = Some j -> deliver_sdu j = sent_out k).
  { intros k j. destruct (decide (k = n)) as [->|]; [rewrite lookup_insert_eq; by intros [= <-]|]. rewrite lookup_insert_ne by done. apply Hr. }
  exists s', lo', (Z.max hi (n + 1)), (beyond lo' (<[n := i]> g)). rewrite (released_sent _ _ _ Hall Hgen). split; [done|]. split; [lia|]. split.
  - exact Hi'.
  - rewrite Hst. apply Hr.
  - intros k Hk. apply elem_of_app. destruct (decide (k < lo)); [left; apply Hr; lia|]. destruct (decide (k = n)) as [->|Hne]; [right; by left|].
    left. apply (rc_waiting _ _ _ _ _ Hr); [lia|]. specialize (Hall k ltac:(lia)). by rewrite lookup_insert_ne in Hall.
  - intros k Hk. rewrite beyond_lookup, decide_True by done. rewrite elem_of_app, list_elem_of_singleton.
    destruct (decide (k = n)) as [->|]; [rewrite lookup_insert_eq; split; [by eexists|by right]|]. rewrite lookup_insert_ne by done.
    rewrite <- (rc_waiting _ _ _ _ _ Hr) by lia. split; [by intros [|]|by left].
  - intros k j. rewrite beyond_lookup. case_decide; [apply Hgen|done].
Qed.

Lemma received_run ns : forall raws s arrived lo hi g,
  received s arrived lo hi g -> arrives_within arrived ns -> Forall2 is_packet ns raws ->
  exists s' lo' hi' g', ngu_run cfg s (ngu_pdu <$> raws) = ok (s', sent_out <$> seqZ lo (lo' - lo)) /\ lo <= lo' /\ received s' (arrived ++ ns) lo' hi' g'.
Proof using All.
  induction ns as [|n ns IH]; intros raws s arrived lo hi g Hr Hw Hp.
  - apply Forall2_nil_inv_l in Hp as ->. exists s, lo, hi, g. rewrite Z.sub_diag, app_nil_r. by split_and!.
  - apply Forall2_cons_inv_l in Hp as (raw & raws' & Hraw & Hraws & ->). destruct Hw as (H0 & Hn & Hlt & Hw).
    destruct (received_step s arrived lo hi g n raw Hr H0 Hn Hlt Hraw) as (s1 & lo1 & hi1 & g1 & E1 & Hlo1 & Hr1).
    destruct (IH raws' s1 _ lo1 hi1 g1 Hr1 Hw Hraws) as (s2 & lo2 & hi2 & g2 & E2 & Hlo2 & Hr2). exists s2, lo2, hi2, g2.
    rewrite fmap_cons. cbn [ngu_run ngu_step]. rewrite E1, bind_ok, E2, bind_ok, <- fmap_app. split; [|split; [lia|by rewrite <- app_assoc in Hr2]].
    f_equal. f_equal. f_equal. replace (lo2 - lo) with ((lo1 - lo) + (lo2 - lo1)) by lia. rewrite seqZ_app by lia. f_equal. f_equal. lia.
Qed.
End in_order.

(** C7: SDUs that a UPF numbers reach the UE in order: whatever the order in which the packets arrive (each once, with an index less than 32768 beyond
    the first that is missing), until t-Reordering expires, what has been delivered is exactly the SDUs before the first missing one, each once and with
    its QoS flow, in the order of their indices; however many, the 16-bit numbers may wrap. *)
Theorem ngu_rx_in_order (cfg : ngu_rx_config) (teid : Z) (infos : Z -> psup_dl_pdu_session_information) (sdus : Z -> bytes) (ns : list Z) (raws : list bytes) :
  t_reordering cfg <> 0 -> cfg_test_mode cfg = false -> fits 32 teid -> (forall n, session_information_ok (infos n)) -> (forall n, is_bytes (sdus n)) ->
  arrives_within [] ns -> Forall2 (is_packet teid infos sdus) ns raws ->
  exists s missing, ngu_run cfg ngu_rx_init (ngu_pdu <$> raws) = ok (s, sent_out infos sdus <$> seqZ 0 missing) /\
    (forall k, 0 <= k < missing -> k ∈ ns) /\ missing ∉ ns.
Proof.
  intros Ht Htest Hteid Hinfos Hsdus Hw Hp.
  assert (H0 : received infos sdus ngu_rx_init [] 0 0 ∅).
  { split; [apply inv_init|done|lia| |done]. intros k _. rewrite lookup_empty. split; [by intros []%elem_of_nil|by intros []]. }
  destruct (received_run cfg teid infos sdus Ht Htest Hteid Hinfos Hsdus ns raws _ [] 0 0 ∅ H0 Hw Hp) as (s & lo & hi & g & E & Hlo & Hr).
  exists s, lo. rewrite Z.sub_0_r in E. split; [exact E|]. rewrite app_nil_l in Hr. split; [apply Hr|].
  rewrite (rc_waiting _ _ _ _ _ _ _ Hr) by lia. rewrite (inv_gap _ _ _ _ (rc_inv _ _ _ _ _ _ _ Hr)). by intros [].
Qed.

(** ** Examples *)
Definition ex_ngu_cfg : ngu_rx_config := mk_ngu_rx_config 100 false.

(** What an entity does of numbered SDUs [(n, sdu)], and of an expiry. *)
Fixpoint ngu_numbers (s : ngu_rx) (l : list (Z * Z)) : outcome (ngu_rx * list sdu_out) :=
  match l with
  | [] => ok (s, [])
  | (n, v) :: l => '(s, outs1) ← ngu_handle_sn ex_ngu_cfg s n [v] 1; '(s, outs2) ← ngu_numbers s l; ok (s, outs1 ++ outs2)
  end.

(** An SDU at the far edge of the window starts t-Reordering with [rx_reord] outside the window: its expiry delivers nothing, and the timer does not run
    again. What is missing is waited for without an end. *)
Example ngu_gap_never_expires :
  (r ← ngu_numbers ngu_rx_init [(32767, 7)]; ngu_step ex_ngu_cfg r.1 ngu_timer_expiry) =
  ok (mk_ngu_rx 32768 0 32768 (mk_circular_map {[32767 := (32767, mk_rx_sdu_info [7] 1 (Some 32767))]} 1) timer_expired false, []).
Proof. by vm_compute. Qed.

(** Otherwise the expiry gives the missing SDU up (here 1) and delivers those behind it. *)
Example ngu_gap_expires :
  (r ← ngu_numbers ngu_rx_init [(0, 1); (2, 3); (3, 4)]; ngu_step ex_ngu_cfg r.1 ngu_timer_expiry) =
  ok (mk_ngu_rx 4 4 3 (mk_circular_map ∅ 0) timer_expired false, [([3], 1); ([4], 1)]).
Proof. by vm_compute. Qed.

(** When the gap is filled up to [rx_reord] itself, the timer is not stopped: it runs with nothing to wait for, and on behalf of the next gap, which it does not
    give up when it expires. *)
Example ngu_timer_left_running :
  (r ← ngu_numbers ngu_rx_init [(1, 2); (0, 1); (3, 4)]; s ← ngu_step ex_ngu_cfg r.1 ngu_timer_expiry; ok (r.2, rx_deliv r.1, rx_reord r.1, s.2, reordering_timer s.1)) =
  ok ([([1], 1); ([2], 1)], 2, 2, [], timer_running).
Proof. by vm_compute. Qed.

(** A duplicate of what has been delivered is taken for an SDU outside the window, and delivered again. *)
Example ngu_duplicate_delivered_again :
  (r ← ngu_numbers ngu_rx_init [(0, 1); (1, 2); (0, 1)]; ok r.2) = ok [([1], 1); ([2], 1); ([1], 1)].
Proof. by vm_compute. Qed.

Definition ex_infos (n : Z) : psup_dl_pdu_session_information := mk_session_information false 5 None None None.
Definition ex_sdus (n : Z) : bytes := [u8 n].
Definition ex_packet (n : Z) : bytes :=
  match ('(_, c) ← psup_pack (fun _ => true) [] (ex_infos n); gtpu_write_header (fun _ => true) (ex_sdus n) (numbered_header 4660 (n mod 65536) c)) with
  | ok (_, raw) => raw
  | fail _ => []
  end.

Definition ex_packet_0 : bytes := Eval vm_compute in ex_packet 0.
Definition ex_packet_1 : bytes := Eval vm_compute in ex_packet 1.
Definition ex_packet_3 : bytes := Eval vm_compute in ex_packet 3.

Example ngu_rx_never_fails_witness :
  exists s outs, ngu_run ex_ngu_cfg ngu_rx_init [ngu_pdu ex_packet_1; ngu_timer_expiry; ngu_stop_request] = ok (s, outs) /\
    rx_mod_base s (rx_next s) <= gtpu_rx_window_size /\
    (ngu_stopped s = false -> rx_deliv s <> rx_next s -> is_running (reordering_timer s) = true \/ rx_mod_base s (rx_next s) = gtpu_rx_window_size).
Proof.
  apply ngu_rx_never_fails. constructor; [|by repeat constructor]. intros buf E. injection E as <-. by repeat constructor.
Defined.

Example ngu_rx_in_order_witness :
  exists s missing, ngu_run ex_ngu_cfg ngu_rx_init (ngu_pdu <$> [ex_packet_1; ex_packet_0; ex_packet_3]) =
      ok (s, sent_out ex_infos ex_sdus <$> seqZ 0 missing) /\ (forall k, 0 <= k < missing -> k ∈ [1; 0; 3]) /\ missing ∉ [1; 0; 3].
Proof.
  apply (ngu_rx_in_order ex_ngu_cfg 4660 ex_infos ex_sdus [1; 0; 3] [ex_packet_1; ex_packet_0; ex_packet_3]).
  - done.
  - done.
  - unfold fits. lia.
  - intros n. by constructor.
  - intros n. constructor; [|constructor]. apply (Z.mod_pos_bound n (2 ^ 8)). done.
  - cbn [arrives_within app]. split_and!; try lia; try (by vm_compute); try (by apply (bool_decide_unpack _); vm_compute); intros k Hk; unfold gtpu_rx_window_size in Hk; lia.
  - do 3 (apply Forall2_cons; split; [exists [0; 5]; by split; vm_compute|]). apply Forall2_nil_2.
Defined.
