(* ===== verification/GtpuPath.v ===== *)
(** * GTP-U path management

    The TEIDs of the local tunnels ([lib/gtpu/gtpu_teid_pool_impl.h]), the demultiplexer in front of the tunnels ([lib/gtpu/gtpu_demux_impl.cpp]) and
    the echo entity ([lib/gtpu/gtpu_echo_rx_impl.h], [lib/gtpu/gtpu_echo_tx_impl.h]). *)
From S2P Require Import Prelude BitEncoding BitStream BitFields NruPacking GtpuPdu GtpuPduProps.

(** ** The TEID pool *)
Definition GTPU_TEID_MIN : Z := 1.

Record teid_pool := mk_teid_pool { next_teid_idx : Z; nof_teids : Z; max_nof_teids : Z; teid_bits : list bool }.

Definition teid_pool_init (max_nof_teids : Z) : teid_pool := mk_teid_pool 0 0 max_nof_teids (replicate (Z.to_nat max_nof_teids) false).

Definition teid_pool_full (p : teid_pool) : bool := max_nof_teids p <=? nof_teids p.

(** The loop of [request_teid]; [n] and the index are [uint16_t]. *)
Fixpoint find_free (fuel : nat) (p : teid_pool) (n : Z) : outcome (option Z) :=
  match fuel with
  | O => fail out_of_fuel
  | S fuel =>
      if n <? max_nof_teids p then
        let tmp_idx := u16 (u32 (next_teid_idx p + n) mod max_nof_teids p) in
        match teid_bits p !! Z.to_nat tmp_idx with
        | None => fail invalid_access
        | Some false => ok (Some tmp_idx)
        | Some true => find_free fuel p (u16 (n + 1))
        end
      else ok None
  end.

Definition request_teid (p : teid_pool) : outcome (teid_pool * option Z) :=
  if teid_pool_full p then ok (p, None)
  else
    found ← find_free (S (Z.to_nat (max_nof_teids p))) p 0;
    match found with
    | None => ok (p, None)
    | Some tmp_idx =>
        ok (mk_teid_pool (u32 (tmp_idx + 1) mod max_nof_teids p) (u32 (nof_teids p + 1)) (max_nof_teids p) (<[Z.to_nat tmp_idx := true]> (teid_bits p)),
            Some (u32 (tmp_idx + GTPU_TEID_MIN)))
    end.

(** The index is not checked. *)
Definition release_teid (p : teid_pool) (teid : Z) : outcome (teid_pool * bool) :=
  let teid_idx := u32 (teid - GTPU_TEID_MIN) in
  match teid_bits p !! Z.to_nat teid_idx with
  | None => fail invalid_access
  | Some false => ok (p, false)
  | Some true => ok (mk_teid_pool (next_teid_idx p) (u32 (nof_teids p - 1)) (max_nof_teids p) (<[Z.to_nat teid_idx := false]> (teid_bits p)), true)
  end.

Inductive teid_op := op_request | op_release (teid : Z).
Inductive teid_result := granted (teid : option Z) | freed (b : bool).

Definition teid_step (p : teid_pool) (op : teid_op) : outcome (teid_pool * teid_result) :=
  match op with
  | op_request => '(p, t) ← request_teid p; ok (p, granted t)
  | op_release t => '(p, b) ← release_teid p t; ok (p, freed b)
  end.

Fixpoint teid_run (p : teid_pool) (l : list teid_op) : outcome (teid_pool * list (teid_op * teid_result)) :=
  match l with
  | [] => ok (p, [])
  | op :: l => '(p, r) ← teid_step p op; '(p, rs) ← teid_run p l; ok (p, (op, r) :: rs)
  end.

(** ** The demultiplexer *)
Section demux.

(** The executor and the tunnel of a TEID, and the tasks that wait in each executor. *)
Record gtpu_demux := mk_demux { teid_to_tunnel : gmap Z (Z * Z); deferred : gmap Z (list (Z * bytes)) }.

Definition demux_init : gtpu_demux := mk_demux ∅ ∅.

Definition add_tunnel (d : gtpu_demux) (teid exec tunnel : Z) : gtpu_demux * bool :=
  match teid_to_tunnel d !! teid with
  | Some _ => (d, false)
  | None => (mk_demux (<[teid := (exec, tunnel)]> (teid_to_tunnel d)) (deferred d), true)
  end.

Definition remove_tunnel (d : gtpu_demux) (teid : Z) : gtpu_demux * bool :=
  match teid_to_tunnel d !! teid with
  | None => (d, false)
  | Some _ => (mk_demux (delete teid (teid_to_tunnel d)) (deferred d), true)
  end.

Definition tasks_of (d : gtpu_demux) (exec : Z) : list (Z * bytes) := default [] (deferred d !! exec).

(** The packet is left to the executor of its tunnel; [accepted]: the queue of the executor is not full. *)
Definition demux_handle_pdu (test_mode accepted : bool) (d : gtpu_demux) (pdu : bytes) : outcome gtpu_demux :=
  read_teid ← (if test_mode then ok (Some 1) else gtpu_read_teid pdu);
  match read_teid with
  | None => ok d
  | Some teid =>
      match teid_to_tunnel d !! teid with
      | None => ok d
      | Some (exec, _) =>
          if accepted then ok (mk_demux (teid_to_tunnel d) (<[exec := tasks_of d exec ++ [(teid, pdu)]]> (deferred d))) else ok d
      end
  end.

(** The task: the tunnel is looked up again, and handed the packet. *)
Definition handle_pdu_impl (d : gtpu_demux) (teid : Z) (pdu : bytes) : option (Z * bytes) :=
  match teid_to_tunnel d !! teid with
  | None => None
  | Some (_, tunnel) => Some (tunnel, pdu)
  end.

(** An executor runs the task that has waited longest. *)
Definition run_task (d : gtpu_demux) (exec : Z) : gtpu_demux * option (Z * bytes) :=
  match tasks_of d exec with
  | [] => (d, None)
  | (teid, pdu) :: tasks => (mk_demux (teid_to_tunnel d) (<[exec := tasks]> (deferred d)), handle_pdu_impl d teid pdu)
  end.

Inductive demux_input := dmx_add (teid exec tunnel : Z) | dmx_remove (teid : Z) | dmx_pdu (accepted : bool) (pdu : bytes) | dmx_task (exec : Z).

Definition demux_step (d : gtpu_demux) (i : demux_input) : outcome (gtpu_demux * option (Z * bytes)) :=
  match i with
  | dmx_add teid exec tunnel => ok ((add_tunnel d teid exec tunnel).1, None)
  | dmx_remove teid => ok ((remove_tunnel d teid).1, None)
  | dmx_pdu accepted pdu => d ← demux_handle_pdu false accepted d pdu; ok (d, None)
  | dmx_task exec => ok (run_task d exec)
  end.

(** The packets each tunnel is handed, in order. *)
Fixpoint demux_run (d : gtpu_demux) (l : list demux_input) : outcome (gtpu_demux * list (Z * bytes)) :=
  match l with
  | [] => ok (d, [])
  | i :: l => '(d, o) ← demux_step d i; '(d, outs) ← demux_run d l; ok (d, option_list o ++ outs)
  end.
End demux.

(** ** Echo *)
Section echo.
Context (append_ok : bytes -> bool).

(** [sn_next] *)
Definition send_echo_request (sn_next : Z) : outcome (Z * option bytes) :=
  let hdr := mk_gtpu_header (mk_flags GTPU_FLAGS_VERSION_V1 GTPU_FLAGS_GTP_PROTOCOL false true false) GTPU_MSG_ECHO_REQUEST 0 0 (u16 sn_next) 0
    no_more_extension_headers [] in
  '(write_ok, buf) ← gtpu_write_header append_ok [] hdr;
  if negb write_ok then ok (sn_next, None) else ok (u32 (sn_next + 1), Some buf).

Definition send_echo_response (sn : Z) : outcome (option bytes) :=
  '(write_ok, buf) ← gtpu_write_ie_recovery append_ok [] 0;
  if negb write_ok then ok None else
  let hdr := mk_gtpu_header (mk_flags GTPU_FLAGS_VERSION_V1 GTPU_FLAGS_GTP_PROTOCOL false true false) GTPU_MSG_ECHO_RESPONSE 0 0 sn 0
    no_more_extension_headers [] in
  '(write_ok, buf) ← gtpu_write_header append_ok buf hdr;
  if negb write_ok then ok None else ok (Some buf).

(** What a path management message leads to: the packet sent back. Error indications are read and only logged. *)
Definition echo_rx_handle_dissected (pdu : gtpu_dissected_pdu) : outcome (option bytes) :=
  let hdr := pdu_hdr pdu in
  if negb (teid hdr =? 0) then ok None
  else if negb (has_seq_number (flags hdr)) then ok None
  else if message_type hdr =? GTPU_MSG_ECHO_REQUEST then send_echo_response (seq_number hdr)
  else if message_type hdr =? GTPU_MSG_ERROR_INDICATION then
    msg ← gtpu_extract_msg pdu; _ ← gtpu_read_msg_error_indication msg; ok None
  else ok None.

Definition echo_rx_handle_pdu (buf : bytes) : outcome (option bytes) :=
  dissected_pdu ← gtpu_dissect_pdu buf;
  match dissected_pdu with None => ok None | Some pdu => echo_rx_handle_dissected pdu end.
End echo.
