(* ===== verification/GtpuPathProps.v ===== *)
(** * GTP-U path management: properties

    TEIDs are unique while they are in use; packets reach the tunnel of their TEID, in order; echo requests are answered. *)
From S2P Require Import Prelude BitEncoding BitStream BitFields NruPacking GtpuPdu GtpuPduProps GtpuPath.

(** ** TEIDs *)

(** What the pool promises, with the set [S] of the TEIDs in use. *)
Fixpoint teids_ok (max : Z) (S : gset Z) (l : list (teid_op * teid_result)) : Prop :=
  match l with
  | [] => True
  | (op_request, granted (Some t)) :: l => 1 <= t <= max /\ (t ∉ S) /\ teids_ok max ({[t]} ∪ S) l
  | (op_request, granted None) :: l => Z.of_nat (size S) = max /\ teids_ok max S l
  | (op_release t, freed b) :: l => b = bool_decide (t ∈ S) /\ teids_ok max (S ∖ {[t]}) l
  | _ => False
  end.

Record pool_inv (max : Z) (p : teid_pool) (S : gset Z) : Prop := {
  pool_max : max_nof_teids p = max;
  pool_next : 0 <= next_teid_idx p < max;
  pool_length : zlen (teid_bits p) = max;
  pool_bits : forall i, 0 <= i < max -> teid_bits p !! Z.to_nat i = Some (bool_decide (i + 1 ∈ S));
  pool_range : forall t, t ∈ S -> 1 <= t <= max;
  pool_count : nof_teids p = Z.of_nat (size S)
}.

Lemma pool_init max : 1 <= max -> pool_inv max (teid_pool_init max) ∅.
Proof.
  intros H. split; cbn [teid_pool_init max_nof_teids next_teid_idx teid_bits nof_teids]; [done|lia|rewrite length_replicate; lia| |set_solver|done].
  intros i Hi. rewrite lookup_replicate_2 by lia. by rewrite bool_decide_eq_false_2 by set_solver.
Qed.

Definition all_teids (max : Z) : gset Z := list_to_set (seqZ 1 max).

Lemma all_teids_size max : 0 <= max -> Z.of_nat (size (all_teids max)) = max.
Proof. intros H. unfold all_teids. rewrite size_list_to_set by apply NoDup_seqZ. rewrite length_seqZ. lia. Qed.

Lemma pool_size max p S : pool_inv max p S -> 0 <= Z.of_nat (size S) <= max.
Proof.
  intros Hp. pose proof (pool_next _ _ _ Hp). split; [lia|]. rewrite <- (all_teids_size max) by lia. apply inj_le, subseteq_size. intros t Ht%Hp.
  apply elem_of_list_to_set, elem_of_seqZ. lia.
Qed.

(** When not all are in use, one of the indices from [next_teid_idx] on is free. *)
Lemma pool_has_free max p S :
  pool_inv max p S -> Z.of_nat (size S) < max -> exists d, 0 <= d < max /\ (next_teid_idx p + d) mod max + 1 ∉ S.
Proof.
  intros Hp Hlt. pose proof (pool_next _ _ _ Hp) as Hn. assert (Hex : exists t, t ∈ all_teids max ∖ S).
  { apply set_choose_L. intros E. assert (size (all_teids max) <= size S)%nat by (apply subseteq_size; set_solver).
    pose proof (all_teids_size max). lia. }
  destruct Hex as (t & [Ht Hts]%elem_of_difference). apply elem_of_list_to_set, elem_of_seqZ in Ht.
  exists ((t - 1 - next_teid_idx p) mod max). split; [apply Z.mod_pos_bound; lia|]. rewrite Zplus_mod_idemp_r.
  replace (next_teid_idx p + (t - 1 - next_teid_idx p)) with (t - 1) by lia. rewrite Z.mod_small by lia. by replace (t - 1 + 1) with t by lia.
Qed.

Lemma find_free_ok max p S fuel n d :
  pool_inv max p S -> max <= 65536 -> 0 <= n <= d -> d < max -> (next_teid_idx p + d) mod max + 1 ∉ S -> d - n < Z.of_nat fuel ->
  exists idx, find_free fuel p n = ok (Some idx) /\ 0 <= idx < max /\ idx + 1 ∉ S.
Proof.
  intros Hp Hmax. revert n. induction fuel as [|fuel IH]; intros n Hn Hd Hfree Hf; [lia|]. cbn [find_free]. pose proof (pool_next _ _ _ Hp) as Hnext.
  rewrite (pool_max _ _ _ Hp). ztrue. unfold u32. rewrite (Z.mod_small (next_teid_idx p + n)) by lia.
  pose proof (Z.mod_pos_bound (next_teid_idx p + n) max ltac:(lia)) as Hb. 
  assert (E : u16 ((next_teid_idx p + n) mod max) = (next_teid_idx p + n) mod max) by (unfold u16; apply Z.mod_small; lia). rewrite E.
  rewrite (pool_bits _ _ _ Hp) by done. destruct (decide ((next_teid_idx p + n) mod max + 1 ∈ S)) as [Hin|Hout].
  - rewrite bool_decide_eq_true_2 by done. assert (n <> d) by (by intros ->). replace (u16 (n + 1)) with (n + 1) by (unfold u16; rewrite Z.mod_small; lia).
    apply IH; [lia|done|done|lia].
  - rewrite bool_decide_eq_false_2 by done. by eexists.
Qed.

Lemma pool_update max p S S' next b i :
  pool_inv max p S -> 0 <= i < max -> 0 <= next < max -> (i + 1 ∈ S' <-> b = true) -> (forall t, t <> i + 1 -> t ∈ S' <-> t ∈ S) ->
  pool_inv max (mk_teid_pool next (Z.of_nat (size S')) max (<[Z.to_nat i := b]> (teid_bits p))) S'.
Proof.
  intros Hp Hi Hnext Hb Hs. split; cbn [max_nof_teids next_teid_idx teid_bits nof_teids]; [done|done|rewrite length_insert; apply Hp| | |done].
  - intros j Hj. destruct (decide (j = i)) as [->|Hne].
    + rewrite list_lookup_insert_eq by (pose proof (pool_length _ _ _ Hp); lia). f_equal. destruct b; symmetry.
      * apply bool_decide_eq_true_2. by apply Hb.
      * apply bool_decide_eq_false_2. by intros ?%Hb.
    + rewrite list_lookup_insert_ne by lia. rewrite (pool_bits _ _ _ Hp) by done. f_equal. apply bool_decide_ext. symmetry. apply Hs. lia.
  - intros t Ht. destruct (decide (t = i + 1)) as [->|Hne]; [lia|]. apply (pool_range _ _ _ Hp). by apply Hs.
Qed.

Lemma request_ok max p S :
  pool_inv max p S -> max <= 65536 ->
  (Z.of_nat (size S) = max /\ request_teid p = ok (p, None)) \/
  (exists t p', request_teid p = ok (p', Some t) /\ 1 <= t <= max /\ (t ∉ S) /\ pool_inv max p' ({[t]} ∪ S)).
Proof.
  intros Hp Hmax. pose proof (pool_size _ _ _ Hp) as Hsz. pose proof (pool_next _ _ _ Hp) as Hnext. unfold request_teid, teid_pool_full.
  rewrite (pool_max _ _ _ Hp), (pool_count _ _ _ Hp). destruct (Z.leb_spec max (Z.of_nat (size S))); [left; split; [lia|done]|right].
  destruct (pool_has_free _ _ _ Hp) as (d & Hd & Hfree); [lia|].
  destruct (find_free_ok max p S (Datatypes.S (Z.to_nat max)) 0 d Hp Hmax) as (idx & -> & Hidx & Hfr); [lia|lia|done|lia|]. rewrite bind_ok.
  assert (Et : u32 (idx + GTPU_TEID_MIN) = idx + 1) by (unfold u32, GTPU_TEID_MIN; rewrite Z.mod_small; lia).
  rewrite Et. exists (idx + 1). eexists. split; [reflexivity|]. split; [lia|]. split; [done|].
  assert (Es : u32 (Z.of_nat (size S) + 1) = Z.of_nat (size ({[idx + 1]} ∪ S))).
  { rewrite size_union by set_solver. rewrite size_singleton. unfold u32. rewrite Z.mod_small; lia. }
  rewrite Es. apply (pool_update max p S); [done|done| |set_solver|set_solver]. apply Z.mod_pos_bound. lia.
Qed.

Lemma release_ok max p S t :
  pool_inv max p S -> max <= 65536 -> 1 <= t <= max ->
  exists p', release_teid p t = ok (p', bool_decide (t ∈ S)) /\ pool_inv max p' (S ∖ {[t]}).
Proof.
  intros Hp Hmax Ht. pose proof (pool_size _ _ _ Hp) as Hsz. unfold release_teid, GTPU_TEID_MIN.
  assert (E : u32 (t - 1) = t - 1) by (unfold u32; rewrite Z.mod_small; lia). rewrite E, (pool_bits _ _ _ Hp) by lia.
  replace (t - 1 + 1) with t by lia. destruct (decide (t ∈ S)) as [Hin|Hout].
  - rewrite bool_decide_eq_true_2 by done. eexists. split; [reflexivity|].
    assert (Es : u32 (nof_teids p - 1) = Z.of_nat (size (S ∖ {[t]}))).
    { rewrite size_difference, size_singleton by set_solver. rewrite (pool_count _ _ _ Hp).
      assert (size S <> 0)%nat by (apply size_non_empty_iff; set_solver). unfold u32. rewrite Z.mod_small; lia. }
    rewrite Es, (pool_max _ _ _ Hp). apply (pool_update max p S); [done|lia|apply Hp| |].
    + replace (t - 1 + 1) with t by lia. split; [set_solver|done].
    + intros t' Ht'. rewrite elem_of_difference, elem_of_singleton. split; [tauto|]. intros Hin'. split; [done|lia].
  - rewrite bool_decide_eq_false_2 by done. exists p. split; [done|]. rewrite difference_disjoint_L; [done|].
    apply disjoint_singleton_r. done.
Qed.

Lemma teid_run_ok max l p S :
  pool_inv max p S -> max <= 65536 -> (forall t, op_release t ∈ l -> 1 <= t <= max) ->
  exists p' rs, teid_run p l = ok (p', rs) /\ map fst rs = l /\ teids_ok max S rs.
Proof.
  revert p S. induction l as [|op l IH]; intros p S Hp Hmax Hl; [by eexists _, []|]. cbn [teid_run].
  assert (Hl' : forall t, op_release t ∈ l -> 1 <= t <= max) by (intros t Ht; apply Hl; by right). destruct op as [|t]; cbn [teid_step].
  - destruct (request_ok max p S Hp Hmax) as [(Hfull & ->)|(t & p1 & -> & Ht & Hts & Hp1)]; rewrite !bind_ok.
    + destruct (IH p S Hp Hmax Hl') as (p2 & rs & -> & E & Hrs). rewrite bind_ok. do 2 eexists. split; [reflexivity|]. cbn. by rewrite E.
    + destruct (IH p1 _ Hp1 Hmax Hl') as (p2 & rs & -> & E & Hrs). rewrite bind_ok. do 2 eexists. split; [reflexivity|]. cbn. by rewrite E.
  - destruct (release_ok max p S t Hp Hmax) as (p1 & -> & Hp1); [apply Hl; by left|]. rewrite !bind_ok.
    destruct (IH p1 _ Hp1 Hmax Hl') as (p2 & rs & -> & E & Hrs). rewrite bind_ok. do 2 eexists. split; [reflexivity|]. cbn. by rewrite E.
Qed.

(** C36: A pool of up to 65536 TEIDs behaves as a set: whatever the requests and releases of its TEIDs, each returns; a request is refused exactly when
    all are in use, otherwise it is granted a TEID of the range (never 0, the one of path management) that nobody uses; a release succeeds exactly when the
    TEID is in use. *)
Theorem teid_pool_refines_set (max : Z) (l : list teid_op) :
  1 <= max <= 65536 -> (forall t, op_release t ∈ l -> 1 <= t <= max) ->
  exists p rs, teid_run (teid_pool_init max) l = ok (p, rs) /\ map fst rs = l /\ teids_ok max ∅ rs.
Proof. intros [H1 H2] Hl. apply (teid_run_ok max); [by apply pool_init|done|done]. Qed.

(** ** A pool of more than 65536 TEIDs *)
Definition filled (max k : Z) : teid_pool := mk_teid_pool k k max (replicate (Z.to_nat k) true ++ replicate (Z.to_nat (max - k)) false).

Lemma filled_step max k : 65536 < max < 2 ^ 32 -> 0 <= k < 65536 -> request_teid (filled max k) = ok (filled max (k + 1), Some (k + 1)).
Proof.
  intros Hm Hk. unfold request_teid, teid_pool_full, filled. cbn [max_nof_teids nof_teids next_teid_idx teid_bits]. zfalse. cbn [find_free].
  cbn [max_nof_teids nof_teids next_teid_idx teid_bits]. ztrue.
  assert (E : u16 (u32 (k + 0) mod max) = k).
  { unfold u32, u16. rewrite Z.add_0_r, (Z.mod_small k (2 ^ 32)) by lia. rewrite (Z.mod_small k max) by lia. apply Z.mod_small. lia. }
  rewrite E, lookup_app_r by (rewrite length_replicate; lia). rewrite length_replicate, Nat.sub_diag, lookup_replicate_2 by lia. rewrite bind_ok.
  unfold u32, GTPU_TEID_MIN. rewrite (Z.mod_small (k + 1) (2 ^ 32)) by lia. rewrite (Z.mod_small (k + 1) max) by lia. do 3 f_equal.
  rewrite insert_app_r_alt by (rewrite length_replicate; lia). rewrite length_replicate, Nat.sub_diag.
  replace (Z.to_nat (max - k)) with (S (Z.to_nat (max - (k + 1)))) by lia. cbn [replicate insert list_insert].
  replace (Z.to_nat (k + 1)) with (Z.to_nat k + 1)%nat by lia. rewrite replicate_add, <- app_assoc. done.
Qed.

Lemma filled_run max n k : 65536 < max < 2 ^ 32 -> 0 <= k -> k + Z.of_nat n <= 65536 ->
  exists rs, teid_run (filled max k) (replicate n op_request) = ok (filled max (k + Z.of_nat n), rs).
Proof.
  intros Hm. revert k. induction n as [|n IH]; intros k Hk Hn; [exists []; by rewrite Z.add_0_r|]. cbn [replicate teid_run teid_step].
  rewrite filled_step, !bind_ok by lia. destruct (IH (k + 1)) as (rs & E); [lia..|]. rewrite E, bind_ok.
  replace (k + Z.of_nat (S n)) with (k + 1 + Z.of_nat n) by lia. by eexists.
Qed.

Lemma find_free_hangs p fuel n :
  65536 < max_nof_teids p -> (forall i, 0 <= i < 65536 -> teid_bits p !! Z.to_nat i = Some true) -> 0 <= n < 65536 ->
  find_free fuel p n = fail out_of_fuel.
Proof.
  intros Hm Hb. revert n. induction fuel as [|fuel IH]; intros n Hn; [done|]. cbn [find_free]. ztrue.
  assert (Hu : forall x, 0 <= u16 x < 65536) by (intros x; apply (Z.mod_pos_bound x (2 ^ 16)); done). rewrite Hb by done. by apply IH.
Qed.

(** C37: A pool for more than 65536 tunnels, as the CU-UP creates it (1024 UEs of 256 sessions), hands out 65536 TEIDs and not one more: its index is a
    [uint16_t], and the next request never leaves the loop, although the pool is not full. *)
Theorem teid_pool_hangs (max : Z) :
  65536 < max < 2 ^ 32 ->
  exists p rs, teid_run (teid_pool_init max) (replicate (Z.to_nat 65536) op_request) = ok (p, rs) /\ nof_teids p = 65536 /\ teid_pool_full p = false /\
    forall fuel, find_free fuel p 0 = fail out_of_fuel.
Proof.
  intros Hm. destruct (filled_run max (Z.to_nat 65536) 0 Hm) as (rs & E); [lia|lia|]. exists (filled max 65536), rs.
  split; [|split; [done|split]].
  - unfold teid_pool_init. unfold filled in E at 1. rewrite Z.sub_0_r in E. exact E.
  - unfold teid_pool_full, filled. cbn [max_nof_teids nof_teids]. apply Z.leb_gt. lia.
  - intros fuel. apply find_free_hangs; [cbn; lia| |lia]. intros i Hi. unfold filled. cbn [teid_bits].
    rewrite lookup_app_l by (rewrite length_replicate; lia). apply lookup_replicate_2. lia.
Qed.

(** ** The demultiplexer *)
Lemma read_teid_total pdu : exists r, gtpu_read_teid pdu = ok r.
Proof.
  unfold gtpu_read_teid, GTPU_BASE_HEADER_LEN. destruct (Z.ltb_spec (zlen pdu) 8); [by eexists|].
  destruct pdu as [|? [|? [|? [|? [|? [|? [|? [|? ?]]]]]]]]; cbn [length] in *; try lia. by eexists.
Qed.

Section routing.
Context (t e u : Z).

(** The tunnel [u] is the one of the TEID [t], in the executor [e]. *)
Record routed (d : gtpu_demux) : Prop := {
  rt_tunnel : teid_to_tunnel d !! t = Some (e, u);
  rt_only : forall t' x, teid_to_tunnel d !! t' = Some (x, u) -> t' = t;
  rt_tasks : forall x pdu, (t, pdu) ∈ tasks_of d x -> x = e
}.

Definition undisturbed (i : demux_input) : Prop :=
  match i with dmx_add _ _ tunnel => tunnel <> u | dmx_remove teid => teid <> t | _ => True end.

Definition of_teid (task : Z * bytes) : option bytes := if task.1 =? t then Some task.2 else None.
Definition waiting_for (d : gtpu_demux) : list bytes := omap of_teid (tasks_of d e).
Definition handed_to (outs : list (Z * bytes)) : list bytes := omap (fun o => if o.1 =? u then Some o.2 else None) outs.

(** The packets for [t] that its executor takes. *)
Definition accepted_for (i : demux_input) : list bytes :=
  match i with
  | dmx_pdu true pdu => match gtpu_read_teid pdu with ok (Some t') => if t' =? t then [pdu] else [] | _ => [] end
  | _ => []
  end.

Lemma tasks_insert m ds x l y : tasks_of (mk_demux m (<[x := l]> ds)) y = if decide (y = x) then l else default [] (ds !! y).
Proof. unfold tasks_of. cbn [deferred]. destruct (decide (y = x)) as [->|]; [by rewrite lookup_insert_eq|by rewrite lookup_insert_ne]. Qed.

Lemma routed_pdu d accepted pdu :
  routed d -> exists d', demux_handle_pdu false accepted d pdu = ok d' /\ routed d' /\ waiting_for d' = waiting_for d ++ accepted_for (dmx_pdu accepted pdu).
Proof.
  intros Hd. unfold demux_handle_pdu, accepted_for. destruct (read_teid_total pdu) as (r & ->). rewrite bind_ok.
  assert (Hsame : forall b : bool, waiting_for d = waiting_for d ++ (if b then [] else [])) by (intros []; by rewrite app_nil_r).
  destruct r as [t'|]; [|exists d; split; [done|split; [done|]]; destruct accepted; by rewrite app_nil_r].
  destruct (teid_to_tunnel d !! t') as [[x w]|] eqn:E.
  2: { exists d. split; [done|]. split; [done|]. destruct accepted; [|by rewrite app_nil_r]. destruct (Z.eqb_spec t' t) as [->|]; [|by rewrite app_nil_r].
    rewrite (rt_tunnel _ Hd) in E. done. }
  destruct accepted; [|exists d; split; [done|split; [done|by rewrite app_nil_r]]]. eexists. split; [reflexivity|]. split.
  - split; cbn [teid_to_tunnel]; [apply Hd|apply Hd|]. intros y p. rewrite tasks_insert. case_decide as Hy; [|apply Hd]. subst y.
    rewrite elem_of_app, list_elem_of_singleton. intros [Hin|[= <- _]]; [by eapply Hd|]. rewrite (rt_tunnel _ Hd) in E. congruence.
  - unfold waiting_for. rewrite tasks_insert. destruct (Z.eqb_spec t' t) as [->|Hne].
    + rewrite (rt_tunnel _ Hd) in E. injection E as <- <-. rewrite decide_True by done. rewrite omap_app. cbn. unfold of_teid. cbn. by rewrite Z.eqb_refl.
    + rewrite app_nil_r. case_decide as Hx; [|done]. subst x. rewrite omap_app. cbn. unfold of_teid at 2. cbn. rewrite (proj2 (Z.eqb_neq _ _)) by done.
      by rewrite app_nil_r.
Qed.

Lemma routed_task d x :
  routed d -> routed (run_task d x).1 /\ handed_to (option_list (run_task d x).2) ++ waiting_for (run_task d x).1 = waiting_for d.
Proof.
  intros Hd. unfold run_task. destruct (tasks_of d x) as [|[t' pdu] tasks] eqn:Ex; [done|]. cbn [fst snd]. split.
  - split; cbn [teid_to_tunnel]; [apply Hd|apply Hd|]. intros y p. rewrite tasks_insert. case_decide as Hy; [|apply Hd]. subst y.
    intros Hin. apply (rt_tasks _ Hd x p). rewrite Ex. by right.
  - unfold handle_pdu_impl, waiting_for. rewrite tasks_insert. destruct (decide (t' = t)) as [->|Hne].
    + assert (x = e) as -> by (apply (rt_tasks _ Hd x pdu); rewrite Ex; by left). rewrite (rt_tunnel _ Hd), decide_True by done. rewrite Ex.
      cbn. unfold of_teid at 2. cbn. by rewrite !Z.eqb_refl.
    + assert (Hh : handed_to (option_list (match teid_to_tunnel d !! t' with None => None | Some (_, w) => Some (w, pdu) end)) = []).
      { destruct (teid_to_tunnel d !! t') as [[y w]|] eqn:E; [|done]. cbn. destruct (Z.eqb_spec w u) as [->|]; [|done].
        destruct (Hne (rt_only _ Hd _ _ E)). }
      rewrite Hh. cbn [app]. case_decide as Hx; [|done]. subst x. rewrite Ex. cbn. unfold of_teid at 2. cbn. by rewrite (proj2 (Z.eqb_neq _ _)).
Qed.

Lemma routed_control d i :
  routed d -> undisturbed i -> match i with dmx_add _ _ _ | dmx_remove _ => True | _ => False end ->
  exists d', demux_step d i = ok (d', None) /\ routed d' /\ waiting_for d' = waiting_for d.
Proof.
  intros Hd Hu Hi. destruct i as [t' x w|t'| |]; try done; cbn [demux_step undisturbed] in *; eexists; (split; [reflexivity|]).
  - unfold add_tunnel. destruct (teid_to_tunnel d !! t') as [?|] eqn:E; [done|]. cbn [fst]. split; [|done]. split; cbn [teid_to_tunnel].
    + rewrite lookup_insert_ne; [apply Hd|]. intros ->. rewrite (rt_tunnel _ Hd) in E. done.
    + intros t2 y. destruct (decide (t2 = t')) as [->|]; [rewrite lookup_insert_eq; congruence|]. rewrite lookup_insert_ne by done. apply Hd.
    + apply Hd.
  - unfold remove_tunnel. destruct (teid_to_tunnel d !! t') as [?|]; [|done]. cbn [fst]. split; [|done]. split; cbn [teid_to_tunnel].
    + rewrite lookup_delete_ne by done. apply Hd.
    + intros t2 y [_ H]%lookup_delete_Some. by eapply Hd.
    + apply Hd.
Qed.

Lemma routed_step d i :
  routed d -> undisturbed i ->
  exists d' o, demux_step d i = ok (d', o) /\ routed d' /\ handed_to (option_list o) ++ waiting_for d' = waiting_for d ++ accepted_for i.
Proof.
  intros Hd Hu. destruct i as [t' x w|t'|accepted pdu|x].
  - destruct (routed_control d _ Hd Hu I) as (d' & E & Hd' & Ew). exists d', None. split; [exact E|]. split; [exact Hd'|]. cbn. by rewrite Ew, app_nil_r.
  - destruct (routed_control d _ Hd Hu I) as (d' & E & Hd' & Ew). exists d', None. split; [exact E|]. split; [exact Hd'|]. cbn. by rewrite Ew, app_nil_r.
  - destruct (routed_pdu d accepted pdu Hd) as (d' & E & Hd' & Ew). cbn [demux_step]. rewrite E, bind_ok. do 2 eexists. by split.
  - destruct (routed_task d x Hd) as [Hd' Ew]. cbn [demux_step]. destruct (run_task d x) as [d' o] eqn:E. do 2 eexists. split; [reflexivity|].
    split; [exact Hd'|]. cbn [accepted_for]. by rewrite app_nil_r.
Qed.
End routing.

(** As long as the tunnel is there, and whatever happens to other tunnels and executors meanwhile, the demultiplexer hands the tunnel of a TEID exactly
    the packets that carry the TEID and that its executor took, each once and in the order in which they arrived; what is not there yet waits in the
    executor. *)
Theorem demux_in_order (t e u : Z) (l : list demux_input) (d : gtpu_demux) :
  routed t e u d -> Forall (undisturbed t u) l ->
  exists d' outs, demux_run d l = ok (d', outs) /\ routed t e u d' /\
    handed_to u outs ++ waiting_for t e d' = waiting_for t e d ++ concat (accepted_for t <$> l).
Proof.
  revert d. induction l as [|i l IH]; intros d Hd Hl; [exists d, []; by rewrite app_nil_r|]. apply Forall_cons in Hl as [Hi Hl].
  destruct (routed_step t e u d i Hd Hi) as (d1 & o & E & Hd1 & Ew). destruct (IH d1 Hd1 Hl) as (d2 & outs & E2 & Hd2 & Ew2).
  cbn [demux_run]. rewrite E, bind_ok, E2, bind_ok. do 2 eexists. split; [reflexivity|]. split; [exact Hd2|].
  unfold handed_to in *. rewrite omap_app, <- app_assoc, Ew2, fmap_cons. cbn [concat]. by rewrite !app_assoc, Ew.
Qed.

(** ** Echo *)
Local Abbreviation mem := (fun _ => true).

Definition echo_header (type sn : Z) : gtpu_header :=
  mk_gtpu_header (mk_flags GTPU_FLAGS_VERSION_V1 GTPU_FLAGS_GTP_PROTOCOL false true false) type 0 0 sn 0 no_more_extension_headers [].

Lemma echo_header_ok type sn : gtpu_supported_msg_type_check type = true -> fits 16 sn -> header_ok (echo_header type sn).
Proof. intros Ht Hs. by constructor. Qed.

(** The packet takes the SN to the peer, and the payload. *)
Lemma echo_packet type sn payload :
  gtpu_supported_msg_type_check type = true -> fits 16 sn -> is_bytes payload ->
  exists raw p, gtpu_write_header mem payload (echo_header type sn) = ok (true, raw) /\ is_bytes raw /\ gtpu_dissect_pdu raw = ok (Some p) /\
    message_type (pdu_hdr p) = type /\ teid (pdu_hdr p) = 0 /\ has_seq_number (flags (pdu_hdr p)) = true /\ seq_number (pdu_hdr p) = sn /\
    gtpu_extract_msg p = ok payload.
Proof.
  intros Ht Hs Hp. destruct (write_dissect _ payload (echo_header_ok type sn Ht Hs) Hp) as (raw & p & E & Hr & _ & Ed & Eh & _ & Ex).
  exists raw, p. rewrite Eh. split; [exact E|]. split; [exact Hr|]. split; [exact Ed|]. split; [done|]. split; [done|]. split; [done|]. split; [done|exact Ex].
Qed.

Definition recovery_ie : bytes := [14; 0].

Lemma echo_response_sent sn :
  fits 16 sn -> exists raw p, send_echo_response mem sn = ok (Some raw) /\ gtpu_dissect_pdu raw = ok (Some p) /\
    message_type (pdu_hdr p) = GTPU_MSG_ECHO_RESPONSE /\ teid (pdu_hdr p) = 0 /\ has_seq_number (flags (pdu_hdr p)) = true /\
    seq_number (pdu_hdr p) = sn /\ gtpu_extract_msg p = ok recovery_ie.
Proof.
  intros Hs. assert (Hie : gtpu_write_ie_recovery mem [] 0 = ok (true, recovery_ie)) by (by vm_compute).
  destruct (echo_packet GTPU_MSG_ECHO_RESPONSE sn recovery_ie eq_refl Hs ltac:(by repeat constructor)) as (raw & p & E & _ & H).
  exists raw, p. split; [|exact H]. unfold send_echo_response. rewrite Hie, bind_ok. cbn [negb]. cbv zeta. fold (echo_header GTPU_MSG_ECHO_RESPONSE sn).
  by rewrite E, bind_ok.
Qed.

Definition is_echo_request (buf : bytes) (sn : Z) : Prop :=
  exists p, gtpu_dissect_pdu buf = ok (Some p) /\ teid (pdu_hdr p) = 0 /\ has_seq_number (flags (pdu_hdr p)) = true /\
    message_type (pdu_hdr p) = GTPU_MSG_ECHO_REQUEST /\ seq_number (pdu_hdr p) = sn.

Lemma echo_rx_cases buf :
  is_bytes buf -> (exists sn, fits 16 sn /\ is_echo_request buf sn /\ echo_rx_handle_pdu mem buf = send_echo_response mem sn) \/
    ((forall sn, ~ is_echo_request buf sn) /\ echo_rx_handle_pdu mem buf = ok None).
Proof.
  intros Hb. destruct (dissect_ok buf Hb) as (r & Ed & Hp). unfold echo_rx_handle_pdu, is_echo_request. rewrite Ed, bind_ok. destruct r as [p|].
  2: { right. split; [|done]. by intros sn (p & E & _). }
  destruct (Hp p eq_refl) as (Hbuf & Hlen & _ & Hsn). unfold echo_rx_handle_dissected. destruct (Z.eqb_spec (teid (pdu_hdr p)) 0) as [Et|Et]; cbn [negb].
  2: { right. split; [|done]. intros sn (q & [= <-] & E & _). done. }
  destruct (has_seq_number (flags (pdu_hdr p))) eqn:Es; cbn [negb].
  2: { right. split; [|done]. intros sn (q & [= <-] & _ & E & _). congruence. }
  destruct (Z.eqb_spec (message_type (pdu_hdr p)) GTPU_MSG_ECHO_REQUEST) as [Em|Em].
  { left. exists (seq_number (pdu_hdr p)). split; [exact Hsn|]. split; [|done]. exists p. by split_and!. }
  right. split; [intros sn (q & [= <-] & _ & _ & E & _); done|]. destruct (_ =? GTPU_MSG_ERROR_INDICATION); [|done].
  destruct p as [pb h n]. cbn [pdu_buf pdu_hdr_len pdu_hdr] in *. subst pb. rewrite (extract_ok buf h n Hlen), bind_ok.
  destruct (error_indication_total (drop (Z.to_nat n) buf)) as (i & -> & _); [by apply Forall_drop|]. by rewrite bind_ok.
Qed.

(** Whatever packet arrives at the echo entity, it returns. An echo request of TEID 0 with a sequence number, and nothing else, is answered: with an
    echo response of the same sequence number that carries the recovery information element. *)
Theorem echo_answers_requests (buf : bytes) :
  is_bytes buf ->
  ((forall sn, ~ is_echo_request buf sn) /\ echo_rx_handle_pdu (fun _ => true) buf = ok None) \/
  (exists sn raw p, is_echo_request buf sn /\ echo_rx_handle_pdu (fun _ => true) buf = ok (Some raw) /\ gtpu_dissect_pdu raw = ok (Some p) /\
    message_type (pdu_hdr p) = GTPU_MSG_ECHO_RESPONSE /\ teid (pdu_hdr p) = 0 /\ has_seq_number (flags (pdu_hdr p)) = true /\
    seq_number (pdu_hdr p) = sn /\ gtpu_extract_msg p = ok recovery_ie).
Proof.
  intros Hb. destruct (echo_rx_cases buf Hb) as [(sn & Hs & Hr & E)|H]; [right|by left].
  destruct (echo_response_sent sn Hs) as (raw & p & E2 & H). exists sn, raw, p. split; [exact Hr|]. split; [by rewrite E|exact H].
Qed.

(** A request sent by a peer of the same kind is one. *)
Lemma echo_request_is_request sn_next :
  0 <= sn_next -> exists raw, send_echo_request mem sn_next = ok (u32 (sn_next + 1), Some raw) /\ is_echo_request raw (u16 sn_next).
Proof.
  intros H0. assert (Hs : fits 16 (u16 sn_next)) by (apply (Z.mod_pos_bound sn_next (2 ^ 16)); done).
  destruct (echo_packet GTPU_MSG_ECHO_REQUEST (u16 sn_next) [] eq_refl Hs ltac:(constructor)) as (raw & p & E & _ & Ed & Em & Et & Ef & Esn & _).
  exists raw. split; [|exists p; by split_and!]. unfold send_echo_request. cbv zeta. fold (echo_header GTPU_MSG_ECHO_REQUEST (u16 sn_next)).
  by rewrite E, bind_ok.
Qed.

(** ** Examples *)

(** A task that waited while its TEID was given to another tunnel hands the packet to the new tunnel, in the executor of the old one. *)
Example demux_stale_task :
  let pdu := [48; 255; 0; 0; 0; 0; 0; 7] in
  (r ← demux_run demux_init [dmx_add 7 1 10; dmx_pdu true pdu; dmx_remove 7; dmx_add 7 2 20; dmx_task 1]; ok r.2) = ok [(20, pdu)].
Proof. by vm_compute. Qed.

Example teid_pool_refines_set_witness :
  exists p rs, teid_run (teid_pool_init 2) [op_request; op_request; op_request; op_release 1; op_request] = ok (p, rs) /\
    map fst rs = [op_request; op_request; op_request; op_release 1; op_request] /\ teids_ok 2 ∅ rs.
Proof.
  apply teid_pool_refines_set; [lia|]. intros t Ht. repeat (apply elem_of_cons in Ht as [Ht|Ht]; [first [discriminate Ht | injection Ht as ->; lia]|]).
  by apply elem_of_nil in Ht.
Defined.

(** The pools of the CU-UP. *)
Example teid_pool_hangs_witness :
  exists p rs, teid_run (teid_pool_init 262144) (replicate (Z.to_nat 65536) op_request) = ok (p, rs) /\ nof_teids p = 65536 /\ teid_pool_full p = false /\
    forall fuel, find_free fuel p 0 = fail out_of_fuel.
Proof. apply teid_pool_hangs. lia. Defined.

Definition ex_demux : gtpu_demux := mk_demux {[7 := (1, 10); 8 := (1, 20)]} ∅.

Example demux_in_order_witness :
  exists d outs, demux_run ex_demux [dmx_pdu true [48; 255; 0; 0; 0; 0; 0; 7]; dmx_pdu true [48; 255; 0; 0; 0; 0; 0; 8]; dmx_remove 8; dmx_task 1] = ok (d, outs) /\
    routed 7 1 10 d /\ handed_to 10 outs ++ waiting_for 7 1 d = waiting_for 7 1 ex_demux ++
      concat (accepted_for 7 <$> [dmx_pdu true [48; 255; 0; 0; 0; 0; 0; 7]; dmx_pdu true [48; 255; 0; 0; 0; 0; 0; 8]; dmx_remove 8; dmx_task 1]).
Proof.
  apply demux_in_order; [|by repeat constructor]. split; [done| |].
  - intros t x. cbn [ex_demux teid_to_tunnel]. destruct (decide (t = 7)) as [->|]; [done|]. rewrite lookup_insert_ne by done.
    destruct (decide (t = 8)) as [->|]; [rewrite lookup_singleton_eq; congruence|]. rewrite lookup_singleton_ne by done. done.
  - intros x pdu Hin. unfold tasks_of in Hin. cbn [ex_demux deferred] in Hin. rewrite lookup_empty in Hin. by apply elem_of_nil in Hin.
Defined.

Definition ex_echo_request : bytes := [50; 1; 0; 4; 0; 0; 0; 0; 18; 52; 0; 0].

Example echo_answers_requests_witness :
  echo_rx_handle_pdu (fun _ => true) ex_echo_request = ok (Some [50; 2; 0; 6; 0; 0; 0; 0; 18; 52; 0; 0; 14; 0]) /\
  (((forall sn, ~ is_echo_request ex_echo_request sn) /\ echo_rx_handle_pdu (fun _ => true) ex_echo_request = ok None) \/
   (exists sn raw p, is_echo_request ex_echo_request sn /\ echo_rx_handle_pdu (fun _ => true) ex_echo_request = ok (Some raw) /\
     gtpu_dissect_pdu raw = ok (Some p) /\
     message_type (pdu_hdr p) = GTPU_MSG_ECHO_RESPONSE /\ teid (pdu_hdr p) = 0 /\ has_seq_number (flags (pdu_hdr p)) = true /\
     seq_number (pdu_hdr p) = sn /\ gtpu_extract_msg p = ok recovery_ie)).
Proof.
  split; [by vm_compute|]. apply echo_answers_requests. repeat constructor; done.
Defined.
