(* ===== verification/MacUlPdu.v ===== *)
(** * UL-SCH MAC PDUs

    Logical channel identities ([lib/mac/mac_ul/lcid_ul_sch.h]), subPDUs and PDUs ([mac_ul_sch_pdu.h], [mac_ul_sch_pdu.cpp]) and the control elements a UE sends
    ([ul_bsr.h], [ul_bsr.cpp], [ul_phr.h]); [rnti.h]. *)
From S2P Require Import Prelude.

(** ** RNTIs *)
Definition INVALID_RNTI : Z := 0.
Definition MIN_CRNTI : Z := 1.
Definition MAX_CRNTI : Z := 0xffef.

Definition is_crnti (rnti : Z) : bool := (rnti <=? MAX_CRNTI) && (MIN_CRNTI <=? rnti).

(** ** Logical channel identities *)
Definition CCCH_SIZE_64 : Z := 0.
Definition LCID1 : Z := 1.
Definition LCID32 : Z := 32.
Definition MIN_RESERVED : Z := 33.
Definition MAX_RESERVED : Z := 51.
Definition CCCH_SIZE_48 : Z := 52.
Definition BIT_RATE_QUERY : Z := 53.
Definition SE_PHR : Z := 57.
Definition CRNTI : Z := 58.
Definition SHORT_TRUNC_BSR : Z := 59.
Definition LONG_TRUNC_BSR : Z := 60.
Definition SHORT_BSR : Z := 61.
Definition LONG_BSR : Z := 62.
Definition PADDING : Z := 63.

Definition ul_is_ccch (lcid : Z) : bool := (lcid =? CCCH_SIZE_48) || (lcid =? CCCH_SIZE_64).
Definition ul_is_ce (lcid : Z) : bool := (lcid <=? PADDING) && (BIT_RATE_QUERY <=? lcid).
Definition ul_is_sdu (lcid : Z) : bool := (lcid <=? LCID32) && (LCID1 <=? lcid).
Definition ul_is_valid_lcid (lcid : Z) : bool := (lcid <=? PADDING) && ((lcid <? MIN_RESERVED) || (MAX_RESERVED <? lcid)).
Definition ul_is_var_len_ce (lcid : Z) : bool := (lcid =? LONG_TRUNC_BSR) || (lcid =? LONG_BSR).
Definition ul_has_length_field (lcid : Z) : bool := if ul_is_ccch lcid then false else ul_is_sdu lcid || ul_is_var_len_ce lcid.

Definition ul_sizeof_ce (lcid : Z) : Z :=
  if lcid =? CCCH_SIZE_48 then 6
  else if lcid =? CCCH_SIZE_64 then 8
  else if lcid =? CRNTI then 2
  else if (lcid =? SHORT_BSR) || (lcid =? SHORT_TRUNC_BSR) then 1
  else if lcid =? SE_PHR then 2
  else if (lcid =? LONG_BSR) || (lcid =? LONG_TRUNC_BSR) then 1
  else 0.

(** ** SubPDUs *)
Record mac_ul_sch_subpdu := mk_subpdu { sub_lcid : Z; sub_header_length : Z; sub_F_bit : bool; sub_payload : bytes }.

#[export] Instance mac_ul_sch_subpdu_eq_dec : EqDecision mac_ul_sch_subpdu.
Proof. solve_decision. Defined.

Definition total_length (s : mac_ul_sch_subpdu) : Z := sub_header_length s + zlen (sub_payload s).

(** A reader is the octets it has not passed; reading at its end is an access outside of the buffer. *)
Definition read_octet (reader : bytes) : outcome (Z * bytes) :=
  match reader with [] => fail invalid_access | b :: reader => ok (b, reader) end.

Definition split_and_advance (n : Z) (reader : bytes) : outcome (bytes * bytes) :=
  if zlen reader <? n then fail invalid_access else ok (take (Z.to_nat n) reader, drop (Z.to_nat n) reader).

(** The L field: one octet, or two if F is set. *)
Definition unpack_length (F_bit : bool) (reader : bytes) : outcome (Z * Z * bytes) :=
  '(l, reader) ← read_octet reader;
  if F_bit then '(b, reader) ← read_octet reader; ok (Z.lor (u32 (Z.shiftl l 8)) (Z.land b 0xff), 3, reader)
  else ok (l, 2, reader).

(** [None]: the error that is returned; the reader behind the subPDU otherwise. *)
Definition subpdu_unpack (reader : bytes) : outcome (option (mac_ul_sch_subpdu * bytes)) :=
  let subpdu_len := zlen reader in
  if subpdu_len =? 0 then ok None
  else
    '(b, reader) ← read_octet reader;
    let F_bit := 0 <? Z.land b 0x40 in
    let lcid := Z.land b 0x3f in
    _ ← srsran_assert (lcid <=? PADDING);
    if negb (ul_is_valid_lcid lcid) then ok None
    else if ul_has_length_field lcid then
      if subpdu_len <? (if F_bit then 3 else 2) then ok None
      else
        '(sdu_length, header_length, reader) ← unpack_length F_bit reader;
        if subpdu_len <? header_length + sdu_length then ok None
        else '(payload, reader) ← split_and_advance sdu_length reader; ok (Some (mk_subpdu lcid header_length F_bit payload, reader))
    else if lcid =? PADDING then ok (Some (mk_subpdu lcid 1 F_bit reader, []))
    else
      let sdu_length := ul_sizeof_ce lcid in
      if subpdu_len <? 1 + sdu_length then ok None
      else '(payload, reader) ← split_and_advance sdu_length reader; ok (Some (mk_subpdu lcid 1 F_bit payload, reader)).

(** ** PDUs *)
Definition MAX_SUBPDUS_PER_PDU : Z := 4096.

(** The loop of [mac_ul_sch_pdu::unpack]; the list of subPDUs and whether the call succeeds. *)
Fixpoint unpack_subpdus (fuel : nat) (reader : bytes) (subpdus : list mac_ul_sch_subpdu) : outcome (list mac_ul_sch_subpdu * bool) :=
  match fuel with
  | O => fail out_of_fuel
  | S fuel =>
      if zlen reader =? 0 then ok (subpdus, true)
      else if MAX_SUBPDUS_PER_PDU <=? zlen subpdus then ok (subpdus, true)
      else
        ret ← subpdu_unpack reader;
        match ret with
        | None => ok ([], false)
        | Some (subpdu, reader) => unpack_subpdus fuel reader (subpdus ++ [subpdu])
        end
  end.

Definition mac_ul_sch_pdu_unpack (payload : bytes) : outcome (list mac_ul_sch_subpdu * bool) :=
  unpack_subpdus (S (length payload)) payload [].

(** ** Control elements *)

(** [le16toh] is the identity on a little-endian host. *)
Definition decode_crnti_ce (payload : bytes) : Z :=
  match payload with b0 :: b1 :: _ => u16 (Z.lor (Z.shiftl b0 8) b1) | _ => INVALID_RNTI end.

Inductive bsr_format := short_bsr | long_bsr | short_trunc_bsr | long_trunc_bsr.
#[export] Instance bsr_format_eq_dec : EqDecision bsr_format.
Proof. solve_decision. Defined.

Record lcg_bsr_report := mk_lcg_bsr { lcg_id : Z; buffer_size : Z }.
#[export] Instance lcg_bsr_report_eq_dec : EqDecision lcg_bsr_report.
Proof. solve_decision. Defined.

Definition MAX_NOF_LCGS : Z := 8.

Definition decode_sbsr (payload : bytes) : outcome lcg_bsr_report :=
  '(b, _) ← read_octet payload;
  ok (mk_lcg_bsr (Z.shiftr (Z.land b 0xe0) 5) (Z.land b 0x1f)).

(** The loop of [decode_lbsr] over the LCGs; [None]: the BSR is rejected. *)
Fixpoint decode_lcgs (n : nat) (format : bsr_format) (bitmap i : Z) (reader : bytes) (l : list lcg_bsr_report) : option (list lcg_bsr_report) :=
  match n with
  | O => Some l
  | S n =>
      if negb (Z.land bitmap (Z.shiftl 1 i) =? 0) then
        match reader with
        | b :: reader => if b =? 255 then None else decode_lcgs n format bitmap (i + 1) reader (l ++ [mk_lcg_bsr i b])
        | [] =>
            if bool_decide (format = long_trunc_bsr) then decode_lcgs n format bitmap (i + 1) [] (l ++ [mk_lcg_bsr i 64]) else None
        end
      else if bool_decide (format = long_trunc_bsr) then decode_lcgs n format bitmap (i + 1) reader (l ++ [mk_lcg_bsr i 0])
      else decode_lcgs n format bitmap (i + 1) reader l
  end.

(** [empty_lbsr_report] *)
Definition empty_lbsr_report : list lcg_bsr_report := (fun i => mk_lcg_bsr i 0) <$> seqZ 0 8.

Definition decode_lbsr (format : bsr_format) (payload : bytes) : outcome (option (list lcg_bsr_report)) :=
  '(bitmap, reader) ← read_octet payload;
  if bitmap =? 0 then ok (Some empty_lbsr_report) else ok (decode_lcgs (Z.to_nat MAX_NOF_LCGS) format bitmap 0 reader []).

(** ** Buffer size levels *)
Definition buffer_size_levels_5bit : list Z :=
  [0; 10; 14; 20; 28; 38; 53; 74; 102; 142; 198; 276; 384; 535; 745; 1038; 1446; 2014; 2806; 3909; 5446; 7587; 10570;
    14726; 20516; 28581; 39818; 55474; 77284; 107669; 150000; 150000].

Definition buffer_size_levels_8bit : list Z :=
  [0; 10; 11; 12; 13; 14; 15; 16; 17; 18; 19; 20; 22; 23; 25; 26; 28; 30; 32; 34; 36; 38; 40; 43; 46; 49; 52; 55; 59; 62;
    66; 71; 75; 80; 85; 91; 97; 103; 110; 117; 124; 132; 141; 150; 160; 170; 181; 193; 205; 218; 233; 248; 264; 281; 299;
    318; 339; 361; 384; 409; 436; 464; 494; 526; 560; 597; 635; 677; 720; 767; 817; 870; 926; 987; 1051; 1119; 1191; 1269;
    1351; 1439; 1532; 1631; 1737; 1850; 1970; 2098; 2234; 2379; 2533; 2698; 2873; 3059; 3258; 3469; 3694; 3934; 4189; 4461;
    4751; 5059; 5387; 5737; 6109; 6506; 6928; 7378; 7857; 8367; 8910; 9488; 10104; 10760; 11458; 12202; 12994; 13838;
    14736; 15692; 16711; 17795; 18951; 20181; 21491; 22885; 24371; 25953; 27638; 29431; 31342; 33376; 35543; 37850; 40307;
    42923; 45709; 48676; 51836; 55200; 58784; 62599; 66663; 70990; 75598; 80505; 85730; 91295; 97221; 103532; 110252;
    117409; 125030; 133146; 141789; 150992; 160793; 171231; 182345; 194182; 206786; 220209; 234503; 249725; 265935; 283197;
    301579; 321155; 342002; 364202; 387842; 413018; 439827; 468377; 498780; 531156; 565634; 602350; 641449; 683087; 727427;
    774645; 824928; 878475; 935498; 996222; 1060888; 1129752; 1203085; 1281179; 1364342; 1452903; 1547213; 1647644;
    1754595; 1868488; 1989774; 2118933; 2256475; 2402946; 2558924; 2725027; 2901912; 3090279; 3290873; 3504487; 3731968;
    3974215; 4232186; 4506902; 4799451; 5110989; 5442750; 5796046; 6172275; 6572925; 6999582; 7453933; 7937777; 8453028;
    9001725; 9586039; 10208280; 10870913; 11576557; 12328006; 13128233; 13980403; 14887889; 15854280; 16883401; 17979324;
    19146385; 20389201; 21712690; 23122088; 24622972; 26221280; 27923336; 29735875; 31666069; 33721553; 35910462; 38241455;
    40723756; 43367187; 46182206; 49179951; 52372284; 55771835; 59392055; 63247269; 67352729; 71724679; 76380419; 81338368;
    81338368].

Definition max_offset : Z := 150000.

(** The level of an index, and an offset at and above the last one. *)
Definition buffer_level (levels : list Z) (buff_size_index : Z) : outcome Z :=
  let idx := Z.min buff_size_index (zlen levels - 1) in
  let offset := if zlen levels - 1 <=? buff_size_index then max_offset else 0 in
  match levels !! Z.to_nat idx with None => fail invalid_access | Some level => ok (u32 (level + offset)) end.

Definition buff_size_field_to_bytes (buff_size_index : Z) (format : bsr_format) : outcome Z :=
  if buff_size_index =? 0 then ok 0
  else
    match format with
    | short_bsr | short_trunc_bsr => buffer_level buffer_size_levels_5bit buff_size_index
    | long_bsr | long_trunc_bsr => buffer_level buffer_size_levels_8bit buff_size_index
    end.

(** ** Power headroom reports *)

(** An [unsigned] converted to [int]. *)
Definition int_of_unsigned (x : Z) : Z := if u32 x <? 2 ^ 31 then u32 x else u32 x - 2 ^ 32.

Record interval := mk_interval { start_ : Z; stop_ : Z }.

(** The constructor of [interval<int>] on [unsigned] points. *)
Definition interval_ctor (start_point stop_point : Z) : outcome interval :=
  let i := mk_interval (int_of_unsigned start_point) (int_of_unsigned stop_point) in
  _ ← srsran_assert (start_ i <=? stop_ i);
  ok i.

Definition ph_min_db_value : Z := -32.
Definition ph_max_db_value : Z := 38.

Definition ph_to_db_range (ph : Z) : outcome interval :=
  if ph =? 0 then interval_ctor ph_min_db_value ph_min_db_value
  else if ph =? 63 then interval_ctor ph_max_db_value ph_max_db_value
  else if ph <? 55 then interval_ctor (ph_min_db_value + ph - 1) (ph_min_db_value + ph)
  else interval_ctor (ph_min_db_value + ph - 1) (ph_min_db_value + ph + 1).

Definition p_cmax_min_db_value : Z := -29.
Definition p_cmax_max_db_value : Z := 33.

Definition p_cmax_to_dbm_range (p_cmax : Z) : outcome interval :=
  if p_cmax =? 0 then interval_ctor p_cmax_min_db_value p_cmax_min_db_value
  else if p_cmax =? 63 then interval_ctor p_cmax_max_db_value p_cmax_max_db_value
  else interval_ctor (p_cmax_min_db_value + p_cmax - 1) (p_cmax_min_db_value + p_cmax).

(** The report of the serving cell 0, of type 1. *)
Record cell_ph_report := mk_ph_report { ph_range : interval; p_cmax_range : interval }.

Definition decode_se_phr (payload : bytes) : outcome cell_ph_report :=
  '(b0, reader) ← read_octet payload;
  '(b1, _) ← read_octet reader;
  ph ← ph_to_db_range (Z.land b0 0x3f);
  p_cmax ← p_cmax_to_dbm_range (Z.land b1 0x3f);
  ok (mk_ph_report ph p_cmax).
