(* ===== verification/MacUlProps.v ===== *)
(** * UL-SCH MAC PDUs: properties

    The format of TS 38.321, 6.1.2, as a relation between subPDUs and octets, and that unpacking decides it. *)
From S2P Require Import Prelude MacUlPdu.

(** ** The format *)

(** R (ignored), F and LCID. *)
Definition subheader_octet (r : Z) (F_bit : bool) (lcid : Z) : Z := r * 128 + (if F_bit then 64 else 0) + lcid.

Inductive subpdu_octets : mac_ul_sch_subpdu -> bytes -> Prop :=
| octets_8bit r lcid payload :
    0 <= r <= 1 -> ul_has_length_field lcid = true -> zlen payload < 2 ^ 8 ->
    subpdu_octets (mk_subpdu lcid 2 false payload) (subheader_octet r false lcid :: zlen payload :: payload)
| octets_16bit r lcid payload :
    0 <= r <= 1 -> ul_has_length_field lcid = true -> zlen payload < 2 ^ 16 ->
    subpdu_octets (mk_subpdu lcid 3 true payload) (subheader_octet r true lcid :: zlen payload / 256 :: zlen payload mod 256 :: payload)
| octets_fixed r F_bit lcid payload :
    0 <= r <= 1 -> 0 <= lcid < PADDING -> ul_is_valid_lcid lcid = true -> ul_has_length_field lcid = false -> zlen payload = ul_sizeof_ce lcid ->
    subpdu_octets (mk_subpdu lcid 1 F_bit payload) (subheader_octet r F_bit lcid :: payload).

(** A sequence of subPDUs; padding takes the rest of the PDU. *)
Inductive pdu_octets : list mac_ul_sch_subpdu -> bytes -> Prop :=
| pdu_end : pdu_octets [] []
| pdu_padding r F_bit padding :
    0 <= r <= 1 -> pdu_octets [mk_subpdu PADDING 1 F_bit padding] (subheader_octet r F_bit PADDING :: padding)
| pdu_subpdu s o l os : subpdu_octets s o -> pdu_octets l os -> pdu_octets (s :: l) (o ++ os).

(** ** One octet *)
Lemma has_length_lcid lcid : ul_has_length_field lcid = true -> 0 < lcid < 64 /\ ul_is_valid_lcid lcid = true /\ lcid <> PADDING.
Proof.
  unfold ul_has_length_field, ul_is_ccch, ul_is_sdu, ul_is_var_len_ce, ul_is_valid_lcid, CCCH_SIZE_48, CCCH_SIZE_64, LCID32, LCID1, LONG_TRUNC_BSR,
    LONG_BSR, PADDING, MIN_RESERVED, MAX_RESERVED. zcases; cbn; intros E; try done; split_and!; done || lia.
Qed.

Lemma subheader_fields r F_bit lcid :
  0 <= r <= 1 -> 0 <= lcid < 64 ->
  (0 <? Z.land (subheader_octet r F_bit lcid) 0x40) = F_bit /\ Z.land (subheader_octet r F_bit lcid) 0x3f = lcid.
Proof.
  intros Hr Hl. assert (r = 0 \/ r = 1) as [-> | ->] by lia; destruct F_bit; revert lcid Hl;
    apply (decide_below 64 (fun lcid => _ /\ _)); vm_compute; reflexivity.
Qed.

Lemma subheader_split b :
  is_byte b -> exists r, 0 <= r <= 1 /\ 0 <= Z.land b 0x3f < 64 /\ b = subheader_octet r (0 <? Z.land b 0x40) (Z.land b 0x3f).
Proof.
  intros Hb. exists (b / 128). revert b Hb. apply (decide_below 256 (fun b => _ /\ _ /\ _)). vm_compute. reflexivity.
Qed.

Lemma length_octets l b : is_byte l -> is_byte b -> Z.lor (u32 (Z.shiftl l 8)) (Z.land b 0xff) = l * 256 + b.
Proof.
  unfold is_byte. intros Hl Hb. change 0xff with (2 ^ 8 - 1). rewrite land_mask, (Z.mod_small b) by lia.
  rewrite u32_small by (rewrite Z.shiftl_mul_pow2 by lia; lia). rewrite lor_shiftl_add by lia. lia.
Qed.

Lemma split_and_advance_app (o rest : bytes) : split_and_advance (zlen o) (o ++ rest) = ok (o, rest).
Proof.
  unfold split_and_advance. rewrite length_app. zfalse. rewrite Nat2Z.id. by rewrite take_app_length, drop_app_length.
Qed.

Lemma split_and_advance_ok n (reader : bytes) :
  0 <= n <= zlen reader -> exists o rest, split_and_advance n reader = ok (o, rest) /\ reader = o ++ rest /\ zlen o = n.
Proof.
  intros H. unfold split_and_advance. zfalse. eexists _, _. split; [reflexivity|]. rewrite take_drop. split; [done|]. rewrite length_take. lia.
Qed.

(** ** One subPDU *)
Lemma unpack_octets s o rest : subpdu_octets s o -> subpdu_unpack (o ++ rest) = ok (Some (s, rest)).
Proof.
  destruct 1 as [r lcid payload Hr Hl Hp|r lcid payload Hr Hl Hp|r F_bit lcid payload Hr Hl Hv Hh Hp]; unfold subpdu_unpack;
    cbn [app read_octet mbind outcome_bind length]; rewrite Nat2Z.inj_succ, ?length_app.
  - destruct (has_length_lcid lcid Hl) as (Hb & Hv & _). destruct (subheader_fields r false lcid) as [-> ->]; [done|lia|].
    zfalse. rewrite (proj2 (Z.leb_le lcid PADDING)) by (unfold PADDING; lia). cbn [srsran_assert mbind outcome_bind]. rewrite Hv, Hl. cbn [negb].
    cbn [length]. rewrite ?Nat2Z.inj_succ, ?length_app. zfalse. cbn [unpack_length read_octet mbind outcome_bind]. zfalse. by rewrite split_and_advance_app.
  - destruct (has_length_lcid lcid Hl) as (Hb & Hv & _). destruct (subheader_fields r true lcid) as [-> ->]; [done|lia|].
    zfalse. rewrite (proj2 (Z.leb_le lcid PADDING)) by (unfold PADDING; lia). cbn [srsran_assert mbind outcome_bind]. rewrite Hv, Hl. cbn [negb].
    cbn [length]. rewrite ?Nat2Z.inj_succ, ?length_app. zfalse. cbn [unpack_length read_octet mbind outcome_bind].
    rewrite length_octets by (unfold is_byte; divmod). replace (zlen payload / 256 * 256 + zlen payload mod 256) with (zlen payload) by divmod.
    zfalse. by rewrite split_and_advance_app.
  - unfold PADDING in Hl. destruct (subheader_fields r F_bit lcid) as [-> ->]; [done|lia|].
    zfalse. rewrite (proj2 (Z.leb_le lcid PADDING)) by (unfold PADDING; lia). cbn [srsran_assert mbind outcome_bind]. rewrite Hv, Hh. cbn [negb].
    unfold PADDING. zfalse. rewrite <- Hp. zfalse. by rewrite split_and_advance_app.
Qed.

Lemma unpack_padding r F_bit padding :
  0 <= r <= 1 -> subpdu_unpack (subheader_octet r F_bit PADDING :: padding) = ok (Some (mk_subpdu PADDING 1 F_bit padding, [])).
Proof.
  intros Hr. unfold subpdu_unpack. cbn [read_octet mbind outcome_bind length]. rewrite Nat2Z.inj_succ. zfalse.
  destruct (subheader_fields r F_bit PADDING) as [-> ->]; [done|unfold PADDING; lia|]. done.
Qed.

Lemma sizeof_ce_nonneg lcid : 0 <= ul_sizeof_ce lcid.
Proof. unfold ul_sizeof_ce. repeat case_match; lia. Qed.

(** What unpacking takes from the reader. *)
Lemma unpack_sound p :
  is_bytes p ->
  exists ret, subpdu_unpack p = ok ret /\
    match ret with
    | None => True
    | Some (s, rest) =>
        (exists o, p = o ++ rest /\ subpdu_octets s o) \/
        (exists r F_bit padding, 0 <= r <= 1 /\ rest = [] /\ p = subheader_octet r F_bit PADDING :: padding /\ s = mk_subpdu PADDING 1 F_bit padding)
    end.
Proof.
  intros Hp. unfold subpdu_unpack. destruct p as [|b p]; [by exists None|]. cbn [length read_octet mbind outcome_bind]. rewrite Nat2Z.inj_succ. zfalse.
  inversion Hp as [|? ? Hb Hp']; subst. destruct (subheader_split b Hb) as (r & Hr & Hl & Eb).
  remember (0 <? Z.land b 0x40) as F_bit eqn:EF. remember (Z.land b 0x3f) as lcid eqn:El. subst b. clear EF El Hp Hb.
  rewrite (proj2 (Z.leb_le lcid PADDING)) by (unfold PADDING; lia). cbn [srsran_assert mbind outcome_bind].
  destruct (ul_is_valid_lcid lcid) eqn:Ev; cbn [negb]; [|by exists None].
  destruct (ul_has_length_field lcid) eqn:Eh.
  - destruct F_bit.
    + destruct p as [|l p]; [by exists None|]. destruct p as [|b p]; [by exists None|]. inversion Hp' as [|? ? Hl1 Hp1]; subst. inversion Hp1 as [|? ? Hb1 Hp2]; subst.
      cbn [length]. rewrite !Nat2Z.inj_succ. zfalse. cbn [unpack_length read_octet mbind outcome_bind]. rewrite length_octets by done. unfold is_byte in *.
      destruct (Z.ltb_spec (Z.succ (Z.succ (Z.succ (zlen p)))) (3 + (l * 256 + b))); [by exists None|].
      destruct (split_and_advance_ok (l * 256 + b) p) as (o & rest & -> & -> & Ho); [lia|]. cbn [mbind outcome_bind]. eexists. split; [reflexivity|]. left.
      eexists. split; [|by apply (octets_16bit r lcid o); [| |lia]]. rewrite Ho. replace ((l * 256 + b) / 256) with l by divmod.
      by replace ((l * 256 + b) mod 256) with b by divmod.
    + destruct p as [|l p]; [by exists None|]. inversion Hp' as [|? ? Hl1 Hp1]; subst. cbn [length]. rewrite !Nat2Z.inj_succ. zfalse.
      cbn [unpack_length read_octet mbind outcome_bind]. unfold is_byte in *. destruct (Z.ltb_spec (Z.succ (Z.succ (zlen p))) (2 + l)); [by exists None|].
      destruct (split_and_advance_ok l p) as (o & rest & -> & -> & Ho); [lia|]. cbn [mbind outcome_bind]. eexists. split; [reflexivity|]. left.
      eexists. split; [|by apply (octets_8bit r lcid o); [| |lia]]. by rewrite Ho.
  - destruct (Z.eqb_spec lcid PADDING) as [->|Hne]; [eexists; split; [reflexivity|]; right; by exists r, F_bit, p|].
    destruct (Z.ltb_spec (Z.succ (zlen p)) (1 + ul_sizeof_ce lcid)); [by exists None|]. pose proof (sizeof_ce_nonneg lcid).
    destruct (split_and_advance_ok (ul_sizeof_ce lcid) p) as (o & rest & -> & -> & Ho); [lia|]. cbn [mbind outcome_bind]. eexists. split; [reflexivity|]. left.
    eexists. split; [|by apply (octets_fixed r F_bit lcid o); [|unfold PADDING in *; lia| | |]]. done.
Qed.

(** ** PDUs *)
Lemma subpdu_octets_length s o : subpdu_octets s o -> (0 < length o)%nat.
Proof. destruct 1; cbn [length]; lia. Qed.

Lemma unpack_subpdus_complete l p :
  pdu_octets l p -> forall fuel acc, (length p < fuel)%nat -> zlen acc + zlen l <= MAX_SUBPDUS_PER_PDU ->
  unpack_subpdus fuel p acc = ok (acc ++ l, true).
Proof.
  induction 1 as [|r F_bit padding Hr|s o l os Hs Hl IH]; intros [|fuel] acc Hf Hm; [lia| |lia| |lia|]; cbn [unpack_subpdus].
  - cbn. by rewrite app_nil_r.
  - cbn [length] in *. rewrite !Nat2Z.inj_succ in *. rewrite !(proj2 (Z.eqb_neq _ 0)), (proj2 (Z.leb_gt MAX_SUBPDUS_PER_PDU _)) by lia.
    rewrite unpack_padding by done. cbn [mbind outcome_bind]. destruct fuel as [|fuel]; [lia|]. done.
  - pose proof (subpdu_octets_length _ _ Hs). cbn [length] in Hm. rewrite length_app in *.
    rewrite (proj2 (Z.eqb_neq _ 0)), (proj2 (Z.leb_gt MAX_SUBPDUS_PER_PDU _)) by lia. rewrite (unpack_octets s) by done. cbn [mbind outcome_bind].
    rewrite IH; [by rewrite <- app_assoc|lia|]. rewrite length_app. cbn [length]. lia.
Qed.

Lemma unpack_subpdus_sound fuel : forall p acc,
  is_bytes p -> (length p < fuel)%nat -> zlen acc <= MAX_SUBPDUS_PER_PDU ->
  exists l b, unpack_subpdus fuel p acc = ok (l, b) /\ zlen l <= MAX_SUBPDUS_PER_PDU /\
    if b : bool then exists l' o rest, l = acc ++ l' /\ p = o ++ rest /\ pdu_octets l' o /\ (rest = [] \/ zlen l = MAX_SUBPDUS_PER_PDU) else l = [].
Proof.
  induction fuel as [|fuel IH]; intros p acc Hp Hf Hm; [lia|]. cbn [unpack_subpdus].
  destruct (Z.eqb_spec (zlen p) 0) as [E|E].
  { exists acc, true. split; [done|]. split; [done|]. exists [], [], []. rewrite app_nil_r. destruct p; [|done]. split_and!; [done|done|constructor|by left]. }
  destruct (Z.leb_spec MAX_SUBPDUS_PER_PDU (zlen acc)).
  { exists acc, true. split; [done|]. split; [done|]. exists [], [], p. rewrite app_nil_r. split_and!; [done|done|constructor|right; lia]. }
  destruct (unpack_sound p Hp) as (ret & -> & Hret). cbn [mbind outcome_bind]. destruct ret as [[s rest]|]; [|by exists [], false].
  destruct Hret as [(o & -> & Hs)|(r & F_bit & padding & Hr & -> & -> & ->)].
  - pose proof (subpdu_octets_length _ _ Hs). rewrite length_app in Hf. apply Forall_app in Hp as [_ Hp].
    destruct (IH rest (acc ++ [s]) Hp) as (l & b & E' & Hl & H'); [lia|rewrite length_app; cbn [length]; lia|]. exists l, b. split; [done|]. split; [done|].
    destruct b; [|done]. destruct H' as (l' & o' & rest' & -> & -> & Hl' & Hr). exists (s :: l'), (o ++ o'), rest'. rewrite <- !app_assoc.
    split_and!; [done|done|by constructor|]. by rewrite <- app_assoc in Hr.
  - destruct fuel as [|fuel]; [cbn in Hf; lia|]. eexists _, true. split; [reflexivity|]. rewrite length_app. cbn [length]. split; [lia|].
    eexists [_], _, []. rewrite app_nil_r. split_and!; [done|done|by constructor|by left].
Qed.

(** C32: unpacking a UL-SCH MAC PDU decides the format of TS 38.321: it always returns; what it accepts are the subPDUs of the PDU, in order and without a gap, up to the
    end or to the limit of 4096; it accepts every well-formed PDU within the limit, with exactly its subPDUs; what it rejects leaves no subPDU behind. *)
Theorem mac_ul_unpack_exact p :
  is_bytes p ->
  exists l accepted, mac_ul_sch_pdu_unpack p = ok (l, accepted) /\ zlen l <= MAX_SUBPDUS_PER_PDU /\
    (accepted = true -> exists o rest, p = o ++ rest /\ pdu_octets l o /\ (rest = [] \/ zlen l = MAX_SUBPDUS_PER_PDU)) /\
    (accepted = false -> l = []) /\
    (forall l', pdu_octets l' p -> zlen l' <= MAX_SUBPDUS_PER_PDU -> l = l' /\ accepted = true).
Proof.
  intros Hp. unfold mac_ul_sch_pdu_unpack.
  destruct (unpack_subpdus_sound (S (length p)) p [] Hp) as (l & b & E & Hl & H); [lia|done|]. exists l, b. split; [done|]. split; [done|]. split_and!.
  - intros ->. destruct H as (l' & o & rest & -> & -> & H). by exists o, rest.
  - by intros ->.
  - intros l' Hl' Hm. rewrite (unpack_subpdus_complete l' p Hl') in E by (done || lia). by injection E.
Qed.

(** A PDU of an SDU, a short BSR and padding; the R bit of the first subheader is set. *)
Definition ul_pdu_example : bytes := [132; 3; 7; 8; 9; 61; 0x21; 63; 0; 0].
Definition ul_pdu_example_subpdus : list mac_ul_sch_subpdu :=
  [mk_subpdu 4 2 false [7; 8; 9]; mk_subpdu SHORT_BSR 1 false [0x21]; mk_subpdu PADDING 1 false [0; 0]].

Lemma ul_pdu_example_octets : pdu_octets ul_pdu_example_subpdus ul_pdu_example.
Proof.
  apply (pdu_subpdu _ [132; 3; 7; 8; 9] _ [61; 0x21; 63; 0; 0]); [by apply (octets_8bit 1 4 [7; 8; 9]); try done; lia|].
  apply (pdu_subpdu _ [61; 0x21] _ [63; 0; 0]); [by apply (octets_fixed 0 false SHORT_BSR [0x21])|].
  by apply (pdu_padding 0 false [0; 0]).
Qed.

Lemma mac_ul_unpack_exact_witness :
  is_bytes ul_pdu_example /\ mac_ul_sch_pdu_unpack ul_pdu_example = ok (ul_pdu_example_subpdus, true).
Proof.
  assert (H : is_bytes ul_pdu_example) by (repeat constructor; lia). split; [done|].
  destruct (mac_ul_unpack_exact ul_pdu_example H) as (l & b & E & _ & _ & _ & Hc). rewrite E.
  destruct (Hc ul_pdu_example_subpdus ul_pdu_example_octets) as [-> ->]; done.
Defined.

(** Truncated: nothing is kept of the subPDUs before. *)
Example ul_pdu_truncated : mac_ul_sch_pdu_unpack [4; 1; 7; 4; 3; 8] = ok ([], false).
Proof. reflexivity. Qed.

(** A recommended bit rate query has two octets (TS 38.321, 6.1.3.20); [sizeof_ce] knows none, so they are read as the subPDUs that follow. *)
Example bit_rate_query_payload_parsed :
  mac_ul_sch_pdu_unpack [53; 4; 1; 7] = ok ([mk_subpdu BIT_RATE_QUERY 1 false []; mk_subpdu 4 2 false [7]], true).
Proof. reflexivity. Qed.

(** ** Control elements *)

Lemma decode_sbsr_octet b rest : is_byte b -> decode_sbsr (b :: rest) = ok (mk_lcg_bsr (b / 32) (b mod 32)).
Proof.
  intros Hb. unfold decode_sbsr. cbn [read_octet mbind outcome_bind]. f_equal. unfold is_byte in Hb.
  assert (E : Z.shiftr (Z.land b 0xe0) 5 = b / 32 /\ Z.land b 0x1f = b mod 32).
  { revert b Hb. apply (decide_below 256 (fun b => _ /\ _)). vm_compute. reflexivity. }
  by destruct E as [-> ->].
Qed.

(** The reports of a long BSR: one for each LCG whose bit is set, in order, with its octet. *)
Definition lbsr_bitmap (l : list lcg_bsr_report) : Z := foldr (fun r acc => Z.lor (2 ^ lcg_id r) acc) 0 l.

Lemma decode_lcgs_long n : forall bitmap i reader l,
  0 <= i ->
  decode_lcgs n long_bsr bitmap i reader l =
  let set := filter (fun j => Z.testbit bitmap j = true) (seqZ i (Z.of_nat n)) in
  if (zlen reader <? zlen set) || existsb (fun b => b =? 255) (take (length set) reader) then None
  else Some (l ++ zip_with mk_lcg_bsr set reader).
Proof.
  induction n as [|n IH]; intros bitmap i reader l Hi; cbn [decode_lcgs].
  - cbn. rewrite app_nil_r. rewrite (proj2 (Z.ltb_ge _ 0)) by lia. done.
  - rewrite Nat2Z.inj_succ, seqZ_cons by lia. rewrite Z.pred_succ. cbv zeta. rewrite filter_cons.
    rewrite Z.shiftl_mul_pow2, Z.mul_1_l, land_pow2_testbit, negb_involutive by lia. replace (Z.succ i) with (i + 1) by lia.
    destruct (Z.testbit bitmap i) eqn:Eb; [rewrite decide_True by done|rewrite decide_False by done].
    + destruct reader as [|b reader].
      * rewrite bool_decide_eq_false_2 by done. cbn [length]. rewrite Nat2Z.inj_succ. by rewrite (proj2 (Z.ltb_lt _ _)) by lia.
      * cbn [length take existsb zip_with]. rewrite !Nat2Z.inj_succ. destruct (Z.eqb_spec b 255); [by rewrite orb_true_r|]. rewrite IH by lia. cbv zeta. cbn [orb].
        replace (Z.succ (zlen reader) <? Z.succ (zlen (filter (fun j => Z.testbit bitmap j = true) (seqZ (i + 1) (Z.of_nat n)))))
          with (zlen reader <? zlen (filter (fun j => Z.testbit bitmap j = true) (seqZ (i + 1) (Z.of_nat n)))) by (zcases; lia).
        case_match; [done|]. by rewrite <- app_assoc.
    + rewrite bool_decide_eq_false_2 by done. by rewrite IH by lia.
Qed.

Lemma decode_lbsr_long bitmap reader :
  bitmap <> 0 ->
  let set := filter (fun j => Z.testbit bitmap j = true) (seqZ 0 8) in
  decode_lbsr long_bsr (bitmap :: reader) =
  ok (if (zlen reader <? zlen set) || existsb (fun b => b =? 255) (take (length set) reader) then None else Some (zip_with mk_lcg_bsr set reader)).
Proof.
  intros Hb set. unfold decode_lbsr. cbn [read_octet mbind outcome_bind]. zfalse. by rewrite decode_lcgs_long by done.
Qed.

(** A long truncated BSR tells of every LCG, in order. *)
Lemma decode_lcgs_trunc n : forall bitmap i reader l l',
  0 <= i -> decode_lcgs n long_trunc_bsr bitmap i reader l = Some l' ->
  exists reports, l' = l ++ reports /\ (lcg_id <$> reports) = seqZ i (Z.of_nat n) /\
    forall r, r ∈ reports -> Z.testbit bitmap (lcg_id r) = false -> buffer_size r = 0.
Proof.
  induction n as [|n IH]; intros bitmap i reader l l' Hi E; cbn [decode_lcgs] in E.
  - injection E as <-. exists []. rewrite app_nil_r. split_and!; [done|done|]. by intros r ?%elem_of_nil.
  - rewrite Nat2Z.inj_succ, seqZ_cons by lia. rewrite Z.pred_succ. rewrite bool_decide_eq_true_2 in E by done.
    rewrite Z.shiftl_mul_pow2, Z.mul_1_l, land_pow2_testbit, negb_involutive in E by lia. replace (Z.succ i) with (i + 1) by lia.
    assert (H : exists size reader', (Z.testbit bitmap i = false -> size = 0) /\
              decode_lcgs n long_trunc_bsr bitmap (i + 1) reader' (l ++ [mk_lcg_bsr i size]) = Some l').
    { destruct (Z.testbit bitmap i); [|by exists 0, reader]. destruct reader as [|b reader]; [by exists 64, []|].
      destruct (b =? 255); [done|]. by exists b, reader. }
    destruct H as (size & reader' & Hs & E'). destruct (IH bitmap (i + 1) reader' (l ++ [mk_lcg_bsr i size]) l' ltac:(lia) E') as (reports & -> & El & Hr). rewrite <- app_assoc. eexists.
    split; [reflexivity|]. cbn [app fmap list_fmap lcg_id]. rewrite El. split; [done|]. intros r [->|Hin]%elem_of_cons; [done|]. by apply Hr.
Qed.

(** The one payload that [decode_lbsr] is not prepared for. *)
Lemma decode_lbsr_ok format payload : payload <> [] -> exists r, decode_lbsr format payload = ok r.
Proof. destruct payload as [|b payload]; [done|]. intros _. unfold decode_lbsr. cbn. case_match; eauto. Qed.

(** A UE that sends a long BSR of length 0 makes the MAC read outside of the PDU. *)
Example empty_long_bsr :
  mac_ul_sch_pdu_unpack [62; 0] = ok ([mk_subpdu LONG_BSR 2 false []], true) /\ decode_lbsr long_bsr [] = fail invalid_access.
Proof. split; reflexivity. Qed.

(** Levels grow with the index, in both formats; no access is outside of the tables. *)
Lemma buffer_levels_monotone format i :
  0 <= i < 255 ->
  exists x y, buff_size_field_to_bytes i format = ok x /\ buff_size_field_to_bytes (i + 1) format = ok y /\ x <= y /\ 0 <= x < 2 ^ 32.
Proof.
  set (lookup i := match buff_size_field_to_bytes i format with ok x => x | fail _ => -1 end).
  assert (H : forall i, 0 <= i < 255 -> 0 <= lookup i /\ lookup i <= lookup (i + 1) /\ lookup i < 2 ^ 32).
  { subst lookup. apply (decide_below 255 (fun i => _ /\ _ /\ _)). by destruct format; vm_compute. }
  intros Hi. specialize (H i Hi). revert H. unfold lookup. destruct (buff_size_field_to_bytes i format) as [x|], (buff_size_field_to_bytes (i + 1) format) as [y|];
    intros (H1 & H2 & H3); try lia. exists x, y. split_and!; done || lia.
Qed.

(** Table 10.1.17.1-1 of TS 38.133: 1 dB per value from -32 to 22 dB, 2 dB from there to 38. *)
Definition ph_table (ph : Z) : Z * Z :=
  if ph =? 0 then (-32, -32) else if ph =? 63 then (38, 38) else if ph <? 55 then (ph - 33, ph - 32) else (22 + 2 * (ph - 55), 24 + 2 * (ph - 55)).

Definition ph_range_is (ph : Z) (r : Z * Z) : bool :=
  match ph_to_db_range ph with ok i => (start_ i =? r.1) && (stop_ i =? r.2) | fail _ => false end.

Lemma ph_range_exact ph : 0 <= ph < 64 -> ph_range_is ph (ph_table ph) = (ph <? 56) || (ph =? 63).
Proof. intros H. by_evaluation 64 ph. Qed.

(** From 56 on the ranges overlap, and no value stands for 31 to 38 dB. *)
Example ph_ranges_overlap :
  ph_to_db_range 55 = ok (mk_interval 22 24) /\ ph_to_db_range 56 = ok (mk_interval 23 25) /\ ph_to_db_range 62 = ok (mk_interval 29 31) /\
  ph_to_db_range 63 = ok (mk_interval 38 38).
Proof. split_and!; reflexivity. Qed.

Lemma ph_to_db_range_ok ph : 0 <= ph < 64 -> exists i, ph_to_db_range ph = ok i /\ start_ i <= stop_ i.
Proof.
  intros H. assert (E : match ph_to_db_range ph with ok i => start_ i <=? stop_ i | fail _ => false end = true) by by_evaluation 64 ph.
  destruct (ph_to_db_range ph) as [i|]; [|done]. exists i. split; [done|]. by apply Z.leb_le.
Qed.

Lemma p_cmax_to_dbm_range_exact p :
  0 <= p < 64 -> p_cmax_to_dbm_range p = ok (if p =? 0 then mk_interval (-29) (-29) else if p =? 63 then mk_interval 33 33 else mk_interval (p - 30) (p - 29)).
Proof.
  intros H. assert (E : match p_cmax_to_dbm_range p with
    | ok i => (start_ i =? (if p =? 0 then -29 else if p =? 63 then 33 else p - 30)) && (stop_ i =? (if p =? 0 then -29 else if p =? 63 then 33 else p - 29))
    | fail _ => false end = true) by by_evaluation 64 p.
  destruct (p_cmax_to_dbm_range p) as [[a b]|]; [|done]. cbn [start_ stop_] in E. apply andb_true_iff in E as [->%Z.eqb_eq ->%Z.eqb_eq].
  by destruct (p =? 0), (p =? 63).
Qed.

Lemma land_octet_range b k : 0 <= k -> 0 <= Z.land b (2 ^ k - 1) < 2 ^ k.
Proof. intros. rewrite land_mask by done. apply Z.mod_pos_bound. lia. Qed.

Lemma decode_se_phr_ok payload : zlen payload = 2 -> exists r, decode_se_phr payload = ok r.
Proof.
  destruct payload as [|b0 [|b1 [|? ?]]]; cbn [length]; try lia. intros _. unfold decode_se_phr. cbn [read_octet mbind outcome_bind].
  destruct (ph_to_db_range_ok (Z.land b0 0x3f)) as (i & -> & _); [apply (land_octet_range b0 6); lia|]. cbn [mbind outcome_bind].
  rewrite p_cmax_to_dbm_range_exact by (apply (land_octet_range b1 6); lia). cbn [mbind outcome_bind]. eauto.
Qed.

(** Two octets, the most significant first. *)
Lemma decode_crnti_ce_octets rnti : 0 <= rnti < 2 ^ 16 -> decode_crnti_ce [rnti / 256; rnti mod 256] = rnti.
Proof.
  intros H. unfold decode_crnti_ce. rewrite lor_shiftl_add by (try apply Z.mod_pos_bound; lia). unfold u16. rewrite Z.mod_small by divmod. divmod.
Qed.
