(* ===== verification/MacRnti.v ===== *)
(** * RNTIs of the MAC

    The table from C-RNTIs to UE indexes ([lib/mac/rnti_value_table.h]) and the allocation of temporary C-RNTIs ([lib/mac/rnti_manager.h]), with the specification
    they meet. Accesses to the atomic members are taken one after the other. *)
From S2P Require Import Prelude MacUlPdu.

Definition MAX_NOF_DU_UES : Z := 1024.
Definition INVALID_DU_UE_INDEX : Z := 1024.
Definition is_du_ue_index_valid (ue_idx : Z) : bool := ue_idx <? MAX_NOF_DU_UES.

(** ** The table *)
Definition RNTI_RANGE : Z := MAX_CRNTI + 1 - MIN_CRNTI.

(** The array, less the entries that hold the sentinel. *)
Record rnti_value_table := mk_rnti_table { rnti_to_ue_index_map : gmap Z Z; nof_ues_ : Z }.

Definition rnti_table_init : rnti_value_table := mk_rnti_table ∅ 0.

(** [get]: the array has an element for every C-RNTI. *)
Definition table_get (t : rnti_value_table) (rnti : Z) : outcome Z :=
  if (MIN_CRNTI <=? rnti) && (rnti - MIN_CRNTI <? RNTI_RANGE) then ok (default INVALID_DU_UE_INDEX (rnti_to_ue_index_map t !! rnti)) else fail invalid_access.

Definition table_add_ue (t : rnti_value_table) (crnti value : Z) : outcome (rnti_value_table * bool) :=
  _ ← srsran_assert (is_crnti crnti);
  _ ← srsran_assert (negb (value =? INVALID_DU_UE_INDEX));
  prev_ue_idx ← table_get t crnti;
  let m := <[crnti := value]> (rnti_to_ue_index_map t) in
  if prev_ue_idx =? INVALID_DU_UE_INDEX then ok (mk_rnti_table m (u64 (nof_ues_ t + 1)), true) else ok (mk_rnti_table m (nof_ues_ t), false).

Definition table_rem_ue (t : rnti_value_table) (crnti : Z) : outcome rnti_value_table :=
  _ ← srsran_assert (is_crnti crnti);
  prev_ue_idx ← table_get t crnti;
  let m := delete crnti (rnti_to_ue_index_map t) in
  if negb (prev_ue_idx =? INVALID_DU_UE_INDEX) then
    let n := u64 (nof_ues_ t - 1) in
    _ ← srsran_assert (n <=? RNTI_RANGE);
    ok (mk_rnti_table m n)
  else ok (mk_rnti_table m (nof_ues_ t)).

Definition has_rnti (t : rnti_value_table) (crnti : Z) : outcome bool :=
  ue ← table_get t crnti; ok (negb (ue =? INVALID_DU_UE_INDEX)).

(** ** Allocation *)
Record rnti_manager := mk_rnti_manager { du_rnti_table : rnti_value_table; rnti_counter : Z }.

Definition rnti_manager_ctor (initial_rnti : Z) : outcome rnti_manager :=
  _ ← srsran_assert (is_crnti initial_rnti);
  ok (mk_rnti_manager rnti_table_init (u16 (initial_rnti - MIN_CRNTI))).

Definition CRNTI_RANGE : Z := MAX_CRNTI + 1 - MIN_CRNTI.

(** The loop of [allocate]; the counter is [uint16_t]. *)
Fixpoint allocate_loop (fuel : nat) (t : rnti_value_table) (counter : Z) : outcome (Z * Z) :=
  match fuel with
  | O => fail out_of_fuel
  | S fuel =>
      let prev_counter := counter mod CRNTI_RANGE in
      let counter := u16 (counter + 1) in
      let temp_crnti := u16 (prev_counter + MIN_CRNTI) in
      used ← has_rnti t temp_crnti;
      if used : bool then allocate_loop fuel t counter else ok (temp_crnti, counter)
  end.

Definition allocate (m : rnti_manager) : outcome (rnti_manager * Z) :=
  if MAX_NOF_DU_UES <=? nof_ues_ (du_rnti_table m) then ok (m, INVALID_RNTI)
  else
    '(temp_crnti, counter) ← allocate_loop (Z.to_nat (2 ^ 16)) (du_rnti_table m) (rnti_counter m);
    ok (mk_rnti_manager (du_rnti_table m) counter, temp_crnti).

Inductive rnti_op := rnti_allocate | rnti_add (crnti ue_index : Z) | rnti_rem (crnti : Z) | rnti_find (crnti : Z).
Inductive rnti_result := allocated (crnti : Z) | added (b : bool) | removed | found (ue_index : Z).

Definition rnti_step (m : rnti_manager) (op : rnti_op) : outcome (rnti_manager * rnti_result) :=
  match op with
  | rnti_allocate => '(m, r) ← allocate m; ok (m, allocated r)
  | rnti_add crnti ue => '(t, b) ← table_add_ue (du_rnti_table m) crnti ue; ok (mk_rnti_manager t (rnti_counter m), added b)
  | rnti_rem crnti => t ← table_rem_ue (du_rnti_table m) crnti; ok (mk_rnti_manager t (rnti_counter m), removed)
  | rnti_find crnti => ue ← table_get (du_rnti_table m) crnti; ok (m, found ue)
  end.

Fixpoint rnti_run (m : rnti_manager) (l : list rnti_op) : outcome (rnti_manager * list (rnti_op * rnti_result)) :=
  match l with
  | [] => ok (m, [])
  | op :: l => '(m, r) ← rnti_step m op; '(m, rs) ← rnti_run m l; ok (m, (op, r) :: rs)
  end.

(** ** What they promise

    With the map [M] from the C-RNTIs in use to their UEs: an RNTI that is allocated is a C-RNTI not in use, and is refused only when all UEs exist. *)
Fixpoint rntis_ok (M : gmap Z Z) (l : list (rnti_op * rnti_result)) : Prop :=
  match l with
  | [] => True
  | (rnti_allocate, allocated r) :: l =>
      (if decide (Z.of_nat (size M) < MAX_NOF_DU_UES) then is_crnti r = true /\ M !! r = None else r = INVALID_RNTI) /\ rntis_ok M l
  | (rnti_add crnti ue, added b) :: l => b = bool_decide (M !! crnti = None) /\ rntis_ok (<[crnti := ue]> M) l
  | (rnti_rem crnti, removed) :: l => rntis_ok (delete crnti M) l
  | (rnti_find crnti, found ue) :: l => ue = default INVALID_DU_UE_INDEX (M !! crnti) /\ rntis_ok M l
  | _ => False
  end.

Definition rnti_op_ok (op : rnti_op) : Prop :=
  match op with
  | rnti_allocate => True
  | rnti_add crnti ue => is_crnti crnti = true /\ ue < MAX_NOF_DU_UES
  | rnti_rem crnti | rnti_find crnti => is_crnti crnti = true
  end.

Record rnti_inv (m : rnti_manager) : Prop := {
  ri_count : nof_ues_ (du_rnti_table m) = Z.of_nat (size (rnti_to_ue_index_map (du_rnti_table m)));
  ri_entries : forall r ue, rnti_to_ue_index_map (du_rnti_table m) !! r = Some ue -> is_crnti r = true /\ ue < MAX_NOF_DU_UES;
  ri_counter : 0 <= rnti_counter m < 2 ^ 16
}.

Lemma is_crnti_range r : is_crnti r = true <-> 1 <= r < 65520.
Proof. unfold is_crnti, MAX_CRNTI, MIN_CRNTI. rewrite andb_true_iff, Z.leb_le, Z.leb_le. lia. Qed.

Lemma table_get_ok t r : is_crnti r = true -> table_get t r = ok (default INVALID_DU_UE_INDEX (rnti_to_ue_index_map t !! r)).
Proof.
  intros H%is_crnti_range. unfold table_get, RNTI_RANGE, MAX_CRNTI, MIN_CRNTI. by rewrite (proj2 (Z.leb_le 1 r)), (proj2 (Z.ltb_lt _ _)) by lia.
Qed.

(** No entry is the sentinel. *)
Lemma entry_valid m r : rnti_inv m ->
  (default INVALID_DU_UE_INDEX (rnti_to_ue_index_map (du_rnti_table m) !! r) =? INVALID_DU_UE_INDEX) =
  bool_decide (rnti_to_ue_index_map (du_rnti_table m) !! r = None).
Proof.
  intros H. destruct (_ !! r) as [ue|] eqn:E; cbn [default]; [|done]. destruct (ri_entries m H r ue E) as [_ Hu].
  unfold MAX_NOF_DU_UES in Hu. unfold INVALID_DU_UE_INDEX. cbn. zfalse. done.
Qed.

Lemma has_rnti_ok m r : rnti_inv m -> is_crnti r = true -> has_rnti (du_rnti_table m) r = ok (bool_decide (is_Some (rnti_to_ue_index_map (du_rnti_table m) !! r))).
Proof.
  intros H Hr. unfold has_rnti. rewrite table_get_ok by done. cbn [mbind outcome_bind]. rewrite entry_valid by done.
  destruct (_ !! r) eqn:E; done.
Qed.

(** A C-RNTI is free while there are fewer entries than C-RNTIs. *)
Lemma larger_set_element (X Y : gset Z) : (size Y < size X)%nat -> exists x, x ∈ X /\ (x ∉ Y).
Proof.
  intros H. destruct (set_choose_L (X ∖ Y)) as [x Hx].
  - intros E. assert (Hsub : X ⊆ Y) by set_solver. apply subseteq_size in Hsub. lia.
  - exists x. by apply elem_of_difference.
Qed.

Lemma size_seqZ i n : 0 <= n -> Z.of_nat (size (list_to_set (seqZ i n) : gset Z)) = n.
Proof. intros H. rewrite size_list_to_set by apply NoDup_seqZ. rewrite length_seqZ. lia. Qed.

Lemma crnti_free (M : gmap Z Z) :
  Z.of_nat (size M) < MAX_NOF_DU_UES -> exists r, is_crnti r = true /\ M !! r = None.
Proof.
  intros Hs. pose proof (size_seqZ 1 MAX_NOF_DU_UES ltac:(done)) as Hn.
  destruct (larger_set_element (list_to_set (seqZ 1 MAX_NOF_DU_UES)) (dom M)) as (r & Hr & Hf); [rewrite size_dom; lia|].
  apply elem_of_list_to_set, elem_of_seqZ in Hr. unfold MAX_NOF_DU_UES in Hr. exists r. split; [apply is_crnti_range; lia|]. by apply not_elem_of_dom.
Qed.

(** The loop reaches a free C-RNTI [d] steps ahead. *)
Lemma allocate_loop_ok m fuel : forall counter d,
  rnti_inv m -> 0 <= counter < 2 ^ 16 -> 0 <= d < Z.of_nat fuel ->
  rnti_to_ue_index_map (du_rnti_table m) !! ((counter + d) mod 2 ^ 16 mod CRNTI_RANGE + 1) = None ->
  exists r counter', allocate_loop fuel (du_rnti_table m) counter = ok (r, counter') /\ is_crnti r = true /\
    rnti_to_ue_index_map (du_rnti_table m) !! r = None /\ 0 <= counter' < 2 ^ 16.
Proof.
  induction fuel as [|fuel IH]; intros counter d H Hc Hd Hfree; [lia|]. cbn [allocate_loop].
  assert (Hb : 0 <= counter mod CRNTI_RANGE < 65519) by (apply Z.mod_pos_bound; done).
  replace (u16 (counter mod CRNTI_RANGE + MIN_CRNTI)) with (counter mod CRNTI_RANGE + 1) by (unfold MIN_CRNTI; rewrite u16_small; lia).
  assert (Hr : is_crnti (counter mod CRNTI_RANGE + 1) = true) by (apply is_crnti_range; lia). rewrite has_rnti_ok by done. cbn [mbind outcome_bind].
  assert (Hc' : 0 <= u16 (counter + 1) < 2 ^ 16) by (apply Z.mod_pos_bound; lia).
  case_bool_decide as Hu.
  - assert (d <> 0). { intros ->. rewrite Z.add_0_r, (Z.mod_small counter) in Hfree by lia. rewrite Hfree in Hu. by destruct Hu. }
    apply (IH _ (d - 1)); [done|done|lia|]. unfold u16. rewrite Zplus_mod_idemp_l. by replace (counter + 1 + (d - 1)) with (counter + d) by lia.
  - eexists _, _. split; [reflexivity|]. split; [done|]. split; [by apply eq_None_not_Some|done].
Qed.

Lemma allocate_ok m :
  rnti_inv m ->
  exists m' r, allocate m = ok (m', r) /\ rnti_inv m' /\ du_rnti_table m' = du_rnti_table m /\
    if decide (Z.of_nat (size (rnti_to_ue_index_map (du_rnti_table m))) < MAX_NOF_DU_UES)
    then is_crnti r = true /\ rnti_to_ue_index_map (du_rnti_table m) !! r = None else r = INVALID_RNTI.
Proof.
  intros H. unfold allocate. rewrite (ri_count m H). case_decide as Hs; [zfalse|by ztrue; eauto 10].
  destruct (crnti_free _ Hs) as (f & Hf & Hn).
  pose proof (ri_counter m H) as Hc. apply is_crnti_range in Hf.
  destruct (allocate_loop_ok m (Z.to_nat (2 ^ 16)) (rnti_counter m) ((f - 1 - rnti_counter m) mod 2 ^ 16)) as (r & c & -> & Hr & Hfree & Hc'); [done|done| | |].
  - pose proof (Z.mod_pos_bound (f - 1 - rnti_counter m) (2 ^ 16) ltac:(lia)). lia.
  - rewrite Zplus_mod_idemp_r. replace (rnti_counter m + (f - 1 - rnti_counter m)) with (f - 1) by lia. rewrite (Z.mod_small (f - 1)) by lia.
    rewrite Z.mod_small by (change CRNTI_RANGE with 65519; lia). by replace (f - 1 + 1) with f by lia.
  - cbn [mbind outcome_bind]. eexists _, _. split; [reflexivity|]. split; [|done]. split; [apply H|apply H|done].
Qed.

Lemma table_add_ok m crnti ue :
  rnti_inv m -> Z.of_nat (size (rnti_to_ue_index_map (du_rnti_table m))) <= RNTI_RANGE -> is_crnti crnti = true -> ue < MAX_NOF_DU_UES ->
  exists t, table_add_ue (du_rnti_table m) crnti ue = ok (t, bool_decide (rnti_to_ue_index_map (du_rnti_table m) !! crnti = None)) /\
    rnti_to_ue_index_map t = <[crnti := ue]> (rnti_to_ue_index_map (du_rnti_table m)) /\ rnti_inv (mk_rnti_manager t (rnti_counter m)).
Proof.
  intros H Hs Hr Hu. unfold table_add_ue. rewrite Hr, table_get_ok by done. unfold MAX_NOF_DU_UES in Hu. rewrite (proj2 (Z.eqb_neq ue INVALID_DU_UE_INDEX)) by (unfold INVALID_DU_UE_INDEX; lia).
  cbn [srsran_assert negb mbind outcome_bind]. rewrite entry_valid by done.
  assert (He : forall r ue', <[crnti := ue]> (rnti_to_ue_index_map (du_rnti_table m)) !! r = Some ue' -> is_crnti r = true /\ ue' < MAX_NOF_DU_UES).
  { intros r ue' [[<- <-]|[_ E]]%lookup_insert_Some; [done|by eapply ri_entries]. }
  change RNTI_RANGE with 65519 in Hs. case_bool_decide as E; (eexists; split; [reflexivity|]; split; [done|]); split; cbn; try done; try apply H.
  - rewrite (ri_count m H), map_size_insert_None by done. unfold u64. rewrite Z.mod_small by lia. lia.
  - rewrite (ri_count m H). destruct (_ !! crnti) eqn:E'; [|done]. rewrite map_size_insert_Some by (by eexists). done.
Qed.

Lemma table_rem_ok m crnti :
  rnti_inv m -> Z.of_nat (size (rnti_to_ue_index_map (du_rnti_table m))) <= RNTI_RANGE -> is_crnti crnti = true ->
  exists t, table_rem_ue (du_rnti_table m) crnti = ok t /\
    rnti_to_ue_index_map t = delete crnti (rnti_to_ue_index_map (du_rnti_table m)) /\ rnti_inv (mk_rnti_manager t (rnti_counter m)).
Proof.
  intros H Hs Hr. unfold table_rem_ue. rewrite Hr, table_get_ok by done. cbn [srsran_assert mbind outcome_bind]. rewrite entry_valid by done.
  assert (He : forall r ue, delete crnti (rnti_to_ue_index_map (du_rnti_table m)) !! r = Some ue -> is_crnti r = true /\ ue < MAX_NOF_DU_UES).
  { intros r ue [_ E]%lookup_delete_Some. by eapply ri_entries. }
  case_bool_decide as E; cbn [negb].
  - eexists. split; [reflexivity|]. split; [done|]. split; cbn; try done; try apply H. by rewrite (ri_count m H), delete_id.
  - destruct (_ !! crnti) as [ue|] eqn:E'; [|done]. pose proof (map_size_delete_Some crnti (rnti_to_ue_index_map (du_rnti_table m)) (mk_is_Some _ _ E')) as Hd. rewrite (ri_count m H).
    assert (size (rnti_to_ue_index_map (du_rnti_table m)) <> 0%nat) by (apply map_size_non_empty_iff; intros E0; by rewrite E0, lookup_empty in E').
    assert (RNTI_RANGE = 65519) by done. unfold u64. rewrite Z.mod_small by lia. rewrite (proj2 (Z.leb_le _ RNTI_RANGE)) by lia. cbn [srsran_assert mbind outcome_bind].
    eexists. split; [reflexivity|]. split; [done|]. split; cbn; try done; try apply H. lia.
Qed.

(** Entries are C-RNTIs, so there are never more than there are C-RNTIs. *)
Lemma table_size m : rnti_inv m -> Z.of_nat (size (rnti_to_ue_index_map (du_rnti_table m))) <= RNTI_RANGE.
Proof.
  intros H. pose proof (size_seqZ 1 RNTI_RANGE ltac:(done)) as Hn.
  assert (Hsub : dom (rnti_to_ue_index_map (du_rnti_table m)) ⊆ (list_to_set (seqZ 1 RNTI_RANGE) : gset Z)).
  { intros r [ue Hr]%elem_of_dom. apply elem_of_list_to_set, elem_of_seqZ. destruct (ri_entries m H r ue Hr) as [?%is_crnti_range _].
    change RNTI_RANGE with 65519. lia. }
  apply subseteq_size in Hsub. rewrite size_dom in Hsub. lia.
Qed.

Lemma rnti_run_ok l : forall m,
  rnti_inv m -> Forall rnti_op_ok l ->
  exists m' rs, rnti_run m l = ok (m', rs) /\ rnti_inv m' /\ fst <$> rs = l /\ rntis_ok (rnti_to_ue_index_map (du_rnti_table m)) rs.
Proof.
  induction l as [|op l IH]; intros m H Hl; [by exists m, []|]. inversion Hl as [|? ? Hop Hl']; subst. cbn [rnti_run].
  pose proof (table_size m H) as Hs. destruct op as [|crnti ue|crnti|crnti]; cbn [rnti_step rnti_op_ok] in *.
  - destruct (allocate_ok m H) as (m' & r & -> & H' & Et & Hr). cbn [mbind outcome_bind].
    destruct (IH m' H' Hl') as (m'' & rs & -> & H'' & El & Hrs). cbn [mbind outcome_bind]. eexists _, _. split; [reflexivity|]. split; [done|].
    cbn. rewrite El. by rewrite Et in Hrs.
  - destruct Hop as [Hr Hu]. destruct (table_add_ok m crnti ue H Hs Hr Hu) as (t & -> & Et & H'). cbn [mbind outcome_bind].
    destruct (IH _ H' Hl') as (m'' & rs & -> & H'' & El & Hrs). cbn [mbind outcome_bind]. eexists _, _. split; [reflexivity|]. split; [done|].
    cbn. rewrite El. cbn in Hrs. by rewrite Et in Hrs.
  - destruct (table_rem_ok m crnti H Hs Hop) as (t & -> & Et & H'). cbn [mbind outcome_bind].
    destruct (IH _ H' Hl') as (m'' & rs & -> & H'' & El & Hrs). cbn [mbind outcome_bind]. eexists _, _. split; [reflexivity|]. split; [done|].
    cbn. rewrite El. cbn in Hrs. by rewrite Et in Hrs.
  - rewrite table_get_ok by done. cbn [mbind outcome_bind]. destruct (IH m H Hl') as (m'' & rs & -> & H'' & El & Hrs). cbn [mbind outcome_bind].
    eexists _, _. split; [reflexivity|]. split; [done|]. cbn. by rewrite El.
Qed.

(** The RNTI manager of the MAC is a map from C-RNTIs to UEs: lookups give the UE added last, and allocation ends, with a C-RNTI that no UE uses, whenever the DU
    has fewer than its 1024 UEs, and refuses otherwise. *)
Theorem rnti_manager_refines_map initial l :
  is_crnti initial = true -> Forall rnti_op_ok l ->
  exists m m' rs, rnti_manager_ctor initial = ok m /\ rnti_run m l = ok (m', rs) /\ fst <$> rs = l /\ rntis_ok ∅ rs.
Proof.
  intros Hi Hl. unfold rnti_manager_ctor. rewrite Hi. cbn [srsran_assert mbind outcome_bind]. eexists.
  destruct (rnti_run_ok l (mk_rnti_manager rnti_table_init (u16 (initial - MIN_CRNTI)))) as (m' & rs & E & _ & El & Hrs); [|done|].
  - split; cbn; [by rewrite map_size_empty|by intros r ue; rewrite lookup_empty|apply Z.mod_pos_bound; lia].
  - exists m', rs. split; [reflexivity|]. by split_and!.
Qed.

Lemma rnti_manager_refines_map_witness :
  exists m m' rs, rnti_manager_ctor 0x4601 = ok m /\
    rnti_run m [rnti_allocate; rnti_add 0x4601 0; rnti_allocate; rnti_find 0x4601; rnti_rem 0x4601; rnti_find 0x4601] = ok (m', rs) /\
    fst <$> rs = [rnti_allocate; rnti_add 0x4601 0; rnti_allocate; rnti_find 0x4601; rnti_rem 0x4601; rnti_find 0x4601] /\ rntis_ok ∅ rs.
Proof. apply rnti_manager_refines_map; [reflexivity|]. repeat constructor. Defined.

(** The last C-RNTI is followed by the first. *)
Example allocate_wraps :
  match allocate (mk_rnti_manager rnti_table_init 65518) with
  | ok (m, r) => r = 0xffef /\ match allocate m with ok (_, r') => r' = 1 | fail _ => False end
  | fail _ => False
  end.
Proof. by vm_compute. Qed.
