(* ===== verification/MacUl.v ===== *)
(** * The receiving side of the MAC

    The UEs of the UL MAC ([lib/mac/mac_ul/mac_ul_ue_manager.{h,cpp}]), the handler of received PDUs ([pdu_rx_handler.{h,cpp}]) and the processor in front of it
    ([mac_ul_processor.cpp]). Executors are queues of tasks, which run in order; an executor may also run a task at once, or refuse it. *)
From S2P Require Import Prelude MacUlPdu MacRnti.

(** ** UEs *)

(** A bearer is known by the notifier that takes its SDUs. *)
Record mac_ul_ue_context := mk_ul_ue { ulue_index : Z; ulue_rnti : Z; rrc_config_pending : bool; ul_bearers : gmap Z Z }.
Abbreviation ul_ue_db := (gmap Z mac_ul_ue_context).

(** [slotted_vector::insert]: an element that exists stays. *)
Definition insert_bearer (m : gmap Z Z) (b : Z * Z) : gmap Z Z :=
  match m !! b.1 with Some _ => m | None => <[b.1 := b.2]> m end.

Definition ul_addmod_bearers (db : ul_ue_db) (ue_index : Z) (bearers : list (Z * Z)) : ul_ue_db * bool :=
  match bearers with
  | [] => (db, true)
  | _ =>
      match db !! ue_index with
      | None => (db, false)
      | Some u => (<[ue_index := mk_ul_ue (ulue_index u) (ulue_rnti u) true (foldl insert_bearer (ul_bearers u) bearers)]> db, true)
      end
  end.

Definition ul_remove_bearers (db : ul_ue_db) (ue_index : Z) (lcids : list Z) : ul_ue_db * bool :=
  match lcids with
  | [] => (db, true)
  | _ =>
      match db !! ue_index with
      | None => (db, false)
      | Some u => (<[ue_index := mk_ul_ue (ulue_index u) (ulue_rnti u) true (foldl (fun m lcid => delete lcid m) (ul_bearers u) lcids)]> db, true)
      end
  end.

Definition ul_add_ue (db : ul_ue_db) (crnti ue_index : Z) (bearers : list (Z * Z)) : outcome (ul_ue_db * bool) :=
  _ ← srsran_assert (is_crnti crnti);
  _ ← srsran_assert (is_du_ue_index_valid ue_index);
  match db !! ue_index with
  | Some _ => ok (db, false)
  | None => ok (ul_addmod_bearers (<[ue_index := mk_ul_ue ue_index crnti false ∅]> db) ue_index bearers)
  end.

Definition ul_remove_ue (db : ul_ue_db) (ue_index : Z) : ul_ue_db := delete ue_index db.

Definition ul_config_applied (db : ul_ue_db) (ue_index : Z) : ul_ue_db :=
  match db !! ue_index with
  | None => db
  | Some u => <[ue_index := mk_ul_ue (ulue_index u) (ulue_rnti u) false (ul_bearers u)]> db
  end.

(** ** Received PDUs *)
Record decoded_mac_rx_pdu := mk_rx_ctx { slot_rx : Z; cell_index_rx : Z; ctx_ue_index : Z; ctx_rnti : Z; decoded_subpdus : list mac_ul_sch_subpdu }.

(** What the MAC tells the bearers, the DU manager and the scheduler. *)
Inductive mac_ul_event :=
| ev_new_sdu (notifier : Z) (sdu : bytes)
| ev_ul_bsr (cell_index ue_index rnti : Z) (format : bsr_format) (reports : list lcg_bsr_report)
| ev_ul_phr (cell_index ue_index rnti : Z) (phr : cell_ph_report)
| ev_ul_ccch (tc_rnti cell_index slot : Z) (msg : bytes)
| ev_crnti_ce (ue_index cell_index : Z)
| ev_ul_sched (cell_index slot ue_index rnti : Z)
| ev_con_res (ue_index : Z).

Definition handle_sdu (ue : option mac_ul_ue_context) (sdu : mac_ul_sch_subpdu) : list mac_ul_event * bool :=
  match ue with
  | None => ([], false)
  | Some ue =>
      match ul_bearers ue !! sub_lcid sdu with
      | None => ([], false)
      | Some notifier => ([ev_new_sdu notifier (sub_payload sdu)], true)
      end
  end.

(** The format of a BSR with this LCID. *)
Definition bsr_format_of (lcid : Z) : bsr_format :=
  if lcid =? SHORT_BSR then short_bsr else if lcid =? SHORT_TRUNC_BSR then short_trunc_bsr else if lcid =? LONG_BSR then long_bsr else long_trunc_bsr.

(** The BSR cases of [handle_mac_ce]. *)
Definition handle_bsr (ctx : decoded_mac_rx_pdu) (subpdu : mac_ul_sch_subpdu) : outcome (list mac_ul_event * bool) :=
  let lcid := sub_lcid subpdu in
  let ind reports := [ev_ul_bsr (cell_index_rx ctx) (ctx_ue_index ctx) (ctx_rnti ctx) (bsr_format_of lcid) reports] in
  if (lcid =? SHORT_BSR) || (lcid =? SHORT_TRUNC_BSR) then r ← decode_sbsr (sub_payload subpdu); ok (ind [r], true)
  else
    lbsr_report ← decode_lbsr (bsr_format_of lcid) (sub_payload subpdu);
    match lbsr_report with None => ok ([], false) | Some l => ok (ind l, true) end.

Definition is_bsr (lcid : Z) : bool := (lcid =? SHORT_BSR) || (lcid =? SHORT_TRUNC_BSR) || (lcid =? LONG_BSR) || (lcid =? LONG_TRUNC_BSR).

Definition handle_mac_ce (ctx : decoded_mac_rx_pdu) (subpdu : mac_ul_sch_subpdu) : outcome (list mac_ul_event * bool) :=
  let lcid := sub_lcid subpdu in
  if (lcid =? CCCH_SIZE_48) || (lcid =? CCCH_SIZE_64) then ok ([], negb (is_du_ue_index_valid (ctx_ue_index ctx)))
  else if is_bsr lcid then
    if negb (is_du_ue_index_valid (ctx_ue_index ctx)) then ok ([], false) else handle_bsr ctx subpdu
  else if lcid =? CRNTI then ok ([], decode_crnti_ce (sub_payload subpdu) =? ctx_rnti ctx)
  else if lcid =? SE_PHR then
    if negb (is_du_ue_index_valid (ctx_ue_index ctx)) then ok ([], false)
    else phr ← decode_se_phr (sub_payload subpdu); ok ([ev_ul_phr (cell_index_rx ctx) (ctx_ue_index ctx) (ctx_rnti ctx) phr], true)
  else ok ([], true).

(** The loop of [handle_rx_subpdus]. *)
Fixpoint handle_subpdus (ctx : decoded_mac_rx_pdu) (ue : option mac_ul_ue_context) (l : list mac_ul_sch_subpdu) : outcome (list mac_ul_event * bool) :=
  match l with
  | [] => ok ([], true)
  | subpdu :: l =>
      '(evs, ret) ← (if ul_is_sdu (sub_lcid subpdu) then ok (handle_sdu ue subpdu) else handle_mac_ce ctx subpdu);
      if negb ret then ok (evs, false) else '(evs', ret) ← handle_subpdus ctx ue l; ok (evs ++ evs', ret)
  end.

Definition handle_rx_subpdus (db : ul_ue_db) (ctx : decoded_mac_rx_pdu) : outcome (list mac_ul_event * bool) :=
  handle_subpdus ctx (db !! ctx_ue_index ctx) (decoded_subpdus ctx).

Definition positive_bsr (subpdu : mac_ul_sch_subpdu) : outcome bool :=
  let lcid := sub_lcid subpdu in
  if (lcid =? SHORT_TRUNC_BSR) || (lcid =? SHORT_BSR) then rep ← decode_sbsr (sub_payload subpdu); ok (0 <? buffer_size rep)
  else if (lcid =? LONG_TRUNC_BSR) || (lcid =? LONG_BSR) then
    lbsr_report ← decode_lbsr (bsr_format_of lcid) (sub_payload subpdu);
    ok (match lbsr_report with None => false | Some l => existsb (fun r => 0 <? buffer_size r) l end)
  else ok false.

Fixpoint contains_positive_bsr (l : list mac_ul_sch_subpdu) : outcome bool :=
  match l with
  | [] => ok false
  | subpdu :: l => b ← positive_bsr subpdu; if b : bool then ok true else contains_positive_bsr l
  end.

(** ** The handler and the processor *)
Inductive ul_task :=
| task_rx (slot cell_index rnti : Z) (pdu : bytes)
| task_crnti (ctx : decoded_mac_rx_pdu)
| task_ccch (ue_index : Z) (msg : bytes)
| task_config_applied (ue_index : Z).

Record mac_ul := mk_mac_ul { ul_rntis : rnti_value_table; ul_ues : ul_ue_db; ul_tasks : gmap Z (list ul_task); ul_out : list mac_ul_event }.

Definition ul_set_rntis (m : mac_ul) t := mk_mac_ul t (ul_ues m) (ul_tasks m) (ul_out m).
Definition ul_set_ues (m : mac_ul) db := mk_mac_ul (ul_rntis m) db (ul_tasks m) (ul_out m).
Definition ul_set_tasks (m : mac_ul) tasks := mk_mac_ul (ul_rntis m) (ul_ues m) tasks (ul_out m).
Definition ul_emit (m : mac_ul) evs := mk_mac_ul (ul_rntis m) (ul_ues m) (ul_tasks m) (ul_out m ++ evs).

Definition mac_ul_init : mac_ul := mk_mac_ul rnti_table_init ∅ ∅ [].

(** What [execute] of an executor does with a task. *)
Inductive dispatch := run_inline | run_later | queue_full.

(** The executors of a UE, and whether a buffer can be appended. *)
Section mac_ul.
Context (mac_ul_pdu_executor ctrl_executor : Z -> Z) (append_ok : bytes -> bool).

Definition ul_tasks_of (m : mac_ul) (exec : Z) : list ul_task := default [] (ul_tasks m !! exec).
Definition ul_defer (m : mac_ul) (exec : Z) (t : ul_task) : mac_ul := ul_set_tasks m (<[exec := ul_tasks_of m exec ++ [t]]> (ul_tasks m)).

(** The task that [handle_crnti_ce] dispatches. *)
Definition continue_crnti (m : mac_ul) (ctx : decoded_mac_rx_pdu) : outcome mac_ul :=
  match ul_ues m !! ctx_ue_index ctx with
  | None => ok m
  | Some _ =>
      '(evs, ret) ← handle_rx_subpdus (ul_ues m) ctx;
      if negb ret then ok (ul_emit m evs)
      else
        positive ← contains_positive_bsr (decoded_subpdus ctx);
        ok (ul_emit m (evs ++ [ev_crnti_ce (ctx_ue_index ctx) (cell_index_rx ctx)] ++
              (if positive : bool then [] else [ev_ul_sched (cell_index_rx ctx) (slot_rx ctx) (ctx_ue_index ctx) (ctx_rnti ctx)])))
  end.

Definition handle_crnti_ce (how : dispatch) (m : mac_ul) (ctx : decoded_mac_rx_pdu) (subpdu : mac_ul_sch_subpdu) : outcome (mac_ul * bool) :=
  let rnti := decode_crnti_ce (sub_payload subpdu) in
  if negb (is_crnti rnti) then ok (m, false)
  else
    ue_index ← table_get (ul_rntis m) rnti;
    if ue_index =? INVALID_DU_UE_INDEX then ok (m, false)
    else
      let new_ctx := mk_rx_ctx (slot_rx ctx) (cell_index_rx ctx) ue_index rnti (decoded_subpdus ctx) in
      match how with
      | run_inline => m ← continue_crnti m new_ctx; ok (m, true)
      | run_later => ok (ul_defer m (mac_ul_pdu_executor ue_index) (task_crnti new_ctx), true)
      | queue_full => ok (m, true)
      end.

Definition handle_ccch_msg (m : mac_ul) (ctx : decoded_mac_rx_pdu) (sdu : mac_ul_sch_subpdu) : outcome (mac_ul * bool) :=
  _ ← srsran_assert (ctx_ue_index ctx =? INVALID_DU_UE_INDEX);
  if negb (append_ok (sub_payload sdu)) then ok (m, false)
  else ok (ul_emit m [ev_ul_ccch (ctx_rnti ctx) (cell_index_rx ctx) (slot_rx ctx) (sub_payload sdu)], true).

(** Msg3: the C-RNTI CE or CCCH message that is last in the PDU. *)
Definition is_msg3_ce (subpdu : mac_ul_sch_subpdu) : bool :=
  (sub_lcid subpdu =? CRNTI) || (sub_lcid subpdu =? CCCH_SIZE_48) || (sub_lcid subpdu =? CCCH_SIZE_64).

Definition handle_rx_pdu (how : dispatch) (m : mac_ul) (slot cell_index rnti : Z) (pdu : bytes) : outcome (mac_ul * bool) :=
  ue_index ← table_get (ul_rntis m) rnti;
  '(subpdus, ret) ← mac_ul_sch_pdu_unpack pdu;
  if negb ret then ok (m, false)
  else
    let ctx := mk_rx_ctx slot cell_index ue_index rnti subpdus in
    let rest := '(evs, ret) ← handle_rx_subpdus (ul_ues m) ctx; ok (ul_emit m evs, ret) in
    if is_du_ue_index_valid ue_index then rest
    else
      match List.find is_msg3_ce (rev subpdus) with
      | Some subpdu => if sub_lcid subpdu =? CRNTI then handle_crnti_ce how m ctx subpdu else handle_ccch_msg m ctx subpdu
      | None => rest
      end.

Definition push_ul_ccch_msg (m : mac_ul) (ue_index : Z) (msg : bytes) : mac_ul * bool :=
  match ul_ues m !! ue_index with
  | None => (m, false)
  | Some ue =>
      match ul_bearers ue !! 0 with
      | None => (m, false)
      | Some notifier => (ul_emit m [ev_new_sdu notifier msg; ev_con_res ue_index], true)
      end
  end.

(** [how]: what the executors do with the tasks that this task dispatches. *)
Definition run_ul_task (how : dispatch) (m : mac_ul) (t : ul_task) : outcome mac_ul :=
  match t with
  | task_rx slot cell_index rnti pdu => '(m, _) ← handle_rx_pdu how m slot cell_index rnti pdu; ok m
  | task_crnti ctx => continue_crnti m ctx
  | task_ccch ue_index msg => ok (push_ul_ccch_msg m ue_index msg).1
  | task_config_applied ue_index => ok (ul_set_ues m (ul_config_applied (ul_ues m) ue_index))
  end.

Definition execute (hows : dispatch * dispatch) (m : mac_ul) (exec : Z) (t : ul_task) : outcome (mac_ul * bool) :=
  match hows.1 with
  | run_inline => m ← run_ul_task hows.2 m t; ok (m, true)
  | run_later => ok (ul_defer m exec t, true)
  | queue_full => ok (m, false)
  end.

Fixpoint handle_rx_data_indication (hows : dispatch * dispatch) (m : mac_ul) (slot cell_index : Z) (pdus : list (Z * bytes)) : outcome mac_ul :=
  match pdus with
  | [] => ok m
  | (_, []) :: pdus => handle_rx_data_indication hows m slot cell_index pdus
  | (rnti, pdu) :: pdus =>
      ue_index ← table_get (ul_rntis m) rnti;
      '(m, _) ← execute hows m (mac_ul_pdu_executor ue_index) (task_rx slot cell_index rnti pdu);
      handle_rx_data_indication hows m slot cell_index pdus
  end.

Inductive mac_ul_input :=
| ul_in_rnti_add (crnti ue_index : Z)
| ul_in_rnti_rem (crnti : Z)
| ul_in_add_ue (crnti ue_index : Z) (bearers : list (Z * Z))
| ul_in_addmod (ue_index : Z) (bearers : list (Z * Z))
| ul_in_remove (ue_index : Z) (lcids : list Z)
| ul_in_remove_ue (ue_index : Z)
| ul_in_flush_ccch (ue_index : Z) (msg : bytes)
| ul_in_config_applied (ue_index : Z)
| ul_in_rx (slot cell_index : Z) (pdus : list (Z * bytes))
| ul_in_task (exec : Z).

Definition mac_ul_step (hows : dispatch * dispatch) (m : mac_ul) (i : mac_ul_input) : outcome mac_ul :=
  match i with
  | ul_in_rnti_add crnti ue_index => '(t, _) ← table_add_ue (ul_rntis m) crnti ue_index; ok (ul_set_rntis m t)
  | ul_in_rnti_rem crnti => t ← table_rem_ue (ul_rntis m) crnti; ok (ul_set_rntis m t)
  | ul_in_add_ue crnti ue_index bearers => '(db, _) ← ul_add_ue (ul_ues m) crnti ue_index bearers; ok (ul_set_ues m db)
  | ul_in_addmod ue_index bearers => ok (ul_set_ues m (ul_addmod_bearers (ul_ues m) ue_index bearers).1)
  | ul_in_remove ue_index lcids => ok (ul_set_ues m (ul_remove_bearers (ul_ues m) ue_index lcids).1)
  | ul_in_remove_ue ue_index => ok (ul_set_ues m (ul_remove_ue (ul_ues m) ue_index))
  | ul_in_flush_ccch ue_index msg => '(m, _) ← execute hows m (ctrl_executor ue_index) (task_ccch ue_index msg); ok m
  | ul_in_config_applied ue_index => '(m, _) ← execute hows m (ctrl_executor ue_index) (task_config_applied ue_index); ok m
  | ul_in_rx slot cell_index pdus => handle_rx_data_indication hows m slot cell_index pdus
  | ul_in_task exec =>
      match ul_tasks_of m exec with
      | [] => ok m
      | t :: tasks => run_ul_task hows.2 (ul_set_tasks m (<[exec := tasks]> (ul_tasks m))) t
      end
  end.

Fixpoint mac_ul_run (m : mac_ul) (l : list ((dispatch * dispatch) * mac_ul_input)) : outcome mac_ul :=
  match l with
  | [] => ok m
  | (hows, i) :: l => m ← mac_ul_step hows m i; mac_ul_run m l
  end.
End mac_ul.
