(* ===== verification/MacUlRx.v ===== *)
(** * The receiving side of the MAC: properties

    What the handler makes of a PDU: indications of its subPDUs, in their order, up to the first that is not acceptable; Msg3; and that no sequence of inputs
    makes it fail unless a UE sends a long BSR of length zero. *)
From S2P Require Import Prelude MacUlPdu MacUlProps MacRnti MacUl.

(** ** SubPDUs *)

(** What unpacking guarantees of a payload, and the control elements that the decoder is not prepared for. *)
Definition well_sized (s : mac_ul_sch_subpdu) : Prop :=
  is_bytes (sub_payload s) /\ 0 <= sub_lcid s < 64 /\
  (ul_has_length_field (sub_lcid s) = false -> sub_lcid s <> PADDING -> zlen (sub_payload s) = ul_sizeof_ce (sub_lcid s)).

Definition is_lbsr (lcid : Z) : bool := (lcid =? LONG_BSR) || (lcid =? LONG_TRUNC_BSR).
Definition no_empty_lbsr (s : mac_ul_sch_subpdu) : Prop := is_lbsr (sub_lcid s) = true -> sub_payload s <> [].

Lemma subpdu_octets_sized s o : is_bytes o -> subpdu_octets s o -> well_sized s.
Proof.
  intros Hb Hs. revert Hb. destruct Hs as [r lcid payload Hr Hl Hp|r lcid payload Hr Hl Hp|r F_bit lcid payload Hr Hl Hv Hh Hp]; intros Hb;
    unfold well_sized; cbn [sub_payload sub_lcid]; unfold is_bytes in Hb; rewrite ?Forall_cons in Hb.
  - destruct (has_length_lcid lcid Hl) as (? & _). split_and!; [apply Hb|lia|lia|by rewrite Hl].
  - destruct (has_length_lcid lcid Hl) as (? & _). split_and!; [apply Hb|lia|lia|by rewrite Hl].
  - unfold PADDING in Hl. split_and!; [apply Hb|lia|lia|done].
Qed.

Lemma pdu_octets_sized l p : pdu_octets l p -> is_bytes p -> Forall well_sized l.
Proof.
  induction 1 as [|r F_bit padding Hr|s o l os Hs Hl IH]; intros Hb; [done| |].
  - apply Forall_cons in Hb as [_ Hb]. constructor; [|done]. unfold well_sized, PADDING. cbn. split_and!; done || lia.
  - apply Forall_app in Hb as [Ho Hos]. constructor; [exact (subpdu_octets_sized s o Ho Hs)|by apply IH].
Qed.

(** ** Acceptance and indications *)

(** A subPDU of a PDU that is received from the UE [u] with [rnti]. *)
Definition accepted (u : mac_ul_ue_context) (rnti : Z) (s : mac_ul_sch_subpdu) : bool :=
  if ul_is_sdu (sub_lcid s) then bool_decide (is_Some (ul_bearers u !! sub_lcid s))
  else if ul_is_ccch (sub_lcid s) then false
  else if is_lbsr (sub_lcid s) then
    match decode_lbsr (bsr_format_of (sub_lcid s)) (sub_payload s) with ok (Some _) => true | _ => false end
  else if sub_lcid s =? CRNTI then decode_crnti_ce (sub_payload s) =? rnti
  else true.

Definition of_ok {A} (x : outcome (option A)) : option A := match x with ok a => a | fail _ => None end.

(** The reports of a BSR: those of a short one are LCG and level in one octet. *)
Definition reports_of (s : mac_ul_sch_subpdu) : list lcg_bsr_report :=
  if is_lbsr (sub_lcid s) then default [] (of_ok (decode_lbsr (bsr_format_of (sub_lcid s)) (sub_payload s)))
  else match sub_payload s with b :: _ => [mk_lcg_bsr (b / 32) (b mod 32)] | [] => [] end.

Definition indication (cell ue_index rnti : Z) (u : mac_ul_ue_context) (s : mac_ul_sch_subpdu) : list mac_ul_event :=
  if ul_is_sdu (sub_lcid s) then match ul_bearers u !! sub_lcid s with Some n => [ev_new_sdu n (sub_payload s)] | None => [] end
  else if is_bsr (sub_lcid s) then [ev_ul_bsr cell ue_index rnti (bsr_format_of (sub_lcid s)) (reports_of s)]
  else if sub_lcid s =? SE_PHR then match decode_se_phr (sub_payload s) with ok phr => [ev_ul_phr cell ue_index rnti phr] | fail _ => [] end
  else [].

(** The subPDUs before the first that is not accepted. *)
Fixpoint accepted_prefix (u : mac_ul_ue_context) (rnti : Z) (l : list mac_ul_sch_subpdu) : list mac_ul_sch_subpdu :=
  match l with
  | [] => []
  | s :: l => if accepted u rnti s then s :: accepted_prefix u rnti l else []
  end.

Definition indications (cell ue_index rnti : Z) (u : mac_ul_ue_context) (l : list mac_ul_sch_subpdu) : list mac_ul_event :=
  concat (indication cell ue_index rnti u <$> accepted_prefix u rnti l).

Definition all_accepted (u : mac_ul_ue_context) (rnti : Z) (l : list mac_ul_sch_subpdu) : bool := forallb (accepted u rnti) l.

(** The LCIDs that [handle_mac_ce] treats: values of an enumeration. *)
Lemma lcid_cases lcid :
  0 <= lcid < 64 -> ul_is_sdu lcid = false ->
  ul_is_ccch lcid = true \/ (ul_is_ccch lcid = false /\
    (lcid = SHORT_BSR \/ lcid = SHORT_TRUNC_BSR \/ lcid = LONG_BSR \/ lcid = LONG_TRUNC_BSR \/ lcid = CRNTI \/ lcid = SE_PHR \/
     (is_bsr lcid = false /\ is_lbsr lcid = false /\ (lcid =? CRNTI) = false /\ (lcid =? SE_PHR) = false))).
Proof.
  intros Hl Hs. destruct (ul_is_ccch lcid) eqn:E; [by left|right]. split; [done|].
  destruct (decide (lcid = SHORT_BSR)); [tauto|]. destruct (decide (lcid = SHORT_TRUNC_BSR)); [tauto|]. destruct (decide (lcid = LONG_BSR)); [tauto|].
  destruct (decide (lcid = LONG_TRUNC_BSR)); [tauto|]. destruct (decide (lcid = CRNTI)); [tauto|]. destruct (decide (lcid = SE_PHR)); [tauto|].
  do 6 right. unfold is_bsr, is_lbsr. rewrite !(proj2 (Z.eqb_neq _ _)) by done. done.
Qed.

Lemma handle_bsr_ok ctx s :
  well_sized s -> no_empty_lbsr s -> is_bsr (sub_lcid s) = true ->
  handle_bsr ctx s =
  ok (if is_lbsr (sub_lcid s) && negb (match of_ok (decode_lbsr (bsr_format_of (sub_lcid s)) (sub_payload s)) with Some _ => true | None => false end) then ([], false)
      else ([ev_ul_bsr (cell_index_rx ctx) (ctx_ue_index ctx) (ctx_rnti ctx) (bsr_format_of (sub_lcid s)) (reports_of s)], true)).
Proof.
  destruct s as [lcid hl F_bit payload]. unfold well_sized, no_empty_lbsr, handle_bsr, reports_of. cbn [sub_lcid sub_payload]. intros (Hb & _ & Hz) Hne His.
  destruct (is_lbsr lcid) eqn:El.
  - unfold is_lbsr in El. replace ((lcid =? SHORT_BSR) || (lcid =? SHORT_TRUNC_BSR)) with false
      by (apply orb_true_iff in El as [->%Z.eqb_eq| ->%Z.eqb_eq]; reflexivity).
    destruct (decode_lbsr_ok (bsr_format_of lcid) payload (Hne eq_refl)) as (r & ->). cbn [mbind outcome_bind of_ok andb]. by destruct r.
  - unfold is_lbsr in El. apply orb_false_iff in El as [E1 E2]. unfold is_bsr in His. rewrite E1, E2, !orb_false_r in His. rewrite His.
    assert (Hsz : zlen payload = 1).
    { rewrite Hz; [|by apply orb_true_iff in His as [->%Z.eqb_eq| ->%Z.eqb_eq]..]. by apply orb_true_iff in His as [->%Z.eqb_eq| ->%Z.eqb_eq]. }
    destruct payload as [|b [|]]; [done| |cbn [length] in Hsz; lia]. inversion Hb; subst. rewrite decode_sbsr_octet by done. done.
Qed.

(** One subPDU of a PDU of a UE that exists. *)
Lemma handle_subpdu_ok ctx u s :
  is_du_ue_index_valid (ctx_ue_index ctx) = true -> well_sized s -> no_empty_lbsr s ->
  (if ul_is_sdu (sub_lcid s) then ok (handle_sdu (Some u) s) else handle_mac_ce ctx s) =
  ok (if accepted u (ctx_rnti ctx) s then indication (cell_index_rx ctx) (ctx_ue_index ctx) (ctx_rnti ctx) u s else [], accepted u (ctx_rnti ctx) s).
Proof.
  intros Hv Hw Hn. unfold accepted, indication. destruct (ul_is_sdu (sub_lcid s)) eqn:Es.
  { unfold handle_sdu. destruct (ul_bearers u !! sub_lcid s) eqn:E; [rewrite bool_decide_eq_true_2 by eauto|rewrite bool_decide_eq_false_2]; [done..|].
    by intros [? ?]. }
  unfold handle_mac_ce. rewrite Hv. pose proof Hw as (Hb & Hl & Hz).
  destruct (lcid_cases (sub_lcid s) Hl Es) as [E|[E Hc]]; rewrite E; fold (ul_is_ccch (sub_lcid s)); rewrite E; [done|]. cbn [negb].
  destruct (is_bsr (sub_lcid s)) eqn:Eb.
  - rewrite handle_bsr_ok by done. replace (sub_lcid s =? CRNTI) with false
      by (symmetry; apply Z.eqb_neq; intros E0; rewrite E0 in Eb; vm_compute in Eb; done).
    destruct (is_lbsr (sub_lcid s)) eqn:El; [|done]. unfold of_ok.
    destruct (decode_lbsr_ok (bsr_format_of (sub_lcid s)) (sub_payload s) (Hn El)) as (r & ->). by destruct r.
  - replace (is_lbsr (sub_lcid s)) with false by (symmetry; unfold is_bsr in Eb; unfold is_lbsr; apply orb_false_iff in Eb as [Eb ->];
      apply orb_false_iff in Eb as [_ ->]; done).
    destruct (sub_lcid s =? CRNTI) eqn:Ec.
    + apply Z.eqb_eq in Ec. rewrite Ec. cbn. by case_match.
    + destruct (sub_lcid s =? SE_PHR) eqn:Ep; [|done]. apply Z.eqb_eq in Ep.
      destruct (decode_se_phr_ok (sub_payload s)) as (phr & ->); [|done]. rewrite Hz; by rewrite Ep.
Qed.

Lemma handle_subpdus_ok ctx u l :
  is_du_ue_index_valid (ctx_ue_index ctx) = true -> Forall well_sized l -> Forall no_empty_lbsr l ->
  handle_subpdus ctx (Some u) l =
  ok (indications (cell_index_rx ctx) (ctx_ue_index ctx) (ctx_rnti ctx) u l, all_accepted u (ctx_rnti ctx) l).
Proof.
  intros Hv Hw Hn. unfold indications, all_accepted. induction l as [|s l IH]; [done|]. apply Forall_cons in Hw as [Hs Hw]. apply Forall_cons in Hn as [Hns Hn].
  cbn [handle_subpdus accepted_prefix forallb]. rewrite handle_subpdu_ok by done. cbn [mbind outcome_bind].
  destruct (accepted u (ctx_rnti ctx) s); cbn [negb andb]; [|done]. rewrite IH by done. done.
Qed.

(** For a UE that does not exist any more nothing is indicated. *)
Lemma handle_subpdus_none ctx l :
  is_du_ue_index_valid (ctx_ue_index ctx) = false -> Forall well_sized l ->
  exists b, handle_subpdus ctx None l = ok ([], b).
Proof.
  intros Hv. induction l as [|s l IH]; intros Hw; [by exists true|]. apply Forall_cons in Hw as [Hs Hw]. cbn [handle_subpdus].
  assert (H : exists b, (if ul_is_sdu (sub_lcid s) then ok (handle_sdu None s) else handle_mac_ce ctx s) = ok ([], b)).
  { destruct (ul_is_sdu _); [by exists false|]. unfold handle_mac_ce. rewrite Hv. cbn [negb].
    repeat (case_match; [eauto|]). eauto. }
  destruct H as (b & ->). cbn [mbind outcome_bind]. destruct b; [|by exists false]. cbn [negb]. destruct (IH Hw) as (b & ->). by exists b.
Qed.

(** ** PDUs of a UE *)
Section receive.
Context (mac_ul_pdu_executor ctrl_executor : Z -> Z) (append_ok : bytes -> bool).

Lemma well_formed_unpack l p :
  pdu_octets l p -> zlen l <= MAX_SUBPDUS_PER_PDU -> mac_ul_sch_pdu_unpack p = ok (l, true).
Proof. intros Hl Hm. unfold mac_ul_sch_pdu_unpack. apply (unpack_subpdus_complete l p Hl (S (length p)) []); cbn [length]; lia. Qed.

Lemma valid_index_lt ue : is_du_ue_index_valid ue = true <-> ue < 1024.
Proof. apply Z.ltb_lt. Qed.

(** C13: a well-formed PDU of a UE that the MAC knows: its SDUs go to their bearers and its BSRs and PHRs to the scheduler, in the order of the PDU, each with what the UE
    encoded, up to the first subPDU that is not for this UE (no such bearer, UL-CCCH, another C-RNTI, an invalid BSR); the call tells whether there is one. *)
Theorem mac_ul_pdu_handled how m slot cell rnti p l ue u :
  is_bytes p -> pdu_octets l p -> zlen l <= MAX_SUBPDUS_PER_PDU -> Forall no_empty_lbsr l ->
  table_get (ul_rntis m) rnti = ok ue -> is_du_ue_index_valid ue = true -> ul_ues m !! ue = Some u ->
  handle_rx_pdu mac_ul_pdu_executor append_ok how m slot cell rnti p = ok (ul_emit m (indications cell ue rnti u l), all_accepted u rnti l).
Proof.
  intros Hp Hl Hm Hn Ht Hv Hu. unfold handle_rx_pdu. rewrite Ht. cbn [mbind outcome_bind]. rewrite (well_formed_unpack l p Hl Hm). cbn [mbind outcome_bind negb].
  rewrite Hv. unfold handle_rx_subpdus. cbn [ctx_ue_index decoded_subpdus]. rewrite Hu.
  rewrite handle_subpdus_ok by (done || by eapply pdu_octets_sized). done.
Qed.

(** ** Msg3 *)

Lemma positive_bsr_ok s : well_sized s -> no_empty_lbsr s -> positive_bsr s = ok (is_bsr (sub_lcid s) && existsb (fun r => 0 <? buffer_size r) (reports_of s)).
Proof.
  destruct s as [lcid hl F_bit payload]. unfold well_sized, no_empty_lbsr, positive_bsr, reports_of. cbn [sub_lcid sub_payload]. intros (Hb & _ & Hz) Hne.
  destruct (is_lbsr lcid) eqn:El.
  - unfold is_lbsr in El. destruct (decode_lbsr_ok (bsr_format_of lcid) payload (Hne eq_refl)) as (r & E). rewrite E.
    apply orb_true_iff in El as [->%Z.eqb_eq| ->%Z.eqb_eq]; cbn [mbind outcome_bind of_ok]; rewrite ?E; cbn; by destruct r.
  - destruct ((lcid =? SHORT_TRUNC_BSR) || (lcid =? SHORT_BSR)) eqn:Es.
    + assert (Hsz : zlen payload = 1) by (rewrite Hz; by apply orb_true_iff in Es as [->%Z.eqb_eq| ->%Z.eqb_eq]).
      destruct payload as [|b [|]]; [done| |cbn [length] in Hsz; lia]. inversion Hb; subst. rewrite decode_sbsr_octet by done.
      cbn [mbind outcome_bind existsb buffer_size]. rewrite orb_false_r. by apply orb_true_iff in Es as [->%Z.eqb_eq| ->%Z.eqb_eq].
    + unfold is_lbsr in El. rewrite (orb_comm (lcid =? LONG_TRUNC_BSR)), El. unfold is_bsr. rewrite (orb_comm (lcid =? SHORT_BSR)), Es. cbn [orb].
      by rewrite El.
Qed.

Definition positive (s : mac_ul_sch_subpdu) : bool := is_bsr (sub_lcid s) && existsb (fun r => 0 <? buffer_size r) (reports_of s).

Lemma contains_positive_bsr_ok l : Forall well_sized l -> Forall no_empty_lbsr l -> contains_positive_bsr l = ok (existsb positive l).
Proof.
  induction l as [|s l IH]; intros Hw Hn; [done|]. apply Forall_cons in Hw as [Hs Hw]. apply Forall_cons in Hn as [Hns Hn]. cbn [contains_positive_bsr existsb].
  rewrite positive_bsr_ok by done. fold (positive s). cbn [mbind outcome_bind]. destruct (positive s); [done|]. by rewrite IH.
Qed.

(** What is indicated once the C-RNTI of the UE is known: the subPDUs, and, if all of them are accepted, the end of the random access. *)
Definition crnti_indications (slot cell ue rnti : Z) (u : mac_ul_ue_context) (l : list mac_ul_sch_subpdu) : list mac_ul_event :=
  indications cell ue rnti u l ++
  (if all_accepted u rnti l then ev_crnti_ce ue cell :: (if existsb positive l then [] else [ev_ul_sched cell slot ue rnti]) else []).

Lemma continue_crnti_ok m slot cell ue rnti u l :
  Forall well_sized l -> Forall no_empty_lbsr l -> is_du_ue_index_valid ue = true -> ul_ues m !! ue = Some u ->
  continue_crnti m (mk_rx_ctx slot cell ue rnti l) = ok (ul_emit m (crnti_indications slot cell ue rnti u l)).
Proof.
  intros Hw Hn Hv Hu. unfold continue_crnti, crnti_indications, handle_rx_subpdus. cbn [ctx_ue_index decoded_subpdus cell_index_rx slot_rx ctx_rnti]. rewrite Hu.
  rewrite handle_subpdus_ok by done. cbn [mbind outcome_bind ctx_rnti cell_index_rx ctx_ue_index]. destruct (all_accepted u rnti l); cbn [negb]; [|by rewrite app_nil_r].
  rewrite contains_positive_bsr_ok by done. cbn [mbind outcome_bind]. by destruct (existsb positive l).
Qed.

(** Msg3, a PDU with an RNTI that is no UE's yet. If its last C-RNTI CE or UL-CCCH message is a C-RNTI CE, the PDU is handled as one of the UE that
    had this C-RNTI, the scheduler is told, and is asked for a grant unless a BSR of the PDU does; if it is a UL-CCCH message, this message, and nothing else, is forwarded. *)
Theorem mac_ul_msg3 m slot cell rnti p l s :
  is_bytes p -> pdu_octets l p -> zlen l <= MAX_SUBPDUS_PER_PDU -> Forall no_empty_lbsr l ->
  table_get (ul_rntis m) rnti = ok INVALID_DU_UE_INDEX -> List.find is_msg3_ce (rev l) = Some s ->
  (sub_lcid s = CRNTI -> forall ue u, let old := decode_crnti_ce (sub_payload s) in
     is_crnti old = true -> table_get (ul_rntis m) old = ok ue -> is_du_ue_index_valid ue = true -> ul_ues m !! ue = Some u ->
     handle_rx_pdu mac_ul_pdu_executor append_ok run_inline m slot cell rnti p = ok (ul_emit m (crnti_indications slot cell ue old u l), true)) /\
  (sub_lcid s <> CRNTI -> append_ok (sub_payload s) = true -> forall how,
     handle_rx_pdu mac_ul_pdu_executor append_ok how m slot cell rnti p = ok (ul_emit m [ev_ul_ccch rnti cell slot (sub_payload s)], true)).
Proof.
  intros Hp Hl Hm Hn Ht Hf. unfold handle_rx_pdu. rewrite Ht. cbn [mbind outcome_bind]. rewrite (well_formed_unpack l p Hl Hm). cbn [mbind outcome_bind negb].
  change (is_du_ue_index_valid INVALID_DU_UE_INDEX) with false. cbv iota. rewrite Hf. pose proof (pdu_octets_sized l p Hl Hp) as Hw. split.
  - intros Hc ue u Ho Hto Hv Hu. set (old := decode_crnti_ce (sub_payload s)) in *. rewrite (proj2 (Z.eqb_eq _ _) Hc). unfold handle_crnti_ce. fold old. rewrite Ho, Hto. cbn [negb mbind outcome_bind].
    apply valid_index_lt in Hv as Hlt. rewrite (proj2 (Z.eqb_neq ue INVALID_DU_UE_INDEX)) by (unfold INVALID_DU_UE_INDEX; lia).
    cbn [slot_rx cell_index_rx decoded_subpdus]. by rewrite (continue_crnti_ok m slot cell ue old u l Hw Hn Hv Hu).
  - intros Hc Ha how. rewrite (proj2 (Z.eqb_neq _ _) Hc). unfold handle_ccch_msg. cbn [ctx_ue_index]. rewrite Z.eqb_refl, Ha. done.
Qed.

(** ** No input makes the MAC fail *)

(** Events of an SDU whose payload satisfies [R]. *)
Variable R : bytes -> Prop.
Definition sdus_from (evs : list mac_ul_event) : Prop := forall n x, ev_new_sdu n x ∈ evs -> R x.
Definition subpdu_ok (s : mac_ul_sch_subpdu) : Prop := well_sized s /\ no_empty_lbsr s /\ (ul_is_sdu (sub_lcid s) = true -> R (sub_payload s)).

Lemma sdus_from_app evs evs' : sdus_from evs -> sdus_from evs' -> sdus_from (evs ++ evs').
Proof. intros H H' n x [?|?]%elem_of_app; eauto. Qed.
Lemma sdus_from_nil : sdus_from [].
Proof. by intros n x ?%elem_of_nil. Qed.
Lemma sdus_from_one ev : (forall n x, ev = ev_new_sdu n x -> R x) -> sdus_from [ev].
Proof. intros H n x E%list_elem_of_singleton. by apply (H n x). Qed.

Lemma handle_mac_ce_ok ctx s :
  well_sized s -> no_empty_lbsr s -> ul_is_sdu (sub_lcid s) = false -> exists evs b, handle_mac_ce ctx s = ok (evs, b) /\ sdus_from evs.
Proof.
  intros Hw Hn Hs. unfold handle_mac_ce. case_match; [eexists _, _; split; [reflexivity|apply sdus_from_nil]|].
  destruct (is_bsr (sub_lcid s)) eqn:Eb.
  - case_match; [eexists _, _; split; [reflexivity|apply sdus_from_nil]|]. rewrite handle_bsr_ok by done. case_match; (eexists _, _; split; [reflexivity|]);
      [apply sdus_from_nil|by apply sdus_from_one].
  - case_match; [eexists _, _; split; [reflexivity|apply sdus_from_nil]|]. case_match eqn:Ep; [|eexists _, _; split; [reflexivity|apply sdus_from_nil]].
    case_match; [eexists _, _; split; [reflexivity|apply sdus_from_nil]|]. apply Z.eqb_eq in Ep. destruct Hw as (_ & _ & Hz).
    destruct (decode_se_phr_ok (sub_payload s)) as (phr & ->); [by rewrite Hz; rewrite Ep|]. eexists _, _. split; [reflexivity|by apply sdus_from_one].
Qed.

Lemma handle_subpdus_total ctx ue l :
  Forall subpdu_ok l -> exists evs b, handle_subpdus ctx ue l = ok (evs, b) /\ sdus_from evs.
Proof.
  induction l as [|s l IH]; intros Hl; [by exists [], true; split; [|apply sdus_from_nil]|]. apply Forall_cons in Hl as [(Hw & Hn & Hr) Hl]. cbn [handle_subpdus].
  assert (H : exists evs b, (if ul_is_sdu (sub_lcid s) then ok (handle_sdu ue s) else handle_mac_ce ctx s) = ok (evs, b) /\ sdus_from evs).
  { destruct (ul_is_sdu (sub_lcid s)) eqn:Es; [|by apply handle_mac_ce_ok]. unfold handle_sdu.
    repeat (case_match; try (eexists _, _; split; [reflexivity|apply sdus_from_nil])). eexists _, _. split; [reflexivity|].
    apply sdus_from_one. intros n x [= _ <-]. by apply Hr. }
  destruct H as (evs & b & -> & Hev). cbn [mbind outcome_bind]. destruct b; cbn [negb]; [|by exists evs, false].
  destruct (IH Hl) as (evs' & b & -> & Hev'). cbn [mbind outcome_bind]. eexists _, _. split; [reflexivity|]. by apply sdus_from_app.
Qed.

Definition ul_pdu_ok (p : bytes) : Prop := is_bytes p /\ forall l, mac_ul_sch_pdu_unpack p = ok (l, true) -> Forall subpdu_ok l.

Definition ul_task_ok (t : ul_task) : Prop :=
  match t with
  | task_rx _ _ rnti pdu => is_crnti rnti = true /\ ul_pdu_ok pdu
  | task_crnti ctx => Forall subpdu_ok (decoded_subpdus ctx)
  | task_ccch _ msg => R msg
  | task_config_applied _ => True
  end.

Record mac_ul_inv (m : mac_ul) : Prop := {
  mu_rntis : rnti_inv (mk_rnti_manager (ul_rntis m) 0);
  mu_tasks : forall exec, Forall ul_task_ok (ul_tasks_of m exec);
  mu_out : sdus_from (ul_out m)
}.

Lemma mu_table m rnti : mac_ul_inv m -> is_crnti rnti = true -> exists ue, table_get (ul_rntis m) rnti = ok ue /\ ue <= INVALID_DU_UE_INDEX.
Proof.
  intros H Hr. rewrite table_get_ok by done. eexists. split; [reflexivity|]. destruct (_ !! rnti) as [ue|] eqn:E; [|done]. cbn.
  destruct (ri_entries _ (mu_rntis m H) rnti ue E) as [_ Hu]. unfold MAX_NOF_DU_UES in Hu. unfold INVALID_DU_UE_INDEX. lia.
Qed.

Lemma mu_emit m evs : mac_ul_inv m -> sdus_from evs -> mac_ul_inv (ul_emit m evs).
Proof. intros [H1 H2 H3] He. split; [done|done|]. by apply sdus_from_app. Qed.

Lemma mu_set_tasks m tasks : mac_ul_inv m -> (forall exec, Forall ul_task_ok (default [] (tasks !! exec))) -> mac_ul_inv (ul_set_tasks m tasks).
Proof. intros [H1 H2 H3] Ht. by split. Qed.

Lemma mu_insert_tasks m exec l : mac_ul_inv m -> Forall ul_task_ok l -> mac_ul_inv (ul_set_tasks m (<[exec := l]> (ul_tasks m))).
Proof.
  intros H Hl. apply mu_set_tasks; [done|]. intros exec'. destruct (decide (exec' = exec)) as [->|Hne]; [by rewrite lookup_insert_eq|].
  rewrite lookup_insert_ne by done. apply (mu_tasks m H).
Qed.

Lemma mu_defer m exec t : mac_ul_inv m -> ul_task_ok t -> mac_ul_inv (ul_defer m exec t).
Proof. intros H Ht. apply mu_insert_tasks; [done|]. apply Forall_app. split; [apply (mu_tasks m H)|by constructor]. Qed.

Lemma mu_set_ues m db : mac_ul_inv m -> mac_ul_inv (ul_set_ues m db).
Proof. intros [H1 H2 H3]. by split. Qed.

Lemma contains_positive_ok l : Forall subpdu_ok l -> exists b, contains_positive_bsr l = ok b.
Proof.
  intros Hl. eexists. apply contains_positive_bsr_ok; eapply Forall_impl; try exact Hl; by intros s (Hw & Hn & _).
Qed.

Lemma continue_crnti_total m ctx :
  mac_ul_inv m -> Forall subpdu_ok (decoded_subpdus ctx) -> exists m', continue_crnti m ctx = ok m' /\ mac_ul_inv m'.
Proof.
  intros H Hl. unfold continue_crnti. case_match; [|by exists m]. unfold handle_rx_subpdus.
  destruct (handle_subpdus_total ctx (ul_ues m !! ctx_ue_index ctx) (decoded_subpdus ctx) Hl) as (evs & b & -> & He). cbn [mbind outcome_bind].
  destruct b; cbn [negb]; [|eexists; split; [reflexivity|by apply mu_emit]]. destruct (contains_positive_ok _ Hl) as (b & ->). cbn [mbind outcome_bind].
  eexists. split; [reflexivity|]. apply mu_emit; [done|]. apply sdus_from_app; [done|]. apply sdus_from_app; [by apply sdus_from_one|].
  destruct b; [apply sdus_from_nil|by apply sdus_from_one].
Qed.

Lemma handle_crnti_ce_total how m ctx s :
  mac_ul_inv m -> Forall subpdu_ok (decoded_subpdus ctx) ->
  exists m' b, handle_crnti_ce mac_ul_pdu_executor how m ctx s = ok (m', b) /\ mac_ul_inv m'.
Proof.
  intros H Hl. unfold handle_crnti_ce. destruct (is_crnti _) eqn:Er; cbn [negb]; [|by exists m, false].
  destruct (mu_table m _ H Er) as (ue & -> & _). cbn [mbind outcome_bind]. case_match; [by exists m, false|]. destruct how.
  - match goal with |- context [continue_crnti m ?c] => destruct (continue_crnti_total m c H) as (m' & -> & H'); [done|] end. by exists m', true.
  - eexists _, _. split; [reflexivity|]. by apply mu_defer.
  - by exists m, true.
Qed.

Lemma handle_rx_pdu_total how m slot cell rnti p :
  mac_ul_inv m -> is_crnti rnti = true -> ul_pdu_ok p ->
  exists m' b, handle_rx_pdu mac_ul_pdu_executor append_ok how m slot cell rnti p = ok (m', b) /\ mac_ul_inv m'.
Proof.
  intros H Hr [Hp Hok]. unfold handle_rx_pdu. destruct (mu_table m rnti H Hr) as (ue & -> & Hu). cbn [mbind outcome_bind].
  destruct (unpack_subpdus_sound (S (length p)) p []) as (l & b & E & _ & _); [done|lia|done|]. fold (mac_ul_sch_pdu_unpack p) in E. rewrite E. cbn [mbind outcome_bind].
  destruct b; cbn [negb]; [|by exists m, false]. specialize (Hok l E).
  assert (Hrest : exists m' b, (x ← handle_rx_subpdus (ul_ues m) (mk_rx_ctx slot cell ue rnti l); let '(evs, ret) := x in ok (ul_emit m evs, ret)) = ok (m', b)
            /\ mac_ul_inv m').
  { unfold handle_rx_subpdus. destruct (handle_subpdus_total (mk_rx_ctx slot cell ue rnti l) (ul_ues m !! ue) l Hok) as (evs & b & Ev & He).
    cbn [ctx_ue_index decoded_subpdus]. rewrite Ev. cbn [mbind outcome_bind]. eexists _, _. split; [reflexivity|]. by apply mu_emit. }
  destruct (is_du_ue_index_valid ue) eqn:Hv; [exact Hrest|]. destruct (List.find is_msg3_ce (rev l)) as [s|] eqn:Ef; [|exact Hrest].
  destruct (sub_lcid s =? CRNTI); [by apply handle_crnti_ce_total|]. unfold handle_ccch_msg. cbn [ctx_ue_index].
  unfold is_du_ue_index_valid, MAX_NOF_DU_UES in Hv. unfold INVALID_DU_UE_INDEX in *. apply Z.ltb_ge in Hv. rewrite (proj2 (Z.eqb_eq ue 1024)) by lia.
  cbn [srsran_assert mbind outcome_bind]. case_match; [by exists m, false|]. eexists _, _. split; [reflexivity|]. apply mu_emit; [done|by apply sdus_from_one].
Qed.

Lemma run_ul_task_total how m t :
  mac_ul_inv m -> ul_task_ok t -> exists m', run_ul_task mac_ul_pdu_executor append_ok how m t = ok m' /\ mac_ul_inv m'.
Proof.
  intros H Ht. destruct t as [slot cell rnti pdu|ctx|ue msg|ue]; cbn [run_ul_task ul_task_ok] in *.
  - destruct Ht as [Hr Hp]. destruct (handle_rx_pdu_total how m slot cell rnti pdu H Hr Hp) as (m' & b & -> & H'). by exists m'.
  - by apply continue_crnti_total.
  - eexists. split; [reflexivity|]. unfold push_ul_ccch_msg. repeat case_match; cbn [fst]; try done. apply mu_emit; [done|].
    intros n x [E|E%list_elem_of_singleton]%elem_of_cons; [|done]. by injection E as _ ->.
  - eexists. split; [reflexivity|]. by apply mu_set_ues.
Qed.

Lemma execute_total hows m exec t :
  mac_ul_inv m -> ul_task_ok t -> exists m' b, execute mac_ul_pdu_executor append_ok hows m exec t = ok (m', b) /\ mac_ul_inv m'.
Proof.
  intros H Ht. unfold execute. destruct hows.1.
  - destruct (run_ul_task_total hows.2 m t H Ht) as (m' & -> & H'). by exists m', true.
  - eexists _, _. split; [reflexivity|]. by apply mu_defer.
  - by exists m, false.
Qed.

Lemma rx_data_total hows slot cell pdus : forall m,
  mac_ul_inv m -> Forall (fun x => is_crnti x.1 = true /\ ul_pdu_ok x.2) pdus ->
  exists m', handle_rx_data_indication mac_ul_pdu_executor append_ok hows m slot cell pdus = ok m' /\ mac_ul_inv m'.
Proof.
  induction pdus as [|[rnti pdu] pdus IH]; intros m H Hp; [by exists m|]. apply Forall_cons in Hp as [[Hr Hok] Hp]. cbn [fst snd] in *.
  cbn [handle_rx_data_indication]. destruct pdu as [|b pdu]; [by apply IH|]. destruct (mu_table m rnti H Hr) as (ue & -> & _). cbn [mbind outcome_bind].
  destruct (execute_total hows m (mac_ul_pdu_executor ue) (task_rx slot cell rnti (b :: pdu)) H) as (m' & r & -> & H'); [by split|].
  cbn [mbind outcome_bind]. by apply IH.
Qed.

Definition mac_ul_input_ok (i : mac_ul_input) : Prop :=
  match i with
  | ul_in_rnti_add crnti ue_index => is_crnti crnti = true /\ ue_index < MAX_NOF_DU_UES
  | ul_in_rnti_rem crnti => is_crnti crnti = true
  | ul_in_add_ue crnti ue_index _ => is_crnti crnti = true /\ is_du_ue_index_valid ue_index = true
  | ul_in_flush_ccch _ msg => R msg
  | ul_in_rx _ _ pdus => Forall (fun x => is_crnti x.1 = true /\ ul_pdu_ok x.2) pdus
  | _ => True
  end.

Lemma mac_ul_step_total hows m i :
  mac_ul_inv m -> mac_ul_input_ok i -> exists m', mac_ul_step mac_ul_pdu_executor ctrl_executor append_ok hows m i = ok m' /\ mac_ul_inv m'.
Proof.
  intros H Hi. pose proof (mu_rntis m H) as Ht. pose proof (table_size _ Ht) as Hs. destruct i; cbn [mac_ul_step mac_ul_input_ok] in *.
  - destruct Hi as [Hr Hu]. destruct (table_add_ok _ crnti ue_index Ht Hs Hr Hu) as (t & E & _ & Ht'). cbn [du_rnti_table] in E. rewrite E. eexists.
    split; [reflexivity|]. split; [done|apply (mu_tasks m H)|apply (mu_out m H)].
  - destruct (table_rem_ok _ crnti Ht Hs Hi) as (t & E & _ & Ht'). cbn [du_rnti_table] in E. rewrite E. eexists.
    split; [reflexivity|]. split; [done|apply (mu_tasks m H)|apply (mu_out m H)].
  - destruct Hi as [Hr Hv]. unfold ul_add_ue. rewrite Hr, Hv. cbn [srsran_assert mbind outcome_bind].
    destruct (ul_ues m !! ue_index); [|destruct (ul_addmod_bearers _ _ _) as [db r]]; cbn [mbind outcome_bind];
      (eexists; split; [reflexivity|]); by apply mu_set_ues.
  - eexists. split; [reflexivity|]. by apply mu_set_ues.
  - eexists. split; [reflexivity|]. by apply mu_set_ues.
  - eexists. split; [reflexivity|]. by apply mu_set_ues.
  - destruct (execute_total hows m (ctrl_executor ue_index) (task_ccch ue_index msg) H Hi) as (m' & b & -> & H'). by exists m'.
  - destruct (execute_total hows m (ctrl_executor ue_index) (task_config_applied ue_index) H I) as (m' & b & -> & H'). by exists m'.
  - by apply rx_data_total.
  - pose proof (mu_tasks m H exec) as Hts. destruct (ul_tasks_of m exec) as [|t tasks]; [by exists m|]. apply Forall_cons in Hts as [Ht1 Hts].
    apply run_ul_task_total; [|done]. by apply mu_insert_tasks.
Qed.

Lemma mac_ul_run_total l : forall m,
  mac_ul_inv m -> Forall (fun x => mac_ul_input_ok x.2) l ->
  exists m', mac_ul_run mac_ul_pdu_executor ctrl_executor append_ok m l = ok m' /\ mac_ul_inv m'.
Proof.
  induction l as [|[hows i] l IH]; intros m H Hl; [by exists m|]. apply Forall_cons in Hl as [Hi Hl]. cbn [mac_ul_run].
  destruct (mac_ul_step_total hows m i H Hi) as (m' & -> & H'). cbn [mbind outcome_bind]. by apply IH.
Qed.

Lemma mac_ul_init_inv : mac_ul_inv mac_ul_init.
Proof.
  split; [split; cbn; [by rewrite map_size_empty|by intros r ue; rewrite lookup_empty|lia]|intros exec; unfold ul_tasks_of; cbn; by rewrite lookup_empty|apply sdus_from_nil].
Qed.
End receive.

(** The PDUs and CCCH messages among the inputs. *)
Definition ul_received (l : list ((dispatch * dispatch) * mac_ul_input)) (p : bytes) : Prop :=
  exists hows slot cell pdus rnti, (hows, ul_in_rx slot cell pdus) ∈ l /\ (rnti, p) ∈ pdus.
Definition ul_flushed (l : list ((dispatch * dispatch) * mac_ul_input)) (msg : bytes) : Prop := exists hows ue, (hows, ul_in_flush_ccch ue msg) ∈ l.

(** What the environment keeps to: C-RNTIs and UE indexes in their ranges, octets, and no long BSR of length zero. *)
Definition ul_input_sane (i : mac_ul_input) : Prop :=
  match i with
  | ul_in_rnti_add crnti ue_index => is_crnti crnti = true /\ ue_index < MAX_NOF_DU_UES
  | ul_in_rnti_rem crnti => is_crnti crnti = true
  | ul_in_add_ue crnti ue_index _ => is_crnti crnti = true /\ is_du_ue_index_valid ue_index = true
  | ul_in_rx _ _ pdus => Forall (fun x => is_crnti x.1 = true /\ is_bytes x.2 /\ forall l, mac_ul_sch_pdu_unpack x.2 = ok (l, true) -> Forall no_empty_lbsr l) pdus
  | _ => True
  end.

(** The subPDUs of a PDU among the inputs. *)
Lemma received_subpdus_ok (R : bytes -> Prop) p subs :
  is_bytes p -> Forall no_empty_lbsr subs -> mac_ul_sch_pdu_unpack p = ok (subs, true) ->
  (forall s, s ∈ subs -> ul_is_sdu (sub_lcid s) = true -> R (sub_payload s)) -> Forall (subpdu_ok R) subs.
Proof.
  intros Hb Hne E HR. destruct (unpack_subpdus_sound (S (length p)) p []) as (l & b & E' & _ & H); [done|lia|done|].
  fold (mac_ul_sch_pdu_unpack p) in E'. rewrite E in E'. injection E' as <- <-. destruct H as (l' & o & rest & -> & Ep & Ho & _). cbn [app] in *.
  assert (Hbo : is_bytes o) by (rewrite Ep in Hb; by apply Forall_app in Hb as [? _]). pose proof (pdu_octets_sized _ _ Ho Hbo) as Hw.
  rewrite Forall_forall in Hw, Hne |- *. intros s Hs. split_and!; auto.
Qed.

(** Whatever the order of the inputs, of the tasks in the executors and of what executors do with them, no step of the receiving side fails, as long as no UE
    sends a long BSR of length zero; and what a bearer is given is the payload of a subPDU of a received PDU, or a CCCH message that was flushed to it. *)
Theorem mac_ul_never_fails mac_ul_pdu_executor ctrl_executor append_ok l :
  Forall (fun x => ul_input_sane x.2) l ->
  exists m, mac_ul_run mac_ul_pdu_executor ctrl_executor append_ok mac_ul_init l = ok m /\
    forall n sdu, ev_new_sdu n sdu ∈ ul_out m ->
      (exists p subs s, ul_received l p /\ mac_ul_sch_pdu_unpack p = ok (subs, true) /\ s ∈ subs /\ ul_is_sdu (sub_lcid s) = true /\ sub_payload s = sdu) \/
      ul_flushed l sdu.
Proof.
  intros Hl.
  set (R := fun sdu => (exists p subs s, ul_received l p /\ mac_ul_sch_pdu_unpack p = ok (subs, true) /\ s ∈ subs /\ ul_is_sdu (sub_lcid s) = true /\
              sub_payload s = sdu) \/ ul_flushed l sdu).
  destruct (mac_ul_run_total mac_ul_pdu_executor ctrl_executor append_ok R l mac_ul_init (mac_ul_init_inv R)) as (m & E & H).
  - apply Forall_forall. intros [hows i] Hin. rewrite Forall_forall in Hl. specialize (Hl _ Hin). cbn [snd] in *. destruct i; cbn in *; try done.
    + right. by exists hows, ue_index.
    + apply Forall_forall. intros [rnti p] Hp. rewrite Forall_forall in Hl. destruct (Hl _ Hp) as (Hr & Hb & Hne). cbn [fst snd] in *. split; [done|].
      split; [done|]. intros subs Eu. apply (received_subpdus_ok R p subs Hb (Hne subs Eu) Eu). intros s Hs Hsdu. left.
      exists p, subs, s. split_and!; try done. by exists hows, slot, cell_index, pdus, rnti.
  - exists m. split; [done|]. intros n sdu Hin. exact (mu_out _ m H n sdu Hin).
Qed.

(** ** A concrete UE *)
Definition ul_state_example : mac_ul :=
  mk_mac_ul (mk_rnti_table {[0x4601 := 0]} 1) {[0 := mk_ul_ue 0 0x4601 false {[4 := 100]}]} ∅ [].
Definition one_executor (ue : Z) : Z := 0.
Definition can_append (b : bytes) : bool := true.

Lemma mac_ul_pdu_handled_witness :
  handle_rx_pdu one_executor can_append run_later ul_state_example 7 0 0x4601 ul_pdu_example =
  ok (ul_emit ul_state_example [ev_new_sdu 100 [7; 8; 9]; ev_ul_bsr 0 0 0x4601 short_bsr [mk_lcg_bsr 1 1]], true).
Proof.
  rewrite (mac_ul_pdu_handled one_executor can_append run_later ul_state_example 7 0 0x4601 ul_pdu_example ul_pdu_example_subpdus 0
    (mk_ul_ue 0 0x4601 false {[4 := 100]})); [reflexivity|repeat constructor; lia|apply ul_pdu_example_octets|done|repeat constructor; done|reflexivity..].
Defined.

(** Msg3 of the same UE under a temporary RNTI: its C-RNTI and an SDU; and a UL-CCCH message of another UE. *)
Definition msg3_crnti : bytes := [58; 0x46; 0x01; 4; 1; 7].
Definition msg3_crnti_subpdus : list mac_ul_sch_subpdu := [mk_subpdu CRNTI 1 false [0x46; 0x01]; mk_subpdu 4 2 false [7]].
Definition msg3_ccch : bytes := [52; 1; 2; 3; 4; 5; 6].
Definition msg3_ccch_subpdus : list mac_ul_sch_subpdu := [mk_subpdu CCCH_SIZE_48 1 false [1; 2; 3; 4; 5; 6]].

Lemma msg3_octets : pdu_octets msg3_crnti_subpdus msg3_crnti /\ pdu_octets msg3_ccch_subpdus msg3_ccch.
Proof.
  split.
  - apply (pdu_subpdu _ [58; 0x46; 0x01] _ [4; 1; 7]); [by apply (octets_fixed 0 false CRNTI [0x46; 0x01])|].
    apply (pdu_subpdu _ [4; 1; 7] [] []); [by apply (octets_8bit 0 4 [7])|constructor].
  - apply (pdu_subpdu _ msg3_ccch [] []); [by apply (octets_fixed 0 false CCCH_SIZE_48 [1; 2; 3; 4; 5; 6])|constructor].
Qed.

Lemma mac_ul_msg3_witness :
  handle_rx_pdu one_executor can_append run_inline ul_state_example 7 0 0x4602 msg3_crnti =
    ok (ul_emit ul_state_example [ev_new_sdu 100 [7]; ev_crnti_ce 0 0; ev_ul_sched 0 7 0 0x4601], true) /\
  handle_rx_pdu one_executor can_append run_inline ul_state_example 7 0 0x4602 msg3_ccch =
    ok (ul_emit ul_state_example [ev_ul_ccch 0x4602 0 7 [1; 2; 3; 4; 5; 6]], true).
Proof.
  destruct msg3_octets as [H1 H2]. split.
  - destruct (mac_ul_msg3 one_executor can_append ul_state_example 7 0 0x4602 msg3_crnti msg3_crnti_subpdus (mk_subpdu CRNTI 1 false [0x46; 0x01])) as [H _];
      [repeat constructor; lia|done|done|repeat constructor; done|reflexivity|reflexivity|].
    exact (H eq_refl 0 (mk_ul_ue 0 0x4601 false {[4 := 100]}) eq_refl eq_refl eq_refl eq_refl).
  - destruct (mac_ul_msg3 one_executor can_append ul_state_example 7 0 0x4602 msg3_ccch msg3_ccch_subpdus (mk_subpdu CCCH_SIZE_48 1 false [1; 2; 3; 4; 5; 6]))
      as [_ H]; [repeat constructor; lia|done|done|repeat constructor; done|reflexivity|reflexivity|].
    by rewrite H.
Defined.

(** The UE is created, sends a PDU that waits in the executor, and its bearer is changed meanwhile. *)
Definition ul_inputs_example : list ((dispatch * dispatch) * mac_ul_input) :=
  [((run_later, run_inline), ul_in_rnti_add 0x4601 0); ((run_later, run_inline), ul_in_add_ue 0x4601 0 [(4, 100)]);
   ((run_later, run_inline), ul_in_rx 7 0 [(0x4601, ul_pdu_example)]); ((run_later, run_inline), ul_in_addmod 0 [(4, 200); (5, 201)]);
   ((run_later, run_inline), ul_in_task 0)].

Lemma mac_ul_never_fails_witness :
  exists m, mac_ul_run one_executor one_executor can_append mac_ul_init ul_inputs_example = ok m.
Proof.
  destruct (mac_ul_never_fails one_executor one_executor can_append ul_inputs_example) as (m & E & _); [|by exists m].
  repeat constructor; try done; try lia. intros l E. vm_compute in E. injection E as <-. repeat constructor; done.
Defined.

(** Adding a bearer that exists leaves it as it is: the SDU still goes to the first notifier. *)
Example addmod_keeps_bearer :
  match mac_ul_run one_executor one_executor can_append mac_ul_init ul_inputs_example with
  | ok m => ul_out m = [ev_new_sdu 100 [7; 8; 9]; ev_ul_bsr 0 0 0x4601 short_bsr [mk_lcg_bsr 1 1]]
  | fail _ => False
  end.
Proof. by vm_compute. Qed.

(** One long BSR of length zero is enough. *)
Example empty_lbsr_fails :
  handle_rx_pdu one_executor can_append run_inline ul_state_example 7 0 0x4601 [62; 0] = fail invalid_access.
Proof. by vm_compute. Qed.

(** A UE may lose a PDU silently: the executor is full. *)
Example crnti_task_dropped :
  handle_rx_pdu one_executor can_append queue_full ul_state_example 7 0 0x4602 msg3_crnti = ok (ul_state_example, true).
Proof. by vm_compute. Qed.
