(* ===== verification/MacDlPdu.v ===== *)
(** * DL-SCH MAC PDUs

    Logical channel identities ([include/srsran/mac/lcid_dl_sch.h]), sizes ([mac_pdu_format.h]) and the PDU that is written in place into a HARQ buffer ([dl_sch_pdu] of
    [lib/mac/mac_dl/dl_sch_pdu_assembler.{h,cpp}]). *)
From S2P Require Import Prelude MacUlPdu.

(** ** Logical channel identities *)
Definition DL_CCCH : Z := 0.
Definition RECOMMENDED_BIT_RATE : Z := 47.
Definition SCELL_ACTIV_4_OCTET : Z := 57.
Definition SCELL_ACTIV_1_OCTET : Z := 58.
Definition LONG_DRX_CMD : Z := 59.
Definition DRX_CMD : Z := 60.
Definition TA_CMD : Z := 61.
Definition UE_CON_RES_ID : Z := 62.

Definition dl_is_ce (lcid : Z) : bool := (lcid <=? PADDING) && (RECOMMENDED_BIT_RATE <=? lcid).
Definition dl_is_sdu (lcid : Z) : bool := (lcid <=? LCID32) && (DL_CCCH <=? lcid).
Definition dl_is_valid (lcid : Z) : bool := (lcid <=? PADDING) && ((lcid <? MIN_RESERVED) || (MAX_RESERVED <? lcid)).

Definition dl_sizeof_ce (lcid : Z) : Z :=
  if lcid =? SCELL_ACTIV_4_OCTET then 4
  else if lcid =? SCELL_ACTIV_1_OCTET then 1
  else if (lcid =? LONG_DRX_CMD) || (lcid =? DRX_CMD) then 0
  else if lcid =? TA_CMD then 1
  else if lcid =? UE_CON_RES_ID then 6
  else 0.

(** ** Sizes *)
Definition MAC_SDU_SUBHEADER_LENGTH_THRES : Z := 256.
Definition MIN_MAC_SDU_SUBHEADER_SIZE : Z := 2.
Definition MAX_MAC_SDU_SUBHEADER_SIZE : Z := 3.

Definition get_mac_sdu_subheader_size (payload : Z) : Z :=
  if payload =? 0 then 0 else if MAC_SDU_SUBHEADER_LENGTH_THRES <=? payload then MAX_MAC_SDU_SUBHEADER_SIZE else MIN_MAC_SDU_SUBHEADER_SIZE.

Definition get_mac_sdu_required_bytes (payload : Z) : Z := u32 (payload + get_mac_sdu_subheader_size payload).

Definition get_mac_sdu_payload_size (mac_sdu_size : Z) : Z :=
  if mac_sdu_size <=? MAC_SDU_SUBHEADER_LENGTH_THRES + MIN_MAC_SDU_SUBHEADER_SIZE - 1 then u32 (mac_sdu_size - MIN_MAC_SDU_SUBHEADER_SIZE)
  else u32 (mac_sdu_size - MAX_MAC_SDU_SUBHEADER_SIZE).

Definition RLC_HEADER_SIZE_ESTIM : Z := 2.

Definition min_mac_subhdr_and_sdu_space_required (lcid : Z) : Z := MIN_MAC_SDU_SUBHEADER_SIZE + 1 + (if negb (lcid =? 0) then RLC_HEADER_SIZE_ESTIM else 0).

(** ** PDUs in memory

    The PDU is a span over the first [pdu_size] octets of a buffer: [operator[]] asserts that an index is in the span, pointers reach all of the buffer. *)
Record dl_sch_pdu := mk_dl_pdu { pdu_mem : bytes; pdu_size : Z; byte_offset : Z }.

Definition nof_empty_bytes (d : dl_sch_pdu) : Z := u32 (pdu_size d - byte_offset d).

(** Octets written through a pointer. *)
Definition write_mem (mem : bytes) (o : Z) (bs : bytes) : outcome bytes :=
  if o + zlen bs <=? zlen mem then ok (take (Z.to_nat o) mem ++ bs ++ drop (Z.to_nat (o + zlen bs)) mem) else fail invalid_access.

(** [pdu[byte_offset++] = b] *)
Definition put_octet (d : dl_sch_pdu) (b : Z) : outcome dl_sch_pdu :=
  _ ← srsran_assert (byte_offset d <? pdu_size d);
  mem ← write_mem (pdu_mem d) (byte_offset d) [u8 b];
  ok (mk_dl_pdu mem (pdu_size d) (u32 (byte_offset d + 1))).

Definition put_bytes (d : dl_sch_pdu) (bs : bytes) : outcome dl_sch_pdu :=
  mem ← write_mem (pdu_mem d) (byte_offset d) bs;
  ok (mk_dl_pdu mem (pdu_size d) (u32 (byte_offset d + zlen bs))).

(** [report_fatal_error] aborts. *)
Definition encode_subheader (d : dl_sch_pdu) (F_bit : bool) (lcid header_len payload_len : Z) : outcome dl_sch_pdu :=
  d ← put_octet d (Z.lor (Z.shiftl (if F_bit then 1 else 0) 6) (Z.land lcid 0x3f));
  if header_len =? 3 then d ← put_octet d (Z.shiftr (Z.land payload_len 0xff00) 8); put_octet d (Z.land payload_len 0xff)
  else if header_len =? 2 then put_octet d (Z.land payload_len 0xff)
  else if header_len =? 1 then ok d
  else fail assertion.

(** ** The encoder of an SDU *)
Record mac_sdu_encoder := mk_sdu_encoder { enc_lcid : Z; subhr_len : Z; max_sdu_size : Z }.

Definition mac_sdu_encoder_ctor (lcid max_sdu_size : Z) : mac_sdu_encoder := mk_sdu_encoder lcid (get_mac_sdu_subheader_size max_sdu_size) max_sdu_size.

(** The offset of the span that is returned; its size is [max_sdu_size]. *)
Definition sdu_buffer (d : dl_sch_pdu) (e : mac_sdu_encoder) : outcome Z :=
  let sdu_offset := u32 (byte_offset d + subhr_len e) in
  _ ← srsran_assert (sdu_offset <=? pdu_size d);
  _ ← srsran_assert (max_sdu_size e <=? pdu_size d - sdu_offset);
  ok sdu_offset.

(** The subheader became shorter: the SDU moves left by one octet. *)
Definition shift_sdu (d : dl_sch_pdu) (sdu_bytes_written : Z) : outcome dl_sch_pdu :=
  let new_start := byte_offset d + MIN_MAC_SDU_SUBHEADER_SIZE in
  if new_start + 1 + sdu_bytes_written <=? zlen (pdu_mem d) then
    mem ← write_mem (pdu_mem d) new_start (slice (pdu_mem d) (new_start + 1) sdu_bytes_written);
    ok (mk_dl_pdu mem (pdu_size d) (byte_offset d))
  else fail invalid_access.

Definition encode_sdu (d : dl_sch_pdu) (e : mac_sdu_encoder) (sdu_bytes_written : Z) : outcome (dl_sch_pdu * Z) :=
  if (sdu_bytes_written =? 0) || (max_sdu_size e <? sdu_bytes_written) then ok (d, 0)
  else
    '(d, subhr_len) ← (if negb (get_mac_sdu_subheader_size sdu_bytes_written =? subhr_len e)
                       then d ← shift_sdu d sdu_bytes_written; ok (d, MIN_MAC_SDU_SUBHEADER_SIZE) else ok (d, subhr_len e));
    d ← encode_subheader d (MIN_MAC_SDU_SUBHEADER_SIZE <? subhr_len) (enc_lcid e) subhr_len sdu_bytes_written;
    ok (mk_dl_pdu (pdu_mem d) (pdu_size d) (u32 (byte_offset d + sdu_bytes_written)), u32 (subhr_len + sdu_bytes_written)).

(** [None]: no valid encoder. *)
Definition get_sdu_encoder (d : dl_sch_pdu) (lcid sdu_payload_len_estimate : Z) : option mac_sdu_encoder :=
  if sdu_payload_len_estimate =? 0 then None
  else
    let rem_grant_space := u32 (pdu_size d - byte_offset d) in
    if rem_grant_space <? min_mac_subhdr_and_sdu_space_required lcid then None
    else
      let space_estim := Z.min rem_grant_space (get_mac_sdu_required_bytes sdu_payload_len_estimate) in
      Some (mac_sdu_encoder_ctor lcid (get_mac_sdu_payload_size space_estim)).

(** The SDU is copied before its size is compared with that of the span. *)
Definition add_sdu (d : dl_sch_pdu) (lcid : Z) (sdu : bytes) : outcome (dl_sch_pdu * Z) :=
  _ ← srsran_assert (negb (zlen sdu =? 0));
  match get_sdu_encoder d lcid (zlen sdu) with
  | None => ok (d, 0)
  | Some e =>
      o ← sdu_buffer d e;
      mem ← write_mem (pdu_mem d) o sdu;
      encode_sdu (mk_dl_pdu mem (pdu_size d) (byte_offset d)) e (zlen sdu)
  end.

(** The overload for a [byte_buffer], copied segment by segment. *)
Fixpoint write_segments (mem : bytes) (o : Z) (segments : list bytes) : outcome bytes :=
  match segments with
  | [] => ok mem
  | seg :: segments => mem ← write_mem mem o seg; write_segments mem (o + zlen seg) segments
  end.

Definition add_sdu_buffer (d : dl_sch_pdu) (lcid : Z) (segments : list bytes) : outcome (dl_sch_pdu * Z) :=
  let sdu_len := zlen (concat segments) in
  _ ← srsran_assert (negb (sdu_len =? 0));
  match get_sdu_encoder d lcid sdu_len with
  | None => ok (d, 0)
  | Some e =>
      o ← sdu_buffer d e;
      mem ← write_segments (pdu_mem d) o segments;
      encode_sdu (mk_dl_pdu mem (pdu_size d) (byte_offset d)) e sdu_len
  end.

(** ** Control elements and padding *)
Definition UE_CON_RES_ID_LEN : Z := 6.

Definition add_ue_con_res_id (d : dl_sch_pdu) (con_res_payload : bytes) : outcome dl_sch_pdu :=
  d ← encode_subheader d false UE_CON_RES_ID 1 (dl_sizeof_ce UE_CON_RES_ID);
  put_bytes d con_res_payload.

Record ta_cmd_ce_payload := mk_ta_cmd { tag_id : Z; ta_cmd : Z }.

Definition add_tag_cmd (d : dl_sch_pdu) (ce : ta_cmd_ce_payload) : outcome dl_sch_pdu :=
  d ← encode_subheader d false TA_CMD 1 (dl_sizeof_ce TA_CMD);
  put_octet d (Z.lor (Z.land (tag_id ce) 0xc0) (Z.land (ta_cmd ce) 0x3f)).

Definition add_padding (d : dl_sch_pdu) (len : Z) : outcome dl_sch_pdu :=
  let sdu_len := u32 (len - 1) in
  d ← encode_subheader d false PADDING 1 sdu_len;
  put_bytes d (replicate (Z.to_nat sdu_len) 0).
