(* ===== verification/MacDl.v ===== *)
(** * The transmitting side of the MAC

    The UEs of the DL MAC ([lib/mac/mac_dl/mac_dl_ue_repository.{h,cpp}]), the HARQ buffers of a cell ([cell_dl_harq_buffer_pool.{h,cpp}]) and the assembly of
    transport blocks from the grants of the scheduler ([dl_sch_pdu_assembler.cpp]). The bearers are any [MacSduTxBuilder]. *)
From S2P Require Import Prelude MacUlPdu MacRnti MacUl MacDlPdu.

(** [mac_sdu_tx_builder::on_new_tx_sdu]: the octets that a bearer writes into a span of some size. *)
Class MacSduTxBuilder (B : Type) := on_new_tx_sdu : B -> Z -> outcome (bytes * B).

(** A bearer writes no more than the span has, and always returns. *)
Class MacSduTxBuilderLaws (B : Type) `{MacSduTxBuilder B} (Inv : B -> Prop) : Prop := {
  builder_fits : forall b n, Inv b -> 0 <= n < 2 ^ 32 -> exists sdu b', on_new_tx_sdu b n = ok (sdu, b') /\ zlen sdu <= n /\ Inv b'
}.

(** ** UEs *)
Record mac_dl_ue_context := mk_dl_ue { dlue_index : Z; dl_bearers : gmap Z Z; msg3_subpdu : bytes }.
Abbreviation dl_ue_db := (gmap Z mac_dl_ue_context).

Definition mac_dl_ue_context_ctor (ue_index : Z) (bearers : list (Z * Z)) (ul_ccch_msg : option bytes) : outcome mac_dl_ue_context :=
  let dl_bearers := foldl insert_bearer ∅ bearers in
  match ul_ccch_msg with
  | None => ok (mk_dl_ue ue_index dl_bearers (replicate (Z.to_nat UE_CON_RES_ID_LEN) 0))
  | Some msg =>
      _ ← srsran_assert (UE_CON_RES_ID_LEN <=? zlen msg);
      ok (mk_dl_ue ue_index dl_bearers (take (Z.to_nat UE_CON_RES_ID_LEN) msg))
  end.

Definition dl_add_ue (db : dl_ue_db) (u : mac_dl_ue_context) : outcome (dl_ue_db * bool) :=
  match db !! dlue_index u with
  | Some _ => ok (db, false)
  | None => _ ← srsran_assert (is_du_ue_index_valid (dlue_index u)); ok (<[dlue_index u := u]> db, true)
  end.

Definition dl_remove_ue (db : dl_ue_db) (ue_index : Z) : outcome (dl_ue_db * bool) :=
  _ ← srsran_assert (is_du_ue_index_valid ue_index);
  ok (delete ue_index db, bool_decide (is_Some (db !! ue_index))).

Definition dl_addmod_bearers (db : dl_ue_db) (ue_index : Z) (bearers : list (Z * Z)) : dl_ue_db * bool :=
  match db !! ue_index with
  | None => (db, false)
  | Some u => (<[ue_index := mk_dl_ue (dlue_index u) (foldl insert_bearer (dl_bearers u) bearers) (msg3_subpdu u)]> db, true)
  end.

Definition dl_remove_bearers (db : dl_ue_db) (ue_index : Z) (lcids : list Z) : dl_ue_db * bool :=
  match db !! ue_index with
  | None => (db, false)
  | Some u => (<[ue_index := mk_dl_ue (dlue_index u) (foldl (fun m lcid => delete lcid m) (dl_bearers u) lcids) (msg3_subpdu u)]> db, true)
  end.

Definition get_ue_index (t : rnti_value_table) (rnti : Z) : outcome Z :=
  ue_index ← table_get t rnti; ok (if negb (is_du_ue_index_valid ue_index) then INVALID_DU_UE_INDEX else ue_index).

Definition get_lc_sdu_builder (t : rnti_value_table) (db : dl_ue_db) (rnti lcid : Z) : outcome (option Z) :=
  ue_index ← table_get t rnti;
  if negb (is_du_ue_index_valid ue_index) then ok None
  else match db !! ue_index with None => ok None | Some u => ok (dl_bearers u !! lcid) end.

Definition get_con_res_id (t : rnti_value_table) (db : dl_ue_db) (rnti : Z) : outcome bytes :=
  ue_index ← table_get t rnti;
  ok (match db !! ue_index with None => replicate (Z.to_nat UE_CON_RES_ID_LEN) 0 | Some u => msg3_subpdu u end).

(** ** HARQ buffers *)
Definition MAX_NOF_HARQS : Z := 16.
Definition DL_HARQ_ALLOC_BATCH : Z := MAX_NOF_HARQS * 2.
Definition DL_HARQ_ALLOC_MINIBATCH : Z := 2.
Definition MAX_NRE_PER_RB : Z := 156.
Definition MAX_MODULATION_ORDER : Z := 8.
Definition CODEWORD_MAX_NOF_LAYERS : Z := 4.

Definition derive_max_pdu_length (cell_nof_prbs nof_ports : Z) : outcome Z :=
  _ ← srsran_assert ((1 <=? nof_ports) && (nof_ports <=? CODEWORD_MAX_NOF_LAYERS));
  ok ((u32 (MAX_NRE_PER_RB * cell_nof_prbs * nof_ports * MAX_MODULATION_ORDER) + 7) / 8).

(** The buffers of each UE, the buffers of no UE, the last first, and the growth tasks in the executor. *)
Record cell_dl_harq_buffer_pool := mk_harq_pool { max_pdu_len : Z; cell_buffers : gmap Z (list bytes); buffer_cache : list bytes; grow_tasks : nat }.

Definition new_buffer (p : cell_dl_harq_buffer_pool) : bytes := replicate (Z.to_nat (max_pdu_len p)) 0.

Definition harq_pool_ctor (cell_nof_prbs nof_ports : Z) : outcome cell_dl_harq_buffer_pool :=
  max_pdu_len ← derive_max_pdu_length cell_nof_prbs nof_ports;
  ok (mk_harq_pool max_pdu_len ∅ (replicate (Z.to_nat DL_HARQ_ALLOC_BATCH) (replicate (Z.to_nat max_pdu_len) 0)) 0).

Definition ue_buffers (p : cell_dl_harq_buffer_pool) (ue_index : Z) : list bytes := default [] (cell_buffers p !! ue_index).
Definition set_ue_buffers (p : cell_dl_harq_buffer_pool) (ue_index : Z) (l : list bytes) : cell_dl_harq_buffer_pool :=
  mk_harq_pool (max_pdu_len p) (<[ue_index := l]> (cell_buffers p)) (buffer_cache p) (grow_tasks p).

(** [accepted]: the executor takes the task. *)
Definition grow_pool_in_background (accepted : bool) (p : cell_dl_harq_buffer_pool) : cell_dl_harq_buffer_pool :=
  if DL_HARQ_ALLOC_BATCH <=? zlen (buffer_cache p) then p
  else if accepted then mk_harq_pool (max_pdu_len p) (cell_buffers p) (buffer_cache p) (S (grow_tasks p)) else p.

Definition run_grow_task (accepted : bool) (p : cell_dl_harq_buffer_pool) : cell_dl_harq_buffer_pool :=
  match grow_tasks p with
  | O => p
  | S n =>
      grow_pool_in_background accepted
        (mk_harq_pool (max_pdu_len p) (cell_buffers p) (replicate (Z.to_nat DL_HARQ_ALLOC_MINIBATCH) (new_buffer p) ++ buffer_cache p) n)
  end.

(** One more buffer for a UE, from the cache if it has one. *)
Definition add_ue_buffer (ue_index : Z) (p : cell_dl_harq_buffer_pool) : cell_dl_harq_buffer_pool :=
  match buffer_cache p with
  | [] => set_ue_buffers p ue_index (ue_buffers p ue_index ++ [new_buffer p])
  | b :: cache => mk_harq_pool (max_pdu_len p) (<[ue_index := ue_buffers p ue_index ++ [b]]> (cell_buffers p)) cache (grow_tasks p)
  end.

Definition allocate_ue_buffers (accepted : bool) (p : cell_dl_harq_buffer_pool) (ue_index nof_harqs : Z) : outcome cell_dl_harq_buffer_pool :=
  _ ← srsran_assert (nof_harqs <=? MAX_NOF_HARQS);
  if is_du_ue_index_valid ue_index then
    ok (grow_pool_in_background accepted (Nat.iter (Z.to_nat (nof_harqs - zlen (ue_buffers p ue_index))) (add_ue_buffer ue_index) p))
  else fail invalid_access.

Definition deallocate_ue_buffers (p : cell_dl_harq_buffer_pool) (ue_idx : Z) : outcome cell_dl_harq_buffer_pool :=
  _ ← srsran_assert (is_du_ue_index_valid ue_idx);
  ok (mk_harq_pool (max_pdu_len p) (<[ue_idx := []]> (cell_buffers p)) (rev (ue_buffers p ue_idx) ++ buffer_cache p) (grow_tasks p)).

(** The two assertions: of the method, and of the vector. *)
Definition dl_harq_buffer (p : cell_dl_harq_buffer_pool) (ue_index h_id : Z) : outcome bytes :=
  _ ← srsran_assert (h_id <=? zlen (ue_buffers p ue_index));
  match ue_buffers p ue_index !! Z.to_nat h_id with None => fail assertion | Some b => ok b end.

Definition set_harq_buffer (p : cell_dl_harq_buffer_pool) (ue_index h_id : Z) (b : bytes) : cell_dl_harq_buffer_pool :=
  set_ue_buffers p ue_index (<[Z.to_nat h_id := b]> (ue_buffers p ue_index)).

(** ** Transport blocks *)
Record dl_msg_lc_info := mk_lc_info { lc_lcid : Z; sched_bytes : Z; ce_payload : option ta_cmd_ce_payload }.

(** [MAX_DL_PDU_LENGTH], the size of [zero_buffer]. *)
Definition MAX_NOF_PRBS : Z := 275.
Definition MAX_DL_PDU_LENGTH : Z := (MAX_NRE_PER_RB * MAX_NOF_PRBS * CODEWORD_MAX_NOF_LAYERS * MAX_MODULATION_ORDER + 7) / 8.

Definition zero_pdu (tb_size_bytes : Z) : outcome bytes :=
  _ ← srsran_assert (tb_size_bytes <=? MAX_DL_PDU_LENGTH); ok (replicate (Z.to_nat tb_size_bytes) 0).

Section assembler.
Context {B : Type} `{MacSduTxBuilder B}.

(** [min_mac_sdu_size] is the static variable of [assemble_sdus]: it is set in the first call, by the LCID of that call. *)
Record mac_dl := mk_mac_dl {
  dl_rntis : rnti_value_table; dl_ues : dl_ue_db; dl_builders : gmap Z B; dl_harqs : cell_dl_harq_buffer_pool; min_mac_sdu_size : option Z }.

Definition dl_set_builders (m : mac_dl) b := mk_mac_dl (dl_rntis m) (dl_ues m) b (dl_harqs m) (min_mac_sdu_size m).
Definition dl_set_harqs (m : mac_dl) p := mk_mac_dl (dl_rntis m) (dl_ues m) (dl_builders m) p (min_mac_sdu_size m).
Definition dl_set_min (m : mac_dl) n := mk_mac_dl (dl_rntis m) (dl_ues m) (dl_builders m) (dl_harqs m) (Some n).

(** The loop of [assemble_sdus]; a bearer that is not there is a null pointer. *)
Fixpoint assemble_sdus_loop (fuel : nat) (lcid min : Z) (bearer : option Z) (m : mac_dl) (d : dl_sch_pdu) (rem_bytes : Z) : outcome (mac_dl * dl_sch_pdu * Z) :=
  match fuel with
  | O => fail out_of_fuel
  | S fuel =>
      if rem_bytes <? min then ok (m, d, rem_bytes)
      else
        match get_sdu_encoder d lcid (get_mac_sdu_payload_size rem_bytes) with
        | None => ok (m, d, rem_bytes)
        | Some sdu_enc =>
            o ← sdu_buffer d sdu_enc;
            match bearer ≫= (fun id => b ← dl_builders m !! id; Some (id, b)) with
            | None => fail invalid_access
            | Some (id, b) =>
                '(sdu, b) ← on_new_tx_sdu b (max_sdu_size sdu_enc);
                let m := dl_set_builders m (<[id := b]> (dl_builders m)) in
                mem ← write_mem (pdu_mem d) o sdu;
                let d := mk_dl_pdu mem (pdu_size d) (byte_offset d) in
                if zlen sdu =? 0 then ok (m, d, rem_bytes)
                else
                  '(d, subh_and_sdu_size) ← encode_sdu d sdu_enc (zlen sdu);
                  if subh_and_sdu_size =? 0 then ok (m, d, rem_bytes)
                  else
                    _ ← srsran_assert (subh_and_sdu_size <=? rem_bytes);
                    assemble_sdus_loop fuel lcid min bearer m d (rem_bytes - subh_and_sdu_size)
            end
        end
  end.

Definition assemble_sdus (m : mac_dl) (d : dl_sch_pdu) (rnti : Z) (lc : dl_msg_lc_info) : outcome (mac_dl * dl_sch_pdu) :=
  let min := default (min_mac_subhdr_and_sdu_space_required (lc_lcid lc)) (min_mac_sdu_size m) in
  let m := dl_set_min m min in
  bearer ← get_lc_sdu_builder (dl_rntis m) (dl_ues m) rnti (lc_lcid lc);
  let total_space := Z.min (get_mac_sdu_required_bytes (sched_bytes lc)) (nof_empty_bytes d) in
  '(m, d, _) ← assemble_sdus_loop (S (Z.to_nat total_space)) (lc_lcid lc) min bearer m d total_space;
  ok (m, d).

Definition assemble_ce (m : mac_dl) (d : dl_sch_pdu) (rnti : Z) (subpdu : dl_msg_lc_info) : outcome dl_sch_pdu :=
  if lc_lcid subpdu =? UE_CON_RES_ID then conres ← get_con_res_id (dl_rntis m) (dl_ues m) rnti; add_ue_con_res_id d conres
  else if lc_lcid subpdu =? TA_CMD then match ce_payload subpdu with None => fail assertion | Some ce => add_tag_cmd d ce end
  else fail assertion.

Fixpoint assemble_lcs (m : mac_dl) (d : dl_sch_pdu) (rnti : Z) (lcs : list dl_msg_lc_info) : outcome (mac_dl * dl_sch_pdu) :=
  match lcs with
  | [] => ok (m, d)
  | sched_lch :: lcs =>
      '(m, d) ← (if dl_is_sdu (lc_lcid sched_lch) then assemble_sdus m d rnti sched_lch else d ← assemble_ce m d rnti sched_lch; ok (m, d));
      assemble_lcs m d rnti lcs
  end.

(** The PDU is written into the HARQ buffer; the octets that are returned are those of the span. *)
Definition assemble_newtx_pdu (m : mac_dl) (rnti h_id : Z) (tb_info : list dl_msg_lc_info) (tb_size_bytes : Z) : outcome (mac_dl * bytes) :=
  ue_idx ← get_ue_index (dl_rntis m) rnti;
  if ue_idx =? INVALID_DU_UE_INDEX then pdu ← zero_pdu tb_size_bytes; ok (m, pdu)
  else
    buffer ← dl_harq_buffer (dl_harqs m) ue_idx h_id;
    if zlen buffer <? tb_size_bytes then pdu ← zero_pdu tb_size_bytes; ok (m, pdu)
    else
      '(m, d) ← assemble_lcs m (mk_dl_pdu buffer tb_size_bytes 0) rnti tb_info;
      let current_size := byte_offset d in
      d ← (if current_size <? tb_size_bytes then add_padding d (u32 (tb_size_bytes - current_size)) else ok d);
      let m := dl_set_harqs m (set_harq_buffer (dl_harqs m) ue_idx h_id (pdu_mem d)) in
      if tb_size_bytes <? current_size then pdu ← zero_pdu tb_size_bytes; ok (m, pdu)
      else _ ← srsran_assert (byte_offset d <=? pdu_size d); ok (m, slice (pdu_mem d) 0 (byte_offset d)).

Definition assemble_retx_pdu (m : mac_dl) (rnti h_id tbs_bytes : Z) : outcome bytes :=
  ue_idx ← get_ue_index (dl_rntis m) rnti;
  if ue_idx =? INVALID_DU_UE_INDEX then zero_pdu tbs_bytes
  else
    buffer ← dl_harq_buffer (dl_harqs m) ue_idx h_id;
    if zlen buffer <? tbs_bytes then zero_pdu tbs_bytes else ok (slice buffer 0 tbs_bytes).
End assembler.
Arguments mac_dl B : clear implicits.
