(* ===== verification/MacDlProps.v ===== *)
(** * DL-SCH MAC PDUs: properties

    What a UE reads (TS 38.321, 6.1.2), as a parser, and that the assembled transport block is read as the control elements and SDUs that went into it. *)
From S2P Require Import Prelude MacUlPdu MacRnti MacUl MacDlPdu MacDl.

(** ** What a UE reads *)
Record dl_subpdu := mk_dl_subpdu { dl_lcid : Z; dl_payload : bytes }.

#[export] Instance dl_subpdu_eq_dec : EqDecision dl_subpdu.
Proof. solve_decision. Defined.

(** The payload of [n] octets, and what follows. *)
Definition ue_take (n : Z) (p : bytes) : option (bytes * bytes) :=
  if zlen p <? n then None else Some (take (Z.to_nat n) p, drop (Z.to_nat n) p).

Definition ue_parse_subpdu (b : Z) (p : bytes) : option (bytes * bytes) :=
  if b mod 64 <=? LCID32 then
    if (b / 64) mod 2 =? 1 then match p with l1 :: l2 :: p => ue_take (l1 * 256 + l2) p | _ => None end
    else match p with l :: p => ue_take l p | _ => None end
  else ue_take (dl_sizeof_ce (b mod 64)) p.

Fixpoint ue_parse (fuel : nat) (p : bytes) : option (list dl_subpdu) :=
  match fuel, p with
  | _, [] => Some []
  | O, _ => None
  | S fuel, b :: p =>
      if b mod 64 =? PADDING then Some []
      else '(payload, p) ← ue_parse_subpdu b p; l ← ue_parse fuel p; Some (mk_dl_subpdu (b mod 64) payload :: l)
  end.

(** The octets of a subPDU: the L field is as short as possible. *)
Definition dl_octets (s : dl_subpdu) : bytes :=
  if dl_lcid s <=? LCID32 then
    if zlen (dl_payload s) <? 256 then dl_lcid s :: zlen (dl_payload s) :: dl_payload s
    else 64 + dl_lcid s :: zlen (dl_payload s) / 256 :: zlen (dl_payload s) mod 256 :: dl_payload s
  else dl_lcid s :: dl_payload s.

Definition dl_subpdu_ok (s : dl_subpdu) : Prop :=
  0 <= dl_lcid s < PADDING /\ (if dl_lcid s <=? LCID32 then 0 < zlen (dl_payload s) < 2 ^ 16 else zlen (dl_payload s) = dl_sizeof_ce (dl_lcid s)).

Definition dl_length (s : dl_subpdu) : Z := zlen (dl_octets s).

Lemma ue_take_app (p rest : bytes) : ue_take (zlen p) (p ++ rest) = Some (p, rest).
Proof. unfold ue_take. rewrite length_app. zfalse. by rewrite Nat2Z.id, take_app_length, drop_app_length. Qed.

Lemma ue_parse_octets fuel s rest :
  dl_subpdu_ok s -> ue_parse (S fuel) (dl_octets s ++ rest) = (l ← ue_parse fuel rest; Some (s :: l)).
Proof.
  destruct s as [lcid payload]. unfold dl_subpdu_ok, dl_octets. cbn [dl_lcid dl_payload]. unfold PADDING. intros [Hl Hp].
  assert (E1 : lcid mod 64 = lcid) by (apply Z.mod_small; lia). assert (E2 : (64 + lcid) mod 64 = lcid) by divmod.
  destruct (Z.leb_spec lcid LCID32) as [Hs|Hs]; [destruct (Z.ltb_spec (zlen payload) 256)|]; cbn [app ue_parse]; unfold ue_parse_subpdu, PADDING;
    rewrite ?E1, ?E2; rewrite (proj2 (Z.eqb_neq lcid 63)) by lia; try rewrite (proj2 (Z.leb_le lcid LCID32) Hs); try rewrite (proj2 (Z.leb_gt lcid LCID32) Hs).
  - unfold LCID32 in Hs. replace (lcid / 64) with 0 by divmod. cbn [Z.eqb Z.modulo Z.div_eucl]. by rewrite ue_take_app.
  - unfold LCID32 in Hs. replace ((64 + lcid) / 64) with 1 by divmod. change (1 mod 2 =? 1) with true. cbv iota.
    replace (zlen payload / 256 * 256 + zlen payload mod 256) with (zlen payload) by divmod. by rewrite ue_take_app.
  - rewrite <- Hp. by rewrite ue_take_app.
Qed.

(** ** Sizes *)
Lemma mac_sizes rem :
  3 <= rem < 2 ^ 32 ->
  let est := get_mac_sdu_payload_size rem in
  1 <= est <= rem - 2 /\ get_mac_sdu_required_bytes est = est + get_mac_sdu_subheader_size est /\ est + get_mac_sdu_subheader_size est <= rem /\
  get_mac_sdu_payload_size (get_mac_sdu_required_bytes est) = est /\ (rem <= 65538 -> est < 2 ^ 16).
Proof.
  intros H. cbv zeta. unfold get_mac_sdu_required_bytes, get_mac_sdu_subheader_size, get_mac_sdu_payload_size, MAC_SDU_SUBHEADER_LENGTH_THRES,
    MIN_MAC_SDU_SUBHEADER_SIZE, MAX_MAC_SDU_SUBHEADER_SIZE.
  destruct (Z.leb_spec rem (256 + 2 - 1)); rewrite (u32_small (rem - _)) by lia.
  - rewrite (proj2 (Z.eqb_neq (rem - 2) 0)), (proj2 (Z.leb_gt 256 (rem - 2))) by lia. rewrite (u32_small (rem - 2 + 2)) by lia.
    rewrite (proj2 (Z.leb_le (rem - 2 + 2) _)) by lia. rewrite u32_small by lia. lia.
  - rewrite (proj2 (Z.eqb_neq (rem - 3) 0)) by lia. destruct (Z.leb_spec 256 (rem - 3)).
    + rewrite (u32_small (rem - 3 + 3)) by lia. rewrite (proj2 (Z.leb_gt (rem - 3 + 3) _)) by lia. rewrite u32_small by lia. lia.
    + rewrite (u32_small (rem - 3 + 2)) by lia. rewrite (proj2 (Z.leb_le (rem - 3 + 2) _)) by lia. rewrite u32_small by lia. lia.
Qed.

Lemma required_bytes_bound n : 0 <= n < 2 ^ 16 -> n <= get_mac_sdu_required_bytes n <= n + 3 /\ get_mac_sdu_required_bytes n = n + get_mac_sdu_subheader_size n.
Proof.
  intros H. unfold get_mac_sdu_required_bytes. assert (0 <= get_mac_sdu_subheader_size n <= 3); [|rewrite u32_small by lia; lia].
  unfold get_mac_sdu_subheader_size, MAX_MAC_SDU_SUBHEADER_SIZE, MIN_MAC_SDU_SUBHEADER_SIZE. repeat case_match; lia.
Qed.

(** ** Writing *)

(** [os] is written, [rest] is what the buffer holds behind it. *)
Record dl_at (size : Z) (d : dl_sch_pdu) (os rest : bytes) : Prop := {
  da_mem : pdu_mem d = os ++ rest;
  da_size : pdu_size d = size;
  da_offset : byte_offset d = zlen os;
  da_fits : zlen os <= size <= zlen (os ++ rest);
  da_small : size < 2 ^ 31
}.

Lemma write_mem_app os h rest bs : zlen h = zlen bs -> write_mem (os ++ h ++ rest) (zlen os) bs = ok (os ++ bs ++ rest).
Proof.
  intros E. unfold write_mem. rewrite !length_app. rewrite (proj2 (Z.leb_le _ _)) by lia. rewrite Nat2Z.id, take_app_length. do 3 f_equal.
  replace (Z.to_nat (zlen os + zlen bs)) with (length (os ++ h)) by (rewrite length_app; lia). by rewrite app_assoc, drop_app_length.
Qed.

Lemma put_octet_at size d os b x rest :
  dl_at size d os (b :: rest) -> zlen os < size -> is_byte x -> exists d', put_octet d x = ok d' /\ dl_at size d' (os ++ [x]) rest.
Proof.
  intros [Em Es Eo Hf Hs] Hl Hx. unfold put_octet. rewrite Es, Eo, Em. rewrite (proj2 (Z.ltb_lt _ _)) by lia. cbn [srsran_assert mbind outcome_bind].
  unfold u8. rewrite (Z.mod_small x) by done. change (b :: rest) with ([b] ++ rest). rewrite (write_mem_app os [b] rest [x]) by done. cbn [mbind outcome_bind].
  eexists. split; [reflexivity|]. rewrite length_app in Hf. cbn [length] in Hf.
  split; cbn [pdu_mem pdu_size byte_offset]; rewrite ?length_app; cbn [length app]; try lia; [by rewrite <- app_assoc|rewrite u32_small; lia].
Qed.

Lemma put_bytes_at size d os h bs rest :
  dl_at size d os (h ++ rest) -> zlen h = zlen bs -> zlen os + zlen bs <= size ->
  exists d', put_bytes d bs = ok d' /\ dl_at size d' (os ++ bs) rest.
Proof.
  intros [Em Es Eo Hf Hs] Eh Hl. unfold put_bytes. rewrite Em, Eo, (write_mem_app os h rest bs Eh). cbn [mbind outcome_bind].
  eexists. split; [reflexivity|]. rewrite !length_app in Hf.
  split; cbn [pdu_mem pdu_size byte_offset]; rewrite ?length_app; try lia; [by rewrite <- app_assoc|rewrite u32_small; lia].
Qed.

(** A subheader for a payload of [n] octets. *)
Definition subheader (lcid n : Z) (header_len : Z) : bytes :=
  if header_len =? 3 then [64 + lcid; n / 256; n mod 256] else if header_len =? 2 then [lcid; n] else [lcid].

Lemma first_octet (F_bit : bool) lcid :
  0 <= lcid < 64 -> Z.lor (Z.shiftl (if F_bit then 1 else 0) 6) (Z.land lcid 0x3f) = (if F_bit then 64 else 0) + lcid.
Proof.
  intros H. change 0x3f with (2 ^ 6 - 1). rewrite land_mask, (Z.mod_small lcid) by lia. rewrite lor_shiftl_add by lia. destruct F_bit; lia.
Qed.

Lemma length_field n : 0 <= n < 2 ^ 16 -> Z.shiftr (Z.land n 0xff00) 8 = n / 256 /\ Z.land n 0xff = n mod 256.
Proof.
  intros H. split; [|change 0xff with (2 ^ 8 - 1); by rewrite land_mask]. change 0xff00 with (Z.shiftl (2 ^ 8 - 1) 8).
  rewrite Z.shiftr_land, Z.shiftr_shiftl_r by lia. rewrite Z.sub_diag. change (Z.shiftr (2 ^ 8 - 1) 0) with (2 ^ 8 - 1).
  rewrite land_mask, Z.shiftr_div_pow2 by lia. apply Z.mod_small. divmod.
Qed.

Lemma encode_subheader_at size d os h rest lcid header_len n :
  dl_at size d os (h ++ rest) -> zlen h = header_len -> 1 <= header_len <= 3 -> 0 <= lcid < 64 -> 0 <= n < 2 ^ 16 ->
  (header_len = 2 -> n < 256) -> zlen os + header_len <= size ->
  exists d', encode_subheader d (MIN_MAC_SDU_SUBHEADER_SIZE <? header_len) lcid header_len n = ok d' /\ dl_at size d' (os ++ subheader lcid n header_len) rest.
Proof.
  intros Hd Eh Hh Hl Hn Hn2 Hsz. unfold encode_subheader, MIN_MAC_SDU_SUBHEADER_SIZE, subheader. rewrite first_octet by done.
  destruct (length_field n Hn) as [E1 E2]. rewrite E1, E2.
  destruct h as [|h1 h]; [cbn in Eh; lia|]. cbn [app length] in *. rewrite Nat2Z.inj_succ in Eh.
  destruct (put_octet_at size d os h1 ((if 2 <? header_len then 64 else 0) + lcid) (h ++ rest) Hd) as (d1 & -> & H1); [lia|unfold is_byte; case_match; lia|].
  cbn [mbind outcome_bind]. assert (header_len = 1 \/ header_len = 2 \/ header_len = 3) as [-> |[-> | ->]] by lia.
  - destruct h; [|cbn [length] in Eh; lia]. by exists d1.
  - destruct h as [|h2 [|]]; [cbn in Eh; lia| |cbn [length] in Eh; lia]. cbn [app] in H1. cbn [Z.ltb Z.eqb Z.compare Pos.compare Pos.compare_cont Pos.eqb] in *.
    destruct (put_octet_at size d1 _ h2 (n mod 256) rest H1) as (d2 & -> & H2); [rewrite length_app; cbn [length]; lia|unfold is_byte; divmod|].
    exists d2. split; [done|]. rewrite <- app_assoc in H2. rewrite (Z.mod_small n) in H2 by lia. done.
  - destruct h as [|h2 [|h3 [|]]]; [cbn in Eh; lia|cbn in Eh; lia| |cbn [length] in Eh; lia]. cbn [app] in H1.
    cbn [Z.ltb Z.eqb Z.compare Pos.compare Pos.compare_cont Pos.eqb] in *.
    destruct (put_octet_at size d1 _ h2 (n / 256) (h3 :: rest) H1) as (d2 & -> & H2); [rewrite length_app; cbn [length]; lia|unfold is_byte; divmod|].
    cbn [mbind outcome_bind]. destruct (put_octet_at size d2 _ h3 (n mod 256) rest H2) as (d3 & -> & H3);
      [rewrite !length_app; cbn [length]; lia|unfold is_byte; divmod|]. exists d3. split; [done|]. by rewrite <- !app_assoc in H3.
Qed.

(** ** One SDU *)
Lemma subheader_size n : 0 < n -> get_mac_sdu_subheader_size n = if 256 <=? n then 3 else 2.
Proof. intros H. unfold get_mac_sdu_subheader_size, MAC_SDU_SUBHEADER_LENGTH_THRES. by zfalse. Qed.

Lemma sdu_octets lcid sdu :
  0 <= lcid <= LCID32 -> 0 < zlen sdu -> dl_octets (mk_dl_subpdu lcid sdu) = subheader lcid (zlen sdu) (get_mac_sdu_subheader_size (zlen sdu)) ++ sdu.
Proof.
  intros Hl Hn. rewrite subheader_size by done. unfold dl_octets, subheader. cbn [dl_lcid dl_payload]. rewrite (proj2 (Z.leb_le lcid LCID32)) by lia.
  destruct (Z.leb_spec 256 (zlen sdu)); [rewrite (proj2 (Z.ltb_ge (zlen sdu) 256)) by lia|rewrite (proj2 (Z.ltb_lt (zlen sdu) 256)) by lia]; done.
Qed.

Lemma subheader_length lcid n : 0 < n -> zlen (subheader lcid n (get_mac_sdu_subheader_size n)) = get_mac_sdu_subheader_size n.
Proof. intros H. rewrite subheader_size by done. unfold subheader. by destruct (256 <=? n). Qed.

Lemma sdu_length lcid sdu : 0 <= lcid <= LCID32 -> 0 < zlen sdu -> dl_length (mk_dl_subpdu lcid sdu) = get_mac_sdu_subheader_size (zlen sdu) + zlen sdu.
Proof. intros Hl Hn. unfold dl_length. rewrite sdu_octets by done. rewrite length_app. pose proof (subheader_length lcid (zlen sdu) Hn). lia. Qed.

Lemma shift_sdu_ok size d os h sdu rest :
  dl_at size d os (h ++ sdu ++ rest) -> zlen h = 3 -> zlen os < 2 ^ 31 -> sdu <> [] ->
  exists d' h' rest', shift_sdu d (zlen sdu) = ok d' /\ dl_at size d' os (h' ++ sdu ++ rest') /\ zlen h' = 2 /\ zlen rest' = zlen rest + 1.
Proof.
  intros [Em Es Eo Hf Hs] Eh Ho Hne. unfold shift_sdu, MIN_MAC_SDU_SUBHEADER_SIZE. rewrite Eo, Em. rewrite !length_app in *.
  destruct h as [|h1 [|h2 [|h3 [|]]]]; try (cbn [length] in Eh; lia). cbn [length] in *.
  rewrite (proj2 (Z.leb_le _ _)) by lia.
  assert (Esl : slice (os ++ [h1; h2; h3] ++ sdu ++ rest) (zlen os + 2 + 1) (zlen sdu) = sdu).
  { unfold slice. replace (Z.to_nat (zlen os + 2 + 1)) with (length (os ++ [h1; h2; h3])) by (rewrite length_app; cbn [length]; lia).
    rewrite app_assoc, drop_app_length, Nat2Z.id, take_app_length. done. }
  rewrite Esl. assert (Hsplit : exists g r, [h3] ++ sdu ++ rest = g ++ r /\ zlen g = zlen sdu /\ zlen r = zlen rest + 1).
  { exists (take (length sdu) ([h3] ++ sdu ++ rest)), (drop (length sdu) ([h3] ++ sdu ++ rest)). rewrite take_drop, length_take, length_drop, !length_app. cbn [length].
    split_and!; [done|lia..]. }
  destruct Hsplit as (g & r & Eg & Hg & Hr). change ([h1; h2; h3] ++ sdu ++ rest) with ([h1; h2] ++ [h3] ++ sdu ++ rest). rewrite Eg, app_assoc.
  replace (zlen os + 2) with (zlen (os ++ [h1; h2])) by (rewrite length_app; cbn [length]; lia). rewrite write_mem_app by done. cbn [mbind outcome_bind].
  eexists _, [h1; h2], r. split; [reflexivity|]. split; [|done].
  split; cbn [pdu_mem pdu_size byte_offset]; [by rewrite <- app_assoc|done|done| |done]. rewrite !length_app. cbn [length]. lia.
Qed.

Lemma encode_sdu_ok size d os h sdu rest lcid max :
  dl_at size d os (h ++ sdu ++ rest) -> zlen h = get_mac_sdu_subheader_size max -> 0 < zlen sdu <= max -> max < 2 ^ 16 -> 0 <= lcid <= LCID32 ->
  zlen os + zlen h + zlen sdu <= size ->
  exists d' rest', encode_sdu d (mac_sdu_encoder_ctor lcid max) (zlen sdu) = ok (d', dl_length (mk_dl_subpdu lcid sdu)) /\
    dl_at size d' (os ++ dl_octets (mk_dl_subpdu lcid sdu)) rest'.
Proof.
  intros Hd Eh Hn Hm Hl Hf. unfold encode_sdu, mac_sdu_encoder_ctor. cbn [max_sdu_size subhr_len enc_lcid].
  rewrite (proj2 (Z.eqb_neq (zlen sdu) 0)), (proj2 (Z.ltb_ge max (zlen sdu))) by lia. cbn [orb]. pose proof (da_small _ _ _ _ Hd) as Hsm.
  assert (Hpre : exists d1 h1 rest1 n, (if negb (get_mac_sdu_subheader_size (zlen sdu) =? get_mac_sdu_subheader_size max)
             then d ← shift_sdu d (zlen sdu); ok (d, MIN_MAC_SDU_SUBHEADER_SIZE) else ok (d, get_mac_sdu_subheader_size max)) = ok (d1, n) /\
             n = get_mac_sdu_subheader_size (zlen sdu) /\ zlen h1 = n /\ dl_at size d1 os (h1 ++ sdu ++ rest1) /\ n <= zlen h).
  { rewrite !subheader_size in * by lia.
    destruct (Z.leb_spec 256 (zlen sdu)), (Z.leb_spec 256 max); try lia; cbn [Z.eqb Pos.eqb negb]; try (eexists d, h, rest, _; split; [reflexivity|]; split_and!; done || lia).
    destruct (shift_sdu_ok size d os h sdu rest Hd Eh) as (d1 & h1 & rest1 & -> & H1 & E1 & _); [lia|by destruct sdu; cbn in Hn; [lia|]|].
    cbn [mbind outcome_bind]. exists d1, h1, rest1, 2. split_and!; done || lia. }
  destruct Hpre as (d1 & h1 & rest1 & n & -> & En & E1 & H1 & Hle). cbn [mbind outcome_bind].
  assert (Hb : 2 <= n <= 3 /\ (n = 2 -> zlen sdu < 256)) by (rewrite subheader_size in En by lia; destruct (Z.leb_spec 256 (zlen sdu)); lia).
  destruct (encode_subheader_at size d1 os h1 (sdu ++ rest1) lcid n (zlen sdu) H1) as (d2 & -> & H2); try lia; [unfold LCID32 in Hl; lia|].
  cbn [mbind outcome_bind]. rewrite sdu_length by (done || lia). rewrite sdu_octets by (done || lia). rewrite <- En.
  replace (u32 (n + zlen sdu)) with (n + zlen sdu) by (rewrite u32_small; lia). eexists _, rest1. split; [reflexivity|].
  destruct H2 as [Em Es Eo Hf2 Hs2]. pose proof (subheader_length lcid (zlen sdu) ltac:(lia)) as Hsl. rewrite <- En in Hsl. rewrite !length_app in *.
  split; cbn [pdu_mem pdu_size byte_offset]; rewrite ?length_app; [by rewrite Em, !app_assoc|done| |lia|done]. rewrite Eo, u32_small; lia.
Qed.

(** A span for the SDU lies in the PDU. *)
Lemma get_sdu_encoder_ok size d os rest lcid rem e :
  dl_at size d os rest -> 3 <= rem <= size - zlen os -> get_sdu_encoder d lcid (get_mac_sdu_payload_size rem) = Some e ->
  let max := get_mac_sdu_payload_size rem in
  e = mac_sdu_encoder_ctor lcid max /\ sdu_buffer d e = ok (zlen os + get_mac_sdu_subheader_size max) /\
  0 < max /\ max + get_mac_sdu_subheader_size max <= rem.
Proof.
  intros [Em Es Eo Hf Hs] Hr. pose proof (mac_sizes rem ltac:(lia)) as Hz. cbv zeta in Hz |- *. destruct Hz as (H1 & H2 & H3 & H4 & _).
  unfold get_sdu_encoder. rewrite (proj2 (Z.eqb_neq _ 0)) by lia. rewrite Es, Eo, u32_small by lia. case_match; [done|]. intros E. injection E as <-.
  rewrite Z.min_r by lia. rewrite H4. split; [done|]. unfold sdu_buffer, mac_sdu_encoder_ctor. cbn [subhr_len max_sdu_size]. rewrite Eo, Es.
  assert (0 <= get_mac_sdu_subheader_size (get_mac_sdu_payload_size rem)) by (unfold get_mac_sdu_subheader_size, MAX_MAC_SDU_SUBHEADER_SIZE,
    MIN_MAC_SDU_SUBHEADER_SIZE; repeat case_match; lia).
  rewrite u32_small by lia. rewrite !(proj2 (Z.leb_le _ _)) by lia. split; [done|lia].
Qed.

Lemma get_sdu_encoder_none size d os rest lcid rem :
  dl_at size d os rest -> 3 <= rem <= size - zlen os ->
  get_sdu_encoder d lcid (get_mac_sdu_payload_size rem) = None <-> size - zlen os < min_mac_subhdr_and_sdu_space_required lcid.
Proof.
  intros [Em Es Eo Hf Hs] Hr. pose proof (mac_sizes rem ltac:(lia)) as Hz. cbv zeta in Hz. unfold get_sdu_encoder.
  rewrite (proj2 (Z.eqb_neq _ 0)) by lia. rewrite Es, Eo, u32_small by lia. destruct (Z.ltb_spec (size - zlen os) (min_mac_subhdr_and_sdu_space_required lcid)); split; done || lia.
Qed.

(** ** The SDUs of a logical channel *)
Section builders.
Context {B : Type} `{MacSduTxBuilder B} (Inv : B -> Prop) {HL : MacSduTxBuilderLaws B Inv}.

(** The SDUs a bearer writes in successive calls; a call may write nothing. *)
Inductive sdus_pulled : B -> list bytes -> B -> Prop :=
| pulled_none b : sdus_pulled b [] b
| pulled_empty b n b1 l b' : 0 <= n < 2 ^ 32 -> on_new_tx_sdu b n = ok ([], b1) -> sdus_pulled b1 l b' -> sdus_pulled b l b'
| pulled_sdu b n sdu b1 l b' : 0 <= n < 2 ^ 32 -> on_new_tx_sdu b n = ok (sdu, b1) -> sdu <> [] -> sdus_pulled b1 l b' -> sdus_pulled b (sdu :: l) b'.

(** The largest payload that fits into some octets with the subheader that it needs. *)
Definition subheader_octets (n : Z) : Z := if n <? 256 then 2 else 3.
Definition max_payload (rem n : Z) : Prop := 0 < n /\ n + subheader_octets n <= rem /\ forall n', n < n' -> rem < n' + subheader_octets n'.

(** The SDUs of one logical channel, whose grant has [rem] octets left of the [room] of the transport block: the bearer is offered the largest payload that fits, until it
    writes nothing or the octets left, of the grant or of the block, are fewer than the smallest SDU takes. *)
Inductive sdus_granted (min lcid : Z) : Z -> Z -> B -> list bytes -> B -> Prop :=
| granted_no_room room rem b :
    rem < min \/ room < min_mac_subhdr_and_sdu_space_required lcid -> sdus_granted min lcid room rem b [] b
| granted_nothing room rem n b b' :
    min <= rem -> min_mac_subhdr_and_sdu_space_required lcid <= room -> max_payload rem n -> on_new_tx_sdu b n = ok ([], b') ->
    sdus_granted min lcid room rem b [] b'
| granted_sdu room rem n b sdu b1 l b' :
    min <= rem -> min_mac_subhdr_and_sdu_space_required lcid <= room -> max_payload rem n -> on_new_tx_sdu b n = ok (sdu, b1) -> sdu <> [] ->
    sdus_granted min lcid (room - dl_length (mk_dl_subpdu lcid sdu)) (rem - dl_length (mk_dl_subpdu lcid sdu)) b1 l b' ->
    sdus_granted min lcid room rem b (sdu :: l) b'.

Lemma max_payload_size rem : 3 <= rem < 2 ^ 32 -> max_payload rem (get_mac_sdu_payload_size rem).
Proof.
  intros Hr. unfold max_payload, subheader_octets, get_mac_sdu_payload_size, MAC_SDU_SUBHEADER_LENGTH_THRES, MIN_MAC_SDU_SUBHEADER_SIZE, MAX_MAC_SDU_SUBHEADER_SIZE.
  destruct (Z.leb_spec rem (256 + 2 - 1)); rewrite u32_small by lia; (split; [lia|]); split; try intros n' Hn'; zcases; lia.
Qed.

Lemma max_payload_unique rem n n' : max_payload rem n -> max_payload rem n' -> n = n'.
Proof.
  intros (_ & H1 & H2) (_ & H1' & H2'). destruct (Z.lt_total n n') as [Hl|[->|Hl]]; [|done|].
  - specialize (H2 _ Hl). lia.
  - specialize (H2' _ Hl). lia.
Qed.

Lemma granted_pulled min lcid room rem b sdus b' : rem < 2 ^ 32 -> sdus_granted min lcid room rem b sdus b' -> sdus_pulled b sdus b'.
Proof.
  intros Hr H1. induction H1 as [|room rem n b b' _ _ (Hp & Hf & _) E|room rem n b sdu b1 l b' _ _ (Hp & Hf & _) E Hne _ IH]; [constructor|..];
    assert (0 <= n < 2 ^ 32) by (unfold subheader_octets in Hf; zcases; lia).
  - by eapply (pulled_empty b n); [| |constructor].
  - eapply (pulled_sdu b n); try done. apply IH. unfold dl_length. lia.
Qed.

Lemma sdus_granted_unique min lcid room rem b sdus b' : sdus_granted min lcid room rem b sdus b' ->
  forall sdus2 b2, sdus_granted min lcid room rem b sdus2 b2 -> sdus2 = sdus /\ b2 = b'.
Proof.
  induction 1 as [room rem b Hn|room rem n b b' H1 H2 H3 E|room rem n b sdu b1 l b' H1 H2 H3 E Hne _ IH]; intros sdus2 b2 Hg; inversion Hg; subst; try done; try lia;
    match goal with H : max_payload rem ?n' |- _ => rewrite (max_payload_unique _ _ _ H H3) in * end.
  - split; congruence.
  - exfalso. congruence.
  - exfalso. congruence.
  - assert (sdu0 = sdu /\ b3 = b1) as [-> ->] by (split; congruence). by destruct (IH _ _ ltac:(eassumption)) as [-> ->].
Qed.

Definition sdu_subpdus (lcid : Z) (sdus : list bytes) : list dl_subpdu := mk_dl_subpdu lcid <$> sdus.

(** The octets of a list of subPDUs. *)
Definition dl_pdu (l : list dl_subpdu) : bytes := concat (dl_octets <$> l).

Lemma dl_pdu_app l l' : dl_pdu (l ++ l') = dl_pdu l ++ dl_pdu l'.
Proof. unfold dl_pdu. by rewrite fmap_app, concat_app. Qed.

Lemma dl_set_builders_twice (m : mac_dl B) b b' : dl_set_builders (dl_set_builders m b) b' = dl_set_builders m b'.
Proof. done. Qed.

Lemma write_sdu size d os rest o sdu (k : Z) :
  dl_at size d os rest -> o = zlen os + k -> 0 <= k -> o + zlen sdu <= size ->
  exists mem h rest', write_mem (pdu_mem d) o sdu = ok mem /\ dl_at size (mk_dl_pdu mem (pdu_size d) (byte_offset d)) os (h ++ sdu ++ rest') /\ zlen h = k.
Proof.
  intros [Em Es Eo Hf Hs] -> Hk Hb. rewrite length_app in Hf.
  assert (Hsplit : exists h g r, rest = h ++ g ++ r /\ zlen h = k /\ zlen g = zlen sdu).
  { exists (take (Z.to_nat k) rest), (take (length sdu) (drop (Z.to_nat k) rest)), (drop (length sdu) (drop (Z.to_nat k) rest)).
    rewrite !take_drop, !length_take, length_drop. split_and!; [done|lia..]. }
  destruct Hsplit as (h & g & r & -> & Hh & Hg). rewrite Em. replace (zlen os + k) with (zlen (os ++ h)) by (rewrite length_app; lia).
  replace (os ++ h ++ g ++ r) with ((os ++ h) ++ g ++ r) by (by rewrite <- app_assoc). rewrite write_mem_app by done.
  exists (((os ++ h) ++ sdu ++ r)), h, r. split; [done|]. split; [|done]. rewrite !length_app in Hf.
  split; cbn [pdu_mem pdu_size byte_offset]; [by rewrite <- app_assoc|done|done| |done]. rewrite !length_app. lia.
Qed.

Lemma assemble_sdus_loop_ok size lcid min id fuel : forall (m : mac_dl B) d os rest rem b,
  dl_at size d os rest -> 0 <= lcid <= LCID32 -> 3 <= min -> 0 <= rem <= size - zlen os -> rem <= 65538 -> rem < Z.of_nat fuel ->
  dl_builders m !! id = Some b -> Inv b ->
  exists d' rem' sdus b' rest',
    assemble_sdus_loop fuel lcid min (Some id) m d rem = ok (dl_set_builders m (<[id := b']> (dl_builders m)), d', rem') /\
    sdus_granted min lcid (size - zlen os) rem b sdus b' /\ Inv b' /\ dl_at size d' (os ++ dl_pdu (sdu_subpdus lcid sdus)) rest' /\ Forall dl_subpdu_ok (sdu_subpdus lcid sdus) /\
    rem' = rem - zlen (dl_pdu (sdu_subpdus lcid sdus)) /\ 0 <= rem'.
Proof.
  induction fuel as [|fuel IH]; intros m d os rest rem b Hd Hl Hmin Hr Hr2 Hf Hb Hi; [lia|]. cbn [assemble_sdus_loop].
  assert (Hstop : (rem < min \/ size - zlen os < min_mac_subhdr_and_sdu_space_required lcid) ->
    forall m', m' = dl_set_builders m (<[id := b]> (dl_builders m)) -> exists d' rem' sdus b' rest',
    ok (m', d, rem) = ok (dl_set_builders m (<[id := b']> (dl_builders m)), d', rem') /\ sdus_granted min lcid (size - zlen os) rem b sdus b' /\ Inv b' /\
    dl_at size d' (os ++ dl_pdu (sdu_subpdus lcid sdus)) rest' /\ Forall dl_subpdu_ok (sdu_subpdus lcid sdus) /\
    rem' = rem - zlen (dl_pdu (sdu_subpdus lcid sdus)) /\ 0 <= rem').
  { intros Hn m' ->. exists d, rem, [], b, rest. split; [done|]. split; [by constructor|]. split; [done|]. cbn. rewrite app_nil_r. split_and!; done || lia. }
  assert (Hid : m = dl_set_builders m (<[id := b]> (dl_builders m))) by (rewrite insert_id by done; by destruct m).
  destruct (Z.ltb_spec rem min) as [|Hge]; [apply Hstop; auto|]. pose proof (get_sdu_encoder_none size d os rest lcid rem Hd ltac:(lia)) as Hnone.
  destruct (get_sdu_encoder d lcid (get_mac_sdu_payload_size rem)) as [e|] eqn:Ee; [|apply Hstop; [right; by apply Hnone|done]].
  assert (Hroom : min_mac_subhdr_and_sdu_space_required lcid <= size - zlen os) by (apply Z.le_ngt; intros Hn; by apply Hnone in Hn). clear Hnone.
  destruct (get_sdu_encoder_ok size d os rest lcid rem e Hd ltac:(lia) Ee) as (-> & -> & Hmax & Hfit). cbn [mbind outcome_bind]. clear Hstop.
  pose proof (mac_sizes rem ltac:(pose proof (da_small _ _ _ _ Hd); lia)) as Hz. cbv zeta in Hz. destruct Hz as (_ & _ & _ & _ & H16).
  pose proof (max_payload_size rem ltac:(pose proof (da_small _ _ _ _ Hd); lia)) as Hmp.
  set (max := get_mac_sdu_payload_size rem) in *. cbn [option_bind mbind max_sdu_size mac_sdu_encoder_ctor]. rewrite Hb. cbn [option_bind mbind].
  assert (Hs0 : 0 <= get_mac_sdu_subheader_size max) by (rewrite subheader_size by done; case_match; lia).
  pose proof (da_small _ _ _ _ Hd). destruct (builder_fits b max Hi ltac:(lia)) as (sdu & b1 & Ep & Hn & Hi1). rewrite Ep. cbn [mbind outcome_bind].
  destruct (write_sdu size d os rest (zlen os + get_mac_sdu_subheader_size max) sdu (get_mac_sdu_subheader_size max) Hd) as (mem & h & rest1 & -> & Hd1 & Eh); try lia.
  cbn [mbind outcome_bind]. destruct (Z.eqb_spec (zlen sdu) 0) as [E0|E0].
  { destruct sdu; [|cbn in E0; lia]. eexists _, rem, [], b1, _. split; [reflexivity|]. split; [by eapply (granted_nothing min lcid _ rem max)|]. split; [done|]. cbn. rewrite app_nil_r.
    split_and!; [exact Hd1|done|lia..]. }
  destruct (encode_sdu_ok size _ os h sdu rest1 lcid max Hd1 Eh) as (d2 & rest2 & Eenc & Hd2); try lia. fold (mac_sdu_encoder_ctor lcid max). rewrite Eenc.
  cbn [mbind outcome_bind]. pose proof (sdu_length lcid sdu Hl ltac:(lia)) as El. pose proof (subheader_size (zlen sdu) ltac:(lia)) as Eh1.
  pose proof (subheader_size max Hmax) as Eh2. assert (Hle : 2 < dl_length (mk_dl_subpdu lcid sdu) <= rem).
  { rewrite El, Eh1. rewrite Eh2 in Hfit. destruct (Z.leb_spec 256 (zlen sdu)), (Z.leb_spec 256 max); lia. }
  rewrite (proj2 (Z.eqb_neq _ 0)), (proj2 (Z.leb_le _ rem)) by lia. cbn [srsran_assert mbind outcome_bind].
  destruct (IH (dl_set_builders m (<[id := b1]> (dl_builders m))) d2 (os ++ dl_octets (mk_dl_subpdu lcid sdu)) rest2 (rem - dl_length (mk_dl_subpdu lcid sdu)) b1)
    as (d' & rem' & sdus & b' & rest' & -> & Hp & Hi' & Hd' & Hok & Erem & Hrem); try done; try (rewrite length_app; unfold dl_length in *; lia); try lia.
  { cbn. by rewrite lookup_insert_eq. }
  exists d', rem', (sdu :: sdus), b', rest'. cbn [dl_set_builders dl_builders]. rewrite insert_insert_eq. split; [done|].
  split; [eapply (granted_sdu min lcid _ rem max b sdu b1); try done; [by intros ->|];
    rewrite length_app in Hp; unfold dl_length in *; by replace (size - zlen os - zlen (dl_octets (mk_dl_subpdu lcid sdu))) with (size - (zlen os + zlen (dl_octets (mk_dl_subpdu lcid sdu)))) by lia; rewrite <- Nat2Z.inj_add|]. split; [done|].
  change (dl_pdu (sdu_subpdus lcid (sdu :: sdus))) with (dl_octets (mk_dl_subpdu lcid sdu) ++ dl_pdu (sdu_subpdus lcid sdus)).
  rewrite app_assoc. split; [exact Hd'|]. split; [|rewrite length_app; unfold dl_length in *; split; lia]. constructor; [|done].
  unfold dl_subpdu_ok. cbn [dl_lcid dl_payload]. rewrite (proj2 (Z.leb_le lcid LCID32)) by lia. unfold PADDING, LCID32 in *. lia.
Qed.

(** ** Control elements and padding *)
Lemma split_rest (rest : bytes) n : 0 <= n <= zlen rest -> exists h r, rest = h ++ r /\ zlen h = n.
Proof. intros Hn. exists (take (Z.to_nat n) rest), (drop (Z.to_nat n) rest). rewrite take_drop, length_take. split; [done|lia]. Qed.

Lemma header_at size d os rest lcid n :
  dl_at size d os rest -> zlen os + 1 <= size -> 0 <= lcid < 64 -> 0 <= n < 2 ^ 16 ->
  exists d' rest', encode_subheader d false lcid 1 n = ok d' /\ dl_at size d' (os ++ [lcid]) rest' /\ zlen rest' = zlen rest - 1.
Proof.
  intros Hd Hs Hl Hn. pose proof (da_fits _ _ _ _ Hd) as Hf. rewrite length_app in Hf.
  destruct (split_rest rest 1) as (h & r & -> & Eh); [lia|].
  destruct (encode_subheader_at size d os h r lcid 1 n Hd Eh) as (d' & E & Hd'); try lia. exists d', r. split; [exact E|]. split; [exact Hd'|].
  rewrite length_app. lia.
Qed.

Lemma bytes_at size d os rest bs :
  dl_at size d os rest -> zlen os + zlen bs <= size -> exists d' rest', put_bytes d bs = ok d' /\ dl_at size d' (os ++ bs) rest'.
Proof.
  intros Hd Hs. pose proof (da_fits _ _ _ _ Hd) as Hf. rewrite length_app in Hf. destruct (split_rest rest (zlen bs)) as (h & r & -> & Eh); [lia|].
  destruct (put_bytes_at size d os h bs r Hd Eh Hs) as (d' & E & Hd'). by exists d', r.
Qed.

Lemma add_ue_con_res_id_ok size d os rest conres :
  dl_at size d os rest -> zlen conres = 6 -> zlen os + 7 <= size ->
  exists d' rest', add_ue_con_res_id d conres = ok d' /\ dl_at size d' (os ++ dl_octets (mk_dl_subpdu UE_CON_RES_ID conres)) rest'.
Proof.
  intros Hd Hc Hs. unfold add_ue_con_res_id. destruct (header_at size d os rest UE_CON_RES_ID 6 Hd) as (d1 & r1 & E1 & H1 & _); [lia|done|lia|].
  change (dl_sizeof_ce UE_CON_RES_ID) with 6. rewrite E1. cbn [mbind outcome_bind].
  destruct (bytes_at size d1 _ r1 conres H1) as (d' & r & -> & H'); [rewrite length_app; cbn [length]; lia|].
  exists d', r. split; [done|]. by rewrite <- app_assoc in H'.
Qed.

(** The octet of a timing advance command. *)
Definition ta_octet (ce : ta_cmd_ce_payload) : Z := Z.lor (Z.land (tag_id ce) 0xc0) (Z.land (ta_cmd ce) 0x3f).

Lemma ta_octet_value ce : ta_octet ce = (tag_id ce / 64) mod 4 * 64 + ta_cmd ce mod 64.
Proof.
  unfold ta_octet. change 0x3f with (2 ^ 6 - 1). rewrite land_mask by lia. change 0xc0 with (Z.shiftl (2 ^ 2 - 1) 6).
  assert (E : Z.land (tag_id ce) (Z.shiftl (2 ^ 2 - 1) 6) = Z.shiftl (Z.land (Z.shiftr (tag_id ce) 6) (2 ^ 2 - 1)) 6).
  { apply Z.bits_inj'. intros i Hi. rewrite Z.land_spec. destruct (decide (i < 6)).
    - rewrite !Z.shiftl_spec_low by lia. apply andb_false_r.
    - rewrite !Z.shiftl_spec by lia. rewrite Z.land_spec, Z.shiftr_spec by lia. by replace (i - 6 + 6) with i by lia. }
  rewrite E, land_mask, Z.shiftr_div_pow2 by lia. apply lor_shiftl_add; [lia|]. apply Z.mod_pos_bound. lia.
Qed.

Lemma add_tag_cmd_ok size d os rest ce :
  dl_at size d os rest -> zlen os + 2 <= size ->
  exists d' rest', add_tag_cmd d ce = ok d' /\ dl_at size d' (os ++ dl_octets (mk_dl_subpdu TA_CMD [ta_octet ce])) rest'.
Proof.
  intros Hd Hs. unfold add_tag_cmd. destruct (header_at size d os rest TA_CMD 1 Hd) as (d1 & r1 & E1 & H1 & El); [lia|done|lia|].
  change (dl_sizeof_ce TA_CMD) with 1. rewrite E1. cbn [mbind outcome_bind]. fold (ta_octet ce).
  pose proof (da_fits _ _ _ _ H1) as Hf. rewrite !length_app in Hf. cbn [length] in Hf. destruct r1 as [|b r]; [cbn [length] in Hf; lia|].
  destruct (put_octet_at size d1 _ b (ta_octet ce) r H1) as (d' & -> & H'); [rewrite length_app; cbn [length]; lia| |].
  - rewrite ta_octet_value. unfold is_byte. divmod.
  - exists d', r. split; [done|]. by rewrite <- app_assoc in H'.
Qed.

Lemma add_padding_ok size d os rest :
  dl_at size d os rest -> zlen os < size ->
  exists d' rest', add_padding d (size - zlen os) = ok d' /\ dl_at size d' (os ++ PADDING :: replicate (Z.to_nat (size - zlen os - 1)) 0) rest'.
Proof.
  intros Hd Hs. unfold add_padding. pose proof (da_small _ _ _ _ Hd). rewrite u32_small by lia.
  assert (E0 : exists d1 r1, encode_subheader d false PADDING 1 (size - zlen os - 1) = ok d1 /\ dl_at size d1 (os ++ [PADDING]) r1).
  { destruct (header_at size d os rest PADDING 0 Hd) as (d1 & r1 & E1 & H1 & _); [lia|done|lia|]. exists d1, r1. split; [|done]. exact E1. }
  destruct E0 as (d1 & r1 & -> & H1). cbn [mbind outcome_bind].
  destruct (bytes_at size d1 _ r1 (replicate (Z.to_nat (size - zlen os - 1)) 0) H1) as (d' & r & -> & H').
  - rewrite length_app, length_replicate. cbn [length]. lia.
  - exists d', r. split; [done|]. by rewrite <- app_assoc in H'.
Qed.

(** ** Logical channels of a transport block *)

(** What goes into a transport block that has [room] octets left, and what becomes of the bearers. [min] is the smallest SDU, which the first entry of an SDU that is ever
    assembled sets for good. *)
Inductive lcs_built (t : rnti_value_table) (db : dl_ue_db) (rnti : Z) :
    option Z -> Z -> gmap Z B -> list dl_msg_lc_info -> list dl_subpdu -> gmap Z B -> Prop :=
| built_nil min room bs : lcs_built t db rnti min room bs [] [] bs
| built_sdus min room bs lc lcs id b sdus b' l bs' :
    let first := default (min_mac_subhdr_and_sdu_space_required (lc_lcid lc)) min in
    dl_is_sdu (lc_lcid lc) = true -> get_lc_sdu_builder t db rnti (lc_lcid lc) = ok (Some id) -> bs !! id = Some b ->
    get_mac_sdu_required_bytes (sched_bytes lc) <= room ->
    sdus_granted first (lc_lcid lc) room (get_mac_sdu_required_bytes (sched_bytes lc)) b sdus b' ->
    lcs_built t db rnti (Some first) (room - zlen (dl_pdu (sdu_subpdus (lc_lcid lc) sdus))) (<[id := b']> bs) lcs l bs' ->
    lcs_built t db rnti min room bs (lc :: lcs) (sdu_subpdus (lc_lcid lc) sdus ++ l) bs'
| built_con_res min room bs lc lcs conres l bs' :
    lc_lcid lc = UE_CON_RES_ID -> get_con_res_id t db rnti = ok conres ->
    lcs_built t db rnti min (room - 7) bs lcs l bs' -> lcs_built t db rnti min room bs (lc :: lcs) (mk_dl_subpdu UE_CON_RES_ID conres :: l) bs'
| built_ta min room bs lc lcs ce l bs' :
    lc_lcid lc = TA_CMD -> ce_payload lc = Some ce ->
    lcs_built t db rnti min (room - 2) bs lcs l bs' -> lcs_built t db rnti min room bs (lc :: lcs) (mk_dl_subpdu TA_CMD [ta_octet ce] :: l) bs'.

(** The entries and the bearers decide what is in the block. *)
Lemma lcs_built_unique t db rnti min room bs lcs l bs' : lcs_built t db rnti min room bs lcs l bs' ->
  forall l2 bs2, lcs_built t db rnti min room bs lcs l2 bs2 -> l2 = l /\ bs2 = bs'.
Proof.
  induction 1 as [min room bs|min room bs lc lcs id b sdus b' l bs' first Hs Hid Hb Hroom Hg _ IH|min room bs lc lcs conres l bs' El Hc _ IH|min room bs lc lcs ce l bs' El Hc _ IH];
    intros l2 bs2 H2; inversion H2; subst; try done;
    try match goal with
        | E : lc_lcid lc = _, E' : dl_is_sdu _ = true |- _ => rewrite E in E'; discriminate E'
        | E : lc_lcid lc = TA_CMD, E' : lc_lcid lc = UE_CON_RES_ID |- _ => rewrite E in E'; discriminate E'
        end.
  - assert (id0 = id) as -> by congruence. assert (b0 = b) as -> by congruence.
    destruct (sdus_granted_unique _ _ _ _ _ _ _ Hg _ _ ltac:(eassumption)) as [-> ->]. by destruct (IH _ _ ltac:(eassumption)) as [-> ->].
  - assert (conres0 = conres) as -> by congruence. by destruct (IH _ _ ltac:(eassumption)) as [-> ->].
  - assert (ce0 = ce) as -> by congruence. by destruct (IH _ _ ltac:(eassumption)) as [-> ->].
Qed.

(** What the scheduler grants: an SDU logical channel has a bearer, and the octets fit 16 bits; the CEs are those the MAC knows. *)
Definition lc_ok (m : mac_dl B) (rnti : Z) (lc : dl_msg_lc_info) : Prop :=
  (0 <= lc_lcid lc <= LCID32 /\ 0 <= sched_bytes lc < 2 ^ 16 /\
     exists id, get_lc_sdu_builder (dl_rntis m) (dl_ues m) rnti (lc_lcid lc) = ok (Some id) /\ is_Some (dl_builders m !! id)) \/
  lc_lcid lc = UE_CON_RES_ID \/ (lc_lcid lc = TA_CMD /\ is_Some (ce_payload lc)).

(** The room that a logical channel may take. *)
Definition lc_size (lc : dl_msg_lc_info) : Z :=
  if dl_is_sdu (lc_lcid lc) then get_mac_sdu_required_bytes (sched_bytes lc) else 1 + dl_sizeof_ce (lc_lcid lc).

Fixpoint lcs_size (lcs : list dl_msg_lc_info) : Z := match lcs with [] => 0 | lc :: lcs => lc_size lc + lcs_size lcs end.

Record dl_inv (m : mac_dl B) : Prop := {
  di_rntis : forall rnti, is_crnti rnti = true -> exists ue, table_get (dl_rntis m) rnti = ok ue;
  di_ues : forall ue u, dl_ues m !! ue = Some u -> zlen (msg3_subpdu u) = 6;
  di_builders : forall id b, dl_builders m !! id = Some b -> Inv b;
  di_min : forall n, min_mac_sdu_size m = Some n -> 3 <= n
}.

Lemma con_res_ok m rnti : dl_inv m -> is_crnti rnti = true -> exists conres, get_con_res_id (dl_rntis m) (dl_ues m) rnti = ok conres /\ zlen conres = 6.
Proof.
  intros Hm Hr. unfold get_con_res_id. destruct (di_rntis m Hm rnti Hr) as (ue & ->). cbn [mbind outcome_bind]. eexists. split; [reflexivity|].
  destruct (dl_ues m !! ue) eqn:E; [by eapply di_ues|done].
Qed.

Lemma dl_is_sdu_range lcid : 0 <= lcid <= LCID32 -> dl_is_sdu lcid = true.
Proof. intros Hl. unfold dl_is_sdu, DL_CCCH. apply andb_true_iff. split; apply Z.leb_le; lia. Qed.

Lemma lc_sizes m rnti lc : lc_ok m rnti lc -> 0 <= lc_size lc.
Proof.
  unfold lc_size. intros [(Hl & Hs & _)|[->|[-> _]]]; [|done..]. rewrite dl_is_sdu_range by done.
  pose proof (required_bytes_bound (sched_bytes lc) Hs). lia.
Qed.

(** One logical channel. *)
Lemma assemble_lc_ok m size d os rest rnti lc :
  dl_inv m -> is_crnti rnti = true -> lc_ok m rnti lc -> dl_at size d os rest -> zlen os + lc_size lc <= size ->
  exists m' d' l rest',
    (if dl_is_sdu (lc_lcid lc) then assemble_sdus m d rnti lc else d ← assemble_ce m d rnti lc; ok (m, d)) = ok (m', d') /\
    dl_inv m' /\ dl_at size d' (os ++ dl_pdu l) rest' /\ zlen (dl_pdu l) <= lc_size lc /\ Forall dl_subpdu_ok l /\
    dl_rntis m' = dl_rntis m /\ dl_ues m' = dl_ues m /\ dl_harqs m' = dl_harqs m /\ (forall id, is_Some (dl_builders m !! id) -> is_Some (dl_builders m' !! id)) /\
    (forall lcs l' bs', lcs_built (dl_rntis m) (dl_ues m) rnti (min_mac_sdu_size m') (size - zlen os - zlen (dl_pdu l)) (dl_builders m') lcs l' bs' ->
       lcs_built (dl_rntis m) (dl_ues m) rnti (min_mac_sdu_size m) (size - zlen os) (dl_builders m) (lc :: lcs) (l ++ l') bs').
Proof.
  intros Hm Hr Hok Hd Hfit. destruct Hok as [(Hl & Hs & id & Hid & [b Hb])|[Hl|[Hl [ce Hce]]]].
  - pose proof (dl_is_sdu_range _ Hl) as Es.
    unfold lc_size in *. rewrite Es in *. unfold assemble_sdus. set (min := default _ (min_mac_sdu_size m)). cbn [dl_set_min dl_rntis dl_ues]. rewrite Hid.
    cbn [mbind outcome_bind]. pose proof (required_bytes_bound (sched_bytes lc) Hs). pose proof (da_fits _ _ _ _ Hd) as Hf. pose proof (da_small _ _ _ _ Hd).
    assert (Hmin : 3 <= min).
    { unfold min. destruct (min_mac_sdu_size m) as [n|] eqn:En; [by eapply di_min|]. cbn. unfold min_mac_subhdr_and_sdu_space_required, MIN_MAC_SDU_SUBHEADER_SIZE,
        RLC_HEADER_SIZE_ESTIM. case_match; lia. }
    unfold nof_empty_bytes. rewrite (da_size _ _ _ _ Hd), (da_offset _ _ _ _ Hd), u32_small by lia. rewrite Z.min_l by lia.
    set (req := get_mac_sdu_required_bytes (sched_bytes lc)) in *.
    destruct (assemble_sdus_loop_ok size (lc_lcid lc) min id (S (Z.to_nat req)) (dl_set_min m min) d os rest req b)
      as (d' & rem' & sdus & b' & rest' & -> & Hp & Hi' & Hd' & Hoks & Erem & Hrem); try done; try lia; [by eapply di_builders|].
    cbn [mbind outcome_bind]. eexists _, d', _, rest'. split; [reflexivity|]. cbn [dl_set_builders dl_set_min dl_rntis dl_ues dl_harqs dl_builders min_mac_sdu_size].
    split; [|split; [exact Hd'|split; [lia|split; [done|split; [done|split; [done|split; [done|split]]]]]]].
    + split; cbn; [apply (di_rntis m Hm)|apply (di_ues m Hm)| |by intros n [= <-]]. intros i b0 [[<- <-]|[_ ?]]%lookup_insert_Some; [done|by eapply di_builders].
    + intros i Hi. destruct (decide (i = id)) as [->|]; [rewrite lookup_insert_eq; eauto|by rewrite lookup_insert_ne].
    + intros lcs l' bs' Hbuilt. eapply built_sdus; try done. lia.
  - destruct (con_res_ok m rnti Hm Hr) as (conres & Ec & Hlen). unfold lc_size in Hfit. rewrite Hl in *. change (dl_is_sdu UE_CON_RES_ID) with false in *.
    change (1 + dl_sizeof_ce UE_CON_RES_ID) with 7 in *. unfold assemble_ce. rewrite Hl, Z.eqb_refl, Ec. cbn [mbind outcome_bind].
    destruct (add_ue_con_res_id_ok size d os rest conres Hd Hlen) as (d' & rest' & -> & Hd'); [lia|]. cbn [mbind outcome_bind].
    eexists m, d', [mk_dl_subpdu UE_CON_RES_ID conres], rest'. split; [reflexivity|]. unfold dl_pdu. cbn [fmap list_fmap concat]. rewrite app_nil_r.
    split; [done|]. split; [done|]. split; [unfold dl_octets, lc_size; cbn; rewrite Hl; cbn; lia|]. split; [constructor; [done|done]|]. split_and!; try done.
    intros lcs l' bs' Hbuilt. apply built_con_res; try done. unfold dl_octets in Hbuilt. cbn [dl_lcid dl_payload] in Hbuilt.
    change (UE_CON_RES_ID <=? LCID32) with false in Hbuilt. cbn [length] in Hbuilt. by replace (Z.of_nat (S (length conres))) with 7 in Hbuilt by lia.
  - unfold lc_size in Hfit. rewrite Hl in *. change (dl_is_sdu TA_CMD) with false in *. change (1 + dl_sizeof_ce TA_CMD) with 2 in *.
    unfold assemble_ce. rewrite Hl, Hce. cbn [TA_CMD UE_CON_RES_ID Z.eqb Pos.eqb].
    destruct (add_tag_cmd_ok size d os rest ce Hd) as (d' & rest' & -> & Hd'); [lia|]. cbn [mbind outcome_bind].
    eexists m, d', [mk_dl_subpdu TA_CMD [ta_octet ce]], rest'. split; [reflexivity|]. unfold dl_pdu. cbn [fmap list_fmap concat]. rewrite app_nil_r.
    split; [done|]. split; [done|]. split; [unfold dl_octets, lc_size; cbn; rewrite Hl; done|]. split; [constructor; [done|done]|]. split_and!; try done.
    intros lcs l' bs' Hbuilt. by apply built_ta.
Qed.

Lemma assemble_lcs_ok rnti size lcs : forall m d os rest,
  dl_inv m -> is_crnti rnti = true -> Forall (lc_ok m rnti) lcs -> dl_at size d os rest -> zlen os + lcs_size lcs <= size ->
  exists m' d' l rest',
    assemble_lcs m d rnti lcs = ok (m', d') /\ dl_inv m' /\ dl_at size d' (os ++ dl_pdu l) rest' /\ Forall dl_subpdu_ok l /\
    dl_rntis m' = dl_rntis m /\ dl_ues m' = dl_ues m /\ dl_harqs m' = dl_harqs m /\
    lcs_built (dl_rntis m) (dl_ues m) rnti (min_mac_sdu_size m) (size - zlen os) (dl_builders m) lcs l (dl_builders m').
Proof.
  induction lcs as [|lc lcs IH]; intros m d os rest Hm Hr Hl Hd Hs.
  - exists m, d, [], rest. cbn. rewrite app_nil_r. split_and!; try done. constructor.
  - apply Forall_cons in Hl as [Hlc Hl]. cbn [lcs_size assemble_lcs] in *. assert (0 <= lcs_size lcs).
    { clear -Hl. induction Hl as [|lc lcs Hlc Hl IH]; cbn [lcs_size]; [lia|]. pose proof (lc_sizes _ _ _ Hlc). lia. }
    destruct (assemble_lc_ok m size d os rest rnti lc Hm Hr Hlc Hd) as (m1 & d1 & l1 & r1 & -> & Hm1 & Hd1 & Hsz & Hok1 & Et & Eu & Eh & Hsome & Hb); [lia|].
    cbn [mbind outcome_bind]. destruct (IH m1 d1 (os ++ dl_pdu l1) r1 Hm1 Hr) as (m' & d' & l & rest' & -> & Hm' & Hd' & Hok & Et' & Eu' & Eh' & Hb'); [|done| |].
    + eapply Forall_impl; [exact Hl|]. intros lc' [(? & ? & id & Hid & Hex)|?]; [left|by right]. rewrite Et, Eu. eauto 10.
    + rewrite length_app. lia.
    + exists m', d', (l1 ++ l), rest'. rewrite dl_pdu_app, app_assoc. rewrite Et, Eu, Eh in *. split_and!; try done; [by apply Forall_app|]. apply Hb. rewrite length_app, Nat2Z.inj_add, Z.sub_add_distr in Hb'. exact Hb'.
Qed.

Lemma ue_parse_pdu l k rest :
  Forall dl_subpdu_ok l -> ue_parse (length l + k) (dl_pdu l ++ rest) = (l' ← ue_parse k rest; Some (l ++ l')).
Proof.
  induction 1 as [|s l Hs Hl IH]; cbn [length Nat.add].
  - cbn [dl_pdu fmap list_fmap concat app]. by destruct (ue_parse k rest).
  - change (dl_pdu (s :: l)) with (dl_octets s ++ dl_pdu l). rewrite <- app_assoc, ue_parse_octets by done. rewrite IH. by destruct (ue_parse k rest).
Qed.

Lemma dl_pdu_length l : (length l <= length (dl_pdu l))%nat.
Proof.
  induction l as [|s l IH]; [done|]. change (dl_pdu (s :: l)) with (dl_octets s ++ dl_pdu l). rewrite length_app. cbn [length].
  assert (1 <= length (dl_octets s))%nat; [|lia]. unfold dl_octets. repeat case_match; cbn [length]; lia.
Qed.

(** Padding, or nothing, behind the subPDUs. *)
Lemma ue_parse_padded l n :
  Forall dl_subpdu_ok l ->
  let pdu := dl_pdu l ++ (if 0 <? n then PADDING :: replicate (Z.to_nat (n - 1)) 0 else []) in
  ue_parse (S (length pdu)) pdu = Some l.
Proof.
  intros Hl. cbv zeta. set (pad := if 0 <? n then _ else _). pose proof (dl_pdu_length l).
  replace (S (length (dl_pdu l ++ pad))) with (length l + S (length (dl_pdu l) - length l + length pad))%nat by (rewrite length_app; lia).
  rewrite ue_parse_pdu by done. assert (E : ue_parse (S (length (dl_pdu l) - length l + length pad)) pad = Some []).
  { unfold pad. destruct (0 <? n); [|done]. reflexivity. }
  rewrite E. cbn. by rewrite app_nil_r.
Qed.

Lemma get_ue_index_valid t rnti ue : get_ue_index t rnti = ok ue -> is_du_ue_index_valid ue = true -> (ue =? INVALID_DU_UE_INDEX) = false.
Proof. intros _ Hv. unfold is_du_ue_index_valid, MAX_NOF_DU_UES in Hv. apply Z.ltb_lt in Hv. apply Z.eqb_neq. unfold INVALID_DU_UE_INDEX. lia. Qed.

Lemma dl_harq_buffer_set p ue h b buf : dl_harq_buffer p ue h = ok buf -> dl_harq_buffer (set_harq_buffer p ue h b) ue h = ok b.
Proof.
  unfold dl_harq_buffer, set_harq_buffer, set_ue_buffers, ue_buffers. cbn [cell_buffers]. rewrite lookup_insert_eq. cbn [from_option id]. rewrite length_insert.
  destruct (srsran_assert _); cbn [mbind outcome_bind]; [|done]. destruct (_ !! Z.to_nat h) eqn:E; [|done]. intros _.
  rewrite list_lookup_insert_eq; [done|by eapply lookup_lt_Some].
Qed.

(** The transport block that is assembled. *)
Lemma assemble_newtx_ok m rnti h_id lcs tb ue buffer :
  dl_inv m -> is_crnti rnti = true -> get_ue_index (dl_rntis m) rnti = ok ue -> is_du_ue_index_valid ue = true ->
  dl_harq_buffer (dl_harqs m) ue h_id = ok buffer -> 0 <= tb <= zlen buffer -> tb < 2 ^ 31 ->
  Forall (lc_ok m rnti) lcs -> lcs_size lcs <= tb ->
  exists m' pdu l mem,
    assemble_newtx_pdu m rnti h_id lcs tb = ok (m', pdu) /\ dl_inv m' /\ zlen pdu = tb /\ ue_parse (S (length pdu)) pdu = Some l /\
    lcs_built (dl_rntis m) (dl_ues m) rnti (min_mac_sdu_size m) tb (dl_builders m) lcs l (dl_builders m') /\
    dl_rntis m' = dl_rntis m /\ dl_ues m' = dl_ues m /\ dl_harqs m' = set_harq_buffer (dl_harqs m) ue h_id mem /\ slice mem 0 tb = pdu /\ tb <= zlen mem.
Proof.
  intros Hm Hr Ht Hv Hb Htb Hsm Hl Hs. unfold assemble_newtx_pdu. rewrite Ht. cbn [mbind outcome_bind]. rewrite (get_ue_index_valid _ _ _ Ht Hv), Hb.
  cbn [mbind outcome_bind]. rewrite (proj2 (Z.ltb_ge (zlen buffer) tb)) by lia.
  assert (Hd0 : dl_at tb (mk_dl_pdu buffer tb 0) [] buffer) by (split; cbn; done || lia).
  destruct (assemble_lcs_ok rnti tb lcs m _ [] buffer Hm Hr Hl Hd0) as (m1 & d1 & l & r1 & -> & Hm1 & Hd1 & Hok & Et & Eu & Eh & Hbuilt); [cbn; lia|].
  rewrite Z.sub_0_r in Hbuilt. cbn [mbind outcome_bind app] in *. rewrite (da_offset _ _ _ _ Hd1). pose proof (da_fits _ _ _ _ Hd1) as Hf.
  set (pad := if 0 <? tb - zlen (dl_pdu l) then PADDING :: replicate (Z.to_nat (tb - zlen (dl_pdu l) - 1)) 0 else []).
  assert (Hpad : exists d2 r2, (if zlen (dl_pdu l) <? tb then add_padding d1 (u32 (tb - zlen (dl_pdu l))) else ok d1) = ok d2 /\
            dl_at tb d2 (dl_pdu l ++ pad) r2 /\ zlen (dl_pdu l ++ pad) = tb).
  { unfold pad. destruct (Z.ltb_spec (zlen (dl_pdu l)) tb).
    - rewrite u32_small, (proj2 (Z.ltb_lt 0 _)) by lia. destruct (add_padding_ok tb d1 (dl_pdu l) r1 Hd1) as (d2 & r2 & E & H2); [lia|].
      exists d2, r2. split; [done|]. split; [done|]. rewrite length_app. cbn [length]. rewrite length_replicate. lia.
    - rewrite (proj2 (Z.ltb_ge 0 _)) by lia. exists d1, r1. rewrite app_nil_r. split; [done|]. split; [done|]. lia. }
  destruct Hpad as (d2 & r2 & -> & [Em Es Eo Hf2 Hs2] & Elen). cbn [mbind outcome_bind]. rewrite (proj2 (Z.ltb_ge tb _)) by lia.
  rewrite Eo, Es, Elen, (proj2 (Z.leb_le tb tb)) by lia. cbn [srsran_assert mbind outcome_bind].
  assert (Esl : slice (pdu_mem d2) 0 tb = dl_pdu l ++ pad).
  { rewrite Em. unfold slice. cbn [Z.to_nat]. rewrite drop_0. replace (Z.to_nat tb) with (length (dl_pdu l ++ pad)) by lia. apply take_app_length. }
  eexists _, _, l, (pdu_mem d2). split; [reflexivity|]. rewrite Esl. cbn [dl_set_harqs dl_rntis dl_ues dl_builders dl_harqs]. rewrite Eh.
  split; [destruct Hm1; by split|]. split; [done|]. split; [by apply ue_parse_padded|]. split; [done|]. split_and!; try done.
  rewrite Em. lia.
Qed.

(** A transport block for a UE whose bearers and HARQ buffer exist, when the grants fit: it has exactly the size the scheduler asked for, and a UE reads in it, for the
    entries of the grant in their order, the control elements and the SDUs that the bearers write when they are offered what is left of the grant, each complete and unchanged,
    and otherwise padding. *)
Theorem mac_dl_assembled m rnti h_id lcs tb ue buffer :
  dl_inv m -> is_crnti rnti = true -> get_ue_index (dl_rntis m) rnti = ok ue -> is_du_ue_index_valid ue = true ->
  dl_harq_buffer (dl_harqs m) ue h_id = ok buffer -> 0 <= tb <= zlen buffer -> tb < 2 ^ 31 ->
  Forall (lc_ok m rnti) lcs -> lcs_size lcs <= tb ->
  exists m' pdu l,
    assemble_newtx_pdu m rnti h_id lcs tb = ok (m', pdu) /\ zlen pdu = tb /\ ue_parse (S (length pdu)) pdu = Some l /\
    lcs_built (dl_rntis m) (dl_ues m) rnti (min_mac_sdu_size m) tb (dl_builders m) lcs l (dl_builders m') /\ dl_inv m'.
Proof.
  intros Hm Hr Ht Hv Hb Htb Hsm Hl Hs.
  destruct (assemble_newtx_ok m rnti h_id lcs tb ue buffer Hm Hr Ht Hv Hb Htb Hsm Hl Hs) as (m' & pdu & l & mem & E & Hm' & Hlen & Hp & Hbuilt & _).
  by exists m', pdu, l.
Qed.

(** ** Retransmissions *)

(** What else happens in the cell. *)
Inductive dl_op :=
| dlo_newtx (rnti h_id : Z) (lcs : list dl_msg_lc_info) (tb_size_bytes : Z)
| dlo_retx (rnti h_id tb_size_bytes : Z)
| dlo_bearers (builders : gmap Z B)
| dlo_ues (db : dl_ue_db)
| dlo_allocate (accepted : bool) (ue_index nof_harqs : Z)
| dlo_deallocate (ue_index : Z)
| dlo_grow (accepted : bool).

Definition dl_step (m : mac_dl B) (op : dl_op) : outcome (mac_dl B) :=
  match op with
  | dlo_newtx rnti h_id lcs tb => '(m, _) ← assemble_newtx_pdu m rnti h_id lcs tb; ok m
  | dlo_retx rnti h_id tb => _ ← assemble_retx_pdu m rnti h_id tb; ok m
  | dlo_bearers builders => ok (dl_set_builders m builders)
  | dlo_ues db => ok (mk_mac_dl (dl_rntis m) db (dl_builders m) (dl_harqs m) (min_mac_sdu_size m))
  | dlo_allocate accepted ue n => p ← allocate_ue_buffers accepted (dl_harqs m) ue n; ok (dl_set_harqs m p)
  | dlo_deallocate ue => p ← deallocate_ue_buffers (dl_harqs m) ue; ok (dl_set_harqs m p)
  | dlo_grow accepted => ok (dl_set_harqs m (run_grow_task accepted (dl_harqs m)))
  end.

Fixpoint dl_run (m : mac_dl B) (l : list dl_op) : outcome (mac_dl B) :=
  match l with [] => ok m | op :: l => m ← dl_step m op; dl_run m l end.

(** No new transport block of this HARQ process, and the buffers of the UE are kept. *)
Definition dl_op_other (t : rnti_value_table) (ue h_id : Z) (op : dl_op) : Prop :=
  match op with
  | dlo_newtx rnti' h' _ _ => 0 <= h' /\ (get_ue_index t rnti' = ok ue -> h' <> h_id)
  | dlo_deallocate ue' => ue' <> ue
  | _ => True
  end.

Lemma assemble_loop_frame fuel lcid min bearer : forall m d rem m' d' rem',
  assemble_sdus_loop fuel lcid min bearer m d rem = ok (m', d', rem') -> dl_rntis m' = dl_rntis m /\ dl_harqs m' = dl_harqs m.
Proof.
  induction fuel as [|fuel IH]; intros m d rem m' d' rem' E; cbn [assemble_sdus_loop] in E; [done|].
  destruct (rem <? min); [by injection E as <- _ _|]. destruct (get_sdu_encoder _ _ _) as [e|]; [|by injection E as <- _ _].
  apply bind_ok_inv in E as (o & _ & E). destruct (bearer ≫= _) as [[id b]|]; [|done]. apply bind_ok_inv in E as ([sdu b1] & _ & E).
  apply bind_ok_inv in E as (mem & _ & E). destruct (zlen sdu =? 0); [by injection E as <- _ _|]. apply bind_ok_inv in E as ([d1 n] & _ & E).
  destruct (n =? 0); [by injection E as <- _ _|]. apply bind_ok_inv in E as ([] & _ & E). by destruct (IH _ _ _ _ _ _ E).
Qed.

Lemma assemble_lcs_frame rnti lcs : forall m d m' d',
  assemble_lcs m d rnti lcs = ok (m', d') -> dl_rntis m' = dl_rntis m /\ dl_harqs m' = dl_harqs m.
Proof.
  induction lcs as [|lc lcs IH]; intros m d m' d' E; cbn [assemble_lcs] in E; [by injection E as <- _|]. apply bind_ok_inv in E as ([m1 d1] & E1 & E).
  apply IH in E as [-> ->]. destruct (dl_is_sdu _).
  - unfold assemble_sdus in E1. apply bind_ok_inv in E1 as (bearer & _ & E1). apply bind_ok_inv in E1 as ([[m2 d2] rem] & E1 & E2). injection E2 as <- _.
    by destruct (assemble_loop_frame _ _ _ _ _ _ _ _ _ _ E1) as [-> ->].
  - apply bind_ok_inv in E1 as (d2 & _ & E1). by injection E1 as <- _.
Qed.

Lemma newtx_frame m rnti h lcs tb m' pdu :
  assemble_newtx_pdu m rnti h lcs tb = ok (m', pdu) ->
  dl_rntis m' = dl_rntis m /\ (dl_harqs m' = dl_harqs m \/ exists ue mem, get_ue_index (dl_rntis m) rnti = ok ue /\ dl_harqs m' = set_harq_buffer (dl_harqs m) ue h mem).
Proof.
  unfold assemble_newtx_pdu. intros E. apply bind_ok_inv in E as (ue & Eu & E).
  destruct (ue =? INVALID_DU_UE_INDEX); [apply bind_ok_inv in E as (? & _ & E); injection E as <- _; auto|].
  apply bind_ok_inv in E as (buffer & _ & E). destruct (zlen buffer <? tb); [apply bind_ok_inv in E as (? & _ & E); injection E as <- _; auto|].
  apply bind_ok_inv in E as ([m1 d1] & E1 & E). apply assemble_lcs_frame in E1 as [Et Eh]. apply bind_ok_inv in E as (d2 & _ & E).
  assert (Em : m' = dl_set_harqs m1 (set_harq_buffer (dl_harqs m1) ue h (pdu_mem d2))).
  { destruct (tb <? byte_offset d1); apply bind_ok_inv in E as (? & _ & E); by injection E as <- _. }
  subst m'. cbn [dl_set_harqs dl_rntis dl_harqs]. split; [done|]. right. exists ue, (pdu_mem d2). by rewrite Eh.
Qed.

Lemma add_ue_buffer_other ue h p ue' buf : dl_harq_buffer p ue h = ok buf -> dl_harq_buffer (add_ue_buffer ue' p) ue h = ok buf.
Proof.
  unfold dl_harq_buffer, add_ue_buffer, set_ue_buffers, ue_buffers. intros E.
  assert (Hgen : forall b, (_ ← srsran_assert (h <=? zlen (default [] (<[ue' := default [] (cell_buffers p !! ue') ++ [b]]> (cell_buffers p) !! ue)));
            match default [] (<[ue' := default [] (cell_buffers p !! ue') ++ [b]]> (cell_buffers p) !! ue) !! Z.to_nat h with
            | None => fail assertion | Some b => ok b end) = ok buf); [|by destruct (buffer_cache p); apply Hgen].
  intros b. destruct (decide (ue' = ue)) as [->|Hne]; [|by rewrite lookup_insert_ne]. rewrite lookup_insert_eq. cbn [from_option id]. rewrite length_app.
  apply bind_ok_inv in E as ([] & Ea & E). destruct (_ !! Z.to_nat h) as [b0|] eqn:El; [|done]. injection E as <-.
  assert (Hle : h <= zlen (default [] (cell_buffers p !! ue))) by (destruct (Z.leb_spec h (zlen (default [] (cell_buffers p !! ue)))); [done|done]).
  rewrite (proj2 (Z.leb_le h _)) by (cbn [length]; lia). cbn [srsran_assert mbind outcome_bind]. by rewrite (lookup_app_l_Some _ _ _ _ El).
Qed.

Lemma dl_step_other m op m' ue h buf :
  0 <= h -> dl_step m op = ok m' -> dl_op_other (dl_rntis m) ue h op -> dl_harq_buffer (dl_harqs m) ue h = ok buf ->
  dl_rntis m' = dl_rntis m /\ dl_harq_buffer (dl_harqs m') ue h = ok buf.
Proof.
  intros Hh E Ho Hb. destruct op as [rnti' h' lcs tb|rnti' h' tb|builders|db|acc ue' n|ue'|acc]; cbn [dl_step dl_op_other] in *.
  - apply bind_ok_inv in E as ([m1 pdu] & E & E'). injection E' as <-. destruct (newtx_frame _ _ _ _ _ _ _ E) as [Et [Eh|(ue' & mem & Eu & Eh)]]; rewrite Eh;
      [done|]. split; [done|]. destruct Ho as [Hh' Ho]. unfold dl_harq_buffer, set_harq_buffer, set_ue_buffers, ue_buffers in *. cbn [cell_buffers].
    destruct (decide (ue' = ue)) as [->|Hne]; [|by rewrite lookup_insert_ne]. rewrite lookup_insert_eq. cbn [from_option id]. rewrite length_insert.
    rewrite list_lookup_insert_ne; [done|]. specialize (Ho Eu). lia.
  - apply bind_ok_inv in E as (? & _ & E). by injection E as <-.
  - by injection E as <-.
  - by injection E as <-.
  - apply bind_ok_inv in E as (p & E & E'). injection E' as <-. cbn [dl_set_harqs dl_rntis dl_harqs]. split; [done|]. unfold allocate_ue_buffers in E.
    apply bind_ok_inv in E as ([] & _ & E). destruct (is_du_ue_index_valid ue'); [|done]. injection E as <-.
    assert (Hit : forall k, dl_harq_buffer (Nat.iter k (add_ue_buffer ue') (dl_harqs m)) ue h = ok buf).
    { induction k as [|k IH]; [done|]. cbn [Nat.iter]. by apply add_ue_buffer_other. }
    unfold grow_pool_in_background. repeat case_match; apply Hit.
  - apply bind_ok_inv in E as (p & E & E'). injection E' as <-. cbn [dl_set_harqs dl_rntis dl_harqs]. split; [done|]. unfold deallocate_ue_buffers in E.
    apply bind_ok_inv in E as ([] & _ & E). injection E as <-. unfold dl_harq_buffer, ue_buffers in *. cbn [cell_buffers]. by rewrite lookup_insert_ne.
  - injection E as <-. cbn [dl_set_harqs dl_rntis dl_harqs]. split; [done|]. unfold run_grow_task, grow_pool_in_background. by repeat case_match.
Qed.

Lemma dl_run_other l : forall m m' ue h buf,
  0 <= h -> dl_run m l = ok m' -> Forall (dl_op_other (dl_rntis m) ue h) l -> dl_harq_buffer (dl_harqs m) ue h = ok buf ->
  dl_rntis m' = dl_rntis m /\ dl_harq_buffer (dl_harqs m') ue h = ok buf.
Proof.
  induction l as [|op l IH]; intros m m' ue h buf Hh E Hl Hb; cbn [dl_run] in E; [by injection E as <-|]. apply Forall_cons in Hl as [Hop Hl].
  apply bind_ok_inv in E as (m1 & E1 & E). destruct (dl_step_other _ _ _ _ _ _ Hh E1 Hop Hb) as [Et Hb1]. rewrite <- Et in *. by eapply IH.
Qed.

(** C21: a HARQ retransmission repeats the transport block octet by octet, whatever was transmitted in other HARQ processes, for other UEs, and whatever became of the
    bearers and the pool in between. *)
Theorem mac_dl_retx_repeats m rnti h_id lcs tb ue buffer m' pdu l m'' :
  dl_inv m -> is_crnti rnti = true -> get_ue_index (dl_rntis m) rnti = ok ue -> is_du_ue_index_valid ue = true -> 0 <= h_id ->
  dl_harq_buffer (dl_harqs m) ue h_id = ok buffer -> 0 <= tb <= zlen buffer -> tb < 2 ^ 31 ->
  Forall (lc_ok m rnti) lcs -> lcs_size lcs <= tb ->
  assemble_newtx_pdu m rnti h_id lcs tb = ok (m', pdu) -> Forall (dl_op_other (dl_rntis m) ue h_id) l -> dl_run m' l = ok m'' ->
  assemble_retx_pdu m'' rnti h_id tb = ok pdu.
Proof.
  intros Hm Hr Ht Hv Hh Hb Htb Hsm Hl Hs E Ho Hrun.
  destruct (assemble_newtx_ok m rnti h_id lcs tb ue buffer Hm Hr Ht Hv Hb Htb Hsm Hl Hs)
    as (m1 & pdu1 & l1 & mem & E1 & _ & _ & _ & _ & Et & _ & Eh & Esl & Hmem). rewrite E in E1. injection E1 as <- <-.
  rewrite <- Et in Ho. destruct (dl_run_other l m' m'' ue h_id mem Hh Hrun Ho) as [Et' Hb']; [rewrite Eh; by eapply dl_harq_buffer_set|].
  unfold assemble_retx_pdu. rewrite Et', Et, Ht. cbn [mbind outcome_bind]. rewrite (get_ue_index_valid _ _ _ Ht Hv), Hb'. cbn [mbind outcome_bind].
  rewrite (proj2 (Z.ltb_ge _ _)) by lia. by rewrite Esl.
Qed.
End builders.
