(* ===== verification/Security.v ===== *)
(** * Security configuration, and the interface of the security engines

    [include/srsran/security/security.h] and [security_engine.h]. A bearer configures an engine with
    the keys and algorithms of its domain; the transmitting PDCP entity then protects its PDUs by it
    and the receiving entity recovers them. [SecurityEngineLaws] is what PDCP relies on;
    [SecurityEngine.v] shows that the engine of the repository provides it. *)

From S2P Require Import Prelude.

Definition sec_mac_len : Z := 4.
Definition sec_key_len : Z := 32.
Definition sec_128_key_len : Z := 16.
Definition sec_max_pdu_size : Z := 9100.

Inductive ciphering_algorithm := nea0 | nea1 | nea2 | nea3.
Inductive integrity_algorithm := nia0 | nia1 | nia2 | nia3.
Inductive security_direction := dir_uplink | dir_downlink.
Inductive sec_domain := domain_rrc | domain_up.

Definition direction_to_number (d : security_direction) : Z :=
  match d with dir_uplink => 0 | dir_downlink => 1 end.

#[export] Instance ciphering_algorithm_eq_dec : EqDecision ciphering_algorithm.
Proof. solve_decision. Defined.
#[export] Instance integrity_algorithm_eq_dec : EqDecision integrity_algorithm.
Proof. solve_decision. Defined.
#[export] Instance sec_domain_eq_dec : EqDecision sec_domain.
Proof. solve_decision. Defined.

(** [sec_128_as_config] *)
Record sec_128_as_config := mk_sec_128 {
  domain : sec_domain;
  k_128_int : option bytes;
  k_128_enc : bytes;
  integ_algo : option integrity_algorithm;
  cipher_algo : ciphering_algorithm
}.

Inductive security_error := buffer_failure | integrity_failure | ciphering_failure.

(** [security_result]: an [expected] buffer; the COUNT it carries along only serves the log. *)
Abbreviation security_result := (security_error + bytes)%type.

(** [security_engine_tx] and [security_engine_rx], and the constructor of [security_engine_impl] that
    the entities call. *)
Class SecurityEngine (E : Type) := {
  security_engine_impl : sec_128_as_config -> Z -> security_direction -> bool -> bool -> outcome E;
  encrypt_and_protect_integrity : E -> bytes -> Z -> Z -> outcome security_result;
  decrypt_and_verify_integrity : E -> bytes -> Z -> Z -> outcome security_result
}.

(** What a bearer may expect of its engine, [ready] telling which engines are set up: applied to a
    PDU with something behind its header, neither direction fails; protection keeps the header, and
    decryption with the same parameters recovers what was protected. *)
Class SecurityEngineLaws (E : Type) `{!SecurityEngine E} (ready : E -> Prop) : Prop := {
  protect_total e buf off count :
    ready e -> is_bytes buf -> 0 <= off < zlen buf -> zlen buf <= sec_max_pdu_size - 24 -> 0 <= count < 2 ^ 32 ->
    exists r, encrypt_and_protect_integrity e buf off count = ok r;
  decrypt_total e buf off count :
    ready e -> is_bytes buf -> 0 <= off < zlen buf -> zlen buf <= sec_max_pdu_size - 20 -> 0 <= count < 2 ^ 32 ->
    exists r, decrypt_and_verify_integrity e buf off count = ok r;
  protect_recovered e buf off count pdu :
    ready e -> is_bytes buf -> 0 <= off < zlen buf -> zlen buf <= sec_max_pdu_size - 24 -> 0 <= count < 2 ^ 32 ->
    encrypt_and_protect_integrity e buf off count = ok (inr pdu) ->
    is_bytes pdu /\ zlen buf <= zlen pdu <= zlen buf + sec_mac_len /\
    take (Z.to_nat off) pdu = take (Z.to_nat off) buf /\
    decrypt_and_verify_integrity e pdu off count = ok (inr buf)
}.
