(* ===== verification/Snow3g.v ===== *)
(** * SNOW 3G

    [lib/security/s3g.cpp]: the stream cipher of 128-NEA1 and the MAC function [s3g_f9] of 128-NIA1.
    The state is [lfsr[16]] and [fsm[3]], 32-bit words; every operation returns the new state. The
    allocation of the arrays is assumed to succeed.

    [s3g_clock_lfsr_wf], [s3g_generate_keystream_words]: the registers and the words of the key stream stay within 32 bits.
    [s3g_f9_total]: a message of whole octets has a MAC of four octets.
    [s3g_MUL64_xor]: the multiplication of the MAC is linear.

    The second half states SNOW 3G as it is specified, by field operations and by sequences in time ([snow_run]), and relates the code to it:
    [boxes_exact], [s3g_s1_exact], [s3g_s2_exact], [alpha_times_exact], [alpha_divides] the tables and shifts, [snow_run_holds] the
    registers, [snow_run_stream] the key stream; [snow_run_exists]: the sequences exist. *)

From S2P Require Import Prelude.

Definition SQ : list Z :=
  [
   37; 36; 115; 103; 215; 174; 92; 48; 164; 238; 110; 203; 125; 181; 130; 219; 228; 142; 72; 73; 79; 93; 106;
   120; 112; 136; 232; 95; 94; 132; 101; 226; 216; 233; 204; 237; 64; 47; 17; 40; 87; 210; 172; 227; 74; 21;
   27; 185; 178; 128; 133; 166; 46; 2; 71; 41; 7; 75; 14; 193; 81; 170; 137; 212; 202; 1; 70; 179; 239; 221;
   68; 123; 194; 127; 190; 195; 159; 32; 76; 100; 131; 162; 104; 66; 19; 180; 65; 205; 186; 198; 187; 109; 77;
   113; 33; 244; 141; 176; 229; 147; 254; 143; 230; 207; 67; 69; 49; 34; 55; 54; 150; 250; 188; 15; 8; 82; 29;
   85; 26; 197; 78; 35; 105; 122; 146; 255; 91; 90; 235; 154; 28; 169; 209; 126; 13; 252; 80; 138; 182; 98;
   245; 10; 248; 220; 3; 60; 12; 57; 241; 184; 243; 61; 242; 213; 151; 102; 129; 50; 160; 0; 6; 206; 246; 234;
   183; 23; 247; 140; 121; 214; 167; 191; 139; 63; 31; 83; 99; 117; 53; 44; 96; 253; 39; 211; 148; 165; 124;
   161; 5; 88; 45; 189; 217; 199; 175; 107; 84; 11; 224; 56; 4; 200; 157; 231; 20; 177; 135; 156; 223; 111;
   249; 218; 42; 196; 89; 22; 116; 145; 171; 38; 97; 118; 52; 43; 173; 153; 251; 114; 236; 51; 18; 222; 152;
   59; 192; 155; 62; 24; 16; 58; 86; 225; 119; 201; 30; 158; 149; 163; 144; 25; 168; 108; 9; 208; 240; 134
  ].

(** [S] of the source. *)
Definition S_box : list Z :=
  [
   99; 124; 119; 123; 242; 107; 111; 197; 48; 1; 103; 43; 254; 215; 171; 118; 202; 130; 201; 125; 250; 89; 71;
   240; 173; 212; 162; 175; 156; 164; 114; 192; 183; 253; 147; 38; 54; 63; 247; 204; 52; 165; 229; 241; 113;
   216; 49; 21; 4; 199; 35; 195; 24; 150; 5; 154; 7; 18; 128; 226; 235; 39; 178; 117; 9; 131; 44; 26; 27; 110;
   90; 160; 82; 59; 214; 179; 41; 227; 47; 132; 83; 209; 0; 237; 32; 252; 177; 91; 106; 203; 190; 57; 74; 76;
   88; 207; 208; 239; 170; 251; 67; 77; 51; 133; 69; 249; 2; 127; 80; 60; 159; 168; 81; 163; 64; 143; 146;
   157; 56; 245; 188; 182; 218; 33; 16; 255; 243; 210; 205; 12; 19; 236; 95; 151; 68; 23; 196; 167; 126; 61;
   100; 93; 25; 115; 96; 129; 79; 220; 34; 42; 144; 136; 70; 238; 184; 20; 222; 94; 11; 219; 224; 50; 58; 10;
   73; 6; 36; 92; 194; 211; 172; 98; 145; 149; 228; 121; 231; 200; 55; 109; 141; 213; 78; 169; 108; 86; 244;
   234; 101; 122; 174; 8; 186; 120; 37; 46; 28; 166; 180; 198; 232; 221; 116; 31; 75; 189; 139; 138; 112; 62;
   181; 102; 72; 3; 246; 14; 97; 53; 87; 185; 134; 193; 29; 158; 225; 248; 152; 17; 105; 217; 142; 148; 155;
   30; 135; 233; 206; 85; 40; 223; 140; 161; 137; 13; 191; 230; 66; 104; 65; 153; 45; 15; 176; 84; 187; 22
  ].

Definition u64 (x : Z) : Z := x mod 2 ^ 64.

(** Read of an array element that is in range. *)
Definition arr (l : list Z) (i : Z) : Z := nth (Z.to_nat i) l 0.

Record S3G_STATE := mk_s3g { lfsr : list Z; fsm0 : Z; fsm1 : Z; fsm2 : Z }.

Definition s3g_mul_x (v c : Z) : Z :=
  if negb (Z.land v 0x80 =? 0) then u8 (Z.lxor (Z.shiftl v 1) c) else u8 (Z.shiftl v 1).

(** The recursion is on [i]. *)
Fixpoint s3g_mul_x_pow (v : Z) (i : nat) (c : Z) : Z :=
  match i with O => v | S i => s3g_mul_x (s3g_mul_x_pow v i c) c end.

Definition s3g_mul_alpha (c : Z) : Z :=
  Z.lor (Z.lor (Z.lor (Z.shiftl (s3g_mul_x_pow c 23 0xa9) 24) (Z.shiftl (s3g_mul_x_pow c 245 0xa9) 16))
    (Z.shiftl (s3g_mul_x_pow c 48 0xa9) 8)) (s3g_mul_x_pow c 239 0xa9).

Definition s3g_div_alpha (c : Z) : Z :=
  Z.lor (Z.lor (Z.lor (Z.shiftl (s3g_mul_x_pow c 16 0xa9) 24) (Z.shiftl (s3g_mul_x_pow c 39 0xa9) 16))
    (Z.shiftl (s3g_mul_x_pow c 6 0xa9) 8)) (s3g_mul_x_pow c 64 0xa9).

Definition s3g_s1 (w : Z) : Z :=
  let srw0 := arr S_box (Z.land (Z.shiftr w 24) 0xff) in
  let srw1 := arr S_box (Z.land (Z.shiftr w 16) 0xff) in
  let srw2 := arr S_box (Z.land (Z.shiftr w 8) 0xff) in
  let srw3 := arr S_box (Z.land w 0xff) in
  let r0 := Z.lxor (Z.lxor (Z.lxor (s3g_mul_x srw0 0x1b) srw1) srw2) (Z.lxor (s3g_mul_x srw3 0x1b) srw3) in
  let r1 := Z.lxor (Z.lxor (Z.lxor (Z.lxor (s3g_mul_x srw0 0x1b) srw0) (s3g_mul_x srw1 0x1b)) srw2) srw3 in
  let r2 := Z.lxor (Z.lxor (Z.lxor srw0 (Z.lxor (s3g_mul_x srw1 0x1b) srw1)) (s3g_mul_x srw2 0x1b)) srw3 in
  let r3 := Z.lxor (Z.lxor (Z.lxor srw0 srw1) (Z.lxor (s3g_mul_x srw2 0x1b) srw2)) (s3g_mul_x srw3 0x1b) in
  Z.lor (Z.lor (Z.lor (Z.shiftl (u8 r0) 24) (Z.shiftl (u8 r1) 16)) (Z.shiftl (u8 r2) 8)) (u8 r3).

Definition s3g_s2 (w : Z) : Z :=
  let sqw0 := arr SQ (Z.land (Z.shiftr w 24) 0xff) in
  let sqw1 := arr SQ (Z.land (Z.shiftr w 16) 0xff) in
  let sqw2 := arr SQ (Z.land (Z.shiftr w 8) 0xff) in
  let sqw3 := arr SQ (Z.land w 0xff) in
  let r0 := Z.lxor (Z.lxor (Z.lxor (s3g_mul_x sqw0 0x69) sqw1) sqw2) (Z.lxor (s3g_mul_x sqw3 0x69) sqw3) in
  let r1 := Z.lxor (Z.lxor (Z.lxor (Z.lxor (s3g_mul_x sqw0 0x69) sqw0) (s3g_mul_x sqw1 0x69)) sqw2) sqw3 in
  let r2 := Z.lxor (Z.lxor (Z.lxor sqw0 (Z.lxor (s3g_mul_x sqw1 0x69) sqw1)) (s3g_mul_x sqw2 0x69)) sqw3 in
  let r3 := Z.lxor (Z.lxor (Z.lxor sqw0 sqw1) (Z.lxor (s3g_mul_x sqw2 0x69) sqw2)) (s3g_mul_x sqw3 0x69) in
  Z.lor (Z.lor (Z.lor (Z.shiftl (u8 r0) 24) (Z.shiftl (u8 r1) 16)) (Z.shiftl (u8 r2) 8)) (u8 r3).

Definition s3g_clock_lfsr (s : S3G_STATE) (f : Z) : S3G_STATE :=
  let v :=
    Z.lxor (Z.lxor (Z.lxor (Z.lxor (Z.lxor
      (Z.land (Z.shiftl (arr (lfsr s) 0) 8) 0xffffff00)
      (s3g_mul_alpha (Z.land (Z.shiftr (arr (lfsr s) 0) 24) 0xff)))
      (arr (lfsr s) 2))
      (Z.land (Z.shiftr (arr (lfsr s) 11) 8) 0x00ffffff))
      (s3g_div_alpha (Z.land (arr (lfsr s) 11) 0xff)))
      f in
  mk_s3g (drop 1 (lfsr s) ++ [v]) (fsm0 s) (fsm1 s) (fsm2 s).

(** The output word, and the new state. *)
Definition s3g_clock_fsm (s : S3G_STATE) : Z * S3G_STATE :=
  let f := Z.lxor (Z.land (u32 (arr (lfsr s) 15 + fsm0 s)) 0xffffffff) (fsm1 s) in
  let r := Z.land (u32 (fsm1 s + Z.lxor (fsm2 s) (arr (lfsr s) 5))) 0xffffffff in
  (f, mk_s3g (lfsr s) r (s3g_s1 (fsm0 s)) (s3g_s2 (fsm1 s))).

(** The 32 rounds of the initialisation. *)
Fixpoint s3g_init_rounds (n : nat) (s : S3G_STATE) : S3G_STATE :=
  match n with
  | O => s
  | S n => let '(f, s) := s3g_clock_fsm s in s3g_init_rounds n (s3g_clock_lfsr s f)
  end.

Definition s3g_initialize (k iv : list Z) : S3G_STATE :=
  let k0 := arr k 0 in let k1 := arr k 1 in let k2 := arr k 2 in let k3 := arr k 3 in
  let ones := 0xffffffff in
  s3g_init_rounds 32 (mk_s3g
    [Z.lxor k0 ones; Z.lxor k1 ones; Z.lxor k2 ones; Z.lxor k3 ones;
     k0; k1; k2; k3;
     Z.lxor k0 ones; Z.lxor (Z.lxor k1 ones) (arr iv 3); Z.lxor (Z.lxor k2 ones) (arr iv 2); Z.lxor k3 ones;
     Z.lxor k0 (arr iv 1); k1; k2; Z.lxor k3 (arr iv 0)]
    0 0 0).

Fixpoint s3g_keystream_loop (n : nat) (s : S3G_STATE) : list Z :=
  match n with
  | O => []
  | S n =>
      let '(f, s) := s3g_clock_fsm s in
      Z.lxor f (arr (lfsr s) 0) :: s3g_keystream_loop n (s3g_clock_lfsr s 0)
  end.

(** [ks[0..n)]; the code does not use the state afterwards. *)
Definition s3g_generate_keystream (s : S3G_STATE) (n : Z) : list Z :=
  let '(_, s) := s3g_clock_fsm s in
  s3g_keystream_loop (Z.to_nat n) (s3g_clock_lfsr s 0).

(** ** The MAC *)
Definition s3g_MUL64x (V c : Z) : Z :=
  if negb (Z.land V 0x8000000000000000 =? 0) then Z.lxor (u64 (Z.shiftl V 1)) c else u64 (Z.shiftl V 1).

Fixpoint s3g_MUL64xPOW (V : Z) (i : nat) (c : Z) : Z :=
  match i with O => V | S i => s3g_MUL64x (s3g_MUL64xPOW V i c) c end.

Definition s3g_MUL64 (V P c : Z) : Z :=
  foldl (fun result i =>
      if negb (Z.land (Z.shiftr P (Z.of_nat i)) 1 =? 0) then Z.lxor result (s3g_MUL64xPOW V i c) else result)
    0 (seq 0 64).

Definition mask8bit (n : Z) : Z := u8 (Z.lxor 0xff (Z.shiftl 1 (8 - n) - 1)).

(** Eight octets, big-endian, as the block [M_i]. *)
Definition s3g_block (data : bytes) (o : Z) : option Z :=
  match drop (Z.to_nat o) data with
  | d0 :: d1 :: d2 :: d3 :: d4 :: d5 :: d6 :: d7 :: _ =>
      Some (Z.lor (Z.lor (Z.lor (Z.lor (Z.lor (Z.lor (Z.lor (Z.shiftl d0 56) (Z.shiftl d1 48)) (Z.shiftl d2 40))
        (Z.shiftl d3 32)) (Z.shiftl d4 24)) (Z.shiftl d5 16)) (Z.shiftl d6 8)) d7)
  | _ => None
  end.

(** [for (i = 0; i < D - 2; i++)]: [n] turns from [i] on. *)
Fixpoint s3g_eval_blocks (n : nat) (i : Z) (data : bytes) (P c EVAL : Z) : outcome Z :=
  match n with
  | O => ok EVAL
  | S n =>
      match s3g_block data (8 * i) with
      | None => fail invalid_access
      | Some M => s3g_eval_blocks n (i + 1) data P c (s3g_MUL64 (Z.lxor EVAL M) P c)
      end
  end.

(** [while (rem_bits > 7)] and the bits after it. *)
Fixpoint s3g_last_block (fuel : nat) (data : bytes) (o i rem_bits M : Z) : outcome Z :=
  match fuel with
  | O => fail out_of_fuel
  | S fuel =>
      if 7 <? rem_bits then
        match data !! Z.to_nat (o + i) with
        | None => fail invalid_access
        | Some d => s3g_last_block fuel data o (i + 1) (rem_bits - 8) (Z.lor M (Z.shiftl d (8 * (7 - i))))
        end
      else if 0 <? rem_bits then
        match data !! Z.to_nat (o + i) with
        | None => fail invalid_access
        | Some d => ok (Z.lor M (Z.shiftl (Z.land d (mask8bit rem_bits)) (8 * (7 - i))))
        end
      else ok M
  end.

(** The four words of a key or a nonce of sixteen octets, in the order of [k[3]], ..., [k[0]]. *)
Definition s3g_key_words (key : bytes) : list Z :=
  (fun j =>
     let o := 4 * (3 - j) in
     Z.lor (Z.lor (Z.lor (Z.shiftl (arr key o) 24) (Z.shiftl (arr key (o + 1)) 16)) (Z.shiftl (arr key (o + 2)) 8))
       (arr key (o + 3))) <$> [0; 1; 2; 3].

Definition s3g_f9 (key : bytes) (count fresh dir : Z) (data : bytes) (length : Z) : outcome bytes :=
  let K := s3g_key_words key in
  let IV := [Z.lxor fresh (u32 (Z.shiftl dir 15)); Z.lxor count (u32 (Z.shiftl dir 31)); fresh; count] in
  let z := s3g_generate_keystream (s3g_initialize K IV) 5 in
  let P := Z.lor (Z.shiftl (arr z 0) 32) (arr z 1) in
  let Q := Z.lor (Z.shiftl (arr z 2) 32) (arr z 3) in
  let D := u32 (if length mod 64 =? 0 then Z.shiftr length 6 + 1 else Z.shiftr length 6 + 2) in
  let c := 0x1b in
  EVAL ← s3g_eval_blocks (Z.to_nat (u32 (D - 2))) 0 data P c 0;
  let rem_bits := if length mod 64 =? 0 then 64 else length mod 64 in
  M_D_2 ← s3g_last_block 9 data (8 * (D - 2)) 0 rem_bits 0;
  let EVAL := s3g_MUL64 (Z.lxor EVAL M_D_2) P c in
  let EVAL := s3g_MUL64 (Z.lxor EVAL length) Q c in
  ok ((fun i => Z.land (Z.lxor (Z.shiftr EVAL (56 - i * 8)) (Z.shiftr (arr z 4) (24 - i * 8))) 0xff) <$> [0; 1; 2; 3]).

(** ** Words *)

(** [x] fits [n] bits. *)
Definition word (n x : Z) : Prop := 0 <= x < 2 ^ n.

Lemma word_bits n x : 0 <= n -> word n x <-> 0 <= x /\ forall i, n <= i -> Z.testbit x i = false.
Proof.
  intros Hn. unfold word. split.
  - intros [H0 H]. split; [done|]. intros i Hi. rewrite <- (Z.mod_small x (2 ^ n)) by lia.
    apply Z.mod_pow2_bits_high. lia.
  - intros [H0 H]. split; [done|]. destruct (decide (x = 0)) as [->|]; [apply Z.pow_pos_nonneg; lia|].
    apply Z.log2_lt_pow2; [lia|]. destruct (decide (Z.log2 x < n)); [done|].
    specialize (H (Z.log2 x) ltac:(lia)). by rewrite Z.bit_log2 in H by lia.
Qed.

Lemma word_lxor n x y : 0 <= n -> word n x -> word n y -> word n (Z.lxor x y).
Proof.
  intros Hn. rewrite !word_bits by done. intros [Hx Bx] [Hy By]. split; [apply Z.lxor_nonneg; lia|].
  intros i Hi. by rewrite Z.lxor_spec, Bx, By.
Qed.

Lemma word_lor n x y : 0 <= n -> word n x -> word n y -> word n (Z.lor x y).
Proof.
  intros Hn. rewrite !word_bits by done. intros [Hx Bx] [Hy By]. split; [apply Z.lor_nonneg; lia|].
  intros i Hi. by rewrite Z.lor_spec, Bx, By.
Qed.

Lemma word_land n x y : 0 <= n -> 0 <= x -> word n y -> word n (Z.land x y).
Proof.
  intros Hn Hx. rewrite !word_bits by done. intros [Hy By]. split; [apply Z.land_nonneg; lia|].
  intros i Hi. by rewrite Z.land_spec, By, andb_false_r.
Qed.

Lemma word_shiftr n x k : 0 <= k -> word n x -> word n (Z.shiftr x k).
Proof.
  intros Hk [H0 H]. rewrite Z.shiftr_div_pow2 by done. assert (0 < 2 ^ k) by (apply Z.pow_pos_nonneg; lia).
  split; [apply Z.div_pos; lia|]. apply Z.le_lt_trans with x; [|done]. apply Z.div_le_upper_bound; nia.
Qed.

Lemma word_shiftl n x k : 0 <= n -> 0 <= k -> word n x -> word (n + k) (Z.shiftl x k).
Proof.
  intros Hn Hk [H0 H]. unfold word. rewrite Z.shiftl_mul_pow2, Z.pow_add_r by done.
  assert (0 < 2 ^ k) by (apply Z.pow_pos_nonneg; lia). nia.
Qed.

Lemma word_weaken n m x : 0 <= n <= m -> word n x -> word m x.
Proof. intros Hn [H0 H]. split; [done|]. apply Z.lt_le_trans with (2 ^ n); [done|]. apply Z.pow_le_mono_r; lia. Qed.

Lemma word_u8 x : word 8 (u8 x).
Proof. apply Z.mod_pos_bound. lia. Qed.
Lemma word_u32 x : word 32 (u32 x).
Proof. apply Z.mod_pos_bound. lia. Qed.
Lemma word_u64 x : word 64 (u64 x).
Proof. apply Z.mod_pos_bound. lia. Qed.

Lemma word_field n x k m : 0 <= n -> 0 <= k -> n + k <= m -> word n x -> word m (Z.shiftl x k).
Proof. intros. apply (word_weaken (n + k)); [lia|]. by apply word_shiftl. Qed.

Create HintDb word.
#[export] Hint Resolve word_lxor word_lor word_land word_shiftr word_u8 word_u32 word_u64 : word.
#[export] Hint Extern 1 (0 <= _) => lia : word.

Lemma word_arr n l i : 0 <= n -> Forall (word n) l -> word n (arr l i).
Proof.
  intros Hn Hl. unfold arr. rewrite nth_lookup. destruct (l !! _) as [x|] eqn:E; simpl.
  - by eapply Forall_lookup_1.
  - split; [lia|]. apply Z.pow_pos_nonneg; lia.
Qed.

(** Four octets as a word. *)
Lemma word_octets a b c d :
  word 8 a -> word 8 b -> word 8 c -> word 8 d ->
  word 32 (Z.lor (Z.lor (Z.lor (Z.shiftl a 24) (Z.shiftl b 16)) (Z.shiftl c 8)) d).
Proof.
  intros. repeat apply word_lor; try lia; [apply (word_field 8)..|apply (word_weaken 8)]; done || lia.
Qed.

Lemma word_mul_x v c : word 8 v -> word 8 c -> word 8 (s3g_mul_x v c).
Proof. intros. unfold s3g_mul_x. destruct (negb _); apply word_u8. Qed.

Lemma word_mul_x_pow v i c : word 8 v -> word 8 c -> word 8 (s3g_mul_x_pow v i c).
Proof. intros. induction i; [done|]. by apply word_mul_x. Qed.

(** ** The registers *)
Record s3g_wf (s : S3G_STATE) : Prop := {
  s3g_length : length (lfsr s) = 16%nat;
  s3g_words : Forall (word 32) (lfsr s);
  s3g_fsm : word 32 (fsm0 s) /\ word 32 (fsm1 s) /\ word 32 (fsm2 s)
}.

Lemma byte_const x : 0 <= x < 256 -> word 8 x.
Proof. done. Qed.

Lemma s3g_alpha_words c : word 8 c -> word 32 (s3g_mul_alpha c) /\ word 32 (s3g_div_alpha c).
Proof.
  intros Hc. assert (Ha : word 8 0xa9) by done. pose proof (fun i => word_mul_x_pow c i 0xa9 Hc Ha) as Hp.
  split; unfold s3g_mul_alpha, s3g_div_alpha; apply word_octets; apply Hp.
Qed.

Lemma s3g_s_words w : word 32 (s3g_s1 w) /\ word 32 (s3g_s2 w).
Proof. split; unfold s3g_s1, s3g_s2; cbv zeta; apply word_octets; apply word_u8. Qed.
#[local] Opaque s3g_mul_alpha s3g_div_alpha s3g_s1 s3g_s2.

Lemma land_ff_word x : word 8 (Z.land x 0xff).
Proof. change 0xff with (2 ^ 8 - 1). rewrite land_mask by lia. apply Z.mod_pos_bound. lia. Qed.

Lemma s3g_clock_lfsr_wf s f : s3g_wf s -> word 32 f -> s3g_wf (s3g_clock_lfsr s f).
Proof.
  intros [Hl Hw Hf] Hwf. split; cbn [lfsr fsm0 fsm1 fsm2 s3g_clock_lfsr]; [|apply Forall_app; split|done].
  - rewrite length_app, length_drop. simpl. lia.
  - by apply Forall_drop.
  - apply Forall_singleton. pose proof (word_arr 32 (lfsr s)) as Ha.
    assert (forall i, 0 <= arr (lfsr s) i) by (intros i; apply Ha; [lia|done]).
    repeat apply word_lxor; try lia; try done; try (apply s3g_alpha_words, land_ff_word); try (apply Ha; done || lia).
    + apply word_land; [lia|apply Z.shiftl_nonneg; auto|done].
    + apply word_land; [lia|apply Z.shiftr_nonneg; auto|done].
Qed.

Lemma s3g_clock_fsm_wf s : s3g_wf s -> word 32 (s3g_clock_fsm s).1 /\ s3g_wf (s3g_clock_fsm s).2.
Proof.
  intros [Hl Hw (H0 & H1 & H2)]. cbn [fst snd s3g_clock_fsm]. split.
  - apply word_lxor; [lia| |done]. apply word_land; [lia|apply word_u32|done].
  - split; [done|done|]. split_and!; [|apply s3g_s_words..]. apply word_land; [lia|apply word_u32|done].
Qed.

Lemma s3g_initialize_wf k iv : Forall (word 32) k -> Forall (word 32) iv -> s3g_wf (s3g_initialize k iv).
Proof.
  intros Hk Hiv. unfold s3g_initialize. cbv zeta.
  pose proof (fun i => word_arr 32 k i ltac:(lia) Hk) as Wk. pose proof (fun i => word_arr 32 iv i ltac:(lia) Hiv) as Wiv.
  assert (W1 : word 32 0xffffffff) by done.
  match goal with |- s3g_wf (s3g_init_rounds _ ?s) => assert (Hs : s3g_wf s); [|generalize dependent s] end.
  - split; [done| |done]. cbn [lfsr]. repeat (apply Forall_cons; split); try apply Forall_nil; auto with word.
  - generalize 32%nat. intros n. induction n as [|n IH]; intros s Hs; [done|]. cbn [s3g_init_rounds].
    destruct (s3g_clock_fsm_wf s Hs) as [Hf Hs']. destruct (s3g_clock_fsm s) as [f s']. apply IH.
    by apply s3g_clock_lfsr_wf.
Qed.

Lemma s3g_generate_keystream_words s n : s3g_wf s -> Forall (word 32) (s3g_generate_keystream s n).
Proof.
  intros Hs. unfold s3g_generate_keystream. destruct (s3g_clock_fsm_wf s Hs) as [_ Hs1].
  destruct (s3g_clock_fsm s) as [f s1]. pose proof (s3g_clock_lfsr_wf s1 0 Hs1 ltac:(done)) as H2. revert H2.
  generalize (s3g_clock_lfsr s1 0). induction (Z.to_nat n) as [|k IH]; intros s2 H2; [constructor|].
  cbn [s3g_keystream_loop]. destruct (s3g_clock_fsm_wf s2 H2) as [Hf H3]. destruct (s3g_clock_fsm s2) as [f' s3].
  constructor.
  - apply word_lxor; [lia|done|]. apply word_arr; [lia|apply H3].
  - apply IH. by apply s3g_clock_lfsr_wf.
Qed.

(** ** The MAC *)

(** The multiplication is linear in its first argument. *)
Lemma s3g_MUL64x_xor V1 V2 c : word 64 V1 -> word 64 V2 ->
  s3g_MUL64x (Z.lxor V1 V2) c = Z.lxor (s3g_MUL64x V1 c) (s3g_MUL64x V2 c).
Proof.
  intros H1 H2. unfold s3g_MUL64x. change 0x8000000000000000 with (2 ^ 63). rewrite !land_pow2_testbit, !negb_involutive by lia.
  rewrite Z.lxor_spec. assert (Es : u64 (Z.shiftl (Z.lxor V1 V2) 1) = Z.lxor (u64 (Z.shiftl V1 1)) (u64 (Z.shiftl V2 1))).
  { unfold u64. rewrite <- !land_mask by lia. apply Z.bits_inj'. intros i Hi.
    rewrite Z.shiftl_lxor, !Z.land_spec, !Z.lxor_spec, !Z.land_spec. destruct (Z.testbit (2 ^ 64 - 1) i); by rewrite ?andb_true_r, ?andb_false_r. }
  rewrite Es. set (a := u64 (Z.shiftl V1 1)). set (b := u64 (Z.shiftl V2 1)).
  destruct (Z.testbit V1 63), (Z.testbit V2 63); simpl.
  - rewrite (Z.lxor_comm b c), Z.lxor_assoc, <- (Z.lxor_assoc c c), Z.lxor_nilpotent, Z.lxor_0_l. done.
  - by rewrite !Z.lxor_assoc, (Z.lxor_comm b c).
  - by rewrite Z.lxor_assoc.
  - done.
Qed.

Lemma word_MUL64x V c : word 64 c -> word 64 (s3g_MUL64x V c).
Proof. intros. unfold s3g_MUL64x. destruct (negb _); auto with word. Qed.

Lemma word_MUL64xPOW V i c : word 64 V -> word 64 c -> word 64 (s3g_MUL64xPOW V i c).
Proof. intros. induction i; [done|]. by apply word_MUL64x. Qed.

Lemma s3g_MUL64xPOW_xor V1 V2 i c : word 64 V1 -> word 64 V2 -> word 64 c ->
  s3g_MUL64xPOW (Z.lxor V1 V2) i c = Z.lxor (s3g_MUL64xPOW V1 i c) (s3g_MUL64xPOW V2 i c).
Proof.
  intros. induction i as [|i IH]; [done|]. simpl. rewrite IH. by apply s3g_MUL64x_xor; apply word_MUL64xPOW.
Qed.

Lemma s3g_MUL64_xor V1 V2 P c : word 64 V1 -> word 64 V2 -> word 64 c ->
  s3g_MUL64 (Z.lxor V1 V2) P c = Z.lxor (s3g_MUL64 V1 P c) (s3g_MUL64 V2 P c).
Proof.
  intros H1 H2 Hc. unfold s3g_MUL64.
  set (step V := fun result i => if negb (Z.land (Z.shiftr P (Z.of_nat i)) 1 =? 0)
    then Z.lxor result (s3g_MUL64xPOW V i c) else result).
  assert (Hs : forall l a1 a2, foldl (step (Z.lxor V1 V2)) (Z.lxor a1 a2) l = Z.lxor (foldl (step V1) a1 l) (foldl (step V2) a2 l));
    [|by apply (Hs (seq 0 64) 0 0)].
  intros l. induction l as [|i l IH]; intros a1 a2; [done|]. cbn [foldl]. rewrite <- IH. f_equal. subst step. cbv beta.
  destruct (negb _); [|done]. rewrite s3g_MUL64xPOW_xor by done.
  rewrite !Z.lxor_assoc. f_equal. rewrite <- !Z.lxor_assoc. f_equal. apply Z.lxor_comm.
Qed.

Lemma s3g_block_in data o : 0 <= o -> o + 8 <= zlen data -> exists M, s3g_block data o = Some M.
Proof.
  intros Ho Hl. unfold s3g_block. assert (Hd : (8 <= length (drop (Z.to_nat o) data))%nat) by (rewrite length_drop; lia).
  destruct (drop (Z.to_nat o) data) as [|d0 [|d1 [|d2 [|d3 [|d4 [|d5 [|d6 [|d7 rest]]]]]]]]; simpl in Hd; try lia.
  by eexists.
Qed.

Lemma s3g_eval_blocks_total n i data P c EVAL :
  0 <= i -> 8 * (i + Z.of_nat n) <= zlen data -> exists r, s3g_eval_blocks n i data P c EVAL = ok r.
Proof.
  revert i EVAL. induction n as [|n IH]; intros i EVAL Hi Hl; [by eexists|]. cbn [s3g_eval_blocks].
  destruct (s3g_block_in data (8 * i)) as [M ->]; [lia..|]. apply IH; lia.
Qed.

Lemma s3g_last_block_total fuel data o i r M :
  0 <= o -> 0 <= i -> 0 <= r < Z.of_nat fuel -> o + i + r <= zlen data ->
  exists m, s3g_last_block fuel data o i (8 * r) M = ok m.
Proof.
  revert i r M. induction fuel as [|fuel IH]; intros i r M Ho Hi Hr Hl; [lia|]. cbn [s3g_last_block]. zcases.
  - destruct (lookup_lt_is_Some_2 data (Z.to_nat (o + i))) as [d ->]; [lia|].
    replace (8 * r - 8) with (8 * (r - 1)) by lia. apply IH; lia.
  - lia.
  - by eexists.
Qed.

(** A message of [n] octets, [n] positive, has a MAC of four octets. *)
Lemma s3g_f9_total key count fresh dir data :
  data <> [] -> zlen data < 2 ^ 28 ->
  exists mac, s3g_f9 key count fresh dir data (zlen data * 8) = ok mac /\ length mac = 4%nat /\ Forall (word 8) mac.
Proof.
  intros Hne Hl. assert (Hpos : 0 < zlen data) by (destruct data; [done|simpl; lia]). unfold s3g_f9. cbv zeta.
  set (z := s3g_generate_keystream _ _). rewrite !Z.shiftr_div_pow2 by lia. change (2 ^ 6) with 64.
  assert (H : exists q r, 0 <= q /\ 1 <= r <= 8 /\ zlen data = 8 * q + r /\
    u32 (if zlen data * 8 mod 64 =? 0 then zlen data * 8 / 64 + 1 else zlen data * 8 / 64 + 2) = q + 2 /\
    (if zlen data * 8 mod 64 =? 0 then 64 else zlen data * 8 mod 64) = 8 * r).
  { destruct (Z.eqb_spec (zlen data * 8 mod 64) 0).
    - exists (zlen data / 8 - 1), 8. unfold u32. split_and!; divmod.
    - exists (zlen data / 8), (zlen data mod 8). unfold u32. split_and!; divmod. }
  destruct H as (q & r & Hq & Hr & Hqr & -> & ->). rewrite (u32_small (q + 2 - 2)) by lia.
  destruct (s3g_eval_blocks_total (Z.to_nat (q + 2 - 2)) 0 data (Z.lor (Z.shiftl (arr z 0) 32) (arr z 1)) 0x1b 0)
    as [EVAL ->]; [lia..|]. rewrite bind_ok.
  destruct (s3g_last_block_total 9 data (8 * (q + 2 - 2)) 0 r 0) as [M ->]; [lia..|]. rewrite bind_ok.
  eexists. split; [done|]. split; [done|]. repeat constructor; apply land_ff_word.
Qed.

(** ** The specification

    What the tables and the shifts stand for: SNOW 3G as it is defined in the document that the comments of the code refer to (UEA2 and UIA2,
    part 2), by operations in fields of 2^8 elements. An element is a polynomial over GF(2), given by the bits of a number, modulo a
    polynomial [p] of degree 8. *)
Definition gf_mul (p a b : Z) : Z :=
  let product := foldl (fun r i => if Z.testbit b i then Z.lxor r (Z.shiftl a i) else r) 0 [0; 1; 2; 3; 4; 5; 6; 7] in
  foldl (fun r i => if Z.testbit r i then Z.lxor r (Z.shiftl p (i - 8)) else r) product [14; 13; 12; 11; 10; 9; 8].

Fixpoint gf_pow (p a : Z) (n : nat) : Z := match n with O => 1 | S n => gf_mul p (gf_pow p a n) a end.

(** Octets of a word, the lowest is the first. *)
Definition octet_at (w i : Z) : Z := (w / 2 ^ (8 * i)) mod 2 ^ 8.
Definition of_octets (a b c d : Z) : Z := ((a * 2 ^ 8 + b) * 2 ^ 8 + c) * 2 ^ 8 + d.

(** Rijndael's S-box, the inverse followed by an affine map, and the Dickson polynomial of the second S-box. *)
Definition rijndael_p : Z := 0x11b.
Definition dickson_p : Z := 0x169.

Definition rotate8 (x n : Z) : Z := (x * 2 ^ n) mod 2 ^ 8 + x / 2 ^ (8 - n).

Definition snow_SR (x : Z) : Z :=
  let y := gf_pow rijndael_p x 254 in
  foldl Z.lxor 0x63 [y; rotate8 y 1; rotate8 y 2; rotate8 y 3; rotate8 y 4].

Definition snow_SQ (x : Z) : Z := foldl (fun r n => Z.lxor r (gf_pow dickson_p x n)) 0x25 [1; 9; 13; 15; 33; 41; 45; 47; 49]%nat.

(** The matrix of Rijndael's columns, over the field of [p]. *)
Definition snow_mix (p a b c d : Z) : Z :=
  let row a b c d := Z.lxor (Z.lxor (gf_mul p 2 a) b) (Z.lxor c (gf_mul p 3 d)) in
  of_octets (row a b c d) (row b c d a) (row c d a b) (row d a b c).

Definition snow_S (p : Z) (box : Z -> Z) (w : Z) : Z := snow_mix p (box (octet_at w 3)) (box (octet_at w 2)) (box (octet_at w 1)) (box (octet_at w 0)).
Definition snow_S1 : Z -> Z := snow_S rijndael_p snow_SR.
Definition snow_S2 : Z -> Z := snow_S dickson_p snow_SQ.

(** The field of 2^32 elements: polynomials of degree 3 over the field of 0x1a9, modulo
    alpha^4 + beta^23 alpha^3 + beta^245 alpha^2 + beta^48 alpha + beta^239. *)
Definition alpha_p : Z := 0x1a9.
Definition beta_times (n : nat) (c : Z) : Z := gf_mul alpha_p (gf_pow alpha_p 2 n) c.

Definition alpha_times (w : Z) : Z :=
  let c := octet_at w 3 in
  of_octets (Z.lxor (octet_at w 2) (beta_times 23 c)) (Z.lxor (octet_at w 1) (beta_times 245 c)) (Z.lxor (octet_at w 0) (beta_times 48 c)) (beta_times 239 c).

(** *** Octets *)
Lemma octet_word w i : word 8 (octet_at w i).
Proof. apply Z.mod_pos_bound. lia. Qed.

Lemma of_octets_spec w : word 32 w -> of_octets (octet_at w 3) (octet_at w 2) (octet_at w 1) (octet_at w 0) = w.
Proof.
  unfold word, of_octets, octet_at. intros Hw. change (8 * 3) with 24. change (8 * 2) with 16. change (8 * 1) with 8. change (8 * 0) with 0.
  rewrite (Z.mod_small (w / 2 ^ 24)) by divmod. divmod.
Qed.

Lemma octets_of a b c d :
  word 8 a -> word 8 b -> word 8 c -> word 8 d ->
  octet_at (of_octets a b c d) 3 = a /\ octet_at (of_octets a b c d) 2 = b /\ octet_at (of_octets a b c d) 1 = c /\ octet_at (of_octets a b c d) 0 = d.
Proof.
  unfold word, of_octets, octet_at. intros. change (8 * 3) with 24. change (8 * 2) with 16. change (8 * 1) with 8. change (8 * 0) with 0. split_and!; divmod.
Qed.

(** The octets as the code puts them together. *)
Lemma lor_octets a b c d :
  word 8 a -> word 8 b -> word 8 c -> word 8 d ->
  Z.lor (Z.lor (Z.lor (Z.shiftl a 24) (Z.shiftl b 16)) (Z.shiftl c 8)) d = of_octets a b c d.
Proof.
  unfold word, of_octets. intros Ha Hb Hc Hd. rewrite (Z.shiftl_mul_pow2 b), (Z.shiftl_mul_pow2 c) by lia.
  rewrite (lor_shiftl_add a (b * 2 ^ 16)) by lia.
  replace (a * 2 ^ 24 + b * 2 ^ 16) with (Z.shiftl (a * 2 ^ 8 + b) 16) by (rewrite Z.shiftl_mul_pow2 by lia; lia). rewrite lor_shiftl_add by lia.
  replace ((a * 2 ^ 8 + b) * 2 ^ 16 + c * 2 ^ 8) with (Z.shiftl ((a * 2 ^ 8 + b) * 2 ^ 8 + c) 8) by (rewrite Z.shiftl_mul_pow2 by lia; lia). by rewrite lor_shiftl_add by lia.
Qed.

Lemma lxor_octet a b a' b' : word 8 b -> word 8 b' -> Z.lxor (a * 2 ^ 8 + b) (a' * 2 ^ 8 + b') = Z.lxor a a' * 2 ^ 8 + Z.lxor b b'.
Proof.
  intros Hb Hb'. pose proof (word_lxor 8 b b' ltac:(lia) Hb Hb') as Hx. rewrite <- !lor_shiftl_add by (lia || exact Hb || exact Hb' || exact Hx).
  apply (word_bits 8) in Hb as [_ Hb], Hb' as [_ Hb']; try lia. apply Z.bits_inj'. intros i Hi. rewrite !Z.lxor_spec, !Z.lor_spec, !Z.lxor_spec.
  destruct (Z.lt_ge_cases i 8) as [Hl|Hl].
  - by rewrite !Z.shiftl_spec_low by lia.
  - rewrite !Z.shiftl_spec, Z.lxor_spec, Hb, Hb' by lia. by rewrite !orb_false_r.
Qed.

Lemma lxor_octets a b c d a' b' c' d' :
  word 8 b -> word 8 c -> word 8 d -> word 8 b' -> word 8 c' -> word 8 d' ->
  Z.lxor (of_octets a b c d) (of_octets a' b' c' d') = of_octets (Z.lxor a a') (Z.lxor b b') (Z.lxor c c') (Z.lxor d d').
Proof. intros. unfold of_octets. by rewrite !lxor_octet. Qed.

Lemma octet_read w : Z.land (Z.shiftr w 24) 0xff = octet_at w 3 /\ Z.land (Z.shiftr w 16) 0xff = octet_at w 2 /\
  Z.land (Z.shiftr w 8) 0xff = octet_at w 1 /\ Z.land w 0xff = octet_at w 0.
Proof.
  change 0xff with (2 ^ 8 - 1). unfold octet_at. rewrite !land_mask, !Z.shiftr_div_pow2 by lia. split_and!; try done. by rewrite Z.mul_0_r, Z.pow_0_r, Z.div_1_r.
Qed.

(** *** The tables *)
Ltac each_octet := match goal with |- forall x, _ -> @?Q x => apply (decide_below (2 ^ 8) Q); vm_compute; reflexivity end.

Lemma mul_x_rijndael : forall x, word 8 x -> s3g_mul_x x 0x1b = gf_mul rijndael_p 2 x /\ Z.lxor (s3g_mul_x x 0x1b) x = gf_mul rijndael_p 3 x.
Proof. each_octet. Qed.

Lemma mul_x_dickson : forall x, word 8 x -> s3g_mul_x x 0x69 = gf_mul dickson_p 2 x /\ Z.lxor (s3g_mul_x x 0x69) x = gf_mul dickson_p 3 x.
Proof. each_octet. Qed.

Lemma boxes_exact : forall x, word 8 x -> arr S_box x = snow_SR x /\ arr SQ x = snow_SQ x.
Proof. each_octet. Qed.

Lemma mul_x_pow_alpha : forall c, word 8 c ->
  s3g_mul_x_pow c 23 0xa9 = beta_times 23 c /\ s3g_mul_x_pow c 245 0xa9 = beta_times 245 c /\
  s3g_mul_x_pow c 48 0xa9 = beta_times 48 c /\ s3g_mul_x_pow c 239 0xa9 = beta_times 239 c.
Proof. each_octet. Qed.

(** The divisor's coefficients: alpha times them is what [div_alpha] takes out. *)
Lemma mul_x_pow_inverse : forall c, word 8 c ->
  let d := s3g_mul_x_pow c 16 0xa9 in
  s3g_mul_x_pow c 39 0xa9 = beta_times 23 d /\ s3g_mul_x_pow c 6 0xa9 = beta_times 245 d /\
  s3g_mul_x_pow c 64 0xa9 = beta_times 48 d /\ c = beta_times 239 d.
Proof. each_octet. Qed.

Lemma S_box_words : Forall (word 8) S_box.
Proof. repeat constructor; lia. Qed.
Lemma SQ_words : Forall (word 8) SQ.
Proof. repeat constructor; lia. Qed.

Lemma u8_word x : word 8 x -> u8 x = x.
Proof. apply Z.mod_small. Qed.

(** Sums of the same terms, in different orders. *)
Ltac xor_ring := apply Z.bits_inj'; intros ? _; rewrite !Z.lxor_spec;
  repeat match goal with |- context [Z.testbit ?x ?i] => destruct (Z.testbit x i) end; reflexivity.
Lemma octets_shifted w : word 32 w ->
  (w mod 2 ^ 24) * 2 ^ 8 = of_octets (octet_at w 2) (octet_at w 1) (octet_at w 0) 0 /\ w / 2 ^ 8 = of_octets 0 (octet_at w 3) (octet_at w 2) (octet_at w 1).
Proof.
  intros Hw. pose proof (of_octets_spec w Hw) as E. pose proof (octet_word w 3). pose proof (octet_word w 2). pose proof (octet_word w 1). pose proof (octet_word w 0).
  unfold of_octets, word in *. revert E. generalize dependent (octet_at w 3). generalize dependent (octet_at w 2). generalize dependent (octet_at w 1). generalize dependent (octet_at w 0).
  intros d Hd c Hc b Hb a Ha E. split.
  - rewrite <- (Z.mod_unique w (2 ^ 24) a ((b * 2 ^ 8 + c) * 2 ^ 8 + d)); lia.
  - symmetry. apply (Z.div_unique w (2 ^ 8) _ d); lia.
Qed.

(** *** The transitions *)
#[local] Transparent s3g_mul_alpha s3g_div_alpha s3g_s1 s3g_s2.

Lemma s3g_s1_exact w : s3g_s1 w = snow_S1 w.
Proof.
  destruct (octet_read w) as (E3 & E2 & E1 & E0). unfold s3g_s1. cbv zeta. rewrite E3, E2, E1, E0.
  unfold snow_S1, snow_S, snow_mix. cbv zeta. pose proof (octet_word w) as Ho.
  assert (Hb : forall i, word 8 (arr S_box (octet_at w i))) by (intros i; apply word_arr; [lia|exact S_box_words]).
  rewrite <- !(fun i => proj1 (boxes_exact _ (Ho i))), <- !(fun i => proj1 (mul_x_rijndael _ (Hb i))), <- !(fun i => proj2 (mul_x_rijndael _ (Hb i))).
  pose proof (fun i => word_mul_x (arr S_box (octet_at w i)) 0x1b (Hb i) ltac:(done)) as Hm.
  rewrite !u8_word by auto 10 with word. rewrite lor_octets by auto 10 with word. f_equal; xor_ring.
Qed.

Lemma s3g_s2_exact w : s3g_s2 w = snow_S2 w.
Proof.
  destruct (octet_read w) as (E3 & E2 & E1 & E0). unfold s3g_s2. cbv zeta. rewrite E3, E2, E1, E0.
  unfold snow_S2, snow_S, snow_mix. cbv zeta. pose proof (octet_word w) as Ho.
  assert (Hb : forall i, word 8 (arr SQ (octet_at w i))) by (intros i; apply word_arr; [lia|exact SQ_words]).
  rewrite <- !(fun i => proj2 (boxes_exact _ (Ho i))), <- !(fun i => proj1 (mul_x_dickson _ (Hb i))), <- !(fun i => proj2 (mul_x_dickson _ (Hb i))).
  pose proof (fun i => word_mul_x (arr SQ (octet_at w i)) 0x69 (Hb i) ltac:(done)) as Hm.
  rewrite !u8_word by auto 10 with word. rewrite lor_octets by auto 10 with word. f_equal; xor_ring.
Qed.

Lemma alpha_times_exact w : word 32 w ->
  Z.lxor (Z.land (Z.shiftl w 8) 0xffffff00) (s3g_mul_alpha (Z.land (Z.shiftr w 24) 0xff)) = alpha_times w.
Proof.
  intros Hw. rewrite (proj1 (octet_read w)). unfold s3g_mul_alpha. unfold alpha_times. cbv zeta.
  pose proof (octet_word w) as Ho. pose proof (fun i => word_mul_x_pow (octet_at w 3) i 0xa9 (Ho 3) ltac:(done)) as Hp.
  destruct (mul_x_pow_alpha _ (Ho 3)) as (<- & <- & <- & <-). rewrite lor_octets by apply Hp.
  change 0xffffff00 with (Z.shiftl (2 ^ 24 - 1) 8). rewrite <- Z.shiftl_land, land_mask, Z.shiftl_mul_pow2 by lia.
  rewrite (proj1 (octets_shifted w Hw)), lxor_octets by (apply Hp || apply Ho || done). by rewrite Z.lxor_0_l.
Qed.

Lemma alpha_divides w : word 32 w ->
  let x := Z.lxor (Z.land (Z.shiftr w 8) 0x00ffffff) (s3g_div_alpha (Z.land w 0xff)) in
  word 32 x /\ alpha_times x = w.
Proof.
  intros Hw x. subst x. rewrite (proj2 (proj2 (proj2 (octet_read w)))). unfold s3g_div_alpha.
  pose proof (octet_word w) as Ho. pose proof (fun i => word_mul_x_pow (octet_at w 0) i 0xa9 (Ho 0) ltac:(done)) as Hp.
  destruct (mul_x_pow_inverse _ (Ho 0)) as (E2 & E1 & E0 & Eo). rewrite lor_octets by apply Hp.
  change 0x00ffffff with (2 ^ 24 - 1). rewrite land_mask, Z.shiftr_div_pow2, Z.mod_small by (unfold word in Hw; divmod).
  rewrite (proj2 (octets_shifted w Hw)), lxor_octets by (apply Hp || apply Ho || done). rewrite Z.lxor_0_l.
  set (d := s3g_mul_x_pow (octet_at w 0) 16 0xa9) in *.
  assert (Hx : forall i j, word 8 (Z.lxor (octet_at w i) (s3g_mul_x_pow (octet_at w 0) j 0xa9))) by (intros; apply word_lxor; [lia|apply Ho|apply Hp]).
  destruct (octets_of d _ _ _ (Hp 16%nat) (Hx 3 39%nat) (Hx 2 6%nat) (Hx 1 64%nat)) as (O3 & O2 & O1 & O0). split.
  - rewrite <- lor_octets by (apply Hp || apply Hx). apply word_octets; apply Hp || apply Hx.
  - unfold alpha_times. cbv zeta. rewrite O3, O2, O1, O0, <- E2, <- E1, <- E0, <- Eo.
    rewrite !Z.lxor_assoc, !Z.lxor_nilpotent, !Z.lxor_0_r. by apply of_octets_spec.
Qed.

#[local] Opaque s3g_mul_alpha s3g_div_alpha s3g_s1 s3g_s2.

(** The first coefficient of [div_alpha] undoes the last of [mul_alpha]. *)
Lemma mul_x_pow_undone : forall d, word 8 d -> s3g_mul_x_pow (beta_times 239 d) 16 0xa9 = d.
Proof. each_octet. Qed.

(** There is one word that alpha takes to a given one: the specification can speak of the word divided by alpha. *)
Lemma alpha_times_injective x y : word 32 x -> word 32 y -> alpha_times x = alpha_times y -> x = y.
Proof.
  intros Hx Hy E. rewrite <- (of_octets_spec x Hx), <- (of_octets_spec y Hy).
  assert (Hb : forall w, word 8 (beta_times 23 (octet_at w 3)) /\ word 8 (beta_times 245 (octet_at w 3)) /\ word 8 (beta_times 48 (octet_at w 3)) /\
    word 8 (beta_times 239 (octet_at w 3))).
  { intros w. pose proof (fun n => word_mul_x_pow (octet_at w 3) n 0xa9 (octet_word w 3) ltac:(done)) as Hp.
    destruct (mul_x_pow_alpha _ (octet_word w 3)) as (<- & <- & <- & <-). split_and!; apply Hp. }
  assert (Ho : forall w, octet_at (alpha_times w) 3 = Z.lxor (octet_at w 2) (beta_times 23 (octet_at w 3)) /\ octet_at (alpha_times w) 2 = Z.lxor (octet_at w 1) (beta_times 245 (octet_at w 3)) /\
    octet_at (alpha_times w) 1 = Z.lxor (octet_at w 0) (beta_times 48 (octet_at w 3)) /\ octet_at (alpha_times w) 0 = beta_times 239 (octet_at w 3)).
  { intros w. destruct (Hb w) as (B3 & B2 & B1 & B0). unfold alpha_times. cbv zeta. revert B3 B2 B1 B0.
    generalize (beta_times 23 (octet_at w 3)), (beta_times 245 (octet_at w 3)), (beta_times 48 (octet_at w 3)), (beta_times 239 (octet_at w 3)). intros.
    apply octets_of; [apply word_lxor; [lia|apply octet_word|]..|]; assumption. }
  destruct (Ho x) as (X3 & X2 & X1 & X0), (Ho y) as (Y3 & Y2 & Y1 & Y0). rewrite E in X3, X2, X1, X0.
  assert (octet_at x 3 = octet_at y 3) as E3.
  { rewrite <- (mul_x_pow_undone _ (octet_word x 3)), <- (mul_x_pow_undone _ (octet_word y 3)). congruence. }
  rewrite E3 in *. assert (Hc : forall a b c d, a = Z.lxor b d -> a = Z.lxor c d -> b = c).
  { intros a b c d -> Ed. apply (f_equal (fun u => Z.lxor u d)) in Ed. by rewrite !Z.lxor_assoc, !Z.lxor_nilpotent, !Z.lxor_0_r in Ed. }
  f_equal; eapply Hc; eauto.
Qed.

(** ** The sequences

    SNOW 3G as sequences in time: the cells [s 0], [s 1], ... that pass through the register and the contents of the three registers of the
    automaton. The register holds [s t], ..., [s (t + 15)] at time [t]. *)
Definition snow_key (key : bytes) (i : Z) : Z :=
  let o := 12 - 4 * i in of_octets (arr key o) (arr key (o + 1)) (arr key (o + 2)) (arr key (o + 3)).

Definition snow_load (k iv : Z -> Z) : list Z :=
  let not_k i := Z.lxor (k i) (2 ^ 32 - 1) in
  [not_k 0; not_k 1; not_k 2; not_k 3; k 0; k 1; k 2; k 3;
   not_k 0; Z.lxor (not_k 1) (iv 3); Z.lxor (not_k 2) (iv 2); not_k 3; Z.lxor (k 0) (iv 1); k 1; k 2; Z.lxor (k 3) (iv 0)].

(** The automaton's output. *)
Definition snow_F (s R1 R2 : nat -> Z) (t : nat) : Z := Z.lxor ((s (t + 15)%nat + R1 t) mod 2 ^ 32) (R2 t).

Record snow_run (key : bytes) (iv : list Z) (s R1 R2 R3 : nat -> Z) : Prop := {
  run_load : s <$> seq 0 16 = snow_load (snow_key key) (arr iv);
  run_start : R1 0%nat = 0 /\ R2 0%nat = 0 /\ R3 0%nat = 0;
  run_cell t : exists x, word 32 x /\ alpha_times x = s (t + 11)%nat /\
    s (t + 16)%nat = Z.lxor (Z.lxor (Z.lxor (alpha_times (s t)) (s (t + 2)%nat)) x) (if (t <? 32)%nat then snow_F s R1 R2 t else 0);
  run_R1 t : R1 (S t) = (R2 t + Z.lxor (R3 t) (s (t + 5)%nat)) mod 2 ^ 32;
  run_R2 t : R2 (S t) = snow_S1 (R1 t);
  run_R3 t : R3 (S t) = snow_S2 (R2 t)
}.

(** The words of the key stream: the first is that of time 33, the output of the automaton at time 32 is dropped. *)
Definition snow_stream (s R1 R2 : nat -> Z) (n : nat) : list Z :=
  (fun t => Z.lxor (snow_F s R1 R2 t) (s t)) <$> seq 33 n.

(** *** The registers of the code in time *)
Section Run.
Context (key : bytes) (iv : list Z).
Hypothesis Hkey : is_bytes key.
Hypothesis Hiv : Forall (word 32) iv.

Definition s3g_loaded : S3G_STATE := mk_s3g (snow_load (arr (s3g_key_words key)) (arr iv)) 0 0 0.

Fixpoint s3g_at (t : nat) : S3G_STATE :=
  match t with
  | O => s3g_loaded
  | S t => let '(f, st) := s3g_clock_fsm (s3g_at t) in s3g_clock_lfsr st (if (t <? 32)%nat then f else 0)
  end.

Lemma s3g_key_words_exact i : 0 <= i < 4 -> arr (s3g_key_words key) i = snow_key key i /\ word 32 (snow_key key i).
Proof.
  intros Hi. unfold snow_key. cbv zeta. assert (Ho : forall j, word 8 (arr key j)).
  { intros j. apply word_arr; [lia|exact Hkey]. }
  rewrite <- lor_octets by apply Ho. split; [|apply word_octets; apply Ho].
  assert (i = 0 \/ i = 1 \/ i = 2 \/ i = 3) as [-> | [-> | [-> | ->]]] by lia; done.
Qed.

Lemma s3g_loaded_exact : lfsr s3g_loaded = snow_load (snow_key key) (arr iv) /\ s3g_wf s3g_loaded.
Proof.
  pose proof (fun i Hi => proj1 (s3g_key_words_exact i Hi)) as Ek. split.
  - unfold s3g_loaded, lfsr, snow_load. cbv zeta. by rewrite !Ek by lia.
  - split; [done| |done]. cbn [lfsr s3g_loaded]. unfold snow_load. cbv zeta. rewrite !Ek by lia.
    pose proof (fun i Hi => proj2 (s3g_key_words_exact i Hi)) as Wk. pose proof (fun i => word_arr 32 iv i ltac:(lia) Hiv) as Wi.
    assert (Wn : forall i, 0 <= i < 4 -> word 32 (Z.lxor (snow_key key i) (2 ^ 32 - 1))) by (intros; apply word_lxor; [lia|auto|done]).
    repeat (apply Forall_cons; split); try apply Forall_nil_2; repeat (apply word_lxor; [lia| |apply Wi]); (apply Wk || apply Wn); lia.
Qed.

Lemma s3g_at_wf t : s3g_wf (s3g_at t).
Proof.
  induction t as [|t IH]; [apply s3g_loaded_exact|]. cbn [s3g_at]. destruct (s3g_clock_fsm_wf _ IH) as [Hf Hs].
  destruct (s3g_clock_fsm (s3g_at t)) as [f st]. apply s3g_clock_lfsr_wf; [exact Hs|]. by destruct (t <? 32)%nat.
Qed.

Lemma s3g_at_initialize n t : (t + n <= 32)%nat -> s3g_init_rounds n (s3g_at t) = s3g_at (t + n).
Proof.
  revert t. induction n as [|n IH]; intros t Hn; [by rewrite Nat.add_0_r|]. rewrite <- Nat.add_succ_comm, <- IH by lia. cbn [s3g_init_rounds s3g_at].
  destruct (s3g_clock_fsm (s3g_at t)) as [f st]. by rewrite (proj2 (Nat.ltb_lt t 32)) by lia.
Qed.

Lemma s3g_at_keystream n t : (32 <= t)%nat ->
  s3g_keystream_loop n (s3g_at t) = (fun t => Z.lxor (s3g_clock_fsm (s3g_at t)).1 (arr (lfsr (s3g_at t)) 0)) <$> seq t n.
Proof.
  revert t. induction n as [|n IH]; intros t Ht; [done|]. cbn [s3g_keystream_loop seq fmap list_fmap]. rewrite <- IH by lia. cbn [s3g_at].
  destruct (s3g_clock_fsm (s3g_at t)) as [f st] eqn:E. rewrite (proj2 (Nat.ltb_ge t 32)) by lia. cbn [fst]. do 3 f_equal.
  apply (f_equal (fun r => lfsr r.2)) in E. cbn [snd] in E. by rewrite <- E.
Qed.
End Run.

(** *** The code follows the sequences *)
Definition holds_at (st : S3G_STATE) (s R1 R2 R3 : nat -> Z) (t : nat) : Prop :=
  lfsr st = s <$> seq t 16 /\ fsm0 st = R1 t /\ fsm1 st = R2 t /\ fsm2 st = R3 t.

Lemma arr_window (s : nat -> Z) t i : (i < 16)%nat -> forall j, j = Z.of_nat i -> arr (s <$> seq t 16) j = s (t + i)%nat.
Proof.
  intros Hi j ->. unfold arr. rewrite Nat2Z.id, nth_lookup, list_lookup_fmap, lookup_seq_lt by done. done.
Qed.

Lemma fsm_holds st s R1 R2 R3 t : holds_at st s R1 R2 R3 t ->
  (s3g_clock_fsm st).1 = snow_F s R1 R2 t /\ lfsr (s3g_clock_fsm st).2 = lfsr st /\
  fsm0 (s3g_clock_fsm st).2 = (R2 t + Z.lxor (R3 t) (s (t + 5)%nat)) mod 2 ^ 32 /\
  fsm1 (s3g_clock_fsm st).2 = snow_S1 (R1 t) /\ fsm2 (s3g_clock_fsm st).2 = snow_S2 (R2 t).
Proof.
  intros (El & E0 & E1 & E2). cbn [s3g_clock_fsm fst snd lfsr fsm0 fsm1 fsm2]. rewrite El, E0, E1, E2, s3g_s1_exact, s3g_s2_exact.
  rewrite (arr_window s t 15 ltac:(lia) 15), (arr_window s t 5 ltac:(lia) 5) by done. unfold snow_F, u32. change 0xffffffff with (2 ^ 32 - 1).
  by rewrite !land_mask, !Z.mod_mod by lia.
Qed.

(** The cell that is shifted in. *)
Lemma lfsr_shifts st s t f : s3g_wf st -> lfsr st = s <$> seq t 16 ->
  exists x, word 32 x /\ alpha_times x = s (t + 11)%nat /\
    lfsr (s3g_clock_lfsr st f) = (s <$> seq (S t) 15) ++ [Z.lxor (Z.lxor (Z.lxor (alpha_times (s t)) (s (t + 2)%nat)) x) f].
Proof.
  intros [Hl Hw _] E. cbn [s3g_clock_lfsr lfsr].
  assert (H0 : word 32 (arr (lfsr st) 0)) by (apply word_arr; [lia|done]). assert (H11 : word 32 (arr (lfsr st) 11)) by (apply word_arr; [lia|done]).
  rewrite alpha_times_exact by exact H0. destruct (alpha_divides _ H11) as [Hx Ex].
  rewrite (Z.lxor_assoc (Z.lxor (alpha_times _) _)). set (x := Z.lxor (Z.land (Z.shiftr _ 8) _) _) in *.
  exists x. rewrite E in Ex |- *. clearbody x. rewrite (arr_window s t 11 ltac:(lia) 11) in Ex by done.
  rewrite (arr_window s t 0 ltac:(lia) 0), (arr_window s t 2 ltac:(lia) 2), Nat.add_0_r by done. done.
Qed.

Lemma snow_run_holds key iv s R1 R2 R3 t :
  is_bytes key -> Forall (word 32) iv -> snow_run key iv s R1 R2 R3 -> holds_at (s3g_at key iv t) s R1 R2 R3 t.
Proof.
  intros Hk Hi Hr. induction t as [|t IH].
  - destruct (run_start _ _ _ _ _ _ Hr) as (E1 & E2 & E3). split; [|done].
    cbn [s3g_at]. rewrite (proj1 (s3g_loaded_exact key iv Hk Hi)). symmetry. apply (run_load _ _ _ _ _ _ Hr).
  - destruct (fsm_holds _ _ _ _ _ _ IH) as (Ef & El & E0 & E1 & E2). pose proof (proj2 (s3g_clock_fsm_wf _ (s3g_at_wf key iv Hk Hi t))) as Hw.
    change (s3g_at key iv (S t)) with (let '(f, st) := s3g_clock_fsm (s3g_at key iv t) in s3g_clock_lfsr st (if (t <? 32)%nat then f else 0)).
    unfold holds_at. destruct (s3g_clock_fsm (s3g_at key iv t)) as [f st]. cbn [fst snd] in *. subst f. rewrite (proj1 IH) in El.
    destruct (lfsr_shifts st s t (if (t <? 32)%nat then snow_F s R1 R2 t else 0) Hw El) as (x & Hx & Ex & ->).
    destruct (run_cell _ _ _ _ _ _ Hr t) as (y & Hy & Ey & Es).
    assert (y = x) as -> by (apply alpha_times_injective; [done|done|by rewrite Ex, Ey]).
    rewrite <- Es. split; [|split; [by rewrite (run_R1 _ _ _ _ _ _ Hr)|split; [by rewrite (run_R2 _ _ _ _ _ _ Hr)|by rewrite (run_R3 _ _ _ _ _ _ Hr)]]].
    replace (t + 16)%nat with (S t + 15)%nat by lia. change (seq (S t) 16) with (seq (S t) (15 + 1)). by rewrite seq_app, fmap_app.
Qed.

Lemma snow_run_stream key iv s R1 R2 R3 n :
  is_bytes key -> Forall (word 32) iv -> snow_run key iv s R1 R2 R3 -> 0 <= n ->
  s3g_generate_keystream (s3g_initialize (s3g_key_words key) iv) n = snow_stream s R1 R2 (Z.to_nat n).
Proof.
  intros Hk Hi Hr Hn. unfold s3g_initialize, snow_stream. cbv zeta. pose proof (s3g_at_initialize key iv 32 0 ltac:(lia)) as Ei.
  cbn [s3g_at] in Ei. unfold s3g_loaded, snow_load in Ei. cbv zeta in Ei. change (2 ^ 32 - 1) with 0xffffffff in Ei. rewrite Ei. clear Ei.
  unfold s3g_generate_keystream. pose proof (s3g_at_keystream key iv (Z.to_nat n) 33 ltac:(lia)) as Ek.
  change (s3g_at key iv 33) with (let '(f, st) := s3g_clock_fsm (s3g_at key iv 32) in s3g_clock_lfsr st 0) in Ek.
  change (0 + 32)%nat with 32%nat. destruct (s3g_clock_fsm (s3g_at key iv 32)) as [f st]. rewrite Ek. apply list_fmap_ext. intros i t _.
  pose proof (snow_run_holds key iv s R1 R2 R3 t Hk Hi Hr) as H. destruct (fsm_holds _ _ _ _ _ _ H) as (-> & _).
  by rewrite (proj1 H), (arr_window s t 0 ltac:(lia) 0), Nat.add_0_r by done.
Qed.

(** The sequences exist: the ones that the registers of the code go through. *)
Section Exists.
Context (key : bytes) (iv : list Z).
Hypothesis Hkey : is_bytes key.
Hypothesis Hiv : Forall (word 32) iv.

Definition cell_at (t : nat) : Z := arr (lfsr (s3g_at key iv t)) 0.
Definition reg1 (t : nat) : Z := fsm0 (s3g_at key iv t).
Definition reg2 (t : nat) : Z := fsm1 (s3g_at key iv t).
Definition reg3 (t : nat) : Z := fsm2 (s3g_at key iv t).

Lemma s3g_at_lfsr t : exists v, lfsr (s3g_at key iv (S t)) = drop 1 (lfsr (s3g_at key iv t)) ++ [v].
Proof. cbn [s3g_at]. unfold s3g_clock_fsm, s3g_clock_lfsr. cbn [lfsr]. by eexists. Qed.

Lemma cells_hold t : holds_at (s3g_at key iv t) cell_at reg1 reg2 reg3 t.
Proof.
  split; [|done]. pose proof (fun u => s3g_length _ (s3g_at_wf key iv Hkey Hiv u)) as Hl. cut (forall i u, (i < 16)%nat -> lfsr (s3g_at key iv u) !! i = Some (cell_at (u + i)%nat)).
  { intros H. apply list_eq. intros i. rewrite list_lookup_fmap. destruct (decide (i < 16)%nat).
    - by rewrite H, lookup_seq_lt by done.
    - rewrite lookup_ge_None_2 by (rewrite Hl; lia). symmetry. apply fmap_None, lookup_ge_None_2. rewrite length_seq. lia. }
  induction i as [|i IH]; intros u Hi.
  - rewrite Nat.add_0_r. unfold cell_at, arr. destruct (lfsr (s3g_at key iv u)) eqn:E; [|done]. specialize (Hl u). by rewrite E in Hl.
  - rewrite <- Nat.add_succ_comm, <- IH by lia. destruct (s3g_at_lfsr u) as [v ->].
    rewrite lookup_app_l by (rewrite length_drop, Hl; lia). by rewrite lookup_drop.
Qed.

Lemma cells_run : snow_run key iv cell_at reg1 reg2 reg3.
Proof.
  assert (Hn : forall t, let st := (s3g_clock_fsm (s3g_at key iv t)).2 in
    s3g_at key iv (S t) = s3g_clock_lfsr st (if (t <? 32)%nat then snow_F cell_at reg1 reg2 t else 0)).
  { intros t. destruct (fsm_holds _ _ _ _ _ _ (cells_hold t)) as (<- & _). cbn [s3g_at]. by destruct (s3g_clock_fsm (s3g_at key iv t)). }
  split.
  - rewrite <- (proj1 (s3g_loaded_exact key iv Hkey Hiv)). symmetry. apply (cells_hold 0).
  - done.
  - intros t. destruct (fsm_holds _ _ _ _ _ _ (cells_hold t)) as (_ & El & _). rewrite (proj1 (cells_hold t)) in El.
    destruct (lfsr_shifts _ _ t (if (t <? 32)%nat then snow_F cell_at reg1 reg2 t else 0) (proj2 (s3g_clock_fsm_wf _ (s3g_at_wf key iv Hkey Hiv t))) El) as (x & Hx & Ex & Es).
    exists x. split; [exact Hx|]. split; [exact Ex|]. rewrite <- (Hn t), (proj1 (cells_hold (S t))) in Es.
    change (seq (S t) 16) with (seq (S t) (15 + 1)) in Es. rewrite seq_app, fmap_app in Es. apply app_inj_tail in Es as [_ Es].
    rewrite <- Es. f_equal. lia.
  - intros t. unfold reg1 at 1. rewrite Hn. apply (fsm_holds _ _ _ _ _ _ (cells_hold t)).
  - intros t. unfold reg2 at 1. rewrite Hn. apply (fsm_holds _ _ _ _ _ _ (cells_hold t)).
  - intros t. unfold reg3 at 1. rewrite Hn. apply (fsm_holds _ _ _ _ _ _ (cells_hold t)).
Qed.
End Exists.

Lemma snow_run_exists key iv : is_bytes key -> Forall (word 32) iv -> exists s R1 R2 R3, snow_run key iv s R1 R2 R3.
Proof. intros Hk Hi. exists (cell_at key iv), (reg1 key iv), (reg2 key iv), (reg3 key iv). by apply cells_run. Qed.
