(* ===== verification/Zuc.v ===== *)
(** * ZUC

    [lib/security/zuc.cpp]: the stream cipher of 128-NEA3 and 128-NIA3. The state is the LFSR of sixteen
    31-bit cells, the registers [F_R1] and [F_R2] and the words of the bit reorganisation.

    [AddM_spec]: the addition of the LFSR is addition modulo 2^31 - 1, with 2^31 - 1 for 0.
    [zuc_initialize_wf], [LFSRWithWorkMode_wf]: the cells stay within 31 bits and are never 0.
    [zuc_generate_keystream_words]: every word of the key stream has 32 bits. *)

From S2P Require Import Prelude Snow3g.

Definition zuc_S0 : list Z :=
  [
   62; 114; 91; 71; 202; 224; 0; 51; 4; 209; 84; 152; 9; 185; 109; 203; 123; 27; 249; 50; 175; 157; 106; 165;
   184; 45; 252; 29; 8; 83; 3; 144; 77; 78; 132; 153; 228; 206; 217; 145; 221; 182; 133; 72; 139; 41; 110;
   172; 205; 193; 248; 30; 115; 67; 105; 198; 181; 189; 253; 57; 99; 32; 212; 56; 118; 125; 178; 167; 207;
   237; 87; 197; 243; 44; 187; 20; 33; 6; 85; 155; 227; 239; 94; 49; 79; 127; 90; 164; 13; 130; 81; 73; 95;
   186; 88; 28; 74; 22; 213; 23; 168; 146; 36; 31; 140; 255; 216; 174; 46; 1; 211; 173; 59; 75; 218; 70; 235;
   201; 222; 154; 143; 135; 215; 58; 128; 111; 47; 200; 177; 180; 55; 247; 10; 34; 19; 40; 124; 204; 60; 137;
   199; 195; 150; 86; 7; 191; 126; 240; 11; 43; 151; 82; 53; 65; 121; 97; 166; 76; 16; 254; 188; 38; 149; 136;
   138; 176; 163; 251; 192; 24; 148; 242; 225; 229; 233; 93; 208; 220; 17; 102; 100; 92; 236; 89; 66; 117; 18;
   245; 116; 156; 170; 35; 14; 134; 171; 190; 42; 2; 231; 103; 230; 68; 162; 108; 194; 147; 159; 241; 246;
   250; 54; 210; 80; 104; 158; 98; 113; 21; 61; 214; 64; 196; 226; 15; 142; 131; 119; 107; 37; 5; 63; 12; 48;
   234; 112; 183; 161; 232; 169; 101; 141; 39; 26; 219; 129; 179; 160; 244; 69; 122; 25; 223; 238; 120; 52; 96
  ].

Definition zuc_S1 : list Z :=
  [
   85; 194; 99; 113; 59; 200; 71; 134; 159; 60; 218; 91; 41; 170; 253; 119; 140; 197; 148; 12; 166; 26; 19; 0;
   227; 168; 22; 114; 64; 249; 248; 66; 68; 38; 104; 150; 129; 217; 69; 62; 16; 118; 198; 167; 139; 57; 67;
   225; 58; 181; 86; 42; 192; 109; 179; 5; 34; 102; 191; 220; 11; 250; 98; 72; 221; 32; 17; 6; 54; 201; 193;
   207; 246; 39; 82; 187; 105; 245; 212; 135; 127; 132; 76; 210; 156; 87; 164; 188; 79; 154; 223; 254; 214;
   141; 122; 235; 43; 83; 216; 92; 161; 20; 23; 251; 35; 213; 125; 48; 103; 115; 8; 9; 238; 183; 112; 63; 97;
   178; 25; 142; 78; 229; 75; 147; 143; 93; 219; 169; 173; 241; 174; 46; 203; 13; 252; 244; 45; 70; 110; 29;
   151; 232; 209; 233; 77; 55; 165; 117; 94; 131; 158; 171; 130; 157; 185; 28; 224; 205; 73; 137; 1; 182; 189;
   88; 36; 162; 95; 56; 120; 153; 21; 144; 80; 184; 149; 228; 208; 145; 199; 206; 237; 15; 180; 111; 160; 204;
   240; 2; 74; 121; 195; 222; 163; 239; 234; 81; 230; 107; 24; 236; 27; 44; 128; 247; 116; 231; 255; 33; 90;
   106; 84; 30; 65; 49; 146; 53; 196; 51; 7; 10; 186; 126; 14; 52; 136; 177; 152; 124; 243; 61; 96; 108; 123;
   202; 211; 31; 50; 101; 4; 40; 100; 190; 133; 155; 47; 89; 138; 215; 176; 37; 172; 175; 18; 3; 226; 242
  ].

Definition EK_d : list Z :=
  [
   17623; 9916; 25195; 4958; 22409; 13794; 28981; 2479; 19832; 12051; 27588; 6897; 24102; 15437; 30874; 18348
  ].

Definition MAKEU32 (a b c d : Z) : Z :=
  Z.lor (Z.lor (Z.lor (Z.shiftl a 24) (Z.shiftl b 16)) (Z.shiftl c 8)) d.
Definition MulByPow2 (x k : Z) : Z := Z.land (Z.lor (u32 (Z.shiftl x k)) (Z.shiftr x (31 - k))) 0x7fffffff.
Definition MAKEU31 (a b c : Z) : Z := Z.lor (Z.lor (Z.shiftl a 23) (Z.shiftl b 8)) c.
Definition ROT (a k : Z) : Z := Z.lor (u32 (Z.shiftl a k)) (Z.shiftr a (32 - k)).

(** [LFSR_S0], ..., [LFSR_S15] are the elements of [zlfsr]. *)
Record zuc_state_t := mk_zuc {
  zlfsr : list Z;
  F_R1 : Z; F_R2 : Z;
  BRC_X0 : Z; BRC_X1 : Z; BRC_X2 : Z; BRC_X3 : Z
}.

Definition AddM (a b : Z) : Z :=
  let c := u32 (a + b) in u32 (Z.land c 0x7fffffff + Z.shiftr c 31).

(** The feedback that both modes share, before [u]. *)
Definition lfsr_feedback (l : list Z) : Z :=
  let f := arr l 0 in
  let f := AddM f (MulByPow2 (arr l 0) 8) in
  let f := AddM f (MulByPow2 (arr l 4) 20) in
  let f := AddM f (MulByPow2 (arr l 10) 21) in
  let f := AddM f (MulByPow2 (arr l 13) 17) in
  AddM f (MulByPow2 (arr l 15) 15).

(** "update the state" *)
Definition lfsr_shift (s : zuc_state_t) (f : Z) : zuc_state_t :=
  mk_zuc (drop 1 (zlfsr s) ++ [f]) (F_R1 s) (F_R2 s) (BRC_X0 s) (BRC_X1 s) (BRC_X2 s) (BRC_X3 s).

Definition LFSRWithInitialisationMode (s : zuc_state_t) (u : Z) : zuc_state_t :=
  lfsr_shift s (AddM (lfsr_feedback (zlfsr s)) u).

Definition LFSRWithWorkMode (s : zuc_state_t) : zuc_state_t := lfsr_shift s (lfsr_feedback (zlfsr s)).

Definition BitReorganization (s : zuc_state_t) : zuc_state_t :=
  let l := zlfsr s in
  mk_zuc l (F_R1 s) (F_R2 s)
    (Z.lor (u32 (Z.shiftl (Z.land (arr l 15) 0x7fff8000) 1)) (Z.land (arr l 14) 0xffff))
    (Z.lor (u32 (Z.shiftl (Z.land (arr l 11) 0xffff) 16)) (Z.shiftr (arr l 9) 15))
    (Z.lor (u32 (Z.shiftl (Z.land (arr l 7) 0xffff) 16)) (Z.shiftr (arr l 5) 15))
    (Z.lor (u32 (Z.shiftl (Z.land (arr l 2) 0xffff) 16)) (Z.shiftr (arr l 0) 15)).

Definition zuc_L1 (X : Z) : Z :=
  Z.lxor (Z.lxor (Z.lxor (Z.lxor X (ROT X 2)) (ROT X 10)) (ROT X 18)) (ROT X 24).
Definition zuc_L2 (X : Z) : Z :=
  Z.lxor (Z.lxor (Z.lxor (Z.lxor X (ROT X 8)) (ROT X 14)) (ROT X 22)) (ROT X 30).

(** [F]: its result and the new registers. *)
Definition zuc_F (s : zuc_state_t) : Z * zuc_state_t :=
  let W := u32 (Z.lxor (BRC_X0 s) (F_R1 s) + F_R2 s) in
  let W1 := u32 (F_R1 s + BRC_X1 s) in
  let W2 := Z.lxor (F_R2 s) (BRC_X2 s) in
  let u := zuc_L1 (Z.lor (u32 (Z.shiftl W1 16)) (Z.shiftr W2 16)) in
  let v := zuc_L2 (Z.lor (u32 (Z.shiftl W2 16)) (Z.shiftr W1 16)) in
  (W, mk_zuc (zlfsr s)
        (MAKEU32 (arr zuc_S0 (Z.shiftr u 24)) (arr zuc_S1 (Z.land (Z.shiftr u 16) 0xff))
           (arr zuc_S0 (Z.land (Z.shiftr u 8) 0xff)) (arr zuc_S1 (Z.land u 0xff)))
        (MAKEU32 (arr zuc_S0 (Z.shiftr v 24)) (arr zuc_S1 (Z.land (Z.shiftr v 16) 0xff))
           (arr zuc_S0 (Z.land (Z.shiftr v 8) 0xff)) (arr zuc_S1 (Z.land v 0xff)))
        (BRC_X0 s) (BRC_X1 s) (BRC_X2 s) (BRC_X3 s)).

(** [while (nCount > 0)] *)
Fixpoint zuc_init_rounds (n : nat) (s : zuc_state_t) : zuc_state_t :=
  match n with
  | O => s
  | S n =>
      let '(w, s) := zuc_F (BitReorganization s) in
      zuc_init_rounds n (LFSRWithInitialisationMode s (Z.shiftr w 1))
  end.

(** The expanded key. The words of the bit reorganisation are written before they are read. *)
Definition zuc_expand_key (k iv : bytes) : zuc_state_t :=
  mk_zuc ((fun i => MAKEU31 (arr k i) (arr EK_d i) (arr iv i)) <$> seqZ 0 16) 0 0 0 0 0 0.

Definition zuc_initialize (k iv : bytes) : zuc_state_t := zuc_init_rounds 32 (zuc_expand_key k iv).

Fixpoint zuc_keystream_loop (n : nat) (s : zuc_state_t) : list Z :=
  match n with
  | O => []
  | S n =>
      let s := BitReorganization s in
      let '(w, s) := zuc_F s in
      Z.lxor w (BRC_X3 s) :: zuc_keystream_loop n (LFSRWithWorkMode s)
  end.

(** [p_keystream[0..key_stream_len)] *)
Definition zuc_generate_keystream (s : zuc_state_t) (key_stream_len : Z) : list Z :=
  let '(_, s) := zuc_F (BitReorganization s) in
  zuc_keystream_loop (Z.to_nat key_stream_len) (LFSRWithWorkMode s).

(** ** The field of the LFSR *)

(** The prime 2^31 - 1. *)
Definition zuc_p : Z := 2 ^ 31 - 1.

(** A cell of the LFSR: 31 bits, and not 0. *)
Definition cell (x : Z) : Prop := 0 < x <= zuc_p.

Lemma AddM_spec a b :
  0 <= a <= zuc_p -> 0 <= b <= zuc_p ->
  AddM a b mod zuc_p = (a + b) mod zuc_p /\ 0 <= AddM a b <= zuc_p /\ (0 < a + b -> 0 < AddM a b).
Proof.
  unfold zuc_p. intros Ha Hb. unfold AddM. rewrite (u32_small (a + b)) by lia.
  change 0x7fffffff with (2 ^ 31 - 1). rewrite land_mask, Z.shiftr_div_pow2 by lia.
  rewrite u32_small by divmod. split; [divmod|]. divmod.
Qed.

(** Multiplication by a power of 2 is a rotation of the 31 bits. *)
Lemma MulByPow2_value x k :
  0 <= x <= zuc_p -> 0 <= k <= 31 -> MulByPow2 x k = (x mod 2 ^ (31 - k)) * 2 ^ k + x / 2 ^ (31 - k).
Proof.
  intros Hx Hk. unfold MulByPow2, zuc_p in *. change 0x7fffffff with (2 ^ 31 - 1).
  rewrite land_mask, Z.shiftr_div_pow2 by lia.
  assert (0 < 2 ^ k) by (apply Z.pow_pos_nonneg; lia). assert (0 < 2 ^ (31 - k)) by (apply Z.pow_pos_nonneg; lia).
  assert (Ep : 2 ^ 31 = 2 ^ (31 - k) * 2 ^ k) by (rewrite <- Z.pow_add_r by lia; f_equal; lia).
  assert (Hdiv : 0 <= x / 2 ^ (31 - k) < 2 ^ k).
  { split; [apply Z.div_pos; lia|]. apply Z.div_lt_upper_bound; lia. }
  assert (Ex : u32 (Z.shiftl x k) = Z.shiftl (x mod 2 ^ (32 - k)) k).
  { unfold u32. rewrite !Z.shiftl_mul_pow2 by lia.
    replace (2 ^ 32) with (2 ^ (32 - k) * 2 ^ k) by (rewrite <- Z.pow_add_r by lia; f_equal; lia).
    apply Z.mul_mod_distr_r; [|lia]. apply Z.pow_nonzero; lia. }
  rewrite Ex, lor_shiftl_add by lia.
  pose proof (Z.mod_pos_bound x (2 ^ (31 - k)) ltac:(lia)) as Hm.
  assert (E32 : x mod 2 ^ (32 - k) mod 2 ^ (31 - k) = x mod 2 ^ (31 - k)).
  { replace (2 ^ (32 - k)) with (2 ^ (31 - k) * 2) by (replace (32 - k) with (Z.succ (31 - k)) by lia; rewrite Z.pow_succ_r; lia).
    rewrite Z.rem_mul_r by lia. rewrite (Z.mul_comm (2 ^ (31 - k))), Z.mod_add, Z.mod_mod by lia. done. }
  rewrite Ep, <- (Z.add_mod_idemp_l (_ * 2 ^ k)), Z.mul_mod_distr_r, E32 by nia.
  apply Z.mod_small. nia.
Qed.

Lemma MulByPow2_spec x k :
  0 <= x <= zuc_p -> 0 <= k <= 31 ->
  MulByPow2 x k mod zuc_p = (x * 2 ^ k) mod zuc_p /\ 0 <= MulByPow2 x k <= zuc_p.
Proof.
  intros Hx Hk. rewrite MulByPow2_value by done.
  assert (0 < 2 ^ k) by (apply Z.pow_pos_nonneg; lia). assert (0 < 2 ^ (31 - k)) by (apply Z.pow_pos_nonneg; lia).
  assert (Ep : 2 ^ 31 = 2 ^ (31 - k) * 2 ^ k) by (rewrite <- Z.pow_add_r by lia; f_equal; lia).
  pose proof (Z.div_mod x (2 ^ (31 - k)) ltac:(lia)) as Hdm.
  pose proof (Z.mod_pos_bound x (2 ^ (31 - k)) ltac:(lia)) as Hm.
  assert (Hdiv : 0 <= x / 2 ^ (31 - k) < 2 ^ k).
  { split; [apply Z.div_pos; lia|]. apply Z.div_lt_upper_bound; unfold zuc_p in *; lia. }
  set (q := x / 2 ^ (31 - k)) in *. set (r := x mod 2 ^ (31 - k)) in *. split.
  - assert (E : x * 2 ^ k = r * 2 ^ k + q + q * zuc_p) by (unfold zuc_p; rewrite Ep; nia).
    rewrite E, Z.mod_add; [done|unfold zuc_p; lia].
  - unfold zuc_p. rewrite Ep. nia.
Qed.

(** The feedback is the linear form of the specification, modulo 2^31 - 1. *)
Lemma lfsr_feedback_spec l :
  (forall i, cell (arr l i) \/ arr l i = 0) -> cell (arr l 0) ->
  lfsr_feedback l mod zuc_p =
    (2 ^ 15 * arr l 15 + 2 ^ 17 * arr l 13 + 2 ^ 21 * arr l 10 + 2 ^ 20 * arr l 4 + (1 + 2 ^ 8) * arr l 0) mod zuc_p /\
  cell (lfsr_feedback l).
Proof.
  intros Hall H0. assert (Hr : forall i, 0 <= arr l i <= zuc_p) by (intros i; destruct (Hall i) as [[]| ->]; unfold zuc_p in *; lia).
  unfold lfsr_feedback. cbv zeta. set (f0 := arr l 0) in *.
  destruct (MulByPow2_spec f0 8 (Hr 0)) as [M0 R0]; [lia|]. destruct (MulByPow2_spec (arr l 4) 20 (Hr 4)) as [M1 R1]; [lia|].
  destruct (MulByPow2_spec (arr l 10) 21 (Hr 10)) as [M2 R2]; [lia|]. destruct (MulByPow2_spec (arr l 13) 17 (Hr 13)) as [M3 R3]; [lia|].
  destruct (MulByPow2_spec (arr l 15) 15 (Hr 15)) as [M4 R4]; [lia|].
  destruct (AddM_spec f0 (MulByPow2 f0 8)) as (A1 & B1 & P1); [apply (Hr 0)|done|]. set (f1 := AddM f0 _) in *.
  destruct (AddM_spec f1 (MulByPow2 (arr l 4) 20)) as (A2 & B2 & P2); [done..|]. set (f2 := AddM f1 _) in *.
  destruct (AddM_spec f2 (MulByPow2 (arr l 10) 21)) as (A3 & B3 & P3); [done..|]. set (f3 := AddM f2 _) in *.
  destruct (AddM_spec f3 (MulByPow2 (arr l 13) 17)) as (A4 & B4 & P4); [done..|]. set (f4 := AddM f3 _) in *.
  destruct (AddM_spec f4 (MulByPow2 (arr l 15) 15)) as (A5 & B5 & P5); [done..|]. set (f5 := AddM f4 _) in *.
  destruct H0 as [H0 _]. split; [|split; [apply P5; lia|apply B5]].
  assert (Hc : forall a b c d, a mod zuc_p = b mod zuc_p -> c mod zuc_p = d mod zuc_p -> (a + c) mod zuc_p = (b + d) mod zuc_p).
  { intros a b0 c d E1 E2. rewrite (Z.add_mod a c), (Z.add_mod b0 d), E1, E2 by (unfold zuc_p; lia). done. }
  rewrite A5. transitivity ((f0 + f0 * 2 ^ 8 + arr l 4 * 2 ^ 20 + arr l 10 * 2 ^ 21 + arr l 13 * 2 ^ 17 + arr l 15 * 2 ^ 15) mod zuc_p);
    [|f_equal; lia].
  apply Hc; [|done]. rewrite A4. apply Hc; [|done]. rewrite A3. apply Hc; [|done]. rewrite A2. apply Hc; [|done].
  rewrite A1. by apply Hc.
Qed.

(** ** The state *)
Record zuc_wf (s : zuc_state_t) : Prop := {
  zuc_length : length (zlfsr s) = 16%nat;
  zuc_cells : Forall cell (zlfsr s);
  zuc_regs : word 32 (F_R1 s) /\ word 32 (F_R2 s)
}.

Lemma cells_arr l i : Forall cell l -> 0 <= i < zlen l -> cell (arr l i).
Proof.
  intros Hl Hi. unfold arr. rewrite nth_lookup. destruct (l !! _) as [x|] eqn:E; simpl.
  - by eapply Forall_lookup_1.
  - apply lookup_ge_None in E. lia.
Qed.

Lemma cells_arr_any l i : Forall cell l -> cell (arr l i) \/ arr l i = 0.
Proof.
  intros Hl. unfold arr. rewrite nth_lookup. destruct (l !! _) as [x|] eqn:E; simpl; [|by right].
  left. by eapply Forall_lookup_1.
Qed.

Lemma lfsr_shift_wf s f : zuc_wf s -> cell f -> zuc_wf (lfsr_shift s f).
Proof.
  intros [Hl Hc Hr] Hf. split; cbn [zlfsr lfsr_shift F_R1 F_R2]; [| |done].
  - rewrite length_app, length_drop. simpl. lia.
  - apply Forall_app. split; [by apply Forall_drop|by apply Forall_singleton].
Qed.

Lemma lfsr_feedback_cell s : zuc_wf s -> cell (lfsr_feedback (zlfsr s)).
Proof.
  intros [Hl Hc _]. apply lfsr_feedback_spec; [intros i; by apply cells_arr_any|]. apply cells_arr; [done|lia].
Qed.

Lemma LFSRWithWorkMode_wf s : zuc_wf s -> zuc_wf (LFSRWithWorkMode s).
Proof. intros Hs. apply lfsr_shift_wf; [done|]. by apply lfsr_feedback_cell. Qed.

Lemma LFSRWithInitialisationMode_wf s u : zuc_wf s -> 0 <= u <= zuc_p -> zuc_wf (LFSRWithInitialisationMode s u).
Proof.
  intros Hs Hu. apply lfsr_shift_wf; [done|]. pose proof (lfsr_feedback_cell s Hs) as [H0 H1].
  destruct (AddM_spec (lfsr_feedback (zlfsr s)) u) as (_ & [_ B] & P); [lia|done|]. split; [apply P; lia|done].
Qed.

Lemma BitReorganization_wf s : zuc_wf s -> zuc_wf (BitReorganization s) /\
  word 32 (BRC_X0 (BitReorganization s)) /\ word 32 (BRC_X3 (BitReorganization s)).
Proof.
  intros [Hl Hc Hr]. split; [by split|]. cbn [BRC_X0 BRC_X3 BitReorganization].
  assert (Ha : forall i, word 31 (arr (zlfsr s) i)).
  { intros i. destruct (cells_arr_any (zlfsr s) i Hc) as [[? ?]| ->]; unfold word, zuc_p in *; lia. }
  split; (apply word_lor; [lia|apply word_u32|]).
  - apply word_land; [lia|apply Ha|done].
  - apply (word_weaken 31); [lia|]. apply word_shiftr; [lia|apply Ha].
Qed.

Lemma sbox_words : Forall (word 8) zuc_S0 /\ Forall (word 8) zuc_S1.
Proof.
  assert (H : forall l, forallb (fun x => (0 <=? x) && (x <? 2 ^ 8)) l = true -> Forall (word 8) l).
  { intros l Hl. apply Forall_forall. intros x Hx. rewrite forallb_forall in Hl.
    apply list_elem_of_In in Hx. specialize (Hl x Hx). unfold word. lia. }
  split; apply H; reflexivity.
Qed.

Lemma zuc_F_wf s : zuc_wf s -> word 32 (zuc_F s).1 /\ zuc_wf (zuc_F s).2 /\ BRC_X3 (zuc_F s).2 = BRC_X3 s.
Proof.
  intros [Hl Hc Hr]. destruct sbox_words as [W0 W1].
  pose proof (fun i => word_arr 8 zuc_S0 i ltac:(lia) W0) as A0. pose proof (fun i => word_arr 8 zuc_S1 i ltac:(lia) W1) as A1.
  unfold zuc_F. cbv zeta. split; [apply word_u32|]. split; [|done]. split; [done|done|].
  cbn [F_R1 F_R2]. unfold MAKEU32. split; apply word_octets; auto.
Qed.

Lemma zuc_expand_key_wf k iv : is_bytes k -> is_bytes iv -> zuc_wf (zuc_expand_key k iv).
Proof.
  intros Hk Hiv. pose proof (fun i => word_arr 8 k i ltac:(lia) Hk) as Wk. pose proof (fun i => word_arr 8 iv i ltac:(lia) Hiv) as Wiv.
  split; [done| |done]. cbn [zlfsr zuc_expand_key]. apply Forall_fmap, Forall_forall. intros i Hi%elem_of_seqZ. simpl.
  assert (Hd : 0 < arr EK_d i < 2 ^ 15).
  { clear - Hi. replace i with (0 + i) by lia. by_evaluation 16 i. }
  specialize (Wk i). specialize (Wiv i). unfold MAKEU31, word in *.
  replace (Z.shiftl (arr k i) 23) with (Z.shiftl (Z.shiftl (arr k i) 15) 8) by (by rewrite Z.shiftl_shiftl by lia).
  rewrite <- Z.shiftl_lor, !lor_shiftl_add by lia. unfold cell, zuc_p. lia.
Qed.

Lemma zuc_initialize_wf k iv : is_bytes k -> is_bytes iv -> zuc_wf (zuc_initialize k iv).
Proof.
  intros Hk Hiv. unfold zuc_initialize. pose proof (zuc_expand_key_wf k iv Hk Hiv) as H. revert H.
  generalize (zuc_expand_key k iv). generalize 32%nat. intros n. induction n as [|n IH]; intros s Hs; [done|].
  cbn [zuc_init_rounds]. destruct (BitReorganization_wf s Hs) as [Hs1 _].
  destruct (zuc_F_wf _ Hs1) as ([H0 Hw] & Hs2 & _). destruct (zuc_F (BitReorganization s)) as [w s2]. simpl in H0, Hw, Hs2.
  apply IH. apply LFSRWithInitialisationMode_wf; [done|]. rewrite Z.shiftr_div_pow2 by lia. unfold zuc_p. divmod.
Qed.

Lemma zuc_generate_keystream_words s n : zuc_wf s -> Forall (word 32) (zuc_generate_keystream s n).
Proof.
  intros Hs. unfold zuc_generate_keystream. destruct (BitReorganization_wf s Hs) as [Hs1 _].
  destruct (zuc_F_wf _ Hs1) as (_ & Hs2 & _). destruct (zuc_F (BitReorganization s)) as [w s2].
  pose proof (LFSRWithWorkMode_wf s2 Hs2) as H. revert H. generalize (LFSRWithWorkMode s2).
  induction (Z.to_nat n) as [|k IH]; intros s3 H3; [constructor|]. cbn [zuc_keystream_loop]. cbv zeta.
  destruct (BitReorganization_wf s3 H3) as (H4 & _ & Hx3). destruct (zuc_F_wf _ H4) as (Hw & H5 & Ex).
  destruct (zuc_F (BitReorganization s3)) as [w' s5]. simpl in Hw, H5, Ex. constructor.
  - apply word_lxor; [lia|done|]. by rewrite Ex.
  - by apply IH, LFSRWithWorkMode_wf.
Qed.
