(* ===== verification/SecAlgorithms.v ===== *)
(** * The ciphering and integrity algorithms

    128-NEA1, 128-NEA2, 128-NEA3 of [include/srsran/security/ciphering.h] and [lib/security/ciphering_engine_nea2.cpp],
    128-NIA1, 128-NIA2, 128-NIA3 of [include/srsran/security/integrity.h] and [lib/security/integrity_engine_nia2_*.cpp].
    AES comes from mbedtls, which the repository does not contain: the class [Mbedtls] holds the calls that
    are made, [MbedtlsLaws] what their documentation says of the results. A message is the list of its
    octets; the segments of its byte buffer are not told apart.

    [security_nea1_stream], [security_nea3_stream]: the ciphers of the code xor the message with a
    key stream that depends on key, COUNT, bearer and direction only. [nia2_non_cmac_rfc]: the AES-CMAC
    written out in the code is that of RFC 4493. *)

From S2P Require Import Prelude BitEncoding Security Snow3g Zuc.

(** ** mbedtls *)
Class Mbedtls := {
  mbedtls_cmac_c : bool;                                  (* MBEDTLS_CMAC_C *)
  aes_crypt_ecb : bytes -> bytes -> bytes;                (* key, block *)
  aes_ctr_stream : bytes -> bytes -> nat -> bytes;        (* key, counter block, octets *)
  aes_ctr_accepts : bytes -> bytes -> nat -> bool;        (* aes_crypt_ctr returns 0 *)
  cipher_cmac : bytes -> bytes -> option bytes            (* key, data; [None]: an error code *)
}.

(** AES maps blocks to blocks; counter mode makes as many octets as it is asked for; a CMAC is a block. *)
Class MbedtlsLaws (M : Mbedtls) : Prop := {
  ecb_block key block : length (aes_crypt_ecb key block) = 16%nat /\ is_bytes (aes_crypt_ecb key block);
  ctr_octets key nonce n : length (aes_ctr_stream key nonce n) = n /\ is_bytes (aes_ctr_stream key nonce n);
  cmac_block key data mac : cipher_cmac key data = Some mac -> length mac = 16%nat /\ is_bytes mac
}.

(** ** Octets of words *)
Definition count_bytes (count : Z) : bytes :=
  [Z.land (Z.shiftr count 24) 0xff; Z.land (Z.shiftr count 16) 0xff; Z.land (Z.shiftr count 8) 0xff; Z.land count 0xff].

Definition xor_bytes (l ks : bytes) : bytes := zip_with Z.lxor l ks.

(** [msg[offset] ^= x] *)
Definition xor_at (msg : bytes) (offset x : Z) : outcome bytes :=
  if offset <? 0 then fail invalid_access
  else match msg !! Z.to_nat offset with
       | None => fail invalid_access
       | Some m => ok (<[Z.to_nat offset := Z.lxor m x]> msg)
       end.

(** "Generate output except last block" *)
Fixpoint xor_words (ws : list Z) (msg : bytes) (offset : Z) : outcome (bytes * Z) :=
  match ws with
  | [] => ok (msg, offset)
  | w :: ws =>
      msg ← xor_at msg offset (Z.land (Z.shiftr w 24) 0xff);
      msg ← xor_at msg (offset + 1) (Z.land (Z.shiftr w 16) 0xff);
      msg ← xor_at msg (offset + 2) (Z.land (Z.shiftr w 8) 0xff);
      msg ← xor_at msg (offset + 3) (Z.land w 0xff);
      xor_words ws msg (offset + 4)
  end.

(** "process last bytes": [n] turns from [i] on. *)
Fixpoint xor_last_bytes (n : nat) (ks : list Z) (i : Z) (msg : bytes) (offset : Z) : outcome (bytes * Z) :=
  match n with
  | O => ok (msg, offset)
  | S n =>
      if i <? 0 then fail invalid_access
      else
        msg ← xor_at msg offset (Z.land (Z.shiftr (arr ks (i / 4)) ((3 - i mod 4) * 8)) 0xff);
        xor_last_bytes n ks (i + 1) msg (offset + 1)
  end.

(** [zero_tailing_bits(msg[idx], msg_len)]; the second argument is a [uint8_t]. *)
Definition zero_tailing_bits (msg : bytes) (idx msg_len : Z) : outcome bytes :=
  let bits := Z.land (8 - Z.land (u8 msg_len) 7) 7 in
  if idx <? 0 then fail invalid_access
  else match msg !! Z.to_nat idx with
       | None => fail invalid_access
       | Some m => ok (<[Z.to_nat idx := Z.land m (u8 (Z.shiftl 0xff bits))]> msg)
       end.

(** The two output loops, which NEA1 and NEA3 share. *)
Definition apply_keystream (ks : list Z) (msg : bytes) (msg_len_block_8 msg_len_block_32 : Z) : outcome (bytes * Z) :=
  '(msg, offset) ← xor_words (take (Z.to_nat (msg_len_block_32 - 1)) ks) msg 0;
  let i := (msg_len_block_32 - 1) * 4 in
  xor_last_bytes (Z.to_nat (msg_len_block_8 - i)) ks i msg offset.

(** ** Ciphering *)
Definition security_nea1 (key : bytes) (count bearer : Z) (direction : security_direction) (msg : bytes) (msg_len : Z)
    : outcome bytes :=
  let msg_len_block_8 := u32 (msg_len + 7) / 8 in
  let msg_len_block_32 := u32 (msg_len + 31) / 32 in
  if msg_len_block_8 <=? zlen msg then
    let iv2 := Z.lor (Z.shiftl (Z.land bearer 0x1f) 27) (Z.shiftl (Z.land (direction_to_number direction) 1) 26) in
    let iv := [iv2; count; iv2; count] in
    let ks := s3g_generate_keystream (s3g_initialize (s3g_key_words key) iv) msg_len_block_32 in
    '(msg, offset) ← apply_keystream ks msg msg_len_block_8 msg_len_block_32;
    zero_tailing_bits msg (offset - 1) msg_len
  else ok msg.

(** [nonce_cnt] *)
Definition nea2_nonce (count bearer : Z) (direction : security_direction) : bytes :=
  count_bytes count ++
  [Z.lor (Z.shiftl (Z.land bearer 0x1f) 3) (Z.shiftl (Z.land (direction_to_number direction) 1) 2);
   0; 0; 0; 0; 0; 0; 0; 0; 0; 0; 0].

(** [ciphering_engine_nea2::apply_ciphering] on the octets behind the header. *)
Definition nea2_apply `{Mbedtls} (key : bytes) (count bearer : Z) (direction : security_direction) (msg : bytes)
    : option bytes :=
  let nonce := nea2_nonce count bearer direction in
  if aes_ctr_accepts key nonce (length msg)
  then Some (xor_bytes msg (aes_ctr_stream key nonce (length msg)))
  else None.

Definition security_nea3 (key : bytes) (count bearer : Z) (direction : security_direction) (msg : bytes) (msg_len : Z)
    : outcome bytes :=
  let msg_len_block_8 := u32 (msg_len + 7) / 8 in
  let msg_len_block_32 := u32 (msg_len + 31) / 32 in
  if msg_len_block_8 <=? zlen msg then
    let iv_half := count_bytes count ++
      [Z.lor (Z.shiftl (Z.land bearer 0x1f) 3) (Z.shiftl (Z.land (direction_to_number direction) 1) 2); 0; 0; 0] in
    let iv := iv_half ++ iv_half in
    let ks := zuc_generate_keystream (zuc_initialize key iv) msg_len_block_32 in
    '(msg, _) ← apply_keystream ks msg msg_len_block_8 msg_len_block_32;
    zero_tailing_bits msg (zlen msg - 1) msg_len
  else ok msg.

(** ** Integrity *)
Definition zero_mac : bytes := [0; 0; 0; 0].

Definition security_nia1 (key : bytes) (count bearer : Z) (direction : security_direction) (msg : bytes) (msg_len : Z)
    : outcome bytes :=
  if u32 (msg_len + 7) / 8 <=? zlen msg
  then s3g_f9 key count (u32 (Z.shiftl bearer 27)) (direction_to_number direction) msg msg_len
  else ok zero_mac.

(** The eight octets in front of the message. *)
Definition nia2_preamble (count bearer : Z) (direction : security_direction) : bytes :=
  count_bytes count ++
  [u8 (Z.lor (Z.shiftl bearer 3) (Z.shiftl (direction_to_number direction) 2)); 0; 0; 0].

(** [integrity_engine_nia2_cmac::compute_mac] *)
Definition nia2_cmac_compute_mac `{Mbedtls} (key : bytes) (count bearer : Z) (direction : security_direction) (v : bytes)
    : option bytes :=
  take 4 <$> cipher_cmac key (nia2_preamble count bearer direction ++ v).

(** Subkey generation: a shift to the left by one bit, with reduction. *)
Definition cmac_subkey (l : bytes) : bytes :=
  let shifted := (fun i => Z.lor (u8 (Z.shiftl (arr l i) 1)) (Z.land (Z.shiftr (arr l (i + 1)) 7) 1)) <$> seqZ 0 15 in
  let k15 := u8 (Z.shiftl (arr l 15) 1) in
  shifted ++ [if negb (Z.land (arr l 0) 0x80 =? 0) then Z.lxor k15 0x87 else k15].

(** [for (i = 0; i < n - 1; i++)] of the MAC generation. *)
Fixpoint cmac_blocks `{Mbedtls} (n : nat) (i : Z) (key msg tmp_mac : bytes) : bytes :=
  match n with
  | O => tmp_mac
  | S n => cmac_blocks n (i + 1) key msg (aes_crypt_ecb key (xor_bytes tmp_mac (slice msg (i * 16) 16)))
  end.

(** [integrity_engine_nia2_non_cmac::compute_mac]. For the lengths the assertion admits, [ceilf] of the
    quotient of two [float]s is exact. *)
Definition nia2_non_cmac_compute_mac `{Mbedtls} (key : bytes) (count bearer : Z) (direction : security_direction) (v : bytes)
    : outcome bytes :=
  let k1 := cmac_subkey (aes_crypt_ecb key (replicate 16 0)) in
  let k2 := cmac_subkey k1 in
  let len := zlen v in
  srsran_assert (len + 8 + 16 <=? sec_max_pdu_size);;
  let msg := nia2_preamble count bearer direction ++ v ++ replicate 16 0 in
  let n := (len + 8 + 15) / 16 in
  let tmp_mac := cmac_blocks (Z.to_nat (n - 1)) 0 key msg (replicate 16 0) in
  let pad_bits := (len * 8 + 64) mod 128 in
  if pad_bits =? 0 then
    ok (take 4 (aes_crypt_ecb key (xor_bytes (xor_bytes tmp_mac k1) (slice msg ((n - 1) * 16) 16))))
  else
    let pad_bits := 128 - pad_bits - 1 in
    let o := Z.to_nat ((n - 1) * 16 + (15 - pad_bits / 8)) in
    let msg := <[o := Z.lor (arr msg (Z.of_nat o)) (Z.shiftl 1 (pad_bits mod 8))]> msg in
    ok (take 4 (aes_crypt_ecb key (xor_bytes (xor_bytes tmp_mac k2) (slice msg ((n - 1) * 16) 16)))).

(** [GET_WORD(DATA, i)]: 32 bits from bit [i] on. *)
Definition GET_WORD (DATA : list Z) (i : Z) : outcome Z :=
  let ti := i mod 32 in
  match DATA !! Z.to_nat (i / 32), DATA !! Z.to_nat (i / 32 + 1) with
  | Some d, d' =>
      if ti =? 0 then ok d
      else match d' with
           | Some d' => ok (Z.lor (u32 (Z.shiftl d ti)) (Z.shiftr d' (32 - ti)))
           | None => fail invalid_access
           end
  | None, _ => fail invalid_access
  end.

(** [for (uint32_t i = 0; i < msg_len; i++)]: [n] turns from [i] on. *)
Fixpoint nia3_loop (n : nat) (i : Z) (msg : bytes) (ks : list Z) (T : Z) : outcome Z :=
  match n with
  | O => ok T
  | S n =>
      match msg !! Z.to_nat (i / 8) with
      | None => fail invalid_access
      | Some m =>
          T ← (if negb (Z.land m (Z.shiftl 1 (7 - i mod 8)) =? 0)
               then w ← GET_WORD ks i; ok (Z.lxor T w) else ok T);
          nia3_loop n (i + 1) msg ks T
      end
  end.

Definition security_nia3 (key : bytes) (count bearer : Z) (direction : security_direction) (msg : bytes) (msg_len : Z)
    : outcome bytes :=
  if u32 (msg_len + 7) / 8 <=? zlen msg then
    let iv4 := Z.land (Z.shiftl bearer 3) 0xf8 in
    let dir := Z.shiftl (Z.land (direction_to_number direction) 1) 7 in
    let c := count_bytes count in
    let iv := c ++ [iv4; 0; 0; 0]
              ++ [Z.lxor (arr c 0) dir; arr c 1; arr c 2; arr c 3; iv4; 0; Z.lxor 0 dir; 0] in
    let L := (msg_len + 64 + 31) / 32 in
    let ks := zuc_generate_keystream (zuc_initialize key iv) L in
    T ← nia3_loop (Z.to_nat msg_len) 0 msg ks 0;
    w ← GET_WORD ks msg_len;
    let mac_tmp := Z.lxor (Z.lxor T w) (arr ks (L - 1)) in
    ok (count_bytes mac_tmp)
  else ok zero_mac.

(** ** The ciphers as key streams *)

(** Octet [i] of the key stream with the words [ks]. *)
Definition ks_byte (ks : list Z) (i : Z) : Z := Z.land (Z.shiftr (arr ks (i / 4)) ((3 - i mod 4) * 8)) 0xff.

Definition ks_bytes (ks : list Z) (i n : Z) : bytes := ks_byte ks <$> seqZ i n.

Lemma land_ff_byte x : is_byte (Z.land x 0xff).
Proof. unfold is_byte. change 0xff with (2 ^ 8 - 1). rewrite land_mask by lia. apply Z.mod_pos_bound. lia. Qed.

Lemma count_bytes_bytes x : is_bytes (count_bytes x).
Proof. repeat constructor; apply land_ff_byte. Qed.

Lemma ks_bytes_bytes ks i n : is_bytes (ks_bytes ks i n).
Proof. apply Forall_fmap, Forall_true. intros j. apply land_ff_byte. Qed.

Lemma ks_bytes_length ks i n : length (ks_bytes ks i n) = Z.to_nat n.
Proof. unfold ks_bytes. by rewrite length_fmap, length_seqZ. Qed.

Lemma lxor_byte x y : is_byte x -> is_byte y -> is_byte (Z.lxor x y).
Proof.
  unfold is_byte. intros Hx Hy. assert (0 <= Z.lxor x y) by (apply Z.lxor_nonneg; lia). split; [done|].
  destruct (decide (Z.lxor x y = 0)); [lia|].
  apply (Z.log2_lt_cancel _ 256). pose proof (Z.log2_lxor x y).
  assert (Hl : forall z, 0 <= z < 256 -> Z.log2 z < 8).
  { intros z Hz. destruct (decide (z = 0)) as [->|]; [done|]. apply Z.log2_lt_pow2; lia. }
  pose proof (Hl x Hx). pose proof (Hl y Hy). change (Z.log2 256) with 8. lia.
Qed.

Lemma xor_bytes_bytes l ks : is_bytes l -> is_bytes ks -> is_bytes (xor_bytes l ks).
Proof.
  intros Hl. revert ks. induction Hl as [|x l Hx Hl IH]; intros [|k ks] Hk; try constructor.
  - apply lxor_byte; [done|]. by inversion Hk.
  - apply IH. by inversion Hk.
Qed.

Lemma xor_bytes_length l ks : length ks = length l -> length (xor_bytes l ks) = length l.
Proof. intros E. unfold xor_bytes. rewrite length_zip_with. lia. Qed.

(** Applied twice the key stream cancels. *)
Lemma xor_bytes_involutive l ks : length ks = length l -> xor_bytes (xor_bytes l ks) ks = l.
Proof.
  revert ks. induction l as [|x l IH]; intros [|k ks] E; try done. simpl. f_equal.
  - by rewrite Z.lxor_assoc, Z.lxor_nilpotent, Z.lxor_0_r.
  - apply IH. simpl in E. lia.
Qed.

Lemma xor_at_app A m rest o x : o = zlen A -> xor_at (A ++ m :: rest) o x = ok (A ++ Z.lxor m x :: rest).
Proof.
  intros ->. unfold xor_at. zfalse. rewrite Nat2Z.id, list_lookup_middle by done.
  by rewrite insert_app_r_alt, Nat.sub_diag by lia.
Qed.

Lemma xor_bytes_cons m rest k ks : xor_bytes (m :: rest) (k :: ks) = Z.lxor m k :: xor_bytes rest ks.
Proof. done. Qed.

(** The word loop, from word [j] on. *)
Lemma xor_words_spec ks ws j A rest :
  0 <= j -> (forall t, (t < length ws)%nat -> arr ws (Z.of_nat t) = arr ks (j + Z.of_nat t)) ->
  4 * zlen ws <= zlen rest ->
  xor_words ws (A ++ rest) (zlen A) =
    ok (A ++ xor_bytes (take (4 * length ws) rest) (ks_bytes ks (4 * j) (4 * zlen ws)) ++ drop (4 * length ws) rest,
        zlen A + 4 * zlen ws).
Proof.
  revert j A rest. induction ws as [|w ws IH]; intros j A rest Hj Hws Hlen.
  { change (4 * zlen ([] : list Z)) with 0. change (4 * length ([] : list Z))%nat with 0%nat.
    unfold ks_bytes. rewrite seqZ_nil by lia. cbn [xor_words take drop fmap list_fmap xor_bytes zip_with app].
    by rewrite Z.add_0_r. }
  destruct rest as [|m0 [|m1 [|m2 [|m3 rest]]]]; simpl length in Hlen; try lia.
  assert (Hw : w = arr ks j).
  { specialize (Hws 0%nat ltac:(simpl; lia)). cbn in Hws. by rewrite Z.add_0_r in Hws. }
  cbn [xor_words]. rewrite xor_at_app, bind_ok by done.
  set (x0 := Z.lxor m0 _). rewrite (cons_middle x0), app_assoc, xor_at_app, bind_ok by (rewrite length_app; simpl; lia).
  set (x1 := Z.lxor m1 _). rewrite (cons_middle x1), app_assoc, xor_at_app, bind_ok by (rewrite !length_app; simpl; lia).
  set (x2 := Z.lxor m2 _). rewrite (cons_middle x2), app_assoc, xor_at_app, bind_ok by (rewrite !length_app; simpl; lia).
  set (x3 := Z.lxor m3 _). rewrite (cons_middle x3), app_assoc.
  replace (zlen A + 4) with (zlen ((((A ++ [x0]) ++ [x1]) ++ [x2]) ++ [x3])) by (rewrite !length_app; simpl; lia).
  rewrite (IH (j + 1)).
  - f_equal. f_equal; [|rewrite !length_app; simpl length; lia]. rewrite <- !app_assoc. f_equal.
    assert (E1 : 4 * zlen (w :: ws) = 4 + 4 * zlen ws) by (simpl length; lia).
    assert (E2 : (4 * length (w :: ws))%nat = S (S (S (S (4 * length ws))))) by (simpl length; lia).
    rewrite E1, E2. set (L := (4 * length ws)%nat). cbn [take drop app]. unfold ks_bytes.
    rewrite (seqZ_app (4 * j)) by lia. rewrite fmap_app.
    replace (4 * j + 4) with (4 * (j + 1)) by lia.
    assert (E4 : ks_byte ks <$> seqZ (4 * j) 4 =
      [Z.land (Z.shiftr w 24) 0xff; Z.land (Z.shiftr w 16) 0xff; Z.land (Z.shiftr w 8) 0xff; Z.land w 0xff]).
    { rewrite !seqZ_cons, seqZ_nil by lia. cbn [fmap list_fmap]. unfold ks_byte. rewrite Hw.
      replace (4 * j / 4) with j by divmod. replace (Z.succ (4 * j) / 4) with j by divmod.
      replace (Z.succ (Z.succ (4 * j)) / 4) with j by divmod.
      replace (Z.succ (Z.succ (Z.succ (4 * j))) / 4) with j by divmod.
      replace (4 * j mod 4) with 0 by divmod. replace (Z.succ (4 * j) mod 4) with 1 by divmod.
      replace (Z.succ (Z.succ (4 * j)) mod 4) with 2 by divmod.
      replace (Z.succ (Z.succ (Z.succ (4 * j))) mod 4) with 3 by divmod. done. }
    rewrite E4. cbn [app]. rewrite !xor_bytes_cons. done.
  - lia.
  - intros t Ht. specialize (Hws (S t) ltac:(simpl; lia)).
    replace (j + 1 + Z.of_nat t) with (j + Z.of_nat (S t)) by lia. rewrite <- Hws. unfold arr.
    rewrite !Nat2Z.id. done.
  - simpl length. lia.
Qed.

Lemma xor_last_bytes_spec n ks i A rest :
  0 <= i -> (n <= length rest)%nat ->
  xor_last_bytes n ks i (A ++ rest) (zlen A) =
    ok (A ++ xor_bytes (take n rest) (ks_bytes ks i (Z.of_nat n)) ++ drop n rest, zlen A + Z.of_nat n).
Proof.
  revert i A rest. induction n as [|n IH]; intros i A rest Hi Hn.
  { unfold ks_bytes. rewrite seqZ_nil by lia. cbn [xor_last_bytes take drop fmap list_fmap xor_bytes zip_with app].
    by rewrite Z.add_0_r. }
  destruct rest as [|m rest]; simpl in Hn; [lia|]. cbn [xor_last_bytes]. zfalse. rewrite xor_at_app, bind_ok by done.
  set (x := Z.lxor m _). rewrite (cons_middle x), app_assoc.
  replace (zlen A + 1) with (zlen (A ++ [x])) by (rewrite length_app; simpl; lia).
  rewrite IH by lia. f_equal. f_equal; [|rewrite length_app; simpl length; lia]. rewrite <- app_assoc. f_equal.
  unfold ks_bytes. rewrite (seqZ_cons i) by lia. cbn [take drop app fmap list_fmap]. rewrite xor_bytes_cons.
  replace (Z.pred (Z.of_nat (S n))) with (Z.of_nat n) by lia. done.
Qed.

(** Both loops together: the message xored with the key stream. *)
Lemma apply_keystream_spec ks msg :
  msg <> [] -> length ks = Z.to_nat ((zlen msg + 3) / 4) ->
  apply_keystream ks msg (zlen msg) ((zlen msg + 3) / 4) = ok (xor_bytes msg (ks_bytes ks 0 (zlen msg)), zlen msg).
Proof.
  intros Hne Hks. assert (Hpos : 0 < zlen msg) by (destruct msg; [done|simpl; lia]).
  unfold apply_keystream. set (n := (zlen msg + 3) / 4 - 1). assert (Hn : 0 <= n /\ 4 * n < zlen msg <= 4 * n + 4) by (subst n; divmod).
  assert (Hlen : length (take (Z.to_nat n) ks) = Z.to_nat n) by (rewrite length_take; lia).
  pose proof (xor_words_spec ks (take (Z.to_nat n) ks) 0 [] msg) as Hw. rewrite Hlen in Hw. cbn [app] in Hw.
  change (zlen ([] : bytes)) with 0 in Hw. rewrite Hw; [|lia| |lia].
  2:{ intros t Ht. unfold arr. rewrite Z.add_0_l, !Nat2Z.id, !nth_lookup. by rewrite lookup_take_lt by lia. }
  rewrite bind_ok. cbn [app fst snd]. rewrite Z.add_0_l. replace (4 * Z.of_nat (Z.to_nat n)) with (4 * n) by lia.
  set (k := (4 * Z.to_nat n)%nat). set (A := xor_bytes (take k msg) _).
  assert (HA : zlen A = 4 * n).
  { subst A. rewrite xor_bytes_length; rewrite ?ks_bytes_length, length_take; lia. }
  rewrite <- HA. rewrite (Z.mul_comm n 4), <- HA, xor_last_bytes_spec by (rewrite ?length_drop; lia).
  rewrite HA. replace (Z.of_nat (Z.to_nat (zlen msg - 4 * n))) with (zlen msg - 4 * n) by lia.
  f_equal. f_equal; [|lia]. rewrite (drop_ge (drop k msg)), app_nil_r by (rewrite length_drop; lia).
  rewrite take_ge by (rewrite length_drop; lia).
  assert (Es : ks_bytes ks 0 (zlen msg) = ks_bytes ks 0 (4 * n) ++ ks_bytes ks (4 * n) (zlen msg - 4 * n)).
  { unfold ks_bytes. rewrite <- fmap_app. f_equal. replace (zlen msg) with (4 * n + (zlen msg - 4 * n)) at 1 by lia.
    by rewrite seqZ_app by lia. }
  rewrite Es. transitivity (xor_bytes (take k msg ++ drop k msg)
    (ks_bytes ks 0 (4 * n) ++ ks_bytes ks (4 * n) (zlen msg - 4 * n))); [|by rewrite take_drop].
  unfold xor_bytes. rewrite zip_with_app; [done|]. rewrite ks_bytes_length, length_take. lia.
Qed.

Lemma zero_tailing_bits_whole msg idx :
  is_bytes msg -> 0 <= idx < zlen msg -> zero_tailing_bits msg idx (u32 (zlen msg * 8)) = ok msg.
Proof.
  intros Hm Hi. unfold zero_tailing_bits. zfalse.
  assert (E : u8 (u32 (zlen msg * 8)) mod 8 = 0) by (unfold u8, u32; divmod).
  change 7 with (2 ^ 3 - 1). rewrite !land_mask by lia. change (2 ^ 3) with 8. rewrite E.
  change (Z.shiftl 255 ((8 - 0) mod 8)) with 255.
  destruct (msg !! Z.to_nat idx) as [m|] eqn:Em; [|apply lookup_ge_None in Em; lia].
  f_equal. change (u8 255) with (2 ^ 8 - 1). rewrite land_mask, Z.mod_small by (lia || by eapply Forall_lookup_1 in Hm).
  by apply list_insert_id.
Qed.

(** The key streams of the ciphers, [n] octets of them. *)
Definition nea1_stream (key : bytes) (count bearer : Z) (direction : security_direction) (n : Z) : bytes :=
  let iv2 := Z.lor (Z.shiftl (Z.land bearer 0x1f) 27) (Z.shiftl (Z.land (direction_to_number direction) 1) 26) in
  ks_bytes (s3g_generate_keystream (s3g_initialize (s3g_key_words key) [iv2; count; iv2; count]) ((n + 3) / 4)) 0 n.

Definition nea3_stream (key : bytes) (count bearer : Z) (direction : security_direction) (n : Z) : bytes :=
  let iv_half := count_bytes count ++
    [Z.lor (Z.shiftl (Z.land bearer 0x1f) 3) (Z.shiftl (Z.land (direction_to_number direction) 1) 2); 0; 0; 0] in
  ks_bytes (zuc_generate_keystream (zuc_initialize key (iv_half ++ iv_half)) ((n + 3) / 4)) 0 n.

Lemma s3g_generate_keystream_length s n : length (s3g_generate_keystream s n) = Z.to_nat n.
Proof.
  unfold s3g_generate_keystream. destruct (s3g_clock_fsm s) as [f s1]. generalize (s3g_clock_lfsr s1 0).
  induction (Z.to_nat n) as [|k IH]; intros s'; [done|]. cbn [s3g_keystream_loop].
  destruct (s3g_clock_fsm s') as [f' s2]. simpl. by rewrite IH.
Qed.

Lemma zuc_generate_keystream_length s n : length (zuc_generate_keystream s n) = Z.to_nat n.
Proof.
  unfold zuc_generate_keystream. destruct (zuc_F _) as [f s1]. generalize (LFSRWithWorkMode s1).
  induction (Z.to_nat n) as [|k IH]; intros s'; [done|]. cbn [zuc_keystream_loop].
  destruct (zuc_F _) as [f' s2]. simpl. by rewrite IH.
Qed.

(** The block counts of a whole message. *)
Lemma whole_message_blocks (msg : bytes) :
  zlen msg < 2 ^ 28 ->
  u32 (u32 (zlen msg * 8) + 7) / 8 = zlen msg /\ u32 (u32 (zlen msg * 8) + 31) / 32 = (zlen msg + 3) / 4.
Proof. intros. rewrite !(u32_small (zlen msg * 8)), !u32_small by lia. split; divmod. Qed.

Lemma security_nea1_stream key count bearer dir msg :
  is_bytes msg -> msg <> [] -> zlen msg < 2 ^ 28 ->
  security_nea1 key count bearer dir msg (u32 (zlen msg * 8)) =
    ok (xor_bytes msg (nea1_stream key count bearer dir (zlen msg))).
Proof.
  intros Hm Hne Hlen. unfold security_nea1, nea1_stream. destruct (whole_message_blocks msg Hlen) as [-> ->].
  rewrite Z.leb_refl. cbv zeta. set (ks := s3g_generate_keystream _ _).
  assert (Hks : length ks = Z.to_nat ((zlen msg + 3) / 4)) by apply s3g_generate_keystream_length.
  rewrite apply_keystream_spec by done. rewrite bind_ok. cbv beta iota.
  assert (Hl : length (xor_bytes msg (ks_bytes ks 0 (zlen msg))) = length msg)
    by (rewrite xor_bytes_length; [done|rewrite ks_bytes_length; lia]).
  rewrite ?Hl. set (out := xor_bytes _ _) in *.
  pose proof (zero_tailing_bits_whole out (zlen msg - 1)) as Hz. rewrite Hl in Hz. apply Hz.
  - apply xor_bytes_bytes; [done|apply ks_bytes_bytes].
  - destruct msg; [done|simpl; lia].
Qed.

Lemma security_nea3_stream key count bearer dir msg :
  is_bytes msg -> msg <> [] -> zlen msg < 2 ^ 28 ->
  security_nea3 key count bearer dir msg (u32 (zlen msg * 8)) =
    ok (xor_bytes msg (nea3_stream key count bearer dir (zlen msg))).
Proof.
  intros Hm Hne Hlen. unfold security_nea3, nea3_stream. destruct (whole_message_blocks msg Hlen) as [-> ->].
  rewrite Z.leb_refl. cbv zeta. set (ks := zuc_generate_keystream _ _).
  assert (Hks : length ks = Z.to_nat ((zlen msg + 3) / 4)) by apply zuc_generate_keystream_length.
  rewrite apply_keystream_spec by done. rewrite bind_ok. cbv beta iota.
  assert (Hl : length (xor_bytes msg (ks_bytes ks 0 (zlen msg))) = length msg)
    by (rewrite xor_bytes_length; [done|rewrite ks_bytes_length; lia]).
  rewrite ?Hl. set (out := xor_bytes _ _) in *.
  pose proof (zero_tailing_bits_whole out (zlen msg - 1)) as Hz. rewrite Hl in Hz. apply Hz.
  - apply xor_bytes_bytes; [done|apply ks_bytes_bytes].
  - destruct msg; [done|simpl; lia].
Qed.

(** ** The MACs *)

Lemma security_nia1_total key count bearer dir msg :
  msg <> [] -> zlen msg < 2 ^ 28 ->
  exists mac, security_nia1 key count bearer dir msg (u32 (zlen msg * 8)) = ok mac /\ length mac = 4%nat /\ is_bytes mac.
Proof.
  intros Hne Hlen. unfold security_nia1. destruct (whole_message_blocks msg Hlen) as [-> _]. rewrite Z.leb_refl.
  rewrite (u32_small (zlen msg * 8)) by lia. destruct (s3g_f9_total key count (u32 (Z.shiftl bearer 27)) (direction_to_number dir) msg)
    as (mac & -> & Hl & Hm); [done..|]. exists mac. done.
Qed.

Lemma GET_WORD_total ks i : 0 <= i -> i / 32 + 1 < zlen ks -> exists w, GET_WORD ks i = ok w.
Proof.
  intros Hi Hl. assert (0 <= i / 32) by (apply Z.div_pos; lia). unfold GET_WORD.
  destruct (lookup_lt_is_Some_2 ks (Z.to_nat (i / 32))) as [d ->]; [lia|].
  destruct (lookup_lt_is_Some_2 ks (Z.to_nat (i / 32 + 1))) as [d' ->]; [lia|].
  destruct (_ =? 0); by eexists.
Qed.

Lemma nia3_loop_total n i msg ks T :
  0 <= i -> i + Z.of_nat n <= 8 * zlen msg -> (i + Z.of_nat n) / 32 + 1 < zlen ks ->
  exists r, nia3_loop n i msg ks T = ok r.
Proof.
  revert i T. induction n as [|n IH]; intros i T Hi Hm Hk; [by eexists|]. cbn [nia3_loop].
  destruct (lookup_lt_is_Some_2 msg (Z.to_nat (i / 8))) as [m ->]; [divmod|].
  destruct (GET_WORD_total ks i) as [w Ew]; [done|divmod|].
  destruct (negb _); rewrite ?Ew, ?bind_ok; apply IH; lia || (rewrite ?Nat2Z.inj_succ in *; replace (i + 1 + Z.of_nat n) with (i + Z.succ (Z.of_nat n)) by lia; lia).
Qed.

Lemma security_nia3_total key count bearer dir msg :
  zlen msg < 2 ^ 28 ->
  exists mac, security_nia3 key count bearer dir msg (u32 (zlen msg * 8)) = ok mac /\ length mac = 4%nat /\ is_bytes mac.
Proof.
  intros Hlen. unfold security_nia3. destruct (whole_message_blocks msg Hlen) as [-> _]. rewrite Z.leb_refl. cbv zeta.
  rewrite !(u32_small (zlen msg * 8)) by lia. set (ks := zuc_generate_keystream _ _).
  assert (Hks : zlen ks = (zlen msg * 8 + 64 + 31) / 32).
  { subst ks. rewrite zuc_generate_keystream_length, Z2Nat.id; [done|divmod]. }
  destruct (nia3_loop_total (Z.to_nat (zlen msg * 8)) 0 msg ks 0) as [T ->]; [lia|lia|rewrite Hks; divmod|]. rewrite bind_ok.
  destruct (GET_WORD_total ks (zlen msg * 8)) as [w ->]; [lia|rewrite Hks; divmod|]. rewrite bind_ok.
  eexists. split; [done|]. split; [done|apply count_bytes_bytes].
Qed.

(** ** AES-CMAC as RFC 4493 defines it *)
Section rfc4493.
Context `{HM : Mbedtls} {HL : MbedtlsLaws HM}.

(** Section 2.3, on 128-bit values: the shift is one of the whole value, R_128 is 0x87. *)
Definition rfc_double (l : bytes) : bytes :=
  let v := be_value l in
  let d := (2 * v) mod 2 ^ 128 in
  let d := if v <? 2 ^ 127 then d else Z.lxor d 0x87 in
  (fun i => (d / 2 ^ (8 * (15 - i))) mod 256) <$> seqZ 0 16.

(** Section 2.4. [M_last]: the last block, padded with a one and zeros when it is not complete. *)
Fixpoint rfc_cbc (n : nat) (key M X : bytes) : bytes :=
  match n with
  | O => X
  | S n => rfc_cbc n key (drop 16 M) (aes_crypt_ecb key (xor_bytes X (take 16 M)))
  end.

Definition rfc_cmac (key M : bytes) : bytes :=
  let K1 := rfc_double (aes_crypt_ecb key (replicate 16 0)) in
  let K2 := rfc_double K1 in
  let n := Nat.max 1 ((length M + 15) / 16) in
  let last := drop (16 * (n - 1)) M in
  let M_last := if bool_decide (length last = 16%nat) then xor_bytes last K1
                else xor_bytes (last ++ 128 :: replicate (15 - length last) 0) K2 in
  aes_crypt_ecb key (xor_bytes (rfc_cbc (n - 1) key M (replicate 16 0)) M_last).

(** ** Subkeys *)
Lemma subkey_octet hi lo : is_byte hi -> is_byte lo ->
  Z.lor (u8 (Z.shiftl hi 1)) (Z.land (Z.shiftr lo 7) 1) = (2 * hi + lo / 128) mod 256.
Proof using Type.
  unfold is_byte, u8. intros Hh Hl. rewrite Z.shiftl_mul_pow2, Z.shiftr_div_pow2, (land_mask _ 1) by lia.
  change (2 ^ 1) with 2. change (2 ^ 7) with 128. change (2 ^ 8) with 256.
  rewrite (Z.mod_small (lo / 128)) by divmod.
  assert (E : (hi * 2) mod 256 = Z.shiftl (hi mod 128) 1) by (rewrite Z.shiftl_mul_pow2 by lia; divmod).
  rewrite E, lor_shiftl_add by divmod. divmod.
Qed.

(** An octet of twice a value. *)
Lemma double_octet k hi a c lo :
  0 <= k -> is_byte c -> 0 <= lo < 2 ^ k ->
  (2 * (((hi * 256 + a) * 256 + c) * 2 ^ k + lo)) / 2 ^ (k + 8) mod 256 = (2 * a + c / 128) mod 256.
Proof using Type.
  unfold is_byte. intros Hk Hc Hlo. rewrite Z.pow_add_r by lia. change (2 ^ 8) with 256.
  pose proof (Z.div_mod c 128 ltac:(lia)) as Hd. pose proof (Z.mod_pos_bound c 128 ltac:(lia)) as Hm.
  set (q := c / 128) in *. set (r := c mod 128) in *.
  assert (E : 2 * (((hi * 256 + a) * 256 + c) * 2 ^ k + lo) =
    (2 * r * 2 ^ k + 2 * lo) + (2 * (hi * 256 + a) + q) * (2 ^ k * 256)) by (rewrite Hd; ring).
  rewrite E, Z.div_add by nia. rewrite Z.div_small by nia.
  replace (0 + (2 * (hi * 256 + a) + q)) with (2 * a + q + (2 * hi) * 256) by ring. by rewrite Z.mod_add by lia.
Qed.

Lemma mod128_octet x j : 0 <= j -> j + 8 <= 128 -> x mod 2 ^ 128 / 2 ^ j mod 256 = x / 2 ^ j mod 256.
Proof using Type.
  intros Hj Hj'. assert (0 < 2 ^ j) by (apply Z.pow_pos_nonneg; lia).
  assert (E : 2 ^ 128 = 2 ^ (120 - j) * 256 * 2 ^ j).
  { change 256 with (2 ^ 8). rewrite <- !Z.pow_add_r by lia. f_equal. lia. }
  pose proof (Z.div_mod x (2 ^ 128) ltac:(lia)) as Hx. remember (x mod 2 ^ 128) as r. remember (x / 2 ^ 128) as q.
  rewrite E in Hx. assert (Hx' : x = r + (2 ^ (120 - j) * q * 256) * 2 ^ j) by (rewrite Hx; ring).
  rewrite Hx', Z.div_add, Z.mod_add by lia. done.
Qed.

Lemma lxor_low hi lo c : is_byte lo -> is_byte c -> Z.lxor (hi * 256 + lo) c = hi * 256 + Z.lxor lo c.
Proof using Type.
  intros Hlo Hc. assert (Hadd : forall x, is_byte x -> hi * 256 + x = Z.lxor (Z.shiftl hi 8) x).
  { intros x Hx. rewrite <- Z.add_nocarry_lxor by (apply land_shiftl_low; [lia|apply Hx]). by rewrite Z.shiftl_mul_pow2. }
  rewrite !Hadd by (done || by apply lxor_byte). apply Z.lxor_assoc.
Qed.

(** Reduction changes the last octet only. *)
Lemma lxor_reduction_octet d j :
  0 <= j -> Z.lxor d 0x87 / 2 ^ (8 * j) mod 256 = if j =? 0 then Z.lxor (d mod 256) 0x87 else d / 2 ^ (8 * j) mod 256.
Proof using Type.
  intros Hj. pose proof (Z.div_mod d 256 ltac:(lia)) as Hd.
  assert (Hb : is_byte (d mod 256)) by (apply Z.mod_pos_bound; lia).
  assert (Hx : is_byte (Z.lxor (d mod 256) 0x87)) by (apply lxor_byte; done).
  rewrite Hd at 1. rewrite (Z.mul_comm 256), lxor_low by done. unfold is_byte in *. zcases.
  - subst j. change (2 ^ (8 * 0)) with 1. rewrite Z.div_1_r, Z.add_comm, Z.mod_add by lia. by apply Z.mod_small.
  - replace (2 ^ (8 * j)) with (256 * 2 ^ (8 * (j - 1))).
    2:{ change 256 with (2 ^ 8). rewrite <- Z.pow_add_r by lia. f_equal. lia. }
    assert (0 < 2 ^ (8 * (j - 1))) by (apply Z.pow_pos_nonneg; lia).
    rewrite <- !Z.div_div by lia. rewrite (Z.add_comm (d / 256 * 256)), Z.div_add by lia.
    by rewrite (Z.div_small (Z.lxor (d mod 256) 0x87)) by lia.
Qed.

Lemma be_value_at l i a c rest :
  l = take i l ++ a :: c :: rest ->
  be_value l = ((be_value (take i l) * 256 + a) * 256 + c) * 2 ^ (8 * zlen rest) + be_value rest.
Proof using Type.
  intros E. rewrite E at 1. rewrite (cons_middle a), (cons_middle c), !be_value_app.
  change (be_value [a]) with a. change (be_value [c]) with c. rewrite !length_app. simpl length.
  replace (8 * Z.of_nat (1 + (1 + length rest))) with (16 + 8 * zlen rest) by lia.
  replace (8 * Z.of_nat (1 + length rest)) with (8 + 8 * zlen rest) by lia.
  rewrite !Z.pow_add_r by lia. change (2 ^ 16) with 65536. change (2 ^ 8) with 256. ring.
Qed.

Lemma lookup_arr l i : (i < length l)%nat -> l !! i = Some (arr l (Z.of_nat i)).
Proof using Type.
  intros Hi. unfold arr. rewrite Nat2Z.id, nth_lookup. destruct (lookup_lt_is_Some_2 l i Hi) as [x ->]. done.
Qed.

Lemma arr_byte l i : is_bytes l -> is_byte (arr l i).
Proof using Type.
  intros Hl. unfold arr. rewrite nth_lookup. destruct (l !! _) eqn:E; simpl; [by eapply Forall_lookup_1|unfold is_byte; lia].
Qed.

(** Octet [i] of the value shifted by one bit. *)
Lemma doubled_octet l i :
  is_bytes l -> length l = 16%nat -> 0 <= i < 16 ->
  (2 * be_value l) mod 2 ^ 128 / 2 ^ (8 * (15 - i)) mod 256 =
    if i =? 15 then u8 (Z.shiftl (arr l 15) 1)
    else Z.lor (u8 (Z.shiftl (arr l i) 1)) (Z.land (Z.shiftr (arr l (i + 1)) 7) 1).
Proof using Type.
  intros Hb Hl Hi. rewrite mod128_octet by lia. destruct (Z.eqb_spec i 15) as [->|Hne].
  - change (2 ^ (8 * (15 - 15))) with 1. rewrite Z.div_1_r. unfold u8. rewrite Z.shiftl_mul_pow2 by lia.
    assert (Hsnoc : l = take 15 l ++ [arr l 15]).
    { rewrite <- (take_drop 15 l) at 1. f_equal. erewrite (drop_S l _ 15) by (apply (lookup_arr l 15); lia).
      rewrite drop_ge by lia. done. }
    rewrite Hsnoc at 1. rewrite be_value_snoc.
    replace (2 * (be_value (take 15 l) * 256 + arr l 15)) with (arr l 15 * 2 ^ 1 + 2 * be_value (take 15 l) * 256) by (change (2 ^ 1) with 2; ring).
    by rewrite Z.mod_add by lia.
  - rewrite subkey_octet by (by apply arr_byte).
    set (n := Z.to_nat i). assert (Hn : (n < 15)%nat) by lia.
    assert (Hsplit : l = take n l ++ arr l i :: arr l (i + 1) :: drop (S (S n)) l).
    { rewrite <- (take_drop n l) at 1. f_equal.
      rewrite (drop_S l (arr l i) n) by (replace i with (Z.of_nat n) by lia; apply lookup_arr; lia). f_equal.
      apply drop_S. replace (i + 1) with (Z.of_nat (S n)) by lia. apply lookup_arr. lia. }
    rewrite (be_value_at l n _ _ _ Hsplit).
    assert (Hr : zlen (drop (S (S n)) l) = 14 - i) by (rewrite length_drop; lia).
    replace (8 * (15 - i)) with (8 * zlen (drop (S (S n)) l) + 8) by lia.
    apply double_octet; [lia|by apply arr_byte|]. apply be_value_range. by apply Forall_drop.
Qed.

Lemma cmac_subkey_double l : is_bytes l -> length l = 16%nat -> cmac_subkey l = rfc_double l.
Proof using Type.
  intros Hb Hl. unfold cmac_subkey, rfc_double. cbv zeta.
  assert (Hmsb : (be_value l <? 2 ^ 127) = (Z.land (arr l 0) 0x80 =? 0)).
  { change 0x80 with (2 ^ 7). rewrite land_pow2_testbit by lia. rewrite Z.testbit_eqb by lia.
    pose proof (arr_byte l 0 Hb) as H0. unfold is_byte in H0.
    assert (E : l = arr l 0 :: drop 1 l) by (by apply (drop_S l _ 0), (lookup_arr l 0); lia).
    rewrite E at 1. rewrite be_value_cons, length_drop, Hl.
    pose proof (be_value_range (drop 1 l) ltac:(by apply Forall_drop)) as Hr. rewrite length_drop, Hl in Hr.
    change (2 ^ (8 * Z.of_nat (16 - 1))) with (2 ^ 120) in *. change (2 ^ 7) with 128.
    destruct (Z.eqb_spec (arr l 0 / 128 mod 2) 1); simpl; zcases; try done; exfalso.
    - assert (128 <= arr l 0) by divmod. change (2 ^ 127) with (128 * 2 ^ 120) in *. nia.
    - assert (arr l 0 <= 127) by divmod. change (2 ^ 127) with (128 * 2 ^ 120) in *. nia. }
  rewrite Hmsb. change (seqZ 0 16) with (seqZ 0 15 ++ [15]). rewrite fmap_app. cbn [fmap list_fmap].
  pose proof (fun i => doubled_octet l i Hb Hl) as Hd. f_equal.
  - apply list_fmap_ext. intros j x Hx. apply lookup_seqZ in Hx as [-> Hj]. simpl.
    destruct (Z.land (arr l 0) 0x80 =? 0); simpl; rewrite ?lxor_reduction_octet by lia; repeat zfalse;
      (rewrite Hd by lia; by zfalse).
  - f_equal. specialize (Hd 15 ltac:(lia)). change (15 =? 15) with true in Hd. cbv iota in Hd.
    destruct (Z.land (arr l 0) 0x80 =? 0); simpl negb; cbv iota; [by rewrite Hd|].
    rewrite lxor_reduction_octet by lia. change (15 - 15 =? 0) with true. cbv iota. rewrite <- Hd.
    change (2 ^ (8 * (15 - 15))) with 1. by rewrite Z.div_1_r.
Qed.

(** ** The chain of blocks *)
Lemma cmac_blocks_cbc n i key M pad tmp :
  0 <= i -> 16 * (i + Z.of_nat n) <= zlen M ->
  cmac_blocks n i key (M ++ pad) tmp = rfc_cbc n key (drop (Z.to_nat (16 * i)) M) tmp.
Proof using Type.
  revert i tmp. induction n as [|n IH]; intros i tmp Hi Hl; [done|]. cbn [cmac_blocks rfc_cbc].
  rewrite IH by lia. rewrite drop_drop. f_equal; [f_equal; lia|]. f_equal. f_equal. unfold slice.
  replace (Z.to_nat (i * 16)) with (Z.to_nat (16 * i)) by lia. change (Z.to_nat 16) with 16%nat.
  rewrite drop_app_le by lia. rewrite take_app_le by (rewrite length_drop; lia). done.
Qed.

Lemma xor_bytes_swap a k c : xor_bytes (xor_bytes a k) c = xor_bytes a (xor_bytes c k).
Proof using Type.
  revert k c. induction a as [|x a IH]; intros [|y k] [|z c]; try done. simpl. f_equal; [|apply IH].
  rewrite Z.lxor_assoc. f_equal. apply Z.lxor_comm.
Qed.

Lemma nia2_preamble_length count bearer dir : length (nia2_preamble count bearer dir) = 8%nat.
Proof using Type. done. Qed.

(** The last block of the code's buffer: what is left of the message, and the padding bit. *)
Lemma last_block M (n : nat) :
  (16 * (n - 1) <= length M)%nat -> (length M - 16 * (n - 1) < 16)%nat -> (0 < n)%nat ->
  slice (<[length M := 128]> (M ++ replicate 16 0)) ((Z.of_nat n - 1) * 16) 16 =
    drop (16 * (n - 1)) M ++ 128 :: replicate (15 - length (drop (16 * (n - 1)) M)) 0.
Proof using Type.
  intros H1 H2 Hn. change (replicate 16 0) with (0 :: replicate 15 0).
  rewrite insert_app_r_alt, Nat.sub_diag by lia. cbn [list_insert insert]. unfold slice.
  replace (Z.to_nat ((Z.of_nat n - 1) * 16)) with (16 * (n - 1))%nat by lia. change (Z.to_nat 16) with 16%nat.
  rewrite drop_app_le by lia. rewrite take_app, take_ge by (rewrite length_drop; lia). f_equal.
  rewrite length_drop. destruct (16 - (length M - 16 * (n - 1)))%nat as [|k] eqn:Ek; [lia|]. cbn [take]. f_equal.
  rewrite take_replicate. f_equal. lia.
Qed.

(** The message authentication code of the engine is the AES-CMAC of the preamble and the message. *)
Lemma nia2_non_cmac_rfc key count bearer dir v :
  zlen v + 24 <= sec_max_pdu_size ->
  nia2_non_cmac_compute_mac key count bearer dir v = ok (take 4 (rfc_cmac key (nia2_preamble count bearer dir ++ v))).
Proof using HL.
  intros Hlen. unfold nia2_non_cmac_compute_mac. cbv zeta. rewrite srsran_assert_ok by (apply Z.leb_le; lia). rewrite bind_ok.
  rewrite app_assoc. set (M := nia2_preamble count bearer dir ++ v).
  assert (HM8 : zlen M = zlen v + 8) by (subst M; rewrite length_app, nia2_preamble_length; lia).
  unfold rfc_cmac. cbv zeta. destruct (ecb_block key (replicate 16 0)) as [Hl0 Hb0].
  assert (Hd : forall l, is_bytes l -> length l = 16%nat -> is_bytes (rfc_double l) /\ length (rfc_double l) = 16%nat).
  { intros l Hb Hl. split; [|done]. unfold rfc_double. apply Forall_fmap, Forall_true. intros i. apply Z.mod_pos_bound. lia. }
  rewrite (cmac_subkey_double _ Hb0 Hl0). destruct (Hd _ Hb0 Hl0) as [Hb1 Hl1].
  rewrite (cmac_subkey_double _ Hb1 Hl1). set (K1 := rfc_double _). set (K2 := rfc_double K1).
  set (n := Nat.max 1 ((length M + 15) / 16)).
  assert (Hn : Z.of_nat n = (zlen v + 8 + 15) / 16).
  { subst n. rewrite Nat2Z.inj_max, Nat2Z.inj_div, Nat2Z.inj_add, HM8. change (Z.of_nat 15) with 15. change (Z.of_nat 16) with 16.
    rewrite Z.max_r; [done|]. divmod. }
  rewrite <- Hn. assert (Hn1 : 16 * (Z.of_nat n - 1) < zlen M <= 16 * Z.of_nat n) by (rewrite Hn, HM8; divmod).
  replace (Z.to_nat (Z.of_nat n - 1)) with (n - 1)%nat by lia.
  rewrite cmac_blocks_cbc by lia. change (drop (Z.to_nat (16 * 0)) M) with M.
  set (X := rfc_cbc _ _ _ _). set (last := drop (16 * (n - 1)) M).
  assert (Hll : length last = (length M - 16 * (n - 1))%nat) by (subst last; apply length_drop).
  assert (Hpad : (zlen v * 8 + 64) mod 128 = 8 * (zlen last mod 16)).
  { rewrite Hll. rewrite Nat2Z.inj_sub by lia. rewrite Nat2Z.inj_mul, HM8. change (Z.of_nat 16) with 16. divmod. }
  rewrite Hpad. case_bool_decide as E16.
  - rewrite E16. change (8 * (Z.of_nat 16 mod 16) =? 0) with true. cbv iota. rewrite xor_bytes_swap. do 5 f_equal.
    unfold slice. replace (Z.to_nat ((Z.of_nat n - 1) * 16)) with (16 * (n - 1))%nat by lia. change (Z.to_nat 16) with 16%nat.
    rewrite drop_app_le by lia. rewrite take_app_le by (rewrite length_drop; lia). fold last. apply take_ge. lia.
  - rewrite (Z.mod_small (zlen last)) by lia. zfalse. rewrite xor_bytes_swap. do 4 f_equal.
    assert (Ho : Z.to_nat ((Z.of_nat n - 1) * 16 + (15 - (128 - 8 * zlen last - 1) / 8)) = length M) by divmod.
    rewrite Ho. replace ((128 - 8 * zlen last - 1) mod 8) with 7 by divmod. change (Z.shiftl 1 7) with 128.
    assert (Hz : arr (M ++ replicate 16 0) (zlen M) = 0).
    { unfold arr. rewrite Nat2Z.id, nth_lookup, lookup_app_r, Nat.sub_diag by lia. done. }
    rewrite Hz. f_equal. apply last_block; lia.
Qed.
End rfc4493.

(** * Published test vectors

    The test sets of 3GPP for 128-NEA1, 128-NIA1, 128-NEA3 and 128-NIA3 that the repository's own
    tests use ([tests/unittests/security/security_test.cpp]), evaluated on the definitions of
    [SecAlgorithms.v]: tables, registers, modes and the treatment of lengths that are not whole octets. The names are those of
    the tests. *)

Example nea1_testset1 :
security_nea1 [211; 197; 213; 146; 50; 127; 177; 28; 64; 53; 198; 104; 10; 248; 198; 209] 965368244 21 dir_downlink
[152; 27; 166; 130; 76; 27; 251; 26; 180; 133; 71; 32; 41; 183; 29; 128; 140; 227; 62; 44; 195; 192; 181; 252; 31; 61;
   232; 166; 220; 102; 177; 240] 253 =
ok [93; 91; 254; 117; 235; 4; 246; 140; 224; 161; 35; 119; 234; 0; 179; 125; 71; 198; 160; 186; 6; 48; 145; 85; 8;
   106; 133; 156; 67; 65; 179; 120].
Proof. vm_compute. reflexivity. Qed.

Example nea1_testset2 :
security_nea1 [43; 214; 69; 159; 130; 196; 64; 224; 149; 44; 73; 16; 72; 5; 255; 72] 3329599051 12 dir_downlink
[126; 198; 18; 114; 116; 59; 241; 97; 71; 38; 68; 106; 108; 56; 206; 209; 102; 246; 202; 118; 235; 84; 48; 4; 66; 134;
   52; 108; 239; 19; 15; 146; 146; 43; 3; 69; 13; 58; 153; 117; 229; 189; 46; 160; 235; 85; 173; 142; 27; 25; 158; 62;
   196; 49; 96; 32; 233; 161; 178; 133; 231; 98; 121; 83; 89; 183; 189; 253; 57; 190; 244; 178; 72; 69; 131; 213; 175;
   224; 130; 174; 230; 56; 191; 95; 213; 166; 6; 25; 57; 1; 160; 143; 74; 180; 26; 171; 155; 19; 72; 128] 798 =
ok [63; 103; 133; 7; 20; 184; 218; 105; 239; 183; 39; 237; 122; 108; 12; 80; 113; 74; 215; 54; 196; 245; 96; 0; 6;
   227; 82; 91; 232; 7; 196; 103; 198; 119; 255; 134; 74; 244; 95; 186; 9; 194; 124; 222; 56; 248; 122; 31; 132; 213;
   154; 178; 85; 64; 143; 44; 123; 130; 249; 234; 212; 26; 31; 230; 94; 171; 235; 251; 193; 243; 164; 197; 108; 154;
   38; 252; 247; 179; 214; 109; 2; 32; 238; 71; 117; 188; 88; 23; 10; 43; 18; 243; 67; 29; 17; 179; 68; 214; 227;
   108].
Proof. vm_compute. reflexivity. Qed.

Example nea1_testset3 :
security_nea1 [10; 139; 107; 216; 217; 176; 139; 8; 214; 78; 50; 209; 129; 119; 119; 251] 1414351309 4 dir_uplink
[253; 64; 164; 29; 55; 10; 31; 101; 116; 80; 149; 104; 125; 71; 186; 29; 54; 210; 52; 158; 35; 246; 68; 57; 44; 142;
   169; 196; 157; 64; 193; 50; 113; 175; 242; 100; 208; 242; 72] 310 =
ok [72; 20; 142; 84; 82; 162; 16; 192; 95; 70; 188; 128; 220; 111; 115; 73; 91; 2; 4; 140; 27; 149; 139; 2; 97; 2;
   202; 151; 40; 2; 121; 164; 193; 141; 46; 227; 8; 146; 28].
Proof. vm_compute. reflexivity. Qed.

Example nia1_testset1 :
security_nia1 [43; 214; 69; 159; 130; 197; 179; 0; 149; 44; 73; 16; 72; 129; 255; 72] 950464598 31 dir_uplink
[51; 50; 52; 98; 99; 57; 56; 97; 55; 52; 121] 88 =
ok [115; 31; 17; 101].
Proof. vm_compute. reflexivity. Qed.

Example nia1_testset2 :
security_nia1 [126; 94; 148; 67; 30; 17; 215; 56; 40; 215; 57; 204; 108; 237; 69; 115] 917463364 24 dir_downlink
[179; 211; 201; 23; 10; 78; 22; 50; 246; 15; 134; 16; 19; 210; 45; 132; 183; 38; 182; 162; 120; 216; 2; 209; 238; 175;
   19; 33; 186; 89; 41; 220] 254 =
ok [227; 37; 159; 111].
Proof. vm_compute. reflexivity. Qed.

Example nia1_testset3 :
security_nia1 [211; 65; 155; 232; 33; 8; 122; 205; 2; 18; 58; 146; 72; 3; 51; 89] 3344502441 23 dir_uplink
[187; 176; 87; 3; 136; 9; 73; 107; 207; 248; 109; 111; 188; 140; 229; 177; 53; 160; 107; 22; 96; 84; 242; 213; 101;
   190; 138; 206; 117; 220; 133; 30; 11; 205; 216; 240; 113; 65; 196; 149; 135; 47; 181; 216; 192; 198; 106; 139; 109;
   165; 86; 102; 62; 78; 70; 18; 5; 216; 69; 128; 190; 229; 188; 126] 511 =
ok [154; 22; 199; 125].
Proof. vm_compute. reflexivity. Qed.

Example nia1_testset4 :
security_nia1 [131; 253; 35; 162; 68; 167; 76; 243; 88; 218; 48; 25; 241; 114; 38; 53] 917463364 15 dir_downlink
[53; 198; 135; 22; 99; 60; 102; 251; 117; 12; 38; 104; 101; 213; 60; 17; 234; 5; 177; 233; 250; 73; 200; 57; 141; 72;
   225; 239; 165; 144; 157; 57; 71; 144; 40; 55; 245; 174; 150; 213; 160; 91; 200; 214; 28; 168; 219; 239; 27; 19;
   164; 180; 171; 254; 79; 177; 0; 96; 69; 182; 116; 187; 84; 114; 147; 4; 195; 130; 190; 83; 165; 175; 5; 85; 97;
   118; 246; 234; 162; 239; 29; 5; 228; 176; 131; 24; 30; 230; 116; 205; 165; 164; 133; 247; 77; 122] 768 =
ok [187; 167; 68; 146].
Proof. vm_compute. reflexivity. Qed.

Example nea3_testset1 :
security_nea3 [23; 61; 20; 186; 80; 3; 115; 29; 122; 96; 4; 148; 112; 240; 10; 41] 1711494290 15 dir_uplink
[108; 246; 83; 64; 115; 85; 82; 171; 12; 151; 82; 250; 111; 144; 37; 254; 11; 214; 117; 217; 0; 88; 117; 178; 0] 193 =
ok [166; 200; 95; 198; 106; 251; 133; 51; 170; 252; 37; 24; 223; 231; 132; 148; 14; 225; 228; 176; 48; 35; 140; 200;
   0].
Proof. vm_compute. reflexivity. Qed.

Example nea3_testset2 :
security_nea3 [229; 189; 62; 160; 235; 85; 173; 232; 102; 198; 172; 88; 189; 84; 48; 42] 354339 24 dir_downlink
[20; 168; 239; 105; 61; 103; 133; 7; 187; 231; 39; 10; 127; 103; 255; 80; 6; 195; 82; 91; 152; 7; 228; 103; 196; 229;
   96; 0; 186; 51; 143; 93; 66; 149; 89; 3; 103; 81; 130; 34; 70; 200; 13; 59; 56; 240; 127; 75; 226; 216; 255; 88; 5;
   245; 19; 34; 41; 189; 233; 59; 187; 220; 175; 56; 43; 241; 238; 151; 47; 191; 153; 119; 186; 218; 137; 69; 132;
   122; 42; 108; 154; 211; 74; 102; 117; 84; 224; 77; 31; 127; 162; 195; 50; 65; 189; 143; 1; 186; 34; 13] 800 =
ok [19; 29; 67; 224; 222; 161; 190; 92; 90; 27; 253; 151; 29; 133; 44; 191; 113; 45; 123; 79; 87; 150; 31; 234; 50; 8;
   175; 168; 188; 164; 51; 244; 86; 173; 9; 199; 65; 126; 88; 188; 105; 207; 136; 102; 209; 53; 63; 116; 134; 94; 128;
   120; 29; 32; 45; 251; 62; 207; 247; 252; 188; 59; 25; 15; 232; 42; 32; 78; 208; 227; 80; 252; 15; 111; 38; 19; 178;
   242; 188; 166; 223; 90; 71; 58; 87; 164; 160; 13; 152; 94; 186; 216; 128; 214; 242; 56; 100; 160; 123; 1].
Proof. vm_compute. reflexivity. Qed.

Example nea3_testset3 :
security_nea3 [212; 85; 42; 143; 214; 230; 28; 200; 26; 32; 9; 20; 26; 41; 193; 11] 1984245441 2 dir_downlink
[56; 240; 127; 75; 226; 216; 255; 88; 5; 245; 19; 34; 41; 189; 233; 59; 187; 220; 175; 56; 43; 241; 238; 151; 47; 191;
   153; 119; 186; 218; 137; 69; 132; 122; 42; 108; 154; 211; 74; 102; 117; 84; 224; 77; 31; 127; 162; 195; 50; 65;
   189; 143; 1; 186; 34; 13; 60; 164; 236; 65; 224; 116; 89; 95; 84; 174; 43; 69; 79; 217; 113; 67; 32; 67; 96; 25;
   101; 204; 168; 92; 36; 23; 237; 108; 190; 195; 186; 218; 132; 252; 138; 87; 154; 234; 120; 55; 176; 39; 17; 119;
   36; 42; 100; 220; 10; 157; 231; 26; 142; 222; 232; 108; 163; 212; 125; 3; 61; 107; 245; 57; 128; 78; 202; 134; 197;
   132; 169; 5; 45; 228; 106; 211; 252; 237; 101; 84; 59; 217; 2; 7; 55; 43; 39; 175; 183; 146; 52; 245; 255; 67; 234;
   135; 8; 32; 226; 194; 183; 138; 138; 174; 97; 204; 229; 42; 5; 21; 227; 72; 209; 150; 102; 74; 52; 86; 177; 130;
   160; 124; 64; 110; 74; 32; 121; 18; 113; 207; 237; 161; 101; 213; 53; 236; 94; 162; 212; 223; 64] 1570 =
ok [131; 131; 176; 34; 159; 204; 11; 157; 34; 149; 236; 65; 201; 119; 233; 194; 187; 114; 226; 32; 55; 129; 65; 249;
   200; 49; 143; 58; 39; 13; 251; 205; 238; 100; 17; 194; 179; 4; 79; 23; 109; 198; 224; 15; 137; 96; 249; 122; 250;
   205; 19; 26; 214; 163; 180; 155; 22; 183; 186; 188; 242; 165; 9; 235; 177; 106; 117; 220; 171; 20; 255; 39; 93;
   190; 238; 161; 162; 177; 85; 249; 213; 44; 38; 69; 45; 1; 135; 195; 16; 164; 238; 85; 190; 170; 120; 171; 64; 36;
   97; 91; 169; 245; 213; 173; 199; 114; 143; 115; 86; 6; 113; 240; 19; 229; 229; 80; 8; 93; 50; 145; 223; 125; 95;
   236; 237; 222; 213; 89; 100; 27; 108; 47; 88; 82; 51; 188; 113; 233; 96; 43; 210; 48; 88; 85; 187; 210; 95; 250;
   127; 23; 236; 188; 4; 45; 170; 227; 140; 31; 87; 173; 142; 142; 189; 55; 52; 111; 113; 190; 253; 187; 116; 50; 224;
   224; 187; 44; 252; 9; 188; 217; 101; 112; 203; 12; 12; 57; 223; 94; 41; 41; 78; 130; 112; 58; 99; 127; 128].
Proof. vm_compute. reflexivity. Qed.

Example nia3_testset1 :
security_nia3 [0; 0; 0; 0; 0; 0; 0; 0; 0; 0; 0; 0; 0; 0; 0; 0] 0 0 dir_uplink
[0] 1 =
ok [200; 169; 89; 94].
Proof. vm_compute. reflexivity. Qed.

Example nia3_testset2 :
security_nia3 [71; 5; 65; 37; 86; 30; 178; 221; 169; 64; 89; 218; 5; 9; 120; 80] 1444852445 20 dir_uplink
[0; 0; 0; 0; 0; 0; 0; 0; 0; 0; 0; 0] 90 =
ok [103; 25; 160; 136].
Proof. vm_compute. reflexivity. Qed.

Example nia3_testset3 :
security_nia3 [201; 230; 206; 196; 96; 124; 114; 219; 0; 10; 239; 168; 131; 133; 171; 10] 2839566810 10 dir_downlink
[152; 59; 65; 212; 125; 120; 12; 158; 26; 209; 29; 126; 183; 3; 145; 177; 222; 11; 53; 218; 45; 198; 47; 131; 231;
   183; 141; 99; 6; 202; 14; 160; 126; 148; 27; 123; 233; 19; 72; 249; 252; 177; 112; 226; 33; 127; 236; 217; 127;
   159; 104; 173; 177; 110; 93; 125; 33; 229; 105; 210; 128; 237; 119; 92; 235; 222; 63; 64; 147; 197; 56; 129; 0] 577
   =
ok [250; 232; 255; 11].
Proof. vm_compute. reflexivity. Qed.

Example nia3_testset4 :
security_nia3 [200; 164; 130; 98; 208; 194; 226; 186; 196; 185; 110; 247; 126; 128; 202; 89] 84506704 16 dir_downlink
[181; 70; 67; 11; 248; 123; 79; 30; 232; 52; 112; 76; 214; 149; 28; 54; 226; 111; 16; 140; 247; 49; 120; 143; 72; 220;
   52; 241; 103; 140; 5; 34; 28; 143; 167; 255; 47; 57; 244; 119; 231; 228; 158; 246; 10; 78; 194; 195; 222; 36; 49;
   42; 150; 170; 38; 225; 207; 186; 87; 86; 56; 56; 178; 151; 244; 126; 133; 16; 199; 121; 253; 102; 84; 177; 67; 56;
   111; 166; 57; 211; 30; 219; 214; 192; 110; 71; 209; 89; 217; 67; 98; 242; 106; 238; 237; 238; 14; 79; 73; 217; 191;
   132; 18; 153; 84; 21; 191; 173; 86; 238; 130; 209; 202; 116; 99; 171; 240; 133; 176; 130; 176; 153; 4; 214; 217;
   144; 212; 60; 242; 224; 98; 244; 8; 57; 217; 50; 72; 177; 235; 146; 205; 254; 213; 48; 11; 193; 72; 40; 4; 48; 182;
   208; 202; 160; 148; 182; 236; 137; 17; 171; 125; 195; 104; 36; 184; 36; 220; 10; 246; 104; 43; 9; 53; 253; 231;
   180; 146; 161; 77; 194; 244; 54; 72; 3; 141; 162; 207; 121; 23; 13; 45; 80; 19; 63; 212; 148; 22; 203; 110; 51;
   190; 169; 11; 139; 244; 85; 155; 3; 115; 42; 1; 234; 41; 14; 109; 7; 79; 121; 187; 131; 193; 14; 88; 0; 21; 204;
   26; 133; 179; 107; 85; 1; 4; 110; 156; 75; 220; 174; 81; 53; 105; 11; 134; 102; 189; 84; 183; 167; 3; 234; 123;
   111; 34; 10; 84; 105; 165; 104; 2; 126] 2079 =
ok [0; 74; 196; 214].
Proof. vm_compute. reflexivity. Qed.
