(* ===== verification/SecurityEngine.v ===== *)
(** * The security engine

    [lib/security/security_engine_impl.cpp] with the ciphering and integrity engines it is made of
    ([ciphering_engine_nea{1,2,3}.cpp], [integrity_engine_nia2_cmac.cpp], [integrity_engine_nia2_non_cmac.cpp],
    [integrity_engine_generic.cpp]).

    The instance [security_engine_laws] discharges what PDCP relies on ([SecurityEngineLaws]): it is what
    the entities' theorems are applied with. The properties of the engine are in [SecurityProps.v]. *)

From S2P Require Import Prelude Security Snow3g Zuc SecAlgorithms.

(** ** Engines *)

(** The classes that implement [ciphering_engine] and [integrity_engine]. *)
Inductive ciphering_engine :=
| ciphering_engine_nea1 (key : bytes) (bearer : Z) (dir : security_direction)
| ciphering_engine_nea2 (key : bytes) (bearer : Z) (dir : security_direction)
| ciphering_engine_nea3 (key : bytes) (bearer : Z) (dir : security_direction).

Inductive integrity_engine :=
| integrity_engine_nia2_cmac (key : bytes) (bearer : Z) (dir : security_direction)
| integrity_engine_nia2_non_cmac (key : bytes) (bearer : Z) (dir : security_direction)
| integrity_engine_generic (key : bytes) (bearer : Z) (dir : security_direction) (algo : integrity_algorithm).

Record security_engine := mk_engine { cipher_eng : option ciphering_engine; integ_eng : option integrity_engine }.

Section security_engine.
Context `{HM : Mbedtls}.

(** [buf.append(mac)] finds the memory. *)
Context (append_ok : bytes -> bool).

(** [apply_ciphering]: the view from [offset] on is changed in place. *)
Definition apply_ciphering (eng : ciphering_engine) (buf : bytes) (offset count : Z) : outcome security_result :=
  srsran_assert (offset <=? zlen buf);;
  let hdr := take (Z.to_nat offset) buf in
  let msg := drop (Z.to_nat offset) buf in
  match eng with
  | ciphering_engine_nea1 key bearer dir =>
      msg ← security_nea1 key count bearer dir msg (u32 (zlen msg * 8)); ok (inr (hdr ++ msg))
  | ciphering_engine_nea2 key bearer dir =>
      ok (match nea2_apply key count bearer dir msg with
          | Some msg => inr (hdr ++ msg)
          | None => inl ciphering_failure
          end)
  | ciphering_engine_nea3 key bearer dir =>
      msg ← security_nea3 key count bearer dir msg (u32 (zlen msg * 8)); ok (inr (hdr ++ msg))
  end.

(** [security_nia2]: without a result the MAC stays as it was initialised. *)
Definition security_nia2 (key : bytes) (count bearer : Z) (dir : security_direction) (msg : bytes) : outcome bytes :=
  if mbedtls_cmac_c then ok (default zero_mac (nia2_cmac_compute_mac key count bearer dir msg))
  else nia2_non_cmac_compute_mac key count bearer dir msg.

(** The MAC of an engine; [None] is an error of mbedtls. *)
Definition compute_mac (eng : integrity_engine) (v : bytes) (count : Z) : outcome (option bytes) :=
  match eng with
  | integrity_engine_nia2_cmac key bearer dir => ok (nia2_cmac_compute_mac key count bearer dir v)
  | integrity_engine_nia2_non_cmac key bearer dir =>
      mac ← nia2_non_cmac_compute_mac key count bearer dir v; ok (Some mac)
  | integrity_engine_generic key bearer dir algo =>
      mac ← match algo with
            | nia0 => ok zero_mac
            | nia1 => security_nia1 key count bearer dir v (u32 (zlen v * 8))
            | nia2 => security_nia2 key count bearer dir v
            | nia3 => security_nia3 key count bearer dir v (u32 (zlen v * 8))
            end;
      ok (Some mac)
  end.

Definition protect_integrity (eng : integrity_engine) (buf : bytes) (count : Z) : outcome security_result :=
  mac ← compute_mac eng buf count;
  match mac with
  | None => ok (inl integrity_failure)
  | Some mac => ok (if append_ok buf then inr (buf ++ mac) else inl buffer_failure)
  end.

Definition verify_integrity (eng : integrity_engine) (buf : bytes) (count : Z) : outcome security_result :=
  if zlen buf <=? sec_mac_len then ok (inl integrity_failure)
  else
    let v := slice buf 0 (zlen buf - sec_mac_len) in
    let m := slice buf (zlen buf - sec_mac_len) sec_mac_len in
    mac ← compute_mac eng v count;
    match mac with
    | None => ok (inl integrity_failure)
    | Some mac => ok (if bool_decide (mac = m) then inr v else inl integrity_failure)
    end.

(** The constructor of [security_engine_impl]. The set-up calls of mbedtls are assumed to succeed. *)
Definition engine_ctor (sec_cfg : sec_128_as_config) (bearer_id : Z) (direction : security_direction)
    (integrity_enabled ciphering_enabled : bool) : outcome security_engine :=
  integ_eng ←
    (if integrity_enabled then
       match integ_algo sec_cfg, k_128_int sec_cfg with
       | Some algo, Some key =>
           ok (Some (match algo with
                     | nia2 => if mbedtls_cmac_c then integrity_engine_nia2_cmac key bearer_id direction
                               else integrity_engine_nia2_non_cmac key bearer_id direction
                     | _ => integrity_engine_generic key bearer_id direction algo
                     end))
       | _, _ => fail assertion
       end
     else ok None);
  let key := k_128_enc sec_cfg in
  ok (mk_engine
        (if ciphering_enabled then
           match cipher_algo sec_cfg with
           | nea1 => Some (ciphering_engine_nea1 key bearer_id direction)
           | nea2 => Some (ciphering_engine_nea2 key bearer_id direction)
           | nea3 => Some (ciphering_engine_nea3 key bearer_id direction)
           | nea0 => None
           end
         else None)
        integ_eng).

Definition engine_encrypt (e : security_engine) (buf : bytes) (offset count : Z) : outcome security_result :=
  result ← match integ_eng e with Some eng => protect_integrity eng buf count | None => ok (inr buf) end;
  match result with
  | inl err => ok (inl err)
  | inr buf => match cipher_eng e with Some eng => apply_ciphering eng buf offset count | None => ok (inr buf) end
  end.

Definition engine_decrypt (e : security_engine) (buf : bytes) (offset count : Z) : outcome security_result :=
  result ← match cipher_eng e with Some eng => apply_ciphering eng buf offset count | None => ok (inr buf) end;
  match result with
  | inl err => ok (inl err)
  | inr buf => match integ_eng e with Some eng => verify_integrity eng buf count | None => ok (inr buf) end
  end.

#[export] Instance engine_instance : SecurityEngine security_engine := {
  security_engine_impl := engine_ctor;
  encrypt_and_protect_integrity := engine_encrypt;
  decrypt_and_verify_integrity := engine_decrypt
}.

(** ** Ciphering *)
Context {HL : MbedtlsLaws HM}.

(** The key stream of a ciphering engine, when it works. *)
Definition cipher_stream (eng : ciphering_engine) (count n : Z) : option bytes :=
  match eng with
  | ciphering_engine_nea1 key bearer dir => Some (nea1_stream key count bearer dir n)
  | ciphering_engine_nea2 key bearer dir =>
      let nonce := nea2_nonce count bearer dir in
      if aes_ctr_accepts key nonce (Z.to_nat n) then Some (aes_ctr_stream key nonce (Z.to_nat n)) else None
  | ciphering_engine_nea3 key bearer dir => Some (nea3_stream key count bearer dir n)
  end.

Lemma cipher_stream_octets eng count n ks :
  0 <= n -> cipher_stream eng count n = Some ks -> zlen ks = n /\ is_bytes ks.
Proof using HL.
  intros Hn. destruct eng as [key bearer dir|key bearer dir|key bearer dir]; cbn [cipher_stream].
  - intros [= <-]. unfold nea1_stream. rewrite ks_bytes_length. split; [lia|apply ks_bytes_bytes].
  - destruct (aes_ctr_accepts _ _ _); [|done]. intros [= <-].
    destruct (ctr_octets key (nea2_nonce count bearer dir) (Z.to_nat n)). split; [lia|done].
  - intros [= <-]. unfold nea3_stream. rewrite ks_bytes_length. split; [lia|apply ks_bytes_bytes].
Qed.

Lemma apply_ciphering_stream eng buf off count :
  is_bytes buf -> 0 <= off < zlen buf -> zlen buf < 2 ^ 28 ->
  let hdr := take (Z.to_nat off) buf in let msg := drop (Z.to_nat off) buf in
  apply_ciphering eng buf off count =
    ok (match cipher_stream eng count (zlen msg) with
        | Some ks => inr (hdr ++ xor_bytes msg ks)
        | None => inl ciphering_failure
        end).
Proof using HM.
  intros Hb Ho Hl hdr msg. unfold apply_ciphering. rewrite srsran_assert_ok by (apply Z.leb_le; lia). rewrite bind_ok. cbv zeta.
  fold hdr msg. assert (Hml : zlen msg = zlen buf - off) by (subst msg; rewrite length_drop; lia).
  assert (Hne : msg <> []) by (intros E; rewrite E in Hml; simpl in Hml; lia).
  assert (Hmb : is_bytes msg) by (by apply Forall_drop).
  destruct eng as [key bearer dir|key bearer dir|key bearer dir]; cbn [cipher_stream].
  - by rewrite security_nea1_stream by (done || lia).
  - unfold nea2_apply. rewrite Nat2Z.id. by destruct (aes_ctr_accepts _ _ _).
  - by rewrite security_nea3_stream by (done || lia).
Qed.

(** Ciphering twice gives the PDU back, and keeps the header in the clear. *)
Lemma apply_ciphering_involutive eng buf off count pdu :
  is_bytes buf -> 0 <= off < zlen buf -> zlen buf < 2 ^ 28 ->
  apply_ciphering eng buf off count = ok (inr pdu) ->
  is_bytes pdu /\ zlen pdu = zlen buf /\ take (Z.to_nat off) pdu = take (Z.to_nat off) buf /\
  apply_ciphering eng pdu off count = ok (inr buf).
Proof using HL.
  intros Hb Ho Hl. rewrite apply_ciphering_stream by done.
  set (hdr := take (Z.to_nat off) buf). set (msg := drop (Z.to_nat off) buf).
  assert (Hml : zlen msg = zlen buf - off) by (subst msg; rewrite length_drop; lia).
  assert (Hhl : length hdr = Z.to_nat off) by (subst hdr; rewrite length_take; lia).
  destruct (cipher_stream eng count (zlen msg)) as [ks|] eqn:Eks; [|done]. intros [= <-].
  destruct (cipher_stream_octets eng count (zlen msg) ks) as [Hkl Hkb]; [lia|done|].
  assert (Hx : length (xor_bytes msg ks) = length msg) by (apply xor_bytes_length; lia).
  assert (Hpb : is_bytes (hdr ++ xor_bytes msg ks)).
  { apply Forall_app. split; [by apply Forall_take|]. apply xor_bytes_bytes; [by apply Forall_drop|done]. }
  assert (Hpl : zlen (hdr ++ xor_bytes msg ks) = zlen buf) by (rewrite length_app, Hx; lia).
  assert (Ht : take (Z.to_nat off) (hdr ++ xor_bytes msg ks) = hdr) by (rewrite <- Hhl; apply take_app_length).
  split; [done|]. split; [done|]. split; [done|]. rewrite apply_ciphering_stream by (done || lia). rewrite Ht.
  assert (Hd : drop (Z.to_nat off) (hdr ++ xor_bytes msg ks) = xor_bytes msg ks) by (rewrite <- Hhl; apply drop_app_length).
  rewrite Hd, Hx, Eks, xor_bytes_involutive by lia. do 2 f_equal. apply take_drop.
Qed.

(** ** Integrity *)
Lemma take4_mac (mac : bytes) : length mac = 16%nat -> is_bytes mac -> length (take 4 mac) = 4%nat /\ is_bytes (take 4 mac).
Proof using Type. intros Hl Hb. split; [rewrite length_take; lia|by apply Forall_take]. Qed.

Lemma rfc_cmac_block key M : length (rfc_cmac key M) = 16%nat /\ is_bytes (rfc_cmac key M).
Proof using HL. unfold rfc_cmac. apply ecb_block. Qed.

(** A MAC is four octets, of any message that is neither empty nor too long. *)
Lemma compute_mac_total eng v count :
  v <> [] -> zlen v + 24 <= sec_max_pdu_size ->
  exists mac, compute_mac eng v count = ok mac /\ forall m, mac = Some m -> length m = 4%nat /\ is_bytes m.
Proof using HL.
  intros Hne Hl. unfold sec_max_pdu_size in Hl.
  assert (Hz : length zero_mac = 4%nat /\ is_bytes zero_mac) by (split; [done|repeat constructor; unfold is_byte; lia]).
  assert (Hcmac : forall key bearer dir m, nia2_cmac_compute_mac key count bearer dir v = Some m -> length m = 4%nat /\ is_bytes m).
  { intros key bearer dir m. unfold nia2_cmac_compute_mac. destruct (cipher_cmac _ _) as [x|] eqn:E; [|done].
    intros [= <-]. apply cmac_block in E as [? ?]. by apply take4_mac. }
  assert (Hnon : forall key bearer dir, exists m, nia2_non_cmac_compute_mac key count bearer dir v = ok m /\ length m = 4%nat /\ is_bytes m).
  { intros key bearer dir. rewrite nia2_non_cmac_rfc by (unfold sec_max_pdu_size; lia). eexists. split; [done|].
    destruct (rfc_cmac_block key (nia2_preamble count bearer dir ++ v)). by apply take4_mac. }
  destruct eng as [key bearer dir|key bearer dir|key bearer dir []]; cbn [compute_mac].
  - eexists. split; [done|]. intros m. apply Hcmac.
  - destruct (Hnon key bearer dir) as (m & -> & Hm). eexists. split; [done|]. by intros ? [= <-].
  - eexists. split; [done|]. by intros ? [= <-].
  - destruct (security_nia1_total key count bearer dir v Hne) as (m & -> & Hm); [lia|]. eexists. split; [done|]. by intros ? [= <-].
  - unfold security_nia2. destruct mbedtls_cmac_c.
    + eexists. split; [done|]. intros ? [= <-]. destruct (nia2_cmac_compute_mac _ _ _ _ _) eqn:E; [by eapply Hcmac|done].
    + destruct (Hnon key bearer dir) as (m & -> & Hm). eexists. split; [done|]. by intros ? [= <-].
  - destruct (security_nia3_total key count bearer dir v) as (m & -> & Hm); [lia|]. eexists. split; [done|]. by intros ? [= <-].
Qed.

Lemma verify_integrity_appended eng v mac count :
  v <> [] -> length mac = 4%nat -> compute_mac eng v count = ok (Some mac) ->
  verify_integrity eng (v ++ mac) count = ok (inr v).
Proof using Type.
  intros Hne Hl Hm. unfold verify_integrity. assert (Hp : 0 < zlen v) by (destruct v; [done|simpl; lia]).
  assert (Hs : zlen (v ++ mac) - sec_mac_len = zlen v) by (rewrite length_app; unfold sec_mac_len; lia).
  unfold sec_mac_len in *. rewrite (proj2 (Z.leb_gt (zlen (v ++ mac)) 4)) by lia. rewrite Hs.
  assert (Ev : slice (v ++ mac) 0 (zlen v) = v) by (unfold slice; rewrite drop_0, Nat2Z.id; apply take_app_length).
  assert (Em : slice (v ++ mac) (zlen v) 4 = mac).
  { unfold slice. rewrite Nat2Z.id, drop_app_length. apply take_ge. lia. }
  rewrite Ev, Em, Hm, bind_ok. by rewrite bool_decide_eq_true_2.
Qed.

(** The parts a buffer is checked in. *)
Lemma verify_integrity_total eng buf count :
  zlen buf <= sec_max_pdu_size - 20 -> exists r, verify_integrity eng buf count = ok r.
Proof using HL.
  intros Hl. unfold verify_integrity. destruct (Z.leb_spec (zlen buf) sec_mac_len); [by eexists|].
  unfold sec_mac_len, sec_max_pdu_size in *.
  assert (Hv : zlen (slice buf 0 (zlen buf - 4)) = zlen buf - 4) by (apply slice_length; lia).
  destruct (compute_mac_total eng (slice buf 0 (zlen buf - 4)) count) as (mac & -> & _).
  { intros E. rewrite E in Hv. simpl in Hv. lia. }
  { unfold sec_max_pdu_size. lia. }
  rewrite bind_ok. destruct mac; by eexists.
Qed.

(** ** The laws of the interface *)
#[export] Instance security_engine_laws : SecurityEngineLaws security_engine (fun _ => True).
Proof using HL.
  assert (Hmax : sec_max_pdu_size = 9100) by done.
  assert (Hprot : forall eng buf count, 0 < zlen buf -> zlen buf <= sec_max_pdu_size - 24 -> is_bytes buf ->
    exists r, protect_integrity eng buf count = ok r /\ forall p, r = inr p -> exists mac, p = buf ++ mac /\
      length mac = 4%nat /\ is_bytes mac /\ compute_mac eng buf count = ok (Some mac)).
  { intros eng buf count Hp Hl Hb. unfold protect_integrity.
    destruct (compute_mac_total eng buf count) as (mac & Em & Hmac); [by destruct buf|lia|]. rewrite Em, bind_ok.
    destruct mac as [mac|]; [|by eexists]. destruct (append_ok buf); [|by eexists].
    eexists. split; [done|]. intros p [= <-]. destruct (Hmac _ eq_refl). by exists mac. }
  assert (Hciph : forall eng buf off count, is_bytes buf -> 0 <= off < zlen buf -> zlen buf < 2 ^ 28 ->
    exists r, apply_ciphering eng buf off count = ok r).
  { intros. rewrite apply_ciphering_stream by done. by eexists. }
  split.
  - intros [ce ie] buf off count _ Hb Ho Hl Hc. cbn [encrypt_and_protect_integrity engine_instance engine_encrypt].
    unfold engine_encrypt. cbn [cipher_eng integ_eng].
    assert (Hr : exists r, (match ie with Some eng => protect_integrity eng buf count | None => ok (inr buf) end) = ok r /\
      forall p, r = inr p -> is_bytes p /\ off < zlen p <= zlen buf + 4).
    { destruct ie as [eng|]; [|eexists; split; [done|]; intros p [= <-]; split; [done|lia]].
      destruct (Hprot eng buf count) as (r & -> & Hr); [lia|done|done|]. exists r. split; [done|].
      intros p Ep. destruct (Hr p Ep) as (mac & -> & Hml & Hmb & _). rewrite length_app. split; [by apply Forall_app|lia]. }
    destruct Hr as (r & -> & Hr). rewrite bind_ok. destruct r as [err|p]; [by eexists|].
    destruct (Hr p eq_refl). destruct ce as [ce|]; [|by eexists]. apply Hciph; [done|lia|lia].
  - intros [ce ie] buf off count _ Hb Ho Hl Hc. cbn [decrypt_and_verify_integrity engine_instance].
    unfold engine_decrypt. cbn [cipher_eng integ_eng].
    assert (Hr : exists r, (match ce with Some eng => apply_ciphering eng buf off count | None => ok (inr buf) end) = ok r /\
      forall p, r = inr p -> zlen p = zlen buf).
    { destruct ce as [eng|]; [|eexists; split; [done|]; by intros p [= <-]].
      destruct (Hciph eng buf off count) as [r Er]; [done|done|lia|]. rewrite Er. exists r. split; [done|].
      intros p ->. by destruct (apply_ciphering_involutive eng buf off count p) as (_ & ? & _); [done|lia|lia|done|]. }
    destruct Hr as (r & -> & Hr). rewrite bind_ok. destruct r as [err|p]; [by eexists|].
    specialize (Hr p eq_refl). destruct ie as [ie|]; [|by eexists]. apply verify_integrity_total. lia.
  - intros [ce ie] buf off count pdu _ Hb Ho Hl Hc. cbn [encrypt_and_protect_integrity decrypt_and_verify_integrity engine_instance].
    unfold engine_encrypt, engine_decrypt. cbn [cipher_eng integ_eng].
    assert (Hr : exists r, (match ie with Some eng => protect_integrity eng buf count | None => ok (inr buf) end) = ok r /\
      forall p, r = inr p -> is_bytes p /\ zlen buf <= zlen p <= zlen buf + 4 /\ take (Z.to_nat off) p = take (Z.to_nat off) buf /\
        (match ie with Some eng => verify_integrity eng p count | None => ok (inr p) end) = ok (inr buf)).
    { destruct ie as [eng|]; [|exists (inr buf); split; [done|intros p [= <-]; repeat split; [done|lia|lia]]].
      destruct (Hprot eng buf count) as (r & -> & Hr); [lia|done|done|]. exists r. split; [done|].
      intros p Ep. destruct (Hr p Ep) as (mac & -> & Hml & Hmb & Hcm). rewrite length_app. split; [by apply Forall_app|split; [lia|split]].
      - by rewrite take_app_le by lia.
      - apply verify_integrity_appended; [intros ->; simpl in Ho; lia|done|done]. }
    destruct Hr as (r & -> & Hr). rewrite bind_ok. destruct r as [err|p]; [done|].
    destruct (Hr p eq_refl) as (Hpb & Hpl & Hpt & Hv). unfold sec_mac_len. destruct ce as [ce|].
    + intros Ha. destruct (apply_ciphering_involutive ce p off count pdu) as (Hb1 & Hl1 & Ht1 & Hi1); [done|lia|lia|done|].
      split; [done|]. split; [lia|]. split; [by rewrite Ht1|]. by rewrite Hi1, bind_ok.
    + intros [= <-]. split; [done|]. split; [lia|]. split; [done|]. by rewrite bind_ok.
Qed.
End security_engine.
