(* ===== verification/SecurityContext.v ===== *)
(** * The security context of a UE: algorithm selection and key derivation

    [lib/security/security.cpp] and the [security_context] of [include/srsran/security/security.h]. The
    CU-CP selects the algorithms of a UE from its capabilities, derives the four access-stratum keys
    from K_gNB and hands each bearer the 128-bit configuration of its domain, from which PDCP builds
    its engine ([SecurityEngine.engine_ctor]).

    HMAC-SHA-256 (mbedtls) is the parameter [hmac_sha256]. [kdf_separates_keys]: two derivations
    feed it the same octets only if they are the same derivation. [security_context_configures]:
    after a successful selection every bearer of the UE gets a configuration that the constructor of the
    engine accepts. *)

From S2P Require Import Prelude Security SecAlgorithms SecurityEngine.

(** ** Numbers of the enumerations *)

Definition cipher_number (a : ciphering_algorithm) : Z :=
  match a with nea0 => 0 | nea1 => 1 | nea2 => 2 | nea3 => 3 end.
Definition integ_number (a : integrity_algorithm) : Z :=
  match a with nia0 => 0 | nia1 => 1 | nia2 => 2 | nia3 => 3 end.

Definition ciphering_algorithm_from_number (n : Z) : outcome ciphering_algorithm :=
  srsran_assert (n <? 4);;
  ok (if n =? 0 then nea0 else if n =? 1 then nea1 else if n =? 2 then nea2 else nea3).
Definition integrity_algorithm_from_number (n : Z) : outcome integrity_algorithm :=
  srsran_assert (n <? 4);;
  ok (if n =? 0 then nia0 else if n =? 1 then nia1 else if n =? 2 then nia2 else nia3).

Inductive fc_value := algorithm_key_derivation | k_ng_ran_star_derivation.
Definition fc_number (fc : fc_value) : Z :=
  match fc with algorithm_key_derivation => 0x69 | k_ng_ran_star_derivation => 0x70 end.

Inductive security_algo_distinguisher := rrc_enc_alg | rrc_int_alg | up_enc_alg | up_int_alg.
Definition distinguisher_number (d : security_algo_distinguisher) : Z :=
  match d with rrc_enc_alg => 3 | rrc_int_alg => 4 | up_enc_alg => 5 | up_int_alg => 6 end.

Lemma ciphering_from_to a : ciphering_algorithm_from_number (cipher_number a) = ok a.
Proof. by destruct a. Qed.
Lemma integrity_from_to a : integrity_algorithm_from_number (integ_number a) = ok a.
Proof. by destruct a. Qed.

(** ** Key generation *)

(** [p_len{htons(n)}]: the two octets in network order. *)
Definition p_len (n : Z) : bytes := [u16 n / 256; u16 n mod 256].

(** The octets [s] that [generic_kdf] hands to the HMAC. *)
Definition kdf_input (fc : fc_value) (p0 p1 : bytes) : bytes :=
  fc_number fc :: p0 ++ p_len (zlen p0) ++ p1 ++ p_len (zlen p1).

(** [truncate_key]: the last 16 octets of 32. *)
Definition truncate_key (key_in : bytes) : bytes :=
  slice key_in (sec_key_len - sec_128_key_len) sec_128_key_len.

(** [sec_as_config] *)
Record sec_as_config := mk_as_config {
  as_domain : sec_domain;
  k_int : option bytes;
  k_enc : bytes;
  as_integ_algo : option integrity_algorithm;
  as_cipher_algo : ciphering_algorithm
}.

Definition truncate_config (cfg_in : sec_as_config) : sec_128_as_config :=
  mk_sec_128 (as_domain cfg_in) (truncate_key <$> k_int cfg_in) (truncate_key (k_enc cfg_in))
    (as_integ_algo cfg_in) (as_cipher_algo cfg_in).

(** The two parameters of [generate_k_ng_ran_star]; [report_error] ends the process. *)
Definition k_ng_ran_star_params (target_pci target_ssb_arfcn : Z) : outcome (bytes * bytes) :=
  let pci := [Z.land (Z.shiftr target_pci 8) 0xff; Z.land target_pci 0xff] in
  if target_ssb_arfcn <? 2 ^ 16 then
    ok (pci, [Z.land (Z.shiftr target_ssb_arfcn 8) 0xff; Z.land target_ssb_arfcn 0xff])
  else if target_ssb_arfcn <? 2 ^ 24 then
    ok (pci, [Z.land (Z.shiftr target_ssb_arfcn 16) 0xff; Z.land (Z.shiftr target_ssb_arfcn 8) 0xff;
              Z.land target_ssb_arfcn 0xff])
  else fail assertion.

(** ** State *)

(** [sec_selected_algos]; the algorithms are unset until they are selected. *)
Record sec_selected_algos := mk_selected {
  algos_selected : bool;
  sel_integ_algo : option integrity_algorithm;
  sel_cipher_algo : option ciphering_algorithm
}.

Record sec_as_keys := mk_as_keys { k_rrc_int : bytes; k_rrc_enc : bytes; k_up_int : bytes; k_up_enc : bytes }.

Record security_context := mk_context {
  k : bytes;
  supported_int_algos : list bool;
  supported_enc_algos : list bool;
  sel_algos : sec_selected_algos;
  as_keys : sec_as_keys
}.

Definition set_sel_algos (c : security_context) (sel : sec_selected_algos) : security_context :=
  mk_context (k c) (supported_int_algos c) (supported_enc_algos c) sel (as_keys c).
Definition set_as_keys (c : security_context) (keys : sec_as_keys) : security_context :=
  mk_context (k c) (supported_int_algos c) (supported_enc_algos c) (sel_algos c) keys.
Definition set_k (c : security_context) (key : bytes) : security_context :=
  mk_context key (supported_int_algos c) (supported_enc_algos c) (sel_algos c) (as_keys c).

(** [supported[algo_id - 1]]; out of the array is undefined. *)
Definition supported_at (supported : list bool) (algo_id : Z) : outcome bool :=
  match supported !! Z.to_nat (algo_id - 1) with Some b => ok b | None => fail invalid_access end.

(** ** Algorithm selection *)

Fixpoint select_integ (supported : list bool) (prefs : list integrity_algorithm) :
    outcome (option integrity_algorithm) :=
  match prefs with
  | [] => ok None
  | a :: prefs =>
      let algo_id := integ_number a in
      if algo_id =? 0 then ok None
      else
        b ← supported_at supported algo_id;
        if b : bool then a ← integrity_algorithm_from_number algo_id; ok (Some a)
        else select_integ supported prefs
  end.

Fixpoint select_ciph (supported : list bool) (prefs : list ciphering_algorithm) :
    outcome (option ciphering_algorithm) :=
  match prefs with
  | [] => ok None
  | a :: prefs =>
      let algo_id := cipher_number a in
      if algo_id =? 0 then ok (Some nea0)
      else
        b ← supported_at supported algo_id;
        if b : bool then a ← ciphering_algorithm_from_number algo_id; ok (Some a)
        else select_ciph supported prefs
  end.

(** [security_context::select_algorithms] *)
Definition select_algorithms (pref_inte_list : list integrity_algorithm)
    (pref_ciph_list : list ciphering_algorithm) (c : security_context) : outcome (security_context * bool) :=
  inte ← select_integ (supported_int_algos c) pref_inte_list;
  match inte with
  | None => ok (c, false)
  | Some i =>
      let c := set_sel_algos c (mk_selected (algos_selected (sel_algos c)) (Some i) (sel_cipher_algo (sel_algos c))) in
      ciph ← select_ciph (supported_enc_algos c) pref_ciph_list;
      match ciph with
      | None => ok (c, false)
      | Some a => ok (set_sel_algos c (mk_selected true (Some i) (Some a)), true)
      end
  end.

(** ** Key derivation *)
Section key_derivation.
(** [sha256] of [ssl.h]: [mbedtls_md_hmac] with SHA-256, of a key and a message. *)
Context (hmac_sha256 : bytes -> bytes -> bytes).

Definition generic_kdf (key_in : bytes) (fc : fc_value) (p0 p1 : bytes) : bytes :=
  hmac_sha256 key_in (kdf_input fc p0 p1).

(** Results: the ciphering and the integrity key. *)
Definition generate_k_rrc (k_gnb : bytes) (enc_alg_id : ciphering_algorithm) (int_alg_id : integrity_algorithm) :
    bytes * bytes :=
  (generic_kdf k_gnb algorithm_key_derivation [distinguisher_number rrc_enc_alg] [cipher_number enc_alg_id],
   generic_kdf k_gnb algorithm_key_derivation [distinguisher_number rrc_int_alg] [integ_number int_alg_id]).

Definition generate_k_up (k_gnb : bytes) (enc_alg_id : ciphering_algorithm) (int_alg_id : integrity_algorithm) :
    bytes * bytes :=
  (generic_kdf k_gnb algorithm_key_derivation [distinguisher_number up_enc_alg] [cipher_number enc_alg_id],
   generic_kdf k_gnb algorithm_key_derivation [distinguisher_number up_int_alg] [integ_number int_alg_id]).

Definition generate_k_ng_ran_star (key : bytes) (target_pci target_ssb_arfcn : Z) : outcome bytes :=
  p ← k_ng_ran_star_params target_pci target_ssb_arfcn;
  ok (generic_kdf key k_ng_ran_star_derivation p.1 p.2).

(** [srsran_sanity_check] on the selection, and the algorithms it guards. *)
Definition selected (c : security_context) : outcome (integrity_algorithm * ciphering_algorithm) :=
  srsran_assert (algos_selected (sel_algos c));;
  match sel_integ_algo (sel_algos c), sel_cipher_algo (sel_algos c) with
  | Some i, Some a => ok (i, a)
  | _, _ => fail invalid_access
  end.

(** [security_context::generate_as_keys] *)
Definition generate_as_keys (c : security_context) : outcome security_context :=
  algos ← selected c;
  let rrc := generate_k_rrc (k c) algos.2 algos.1 in
  let up := generate_k_up (k c) algos.2 algos.1 in
  ok (set_as_keys c (mk_as_keys rrc.2 rrc.1 up.2 up.1)).

(** [security_context::horizontal_key_derivation] *)
Definition horizontal_key_derivation (target_pci target_ssb_arfcn : Z) (c : security_context) :
    outcome security_context :=
  k_ng_ran_star ← generate_k_ng_ran_star (k c) target_pci target_ssb_arfcn;
  generate_as_keys (set_k c k_ng_ran_star).

(** [security_context::get_as_config] *)
Definition get_as_config (c : security_context) (dom : sec_domain) : outcome sec_as_config :=
  algos ← selected c;
  let keys := match dom with
              | domain_rrc => (k_rrc_int (as_keys c), k_rrc_enc (as_keys c))
              | domain_up => (k_up_int (as_keys c), k_up_enc (as_keys c))
              end in
  ok (mk_as_config dom (Some keys.1) keys.2 (Some algos.1) algos.2).

Definition get_128_as_config (c : security_context) (dom : sec_domain) : outcome sec_128_as_config :=
  cfg ← get_as_config c dom; ok (truncate_config cfg).

(** ** Selection *)

(** What a preference list gives: its first entry that is usable, when no entry before it ends the search. *)
Lemma select_integ_spec supported prefs :
  length supported = 3%nat ->
  exists r, select_integ supported prefs = ok r /\
    match r with
    | Some i => i <> nia0 /\ supported !! Z.to_nat (integ_number i - 1) = Some true /\
        exists before after, prefs = before ++ i :: after /\
          Forall (fun a => a <> nia0 /\ supported !! Z.to_nat (integ_number a - 1) = Some false) before
    | None => forall before i after, prefs = before ++ i :: after ->
        i <> nia0 -> supported !! Z.to_nat (integ_number i - 1) = Some true -> nia0 ∈ before
    end.
Proof using Type.
  intros Hl. induction prefs as [|a prefs IH]; simpl.
  { eexists. split; [done|]. by intros [] ? ? ?. }
  destruct (decide (a = nia0)) as [->|Hne].
  { eexists. split; [done|]. intros [|b before] i after [= <- ->]; [done|]. intros. by left. }
  replace (integ_number a =? 0) with false by by destruct a.
  assert (Hb : is_Some (supported !! Z.to_nat (integ_number a - 1))).
  { apply lookup_lt_is_Some. destruct a; simpl in *; try done; lia. }
  destruct Hb as [b Hb]. unfold supported_at. rewrite Hb, bind_ok. destruct b.
  - rewrite integrity_from_to, bind_ok. eexists. split; [done|]. split_and!; [done..|]. by exists [], prefs.
  - destruct IH as (r & -> & Hr). exists r. split; [done|]. destruct r as [i|].
    + destruct Hr as (Hi & Hs & before & after & -> & Hbef). split_and!; [done..|].
      exists (a :: before), after. split; [done|]. by constructor.
    + intros [|b before] i after [= <- ->] Hi Hs; [congruence|]. right. by eapply Hr.
Qed.

Lemma select_ciph_spec supported prefs :
  length supported = 3%nat ->
  exists r, select_ciph supported prefs = ok r /\
    match r with
    | Some i => (i = nea0 \/ supported !! Z.to_nat (cipher_number i - 1) = Some true) /\
        exists before after, prefs = before ++ i :: after /\
          Forall (fun a => a <> nea0 /\ supported !! Z.to_nat (cipher_number a - 1) = Some false) before
    | None => Forall (fun a => a <> nea0 /\ supported !! Z.to_nat (cipher_number a - 1) = Some false) prefs
    end.
Proof using Type.
  intros Hl. induction prefs as [|a prefs IH]; simpl; [exists None; by split|].
  destruct (decide (a = nea0)) as [->|Hne].
  { eexists. split; [done|]. split; [by left|]. by exists [], prefs. }
  replace (cipher_number a =? 0) with false by by destruct a.
  assert (Hb : is_Some (supported !! Z.to_nat (cipher_number a - 1))).
  { apply lookup_lt_is_Some. destruct a; simpl in *; try done; lia. }
  destruct Hb as [b Hb]. unfold supported_at. rewrite Hb, bind_ok. destruct b.
  - rewrite ciphering_from_to, bind_ok. eexists. split; [done|]. split; [by right|]. by exists [], prefs.
  - destruct IH as (r & -> & Hr). exists r. split; [done|]. destruct r as [i|].
    + destruct Hr as (Hi & before & after & -> & Hbef). split; [done|].
      exists (a :: before), after. split; [done|]. by constructor.
    + by constructor.
Qed.

(** ** Separation of the derived keys *)

(** The derivations of the program: the four keys of the access stratum, and K_NG-RAN* of a cell. *)
Inductive derivation :=
| derive_enc (rrc : bool) (a : ciphering_algorithm)
| derive_int (rrc : bool) (a : integrity_algorithm)
| derive_star (target_pci target_ssb_arfcn : Z).

(** What the program feeds to the HMAC for a derivation. *)
Definition derivation_input (d : derivation) : outcome bytes :=
  match d with
  | derive_enc rrc a =>
      ok (kdf_input algorithm_key_derivation
            [distinguisher_number (if rrc then rrc_enc_alg else up_enc_alg)] [cipher_number a])
  | derive_int rrc a =>
      ok (kdf_input algorithm_key_derivation
            [distinguisher_number (if rrc then rrc_int_alg else up_int_alg)] [integ_number a])
  | derive_star pci arfcn =>
      p ← k_ng_ran_star_params pci arfcn; ok (kdf_input k_ng_ran_star_derivation p.1 p.2)
  end.

(** The keys are the HMACs of those inputs. *)
Lemma generated_keys key rrc a i :
  (if rrc : bool then generate_k_rrc key a i else generate_k_up key a i) =
  (match derivation_input (derive_enc rrc a) with ok s => hmac_sha256 key s | fail _ => [] end,
   match derivation_input (derive_int rrc i) with ok s => hmac_sha256 key s | fail _ => [] end).
Proof using Type. by destruct rrc. Qed.

(** [target_pci] is a [uint16_t]. *)
Definition derivation_ok (d : derivation) : Prop :=
  match d with derive_star pci arfcn => 0 <= pci < 2 ^ 16 /\ 0 <= arfcn < 2 ^ 32 | _ => True end.

Lemma land_octet x : Z.land x 0xff = x mod 256.
Proof using Type. apply (land_mask x 8). lia. Qed.

Lemma k_ng_ran_star_params_inj pci arfcn pci' arfcn' p :
  0 <= pci < 2 ^ 16 -> 0 <= pci' < 2 ^ 16 -> 0 <= arfcn -> 0 <= arfcn' ->
  k_ng_ran_star_params pci arfcn = ok p -> k_ng_ran_star_params pci' arfcn' = ok p ->
  pci = pci' /\ arfcn = arfcn'.
Proof using Type.
  intros ????. unfold k_ng_ran_star_params. rewrite !land_octet, !Z.shiftr_div_pow2 by lia.
  change (2 ^ 8) with 256. change (2 ^ 16) with 65536 in *. change (2 ^ 24) with 16777216.
  zcases; intros [= <-] [= E]; repeat match goal with H : _ :: _ = _ :: _ |- _ => injection H as H end;
    try discriminate; divmod.
Qed.

Lemma k_ng_ran_star_params_shape pci arfcn p :
  k_ng_ran_star_params pci arfcn = ok p -> length p.1 = 2%nat /\ (length p.2 = 2%nat \/ length p.2 = 3%nat).
Proof using Type. unfold k_ng_ran_star_params. zcases; intros [= <-]; auto. Qed.

Lemma k_ng_ran_star_params_ok pci arfcn :
  (exists p, k_ng_ran_star_params pci arfcn = ok p) <-> arfcn < 2 ^ 24.
Proof using Type.
  unfold k_ng_ran_star_params. split; [intros [p Hp]; revert Hp|intros]; zcases; eauto; try done; lia.
Qed.

Lemma kdf_input_inj fc p0 p1 p0' p1' :
  length p0 = length p0' -> kdf_input fc p0 p1 = kdf_input fc p0' p1' -> p0 = p0' /\ p1 = p1'.
Proof using Type.
  intros L E. unfold kdf_input in E. injection E as E. apply app_inj_1 in E as [-> E]; [|done].
  split; [done|]. injection E as E. by apply app_inj_2 in E as [-> _].
Qed.

(** The key derivation separates its uses: of the derivations of the program (ciphering and integrity
    keys of RRC and of the user plane for each algorithm, K_NG-RAN* for each target cell), two that hand the
    same octets to the HMAC are the same derivation; and each has an input unless the SSB ARFCN needs more
    than three octets, which ends the process. *)
Theorem kdf_separates_keys d d' :
  derivation_ok d -> derivation_ok d' ->
  (derivation_input d = derivation_input d' -> (exists s, derivation_input d = ok s) -> d = d') /\
  ((exists s, derivation_input d = ok s) <->
   match d with derive_star _ arfcn => arfcn < 2 ^ 24 | _ => True end).
Proof using Type.
  intros Hd Hd'. split.
  - intros E [s Es]. rewrite Es in E. symmetry in E.
    destruct d as [rrc a|rrc a|pci arfcn], d' as [rrc' a'|rrc' a'|pci' arfcn']; cbn [derivation_input] in E, Es;
      try (apply bind_ok_inv in E as (p' & Ep' & E)); try (apply bind_ok_inv in Es as (p & Ep & Es));
      rewrite <- Es in E; injection E as E; try discriminate;
      try (by destruct rrc, rrc'; try discriminate; destruct a, a').
    destruct (k_ng_ran_star_params_shape _ _ _ Ep) as [L _], (k_ng_ran_star_params_shape _ _ _ Ep') as [L' _].
    destruct (kdf_input_inj k_ng_ran_star_derivation p'.1 p'.2 p.1 p.2) as [E0 E1];
      [congruence|by unfold kdf_input; f_equal|]. rewrite (surjective_pairing p'), E0, E1 in Ep'.
    rewrite (surjective_pairing p) in Ep. destruct Hd as [??], Hd' as [??].
    by destruct (k_ng_ran_star_params_inj pci arfcn pci' arfcn' (p.1, p.2)) as [-> ->]; [lia..|done|done|].
  - destruct d as [rrc a|rrc a|pci arfcn]; cbn [derivation_input]; [by split; eauto..|].
    rewrite <- (k_ng_ran_star_params_ok pci). split; intros [p Hp].
    + apply bind_ok_inv in Hp as (q & Hq & _). eauto.
    + rewrite Hp. by eexists.
Qed.

(** ** Selection and derivation together *)
Context (hmac_sha256_length : forall key s, length (hmac_sha256 key s) = 32%nat).
Context (hmac_sha256_bytes : forall key s, is_bytes (hmac_sha256 key s)).

(** A key that mbedtls and the engines take. *)
Definition key_ok (key : bytes) : Prop := length key = 16%nat /\ is_bytes key.

Lemma truncate_key_ok key s : key_ok (truncate_key (hmac_sha256 key s)).
Proof using hmac_sha256_bytes hmac_sha256_length.
  unfold truncate_key, slice, sec_key_len, sec_128_key_len. split.
  - rewrite length_take, length_drop, hmac_sha256_length. done.
  - apply Forall_take, Forall_drop, hmac_sha256_bytes.
Qed.

Lemma generate_as_keys_config c i a dom :
  algos_selected (sel_algos c) = true -> sel_integ_algo (sel_algos c) = Some i ->
  sel_cipher_algo (sel_algos c) = Some a ->
  exists c' cfg, generate_as_keys c = ok c' /\ k c' = k c /\ sel_algos c' = sel_algos c /\
    get_128_as_config c' dom = ok cfg /\ domain cfg = dom /\ integ_algo cfg = Some i /\ cipher_algo cfg = a /\
    (exists key, k_128_int cfg = Some key /\ key_ok key) /\ key_ok (k_128_enc cfg).
Proof using hmac_sha256_bytes hmac_sha256_length.
  intros Hs Hi Ha. unfold generate_as_keys, get_128_as_config, get_as_config, selected. rewrite Hs, Hi, Ha. cbn.
  eexists _, _. split; [done|]. split; [done|]. split; [done|]. unfold set_as_keys. cbn. rewrite Hs, Hi, Ha. cbn.
  split; [done|]. cbn. split_and!; [done..| |]; destruct dom; eauto using truncate_key_ok.
Qed.

(** For any capabilities and preference lists [select_algorithms] returns, and when it says true the
    integrity algorithm is the first supported one of its list, never NIA0, and the ciphering algorithm
    the first of its list that is NEA0 or supported; the keys can then be derived, also from a new K_NG-RAN* for
    a cell with an SSB ARFCN of at most three octets, and for either domain the 128-bit
    configuration carries those algorithms and 16-octet keys, from which the constructor of the engine
    builds an engine with integrity protection on: none of the assertions on the way can fail. *)
Theorem security_context_configures `{Mbedtls} c ints ciphs (bearer pci arfcn : Z) dir dom (ciph_on : bool) :
  length (supported_int_algos c) = 3%nat -> length (supported_enc_algos c) = 3%nat -> arfcn < 2 ^ 24 ->
  exists c1 sel, select_algorithms ints ciphs c = ok (c1, sel) /\
    (sel = true ->
     exists i a before after before' after', ints = before ++ i :: after /\ ciphs = before' ++ a :: after' /\
       i <> nia0 /\ supported_int_algos c !! Z.to_nat (integ_number i - 1) = Some true /\
       Forall (fun j => j <> nia0 /\ supported_int_algos c !! Z.to_nat (integ_number j - 1) = Some false) before /\
       (a = nea0 \/ supported_enc_algos c !! Z.to_nat (cipher_number a - 1) = Some true) /\
       Forall (fun b => b <> nea0 /\ supported_enc_algos c !! Z.to_nat (cipher_number b - 1) = Some false) before' /\
       exists c2 c3, generate_as_keys c1 = ok c2 /\ horizontal_key_derivation pci arfcn c1 = ok c3 /\
         Forall (fun ctx => exists cfg eng, get_128_as_config ctx dom = ok cfg /\
           domain cfg = dom /\ integ_algo cfg = Some i /\ cipher_algo cfg = a /\ key_ok (k_128_enc cfg) /\
           engine_ctor cfg bearer dir true ciph_on = ok eng /\ is_Some (integ_eng eng)) [c2; c3]).
Proof using hmac_sha256_bytes hmac_sha256_length.
  intros Hint Henc Harfcn. unfold select_algorithms.
  destruct (select_integ_spec _ ints Hint) as (ri & -> & Hri). rewrite bind_ok. destruct ri as [i|]; [|by eexists _, _].
  cbn [supported_enc_algos set_sel_algos]. destruct (select_ciph_spec _ ciphs Henc) as (rc & -> & Hrc). rewrite bind_ok.
  destruct rc as [a|]; [|by eexists _, _].
  eexists _, _. split; [done|]. intros _. destruct Hri as (Hi & Hsi & b & af & -> & Hb), Hrc as (Ha & b' & af' & -> & Hb').
  exists i, a, b, af, b', af'. split_and!; [done..|].
  assert (Hcfg : forall ctx, algos_selected (sel_algos ctx) = true -> sel_integ_algo (sel_algos ctx) = Some i ->
    sel_cipher_algo (sel_algos ctx) = Some a -> exists ctx', generate_as_keys ctx = ok ctx' /\
      exists cfg eng, get_128_as_config ctx' dom = ok cfg /\
        domain cfg = dom /\ integ_algo cfg = Some i /\ cipher_algo cfg = a /\ key_ok (k_128_enc cfg) /\
        engine_ctor cfg bearer dir true ciph_on = ok eng /\ is_Some (integ_eng eng)).
  { intros ctx H1 H2 H3. destruct (generate_as_keys_config ctx i a dom H1 H2 H3)
      as (ctx' & cfg & E & _ & _ & Ecfg & Ed & Ei & Ea & (key & Ek & _) & Hk).
    exists ctx'. split; [done|]. exists cfg. unfold engine_ctor. rewrite Ei, Ek. cbn.
    eexists. split; [done|]. split; [done|]. split; [done|]. split; [done|]. split; [done|]. split; [done|]. by eexists. }
  destruct (proj2 (k_ng_ran_star_params_ok pci arfcn) Harfcn) as [p Ep].
  unfold horizontal_key_derivation, generate_k_ng_ran_star. rewrite Ep, !bind_ok.
  match goal with |- exists c2 c3, generate_as_keys ?c1 = _ /\ generate_as_keys ?c1' = _ /\ _ =>
    destruct (Hcfg c1) as (c2 & E2 & H2); [done..|]; destruct (Hcfg c1') as (c3 & E3 & H3); [done..|] end.
  exists c2, c3. split; [done|]. split; [done|]. by repeat constructor.
Qed.
End key_derivation.
