(* ===== verification/SecurityProps.v ===== *)
(** * What the security engine provides

    Properties of the security layer as a whole: an engine built from a configuration recovers exactly
    what it protected, accepts exactly what carries the right MAC, and enciphers by a key stream that
    does not depend on the message; the AES-CMAC written out in the code is that of RFC 4493 (so that both
    builds of NIA2 agree); the code's SNOW 3G is the specified one, and ZUC's shift register runs in the field
    GF(2^31 - 1).

    The witnesses instantiate mbedtls by [sample_mbedtls], three total functions of the right shape. *)

From S2P Require Import Prelude BitEncoding Security Snow3g Zuc SecAlgorithms SecurityEngine SecurityContext.

(** ** A concrete library for the examples *)

(** A "block cipher" that mixes key and block octet by octet. *)
Definition sample_ecb (key block : bytes) : bytes :=
  (fun i => (arr key i + 3 * arr block i + 7 * arr block (15 - i) + i) mod 256) <$> seqZ 0 16.

#[export] Instance sample_mbedtls : Mbedtls := {|
  mbedtls_cmac_c := false;
  aes_crypt_ecb := sample_ecb;
  aes_ctr_stream := fun key nonce n => (fun i => (arr nonce (i mod 16) + i) mod 256) <$> seqZ 0 (Z.of_nat n);
  aes_ctr_accepts := fun _ _ _ => true;
  cipher_cmac := fun key data => None
|}.

#[export] Instance sample_mbedtls_laws : MbedtlsLaws sample_mbedtls.
Proof.
  split.
  - intros key block. split; [done|]. apply Forall_fmap, Forall_true. intros i. apply Z.mod_pos_bound. lia.
  - intros key nonce n. cbn. split; [rewrite length_fmap, length_seqZ; lia|].
    apply Forall_fmap, Forall_true. intros i. apply Z.mod_pos_bound. lia.
  - done.
Qed.

Definition sample_key : bytes := [1; 2; 3; 4; 5; 6; 7; 8; 9; 10; 11; 12; 13; 14; 15; 16].
Definition sample_sec_cfg (integ : integrity_algorithm) (ciph : ciphering_algorithm) : sec_128_as_config :=
  mk_sec_128 domain_up (Some sample_key) sample_key (Some integ) ciph.

Section security_props.
Context `{HM : Mbedtls} {HL : MbedtlsLaws HM}.
Context (append_ok : bytes -> bool).

(** Whether an engine with this configuration calls mbedtls where the call may report an error. *)
Definition may_fail (cfg : sec_128_as_config) (integ ciph : bool) : Prop :=
  (ciph = true /\ cipher_algo cfg = nea2) \/ (integ = true /\ integ_algo cfg = Some nia2 /\ mbedtls_cmac_c = true).

Lemma engine_ctor_parts cfg bearer dir integ ciph e :
  engine_ctor cfg bearer dir integ ciph = ok e ->
  (is_Some (integ_eng e) <-> integ = true) /\
  (~ may_fail cfg integ ciph ->
   (forall eng v count mac, integ_eng e = Some eng -> compute_mac eng v count = ok mac -> is_Some mac) /\
   (forall eng count n, cipher_eng e = Some eng -> is_Some (cipher_stream eng count n))).
Proof using Type.
  unfold engine_ctor. intros (ie & Eie & [= <-])%bind_ok_inv. cbn [integ_eng cipher_eng].
  assert (Hi : (is_Some ie <-> integ = true) /\ (~ may_fail cfg integ ciph -> forall eng, ie = Some eng ->
    forall key b d, eng <> integrity_engine_nia2_cmac key b d)).
  { destruct integ; [|injection Eie as <-; split; [split; [by intros []|done]|done]].
    destruct (integ_algo cfg) as [algo|] eqn:Ea; [|done]. destruct (k_128_int cfg) as [key|]; [|done]. injection Eie as <-.
    split; [by split|]. intros Hm eng [= <-] key' b d. destruct algo; try done. destruct mbedtls_cmac_c eqn:Ec; [|done].
    intros _. apply Hm. right. by rewrite Ea. }
  destruct Hi as [Hi Hn]. split; [done|]. intros Hm. split.
  - intros eng v count mac -> Hmac. specialize (Hn Hm eng eq_refl).
    destruct eng as [? ? ?|? ? ?|? ? ? algo]; cbn [compute_mac] in Hmac; [by exfalso; eapply Hn|..];
      apply bind_ok_inv in Hmac as (m & _ & [= <-]); by eexists.
  - intros eng count n. destruct ciph; [|done]. destruct (cipher_algo cfg) eqn:Ea; [done|..]; intros [= <-]; [by eexists| |by eexists].
    exfalso. apply Hm. by left.
Qed.

(** C16: an engine built from a configuration protects any PDU of up to [sec_max_pdu_size - 24] octets
    without failing an assertion or leaving a buffer: the header in front of [offset] stays in the clear, four octets
    of MAC are added exactly when integrity is on, and the engine of the peer, built from the same
    configuration, bearer and direction, recovers the PDU from the result. The only errors are those of the buffer pool and,
    for the algorithms done by mbedtls, those of the library. *)
Theorem engine_round_trip cfg bearer dir integ ciph e buf off count :
  engine_ctor cfg bearer dir integ ciph = ok e ->
  is_bytes buf -> 0 <= off < zlen buf -> zlen buf <= sec_max_pdu_size - 24 -> 0 <= count < 2 ^ 32 ->
  exists r, engine_encrypt append_ok e buf off count = ok r /\
    (~ may_fail cfg integ ciph -> append_ok buf = true -> exists pdu, r = inr pdu) /\
    forall pdu, r = inr pdu ->
      take (Z.to_nat off) pdu = take (Z.to_nat off) buf /\
      zlen pdu = zlen buf + (if integ then sec_mac_len else 0) /\
      engine_decrypt e pdu off count = ok (inr buf).
Proof using HL.
  intros He Hb Ho Hl Hc. destruct (engine_ctor_parts _ _ _ _ _ _ He) as [Hi Hn].
  destruct (protect_total (SecurityEngineLaws := security_engine_laws append_ok) e buf off count) as [r Er]; [done..|].
  exists r. split; [exact Er|]. cbn in Er. split.
  - intros Hm Ha. destruct (Hn Hm) as [Hmac Hks]. unfold engine_encrypt in Er.
    assert (Hp : forall p, is_bytes p -> off < zlen p -> zlen p < 2 ^ 28 ->
      match cipher_eng e with Some eng => apply_ciphering eng p off count | None => ok (inr p) end = ok r ->
      exists pdu, r = inr pdu).
    { intros p Hpb Hpo Hpl E. destruct (cipher_eng e) as [ce|]; [|injection E as <-; by eexists].
      rewrite apply_ciphering_stream in E by (done || lia).
      destruct (Hks ce count (zlen (drop (Z.to_nat off) p)) eq_refl) as [ks Eks]. rewrite Eks in E. injection E as <-. by eexists. }
    destruct (integ_eng e) as [ie|].
    + unfold protect_integrity in Er. destruct (compute_mac_total ie buf count) as (mac & Emac & Hm4).
      { intros ->. simpl in Ho. lia. }
      { unfold sec_max_pdu_size in *. lia. }
      destruct (Hmac ie buf count mac eq_refl Emac) as [m ->]. rewrite Emac, !bind_ok, Ha in Er.
      destruct (Hm4 m eq_refl). apply (Hp (buf ++ m)); [by apply Forall_app|rewrite length_app; lia| |done].
      rewrite length_app. unfold sec_max_pdu_size in Hl. lia.
    + rewrite bind_ok in Er. apply (Hp buf); [done|lia| |done]. unfold sec_max_pdu_size in Hl. lia.
  - intros pdu ->. destruct (protect_recovered (SecurityEngineLaws := security_engine_laws append_ok) e buf off count pdu)
      as (_ & _ & Ht & Hd); [done..|]. split; [done|]. split; [|exact Hd].
    unfold engine_encrypt in Er. apply bind_ok_inv in Er as (r & Er & E2). destruct r as [err|p]; [done|].
    assert (Hp : is_bytes p /\ zlen p = zlen buf + if integ then sec_mac_len else 0).
    { destruct (integ_eng e) as [ie|].
      - destruct integ; [|destruct Hi as [Hi _]; discriminate Hi; by eexists].
        unfold protect_integrity in Er. destruct (compute_mac_total ie buf count) as (mac & Emac & Hm4).
        { intros ->. simpl in Ho. lia. }
        { unfold sec_max_pdu_size in *. lia. }
        rewrite Emac, bind_ok in Er. destruct mac as [m|]; [|done]. destruct (append_ok buf); [|done]. injection Er as <-.
        destruct (Hm4 m eq_refl). rewrite length_app. unfold sec_mac_len. split; [by apply Forall_app|lia].
      - destruct integ; [destruct Hi as [_ Hi]; by destruct (Hi eq_refl)|]. injection Er as <-. split; [done|lia]. }
    destruct Hp as [Hpb Hpl]. destruct (cipher_eng e) as [ce|]; [|by injection E2 as <-].
    unfold sec_mac_len, sec_max_pdu_size in *.
    destruct (apply_ciphering_involutive ce p off count pdu) as (_ & Hl' & _); [done|destruct integ; lia..|done|]. lia.
Qed.

(** C20: the integrity check accepts exactly the PDUs that end with the MAC of what is in front of it: a
    PDU with any other last four octets, or of at most four, is refused with an error and nothing is
    handed on. *)
Theorem verify_integrity_exact eng buf count :
  zlen buf <= sec_max_pdu_size - 20 ->
  exists r, verify_integrity eng buf count = ok r /\
    forall v, r = inr v <->
      v <> [] /\ exists mac, compute_mac eng v count = ok (Some mac) /\ length mac = 4%nat /\ buf = v ++ mac.
Proof using HL.
  intros Hl. destruct (verify_integrity_total eng buf count Hl) as [r Er]. exists r. split; [done|]. intros v. split.
  - intros ->. unfold verify_integrity in Er. destruct (Z.leb_spec (zlen buf) sec_mac_len); [done|].
    apply bind_ok_inv in Er as (mac & Emac & E). destruct mac as [mac|]; [|done]. case_bool_decide as Em; [|done]. injection E as <-.
    unfold sec_mac_len in *. set (v := slice buf 0 (zlen buf - 4)) in *. split.
    + intros E0. assert (zlen v = zlen buf - 4) by (apply slice_length; lia). rewrite E0 in *. simpl in *. lia.
    + exists mac. split; [done|]. rewrite Em. split; [|symmetry].
      * assert (zlen (slice buf (zlen buf - 4) 4) = 4) by (apply slice_length; lia). lia.
      * pose proof (slice_app buf 0 (zlen buf - 4) 4) as Ha. rewrite Z.add_0_l in Ha. unfold v. rewrite Ha by lia.
        replace (zlen buf - 4 + 4) with (zlen buf) by lia. apply slice_full.
  - intros (Hne & mac & Emac & Hm & ->). rewrite (verify_integrity_appended eng v mac count) in Er by done. congruence.
Qed.

(** Each ciphering engine xors what is behind the header with a key stream that key, COUNT, bearer and
    direction fix: for NEA1 and NEA3 the words of SNOW 3G and ZUC in network order, for NEA2 the counter mode of AES. *)
Theorem apply_ciphering_is_stream eng buf off count :
  is_bytes buf -> 0 <= off < zlen buf -> zlen buf < 2 ^ 28 ->
  apply_ciphering eng buf off count =
    ok (match cipher_stream eng count (zlen buf - off) with
        | Some ks => inr (take (Z.to_nat off) buf ++ xor_bytes (drop (Z.to_nat off) buf) ks)
        | None => inl ciphering_failure
        end).
Proof using HM.
  intros Hb Ho Hl. rewrite apply_ciphering_stream by done. do 2 f_equal. rewrite length_drop.
  by replace (Z.of_nat (length buf - Z.to_nat off)) with (zlen buf - off) by lia.
Qed.

(** C30: NIA2 does not depend on the build: the AES-CMAC that the code writes out for a library without CMAC is
    that of RFC 4493 over the preamble and the message, so it agrees with the variant that calls the library, when the
    library computes RFC 4493. Lengths the assertion refuses end the process. *)
Theorem nia2_is_rfc4493 key count bearer dir v :
  (forall data, cipher_cmac key data = Some (rfc_cmac key data)) ->
  (zlen v + 24 <= sec_max_pdu_size ->
   exists mac, nia2_non_cmac_compute_mac key count bearer dir v = ok mac /\
     mac = take 4 (rfc_cmac key (nia2_preamble count bearer dir ++ v)) /\
     nia2_cmac_compute_mac key count bearer dir v = Some mac) /\
  (sec_max_pdu_size < zlen v + 24 -> nia2_non_cmac_compute_mac key count bearer dir v = fail assertion).
Proof using HL.
  intros Hcmac. split.
  - intros Hl. rewrite nia2_non_cmac_rfc by done. eexists. split; [done|]. split; [done|].
    unfold nia2_cmac_compute_mac. by rewrite Hcmac.
  - intros Hl. unfold nia2_non_cmac_compute_mac. cbv zeta.
    replace (zlen v + 8 + 16 <=? sec_max_pdu_size) with false by (symmetry; apply Z.leb_gt; lia). done.
Qed.
End security_props.

(** The IV of 128-NEA1: BEARER, DIRECTION and zeros in the second and the fourth word. *)
Definition nea1_iv (count bearer : Z) (direction : security_direction) : list Z :=
  let w := bearer * 2 ^ 27 + direction_to_number direction * 2 ^ 26 in [w; count; w; count].

Lemma nea1_stream_words key count bearer dir n : 0 <= bearer < 32 ->
  nea1_stream key count bearer dir n =
  ks_bytes (s3g_generate_keystream (s3g_initialize (s3g_key_words key) (nea1_iv count bearer dir)) ((n + 3) / 4)) 0 n.
Proof.
  intros Hb. unfold nea1_stream, nea1_iv. cbv zeta.
  assert (Z.lor (Z.shiftl (Z.land bearer 0x1f) 27) (Z.shiftl (Z.land (direction_to_number dir) 1) 26) =
    bearer * 2 ^ 27 + direction_to_number dir * 2 ^ 26) as ->; [|reflexivity].
  change 0x1f with (2 ^ 5 - 1). rewrite land_mask, (Z.mod_small bearer), lor_shiftl_add by (lia || by destruct dir). by destruct dir.
Qed.

(** C39: The SNOW 3G of the code is SNOW 3G as it is defined. For a key of octets and four words of IV there are sequences of cells and of
    contents of the three registers that satisfy the definition: the load of key and IV; the recurrence
    s(t+16) = alpha s(t) + s(t+2) + alpha^-1 s(t+11) in the field of 2^32 elements, with the output of the automaton added during the
    first 32 clocks; the transitions R1 := R2 + (R3 xor s(t+5)), R2 := S1(R1), R3 := S2(R2), whose S-boxes are the Rijndael
    inverse with its affine map and the Dickson polynomial, followed by the MixColumn of their field. For all such sequences the
    table-driven code generates the words F(t) xor s(t) from time 33 on; and 128-NEA1 xors a message of up to 2^28 octets with the octets of
    these words, under the IV made of COUNT, BEARER and DIRECTION. *)
Theorem s3g_is_snow3g key iv n :
  is_bytes key -> Forall (word 32) iv -> 0 <= n ->
  (exists s R1 R2 R3, snow_run key iv s R1 R2 R3) /\
  forall s R1 R2 R3, snow_run key iv s R1 R2 R3 ->
    s3g_generate_keystream (s3g_initialize (s3g_key_words key) iv) n = snow_stream s R1 R2 (Z.to_nat n) /\
    forall count bearer dir msg,
      iv = nea1_iv count bearer dir -> 0 <= bearer < 32 -> n = (zlen msg + 3) / 4 ->
      is_bytes msg -> msg <> [] -> zlen msg < 2 ^ 28 ->
      security_nea1 key count bearer dir msg (u32 (zlen msg * 8)) =
        ok (xor_bytes msg (ks_bytes (snow_stream s R1 R2 (Z.to_nat n)) 0 (zlen msg))).
Proof.
  intros Hk Hiv Hn. split; [by apply snow_run_exists|]. intros s R1 R2 R3 Hr.
  pose proof (snow_run_stream key iv s R1 R2 R3 n Hk Hiv Hr Hn) as E. split; [exact E|].
  intros count bearer dir msg -> Hb -> Hm Hne Hl. by rewrite security_nea1_stream, nea1_stream_words, E.
Qed.

(** ZUC's register works in the field of 2^31 - 1 elements. From a key and an IV of octets the initialisation
    leaves 16 cells in 1 .. 2^31 - 1; each clock keeps that, and shifts in the element of the field that the
    specification's linear form gives, although the code only adds, rotates and folds the carry of
    machine words; the key stream consists of 32-bit words. *)
Theorem zuc_register_is_field key iv s n :
  is_bytes key -> is_bytes iv -> zuc_wf s ->
  zuc_wf (zuc_initialize key iv) /\
  (exists f, zlfsr (LFSRWithWorkMode s) = drop 1 (zlfsr s) ++ [f] /\ 0 < f <= 2 ^ 31 - 1 /\
     (f - (2 ^ 15 * arr (zlfsr s) 15 + 2 ^ 17 * arr (zlfsr s) 13 + 2 ^ 21 * arr (zlfsr s) 10 +
           2 ^ 20 * arr (zlfsr s) 4 + (1 + 2 ^ 8) * arr (zlfsr s) 0)) mod (2 ^ 31 - 1) = 0) /\
  zuc_wf (LFSRWithWorkMode s) /\
  Forall (fun w => 0 <= w < 2 ^ 32) (zuc_generate_keystream s n).
Proof.
  intros Hk Hiv Hs. split; [by apply zuc_initialize_wf|]. split; [|split; [by apply LFSRWithWorkMode_wf|by apply zuc_generate_keystream_words]].
  destruct (lfsr_feedback_spec (zlfsr s)) as [Hm Hc].
  { intros i. apply cells_arr_any, Hs. }
  { apply cells_arr; [apply Hs|]. rewrite (zuc_length s Hs). lia. }
  eexists. split; [done|]. split; [exact Hc|]. fold zuc_p in *. rewrite Zminus_mod, Hm, Z.sub_diag. done.
Qed.

(** ** Witnesses *)

Definition sample_pdu : bytes := [128; 5; 69; 0; 0; 11].

Lemma sample_pdu_bytes : is_bytes sample_pdu.
Proof. repeat constructor; unfold is_byte; lia. Qed.

Lemma engine_round_trip_witness :
  exists e pdu, engine_ctor (sample_sec_cfg nia2 nea3) 3 dir_downlink true true = ok e /\
    engine_encrypt (fun _ => true) e sample_pdu 2 7 = ok (inr pdu) /\
    take 2 pdu = [128; 5] /\ zlen pdu = 10 /\ engine_decrypt e pdu 2 7 = ok (inr sample_pdu).
Proof.
  eexists. destruct (engine_round_trip (fun _ => true) (sample_sec_cfg nia2 nea3) 3 dir_downlink true true _ sample_pdu 2 7 eq_refl
    sample_pdu_bytes) as (r & Er & Hr & Hp); [by vm_compute..|].
  destruct Hr as [pdu ->]; [intros [[_ H]|(_ & _ & H)]; discriminate|done|].
  exists pdu. split; [reflexivity|]. split; [exact Er|]. destruct (Hp pdu eq_refl) as (Ht & Hl & Hd). done.
Defined.

Lemma verify_integrity_exact_witness :
  exists r, verify_integrity (integrity_engine_nia2_non_cmac sample_key 3 dir_uplink) (sample_pdu ++ [0; 0; 0; 0]) 7 = ok r /\
    r <> inr sample_pdu.
Proof.
  destruct (verify_integrity_exact (integrity_engine_nia2_non_cmac sample_key 3 dir_uplink) (sample_pdu ++ [0; 0; 0; 0]) 7)
    as (r & Er & Hr); [by vm_compute|].
  exists r. split; [exact Er|]. intros E. apply Hr in E as (_ & mac & Em & _ & Eb).
  apply (app_inv_head sample_pdu) in Eb as <-. revert Em. vm_compute. discriminate.
Defined.

Lemma apply_ciphering_is_stream_witness :
  apply_ciphering (ciphering_engine_nea2 sample_key 3 dir_uplink) sample_pdu 2 0x01020304 =
    ok (inr [128; 5; Z.lxor 69 1; Z.lxor 0 3; Z.lxor 0 5; Z.lxor 11 7]).
Proof.
  etransitivity; [apply (apply_ciphering_is_stream (HM := sample_mbedtls) _ _ _ _ sample_pdu_bytes); by vm_compute|].
  vm_compute. reflexivity.
Defined.

(** A library whose CMAC is that of the RFC. *)
Definition cmac_mbedtls : Mbedtls := {|
  mbedtls_cmac_c := true;
  aes_crypt_ecb := sample_ecb;
  aes_ctr_stream := @aes_ctr_stream sample_mbedtls;
  aes_ctr_accepts := @aes_ctr_accepts sample_mbedtls;
  cipher_cmac := fun key data => Some (rfc_cmac (HM := sample_mbedtls) key data)
|}.

Lemma cmac_mbedtls_laws : MbedtlsLaws cmac_mbedtls.
Proof.
  split; [apply (ecb_block (M := sample_mbedtls))|apply (ctr_octets (M := sample_mbedtls))|].
  intros key data mac [= <-]. apply (rfc_cmac_block (HL := sample_mbedtls_laws)).
Qed.

Lemma nia2_is_rfc4493_witness :
  exists mac, nia2_non_cmac_compute_mac (H := cmac_mbedtls) sample_key 7 3 dir_uplink sample_pdu = ok mac /\
    nia2_cmac_compute_mac (H := cmac_mbedtls) sample_key 7 3 dir_uplink sample_pdu = Some mac.
Proof.
  destruct (nia2_is_rfc4493 (HL := cmac_mbedtls_laws) sample_key 7 3 dir_uplink sample_pdu) as [H _]; [done|].
  destruct H as (mac & E1 & _ & E2); [by vm_compute|]. exists mac. split; [exact E1|exact E2].
Defined.

Lemma sample_key_bytes : is_bytes sample_key.
Proof. repeat constructor; unfold is_byte; lia. Qed.

Lemma s3g_is_snow3g_witness :
  exists s R1 R2 R3, snow_run sample_key (nea1_iv 7 3 dir_uplink) s R1 R2 R3 /\
    security_nea1 sample_key 7 3 dir_uplink sample_pdu 48 = ok (xor_bytes sample_pdu (ks_bytes (snow_stream s R1 R2 2) 0 6)).
Proof.
  assert (Hiv : Forall (word 32) (nea1_iv 7 3 dir_uplink)) by (apply (bool_decide_unpack _); vm_compute; exact I).
  destruct (s3g_is_snow3g sample_key (nea1_iv 7 3 dir_uplink) 2 sample_key_bytes Hiv ltac:(lia)) as [(s & R1 & R2 & R3 & Hr) H].
  exists s, R1, R2, R3. split; [exact Hr|].
  exact (proj2 (H s R1 R2 R3 Hr) 7 3 dir_uplink sample_pdu eq_refl ltac:(lia) eq_refl sample_pdu_bytes ltac:(discriminate) ltac:(vm_compute; reflexivity)).
Defined.

Lemma zuc_register_is_field_witness :
  is_bytes sample_key /\ zuc_wf (LFSRWithWorkMode (zuc_initialize sample_key sample_key)).
Proof.
  split; [apply sample_key_bytes|].
  destruct (zuc_register_is_field sample_key sample_key (zuc_initialize sample_key sample_key) 1
    sample_key_bytes sample_key_bytes (zuc_initialize_wf _ _ sample_key_bytes sample_key_bytes)) as (_ & _ & H & _). exact H.
Defined.

Lemma kdf_separates_keys_witness :
  derivation_input (derive_enc true nea2) <> derivation_input (derive_int false nia2) /\
  exists s, derivation_input (derive_star 500 620000) = ok s.
Proof.
  split.
  - destruct (kdf_separates_keys (derive_enc true nea2) (derive_int false nia2)) as [H _]; [done|done|].
    intros E. discriminate (H E (ex_intro _ _ eq_refl)).
  - destruct (kdf_separates_keys (derive_star 500 620000) (derive_star 500 620000)) as [_ H];
      [unfold derivation_ok; lia|unfold derivation_ok; lia|]. apply H. lia.
Defined.

(** A UE that supports NIA2, NEA2 and NEA3, and a context without keys yet. *)
Definition sample_context : security_context :=
  mk_context (sample_key ++ sample_key) [false; true; false] [false; true; true] (mk_selected false None None)
    (mk_as_keys [] [] [] []).

Lemma security_context_configures_witness :
  exists c1 c2, select_algorithms [nia1; nia2; nia3; nia0] [nea1; nea3; nea2; nea0] sample_context = ok (c1, true) /\
    sel_algos c1 = mk_selected true (Some nia2) (Some nea3) /\
    generate_as_keys (fun _ _ => replicate 32 9) c1 = ok c2 /\
    exists cfg, get_128_as_config c2 domain_rrc = ok cfg /\ key_ok (k_128_enc cfg).
Proof.
  assert (Hb : forall key s : bytes, is_bytes (replicate 32 9)) by (intros _ _; repeat constructor; unfold is_byte; lia).
  destruct (security_context_configures (fun _ _ => replicate 32 9) (fun _ _ => eq_refl) Hb (H := sample_mbedtls) sample_context
    [nia1; nia2; nia3; nia0] [nea1; nea3; nea2; nea0] 1 500 620000 dir_downlink domain_rrc true) as (c1 & sel & E & H).
  - done.
  - done.
  - lia.
  - vm_compute in E. injection E as <- <-. destruct (H eq_refl) as (i & a & b & af & b' & af' & _ & _ & _ & _ & _ & _ & _ & c2 & c3 & E2 & _ & HF).
    eexists _, c2. split; [reflexivity|]. split; [reflexivity|]. split; [exact E2|].
    apply Forall_cons in HF as [(cfg & eng & Ec & _ & _ & _ & Hk & _) _]. exists cfg. split; [exact Ec|exact Hk].
Defined.
