(* ===== verification/PdcpBase.v ===== *)
(** * What the PDCP entities share

    [lib/pdcp/pdcp_entity_tx_rx_base.h], [pdcp_sn.h] and [pdcp_pdu.h], the data of
    [include/srsran/pdcp/pdcp_config.h], and the header helpers of the two entities: COUNT values,
    split into HFN and SN, and the estimation of a COUNT from its SN.

    [count_estimation_spec]: the estimate is the only COUNT with that SN within the window around the
    reference. [data_header_roundtrip]: what one entity writes the other reads. *)

From S2P Require Import Prelude PdcpSnUtil.

(** ** Configuration *)
Inductive pdcp_rb_type := rb_srb | rb_drb.
Inductive pdcp_rlc_mode := mode_um | mode_am.

(** [rb_id_t] *)
Inductive rb_id_t := srb_id (n : Z) | drb_id (n : Z) | invalid_rb_id.

(** [static_cast<uint8_t>(sn_size)]; [invalid] follows [size18bits = 18]. *)
Definition pdcp_sn_size_to_uint (sn_size : pdcp_sn_size) : Z :=
  match sn_size with pdcp_sn_12bits => 12 | pdcp_sn_18bits => 18 | pdcp_sn_invalid => 19 end.

Definition pdcp_data_pdu_header_size (sn_size : pdcp_sn_size) : outcome Z :=
  match sn_size with
  | pdcp_sn_12bits => ok 2
  | pdcp_sn_18bits => ok 3
  | pdcp_sn_invalid => fail assertion
  end.

Definition pdcp_window_size (sn_size : pdcp_sn_size) : outcome Z :=
  match sn_size with
  | pdcp_sn_12bits => ok 2048
  | pdcp_sn_18bits => ok 131072
  | pdcp_sn_invalid => fail assertion
  end.

(** The constant members of [pdcp_entity_tx_rx_base]. *)
Record pdcp_base := mk_pdcp_base {
  bearer_id : Z;
  rb_type : pdcp_rb_type;
  rlc_mode : pdcp_rlc_mode;
  hdr_len_bytes : Z;
  window_size : Z;
  sn_size : pdcp_sn_size
}.

Definition pdcp_entity_tx_rx_base (rb_id : rb_id_t) (rb_type : pdcp_rb_type) (rlc_mode : pdcp_rlc_mode)
    (sn_size : pdcp_sn_size) : outcome pdcp_base :=
  hdr_len_bytes ← pdcp_data_pdu_header_size sn_size;
  window_size ← pdcp_window_size sn_size;
  bearer_id ← match rb_id with
              | drb_id n => ok (u8 (n - 1))
              | srb_id n => ok (u8 (n - 1))
              | invalid_rb_id => fail assertion
              end;
  ok (mk_pdcp_base bearer_id rb_type rlc_mode hdr_len_bytes window_size sn_size).

Definition is_srb (b : pdcp_base) : bool := match rb_type b with rb_srb => true | rb_drb => false end.
Definition is_drb (b : pdcp_base) : bool := match rb_type b with rb_srb => false | rb_drb => true end.
Definition is_um (b : pdcp_base) : bool := match rlc_mode b with mode_um => true | mode_am => false end.
Definition is_am (b : pdcp_base) : bool := match rlc_mode b with mode_um => false | mode_am => true end.

(** ** SN, HFN and COUNT *)
Definition pdcp_compute_sn (count : Z) (sn_size : pdcp_sn_size) : Z :=
  Z.land count (Z.shiftr 0xffffffff (32 - pdcp_sn_size_to_uint sn_size)).

Definition pdcp_compute_hfn (count : Z) (sn_size : pdcp_sn_size) : Z :=
  Z.shiftr count (pdcp_sn_size_to_uint sn_size).

Definition pdcp_compute_count (hfn sn : Z) (sn_size : pdcp_sn_size) : Z :=
  Z.lor (u32 (Z.shiftl hfn (pdcp_sn_size_to_uint sn_size))) sn.

Definition pdcp_sn_cardinality (sn_size : pdcp_sn_size) : outcome Z :=
  srsran_assert (pdcp_sn_size_to_uint sn_size <? 32);; ok (Z.shiftl 1 (pdcp_sn_size_to_uint sn_size)).

Definition SN (b : pdcp_base) (count : Z) : Z := pdcp_compute_sn count (sn_size b).
Definition HFN (b : pdcp_base) (count : Z) : Z := pdcp_compute_hfn count (sn_size b).
Definition COUNT (b : pdcp_base) (hfn sn : Z) : Z := pdcp_compute_count hfn sn (sn_size b).

(** The COUNT of an SN next to a reference COUNT: the calculation of RCVD_COUNT, and of
    NOTIFICATION_COUNT in the transmitting entity. *)
Definition count_estimation (b : pdcp_base) (lower sn : Z) : Z :=
  let hfn := if sn <? SN b lower - window_size b then u32 (HFN b lower + 1)
             else if u32 (SN b lower + window_size b) <=? sn then u32 (HFN b lower - 1)
             else HFN b lower in
  COUNT b hfn sn.

(** ** PDU headers *)
Inductive pdcp_dc_field := dc_control | dc_data.

Definition pdcp_dc_to_number (dc : pdcp_dc_field) : Z := match dc with dc_control => 0 | dc_data => 1 end.

Definition pdcp_pdu_get_dc (first_byte : Z) : pdcp_dc_field :=
  if Z.land (Z.shiftr first_byte 7) 1 =? 0 then dc_control else dc_data.

(** [cpt_other n]: a value without enumerator. *)
Inductive pdcp_control_pdu_type :=
| cpt_status_report | cpt_interspersed_rohc_feedback | cpt_ehc_feedback | cpt_other (n : Z).

Definition cpt_to_number (cpt : pdcp_control_pdu_type) : Z :=
  match cpt with
  | cpt_status_report => 0
  | cpt_interspersed_rohc_feedback => 1
  | cpt_ehc_feedback => 2
  | cpt_other n => n
  end.

Definition pdcp_control_pdu_get_cpt (first_byte : Z) : pdcp_control_pdu_type :=
  match Z.land (Z.shiftr first_byte 4) 7 with
  | 0 => cpt_status_report
  | 1 => cpt_interspersed_rohc_feedback
  | 2 => cpt_ehc_feedback
  | n => cpt_other n
  end.

(** [pdcp_entity_rx::read_data_pdu_header]: the SN, when the PDU is longer than its header. *)
Definition read_data_pdu_header (b : pdcp_base) (buf : bytes) : option Z :=
  if zlen buf <=? hdr_len_bytes b then None
  else
    match sn_size b, buf with
    | pdcp_sn_12bits, b0 :: b1 :: _ =>
        Some (Z.lor (Z.shiftl (Z.land b0 0x0f) 8) (Z.land b1 0xff))
    | pdcp_sn_18bits, b0 :: b1 :: b2 :: _ =>
        Some (Z.lor (Z.lor (Z.shiftl (Z.land b0 0x03) 16) (Z.shiftl (Z.land b1 0xff) 8)) (Z.land b2 0xff))
    | _, _ => None
    end.

(** [pdcp_entity_tx::write_data_pdu_header]; [reserve_ok]: the memory for the header is there. *)
Definition write_data_pdu_header (b : pdcp_base) (reserve_ok : bool) (buf : bytes) (sn : Z)
    : outcome (option bytes) :=
  srsran_assert (negb (is_srb b && bool_decide (sn_size b = pdcp_sn_18bits)));;
  if negb reserve_ok then ok None
  else
    let hdr0 := if is_drb b then 0x80 else 0x00 in
    match sn_size b with
    | pdcp_sn_12bits =>
        ok (Some (Z.lor hdr0 (Z.shiftr (Z.land sn 0x00000f00) 8) :: Z.land sn 0x000000ff :: buf))
    | pdcp_sn_18bits =>
        ok (Some (Z.lor hdr0 (Z.shiftr (Z.land sn 0x00030000) 16)
                  :: Z.shiftr (Z.land sn 0x0000ff00) 8 :: Z.land sn 0x000000ff :: buf))
    | pdcp_sn_invalid => ok None
    end.

(** ** Well-formed bases *)

(** What the constructor accepts. *)
Definition base_ok (b : pdcp_base) : Prop :=
  exists rb_id, pdcp_entity_tx_rx_base rb_id (rb_type b) (rlc_mode b) (sn_size b) = ok b.

Lemma base_ok_cases b :
  base_ok b ->
  (sn_size b = pdcp_sn_12bits /\ hdr_len_bytes b = 2 /\ window_size b = 2048) \/
  (sn_size b = pdcp_sn_18bits /\ hdr_len_bytes b = 3 /\ window_size b = 131072).
Proof.
  intros [rb H]. destruct b as [? ? ? ? ? n]; simpl in *. unfold pdcp_entity_tx_rx_base in H.
  destruct n, rb; simplify_eq/=; auto.
Qed.

(** The SN space is twice the window. *)
Definition sn_space (b : pdcp_base) : Z := 2 * window_size b.

Tactic Notation "base_cases" constr(b) hyp(H) :=
  let E := fresh "E" in let Eh := fresh "Eh" in let Ew := fresh "Ew" in
  destruct (base_ok_cases b H) as [(E & Eh & Ew)|(E & Eh & Ew)].

Section base.
Context (b : pdcp_base) (Hb : base_ok b).

Lemma SN_mod count : SN b count = count mod sn_space b.
Proof using Hb.
  unfold SN, pdcp_compute_sn, sn_space. base_cases b Hb; rewrite E, Ew.
  - apply (land_mask count 12); lia.
  - apply (land_mask count 18); lia.
Qed.

Lemma HFN_div count : HFN b count = count / sn_space b.
Proof using Hb.
  unfold HFN, pdcp_compute_hfn, sn_space. base_cases b Hb; rewrite E, Ew; by rewrite Z.shiftr_div_pow2.
Qed.

Lemma COUNT_value hfn sn :
  0 <= sn < sn_space b -> COUNT b hfn sn = u32 (hfn * sn_space b) + sn.
Proof using Hb.
  unfold COUNT, pdcp_compute_count, sn_space. intros Hsn.
  assert (Hn : exists n, pdcp_sn_size_to_uint (sn_size b) = n /\ 0 <= n <= 32 /\ 2 * window_size b = 2 ^ n).
  { base_cases b Hb; rewrite E, Ew; [exists 12|exists 18]; (split; [reflexivity|split; [lia|reflexivity]]). }
  destruct Hn as (n & -> & Hn & Hp). rewrite Hp in *. rewrite Z.shiftl_mul_pow2 by lia.
  assert (0 < 2 ^ n) by (apply Z.pow_pos_nonneg; lia). assert (0 < 2 ^ (32 - n)) by (apply Z.pow_pos_nonneg; lia).
  assert (E32 : 2 ^ 32 = 2 ^ (32 - n) * 2 ^ n) by (rewrite <- Z.pow_add_r by lia; f_equal; lia).
  unfold u32. rewrite E32, Z.mul_mod_distr_r by lia.
  rewrite <- Z.shiftl_mul_pow2 by lia. rewrite lor_shiftl_add by lia.
  by rewrite Z.shiftl_mul_pow2 by lia.
Qed.

Lemma COUNT_split count : 0 <= count < 2 ^ 32 -> COUNT b (HFN b count) (SN b count) = count.
Proof using Hb.
  intros Hc. rewrite HFN_div, SN_mod. rewrite COUNT_value.
  - unfold u32, sn_space. base_cases b Hb; rewrite Ew; rewrite Z.mod_small; divmod.
  - unfold sn_space. base_cases b Hb; rewrite Ew; divmod.
Qed.

Lemma SN_range count : 0 <= SN b count < sn_space b.
Proof using Hb. rewrite SN_mod. unfold sn_space. base_cases b Hb; rewrite Ew; divmod. Qed.

(** The displacement of an SN from a reference COUNT, in [[- window_size, window_size)]. *)
Definition sn_offset (lower sn : Z) : Z :=
  (sn - lower + window_size b) mod sn_space b - window_size b.

Lemma sn_offset_range lower sn : - window_size b <= sn_offset lower sn < window_size b.
Proof using Hb. unfold sn_offset, sn_space. base_cases b Hb; rewrite Ew; divmod. Qed.

Lemma sn_offset_exact lower c :
  - window_size b <= c - lower < window_size b -> lower + sn_offset lower (SN b c) = c.
Proof using Hb.
  intros Hc. unfold sn_offset. rewrite SN_mod. unfold sn_space in *. base_cases b Hb; rewrite Ew in *; divmod.
Qed.

Lemma sn_offset_sn lower sn : 0 <= sn < sn_space b -> SN b (lower + sn_offset lower sn) = sn.
Proof using Hb.
  intros Hs. rewrite SN_mod. unfold sn_offset, sn_space in *. base_cases b Hb; rewrite Ew in *; divmod.
Qed.

Lemma count_estimation_closed lower sn :
  0 <= lower < 2 ^ 32 -> 0 <= sn < sn_space b ->
  count_estimation b lower sn = u32 (lower + sn_offset lower sn).
Proof using Hb.
  intros Hl Hs. unfold count_estimation. rewrite COUNT_value by done. rewrite SN_mod, HFN_div.
  unfold sn_offset, sn_space, u32 in *.
  base_cases b Hb; rewrite Ew in *; rewrite (Z.mod_small (_ + _) (2 ^ 32)) by divmod; zcases; divmod.
Qed.

Lemma count_estimation_exact lower c :
  0 <= lower < 2 ^ 32 -> 0 <= c < 2 ^ 32 -> - window_size b <= c - lower < window_size b ->
  count_estimation b lower (SN b c) = c.
Proof using Hb.
  intros Hl Hc Hd. rewrite count_estimation_closed by (done || apply SN_range).
  rewrite sn_offset_exact by done. by apply u32_small.
Qed.
End base.

(** ** Headers *)

(** The octets of a data PDU header, in arithmetic. *)
Definition data_header (b : pdcp_base) (sn : Z) : bytes :=
  let dc := if is_drb b then 128 else 0 in
  match sn_size b with
  | pdcp_sn_12bits => [dc + sn / 256; sn mod 256]
  | _ => [dc + sn / 65536; sn / 256 mod 256; sn mod 256]
  end.

Lemma shiftr_land_mask x k n : 0 <= k -> 0 <= n ->
  Z.shiftr (Z.land x (Z.shiftl (2 ^ n - 1) k)) k = x / 2 ^ k mod 2 ^ n.
Proof.
  intros. rewrite Z.shiftr_land, Z.shiftr_shiftl_l, Z.sub_diag, Z.shiftl_0_r, land_mask by lia.
  by rewrite Z.shiftr_div_pow2.
Qed.

Lemma lor_128 x : 0 <= x < 128 -> Z.lor 128 x = 128 + x.
Proof. intros. by_evaluation 128 x. Qed.

Lemma land_byte_mask x : Z.land x 255 = x mod 256.
Proof. apply (land_mask x 8). lia. Qed.

Section header.
Context (b : pdcp_base) (Hb : base_ok b).

Lemma write_data_pdu_header_shape ok_mem buf sn :
  (is_srb b = true -> sn_size b = pdcp_sn_12bits) -> 0 <= sn < sn_space b ->
  write_data_pdu_header b ok_mem buf sn = ok (if ok_mem then Some (data_header b sn ++ buf) else None).
Proof using Hb.
  intros Hsrb Hsn. unfold write_data_pdu_header, data_header.
  rewrite srsran_assert_ok.
  2:{ destruct (is_srb b); [|done]. rewrite Hsrb by done. done. }
  rewrite bind_ok. destruct ok_mem; [simpl negb|done]. cbv iota. unfold sn_space in Hsn.
  change 0x00000f00 with (Z.shiftl (2 ^ 4 - 1) 8). change 0x00030000 with (Z.shiftl (2 ^ 2 - 1) 16).
  change 0x0000ff00 with (Z.shiftl (2 ^ 8 - 1) 8).
  rewrite !shiftr_land_mask, !land_byte_mask by lia.
  change (2 ^ 4) with 16. change (2 ^ 8) with 256. change (2 ^ 2) with 4. change (2 ^ 16) with 65536.
  base_cases b Hb; rewrite E, Ew in *; simpl app; do 3 f_equal.
  - rewrite (Z.mod_small (sn / 256)) by divmod. destruct (is_drb b); [|done]. apply lor_128. divmod.
  - rewrite (Z.mod_small (sn / 65536)) by divmod. destruct (is_drb b); [|done]. apply lor_128. divmod.
Qed.

Lemma data_header_length sn : zlen (data_header b sn) = hdr_len_bytes b.
Proof using Hb. unfold data_header. base_cases b Hb; by rewrite E, Eh. Qed.

Lemma data_header_bytes sn : 0 <= sn < sn_space b -> is_bytes (data_header b sn).
Proof using Hb.
  unfold data_header, sn_space. intros Hsn. base_cases b Hb; rewrite E, Ew in *; repeat constructor;
    unfold is_byte; destruct (is_drb b); divmod.
Qed.

Lemma read_data_pdu_header_written sn buf :
  0 <= sn < sn_space b -> buf <> [] -> read_data_pdu_header b (data_header b sn ++ buf) = Some sn.
Proof using Hb.
  intros Hsn Hbuf. unfold read_data_pdu_header. rewrite length_app, Nat2Z.inj_add, data_header_length.
  assert (zlen buf <> 0) by (destruct buf; simpl; [done|lia]). zfalse. unfold data_header, sn_space in *.
  base_cases b Hb; rewrite E, Ew in *; simpl app; cbv beta iota; f_equal; rewrite ?land_byte_mask, ?Z.mod_mod by lia.
  - change 15 with (2 ^ 4 - 1). rewrite land_mask, lor_shiftl_add by (lia || divmod).
    destruct (is_drb b); divmod.
  - change 3 with (2 ^ 2 - 1). rewrite land_mask by lia.
    change 16 with (8 + 8). rewrite <- Z.shiftl_shiftl, <- Z.shiftl_lor, !lor_shiftl_add by (lia || divmod).
    destruct (is_drb b); divmod.
Qed.

(** Whatever the octets, an SN that is read fits the SN field. *)
Lemma read_data_pdu_header_range buf sn :
  read_data_pdu_header b buf = Some sn -> 0 <= sn < sn_space b.
Proof using Hb.
  unfold read_data_pdu_header, sn_space. destruct (_ <=? _); [done|].
  base_cases b Hb; rewrite E, Ew; destruct buf as [|b0 [|b1 buf]]; try done; [|destruct buf as [|b2 buf]; [done|]];
    intros [= <-]; rewrite ?land_byte_mask.
  - change 15 with (2 ^ 4 - 1). rewrite land_mask, lor_shiftl_add by (lia || divmod). divmod.
  - change 3 with (2 ^ 2 - 1). rewrite land_mask by lia.
    change 16 with (8 + 8). rewrite <- Z.shiftl_shiftl, <- Z.shiftl_lor, !lor_shiftl_add by (lia || divmod). divmod.
Qed.

(** The D/C bit says data exactly for data PDUs of DRBs. *)
Lemma data_header_dc sn buf :
  0 <= sn < sn_space b ->
  exists b0 rest, data_header b sn ++ buf = b0 :: rest /\
    pdcp_pdu_get_dc b0 = (if is_drb b then dc_data else dc_control).
Proof using Hb.
  unfold data_header, sn_space. intros Hsn.
  base_cases b Hb; rewrite E, Ew in *; (eexists _, _; split; [done|]); unfold pdcp_pdu_get_dc;
    rewrite Z.shiftr_div_pow2, (land_mask _ 1) by lia; destruct (is_drb b); zcases; try done; divmod.
Qed.
End header.

(** ** The properties *)
Section props.
Context (b : pdcp_base) (Hb : base_ok b).

Lemma SN_u32 x : SN b (u32 x) = SN b x.
Proof using Hb.
  rewrite !SN_mod by done. unfold u32, sn_space. base_cases b Hb; rewrite Ew; divmod.
Qed.

(** C31: the estimation of a COUNT from its SN, three comparisons on truncated words in the code, is the
    reconstruction that TS 38.323 asks for: the only COUNT within the window around the reference that has
    the SN; for every SN whatsoever it is the reference plus a displacement within the
    window, modulo 2^32 (at both ends of the COUNT space it wraps around), and it
    has that SN. *)
Theorem count_estimation_spec lower :
  0 <= lower < 2 ^ 32 ->
  (forall c, 0 <= c < 2 ^ 32 -> - window_size b <= c - lower < window_size b -> count_estimation b lower (SN b c) = c) /\
  (forall sn, 0 <= sn < sn_space b -> exists d, - window_size b <= d < window_size b /\
     count_estimation b lower sn = (lower + d) mod 2 ^ 32 /\ SN b (count_estimation b lower sn) = sn /\
     (window_size b <= lower <= 2 ^ 32 - window_size b -> count_estimation b lower sn = lower + d)).
Proof using Hb.
  intros Hl. split; [intros; by apply count_estimation_exact|]. intros sn Hsn. exists (sn_offset b lower sn).
  pose proof (sn_offset_range b Hb lower sn) as Hd. rewrite count_estimation_closed by done. split; [done|]. split; [done|]. split.
  - rewrite SN_u32. by apply sn_offset_sn.
  - intros. apply Z.mod_small. lia.
Qed.

(** The header that one entity writes in front of a payload is the one the other reads: the SN, the length, the
    D/C bit of a DRB and the payload behind it survive; writing fails only for want of memory, and a PDU without
    payload is not read. *)
Theorem data_header_roundtrip ok_mem sn payload :
  (is_srb b = true -> sn_size b = pdcp_sn_12bits) -> 0 <= sn < sn_space b -> is_bytes payload ->
  (write_data_pdu_header b ok_mem payload sn = ok None <-> ok_mem = false) /\
  forall pdu, write_data_pdu_header b ok_mem payload sn = ok (Some pdu) ->
    is_bytes pdu /\ zlen pdu = hdr_len_bytes b + zlen payload /\ drop (Z.to_nat (hdr_len_bytes b)) pdu = payload /\
    read_data_pdu_header b pdu = (if decide (payload = []) then None else Some sn) /\
    (exists b0 rest, pdu = b0 :: rest /\ pdcp_pdu_get_dc b0 = if is_drb b then dc_data else dc_control).
Proof using Hb.
  intros Hsrb Hsn Hp. rewrite write_data_pdu_header_shape by done. split; [by destruct ok_mem|]. intros pdu. destruct ok_mem; [|done].
  intros [= <-]. pose proof (data_header_length b Hb sn) as Hl. split_and!.
  - apply Forall_app. split; [by apply data_header_bytes|done].
  - rewrite length_app, Nat2Z.inj_add. lia.
  - rewrite <- Hl, Nat2Z.id. apply drop_app_length.
  - case_decide as Hne; [|by apply read_data_pdu_header_written]. subst payload. unfold read_data_pdu_header.
    rewrite app_nil_r, Hl, Z.leb_refl. done.
  - by apply data_header_dc.
Qed.
End props.

Definition drb_18 : pdcp_base := mk_pdcp_base 4 rb_drb mode_am 3 131072 pdcp_sn_18bits.

Lemma drb_18_ok : base_ok drb_18.
Proof. by exists (drb_id 5). Qed.

Lemma count_estimation_spec_witness :
  count_estimation drb_18 600000 (SN drb_18 700000) = 700000 /\ count_estimation drb_18 600000 262143 = 524287.
Proof.
  destruct (count_estimation_spec drb_18 drb_18_ok 600000) as [H _]; [lia|]. split.
  - apply H; simpl; lia.
  - apply (H 524287); simpl; lia.
Defined.

Lemma data_header_roundtrip_witness :
  exists pdu, write_data_pdu_header drb_18 true [7; 8] 70000 = ok (Some pdu) /\ read_data_pdu_header drb_18 pdu = Some 70000.
Proof.
  destruct (data_header_roundtrip drb_18 drb_18_ok true 70000 [7; 8]) as [_ H]; [done|by vm_compute|repeat constructor; unfold is_byte; lia|].
  exists [129; 17; 112; 7; 8]. split; [reflexivity|]. apply (H [129; 17; 112; 7; 8] eq_refl).
Defined.
