(* ===== verification/PdcpRx.v ===== *)
(** * The receiving PDCP entity

    [pdcp_entity_rx] of [lib/pdcp/pdcp_entity_rx.{h,cpp}]: COUNT reconstruction, deciphering and
    integrity verification, the reordering window with t-Reordering, the status report, and
    re-establishment. An event of the entity is one function from its state to its state; what it
    does to the upper layer, to the transmitting entity and to the metrics are the events of
    [rx_out], in order. The security engine is used through its interface. Log output is left out. *)

From S2P Require Import Prelude SduWindow BitEncoding PdcpSnUtil PdcpBase Security.

(** ** Data *)
Record pdcp_rx_config := mk_pdcp_rx_config {
  rx_base : pdcp_base;
  rx_direction : security_direction;
  t_reordering : Z;                  (* milliseconds; [ms0 = 0], [infinity = -1] *)
  rx_max_count_notify : Z;
  rx_max_count_hard : Z
}.

Definition t_reordering_ms0 : Z := 0.
Definition t_reordering_infinity : Z := -1.

Record pdcp_rx_state := mk_pdcp_rx_state { rx_next : Z; rx_deliv : Z; rx_reord : Z }.

Definition pdcp_rx_state_init : pdcp_rx_state := mk_pdcp_rx_state 0 0 0.

Record pdcp_rx_sdu_info := mk_rx_sdu_info { rx_sdu : bytes; rx_sdu_count : Z }.

Definition pdcp_rx_sdu_info_init : pdcp_rx_sdu_info := mk_rx_sdu_info [] 0.

Inductive pdcp_rx_event :=
| rxev_pdu (len : Z)                 (* metrics_add_pdus(1, len) *)
| rxev_dropped                       (* metrics_add_dropped_pdus(1) *)
| rxev_integrity_failed              (* metrics_add_integrity_failed_pdus(1) *)
| rxev_integrity_verified            (* metrics_add_integrity_verified_pdus(1) *)
| rxev_reordering_timeout            (* metrics_add_t_reordering_timeouts(1) *)
| rxev_sdu_metrics (len : Z)         (* metrics_add_sdus(1, len) *)
| rxev_new_sdu (sdu : bytes)         (* upper_dn.on_new_sdu(sdu) *)
| rxev_max_count_reached             (* upper_cn.on_max_count_reached() *)
| rxev_protocol_failure              (* upper_cn.on_protocol_failure() *)
| rxev_integrity_failure             (* upper_cn.on_integrity_failure() *)
| rxev_status_report (pdu : bytes).  (* status_handler->on_status_report(pdu) *)

Record pdcp_entity_rx {E : Type} := mk_pdcp_rx {
  rx_st : pdcp_rx_state;
  rx_window : circular_map pdcp_rx_sdu_info;
  reordering_timer : timer_state;
  rx_count_notified : bool;          (* max_count_notified *)
  rx_count_overflow : bool;          (* max_count_overflow *)
  rx_sec_engine : option E;
  rx_integrity_enabled : bool;
  rx_ciphering_enabled : bool;
  rx_out : list pdcp_rx_event
}.
Arguments pdcp_entity_rx E : clear implicits.

Section pdcp_entity_rx.
Context {E : Type} `{!SecurityEngine E} (cfg : pdcp_rx_config).

Local Abbreviation entity := (pdcp_entity_rx E).
Local Abbreviation b := (rx_base cfg).
Local Abbreviation W := (window_size (rx_base cfg)).

(** Assignments to single members. *)
Definition rx_set_st (s : entity) x := mk_pdcp_rx E x (rx_window s) (reordering_timer s)
  (rx_count_notified s) (rx_count_overflow s) (rx_sec_engine s) (rx_integrity_enabled s) (rx_ciphering_enabled s) (rx_out s).
Definition rx_set_window (s : entity) x := mk_pdcp_rx E (rx_st s) x (reordering_timer s)
  (rx_count_notified s) (rx_count_overflow s) (rx_sec_engine s) (rx_integrity_enabled s) (rx_ciphering_enabled s) (rx_out s).
Definition rx_set_timer (s : entity) x := mk_pdcp_rx E (rx_st s) (rx_window s) x
  (rx_count_notified s) (rx_count_overflow s) (rx_sec_engine s) (rx_integrity_enabled s) (rx_ciphering_enabled s) (rx_out s).
Definition rx_set_flags (s : entity) n o := mk_pdcp_rx E (rx_st s) (rx_window s) (reordering_timer s)
  n o (rx_sec_engine s) (rx_integrity_enabled s) (rx_ciphering_enabled s) (rx_out s).
Definition rx_set_security (s : entity) e i c := mk_pdcp_rx E (rx_st s) (rx_window s) (reordering_timer s)
  (rx_count_notified s) (rx_count_overflow s) e i c (rx_out s).
Definition rx_emit (s : entity) ev := mk_pdcp_rx E (rx_st s) (rx_window s) (reordering_timer s)
  (rx_count_notified s) (rx_count_overflow s) (rx_sec_engine s) (rx_integrity_enabled s) (rx_ciphering_enabled s) (rx_out s ++ [ev]).

Definition set_rx_next (x : pdcp_rx_state) n := mk_pdcp_rx_state n (rx_deliv x) (rx_reord x).
Definition set_rx_deliv (x : pdcp_rx_state) n := mk_pdcp_rx_state (rx_next x) n (rx_reord x).
Definition set_rx_reord (x : pdcp_rx_state) n := mk_pdcp_rx_state (rx_next x) (rx_deliv x) n.

(** The constructor; the timer is only created for a finite, non-zero duration. *)
Definition pdcp_entity_rx_ctor : entity :=
  mk_pdcp_rx E pdcp_rx_state_init cm_empty timer_stopped false false None false false [].

Definition reordering_timer_valid : bool :=
  negb (t_reordering cfg =? t_reordering_ms0) && negb (t_reordering cfg =? t_reordering_infinity).

(** [reordering_timer.run()] asserts that the timer was created. *)
Definition run_reordering_timer (s : entity) : outcome entity :=
  srsran_assert reordering_timer_valid;; ok (rx_set_timer s (timer_run (reordering_timer s))).

(** ** Delivery *)

(** The SDU of [count] goes to the upper layer and leaves the window. *)
Definition rx_deliver (s : entity) (count : Z) : outcome entity :=
  sdu_info ← cm_at W (rx_window s) count;
  let s := rx_emit (rx_emit s (rxev_sdu_metrics (zlen (rx_sdu sdu_info)))) (rxev_new_sdu (rx_sdu sdu_info)) in
  w ← remove_sn W (rx_window s) count;
  ok (rx_set_window s w).

Definition rx_deliv_incr (s : entity) : entity :=
  rx_set_st s (set_rx_deliv (rx_st s) (u32 (rx_deliv (rx_st s) + 1))).

Definition rx_loop_fuel : nat := S (Z.to_nat W).

Definition deliver_all_consecutive_counts (s : entity) : outcome entity :=
  while_loop rx_loop_fuel
    (fun s => negb (rx_deliv (rx_st s) =? rx_next (rx_st s)) && has_sn W (rx_window s) (rx_deliv (rx_st s)))
    (fun s => s ← rx_deliver s (rx_deliv (rx_st s)); ok (rx_deliv_incr s))
    s.

Definition deliver_all_sdus (s : entity) : outcome entity :=
  '(_, s) ← for_loop rx_loop_fuel (fun count s => count <? rx_next (rx_st s)) (fun count => u32 (count + 1))
    (fun count s =>
       s ← (if has_sn W (rx_window s) count then rx_deliver s count else ok s);
       ok (s, false))
    (rx_deliv (rx_st s)) s;
  ok s.

Definition discard_all_sdus (s : entity) : outcome entity :=
  while_loop rx_loop_fuel
    (fun s => negb (rx_deliv (rx_st s) =? rx_next (rx_st s)))
    (fun s =>
       s ← (if has_sn W (rx_window s) (rx_deliv (rx_st s))
            then w ← remove_sn W (rx_window s) (rx_deliv (rx_st s)); ok (rx_set_window s w)
            else ok s);
       ok (rx_deliv_incr s))
    s.

(** ** t-Reordering *)
Definition handle_t_reordering_expire (s : entity) : outcome entity :=
  let s := rx_emit s rxev_reordering_timeout in
  s ← while_loop rx_loop_fuel
    (fun s => negb (rx_deliv (rx_st s) =? rx_reord (rx_st s)))
    (fun s =>
       s ← (if has_sn W (rx_window s) (rx_deliv (rx_st s)) then rx_deliver s (rx_deliv (rx_st s)) else ok s);
       ok (rx_deliv_incr s))
    s;
  s ← deliver_all_consecutive_counts s;
  if rx_deliv (rx_st s) <? rx_next (rx_st s) then
    if t_reordering cfg =? t_reordering_ms0 then ok s
    else run_reordering_timer (rx_set_st s (set_rx_reord (rx_st s) (rx_next (rx_st s))))
  else ok s.

(** The timer manager reports the expiry: the timer is in the expired state. *)
Definition reordering_callback (s : entity) : outcome entity :=
  handle_t_reordering_expire (rx_set_timer s timer_expired).

(** ** Security *)

(** [configure_security]: without a key or an algorithm for integrity protection nothing changes. *)
Definition rx_configure_security (s : entity) (sec_cfg : sec_128_as_config)
    (integrity_enabled ciphering_enabled : bool) : outcome entity :=
  srsran_assert ((is_srb b && bool_decide (domain sec_cfg = domain_rrc))
                 || (is_drb b && bool_decide (domain sec_cfg = domain_up)));;
  if (integrity_enabled : bool) && (bool_decide (k_128_int sec_cfg = None) || bool_decide (integ_algo sec_cfg = None)) then ok s
  else
    srsran_assert (integrity_enabled || negb (is_srb b));;
    engine ← security_engine_impl sec_cfg (bearer_id b) (rx_direction cfg) integrity_enabled ciphering_enabled;
    ok (rx_set_security s (Some engine) integrity_enabled ciphering_enabled).

(** [buf.trim_tail(n)] and [buf.trim_head(n)] assert that the octets are there. *)
Definition trim_tail (buf : bytes) (n : Z) : outcome bytes :=
  srsran_assert (n <=? zlen buf);; ok (take (Z.to_nat (zlen buf - n)) buf).
Definition trim_head (buf : bytes) (n : Z) : outcome bytes :=
  srsran_assert (n <=? zlen buf);; ok (drop (Z.to_nat n) buf).

(** [cfg.sn_size == pdcp_sn_size::size12bits ? 2 : 3] *)
Definition rx_hdr_size : Z := if bool_decide (sn_size b = pdcp_sn_12bits) then 2 else 3.

Definition apply_deciphering_and_integrity_check (s : entity) (buf : bytes) (count : Z)
    : outcome (entity * option bytes) :=
  match rx_sec_engine s with
  | None =>
      if is_srb b then
        if zlen buf <=? sec_mac_len then ok (s, None)
        else buf ← trim_tail buf sec_mac_len; ok (s, Some buf)
      else ok (s, Some buf)
  | Some engine =>
      result ← decrypt_and_verify_integrity engine buf rx_hdr_size count;
      match result with
      | inl integrity_failure => ok (rx_emit (rx_emit s rxev_integrity_failed) rxev_integrity_failure, None)
      | inl ciphering_failure => ok (rx_emit s rxev_protocol_failure, None)
      | inl buffer_failure => ok (rx_emit s rxev_protocol_failure, None)
      | inr buf => ok (rx_emit s rxev_integrity_verified, Some buf)
      end
  end.

(** ** Data PDUs *)

(** The two limits on COUNT values: whether reception goes on, and the state with the limits' flags. *)
Definition rx_check_max_count (s : entity) (rcvd_count : Z) : bool * entity :=
  let s := if (rx_max_count_notify cfg <? rcvd_count) && negb (rx_count_notified s)
           then rx_set_flags (rx_emit s rxev_max_count_reached) true (rx_count_overflow s) else s in
  if rx_max_count_hard cfg <=? rcvd_count then
    (false, if negb (rx_count_overflow s)
            then rx_set_flags (rx_emit s rxev_protocol_failure) (rx_count_notified s) true else s)
  else (true, s).

(** The element that has the COUNT already: [None] when it is the same PDU, a duplicate. *)
Definition rx_make_room (s : entity) (rcvd_count : Z) : outcome (option entity) :=
  if has_sn W (rx_window s) rcvd_count then
    sdu_info ← cm_at W (rx_window s) rcvd_count;
    if rx_sdu_count sdu_info =? rcvd_count then ok None
    else w ← remove_sn W (rx_window s) rcvd_count; ok (Some (rx_set_window s w))
  else ok (Some s).

(** The SDU enters the window, and RX_NEXT follows. *)
Definition rx_store (s : entity) (rcvd_count : Z) (sdu : bytes) : outcome entity :=
  w ← add_sn W pdcp_rx_sdu_info_init (rx_window s) rcvd_count;
  w ← cm_set W w rcvd_count (mk_rx_sdu_info sdu rcvd_count);
  let s := rx_set_window s w in
  ok (if rx_next (rx_st s) <=? rcvd_count then rx_set_st s (set_rx_next (rx_st s) (u32 (rcvd_count + 1))) else s).

(** "Handle reordering timers" *)
Definition rx_handle_timers (s : entity) : outcome entity :=
  let s := if is_running (reordering_timer s) && (rx_reord (rx_st s) <=? rx_deliv (rx_st s))
           then rx_set_timer s (timer_stop (reordering_timer s)) else s in
  if t_reordering cfg =? t_reordering_infinity then ok s
  else if t_reordering cfg =? t_reordering_ms0 then
    handle_t_reordering_expire (rx_set_st s (set_rx_reord (rx_st s) (rx_next (rx_st s))))
  else if negb (is_running (reordering_timer s)) && (rx_deliv (rx_st s) <? rx_next (rx_st s)) then
    run_reordering_timer (rx_set_st s (set_rx_reord (rx_st s) (rx_next (rx_st s))))
  else ok s.

(** From the check of RCVD_COUNT on, with the deciphered SDU. *)
Definition rx_accept (s : entity) (rcvd_count : Z) (sdu : bytes) : outcome entity :=
  if rcvd_count <? rx_deliv (rx_st s) then ok s
  else
    room ← rx_make_room s rcvd_count;
    match room with
    | None => ok s
    | Some s =>
        s ← rx_store s rcvd_count sdu;
        s ← (if rcvd_count =? rx_deliv (rx_st s) then deliver_all_consecutive_counts s else ok s);
        rx_handle_timers s
    end.

Definition pdcp_handle_data_pdu (s : entity) (pdu : bytes) : outcome entity :=
  if zlen pdu <=? hdr_len_bytes b then ok (rx_emit s rxev_dropped)
  else
    match read_data_pdu_header b pdu with
    | None => ok (rx_emit s rxev_dropped)
    | Some sn =>
        let rcvd_count := count_estimation b (rx_deliv (rx_st s)) sn in
        let '(go_on, s) := rx_check_max_count s rcvd_count in
        if negb go_on then ok s
        else
          '(s, exp_buf) ← apply_deciphering_and_integrity_check s pdu rcvd_count;
          match exp_buf with
          | None => ok s
          | Some buf => sdu ← trim_head buf rx_hdr_size; rx_accept s rcvd_count sdu
          end
    end.

(** ** Control PDUs *)
Definition pdcp_handle_control_pdu (s : entity) (pdu : bytes) : outcome entity :=
  match pdu with
  | [] => fail invalid_access
  | hdr_byte :: _ =>
      srsran_assert (match pdcp_pdu_get_dc hdr_byte with dc_control => true | dc_data => false end);;
      match pdcp_control_pdu_get_cpt hdr_byte with
      | cpt_status_report => ok (rx_emit s (rxev_status_report pdu))
      | _ => ok s
      end
  end.

(** [handle_pdu]; [copy_ok]: [deep_copy] found the memory. *)
Definition pdcp_handle_pdu (s : entity) (copy_ok : bool) (buf : bytes) : outcome entity :=
  let s := rx_emit s (rxev_pdu (zlen buf)) in
  match buf with
  | [] => ok (rx_emit s rxev_dropped)
  | first_byte :: _ =>
      if negb copy_ok then ok (rx_emit s rxev_dropped)
      else if is_srb b || match pdcp_pdu_get_dc first_byte with dc_data => true | dc_control => false end
      then pdcp_handle_data_pdu s buf
      else pdcp_handle_control_pdu s buf
  end.

(** ** Re-establishment *)
Definition rx_reestablish (s : entity) (sec_cfg : sec_128_as_config) : outcome entity :=
  s ← (if is_srb b then discard_all_sdus s else ok s);
  s ← (if is_srb b || is_um b then
         let s := if is_running (reordering_timer s) then rx_set_timer s (timer_stop (reordering_timer s)) else s in
         if is_um b then deliver_all_sdus s else ok s
       else ok s);
  let s := if is_srb b || is_um b then rx_set_st s pdcp_rx_state_init else s in
  rx_configure_security s sec_cfg (rx_integrity_enabled s) (rx_ciphering_enabled s).

(** ** Status report *)
Definition pdcp_control_pdu_max_size : Z := 9000.

(** [enc.pack(val, n)], whose result the code ignores. [append_ok]: the buffer can grow. *)
Definition status_pack (append_ok : bytes -> bool) (enc : bit_encoder) (val n : Z) : outcome bit_encoder :=
  '(_, enc) ← bit_encoder_pack append_ok enc val n; ok enc.

Definition compile_status_report (append_ok : bytes -> bool) (s : entity) : outcome bytes :=
  enc ← status_pack append_ok (encoder_init []) (pdcp_dc_to_number dc_control) 1;
  enc ← status_pack append_ok enc (cpt_to_number cpt_status_report) 3;
  enc ← status_pack append_ok enc 0 4;
  enc ← status_pack append_ok enc (rx_deliv (rx_st s)) 32;
  let max_bits := (pdcp_control_pdu_max_size - 5) * 8 in
  let bitmap_begin := u32 (rx_deliv (rx_st s) + 1) in
  let bitmap_end := rx_next (rx_st s) in
  let bitmap_end := if (bitmap_begin <? bitmap_end) && (max_bits <? u32 (bitmap_end - bitmap_begin))
                    then u32 (bitmap_begin + max_bits) else bitmap_end in
  '(_, enc) ← for_loop rx_loop_fuel (fun i _ => i <? bitmap_end) (fun i => u32 (i + 1))
    (fun i enc =>
       enc ← status_pack append_ok enc (if has_sn W (rx_window s) i then 1 else 0) 1;
       ok (enc, false))
    bitmap_begin enc;
  ok (enc_bytes enc).
End pdcp_entity_rx.
