(* ===== verification/PdcpRxInv.v ===== *)
(** * Invariant and delivery of the receiving PDCP entity

    The loops of the entity, all of which advance RX_DELIV, are described by one explicit state
    ([rx_advanced]): the SDUs stored below the new RX_DELIV are delivered in the order of their COUNT
    ([pending_range]) and leave the window. [rx_inv] is the invariant of the entity: the window holds
    COUNTs between RX_DELIV and RX_NEXT, at most one window apart, each under its own COUNT; the SDU
    of RX_DELIV itself is missing; and t-Reordering runs exactly as long as something is missing. *)

From stdpp Require Import sorting.
From S2P Require Import Prelude SduWindow PdcpSnUtil PdcpBase Security PdcpRx.

(** ** Ranges of a window *)
Section pending.
Context (W : Z).

(** The stored SDUs with COUNT in [[lo, hi)], in order. *)
Definition pending_range (w : circular_map pdcp_rx_sdu_info) (lo hi : Z) : list (Z * bytes) :=
  omap (fun k => (fun i => (k, rx_sdu i)) <$> wget W w k) (seqZ lo (hi - lo)).

(** [w'] is [w] without what is below [d]. *)
Definition dropped_below (w : circular_map pdcp_rx_sdu_info) (d : Z) (w' : circular_map pdcp_rx_sdu_info) : Prop :=
  window_wf W w' /\ forall k, wget W w' k = if decide (k < d) then None else wget W w k.

Lemma pending_range_nil w lo hi : hi <= lo -> pending_range w lo hi = [].
Proof. intros. unfold pending_range. rewrite seqZ_nil by lia. done. Qed.

Lemma pending_range_split w lo mid hi :
  lo <= mid <= hi -> pending_range w lo hi = pending_range w lo mid ++ pending_range w mid hi.
Proof.
  intros. unfold pending_range. replace (hi - lo) with ((mid - lo) + (hi - mid)) by lia.
  rewrite seqZ_app, omap_app by lia. do 3 f_equal. lia.
Qed.

Lemma pending_range_ext w w' lo hi :
  (forall k, lo <= k < hi -> wget W w k = wget W w' k) -> pending_range w lo hi = pending_range w' lo hi.
Proof.
  intros H. unfold pending_range. assert (Hin : forall k, k ∈ seqZ lo (hi - lo) -> wget W w k = wget W w' k).
  { intros k Hk%elem_of_seqZ. apply H. lia. }
  induction (seqZ lo (hi - lo)) as [|k l IH]; [done|]. cbn -[wget].
  rewrite (Hin k) by (left; done). rewrite IH by (intros; apply Hin; by right). done.
Qed.

Lemma pending_range_one w k :
  pending_range w k (k + 1) = match wget W w k with Some i => [(k, rx_sdu i)] | None => [] end.
Proof.
  unfold pending_range. replace (k + 1 - k) with 1 by lia. rewrite seqZ_cons, seqZ_nil by lia. cbn -[wget].
  by destruct (wget W w k).
Qed.

Lemma pending_range_snoc w lo k :
  lo <= k ->
  pending_range w lo (k + 1) =
    pending_range w lo k ++ match wget W w k with Some i => [(k, rx_sdu i)] | None => [] end.
Proof. intros. rewrite (pending_range_split _ lo k) by lia. by rewrite pending_range_one. Qed.

Lemma elem_of_pending_range w lo hi k x :
  (k, x) ∈ pending_range w lo hi <-> lo <= k < hi /\ exists i, wget W w k = Some i /\ rx_sdu i = x.
Proof.
  unfold pending_range. rewrite list_elem_of_omap. split.
  - intros (j & Hj%elem_of_seqZ & Hx). destruct (wget W w j) as [i|] eqn:E; simplify_eq/=.
    split; [lia|eauto].
  - intros (Hk & i & Hi & <-). exists k. split; [apply elem_of_seqZ; lia|]. by rewrite Hi.
Qed.

(** The counts of a range ascend; they are the whole range when nothing is missing. *)
Lemma pending_range_sorted w lo hi : StronglySorted Z.lt (pending_range w lo hi).*1.
Proof.
  destruct (decide (hi <= lo)) as [|Hlt]; [rewrite pending_range_nil by lia; constructor|].
  replace hi with (lo + Z.of_nat (Z.to_nat (hi - lo))) by lia. generalize (Z.to_nat (hi - lo)). clear hi Hlt.
  induction n as [|n IH]; [rewrite pending_range_nil by lia; constructor|].
  replace (lo + Z.of_nat (S n)) with (lo + Z.of_nat n + 1) by lia. rewrite pending_range_snoc, fmap_app by lia.
  apply StronglySorted_app_2; [|done|destruct (wget W w _); repeat constructor].
  intros x y ([k v] & -> & Hx%elem_of_pending_range)%list_elem_of_fmap Hy. simpl.
  destruct (wget W w (lo + Z.of_nat n)); simpl in Hy; [|by apply elem_of_nil in Hy]. apply list_elem_of_singleton in Hy. lia.
Qed.

Lemma pending_range_full w lo hi :
  lo <= hi -> (forall k, lo <= k < hi -> is_Some (wget W w k)) -> (pending_range w lo hi).*1 = seqZ lo (hi - lo).
Proof.
  intros Hle. replace hi with (lo + Z.of_nat (Z.to_nat (hi - lo))) by lia. generalize (Z.to_nat (hi - lo)). clear hi Hle.
  induction n as [|n IH]; intros Hall; [rewrite pending_range_nil, seqZ_nil by lia; done|].
  replace (lo + Z.of_nat (S n)) with (lo + Z.of_nat n + 1) by lia. rewrite pending_range_snoc, fmap_app by lia.
  rewrite IH by (intros; apply Hall; lia). destruct (Hall (lo + Z.of_nat n)) as [i ->]; [lia|].
  replace (lo + Z.of_nat n - lo) with (Z.of_nat n) by lia. replace (lo + Z.of_nat n + 1 - lo) with (Z.of_nat (S n)) by lia.
  by rewrite seqZ_S.
Qed.

Lemma pending_range_values (f : Z -> bytes) w lo hi :
  (forall k i, lo <= k < hi -> wget W w k = Some i -> rx_sdu i = f k) ->
  (pending_range w lo hi).*2 = f <$> (pending_range w lo hi).*1.
Proof.
  intros H. rewrite <- list_fmap_compose. apply list_fmap_ext. intros j [k x] Hx. simpl.
  apply list_elem_of_lookup_2 in Hx. apply elem_of_pending_range in Hx as (Hk & i & Hi & <-). eauto.
Qed.

Lemma dropped_below_refl w d :
  window_wf W w -> (forall k i, wget W w k = Some i -> d <= k) -> dropped_below w d w.
Proof.
  intros Hwf Hk. split; [done|]. intros k. destruct (decide (k < d)); [|done].
  destruct (wget W w k) as [i|] eqn:E; [|done]. apply Hk in E. lia.
Qed.

Lemma dropped_below_trans w d w' d' w'' :
  d <= d' -> dropped_below w d w' -> dropped_below w' d' w'' -> dropped_below w d' w''.
Proof.
  intros Hd [_ H1] [Hwf H2]. split; [done|]. intros k. rewrite H2, H1.
  destruct (decide (k < d')), (decide (k < d)); done || lia.
Qed.

(** An empty place is skipped. *)
Lemma dropped_below_skip w d w' :
  dropped_below w d w' -> wget W w d = None -> dropped_below w (d + 1) w'.
Proof.
  intros [Hwf H] Hn. split; [done|]. intros k. rewrite H.
  destruct (decide (k = d)) as [->|]; [rewrite Hn; by repeat case_decide|].
  destruct (decide (k < d)), (decide (k < d + 1)); done || lia.
Qed.

(** An element taken out. *)
Lemma dropped_below_remove w d w' i :
  dropped_below w d w' -> wget W w d = Some i ->
  exists w'', remove_sn W w' d = ok w'' /\ dropped_below w (d + 1) w''.
Proof.
  intros [Hwf H] Hi. destruct (remove_sn_ok W w' d i Hwf) as (w'' & -> & Hwf' & _ & Hget).
  { rewrite H. by rewrite decide_False by lia. }
  exists w''. split; [done|]. split; [done|]. intros k. rewrite Hget, H.
  destruct (decide (k = d)) as [->|]; [by rewrite decide_True by lia|].
  destruct (decide (k < d)), (decide (k < d + 1)); done || lia.
Qed.
End pending.

(** The events of a delivery. *)
Definition deliveries (l : list (Z * bytes)) : list pdcp_rx_event :=
  flat_map (fun x => [rxev_sdu_metrics (zlen x.2); rxev_new_sdu x.2]) l.

Lemma deliveries_app l1 l2 : deliveries (l1 ++ l2) = deliveries l1 ++ deliveries l2.
Proof. unfold deliveries. apply flat_map_app. Qed.

Section inv.
Context {E : Type} `{!SecurityEngine E} (cfg : pdcp_rx_config).
Context (ready : E -> Prop).
Local Abbreviation entity := (pdcp_entity_rx E).
Local Abbreviation b := (rx_base cfg).
Local Abbreviation W := (window_size (rx_base cfg)).
Context (Hb : base_ok b).
Context (Hhard : rx_max_count_hard cfg < 2 ^ 32).

Local Abbreviation deliv s := (rx_deliv (rx_st s)).
Local Abbreviation next s := (rx_next (rx_st s)).
Local Abbreviation pending s k := (wget W (rx_window s) k).

Lemma W_pos : 0 < W.
Proof using Hb. base_cases (rx_base cfg) Hb; lia. Qed.

(** What the loops need: [lo] is a lower bound of the COUNTs in the window. *)
Record rx_core (s : entity) : Prop := {
  rxc_wf : window_wf W (rx_window s);
  rxc_order : 0 <= deliv s <= next s;
  rxc_max : next s < 2 ^ 32;
  rxc_width : next s <= deliv s + W;
  rxc_keys : forall k i, pending s k = Some i -> deliv s <= k < next s /\ rx_sdu_count i = k;
  rxc_top : deliv s < next s -> is_Some (pending s (next s - 1))
}.

Record rx_inv (s : entity) : Prop := {
  rxi_core : rx_core s;
  rxi_gap : pending s (deliv s) = None;
  rxi_timer : is_running (reordering_timer s) = true -> deliv s < rx_reord (rx_st s) <= next s;
  rxi_live : reordering_timer_valid cfg = true -> deliv s < next s -> is_running (reordering_timer s) = true;
  rxi_ms0 : t_reordering cfg = t_reordering_ms0 -> deliv s = next s;
  rxi_infinity : reordering_timer_valid cfg = false -> is_running (reordering_timer s) = false;
  rxi_engine : forall e, rx_sec_engine s = Some e -> ready e
}.

(** ** Advancing RX_DELIV *)

(** RX_DELIV has become [d], the window [w]; what was stored in between is delivered. *)
Definition rx_advanced (s : entity) (d : Z) (w : circular_map pdcp_rx_sdu_info) : entity :=
  mk_pdcp_rx E (set_rx_deliv (rx_st s) d) w (reordering_timer s) (rx_count_notified s) (rx_count_overflow s)
    (rx_sec_engine s) (rx_integrity_enabled s) (rx_ciphering_enabled s)
    (rx_out s ++ deliveries (pending_range W (rx_window s) (deliv s) d)).

Lemma rx_advanced_refl s : s = rx_advanced s (deliv s) (rx_window s).
Proof using Type. unfold rx_advanced. rewrite pending_range_nil, app_nil_r by lia. by destruct s as [[]]. Qed.

Lemma rx_advanced_trans s d w d' w' :
  deliv s <= d <= d' -> dropped_below W (rx_window s) d w ->
  rx_advanced (rx_advanced s d w) d' w' = rx_advanced s d' w'.
Proof using Type.
  intros Hd [_ Hw]. unfold rx_advanced. cbn -[wget]. rewrite (pending_range_split _ _ (deliv s) d d') by lia.
  rewrite deliveries_app, app_assoc. do 3 f_equal. apply pending_range_ext. intros k Hk. rewrite Hw.
  by rewrite decide_False by lia.
Qed.

(** Invariant of a loop that started in [s] and stops at [hi] at the latest. *)
Definition advancing (s : entity) (hi : Z) (s' : entity) : Prop :=
  exists d w, s' = rx_advanced s d w /\ deliv s <= d <= hi /\ dropped_below W (rx_window s) d w.

Lemma advancing_refl s hi : rx_core s -> deliv s <= hi -> advancing s hi s.
Proof using Type.
  intros Hc Hhi. exists (deliv s), (rx_window s). split; [apply rx_advanced_refl|]. split; [lia|].
  apply dropped_below_refl; [apply Hc|]. intros k i Hk. apply Hc in Hk. lia.
Qed.

Lemma advancing_trans s m s1 hi s2 :
  m <= hi -> advancing s m s1 -> advancing s1 hi s2 -> advancing s hi s2.
Proof using Type.
  intros Hm (d & w & -> & Hd & Hw) (d' & w' & -> & Hd' & Hw'). cbn -[wget] in Hd', Hw'.
  exists d', w'. split; [by rewrite rx_advanced_trans by (done || lia)|]. split; [lia|].
  by eapply dropped_below_trans; [|done|done]; lia.
Qed.

(** One turn with an element, one without. *)
Lemma advance_deliver s d w i :
  deliv s <= d -> d + 1 < 2 ^ 32 -> 0 <= d -> dropped_below W (rx_window s) d w -> pending s d = Some i ->
  exists s', rx_deliver cfg (rx_advanced s d w) d = ok s' /\
    exists w', rx_deliv_incr s' = rx_advanced s (d + 1) w' /\ dropped_below W (rx_window s) (d + 1) w'.
Proof using Type.
  intros Hd Hmax H0 Hw Hi. unfold rx_deliver. cbn -[wget cm_at].
  assert (Hget : wget W w d = Some i) by (rewrite (proj2 Hw); by rewrite decide_False by lia).
  rewrite (cm_at_ok _ _ _ _ Hget), bind_ok.
  destruct (dropped_below_remove W _ _ _ _ Hw Hi) as (w' & Hr & Hw'). cbn [rx_window rx_emit rx_advanced].
  rewrite Hr, bind_ok. eexists. split; [done|]. exists w'. split; [|done].
  unfold rx_deliv_incr, rx_advanced, rx_set_st, rx_set_window, rx_emit. cbn -[wget u32].
  rewrite u32_small, pending_range_snoc, Hi, deliveries_app, app_assoc by lia. cbn. rewrite <- !app_assoc. done.
Qed.

Lemma advance_skip s d w :
  deliv s <= d -> d + 1 < 2 ^ 32 -> 0 <= d -> dropped_below W (rx_window s) d w -> pending s d = None ->
  rx_deliv_incr (rx_advanced s d w) = rx_advanced s (d + 1) w /\ dropped_below W (rx_window s) (d + 1) w.
Proof using Type.
  intros Hd Hmax H0 Hw Hi. split; [|by apply dropped_below_skip].
  unfold rx_deliv_incr, rx_advanced, rx_set_st. cbn -[wget u32].
  rewrite u32_small, pending_range_snoc, Hi, app_nil_r by lia. done.
Qed.

Lemma advanced_pending s d w :
  dropped_below W (rx_window s) d w -> pending (rx_advanced s d w) d = pending s d.
Proof using Type. intros [_ H]. cbn -[wget]. rewrite H. by rewrite decide_False by lia. Qed.

Lemma loop_measure d hi : d < hi -> (Z.to_nat (hi - (d + 1)) < Z.to_nat (hi - d))%nat.
Proof using Type. lia. Qed.

(** [d] is the first COUNT from [lo] on that is missing in the window, [n] if there is none below. *)
Definition first_missing (w : circular_map pdcp_rx_sdu_info) (n lo d : Z) : Prop :=
  lo <= d <= n /\ (forall k, lo <= k < d -> is_Some (wget W w k)) /\ (d < n -> wget W w d = None).

(** [deliver_all_consecutive_counts] stops at RX_NEXT or at the first COUNT missing. *)
Lemma deliver_all_consecutive_counts_spec s :
  rx_core s ->
  exists s', deliver_all_consecutive_counts cfg s = ok s' /\ advancing s (next s) s' /\
    first_missing (rx_window s) (next s) (deliv s) (deliv s').
Proof using Hb.
  intros Hc. destruct (rxc_order _ Hc) as [H0 Hle]. pose proof (rxc_max _ Hc). pose proof (rxc_width _ Hc).
  destruct (while_loop_rule
    (fun s' => advancing s (next s) s' /\ forall k, deliv s <= k < deliv s' -> is_Some (pending s k))
    (fun s' => Z.to_nat (next s - deliv s')) (rx_loop_fuel cfg)
    (fun s => negb (deliv s =? next s) && has_sn W (rx_window s) (deliv s))
    (fun s => s ← rx_deliver cfg s (deliv s); ok (rx_deliv_incr s)) s)
    as (s' & Hrun & [(d & w & -> & Hd & Hw) Hall] & Hcond).
  - split; [by apply advancing_refl|]. intros; lia.
  - unfold rx_loop_fuel. lia.
  - intros s' [(d & w & -> & Hd & Hw) Hall] Hcond. cbn [rx_st rx_advanced set_rx_deliv rx_deliv rx_next rx_window] in Hcond.
    apply andb_prop in Hcond as [Hne Hh]. apply negb_true_iff, Z.eqb_neq in Hne.
    rewrite has_sn_wget in Hh. apply bool_decide_eq_true in Hh as [i Hi].
    rewrite (proj2 Hw), decide_False in Hi by lia.
    change (deliv (rx_advanced s d w)) with d.
    destruct (advance_deliver s d w i) as (s1 & -> & w' & Hs1 & Hw'); [lia..|done|done|].
    rewrite bind_ok. eexists. split; [done|]. rewrite Hs1. cbn [rx_st rx_advanced set_rx_deliv rx_deliv]. split.
    + split; [exists (d + 1), w'; split; [done|split; [lia|done]]|].
      intros k Hk. destruct (decide (k = d)) as [->|]; [by eexists|]. apply Hall. cbn. lia.
    + apply loop_measure. lia.
  - exists (rx_advanced s d w). split; [done|]. split; [by exists d, w|]. split; [cbn; lia|]. split; [done|].
    cbn -[wget] in *. intros Hlt. rewrite (proj2 (Z.eqb_neq _ _)) in Hcond by lia. simpl in Hcond.
    rewrite has_sn_wget in Hcond. apply bool_decide_eq_false in Hcond.
    rewrite (proj2 Hw), decide_False in Hcond by lia.
    destruct (wget W (rx_window s) d); [|done]. destruct Hcond. by eexists.
Qed.

(** What an advanced state keeps. *)
Lemma advanced_core s d w :
  rx_core s -> deliv s <= d <= next s -> dropped_below W (rx_window s) d w -> rx_core (rx_advanced s d w).
Proof using Type.
  intros [Hwf Ho Hm Hwd Hk Ht] Hd [Hwf' Hget]. split; cbn -[wget]; try done || lia.
  - intros k i. rewrite Hget. destruct (decide (k < d)); [done|]. intros Hi. destruct (Hk k i Hi). split; [lia|done].
  - intros Hlt. rewrite Hget, decide_False by lia. apply Ht. lia.
Qed.

(** Nothing is stored at RX_NEXT. *)
Lemma core_gap s : rx_core s -> (deliv s < next s -> pending s (deliv s) = None) -> pending s (deliv s) = None.
Proof using Type.
  intros Hc Hgap. destruct (pending s (deliv s)) as [i|] eqn:Ei; [|done].
  destruct (rxc_keys _ Hc _ _ Ei) as [Hk _]. by specialize (Hgap ltac:(lia)).
Qed.

Lemma emit_core s ev : rx_core s -> rx_core (rx_emit s ev).
Proof using Type. by intros []. Qed.

(** The loop of the expiry handler runs up to RX_REORD. *)
Lemma expire_loop_spec s :
  rx_core s -> deliv s <= rx_reord (rx_st s) <= next s ->
  exists s', while_loop (rx_loop_fuel cfg)
      (fun s => negb (deliv s =? rx_reord (rx_st s)))
      (fun s => s ← (if has_sn W (rx_window s) (deliv s) then rx_deliver cfg s (deliv s) else ok s); ok (rx_deliv_incr s)) s
      = ok s' /\
    advancing s (next s) s' /\ deliv s' = rx_reord (rx_st s).
Proof using Hb.
  intros Hc Hr. destruct (rxc_order _ Hc) as [H0 Hle]. pose proof (rxc_max _ Hc). pose proof (rxc_width _ Hc).
  destruct (while_loop_rule (advancing s (rx_reord (rx_st s)))
    (fun s' => Z.to_nat (rx_reord (rx_st s) - deliv s')) (rx_loop_fuel cfg)
    (fun s => negb (deliv s =? rx_reord (rx_st s)))
    (fun s => s ← (if has_sn W (rx_window s) (deliv s) then rx_deliver cfg s (deliv s) else ok s); ok (rx_deliv_incr s)) s)
    as (s' & -> & (d & w & -> & Hd & Hw) & Hcond).
  - apply advancing_refl; [done|lia].
  - unfold rx_loop_fuel. lia.
  - intros s' (d & w & -> & Hd & Hw) Hne. cbn in Hne. apply negb_true_iff, Z.eqb_neq in Hne.
    change (deliv (rx_advanced s d w)) with d. rewrite has_sn_wget. rewrite (advanced_pending s d w Hw).
    destruct (pending s d) as [i|] eqn:Hi.
    + rewrite bool_decide_eq_true_2 by (by eexists).
      destruct (advance_deliver s d w i) as (s1 & -> & w' & Hs1 & Hw'); [lia..|done|done|]. rewrite bind_ok, Hs1.
      eexists. split; [done|]. split; [|apply loop_measure; cbn in *; lia].
      exists (d + 1), w'. split; [done|split; [lia|done]].
    + rewrite bool_decide_eq_false_2 by (by intros []). rewrite bind_ok.
      destruct (advance_skip s d w) as [-> Hw']; [lia..|done|done|].
      eexists. split; [done|]. split; [|apply loop_measure; cbn in *; lia].
      exists (d + 1), w. split; [done|split; [lia|done]].
  - eexists. split; [done|]. cbn -[wget] in Hcond. apply negb_false_iff, Z.eqb_eq in Hcond.
    split; [|done]. exists d, w. split; [done|split; [lia|done]].
Qed.

(** ** Expiry of t-Reordering *)

(** The state in which the handler leaves the timer. *)
Definition rx_rearmed (s : entity) : entity :=
  if (deliv s <? next s) && negb (t_reordering cfg =? t_reordering_ms0)
  then rx_set_timer (rx_set_st s (set_rx_reord (rx_st s) (next s))) timer_running else s.

Lemma handle_t_reordering_expire_spec s :
  rx_core s -> deliv s <= rx_reord (rx_st s) <= next s ->
  t_reordering cfg <> t_reordering_infinity ->
  exists d w, handle_t_reordering_expire cfg s = ok (rx_rearmed (rx_advanced (rx_emit s rxev_reordering_timeout) d w)) /\
    first_missing (rx_window s) (next s) (rx_reord (rx_st s)) d /\ dropped_below W (rx_window s) d w.
Proof using Hb.
  intros Hc Hr Hinf. unfold handle_t_reordering_expire.
  pose proof (emit_core s rxev_reordering_timeout Hc) as Hc0.
  destruct (expire_loop_spec _ Hc0) as (s1 & -> & (d1 & w1 & Es1 & Hd1 & Hw1) & Hs1); [done|]. rewrite bind_ok.
  assert (Hc1 : rx_core s1) by (rewrite Es1; apply advanced_core; done).
  destruct (deliver_all_consecutive_counts_spec s1 Hc1) as (s2 & -> & (d & w & -> & Hd & Hw) & Hd1' & Hall & Hgap).
  rewrite bind_ok. subst s1. cbn -[wget rx_advanced] in Hd1, Hw1, Hs1. cbn [rx_st rx_advanced set_rx_deliv rx_deliv rx_next rx_window] in *.
  cbn [rx_emit rx_st rx_window] in *.
  rewrite rx_advanced_trans by (done || (cbn; lia)).
  exists d, w. split.
  - unfold rx_rearmed. cbn [rx_st rx_advanced set_rx_deliv rx_deliv rx_next rx_emit].
    destruct (d <? rx_next (rx_st s)); [|done]. simpl andb.
    destruct (Z.eqb_spec (t_reordering cfg) t_reordering_ms0); [done|]. simpl negb.
    unfold run_reordering_timer. rewrite srsran_assert_ok; [done|]. unfold reordering_timer_valid.
    by rewrite !(proj2 (Z.eqb_neq _ _)) by done.
  - split; [|by eapply dropped_below_trans; [|done|done]; lia].
    assert (Hget : forall k, d1 <= k -> wget W w1 k = wget W (rx_window s) k).
    { intros k Hk. rewrite (proj2 Hw1). by rewrite decide_False by lia. }
    split; [lia|]. split.
    + intros k Hk. rewrite <- Hget by lia. apply Hall. lia.
    + intros Hlt. rewrite <- Hget by lia. by apply Hgap.
Qed.

(** ** A PDU enters the window *)

(** [w'] is [w] with the SDU [x] under [c]. *)
Definition window_put (w : circular_map pdcp_rx_sdu_info) (c : Z) (x : bytes) (w' : circular_map pdcp_rx_sdu_info) : Prop :=
  window_wf W w' /\ forall k, wget W w' k = if decide (k = c) then Some (mk_rx_sdu_info x c) else wget W w k.

Definition rx_stored (s : entity) (c : Z) (w : circular_map pdcp_rx_sdu_info) : entity :=
  rx_set_st (rx_set_window s w) (set_rx_next (rx_st s) (Z.max (next s) (c + 1))).

Lemma core_slot_free s c : rx_core s -> deliv s <= c < deliv s + W -> slot_free W (rx_window s) c.
Proof using Hb.
  intros Hc Hr k [i Hi] Hk. destruct (rxc_keys _ Hc k i Hi) as [Hkr _].
  pose proof (rxc_width _ Hc). pose proof W_pos.
  pose proof (Z.div_mod k W) as Hdk. pose proof (Z.div_mod c W) as Hdc. rewrite Hk in Hdk.
  assert (k / W = c / W) by nia. nia.
Qed.

Lemma rx_store_spec s c x :
  rx_core s -> deliv s <= c < deliv s + W -> c < rx_max_count_hard cfg -> pending s c = None ->
  exists w, rx_store cfg s c x = ok (rx_stored s c w) /\ window_put (rx_window s) c x w.
Proof using Hb Hhard.
  intros Hc Hr Hh Hn. unfold rx_store. pose proof (rxc_order _ Hc).
  destruct (add_sn_ok W pdcp_rx_sdu_info_init (rx_window s) c) as (w1 & -> & Hwf1 & _ & Hg1).
  { apply Hc. }
  { by apply core_slot_free. }
  { done. }
  rewrite bind_ok. destruct (cm_set_ok W w1 c (mk_rx_sdu_info x c) pdcp_rx_sdu_info_init) as (w2 & -> & Hwf2 & _ & Hg2).
  { done. }
  { rewrite Hg1. by rewrite decide_True. }
  rewrite bind_ok. exists w2. split.
  - unfold rx_stored, rx_set_st, rx_set_window. cbn -[u32 Z.max]. destruct (Z.leb_spec (next s) c).
    + rewrite u32_small, Z.max_r by lia. done.
    + rewrite Z.max_l by lia. by destruct (rx_st s).
  - split; [done|]. intros k. rewrite Hg2, Hg1. by destruct (decide (k = c)).
Qed.

Lemma stored_core s c x w :
  rx_core s -> deliv s <= c < deliv s + W -> c < rx_max_count_hard cfg -> window_put (rx_window s) c x w ->
  rx_core (rx_stored s c w).
Proof using Hhard.
  intros [Hwf Ho Hm Hwd Hk Ht] Hc Hh [Hwf' Hget]. split; cbn -[wget Z.max]; try done || lia.
  - intros k i. rewrite Hget. destruct (decide (k = c)) as [->|]; [intros [= <-]; simpl; lia|].
    intros Hi. destruct (Hk k i Hi). split; [lia|done].
  - intros _. rewrite Hget. destruct (decide _) as [|Hne]; [by eexists|].
    destruct (Z.max_spec (next s) (c + 1)) as [[? E0]|[? E0]]; rewrite E0 in *; [lia|]. apply Ht. lia.
Qed.

(** ** The timers after a PDU *)
Definition sdus_of (l : list pdcp_rx_event) : list bytes :=
  omap (fun ev => match ev with rxev_new_sdu x => Some x | _ => None end) l.

Lemma sdus_of_app l1 l2 : sdus_of (l1 ++ l2) = sdus_of l1 ++ sdus_of l2.
Proof using Type. apply omap_app. Qed.

Lemma sdus_of_deliveries l : sdus_of (deliveries l) = l.*2.
Proof using Type. induction l as [|[k x] l IH]; [done|]. cbn. f_equal. apply IH. Qed.

(** From [s], with the window [w] and RX_NEXT [n], the entity delivered what is stored in front of the new
    RX_DELIV. *)
Record progress (s : entity) (w : circular_map pdcp_rx_sdu_info) (n : Z) (s' : entity) : Prop := {
  pg_deliv : deliv s <= deliv s' <= n;
  pg_next : next s' = n;
  pg_window : dropped_below W w (deliv s') (rx_window s');
  pg_sdus : sdus_of (rx_out s') = sdus_of (rx_out s) ++ (pending_range W w (deliv s) (deliv s')).*2;
  pg_engine : rx_sec_engine s' = rx_sec_engine s
}.

Lemma advanced_progress s d w :
  deliv s <= d <= next s -> dropped_below W (rx_window s) d w -> progress s (rx_window s) (next s) (rx_advanced s d w).
Proof using Type.
  intros Hd Hw. split; cbn -[wget pending_range]; [done..| |done].
  by rewrite sdus_of_app, sdus_of_deliveries.
Qed.

Lemma timer_core s t : rx_core s -> rx_core (rx_set_timer s t).
Proof using Type. by intros []. Qed.
Lemma reord_core s r : rx_core s -> rx_core (rx_set_st s (set_rx_reord (rx_st s) r)).
Proof using Type. by intros []. Qed.
Local Hint Resolve timer_core reord_core emit_core : core.

(** Without t-Reordering, or with a finite one, the timer follows RX_DELIV. *)
Lemma rx_handle_timers_spec s :
  rx_core s -> (deliv s < next s -> pending s (deliv s) = None) ->
  (is_running (reordering_timer s) = true -> rx_reord (rx_st s) <= next s) ->
  (reordering_timer_valid cfg = false -> is_running (reordering_timer s) = false) ->
  (forall e, rx_sec_engine s = Some e -> ready e) ->
  exists s', rx_handle_timers cfg s = ok s' /\ rx_inv s' /\ progress s (rx_window s) (next s) s' /\
    (t_reordering cfg <> t_reordering_ms0 -> deliv s' = deliv s).
Proof using Hb.
  intros Hc Hgap Htimer Hinf Heng. pose proof (rxc_order _ Hc) as Ho. unfold rx_handle_timers.
  pose proof (core_gap s Hc Hgap) as Hg.
  assert (Hself : progress s (rx_window s) (next s) s).
  { pose proof (advanced_progress s (deliv s) (rx_window s)) as Hp. rewrite <- rx_advanced_refl in Hp. apply Hp; [lia|].
    apply dropped_below_refl; [apply Hc|]. intros k i Hk. apply Hc in Hk. lia. }
  set (s0 := if is_running _ && _ then _ else s).
  assert (Hs0 : exists t, s0 = rx_set_timer s t /\
    (is_running t = true -> is_running (reordering_timer s) = true /\ deliv s < rx_reord (rx_st s))).
  { subst s0. destruct (is_running (reordering_timer s)) eqn:Er; simpl.
    - destruct (Z.leb_spec (rx_reord (rx_st s)) (deliv s)).
      + eexists. split; [done|]. unfold timer_stop. by rewrite Er.
      + exists (reordering_timer s). split; [by destruct s|]. by intros _.
    - exists (reordering_timer s). split; [by destruct s|]. congruence. }
  clearbody s0. destruct Hs0 as (t & -> & Ht).
  assert (Hset : forall t', progress s (rx_window s) (next s) (rx_set_timer s t')) by (intros; by destruct Hself).
  destruct (Z.eqb_spec (t_reordering cfg) t_reordering_infinity) as [Ei|Ei].
  { eexists. split; [done|]. split; [|split; [apply Hset|done]].
    assert (Hv : reordering_timer_valid cfg = false) by (unfold reordering_timer_valid; rewrite Ei; done).
    assert (Hr : is_running t = false).
    { destruct (is_running t); [|done]. destruct (Ht eq_refl) as [Hx _]. by rewrite Hinf in Hx. }
    split; cbn -[wget]; rewrite ?Hv, ?Hr; auto; try done. intros E0. rewrite Ei in E0. discriminate E0. }
  destruct (Z.eqb_spec (t_reordering cfg) t_reordering_ms0) as [E0|E0].
  - assert (Hv : reordering_timer_valid cfg = false) by (unfold reordering_timer_valid; rewrite E0; done).
    assert (Hr : is_running t = false).
    { destruct (is_running t); [|done]. destruct (Ht eq_refl) as [Hx _]. by rewrite Hinf in Hx. }
    set (s1 := rx_set_st (rx_set_timer s t) (set_rx_reord (rx_st s) (next s))).
    assert (Hc1 : rx_core s1) by (apply (reord_core (rx_set_timer s t)); auto).
    match goal with |- context [handle_t_reordering_expire cfg ?x] => change x with s1 end.
    destruct (handle_t_reordering_expire_spec s1) as (d & w & -> & Hfm & Hw); [done|cbn; lia|done|].
    destruct Hfm as ((Hd1 & Hd2) & _). cbn in Hd1, Hd2. assert (d = next s) as -> by lia.
    set (s2 := rx_emit s1 rxev_reordering_timeout). assert (Hc2 : rx_core s2) by (by apply emit_core).
    assert (Hre : rx_rearmed (rx_advanced s2 (next s) w) = rx_advanced s2 (next s) w).
    { unfold rx_rearmed. cbn. by rewrite Z.ltb_irrefl. }
    rewrite Hre. eexists. split; [done|].
    assert (Hc3 : rx_core (rx_advanced s2 (next s) w)) by (apply advanced_core; [done|cbn; lia|done]).
    split; [split; cbn -[wget rx_advanced]; auto; cbn -[wget]; rewrite ?Hr, ?Hv; try done|].
    + destruct (wget W w (next s)) as [i|] eqn:Ep; [|done]. destruct (rxc_keys _ Hc3 (next s) i Ep) as [Hk _]. cbn in Hk. lia.
    + split; [|done]. destruct (advanced_progress s2 (next s) w); [cbn; lia|done|].
      split; try done. rewrite pg_sdus0. cbn -[pending_range sdus_of]. rewrite sdus_of_app. by rewrite app_nil_r.
  - assert (Hv : reordering_timer_valid cfg = true).
    { unfold reordering_timer_valid. by rewrite !(proj2 (Z.eqb_neq _ _)) by done. }
    cbn [reordering_timer rx_set_timer rx_st]. destruct (is_running t) eqn:Er; simpl.
    + eexists. split; [done|]. split; [|split; [apply Hset|done]]. destruct (Ht eq_refl) as [Hrs Hlt].
      split; cbn -[wget]; rewrite ?Er, ?Hv; auto; try done.
    + destruct (Z.ltb_spec (deliv s) (next s)).
      * unfold run_reordering_timer. rewrite srsran_assert_ok by done. rewrite bind_ok.
        eexists. split; [done|]. split; [|split; [destruct Hself; by split|done]].
        split; [apply timer_core, (reord_core (rx_set_timer s t)); auto|..];
          cbn -[wget]; rewrite ?Hv; auto; done || lia.
      * eexists. split; [done|]. split; [|split; [apply Hset|done]].
        split; cbn -[wget]; rewrite ?Er, ?Hv; auto; try done. intros; lia.
Qed.

(** ** Acceptance of an SDU *)

(** The SDUs of [[deliv, deliv')] leave, those above stay. *)
Lemma progress_trans s w d w1 s1 n s' :
  s1 = rx_advanced s d w1 -> w = rx_window s -> n = next s ->
  deliv s <= d <= n -> dropped_below W w d w1 -> progress s1 w1 n s' -> progress s w n s'.
Proof using Type.
  intros -> -> -> Hd Hw [Hdl Hnx Hwd Hs Heng]. cbn -[wget pending_range sdus_of] in *. split; [lia|done| | |done].
  - by eapply dropped_below_trans; [|done|done]; lia.
  - rewrite Hs, sdus_of_app, sdus_of_deliveries, <- app_assoc, <- fmap_app. do 2 f_equal.
    rewrite (pending_range_split _ _ (deliv s) d (deliv s')) by lia. f_equal. apply pending_range_ext.
    intros k Hk. rewrite (proj2 Hw). by rewrite decide_False by lia.
Qed.

Definition in_window (s : entity) (c : Z) : Prop := - W <= c - deliv s < W.

(** A PDU below RX_DELIV or in the window already is dropped; any other is stored, and what is complete
    up to the next gap is delivered. *)
Lemma rx_accept_dropped s c x :
  rx_inv s -> c < deliv s \/ is_Some (pending s c) -> rx_accept cfg s c x = ok s.
Proof using Type.
  intros Hi Hc. unfold rx_accept. destruct (Z.ltb_spec c (deliv s)); [done|].
  destruct Hc as [Hc|[i Hp]]; [lia|]. unfold rx_make_room. rewrite (has_sn_true _ _ _ _ Hp), (cm_at_ok _ _ _ _ Hp), bind_ok.
  destruct (rxc_keys _ (rxi_core _ Hi) _ _ Hp) as [_ ->]. by rewrite Z.eqb_refl.
Qed.

Lemma rx_accept_stored s c x :
  rx_inv s -> deliv s <= c < deliv s + W -> c < rx_max_count_hard cfg -> pending s c = None ->
  exists w s', window_put (rx_window s) c x w /\ rx_accept cfg s c x = ok s' /\ rx_inv s' /\
    progress s w (Z.max (next s) (c + 1)) s' /\
    (t_reordering cfg <> t_reordering_ms0 -> first_missing w (Z.max (next s) (c + 1)) (deliv s) (deliv s')).
Proof using Hb Hhard.
  intros Hi Hc Hh Hp. pose proof (rxi_core _ Hi) as Hcore. pose proof (rxc_order _ Hcore).
  unfold rx_accept. zfalse. unfold rx_make_room. rewrite (has_sn_false _ _ _ Hp), bind_ok.
  destruct (rx_store_spec s c x Hcore) as (w & -> & Hw); [done..|]. rewrite bind_ok.
  pose proof (stored_core s c x w Hcore Hc Hh Hw) as Hc1. set (s1 := rx_stored s c w) in *.
  assert (Hdel : exists s2, (if c =? deliv s1 then deliver_all_consecutive_counts cfg s1 else ok s1) = ok s2 /\
    advancing s1 (next s1) s2 /\ first_missing (rx_window s1) (next s1) (deliv s1) (deliv s2)).
  { destruct (Z.eqb_spec c (deliv s1)) as [Ec|Ec]; [by apply deliver_all_consecutive_counts_spec|].
    exists s1. split; [done|]. split; [apply advancing_refl; [done|cbn; lia]|].
    split; [cbn; lia|]. split; [intros; lia|]. intros _. cbn -[wget] in *. rewrite (proj2 Hw).
    rewrite decide_False by done. apply Hi. }
  destruct Hdel as (s2 & -> & (d & w2 & Es2 & Hd & Hw2) & Hfm). rewrite bind_ok.
  assert (Hc2 : rx_core s2) by (rewrite Es2; by apply advanced_core).
  destruct (rx_handle_timers_spec s2) as (s' & -> & Hi' & Hpg & Hms0); [done|..].
  - rewrite Es2. cbn -[wget]. intros Hlt. rewrite (proj2 Hw2), decide_False by lia.
    destruct Hfm as (_ & _ & Hg). rewrite Es2 in Hg. by apply Hg.
  - rewrite Es2. intros Hr. cbn in Hr. destruct (rxi_timer _ Hi Hr). cbn. lia.
  - rewrite Es2. apply Hi.
  - rewrite Es2. apply Hi.
  - exists w, s'. split; [done|]. split; [done|]. split; [done|]. split.
    + rewrite Es2 in Hpg. pose proof (progress_trans s1 w d w2 _ (next s1) s' eq_refl eq_refl eq_refl Hd Hw2 Hpg) as Hp1.
      destruct Hp1 as [H1 H2 H3 H4 H5]. by split.
    + intros Hm. rewrite Hms0 by done. apply Hfm.
Qed.

(** t-Reordering expires: everything below RX_REORD is given up. *)
Lemma reordering_callback_spec s :
  rx_inv s -> is_running (reordering_timer s) = true ->
  exists s', reordering_callback cfg s = ok s' /\ rx_inv s' /\ progress s (rx_window s) (next s) s' /\
    first_missing (rx_window s) (next s) (rx_reord (rx_st s)) (deliv s') /\
    (deliv s' < next s -> rx_reord (rx_st s') = next s).
Proof using Hb.
  intros Hi Hr. destruct (rxi_timer _ Hi Hr) as [Hlt Hle]. pose proof (rxi_core _ Hi) as Hcore.
  assert (Hv : reordering_timer_valid cfg = true).
  { destruct (reordering_timer_valid cfg) eqn:Ev; [done|]. by rewrite (rxi_infinity _ Hi Ev) in Hr. }
  pose proof Hv as Hv'. unfold reordering_timer_valid in Hv'. apply andb_prop in Hv' as [H0 Hinf].
  apply negb_true_iff, Z.eqb_neq in H0, Hinf.
  unfold reordering_callback. destruct (handle_t_reordering_expire_spec (rx_set_timer s timer_expired))
    as (d & w & -> & Hfm & Hw); [auto|cbn; lia|done|].
  set (s1 := rx_emit (rx_set_timer s timer_expired) rxev_reordering_timeout).
  assert (Hd : deliv s <= d <= next s) by (destruct Hfm as [? _]; cbn in *; lia).
  assert (Hc1 : rx_core (rx_advanced s1 d w)) by (apply advanced_core; [by apply emit_core, timer_core|cbn; lia|done]).
  assert (Hpg : progress s (rx_window s) (next s) (rx_advanced s1 d w)).
  { destruct (advanced_progress s1 d w) as [P1 P2 P3 P4 P5]; [cbn; lia|done|]. split; try done.
    rewrite P4. cbn -[pending_range sdus_of]. by rewrite sdus_of_app, app_nil_r. }
  assert (Hg : pending (rx_advanced s1 d w) d = None).
  { apply (core_gap _ Hc1). intros Hlt'. cbn -[wget] in *. rewrite (proj2 Hw), decide_False by lia. apply Hfm. done. }
  eexists. split; [done|]. unfold rx_rearmed. rewrite (proj2 (Z.eqb_neq _ _) H0). simpl negb. rewrite andb_true_r.
  cbn [rx_st rx_advanced set_rx_deliv rx_deliv rx_next s1 rx_emit rx_set_timer].
  destruct (Z.ltb_spec d (next s)) as [Hdn|Hdn].
  - split; [|split; [destruct Hpg; by split|by split]].
    split; cbn -[wget]; try done; try congruence; try (intros; lia); [|apply Hi].
    apply timer_core. by apply (reord_core (rx_advanced s1 d w)).
  - split; [|split; [done|split; [done|cbn; lia]]].
    split; cbn -[wget]; try done; try congruence; try (intros; lia). apply Hi.
Qed.

(** ** Re-establishment *)

Lemma rx_configure_security_ok s sec_cfg integ ciph e :
  domain sec_cfg = (if is_srb b then domain_rrc else domain_up) ->
  (integ = true -> k_128_int sec_cfg <> None /\ integ_algo sec_cfg <> None) ->
  (is_srb b = true -> integ = true) ->
  security_engine_impl sec_cfg (bearer_id b) (rx_direction cfg) integ ciph = ok e ->
  rx_configure_security cfg s sec_cfg integ ciph = ok (rx_set_security s (Some e) integ ciph).
Proof using Type.
  intros Hdom Hint Hsrb He. unfold rx_configure_security.
  assert (Hd : is_srb b && bool_decide (domain sec_cfg = domain_rrc)
    || is_drb b && bool_decide (domain sec_cfg = domain_up) = true).
  { rewrite Hdom. unfold is_srb, is_drb. by destruct (rb_type b). }
  rewrite (srsran_assert_ok _ Hd), bind_ok. destruct integ; simpl.
  - destruct Hint as [H1 H2]; [done|]. rewrite !bool_decide_eq_false_2 by done. by rewrite He.
  - rewrite srsran_assert_ok, bind_ok by (destruct (is_srb b); [by specialize (Hsrb eq_refl)|done]). by rewrite He.
Qed.

(** Everything stored is dropped. *)
Lemma discard_all_sdus_spec s :
  rx_core s ->
  exists w, discard_all_sdus cfg s = ok (rx_set_st (rx_set_window s w) (set_rx_deliv (rx_st s) (next s))) /\
    forall k, wget W w k = None.
Proof using Hb.
  intros Hc. destruct (rxc_order _ Hc) as [H0 Hle]. pose proof (rxc_max _ Hc). pose proof (rxc_width _ Hc).
  destruct (while_loop_rule (fun s' => exists d w, s' = rx_set_st (rx_set_window s w) (set_rx_deliv (rx_st s) d) /\
       deliv s <= d <= next s /\ dropped_below W (rx_window s) d w)
    (fun s' => Z.to_nat (next s - deliv s')) (rx_loop_fuel cfg)
    (fun s => negb (deliv s =? next s))
    (fun s => s ← (if has_sn W (rx_window s) (deliv s) then w ← remove_sn W (rx_window s) (deliv s); ok (rx_set_window s w)
                   else ok s); ok (rx_deliv_incr s)) s)
    as (s' & Hrun & (d & w & -> & Hd & Hw) & Hcond).
  - exists (deliv s), (rx_window s). split; [by destruct s as [[]]|]. split; [lia|].
    apply dropped_below_refl; [apply Hc|]. intros k i Hk. apply Hc in Hk. lia.
  - unfold rx_loop_fuel. lia.
  - intros s' (d & w & -> & Hd & Hw) Hne. cbn in Hne. apply negb_true_iff, Z.eqb_neq in Hne.
    cbn [rx_st rx_window rx_set_st rx_set_window set_rx_deliv rx_deliv rx_next].
    assert (Hg : wget W w d = pending s d) by (rewrite (proj2 Hw); by rewrite decide_False by lia).
    rewrite has_sn_wget, Hg. destruct (pending s d) as [i|] eqn:Hi.
    + rewrite bool_decide_eq_true_2 by (by eexists).
      destruct (dropped_below_remove W _ _ _ i Hw Hi) as (w' & -> & Hw'). rewrite !bind_ok.
      eexists. split; [done|]. unfold rx_deliv_incr. cbn -[wget u32]. rewrite u32_small by lia.
      split; [|apply loop_measure; lia]. exists (d + 1), w'. split; [done|]. split; [lia|done].
    + rewrite bool_decide_eq_false_2 by (by intros []). rewrite bind_ok.
      eexists. split; [done|]. unfold rx_deliv_incr. cbn -[wget u32]. rewrite u32_small by lia.
      split; [|apply loop_measure; lia]. exists (d + 1), w. split; [done|]. split; [lia|]. by apply dropped_below_skip.
  - cbn in Hcond. apply negb_false_iff, Z.eqb_eq in Hcond. subst d. exists w. split; [done|].
    intros k. rewrite (proj2 Hw). destruct (decide (k < next s)); [done|].
    destruct (pending s k) as [i|] eqn:Hi; [|done]. apply Hc in Hi. lia.
Qed.

(** Everything stored is delivered, without a change of RX_DELIV. *)
Lemma deliver_all_sdus_spec s :
  rx_core s ->
  exists w, deliver_all_sdus cfg s =
      ok (rx_set_st (rx_advanced s (next s) w) (rx_st s)) /\
    forall k, wget W w k = None.
Proof using Hb.
  intros Hc. destruct (rxc_order _ Hc) as [H0 Hle]. pose proof (rxc_max _ Hc). pose proof (rxc_width _ Hc).
  unfold deliver_all_sdus.
  destruct (for_loop_rule
    (fun i s' => deliv s <= i <= next s /\ exists w, s' = rx_set_st (rx_advanced s i w) (rx_st s) /\ dropped_below W (rx_window s) i w)
    (fun _ s' => exists w, s' = rx_set_st (rx_advanced s (next s) w) (rx_st s) /\ dropped_below W (rx_window s) (next s) w)
    (fun i _ => Z.to_nat (next s - i)) (rx_loop_fuel cfg)
    (fun count s => count <? next s) (fun count => u32 (count + 1))
    (fun count s => s ← (if has_sn W (rx_window s) count then rx_deliver cfg s count else ok s); ok (s, false))
    (deliv s) s) as (i' & s' & -> & w & -> & Hw).
  - split; [lia|]. exists (rx_window s). split; [by rewrite <- rx_advanced_refl; destruct s|].
    apply dropped_below_refl; [apply Hc|]. intros k i Hk. apply Hc in Hk. lia.
  - unfold rx_loop_fuel. lia.
  - intros i s' [Hi (w & -> & Hw)] Hcond. cbn in Hcond. apply Z.ltb_ge in Hcond.
    assert (i = next s) as -> by lia. by exists w.
  - intros i s' [Hi (w & -> & Hw)] Hcond. cbn in Hcond. apply Z.ltb_lt in Hcond.
    cbn [rx_window rx_set_st rx_advanced]. rewrite u32_small by lia.
    assert (Hg : wget W w i = pending s i) by (rewrite (proj2 Hw); by rewrite decide_False by lia).
    rewrite has_sn_wget, Hg. destruct (pending s i) as [x|] eqn:Hx.
    + rewrite bool_decide_eq_true_2 by (by eexists). unfold rx_deliver.
      cbn [rx_window rx_set_st rx_advanced rx_emit]. rewrite (cm_at_ok _ _ _ _ Hg), bind_ok.
      destruct (dropped_below_remove W _ _ _ x Hw Hx) as (w' & -> & Hw'). rewrite !bind_ok.
      eexists _, false. split; [done|]. split; [done|]. intros _. split; [|lia]. split; [lia|].
      exists w'. split; [|done]. unfold rx_advanced, rx_set_st, rx_set_window, rx_emit. cbn -[pending_range].
      rewrite pending_range_snoc, Hx, deliveries_app, app_assoc by lia. cbn. by rewrite <- !app_assoc.
    + rewrite bool_decide_eq_false_2 by (by intros []). rewrite bind_ok.
      eexists _, false. split; [done|]. split; [done|]. intros _. split; [|lia]. split; [lia|].
      exists w. split; [|by apply dropped_below_skip]. unfold rx_advanced, rx_set_st. cbn -[pending_range].
      by rewrite pending_range_snoc, Hx, app_nil_r by lia.
  - rewrite bind_ok. exists w. split; [done|].
    intros k. rewrite (proj2 Hw). destruct (decide (k < next s)); [done|].
    destruct (pending s k) as [i|] eqn:Hi; [|done]. apply Hc in Hi. lia.
Qed.
End inv.
