(* ===== verification/PdcpRxProps.v ===== *)
(** * What the receiving PDCP entity guarantees

    A peer numbers its SDUs: SDU [sent c] travels under COUNT [c], in PDUs that [carries] describes.
    [rx_run] are the histories of the entity: PDUs of the peer in any order, repeated or lost, within a
    window of RX_DELIV; PDUs that do not pass the security check, control PDUs and short ones; PDUs for
    which there is no memory; and expiries of t-Reordering. The theorems say that no history makes the
    entity fail, that it delivers in order and at most once, and when it delivers everything. *)

From stdpp Require Import sorting.
From S2P Require Import Prelude SduWindow BitEncoding PdcpSnUtil PdcpBase Security PdcpRx PdcpRxInv.

Section props.
Context {E : Type} `{!SecurityEngine E} (cfg : pdcp_rx_config) (ready : E -> Prop).
Local Abbreviation entity := (pdcp_entity_rx E).
Local Abbreviation b := (rx_base cfg).
Local Abbreviation W := (window_size (rx_base cfg)).
Local Abbreviation deliv s := (rx_deliv (rx_st s)).
Local Abbreviation next s := (rx_next (rx_st s)).
Local Abbreviation pending s k := (wget W (rx_window s) k).

(** ** PDUs *)

(** What the engine, or its absence, makes of a PDU. *)
Definition opened (engine : option E) (pdu : bytes) (c : Z) : outcome security_result :=
  match engine with
  | Some e => decrypt_and_verify_integrity e pdu (rx_hdr_size cfg) c
  | None => ok (if is_srb b then
                  if zlen pdu <=? sec_mac_len then inl integrity_failure
                  else inr (take (Z.to_nat (zlen pdu - sec_mac_len)) pdu)
                else inr pdu)
  end.

(** [pdu] carries the SDU [x] under COUNT [c]. *)
Record carries (engine : option E) (pdu : bytes) (c : Z) (x : bytes) : Prop := {
  cr_len : hdr_len_bytes b < zlen pdu;
  cr_sn : read_data_pdu_header b pdu = Some (SN b c);
  cr_dc : exists b0 rest, pdu = b0 :: rest /\ (is_srb b = true \/ pdcp_pdu_get_dc b0 = dc_data);
  cr_open : exists hdr, zlen hdr = rx_hdr_size cfg /\ opened engine pdu c = ok (inr (hdr ++ x))
}.

(** PDUs of others. *)
Inductive foreign (engine : option E) (pdu : bytes) : Prop :=
| foreign_short : zlen pdu <= hdr_len_bytes b -> foreign engine pdu
| foreign_rejected : (forall c, exists err, opened engine pdu c = ok (inl err)) -> foreign engine pdu.

(** A step that leaves the protocol state as it is. *)
Definition quiet (s s' : entity) : Prop :=
  rx_st s' = rx_st s /\ rx_window s' = rx_window s /\ reordering_timer s' = reordering_timer s /\
  rx_sec_engine s' = rx_sec_engine s /\ sdus_of (rx_out s') = sdus_of (rx_out s).

Lemma quiet_refl s : quiet s s.
Proof using Type. done. Qed.

Lemma quiet_trans s1 s2 s3 : quiet s1 s2 -> quiet s2 s3 -> quiet s1 s3.
Proof using Type. intros (?&?&?&?&?) (?&?&?&?&?). unfold quiet. split_and!; congruence. Qed.

Lemma quiet_inv s s' : quiet s s' -> rx_inv cfg ready s -> rx_inv cfg ready s'.
Proof using Type.
  intros (H1 & H2 & H3 & H4 & _) [[A1 A2 A3 A4 A5 A6] B1 B2 B3 B4 B5 B6].
  split; [split|..]; rewrite ?H1, ?H2, ?H3, ?H4; done.
Qed.

Lemma quiet_emit s ev : (forall x, ev <> rxev_new_sdu x) -> quiet s (rx_emit s ev).
Proof using Type.
  intros Hev. split_and!; try done. cbn -[sdus_of]. rewrite sdus_of_app.
  destruct ev; cbn; rewrite ?app_nil_r; try done. by destruct (Hev sdu).
Qed.

Lemma rx_check_max_count_spec s c :
  (rx_check_max_count cfg s c).1 = (c <? rx_max_count_hard cfg) /\ quiet s (rx_check_max_count cfg s c).2.
Proof using Type.
  unfold rx_check_max_count. set (s0 := if _ && _ then _ else s).
  assert (Hq : quiet s s0).
  { subst s0. destruct (_ && _); [|apply quiet_refl].
    eapply quiet_trans; [by apply (quiet_emit s rxev_max_count_reached)|by split_and!]. }
  clearbody s0. destruct (Z.leb_spec (rx_max_count_hard cfg) c); simpl.
  - split; [by zfalse|]. destruct (negb (rx_count_overflow s0)); [|done]. eapply quiet_trans; [done|].
    eapply quiet_trans; [by apply (quiet_emit s0 rxev_protocol_failure)|by split_and!].
  - split; [by ztrue|done].
Qed.

Lemma apply_deciphering_spec s pdu c r :
  opened (rx_sec_engine s) pdu c = ok r ->
  exists s', apply_deciphering_and_integrity_check cfg s pdu c =
    ok (s', match r with inl _ => None | inr buf => Some buf end) /\ quiet s s'.
Proof using Type.
  unfold opened, apply_deciphering_and_integrity_check. destruct (rx_sec_engine s) as [e|].
  - intros ->. rewrite bind_ok. destruct r as [[]|buf]; (eexists; split; [done|]).
    + by apply quiet_emit.
    + eapply quiet_trans; by apply quiet_emit.
    + by apply quiet_emit.
    + by apply quiet_emit.
  - intros [= <-]. exists s. split; [|apply quiet_refl]. destruct (is_srb b); [|done].
    destruct (Z.leb_spec (zlen pdu) sec_mac_len); [done|]. unfold trim_tail.
    by rewrite srsran_assert_ok by (apply Z.leb_le; lia).
Qed.

Context (Hb : base_ok b) (Hhard : rx_max_count_hard cfg < 2 ^ 32).

Lemma hdr_size_len : rx_hdr_size cfg = hdr_len_bytes b.
Proof using Hb. unfold rx_hdr_size. base_cases (rx_base cfg) Hb; by rewrite E0, Eh. Qed.

(** ** The handler on the PDUs of a history *)

(** A PDU of the peer, in the window: after quiet steps, the acceptance of its SDU. *)
Lemma pdcp_handle_pdu_carries s pdu c x :
  rx_inv cfg ready s -> carries (rx_sec_engine s) pdu c x -> in_window cfg s c -> 0 <= c < rx_max_count_hard cfg ->
  exists s0, quiet s s0 /\ pdcp_handle_pdu cfg s true pdu = rx_accept cfg s0 c x.
Proof using Hb Hhard.
  intros Hi [Hlen Hsn (b0 & rest & Epdu & Hdc) (hdr & Hhdr & Hopen)] Hw Hc.
  pose proof (rxc_order _ _ (rxi_core _ _ _ Hi)). pose proof (rxc_max _ _ (rxi_core _ _ _ Hi)).
  set (s1 := rx_emit s (rxev_pdu (zlen pdu))). assert (Hq1 : quiet s s1) by (by apply quiet_emit).
  assert (Eh : pdcp_handle_pdu cfg s true pdu = pdcp_handle_data_pdu cfg s1 pdu).
  { subst s1 pdu. unfold pdcp_handle_pdu. destruct Hdc as [-> | ->]; [done|]. by rewrite orb_true_r. }
  rewrite Eh. unfold pdcp_handle_data_pdu. zfalse. rewrite Hsn.
  change (rx_st s1) with (rx_st s). rewrite count_estimation_exact by (done || lia).
  destruct (rx_check_max_count_spec s1 c) as [Hgo Hq2]. destruct (rx_check_max_count cfg s1 c) as [go s2].
  simpl in Hgo, Hq2. rewrite Hgo. ztrue. simpl negb. cbv iota.
  assert (Hq : quiet s s2) by (by eapply quiet_trans).
  destruct (apply_deciphering_spec s2 pdu c (inr (hdr ++ x))) as (s3 & -> & Hq3).
  { destruct Hq as (_ & _ & _ & -> & _). done. }
  rewrite bind_ok. unfold trim_head. rewrite srsran_assert_ok by (apply Z.leb_le; rewrite length_app; lia).
  rewrite bind_ok. exists s3. split; [by eapply quiet_trans|].
  replace (Z.to_nat (rx_hdr_size cfg)) with (length hdr) by lia. by rewrite drop_app_length.
Qed.

(** Everything else leaves the protocol state alone. *)
Lemma pdcp_handle_pdu_foreign s pdu copy_ok :
  foreign (rx_sec_engine s) pdu \/ copy_ok = false ->
  exists s', pdcp_handle_pdu cfg s copy_ok pdu = ok s' /\ quiet s s'.
Proof using Type.
  intros Hf. unfold pdcp_handle_pdu. set (s1 := rx_emit s _). assert (Hq1 : quiet s s1) by (by apply quiet_emit).
  assert (Hdrop : exists s', ok (rx_emit s1 rxev_dropped) = ok s' /\ quiet s s').
  { eexists. split; [done|]. eapply quiet_trans; [done|]. by apply quiet_emit. }
  destruct pdu as [|b0 rest]; [done|]. destruct copy_ok; [|done]. simpl negb. cbv iota.
  destruct Hf as [Hf|]; [|done]. destruct (is_srb b || _) eqn:Edc.
  - unfold pdcp_handle_data_pdu. destruct (Z.leb_spec (zlen (b0 :: rest)) (hdr_len_bytes b)); [done|].
    destruct (read_data_pdu_header b (b0 :: rest)) as [sn|]; [|done].
    destruct Hf as [|Hrej]; [lia|]. set (c := count_estimation _ _ _).
    destruct (rx_check_max_count_spec s1 c) as [_ Hq2]. destruct (rx_check_max_count cfg s1 c) as [go s2]. simpl in Hq2.
    assert (Hq : quiet s s2) by (by eapply quiet_trans). destruct go; simpl; [|by exists s2].
    destruct (Hrej c) as [err Herr].
    destruct (apply_deciphering_spec s2 (b0 :: rest) c (inl err)) as (s3 & -> & Hq3).
    { destruct Hq as (_ & _ & _ & -> & _). done. }
    rewrite bind_ok. exists s3. split; [done|]. by eapply quiet_trans.
  - apply orb_false_elim in Edc as [_ Edc]. unfold pdcp_handle_control_pdu.
    destruct (pdcp_pdu_get_dc b0); [|done]. rewrite srsran_assert_ok by done. rewrite bind_ok.
    destruct (pdcp_control_pdu_get_cpt b0); (eexists; split; [done|]); try done.
    eapply quiet_trans; [done|]. by apply quiet_emit.
Qed.

(** ** Histories *)
Context (sent : Z -> bytes).

(** An entity at the start of a history. *)
Definition rx_fresh (s : entity) : Prop :=
  rx_st s = pdcp_rx_state_init /\ rx_window s = cm_empty /\ is_running (reordering_timer s) = false /\
  sdus_of (rx_out s) = [] /\ (forall e, rx_sec_engine s = Some e -> ready e).

(** [rx_run s0 got s]: from [s0] the entity came to [s]; [got] are the COUNTs of the PDUs that arrived in
    time, that is, not below RX_DELIV. *)
Inductive rx_run (s0 : entity) : list Z -> entity -> Prop :=
| run_start : rx_run s0 [] s0
| run_pdu got s c pdu s' :
    rx_run s0 got s -> carries (rx_sec_engine s) pdu c (sent c) ->
    in_window cfg s c -> 0 <= c < rx_max_count_hard cfg ->
    pdcp_handle_pdu cfg s true pdu = ok s' ->
    rx_run s0 (if c <? deliv s then got else c :: got) s'
| run_other got s pdu copy_ok s' :
    rx_run s0 got s -> foreign (rx_sec_engine s) pdu \/ copy_ok = false ->
    pdcp_handle_pdu cfg s copy_ok pdu = ok s' ->
    rx_run s0 got s'
| run_expiry got s s' :
    rx_run s0 got s -> is_running (reordering_timer s) = true ->
    reordering_callback cfg s = ok s' ->
    rx_run s0 got s'.

(** What is known after a history: [counts] are the COUNTs delivered. *)
Record rx_hist (got : list Z) (s : entity) (counts : list Z) : Prop := {
  rh_inv : rx_inv cfg ready s;
  rh_sorted : StronglySorted Z.lt counts;
  rh_out : sdus_of (rx_out s) = sent <$> counts;
  rh_below : forall c, c ∈ counts -> 0 <= c < deliv s;
  rh_got : forall c, c ∈ got <-> c ∈ counts \/ is_Some (pending s c);
  rh_values : forall c i, pending s c = Some i -> rx_sdu i = sent c;
  rh_all : t_reordering cfg = t_reordering_infinity -> counts = seqZ 0 (deliv s)
}.

Lemma rx_hist_quiet got s counts s' : quiet s s' -> rx_hist got s counts -> rx_hist got s' counts.
Proof using Type.
  intros Hq [H1 H2 H3 H4 H5 H6 H7]. pose proof (quiet_inv _ _ Hq H1). destruct Hq as (Q1 & Q2 & Q3 & Q4 & Q5).
  split; rewrite ?Q1, ?Q2, ?Q5; done.
Qed.

Lemma fresh_hist s : rx_fresh s -> rx_hist [] s [].
Proof using Hb Hhard.
  intros (Hst & Hw & Ht & Ho & He). pose proof (W_pos cfg Hb).
  split; rewrite ?Hst, ?Hw; try done.
  - split; [split|..]; rewrite ?Hst, ?Hw, ?Ht, ?wget_empty; try done; cbn; try lia; intros; lia.
  - constructor.
  - intros c Hc. by apply elem_of_nil in Hc.
  - intros c. rewrite wget_empty. split; [by intros ?%elem_of_nil|intros [?%elem_of_nil|[]]; done].
Qed.

(** A step that delivers. *)
Lemma rx_hist_progress got got' s counts w n s' :
  rx_hist got s counts -> rx_inv cfg ready s' -> progress cfg s w n s' ->
  (forall c, c ∈ got' <-> c ∈ counts \/ is_Some (wget W w c)) ->
  (forall c i, wget W w c = Some i -> deliv s <= c /\ rx_sdu i = sent c) ->
  (t_reordering cfg = t_reordering_infinity -> first_missing cfg w n (deliv s) (deliv s')) ->
  exists counts', rx_hist got' s' counts'.
Proof using Type.
  intros [H1 H2 H3 H4 H5 H6 H7] Hi' [P1 P2 P3 P4 P5] Hgot Hval Hinf.
  pose proof (rxc_order _ _ (rxi_core _ _ _ H1)).
  exists (counts ++ (pending_range W w (deliv s) (deliv s')).*1).
  assert (Hpr : forall c, c ∈ (pending_range W w (deliv s) (deliv s')).*1 <->
    deliv s <= c < deliv s' /\ is_Some (wget W w c)).
  { intros c. rewrite list_elem_of_fmap. split.
    - intros ([k x] & -> & (Hk & i & Hi & _)%elem_of_pending_range). split; [done|by exists i].
    - intros (Hk & i & Hi). exists (c, rx_sdu i). split; [done|]. apply elem_of_pending_range. eauto. }
  split; [done|..].
  - apply StronglySorted_app_2; [|done|apply pending_range_sorted]. intros x y Hx%H4 [Hy _]%Hpr. lia.
  - rewrite P4, H3, fmap_app. f_equal. apply pending_range_values. intros k i _ Hk. by apply Hval.
  - intros c [Hc%H4|[Hc _]%Hpr]%elem_of_app; lia.
  - intros c. rewrite Hgot, elem_of_app, Hpr, (proj2 P3). split.
    + intros [Hc|Hc]; [by do 2 left|]. destruct (decide (c < deliv s')) as [|]; [|by right]. left; right.
      destruct Hc as [i Hc]. destruct (Hval _ _ Hc). split; [lia|by exists i].
    + intros [[Hc|[_ Hc]]|Hc]; [by left|by right|]. right. destruct (decide _); [by destruct Hc|done].
  - intros c i. rewrite (proj2 P3). destruct (decide _); [done|]. intros Hc. by apply Hval.
  - intros Ht. destruct (Hinf Ht) as (Hfm & Hall & _). rewrite H7 by done.
    rewrite pending_range_full by (done || lia).
    replace (deliv s') with (deliv s + (deliv s' - deliv s)) at 2 by lia. by rewrite seqZ_app by lia.
Qed.

Lemma infinity_not_ms0 : t_reordering cfg = t_reordering_infinity -> t_reordering cfg <> t_reordering_ms0.
Proof using Type. intros ->. done. Qed.

(** A PDU of the peer. *)
Lemma rx_hist_pdu got s counts c pdu :
  rx_hist got s counts -> carries (rx_sec_engine s) pdu c (sent c) -> in_window cfg s c ->
  0 <= c < rx_max_count_hard cfg ->
  exists s' counts', pdcp_handle_pdu cfg s true pdu = ok s' /\
    rx_hist (if c <? deliv s then got else c :: got) s' counts' /\ rx_sec_engine s' = rx_sec_engine s.
Proof using Hb Hhard.
  intros Hh Hcar Hw Hc.
  destruct (pdcp_handle_pdu_carries s pdu c (sent c)) as (s0 & Hq & ->); [apply Hh|done..|].
  apply (rx_hist_quiet _ _ _ _ Hq) in Hh. destruct Hq as (Hst & Hwin & _ & He0 & _). rewrite <- He0.
  assert (Hw0 : in_window cfg s0 c) by (unfold in_window in *; by rewrite Hst).
  replace (deliv s) with (deliv s0) by (by rewrite Hst). clear s Hst Hwin Hw Hcar He0.
  pose proof (rh_inv _ _ _ Hh) as Hi. unfold in_window in Hw0.
  destruct (Z.ltb_spec c (deliv s0)) as [Hlt|Hge].
  { exists s0, counts. by rewrite (rx_accept_dropped cfg ready) by first [done | by left]. }
  destruct (pending s0 c) as [i|] eqn:Ep.
  { exists s0, counts. rewrite (rx_accept_dropped cfg ready) by first [done | right; by exists i]. split; [done|]. split; [|done].
    destruct Hh as [H1 H2 H3 H4 H5 H6 H7]. split; try done. intros c'. rewrite elem_of_cons, H5.
    split; [|tauto]. intros [->|]; [right; by exists i|done]. }
  destruct (rx_accept_stored cfg ready Hb Hhard s0 c (sent c)) as (w & s' & Hput & -> & Hi' & Hpg & Hfm); [done|lia|lia|done|].
  destruct (rx_hist_progress got (c :: got) s0 counts w (Z.max (next s0) (c + 1)) s') as [counts' Hh']; [done..| | | |].
  - intros c'. rewrite elem_of_cons, (rh_got _ _ _ Hh), (proj2 Hput). destruct (decide (c' = c)) as [->|].
    + split; [right; by eexists|by left].
    + split; [by intros [|]|by right].
  - intros c' i'. rewrite (proj2 Hput). destruct (decide (c' = c)) as [->|]; [by intros [= <-]; simpl|].
    intros Hk. split; [|by apply (rh_values _ _ _ Hh)]. destruct (rxc_keys _ _ (rxi_core _ _ _ Hi) _ _ Hk). lia.
  - intros Ht. apply Hfm. by apply infinity_not_ms0.
  - exists s', counts'. split; [done|]. split; [done|]. apply Hpg.
Qed.

(** An expiry of t-Reordering. *)
Lemma rx_hist_expiry got s counts :
  rx_hist got s counts -> is_running (reordering_timer s) = true ->
  exists s' counts', reordering_callback cfg s = ok s' /\ rx_hist got s' counts' /\ rx_sec_engine s' = rx_sec_engine s.
Proof using Hb.
  intros Hh Hr. pose proof (rh_inv _ _ _ Hh) as Hi.
  destruct (reordering_callback_spec cfg ready Hb s Hi Hr) as (s' & -> & Hi' & Hpg & Hfm & _).
  destruct (rx_hist_progress got got s counts (rx_window s) (next s) s') as [counts' Hh']; [done|done|done|apply Hh| | |].
  - intros c' i' Hk. split; [|by apply (rh_values _ _ _ Hh)].
    destruct (rxc_keys _ _ (rxi_core _ _ _ Hi) _ _ Hk). lia.
  - intros Ht. exfalso. rewrite (rxi_infinity _ _ _ Hi) in Hr; [done|]. unfold reordering_timer_valid. by rewrite Ht.
  - exists s', counts'. split; [done|]. split; [done|]. apply Hpg.
Qed.

Lemma rx_run_hist s0 got s : rx_fresh s0 -> rx_run s0 got s ->
  exists counts, rx_hist got s counts /\ rx_sec_engine s = rx_sec_engine s0.
Proof using Hb Hhard.
  intros Hf. induction 1 as [|got s c pdu s' _ (counts & IH & IHe) Hcar Hw Hc Hs'|got s pdu copy_ok s' _ (counts & IH & IHe) Hf' Hs'|
    got s s' _ (counts & IH & IHe) Hr Hs'].
  - exists []. split; [by apply fresh_hist|done].
  - destruct (rx_hist_pdu got s counts c pdu) as (s1 & counts' & E1 & ? & ?); [done..|]. rewrite E1 in Hs'. simplify_eq.
    exists counts'. split; [done|congruence].
  - destruct (pdcp_handle_pdu_foreign s pdu copy_ok Hf') as (s1 & E1 & Hq). rewrite E1 in Hs'. simplify_eq.
    exists counts. split; [by eapply rx_hist_quiet|]. destruct Hq as (_ & _ & _ & Hq & _). congruence.
  - destruct (rx_hist_expiry got s counts) as (s1 & counts' & E1 & ? & ?); [done..|]. rewrite E1 in Hs'. simplify_eq.
    exists counts'. split; [done|congruence].
Qed.

(** C4: whatever arrives, repeated, out of order, corrupted or not at all, and whenever t-Reordering
    expires, the SDUs that a history delivers are the peer's, in the order of strictly ascending COUNTs;
    every one of them arrived, and an SDU that arrived in time is delivered or waits in the window. *)
Theorem pdcp_rx_in_order s0 got s :
  rx_fresh s0 -> rx_run s0 got s ->
  exists counts, StronglySorted Z.lt counts /\ sdus_of (rx_out s) = sent <$> counts /\
    forall c, c ∈ got <-> c ∈ counts \/ is_Some (pending s c).
Proof using Hb Hhard.
  intros Hf Hr. destruct (rx_run_hist s0 got s Hf Hr) as (counts & [H1 H2 H3 H4 H5 H6 H7] & _). by exists counts.
Qed.

(** Without t-Reordering (infinity) nothing is ever skipped: what is delivered are the SDUs
    0, 1, 2, ... without a gap, and as soon as the first n have arrived, in whatever order, the first n SDUs
    delivered are exactly those. *)
Theorem pdcp_rx_lossless s0 got s n :
  rx_fresh s0 -> rx_run s0 got s -> t_reordering cfg = t_reordering_infinity ->
  (forall c, 0 <= c < n -> c ∈ got) ->
  sdus_of (rx_out s) = sent <$> seqZ 0 (deliv s) /\ n <= deliv s.
Proof using Hb Hhard.
  intros Hf Hr Ht Hn. destruct (rx_run_hist s0 got s Hf Hr) as (counts & [H1 H2 H3 H4 H5 H6 H7] & _).
  rewrite <- H7 by done. split; [done|]. destruct (decide (n <= deliv s)); [done|].
  pose proof (rxc_order _ _ (rxi_core _ _ _ H1)). destruct (proj1 (H5 (deliv s))) as [Hc|[i Hc]]; [apply Hn; lia| |].
  - apply H4 in Hc. lia.
  - by rewrite (rxi_gap _ _ _ H1) in Hc.
Qed.

(** After any history the entity processes whatever comes next - a PDU of the peer, a foreign PDU, a
    PDU that cannot be copied, the expiry of a running t-Reordering - without a failed assertion or an
    endless loop; RX_NEXT stays within one window of RX_DELIV, and both below the hard COUNT limit plus one. *)
Theorem pdcp_rx_never_fails s0 got s :
  rx_fresh s0 -> rx_run s0 got s ->
  (forall c pdu, carries (rx_sec_engine s) pdu c (sent c) -> in_window cfg s c -> 0 <= c < rx_max_count_hard cfg ->
     exists s', pdcp_handle_pdu cfg s true pdu = ok s') /\
  (forall pdu copy_ok, foreign (rx_sec_engine s) pdu \/ copy_ok = false ->
     exists s', pdcp_handle_pdu cfg s copy_ok pdu = ok s') /\
  (is_running (reordering_timer s) = true -> exists s', reordering_callback cfg s = ok s') /\
  0 <= deliv s <= next s /\ next s <= deliv s + W /\ next s < 2 ^ 32.
Proof using Hb Hhard.
  intros Hf Hr. destruct (rx_run_hist s0 got s Hf Hr) as (counts & Hh & _). pose proof (rxi_core _ _ _ (rh_inv _ _ _ Hh)) as Hc.
  split_and!; try apply Hc.
  - intros c pdu H1 H2 H3. destruct (rx_hist_pdu got s counts c pdu) as (s' & ? & ? & _); eauto.
  - intros pdu copy_ok H1. destruct (pdcp_handle_pdu_foreign s pdu copy_ok H1) as (s' & ? & _). eauto.
  - intros H1. destruct (rx_hist_expiry got s counts) as (s' & ? & ? & _); eauto.
Qed.

(** C33: with a finite t-Reordering no gap holds up delivery for more than two expiries: while an
    SDU below RX_NEXT is missing the timer runs; its expiry delivers what is stored below RX_REORD and
    the SDUs that follow without a gap; and if that leaves a gap, the timer runs again and the next
    expiry delivers all the rest up to RX_NEXT. *)
Theorem pdcp_rx_gap_expires s0 got s :
  rx_fresh s0 -> rx_run s0 got s -> reordering_timer_valid cfg = true -> deliv s < next s ->
  is_running (reordering_timer s) = true /\
  exists s1, reordering_callback cfg s = ok s1 /\ deliv s < rx_reord (rx_st s) <= deliv s1 /\
    sdus_of (rx_out s1) = sdus_of (rx_out s) ++ (pending_range W (rx_window s) (deliv s) (deliv s1)).*2 /\
    (deliv s1 = next s \/
     is_running (reordering_timer s1) = true /\
     exists s2, reordering_callback cfg s1 = ok s2 /\ deliv s2 = next s /\
       sdus_of (rx_out s2) = sdus_of (rx_out s) ++ (pending_range W (rx_window s) (deliv s) (next s)).*2).
Proof using Hb Hhard.
  intros Hf Hr Hv Hgap. destruct (rx_run_hist s0 got s Hf Hr) as (counts & Hh & _). pose proof (rh_inv _ _ _ Hh) as Hi.
  pose proof (rxi_live _ _ _ Hi Hv Hgap) as Hrun. split; [done|].
  destruct (reordering_callback_spec cfg ready Hb s Hi Hrun) as (s1 & E1 & Hi1 & [P1 P2 P3 P4 P5] & (Hd1 & _) & Hreord).
  exists s1. split; [done|]. destruct (rxi_timer _ _ _ Hi Hrun). split; [lia|]. split; [done|].
  destruct (decide (deliv s1 = next s)) as [|Hne]; [by left|right].
  assert (Hrun1 : is_running (reordering_timer s1) = true) by (apply Hi1; [done|lia]). split; [done|].
  destruct (reordering_callback_spec cfg ready Hb s1 Hi1 Hrun1) as (s2 & E2 & Hi2 & [Q1 Q2 Q3 Q4 Q5] & (Hd2 & _) & _).
  assert (Hd : deliv s2 = next s).
  { specialize (Hreord ltac:(lia)). lia. }
  exists s2. split; [done|]. split; [done|]. rewrite Q4, P4, Hd, <- app_assoc, <- fmap_app. do 2 f_equal.
  rewrite (pending_range_split _ _ (deliv s) (deliv s1) (next s)) by lia. f_equal. apply pending_range_ext.
  intros k Hk. rewrite (proj2 P3). by rewrite decide_False by lia.
Qed.

(** A PDU that fails deciphering or the integrity check changes neither RX_NEXT, RX_DELIV and
    RX_REORD nor the window nor the timer, and delivers nothing. When the integrity check rejects it,
    under a COUNT the limits leave alone, the upper layer is told so. *)
Theorem pdcp_rx_rejected_pdu s pdu e sn :
  rx_sec_engine s = Some e -> hdr_len_bytes b < zlen pdu -> pdu <> [] ->
  (is_srb b = true \/ pdcp_pdu_get_dc (nth 0 pdu 0) = dc_data) ->
  read_data_pdu_header b pdu = Some sn ->
  let c := count_estimation b (deliv s) sn in
  decrypt_and_verify_integrity e pdu (rx_hdr_size cfg) c = ok (inl integrity_failure) ->
  exists s', pdcp_handle_pdu cfg s true pdu = ok s' /\ quiet s s' /\
    (c < rx_max_count_hard cfg -> c <= rx_max_count_notify cfg ->
     rx_out s' = rx_out s ++ [rxev_pdu (zlen pdu); rxev_integrity_failed; rxev_integrity_failure]).
Proof using Type.
  intros He Hlen Hne Hdc Hsn c Hdec. destruct pdu as [|b0 rest]; [done|]. simpl in Hdc.
  unfold pdcp_handle_pdu. simpl negb. cbv iota. set (s1 := rx_emit s _).
  assert (Hq1 : quiet s s1) by (by apply quiet_emit).
  assert (Hd : is_srb b || match pdcp_pdu_get_dc b0 with dc_data => true | dc_control => false end = true).
  { destruct Hdc as [-> | ->]; [done|]. apply orb_true_r. }
  rewrite Hd. unfold pdcp_handle_data_pdu. zfalse. rewrite Hsn.
  change (count_estimation b (deliv s1) sn) with c. destruct (rx_check_max_count_spec s1 c) as [Hgo Hq2].
  assert (Hsame : c < rx_max_count_hard cfg -> c <= rx_max_count_notify cfg -> rx_check_max_count cfg s1 c = (true, s1)).
  { intros. unfold rx_check_max_count. do 2 zfalse. done. }
  destruct (rx_check_max_count cfg s1 c) as [go s2]. simpl in Hgo, Hq2. destruct go; simpl negb; cbv iota.
  2:{ exists s2. split; [done|]. split; [by eapply quiet_trans|]. intros H1 H2. by specialize (Hsame H1 H2). }
  assert (He2 : rx_sec_engine s2 = Some e) by (destruct Hq2 as (_ & _ & _ & -> & _); done).
  unfold apply_deciphering_and_integrity_check. rewrite He2, Hdec, !bind_ok. eexists. split; [done|]. split.
  - eapply quiet_trans; [done|]. eapply quiet_trans; [done|]. eapply quiet_trans; by apply quiet_emit.
  - intros H1 H2. specialize (Hsame H1 H2). simplify_eq. cbn. by rewrite <- !app_assoc.
Qed.

(** Re-establishment of an idle or busy entity. On an SRB what is stored is dropped, on a UM DRB it is
    delivered in the order of its COUNTs; in both cases the window is empty, the timer stopped, and
    RX_NEXT, RX_DELIV and RX_REORD are back at 0. On an AM DRB window, state and timer stay. *)
Theorem pdcp_rx_reestablish s sec_cfg e :
  rx_inv cfg ready s -> is_srb b = false \/ is_um b = false ->
  domain sec_cfg = (if is_srb b then domain_rrc else domain_up) ->
  (rx_integrity_enabled s = true -> k_128_int sec_cfg <> None /\ integ_algo sec_cfg <> None) ->
  (is_srb b = true -> rx_integrity_enabled s = true) ->
  security_engine_impl sec_cfg (bearer_id b) (rx_direction cfg) (rx_integrity_enabled s) (rx_ciphering_enabled s) = ok e ->
  exists s', rx_reestablish cfg s sec_cfg = ok s' /\ rx_sec_engine s' = Some e /\
    if is_srb b || is_um b then
      rx_st s' = pdcp_rx_state_init /\ (forall k, pending s' k = None) /\ is_running (reordering_timer s') = false /\
      rx_out s' = rx_out s ++ (if is_um b then deliveries (pending_range W (rx_window s) (deliv s) (next s)) else [])
    else
      rx_st s' = rx_st s /\ rx_window s' = rx_window s /\ reordering_timer s' = reordering_timer s /\ rx_out s' = rx_out s.
Proof using Hb.
  intros Hi Hmode Hdom Hint Hsrb He. unfold rx_reestablish.
  assert (Hconf : forall s1, rx_integrity_enabled s1 = rx_integrity_enabled s -> rx_ciphering_enabled s1 = rx_ciphering_enabled s ->
    rx_configure_security cfg s1 sec_cfg (rx_integrity_enabled s1) (rx_ciphering_enabled s1) =
      ok (rx_set_security s1 (Some e) (rx_integrity_enabled s) (rx_ciphering_enabled s))).
  { intros s1 -> ->. apply rx_configure_security_ok; done. }
  destruct (is_srb b) eqn:Esrb; simpl orb.
  - destruct Hmode as [|Hum]; [done|]. rewrite Hum.
    destruct (discard_all_sdus_spec cfg Hb s (rxi_core _ _ _ Hi)) as (w & -> & Hw). rewrite !bind_ok.
    rewrite Hconf; [|by destruct (is_running _)..]. eexists. split; [done|]. split; [done|].
    destruct (is_running (reordering_timer _)) eqn:Er; cbn -[wget]; rewrite ?app_nil_r; split_and!; try done.
    unfold timer_stop. cbn in Er. by rewrite Er.
  - rewrite bind_ok. destruct (is_um b) eqn:Eum.
    + set (s1 := if is_running _ then _ else s).
      assert (Hs1 : exists t, s1 = rx_set_timer s t /\ is_running t = false).
      { subst s1. destruct (is_running (reordering_timer s)) eqn:Er.
        - eexists. split; [done|]. unfold timer_stop. by rewrite Er.
        - exists (reordering_timer s). split; [by destruct s|done]. }
      clearbody s1. destruct Hs1 as (t & -> & Ht).
      destruct (deliver_all_sdus_spec cfg Hb (rx_set_timer s t)) as (w & -> & Hw); [by apply timer_core, Hi|].
      rewrite bind_ok. rewrite Hconf by done. eexists. split; [done|]. split; [done|].
      cbn -[wget pending_range]. split_and!; done.
    + rewrite bind_ok. rewrite Hconf by done. eexists. split; [done|]. split; [done|]. split_and!; done.
Qed.
End props.
