(* ===== verification/PdcpTx.v ===== *)
(** * The transmitting PDCP entity

    [pdcp_entity_tx] of [lib/pdcp/pdcp_entity_tx.{h,cpp}]: numbering and protection of SDUs, the limits on
    queue, window and COUNT, the transmit window with its discard timers, the notifications of the lower
    layer, status reports of the peer, data recovery and re-establishment. An event of the entity is one function
    from its state to its state; what it does to the layers above and below and to the metrics are
    the events of [tx_out], in order. The security engine is used through its interface. Log output is
    left out. *)

From S2P Require Import Prelude SduWindow BitEncoding PdcpSnUtil PdcpBase Security.

(** ** Data *)
Record pdcp_tx_config := mk_pdcp_tx_config {
  tx_base : pdcp_base;
  tx_direction : security_direction;
  discard_timer : option Z;          (* milliseconds; [infinity = -1] *)
  status_report_required : bool;
  tx_max_count_notify : Z;
  tx_max_count_hard : Z;
  rlc_sdu_queue : Z;                 (* [uint16_t] *)
  test_mode : bool
}.

Definition discard_timer_infinity : Z := -1.

Record pdcp_tx_state := mk_pdcp_tx_state { tx_next : Z; tx_trans : Z; tx_next_ack : Z }.

Definition pdcp_tx_state_init : pdcp_tx_state := mk_pdcp_tx_state 0 0 0.

(** [pdcp_tx_sdu_info]; a timer that was not created is [None]. *)
Record pdcp_tx_sdu_info := mk_tx_sdu_info {
  tx_sdu_count : Z;
  tx_sdu : bytes;
  tx_discard_timer : option timer_state
}.

Definition pdcp_tx_sdu_info_init : pdcp_tx_sdu_info := mk_tx_sdu_info 0 [] None.

Inductive pdcp_tx_event :=
| txev_sdu_metrics (len : Z)                   (* metrics_add_sdus(1, len) *)
| txev_pdu_metrics (len : Z)                   (* metrics_add_pdus(1, len) *)
| txev_discard_timeout                         (* metrics_add_discard_timouts(1) *)
| txev_new_pdu (pdu : bytes) (is_retx : bool)  (* lower_dn.on_new_pdu(pdu, is_retx) *)
| txev_discard_pdu (sn : Z)                    (* lower_dn.on_discard_pdu(sn) *)
| txev_max_count_reached                       (* upper_cn.on_max_count_reached() *)
| txev_protocol_failure.                       (* upper_cn.on_protocol_failure() *)

Record pdcp_entity_tx {E : Type} := mk_pdcp_tx {
  tx_st : pdcp_tx_state;
  tx_window : circular_map pdcp_tx_sdu_info;
  tx_count_notified : bool;                    (* max_count_notified *)
  tx_count_overflow : bool;                    (* max_count_overflow *)
  tx_sec_engine : option E;
  tx_integrity_enabled : bool;
  tx_ciphering_enabled : bool;
  tx_out : list pdcp_tx_event
}.
Arguments pdcp_entity_tx E : clear implicits.

(** What the buffer pool answers while one PDU is built: [deep_copy], [reserve_prepend], and [append] of a zero MAC. *)
Record tx_memory := mk_tx_memory { copy_ok : bool; reserve_ok : bool; mac_ok : bool }.

Section pdcp_entity_tx.
Context {E : Type} `{!SecurityEngine E} (cfg : pdcp_tx_config).

Local Abbreviation entity := (pdcp_entity_tx E).
Local Abbreviation b := (tx_base cfg).
Local Abbreviation W := (window_size (tx_base cfg)).

(** Assignments to single members. *)
Definition tx_set_st (s : entity) x := mk_pdcp_tx E x (tx_window s)
  (tx_count_notified s) (tx_count_overflow s) (tx_sec_engine s) (tx_integrity_enabled s) (tx_ciphering_enabled s) (tx_out s).
Definition tx_set_window (s : entity) x := mk_pdcp_tx E (tx_st s) x
  (tx_count_notified s) (tx_count_overflow s) (tx_sec_engine s) (tx_integrity_enabled s) (tx_ciphering_enabled s) (tx_out s).
Definition tx_set_flags (s : entity) n o := mk_pdcp_tx E (tx_st s) (tx_window s)
  n o (tx_sec_engine s) (tx_integrity_enabled s) (tx_ciphering_enabled s) (tx_out s).
Definition tx_set_security (s : entity) e i c := mk_pdcp_tx E (tx_st s) (tx_window s)
  (tx_count_notified s) (tx_count_overflow s) e i c (tx_out s).
Definition tx_emit (s : entity) ev := mk_pdcp_tx E (tx_st s) (tx_window s)
  (tx_count_notified s) (tx_count_overflow s) (tx_sec_engine s) (tx_integrity_enabled s) (tx_ciphering_enabled s) (tx_out s ++ [ev]).

Definition set_tx_next (x : pdcp_tx_state) n := mk_pdcp_tx_state n (tx_trans x) (tx_next_ack x).
Definition set_tx_trans (x : pdcp_tx_state) n := mk_pdcp_tx_state (tx_next x) n (tx_next_ack x).
Definition set_tx_next_ack (x : pdcp_tx_state) n := mk_pdcp_tx_state (tx_next x) (tx_trans x) n.

(** The constructor; [report_error] ends the process. *)
Definition pdcp_entity_tx_ctor : outcome entity :=
  if is_srb b && negb (bool_decide (sn_size b = pdcp_sn_12bits)) then fail assertion
  else if is_srb b && is_um b then fail assertion
  else ok (mk_pdcp_tx E pdcp_tx_state_init cm_empty false false None false false []).

Definition has_discard_timer : bool := match discard_timer cfg with Some _ => true | None => false end.

(** ** The transmit window *)

(** "Update TX_TRANS if it falls out of the tx_window" *)
Definition raise_tx_trans (s : entity) : entity :=
  if tx_trans (tx_st s) <? tx_next_ack (tx_st s) then tx_set_st s (set_tx_trans (tx_st s) (tx_next_ack (tx_st s))) else s.

Definition tx_next_ack_incr (s : entity) : entity :=
  tx_set_st s (set_tx_next_ack (tx_st s) (u32 (tx_next_ack (tx_st s) + 1))).

Definition discard_pdu (s : entity) (count : Z) : outcome entity :=
  if negb has_discard_timer then ok s
  else if (count <? tx_next_ack (tx_st s)) || (tx_next (tx_st s) <=? count) then ok s
  else if negb (has_sn W (tx_window s) count) then ok s
  else
    let s := tx_emit s (txev_discard_pdu (SN b count)) in
    w ← remove_sn W (tx_window s) count;
    let s := tx_set_window s w in
    s ← while_loop (S (Z.to_nat (tx_next (tx_st s) - tx_next_ack (tx_st s))))
      (fun s => (tx_next_ack (tx_st s) <? tx_next (tx_st s)) && negb (has_sn W (tx_window s) (tx_next_ack (tx_st s))))
      (fun s => ok (tx_next_ack_incr s))
      s;
    ok (raise_tx_trans s).

Definition stop_discard_timer (s : entity) (highest_count : Z) : outcome entity :=
  if negb has_discard_timer then ok s
  else if (highest_count <? tx_next_ack (tx_st s)) || (tx_next (tx_st s) <=? highest_count) then ok s
  else
    s ← while_loop (S (S (Z.to_nat (highest_count - tx_next_ack (tx_st s)))))
      (fun s => tx_next_ack (tx_st s) <=? highest_count)
      (fun s =>
         s ← (if has_sn W (tx_window s) (tx_next_ack (tx_st s))
              then w ← remove_sn W (tx_window s) (tx_next_ack (tx_st s)); ok (tx_set_window s w)
              else ok s);
         ok (tx_next_ack_incr s))
      s;
    ok (raise_tx_trans s).

(** [discard_callback]: the timer manager reports the expiry of the timer of [count]. *)
Definition handle_discard_expire (s : entity) (count : Z) : outcome entity :=
  info ← cm_at W (tx_window s) count;
  w ← cm_set W (tx_window s) count (mk_tx_sdu_info (tx_sdu_count info) (tx_sdu info) (Some timer_expired));
  discard_pdu (tx_emit (tx_set_window s w) txev_discard_timeout) count.

Definition tx_reset (s : entity) : entity := tx_set_window (tx_set_st s pdcp_tx_state_init) cm_empty.

(** ** Security *)
Definition tx_configure_security (s : entity) (sec_cfg : sec_128_as_config)
    (integrity_enabled ciphering_enabled : bool) : outcome entity :=
  srsran_assert ((is_srb b && bool_decide (domain sec_cfg = domain_rrc))
                 || (is_drb b && bool_decide (domain sec_cfg = domain_up)));;
  if (integrity_enabled : bool) && (bool_decide (k_128_int sec_cfg = None) || bool_decide (integ_algo sec_cfg = None)) then ok s
  else
    srsran_assert (integrity_enabled || negb (is_srb b));;
    engine ← security_engine_impl sec_cfg (bearer_id b) (tx_direction cfg) integrity_enabled ciphering_enabled;
    ok (tx_set_security s (Some engine) integrity_enabled ciphering_enabled).

Definition tx_hdr_size : Z := if bool_decide (sn_size b = pdcp_sn_12bits) then 2 else 3.

(** Only the zero MAC of an unprotected SRB may give [None]: [result.buf.value()] throws for an engine that reports
    an error. *)
Definition apply_ciphering_and_integrity_protection (s : entity) (mem : tx_memory) (buf : bytes) (count : Z)
    : outcome (option bytes) :=
  match tx_sec_engine s with
  | None =>
      if is_srb b then ok (if mac_ok mem then Some (buf ++ [0; 0; 0; 0]) else None) else ok (Some buf)
  | Some engine =>
      result ← encrypt_and_protect_integrity engine buf tx_hdr_size count;
      match result with
      | inr buf => ok (Some buf)
      | inl _ => fail uncaught_exception
      end
  end.

(** ** Towards the lower layer *)
Definition write_data_pdu_to_lower_layers (s : entity) (buf : bytes) (is_retx : bool) : entity :=
  tx_emit (tx_emit s (txev_pdu_metrics (zlen buf))) (txev_new_pdu buf is_retx).
Definition write_control_pdu_to_lower_layers (s : entity) (buf : bytes) : entity :=
  tx_emit (tx_emit s (txev_pdu_metrics (zlen buf))) (txev_new_pdu buf false).

(** ** Notifications *)
Definition notification_count_estimation (s : entity) (notification_sn : Z) : Z :=
  count_estimation b (if has_discard_timer then tx_next_ack (tx_st s) else tx_trans (tx_st s)) notification_sn.

Definition handle_transmit_notification (s : entity) (notif_sn : Z) : outcome entity :=
  card ← pdcp_sn_cardinality (sn_size b);
  if card <=? notif_sn then ok s
  else
    let notif_count := notification_count_estimation s notif_sn in
    if notif_count <? tx_trans (tx_st s) then ok s
    else if tx_next (tx_st s) <=? notif_count then ok s
    else
      let s := tx_set_st s (set_tx_trans (tx_st s) (u32 (notif_count + 1))) in
      if negb has_discard_timer then ok s
      else if is_um b then stop_discard_timer s notif_count
      else ok s.

Definition handle_delivery_notification (s : entity) (notif_sn : Z) : outcome entity :=
  card ← pdcp_sn_cardinality (sn_size b);
  if card <=? notif_sn then ok s
  else
    let notif_count := notification_count_estimation s notif_sn in
    if tx_next (tx_st s) <=? notif_count then ok s
    else if negb has_discard_timer then ok s
    else if is_am b then stop_discard_timer s notif_count
    else ok s.

(** Both only write to the log. *)
Definition handle_retransmit_notification (s : entity) (notif_sn : Z) : outcome entity := ok s.
Definition handle_delivery_retransmitted_notification (s : entity) (notif_sn : Z) : outcome entity := ok s.

(** ** SDUs *)

(** The limits on COUNT values: whether transmission goes on, and the state with the limits' flags. *)
Definition tx_check_max_count (s : entity) : bool * entity :=
  if tx_max_count_hard cfg <=? tx_next (tx_st s) then
    (false, if negb (tx_count_overflow s)
            then tx_set_flags (tx_emit s txev_protocol_failure) (tx_count_notified s) true else s)
  else
    (true, if (tx_max_count_notify cfg <=? tx_next (tx_st s)) && negb (tx_count_notified s)
           then tx_set_flags (tx_emit s txev_max_count_reached) true (tx_count_overflow s) else s).

(** The element for the PDU of TX_NEXT, its discard timer running unless the duration is infinite. *)
Definition tx_store (s : entity) (sdu : bytes) : outcome entity :=
  match discard_timer cfg with
  | None => ok s
  | Some duration =>
      let timer := if duration =? discard_timer_infinity then None else Some (timer_run timer_stopped) in
      s ← (if has_sn W (tx_window s) (tx_next (tx_st s))
           then info ← cm_at W (tx_window s) (tx_next (tx_st s)); discard_pdu s (tx_sdu_count info)
           else ok s);
      w ← add_sn W pdcp_tx_sdu_info_init (tx_window s) (tx_next (tx_st s));
      w ← cm_set W w (tx_next (tx_st s)) (mk_tx_sdu_info (tx_next (tx_st s)) (if is_am b then sdu else []) timer);
      ok (tx_set_window s w)
  end.

Definition pdcp_handle_sdu (s : entity) (mem : tx_memory) (buf : bytes) : outcome entity :=
  if tx_next (tx_st s) <? tx_trans (tx_st s) then ok s
  else if rlc_sdu_queue cfg <=? tx_next (tx_st s) - tx_trans (tx_st s) then ok s
  else if W - 1 <=? tx_next (tx_st s) - tx_trans (tx_st s) then ok s
  else
    let s := tx_emit s (txev_sdu_metrics (zlen buf)) in
    let '(go_on, s) := tx_check_max_count s in
    if negb go_on then ok s
    else if has_discard_timer && is_am b && negb (copy_ok mem) then ok (tx_emit s txev_protocol_failure)
    else
      hdr_buf ← write_data_pdu_header b (reserve_ok mem) buf (SN b (tx_next (tx_st s)));
      match hdr_buf with
      | None => ok (tx_emit s txev_protocol_failure)
      | Some hdr_buf =>
          exp_buf ← apply_ciphering_and_integrity_protection s mem hdr_buf (tx_next (tx_st s));
          match exp_buf with
          | None => ok (tx_emit s txev_protocol_failure)
          | Some protected_buf =>
              s ← tx_store s buf;
              let s := write_data_pdu_to_lower_layers s protected_buf false in
              let tx_count := tx_next (tx_st s) in
              let s := tx_set_st s (set_tx_next (tx_st s) (u32 (tx_count + 1))) in
              if test_mode cfg then handle_transmit_notification s (SN b tx_count) else ok s
          end
      end.

(** ** Retransmission *)

(** [retransmit_all_pdus]; [mem count]: the answers of the pool for the PDU of [count]. *)
Definition retransmit_all_pdus (s : entity) (mem : Z -> tx_memory) : outcome entity :=
  if negb has_discard_timer then ok s
  else if negb (is_am b) then ok s
  else
    let s := tx_set_st s (set_tx_trans (tx_st s) (tx_next_ack (tx_st s))) in
    '(_, s) ← for_loop (S (Z.to_nat (tx_next (tx_st s) - tx_next_ack (tx_st s))))
      (fun count s => count <? tx_next (tx_st s)) (fun count => u32 (count + 1))
      (fun count s =>
         if negb (has_sn W (tx_window s) count) then ok (s, false)
         else
           info ← cm_at W (tx_window s) count;
           if negb (copy_ok (mem count)) then ok (tx_emit s txev_protocol_failure, true)
           else
             hdr_buf ← write_data_pdu_header b (reserve_ok (mem count)) (tx_sdu info) (SN b (tx_sdu_count info));
             match hdr_buf with
             | None => ok (tx_emit s txev_protocol_failure, true)
             | Some buf =>
                 exp_buf ← apply_ciphering_and_integrity_protection s (mem count) buf (tx_sdu_count info);
                 match exp_buf with
                 | None => ok (tx_emit s txev_protocol_failure, true)
                 | Some protected_buf => ok (write_data_pdu_to_lower_layers s protected_buf true, false)
                 end
             end)
      (tx_next_ack (tx_st s)) s;
    ok s.

Definition tx_reestablish (s : entity) (mem : Z -> tx_memory) (sec_cfg : sec_128_as_config) : outcome entity :=
  let s := if is_srb b || is_um b then tx_reset s else s in
  s ← tx_configure_security s sec_cfg (tx_integrity_enabled s) (tx_ciphering_enabled s);
  if is_am b then retransmit_all_pdus s mem else ok s.

(** [send_status_report]; [report]: what the receiving entity compiles. *)
Definition send_status_report (s : entity) (report : outcome bytes) : outcome entity :=
  if status_report_required cfg
  then status_report ← report; ok (write_control_pdu_to_lower_layers s status_report)
  else ok s.

Definition data_recovery (s : entity) (mem : Z -> tx_memory) (report : outcome bytes) : outcome entity :=
  srsran_assert (is_drb b && is_am b);;
  s ← (if status_report_required cfg then send_status_report s report else ok s);
  retransmit_all_pdus s mem.

(** ** Status reports of the peer *)

(** [while (dec.unpack(bit, 1))]: [n] turns at most. *)
Fixpoint status_bitmap (n : nat) (dec : bit_decoder) (fmc : Z) (s : entity) : outcome entity :=
  match n with
  | O => fail out_of_fuel
  | S n =>
      '(found, bit, dec) ← bit_decoder_unpack_val 32 dec 1;
      if found : bool then
        let fmc := u32 (fmc + 1) in
        s ← (if bit =? 1 then discard_pdu s fmc else ok s);
        status_bitmap n dec fmc s
      else ok s
  end.

(** [for (count = st.tx_next_ack; count < fmc; count++)]; [fuel]: how many turns are granted. *)
Definition discard_below (fuel : nat) (s : entity) (fmc : Z) : outcome entity :=
  '(_, s) ← for_loop fuel (fun count _ => count <? fmc) (fun count => u32 (count + 1))
    (fun count s => s ← discard_pdu s count; ok (s, false))
    (tx_next_ack (tx_st s)) s;
  ok s.

(** [buffer_ok]: the report could be copied into one buffer. *)
Definition handle_status_report (s : entity) (buffer_ok : bool) (buf : bytes) : outcome entity :=
  if negb buffer_ok then ok s
  else
    '(_, dc, dec) ← bit_decoder_unpack_val 32 (decoder_init buf) 1;
    if negb (dc =? pdcp_dc_to_number dc_control) then ok s
    else
      '(_, cpt, dec) ← bit_decoder_unpack_val 32 dec 3;
      if negb (cpt =? cpt_to_number cpt_status_report) then ok s
      else
        '(_, reserved, dec) ← bit_decoder_unpack_val 32 dec 4;
        if negb (reserved =? 0) then ok s
        else
          '(_, fmc, dec) ← bit_decoder_unpack_val 32 dec 32;
          s ← discard_below (S (Z.to_nat (fmc - tx_next_ack (tx_st s)))) s fmc;
          status_bitmap (S (8 * length buf)) dec fmc s.
End pdcp_entity_tx.
