(* ===== verification/PdcpTxInv.v ===== *)
(** * The invariant of the transmitting PDCP entity

    TX_NEXT_ACK <= TX_TRANS <= TX_NEXT; the transmit window holds elements of COUNTs in
    [[TX_NEXT_ACK, TX_NEXT)], each under its own COUNT, with the SDU that was sent under it when a
    retransmission may need it, and with a running discard timer when the duration is finite. The operations on the window
    are given closed forms: [discard_pdu_spec], [discard_list_spec], [stop_discard_timer_spec]. *)

From S2P Require Import Prelude SduWindow BitEncoding PdcpSnUtil BitStream Security PdcpBase PdcpTx.

(** The PDUs handed to the lower layer, and the SNs it was told to discard. *)
Definition pdus_of (l : list pdcp_tx_event) : list (bytes * bool) :=
  omap (fun ev => match ev with txev_new_pdu pdu is_retx => Some (pdu, is_retx) | _ => None end) l.
Definition discards_of (l : list pdcp_tx_event) : list Z :=
  omap (fun ev => match ev with txev_discard_pdu sn => Some sn | _ => None end) l.

Lemma pdus_of_app l1 l2 : pdus_of (l1 ++ l2) = pdus_of l1 ++ pdus_of l2.
Proof. apply omap_app. Qed.
Lemma discards_of_app l1 l2 : discards_of (l1 ++ l2) = discards_of l1 ++ discards_of l2.
Proof. apply omap_app. Qed.

Section inv.
Context {E : Type} `{!SecurityEngine E} (cfg : pdcp_tx_config).
Local Abbreviation entity := (pdcp_entity_tx E).
Local Abbreviation b := (tx_base cfg).
Local Abbreviation W := (window_size (tx_base cfg)).
Local Abbreviation next s := (tx_next (tx_st s)).
Local Abbreviation trans s := (tx_trans (tx_st s)).
Local Abbreviation ack s := (tx_next_ack (tx_st s)).
Local Abbreviation stored s k := (wget W (tx_window s) k).

(** The timer of a new element. *)
Definition new_timer : option timer_state :=
  match discard_timer cfg with
  | Some d => if d =? discard_timer_infinity then None else Some timer_running
  | None => None
  end.

(** [sdus]: the SDUs that were given a COUNT, in that order. *)
Record tx_inv (sdus : list bytes) (s : entity) : Prop := {
  txi_wf : window_wf W (tx_window s);
  txi_order : 0 <= ack s <= trans s /\ trans s <= next s;
  txi_next : next s = zlen sdus;
  txi_max : next s <= Z.max 0 (tx_max_count_hard cfg);
  txi_width : if has_discard_timer cfg then trans s <= ack s + W /\ next s <= ack s + 2 * W else next s <= trans s + W;
  txi_keys : forall k i, stored s k = Some i ->
    ack s <= k < next s /\ tx_sdu_count i = k /\ tx_discard_timer i = new_timer /\
    (is_am b = true -> sdus !! Z.to_nat k = Some (tx_sdu i));
  txi_plain : has_discard_timer cfg = false -> ack s = 0 /\ forall k, stored s k = None
}.

(** ** Steps that take elements out of the window *)

(** Everything else stays, but for the two lower edges. *)
Record trimmed (s s' : entity) : Prop := {
  tr_wf : window_wf W (tx_window s) -> window_wf W (tx_window s');
  tr_next : next s' = next s;
  tr_ack : ack s <= ack s' <= Z.max (ack s) (next s);
  tr_trans : trans s' = Z.max (trans s) (ack s');
  tr_stored : forall k, stored s' k = stored s k \/ stored s' k = None;
  tr_above : forall k, is_Some (stored s' k) -> ack s <= k -> ack s' <= k;
  tr_same : tx_count_notified s' = tx_count_notified s /\ tx_count_overflow s' = tx_count_overflow s /\
    tx_sec_engine s' = tx_sec_engine s /\ tx_integrity_enabled s' = tx_integrity_enabled s /\
    tx_ciphering_enabled s' = tx_ciphering_enabled s;
  tr_pdus : pdus_of (tx_out s') = pdus_of (tx_out s);
  tr_plain : has_discard_timer cfg = false -> ack s' = ack s
}.

Lemma trimmed_refl s : ack s <= trans s -> trimmed s s.
Proof using Type. intros. split; [done|done|lia|lia|by left|done|done|done|done]. Qed.

Lemma trimmed_trans s1 s2 s3 : trimmed s1 s2 -> trimmed s2 s3 -> trimmed s1 s3.
Proof using Type.
  intros [A1 A2 A3 A4 A5 A6 A7 A8 A9] [B1 B2 B3 B4 B5 B6 B7 B8 B9]. split.
  - auto.
  - lia.
  - lia.
  - lia.
  - intros k. destruct (B5 k) as [-> | ->]; [apply A5|by right].
  - intros k Hk Hle. apply B6; [done|]. apply A6; [|done]. destruct (B5 k) as [<-|Hn]; [done|]. rewrite Hn in Hk. by destruct Hk.
  - destruct A7 as (?&?&?&?&?), B7 as (?&?&?&?&?). split_and!; congruence.
  - congruence.
  - intros Ht. rewrite B9, A9; done.
Qed.

Lemma trimmed_inv sdus s s' : trimmed s s' -> tx_inv sdus s -> tx_inv sdus s'.
Proof using Type.
  intros [A1 A2 A3 A4 A5 A6 A7 A8 A9] [I1 I2 I3 I4 I5 I6 I7]. split.
  - auto.
  - lia.
  - lia.
  - lia.
  - destruct (has_discard_timer cfg); lia.
  - intros k i Hk. destruct (A5 k) as [E1|E1]; [|congruence]. rewrite E1 in Hk. destruct (I6 k i Hk) as (H1 & H2 & H3 & H4).
    split; [|done]. assert (ack s' <= k) by (apply A6; [rewrite E1; by eexists|lia]). lia.
  - intros Ht. destruct (I7 Ht) as [H1 H2]. rewrite A9 by done. split; [done|].
    intros k. destruct (A5 k) as [-> | ->]; [apply H2|done].
Qed.

Context (Hhard : tx_max_count_hard cfg < 2 ^ 32).

(** The state after TX_NEXT_ACK has become [a], the window [w], with the SNs [sns] discarded. *)
Definition tx_trim (s : entity) (a : Z) (w : circular_map pdcp_tx_sdu_info) (sns : list Z) : entity :=
  mk_pdcp_tx E (mk_pdcp_tx_state (next s) (Z.max (trans s) a) a) w (tx_count_notified s) (tx_count_overflow s)
    (tx_sec_engine s) (tx_integrity_enabled s) (tx_ciphering_enabled s) (tx_out s ++ (txev_discard_pdu <$> sns)).

Lemma pdus_of_discards sns : pdus_of (txev_discard_pdu <$> sns) = [].
Proof using Type. by induction sns. Qed.

Lemma trimmed_trim s a w sns :
  has_discard_timer cfg = true -> window_wf W w -> ack s <= a <= Z.max (ack s) (next s) ->
  (forall k, wget W w k = stored s k \/ wget W w k = None) ->
  (forall k, is_Some (wget W w k) -> ack s <= k -> a <= k) ->
  trimmed s (tx_trim s a w sns).
Proof using Type.
  intros Ht Hwf Ha Hst Hab. split; cbn -[wget]; try done.
  - rewrite pdus_of_app, pdus_of_discards. apply app_nil_r.
  - congruence.
Qed.

Lemma raise_tx_trans_trim s a w sns :
  ack s <= trans s ->
  raise_tx_trans (mk_pdcp_tx E (mk_pdcp_tx_state (next s) (trans s) a) w (tx_count_notified s) (tx_count_overflow s)
    (tx_sec_engine s) (tx_integrity_enabled s) (tx_ciphering_enabled s) (tx_out s ++ (txev_discard_pdu <$> sns))) = tx_trim s a w sns.
Proof using Type.
  intros. unfold raise_tx_trans, tx_trim. cbn. destruct (Z.ltb_spec (trans s) a).
  - by rewrite Z.max_r by lia.
  - by rewrite Z.max_l by lia.
Qed.

(** [discard_pdu]: out of the window nothing happens; an element is dropped, the lower layer told, and TX_NEXT_ACK moves to
    the oldest element that is left, or to TX_NEXT. *)
Lemma discard_pdu_spec sdus s c :
  tx_inv sdus s ->
  match stored s c with
  | None => discard_pdu cfg s c = ok s
  | Some i => exists a w, discard_pdu cfg s c = ok (tx_trim s a w [SN b c]) /\ trimmed s (tx_trim s a w [SN b c]) /\
      window_wf W w /\ (forall k, wget W w k = if decide (k = c) then None else stored s k) /\
      (forall k, ack s <= k < a -> wget W w k = None) /\ (a = next s \/ is_Some (wget W w a))
  end.
Proof using Hhard.
  intros Hi. pose proof Hi as [I1 I2 I3 I4 I5 I6 I7]. unfold discard_pdu.
  destruct (stored s c) as [i|] eqn:Hc.
  2:{ destruct (negb (has_discard_timer cfg)); [done|]. destruct (_ || _); [done|]. by rewrite (has_sn_false _ _ _ Hc). }
  destruct (has_discard_timer cfg) eqn:Ht; [simpl negb; cbv iota|destruct (I7 eq_refl) as [_ Hno]; by rewrite Hno in Hc].
  destruct (I6 c i Hc) as [Hr _]. do 2 zfalse. simpl orb. rewrite (has_sn_true _ _ _ _ Hc). simpl negb. cbv iota zeta.
  destruct (remove_sn_ok W (tx_window s) c i I1 Hc) as (w & Ew & Hwf & _ & Hget).
  cbn [tx_window tx_emit]. rewrite Ew, bind_ok.
  set (at_ a := mk_pdcp_tx E (mk_pdcp_tx_state (next s) (trans s) a) w (tx_count_notified s) (tx_count_overflow s)
    (tx_sec_engine s) (tx_integrity_enabled s) (tx_ciphering_enabled s) (tx_out s ++ (txev_discard_pdu <$> [SN b c]))).
  replace (tx_set_window (tx_emit s (txev_discard_pdu (SN b c))) w) with (at_ (ack s)) by (by destruct s as [[]]).
  match goal with |- context [while_loop ?f ?c ?g ?s0] =>
    destruct (while_loop_rule (fun s1 => exists a, s1 = at_ a /\ ack s <= a <= next s /\ forall k, ack s <= k < a -> wget W w k = None)
      (fun s1 => Z.to_nat (next s1 - ack s1)) f c g s0) as (s1 & -> & (a & -> & Ha & Hn) & Hexit) end.
  - exists (ack s). split; [done|]. split; [lia|]. intros. lia.
  - cbn. lia.
  - intros s1 (a & -> & Ha & Hn) Hcond. cbn -[has_sn] in Hcond. apply andb_prop in Hcond as [H1%Z.ltb_lt H2].
    exists (at_ (a + 1)). split; [|split].
    + unfold at_, tx_next_ack_incr, tx_set_st, set_tx_next_ack. cbn. rewrite u32_small by lia. done.
    + exists (a + 1). split; [done|]. split; [lia|]. intros k Hk. destruct (decide (k = a)) as [->|]; [|apply Hn; lia].
      apply negb_true_iff in H2. rewrite has_sn_wget in H2. apply bool_decide_eq_false in H2. by apply eq_None_not_Some.
    + cbn. lia.
  - rewrite bind_ok. unfold at_. rewrite raise_tx_trans_trim by lia. exists a, w. split; [done|].
    cbn -[has_sn] in Hexit. split; [|split; [done|split; [done|split; [done|]]]].
    + apply trimmed_trim; [done|done|lia| |].
      * intros k. rewrite Hget. case_decide; [by right|by left].
      * intros k Hk Hle. destruct (decide (a <= k)); [done|]. rewrite Hn in Hk by lia. by destruct Hk.
    + destruct (decide (a = next s)); [by left|right]. apply andb_false_iff in Hexit as [H%Z.ltb_ge|H]; [lia|].
      apply negb_false_iff in H. rewrite has_sn_wget in H. by apply bool_decide_eq_true in H.
Qed.

(** A sequence of discards. *)
Fixpoint discard_list (s : entity) (cs : list Z) : outcome entity :=
  match cs with
  | [] => ok s
  | c :: cs => s ← discard_pdu cfg s c; discard_list s cs
  end.

Lemma discard_list_app s cs1 cs2 :
  discard_list s (cs1 ++ cs2) = (s ← discard_list s cs1; discard_list s cs2).
Proof using Type.
  revert s. induction cs1 as [|c cs1 IH]; intros s; [done|]. simpl. destruct (discard_pdu cfg s c); simpl; [apply IH|done].
Qed.

Lemma discard_list_spec sdus s cs :
  tx_inv sdus s -> NoDup cs ->
  exists s', discard_list s cs = ok s' /\ tx_inv sdus s' /\ trimmed s s' /\
    (forall k, stored s' k = if decide (k ∈ cs) then None else stored s k) /\
    discards_of (tx_out s') = discards_of (tx_out s) ++ (SN b <$> filter (fun c => is_Some (stored s c)) cs).
Proof using Hhard.
  intros Hi Hnd. revert s Hi. induction Hnd as [|c cs Hc Hnd IH]; intros s Hi; simpl.
  { exists s. split; [done|]. split; [done|]. split; [apply trimmed_refl, Hi|]. split; [done|by rewrite app_nil_r]. }
  pose proof (discard_pdu_spec sdus s c Hi) as Hd. destruct (stored s c) as [i|] eqn:Es.
  - destruct Hd as (a & w & -> & Htr & Hwf & Hget & _). rewrite bind_ok. pose proof (trimmed_inv sdus _ _ Htr Hi) as Hi1.
    destruct (IH _ Hi1) as (s' & -> & Hi' & Htr' & Hget' & Hd'). exists s'. split; [done|]. split; [done|].
    split; [by eapply trimmed_trans|]. split.
    + intros k. rewrite Hget'. cbn -[wget]. rewrite Hget. destruct (decide (k = c)) as [->|].
      * rewrite (decide_True (P := c ∈ c :: cs)) by left. by case_decide.
      * destruct (decide (k ∈ cs)); [by rewrite decide_True by (by right)|].
        rewrite decide_False; [done|]. by intros [|]%elem_of_cons.
    + rewrite Hd'. cbn [tx_out tx_trim]. rewrite discards_of_app, filter_cons, decide_True by (rewrite Es; by eexists).
      cbn [fmap list_fmap]. rewrite <- app_assoc. do 2 f_equal. cbn. do 2 f_equal. apply list_filter_ext_in.
      intros x Hx. cbn -[wget]. by rewrite Hget, decide_False by congruence.
  - rewrite Hd, bind_ok. destruct (IH s Hi) as (s' & -> & Hi' & Htr' & Hget' & Hd'). exists s'. split; [done|]. split; [done|].
    split; [done|]. split.
    + intros k. rewrite Hget'. destruct (decide (k = c)) as [->|].
      * rewrite (decide_True (P := c ∈ c :: cs)) by left. rewrite Es. by case_decide.
      * destruct (decide (k ∈ cs)); [by rewrite decide_True by (by right)|].
        rewrite decide_False; [done|]. by intros [|]%elem_of_cons.
    + rewrite Hd', filter_cons, decide_False; [done|]. rewrite Es. by intros [].
Qed.

(** [stop_discard_timer]: everything up to [h] leaves the window, without a word to the lower layer. *)
Lemma stop_discard_timer_spec sdus s h :
  tx_inv sdus s ->
  if has_discard_timer cfg && (ack s <=? h) && (h <? next s) then
    exists w, stop_discard_timer cfg s h = ok (tx_trim s (h + 1) w []) /\ trimmed s (tx_trim s (h + 1) w []) /\
      window_wf W w /\ forall k, wget W w k = if decide (k <= h) then None else stored s k
  else stop_discard_timer cfg s h = ok s.
Proof using Hhard.
  intros Hi. pose proof Hi as [I1 I2 I3 I4 I5 I6 I7]. unfold stop_discard_timer.
  destruct (has_discard_timer cfg) eqn:Ht; [cbn [negb andb]; cbv iota|done].
  destruct (Z.ltb_spec h (ack s)) as [|H1]; [by rewrite (proj2 (Z.leb_gt _ _)) by lia|]. rewrite (proj2 (Z.leb_le (ack s) h)) by lia.
  destruct (Z.leb_spec (next s) h) as [|H2]; [by rewrite (proj2 (Z.ltb_ge _ _)) by lia|]. rewrite (proj2 (Z.ltb_lt h _)) by lia.
  cbn [orb andb]. cbv iota. set (at_ a w := mk_pdcp_tx E (mk_pdcp_tx_state (next s) (trans s) a) w (tx_count_notified s) (tx_count_overflow s)
    (tx_sec_engine s) (tx_integrity_enabled s) (tx_ciphering_enabled s) (tx_out s ++ (txev_discard_pdu <$> []))).
  match goal with |- context [while_loop ?f ?c ?g ?s0] =>
    destruct (while_loop_rule (fun s1 => exists a w, s1 = at_ a w /\ ack s <= a <= h + 1 /\ window_wf W w /\
        forall k, wget W w k = if decide (k < a) then None else stored s k)
      (fun s1 => Z.to_nat (h + 1 - ack s1)) f c g s0) as (s1 & -> & (a & w & -> & Ha & Hwf & Hget) & Hexit) end.
  - exists (ack s), (tx_window s). split; [|split; [lia|split; [done|]]].
    + unfold at_. rewrite app_nil_r. by destruct s as [[]].
    + intros k. case_decide; [|done]. destruct (stored s k) as [i|] eqn:Ek; [|done]. apply I6 in Ek. lia.
  - lia.
  - intros s1 (a & w & -> & Ha & Hwf & Hget) Hcond. apply Z.leb_le in Hcond. cbn in Hcond.
    assert (Hstep : forall w', window_wf W w' -> (forall k, wget W w' k = if decide (k < a + 1) then None else stored s k) ->
      exists a' w'', tx_next_ack_incr (at_ a w') = at_ a' w'' /\ ack s <= a' <= h + 1 /\ window_wf W w'' /\
        (forall k, wget W w'' k = if decide (k < a' ) then None else stored s k) /\ a' = a + 1).
    { intros w' Hwf' Hget'. exists (a + 1), w'. split; [|split; [lia|by split]].
      unfold at_, tx_next_ack_incr, tx_set_st, set_tx_next_ack. cbn. by rewrite u32_small by lia. }
    cbn [tx_window at_ tx_st tx_next_ack]. rewrite has_sn_wget. destruct (wget W w a) as [i|] eqn:Ea.
    + rewrite bool_decide_eq_true_2 by by eexists.
      destruct (remove_sn_ok W w a i Hwf Ea) as (w' & -> & Hwf' & _ & Hget'). rewrite !bind_ok.
      destruct (Hstep w' Hwf') as (a' & w'' & E1 & Ha' & Hwf'' & Hget'' & ->).
      { intros k. rewrite Hget', Hget. destruct (decide (k = a)) as [->|]; [by rewrite decide_True by lia|].
        destruct (decide (k < a)), (decide (k < a + 1)); done || lia. }
      change (tx_set_window (at_ a w) w') with (at_ a w'). rewrite E1. eexists. split; [done|]. split; [by exists (a + 1), w''|]. cbn. lia.
    + rewrite bool_decide_eq_false_2 by (by intros []). rewrite bind_ok.
      destruct (Hstep w Hwf) as (a' & w'' & E1 & Ha' & Hwf'' & Hget'' & ->).
      { intros k. rewrite Hget. destruct (decide (k = a)) as [->|].
        - rewrite Hget in Ea. rewrite (decide_True (P := a < a + 1)) by lia. destruct (decide (a < a)); [lia|]. done.
        - destruct (decide (k < a)), (decide (k < a + 1)); done || lia. }
      rewrite E1. eexists. split; [done|]. split; [by exists (a + 1), w''|]. cbn. lia.
  - rewrite bind_ok. apply Z.leb_gt in Hexit. cbn in Hexit. replace a with (h + 1) in * by lia.
    unfold at_. rewrite raise_tx_trans_trim by lia. exists w.
    assert (Hget' : forall k, wget W w k = if decide (k <= h) then None else stored s k).
    { intros k. rewrite Hget. destruct (decide (k < h + 1)), (decide (k <= h)); done || lia. }
    split; [done|]. split; [|by split]. apply trimmed_trim; [done|done|lia| |].
    + intros k. rewrite Hget'. case_decide; [by right|by left].
    + intros k Hk Hle. rewrite Hget' in Hk. case_decide; [by destruct Hk|lia].
Qed.

(** ** Notifications *)

(** Steps that send nothing and number nothing. *)
Record kept (s s' : entity) : Prop := {
  kp_next : next s' = next s;
  kp_ack : ack s <= ack s';
  kp_stored : forall k, stored s' k = stored s k \/ stored s' k = None;
  kp_same : tx_count_notified s' = tx_count_notified s /\ tx_count_overflow s' = tx_count_overflow s /\
    tx_sec_engine s' = tx_sec_engine s /\ tx_integrity_enabled s' = tx_integrity_enabled s /\
    tx_ciphering_enabled s' = tx_ciphering_enabled s;
  kp_pdus : pdus_of (tx_out s') = pdus_of (tx_out s)
}.

Lemma tx_kept_refl s : kept s s.
Proof using Type. split; [done|lia|by left|done|done]. Qed.

Lemma trimmed_kept s s' : trimmed s s' -> kept s s'.
Proof using Type. intros [A1 A2 A3 A4 A5 A6 A7 A8 A9]. split; [done|lia|done|done|done]. Qed.

Context (Hb : base_ok b).

Lemma tx_W_pos : 0 < W /\ 2 * W <= 2 ^ 19.
Proof using Hb. base_cases (tx_base cfg) Hb; rewrite Ew; lia. Qed.

Lemma sn_cardinality : pdcp_sn_cardinality (sn_size b) = ok (sn_space b).
Proof using Hb. unfold sn_space. base_cases (tx_base cfg) Hb; by rewrite E0, Ew. Qed.

(** The COUNT that a notification is about, when it is one of the window. *)
Definition tx_lower (s : entity) : Z := if has_discard_timer cfg then ack s else trans s.

Lemma estimation_near sdus s sn :
  tx_inv sdus s -> 0 <= sn < sn_space b ->
  let c := notification_count_estimation cfg s sn in
  0 <= c < 2 ^ 32 /\ SN b c = sn /\ (trans s <= c < next s -> c < tx_lower s + W).
Proof using Hb Hhard.
  intros Hi Hsn. pose proof (txi_order _ _ Hi). pose proof (txi_max _ _ Hi). pose proof tx_W_pos.
  unfold notification_count_estimation. fold (tx_lower s).
  assert (Hl : 0 <= tx_lower s < 2 ^ 32) by (unfold tx_lower; destruct (has_discard_timer cfg); lia).
  pose proof (sn_offset_range (tx_base cfg) Hb (tx_lower s) sn) as Ho.
  rewrite (count_estimation_closed (tx_base cfg) Hb) by done. split; [apply Z.mod_pos_bound; lia|]. split.
  - rewrite <- (sn_offset_sn (tx_base cfg) Hb (tx_lower s) sn Hsn) at 2. rewrite !(SN_mod (tx_base cfg) Hb). unfold u32, sn_space.
    base_cases (tx_base cfg) Hb; rewrite Ew; divmod.
  - intros Hc. destruct (Z.ltb_spec (tx_lower s + sn_offset b (tx_lower s) sn) 0) as [Hneg|Hpos].
    + exfalso. assert (Hu : u32 (tx_lower s + sn_offset b (tx_lower s) sn) = tx_lower s + sn_offset b (tx_lower s) sn + 2 ^ 32).
      { unfold u32. rewrite <- (Z.mod_add _ 1) by lia. rewrite Z.mod_small; lia. }
      rewrite Hu in Hc. pose proof (txi_width _ _ Hi). unfold tx_lower in *. destruct (has_discard_timer cfg); lia.
    + destruct (Z.ltb_spec (tx_lower s + sn_offset b (tx_lower s) sn) (2 ^ 32)) as [|Hbig].
      * rewrite u32_small by lia. lia.
      * unfold u32. rewrite <- (Z.mod_add _ (-1)) by lia. rewrite Z.mod_small by lia. lia.
Qed.

Lemma handle_transmit_notification_spec sdus s sn :
  tx_inv sdus s -> 0 <= sn ->
  exists s', handle_transmit_notification cfg s sn = ok s' /\ tx_inv sdus s' /\ kept s s' /\
    let c := notification_count_estimation cfg s sn in
    if (sn <? sn_space b) && (trans s <=? c) && (c <? next s) then
      trans s' = c + 1 /\
      (if has_discard_timer cfg && is_um b
       then ack s' = c + 1 /\ forall k, stored s' k = if decide (k <= c) then None else stored s k
       else ack s' = ack s /\ tx_window s' = tx_window s)
    else s' = s.
Proof using Hb Hhard.
  intros Hi Hsn. unfold handle_transmit_notification. rewrite sn_cardinality, bind_ok. cbv zeta.
  assert (Hskip : exists s', ok s = ok s' /\ tx_inv sdus s' /\ kept s s' /\ s' = s) by (exists s; eauto using tx_kept_refl).
  destruct (Z.leb_spec (sn_space b) sn); [by rewrite (proj2 (Z.ltb_ge _ _)) by lia|]. rewrite (proj2 (Z.ltb_lt sn _)) by lia.
  destruct (estimation_near sdus s sn Hi) as (Hcr & _ & Hnear); [lia|]. set (c := notification_count_estimation cfg s sn) in *.
  destruct (Z.ltb_spec c (trans s)); [by rewrite (proj2 (Z.leb_gt _ _)) by lia|]. rewrite (proj2 (Z.leb_le (trans s) c)) by lia.
  destruct (Z.leb_spec (next s) c); [by rewrite (proj2 (Z.ltb_ge _ _)) by lia|]. rewrite (proj2 (Z.ltb_lt c _)) by lia. simpl andb. cbv iota.
  pose proof Hi as [I1 I2 I3 I4 I5 I6 I7]. rewrite u32_small by lia.
  set (s1 := tx_set_st s (set_tx_trans (tx_st s) (c + 1))).
  assert (Hi1 : tx_inv sdus s1).
  { split; cbn -[wget]; [done|lia|done|done| |done|done]. unfold tx_lower in Hnear. destruct (has_discard_timer cfg); lia. }
  assert (Hk1 : kept s s1) by (split; cbn -[wget]; [done|lia|by left|done|done]).
  destruct (has_discard_timer cfg) eqn:Ht; simpl; [|by exists s1].
  destruct (is_um b) eqn:Eum; [|by exists s1].
  pose proof (stop_discard_timer_spec sdus s1 c Hi1) as Hs. rewrite Ht in Hs. cbn -[wget] in Hs.
  rewrite (proj2 (Z.leb_le (ack s) c)), (proj2 (Z.ltb_lt c (next s))) in Hs by lia. destruct Hs as (w & -> & Htr & Hwf & Hget).
  eexists. split; [done|]. split; [by eapply trimmed_inv|]. split.
  - destruct (trimmed_kept _ _ Htr) as [K1 K2 K3 K4 K5]. split; try done.
  - cbn -[wget]. split; [lia|]. by split.
Qed.

Lemma handle_delivery_notification_spec sdus s sn :
  tx_inv sdus s -> 0 <= sn ->
  exists s', handle_delivery_notification cfg s sn = ok s' /\ tx_inv sdus s' /\ kept s s' /\
    let c := notification_count_estimation cfg s sn in
    if (sn <? sn_space b) && has_discard_timer cfg && is_am b && (ack s <=? c) && (c <? next s) then
      trans s' = Z.max (trans s) (c + 1) /\ ack s' = c + 1 /\
      forall k, stored s' k = if decide (k <= c) then None else stored s k
    else s' = s.
Proof using Hb Hhard.
  intros Hi Hsn. unfold handle_delivery_notification. rewrite sn_cardinality, bind_ok. cbv zeta.
  assert (Hskip : exists s', ok s = ok s' /\ tx_inv sdus s' /\ kept s s' /\ s' = s) by (exists s; eauto using tx_kept_refl).
  destruct (Z.leb_spec (sn_space b) sn); [by rewrite (proj2 (Z.ltb_ge _ _)) by lia|]. rewrite (proj2 (Z.ltb_lt sn _)) by lia.
  set (c := notification_count_estimation cfg s sn) in *.
  destruct (Z.leb_spec (next s) c); [by rewrite (proj2 (Z.ltb_ge c _)), !andb_false_r by lia|]. rewrite (proj2 (Z.ltb_lt c _)) by lia.
  destruct (has_discard_timer cfg) eqn:Ht; [|done]. simpl. destruct (is_am b) eqn:Eam; [|done].
  pose proof (stop_discard_timer_spec sdus s c Hi) as Hs. rewrite Ht in Hs. simpl andb in *.
  rewrite (proj2 (Z.ltb_lt c (next s))) in Hs by lia. rewrite !andb_true_r in *.
  destruct (ack s <=? c); [|by rewrite Hs].
  destruct Hs as (w & -> & Htr & Hwf & Hget).
  eexists. split; [done|]. split; [by eapply trimmed_inv|]. split; [by apply trimmed_kept|]. cbn -[wget]. by split.
Qed.
End inv.

(** * Status reports in the transmitting PDCP entity

    [handle_status_report] parses the report with the bit decoder and discards SDU after SDU. Its two loops are a
    sequence of discards ([discard_below_list], [status_bitmap_list]), so that [handle_status_report_any]
    covers every octet string, and [handle_status_report_exact] the well-formed ones. *)

(** The COUNTs behind [fmc] whose bit is set. *)
Fixpoint set_counts (bits : list bool) (fmc : Z) : list Z :=
  match bits with
  | [] => []
  | x :: bits =>
      let fmc := u32 (fmc + 1) in
      if x then fmc :: set_counts bits fmc else set_counts bits fmc
  end.

Lemma elem_of_set_counts bits fmc c :
  0 <= fmc -> fmc + zlen bits < 2 ^ 32 ->
  c ∈ set_counts bits fmc <-> fmc < c <= fmc + zlen bits /\ bits !! Z.to_nat (c - fmc - 1) = Some true.
Proof.
  revert fmc. induction bits as [|x bits IH]; intros fmc H0 Hl; cbn [set_counts length] in *.
  { rewrite elem_of_nil. split; [done|]. intros [? ?]. lia. }
  rewrite u32_small by lia. assert (Hgoal : c ∈ set_counts bits (fmc + 1) <->
    fmc + 1 < c <= fmc + Z.of_nat (S (length bits)) /\ (x :: bits) !! Z.to_nat (c - fmc - 1) = Some true).
  { rewrite IH by lia. split.
    - intros [Hc Hb]. split; [lia|]. replace (Z.to_nat (c - fmc - 1)) with (S (Z.to_nat (c - (fmc + 1) - 1))) by lia. done.
    - intros [Hc Hb]. split; [lia|]. replace (Z.to_nat (c - fmc - 1)) with (S (Z.to_nat (c - (fmc + 1) - 1))) in Hb by lia. done. }
  destruct x.
  - rewrite elem_of_cons, Hgoal. split.
    + intros [->|[Hc Hb]]; [|by split; [lia|]]. split; [lia|]. by replace (Z.to_nat (fmc + 1 - fmc - 1)) with 0%nat by lia.
    + intros [Hc Hb]. destruct (decide (c = fmc + 1)); [by left|right]. split; [lia|done].
  - rewrite Hgoal. split; [intros [Hc Hb]; split; [lia|done]|]. intros [Hc Hb]. split; [|done].
    destruct (decide (c = fmc + 1)) as [->|]; [|lia]. replace (Z.to_nat (fmc + 1 - fmc - 1)) with 0%nat in Hb by lia. done.
Qed.

Lemma set_counts_NoDup bits fmc : 0 <= fmc -> fmc + zlen bits < 2 ^ 32 -> NoDup (set_counts bits fmc).
Proof.
  revert fmc. induction bits as [|x bits IH]; intros fmc H0 Hl; cbn [set_counts length] in *; [constructor|].
  rewrite u32_small by lia. destruct x; [constructor|]; [|apply IH; lia..].
  rewrite elem_of_set_counts by lia. intros [? _]. lia.
Qed.

Section report.
Context {E : Type} `{!SecurityEngine E} (cfg : pdcp_tx_config).
Local Abbreviation entity := (pdcp_entity_tx E).
Local Abbreviation b := (tx_base cfg).
Local Abbreviation W := (window_size (tx_base cfg)).
Local Abbreviation next s := (tx_next (tx_st s)).
Local Abbreviation trans s := (tx_trans (tx_st s)).
Local Abbreviation ack s := (tx_next_ack (tx_st s)).
Local Abbreviation stored s k := (wget W (tx_window s) k).

(** ** The loops as sequences of discards *)
Lemma discard_loop_list fuel (s : entity) count fmc :
  0 <= count -> fmc < 2 ^ 32 -> (Z.to_nat (fmc - count) < fuel)%nat ->
  for_loop fuel (fun count _ => count <? fmc) (fun count => u32 (count + 1))
    (fun count s => s ← discard_pdu cfg s count; ok (s, false)) count s =
  (s ← discard_list cfg s (seqZ count (fmc - count)); ok (Z.max count fmc, s)).
Proof using Type.
  revert s count. induction fuel as [|fuel IH]; intros s count H0 Hf Hn; [lia|]. cbn [for_loop].
  destruct (Z.ltb_spec count fmc).
  - rewrite seqZ_cons by lia. cbn [discard_list]. destruct (discard_pdu cfg s count) as [s1|f]; simpl; [|done].
    rewrite u32_small by lia. rewrite IH by lia. replace (Z.pred (fmc - count)) with (fmc - (count + 1)) by lia.
    change (Z.succ count) with (count + 1). destruct (discard_list _ _ _); simpl; [|done]. do 2 f_equal. lia.
  - rewrite seqZ_nil by lia. simpl. do 2 f_equal. lia.
Qed.

Lemma discard_below_list fuel (s : entity) fmc :
  0 <= ack s -> fmc < 2 ^ 32 -> (Z.to_nat (fmc - ack s) < fuel)%nat ->
  discard_below cfg fuel s fmc = discard_list cfg s (seqZ (ack s) (fmc - ack s)).
Proof using Type.
  intros. unfold discard_below. rewrite discard_loop_list by done. by destruct (discard_list _ _ _).
Qed.

Lemma status_bitmap_list n dec fmc (s : entity) :
  reading dec -> (length (left_bits dec) < n)%nat ->
  status_bitmap cfg n dec fmc s = discard_list cfg s (set_counts (left_bits dec) fmc).
Proof using Type.
  revert dec fmc s. induction n as [|n IH]; intros dec fmc s Hd Hn; [lia|]. cbn [status_bitmap].
  pose proof (unpack_bit dec Hd) as Hu. destruct (left_bits dec) as [|x bits] eqn:El.
  - destruct Hu as (v & d' & ->). done.
  - destruct Hu as (d' & -> & Hd' & El'). rewrite bind_ok. cbv beta iota. simpl in Hn. cbn [set_counts]. cbv zeta.
    assert (Hx : (Z.b2z x =? 1) = x) by by destruct x. rewrite Hx. destruct x.
    + cbn [discard_list]. destruct (discard_pdu _ _ _) as [s1|f]; simpl; [|done]. rewrite IH by (rewrite ?El'; done || lia). by rewrite El'.
    + rewrite bind_ok. rewrite IH by (rewrite ?El'; done || lia). by rewrite El'.
Qed.

(** ** Any report *)

(** Nothing happens, or discards of everything below some FMC and of some COUNTs behind it. *)
Lemma handle_status_report_any (s : entity) buffer_ok buf :
  0 <= ack s -> is_bytes buf ->
  handle_status_report cfg s buffer_ok buf = ok s \/
  exists fmc bits, 0 <= fmc < 2 ^ 32 /\ (length bits <= 8 * length buf)%nat /\
    handle_status_report cfg s buffer_ok buf =
      (s ← discard_list cfg s (seqZ (ack s) (fmc - ack s)); discard_list cfg s (set_counts bits fmc)).
Proof using Type.
  intros H0 Hb. unfold handle_status_report. destruct buffer_ok; [|by left]. simpl negb. cbv iota.
  assert (Hd : reading (decoder_init buf)) by (split; [done|simpl; lia]).
  assert (Hlen : length (left_bits (decoder_init buf)) = (8 * length buf)%nat).
  { unfold left_bits. simpl dec_offset. change (Z.to_nat 0) with 0%nat. rewrite drop_0. apply bits_of_length. }
  destruct (unpack_val_range 32 _ 1 Hd) as (f1 & dc & d1 & -> & Hd1 & _ & L1); [lia|]. rewrite bind_ok. cbv beta iota.
  destruct (negb _); [by left|].
  destruct (unpack_val_range 32 _ 3 Hd1) as (f2 & cpt & d2 & -> & Hd2 & _ & L2); [lia|]. rewrite bind_ok. cbv beta iota.
  destruct (negb _); [by left|].
  destruct (unpack_val_range 32 _ 4 Hd2) as (f3 & res & d3 & -> & Hd3 & _ & L3); [lia|]. rewrite bind_ok. cbv beta iota.
  destruct (negb _); [by left|].
  destruct (unpack_val_range 32 _ 32 Hd3) as (f4 & fmc & d4 & -> & Hd4 & Hfmc & L4); [lia|]. rewrite bind_ok. cbv beta iota.
  right. exists fmc, (left_bits d4). split; [done|]. split; [lia|]. rewrite discard_below_list by lia.
  destruct (discard_list _ _ _) as [s1|f]; [|done]. rewrite !bind_ok. apply status_bitmap_list; [done|lia].
Qed.

(** ** A well-formed report *)
Definition be32 (x : Z) : bytes := [x / 2 ^ 24; x / 2 ^ 16 mod 256; x / 2 ^ 8 mod 256; x mod 256].

(** Header, FMC and bitmap. *)
Definition status_report (fmc : Z) (bitmap : bytes) : bytes := 0 :: be32 fmc ++ bitmap.

Lemma be32_bytes x : 0 <= x < 2 ^ 32 -> is_bytes (be32 x).
Proof using Type. intros. unfold be32. repeat constructor; divmod. Qed.

Lemma unpack_header l :
  exists d1 d2, bit_decoder_unpack_val 32 (decoder_init (0 :: l)) 1 = ok (true, 0, d1) /\
    bit_decoder_unpack_val 32 d1 3 = ok (true, 0, d2) /\ bit_decoder_unpack_val 32 d2 4 = ok (true, 0, mk_decoder l 0).
Proof using Type. exists (mk_decoder (0 :: l) 1), (mk_decoder (0 :: l) 4). done. Qed.

Lemma unpack_octet fuel a l v n : is_byte a -> 8 <= n ->
  unpack_val_loop (S fuel) (mk_decoder (a :: l) 0) v n = unpack_val_loop fuel (mk_decoder l 0) (v + a * 2 ^ (n - 8)) (n - 8).
Proof using Type.
  intros Ha Hn. cbn [unpack_val_loop dec_bytes dec_offset]. unfold is_byte in Ha.
  rewrite (proj2 (Z.ltb_lt 0 n)) by lia. simpl negb. cbv iota. rewrite (proj2 (Z.ltb_ge n _)) by lia.
  change (u8 (Z.shiftl 1 (8 - 0) - 1)) with (2 ^ 8 - 1). rewrite land_mask, Z.shiftl_mul_pow2, Z.mod_small by lia.
  change (2 ^ 8) with 256. replace (n - 8 + 0) with (n - 8) by lia. by replace (n - (8 - 0)) with (n - 8) by lia.
Qed.

Lemma unpack_word a x c d l : is_byte a -> is_byte x -> is_byte c -> is_byte d ->
  bit_decoder_unpack_val 32 (mk_decoder (a :: x :: c :: d :: l) 0) 32 =
    ok (true, a * 2 ^ 24 + x * 2 ^ 16 + c * 2 ^ 8 + d, mk_decoder l 0).
Proof using Type.
  intros Ha Hx Hc Hd. unfold bit_decoder_unpack_val. rewrite srsran_assert_ok, bind_ok by done. change (S (Z.to_nat 32)) with (S (S (S (S 29)))).
  rewrite !unpack_octet by (done || lia). cbn -[Z.pow]. do 3 f_equal. lia.
Qed.

Lemma handle_status_report_exact (s : entity) fmc bitmap :
  0 <= ack s -> 0 <= fmc < 2 ^ 32 -> is_bytes bitmap ->
  handle_status_report cfg s true (status_report fmc bitmap) =
    (s ← discard_list cfg s (seqZ (ack s) (fmc - ack s)); discard_list cfg s (set_counts (bits_of bitmap) fmc)).
Proof using Type.
  intros H0 Hf Hb. unfold handle_status_report, status_report. simpl negb. cbv iota.
  destruct (unpack_header (be32 fmc ++ bitmap)) as (d1 & d2 & -> & E2 & E3). rewrite bind_ok. cbv beta iota. simpl negb. cbv iota.
  rewrite E2, bind_ok. cbv beta iota. simpl negb. cbv iota. rewrite E3, bind_ok. cbv beta iota. simpl negb. cbv iota.
  pose proof (be32_bytes fmc Hf) as Hw. unfold be32 in *. cbn [app].
  rewrite unpack_word by (repeat (apply Forall_cons in Hw as [? Hw]); done).
  rewrite bind_ok. cbv beta iota.
  assert (Ev : fmc / 2 ^ 24 * 2 ^ 24 + fmc / 2 ^ 16 mod 256 * 2 ^ 16 + fmc / 2 ^ 8 mod 256 * 2 ^ 8 + fmc mod 256 = fmc) by divmod.
  rewrite Ev. rewrite discard_below_list by lia. destruct (discard_list _ _ _) as [s1|f]; [|done]. rewrite !bind_ok.
  assert (El : left_bits (mk_decoder bitmap 0) = bits_of bitmap) by (unfold left_bits; simpl; apply drop_0).
  rewrite status_bitmap_list; [by rewrite El|by split; [|simpl; lia]|]. rewrite El, bits_of_length. simpl length. lia.
Qed.
End report.
