(* ===== verification/PdcpRxReport.v ===== *)
(** * The status report of the receiving PDCP entity

    [compile_status_report] of [pdcp_entity_rx.cpp]: FMC is RX_DELIV, and the bitmap has a bit for each COUNT
    behind it up to RX_NEXT, or as many as fit into a control PDU. The report is the one that the peer
    reads in [PdcpTxInv.v]. *)

From S2P Require Import Prelude SduWindow BitEncoding BitStream PdcpSnUtil PdcpBase Security PdcpRx PdcpRxInv PdcpTx PdcpTxInv.

Section rx_report.
Context {E : Type} `{!SecurityEngine E} (cfg : pdcp_rx_config) (ready : E -> Prop).
Context (append_ok : bytes -> bool) (Hmem : forall l, append_ok l = true).
Local Abbreviation entity := (pdcp_entity_rx E).
Local Abbreviation b := (rx_base cfg).
Local Abbreviation W := (window_size (rx_base cfg)).
Local Abbreviation deliv s := (rx_deliv (rx_st s)).
Local Abbreviation next s := (rx_next (rx_st s)).
Local Abbreviation pending s k := (wget W (rx_window s) k).
Context (Hb : base_ok b).

(** The COUNTs behind FMC that the bitmap covers. *)
Definition report_bits (s : entity) : Z :=
  Z.min (Z.max 0 (next s - deliv s - 1)) ((pdcp_control_pdu_max_size - 5) * 8).

Lemma pack_octet fuel l v n : 8 <= n < 64 ->
  pack_loop append_ok (S fuel) (mk_encoder l 0) v n =
    pack_loop append_ok fuel (mk_encoder (l ++ [u8 (Z.shiftr (v mod 2 ^ n) (n - 8))]) 0) (v mod 2 ^ n) (n - 8).
Proof using Hmem.
  intros Hn. cbn [pack_loop enc_offset enc_bytes]. ztrue. simpl negb. cbv iota. rewrite Z.eqb_refl, Hmem. simpl. ztrue. zfalse.
  rewrite land_mask by lia. replace (n - 8 + 0) with (n - 8) by lia. replace (n - (8 - 0)) with (n - 8) by lia.
  rewrite add_to_back_snoc. do 3 f_equal. unfold u8. by rewrite Z.add_0_l, Z.mod_mod by lia.
Qed.

Lemma pack_done fuel e v : pack_loop append_ok (S fuel) e v 0 = ok (true, e).
Proof using Type. done. Qed.

Lemma pack_word l v : 0 <= v < 2 ^ 32 ->
  bit_encoder_pack append_ok (mk_encoder l 0) v 32 = ok (true, mk_encoder (l ++ be32 v) 0).
Proof using Hmem.
  intros Hv. unfold bit_encoder_pack. rewrite srsran_assert_ok, bind_ok by done. change (S (Z.to_nat 32)) with (S (S (S (S 29)))).
  rewrite !pack_octet by lia. change (32 - 8 - 8 - 8 - 8) with 0. rewrite pack_done.
  rewrite <- !app_assoc. do 2 f_equal. unfold be32. cbn [app]. unfold u8. rewrite !Z.shiftr_div_pow2 by lia.
  change (32 - 8) with 24. change (24 - 8) with 16. change (16 - 8) with 8. change (8 - 8) with 0.
  assert (E1 : v mod 2 ^ 32 = v) by (by apply Z.mod_small). rewrite !E1.
  assert (E2 : v / 2 ^ 24 mod 2 ^ 8 = v / 2 ^ 24) by (apply Z.mod_small; divmod).
  assert (E3 : v mod 2 ^ 24 / 2 ^ 16 mod 2 ^ 8 = v / 2 ^ 16 mod 256) by divmod.
  assert (E4 : v mod 2 ^ 24 mod 2 ^ 16 / 2 ^ 8 mod 2 ^ 8 = v / 2 ^ 8 mod 256) by divmod.
  assert (E5 : v mod 2 ^ 24 mod 2 ^ 16 mod 2 ^ 8 / 2 ^ 0 mod 2 ^ 8 = v mod 256) by divmod.
  by rewrite E2, E3, E4, E5.
Qed.

Lemma pack_header : exists d1 d2,
  bit_encoder_pack append_ok (encoder_init []) 0 1 = ok (true, d1) /\ bit_encoder_pack append_ok d1 0 3 = ok (true, d2) /\
  bit_encoder_pack append_ok d2 0 4 = ok (true, mk_encoder [0] 0).
Proof using Hmem.
  exists (mk_encoder [0] 1), (mk_encoder [0] 4). split; [|by split].
  unfold bit_encoder_pack, encoder_init. rewrite srsran_assert_ok, bind_ok by done. cbn. by rewrite Hmem.
Qed.

(** The loop over the bitmap. *)
Lemma report_loop (s : entity) pre fuel i hi e bits :
  (forall k, i <= k < hi -> 0 <= k) -> hi < 2 ^ 32 -> (Z.to_nat (hi - i) < fuel)%nat -> written pre e bits ->
  exists i' e', for_loop fuel (fun i (_ : bit_encoder) => i <? hi) (fun i => u32 (i + 1))
    (fun i enc =>
       enc ← status_pack append_ok enc (if has_sn W (rx_window s) i then 1 else 0) 1;
       ok (enc, false)) i e = ok (i', e') /\
    written pre e' (bits ++ ((fun k => has_sn W (rx_window s) k) <$> seqZ i (hi - i))).
Proof using Hmem.
  revert i e bits. induction fuel as [|fuel IH]; intros i e bits Hpos Hhi Hf Hw; [lia|]. cbn [for_loop].
  destruct (Z.ltb_spec i hi).
  - destruct (pack_bit append_ok Hmem pre e bits (has_sn W (rx_window s) i) Hw) as (e1 & E1 & Hw1).
    assert (Estep : status_pack append_ok e (if has_sn W (rx_window s) i then 1 else 0) 1 = ok e1).
    { unfold status_pack. change (if has_sn W (rx_window s) i then 1 else 0) with (Z.b2z (has_sn W (rx_window s) i)). by rewrite E1. }
    rewrite Estep, !bind_ok. cbn [fst snd]. specialize (Hpos i) as Hi.
    rewrite u32_small by lia. destruct (IH (i + 1) e1 (bits ++ [has_sn W (rx_window s) i])) as (i' & e' & E' & Hw'); [intros; apply Hpos; lia|done|lia|done|].
    exists i', e'. split; [exact E'|]. rewrite seqZ_cons, fmap_cons by lia. rewrite <- app_assoc in Hw'.
    replace (Z.pred (hi - i)) with (hi - (i + 1)) by lia. exact Hw'.
  - exists i, e. split; [done|]. rewrite seqZ_nil by lia. by rewrite app_nil_r.
Qed.

Lemma compile_status_report_exact (s : entity) :
  rx_core cfg s -> next s + 1 < 2 ^ 32 ->
  exists bitmap pad, compile_status_report cfg append_ok s = ok (status_report (deliv s) bitmap) /\ is_bytes bitmap /\ (pad < 8)%nat /\
    bits_of bitmap = ((fun k => has_sn W (rx_window s) k) <$> seqZ (deliv s + 1) (report_bits s)) ++ replicate pad false.
Proof using Hmem Hb.
  intros [C1 C2 C3 C4 C5 C6] Hmax. pose proof (PdcpRxInv.W_pos cfg Hb) as HW. unfold compile_status_report.
  assert (HW' : W <= 131072) by (base_cases (rx_base cfg) Hb; lia).
  destruct pack_header as (d1 & d2 & E1 & E2 & E3).
  assert (S1 : status_pack append_ok (encoder_init []) (pdcp_dc_to_number dc_control) 1 = ok d1) by (unfold status_pack; simpl pdcp_dc_to_number; by rewrite E1).
  assert (S2 : status_pack append_ok d1 (cpt_to_number cpt_status_report) 3 = ok d2) by (unfold status_pack; simpl cpt_to_number; by rewrite E2).
  assert (S3 : status_pack append_ok d2 0 4 = ok (mk_encoder [0] 0)) by (unfold status_pack; by rewrite E3).
  assert (S4 : status_pack append_ok (mk_encoder [0] 0) (deliv s) 32 = ok (mk_encoder (0 :: be32 (deliv s)) 0)).
  { unfold status_pack. by rewrite pack_word by lia. }
  rewrite S1, bind_ok, S2, bind_ok, S3, bind_ok, S4, bind_ok.
  unfold pdcp_control_pdu_max_size. change ((9000 - 5) * 8) with 71960. cbv zeta. rewrite (u32_small (deliv s + 1)) by lia.
  set (hi := if _ && _ then _ else _).
  assert (Hhi : hi < 2 ^ 32 /\ hi - (deliv s + 1) <= W /\ Z.max 0 (hi - (deliv s + 1)) = report_bits s).
  { subst hi. unfold report_bits, pdcp_control_pdu_max_size. destruct (Z.ltb_spec (deliv s + 1) (next s)); simpl; [|lia].
    rewrite (u32_small (next s - (deliv s + 1))) by lia.
    destruct (Z.ltb_spec 71960 (next s - (deliv s + 1))); [rewrite u32_small by lia|]; lia. }
  destruct Hhi as (Hh1 & Hh2 & Hh3). clearbody hi.
  destruct (report_loop s (0 :: be32 (deliv s)) (rx_loop_fuel cfg) (deliv s + 1) hi (mk_encoder (0 :: be32 (deliv s)) 0) [])
    as (i' & e' & Ee & Hw); [lia|done|unfold rx_loop_fuel; lia|apply written_start|].
  rewrite Ee, bind_ok. cbv beta iota. destruct Hw as (_ & bitmap & pad & El & Hbm & Hbits & Hpad & _).
  exists bitmap, pad. split; [by rewrite El|]. split; [done|]. split; [done|]. rewrite Hbits. simpl. do 2 f_equal.
  rewrite <- Hh3. destruct (decide (0 <= hi - (deliv s + 1))); [by rewrite Z.max_r by lia|].
  rewrite Z.max_l by lia. by rewrite !seqZ_nil by lia.
Qed.
End rx_report.
