(* ===== verification/PdcpTxSend.v ===== *)
(** * Numbering, protecting and sending in the transmitting PDCP entity

    Closed forms for [pdcp_handle_sdu] (every branch) and [retransmit_all_pdus]. [tx_protect] is what
    becomes of an SDU under a COUNT. *)

From S2P Require Import Prelude SduWindow BitEncoding PdcpSnUtil PdcpBase Security PdcpTx PdcpTxInv.

(** [pdcp_max_sdu_size] *)
Definition pdcp_max_sdu_size : Z := 9000.

(** SDUs that an upper layer may send. *)
Definition sdu_sendable (sdu : bytes) : Prop := is_bytes sdu /\ sdu <> [] /\ zlen sdu <= pdcp_max_sdu_size.

Section send.
Context {E : Type} `{!SecurityEngine E} (cfg : pdcp_tx_config).
Local Abbreviation entity := (pdcp_entity_tx E).
Local Abbreviation b := (tx_base cfg).
Local Abbreviation W := (window_size (tx_base cfg)).
Local Abbreviation next s := (tx_next (tx_st s)).
Local Abbreviation trans s := (tx_trans (tx_st s)).
Local Abbreviation ack s := (tx_next_ack (tx_st s)).
Local Abbreviation stored s k := (wget W (tx_window s) k).

(** The configurations that the constructor accepts. *)
Context (Hb : base_ok b) (Hsrb : is_srb b = true -> sn_size b = pdcp_sn_12bits).
Context (Hhard : tx_max_count_hard cfg < 2 ^ 32).

(** The PDU of an SDU under COUNT [c]; [None]: no memory for the MAC. *)
Definition tx_protect (engine : option E) (mac_ok : bool) (c : Z) (sdu : bytes) : outcome (option bytes) :=
  let buf := data_header b (SN b c) ++ sdu in
  match engine with
  | None => ok (if is_srb b then if mac_ok then Some (buf ++ [0; 0; 0; 0]) else None else Some buf)
  | Some e =>
      result ← encrypt_and_protect_integrity e buf (hdr_len_bytes b) c;
      match result with inr pdu => ok (Some pdu) | inl _ => fail uncaught_exception end
  end.

Lemma tx_hdr_size_len : tx_hdr_size cfg = hdr_len_bytes b.
Proof using Hb. unfold tx_hdr_size. base_cases (tx_base cfg) Hb; by rewrite E0, Eh. Qed.

Lemma apply_protect (s : entity) mem c sdu :
  apply_ciphering_and_integrity_protection cfg s mem (data_header b (SN b c) ++ sdu) c =
  tx_protect (tx_sec_engine s) (mac_ok mem) c sdu.
Proof using Hb.
  unfold apply_ciphering_and_integrity_protection, tx_protect. rewrite tx_hdr_size_len.
  destruct (tx_sec_engine s); [done|]. by case (is_srb b).
Qed.

Lemma write_header ok_mem sdu c :
  write_data_pdu_header b ok_mem sdu (SN b c) = ok (if ok_mem then Some (data_header b (SN b c) ++ sdu) else None).
Proof using Hb Hsrb. apply write_data_pdu_header_shape; [done|done|]. by apply SN_range. Qed.

(** ** Storing *)
Lemma tx_store_spec sdus (s : entity) sdu :
  tx_inv cfg sdus s -> next s < tx_max_count_hard cfg -> next s + 1 <= ack s + 2 * W \/ has_discard_timer cfg = false ->
  exists w, tx_store cfg s sdu = ok (tx_set_window s w) /\ window_wf W w /\
    (has_discard_timer cfg = false -> w = tx_window s) /\
    (has_discard_timer cfg = true -> forall k, wget W w k =
       if decide (k = next s) then Some (mk_tx_sdu_info (next s) (if is_am b then sdu else []) (new_timer cfg))
       else if decide (k mod W = next s mod W) then None else stored s k).
Proof using Hhard.
  intros [I1 I2 I3 I4 I5 I6 I7] Hn Hw. unfold tx_store, has_discard_timer, new_timer in *. destruct (discard_timer cfg) as [d|].
  2:{ exists (tx_window s). split; [by destruct s|]. by split_and!. }
  assert (Hnone : stored s (next s) = None) by (destruct (stored s (next s)) as [i|] eqn:Ei; [apply I6 in Ei; lia|done]).
  rewrite (has_sn_false _ _ _ Hnone), bind_ok.
  destruct (add_sn_overwrites W pdcp_tx_sdu_info_init (tx_window s) (next s) I1 Hnone) as (w1 & -> & Hwf1 & Hget1). rewrite bind_ok.
  destruct (cm_set_ok W w1 (next s) (mk_tx_sdu_info (next s) (if is_am b then sdu else [])
    (if d =? discard_timer_infinity then None else Some (timer_run timer_stopped))) pdcp_tx_sdu_info_init Hwf1) as (w2 & -> & Hwf2 & _ & Hget2).
  { rewrite Hget1. by rewrite decide_True. }
  rewrite bind_ok. exists w2. split; [done|]. split; [done|]. split; [done|]. intros _ k. rewrite Hget2, Hget1.
  by destruct (decide (k = next s)).
Qed.

(** ** SDUs *)

Lemma kept_emit (s : entity) ev : (forall pdu r, ev <> txev_new_pdu pdu r) -> kept cfg s (tx_emit s ev).
Proof using Type.
  intros Hev. split; cbn -[wget]; [done|lia|by left|done|]. rewrite pdus_of_app.
  destruct ev; cbn; rewrite ?app_nil_r; try done. by edestruct Hev.
Qed.

(** Room in the queue of the lower layer and in the window, and below the hard limit. *)
Definition can_send (s : entity) : bool :=
  (next s - trans s <? rlc_sdu_queue cfg) && (next s - trans s <? W - 1) && (next s <? tx_max_count_hard cfg).

Definition memory_ok (mem : tx_memory) : bool :=
  (negb (has_discard_timer cfg && is_am b) || copy_ok mem) && reserve_ok mem.

(** Two states that differ in flags and output only. *)
Definition same_but_out (s s' : entity) : Prop :=
  tx_st s' = tx_st s /\ tx_window s' = tx_window s /\ tx_sec_engine s' = tx_sec_engine s /\
  tx_integrity_enabled s' = tx_integrity_enabled s /\ tx_ciphering_enabled s' = tx_ciphering_enabled s /\
  pdus_of (tx_out s') = pdus_of (tx_out s) /\ discards_of (tx_out s') = discards_of (tx_out s).

Lemma same_but_out_inv sdus (s s' : entity) : same_but_out s s' -> tx_inv cfg sdus s -> tx_inv cfg sdus s'.
Proof using Type. intros (H1 & H2 & _) [I1 I2 I3 I4 I5 I6 I7]. split; rewrite ?H1, ?H2; done. Qed.

Lemma same_but_out_emit s s' ev :
  same_but_out s s' -> (forall pdu r, ev <> txev_new_pdu pdu r) -> (forall sn, ev <> txev_discard_pdu sn) ->
  same_but_out s (tx_emit s' ev).
Proof using Type.
  intros (H1 & H2 & H3 & H4 & H5 & H6 & H7) He1 He2. unfold same_but_out. cbn. rewrite pdus_of_app, discards_of_app, H6, H7.
  split_and!; try done; destruct ev as [?|?| |p r|n| |]; rewrite ?app_nil_r; try done; first [by destruct (He1 p r) | by destruct (He2 n)].
Qed.

Lemma same_but_out_refl s : same_but_out s s.
Proof using Type. by split_and!. Qed.

Lemma same_but_out_flags s s' n o : same_but_out s s' -> same_but_out s (tx_set_flags s' n o).
Proof using Type. done. Qed.

Lemma tx_check_max_count_spec (s : entity) :
  (tx_check_max_count cfg s).1 = (next s <? tx_max_count_hard cfg) /\ same_but_out s (tx_check_max_count cfg s).2.
Proof using Type.
  unfold tx_check_max_count. destruct (Z.leb_spec (tx_max_count_hard cfg) (next s)); simpl.
  - split; [by zfalse|]. destruct (negb _); [|apply same_but_out_refl].
    apply same_but_out_flags. by apply same_but_out_emit; [apply same_but_out_refl|..].
  - split; [by ztrue|]. destruct (_ && _); [|apply same_but_out_refl].
    apply same_but_out_flags. by apply same_but_out_emit; [apply same_but_out_refl|..].
Qed.

(** What is sent under TX_NEXT, seen from outside. *)
Definition sent_under (s s' : entity) (sdus : list bytes) (sdu pdu : bytes) : Prop :=
  tx_inv cfg (sdus ++ [sdu]) s' /\ next s' = next s + 1 /\ ack s <= ack s' /\ tx_sec_engine s' = tx_sec_engine s /\
  tx_integrity_enabled s' = tx_integrity_enabled s /\ tx_ciphering_enabled s' = tx_ciphering_enabled s /\
  pdus_of (tx_out s') = pdus_of (tx_out s) ++ [(pdu, false)].

(** The end of [pdcp_handle_sdu]. *)
Lemma tx_finish_spec sdus s s0 sdu pdu :
  tx_inv cfg sdus s -> same_but_out s s0 -> can_send s = true ->
  exists s1, tx_store cfg s0 sdu = ok s1 /\
    let s2 := write_data_pdu_to_lower_layers s1 pdu false in
    let s3 := tx_set_st s2 (set_tx_next (tx_st s2) (u32 (next s2 + 1))) in
    exists s', (if test_mode cfg then handle_transmit_notification cfg s3 (SN b (next s2)) else ok s3) = ok s' /\
      sent_under s s' sdus sdu pdu.
Proof using Hb Hhard.
  intros Hi Hq Hcan. pose proof (same_but_out_inv _ _ _ Hq Hi) as Hi0. destruct Hq as (Q1 & Q2 & Q3 & Q4 & Q5 & Q6 & Q7).
  unfold can_send in Hcan. apply andb_prop in Hcan as [Hcan H3%Z.ltb_lt]. apply andb_prop in Hcan as [H1%Z.ltb_lt H2%Z.ltb_lt].
  assert (Hn0 : tx_st s0 = tx_st s) by done. pose proof (txi_order _ _ _ Hi) as Ho. pose proof (txi_width _ _ _ Hi) as Hwd.
  assert (Hroom : next s0 + 1 <= ack s0 + 2 * W \/ has_discard_timer cfg = false).
  { rewrite Hn0. destruct (has_discard_timer cfg); [left; lia|by right]. }
  destruct (tx_store_spec sdus s0 sdu Hi0) as (w & -> & Hwf & Hplain & Hget); [by rewrite Hn0|done|].
  eexists. split; [done|]. cbv zeta. cbn [write_data_pdu_to_lower_layers tx_emit tx_set_window tx_st tx_set_st].
  set (s3 := tx_set_st _ _). rewrite Q1 in *. pose proof (txi_max _ _ _ Hi). pose proof Hi as [I1 I2 I3 I4 I5 I6 I7].
  assert (Hout : pdus_of (tx_out s3) = pdus_of (tx_out s) ++ [(pdu, false)]).
  { subst s3. cbn [write_data_pdu_to_lower_layers tx_set_st tx_emit tx_out tx_set_window]. by rewrite !pdus_of_app, Q6, <- app_assoc. }
  assert (Hst3 : tx_st s3 = mk_pdcp_tx_state (next s + 1) (trans s) (ack s)).
  { subst s3. cbn. rewrite Q1. unfold set_tx_next. by rewrite u32_small by lia. }
  assert (Hw3 : tx_window s3 = w) by done.
  assert (Hi3 : tx_inv cfg (sdus ++ [sdu]) s3).
  { split; rewrite ?Hst3, ?Hw3; cbn -[wget]; try done.
    - lia.
    - rewrite length_app. simpl. lia.
    - lia.
    - destruct (has_discard_timer cfg); lia.
    - intros k i Hk. destruct (has_discard_timer cfg) eqn:Ht.
      2:{ rewrite Hplain, Q2 in Hk by done. destruct (I7 eq_refl) as [_ Hno]. by rewrite Hno in Hk. }
      rewrite Hget in Hk by done. destruct (decide (k = next s)) as [->|Hne].
      + injection Hk as <-. split; [lia|]. split; [done|]. split; [done|]. intros Ham. cbn. rewrite Ham. rewrite I3, Nat2Z.id.
        by rewrite lookup_app_r, Nat.sub_diag by lia.
      + case_decide; [done|]. rewrite Q2 in Hk. destruct (I6 k i Hk) as (Hr & Hc & Htm & Hs). split; [lia|]. split; [done|]. split; [done|].
        intros Ham. rewrite lookup_app_l by lia. auto.
    - intros Ht. rewrite Hplain, Q2 by done. by apply I7. }
  destruct (test_mode cfg).
  - destruct (handle_transmit_notification_spec cfg Hhard Hb (sdus ++ [sdu]) s3 (SN b (next s)) Hi3) as (s' & -> & Hi' & Hk & _).
    { by apply SN_range. }
    exists s'. split; [done|]. destruct Hk as [K1 K2 K3 (_ & _ & K4 & K5 & K6) K7].
    split; [done|]. rewrite K1, K4, K5, K6, K7, Hout. rewrite Hst3 in *. split_and!; done.
  - exists s3. split; [done|]. split; [done|]. rewrite Hst3, Hout. cbn. split_and!; done || lia.
Qed.

(** [pdcp_handle_sdu], on every branch. *)
Lemma pdcp_handle_sdu_spec sdus s mem sdu :
  tx_inv cfg sdus s ->
  if can_send s && memory_ok mem then
    match tx_protect (tx_sec_engine s) (mac_ok mem) (next s) sdu with
    | ok (Some pdu) => exists s', pdcp_handle_sdu cfg s mem sdu = ok s' /\ sent_under s s' sdus sdu pdu
    | ok None => exists s', pdcp_handle_sdu cfg s mem sdu = ok s' /\ same_but_out s s'
    | fail f => pdcp_handle_sdu cfg s mem sdu = fail f
    end
  else exists s', pdcp_handle_sdu cfg s mem sdu = ok s' /\ same_but_out s s'.
Proof using Hb Hsrb Hhard.
  intros Hi. pose proof (txi_order _ _ _ Hi) as Ho. unfold pdcp_handle_sdu.
  rewrite (proj2 (Z.ltb_ge (next s) (trans s))) by lia.
  assert (Hnop : exists s', ok s = ok s' /\ same_but_out s s') by (exists s; eauto using same_but_out_refl).
  destruct (can_send s) eqn:Hcan.
  2:{ simpl andb. cbv iota. destruct (Z.leb_spec (rlc_sdu_queue cfg) (next s - trans s)); [done|].
      destruct (Z.leb_spec (W - 1) (next s - trans s)); [done|].
      destruct (tx_check_max_count_spec (tx_emit s (txev_sdu_metrics (zlen sdu)))) as [Hgo Hq].
      destruct (tx_check_max_count _ _) as [go s0]. simpl in Hgo, Hq. unfold can_send in Hcan.
      rewrite (proj2 (Z.ltb_lt _ _)), (proj2 (Z.ltb_lt (_ - _) (W - 1))) in Hcan by lia. simpl in Hcan. rewrite Hgo, Hcan. simpl.
      exists s0. split; [done|]. destruct Hq as (A1 & A2 & A3 & A4 & A5 & A6 & A7). split_and!; try done.
      - rewrite A6. cbn. by rewrite pdus_of_app, app_nil_r.
      - rewrite A7. cbn. by rewrite discards_of_app, app_nil_r. }
  pose proof Hcan as Hcan'. unfold can_send in Hcan'. apply andb_prop in Hcan' as [Hc1 H3]. apply andb_prop in Hc1 as [H1%Z.ltb_lt H2%Z.ltb_lt].
  rewrite (proj2 (Z.leb_gt (rlc_sdu_queue cfg) _)), (proj2 (Z.leb_gt (W - 1) _)) by lia.
  destruct (tx_check_max_count_spec (tx_emit s (txev_sdu_metrics (zlen sdu)))) as [Hgo Hq].
  destruct (tx_check_max_count _ _) as [go s0]. simpl in Hgo, Hq. rewrite H3 in Hgo. subst go. simpl negb. cbv iota.
  assert (Hq0 : same_but_out s s0).
  { destruct Hq as (A1 & A2 & A3 & A4 & A5 & A6 & A7). split_and!; try done.
    - rewrite A6. cbn. by rewrite pdus_of_app, app_nil_r.
    - rewrite A7. cbn. by rewrite discards_of_app, app_nil_r. }
  clear Hq. simpl andb. unfold memory_ok.
  assert (Hfail : exists s', ok (tx_emit s0 txev_protocol_failure) = ok s' /\ same_but_out s s').
  { eexists. split; [done|]. by apply same_but_out_emit. }
  destruct (has_discard_timer cfg && is_am b) eqn:Ecp; simpl andb.
  1: destruct (copy_ok mem); simpl negb; cbv iota; [|done].
  all: pose proof Hq0 as (Q1 & Q2 & Q3 & _); rewrite Q1, write_header, bind_ok; simpl orb; simpl andb;
    destruct (reserve_ok mem); [|done]; rewrite apply_protect, Q3;
    destruct (tx_protect _ _ _ _) as [[pdu|]|f] eqn:Ep; rewrite ?bind_ok; [|done|done];
    destruct (tx_finish_spec sdus s s0 sdu pdu Hi Hq0 Hcan) as (s1 & -> & s' & Es' & Hs'); rewrite bind_ok;
    exists s'; split; [exact Es'|done].
Qed.

(** ** Retransmission *)

(** The state with more output. *)
Definition tx_emits (s : entity) (evs : list pdcp_tx_event) : entity := mk_pdcp_tx E (tx_st s) (tx_window s)
  (tx_count_notified s) (tx_count_overflow s) (tx_sec_engine s) (tx_integrity_enabled s) (tx_ciphering_enabled s) (tx_out s ++ evs).

Lemma tx_emits_app (s : entity) l1 l2 : tx_emits (tx_emits s l1) l2 = tx_emits s (l1 ++ l2).
Proof using Type. unfold tx_emits. cbn. by rewrite app_assoc. Qed.

(** The COUNTs of [[lo, hi)] that are in the window. *)
Definition stored_counts (s : entity) (lo hi : Z) : list Z := filter (fun k => is_Some (stored s k)) (seqZ lo (hi - lo)).

(** [pdu] is what [tx_protect] makes of the SDU that is stored under [k]. *)
Definition protects (s : entity) (mem : Z -> tx_memory) (k : Z) (pdu : bytes) : Prop :=
  exists i, stored s k = Some i /\ tx_protect (tx_sec_engine s) (mac_ok (mem k)) k (tx_sdu i) = ok (Some pdu).

(** The output of a retransmission: the PDUs of the stored SDUs in ascending order of their COUNTs, all of them unless the memory
    runs out, which is reported. *)
Definition retransmits (s : entity) (mem : Z -> tx_memory) (lo : Z) (evs : list pdcp_tx_event) : Prop :=
  exists ks rest pdus, stored_counts s lo (next s) = ks ++ rest /\ Forall2 (protects s mem) ks pdus /\
    pdus_of evs = (fun pdu => (pdu, true)) <$> pdus /\ discards_of evs = [] /\
    (rest = [] \/ txev_protocol_failure ∈ evs) /\
    ((forall k, copy_ok (mem k) && reserve_ok (mem k) && mac_ok (mem k) = true) -> rest = []).

Lemma retransmits_nil (s : entity) mem lo rest :
  stored_counts s lo (next s) = rest -> rest = [] -> retransmits s mem lo [].
Proof using Type. intros H ->. exists [], [], []. rewrite H. split_and!; try done; by first [constructor|left]. Qed.

Lemma retransmits_failure (s : entity) mem lo k :
  copy_ok (mem k) && reserve_ok (mem k) && mac_ok (mem k) = false -> retransmits s mem lo [txev_protocol_failure].
Proof using Type.
  intros Hk. exists [], (stored_counts s lo (next s)), []. split; [done|]. split; [constructor|].
  do 2 (split; [done|]). split; [right; by left|]. intros Hall. by rewrite Hall in Hk.
Qed.

Lemma retransmits_skip (s : entity) mem lo evs :
  lo < next s -> stored s lo = None -> retransmits s mem (lo + 1) evs -> retransmits s mem lo evs.
Proof using Type.
  intros Hlt Hn (ks & rest & pdus & H1 & H2). exists ks, rest, pdus. split; [|exact H2]. rewrite <- H1. unfold stored_counts.
  rewrite seqZ_cons, filter_cons, decide_False by (lia || (rewrite Hn; by intros [])).
  by replace (Z.pred (next s - lo)) with (next s - (lo + 1)) by lia.
Qed.

Lemma retransmits_send (s : entity) mem lo pdu evs :
  lo < next s -> protects s mem lo pdu -> retransmits s mem (lo + 1) evs ->
  retransmits s mem lo (txev_pdu_metrics (zlen pdu) :: txev_new_pdu pdu true :: evs).
Proof using Type.
  intros Hlt Hp (ks & rest & pdus & H1 & H2 & H3 & H4 & H5 & H6). exists (lo :: ks), rest, (pdu :: pdus).
  split; [|split; [by constructor|split; [|split; [done|split; [|done]]]]].
  - unfold stored_counts in *. rewrite seqZ_cons, filter_cons by lia. destruct Hp as (i & Hi & _).
    rewrite decide_True by (rewrite Hi; by eexists). simpl. f_equal.
    by replace (Z.pred (next s - lo)) with (next s - (lo + 1)) by lia.
  - simpl. by rewrite H3.
  - destruct H5; [by left|right; by do 2 right].
Qed.

(** The body of the loop, as the code has it. *)
Local Abbreviation retx_body mem := (fun count s =>
  if negb (has_sn W (tx_window s) count) then ok (s, false)
  else
    info ← cm_at W (tx_window s) count;
    if negb (copy_ok (mem count)) then ok (tx_emit s txev_protocol_failure, true)
    else
      hdr_buf ← write_data_pdu_header b (reserve_ok (mem count)) (tx_sdu info) (SN b (tx_sdu_count info));
      match hdr_buf with
      | None => ok (tx_emit s txev_protocol_failure, true)
      | Some buf =>
          exp_buf ← apply_ciphering_and_integrity_protection cfg s (mem count) buf (tx_sdu_count info);
          match exp_buf with
          | None => ok (tx_emit s txev_protocol_failure, true)
          | Some protected_buf => ok (write_data_pdu_to_lower_layers s protected_buf true, false)
          end
      end).

Lemma retx_loop (s : entity) (mem : Z -> tx_memory) fuel lo evs0 :
  (forall k i, stored s k = Some i -> tx_sdu_count i = k) -> 0 <= lo <= next s -> next s < 2 ^ 32 ->
  (Z.to_nat (next s - lo) < fuel)%nat ->
  match for_loop fuel (fun count s => count <? next s) (fun count => u32 (count + 1)) (retx_body mem) lo (tx_emits s evs0) with
  | ok (_, s') => exists evs, s' = tx_emits s (evs0 ++ evs) /\ retransmits s mem lo evs
  | fail f => exists k i, lo <= k < next s /\ stored s k = Some i /\ tx_protect (tx_sec_engine s) (mac_ok (mem k)) k (tx_sdu i) = fail f
  end.
Proof using Hb Hsrb.
  intros Hkey. revert lo evs0. induction fuel as [|fuel IH]; intros lo evs0 Hlo Hn Hf; [lia|]. cbn [for_loop]. cbn [tx_emits tx_st].
  destruct (Z.ltb_spec lo (next s)).
  2:{ exists []. split; [by rewrite app_nil_r|]. eapply retransmits_nil; [done|]. unfold stored_counts. by rewrite seqZ_nil by lia. }
  cbn [tx_window tx_emits]. rewrite has_sn_wget. specialize (IH (lo + 1)). rewrite u32_small by lia.
  destruct (stored s lo) as [i|] eqn:Ei.
  2:{ rewrite bool_decide_eq_false_2 by (by intros []). simpl negb. cbv iota. rewrite bind_ok. cbn [fst snd].
      specialize (IH evs0 ltac:(lia) Hn ltac:(lia)). destruct (for_loop _ _ _ _ _ _) as [[i' s']|f].
      - destruct IH as (evs & -> & Hr). exists evs. split; [done|]. by apply retransmits_skip.
      - destruct IH as (k & j & Hk & ?). exists k, j. split; [lia|done]. }
  rewrite bool_decide_eq_true_2 by (by eexists). simpl negb. cbv iota. rewrite (cm_at_ok _ _ _ _ Ei), bind_ok.
  assert (Hfail : copy_ok (mem lo) && reserve_ok (mem lo) && mac_ok (mem lo) = false ->
    exists evs, tx_emit (tx_emits s evs0) txev_protocol_failure = tx_emits s (evs0 ++ evs) /\ retransmits s mem lo evs).
  { intros Hm. exists [txev_protocol_failure]. split; [|by eapply retransmits_failure]. unfold tx_emit, tx_emits. cbn. by rewrite app_assoc. }
  destruct (copy_ok (mem lo)) eqn:Ec; simpl negb; cbv iota; [|by apply Hfail].
  rewrite (Hkey _ _ Ei), write_header, bind_ok. destruct (reserve_ok (mem lo)) eqn:Er; [|by apply Hfail].
  rewrite apply_protect. cbn [tx_sec_engine tx_emits].
  destruct (tx_protect (tx_sec_engine s) (mac_ok (mem lo)) lo (tx_sdu i)) as [[pdu|]|f] eqn:Ep; rewrite ?bind_ok.
  - cbn [fst snd]. assert (Hw : write_data_pdu_to_lower_layers (tx_emits s evs0) pdu true =
      tx_emits s (evs0 ++ [txev_pdu_metrics (zlen pdu); txev_new_pdu pdu true])).
    { unfold write_data_pdu_to_lower_layers, tx_emit, tx_emits. cbn. by rewrite <- !app_assoc. }
    rewrite Hw. specialize (IH (evs0 ++ [txev_pdu_metrics (zlen pdu); txev_new_pdu pdu true]) ltac:(lia) Hn ltac:(lia)).
    destruct (for_loop _ _ _ _ _ _) as [[i' s']|f].
    + destruct IH as (evs & -> & Hr). eexists. split; [by rewrite <- app_assoc|]. simpl. apply retransmits_send; [done| |done].
      by exists i.
    + destruct IH as (k & j & Hk & ?). exists k, j. split; [lia|done].
  - apply Hfail. unfold tx_protect in Ep. destruct (tx_sec_engine s) as [e|].
    + destruct (encrypt_and_protect_integrity _ _ _ _) as [[]|]; simpl in Ep; discriminate.
    + destruct (is_srb b); [|discriminate]. by destruct (mac_ok (mem lo)); [discriminate|].
  - exists lo, i. split; [lia|done].
Qed.

(** The state in which a retransmission starts. *)
Definition rewound (s : entity) : entity := tx_set_st s (set_tx_trans (tx_st s) (ack s)).

Lemma rewound_inv sdus s : has_discard_timer cfg = true -> tx_inv cfg sdus s -> tx_inv cfg sdus (rewound s).
Proof using Hb.
  intros Ht [I1 I2 I3 I4 I5 I6 I7]. pose proof (PdcpTxInv.tx_W_pos cfg Hb). split; cbn -[wget]; try done; [lia|]. rewrite Ht in *. lia.
Qed.

Lemma retransmit_all_pdus_spec sdus s mem :
  tx_inv cfg sdus s ->
  if has_discard_timer cfg && is_am b then
    match retransmit_all_pdus cfg s mem with
    | ok s' => exists evs, s' = tx_emits (rewound s) evs /\ retransmits s mem (ack s) evs
    | fail f => exists k i, ack s <= k < next s /\ stored s k = Some i /\
        tx_protect (tx_sec_engine s) (mac_ok (mem k)) k (tx_sdu i) = fail f
    end
  else retransmit_all_pdus cfg s mem = ok s.
Proof using Hb Hsrb Hhard.
  intros Hi. unfold retransmit_all_pdus. destruct (has_discard_timer cfg); [|done]. destruct (is_am b); [|done]. cbn [negb andb]. cbv iota zeta.
  pose proof (txi_order _ _ _ Hi). pose proof (txi_max _ _ _ Hi). fold (rewound s).
  pose proof (retx_loop (rewound s) mem (S (Z.to_nat (next (rewound s) - ack (rewound s)))) (ack (rewound s)) []) as Hl.
  replace (tx_emits (rewound s) []) with (rewound s) in Hl by (unfold tx_emits; rewrite app_nil_r; by destruct s as [[]]).
  specialize (Hl ltac:(intros k i Hk; by apply (txi_keys _ _ _ Hi) in Hk as (_ & ? & _)) ltac:(cbn; lia) ltac:(cbn; lia) ltac:(lia)).
  match type of Hl with context [for_loop ?f ?c ?g ?h ?x ?s0] => destruct (for_loop f c g h x s0) as [[i' s']|f0] eqn:Ef end.
  - rewrite bind_ok. destruct Hl as (evs & -> & Hr). by exists evs.
  - exact Hl.
Qed.
End send.
