(* ===== verification/PdcpTxProps.v ===== *)
(** * What the transmitting PDCP entity guarantees

    [tx_run] are the histories of an entity under one security configuration: SDUs of the upper layer, notifications of the
    lower layer, expiries of discard timers, status reports of the peer (any octets) and data recoveries, in any order
    and under any behaviour of the buffer pool. Each SDU that is sent gets a COUNT of its own, a
    retransmission repeats the octets of the first transmission, and no event makes the entity
    fail, unless the security engine reports an error. *)

From S2P Require Import Prelude SduWindow BitEncoding PdcpSnUtil PdcpBase Security PdcpTx PdcpTxInv PdcpTxSend.

Section props.
Context {E : Type} `{!SecurityEngine E} (cfg : pdcp_tx_config) (ready : E -> Prop) {HL : SecurityEngineLaws E ready}.
Local Abbreviation entity := (pdcp_entity_tx E).
Local Abbreviation b := (tx_base cfg).
Local Abbreviation W := (window_size (tx_base cfg)).
Local Abbreviation next s := (tx_next (tx_st s)).
Local Abbreviation trans s := (tx_trans (tx_st s)).
Local Abbreviation ack s := (tx_next_ack (tx_st s)).
Local Abbreviation stored s k := (wget W (tx_window s) k).
Local Abbreviation protect := (tx_protect cfg).

Context (Hb : base_ok b) (Hsrb : is_srb b = true -> sn_size b = pdcp_sn_12bits).
Context (Hhard : tx_max_count_hard cfg < 2 ^ 32).

(** ** Histories *)
Inductive tx_action :=
| act_sdu (mem : tx_memory) (sdu : bytes)
| act_transmit_notification (sn : Z)
| act_delivery_notification (sn : Z)
| act_discard_expiry (count : Z)
| act_status_report (buffer_ok : bool) (buf : bytes)
| act_data_recovery (mem : Z -> tx_memory) (report : bytes).

Definition tx_step (a : tx_action) (s : entity) : outcome entity :=
  match a with
  | act_sdu mem sdu => pdcp_handle_sdu cfg s mem sdu
  | act_transmit_notification sn => handle_transmit_notification cfg s sn
  | act_delivery_notification sn => handle_delivery_notification cfg s sn
  | act_discard_expiry count => handle_discard_expire cfg s count
  | act_status_report buffer_ok buf => handle_status_report cfg s buffer_ok buf
  | act_data_recovery mem report => data_recovery cfg s mem (ok report)
  end.

(** The PDUs with user data: those of SRBs, and of DRBs those with the D/C bit set. *)
Definition is_data_pdu (pdu : bytes) : bool :=
  is_srb b || match pdcp_pdu_get_dc (nth 0 pdu 0) with dc_data => true | dc_control => false end.

Definition tx_allowed (a : tx_action) (s : entity) : Prop :=
  match a with
  | act_sdu _ sdu => sdu_sendable sdu
  | act_transmit_notification sn | act_delivery_notification sn => 0 <= sn
  | act_discard_expiry count => exists i, stored s count = Some i /\ tx_discard_timer i = Some timer_running
  | act_status_report _ buf => is_bytes buf
  | act_data_recovery _ report => is_drb b && is_am b = true /\ is_data_pdu report = false
  end.

(** [sdus]: the SDUs that were given a COUNT. *)
Inductive tx_run (s0 : entity) : list bytes -> entity -> Prop :=
| tx_run_start : tx_run s0 [] s0
| tx_run_step sdus s a s' :
    tx_run s0 sdus s -> tx_allowed a s -> tx_step a s = ok s' ->
    tx_run s0 (match a with act_sdu _ sdu => if next s <? next s' then sdus ++ [sdu] else sdus | _ => sdus end) s'.

Definition tx_fresh (s : entity) : Prop :=
  tx_st s = pdcp_tx_state_init /\ tx_window s = cm_empty /\ pdus_of (tx_out s) = [] /\
  (forall e, tx_sec_engine s = Some e -> ready e).

(** The data PDUs sent for the first time, in order. *)
Definition new_pdus (l : list pdcp_tx_event) : list bytes :=
  omap (fun p => if negb p.2 && is_data_pdu p.1 then Some p.1 else None) (pdus_of l).

Lemma new_pdus_app l1 l2 : new_pdus (l1 ++ l2) = new_pdus l1 ++ new_pdus l2.
Proof using Type. unfold new_pdus. by rewrite pdus_of_app, omap_app. Qed.

(** ** Protected PDUs *)

(** The zero MAC is the only part that depends on the pool. *)
Lemma protect_mac engine m c sdu pdu : protect engine m c sdu = ok (Some pdu) -> protect engine true c sdu = ok (Some pdu).
Proof using Type. unfold tx_protect. destruct engine; [done|]. case (is_srb b); [|done]. by destruct m. Qed.

Lemma protect_input c sdu :
  0 <= c < 2 ^ 32 -> sdu_sendable sdu ->
  let buf := data_header b (SN b c) ++ sdu in
  is_bytes buf /\ 0 <= hdr_len_bytes b < zlen buf /\ zlen buf <= sec_max_pdu_size - 24.
Proof using Hb.
  intros Hc (Hs & Hne & Hl) buf. subst buf. rewrite length_app, Nat2Z.inj_add, data_header_length by done.
  assert (0 < zlen sdu) by (destruct sdu; [done|simpl; lia]). assert (Hh : 0 <= hdr_len_bytes b <= 3) by (base_cases (tx_base cfg) Hb; lia).
  unfold pdcp_max_sdu_size, sec_max_pdu_size in *. split; [|lia].
  apply Forall_app. split; [|done]. apply data_header_bytes; [done|]. by apply SN_range.
Qed.

(** Protection fails only by an error of the engine. *)
Lemma protect_total_or_error engine m c sdu :
  (forall e, engine = Some e -> ready e) -> 0 <= c < 2 ^ 32 -> sdu_sendable sdu ->
  (exists r, protect engine m c sdu = ok r) \/
  (exists e err, engine = Some e /\
     encrypt_and_protect_integrity e (data_header b (SN b c) ++ sdu) (hdr_len_bytes b) c = ok (inl err) /\
     protect engine m c sdu = fail uncaught_exception).
Proof using HL Hb.
  intros Hr Hc Hs. unfold tx_protect. destruct engine as [e|]; [|left; by eexists].
  destruct (protect_input c sdu Hc Hs) as (Hbuf & Hoff & Hlen).
  destruct (protect_total e (data_header b (SN b c) ++ sdu) (hdr_len_bytes b) c (Hr e eq_refl) Hbuf Hoff Hlen Hc) as [r Er].
  rewrite Er. destruct r as [err|pdu]; [right; by exists e, err|left; by eexists].
Qed.

(** A protected PDU starts with the header that was written. *)
Lemma protect_header engine m c sdu pdu :
  (forall e, engine = Some e -> ready e) -> 0 <= c < 2 ^ 32 -> sdu_sendable sdu ->
  protect engine m c sdu = ok (Some pdu) ->
  exists rest, pdu = data_header b (SN b c) ++ rest /\ rest <> [].
Proof using HL Hb.
  intros Hr Hc Hs Hp. pose proof Hs as (_ & Hne & _). unfold tx_protect in Hp. destruct engine as [e|].
  - destruct (protect_input c sdu Hc Hs) as (Hbuf & Hoff & Hlen). apply bind_ok_inv in Hp as (r & Er & Hp).
    destruct r as [err|p]; [done|]. injection Hp as ->.
    destruct (protect_recovered e _ _ c pdu (Hr e eq_refl) Hbuf Hoff Hlen Hc Er) as (_ & Hl & Ht & _).
    assert (Hh : Z.to_nat (hdr_len_bytes b) = length (data_header b (SN b c))) by (pose proof (data_header_length b Hb (SN b c)); lia).
    rewrite Hh, take_app_length in Ht. exists (drop (length (data_header b (SN b c))) pdu). split.
    + rewrite <- Ht at 1. symmetry. apply take_drop.
    + intros E0. apply (f_equal length) in E0. rewrite length_drop in E0. simpl in E0. lia.
  - revert Hp. clear Hsrb. destruct (is_srb b); [destruct m; [|done]|]; intros [= <-].
    + exists (sdu ++ [0; 0; 0; 0]). rewrite <- app_assoc. split; [done|]. by destruct sdu.
    + by exists sdu.
Qed.

Lemma protected_is_data engine m c sdu pdu :
  (forall e, engine = Some e -> ready e) -> 0 <= c < 2 ^ 32 -> sdu_sendable sdu ->
  protect engine m c sdu = ok (Some pdu) -> is_data_pdu pdu = true.
Proof using HL Hb.
  intros Hr Hc Hs Hp. destruct (protect_header _ _ _ _ _ Hr Hc Hs Hp) as (rest & -> & _).
  destruct (data_header_dc b Hb (SN b c) rest) as (b0 & r & -> & Hd); [by apply SN_range|].
  unfold is_data_pdu. simpl. rewrite Hd. unfold is_drb, is_srb. by destruct (rb_type b).
Qed.

(** ** What is known after a history *)
Record tx_hist (engine : option E) (sdus : list bytes) (s : entity) : Prop := {
  th_inv : tx_inv cfg sdus s;
  th_engine : tx_sec_engine s = engine;
  th_sdus : Forall sdu_sendable sdus;
  th_new : length (new_pdus (tx_out s)) = length sdus;
  th_pdus : forall c pdu, new_pdus (tx_out s) !! c = Some pdu ->
    exists sdu, sdus !! c = Some sdu /\ protect engine true (Z.of_nat c) sdu = ok (Some pdu);
  th_retx : forall pdu, (pdu, true) ∈ pdus_of (tx_out s) -> pdu ∈ new_pdus (tx_out s)
}.

Lemma tx_hist_same engine sdus s s' :
  tx_hist engine sdus s -> tx_inv cfg sdus s' -> tx_sec_engine s' = tx_sec_engine s ->
  pdus_of (tx_out s') = pdus_of (tx_out s) -> tx_hist engine sdus s'.
Proof using Type.
  intros [H1 H2 H3 H4 H5 H6] Hi He Hp. assert (Hn : new_pdus (tx_out s') = new_pdus (tx_out s)) by (unfold new_pdus; by rewrite Hp).
  split; rewrite ?Hn, ?Hp, ?He; done.
Qed.

Lemma fresh_tx_hist s : tx_fresh s -> tx_hist (tx_sec_engine s) [] s.
Proof using Hb.
  intros (Hst & Hw & Hp & He). pose proof (PdcpTxInv.tx_W_pos cfg Hb).
  assert (Hn : new_pdus (tx_out s) = []) by (unfold new_pdus; by rewrite Hp).
  split; rewrite ?Hn, ?Hp; try done.
  - split; rewrite ?Hst, ?Hw; cbn -[wget].
    + apply window_wf_empty.
    + lia.
    + done.
    + lia.
    + destruct (has_discard_timer cfg); lia.
    + intros k i. by rewrite wget_empty.
    + intros _. split; [done|]. intros. by rewrite wget_empty.
  - intros pdu Hin. by apply elem_of_nil in Hin.
Qed.

(** A data PDU sent for the first time. *)
Lemma tx_hist_sent engine sdus s s' sdu pdu :
  (forall e, engine = Some e -> ready e) ->
  tx_hist engine sdus s -> sdu_sendable sdu -> protect engine true (next s) sdu = ok (Some pdu) ->
  sent_under cfg s s' sdus sdu pdu -> tx_hist engine (sdus ++ [sdu]) s'.
Proof using HL Hb Hhard.
  intros Hr [H1 H2 H3 H4 H5 H6] Hs Hp (Hi & Hn & _ & He & _ & _ & Hout).
  pose proof (txi_next _ _ _ H1) as Hnext. pose proof (txi_max _ _ _ H1). pose proof (txi_order _ _ _ H1).
  assert (Hd : is_data_pdu pdu = true) by (apply (protected_is_data engine true (next s) sdu); [done|lia|done|done]).
  assert (Hnew : new_pdus (tx_out s') = new_pdus (tx_out s) ++ [pdu]).
  { unfold new_pdus. rewrite Hout, omap_app. simpl. by rewrite Hd. }
  split; rewrite ?Hnew; try done.
  - by rewrite He.
  - apply Forall_app. split; [done|]. by apply Forall_singleton.
  - rewrite !length_app, H4. done.
  - intros c pdu'. destruct (decide (c < length (new_pdus (tx_out s)))%nat).
    + rewrite lookup_app_l by done. intros Hc. destruct (H5 c pdu' Hc) as (x & Hx & Hpx). exists x. split; [|done].
      apply lookup_app_l_Some. done.
    + rewrite lookup_app_r by lia. destruct (c - length (new_pdus (tx_out s)))%nat eqn:Ec; [|done]. intros [= <-].
      exists sdu. assert (c = length sdus) as -> by lia. split; [by apply list_lookup_middle|]. by rewrite <- Hnext.
  - rewrite Hout. intros p [Hp'|Hp']%elem_of_app; [apply elem_of_app; left; by apply H6|].
    apply list_elem_of_singleton in Hp'. congruence.
Qed.

(** A retransmission repeats PDUs of the history. *)
Lemma tx_hist_retransmitted engine sdus s s' mem evs :
  tx_hist engine sdus s -> has_discard_timer cfg = true -> is_am b = true ->
  retransmits cfg (rewound s) mem (ack s) evs -> s' = tx_emits (rewound s) evs -> tx_hist engine sdus s'.
Proof using Hb.
  intros [H1 H2 H3 H4 H5 H6] Ht Ham (ks & rest & pdus & R1 & R2 & R3 & _) ->.
  assert (Hnew : new_pdus (tx_out (tx_emits (rewound s) evs)) = new_pdus (tx_out s)).
  { cbn [tx_out tx_emits rewound tx_set_st]. rewrite new_pdus_app. unfold new_pdus at 2. rewrite R3.
    replace (omap _ ((fun pdu => (pdu, true)) <$> pdus)) with (@nil bytes); [by rewrite app_nil_r|]. clear. by induction pdus. }
  pose proof (rewound_inv cfg Hb sdus s Ht H1) as Hi. split; rewrite ?Hnew; try done.
  - destruct Hi as [I1 I2 I3 I4 I5 I6 I7]. by split.
  - cbn [tx_out tx_emits rewound tx_set_st]. intros pdu. rewrite pdus_of_app, R3, elem_of_app. intros [Hp|Hp]; [by apply H6|].
    apply list_elem_of_fmap in Hp as (p & [= ->] & Hp). apply list_elem_of_lookup_1 in Hp as [j Hj].
    destruct (Forall2_lookup_r _ _ _ _ _ R2 Hj) as (k & Hk & i & Hi' & Hpr).
    destruct (txi_keys _ _ _ H1 k i Hi') as (Hr & _ & _ & Hsdu). specialize (Hsdu Ham).
    cbn [tx_sec_engine rewound tx_set_st] in Hpr. rewrite H2 in Hpr. apply protect_mac in Hpr.
    assert (Hlt : (Z.to_nat k < length (new_pdus (tx_out s)))%nat) by (rewrite H4; by apply lookup_lt_Some in Hsdu).
    apply lookup_lt_is_Some in Hlt as [q Hq]. destruct (H5 _ _ Hq) as (x & Hx & Hpx).
    rewrite Z2Nat.id in Hpx by (pose proof (txi_order _ _ _ H1); lia). rewrite Hsdu in Hx. injection Hx as <-.
    rewrite Hpr in Hpx. injection Hpx as ->. by apply list_elem_of_lookup_2 in Hq.
Qed.

(** ** The actions *)

(** What an action leads to: a longer history, or the exception for an error of the engine. *)
Definition tx_progress (engine : option E) (sdus : list bytes) (s : entity) (a : tx_action) : Prop :=
  (exists s', tx_step a s = ok s' /\
     tx_hist engine (match a with act_sdu _ sdu => if next s <? next s' then sdus ++ [sdu] else sdus | _ => sdus end) s') \/
  (exists e c sdu err, engine = Some e /\ 0 <= c <= next s /\
     encrypt_and_protect_integrity e (data_header b (SN b c) ++ sdu) (hdr_len_bytes b) c = ok (inl err) /\
     tx_step a s = fail uncaught_exception).

Lemma kept_hist engine sdus s s' : tx_hist engine sdus s -> tx_inv cfg sdus s' -> kept cfg s s' -> tx_hist engine sdus s'.
Proof using Type.
  intros Hh Hi [K1 K2 K3 (_ & _ & K4 & _) K5]. by apply (tx_hist_same engine sdus s s').
Qed.

Lemma progress_sdu engine sdus s mem sdu :
  (forall e, engine = Some e -> ready e) -> tx_hist engine sdus s -> sdu_sendable sdu ->
  tx_progress engine sdus s (act_sdu mem sdu).
Proof using HL Hb Hsrb Hhard.
  intros Hr Hh Hs. pose proof (th_inv _ _ _ Hh) as Hi. pose proof (txi_max _ _ _ Hi). pose proof (txi_order _ _ _ Hi).
  pose proof (pdcp_handle_sdu_spec cfg Hb Hsrb Hhard sdus s mem sdu Hi) as Hspec. rewrite (th_engine _ _ _ Hh) in Hspec.
  assert (Hquiet : (exists s', pdcp_handle_sdu cfg s mem sdu = ok s' /\ same_but_out s s') -> tx_progress engine sdus s (act_sdu mem sdu)).
  { intros (s' & Es' & Hq). left. exists s'. split; [done|]. pose proof (same_but_out_inv cfg sdus s s' Hq Hi) as Hi'.
    destruct Hq as (Q1 & _ & Q3 & _ & _ & Q6 & _). rewrite Q1, Z.ltb_irrefl. by apply (tx_hist_same engine sdus s s'). }
  destruct (can_send cfg s && memory_ok cfg mem) eqn:Hcan; [|by apply Hquiet].
  destruct (protect_total_or_error engine (mac_ok mem) (next s) sdu Hr ltac:(lia) Hs) as [[r Er]|(e & err & -> & Er & Ef)].
  - rewrite Er in Hspec. destruct r as [pdu|]; [|by apply Hquiet]. destruct Hspec as (s' & Es' & Hsent). left. exists s'. split; [done|].
    pose proof Hsent as (_ & -> & _). rewrite (proj2 (Z.ltb_lt _ _)) by lia.
    by eapply tx_hist_sent; [done|done|done|eapply protect_mac|].
  - right. exists e, (next s), sdu, err. split; [done|]. split; [lia|]. split; [done|]. by rewrite Ef in Hspec.
Qed.

(** The expired timer goes with its element. *)
Lemma handle_discard_expire_discard sdus (s : entity) count i :
  tx_inv cfg sdus s -> stored s count = Some i ->
  handle_discard_expire cfg s count = discard_pdu cfg (tx_emit s txev_discard_timeout) count.
Proof using Type.
  intros Hi Hc. unfold handle_discard_expire. rewrite (cm_at_ok _ _ _ _ Hc), bind_ok.
  pose proof (has_sn_true _ _ _ _ Hc) as Hhas. unfold cm_set. unfold has_sn in Hhas. rewrite Hhas, bind_ok.
  set (x := mk_tx_sdu_info _ _ _). set (w := mk_circular_map _ _).
  assert (Hw : has_sn W w count = true).
  { unfold has_sn, cm_contains, w. simpl. by rewrite lookup_insert_eq, Z.eqb_refl. }
  assert (Hrem : remove_sn W w count = remove_sn W (tx_window s) count).
  { unfold remove_sn, cm_erase. unfold has_sn in Hw. rewrite Hw, Hhas. unfold w. simpl. by rewrite delete_insert_eq. }
  destruct (txi_keys _ _ _ Hi count i Hc) as [Hr _]. unfold discard_pdu. cbn [tx_st tx_window tx_emit tx_set_window].
  rewrite Hw. unfold has_sn at 2. rewrite Hhas.
  destruct (has_discard_timer cfg) eqn:Ht; [|destruct (txi_plain _ _ _ Hi Ht) as [_ Hno]; by rewrite Hno in Hc].
  do 2 zfalse. simpl orb. simpl negb. cbv iota zeta. cbn [tx_st tx_window tx_emit tx_set_window]. rewrite Hrem.
  destruct (remove_sn W (tx_window s) count); done.
Qed.

Lemma emit_quiet (s : entity) ev : (forall pdu r, ev <> txev_new_pdu pdu r) -> (forall sn, ev <> txev_discard_pdu sn) ->
  same_but_out s (tx_emit s ev).
Proof using Type. intros. by apply same_but_out_emit; [apply same_but_out_refl|..]. Qed.

Lemma progress_expiry engine sdus s count :
  tx_hist engine sdus s -> tx_allowed (act_discard_expiry count) s -> tx_progress engine sdus s (act_discard_expiry count).
Proof using Hhard.
  intros Hh (i & Hc & _). pose proof (th_inv _ _ _ Hh) as Hi. left. cbn [tx_step].
  rewrite (handle_discard_expire_discard sdus s count i) by done.
  assert (Hq : same_but_out s (tx_emit s txev_discard_timeout)) by (by apply emit_quiet).
  pose proof (same_but_out_inv cfg sdus _ _ Hq Hi) as Hi1.
  pose proof (discard_pdu_spec cfg Hhard sdus _ count Hi1) as Hd. cbn [tx_window tx_emit] in Hd. rewrite Hc in Hd.
  destruct Hd as (a & w & Ed & Htr & _). eexists. split; [exact Ed|].
  apply (tx_hist_same engine sdus s); [done|by eapply trimmed_inv| |].
  - destruct (tr_same _ _ _ Htr) as (_ & _ & -> & _). done.
  - rewrite (tr_pdus _ _ _ Htr). by destruct Hq as (_ & _ & _ & _ & _ & -> & _).
Qed.

Lemma discard_list_hist engine sdus s cs :
  tx_hist engine sdus s -> exists s', discard_list cfg s cs = ok s' /\ tx_hist engine sdus s' /\ ack s <= ack s'.
Proof using Hhard.
  revert s. induction cs as [|c cs IH]; intros s Hh; [exists s; split; [done|split; [done|lia]]|]. cbn [discard_list].
  pose proof (th_inv _ _ _ Hh) as Hi. pose proof (discard_pdu_spec cfg Hhard sdus s c Hi) as Hd.
  destruct (stored s c) as [i|].
  - destruct Hd as (a & w & -> & Htr & _). rewrite bind_ok.
    destruct (IH (tx_trim s a w [SN b c])) as (s' & -> & Hh' & Ha).
    { apply (kept_hist engine sdus s); [done|by eapply trimmed_inv|by apply trimmed_kept]. }
    exists s'. split; [done|]. split; [done|]. pose proof (tr_ack _ _ _ Htr). lia.
  - rewrite Hd, bind_ok. by apply IH.
Qed.

Lemma progress_report engine sdus s buffer_ok buf :
  tx_hist engine sdus s -> is_bytes buf -> tx_progress engine sdus s (act_status_report buffer_ok buf).
Proof using Hhard.
  intros Hh Hbuf. left. cbn [tx_step]. pose proof (txi_order _ _ _ (th_inv _ _ _ Hh)) as Ho.
  destruct (handle_status_report_any cfg s buffer_ok buf) as [E1|(fmc & bits & _ & _ & E1)]; [lia|done| |]; rewrite E1; [by exists s|].
  destruct (discard_list_hist engine sdus s (seqZ (ack s) (fmc - ack s)) Hh) as (s1 & -> & Hh1 & _). rewrite bind_ok.
  destruct (discard_list_hist engine sdus s1 (set_counts bits fmc) Hh1) as (s2 & -> & Hh2 & _). by exists s2.
Qed.

Lemma progress_recovery engine sdus s mem report :
  (forall e, engine = Some e -> ready e) -> tx_hist engine sdus s -> tx_allowed (act_data_recovery mem report) s ->
  tx_progress engine sdus s (act_data_recovery mem report).
Proof using HL Hb Hsrb Hhard.
  intros Hr Hh [Hbearer Hrep]. cbn [tx_step] in *. unfold tx_progress. cbn [tx_step]. unfold data_recovery.
  rewrite srsran_assert_ok, bind_ok by done. apply andb_prop in Hbearer as [_ Ham].
  assert (Hs1 : exists s1, (if status_report_required cfg then send_status_report cfg s (ok report) else ok s) = ok s1 /\
    tx_hist engine sdus s1 /\ tx_st s1 = tx_st s).
  { destruct (status_report_required cfg) eqn:Esr; [|by exists s]. unfold send_status_report. rewrite Esr, bind_ok.
    eexists. split; [done|]. split; [|done].
    assert (Hnew : new_pdus (tx_out (write_control_pdu_to_lower_layers s report)) = new_pdus (tx_out s)).
    { cbn [write_control_pdu_to_lower_layers tx_out tx_emit]. rewrite !new_pdus_app. unfold new_pdus at 3. simpl. rewrite Hrep. simpl.
      unfold new_pdus at 2. simpl. by rewrite !app_nil_r. }
    destruct Hh as [H1 H2 H3 H4 H5 H6]. split; rewrite ?Hnew; try done.
    - destruct H1 as [I1 I2 I3 I4 I5 I6 I7]. by split.
    - intros pdu. cbn [write_control_pdu_to_lower_layers tx_out tx_emit]. rewrite !pdus_of_app. intros [[Hp|Hp]%elem_of_app|Hp]%elem_of_app.
      + by apply H6.
      + simpl in Hp. by apply elem_of_nil in Hp.
      + apply list_elem_of_singleton in Hp. congruence. }
  destruct Hs1 as (s1 & -> & Hh1 & Hst1). rewrite bind_ok.
  pose proof (th_inv _ _ _ Hh1) as Hi1. pose proof (retransmit_all_pdus_spec cfg Hb Hsrb Hhard sdus s1 mem Hi1) as Hsp.
  rewrite Ham, andb_true_r in Hsp. destruct (has_discard_timer cfg) eqn:Ht; [|left; by exists s1].
  destruct (retransmit_all_pdus cfg s1 mem) as [s'|f].
  - left. exists s'. split; [done|]. destruct Hsp as (evs & -> & Hre). by eapply (tx_hist_retransmitted engine sdus s1).
  - destruct Hsp as (k & i & Hk & Hki & Hp). pose proof (txi_order _ _ _ Hi1). pose proof (txi_max _ _ _ Hi1). right.
    destruct (txi_keys _ _ _ Hi1 k i Hki) as (_ & _ & _ & Hsdu). specialize (Hsdu Ham).
    assert (Hsend : sdu_sendable (tx_sdu i)) by (eapply Forall_lookup_1; [apply (th_sdus _ _ _ Hh1)|done]).
    rewrite (th_engine _ _ _ Hh1) in Hp.
    destruct (protect_total_or_error engine (mac_ok (mem k)) k (tx_sdu i) Hr ltac:(lia) Hsend) as [[r Er]|(e & err & -> & Er & Ef)].
    + rewrite Er in Hp. done.
    + rewrite Ef in Hp. injection Hp as <-. exists e, k, (tx_sdu i), err. rewrite <- Hst1. by split_and!; [|lia|lia|..].
Qed.

Lemma tx_progress_any engine sdus s a :
  (forall e, engine = Some e -> ready e) -> tx_hist engine sdus s -> tx_allowed a s -> tx_progress engine sdus s a.
Proof using HL Hb Hsrb Hhard.
  intros Hr Hh Ha. pose proof (th_inv _ _ _ Hh) as Hi. destruct a as [mem sdu|sn|sn|count|buffer_ok buf|mem report].
  - by apply progress_sdu.
  - left. destruct (handle_transmit_notification_spec cfg Hhard Hb sdus s sn Hi Ha) as (s' & E1 & Hi' & Hk & _).
    exists s'. split; [done|]. by eapply kept_hist.
  - left. destruct (handle_delivery_notification_spec cfg Hhard Hb sdus s sn Hi Ha) as (s' & E1 & Hi' & Hk & _).
    exists s'. split; [done|]. by eapply kept_hist.
  - by apply progress_expiry.
  - by apply progress_report.
  - by apply progress_recovery.
Qed.

Lemma tx_run_hist s0 sdus s : tx_fresh s0 -> tx_run s0 sdus s -> tx_hist (tx_sec_engine s0) sdus s.
Proof using HL Hb Hsrb Hhard.
  intros Hf. induction 1 as [|sdus s a s' _ IH Ha Hs']; [by apply fresh_tx_hist|].
  pose proof Hf as (_ & _ & _ & He).
  destruct (tx_progress_any (tx_sec_engine s0) sdus s a He IH Ha) as [(s1 & E1 & Hh)|(e & c & sdu & err & _ & _ & _ & E1)]; [|congruence].
  rewrite Hs' in E1. injection E1 as <-. exact Hh.
Qed.

(** ** Properties *)

(** C15: no COUNT is used twice under one key. After any history the SDUs that were accepted carry the
    COUNTs 0, 1, 2, ... in the order of their arrival, all below the hard limit: the n-th data PDU sent for the first
    time is the protection of the n-th SDU under COUNT n; and a PDU that is sent again, by a data
    recovery, is octet for octet one of those. *)
Theorem pdcp_tx_count_unique s0 sdus s :
  tx_fresh s0 -> tx_run s0 sdus s ->
  next s = zlen sdus /\ next s <= Z.max 0 (tx_max_count_hard cfg) /\
  length (new_pdus (tx_out s)) = length sdus /\
  (forall c pdu, new_pdus (tx_out s) !! c = Some pdu ->
     exists sdu, sdus !! c = Some sdu /\ protect (tx_sec_engine s0) true (Z.of_nat c) sdu = ok (Some pdu)) /\
  (forall pdu, (pdu, true) ∈ pdus_of (tx_out s) -> pdu ∈ new_pdus (tx_out s)).
Proof using HL Hb Hsrb Hhard.
  intros Hf Hr. destruct (tx_run_hist s0 sdus s Hf Hr) as [[I1 I2 I3 I4 I5 I6 I7] H2 H3 H4 H5 H6]. by split_and!.
Qed.

(** C27: after any history of such actions, every action that the lower and upper layers may take ([tx_allowed]) - an SDU of 1 to 9000
    octets ([sdu_sendable]), a notification for whatever SN, the expiry of a running discard timer, any octets as a status report, a
    data recovery of an AM DRB - is carried out without a failed assertion, an access out of bounds or an endless loop,
    however the buffer pool behaves. The one exception among these: when the security engine
    reports an error for an SDU, the exception of [value()] is thrown and nothing catches it. Empty SDUs, which make the code access memory
    out of bounds ([empty_sdu_out_of_bounds]), and SDUs of more than 9000 octets are excluded. *)
Theorem pdcp_tx_never_fails s0 sdus s a :
  tx_fresh s0 -> tx_run s0 sdus s -> tx_allowed a s ->
  (exists s', tx_step a s = ok s') \/
  (exists e c sdu err, tx_sec_engine s0 = Some e /\ 0 <= c <= next s /\
     encrypt_and_protect_integrity e (data_header b (SN b c) ++ sdu) (hdr_len_bytes b) c = ok (inl err) /\
     tx_step a s = fail uncaught_exception).
Proof using HL Hb Hsrb Hhard.
  intros Hf Hr Ha. pose proof Hf as (_ & _ & _ & He).
  destruct (tx_progress_any (tx_sec_engine s0) sdus s a He (tx_run_hist s0 sdus s Hf Hr) Ha) as [(s' & E1 & _)|H]; [left; by exists s'|by right].
Qed.

(** After any history TX_NEXT_ACK <= TX_TRANS <= TX_NEXT, TX_TRANS at most one and TX_NEXT at most two windows
    above TX_NEXT_ACK; an element of the transmit window belongs to a COUNT in between, has the timer of the
    configuration and, on an AM bearer, holds the very SDU that was sent under that COUNT. *)
Theorem pdcp_tx_window_sound s0 sdus s :
  tx_fresh s0 -> tx_run s0 sdus s ->
  0 <= ack s <= trans s /\ trans s <= next s /\
  (has_discard_timer cfg = true -> trans s <= ack s + W /\ next s <= ack s + 2 * W) /\
  forall k i, stored s k = Some i ->
    ack s <= k < next s /\ tx_sdu_count i = k /\ tx_discard_timer i = new_timer cfg /\
    (is_am b = true -> sdus !! Z.to_nat k = Some (tx_sdu i)).
Proof using HL Hb Hsrb Hhard.
  intros Hf Hr. destruct (th_inv _ _ _ (tx_run_hist s0 sdus s Hf Hr)) as [I1 I2 I3 I4 I5 I6 I7].
  split; [lia|]. split; [lia|]. split; [|exact I6]. intros Ht. by rewrite Ht in I5.
Qed.

(** The expiry of a discard timer takes exactly the element of its COUNT out of the window and tells the lower layer its
    SN, nothing else is discarded or sent; TX_NEXT_ACK is then the oldest COUNT left in the window, or TX_NEXT, and
    TX_TRANS is not below it. *)
Theorem pdcp_tx_discard_expiry s0 sdus s c i :
  tx_fresh s0 -> tx_run s0 sdus s -> stored s c = Some i -> tx_discard_timer i = Some timer_running ->
  exists s', handle_discard_expire cfg s c = ok s' /\
    (forall k, stored s' k = if decide (k = c) then None else stored s k) /\
    discards_of (tx_out s') = discards_of (tx_out s) ++ [SN b c] /\ pdus_of (tx_out s') = pdus_of (tx_out s) /\
    next s' = next s /\ trans s' = Z.max (trans s) (ack s') /\
    (ack s' = next s \/ is_Some (stored s' (ack s'))) /\ (forall k, ack s <= k < ack s' -> stored s' k = None).
Proof using HL Hb Hsrb Hhard.
  intros Hf Hr Hc _. pose proof (th_inv _ _ _ (tx_run_hist s0 sdus s Hf Hr)) as Hi.
  rewrite (handle_discard_expire_discard sdus s c i) by done.
  assert (Hq : same_but_out s (tx_emit s txev_discard_timeout)) by (by apply emit_quiet).
  pose proof (discard_pdu_spec cfg Hhard sdus _ c (same_but_out_inv cfg sdus _ _ Hq Hi)) as Hd. cbn [tx_window tx_emit] in Hd. rewrite Hc in Hd.
  destruct Hd as (a & w & Ed & _ & _ & Hget & Hgap & Htop). eexists. split; [exact Ed|]. cbn -[wget].
  rewrite !discards_of_app, !pdus_of_app, !app_nil_r. by split_and!.
Qed.

(** The notification that the lower layer delivered the PDU of COUNT [c], given as an SN, less than a window above
    TX_NEXT_ACK: on an AM bearer with a discard timer the elements up to [c] leave the window with their timers, and TX_NEXT_ACK is
    [c + 1]. A notification of transmission on a UM bearer does the same and sets TX_TRANS; on an AM bearer it only sets TX_TRANS. *)
Theorem pdcp_tx_notifications s0 sdus s c :
  tx_fresh s0 -> tx_run s0 sdus s -> has_discard_timer cfg = true -> ack s <= c < next s -> c < ack s + W ->
  (is_am b = true ->
   exists s', handle_delivery_notification cfg s (SN b c) = ok s' /\ ack s' = c + 1 /\ trans s' = Z.max (trans s) (c + 1) /\
     forall k, stored s' k = if decide (k <= c) then None else stored s k) /\
  (trans s <= c ->
   exists s', handle_transmit_notification cfg s (SN b c) = ok s' /\ trans s' = c + 1 /\
     (if is_um b then ack s' = c + 1 /\ forall k, stored s' k = if decide (k <= c) then None else stored s k
      else ack s' = ack s /\ tx_window s' = tx_window s)).
Proof using HL Hb Hsrb Hhard.
  intros Hf Hr Ht Hc Hw. pose proof (th_inv _ _ _ (tx_run_hist s0 sdus s Hf Hr)) as Hi.
  pose proof (txi_order _ _ _ Hi). pose proof (txi_max _ _ _ Hi). pose proof (SN_range b Hb c) as Hsn.
  assert (Hest : notification_count_estimation cfg s (SN b c) = c).
  { unfold notification_count_estimation. rewrite Ht. apply count_estimation_exact; [done|lia..]. }
  split.
  - intros Ham. destruct (handle_delivery_notification_spec cfg Hhard Hb sdus s (SN b c) Hi) as (s' & E1 & _ & _ & Hs'); [lia|].
    cbv zeta in Hs'. rewrite Hest, Ht, Ham in Hs'. rewrite (proj2 (Z.ltb_lt _ _)), (proj2 (Z.leb_le _ _)), (proj2 (Z.ltb_lt c _)) in Hs' by lia.
    destruct Hs' as (H1 & H2 & H3). by exists s'.
  - intros Htr. destruct (handle_transmit_notification_spec cfg Hhard Hb sdus s (SN b c) Hi) as (s' & E1 & _ & _ & Hs'); [lia|].
    cbv zeta in Hs'. rewrite Hest, Ht in Hs'. rewrite (proj2 (Z.ltb_lt _ _)), (proj2 (Z.leb_le _ _)), (proj2 (Z.ltb_lt c _)) in Hs' by lia.
    destruct Hs' as (H1 & H2). exists s'. split; [done|]. split; [done|]. by destruct (is_um b).
Qed.

(** With memory and an engine that works, a data recovery on an AM bearer sends again, in the ascending order of their COUNTs, the
    PDUs of exactly the SDUs that the window still holds, protected under their old COUNTs; TX_NEXT and the window stay, and
    TX_TRANS goes back to TX_NEXT_ACK. *)
Theorem pdcp_tx_recovery_complete s0 sdus s mem report :
  tx_fresh s0 -> tx_run s0 sdus s -> tx_allowed (act_data_recovery mem report) s -> has_discard_timer cfg = true ->
  status_report_required cfg = false ->
  (forall k, copy_ok (mem k) && reserve_ok (mem k) && mac_ok (mem k) = true) ->
  (forall k sdu, protect (tx_sec_engine s0) true k sdu <> fail uncaught_exception) ->
  exists s' pdus, data_recovery cfg s mem (ok report) = ok s' /\
    next s' = next s /\ ack s' = ack s /\ trans s' = ack s /\ tx_window s' = tx_window s /\
    pdus_of (tx_out s') = pdus_of (tx_out s) ++ ((fun pdu => (pdu, true)) <$> pdus) /\
    Forall2 (fun k pdu => exists sdu, sdus !! Z.to_nat k = Some sdu /\ protect (tx_sec_engine s0) true k sdu = ok (Some pdu))
      (filter (fun k => is_Some (stored s k)) (seqZ (ack s) (next s - ack s))) pdus.
Proof using HL Hb Hsrb Hhard.
  intros Hf Hr [Hbearer _] Ht Hsr Hmem Hgood. pose proof (tx_run_hist s0 sdus s Hf Hr) as Hh. pose proof (th_inv _ _ _ Hh) as Hi.
  pose proof Hf as (_ & _ & _ & He). unfold data_recovery. rewrite srsran_assert_ok, bind_ok, Hsr, bind_ok by done.
  apply andb_prop in Hbearer as [_ Ham]. pose proof (txi_order _ _ _ Hi). pose proof (txi_max _ _ _ Hi).
  pose proof (retransmit_all_pdus_spec cfg Hb Hsrb Hhard sdus s mem Hi) as Hsp. rewrite Ham, Ht in Hsp. simpl in Hsp.
  assert (Hmac : forall k, mac_ok (mem k) = true) by (intros k; specialize (Hmem k); by apply andb_prop in Hmem as [_ ?]).
  rewrite <- (th_engine _ _ _ Hh) in *.
  destruct (retransmit_all_pdus cfg s mem) as [s'|f].
  - destruct Hsp as (evs & -> & ks & rest & pdus & R1 & R2 & R3 & R4 & R5 & R6). rewrite (R6 Hmem), app_nil_r in R1.
    exists (tx_emits (rewound s) evs), pdus. split; [done|]. cbn -[wget]. do 4 (split; [done|]). split; [by rewrite pdus_of_app, R3|].
    unfold stored_counts in R1. cbn -[wget] in R1. rewrite R1. eapply Forall2_impl; [exact R2|]. intros k pdu (i & Hk & Hp). rewrite Hmac in Hp. exists (tx_sdu i).
    destruct (txi_keys _ _ _ Hi k i Hk) as (_ & _ & _ & Hsdu). by split; [apply Hsdu|].
  - destruct Hsp as (k & i & Hk & Hki & Hp). exfalso. rewrite Hmac in Hp.
    destruct (txi_keys _ _ _ Hi k i Hki) as (_ & _ & _ & Hsdu). specialize (Hsdu Ham).
    assert (Hsend : sdu_sendable (tx_sdu i)) by (eapply Forall_lookup_1; [apply (th_sdus _ _ _ Hh)|done]).
    destruct (protect_total_or_error (tx_sec_engine s) true k (tx_sdu i) He ltac:(lia) Hsend) as [[r Er]|(e & err & _ & _ & Ef)].
    + congruence.
    + by apply Hgood in Ef.
Qed.
End props.
