(* ===== verification/PdcpTransfer.v ===== *)
(** * From one PDCP entity to its peer

    The transmitting and the receiving entity together, over the interface of the security engine: data PDUs that
    a transmitting entity has sent reach its peer in any order, some repeatedly, some not at all, mixed with PDUs of
    others ([channel_run]); and the status report that the receiving entity compiles is processed by
    the transmitting entity. *)

From stdpp Require Import sorting.
From S2P Require Import Prelude SduWindow BitEncoding BitStream PdcpSnUtil PdcpBase Security PdcpRx PdcpRxInv PdcpRxProps PdcpTx PdcpTxInv PdcpRxReport PdcpTxSend PdcpTxProps.

Section transfer.
Context {E : Type} `{!SecurityEngine E} (cfgt : pdcp_tx_config) (cfgr : pdcp_rx_config) (ready : E -> Prop) {HL : SecurityEngineLaws E ready}.
Local Abbreviation b := (tx_base cfgt).
Local Abbreviation W := (window_size (tx_base cfgt)).

(** Both ends have the same bearer configuration. *)
Context (Hpeer : rx_base cfgr = tx_base cfgt).
Context (Hb : base_ok b) (Hsrb : is_srb b = true -> sn_size b = pdcp_sn_12bits).
Context (Hthard : tx_max_count_hard cfgt < 2 ^ 32) (Hrhard : rx_max_count_hard cfgr < 2 ^ 32).

Lemma peer_base_ok : base_ok (rx_base cfgr).
Proof using Hpeer Hb. by rewrite Hpeer. Qed.

Lemma peer_hdr_size : rx_hdr_size cfgr = hdr_len_bytes b.
Proof using Hpeer Hb. rewrite hdr_size_len by apply peer_base_ok. by rewrite Hpeer. Qed.

(** ** Data *)

(** What the transmitter protects carries the SDU for a receiver with the same engine. *)
Lemma protected_carries engine c sdu pdu :
  (forall e, engine = Some e -> ready e) -> 0 <= c < 2 ^ 32 -> sdu_sendable sdu ->
  tx_protect cfgt engine true c sdu = ok (Some pdu) -> carries cfgr engine pdu c sdu.
Proof using HL Hpeer Hb.
  intros Hr Hc Hs Hp. pose proof (SN_range b Hb c) as Hsn.
  destruct (protect_header cfgt ready Hb engine true c sdu pdu Hr Hc Hs Hp) as (rest & Epdu & Hrest). split; rewrite ?Hpeer.
  - rewrite Epdu, length_app, Nat2Z.inj_add, data_header_length by done. assert (0 < zlen rest) by (destruct rest; [done|simpl; lia]). lia.
  - rewrite Epdu. by apply read_data_pdu_header_written.
  - rewrite Epdu. destruct (data_header_dc b Hb (SN b c) rest Hsn) as (b0 & r & -> & Hd). exists b0, r. split; [done|].
    revert Hd. unfold is_srb, is_drb. clear Hsrb. destruct (rb_type b); [by left|by right].
  - exists (data_header b (SN b c)). rewrite peer_hdr_size. split; [by apply data_header_length|].
    unfold tx_protect in Hp. unfold opened. rewrite peer_hdr_size, Hpeer. destruct engine as [e|].
    + destruct (protect_input cfgt Hb c sdu Hc Hs) as (Hbuf & Hoff & Hlen). apply bind_ok_inv in Hp as (r & Er & Hp).
      destruct r as [err|p]; [done|]. injection Hp as ->.
      by destruct (protect_recovered e _ _ c pdu (Hr e eq_refl) Hbuf Hoff Hlen Hc Er) as (_ & _ & _ & Hdec).
    + revert Hp. case (is_srb b); intros [= <-]; [|done]. set (buf := data_header b (SN b c) ++ sdu).
      assert (Hl : 0 < zlen buf).
      { subst buf. rewrite length_app, Nat2Z.inj_add. destruct Hs as (_ & Hne & _). destruct sdu; [done|simpl; lia]. }
      rewrite length_app. unfold sec_mac_len. simpl length. rewrite (proj2 (Z.leb_gt _ _)) by lia.
      replace (Z.to_nat (Z.of_nat (length buf + 4) - 4)) with (length buf) by lia. by rewrite take_app_length.
Qed.

(** [sent]: the data PDUs that the transmitting entity has sent, by COUNT. *)
Inductive channel_run (sent : list bytes) (r0 : pdcp_entity_rx E) : list Z -> pdcp_entity_rx E -> Prop :=
| ch_start : channel_run sent r0 [] r0
| ch_pdu got r c pdu r' :
    channel_run sent r0 got r -> sent !! c = Some pdu -> in_window cfgr r (Z.of_nat c) ->
    Z.of_nat c < rx_max_count_hard cfgr -> pdcp_handle_pdu cfgr r true pdu = ok r' ->
    channel_run sent r0 (if Z.of_nat c <? rx_deliv (rx_st r) then got else Z.of_nat c :: got) r'
| ch_other got r pdu copy_ok r' :
    channel_run sent r0 got r -> foreign cfgr (rx_sec_engine r) pdu \/ copy_ok = false ->
    pdcp_handle_pdu cfgr r copy_ok pdu = ok r' -> channel_run sent r0 got r'
| ch_expiry got r r' :
    channel_run sent r0 got r -> is_running (reordering_timer r) = true -> reordering_callback cfgr r = ok r' ->
    channel_run sent r0 got r'.

(** The SDU with a COUNT. *)
Definition sdu_of (sdus : list bytes) (c : Z) : bytes := nth (Z.to_nat c) sdus [].

Lemma channel_run_rx sent engine sdus r0 got r :
  (forall c pdu, sent !! c = Some pdu ->
     exists sdu, sdus !! c = Some sdu /\ sdu_sendable sdu /\ tx_protect cfgt engine true (Z.of_nat c) sdu = ok (Some pdu)) ->
  rx_fresh ready r0 -> rx_sec_engine r0 = engine -> channel_run sent r0 got r ->
  rx_run cfgr (sdu_of sdus) r0 got r /\ forall c, c ∈ got -> 0 <= c < zlen sent.
Proof using HL Hpeer Hb Hrhard.
  intros Hsent Hf He. induction 1 as [|got r c pdu r' _ (IH & IHg) Hc Hw Hlim Hr'|got r pdu copy_ok r' _ (IH & IHg) Hfo Hr'|
    got r r' _ (IH & IHg) Hrun Hr'].
  - split; [constructor|]. by intros c ?%elem_of_nil.
  - destruct (Hsent c pdu Hc) as (sdu & Hsdu & Hs & Hp). apply lookup_lt_Some in Hc as Hlt. split.
    + eapply run_pdu; [done| |done|lia|done]. unfold sdu_of. rewrite Nat2Z.id, (nth_lookup_Some _ _ _ _ Hsdu).
      destruct (rx_run_hist cfgr ready peer_base_ok Hrhard (sdu_of sdus) r0 got r Hf IH) as (counts & _ & ->). rewrite He.
      apply protected_carries; [|lia|done|done]. rewrite <- He. apply Hf.
    + destruct (Z.of_nat c <? rx_deliv (rx_st r)); [done|]. intros k [->|Hk]%elem_of_cons; [lia|by apply IHg].
  - split; [by eapply run_other|done].
  - split; [by eapply run_expiry|done].
Qed.

(** C1: end to end. A transmitting entity, after any history of its own, and a receiving entity with the
    engine of the same configuration: whatever part of the PDUs sent arrives, in whatever order and however often, mixed
    with whatever other PDUs the security check refuses, and whenever t-Reordering expires, the upper layer of the
    receiver gets SDUs that the upper layer of the transmitter has sent, unchanged, each at most once and in the order in
    which they were sent; and without t-Reordering, once the first [n] have arrived, it has
    got the first [n] SDUs, or more, without a gap. *)
Theorem pdcp_end_to_end s0 sdus s r0 got r :
  tx_fresh ready s0 -> tx_run cfgt s0 sdus s ->
  rx_fresh ready r0 -> rx_sec_engine r0 = tx_sec_engine s0 ->
  channel_run (new_pdus cfgt (tx_out s)) r0 got r ->
  (exists counts, StronglySorted Z.lt counts /\ Forall (fun c => 0 <= c < zlen sdus) counts /\
     sdus_of (rx_out r) = sdu_of sdus <$> counts) /\
  (forall n, t_reordering cfgr = t_reordering_infinity -> (forall c, 0 <= c < Z.of_nat n -> c ∈ got) ->
     exists m, (n <= m)%nat /\ sdus_of (rx_out r) = take m sdus).
Proof using HL Hpeer Hb Hsrb Hthard Hrhard.
  intros Hft Hrt Hfr He Hch. destruct (tx_run_hist cfgt ready Hb Hsrb Hthard s0 sdus s Hft Hrt) as [T1 T2 T3 T4 T5 T6].
  destruct (channel_run_rx (new_pdus cfgt (tx_out s)) (tx_sec_engine s0) sdus r0 got r) as [Hrun Hgot]; [|done|done|done|].
  { intros c pdu Hc. destruct (T5 c pdu Hc) as (sdu & Hsdu & Hp). exists sdu. split; [done|]. split; [|done].
    by eapply Forall_lookup_1. }
  destruct (rx_run_hist cfgr ready peer_base_ok Hrhard (sdu_of sdus) r0 got r Hfr Hrun) as (counts & [H1 H2 H3 H4 H5 H6 H7] & _).
  assert (Hc : Forall (fun c => 0 <= c < zlen sdus) counts).
  { apply Forall_forall. intros c Hin. rewrite <- T4. apply Hgot, H5. by left. }
  split; [by exists counts|]. intros n Hinf Hn.
  set (d := rx_deliv (rx_st r)) in *. pose proof (rxc_order _ _ (rxi_core _ _ _ H1)) as Hd. fold d in Hd.
  specialize (H7 Hinf). exists (Z.to_nat d). split.
  - destruct (decide (Z.of_nat n <= d)); [lia|]. destruct (proj1 (H5 d)) as [Hin|[i Hi]]; [apply Hn; lia| |].
    + apply H4 in Hin. lia.
    + pose proof (rxi_gap _ _ _ H1) as Hg. fold d in Hg. congruence.
  - assert (Hdl : (Z.to_nat d <= length sdus)%nat).
    { destruct (decide (d = 0)) as [->|]; [simpl; lia|]. rewrite Forall_forall in Hc. specialize (Hc (d - 1)).
      rewrite H7, elem_of_seqZ in Hc. lia. }
    rewrite H3, H7. apply list_eq. intros j. rewrite list_lookup_fmap.
    destruct (decide (j < Z.to_nat d)%nat) as [Hj|].
    + rewrite lookup_seqZ_lt, lookup_take_lt by lia. simpl. unfold sdu_of.
      replace (Z.to_nat (0 + Z.of_nat j)) with j by lia. destruct (lookup_lt_is_Some_2 sdus j) as [x Hx]; [lia|].
      by rewrite (nth_lookup_Some _ _ _ _ Hx).
    + rewrite lookup_seqZ_ge, lookup_take_ge by lia. done.
Qed.

(** ** Status reports *)
Context (append_ok : bytes -> bool) (Hmem : forall l, append_ok l = true).

(** The receiver has got the SDU of [k], or will not wait for it any more, and its report says so. *)
Definition reported (r : pdcp_entity_rx E) (k : Z) : Prop :=
  k < rx_deliv (rx_st r) \/
  (rx_deliv (rx_st r) < k <= rx_deliv (rx_st r) + report_bits r /\ is_Some (wget W (rx_window r) k)).

#[global] Instance reported_dec r k : Decision (reported r k).
Proof using Type. unfold reported. apply _. Defined.

(** The bits that are set in the bitmap: the COUNTs behind RX_DELIV that the window holds, as far as the bitmap reaches. *)
Lemma report_bitmap_counts (r : pdcp_entity_rx E) bitmap pad :
  0 <= rx_deliv (rx_st r) -> rx_deliv (rx_st r) + report_bits r + Z.of_nat pad < 2 ^ 32 -> 0 <= report_bits r ->
  bits_of bitmap = (has_sn (window_size (rx_base cfgr)) (rx_window r) <$> seqZ (rx_deliv (rx_st r) + 1) (report_bits r)) ++ replicate pad false ->
  forall k, k ∈ set_counts (bits_of bitmap) (rx_deliv (rx_st r)) <->
    rx_deliv (rx_st r) < k <= rx_deliv (rx_st r) + report_bits r /\ is_Some (wget W (rx_window r) k).
Proof using Hpeer.
  set (d := rx_deliv (rx_st r)). intros Hd Hmax Hn Hbits k.
  assert (Hlen : zlen (bits_of bitmap) = report_bits r + Z.of_nat pad).
  { rewrite Hbits, length_app, length_fmap, length_seqZ, length_replicate. lia. }
  rewrite elem_of_set_counts by lia. rewrite Hlen, Hbits. split.
  - intros [Hk Hb1]. destruct (decide (k - d - 1 < report_bits r)) as [Hlt|].
    + rewrite lookup_app_l, list_lookup_fmap, lookup_seqZ_lt in Hb1 by (rewrite ?length_fmap, ?length_seqZ; lia). simpl in Hb1.
      injection Hb1 as Hb1. split; [lia|]. rewrite has_sn_wget in Hb1. apply bool_decide_eq_true in Hb1. rewrite Hpeer in Hb1.
      by replace (d + 1 + Z.of_nat (Z.to_nat (k - d - 1))) with k in Hb1 by lia.
    + rewrite lookup_app_r in Hb1 by (rewrite length_fmap, length_seqZ; lia). apply lookup_replicate in Hb1 as [? _]. done.
  - intros [Hk Hs]. split; [lia|]. rewrite lookup_app_l, list_lookup_fmap, lookup_seqZ_lt by (rewrite ?length_fmap, ?length_seqZ; lia).
    simpl. f_equal. rewrite has_sn_wget. apply bool_decide_eq_true. rewrite Hpeer.
    by replace (d + 1 + Z.of_nat (Z.to_nat (k - d - 1))) with k by lia.
Qed.

(** With 12-bit SNs the bitmap reaches over the whole window. *)
Lemma report_covers_window (r : pdcp_entity_rx E) :
  rx_inv cfgr ready r -> sn_size b = pdcp_sn_12bits ->
  forall k, reported r k <-> k < rx_deliv (rx_st r) \/ is_Some (wget W (rx_window r) k).
Proof using Hpeer Hb.
  intros Hir E12 k. pose proof (rxi_core _ _ _ Hir) as Hc. unfold reported. set (d := rx_deliv (rx_st r)).
  split; [intros [|[]]; auto|]. intros [|Hk]; [by left|].
  destruct Hk as [i Hk]. assert (Hk' : wget (window_size (rx_base cfgr)) (rx_window r) k = Some i) by (by rewrite Hpeer).
  destruct (rxc_keys _ _ Hc k i Hk') as [Hr _]. fold d in Hr. pose proof (rxc_width _ _ Hc) as Hw. fold d in Hw.
  pose proof (rxi_gap _ _ _ Hir) as Hg. fold d in Hg. assert (k <> d) by congruence.
  right. split; [|by exists i]. unfold report_bits, pdcp_control_pdu_max_size. fold d.
  assert (HW : window_size (rx_base cfgr) = 2048) by (rewrite Hpeer; base_cases (tx_base cfgt) Hb; congruence). lia.
Qed.

(** C18: a status report does what it is for. The report that a receiving entity compiles in any state of its invariant makes the
    transmitting entity discard, from its window and in the lower layer, exactly the SDUs that the receiver has
    received or passed, as far as the bitmap reaches; with 12-bit SNs it reaches over the whole window. *)
Theorem pdcp_status_report_exact sdus (s : pdcp_entity_tx E) (r : pdcp_entity_rx E) :
  tx_inv cfgt sdus s -> rx_inv cfgr ready r -> rx_next (rx_st r) + 8 < 2 ^ 32 ->
  exists report s', compile_status_report cfgr append_ok r = ok report /\ handle_status_report cfgt s true report = ok s' /\
    tx_inv cfgt sdus s' /\
    (forall k, wget W (tx_window s') k = if decide (reported r k) then None else wget W (tx_window s) k) /\
    (exists cs, NoDup cs /\ (forall k, k ∈ cs <-> reported r k /\ is_Some (wget W (tx_window s) k)) /\
       discards_of (tx_out s') = discards_of (tx_out s) ++ (SN b <$> cs)) /\
    (sn_size b = pdcp_sn_12bits -> forall k, reported r k <-> k < rx_deliv (rx_st r) \/ is_Some (wget W (rx_window r) k)).
Proof using Hpeer Hb Hthard Hmem.
  intros Hi Hir Hmax. pose proof (rxi_core _ _ _ Hir) as Hc. pose proof (rxc_order _ _ Hc) as Hro. set (d := rx_deliv (rx_st r)) in *.
  destruct (compile_status_report_exact cfgr append_ok Hmem peer_base_ok r Hc) as (bitmap & pad & Erep & Hbm & Hpad & Hbits); [lia|].
  fold d in Erep, Hbits.
  assert (Hn : 0 <= report_bits r <= Z.max 0 (rx_next (rx_st r) - d - 1)) by (unfold report_bits, pdcp_control_pdu_max_size; fold d; lia).
  pose proof (txi_order _ _ _ Hi) as Hto.
  destruct (discard_list_spec cfgt Hthard sdus s (seqZ (tx_next_ack (tx_st s)) (d - tx_next_ack (tx_st s))) Hi (NoDup_seqZ _ _))
    as (s1 & E1 & Hi1 & _ & Hget1 & Hd1).
  assert (Hlen : zlen (bits_of bitmap) = report_bits r + Z.of_nat pad).
  { rewrite Hbits, length_app, length_fmap, length_seqZ, length_replicate. lia. }
  assert (Hwrap : d + zlen (bits_of bitmap) < 2 ^ 32) by lia.
  destruct (discard_list_spec cfgt Hthard sdus s1 (set_counts (bits_of bitmap) d) Hi1 (set_counts_NoDup _ _ (proj1 Hro) Hwrap))
    as (s2 & E2 & Hi2 & _ & Hget2 & Hd2).
  assert (Hin := report_bitmap_counts r bitmap pad ltac:(fold d; lia) ltac:(fold d; lia) (proj1 Hn) Hbits). fold d in Hin.
  exists (status_report d bitmap), s2. split; [done|]. split.
  { rewrite handle_status_report_exact by (done || lia). by rewrite E1, bind_ok. }
  split; [done|].
  assert (Hstored : forall k, is_Some (wget W (tx_window s) k) -> tx_next_ack (tx_st s) <= k).
  { intros k [i Hk]. apply (txi_keys _ _ _ Hi) in Hk. lia. }
  assert (Hget : forall k, wget W (tx_window s2) k = if decide (reported r k) then None else wget W (tx_window s) k).
  { intros k. rewrite Hget2, Hget1. unfold reported. fold d. destruct (wget W (tx_window s) k) as [i|] eqn:Hk; [|by repeat case_decide].
    specialize (Hstored k ltac:(rewrite Hk; by eexists)).
    destruct (decide (k ∈ set_counts (bits_of bitmap) d)) as [Hs|Hs]; rewrite Hin in Hs.
    - by rewrite decide_True by (by right).
    - destruct (decide (k ∈ seqZ _ _)) as [Hq|Hq]; rewrite elem_of_seqZ in Hq.
      + by rewrite decide_True by (left; lia).
      + rewrite decide_False; [done|]. intros [?|?]; [lia|done]. }
  split; [done|]. split.
  - exists (filter (fun c => is_Some (wget W (tx_window s) c)) (seqZ (tx_next_ack (tx_st s)) (d - tx_next_ack (tx_st s))) ++
            filter (fun c => is_Some (wget W (tx_window s1) c)) (set_counts (bits_of bitmap) d)). split; [|split].
    + apply NoDup_app. split; [apply NoDup_filter, NoDup_seqZ|]. split; [|apply NoDup_filter, set_counts_NoDup; lia].
      intros k [_ Hk%elem_of_seqZ]%list_elem_of_filter [_ [Hk2 _]%Hin]%list_elem_of_filter. lia.
    + intros k. rewrite elem_of_app, !list_elem_of_filter, elem_of_seqZ, Hin, Hget1. unfold reported. fold d. split.
      * intros [[Hs Hk]|[Hs Hk]]; [split; [left; lia|done]|]. case_decide; [by destruct Hs|]. by split; [right|].
      * intros [[Hk|Hk] Hs]; [left; split; [done|]; specialize (Hstored k Hs); lia|right]. split; [|done].
        rewrite decide_False; [done|]. rewrite elem_of_seqZ. lia.
    + rewrite Hd2, Hd1, <- app_assoc, <- fmap_app. done.
  - by apply report_covers_window.
Qed.
End transfer.
