(* ===== verification/PdcpExamples.v ===== *)
(** * Concrete runs of the receiving PDCP entity

    The theorems of [PdcpRxProps.v], applied to a UM DRB with a 12-bit SN whose PDUs the engine of the
    repository protects (NIA2 and NEA2 on the sample library of [SecurityProps.v]). *)

From S2P Require Import Prelude SduWindow BitEncoding PdcpSnUtil BitStream Security SecAlgorithms SecurityEngine SecurityProps PdcpBase PdcpRx PdcpRxInv PdcpRxProps PdcpTx PdcpTxInv PdcpRxReport PdcpTxSend PdcpTxProps PdcpTransfer.

Definition sample_base : pdcp_base := mk_pdcp_base 2 rb_drb mode_um 2 2048 pdcp_sn_12bits.

Lemma sample_base_ok : base_ok sample_base.
Proof. by exists (drb_id 3). Qed.

#[local] Instance sample_engine_instance : SecurityEngine security_engine := engine_instance (fun _ => true).

(** [t]: t-Reordering. *)
Definition sample_rx_cfg (t : Z) : pdcp_rx_config := mk_pdcp_rx_config sample_base dir_uplink t 1000 2000.

Definition sample_engine : security_engine :=
  mk_engine (Some (ciphering_engine_nea2 sample_key 2 dir_uplink)) (Some (integrity_engine_nia2_non_cmac sample_key 2 dir_uplink)).

Lemma sample_engine_made :
  security_engine_impl (sample_sec_cfg nia2 nea2) 2 dir_uplink true true = ok sample_engine.
Proof. reflexivity. Qed.

Definition sample_rx : pdcp_entity_rx security_engine :=
  rx_set_security pdcp_entity_rx_ctor (Some sample_engine) true true.

Lemma sample_rx_fresh : rx_fresh (fun _ => True) sample_rx.
Proof. split_and!; done. Qed.

Lemma sample_rx_hard t : rx_max_count_hard (sample_rx_cfg t) < 2 ^ 32.
Proof. done. Qed.

(** The peer's SDUs, and their PDUs. *)
Definition sample_sdu (c : Z) : bytes := [c mod 256; 17; 42].
Definition sample_sent (c : Z) : bytes :=
  match engine_encrypt (fun _ => true) sample_engine (data_header sample_base (SN sample_base c) ++ sample_sdu c) 2 c with
  | ok (inr pdu) => pdu
  | _ => []
  end.

Lemma sample_carries t c :
  c ∈ [0; 1; 2] -> carries (sample_rx_cfg t) (Some sample_engine) (sample_sent c) c (sample_sdu c).
Proof.
  intros Hc. repeat (apply elem_of_cons in Hc as [->|Hc]; [split; [by vm_compute|by vm_compute|
    eexists _, _; split; [vm_compute; reflexivity|by right]|eexists [_; _]; split; [done|vm_compute; reflexivity]]|]).
  by apply elem_of_nil in Hc.
Qed.

(** What the entity is after an event that goes well. *)
Definition after (s : pdcp_entity_rx security_engine) (r : outcome (pdcp_entity_rx security_engine)) : pdcp_entity_rx security_engine :=
  match r with ok s' => s' | fail _ => s end.

Definition sample_pdu_event t (s : pdcp_entity_rx security_engine) c : pdcp_entity_rx security_engine :=
  after s (pdcp_handle_pdu (sample_rx_cfg t) s true (sample_sent c)).

(** SDU 1 overtakes SDU 0; a PDU without payload in between. *)
Definition sample_rx1 t := sample_pdu_event t sample_rx 1.
Definition sample_rx2 t := after (sample_rx1 t) (pdcp_handle_pdu (sample_rx_cfg t) (sample_rx1 t) true [128; 9]).
Definition sample_rx3 t := sample_pdu_event t (sample_rx2 t) 0.

Lemma sample_run1 t : t ∈ [100; -1] -> rx_run (sample_rx_cfg t) sample_sdu sample_rx [1] (sample_rx1 t).
Proof.
  intros Ht. change [1] with (if 1 <? rx_deliv (rx_st sample_rx) then [] else [1]).
  apply (run_pdu (sample_rx_cfg t) sample_sdu sample_rx [] sample_rx 1 (sample_sent 1)).
  - apply run_start.
  - apply sample_carries. right. by left.
  - by vm_compute.
  - simpl. lia.
  - repeat (apply elem_of_cons in Ht as [->|Ht]; [vm_compute; reflexivity|]). by apply elem_of_nil in Ht.
Qed.

Lemma sample_run3 t : t ∈ [100; -1] -> rx_run (sample_rx_cfg t) sample_sdu sample_rx [0; 1] (sample_rx3 t).
Proof.
  intros Ht. assert (H2 : rx_run (sample_rx_cfg t) sample_sdu sample_rx [1] (sample_rx2 t)).
  { eapply (run_other _ _ _ _ _ [128; 9] true); [by apply sample_run1|left; by apply foreign_short|].
    repeat (apply elem_of_cons in Ht as [->|Ht]; [vm_compute; reflexivity|]). by apply elem_of_nil in Ht. }
  assert (E : rx_deliv (rx_st (sample_rx2 t)) = 0 /\ rx_sec_engine (sample_rx2 t) = Some sample_engine /\
    pdcp_handle_pdu (sample_rx_cfg t) (sample_rx2 t) true (sample_sent 0) = ok (sample_rx3 t)).
  { repeat (apply elem_of_cons in Ht as [->|Ht]; [vm_compute; done|]). by apply elem_of_nil in Ht. }
  destruct E as (Ed & Ee & E3). replace [0; 1] with (if 0 <? rx_deliv (rx_st (sample_rx2 t)) then [1] else [0; 1]) by by rewrite Ed.
  apply (run_pdu _ _ _ [1] (sample_rx2 t) 0 (sample_sent 0)); [done| | |simpl; lia|done].
  - rewrite Ee. apply sample_carries. by left.
  - unfold in_window. rewrite Ed. simpl. lia.
Qed.

(** ** Witnesses *)

Lemma pdcp_rx_in_order_witness :
  exists counts, Sorted.StronglySorted Z.lt counts /\ sdus_of (rx_out (sample_rx3 100)) = sample_sdu <$> counts /\ counts <> [].
Proof.
  destruct (pdcp_rx_in_order (sample_rx_cfg 100) (fun _ => True) sample_base_ok (sample_rx_hard 100) sample_sdu sample_rx [0; 1]
    (sample_rx3 100) sample_rx_fresh) as (counts & Hs & Ho & Hg); [by apply sample_run3; left|].
  exists counts. split; [exact Hs|]. split; [exact Ho|]. intros ->. revert Ho. vm_compute. discriminate.
Defined.

Lemma pdcp_rx_lossless_witness :
  sdus_of (rx_out (sample_rx3 (-1))) = [sample_sdu 0; sample_sdu 1] /\ 2 <= rx_deliv (rx_st (sample_rx3 (-1))).
Proof.
  destruct (pdcp_rx_lossless (sample_rx_cfg (-1)) (fun _ => True) sample_base_ok (sample_rx_hard (-1)) sample_sdu sample_rx [0; 1]
    (sample_rx3 (-1)) 2 sample_rx_fresh) as [H1 H2].
  - apply sample_run3. right. by left.
  - done.
  - intros c Hc. assert (c = 0 \/ c = 1) as [-> | ->] by lia; [left|right; left].
  - split; [|exact H2]. etransitivity; [exact H1|]. vm_compute. reflexivity.
Defined.

Lemma pdcp_rx_never_fails_witness :
  exists s', pdcp_handle_pdu (sample_rx_cfg 100) (sample_rx1 100) true (sample_sent 2) = ok s'.
Proof.
  destruct (pdcp_rx_never_fails (sample_rx_cfg 100) (fun _ => True) sample_base_ok (sample_rx_hard 100) sample_sdu sample_rx [1]
    (sample_rx1 100) sample_rx_fresh) as [H _]; [by apply sample_run1; left|].
  apply (H 2).
  - replace (rx_sec_engine (sample_rx1 100)) with (Some sample_engine) by by vm_compute.
    apply sample_carries. do 2 right. by left.
  - by vm_compute.
  - simpl. lia.
Defined.

Lemma pdcp_rx_gap_expires_witness :
  rx_deliv (rx_st (sample_rx1 100)) = 0 /\
  exists s1, reordering_callback (sample_rx_cfg 100) (sample_rx1 100) = ok s1 /\ sdus_of (rx_out s1) = [sample_sdu 1].
Proof.
  destruct (pdcp_rx_gap_expires (sample_rx_cfg 100) (fun _ => True) sample_base_ok (sample_rx_hard 100) sample_sdu sample_rx [1]
    (sample_rx1 100) sample_rx_fresh) as (_ & s1 & E & _ & H & _).
  - apply sample_run1. by left.
  - done.
  - by vm_compute.
  - split; [by vm_compute|]. exists s1. split; [exact E|]. vm_compute in E. injection E as <-. vm_compute. reflexivity.
Defined.

(** The PDU of SDU 1 with its last octet flipped. *)
Definition sample_tampered : bytes := take 8 (sample_sent 1) ++ [Z.lxor (nth 8 (sample_sent 1) 0) 1].

Lemma pdcp_rx_rejected_pdu_witness :
  exists s', pdcp_handle_pdu (sample_rx_cfg 100) sample_rx true sample_tampered = ok s' /\
    rx_st s' = rx_st sample_rx /\
    rx_out s' = [rxev_pdu 9; rxev_integrity_failed; rxev_integrity_failure].
Proof.
  destruct (pdcp_rx_rejected_pdu (sample_rx_cfg 100) sample_rx sample_tampered sample_engine 1) as (s' & E & (Q & _) & H).
  - done.
  - by vm_compute.
  - by vm_compute.
  - by vm_compute; right.
  - by vm_compute.
  - by vm_compute.
  - exists s'. split; [exact E|]. split; [exact Q|]. apply H; by vm_compute.
Defined.

Lemma sample_inv : rx_inv (sample_rx_cfg 100) (fun _ => True) (sample_rx1 100).
Proof.
  destruct (rx_run_hist (sample_rx_cfg 100) (fun _ => True) sample_base_ok (sample_rx_hard 100) sample_sdu sample_rx [1]
    (sample_rx1 100) sample_rx_fresh) as (counts & H & _); [by apply sample_run1; left|]. apply H.
Qed.

Lemma pdcp_rx_reestablish_witness :
  exists s', rx_reestablish (sample_rx_cfg 100) (sample_rx1 100) (sample_sec_cfg nia2 nea2) = ok s' /\
    rx_st s' = pdcp_rx_state_init /\ sdus_of (rx_out s') = [sample_sdu 1].
Proof.
  destruct (pdcp_rx_reestablish (sample_rx_cfg 100) (fun _ => True) sample_base_ok (sample_rx1 100) (sample_sec_cfg nia2 nea2)
    sample_engine) as (s' & E & _ & Hst & _ & _ & Ho).
  - exact sample_inv.
  - by left.
  - done.
  - done.
  - done.
  - by vm_compute.
  - exists s'. split; [exact E|]. split; [exact Hst|]. rewrite Ho. by vm_compute.
Defined.

(** * Concrete runs of the transmitting PDCP entity and of the pair

    The theorems of [PdcpTxProps.v] and [PdcpTransfer.v], applied to an AM DRB with a 12-bit SN and a discard timer, protected by
    the engine of the repository; and runs that show what the theorems' exceptions amount to. *)

#[local] Instance am_engine_instance : SecurityEngine security_engine := engine_instance (fun _ => true).
#[local] Instance am_engine_laws : SecurityEngineLaws security_engine (fun _ => True) := security_engine_laws (fun _ => true).

Definition am_base : pdcp_base := mk_pdcp_base 2 rb_drb mode_am 2 2048 pdcp_sn_12bits.

Lemma am_base_ok : base_ok am_base.
Proof. by exists (drb_id 3). Qed.

Definition am_tx_cfg : pdcp_tx_config := mk_pdcp_tx_config am_base dir_downlink (Some 100) false 1000 2000 4096 false.
Definition am_rx_cfg : pdcp_rx_config := mk_pdcp_rx_config am_base dir_downlink t_reordering_infinity 1000 2000.

Lemma am_srb : is_srb am_base = true -> sn_size am_base = pdcp_sn_12bits.
Proof. done. Qed.
Lemma am_tx_hard : tx_max_count_hard am_tx_cfg < 2 ^ 32.
Proof. done. Qed.
Lemma am_rx_hard : rx_max_count_hard am_rx_cfg < 2 ^ 32.
Proof. done. Qed.

Definition am_engine : security_engine :=
  mk_engine (Some (ciphering_engine_nea2 sample_key 2 dir_downlink)) (Some (integrity_engine_nia2_non_cmac sample_key 2 dir_downlink)).

Definition am_tx : pdcp_entity_tx security_engine :=
  mk_pdcp_tx security_engine pdcp_tx_state_init cm_empty false false (Some am_engine) true true [].
Definition am_rx : pdcp_entity_rx security_engine :=
  rx_set_security pdcp_entity_rx_ctor (Some am_engine) true true.

Lemma am_tx_fresh : tx_fresh (fun _ => True) am_tx.
Proof. split_and!; done. Qed.
Lemma am_rx_fresh : rx_fresh (fun _ => True) am_rx.
Proof. split_and!; done. Qed.

Definition good_memory : tx_memory := mk_tx_memory true true true.

Definition tx_after (s : pdcp_entity_tx security_engine) (a : tx_action) : pdcp_entity_tx security_engine :=
  match tx_step am_tx_cfg a s with ok s' => s' | fail _ => s end.

(** Three SDUs. *)
Definition am_sdus : list bytes := [[1; 2; 3]; [4; 5]; [6]].
Definition am_tx1 := tx_after am_tx (act_sdu good_memory [1; 2; 3]).
Definition am_tx2 := tx_after am_tx1 (act_sdu good_memory [4; 5]).
Definition am_tx3 := tx_after am_tx2 (act_sdu good_memory [6]).

Lemma am_sendable : Forall sdu_sendable am_sdus.
Proof.
  repeat constructor; unfold is_byte; try lia; try done.
Qed.

Lemma tx_run_eq s0 sdus sdus' s : tx_run am_tx_cfg s0 sdus s -> sdus = sdus' -> tx_run am_tx_cfg s0 sdus' s.
Proof. by intros H <-. Qed.

Lemma am_run : tx_run am_tx_cfg am_tx am_sdus am_tx3.
Proof.
  pose proof am_sendable as Hs. apply Forall_cons in Hs as [H1 Hs]. apply Forall_cons in Hs as [H2 Hs]. apply Forall_cons in Hs as [H3 _].
  assert (R1 : tx_run am_tx_cfg am_tx [[1; 2; 3]] am_tx1).
  { eapply tx_run_eq; [apply (tx_run_step am_tx_cfg am_tx [] am_tx (act_sdu good_memory [1; 2; 3]) am_tx1); [constructor|exact H1|by vm_compute]|
      by vm_compute]. }
  assert (R2 : tx_run am_tx_cfg am_tx [[1; 2; 3]; [4; 5]] am_tx2).
  { eapply tx_run_eq; [apply (tx_run_step am_tx_cfg am_tx _ am_tx1 (act_sdu good_memory [4; 5]) am_tx2 R1); [exact H2|by vm_compute]|
      by vm_compute]. }
  eapply tx_run_eq; [apply (tx_run_step am_tx_cfg am_tx _ am_tx2 (act_sdu good_memory [6]) am_tx3 R2); [exact H3|by vm_compute]|by vm_compute].
Qed.

(** ** Witnesses *)
Lemma pdcp_tx_count_unique_witness :
  length (new_pdus am_tx_cfg (tx_out am_tx3)) = 3%nat /\
  exists pdu, new_pdus am_tx_cfg (tx_out am_tx3) !! 1%nat = Some pdu /\
    tx_protect am_tx_cfg (Some am_engine) true 1 [4; 5] = ok (Some pdu).
Proof.
  destruct (pdcp_tx_count_unique am_tx_cfg (fun _ => True) am_base_ok am_srb am_tx_hard am_tx am_sdus am_tx3 am_tx_fresh am_run)
    as (_ & _ & Hl & Hp & _).
  split; [exact Hl|]. destruct (lookup_lt_is_Some_2 (new_pdus am_tx_cfg (tx_out am_tx3)) 1) as [pdu Hpdu]; [rewrite Hl; simpl; lia|].
  exists pdu. split; [exact Hpdu|]. destruct (Hp _ _ Hpdu) as (sdu & Hs & Hpr). injection Hs as <-. exact Hpr.
Defined.

Lemma pdcp_tx_never_fails_witness :
  (exists s', tx_step am_tx_cfg (act_status_report true [0; 1]) am_tx3 = ok s') \/
  tx_step am_tx_cfg (act_status_report true [0; 1]) am_tx3 = fail uncaught_exception.
Proof.
  destruct (pdcp_tx_never_fails am_tx_cfg (fun _ => True) am_base_ok am_srb am_tx_hard am_tx am_sdus am_tx3
    (act_status_report true [0; 1]) am_tx_fresh am_run) as [H|(e & c & sdu & err & _ & _ & _ & H)].
  - repeat constructor; unfold is_byte; lia.
  - left. exact H.
  - right. exact H.
Defined.

Lemma pdcp_tx_window_sound_witness :
  exists i, wget 2048 (tx_window am_tx3) 1 = Some i /\ am_sdus !! 1%nat = Some (tx_sdu i) /\ tx_discard_timer i = Some timer_running.
Proof.
  destruct (pdcp_tx_window_sound am_tx_cfg (fun _ => True) am_base_ok am_srb am_tx_hard am_tx am_sdus am_tx3 am_tx_fresh am_run)
    as (_ & _ & _ & Hk).
  exists (mk_tx_sdu_info 1 [4; 5] (Some timer_running)).
  assert (E : wget 2048 (tx_window am_tx3) 1 = Some (mk_tx_sdu_info 1 [4; 5] (Some timer_running))) by by vm_compute.
  split; [exact E|]. destruct (Hk 1 _ E) as (_ & _ & Ht & Hs). split; [by apply Hs|exact Ht].
Defined.

Lemma pdcp_tx_discard_expiry_witness :
  exists s', handle_discard_expire am_tx_cfg am_tx3 0 = ok s' /\ discards_of (tx_out s') = [0] /\ tx_next_ack (tx_st s') = 1.
Proof.
  destruct (pdcp_tx_discard_expiry am_tx_cfg (fun _ => True) am_base_ok am_srb am_tx_hard am_tx am_sdus am_tx3 0
    (mk_tx_sdu_info 0 [1; 2; 3] (Some timer_running)) am_tx_fresh am_run) as (s' & E & _ & Hd & _); [by vm_compute|done|].
  exists s'. split; [exact E|]. split; [exact Hd|]. vm_compute in E. injection E as <-. reflexivity.
Defined.

Lemma pdcp_tx_notifications_witness :
  exists s', handle_delivery_notification am_tx_cfg am_tx3 1 = ok s' /\ tx_next_ack (tx_st s') = 2.
Proof.
  destruct (pdcp_tx_notifications am_tx_cfg (fun _ => True) am_base_ok am_srb am_tx_hard am_tx am_sdus am_tx3 1 am_tx_fresh am_run)
    as [H _]; [done|by vm_compute|by vm_compute|].
  destruct (H eq_refl) as (s' & E & Ha & _). exists s'. split; [exact E|exact Ha].
Defined.

Lemma pdcp_tx_recovery_complete_witness :
  exists s' pdus, data_recovery am_tx_cfg am_tx3 (fun _ => good_memory) (ok [0]) = ok s' /\
    pdus_of (tx_out s') = pdus_of (tx_out am_tx3) ++ ((fun pdu => (pdu, true)) <$> pdus) /\ length pdus = 3%nat.
Proof.
  destruct (pdcp_tx_recovery_complete am_tx_cfg (fun _ => True) am_base_ok am_srb am_tx_hard am_tx am_sdus am_tx3 (fun _ => good_memory) [0]
    am_tx_fresh am_run) as (s' & pdus & E & _ & _ & _ & _ & Hp & HF).
  - by vm_compute.
  - done.
  - done.
  - done.
  - intros k sdu. unfold tx_protect. change (tx_sec_engine am_tx) with (Some am_engine). cbn -[engine_encrypt].
    unfold engine_encrypt. cbn -[protect_integrity apply_ciphering]. unfold protect_integrity. cbn -[nia2_non_cmac_compute_mac apply_ciphering].
    destruct (nia2_non_cmac_compute_mac _ _ _ _ _) as [mac|f] eqn:Em; [|cbn; intros [= ->]; revert Em; unfold nia2_non_cmac_compute_mac; cbv zeta;
      destruct (_ <=? sec_max_pdu_size); simpl; [by destruct (_ =? 0)|done]].
    cbn -[apply_ciphering]. unfold apply_ciphering. destruct (_ <=? _); done.
  - exists s', pdus. split; [exact E|]. split; [exact Hp|]. apply Forall2_length in HF. by rewrite <- HF.
Defined.

(** ** The pair *)

(** The PDUs of the three SDUs reach the peer in the order 2, 0, 1, 0, with a PDU without payload after the first. *)
Definition am_pdus : list bytes := new_pdus am_tx_cfg (tx_out am_tx3).
Definition am_get (r : pdcp_entity_rx security_engine) (pdu : bytes) : pdcp_entity_rx security_engine :=
  match pdcp_handle_pdu am_rx_cfg r true pdu with ok r' => r' | fail _ => r end.
Definition am_rx1 := am_get am_rx (nth 2 am_pdus []).
Definition am_rx2 := am_get am_rx1 [128; 9].
Definition am_rx3 := am_get am_rx2 (nth 0 am_pdus []).
Definition am_rx4 := am_get am_rx3 (nth 1 am_pdus []).
Definition am_rx5 := am_get am_rx4 (nth 0 am_pdus []).

Lemma channel_run_eq got got' r :
  channel_run am_rx_cfg am_pdus am_rx got r -> got = got' -> channel_run am_rx_cfg am_pdus am_rx got' r.
Proof. by intros H <-. Qed.

Lemma am_channel2 : channel_run am_rx_cfg am_pdus am_rx [2] am_rx2.
Proof.
  assert (C1 : channel_run am_rx_cfg am_pdus am_rx [2] am_rx1).
  { eapply channel_run_eq; [apply (ch_pdu am_rx_cfg am_pdus am_rx [] am_rx 2 (nth 2 am_pdus []) am_rx1);
      [constructor|by vm_compute|by vm_compute|by vm_compute|by vm_compute]|by vm_compute]. }
  apply (ch_other am_rx_cfg am_pdus am_rx [2] am_rx1 [128; 9] true am_rx2 C1); [left; by apply foreign_short|by vm_compute].
Qed.

Lemma am_channel : channel_run am_rx_cfg am_pdus am_rx [1; 0; 2] am_rx5.
Proof.
  assert (C3 : channel_run am_rx_cfg am_pdus am_rx [0; 2] am_rx3).
  { eapply channel_run_eq; [apply (ch_pdu am_rx_cfg am_pdus am_rx [2] am_rx2 0 (nth 0 am_pdus []) am_rx3);
      [exact am_channel2|by vm_compute|by vm_compute|by vm_compute|by vm_compute]|by vm_compute]. }
  assert (C4 : channel_run am_rx_cfg am_pdus am_rx [1; 0; 2] am_rx4).
  { eapply channel_run_eq; [apply (ch_pdu am_rx_cfg am_pdus am_rx [0; 2] am_rx3 1 (nth 1 am_pdus []) am_rx4);
      [exact C3|by vm_compute|by vm_compute|by vm_compute|by vm_compute]|by vm_compute]. }
  eapply channel_run_eq; [apply (ch_pdu am_rx_cfg am_pdus am_rx [1; 0; 2] am_rx4 0 (nth 0 am_pdus []) am_rx5);
    [exact C4|by vm_compute|by vm_compute|by vm_compute|by vm_compute]|by vm_compute].
Qed.

Lemma pdcp_end_to_end_witness :
  (exists m, (3 <= m)%nat /\ sdus_of (rx_out am_rx5) = take m am_sdus) /\ sdus_of (rx_out am_rx5) = am_sdus.
Proof.
  destruct (pdcp_end_to_end am_tx_cfg am_rx_cfg (fun _ => True) eq_refl am_base_ok am_srb am_tx_hard am_rx_hard am_tx am_sdus am_tx3
    am_rx [1; 0; 2] am_rx5 am_tx_fresh am_run am_rx_fresh eq_refl am_channel) as [_ H].
  destruct (H 3%nat eq_refl) as (m & Hm & Hs).
  - intros c Hc. assert (c = 1 \/ c = 0 \/ c = 2) as [-> |[-> | ->]] by lia; [left|right; left|right; right; left].
  - split; [exists m; split; [exact Hm|exact Hs]|]. rewrite Hs. apply take_ge. exact Hm.
Defined.

(** The receiver of [am_rx2] lacks 0 and 1; its report frees SDU 2. *)
Lemma pdcp_status_report_exact_witness :
  exists report s', compile_status_report am_rx_cfg (fun _ => true) am_rx2 = ok report /\
    handle_status_report am_tx_cfg am_tx3 true report = ok s' /\
    is_Some (wget 2048 (tx_window s') 1) /\ wget 2048 (tx_window s') 2 = None.
Proof.
  destruct (tx_run_hist am_tx_cfg (fun _ => True) am_base_ok am_srb am_tx_hard am_tx am_sdus am_tx3 am_tx_fresh am_run) as [T1 _ _ T4 T5 T6].
  destruct (channel_run_rx am_tx_cfg am_rx_cfg (fun _ => True) eq_refl am_base_ok am_rx_hard am_pdus (Some am_engine) am_sdus am_rx [2] am_rx2)
    as [Hrun _]; [|exact am_rx_fresh|reflexivity|exact am_channel2|].
  { intros c pdu Hc. destruct (T5 c pdu Hc) as (sdu & Hsdu & Hp). exists sdu. split; [exact Hsdu|]. split; [|exact Hp].
    eapply Forall_lookup_1; [exact am_sendable|exact Hsdu]. }
  destruct (rx_run_hist am_rx_cfg (fun _ => True) am_base_ok am_rx_hard (sdu_of am_sdus) am_rx [2] am_rx2 am_rx_fresh Hrun)
    as (counts & Hh & _).
  destruct (pdcp_status_report_exact am_tx_cfg am_rx_cfg (fun _ => True) eq_refl am_base_ok am_tx_hard (fun _ => true) (fun _ => eq_refl)
    am_sdus am_tx3 am_rx2 T1 (rh_inv _ _ _ _ _ _ Hh)) as (report & s' & E1 & E2 & _ & Hget & _); [by vm_compute|].
  assert (Hd : rx_deliv (rx_st am_rx2) = 0) by by vm_compute.
  assert (Hb2 : report_bits am_rx2 = 2) by by vm_compute.
  assert (H1 : wget 2048 (rx_window am_rx2) 1 = None) by by vm_compute.
  assert (H2 : is_Some (wget 2048 (rx_window am_rx2) 2)) by (vm_compute; by eexists).
  assert (Ht : is_Some (wget 2048 (tx_window am_tx3) 1)) by (vm_compute; by eexists).
  exists report, s'. split; [exact E1|]. split; [exact E2|]. split.
  - rewrite Hget, decide_False; [exact Ht|]. unfold reported. rewrite Hd, Hb2. intros [Hk|[_ [i Hi]]]; [lia|].
    change (wget 2048 (rx_window am_rx2) 1 = Some i) in Hi. congruence.
  - rewrite Hget, decide_True; [reflexivity|]. unfold reported. rewrite Hd, Hb2. right. split; [lia|exact H2].
Defined.
