(* ===== verification/PdcpBoundary.v ===== *)
(** * Boundary behaviour of the PDCP entities and the security algorithms

    Inputs on which the code does not do what it means to, each shown on the definitions: PDUs too
    short for the checks in front of them, SNs whose COUNT wraps around, empty messages, a pool without memory, and
    status reports with arbitrary contents. The theorems of the other files exclude these inputs by their
    hypotheses or state their effect. *)

From S2P Require Import Prelude SduWindow BitEncoding BitStream PdcpSnUtil PdcpBase Security Snow3g Zuc SecAlgorithms SecurityEngine SecurityProps PdcpRx PdcpRxInv PdcpRxProps PdcpTx PdcpTxInv PdcpTxSend PdcpTxProps PdcpExamples.

#[local] Existing Instance am_engine_instance.

Definition srb_base : pdcp_base := mk_pdcp_base 0 rb_srb mode_am 2 2048 pdcp_sn_12bits.

Lemma srb_base_ok : base_ok srb_base.
Proof. by exists (srb_id 1). Qed.

Definition srb_rx_cfg : pdcp_rx_config := mk_pdcp_rx_config srb_base dir_uplink 100 1000 2000.

(** On an SRB without security a PDU of five octets passes the test for the MAC, loses its last four octets, and
    the assertion of [trim_head] fails for the header: five octets from the peer stop the process. *)
Theorem short_srb_pdu_fails_assertion :
  pdcp_handle_pdu srb_rx_cfg (pdcp_entity_rx_ctor : pdcp_entity_rx security_engine) true [0; 0; 1; 2; 3] = fail assertion.
Proof. reflexivity. Qed.

(** The re-establishment of an SRB that has no security yet fails the assertion of [configure_security]. *)
Theorem unsecured_srb_reestablish_fails_assertion sec_cfg :
  rx_reestablish srb_rx_cfg (pdcp_entity_rx_ctor : pdcp_entity_rx security_engine) sec_cfg = fail assertion.
Proof. unfold rx_reestablish, rx_configure_security. cbn. by destruct (bool_decide _). Qed.

(** A PDU of three octets, sent by anyone, whose SN is far ahead of an entity that has received nothing yet: the
    estimated HFN wraps around, the COUNT exceeds both limits, and the control plane is told of a protocol failure
    before the integrity of the PDU is looked at. *)
Theorem stray_sn_reports_protocol_failure :
  exists s', pdcp_handle_pdu (sample_rx_cfg 100) sample_rx true [136; 0; 9] = ok s' /\
    rx_out s' = [rxev_pdu 3; rxev_max_count_reached; rxev_protocol_failure].
Proof. by eexists. Qed.

(** What re-establishment resets are the state variables, not the record of the limits' notifications: after an
    overflow the new COUNTs reach the limits unnoticed (here with an empty window, where nothing is delivered or discarded). *)
Theorem reestablish_keeps_count_flags {E} `{!SecurityEngine E} cfg (s s' : pdcp_entity_rx E) sec_cfg :
  is_srb (rx_base cfg) || is_um (rx_base cfg) = true -> rx_deliv (rx_st s) = rx_next (rx_st s) ->
  rx_reestablish cfg s sec_cfg = ok s' ->
  rx_st s' = pdcp_rx_state_init /\ rx_count_notified s' = rx_count_notified s /\ rx_count_overflow s' = rx_count_overflow s.
Proof.
  intros Hb Hd. unfold rx_reestablish. rewrite Hb.
  assert (E1 : (if is_srb (rx_base cfg) then discard_all_sdus cfg s else ok s) = ok s).
  { destruct (is_srb _); [|done]. unfold discard_all_sdus, rx_loop_fuel. cbn [while_loop]. by rewrite (proj2 (Z.eqb_eq _ _) Hd). }
  rewrite E1, bind_ok. set (s1 := if is_running _ then _ else s).
  assert (H1 : rx_deliv (rx_st s1) = rx_next (rx_st s1) /\ rx_count_notified s1 = rx_count_notified s /\ rx_count_overflow s1 = rx_count_overflow s).
  { subst s1. by destruct (is_running _). }
  destruct H1 as (Hd1 & <- & <-).
  assert (E2 : (if is_um (rx_base cfg) then deliver_all_sdus cfg s1 else ok s1) = ok s1).
  { destruct (is_um _); [|done]. unfold deliver_all_sdus, rx_loop_fuel. cbn [for_loop]. by rewrite (proj2 (Z.ltb_ge _ _)) by lia. }
  rewrite E2, bind_ok. unfold rx_configure_security. intros H.
  apply bind_ok_inv in H as (_ & _ & H). destruct (_ && _); [by injection H as <-|].
  apply bind_ok_inv in H as (_ & _ & H). apply bind_ok_inv in H as (e & _ & H). by injection H as <-.
Qed.

(** NEA1 and NEA3 read in front of the key stream when the message is empty: the byte-wise tail of the loop starts at
    octet -4. With one of them, and without integrity protection, an empty SDU on a DRB is enough. *)
Theorem empty_message_out_of_bounds key count bearer dir :
  security_nea1 key count bearer dir [] 0 = fail invalid_access /\ security_nea3 key count bearer dir [] 0 = fail invalid_access.
Proof.
  unfold security_nea1, security_nea3. change (u32 (0 + 7) / 8) with 0. change (u32 (0 + 31) / 32) with 0. cbv zeta.
  generalize (s3g_generate_keystream (s3g_initialize (s3g_key_words key)
    [Z.lor (Z.shiftl (Z.land bearer 31) 27) (Z.shiftl (Z.land (direction_to_number dir) 1) 26); count;
     Z.lor (Z.shiftl (Z.land bearer 31) 27) (Z.shiftl (Z.land (direction_to_number dir) 1) 26); count]) 0).
  set (iv := _ ++ _). generalize (zuc_generate_keystream (zuc_initialize key (iv ++ iv)) 0). intros ks1 ks2.
  split; reflexivity.
Qed.

Definition nea1_engine : security_engine := mk_engine (Some (ciphering_engine_nea1 sample_key 2 dir_downlink)) None.

Theorem empty_sdu_out_of_bounds :
  pdcp_handle_sdu am_tx_cfg (tx_set_security am_tx (Some nea1_engine) false true) good_memory [] = fail invalid_access.
Proof. vm_compute. reflexivity. Qed.

(** [apply_ciphering_and_integrity_protection] takes the value of the result before anyone has looked at it: when
    the pool has no memory for the MAC, the exception leaves the entity, although its callers are prepared
    for a failure. *)
Definition exhausted_pool : SecurityEngine security_engine := engine_instance (fun _ => false).

Theorem exhausted_pool_throws :
  @pdcp_handle_sdu security_engine exhausted_pool am_tx_cfg am_tx good_memory [1; 2; 3] = fail uncaught_exception.
Proof. vm_compute. reflexivity. Qed.

(** ** Status reports *)
Section status_reports.
Context {E : Type} `{!SecurityEngine E} (cfg : pdcp_tx_config).
Context (Hb : base_ok (tx_base cfg)) (Hhard : tx_max_count_hard cfg < 2 ^ 32).
Local Abbreviation W := (window_size (tx_base cfg)).

(** The loop over the COUNTs below the FMC, which the peer chooses from 32 bits, ends after FMC - TX_NEXT_ACK turns and no
    sooner, however few SDUs the window holds: fewer turns are not enough. *)
Theorem status_report_turns sdus (s : pdcp_entity_tx E) fmc fuel :
  tx_inv cfg sdus s -> 0 <= fmc < 2 ^ 32 -> Z.of_nat fuel <= fmc - tx_next_ack (tx_st s) ->
  discard_below cfg fuel s fmc = fail out_of_fuel.
Proof using Hhard.
  intros Hi Hf. unfold discard_below. pose proof (txi_order _ _ _ Hi) as Ho.
  assert (Hc : 0 <= tx_next_ack (tx_st s)) by lia. revert Hc. generalize (tx_next_ack (tx_st s)) as count. clear Ho.
  revert s Hi. induction fuel as [|fuel IH]; intros s Hi count Hc Hn; [done|]. cbn [for_loop].
  rewrite (proj2 (Z.ltb_lt _ _)) by lia.
  assert (Hd : exists s', discard_pdu cfg s count = ok s' /\ tx_inv cfg sdus s').
  { pose proof (discard_pdu_spec cfg Hhard sdus s count Hi) as Hd. destruct (wget _ _ _).
    - destruct Hd as (a & w & E1 & Htr & _). eexists. split; [exact E1|]. by eapply trimmed_inv.
    - by exists s. }
  destruct Hd as (s' & -> & Hi'). rewrite !bind_ok. simpl snd. cbv iota. rewrite u32_small by lia.
  specialize (IH s' Hi' (count + 1) ltac:(lia) ltac:(lia)). simpl fst. destruct (for_loop _ _ _ _ _ _) as [[]|]; simpl in IH |- *; congruence.
Qed.

(** The branch "Tx window full" of [handle_sdu] is never taken: the window is asked for the COUNT
    TX_NEXT itself, which it cannot hold. What a full window loses is the element that TX_NEXT overwrites, one
    window back. *)
Theorem window_full_branch_dead sdus (s : pdcp_entity_tx E) sdu :
  tx_inv cfg sdus s -> has_discard_timer cfg = true -> tx_next (tx_st s) < tx_max_count_hard cfg ->
  tx_next (tx_st s) + 1 <= tx_next_ack (tx_st s) + 2 * W ->
  has_sn W (tx_window s) (tx_next (tx_st s)) = false /\
  exists s', tx_store cfg s sdu = ok s' /\ tx_out s' = tx_out s /\ tx_next_ack (tx_st s') = tx_next_ack (tx_st s) /\
    wget W (tx_window s') (tx_next (tx_st s) - W) = None.
Proof using Hb Hhard.
  intros Hi Ht Hn Hw. destruct (tx_store_spec cfg Hhard sdus s sdu Hi Hn (or_introl Hw)) as (w & E1 & Hwf & _ & Hget).
  specialize (Hget Ht). split.
  - rewrite has_sn_wget. apply bool_decide_eq_false. intros [i Hk]. apply (txi_keys _ _ _ Hi) in Hk. lia.
  - eexists. split; [exact E1|]. split; [done|]. split; [done|]. simpl tx_window. rewrite Hget.
    assert (Hpos : 0 < W) by (base_cases (tx_base cfg) Hb; lia). rewrite decide_False by lia. rewrite decide_True; [done|].
    replace (tx_next (tx_st s) - W) with (tx_next (tx_st s) + (-1) * W) by lia. by rewrite Z.mod_add by lia.
Qed.
End status_reports.

(** ** Oversized PDUs *)

(** Nothing bounds the length of what RLC reassembles, and the MAC that the code writes out asserts the length of its
    message: a received PDU of more than 9080 octets under NIA2 stops the process. *)
Theorem oversized_pdu_fails_assertion key bearer dir buf off count :
  sec_max_pdu_size - 20 < zlen buf ->
  engine_decrypt (mk_engine None (Some (integrity_engine_nia2_non_cmac key bearer dir))) buf off count = fail assertion.
Proof.
  unfold sec_max_pdu_size. intros Hl. unfold engine_decrypt. cbn [cipher_eng integ_eng]. rewrite bind_ok. unfold verify_integrity, sec_mac_len.
  rewrite (proj2 (Z.leb_gt _ _)) by lia. cbv zeta. cbn [compute_mac]. unfold nia2_non_cmac_compute_mac. cbv zeta.
  unfold slice. change (Z.to_nat 0) with 0%nat. rewrite drop_0, length_take, (proj2 (Z.leb_gt _ _)) by (unfold sec_max_pdu_size; lia). done.
Qed.
