(* ===== verification/RlcAmPdu.v ===== *)
(** * RLC AM PDUs

    [lib/rlc/rlc_am_pdu.h] and [lib/rlc/rlc_am_pdu.cpp]: the AMD PDU header and
    the STATUS PDU with its NACK list, the functions that pack and unpack
    them, the merging of consecutive NACKs ([push_nack]) and the trimming of a
    STATUS PDU to a grant ([trim]). *)

From S2P Require Import Prelude.

(** ** Data *)

(** [rlc_config.h]: sequence number field lengths. *)
Inductive rlc_am_sn_size := size12bits | size18bits.

#[export] Instance rlc_am_sn_size_eq_dec : EqDecision rlc_am_sn_size.
Proof. solve_decision. Defined.

Definition to_number (sz : rlc_am_sn_size) : Z :=
  match sz with size12bits => 12 | size18bits => 18 end.

Definition cardinality (n : Z) : Z := Z.shiftl 1 n.
Definition window_size (n : Z) : Z := cardinality (n - 1).

Abbreviation am_mod sz := (cardinality (to_number sz)).
Abbreviation am_window sz := (window_size (to_number sz)).

Inductive rlc_dc_field := control | data.
Inductive rlc_si_field := full_sdu | first_segment | last_segment | middle_segment.

#[export] Instance rlc_dc_field_eq_dec : EqDecision rlc_dc_field.
Proof. solve_decision. Defined.
#[export] Instance rlc_si_field_eq_dec : EqDecision rlc_si_field.
Proof. solve_decision. Defined.

Definition dc_to_number (dc : rlc_dc_field) : Z :=
  match dc with control => 0 | data => 1 end.
Definition si_to_number (si : rlc_si_field) : Z :=
  match si with full_sdu => 0 | first_segment => 1 | last_segment => 2 | middle_segment => 3 end.

(** The casts [(rlc_dc_field)((b >> 7) & 1)] and [(rlc_si_field)((b >> 4) & 3)]. *)
Definition dc_of_bits (b : Z) : rlc_dc_field := if b =? 0 then control else data.
Definition si_of_bits (b : Z) : rlc_si_field :=
  if b =? 0 then full_sdu else if b =? 1 then first_segment
  else if b =? 2 then last_segment else middle_segment.

Definition INVALID_RLC_SN : Z := 0xffffffff.
Definition RETX_COUNT_NOT_STARTED : Z := 0xffffffff.
Definition so_end_of_sdu : Z := 0xffff.

Definition sizeof_header_ack_sn : Z := 3.
Definition sizeof_nack_sn_ext (sz : rlc_am_sn_size) : Z :=
  match sz with size12bits => 2 | size18bits => 3 end.
Definition sizeof_nack_so : Z := 4.
Definition sizeof_nack_range : Z := 1.

Definition rlc_am_pdu_header_min_size (sz : rlc_am_sn_size) : Z :=
  match sz with size12bits => 2 | size18bits => 3 end.
Definition rlc_am_pdu_header_max_size (sz : rlc_am_sn_size) : Z :=
  rlc_am_pdu_header_min_size sz + 2.

(** ** AMD PDU header *)

Record rlc_am_pdu_header := mk_header {
  h_dc : rlc_dc_field;
  h_p : Z;
  h_si : rlc_si_field;
  h_sn_size : rlc_am_sn_size;
  h_sn : Z;
  h_so : Z
}.

Definition si_has_so (si : rlc_si_field) : bool :=
  match si with last_segment | middle_segment => true | _ => false end.

Definition get_packed_size (h : rlc_am_pdu_header) : Z :=
  if si_has_so (h_si h) then rlc_am_pdu_header_max_size (h_sn_size h)
  else rlc_am_pdu_header_min_size (h_sn_size h).

(** The SN bytes of the header: the SN and the rest of the PDU. *)
Definition read_header_sn (sz : rlc_am_sn_size) (b0 : Z) (r : bytes) : option (Z * bytes) :=
  match sz with
  | size12bits =>
      match r with
      | [] => None
      | b1 :: r => Some (Z.lor (Z.shiftl (Z.land b0 0x0f) 8) (Z.land b1 0xff), r)
      end
  | size18bits =>
      if negb (Z.land b0 0x0c =? 0) then None else
      match r with
      | [] => None
      | b1 :: r =>
          match r with
          | [] => None
          | b2 :: r =>
              Some (Z.lor (Z.lor (Z.shiftl (Z.land b0 0x03) 16)
                                 (Z.shiftl (Z.land b1 0xff) 8))
                          (Z.land b2 0xff), r)
          end
      end
  end.

(** The optional SO field. *)
Definition read_header_so (si : rlc_si_field) (r : bytes) : option (Z * bytes) :=
  if si_has_so si then
    match r with
    | [] => None
    | s0 :: r =>
        match r with
        | [] => None
        | s1 :: r => Some (Z.lor (Z.shiftl (Z.land s0 0xff) 8) (Z.land s1 0xff), r)
        end
    end
  else Some (0, r).

Definition rlc_am_read_data_pdu_header (pdu : bytes) (sz : rlc_am_sn_size)
    : option rlc_am_pdu_header :=
  if zlen pdu <=? rlc_am_pdu_header_min_size sz then None else
  match pdu with
  | [] => None
  | b0 :: r =>
      let dc := dc_of_bits (Z.land (Z.shiftr b0 7) 0x01) in
      let p := Z.land (Z.shiftr b0 6) 0x01 in
      let si := si_of_bits (Z.land (Z.shiftr b0 4) 0x03) in
      '(sn, r) ← read_header_sn sz b0 r;
      '(so, _) ← read_header_so si r;
      Some (mk_header dc p si sz sn so)
  end.

Definition rlc_am_write_data_pdu_header (h : rlc_am_pdu_header) : bytes :=
  let b0 := Z.shiftl (Z.land (dc_to_number (h_dc h)) 0x01) 7 in
  let b0 := Z.lor b0 (Z.shiftl (Z.land (h_p h) 0x01) 6) in
  let b0 := Z.lor b0 (Z.shiftl (Z.land (si_to_number (h_si h)) 0x03) 4) in
  match h_sn_size h with
  | size12bits =>
      [Z.lor b0 (Z.land (Z.shiftr (h_sn h) 8) 0x0f); Z.land (h_sn h) 0xff]
  | size18bits =>
      [Z.lor b0 (Z.land (Z.shiftr (h_sn h) 16) 0x03);
       u8 (Z.shiftr (h_sn h) 8); Z.land (h_sn h) 0xff]
  end ++
  (if negb (h_so h =? 0) then [u8 (Z.shiftr (h_so h) 8); Z.land (h_so h) 0xff] else []).

(** ** STATUS PDU *)

Record rlc_am_status_nack := mk_nack {
  nack_sn : Z;
  has_so : bool;
  so_start : Z;
  so_end : Z;
  has_nack_range : bool;
  nack_range : Z
}.

(** The default constructor. *)
Definition default_nack : rlc_am_status_nack := mk_nack 0 false 0 so_end_of_sdu false 0.

(** [cpt] can only hold [status_pdu] once unpacking went past its sanity check;
    it is not kept. *)
Record rlc_am_status_pdu := mk_status {
  s_sn_size : rlc_am_sn_size;
  nacks : list rlc_am_status_nack;
  packed_size : Z;
  ack_sn : Z
}.

Definition status_ctor (sz : rlc_am_sn_size) : rlc_am_status_pdu :=
  mk_status sz [] sizeof_header_ack_sn INVALID_RLC_SN.

Definition status_reset (s : rlc_am_status_pdu) : rlc_am_status_pdu :=
  mk_status (s_sn_size s) [] sizeof_header_ack_sn INVALID_RLC_SN.

Definition set_ack_sn (s : rlc_am_status_pdu) (sn : Z) : rlc_am_status_pdu :=
  mk_status (s_sn_size s) (nacks s) (packed_size s) sn.

Definition range_or_one (n : rlc_am_status_nack) : Z :=
  if has_nack_range n then nack_range n else 1.

Definition can_be_merged (sz : rlc_am_sn_size) (left right : rlc_am_status_nack) : bool :=
  if negb (nack_sn right =?
           u32 (if has_nack_range left then nack_sn left + nack_range left else nack_sn left + 1)
             mod am_mod sz) then false
  else if has_so left && negb (so_end left =? so_end_of_sdu) then false
  else if has_so right && negb (so_start right =? 0) then false
  else range_or_one left + range_or_one right <=? 255.

Definition nack_size (sz : rlc_am_sn_size) (n : rlc_am_status_nack) : Z :=
  sizeof_nack_sn_ext sz + (if has_so n then sizeof_nack_so else 0) +
  (if has_nack_range n then sizeof_nack_range else 0).

(** The expansion of the previous NACK by a mergeable one. *)
Definition merge_nack (prev nack : rlc_am_status_nack) : rlc_am_status_nack :=
  let range :=
    if has_nack_range nack then
      if has_nack_range prev then u8 (nack_range prev + nack_range nack)
      else u8 (nack_range nack + 1)
    else if has_nack_range prev then u8 (nack_range prev + 1) else 2 in
  if has_so nack then
    mk_nack (nack_sn prev) true (if has_so prev then so_start prev else 0)
            (so_end nack) true range
  else
    mk_nack (nack_sn prev) (has_so prev) (so_start prev)
            (if has_so prev then so_end_of_sdu else so_end prev) true range.

Definition push_nack (s : rlc_am_status_pdu) (n : rlc_am_status_nack) : rlc_am_status_pdu :=
  let sz := s_sn_size s in
  match last (nacks s) with
  | None => mk_status sz (nacks s ++ [n]) (u32 (packed_size s + nack_size sz n)) (ack_sn s)
  | Some prev =>
      if negb (can_be_merged sz prev n) then
        mk_status sz (nacks s ++ [n]) (u32 (packed_size s + nack_size sz n)) (ack_sn s)
      else
        let size := u32 (packed_size s - nack_size sz prev) in
        let prev := merge_nack prev n in
        mk_status sz (removelast (nacks s) ++ [prev])
                  (u32 (size + nack_size sz prev)) (ack_sn s)
  end.

(** [trim]: the loop pops the last NACK while the PDU does not fit or the last
    NACK is for the SN that became the ACK_SN. *)
Fixpoint trim_loop (fuel : nat) (max_packed_size : Z) (s : rlc_am_status_pdu)
    : outcome rlc_am_status_pdu :=
  match fuel with
  | O => fail out_of_fuel
  | S fuel =>
      match last (nacks s) with
      | None => ok s
      | Some back =>
          if (max_packed_size <? packed_size s) || (nack_sn back =? ack_sn s) then
            trim_loop fuel max_packed_size
              (mk_status (s_sn_size s) (removelast (nacks s))
                 (u32 (packed_size s - nack_size (s_sn_size s) back)) (nack_sn back))
          else ok s
      end
  end.

Definition trim (s : rlc_am_status_pdu) (max_packed_size : Z)
    : outcome (bool * rlc_am_status_pdu) :=
  if packed_size s <=? max_packed_size then ok (true, s)
  else if max_packed_size <? sizeof_header_ack_sn then ok (false, s)
  else s ← trim_loop (S (length (nacks s))) max_packed_size s; ok (true, s).

(** *** Packing *)

(** The SO and range fields, common to both SN sizes. *)
Definition pack_nack_tail (n : rlc_am_status_nack) : bytes :=
  (if has_so n then
     [u8 (Z.shiftr (so_start n) 8); u8 (so_start n);
      u8 (Z.shiftr (so_end n) 8); u8 (so_end n)] else []) ++
  (if has_nack_range n then [u8 (nack_range n)] else []).

Definition flag (b : bool) (mask : Z) : Z := if b then mask else 0.

Fixpoint pack_nacks_12bit (l : list rlc_am_status_nack) : bytes :=
  match l with
  | [] => []
  | n :: rest =>
      [Z.land (Z.shiftr (nack_sn n) 4) 0xff;
       Z.lor (Z.lor (Z.lor (Z.shiftl (Z.land (nack_sn n) 0x0f) 4)
          (flag (negb (bool_decide (rest = []))) 0x08))
          (flag (has_so n) 0x04)) (flag (has_nack_range n) 0x02)]
      ++ pack_nack_tail n ++ pack_nacks_12bit rest
  end.

Definition pack_12bit (s : rlc_am_status_pdu) : bytes :=
  [Z.land (Z.shiftr (ack_sn s) 8) 0x0f;
   Z.land (ack_sn s) 0xff;
   match nacks s with [] => 0x00 | _ => 0x80 end] ++ pack_nacks_12bit (nacks s).

Fixpoint pack_nacks_18bit (l : list rlc_am_status_nack) : bytes :=
  match l with
  | [] => []
  | n :: rest =>
      [Z.land (Z.shiftr (nack_sn n) 10) 0xff;
       Z.land (Z.shiftr (nack_sn n) 2) 0xff;
       Z.lor (Z.lor (Z.lor (Z.land (Z.shiftl (nack_sn n) 6) 0xc0)
          (flag (negb (bool_decide (rest = []))) 0x20))
          (flag (has_so n) 0x10)) (flag (has_nack_range n) 0x08)]
      ++ pack_nack_tail n ++ pack_nacks_18bit rest
  end.

Definition pack_18bit (s : rlc_am_status_pdu) : bytes :=
  [Z.land (Z.shiftr (ack_sn s) 14) 0x0f;
   Z.land (Z.shiftr (ack_sn s) 6) 0xff;
   Z.lor (Z.land (Z.shiftl (ack_sn s) 2) 0xfc)
     (match nacks s with [] => 0x00 | _ => 0x02 end)] ++ pack_nacks_18bit (nacks s).

Definition pack (s : rlc_am_status_pdu) : bytes :=
  match s_sn_size s with
  | size12bits => pack_12bit s
  | size18bits => pack_18bit s
  end.

(** *** Unpacking *)

(** [*(pdu.begin())] of an empty view is undefined; the callers check the length. *)
Definition is_control_pdu (pdu : bytes) : bool :=
  match pdu with
  | [] => false
  | b0 :: _ => Z.land (Z.shiftr b0 7) 0x01 =? dc_to_number control
  end.

(** The optional SO pair and NACK range that follow a NACK_SN. *)
Definition unpack_nack_so (e2 : Z) (n : rlc_am_status_nack) (r : bytes)
    : option (rlc_am_status_nack * bytes) :=
  if e2 =? 0 then Some (n, r)
  else if zlen r <? sizeof_nack_so then None
  else match r with
       | s0 :: s1 :: e0 :: e1 :: r =>
           Some (mk_nack (nack_sn n) true
                   (Z.lor (u16 (Z.shiftl s0 8)) s1) (Z.lor (u16 (Z.shiftl e0 8)) e1)
                   (has_nack_range n) (nack_range n), r)
       | _ => None
       end.

Definition unpack_nack_range (e3 : Z) (n : rlc_am_status_nack) (r : bytes)
    : option (rlc_am_status_nack * bytes) :=
  if e3 =? 0 then Some (n, r)
  else if zlen r <? sizeof_nack_range then None
  else match r with
       | b :: r => Some (mk_nack (nack_sn n) (has_so n) (so_start n) (so_end n) true b, r)
       | [] => None
       end.

(** The body of the NACK loop: the NACK, the next E1 flag, the rest. *)
Definition unpack_one_nack_12bit (r : bytes) : option (rlc_am_status_nack * Z * bytes) :=
  if zlen r <? sizeof_nack_sn_ext size12bits then None else
  match r with
  | b0 :: b1 :: r =>
      let e1 := Z.land b1 0x08 in
      let e2 := Z.land b1 0x04 in
      let e3 := Z.land b1 0x02 in
      if negb (Z.land b1 0x01 =? 0) then None else
      let sn := Z.lor (Z.shiftl (Z.land b0 0xff) 4) (Z.shiftr (Z.land b1 0xf0) 4) in
      '(n, r) ← unpack_nack_so e2 (mk_nack sn false 0 so_end_of_sdu false 0) r;
      '(n, r) ← unpack_nack_range e3 n r;
      Some (n, e1, r)
  | _ => None
  end.

Definition unpack_one_nack_18bit (r : bytes) : option (rlc_am_status_nack * Z * bytes) :=
  if zlen r <? sizeof_nack_sn_ext size18bits then None else
  match r with
  | b0 :: b1 :: b2 :: r =>
      let sn := Z.lor (Z.lor (Z.shiftl (Z.land b0 0xff) 10) (Z.shiftl (Z.land b1 0xff) 2))
                      (Z.shiftr (Z.land b2 0xc0) 6) in
      let e1 := Z.land b2 0x20 in
      let e2 := Z.land b2 0x10 in
      let e3 := Z.land b2 0x08 in
      if negb (Z.land b2 0x07 =? 0) then None else
      '(n, r) ← unpack_nack_so e2 (mk_nack sn false 0 so_end_of_sdu false 0) r;
      '(n, r) ← unpack_nack_range e3 n r;
      Some (n, e1, r)
  | _ => None
  end.

(** [while (e1 != 0)]: [None] is the code's [return false]. *)
Fixpoint unpack_nacks (fuel : nat)
    (one : bytes -> option (rlc_am_status_nack * Z * bytes))
    (e1 : Z) (r : bytes) (s : rlc_am_status_pdu) : outcome (option rlc_am_status_pdu) :=
  match fuel with
  | O => fail out_of_fuel
  | S fuel =>
      if e1 =? 0 then ok (Some s)
      else match one r with
           | None => ok None
           | Some (n, e1, r) => unpack_nacks fuel one e1 r (push_nack s n)
           end
  end.

(** The CPT check: [(rlc_control_pdu_type)((b0 >> 4) & 0x07) == status_pdu]. *)
Definition cpt_is_status (b0 : Z) : bool := Z.land (Z.shiftr b0 4) 0x07 =? 0.

Definition unpack_12bit (s : rlc_am_status_pdu) (pdu : bytes)
    : outcome (option rlc_am_status_pdu) :=
  if zlen pdu <? sizeof_header_ack_sn then ok None
  else if negb (is_control_pdu pdu) then ok None
  else match pdu with
  | b0 :: b1 :: b2 :: r =>
      let s := status_reset s in
      if negb (cpt_is_status b0) then ok None else
      let s := set_ack_sn s (Z.lor (Z.shiftl (Z.land b0 0x0f) 8) (Z.land b1 0xff)) in
      let e1 := Z.land b2 0x80 in
      if negb (Z.land b2 0x7f =? 0) then ok None
      else unpack_nacks (S (length pdu)) unpack_one_nack_12bit e1 r s
  | _ => ok None
  end.

Definition unpack_18bit (s : rlc_am_status_pdu) (pdu : bytes)
    : outcome (option rlc_am_status_pdu) :=
  if zlen pdu <? sizeof_header_ack_sn then ok None
  else if negb (is_control_pdu pdu) then ok None
  else match pdu with
  | b0 :: b1 :: b2 :: r =>
      let s := status_reset s in
      if negb (cpt_is_status b0) then ok None else
      let s := set_ack_sn s
        (Z.lor (Z.lor (Z.shiftl (Z.land b0 0x0f) 14) (Z.shiftl (Z.land b1 0xff) 6))
               (Z.shiftr (Z.land b2 0xfc) 2)) in
      let e1 := Z.land b2 0x02 in
      if negb (Z.land b2 0x01 =? 0) then ok None
      else unpack_nacks (S (length pdu)) unpack_one_nack_18bit e1 r s
  | _ => ok None
  end.

Definition unpack (s : rlc_am_status_pdu) (pdu : bytes) : outcome (option rlc_am_status_pdu) :=
  match s_sn_size s with
  | size12bits => unpack_12bit s pdu
  | size18bits => unpack_18bit s pdu
  end.

(** ** What a NACK list means

    A missing range [(sn, first, last)]: bytes [first..last] of SDU [sn], [last]
    being [so_end_of_sdu] when the SDU is missing up to its end. *)
Abbreviation missing := (Z * Z * Z)%type.

Definition eff_start (n : rlc_am_status_nack) : Z := if has_so n then so_start n else 0.
Definition eff_end (n : rlc_am_status_nack) : Z := if has_so n then so_end n else so_end_of_sdu.

(** The [k]-th SDU of a NACK that covers [r] of them. *)
Definition nack_unit (m : Z) (n : rlc_am_status_nack) (k : nat) : missing :=
  ((nack_sn n + Z.of_nat k) mod m,
   if Nat.eqb k 0 then eff_start n else 0,
   if Z.of_nat k =? range_or_one n - 1 then eff_end n else so_end_of_sdu).

Definition nack_meaning (m : Z) (n : rlc_am_status_nack) : list missing :=
  nack_unit m n <$> seq 0 (Z.to_nat (range_or_one n)).

Definition status_meaning (s : rlc_am_status_pdu) : list missing :=
  nacks s ≫= nack_meaning (am_mod (s_sn_size s)).

(** Byte [j] of SDU [k] is reported missing. *)
Definition reported (l : list missing) (k j : Z) : Prop :=
  exists a e, (k, a, e) ∈ l /\ a <= j <= e.

(** NACKs as the code builds them: canonical values in absent fields. *)
Record nack_wf (sz : rlc_am_sn_size) (n : rlc_am_status_nack) : Prop := {
  nw_sn : 0 <= nack_sn n < am_mod sz;
  nw_start : 0 <= so_start n < 2 ^ 16;
  nw_end : 0 <= so_end n < 2 ^ 16;
  nw_no_so : has_so n = false -> so_start n = 0 /\ so_end n = so_end_of_sdu;
  nw_range : has_nack_range n = true -> 1 <= nack_range n <= 255;
  nw_no_range : has_nack_range n = false -> nack_range n = 0
}.

Fixpoint unmergeable (sz : rlc_am_sn_size) (l : list rlc_am_status_nack) : Prop :=
  match l with
  | a :: (b :: _) as rest => can_be_merged sz a b = false /\ unmergeable sz rest
  | _ => True
  end.

Definition nacks_size (sz : rlc_am_sn_size) (l : list rlc_am_status_nack) : Z :=
  foldr (fun n acc => nack_size sz n + acc) 0 l.

(** The invariant of a STATUS PDU under construction. *)
Record status_wf (s : rlc_am_status_pdu) : Prop := {
  sw_nacks : Forall (nack_wf (s_sn_size s)) (nacks s);
  sw_unmergeable : unmergeable (s_sn_size s) (nacks s);
  sw_size : packed_size s = sizeof_header_ack_sn + nacks_size (s_sn_size s) (nacks s);
  sw_bound : packed_size s < 2 ^ 32
}.

(** ** AMD PDU header: lemmas *)

(** The first octet carries D/C, P, SI and the upper SN bits [x]. *)
Definition header_octet (dc : rlc_dc_field) (p : Z) (si : rlc_si_field) (x : Z) : Z :=
  Z.lor (Z.lor (Z.lor (Z.shiftl (Z.land (dc_to_number dc) 0x01) 7)
                      (Z.shiftl (Z.land p 0x01) 6))
               (Z.shiftl (Z.land (si_to_number si) 0x03) 4)) x.

Lemma header_octet_fields dc p si x :
  0 <= p < 2 -> 0 <= x < 16 ->
  let b := header_octet dc p si x in
  dc_of_bits (Z.land (Z.shiftr b 7) 0x01) = dc /\
  Z.land (Z.shiftr b 6) 0x01 = p /\
  si_of_bits (Z.land (Z.shiftr b 4) 0x03) = si /\
  Z.land b 0x0f = x /\ Z.land b 0x0c = Z.land x 0x0c /\
  Z.land b 0x03 = Z.land x 0x03 /\ 0 <= b < 256.
Proof.
  intros Hp Hx b. unfold b; clear b.
  assert (p = 0 \/ p = 1) as [-> | ->] by lia; destruct dc, si; by_evaluation 16 x.
Qed.

Lemma sn12_roundtrip sn :
  0 <= sn < 2 ^ 12 ->
  Z.lor (Z.shiftl (Z.land (Z.shiftr sn 8) 0x0f) 8) (Z.land (Z.land sn 0xff) 0xff) = sn.
Proof.
  intros. change 0x0f with (2 ^ 4 - 1). change 0xff with (2 ^ 8 - 1).
  rewrite !land_mask, Z.mod_mod, Z.shiftr_div_pow2, lor_shiftl_add by (lia || divmod).
  divmod.
Qed.

Lemma sn18_roundtrip sn :
  0 <= sn < 2 ^ 18 ->
  Z.lor (Z.lor (Z.shiftl (Z.land (Z.shiftr sn 16) 0x03) 16)
               (Z.shiftl (Z.land (u8 (Z.shiftr sn 8)) 0xff) 8))
        (Z.land (Z.land sn 0xff) 0xff) = sn.
Proof.
  intros. unfold u8. change 0x03 with (2 ^ 2 - 1). change 0xff with (2 ^ 8 - 1).
  rewrite !land_mask, !Z.mod_mod, !Z.shiftr_div_pow2 by lia.
  rewrite <- Z.lor_assoc, (lor_shiftl_add _ _ 8), lor_shiftl_add by (lia || divmod).
  divmod.
Qed.

Lemma so_roundtrip so :
  0 <= so < 2 ^ 16 ->
  Z.lor (Z.shiftl (Z.land (u8 (Z.shiftr so 8)) 0xff) 8) (Z.land (Z.land so 0xff) 0xff) = so.
Proof.
  intros. unfold u8. change 0xff with (2 ^ 8 - 1).
  rewrite !land_mask, !Z.mod_mod, !Z.shiftr_div_pow2, lor_shiftl_add by (lia || divmod).
  divmod.
Qed.

Record header_wf (h : rlc_am_pdu_header) : Prop := {
  hw_p : 0 <= h_p h < 2;
  hw_sn : 0 <= h_sn h < am_mod (h_sn_size h);
  hw_so : 0 <= h_so h < 2 ^ 16;
  (** SO is non-zero exactly in the segments that carry the SO field. *)
  hw_si : si_has_so (h_si h) = negb (h_so h =? 0)
}.

Lemma am_mod_12 : am_mod size12bits = 2 ^ 12. Proof. done. Qed.
Lemma am_mod_18 : am_mod size18bits = 2 ^ 18. Proof. done. Qed.

Lemma write_header_length h :
  header_wf h -> zlen (rlc_am_write_data_pdu_header h) = get_packed_size h.
Proof.
  intros [_ _ _ Hsi]. unfold rlc_am_write_data_pdu_header, get_packed_size,
    rlc_am_pdu_header_max_size. rewrite length_app, Hsi.
  destruct (h_sn_size h), (h_so h =? 0); simpl; lia.
Qed.

Lemma read_header_so_write si so r :
  0 <= so < 2 ^ 16 -> si_has_so si = negb (so =? 0) ->
  read_header_so si
    ((if negb (so =? 0) then [u8 (Z.shiftr so 8); Z.land so 0xff] else []) ++ r)
  = Some (so, r).
Proof.
  intros Hso Hsi. unfold read_header_so. rewrite Hsi.
  destruct (Z.eqb_spec so 0) as [->|]; simpl; [done|]. by rewrite so_roundtrip.
Qed.

Lemma land_range x k : 0 <= k -> 0 <= Z.land x (2 ^ k - 1) < 2 ^ k.
Proof. intros. rewrite land_mask by done. apply Z.mod_pos_bound. lia. Qed.

Lemma read_header_sn_range sz b0 r sn r' :
  read_header_sn sz b0 r = Some (sn, r') -> 0 <= sn < am_mod sz.
Proof.
  unfold read_header_sn. intros E.
  assert (L : forall x, 0 <= Z.land x 255 < 256) by (intros x; apply (land_range x 8); lia).
  destruct sz.
  - destruct r as [|b1 r]; [done|]. injection E as <- _. rewrite am_mod_12.
    pose proof (land_range b0 4 ltac:(lia) : 0 <= Z.land b0 15 < 16). pose proof (L b1).
    rewrite (lor_shiftl_add _ _ 8) by lia. lia.
  - destruct (negb _); [done|]. destruct r as [|b1 [|b2 r]]; [done..|].
    injection E as <- _. rewrite am_mod_18.
    pose proof (land_range b0 2 ltac:(lia) : 0 <= Z.land b0 3 < 4). pose proof (L b1). pose proof (L b2).
    rewrite <- Z.lor_assoc, (lor_shiftl_add (Z.land b1 255) _ 8) by lia.
    rewrite (lor_shiftl_add _ _ 16) by lia. lia.
Qed.

Lemma read_header_so_range si r so r' :
  read_header_so si r = Some (so, r') -> 0 <= so < 2 ^ 16 /\ (si_has_so si = false -> so = 0).
Proof.
  unfold read_header_so. destruct (si_has_so si); [|by intros [= <- _]].
  destruct r as [|s0 [|s1 r]]; [done..|]. intros [= <- _]. split; [|done].
  assert (L : forall x, 0 <= Z.land x 255 < 256) by (intros x; apply (land_range x 8); lia).
  pose proof (L s0). pose proof (L s1). rewrite (lor_shiftl_add _ _ 8) by lia. lia.
Qed.

(** What the header reader returns is in range. *)
Lemma read_header_range pdu sz h :
  rlc_am_read_data_pdu_header pdu sz = Some h ->
  h_sn_size h = sz /\ 0 <= h_p h < 2 /\ 0 <= h_sn h < am_mod sz /\ 0 <= h_so h < 2 ^ 16 /\
  (si_has_so (h_si h) = false -> h_so h = 0).
Proof.
  unfold rlc_am_read_data_pdu_header. destruct (_ <=? _); [done|].
  destruct pdu as [|b0 r]; [done|]. intros H.
  destruct (read_header_sn sz b0 r) as [[sn r1]|] eqn:Esn; simpl in H; [|done].
  destruct (read_header_so _ r1) as [[so r2]|] eqn:Eso; simpl in H; [|done].
  injection H as <-. apply read_header_sn_range in Esn. apply read_header_so_range in Eso as [? ?].
  simpl. split_and!; try done; try lia; apply (land_range _ 1); lia.
Qed.

Lemma read_written_header h payload :
  header_wf h -> payload <> [] ->
  rlc_am_read_data_pdu_header (rlc_am_write_data_pdu_header h ++ payload) (h_sn_size h)
  = Some h.
Proof.
  intros Hw Hpay. pose proof (write_header_length h Hw) as Hlen.
  destruct Hw as [Hp Hsn Hso Hsi].
  destruct h as [dc p si sz sn so]; simpl in *.
  unfold rlc_am_read_data_pdu_header. rewrite length_app.
  assert (0 < length payload)%nat by (destruct payload; simpl; [done|lia]).
  destruct (Z.leb_spec (Z.of_nat (length (rlc_am_write_data_pdu_header
    (mk_header dc p si sz sn so)) + length payload)) (rlc_am_pdu_header_min_size sz)).
  { unfold get_packed_size, rlc_am_pdu_header_max_size in Hlen; simpl in Hlen.
    destruct (si_has_so si); lia. }
  clear Hlen. destruct sz; cbv [rlc_am_write_data_pdu_header h_dc h_p h_si h_sn_size h_sn h_so];
    cbn [app].
  - rewrite am_mod_12 in Hsn. fold (header_octet dc p si (Z.land (Z.shiftr sn 8) 0x0f)).
    assert (Hx : 0 <= Z.land (Z.shiftr sn 8) 0x0f < 16).
    { change 0x0f with (2 ^ 4 - 1). rewrite land_mask by lia. divmod. }
    destruct (header_octet_fields dc p si _ Hp Hx) as (-> & -> & -> & Hlo & _).
    cbn [read_header_sn]. rewrite Hlo, sn12_roundtrip by done. cbn.
    by rewrite read_header_so_write.
  - rewrite am_mod_18 in Hsn. fold (header_octet dc p si (Z.land (Z.shiftr sn 16) 0x03)).
    assert (Hx : 0 <= Z.land (Z.shiftr sn 16) 0x03 < 4).
    { change 0x03 with (2 ^ 2 - 1). rewrite land_mask by lia. divmod. }
    destruct (header_octet_fields dc p si (Z.land (Z.shiftr sn 16) 0x03) Hp ltac:(lia)) as (-> & -> & -> & _ & Hc & Hlo & _).
    cbn [read_header_sn]. rewrite Hc, Hlo.
    rewrite <- (Z.land_assoc _ 0x03 0x0c), <- (Z.land_assoc _ 0x03 0x03).
    change (Z.land 0x03 0x0c) with 0. change (Z.land 0x03 0x03) with 0x03.
    rewrite Z.land_0_r, sn18_roundtrip by done. cbn. by rewrite read_header_so_write.
Qed.

(** ** STATUS PDU: lemmas *)

#[export] Instance am_sn_space sz : SnSpace (am_mod sz) (am_window sz).
Proof.
  destruct sz; constructor; try done; [exists (2 ^ 20)|exists (2 ^ 14)]; done.
Qed.

Lemma nack_size_pos sz n : 2 <= nack_size sz n <= 8.
Proof.
  unfold nack_size, sizeof_nack_so, sizeof_nack_range.
  destruct sz, (has_so n), (has_nack_range n); simpl; lia.
Qed.

Lemma nacks_size_app sz l1 l2 : nacks_size sz (l1 ++ l2) = nacks_size sz l1 + nacks_size sz l2.
Proof. unfold nacks_size. induction l1; simpl; lia. Qed.

Lemma nacks_size_bounds sz l : 2 * zlen l <= nacks_size sz l <= 8 * zlen l.
Proof.
  induction l as [|n l IH]; [done|]. pose proof (nack_size_pos sz n).
  change (nacks_size sz (n :: l)) with (nack_size sz n + nacks_size sz l).
  rewrite length_cons. lia.
Qed.

Lemma unmergeable_snoc sz l a b :
  unmergeable sz (l ++ [a; b]) <-> unmergeable sz (l ++ [a]) /\ can_be_merged sz a b = false.
Proof.
  induction l as [|x [|y l] IH]; simpl in *.
  - tauto.
  - tauto.
  - simpl in IH. tauto.
Qed.

Lemma unmergeable_init sz l x : unmergeable sz (l ++ [x]) -> unmergeable sz l.
Proof.
  destruct l as [|a l] using rev_ind; [done|].
  rewrite <- app_assoc; simpl. rewrite unmergeable_snoc. tauto.
Qed.

Section merge.
Context (sz : rlc_am_sn_size).

Lemma can_be_merged_true a b :
  can_be_merged sz a b = true ->
  nack_sn b = (nack_sn a + range_or_one a) mod am_mod sz /\
  eff_end a = so_end_of_sdu /\ eff_start b = 0 /\
  range_or_one a + range_or_one b <= 255.
Proof.
  unfold can_be_merged, eff_end, eff_start, range_or_one. intros H.
  destruct (Z.eqb_spec (nack_sn b) (u32 (if has_nack_range a then nack_sn a + nack_range a
    else nack_sn a + 1) mod am_mod sz)) as [E|]; [|done]. rewrite u32_mod in E. simpl in H.
  destruct (has_so a); simpl in *.
  - destruct (Z.eqb_spec (so_end a) so_end_of_sdu); [|done]. simpl in *.
    destruct (has_so b); simpl in *.
    + destruct (Z.eqb_spec (so_start b) 0); [|done]. simpl in *.
      destruct (has_nack_range a); split_and!; (done || lia).
    + destruct (has_nack_range a); split_and!; (done || lia).
  - destruct (has_so b); simpl in *.
    + destruct (Z.eqb_spec (so_start b) 0); [|done]. simpl in *.
      destruct (has_nack_range a); split_and!; (done || lia).
    + destruct (has_nack_range a); split_and!; (done || lia).
Qed.

Lemma range_or_one_pos n : nack_wf sz n -> 1 <= range_or_one n <= 255.
Proof.
  intros [_ _ _ _ Hr _]. unfold range_or_one. destruct (has_nack_range n); [auto|lia].
Qed.

(** The expanded NACK, field by field. *)
Lemma merge_nack_fields a b :
  nack_wf sz a -> nack_wf sz b -> can_be_merged sz a b = true ->
  let c := merge_nack a b in
  nack_sn c = nack_sn a /\ has_nack_range c = true /\
  nack_range c = range_or_one a + range_or_one b /\
  eff_start c = eff_start a /\ eff_end c = eff_end b.
Proof.
  intros Ha Hb Hm. pose proof (range_or_one_pos a Ha). pose proof (range_or_one_pos b Hb).
  apply can_be_merged_true in Hm as (_ & Hea & Hsb & Hsum).
  unfold merge_nack, eff_start, eff_end, range_or_one, u8 in *.
  destruct (has_so a), (has_so b), (has_nack_range a), (has_nack_range b); simpl in *;
    split_and!; try done; rewrite ?Z.mod_small by lia; lia.
Qed.

Lemma merge_nack_wf a b :
  nack_wf sz a -> nack_wf sz b -> can_be_merged sz a b = true -> nack_wf sz (merge_nack a b).
Proof.
  intros Ha Hb Hm. pose proof (merge_nack_fields a b Ha Hb Hm) as (Hsn & Hr & Hn & _).
  pose proof (range_or_one_pos a Ha). pose proof (range_or_one_pos b Hb).
  apply can_be_merged_true in Hm as (_ & _ & _ & Hsum).
  destruct Ha, Hb. constructor.
  - by rewrite Hsn.
  - unfold merge_nack. destruct (has_so a), (has_so b); simpl; lia.
  - unfold merge_nack, so_end_of_sdu. destruct (has_so a), (has_so b); simpl; lia.
  - unfold merge_nack. destruct (has_so a), (has_so b); simpl; auto; done.
  - intros _. rewrite Hn. lia.
  - by rewrite Hr.
Qed.

(** Merging two NACKs does not change what they say. *)
Lemma merge_nack_meaning a b :
  nack_wf sz a -> nack_wf sz b -> can_be_merged sz a b = true ->
  nack_meaning (am_mod sz) (merge_nack a b)
  = nack_meaning (am_mod sz) a ++ nack_meaning (am_mod sz) b.
Proof.
  intros Ha Hb Hm. pose proof (merge_nack_fields a b Ha Hb Hm) as (Hsn & Hr & Hn & Hs & He).
  pose proof (range_or_one_pos a Ha). pose proof (range_or_one_pos b Hb).
  apply can_be_merged_true in Hm as (Hb_sn & Hea & Hsb & Hsum).
  assert (Hc : range_or_one (merge_nack a b) = range_or_one a + range_or_one b).
  { unfold range_or_one at 1. by rewrite Hr. }
  unfold nack_meaning. rewrite Hc, Z2Nat.inj_add, seq_app, fmap_app by lia. f_equal.
  - apply list_fmap_ext. intros i k Hk%lookup_seq. unfold nack_unit.
    rewrite Hsn, Hs, Hc, Hea. f_equal.
    destruct (Z.eqb_spec (Z.of_nat k) (range_or_one a + range_or_one b - 1)); [lia|].
    by destruct (Z.of_nat k =? range_or_one a - 1).
  - replace (0 + Z.to_nat (range_or_one a))%nat with (Z.to_nat (range_or_one a) + 0)%nat by lia.
    rewrite <- fmap_add_seq, <- list_fmap_compose.
    apply list_fmap_ext. intros i k Hk%lookup_seq. unfold compose, nack_unit.
    rewrite Hsn, Hc, He, Hsb, Hb_sn, Zplus_mod_idemp_l.
    destruct (Nat.eqb_spec (Z.to_nat (range_or_one a) + k) 0); [lia|].
    f_equal; [f_equal|].
    + f_equal. lia.
    + by destruct (Nat.eqb k 0).
    + destruct (Z.eqb_spec (Z.of_nat (Z.to_nat (range_or_one a) + k))
                           (range_or_one a + range_or_one b - 1)),
               (Z.eqb_spec (Z.of_nat k) (range_or_one b - 1)); (done || lia).
Qed.

(** An expanded NACK stays unmergeable with the one before it. *)
Lemma merge_nack_unmergeable p a b :
  nack_wf sz a -> nack_wf sz b -> can_be_merged sz a b = true ->
  can_be_merged sz p a = false -> can_be_merged sz p (merge_nack a b) = false.
Proof.
  intros Ha Hb Hm Hp. destruct (can_be_merged sz p (merge_nack a b)) eqn:E; [|done].
  exfalso. pose proof (merge_nack_fields a b Ha Hb Hm) as (Hsn & Hr & Hn & Hs & He).
  pose proof (range_or_one_pos b Hb).
  unfold can_be_merged in E, Hp. rewrite Hsn in E.
  destruct (negb (nack_sn a =? _)) in E, Hp; [done|].
  destruct (has_so p && _) in E, Hp; [done|].
  assert (Hsum : range_or_one p + range_or_one a + range_or_one b <= 255).
  { destruct (has_so (merge_nack a b) && _); [done|].
    unfold range_or_one at 2 in E. rewrite Hr, Hn in E. lia. }
  destruct (has_so a && negb (so_start a =? 0)) eqn:Hsa; [|lia].
  apply andb_true_iff in Hsa as [Hsa Hne].
  assert (Hso : has_so (merge_nack a b) = true).
  { unfold merge_nack. by destruct (has_so b). }
  unfold eff_start in Hs. rewrite Hso, Hsa in Hs. rewrite Hso, Hs, Hne in E. done.
Qed.
End merge.

Lemma reported_app l1 l2 k j : reported (l1 ++ l2) k j <-> reported l1 k j \/ reported l2 k j.
Proof.
  unfold reported. setoid_rewrite elem_of_app. split.
  - intros (a & e & [?|?] & ?); [left|right]; eauto.
  - intros [(a & e & ? & ?)|(a & e & ? & ?)]; eauto.
Qed.

Lemma reported_one sn a e k j : reported [(sn, a, e)] k j <-> k = sn /\ a <= j <= e.
Proof.
  unfold reported. setoid_rewrite list_elem_of_singleton. split.
  - by intros (? & ? & [= -> -> ->] & ?).
  - intros [-> ?]. eauto.
Qed.

(** *** [push_nack] *)

(** [push_nack] either appends or expands the last NACK. *)
Lemma push_nack_cases s n :
  (push_nack s n = mk_status (s_sn_size s) (nacks s ++ [n])
     (u32 (packed_size s + nack_size (s_sn_size s) n)) (ack_sn s) /\
   (forall l a, nacks s = l ++ [a] -> can_be_merged (s_sn_size s) a n = false)) \/
  (exists l a, nacks s = l ++ [a] /\ can_be_merged (s_sn_size s) a n = true /\
   push_nack s n = mk_status (s_sn_size s) (l ++ [merge_nack a n])
     (u32 (u32 (packed_size s - nack_size (s_sn_size s) a)
           + nack_size (s_sn_size s) (merge_nack a n))) (ack_sn s)).
Proof.
  unfold push_nack. destruct (nacks s) as [|a l _] eqn:E using rev_ind.
  - left. split; [done|]. intros l a H. by destruct l.
  - rewrite last_snoc. destruct (can_be_merged _ a n) eqn:Hm; simpl.
    + right. exists l, a. by rewrite removelast_last.
    + left. split; [done|]. by intros l' a' [_ ->]%app_inj_tail.
Qed.

Lemma push_nack_wf s n :
  status_wf s -> nack_wf (s_sn_size s) n -> packed_size s + 8 < 2 ^ 32 ->
  status_wf (push_nack s n).
Proof.
  intros [Hn Hu Hs Hb] Hnw Hbound. pose proof (nack_size_pos (s_sn_size s) n).
  destruct (push_nack_cases s n) as [[-> Hno]|(l & a & E & Hm & ->)].
  - assert (0 <= packed_size s).
    { pose proof (nacks_size_bounds (s_sn_size s) (nacks s)). unfold sizeof_header_ack_sn in Hs. lia. }
    unfold u32. rewrite Z.mod_small by lia. constructor; simpl.
    + apply Forall_app; auto.
    + destruct (nacks s) as [|a l _] eqn:E using rev_ind; [done|].
      rewrite <- app_assoc; simpl. rewrite unmergeable_snoc. eauto.
    + rewrite nacks_size_app, Hs. simpl. lia.
    + lia.
  - rewrite E in Hn, Hu, Hs. apply Forall_app in Hn as [Hl Ha%Forall_inv].
    rewrite nacks_size_app in Hs. simpl in Hs.
    pose proof (nacks_size_bounds (s_sn_size s) l).
    pose proof (nack_size_pos (s_sn_size s) a).
    pose proof (nack_size_pos (s_sn_size s) (merge_nack a n)).
    unfold sizeof_header_ack_sn, u32 in *.
    rewrite (Z.mod_small (packed_size s - _)), Z.mod_small by lia. constructor; simpl.
    + apply Forall_app. split; [done|]. apply Forall_singleton. by apply merge_nack_wf.
    + destruct l as [|b l _] using rev_ind; [done|].
      rewrite <- app_assoc in *; simpl in *. rewrite unmergeable_snoc in *.
      destruct Hu as [Hu Hba]. split; [done|]. by apply merge_nack_unmergeable.
    + rewrite nacks_size_app. unfold sizeof_header_ack_sn. simpl. lia.
    + lia.
Qed.

Lemma push_nack_sn_size s n : s_sn_size (push_nack s n) = s_sn_size s.
Proof. by destruct (push_nack_cases s n) as [[-> _]|(? & ? & _ & _ & ->)]. Qed.

Lemma push_nack_ack_sn s n : ack_sn (push_nack s n) = ack_sn s.
Proof. by destruct (push_nack_cases s n) as [[-> _]|(? & ? & _ & _ & ->)]. Qed.

Lemma push_nack_length s n : (length (nacks (push_nack s n)) <= S (length (nacks s)))%nat.
Proof.
  destruct (push_nack_cases s n) as [[-> _]|(l & a & E & _ & ->)]; simpl;
    rewrite ?E, !length_app; simpl; lia.
Qed.

(** Pushing a NACK adds what it says, merged or not. *)
Lemma push_nack_meaning s n :
  status_wf s -> nack_wf (s_sn_size s) n ->
  status_meaning (push_nack s n)
  = status_meaning s ++ nack_meaning (am_mod (s_sn_size s)) n.
Proof.
  intros [Hn _ _ _] Hnw. unfold status_meaning. rewrite push_nack_sn_size.
  destruct (push_nack_cases s n) as [[-> _]|(l & a & E & Hm & ->)]; simpl.
  - rewrite bind_app. simpl. by rewrite app_nil_r.
  - rewrite E in *. apply Forall_app in Hn as [_ Ha%Forall_inv].
    rewrite !bind_app; simpl. rewrite !app_nil_r, merge_nack_meaning by done.
    by rewrite app_assoc.
Qed.

(** *** Packing *)
Lemma pack_nack_tail_length n :
  zlen (pack_nack_tail n) = (if has_so n then sizeof_nack_so else 0) +
                            (if has_nack_range n then sizeof_nack_range else 0).
Proof. unfold pack_nack_tail. by destruct (has_so n), (has_nack_range n). Qed.

Lemma pack_nacks_length l :
  zlen (pack_nacks_12bit l) = nacks_size size12bits l /\
  zlen (pack_nacks_18bit l) = nacks_size size18bits l.
Proof.
  induction l as [|n l [IH1 IH2]]; [done|].
  pose proof (pack_nack_tail_length n) as Ht.
  split; cbn [pack_nacks_12bit pack_nacks_18bit];
    [change (nacks_size size12bits (n :: l)) with (nack_size size12bits n + nacks_size size12bits l)
    |change (nacks_size size18bits (n :: l)) with (nack_size size18bits n + nacks_size size18bits l)];
    rewrite !length_app, !Nat2Z.inj_add, Ht, ?IH1, ?IH2; unfold nack_size; simpl; lia.
Qed.

(** The length the counter keeps is the packed length. *)
Lemma pack_size s : status_wf s -> zlen (pack s) = packed_size s.
Proof.
  intros [_ _ Hs _]. destruct (pack_nacks_length (nacks s)) as [H1 H2].
  rewrite Hs. unfold pack, pack_12bit, pack_18bit.
  destruct (s_sn_size s); rewrite length_app, Nat2Z.inj_add, ?H1, ?H2; done.
Qed.

(** *** Unpacking what was packed *)
Lemma u8_hi_lo x : 0 <= x < 2 ^ 16 -> Z.lor (u16 (Z.shiftl (u8 (Z.shiftr x 8)) 8)) (u8 x) = x.
Proof.
  intros. unfold u16, u8. rewrite Z.shiftr_div_pow2 by lia.
  rewrite (Z.mod_small (Z.shiftl _ 8)).
  - rewrite lor_shiftl_add by divmod. divmod.
  - rewrite Z.shiftl_mul_pow2 by lia. divmod.
Qed.

Lemma unpack_pack_range n e3 r :
  (has_nack_range n = true -> 1 <= nack_range n <= 255) ->
  (has_nack_range n = false -> nack_range n = 0) ->
  negb (e3 =? 0) = has_nack_range n ->
  unpack_nack_range e3 (mk_nack (nack_sn n) (has_so n) (so_start n) (so_end n) false 0)
    ((if has_nack_range n then [u8 (nack_range n)] else []) ++ r) = Some (n, r).
Proof.
  destruct n as [sn so s e hr rg]; simpl. intros Hr Hnr He3. unfold unpack_nack_range.
  destruct (e3 =? 0), hr; try done; simpl; [by rewrite Hnr|].
  unfold u8, sizeof_nack_range. rewrite Z.mod_small by lia. by zfalse.
Qed.

Lemma unpack_nack_tail sz n e2 e3 r :
  nack_wf sz n ->
  negb (e2 =? 0) = has_so n -> negb (e3 =? 0) = has_nack_range n ->
  (x ← unpack_nack_so e2 (mk_nack (nack_sn n) false 0 so_end_of_sdu false 0)
         (pack_nack_tail n ++ r);
   unpack_nack_range e3 x.1 x.2) = Some (n, r).
Proof.
  intros [_ Hs He Hno Hr Hnr] He2 He3. unfold unpack_nack_so, pack_nack_tail.
  pose proof (unpack_pack_range n e3 r Hr Hnr He3) as Hp.
  rewrite <- app_assoc. destruct (e2 =? 0), (has_so n); try done.
  - destruct Hno as [E1 E2]; [done|]. simpl. by rewrite E1, E2 in Hp.
  - rewrite length_app. unfold sizeof_nack_so. simpl. zfalse. simpl. by rewrite !u8_hi_lo by done.
Qed.

(** The octet that carries the low SN bits and the E1, E2, E3 flags. *)
Lemma nack_octet_12bit x more so rg :
  0 <= x < 16 ->
  let b := Z.lor (Z.lor (Z.lor (Z.shiftl x 4) (flag more 0x08)) (flag so 0x04)) (flag rg 0x02) in
  Z.land b 0x08 = flag more 0x08 /\ Z.land b 0x04 = flag so 0x04 /\ Z.land b 0x02 = flag rg 0x02 /\ Z.land b 0x01 = 0 /\ Z.shiftr (Z.land b 0xf0) 4 = x.
Proof. intros Hx b. unfold b; clear b. destruct more, so, rg; by_evaluation 16 x. Qed.

Lemma nack_octet_18bit x more so rg :
  0 <= x < 4 ->
  let b := Z.lor (Z.lor (Z.lor (Z.shiftl x 6) (flag more 0x20)) (flag so 0x10)) (flag rg 0x08) in
  Z.land b 0x20 = flag more 0x20 /\ Z.land b 0x10 = flag so 0x10 /\ Z.land b 0x08 = flag rg 0x08 /\ Z.land b 0x07 = 0 /\ Z.shiftr (Z.land b 0xc0) 6 = x.
Proof. intros Hx b. unfold b; clear b. destruct more, so, rg; by_evaluation 4 x. Qed.

Lemma flag_eqb b m : m <> 0 -> negb (flag b m =? 0) = b.
Proof. intros. destruct b; simpl; [|done]. by destruct (Z.eqb_spec m 0). Qed.

Definition pack_one_nack_12bit (n : rlc_am_status_nack) (more : bool) : bytes :=
  [Z.land (Z.shiftr (nack_sn n) 4) 0xff;
   Z.lor (Z.lor (Z.lor (Z.shiftl (Z.land (nack_sn n) 0x0f) 4) (flag more 0x08))
      (flag (has_so n) 0x04)) (flag (has_nack_range n) 0x02)] ++ pack_nack_tail n.

Definition pack_one_nack_18bit (n : rlc_am_status_nack) (more : bool) : bytes :=
  [Z.land (Z.shiftr (nack_sn n) 10) 0xff; Z.land (Z.shiftr (nack_sn n) 2) 0xff;
   Z.lor (Z.lor (Z.lor (Z.land (Z.shiftl (nack_sn n) 6) 0xc0) (flag more 0x20))
      (flag (has_so n) 0x10)) (flag (has_nack_range n) 0x08)] ++ pack_nack_tail n.

Lemma unpack_one_12bit n more r :
  nack_wf size12bits n ->
  unpack_one_nack_12bit (pack_one_nack_12bit n more ++ r) = Some (n, flag more 0x08, r).
Proof.
  intros Hn. pose proof (nw_sn _ _ Hn) as Hsn. rewrite am_mod_12 in Hsn.
  unfold unpack_one_nack_12bit, pack_one_nack_12bit. cbn [app].
  rewrite !length_cons.
  destruct (Z.ltb_spec (Z.of_nat (S (S (length (pack_nack_tail n ++ r)))))
    (sizeof_nack_sn_ext size12bits)); [simpl in *; lia|].
  assert (Hx : 0 <= Z.land (nack_sn n) 0x0f < 16).
  { change 0x0f with (2 ^ 4 - 1). rewrite land_mask by lia. divmod. }
  destruct (nack_octet_12bit _ more (has_so n) (has_nack_range n) Hx)
    as (-> & -> & -> & -> & ->).
  cbn [negb Z.eqb].
  replace (Z.lor (Z.shiftl (Z.land (Z.land (Z.shiftr (nack_sn n) 4) 0xff) 0xff) 4)
            (Z.land (nack_sn n) 0x0f)) with (nack_sn n).
  - pose proof (unpack_nack_tail size12bits n (flag (has_so n) 0x04)
      (flag (has_nack_range n) 0x02) r Hn) as Ht.
    rewrite !flag_eqb in Ht by done. specialize (Ht eq_refl eq_refl).
    destruct (unpack_nack_so _ _ _) as [[n' r']|]; [|done]. simpl in *.
    by rewrite Ht.
  - change 0x0f with (2 ^ 4 - 1). change 0xff with (2 ^ 8 - 1).
    rewrite !land_mask, Z.mod_mod, Z.shiftr_div_pow2, lor_shiftl_add by (lia || divmod).
    divmod.
Qed.

Lemma unpack_one_18bit n more r :
  nack_wf size18bits n ->
  unpack_one_nack_18bit (pack_one_nack_18bit n more ++ r) = Some (n, flag more 0x20, r).
Proof.
  intros Hn. pose proof (nw_sn _ _ Hn) as Hsn. rewrite am_mod_18 in Hsn.
  unfold unpack_one_nack_18bit, pack_one_nack_18bit. cbn [app].
  rewrite !length_cons.
  destruct (Z.ltb_spec (Z.of_nat (S (S (S (length (pack_nack_tail n ++ r))))))
    (sizeof_nack_sn_ext size18bits)); [simpl in *; lia|].
  assert (Hx : 0 <= nack_sn n mod 4 < 4) by divmod.
  replace (Z.land (Z.shiftl (nack_sn n) 6) 0xc0) with (Z.shiftl (nack_sn n mod 4) 6).
  2:{ change 0xc0 with (Z.shiftl (2 ^ 2 - 1) 6). rewrite <- Z.shiftl_land, land_mask by lia. done. }
  destruct (nack_octet_18bit _ more (has_so n) (has_nack_range n) Hx)
    as (-> & -> & -> & -> & ->).
  cbn [negb Z.eqb].
  replace (Z.lor (Z.lor (Z.shiftl (Z.land (Z.land (Z.shiftr (nack_sn n) 10) 0xff) 0xff) 10)
            (Z.shiftl (Z.land (Z.land (Z.shiftr (nack_sn n) 2) 0xff) 0xff) 2))
            (nack_sn n mod 4)) with (nack_sn n).
  - pose proof (unpack_nack_tail size18bits n (flag (has_so n) 0x10)
      (flag (has_nack_range n) 0x08) r Hn) as Ht.
    rewrite !flag_eqb in Ht by done. specialize (Ht eq_refl eq_refl).
    destruct (unpack_nack_so _ _ _) as [[n' r']|]; [|done]. simpl in *.
    by rewrite Ht.
  - change 0xff with (2 ^ 8 - 1).
    rewrite !land_mask, !Z.mod_mod, !Z.shiftr_div_pow2 by lia.
    rewrite <- Z.lor_assoc, (lor_shiftl_add _ _ 2), lor_shiftl_add by (lia || divmod).
    divmod.
Qed.

Section unpack_loop.
Context (sz : rlc_am_sn_size) (mask : Z) (Hmask : mask <> 0).
Context (one : bytes -> option (rlc_am_status_nack * Z * bytes)).
Context (pack1 : rlc_am_status_nack -> bool -> bytes).
Context (Hone : forall n more r, nack_wf sz n -> one (pack1 n more ++ r) = Some (n, flag more mask, r)).

Fixpoint pack_all (l : list rlc_am_status_nack) : bytes :=
  match l with
  | [] => []
  | n :: rest => pack1 n (negb (bool_decide (rest = []))) ++ pack_all rest
  end.

Lemma unpack_pack_all l fuel e1 s :
  s_sn_size s = sz -> Forall (nack_wf sz) l ->
  unmergeable sz (nacks s ++ l) -> (length l < fuel)%nat ->
  0 <= packed_size s -> packed_size s + nacks_size sz l < 2 ^ 32 ->
  (e1 =? 0) = bool_decide (l = []) ->
  unpack_nacks fuel one e1 (pack_all l) s
  = ok (Some (mk_status sz (nacks s ++ l) (packed_size s + nacks_size sz l) (ack_sn s))).
Proof using Hone Hmask.
  revert fuel e1 s. induction l as [|n l IH]; intros fuel e1 s Hsz Hl Hu Hfuel H0 Hsize He1;
    (destruct fuel as [|fuel]; [simpl in *; lia|]); cbn [unpack_nacks pack_all];
    rewrite He1, ?bool_decide_true, ?bool_decide_false by done.
  - rewrite app_nil_r. simpl. rewrite Z.add_0_r. subst sz. by destruct s.
  - apply Forall_cons in Hl as [Hn Hl]. rewrite Hone by done.
    change (nacks_size sz (n :: l)) with (nack_size sz n + nacks_size sz l) in *.
    pose proof (nack_size_pos sz n). pose proof (nacks_size_bounds sz l).
    assert (Hpush : push_nack s n = mk_status sz (nacks s ++ [n])
                      (packed_size s + nack_size sz n) (ack_sn s)).
    { destruct (push_nack_cases s n) as [[-> _]|(l' & a & E & Hm & _)].
      - rewrite Hsz. unfold u32. by rewrite Z.mod_small by lia.
      - exfalso. rewrite E, Hsz in *. rewrite <- app_assoc in Hu. simpl in Hu.
        clear -Hm Hu. induction l' as [|x l' IH]; simpl in Hu.
        + destruct Hu. congruence.
        + apply IH. by destruct (l' ++ a :: n :: l); [|destruct Hu]. }
    rewrite Hpush. rewrite IH; simpl; [|done..| | | | |].
    + rewrite <- app_assoc; simpl. do 3 f_equal. lia.
    + by rewrite <- app_assoc.
    + simpl in Hfuel. lia.
    + lia.
    + lia.
    + unfold flag. destruct (decide (l = [])) as [->|]; [done|].
      rewrite bool_decide_false by done. simpl. by apply Z.eqb_neq.
Qed.
End unpack_loop.

Lemma pack_all_12bit l : pack_nacks_12bit l = pack_all pack_one_nack_12bit l.
Proof.
  induction l as [|n l IH]; [done|]. cbn [pack_nacks_12bit pack_all].
  unfold pack_one_nack_12bit at 1. by rewrite IH, <- app_assoc.
Qed.

Lemma pack_all_18bit l : pack_nacks_18bit l = pack_all pack_one_nack_18bit l.
Proof.
  induction l as [|n l IH]; [done|]. cbn [pack_nacks_18bit pack_all].
  unfold pack_one_nack_18bit at 1. by rewrite IH, <- app_assoc.
Qed.

Lemma pack_all_length_ge sz l :
  2 * zlen l <= zlen (match sz with size12bits => pack_nacks_12bit l
                      | size18bits => pack_nacks_18bit l end).
Proof.
  destruct (pack_nacks_length l) as [H1 H2].
  pose proof (nacks_size_bounds sz l). destruct sz; lia.
Qed.

Lemma ack_fields_12bit ack :
  0 <= ack < 2 ^ 12 ->
  let x := Z.land (Z.shiftr ack 8) 0x0f in
  Z.land (Z.shiftr x 7) 0x01 = 0 /\ Z.land (Z.shiftr x 4) 0x07 = 0 /\
  Z.lor (Z.shiftl (Z.land x 0x0f) 8) (Z.land (Z.land ack 0xff) 0xff) = ack.
Proof.
  intros Ha x. assert (Hx : 0 <= x < 16).
  { unfold x. change 0x0f with (2 ^ 4 - 1). rewrite land_mask by lia. divmod. }
  assert (Ho : Z.land (Z.shiftr x 7) 0x01 = 0 /\ Z.land (Z.shiftr x 4) 0x07 = 0 /\
               Z.land x 0x0f = x) by (clearbody x; by_evaluation 16 x).
  destruct Ho as (-> & -> & ->). split_and!; [done..|]. by apply sn12_roundtrip.
Qed.

(** The third octet: the six low bits [x] of ACK_SN and the E1 flag. *)
Lemma ack_octet_18bit x more :
  0 <= x < 64 ->
  let b := Z.lor (Z.land (Z.shiftl x 2) 0xfc) (flag more 0x02) in
  Z.land b 0x02 = flag more 0x02 /\ Z.land b 0x01 = 0 /\ Z.shiftr (Z.land b 0xfc) 2 = x.
Proof. intros Hx b. unfold b; clear b. destruct more; by_evaluation 64 x. Qed.

Lemma ack_fields_18bit ack more :
  0 <= ack < 2 ^ 18 ->
  let x := Z.land (Z.shiftr ack 14) 0x0f in
  let b := Z.lor (Z.land (Z.shiftl ack 2) 0xfc) (flag more 0x02) in
  Z.land (Z.shiftr x 7) 0x01 = 0 /\ Z.land (Z.shiftr x 4) 0x07 = 0 /\
  Z.land b 0x02 = flag more 0x02 /\ Z.land b 0x01 = 0 /\
  Z.lor (Z.lor (Z.shiftl (Z.land x 0x0f) 14)
               (Z.shiftl (Z.land (Z.land (Z.shiftr ack 6) 0xff) 0xff) 6))
        (Z.shiftr (Z.land b 0xfc) 2) = ack.
Proof.
  intros Ha x b. assert (Hx : 0 <= x < 16).
  { unfold x. change 0x0f with (2 ^ 4 - 1). rewrite land_mask by lia. divmod. }
  assert (Hxv : x = ack / 2 ^ 14).
  { unfold x. change 0x0f with (2 ^ 4 - 1). rewrite land_mask, Z.shiftr_div_pow2 by lia. divmod. }
  assert (Ho : Z.land (Z.shiftr x 7) 0x01 = 0 /\ Z.land (Z.shiftr x 4) 0x07 = 0 /\
               Z.land x 0x0f = x) by (clearbody x; clear Hxv; by_evaluation 16 x).
  destruct Ho as (-> & -> & ->).
  assert (Hb : b = Z.lor (Z.land (Z.shiftl (ack mod 64) 2) 0xfc) (flag more 0x02)).
  { unfold b. f_equal. change 0xfc with (Z.shiftl (2 ^ 6 - 1) 2).
    rewrite <- !Z.shiftl_land, !land_mask by lia. by rewrite Z.mod_mod. }
  rewrite Hb. destruct (ack_octet_18bit (ack mod 64) more ltac:(divmod)) as (-> & -> & ->).
  split_and!; [done..|]. rewrite Hxv. change 0xff with (2 ^ 8 - 1).
  rewrite !land_mask, !Z.mod_mod, !Z.shiftr_div_pow2 by lia.
  rewrite <- Z.lor_assoc, (lor_shiftl_add _ _ 6), lor_shiftl_add by (lia || divmod).
  divmod.
Qed.

Lemma unpack_packed_status s s0 :
  status_wf s -> 0 <= ack_sn s < am_mod (s_sn_size s) -> s_sn_size s0 = s_sn_size s ->
  unpack s0 (pack s) = ok (Some s).
Proof.
  intros [Hn Hu Hs Hb] Ha Hsz. unfold unpack, pack. rewrite Hsz.
  pose proof (pack_all_length_ge (s_sn_size s) (nacks s)) as Hlen.
  destruct s as [sz l size ack]; cbn [s_sn_size nacks packed_size ack_sn] in *.
  pose proof (nacks_size_bounds sz l) as Hnb. unfold sizeof_header_ack_sn in Hs.
  destruct sz.
  - unfold unpack_12bit, pack_12bit. cbn [nacks ack_sn app]. rewrite am_mod_12 in Ha.
    rewrite !length_cons. unfold sizeof_header_ack_sn. zfalse.
    destruct (ack_fields_12bit ack Ha) as (E1 & E2 & E3).
    unfold is_control_pdu, cpt_is_status. rewrite E1, E2, E3. cbn [dc_to_number negb Z.eqb].
    replace (negb (Z.land (match l with [] => 0x00 | _ => 0x80 end) 0x7f =? 0)) with false
      by (by destruct l).
    rewrite pack_all_12bit in *.
    rewrite (unpack_pack_all size12bits 0x08 ltac:(done) _ _ unpack_one_12bit); simpl;
      [by rewrite Hs|by rewrite Hsz|done..|lia|done| |by destruct l].
    unfold sizeof_header_ack_sn. lia.
  - unfold unpack_18bit, pack_18bit. cbn [nacks ack_sn app]. rewrite am_mod_18 in Ha.
    rewrite !length_cons. unfold sizeof_header_ack_sn. zfalse.
    replace (match l with [] => 0x00 | _ => 0x02 end)
      with (flag (negb (bool_decide (l = []))) 0x02) by (by destruct l).
    destruct (ack_fields_18bit ack (negb (bool_decide (l = []))) Ha) as (E1 & E2 & E4 & E5 & E3).
    unfold is_control_pdu, cpt_is_status. rewrite E1, E2, E3, E4, E5.
    cbn [dc_to_number negb Z.eqb]. rewrite pack_all_18bit in *.
    rewrite (unpack_pack_all size18bits 0x20 ltac:(done) _ _ unpack_one_18bit); simpl;
      [by rewrite Hs|by rewrite Hsz|done..|lia|done| |by destruct l].
    unfold sizeof_header_ack_sn. lia.
Qed.

(** *** Unpacking arbitrary input *)

(** Every NACK consumes at least two octets. *)
Definition consumes (one : bytes -> option (rlc_am_status_nack * Z * bytes)) : Prop :=
  forall r n e r', one r = Some (n, e, r') -> (length r' < length r)%nat.

Lemma unpack_nack_so_length e n r n' r' :
  unpack_nack_so e n r = Some (n', r') -> (length r' <= length r)%nat.
Proof.
  unfold unpack_nack_so. destruct (e =? 0); [by intros [= <- <-]|].
  destruct (_ <? _); [done|]. destruct r as [|? [|? [|? [|? ?]]]]; try done.
  intros [= <- <-]. simpl. lia.
Qed.

Lemma unpack_nack_range_length e n r n' r' :
  unpack_nack_range e n r = Some (n', r') -> (length r' <= length r)%nat.
Proof.
  unfold unpack_nack_range. destruct (e =? 0); [by intros [= <- <-]|].
  destruct (_ <? _); [done|]. destruct r; try done. intros [= <- <-]. simpl. lia.
Qed.

Lemma unpack_tail_length e2 e3 n r n' r' (e1 e1' : Z) :
  (x ← unpack_nack_so e2 n r; let '(n, r) := x in
   y ← unpack_nack_range e3 n r; let '(n, r) := y in Some (n, e1, r)) = Some (n', e1', r') ->
  (length r' <= length r)%nat.
Proof.
  destruct (unpack_nack_so e2 n r) as [[n1 r1]|] eqn:E1; [|done]. simpl.
  destruct (unpack_nack_range e3 n1 r1) as [[n2 r2]|] eqn:E2; [|done]. simpl.
  intros [= _ _ <-]. apply unpack_nack_so_length in E1. apply unpack_nack_range_length in E2. lia.
Qed.

Lemma unpack_one_12bit_consumes : consumes unpack_one_nack_12bit.
Proof.
  intros r n e r'. unfold unpack_one_nack_12bit. destruct (_ <? _); [done|].
  destruct r as [|b0 [|b1 r]]; try done. destruct (negb _); [done|].
  intros H%unpack_tail_length. simpl. lia.
Qed.

Lemma unpack_one_18bit_consumes : consumes unpack_one_nack_18bit.
Proof.
  intros r n e r'. unfold unpack_one_nack_18bit. destruct (_ <? _); [done|].
  destruct r as [|b0 [|b1 [|b2 r]]]; try done. destruct (negb _); [done|].
  intros H%unpack_tail_length. simpl. lia.
Qed.

Lemma unpack_nacks_total one fuel e1 r s :
  consumes one -> (length r < fuel)%nat ->
  exists o, unpack_nacks fuel one e1 r s = ok o /\
    (forall s', o = Some s' -> s_sn_size s' = s_sn_size s /\ ack_sn s' = ack_sn s).
Proof.
  intros Hc. revert e1 r s. induction fuel as [|fuel IH]; intros e1 r s Hf; [lia|].
  simpl. destruct (e1 =? 0); [by eexists; split; [done|]; intros ? [= <-]|].
  destruct (one r) as [[[n e] r']|] eqn:E; [|by eexists].
  pose proof (Hc _ _ _ _ E). destruct (IH e r' (push_nack s n)) as (o & Ho & Hs); [lia|].
  exists o. split; [done|]. intros s' Hs'. destruct (Hs s' Hs') as [-> ->].
  by rewrite push_nack_sn_size, push_nack_ack_sn.
Qed.

(** Unpacking terminates for every byte sequence. *)
Lemma unpack_ok s pdu : exists o, unpack s pdu = ok o.
Proof.
  unfold unpack, unpack_12bit, unpack_18bit.
  destruct (s_sn_size s); destruct (_ <? _); eauto; destruct (negb _); eauto;
    destruct pdu as [|b0 [|b1 [|b2 r]]]; eauto; destruct (negb _); eauto;
    destruct (negb _); eauto; edestruct unpack_nacks_total as (o & -> & _); eauto;
    eauto using unpack_one_12bit_consumes, unpack_one_18bit_consumes; simpl; lia.
Qed.

(** *** [trim] *)
Lemma status_wf_init s l a :
  status_wf s -> nacks s = l ++ [a] ->
  status_wf (mk_status (s_sn_size s) l
     (u32 (packed_size s - nack_size (s_sn_size s) a)) (nack_sn a)).
Proof.
  intros [Hn Hu Hs Hb] E. rewrite E in *. apply Forall_app in Hn as [Hl _].
  rewrite nacks_size_app in Hs. simpl in Hs. unfold sizeof_header_ack_sn in Hs.
  pose proof (nack_size_pos (s_sn_size s) a). pose proof (nacks_size_bounds (s_sn_size s) l).
  unfold u32. rewrite Z.mod_small by lia. constructor; simpl; [done| | |lia].
  - by eapply unmergeable_init.
  - unfold sizeof_header_ack_sn. lia.
Qed.

(** What the loop of [trim] establishes. *)
Definition trimmed (max : Z) (s s' : rlc_am_status_pdu) : Prop :=
  status_wf s' /\ s_sn_size s' = s_sn_size s /\
  (max < packed_size s' -> nacks s' = []) /\
  (forall l a, nacks s' = l ++ [a] -> nack_sn a <> ack_sn s') /\
  exists dropped, nacks s = nacks s' ++ dropped /\
    (ack_sn s' = match dropped with [] => ack_sn s | d :: _ => nack_sn d end).

Lemma trim_loop_spec fuel max s :
  status_wf s -> (length (nacks s) < fuel)%nat ->
  exists s', trim_loop fuel max s = ok s' /\ trimmed max s s'.
Proof.
  revert s. induction fuel as [|fuel IH]; intros s Hw Hf; [lia|]. simpl.
  destruct (nacks s) as [|a l _] eqn:E using rev_ind.
  { simpl. exists s. split; [done|]. split_and!; try done.
    - by intros [|??] ?; rewrite E.
    - exists []. by rewrite app_nil_r. }
  rewrite last_snoc, removelast_last. rewrite length_app in Hf. simpl in Hf.
  destruct ((max <? packed_size s) || (nack_sn a =? ack_sn s)) eqn:Hc.
  - destruct (IH _ (status_wf_init s l a Hw E)) as (s' & -> & Hw' & Hsz & Hfit & Hlast & d & Hd & Hack);
      [simpl; lia|]. simpl in *.
    exists s'. split; [done|]. split_and!; try done.
    exists (d ++ [a]). rewrite E, Hd, app_assoc. split; [done|]. rewrite Hack. by destruct d.
  - apply orb_false_iff in Hc as [H1%Z.ltb_ge H2%Z.eqb_neq].
    exists s. split; [done|]. split_and!; try done; [lia| |].
    + rewrite E. by intros l' a' [_ ->]%app_inj_tail.
    + exists []. by rewrite app_nil_r.
Qed.

Lemma trim_ok s max :
  status_wf s ->
  exists b s', trim s max = ok (b, s') /\
    (b = false <-> max < sizeof_header_ack_sn /\ max < packed_size s) /\
    (b = false -> s' = s) /\
    (b = true -> status_wf s' /\ s_sn_size s' = s_sn_size s /\ packed_size s' <= max /\
       exists dropped, nacks s = nacks s' ++ dropped /\
         ack_sn s' = match dropped with [] => ack_sn s | d :: _ => nack_sn d end).
Proof.
  intros Hw. unfold trim. pose proof (sw_size _ Hw) as Hsize.
  pose proof (nacks_size_bounds (s_sn_size s) (nacks s)). unfold sizeof_header_ack_sn in *.
  destruct (Z.leb_spec (packed_size s) max).
  { exists true, s. split_and!; try done; [lia|]. intros _. split_and!; try done.
    exists []. by rewrite app_nil_r. }
  destruct (Z.ltb_spec max 3); [exists false, s; split_and!; done|].
  destruct (trim_loop_spec (S (length (nacks s))) max s Hw) as
    (s' & -> & Hw' & Hsz & Hfit & _ & Hd); [lia|].
  exists true, s'. split_and!; try done; [lia|]. intros _. split_and!; try done.
  destruct (Z.le_gt_cases (packed_size s') max); [done|].
  pose proof (sw_size _ Hw') as Hs'. rewrite Hfit in Hs' by done. unfold sizeof_header_ack_sn in Hs'.
  simpl in Hs'. lia.
Qed.

(** A report that is trimmed to a grant fits it and drops NACKs from the back only,
    with ACK_SN the SN of the first dropped one; trimming is refused only when not even the
    header fits. *)
Theorem trim_spec s max :
  status_wf s ->
  exists b s', trim s max = ok (b, s') /\
    (b = false <-> max < sizeof_header_ack_sn /\ max < packed_size s) /\
    (b = false -> s' = s) /\
    (b = true -> status_wf s' /\ s_sn_size s' = s_sn_size s /\ packed_size s' <= max /\
       exists dropped, nacks s = nacks s' ++ dropped /\
         ack_sn s' = match dropped with [] => ack_sn s | d :: _ => nack_sn d end).
Proof. apply trim_ok. Qed.

(** Merging NACKs on the fly loses nothing and adds nothing: after [push_nack] the list
    of NACKs stands for the same missing bytes as before, followed by those of the new NACK, the
    packed length is the one the counter shows, and the list stays one that [pack] can express. *)
Theorem push_nack_preserves_meaning s n :
  status_wf s -> nack_wf (s_sn_size s) n -> packed_size s + 8 < 2 ^ 32 ->
  status_meaning (push_nack s n) = status_meaning s ++ nack_meaning (am_mod (s_sn_size s)) n /\
  status_wf (push_nack s n) /\ zlen (pack (push_nack s n)) = packed_size (push_nack s n).
Proof.
  intros Hw Hn Hb. pose proof (push_nack_wf s n Hw Hn Hb).
  split; [by apply push_nack_meaning|]. split; [done|]. by apply pack_size.
Qed.

(** Unpacking a STATUS PDU terminates on every byte sequence, without a failed assertion. *)
Theorem status_unpack_total s pdu : exists o, unpack s pdu = ok o.
Proof. apply unpack_ok. Qed.

(** Every AMD PDU header that is written, in front of any payload, is read back
    as it was, for both SN sizes. *)
Theorem header_roundtrip h payload :
  header_wf h -> payload <> [] ->
  rlc_am_read_data_pdu_header (rlc_am_write_data_pdu_header h ++ payload) (h_sn_size h)
  = Some h.
Proof. apply read_written_header. Qed.

(** A STATUS PDU survives packing and unpacking, whatever its NACKs, segment
    offsets and NACK ranges, for both SN sizes. *)
Theorem status_roundtrip s s0 :
  status_wf s -> 0 <= ack_sn s < am_mod (s_sn_size s) -> s_sn_size s0 = s_sn_size s ->
  unpack s0 (pack s) = ok (Some s).
Proof. apply unpack_packed_status. Qed.

(** *** Witnesses *)
Definition example_nacks : list rlc_am_status_nack :=
  [mk_nack 5 true 10 so_end_of_sdu false 0; mk_nack 6 false 0 so_end_of_sdu false 0;
   mk_nack 7 true 0 20 false 0; mk_nack 7 true 50 60 false 0].
Definition example_status : rlc_am_status_pdu :=
  set_ack_sn (foldl push_nack (status_ctor size12bits) example_nacks) 8.

(** NACKs of partly received SDUs merge into ranges: SDU 5 from byte 10, SDU 6, SDU 7 to byte 20. *)
Example example_status_nacks :
  nacks example_status = [mk_nack 5 true 10 20 true 3; mk_nack 7 true 50 60 false 0].
Proof. reflexivity. Qed.

Lemma example_status_wf : status_wf example_status.
Proof.
  split; [|vm_compute; done..].
  change (nacks example_status) with [mk_nack 5 true 10 20 true 3; mk_nack 7 true 50 60 false 0].
  repeat constructor; simpl; unfold so_end_of_sdu; try done; lia.
Qed.

Lemma header_roundtrip_witness :
  rlc_am_read_data_pdu_header
    (rlc_am_write_data_pdu_header (mk_header data 1 middle_segment size18bits 0x2abcd 300) ++ [7]) size18bits
  = Some (mk_header data 1 middle_segment size18bits 0x2abcd 300).
Proof.
  apply (header_roundtrip (mk_header data 1 middle_segment size18bits 0x2abcd 300) [7]); [|done].
  split; simpl; try done; lia.
Defined.

Lemma status_roundtrip_witness : unpack (status_ctor size12bits) (pack example_status) = ok (Some example_status).
Proof. apply (status_roundtrip example_status); [apply example_status_wf|vm_compute; done|reflexivity]. Defined.

Lemma trim_spec_witness :
  exists b s', trim example_status 15 = ok (b, s') /\ b = true /\ packed_size s' <= 15 /\ ack_sn s' = 7.
Proof.
  destruct (trim_spec example_status 15 example_status_wf) as (b & s' & E & Hb & _ & Ht).
  exists b, s'. split; [exact E|]. vm_compute in E. injection E as <- <-.
  split; [done|]. split; [apply Ht; done|done].
Defined.

Lemma push_nack_preserves_meaning_witness :
  status_meaning (push_nack example_status (mk_nack 9 false 0 so_end_of_sdu false 0)) =
  [(5, 10, 0xffff); (6, 0, 0xffff); (7, 0, 20); (7, 50, 60); (9, 0, 0xffff)].
Proof.
  refine (eq_trans (proj1 (push_nack_preserves_meaning example_status (mk_nack 9 false 0 so_end_of_sdu false 0) _ _ _)) _).
  - apply example_status_wf.
  - split; simpl; unfold so_end_of_sdu; try done; lia.
  - vm_compute. done.
  - reflexivity.
Defined.

(** C36: [trim] compares the new ACK_SN with the first SN of the last NACK only, so a NACK
    range that ends at this SN stays: the trimmed report claims that SDU 7 is the next one not
    received that it does not report missing, and reports bytes of it missing. *)
Theorem trim_keeps_range_over_ack_sn :
  exists s', trim example_status 15 = ok (true, s') /\ ack_sn s' = 7 /\ (7, 0, 20) ∈ status_meaning s'.
Proof.
  eexists. split; [vm_compute; reflexivity|]. split; [done|].
  vm_compute. do 2 apply list_elem_of_further. apply list_elem_of_here.
Qed.
