(* ===== verification/RlcUmPdu.v ===== *)
(** * RLC UM PDUs

    [lib/rlc/rlc_um_pdu.h]: the UMD PDU header for 6 and 12 bit sequence numbers, its reader and
    its writer. A complete SDU has a header of one byte without SN; only middle and last segments
    carry the SO. *)

From S2P Require Import Prelude RlcAmPdu.

(** ** Data *)

(** [rlc_config.h] *)
Inductive rlc_um_sn_size := um_size6bits | um_size12bits.

#[export] Instance rlc_um_sn_size_eq_dec : EqDecision rlc_um_sn_size.
Proof. solve_decision. Defined.

Definition um_to_number (sz : rlc_um_sn_size) : Z :=
  match sz with um_size6bits => 6 | um_size12bits => 12 end.

Abbreviation um_mod sz := (cardinality (um_to_number sz)).
Abbreviation um_window sz := (window_size (um_to_number sz)).

Definition rlc_um_pdu_header_size_complete_sdu : Z := 1.
Definition rlc_um_pdu_header_size_no_so (sz : rlc_um_sn_size) : Z :=
  match sz with um_size6bits => 1 | um_size12bits => 2 end.
Definition rlc_um_pdu_header_size_with_so (sz : rlc_um_sn_size) : Z :=
  match sz with um_size6bits => 3 | um_size12bits => 4 end.

Record rlc_um_pdu_header := mk_um_header {
  um_si : rlc_si_field;
  um_sn_size : rlc_um_sn_size;
  um_sn : Z;
  um_so : Z
}.

(** ** The reader *)

(** The fixed part: SI, SN and what is left of the PDU. *)
Definition read_um_fixed_part (sz : rlc_um_sn_size) (b0 : Z) (r : bytes) : option (rlc_si_field * Z * bytes) :=
  let si := si_of_bits (Z.land (Z.shiftr b0 6) 0x03) in
  match sz with
  | um_size6bits =>
      let sn := Z.land b0 0x3f in
      if bool_decide (si = full_sdu) && negb (sn =? 0) then None else Some (si, sn, r)
  | um_size12bits =>
      let sn := Z.shiftl (Z.land b0 0x0f) 8 in
      if bool_decide (si = full_sdu) && negb (sn =? 0) then None
      else if bool_decide (si = first_segment) && negb (Z.land (Z.shiftr b0 4) 0x03 =? 0) then None
      else if negb (bool_decide (si = full_sdu)) then
        match r with
        | [] => None
        | b1 :: r => Some (si, Z.lor sn (Z.land b1 0xff), r)
        end
      else Some (si, sn, r)
  end.

(** The part with the SO is the one of AMD PDUs. *)
Definition rlc_um_read_data_pdu_header (pdu : bytes) (sz : rlc_um_sn_size) : option rlc_um_pdu_header :=
  match pdu with
  | [] => None
  | b0 :: r =>
      '(si, sn, r) ← read_um_fixed_part sz b0 r;
      '(so, _) ← read_header_so si r;
      Some (mk_um_header si sz sn so)
  end.

Definition rlc_um_nr_packed_length (h : rlc_um_pdu_header) : Z :=
  if bool_decide (um_si h = full_sdu) then 1
  else (match um_sn_size h with um_size6bits => 1 | um_size12bits => 2 end)
       + (if negb (um_so h =? 0) then 2 else 0).

(** ** The writer *)
Definition rlc_um_write_data_pdu_header (h : rlc_um_pdu_header) : bytes :=
  let b0 := Z.shiftl (Z.land (si_to_number (um_si h)) 0x03) 6 in
  if bool_decide (um_si h = full_sdu) then [b0]
  else
    match um_sn_size h with
    | um_size6bits => [Z.lor b0 (Z.land (um_sn h) 0x3f)]
    | um_size12bits => [Z.lor b0 (Z.land (Z.shiftr (um_sn h) 8) 0xf); Z.land (um_sn h) 0xff]
    end ++
    (if negb (um_so h =? 0) then [Z.shiftr (um_so h) 8; Z.land (um_so h) 0xff] else []).

(** ** Lemmas *)

#[export] Instance um_sn_space sz : SnSpace (um_mod sz) (um_window sz).
Proof. destruct sz; constructor; try done; [exists (2 ^ 26)|exists (2 ^ 20)]; done. Qed.

(** A header as the transmitting entity fills it in: a complete SDU has neither SN nor SO, and the
    SO is non-zero exactly in the segments that carry it. *)
Record um_header_wf (h : rlc_um_pdu_header) : Prop := {
  uw_sn : 0 <= um_sn h < um_mod (um_sn_size h);
  uw_so : 0 <= um_so h < 2 ^ 16;
  uw_full : um_si h = full_sdu -> um_sn h = 0;
  uw_si : si_has_so (um_si h) = negb (um_so h =? 0)
}.

Lemma write_um_header_length h :
  um_header_wf h -> zlen (rlc_um_write_data_pdu_header h) = rlc_um_nr_packed_length h.
Proof.
  intros [_ _ _ Hsi]. unfold rlc_um_write_data_pdu_header, rlc_um_nr_packed_length.
  destruct (bool_decide _); [done|]. rewrite length_app. destruct (um_sn_size h), (um_so h =? 0); done.
Qed.

Lemma um_octet_fields si x n :
  (n = 64 \/ n = 16) -> 0 <= x < n ->
  let b := Z.lor (Z.shiftl (Z.land (si_to_number si) 0x03) 6) x in
  si_of_bits (Z.land (Z.shiftr b 6) 0x03) = si /\ Z.land b 0x3f = x /\
  (n = 16 -> Z.land b 0x0f = x /\ Z.land (Z.shiftr b 4) 0x03 = 0).
Proof.
  intros [-> | ->] Hx b; unfold b; clear b.
  - assert (H : let b := Z.lor (Z.shiftl (Z.land (si_to_number si) 0x03) 6) x in
      si_of_bits (Z.land (Z.shiftr b 6) 0x03) = si /\ Z.land b 0x3f = x).
    { cbv zeta. destruct si; by_evaluation 64 x. }
    destruct H. by split_and!.
  - assert (H : let b := Z.lor (Z.shiftl (Z.land (si_to_number si) 0x03) 6) x in
      si_of_bits (Z.land (Z.shiftr b 6) 0x03) = si /\ Z.land b 0x3f = x /\ Z.land b 0x0f = x /\ Z.land (Z.shiftr b 4) 0x03 = 0).
    { cbv zeta. destruct si; by_evaluation 16 x. }
    destruct H as (?&?&?&?). by split_and!.
Qed.

Lemma um_mod_6 : um_mod um_size6bits = 2 ^ 6. Proof. done. Qed.
Lemma um_mod_12 : um_mod um_size12bits = 2 ^ 12. Proof. done. Qed.

Lemma read_um_so_write si so r :
  0 <= so < 2 ^ 16 -> si_has_so si = negb (so =? 0) ->
  read_header_so si ((if negb (so =? 0) then [Z.shiftr so 8; Z.land so 0xff] else []) ++ r) = Some (so, r).
Proof.
  intros Hso Hsi. rewrite <- (read_header_so_write si so r) by done.
  unfold u8. by rewrite Z.mod_small by (rewrite Z.shiftr_div_pow2 by lia; divmod).
Qed.

Lemma sn_low_octet sn n k :
  0 <= k -> 0 <= sn < n * 2 ^ k -> 0 <= Z.shiftr sn k < n.
Proof. intros Hk Hsn. rewrite Z.shiftr_div_pow2 by done. split; [apply Z.div_pos; lia|apply Z.div_lt_upper_bound; lia]. Qed.

Lemma read_written_um_header h payload :
  um_header_wf h ->
  rlc_um_read_data_pdu_header (rlc_um_write_data_pdu_header h ++ payload) (um_sn_size h) = Some h.
Proof.
  intros [Hsn Hso Hfull Hsi]. destruct h as [si sz sn so]; simpl in *.
  unfold rlc_um_write_data_pdu_header. cbn [um_si um_sn_size um_sn um_so].
  destruct (decide (si = full_sdu)) as [->|Hne].
  { rewrite (Hfull eq_refl). simpl in Hsi. symmetry in Hsi. apply negb_false_iff, Z.eqb_eq in Hsi. subst so.
    rewrite bool_decide_true by done. by destruct sz. }
  rewrite bool_decide_false by done. destruct sz.
  - rewrite um_mod_6 in Hsn. assert (Hland : Z.land sn 0x3f = sn) by (change 0x3f with (2 ^ 6 - 1); rewrite land_mask, Z.mod_small; lia).
    rewrite Hland. cbn [app]. unfold rlc_um_read_data_pdu_header, read_um_fixed_part.
    destruct (um_octet_fields si sn 64 ltac:(by left) Hsn) as (-> & -> & _).
    rewrite bool_decide_false by done. cbn -[read_header_so]. by rewrite read_um_so_write.
  - rewrite um_mod_12 in Hsn. set (x := Z.land (Z.shiftr sn 8) 0xf).
    assert (Hx : 0 <= x < 16) by (unfold x; change 0xf with (2 ^ 4 - 1); apply (land_range _ 4); lia).
    rewrite <- app_assoc. cbn [app]. unfold rlc_um_read_data_pdu_header, read_um_fixed_part.
    destruct (um_octet_fields si x 16 ltac:(by right) Hx) as (-> & _ & Hr). destruct (Hr eq_refl) as [-> ->].
    rewrite (bool_decide_false (si = full_sdu)) by done. cbn -[read_header_so]. rewrite andb_false_r.
    unfold x. rewrite sn12_roundtrip by done. cbn -[read_header_so]. by rewrite read_um_so_write.
Qed.

Lemma read_um_header_range pdu sz h :
  rlc_um_read_data_pdu_header pdu sz = Some h ->
  um_sn_size h = sz /\ 0 <= um_sn h < um_mod sz /\ 0 <= um_so h < 2 ^ 16 /\
  (si_has_so (um_si h) = false -> um_so h = 0).
Proof.
  unfold rlc_um_read_data_pdu_header. destruct pdu as [|b0 r]; [done|]. intros H.
  destruct (read_um_fixed_part sz b0 r) as [[[si sn] r1]|] eqn:E; simpl in H; [|done].
  destruct (read_header_so si r1) as [[so r2]|] eqn:Eso; simpl in H; [|done]. injection H as <-.
  apply read_header_so_range in Eso as [? ?]. simpl. split; [done|]. split; [|done].
  unfold read_um_fixed_part in E. destruct sz.
  - destruct (_ && _); [done|]. injection E as _ <- _. rewrite um_mod_6. apply (land_range b0 6). lia.
  - pose proof (land_range b0 4 ltac:(lia) : 0 <= Z.land b0 15 < 16). rewrite um_mod_12.
    destruct (_ && _); [done|]. destruct (_ && _); [done|]. destruct (negb _).
    + destruct r as [|b1 r]; [done|]. injection E as _ <- _.
      pose proof (land_range b1 8 ltac:(lia) : 0 <= Z.land b1 255 < 256).
      rewrite (lor_shiftl_add _ _ 8) by lia. lia.
    + injection E as _ <- _. rewrite Z.shiftl_mul_pow2 by lia. lia.
Qed.

(** ** Properties *)

(** A UMD PDU header survives writing and reading, for both SN lengths and every kind of
    segment, and its length is the one that [rlc_um_nr_packed_length] and the header size
    constants announce. *)
Theorem um_header_roundtrip h payload :
  um_header_wf h ->
  rlc_um_read_data_pdu_header (rlc_um_write_data_pdu_header h ++ payload) (um_sn_size h) = Some h /\
  zlen (rlc_um_write_data_pdu_header h) = rlc_um_nr_packed_length h /\
  rlc_um_nr_packed_length h =
    match um_si h with
    | full_sdu => rlc_um_pdu_header_size_complete_sdu
    | first_segment => rlc_um_pdu_header_size_no_so (um_sn_size h)
    | _ => rlc_um_pdu_header_size_with_so (um_sn_size h)
    end.
Proof.
  intros Hw. split; [by apply read_written_um_header|]. split; [by apply write_um_header_length|].
  destruct Hw as [_ _ _ Hsi]. unfold rlc_um_nr_packed_length. destruct (um_si h) eqn:E; simpl in *; try done.
  all: rewrite <- Hsi; by destruct (um_sn_size h).
Qed.

Lemma um_header_roundtrip_witness :
  rlc_um_read_data_pdu_header (rlc_um_write_data_pdu_header (mk_um_header last_segment um_size12bits 700 300) ++ [1; 2])
    um_size12bits = Some (mk_um_header last_segment um_size12bits 700 300) /\
  zlen (rlc_um_write_data_pdu_header (mk_um_header last_segment um_size12bits 700 300)) = 4.
Proof.
  destruct (um_header_roundtrip (mk_um_header last_segment um_size12bits 700 300) [1; 2]) as (H1 & H2 & _).
  - split; [vm_compute; done|vm_compute; done|discriminate|reflexivity].
  - split; [exact H1|]. rewrite H2. reflexivity.
Defined.

(** A last segment with SO 0, which no transmitter sends, is not refused: its SO field is read, but
    not counted as header, so that the two zero bytes become payload and the SDU is complete. *)
Lemma um_zero_so_is_payload :
  let pdu := [Z.shiftl 2 6; 0; 0; 7] in
  rlc_um_read_data_pdu_header pdu um_size6bits = Some (mk_um_header last_segment um_size6bits 0 0) /\
  rlc_um_nr_packed_length (mk_um_header last_segment um_size6bits 0 0) = 1.
Proof. split; reflexivity. Qed.
