(* ===== verification/RlcSegments.v ===== *)
(** * Reassembly of SDU segments

    The segment bookkeeping of the receiving RLC entities:
    [store_segment], [update_segment_inventory] and the segment branch of
    [reassemble_sdu] of [lib/rlc/rlc_rx_am_entity.cpp] (the UM entity of
    [lib/rlc/rlc_rx_um_entity.cpp] has the same code), and the part of
    [byte_buffer_chain] they use.

    [std::set<segment>] ordered by segment offset is a list sorted by [so], in
    which an element is not inserted when its key is already there. *)

From S2P Require Import Prelude RlcAmPdu.

(** [rlc_rx_am_sdu_segment] *)
Record sdu_segment := mk_segment {
  seg_si : rlc_si_field;
  seg_so : Z;
  seg_payload : bytes
}.

(** [std::set::insert]: by the order on [so]; a present key is kept. *)
Fixpoint set_insert (x : sdu_segment) (l : list sdu_segment) : list sdu_segment :=
  match l with
  | [] => [x]
  | y :: l' =>
      if seg_so x <? seg_so y then x :: l
      else if seg_so y <? seg_so x then y :: set_insert x l'
      else l
  end.

(** [segment->so + segment->payload.length() - 1], stored in a [uint32_t]. *)
Definition last_byte (s : sdu_segment) : Z := u32 (seg_so s + zlen (seg_payload s) - 1).

(** [payload.advance(n)] with the new offset. *)
Definition advance_segment (s : sdu_segment) (n so : Z) : sdu_segment :=
  mk_segment (seg_si s) (u16 so) (drop (Z.to_nat n) (seg_payload s)).

(** The while loop of [store_segment]: [pre] are the segments the iterator has
    passed, [segs] those from [cur_segment] on. The result is the returned flag and
    the new set. *)
Fixpoint store_loop (pre segs : list sdu_segment) (new : sdu_segment)
    : bool * list sdu_segment :=
  match segs with
  | [] => (true, set_insert new pre)
  | cur :: rest =>
      let cur_last_byte := last_byte cur in
      let new_last_byte := last_byte new in
      if cur_last_byte <? seg_so new then store_loop (pre ++ [cur]) rest new
      else if seg_so cur <=? seg_so new then
        if new_last_byte <=? cur_last_byte then (false, pre ++ segs)
        else
          store_loop (pre ++ [cur]) rest
            (advance_segment new (u32 (cur_last_byte + 1 - seg_so new)) (cur_last_byte + 1))
      else if new_last_byte <? seg_so cur then (true, set_insert new (pre ++ segs))
      else if new_last_byte <? cur_last_byte then
        let cut := advance_segment cur (u32 (new_last_byte + 1 - seg_so cur)) (new_last_byte + 1) in
        (true, set_insert new (set_insert cut (pre ++ rest)))
      else store_loop pre rest new
  end.

Definition store_segment (segs : list sdu_segment) (new : sdu_segment)
    : bool * list sdu_segment := store_loop [] segs new.

(** [update_segment_inventory]: [(has_gap, fully_received)]. *)
Fixpoint inventory_loop (segs : list sdu_segment) (next_byte : Z) : bool * bool :=
  match segs with
  | [] => (false, false)
  | s :: rest =>
      if negb (seg_so s =? next_byte) then (true, false)
      else match seg_si s with
           | last_segment => (false, true)
           | _ => inventory_loop rest (u32 (next_byte + zlen (seg_payload s)))
           end
  end.

Definition update_segment_inventory (segs : list sdu_segment) : bool * bool :=
  inventory_loop segs 0.

(** [byte_buffer_chain]: [create] fails when the memory pool is exhausted, an
    [append] of a non-empty slice fails when all slices are in use. *)
Record chain_env := mk_chain_env { pool_ok : bool; max_slices : nat }.

Fixpoint chain_append_all (env : chain_env) (nof_slices : nat) (sdu : bytes)
    (slices : list bytes) : option bytes :=
  match slices with
  | [] => Some sdu
  | s :: rest =>
      match s with
      | [] => chain_append_all env nof_slices sdu rest
      | _ => if (max_slices env <=? nof_slices)%nat then None
             else chain_append_all env (S nof_slices) (sdu ++ s) rest
      end
  end.

Definition build_chain (env : chain_env) (slices : list bytes) : option bytes :=
  if pool_ok env then chain_append_all env 0 [] slices else None.

(** ** Specification *)

(** A segment of SDU [d]: its payload is the slice of [d] at its offset, and it is
    the last segment exactly when it reaches the end. *)
Record genuine (d : bytes) (s : sdu_segment) : Prop := {
  g_start : 0 <= seg_so s;
  g_nonempty : seg_payload s <> [];
  g_end : seg_so s + zlen (seg_payload s) <= zlen d;
  g_bytes : seg_payload s = slice d (seg_so s) (zlen (seg_payload s));
  g_last : seg_si s = last_segment <-> seg_so s + zlen (seg_payload s) = zlen d
}.

Abbreviation seg_end s := (seg_so s + zlen (seg_payload s)).

(** Sorted, non-empty, non-overlapping segments from byte [lo] on, whose offsets
    fit the 16 bits of SO. *)
Fixpoint segments_from (lo : Z) (segs : list sdu_segment) : Prop :=
  match segs with
  | [] => True
  | s :: rest =>
      lo <= seg_so s /\ seg_payload s <> [] /\ seg_end s <= 2 ^ 16 - 1 /\
      segments_from (seg_end s) rest
  end.

Definition segments_wf (segs : list sdu_segment) : Prop := segments_from 0 segs.

(** Byte [i] is present. *)
Definition covers (s : sdu_segment) (i : Z) : Prop := seg_so s <= i < seg_end s.
Definition covered (segs : list sdu_segment) (i : Z) : Prop := exists s, s ∈ segs /\ covers s i.

(** ** Lemmas *)

Lemma segments_from_mono lo lo' segs :
  lo' <= lo -> segments_from lo segs -> segments_from lo' segs.
Proof. destruct segs; simpl; [done|]. intros ? (? & ? & ? & ?). split_and!; auto. lia. Qed.

Lemma payload_pos s : seg_payload s <> [] -> 0 < zlen (seg_payload s).
Proof. destruct (seg_payload s); simpl; [done|lia]. Qed.

Lemma segments_from_split lo pre segs :
  segments_from lo (pre ++ segs) <->
  segments_from lo pre /\
  exists c, lo <= c /\ (forall s, s ∈ pre -> seg_end s <= c) /\ segments_from c segs.
Proof.
  revert lo. induction pre as [|x pre IH]; intros lo; simpl.
  - split.
    + intros H. split; [done|]. exists lo. split_and!; [lia| |done].
      by intros s Hs%elem_of_nil.
    + intros (_ & c & Hc & _ & H). by eapply segments_from_mono.
  - rewrite IH. setoid_rewrite elem_of_cons. split.
    + intros (H1 & H2%payload_pos & H3 & H4 & c & Hc & Hpre & Hs).
      split_and!; try done; [by intros E; rewrite E in H2|].
      exists c. split_and!; [lia| |done]. intros s [->|Hin]; [lia|auto].
    + intros ((H1 & H2 & H3 & H4) & c & Hc & Hpre & Hs).
      split_and!; try done. exists c. split_and!; auto.
Qed.

(** Every segment of a sorted list lies at or after its start. *)
Lemma segments_from_elem lo segs s :
  segments_from lo segs -> s ∈ segs ->
  lo <= seg_so s /\ seg_payload s <> [] /\ seg_end s <= 2 ^ 16 - 1.
Proof.
  revert lo. induction segs as [|x segs IH]; intros lo Hs Hin; [by apply elem_of_nil in Hin|].
  destruct Hs as (H1 & H2 & H3 & Hrest). apply elem_of_cons in Hin as [->|Hin]; [done|].
  destruct (IH _ Hrest Hin) as (? & ? & ?). split_and!; [lia|done..].
Qed.

Lemma covered_nil i : ~ covered [] i.
Proof. intros (s & Hs & _). by apply elem_of_nil in Hs. Qed.

Lemma covered_cons s segs i : covered (s :: segs) i <-> covers s i \/ covered segs i.
Proof.
  unfold covered. split.
  - intros (x & [->|Hx]%elem_of_cons & Hc); eauto.
  - intros [H|(x & Hx & Hc)]; [exists s|exists x]; rewrite elem_of_cons; eauto.
Qed.

Lemma covered_app l1 l2 i : covered (l1 ++ l2) i <-> covered l1 i \/ covered l2 i.
Proof.
  induction l1 as [|s l1 IH]; simpl.
  - split; [by right|]. intros [?%covered_nil|?]; done.
  - rewrite !covered_cons, IH. tauto.
Qed.

Lemma last_byte_eq s :
  0 <= seg_so s -> seg_payload s <> [] -> seg_end s <= 2 ^ 16 -> last_byte s = seg_end s - 1.
Proof.
  intros H1 H2%payload_pos H3. unfold last_byte, u32. apply Z.mod_small. lia.
Qed.

(** Inserting a segment between two parts of a set. *)
Lemma set_insert_app lo pre segs x :
  segments_from lo pre -> (forall s, s ∈ pre -> seg_so s < seg_so x) ->
  (forall s, s ∈ segs -> seg_so x < seg_so s) ->
  set_insert x (pre ++ segs) = pre ++ x :: segs.
Proof.
  intros Hpre Hlt Hgt. clear Hpre. induction pre as [|y pre IH]; simpl.
  - destruct segs as [|z segs]; simpl; [done|].
    rewrite (proj2 (Z.ltb_lt _ _)); [done|]. apply Hgt, elem_of_cons. auto.
  - assert (seg_so y < seg_so x) by (apply Hlt, elem_of_cons; auto).
    zfalse. ztrue. f_equal. apply IH. intros s Hs. apply Hlt, elem_of_cons. auto.
Qed.

(** Trimming the first [n] bytes of a segment. *)
Lemma advance_ok s n :
  0 <= seg_so s -> seg_end s <= 2 ^ 16 - 1 -> 0 <= n < zlen (seg_payload s) ->
  let t := advance_segment s (u32 n) (seg_so s + n) in
  seg_so t = seg_so s + n /\ seg_end t = seg_end s /\ seg_payload t <> [] /\
  (forall d, genuine d s -> genuine d t).
Proof.
  intros H0 He Hn t. unfold t, advance_segment, u16, u32; simpl.
  rewrite !Z.mod_small by lia.
  assert (Hlen : zlen (drop (Z.to_nat n) (seg_payload s)) = zlen (seg_payload s) - n)
    by (rewrite length_drop; lia).
  split_and!; [done|lia| |].
  - intros E. rewrite E in Hlen. simpl in Hlen. lia.
  - intros d [_ Hne Hend Hb Hl]. constructor; simpl; rewrite ?Hlen; [lia| |lia| |].
    + intros E. rewrite E in Hlen. simpl in Hlen. lia.
    + rewrite Hb at 1. rewrite slice_drop by lia. done.
    + rewrite Hl. split; intros; lia.
Qed.

(** The contract of [store_segment]. *)
Definition store_post (segs : list sdu_segment) (new : sdu_segment)
    (r : bool * list sdu_segment) : Prop :=
  segments_wf r.2 /\
  (forall i, covered r.2 i <-> covered segs i \/ covers new i) /\
  (r.1 = false -> r.2 = segs /\ forall i, covers new i -> covered segs i) /\
  (forall d, Forall (genuine d) segs -> genuine d new -> Forall (genuine d) r.2).

Lemma covers_ext s t i :
  seg_so s = seg_so t -> seg_end s = seg_end t -> covers s i <-> covers t i.
Proof. unfold covers. intros -> ->. done. Qed.

Lemma store_loop_spec pre segs new :
  segments_wf (pre ++ segs) -> (forall s, s ∈ pre -> seg_end s <= seg_so new) ->
  0 <= seg_so new -> seg_payload new <> [] -> seg_end new <= 2 ^ 16 - 1 ->
  store_post (pre ++ segs) new (store_loop pre segs new).
Proof.
  revert pre new. induction segs as [|cur rest IH]; intros pre new Hwf Hpre H0 Hne Hend.
  - simpl. rewrite app_nil_r in *. pose proof (payload_pos _ Hne).
    assert (E : set_insert new pre = pre ++ [new]).
    { rewrite <- (app_nil_r pre) at 1. apply (set_insert_app 0); [done| |by intros s ?%elem_of_nil].
      intros s Hs. destruct (segments_from_elem _ _ _ Hwf Hs) as (_ & ?%payload_pos & _).
      specialize (Hpre s Hs). lia. }
    rewrite E. unfold store_post; simpl. split_and!; try done.
    + apply segments_from_split. split; [done|]. exists (seg_so new). simpl. split_and!; auto; lia.
    + intros i. rewrite covered_app, covered_cons. pose proof (covered_nil i). tauto.
    + intros d G1 G2. apply Forall_app. auto.
  - pose proof (payload_pos _ Hne).
    apply segments_from_split in Hwf as (Hwp & c & Hc & Hpc & (Hs1 & Hs2 & Hs3 & Hs4)).
    pose proof (payload_pos _ Hs2).
    assert (Hrest : forall s, s ∈ rest -> seg_end cur <= seg_so s).
    { intros s Hs. by destruct (segments_from_elem _ _ _ Hs4 Hs). }
    cbn [store_loop]. rewrite !last_byte_eq by (done || lia).
    destruct (Z.ltb_spec (seg_end cur - 1) (seg_so new)) as [Hlt|Hge].
    { specialize (IH (pre ++ [cur]) new). rewrite <- app_assoc in IH. simpl in IH.
      apply IH; try done.
      - apply segments_from_split. split; [done|]. by exists c.
      - intros s [Hs|Hs%list_elem_of_singleton]%elem_of_app; [auto|subst; lia]. }
    destruct (Z.leb_spec (seg_so cur) (seg_so new)) as [Hle|Hgt].
    { destruct (Z.leb_spec (seg_end new - 1) (seg_end cur - 1)) as [Hin|Hout].
      - unfold store_post; simpl. split_and!; try done.
        + apply segments_from_split. split; [done|]. by exists c.
        + intros i. rewrite covered_app, covered_cons. unfold covers. intuition lia.
        + intros _. split; [done|]. intros i Hi. rewrite covered_app, covered_cons.
          right; left. unfold covers in *. lia.
      - replace (seg_end cur - 1 + 1 - seg_so new) with (seg_end cur - seg_so new) by lia.
        replace (seg_end cur - 1 + 1) with (seg_so new + (seg_end cur - seg_so new)) by lia.
        destruct (advance_ok new (seg_end cur - seg_so new)) as (A1 & A2 & A3 & A4); [lia..|].
        set (new' := advance_segment new _ _) in *. clearbody new'.
        destruct (IH (pre ++ [cur]) new') as (P1 & P2 & P3 & P4); try done; try lia.
        + rewrite <- app_assoc. apply segments_from_split. split; [done|]. by exists c.
        + intros s [Hs|Hs%list_elem_of_singleton]%elem_of_app; [specialize (Hpre s Hs); lia|subst; lia].
        + rewrite <- app_assoc in *. simpl in *.
          assert (Hcov : forall i, covers new i -> covers cur i \/ covers new' i).
          { intros i. unfold covers. rewrite A2, A1. lia. }
          assert (Hcov' : forall i, covers new' i -> covers new i).
          { intros i. unfold covers. rewrite A2, A1. lia. }
          split_and!; try done.
          * intros i. rewrite P2, covered_app, covered_cons. specialize (Hcov i). specialize (Hcov' i). tauto.
          * intros Hf. destruct (P3 Hf) as [E Hi]. split; [done|]. intros i Hn.
            specialize (Hi i). rewrite covered_app, covered_cons in *. specialize (Hcov i Hn). tauto.
          * intros d G1 G2. apply P4; auto. }
    destruct (Z.ltb_spec (seg_end new - 1) (seg_so cur)) as [Hbefore|Hover].
    { rewrite (set_insert_app 0); [|done| |].
      - unfold store_post; simpl. split_and!; try done.
        + apply segments_from_split. split; [done|]. exists (seg_so new). simpl.
          split_and!; try done; lia.
        + intros i. rewrite !covered_app, !covered_cons. tauto.
        + intros d [G1 G2]%Forall_app G3. apply Forall_app. auto.
      - intros s Hs. destruct (segments_from_elem _ _ _ Hwp Hs) as (_ & ?%payload_pos & _).
        specialize (Hpre s Hs). lia.
      - intros s [->|Hs]%elem_of_cons; [lia|]. specialize (Hrest s Hs). lia. }
    destruct (Z.ltb_spec (seg_end new - 1) (seg_end cur - 1)) as [Hin|Hall].
    { replace (seg_end new - 1 + 1 - seg_so cur) with (seg_end new - seg_so cur) by lia.
      replace (seg_end new - 1 + 1) with (seg_so cur + (seg_end new - seg_so cur)) by lia.
      destruct (advance_ok cur (seg_end new - seg_so cur)) as (A1 & A2 & A3 & A4); [lia..|].
      set (cut := advance_segment cur _ _) in *. clearbody cut.
      assert (Hlt : forall s, s ∈ pre -> seg_so s < seg_so new).
      { intros s Hs. destruct (segments_from_elem _ _ _ Hwp Hs) as (_ & ?%payload_pos & _).
        specialize (Hpre s Hs). lia. }
      rewrite (set_insert_app 0 pre rest), (set_insert_app 0); [|done|done| |done| |].
      - unfold store_post; simpl. split_and!; try done.
        + apply segments_from_split. split; [done|]. exists (seg_so new). simpl.
          rewrite A2, A1. split_and!; try done; try lia.
        + intros i. rewrite !covered_app, !covered_cons. unfold covers. rewrite A2, A1.
          intuition lia.
        + intros d [G1 [G2 G3]%Forall_cons]%Forall_app G4. apply Forall_app. auto.
      - intros s [->|Hs]%elem_of_cons; [lia|]. specialize (Hrest s Hs). lia.
      - intros s Hs. specialize (Hlt s Hs). lia.
      - intros s Hs. specialize (Hrest s Hs). lia. }
    destruct (IH pre new) as (P1 & P2 & P3 & P4); try done; [|].
    + apply segments_from_split. split; [done|]. exists c. split_and!; [done..|].
      eapply segments_from_mono; [|done]. lia.
    + split_and!; try done.
      * intros i. rewrite P2, !covered_app, covered_cons. unfold covers. intuition lia.
      * intros Hf. destruct (P3 Hf) as [_ Hi]. exfalso.
        specialize (Hi (seg_so cur)). rewrite covered_app in Hi.
        destruct Hi as [(s & Hs & Hcv)|(s & Hs & Hcv)]; [unfold covers; lia| |].
        -- specialize (Hpre s Hs). unfold covers in Hcv. lia.
        -- specialize (Hrest s Hs). unfold covers in Hcv. lia.
      * intros d [G1 [G2 G3]%Forall_cons]%Forall_app G4. apply P4; [|done]. by apply Forall_app.
Qed.

Lemma store_segment_spec segs new :
  segments_wf segs -> 0 <= seg_so new -> seg_payload new <> [] -> seg_end new <= 2 ^ 16 - 1 ->
  store_post segs new (store_segment segs new).
Proof.
  intros Hwf ???. apply (store_loop_spec [] segs new); try done. by intros s Hs%elem_of_nil.
Qed.

(** A segment behind all others is appended. *)
Lemma set_insert_last x l : Forall (fun s => seg_so s < seg_so x) l -> set_insert x l = l ++ [x].
Proof.
  induction 1 as [|y l Hy _ IH]; [done|]. simpl.
  rewrite (proj2 (Z.ltb_ge _ _)), (proj2 (Z.ltb_lt _ _)) by lia. by rewrite IH.
Qed.

Lemma store_loop_behind pre segs new :
  Forall (fun s => last_byte s < seg_so new) segs -> store_loop pre segs new = (true, set_insert new (pre ++ segs)).
Proof.
  intros H. revert pre. induction H as [|s segs Hs _ IH]; intros pre; simpl; [by rewrite app_nil_r|].
  rewrite (proj2 (Z.ltb_lt _ _) Hs), IH, <- app_assoc. done.
Qed.

Lemma store_segment_append segs new :
  Forall (fun s => 0 <= seg_so s /\ seg_payload s <> [] /\ seg_end s <= seg_so new) segs -> seg_so new < 2 ^ 32 ->
  store_segment segs new = (true, segs ++ [new]).
Proof.
  intros H Hn. unfold store_segment. rewrite store_loop_behind; [simpl; rewrite set_insert_last; [done|]|].
  - eapply Forall_impl; [exact H|]. intros s (? & Hne & ?). destruct (seg_payload s); [done|simpl in *; lia].
  - eapply Forall_impl; [exact H|]. intros s (? & Hne & ?). unfold last_byte, u32.
    destruct (seg_payload s) as [|b l] eqn:E; [done|]. simpl length in *. rewrite Z.mod_small; lia.
Qed.

(** *** The inventory of a set of segments *)

(** A last segment of [d] is the last one of the set. *)
Lemma last_segment_last d lo s segs :
  genuine d s -> seg_si s = last_segment -> segments_from lo (s :: segs) ->
  Forall (genuine d) segs -> segs = [].
Proof.
  intros Hs Hl%(g_last _ _ Hs) (_ & _ & _ & Hrest) Hall.
  destruct segs as [|x segs]; [done|]. exfalso.
  apply Forall_cons in Hall as [Hx _]. destruct Hrest as (H1 & H2%payload_pos & _).
  pose proof (g_end _ _ Hx). lia.
Qed.

Lemma not_covered_before lo segs i : segments_from lo segs -> i < lo -> ~ covered segs i.
Proof.
  intros Hs Hi (s & Hin & Hc). destruct (segments_from_elem _ _ _ Hs Hin) as (? & _).
  unfold covers in Hc. lia.
Qed.

(** One step of the scan. *)
Lemma inventory_step s segs lo :
  0 <= lo -> segments_from lo (s :: segs) ->
  inventory_loop (s :: segs) lo =
  if decide (seg_so s = lo) then
    if decide (seg_si s = last_segment) then (false, true) else inventory_loop segs (seg_end s)
  else (true, false).
Proof.
  intros Hlo (H1 & H2%payload_pos & H3 & _). simpl. unfold u32.
  destruct (Z.eqb_spec (seg_so s) lo) as [<-|]; simpl.
  - rewrite decide_True by done. rewrite Z.mod_small by lia. by destruct (seg_si s).
  - by rewrite decide_False.
Qed.

(** Contiguous up to the last segment: the payloads are the SDU from [lo] on. *)
Lemma inventory_full d segs lo :
  0 <= lo <= zlen d -> segments_from lo segs -> Forall (genuine d) segs ->
  (inventory_loop segs lo).2 = true ->
  concat (seg_payload <$> segs) = slice d lo (zlen d - lo).
Proof.
  revert lo. induction segs as [|s segs IH]; intros lo Hlo Hwf Hall Hf; [done|].
  pose proof Hall as [Hs Hrest]%Forall_cons. pose proof Hwf as (H1 & H2 & H3 & H4).
  rewrite inventory_step in Hf by (done || lia). destruct (decide (seg_so s = lo)) as [<-|]; [|done].
  pose proof Hs as [G1 G2 G3 G4 G5]. pose proof (payload_pos _ H2).
  destruct (decide (seg_si s = last_segment)) as [El|El].
  - rewrite (last_segment_last _ _ _ _ Hs El Hwf Hrest). apply G5 in El. simpl.
    rewrite app_nil_r, G4. f_equal. lia.
  - rewrite fmap_cons; cbn [concat]. rewrite (IH (seg_end s)); [|lia|done..].
    rewrite G4 at 1. rewrite slice_app by lia. f_equal. lia.
Qed.

(** Fully received means that every byte is there. *)
Lemma inventory_full_iff d segs lo :
  0 <= lo < zlen d -> segments_from lo segs -> Forall (genuine d) segs ->
  (inventory_loop segs lo).2 = true <-> (forall i, lo <= i < zlen d -> covered segs i).
Proof.
  revert lo. induction segs as [|s segs IH]; intros lo Hlo Hwf Hall.
  - simpl. split; [done|]. intros H. destruct (covered_nil lo). apply H. lia.
  - pose proof Hall as [Hs Hrest]%Forall_cons. pose proof Hwf as (H1 & H2 & H3 & H4).
    pose proof Hs as [G1 G2 G3 G4 G5]. pose proof (payload_pos _ H2).
    rewrite inventory_step by (done || lia). destruct (decide (seg_so s = lo)) as [<-|Hne].
    + destruct (decide (seg_si s = last_segment)) as [El|El].
      * split; [|done]. intros _ i Hi. apply covered_cons. left.
        apply G5 in El. unfold covers. lia.
      * assert (El' : seg_end s <> zlen d) by tauto.
        rewrite IH by (done || lia). setoid_rewrite covered_cons. split.
        -- intros Hc i Hi. destruct (decide (i < seg_end s)); [left; unfold covers; lia|].
           right. apply Hc. lia.
        -- intros Hc i Hi. destruct (Hc i) as [Hcs|]; [lia| |done].
           unfold covers in Hcs. lia.
    + split; [done|]. intros Hcov. exfalso.
      destruct (Hcov lo) as (x & [->|Hx]%elem_of_cons & Hc); [lia| |].
      * unfold covers in Hc. lia.
      * apply (not_covered_before _ _ lo H4); [lia|]. by exists x.
Qed.

(** A gap means a missing byte before a received one. *)
Lemma inventory_gap_iff d segs lo :
  0 <= lo -> segments_from lo segs -> Forall (genuine d) segs ->
  (inventory_loop segs lo).1 = true <->
  exists i j, lo <= i < j /\ ~ covered segs i /\ covered segs j.
Proof.
  revert lo. induction segs as [|s segs IH]; intros lo Hlo Hwf Hall.
  - simpl. split; [done|]. intros (i & j & _ & _ & Hj). by apply covered_nil in Hj.
  - pose proof Hall as [Hs Hrest]%Forall_cons. pose proof Hwf as (H1 & H2 & H3 & H4).
    pose proof Hs as [G1 G2 G3 G4 G5]. pose proof (payload_pos _ H2).
    rewrite inventory_step by (done || lia). destruct (decide (seg_so s = lo)) as [<-|Hne].
    + destruct (decide (seg_si s = last_segment)) as [El|El].
      * split; [done|]. intros (i & j & Hij & Hi & Hj).
        rewrite (last_segment_last _ _ _ _ Hs El Hwf Hrest) in *.
        apply covered_cons in Hj as [Hj|Hj%covered_nil]; [|done].
        destruct Hi. apply covered_cons. left. unfold covers in *. lia.
      * rewrite IH by (done || lia). setoid_rewrite covered_cons. unfold covers. split.
        -- intros (i & j & ? & ? & ?). exists i, j. split_and!; [lia|lia| |auto].
           intros [?|?]; [lia|done].
        -- intros (i & j & ? & Hi & Hj). exists i, j. split_and!; [|lia|tauto|].
           ++ destruct (decide (i < seg_end s)); [|lia]. destruct Hi. left. lia.
           ++ destruct Hj as [Hj|]; [|done]. destruct Hi. left. lia.
    + split; [|done]. intros _. exists lo, (seg_so s). split_and!; [lia..| |].
      * rewrite covered_cons. unfold covers. intros [?|Hc]; [lia|].
        by apply (not_covered_before _ _ lo H4) in Hc; [|lia].
      * apply covered_cons. left. unfold covers. lia.
Qed.

(** *** Buffer chains *)
Lemma build_chain_ok env slices :
  pool_ok env = true -> (length slices <= max_slices env)%nat ->
  build_chain env slices = Some (concat slices).
Proof.
  intros Hp Hlen. unfold build_chain. rewrite Hp.
  enough (G : forall n sdu, (n + length slices <= max_slices env)%nat ->
    chain_append_all env n sdu slices = Some (sdu ++ concat slices)) by (apply G; lia).
  clear Hlen. induction slices as [|x slices IH]; intros n sdu Hn; simpl.
  - by rewrite app_nil_r.
  - simpl in Hn. destruct x as [|b x]; [apply IH; lia|].
    destruct (Nat.leb_spec (max_slices env) n); [lia|].
    rewrite IH by lia. by rewrite <- app_assoc.
Qed.

Lemma build_chain_inv env slices sdu :
  build_chain env slices = Some sdu -> sdu = concat slices.
Proof.
  unfold build_chain. destruct (pool_ok env); [|done].
  enough (G : forall n acc, chain_append_all env n acc slices = Some sdu ->
    sdu = acc ++ concat slices) by (intros H; apply (G _ _ H)).
  induction slices as [|x slices IH]; intros n acc H; simpl in *.
  - injection H as <-. by rewrite app_nil_r.
  - destruct x as [|b x]; [by apply (IH n)|].
    destruct (_ <=? _)%nat; [done|]. rewrite (IH _ _ H). by rewrite <- app_assoc.
Qed.

(** A stored segment, whatever it overlaps, adds exactly its bytes: the new set is sorted
    and free of overlaps, holds the bytes of the old set and of the segment, and is unchanged when
    the segment brings nothing new; the segments remain slices of the SDU. *)
Theorem store_segment_union segs new :
  segments_wf segs -> 0 <= seg_so new -> seg_payload new <> [] -> seg_end new <= 2 ^ 16 - 1 ->
  let '(stored, segs') := store_segment segs new in
  segments_wf segs' /\
  (forall i, covered segs' i <-> covered segs i \/ covers new i) /\
  (stored = false -> segs' = segs /\ forall i, covers new i -> covered segs i) /\
  (forall d, Forall (genuine d) segs -> genuine d new -> Forall (genuine d) segs').
Proof.
  intros H1 H2 H3 H4. pose proof (store_segment_spec segs new H1 H2 H3 H4) as H.
  by destruct (store_segment segs new).
Qed.

(** The inventory of the segments of an SDU is right: "fully received" means that every
    byte is there, in which case the payloads in order are the SDU, and "has gap" that a missing
    byte precedes a received one. *)
Theorem segment_inventory_exact d segs :
  segments_wf segs -> Forall (genuine d) segs -> d <> [] ->
  let '(has_gap, fully_received) := update_segment_inventory segs in
  (fully_received = true <-> forall i, 0 <= i < zlen d -> covered segs i) /\
  (fully_received = true -> concat (seg_payload <$> segs) = d) /\
  (has_gap = true <-> exists i j, 0 <= i < j /\ ~ covered segs i /\ covered segs j).
Proof.
  intros Hwf Hg Hne. assert (Hd : 0 < zlen d) by (destruct d; [done|simpl; lia]).
  unfold update_segment_inventory.
  pose proof (inventory_full_iff d segs 0 ltac:(lia) Hwf Hg).
  pose proof (inventory_gap_iff d segs 0 ltac:(lia) Hwf Hg).
  pose proof (inventory_full d segs 0 ltac:(lia) Hwf Hg) as Hfull.
  destruct (inventory_loop segs 0) as [g f]; simpl in *. split; [done|]. split; [|done].
  intros E. rewrite Hfull by done. rewrite Z.sub_0_r. apply slice_full.
Qed.

(** Segments of the SDU [1..6] that arrive out of order and overlapping. *)
Definition example_segments : list sdu_segment :=
  [mk_segment first_segment 0 [1; 2]; mk_segment last_segment 4 [5; 6]].
Definition example_new : sdu_segment := mk_segment middle_segment 1 [2; 3; 4; 5].

Example example_stored :
  store_segment example_segments example_new =
  (true, [mk_segment first_segment 0 [1; 2]; mk_segment middle_segment 2 [3; 4; 5]; mk_segment last_segment 5 [6]]).
Proof. reflexivity. Qed.

Lemma example_genuine : Forall (genuine [1; 2; 3; 4; 5; 6]) example_segments /\ genuine [1; 2; 3; 4; 5; 6] example_new.
Proof. split; [repeat constructor|split]; simpl; done || lia. Qed.

Lemma store_segment_union_witness :
  exists segs', store_segment example_segments example_new = (true, segs') /\
    (forall i, covered segs' i <-> covered example_segments i \/ covers example_new i) /\
    Forall (genuine [1; 2; 3; 4; 5; 6]) segs'.
Proof.
  destruct (store_segment_union example_segments example_new) as (_ & H1 & _ & H2);
    [simpl; split_and!; done || lia|simpl; lia|done|simpl; lia|].
  eexists. split; [reflexivity|]. split; [exact H1|]. apply H2; apply example_genuine.
Defined.

Lemma segment_inventory_exact_witness :
  (update_segment_inventory example_segments).1 = true <->
  exists i j, 0 <= i < j /\ ~ covered example_segments i /\ covered example_segments j.
Proof.
  apply (segment_inventory_exact [1; 2; 3; 4; 5; 6] example_segments);
    [simpl; split_and!; done || lia|apply example_genuine|done].
Defined.
