(* ===== verification/RlcRxAm.v ===== *)
(** * The receiving RLC AM entity

    [rlc_rx_am_entity] of [lib/rlc/rlc_rx_am_entity.{h,cpp}]: the receive window,
    the state variables of TS 38.322, SDU delivery, the status reports for the
    transmitting side, and the two timers. An event of the entity is one function
    from its state to its state; calls to the upper layer, to the transmitting
    entity, to the metrics and to the executor are the events of [out], in
    order. Log output and the latency measurement are left out. *)

From S2P Require Import Prelude SduWindow RlcAmPdu RlcSegments.

(** ** Data *)

(** [std::variant<byte_buffer_slice, segment_set_t>] *)
Inductive sdu_data :=
| full_slice (payload : bytes)
| segment_set (segments : list sdu_segment).

(** [rlc_rx_am_sdu_info] *)
Record sdu_info := mk_sdu_info {
  fully_received : bool;
  has_gap : bool;
  sdu_buf : sdu_data
}.

Definition sdu_info_init : sdu_info := mk_sdu_info false false (full_slice []).

Record rlc_rx_am_state := mk_rx_state {
  rx_next : Z;
  rx_next_status_trigger : Z;
  rx_highest_status : Z;
  rx_next_highest : Z
}.

Definition rx_state_init : rlc_rx_am_state := mk_rx_state 0 0 0 0.

(** [rlc_rx_am_config] *)
Record rlc_rx_am_config := mk_rx_config {
  sn_field_length : rlc_am_sn_size;
  t_reassembly : Z;
  t_status_prohibit : Z;
  max_sn_per_status : option Z
}.

(** What the entity does to its environment. *)
Inductive rx_event :=
| ev_pdu (len : Z)                          (* metrics_add_pdus(1, len) *)
| ev_pcap (pdu : bytes)
| ev_ctrl_pdu (len : Z)                     (* metrics_add_ctrl_pdus(1, len) *)
| ev_malformed                              (* metrics_add_malformed_pdus(1) *)
| ev_lost                                   (* metrics_add_lost_pdus(1) *)
| ev_sdu_metrics (len : Z)                  (* metrics_add_sdus(1, len) *)
| ev_new_sdu (sdu : bytes)                  (* upper_dn.on_new_sdu *)
| ev_status (status : rlc_am_status_pdu)    (* status_handler->on_status_pdu *)
| ev_status_changed                         (* status_notifier->on_status_report_changed *)
| ev_defer_prohibit.                        (* status_prohibit_timer.run() put on the executor *)

Record rlc_rx_am_entity := mk_rx {
  st : rlc_rx_am_state;
  max_nof_sn_per_status_report : Z;
  do_status : bool;
  rx_window : circular_map sdu_info;
  status_builder : rlc_am_status_pdu;
  status_cached : rlc_am_status_pdu;
  status_shared : rlc_am_status_pdu;
  status_report_size : Z;
  status_prohibit_timer_is_running : bool;
  status_prohibit_timer : timer_state;
  reassembly_timer : timer_state;
  stopped : bool;
  out : list rx_event
}.

(** Assignments to single members. *)
Definition set_st s x := mk_rx x (max_nof_sn_per_status_report s) (do_status s) (rx_window s)
  (status_builder s) (status_cached s) (status_shared s) (status_report_size s)
  (status_prohibit_timer_is_running s) (status_prohibit_timer s) (reassembly_timer s) (stopped s) (out s).
Definition set_do_status s x := mk_rx (st s) (max_nof_sn_per_status_report s) x (rx_window s)
  (status_builder s) (status_cached s) (status_shared s) (status_report_size s)
  (status_prohibit_timer_is_running s) (status_prohibit_timer s) (reassembly_timer s) (stopped s) (out s).
Definition set_window s x := mk_rx (st s) (max_nof_sn_per_status_report s) (do_status s) x
  (status_builder s) (status_cached s) (status_shared s) (status_report_size s)
  (status_prohibit_timer_is_running s) (status_prohibit_timer s) (reassembly_timer s) (stopped s) (out s).
Definition set_status s builder cached shared size := mk_rx (st s) (max_nof_sn_per_status_report s)
  (do_status s) (rx_window s) builder cached shared size
  (status_prohibit_timer_is_running s) (status_prohibit_timer s) (reassembly_timer s) (stopped s) (out s).
Definition set_timers s flag prohibit reassembly stop := mk_rx (st s) (max_nof_sn_per_status_report s)
  (do_status s) (rx_window s) (status_builder s) (status_cached s) (status_shared s)
  (status_report_size s) flag prohibit reassembly stop (out s).
Definition emit s e := mk_rx (st s) (max_nof_sn_per_status_report s) (do_status s) (rx_window s)
  (status_builder s) (status_cached s) (status_shared s) (status_report_size s)
  (status_prohibit_timer_is_running s) (status_prohibit_timer s) (reassembly_timer s) (stopped s)
  (out s ++ [e]).

Definition set_rx_next (x : rlc_rx_am_state) n :=
  mk_rx_state n (rx_next_status_trigger x) (rx_highest_status x) (rx_next_highest x).
Definition set_rx_next_status_trigger (x : rlc_rx_am_state) n :=
  mk_rx_state (rx_next x) n (rx_highest_status x) (rx_next_highest x).
Definition set_rx_highest_status (x : rlc_rx_am_state) n :=
  mk_rx_state (rx_next x) (rx_next_status_trigger x) n (rx_next_highest x).
Definition set_rx_next_highest (x : rlc_rx_am_state) n :=
  mk_rx_state (rx_next x) (rx_next_status_trigger x) (rx_highest_status x) n.

Definition set_reassembly_timer s t :=
  set_timers s (status_prohibit_timer_is_running s) (status_prohibit_timer s) t (stopped s).
Definition set_prohibit_flag s b :=
  set_timers s b (status_prohibit_timer s) (reassembly_timer s) (stopped s).

Section rlc_rx_am_entity.
Context (cfg : rlc_rx_am_config).

Abbreviation sz := (sn_field_length cfg).
Abbreviation md := (am_mod sz).
Abbreviation am_window_size := (am_window sz).

(** The constructor: the status buffers, the limit of visited SNs. *)
Definition rlc_rx_am_entity_ctor : outcome rlc_rx_am_entity :=
  max_nof ← match max_sn_per_status cfg with
            | Some n =>
                _ ← srsran_assert (n <=? am_window_size);
                _ ← srsran_assert (0 <? n);
                ok n
            | None => ok am_window_size
            end;
  let status_cached := set_ack_sn (status_ctor sz) (rx_next_highest rx_state_init) in
  ok (mk_rx rx_state_init max_nof false cm_empty (status_ctor sz) status_cached (status_ctor sz)
            (packed_size status_cached) false timer_stopped timer_stopped false []).

(** ** Window helpers *)
Definition rx_mod_base (s : rlc_rx_am_entity) (sn : Z) : Z := sn_dist md (rx_next (st s)) sn.

Definition inside_rx_window s (sn : Z) : bool := rx_mod_base s sn <? am_window_size.

Definition valid_ack_sn s (sn : Z) : bool :=
  (0 <? rx_mod_base s sn) && (rx_mod_base s sn <=? am_window_size).

(** Whether [sn] is in the window and its SDU is fully received. *)
Definition sn_fully_received (w : circular_map sdu_info) (sn : Z) : outcome bool :=
  if has_sn am_window_size w sn then
    i ← cm_at am_window_size w sn; ok (fully_received i)
  else ok false.

(** Whether [sn] is in the window and its segments have a gap. *)
Definition sn_has_gap (w : circular_map sdu_info) (sn : Z) : outcome bool :=
  if has_sn am_window_size w sn then
    i ← cm_at am_window_size w sn; ok (has_gap i)
  else ok false.

(** ** Status provider *)
Definition status_report_required s : bool :=
  do_status s && negb (status_prohibit_timer_is_running s).

Definition get_status_pdu_length s : Z := status_report_size s.

Definition notify_status_report_changed s : rlc_rx_am_entity :=
  if status_report_required s then emit s ev_status_changed else s.

(** [defer_ok]: whether the executor takes the task that starts the timer. *)
Definition get_status_pdu (defer_ok : bool) s : rlc_am_status_pdu * rlc_rx_am_entity :=
  let s := set_do_status s false in
  let s := if 0 <? t_status_prohibit cfg
           then set_prohibit_flag (if defer_ok then emit s ev_defer_prohibit else s) true
           else s in
  let s := set_status s (status_builder s) (status_shared s) (status_cached s) (status_report_size s) in
  (status_shared s, s).

Definition store_status_report s : rlc_rx_am_entity :=
  let cached := status_builder s in
  set_status s (status_cached s) cached (status_shared s) (packed_size cached).

(** The segment loop of [refresh_status_report]: the NACKs for the missing bytes
    before each segment; [last_so] and [have_last_segment] are carried along. *)
Fixpoint nack_segments (sn : Z) (segs : list sdu_segment) (builder : rlc_am_status_pdu)
    (last_so : Z) (have_last_segment : bool) : outcome (rlc_am_status_pdu * Z * bool) :=
  match segs with
  | [] => ok (builder, last_so, have_last_segment)
  | segm :: rest =>
      builder ←
        (if negb (seg_so segm =? last_so) then
           let nack := mk_nack sn true (u16 last_so) (u16 (seg_so segm - 1)) false 0 in
           let builder := push_nack builder nack in
           _ ← srsran_assert (so_start nack <=? so_end nack);
           ok builder
         else ok builder);
      nack_segments sn rest builder (u32 (seg_so segm + zlen (seg_payload segm)))
        (if decide (seg_si segm = last_segment) then true else have_last_segment)
  end.

(** The NACKs of an SDU with some of its segments received. *)
Definition nack_partial (sn : Z) (segs : list sdu_segment) (builder : rlc_am_status_pdu)
    : outcome rlc_am_status_pdu :=
  '(builder, last_so, have_last_segment) ← nack_segments sn segs builder 0 false;
  if negb have_last_segment then
    let nack := mk_nack sn true (u16 last_so) so_end_of_sdu false 0 in
    let builder := push_nack builder nack in
    _ ← srsran_assert (so_start nack <=? so_end nack);
    ok builder
  else ok builder.

(** The body of the NACK loop for SN [i]. *)
Definition nack_sdu (w : circular_map sdu_info) (i : Z) (builder : rlc_am_status_pdu)
    : outcome rlc_am_status_pdu :=
  full ← sn_fully_received w i;
  if full : bool then ok builder
  else if negb (has_sn am_window_size w i) then
    ok (push_nack builder (mk_nack i false 0 so_end_of_sdu false 0))
  else
    info ← cm_at am_window_size w i;
    match sdu_buf info with
    | segment_set segments => nack_partial i segments builder
    | full_slice _ => fail assertion
    end.

(** Where the NACK loop stops. *)
Definition status_stop_sn s : Z :=
  let limit := u32 (rx_next (st s) + max_nof_sn_per_status_report s) mod md in
  if rx_mod_base s limit <? rx_mod_base s (rx_highest_status (st s)) then limit
  else rx_highest_status (st s).

Definition loop_fuel : nat := S (Z.to_nat md).

Definition refresh_status_report s : outcome rlc_rx_am_entity :=
  let builder := status_reset (status_builder s) in
  let stop_sn := status_stop_sn s in
  '(_, builder) ← for_loop loop_fuel
     (fun i _ => rx_mod_base s i <? rx_mod_base s stop_sn) (sn_next md)
     (fun i builder => builder ← nack_sdu (rx_window s) i builder; ok (builder, false))
     (rx_next (st s)) builder;
  let s := set_status s (set_ack_sn builder stop_sn) (status_cached s) (status_shared s)
             (status_report_size s) in
  ok (store_status_report s).

(** ** Reception *)
Definition handle_full_data_sdu s (header : rlc_am_pdu_header) (payload : bytes)
    : outcome (bool * rlc_rx_am_entity) :=
  if negb (bool_decide (h_si header = full_sdu)) then ok (false, s) else
  let sn := h_sn header in
  w ← (if has_sn am_window_size (rx_window s) sn then ok (rx_window s)
       else add_sn am_window_size sdu_info_init (rx_window s) sn);
  w ← cm_set am_window_size w sn (mk_sdu_info true false (full_slice payload));
  ok (true, set_window s w).

Definition segments_of (d : sdu_data) : list sdu_segment :=
  match d with segment_set l => l | full_slice _ => [] end.

Definition handle_segment_data_sdu s (header : rlc_am_pdu_header) (payload : bytes)
    : outcome (bool * rlc_rx_am_entity) :=
  if bool_decide (h_si header = full_sdu) then ok (false, s) else
  let sn := h_sn header in
  w ← (if has_sn am_window_size (rx_window s) sn then ok (rx_window s)
       else add_sn am_window_size sdu_info_init (rx_window s) sn);
  rx_sdu ← cm_at am_window_size w sn;
  let '(stored, segments) :=
    store_segment (segments_of (sdu_buf rx_sdu)) (mk_segment (h_si header) (h_so header) payload) in
  let '(gap, full) := update_segment_inventory segments in
  w ← cm_set am_window_size w sn (mk_sdu_info full gap (segment_set segments));
  ok (stored, set_window s w).

(** [reassemble_sdu]: [None] is the error value. *)
Definition reassemble_sdu (env : chain_env) (info : sdu_info) : option bytes :=
  if negb (fully_received info) then None
  else match sdu_buf info with
       | full_slice payload => build_chain env [payload]
       | segment_set segments => build_chain env (seg_payload <$> segments)
       end.

Definition update_rx_next_highest s (sn : Z) : rlc_rx_am_entity :=
  if rx_mod_base s (rx_next_highest (st s)) <=? rx_mod_base s sn
  then set_st s (set_rx_next_highest (st s) (sn_next md sn)) else s.

(** Reassembly and delivery of the SDU with the given SN; its buffers are
    released afterwards. *)
Definition deliver_sdu (env : chain_env) s (sn : Z) : outcome rlc_rx_am_entity :=
  info ← cm_at am_window_size (rx_window s) sn;
  let s := match reassemble_sdu env info with
           | None => emit s ev_lost
           | Some sdu => emit (emit s (ev_sdu_metrics (zlen sdu))) (ev_new_sdu sdu)
           end in
  w ← cm_set am_window_size (rx_window s) sn
        (mk_sdu_info (fully_received info) (has_gap info) (full_slice []));
  ok (set_window s w).

(** The loops over the fully received SDUs: from [sn], to [rx_next_highest]. *)
Definition scan_fully_received s (sn : Z) : outcome Z :=
  '(sn_upd, _) ← for_loop loop_fuel
     (fun i _ => rx_mod_base s i <? rx_mod_base s (rx_next_highest (st s))) (sn_next md)
     (fun i (_ : unit) => full ← sn_fully_received (rx_window s) i; ok (tt, negb full)) sn tt;
  ok sn_upd.

Definition update_rx_highest_status s (sn : Z) : outcome rlc_rx_am_entity :=
  if rx_mod_base s sn =? rx_mod_base s (rx_highest_status (st s)) then
    sn_upd ← scan_fully_received s (sn_next md (rx_highest_status (st s)));
    ok (set_st s (set_rx_highest_status (st s) sn_upd))
  else ok s.

Definition update_rx_next s (sn : Z) : outcome rlc_rx_am_entity :=
  if rx_mod_base s sn =? rx_mod_base s (rx_next (st s)) then
    '(sn_upd, w) ← for_loop loop_fuel
       (fun i _ => rx_mod_base s i <? rx_mod_base s (rx_next_highest (st s))) (sn_next md)
       (fun i w =>
          full ← sn_fully_received w i;
          if full : bool then w ← remove_sn am_window_size w i; ok (w, false)
          else ok (w, true))
       (rx_next (st s) mod md) (rx_window s);
    ok (set_st (set_window s w) (set_rx_next (st s) sn_upd))
  else ok s.

Definition stop_reassembly_timer s : outcome rlc_rx_am_entity :=
  if is_running (reassembly_timer s) then
    let trigger := rx_next_status_trigger (st s) in
    let stop := trigger =? rx_next (st s) in
    stop ← (if rx_mod_base s trigger =? rx_mod_base s (rx_next (st s) + 1) then
              info ← cm_at am_window_size (rx_window s) (rx_next (st s));
              ok (if negb (has_gap info) then true else stop)
            else ok stop);
    let stop := if negb (inside_rx_window s trigger) then true else stop in
    ok (if stop then set_reassembly_timer s (timer_stop (reassembly_timer s)) else s)
  else ok s.

(** Whether t-Reassembly has to run: [base] is RX_Next, or RX_Highest_Status when
    the timer has just expired. *)
Definition reassembly_needed s (base : Z) : outcome bool :=
  let restart := rx_mod_base s (base + 1) <? rx_mod_base s (rx_next_highest (st s)) in
  if rx_mod_base s (rx_next_highest (st s)) =? rx_mod_base s (base + 1) then
    gap ← sn_has_gap (rx_window s) base;
    ok (if gap : bool then true else restart)
  else ok restart.

Definition run_reassembly_timer s : rlc_rx_am_entity :=
  set_st (set_reassembly_timer s (timer_run (reassembly_timer s)))
         (set_rx_next_status_trigger (st s) (rx_next_highest (st s))).

Definition start_reassembly_timer s : outcome rlc_rx_am_entity :=
  if negb (is_running (reassembly_timer s)) then
    restart ← reassembly_needed s (rx_next (st s));
    ok (if restart : bool then run_reassembly_timer s else s)
  else ok s.

(** Lines 191-332: a PDU inside the window that is no duplicate; [true] when the
    window has changed. *)
Definition place_data_pdu (env : chain_env) s (header : rlc_am_pdu_header) (payload : bytes)
    : outcome (bool * rlc_rx_am_entity) :=
  let sn := h_sn header in
  '(changed, s) ← (if decide (h_si header = full_sdu) then handle_full_data_sdu s header payload
                   else handle_segment_data_sdu s header payload);
  let s := update_rx_next_highest s sn in
  full ← sn_fully_received (rx_window s) sn;
  s ← (if full : bool then
         s ← deliver_sdu env s sn;
         s ← update_rx_highest_status s sn;
         update_rx_next s sn
       else ok s);
  s ← stop_reassembly_timer s;
  s ← start_reassembly_timer s;
  ok (changed, s).

(** [on_function_exit] *)
Definition on_function_exit s (status_changed status_requested : bool) : outcome rlc_rx_am_entity :=
  s ← (if status_changed then refresh_status_report s else ok s);
  let s := if status_requested then set_do_status s true else s in
  ok (if status_changed || status_requested then notify_status_report_changed s else s).

Definition handle_data_pdu (env : chain_env) s (buf : bytes) : outcome rlc_rx_am_entity :=
  match rlc_am_read_data_pdu_header buf sz with
  | None => on_function_exit (emit s ev_malformed) false false
  | Some header =>
      let header_len := get_packed_size header in
      if zlen buf <=? header_len then on_function_exit s false false
      else
        let payload := slice buf header_len (zlen buf - header_len) in
        let status_requested := negb (h_p header =? 0) in
        if negb (inside_rx_window s (h_sn header)) then on_function_exit s false status_requested
        else
          duplicate ← sn_fully_received (rx_window s) (h_sn header);
          if duplicate : bool then on_function_exit s false status_requested
          else
            '(status_changed, s) ← place_data_pdu env s header payload;
            on_function_exit s status_changed status_requested
  end.

Definition handle_control_pdu s (buf : bytes) : outcome rlc_rx_am_entity :=
  r ← unpack (status_ctor sz) buf;
  ok (match r with Some status => emit s (ev_status status) | None => s end).

Definition handle_pdu (env : chain_env) s (buf : bytes) : outcome rlc_rx_am_entity :=
  let s := emit s (ev_pdu (zlen buf)) in
  if bool_decide (buf = []) then ok s
  else
    let s := emit s (ev_pcap buf) in
    if is_control_pdu buf then handle_control_pdu (emit s (ev_ctrl_pdu (zlen buf))) buf
    else handle_data_pdu env s buf.

(** ** Timers *)
Definition on_expired_status_prohibit_timer s : rlc_rx_am_entity :=
  notify_status_report_changed (set_prohibit_flag s false).

Definition on_expired_reassembly_timer s : outcome rlc_rx_am_entity :=
  if is_running (reassembly_timer s) then ok s
  else if negb (valid_ack_sn s (rx_next_status_trigger (st s))) then ok s
  else
    sn_upd ← scan_fully_received s (rx_next_status_trigger (st s));
    _ ← srsran_assert (valid_ack_sn s sn_upd);
    let s := set_st s (set_rx_highest_status (st s) sn_upd) in
    restart ← reassembly_needed s (rx_highest_status (st s));
    let s := if restart : bool then run_reassembly_timer s else s in
    s ← refresh_status_report s;
    ok (notify_status_report_changed (set_do_status s true)).

(** The task put on the executor by [get_status_pdu]. *)
Definition run_status_prohibit_timer s : rlc_rx_am_entity :=
  set_timers s (status_prohibit_timer_is_running s) (timer_run (status_prohibit_timer s))
             (reassembly_timer s) (stopped s).

(** Expiry as [timer_manager] runs it: the state becomes expired, then the
    callback is called, when the constructor has set one. *)
Definition reassembly_timer_expiry s : outcome rlc_rx_am_entity :=
  let s := set_reassembly_timer s timer_expired in
  if 0 <? t_reassembly cfg then on_expired_reassembly_timer s else ok s.

Definition status_prohibit_timer_expiry s : rlc_rx_am_entity :=
  let s := set_timers s (status_prohibit_timer_is_running s) timer_expired
             (reassembly_timer s) (stopped s) in
  if 0 <? t_status_prohibit cfg then on_expired_status_prohibit_timer s else s.

Definition stop s : rlc_rx_am_entity :=
  if negb (stopped s) then
    set_timers s (status_prohibit_timer_is_running s) (timer_stop (status_prohibit_timer s))
               (timer_stop (reassembly_timer s)) true
  else s.
End rlc_rx_am_entity.
