(* ===== verification/RlcRxAmInv.v ===== *)
(** * The invariant of the receiving RLC AM entity

    The well-formedness of the receive window and of the state variables, one
    lemma per step of the data path of [RlcRxAm], and the proof that every event
    in the life of an entity preserves the invariant and fails no assertion. *)

From S2P Require Import Prelude SduWindow RlcAmPdu RlcSegments RlcRxAm.
(** ** Invariant *)
Section invariant.
Context (cfg : rlc_rx_am_config).

Abbreviation sz := (sn_field_length cfg).
Abbreviation md := (am_mod sz).
Abbreviation W := (am_window sz).
Abbreviation dist x sn := (sn_dist md (rx_next x) sn).

Implicit Types (s : rlc_rx_am_entity) (x : rlc_rx_am_state) (w : circular_map sdu_info).

(** The SDU with SN [sn] is in the window and complete. *)
Definition is_full w (sn : Z) : bool :=
  match wget W w sn with Some i => fully_received i | None => false end.

(** An incomplete SDU holds a set of segments, and its flags are those of its
    inventory. *)
Definition entry_wf (i : sdu_info) : Prop :=
  fully_received i = false ->
  exists segs, sdu_buf i = segment_set segs /\ segments_wf segs /\
    update_segment_inventory segs = (has_gap i, false).

(** [sn] follows a sequence number of the window. *)
Definition follows_received w (sn : Z) : Prop :=
  exists k, is_Some (wget W w k) /\ sn_next md k = sn.

(** The part that holds at every point of [handle_data_pdu]. *)
Record window_inv x w : Prop := {
  wi_next : 0 <= rx_next x < md;
  wi_hs : 0 <= rx_highest_status x < md;
  wi_nh : 0 <= rx_next_highest x < md;
  wi_nh_dist : dist x (rx_next_highest x) <= W;
  wi_hs_dist : dist x (rx_highest_status x) <= dist x (rx_next_highest x);
  wi_wf : window_wf W w;
  wi_in : forall k, is_Some (wget W w k) -> 0 <= k < md /\ dist x k < dist x (rx_next_highest x);
  wi_entry : forall k i, wget W w k = Some i -> entry_wf i;
  wi_top : 0 < dist x (rx_next_highest x) -> follows_received w (rx_next_highest x)
}.

Record trigger_ok x w : Prop := {
  tr_range : 0 <= rx_next_status_trigger x < md;
  tr_dist : 0 < dist x (rx_next_status_trigger x) <= dist x (rx_next_highest x);
  tr_top : follows_received w (rx_next_status_trigger x)
}.

Record rx_inv s : Prop := {
  inv_window : window_inv (st s) (rx_window s);
  inv_next_missing : is_full (rx_window s) (rx_next (st s)) = false;
  inv_hs_missing : is_full (rx_window s) (rx_highest_status (st s)) = false;
  inv_trigger : is_running (reassembly_timer s) = true -> trigger_ok (st s) (rx_window s);
  inv_limit : 0 < max_nof_sn_per_status_report s <= W;
  inv_builder : s_sn_size (status_builder s) = sz;
  inv_cached : s_sn_size (status_cached s) = sz;
  inv_shared : s_sn_size (status_shared s) = sz
}.

Lemma W_facts : 2 <= W /\ md = 2 * W /\ md < 2 ^ 32.
Proof. unfold window_size, cardinality. destruct sz; (split; [|split]); vm_compute; congruence. Qed.

Lemma sn_fully_received_eq w sn : sn_fully_received cfg w sn = ok (is_full w sn).
Proof.
  unfold sn_fully_received, is_full. rewrite has_sn_wget.
  destruct (wget W w sn) as [i|] eqn:E; simpl; [|done]. by rewrite (cm_at_ok _ _ _ _ E).
Qed.

Definition gap_of w (sn : Z) : bool :=
  match wget W w sn with Some i => has_gap i | None => false end.

Lemma sn_has_gap_eq w sn : sn_has_gap cfg w sn = ok (gap_of w sn).
Proof.
  unfold sn_has_gap, gap_of. rewrite has_sn_wget.
  destruct (wget W w sn) as [i|] eqn:E; simpl; [|done]. by rewrite (cm_at_ok _ _ _ _ E).
Qed.

Lemma is_full_in x w k :
  window_inv x w -> is_full w k = true -> 0 <= k < md /\ dist x k < dist x (rx_next_highest x).
Proof.
  intros Hw Hf. apply (wi_in _ _ Hw). unfold is_full in Hf. destruct (wget W w k); [eauto|done].
Qed.

(** Nothing is received from RX_Next_Highest on. *)
Lemma not_full_above x w k :
  window_inv x w -> dist x (rx_next_highest x) <= dist x k -> is_full w k = false.
Proof.
  intros Hw Hk. destruct (is_full w k) eqn:E; [|done].
  destruct (is_full_in _ _ _ Hw E). lia.
Qed.

Lemma dist_next_lt x w k :
  window_inv x w -> dist x k < dist x (rx_next_highest x) ->
  dist x (sn_next md k) = dist x k + 1.
Proof.
  intros Hw Hk. apply sn_dist_next_lt. pose proof (wi_nh_dist _ _ Hw). pose proof W_facts. lia.
Qed.

(** *** The loops over fully received SDUs *)

(** [r] is the first SN from [sn] on, up to [top], that [recv] does not have. *)
Definition first_unreceived (base top : Z) (recv : Z -> bool) (sn r : Z) : Prop :=
  0 <= r < md /\ sn_dist md base sn <= sn_dist md base r <= sn_dist md base top /\
  recv r = false /\
  forall k, 0 <= k < md -> sn_dist md base sn <= sn_dist md base k < sn_dist md base r -> recv k = true.

Abbreviation first_missing x w := (first_unreceived (rx_next x) (rx_next_highest x) (is_full w)).

Lemma first_unreceived_ext base top recv recv' sn r :
  (forall k, 0 <= k < md -> recv k = recv' k) ->
  first_unreceived base top recv sn r -> first_unreceived base top recv' sn r.
Proof.
  intros Heq (H1 & H2 & H3 & H4). unfold first_unreceived. split_and!; try done; try lia.
  - by rewrite <- Heq.
  - intros k Hk Hd. rewrite <- Heq by done. auto.
Qed.

Lemma first_missing_step x w sn i :
  0 <= i < md -> dist x (sn_next md i) = dist x i + 1 -> is_full w i = true ->
  (forall k, 0 <= k < md -> dist x sn <= dist x k < dist x i -> is_full w k = true) ->
  forall k, 0 <= k < md -> dist x sn <= dist x k < dist x (sn_next md i) -> is_full w k = true.
Proof.
  intros Hi E Hf Hall k Hk Hd. destruct (decide (dist x k = dist x i)) as [Ek|].
  - by apply (sn_dist_inj (m := md) (W := W)) in Ek as ->.
  - apply Hall; [done|lia].
Qed.

Lemma loop_fuel_enough a b : 0 <= a -> b < md -> (Z.to_nat (b - a) < loop_fuel cfg)%nat.
Proof. unfold loop_fuel. intros. lia. Qed.

Lemma scan_fully_received_ok s sn :
  window_inv (st s) (rx_window s) -> 0 <= sn < md ->
  dist (st s) sn <= dist (st s) (rx_next_highest (st s)) ->
  exists r, scan_fully_received cfg s sn = ok r /\ first_missing (st s) (rx_window s) sn r.
Proof.
  intros Hw Hsn Hd. unfold scan_fully_received, rx_mod_base.
  set (x := st s) in *. set (w := rx_window s) in *.
  edestruct (for_loop_rule
    (fun i (_ : unit) => 0 <= i < md /\ dist x sn <= dist x i <= dist x (rx_next_highest x) /\
       forall k, 0 <= k < md -> dist x sn <= dist x k < dist x i -> is_full w k = true)
    (fun i _ => first_missing x w sn i)
    (fun i _ => Z.to_nat (dist x (rx_next_highest x) - dist x i))) as (r & [] & -> & Hr);
    [| | | |by exists r]; simpl.
  - split_and!; [lia..|]. intros. lia.
  - apply loop_fuel_enough; apply sn_dist_range.
  - intros i _ (Hi & Hdi & Hall) Hc%Z.ltb_ge. unfold first_unreceived. split_and!; try done; try lia.
    apply (not_full_above x); [done|lia].
  - intros i _ (Hi & Hdi & Hall) Hc%Z.ltb_lt. rewrite sn_fully_received_eq. simpl.
    pose proof (dist_next_lt _ _ _ Hw Hc) as En.
    eexists _, _. split; [done|]. split; intros Hf.
    + destruct (is_full w i) eqn:E; [done|]. unfold first_unreceived. split_and!; (done || lia).
    + destruct (is_full w i) eqn:E; [|done]. split; [|lia]. split_and!; try lia.
      * apply (sn_next_range (W := W)).
      * apply (sn_next_range (W := W)).
      * by apply first_missing_step.
Qed.

(** The loop that also removes what it passes. *)
Lemma remove_fully_received_ok s :
  window_inv (st s) (rx_window s) ->
  let x := st s in
  exists r w, for_loop (loop_fuel cfg)
     (fun i _ => rx_mod_base cfg s i <? rx_mod_base cfg s (rx_next_highest (st s))) (sn_next md)
     (fun i w => full ← sn_fully_received cfg w i;
        if full : bool then w ← remove_sn W w i; ok (w, false) else ok (w, true))
     (rx_next x mod md) (rx_window s) = ok (r, w) /\
  first_missing x (rx_window s) (rx_next x) r /\ window_wf W w /\
  forall k, wget W w k = if decide (dist x k < dist x r) then None else wget W (rx_window s) k.
Proof.
  intros Hw x. unfold rx_mod_base. fold x in Hw |- *. set (w0 := rx_window s) in *.
  pose proof (wi_next _ _ Hw) as Hn. rewrite Z.mod_small by done.
  pose proof (sn_dist_self (m := md) (W := W) (rx_next x)) as H0.
  pose proof (sn_dist_range (m := md) (W := W) (rx_next x)) as Hr.
  pose proof (Hr (rx_next_highest x)).
  edestruct (for_loop_rule
    (fun i w => 0 <= i < md /\ dist x i <= dist x (rx_next_highest x) /\
       (forall k, 0 <= k < md -> dist x (rx_next x) <= dist x k < dist x i -> is_full w0 k = true) /\
       window_wf W w /\
       forall k, wget W w k = if decide (dist x k < dist x i) then None else wget W w0 k)
    (fun i w => first_missing x w0 (rx_next x) i /\ window_wf W w /\
       forall k, wget W w k = if decide (dist x k < dist x i) then None else wget W w0 k)
    (fun i _ => Z.to_nat (dist x (rx_next_highest x) - dist x i))) as (r & w & -> & HQ);
    [| | | |by exists r, w]; simpl.
  - split_and!; try done; try lia.
    + apply (wi_wf _ _ Hw).
    + intros k. pose proof (Hr k). by rewrite decide_False by lia.
  - apply loop_fuel_enough; apply sn_dist_range.
  - intros i w (Hi & Hdi & Hall & Hwf & Hget) Hc%Z.ltb_ge. split; [|done]. unfold first_unreceived.
    pose proof (Hr i). split_and!; try done; try lia. apply (not_full_above x); [done|lia].
  - intros i w (Hi & Hdi & Hall & Hwf & Hget) Hc%Z.ltb_lt.
    pose proof (dist_next_lt _ _ _ Hw Hc) as En. pose proof (Hr i).
    assert (Ei : is_full w i = is_full w0 i).
    { unfold is_full. by rewrite Hget, decide_False by lia. }
    rewrite sn_fully_received_eq, Ei. simpl. destruct (is_full w0 i) eqn:Hf; simpl.
    + assert (exists v, wget W w i = Some v) as [v Hv].
      { unfold is_full in Ei. destruct (wget W w i); [eauto|done]. }
      destruct (remove_sn_ok W _ _ _ Hwf Hv) as (w' & -> & Hwf' & _ & Hget'). simpl.
      exists w', false. split; [done|]. split; [done|]. intros _. split; [|lia].
      pose proof (sn_next_range (m := md) (W := W) i).
      split_and!; try done; try lia; [by apply first_missing_step|].
      intros k. rewrite Hget', Hget, En. destruct (decide (k = i)) as [->|Hne].
      * by rewrite decide_True by lia.
      * destruct (decide (dist x k < dist x i)); [by rewrite decide_True by lia|].
        destruct (decide (dist x k < dist x i + 1)); [|done].
        destruct (wget W w0 k) as [e|] eqn:Ek; [|done]. exfalso. apply Hne.
        destruct (wi_in _ _ Hw k) as [Hk _]; [eauto|].
        apply (sn_dist_inj (m := md) (W := W) (rx_next x)); [done..|lia].
    + exists w, true. split; [done|]. split; [|done]. intros _. split; [|done].
      unfold first_unreceived. split_and!; try done; lia.
Qed.

(** *** One lemma per step of [place_data_pdu] *)

Lemma window_inv_nh x w w' sn :
  window_inv x w -> 0 <= sn < md -> dist x sn < W ->
  window_wf W w' -> (forall k, is_Some (wget W w' k) <-> k = sn \/ is_Some (wget W w k)) ->
  (forall k i, wget W w' k = Some i -> entry_wf i) ->
  let x' := if dist x (rx_next_highest x) <=? dist x sn
            then set_rx_next_highest x (sn_next md sn) else x in
  window_inv x' w' /\ rx_next x' = rx_next x /\ rx_highest_status x' = rx_highest_status x /\
  rx_next_status_trigger x' = rx_next_status_trigger x /\
  dist x sn < dist x (rx_next_highest x') /\
  dist x (rx_next_highest x) <= dist x (rx_next_highest x').
Proof.
  intros Hw Hsn Hd Hwf Hdom Hent x'. pose proof W_facts.
  assert (En : dist x (sn_next md sn) = dist x sn + 1) by (apply sn_dist_next_lt; lia).
  assert (Hx : rx_next x' = rx_next x /\ rx_highest_status x' = rx_highest_status x /\
    rx_next_status_trigger x' = rx_next_status_trigger x /\
    (dist x (rx_next_highest x) <= dist x sn /\ rx_next_highest x' = sn_next md sn \/
     dist x sn < dist x (rx_next_highest x) /\ rx_next_highest x' = rx_next_highest x)).
  { unfold x'. destruct (Z.leb_spec (dist x (rx_next_highest x)) (dist x sn)); simpl; tauto. }
  clearbody x'. destruct Hx as (E1 & E2 & E3 & Hcase).
  assert (dist x (rx_next_highest x) <= dist x (rx_next_highest x')) as Hmono
    by (destruct Hcase as [[? ->]|[? ->]]; lia).
  assert (dist x sn < dist x (rx_next_highest x')) as Hbelow
    by (destruct Hcase as [[? ->]|[? ->]]; lia).
  split; [|by split_and!].
  destruct Hw as [Hn Hhs Hnh Hnd Hhd _ Hin _ Htop]. constructor; rewrite ?E1, ?E2; try done; try lia.
  - destruct Hcase as [[_ ->]|[_ ->]]; [apply (sn_next_range (W := W))|done].
  - destruct Hcase as [[_ ->]|[_ ->]]; lia.
  - intros k [->|Hk]%Hdom; [lia|]. destruct (Hin k Hk). lia.
  - intros _. destruct Hcase as [[_ ->]|[Hlt ->]].
    + exists sn. split; [apply Hdom; auto|done].
    + destruct Htop as (k & Hk & Ek); [pose proof (sn_dist_range (m := md) (W := W) (rx_next x) sn); lia|].
      exists k. split; [apply Hdom; auto|done].
Qed.

Lemma update_rx_highest_status_ok s sn :
  window_inv (st s) (rx_window s) -> 0 <= sn < md ->
  is_full (rx_window s) sn = true ->
  (sn <> rx_highest_status (st s) -> is_full (rx_window s) (rx_highest_status (st s)) = false) ->
  exists r, update_rx_highest_status cfg s sn = ok (set_st s (set_rx_highest_status (st s) r)) /\
    window_inv (set_rx_highest_status (st s) r) (rx_window s) /\
    is_full (rx_window s) r = false /\
    (sn <> rx_highest_status (st s) -> r = rx_highest_status (st s)) /\
    (sn = rx_highest_status (st s) ->
       first_missing (st s) (rx_window s) (sn_next md sn) r).
Proof.
  intros Hw Hsn Hf Hne. unfold update_rx_highest_status, rx_mod_base.
  pose proof (is_full_in _ _ _ Hw Hf) as [_ Hd].
  destruct (Z.eqb_spec (dist (st s) sn) (dist (st s) (rx_highest_status (st s)))) as [E|E].
  - apply (sn_dist_inj (m := md) (W := W)) in E; [|done|apply (wi_hs _ _ Hw)]. rewrite <- E.
    pose proof (dist_next_lt _ _ _ Hw Hd) as En.
    destruct (scan_fully_received_ok s (sn_next md sn)) as (r & Er & Hr);
      [done|apply (sn_next_range (W := W))|lia|].
    rewrite Er. simpl. exists r. split; [done|]. destruct Hr as (Hr1 & Hr2 & Hr3 & Hr4).
    split_and!; try done. destruct Hw. constructor; simpl; try done. lia.
  - exists (rx_highest_status (st s)). split; [by destruct s as [[] ? ? ? ? ? ? ? ? ? ? ? ?]|].
    split_and!; [by destruct s as [[] ? ? ? ? ? ? ? ? ? ? ? ?]|apply Hne; congruence|done|congruence].
Qed.

(** The trigger after RX_Next has moved: still good, or t-Reassembly is stopped. *)
Definition trigger_mid x w : Prop :=
  0 <= rx_next_status_trigger x < md /\
  (trigger_ok x w \/ rx_next_status_trigger x = rx_next x \/ W <= dist x (rx_next_status_trigger x)).

Lemma window_inv_advance x w w' r :
  window_inv x w -> is_full w (rx_highest_status x) = false ->
  first_missing x w (rx_next x) r -> window_wf W w' ->
  (forall k, wget W w' k = if decide (dist x k < dist x r) then None else wget W w k) ->
  let x' := set_rx_next x r in
  window_inv x' w' /\ is_full w' r = false /\ is_full w' (rx_highest_status x) = false /\
  (trigger_ok x w -> trigger_mid x' w').
Proof.
  intros Hw Hhs (Hr & Hdr & Hfr & Hall) Hwf Hget x'. pose proof W_facts.
  pose proof (sn_dist_self (m := md) (W := W) (rx_next x)) as H0.
  pose proof (wi_nh_dist _ _ Hw) as Hnd.
  assert (Hre : forall k, dist x r <= dist x k -> dist x' k = dist x k - dist x r).
  { intros k Hk. unfold x'; simpl. rewrite (sn_dist_rebase (W := W) (rx_next x) r k). zcases; lia. }
  assert (Hhd : dist x r <= dist x (rx_highest_status x)).
  { destruct (decide (dist x (rx_highest_status x) < dist x r)) as [Hlt|]; [|lia].
    rewrite Hall in Hhs; [done|apply (wi_hs _ _ Hw)|]. rewrite H0.
    split; [apply (sn_dist_range (W := W))|done]. }
  assert (Hkeep : forall k, dist x r <= dist x k -> wget W w' k = wget W w k)
    by (intros k Hk; rewrite Hget, decide_False; [done|lia]).
  assert (Hsub : forall k i, wget W w' k = Some i -> wget W w k = Some i /\ dist x r <= dist x k).
  { intros k i Hk. rewrite Hget in Hk. destruct (decide _); [done|]. split; [done|lia]. }
  assert (Htop : forall sn, dist x r < dist x sn -> dist x sn <= W -> 0 <= sn < md ->
    follows_received w sn -> follows_received w' sn).
  { intros sn Hlt Hle Hsn (k & Hk & Ek). exists k. split; [|done]. rewrite Hkeep; [done|].
    destruct (wi_in _ _ Hw k Hk) as [_ Hkd]. rewrite <- Ek, (dist_next_lt x w) in Hlt by done. lia. }
  destruct Hw as [Hn Hhsr Hnh _ Hhd' _ Hin Hent Ht].
  split; [|split_and!].
  - constructor; cbn [rx_next rx_highest_status rx_next_highest set_rx_next x']; try done.
    + fold (dist x' (rx_next_highest x)). change (rx_next x') with r in *. rewrite Hre by lia.
      pose proof (sn_dist_range (m := md) (W := W) (rx_next x) r). lia.
    + change r with (rx_next x'). rewrite !Hre by lia. lia.
    + intros k [i [Hk Hdk]%Hsub]. destruct (Hin k) as [? ?]; [eauto|]. split; [done|].
      change r with (rx_next x'). rewrite !Hre by lia. lia.
    + intros k i [Hk _]%Hsub. eauto.
    + change r with (rx_next x'). rewrite Hre by lia. intros Hpos.
      pose proof (sn_dist_range (m := md) (W := W) (rx_next x) r).
      apply Htop; [lia|lia|done|]. apply Ht. lia.
  - unfold is_full. by rewrite Hkeep by lia.
  - unfold is_full. by rewrite Hkeep by lia.
  - intros [T1 T2 T3]. split; [done|]. simpl.
    destruct (Z.lt_trichotomy (dist x r) (dist x (rx_next_status_trigger x))) as [Hlt|[Heq|Hgt]].
    + left. constructor; simpl; [done| |apply Htop; [done|lia|done..]].
      change r with (rx_next x'). rewrite !Hre by lia. lia.
    + right; left. symmetry. by apply (sn_dist_inj (m := md) (W := W) (rx_next x)).
    + right; right. rewrite (sn_dist_rebase (W := W) (rx_next x) r). zcases; lia.
Qed.

Lemma update_rx_next_ok s sn :
  window_inv (st s) (rx_window s) -> 0 <= sn < md ->
  is_full (rx_window s) (rx_highest_status (st s)) = false ->
  (sn <> rx_next (st s) -> is_full (rx_window s) (rx_next (st s)) = false) ->
  (is_running (reassembly_timer s) = true -> trigger_ok (st s) (rx_window s)) ->
  exists r w, update_rx_next cfg s sn = ok (set_st (set_window s w) (set_rx_next (st s) r)) /\
    window_inv (set_rx_next (st s) r) w /\
    is_full w r = false /\ is_full w (rx_highest_status (st s)) = false /\
    (is_running (reassembly_timer s) = true -> trigger_mid (set_rx_next (st s) r) w) /\
    first_missing (st s) (rx_window s) (rx_next (st s)) r /\
    (forall k, wget W w k = if decide (dist (st s) k < dist (st s) r) then None
                            else wget W (rx_window s) k).
Proof.
  intros Hw Hsn Hhs Hne Htr. unfold update_rx_next, rx_mod_base.
  pose proof (sn_dist_range (m := md) (W := W) (rx_next (st s))) as Hrg.
  destruct (Z.eqb_spec (dist (st s) sn) (dist (st s) (rx_next (st s)))) as [E|E].
  - destruct (remove_fully_received_ok s Hw) as (r & w & Eloop & Hfm & Hwf & Hget).
    unfold rx_mod_base in Eloop. rewrite Eloop. simpl. exists r, w. split; [done|].
    destruct (window_inv_advance _ _ _ _ Hw Hhs Hfm Hwf Hget) as (? & ? & ? & ?).
    split_and!; try done; auto.
  - rewrite sn_dist_self in E. pose proof (Hne ltac:(intros ->; by rewrite sn_dist_self in E)) as Hnf.
    assert (Hfm : first_missing (st s) (rx_window s) (rx_next (st s)) (rx_next (st s))).
    { unfold first_unreceived. pose proof (wi_next _ _ Hw). pose proof (Hrg (rx_next_highest (st s))).
      rewrite sn_dist_self. split_and!; try done; try lia. }
    assert (Hget : forall k, wget W (rx_window s) k =
      if decide (dist (st s) k < dist (st s) (rx_next (st s))) then None else wget W (rx_window s) k).
    { intros k. pose proof (Hrg k). rewrite sn_dist_self. by rewrite decide_False by lia. }
    exists (rx_next (st s)), (rx_window s).
    split; [by destruct s as [[] ? ? ? ? ? ? ? ? ? ? ? ?]|].
    destruct (window_inv_advance _ _ _ _ Hw Hhs Hfm (wi_wf _ _ Hw) Hget) as (? & ? & ? & ?).
    split_and!; try done; auto.
Qed.

(** *** Storing a PDU *)

(** The segments held for [sn]. *)
Definition held_segments w (sn : Z) : list sdu_segment :=
  match wget W w sn with Some i => segments_of (sdu_buf i) | None => [] end.

(** What the window holds for the SDU after a PDU was stored, and whether that is
    new. *)
Definition stored_entry w (header : rlc_am_pdu_header) (payload : bytes) : bool * sdu_info :=
  if decide (h_si header = full_sdu) then (true, mk_sdu_info true false (full_slice payload))
  else
    let r := store_segment (held_segments w (h_sn header))
               (mk_segment (h_si header) (h_so header) payload) in
    let inv := update_segment_inventory r.2 in
    (r.1, mk_sdu_info inv.2 inv.1 (segment_set r.2)).

(** A data PDU the receiver can take: one payload byte at least, and the bytes of
    a segment are addressable by the 16 bits of SO. *)
Record pdu_fits (header : rlc_am_pdu_header) (payload : bytes) : Prop := {
  pf_sn : 0 <= h_sn header < md;
  pf_so : 0 <= h_so header;
  pf_payload : payload <> [];
  pf_end : h_si header <> full_sdu -> h_so header + zlen payload <= 2 ^ 16 - 1
}.

Lemma held_segments_wf x w sn :
  window_inv x w -> is_full w sn = false -> segments_wf (held_segments w sn).
Proof.
  intros Hw Hf. unfold held_segments, is_full in *. destruct (wget W w sn) as [i|] eqn:E; [|done].
  destruct (wi_entry _ _ Hw _ _ E Hf) as (segs & -> & Hs & _). done.
Qed.

Lemma stored_entry_wf x w header payload :
  window_inv x w -> is_full w (h_sn header) = false -> pdu_fits header payload ->
  entry_wf (stored_entry w header payload).2.
Proof.
  intros Hw Hf [Hsn Hso Hp He]. unfold stored_entry. destruct (decide _); [done|]. simpl.
  intros Hfull. eexists. split; [done|].
  pose proof (held_segments_wf _ _ _ Hw Hf) as Hs.
  destruct (store_segment_spec _ (mk_segment (h_si header) (h_so header) payload) Hs)
    as (Hwf & _); simpl; auto.
  split; [done|]. simpl in *. rewrite <- Hfull. by destruct (update_segment_inventory _).
Qed.

(** An incomplete SDU becomes complete by new data only. *)
Lemma stored_entry_changed x w header payload :
  window_inv x w -> is_full w (h_sn header) = false -> pdu_fits header payload ->
  fully_received (stored_entry w header payload).2 = true ->
  (stored_entry w header payload).1 = true.
Proof.
  intros Hw Hf [Hsn Hso Hp He]. unfold stored_entry. destruct (decide _) as [|Hsi]; [done|]. simpl.
  pose proof (held_segments_wf _ _ _ Hw Hf) as Hs.
  destruct (store_segment_spec _ (mk_segment (h_si header) (h_so header) payload) Hs)
    as (_ & _ & Hno & _); simpl; auto.
  destruct (store_segment _ _).1 eqn:E; [done|]. destruct (Hno eq_refl) as [-> _]. intros Hfull.
  exfalso. unfold held_segments, is_full in *.
  destruct (wget W w (h_sn header)) as [i|] eqn:Ei; [|done].
  destruct (wi_entry _ _ Hw _ _ Ei Hf) as (segs & Hb & _ & Hinv).
  rewrite Hb in Hfull. simpl in Hfull. by rewrite Hinv in Hfull.
Qed.

Lemma window_enter x w sn :
  window_inv x w -> 0 <= sn < md -> dist x sn < W ->
  exists w', (if has_sn W w sn then ok w else add_sn W sdu_info_init w sn) = ok w' /\
    window_wf W w' /\
    (exists i, wget W w' sn = Some i /\ segments_of (sdu_buf i) = held_segments w sn) /\
    forall k, k <> sn -> wget W w' k = wget W w k.
Proof.
  intros Hw Hsn Hd. rewrite has_sn_wget. unfold held_segments.
  destruct (wget W w sn) as [i|] eqn:E; simpl.
  - exists w. split_and!; eauto using wi_wf.
  - assert (Hin : window_in (m := md) (W := W) (rx_next x) w).
    { intros k Hk. destruct (wi_in _ _ Hw k Hk). pose proof (wi_nh_dist _ _ Hw). split; [done|lia]. }
    destruct (window_add sdu_info_init _ _ _ (wi_wf _ _ Hw) Hin Hsn Hd E) as (w' & -> & Hwf & _ & Hget).
    exists w'. split_and!; try done.
    + exists sdu_info_init. by rewrite Hget, decide_True.
    + intros k Hk. by rewrite Hget, decide_False.
Qed.

Lemma store_pdu_ok s header payload :
  window_inv (st s) (rx_window s) -> 0 <= h_sn header < md -> dist (st s) (h_sn header) < W ->
  exists w, (if decide (h_si header = full_sdu) then handle_full_data_sdu cfg s header payload
             else handle_segment_data_sdu cfg s header payload)
     = ok ((stored_entry (rx_window s) header payload).1, set_window s w) /\
    window_wf W w /\
    forall k, wget W w k = if decide (k = h_sn header)
      then Some (stored_entry (rx_window s) header payload).2 else wget W (rx_window s) k.
Proof.
  intros Hw Hsn Hd. destruct (window_enter _ _ _ Hw Hsn Hd) as (w1 & E1 & Hwf1 & (i & Ei & Hsegs) & Hget1).
  unfold handle_full_data_sdu, handle_segment_data_sdu, stored_entry.
  destruct (decide (h_si header = full_sdu)) as [Esi|Esi].
  - rewrite bool_decide_eq_true_2 by done. simpl. rewrite E1. simpl.
    destruct (cm_set_ok W w1 _ (mk_sdu_info true false (full_slice payload)) _ Hwf1 Ei)
      as (w2 & -> & Hwf2 & _ & Hget2). simpl.
    exists w2. split_and!; try done. intros k. rewrite Hget2.
    destruct (decide (k = h_sn header)); [done|auto].
  - rewrite bool_decide_eq_false_2 by done. rewrite E1. simpl.
    rewrite (cm_at_ok _ _ _ _ Ei). simpl. rewrite Hsegs.
    destruct (store_segment _ _) as [stored segments]. simpl.
    destruct (update_segment_inventory segments) as [gap full]. simpl.
    destruct (cm_set_ok W w1 _ (mk_sdu_info full gap (segment_set segments)) _ Hwf1 Ei)
      as (w2 & -> & Hwf2 & _ & Hget2). simpl.
    exists w2. split_and!; try done. intros k. rewrite Hget2.
    destruct (decide (k = h_sn header)); [done|auto].
Qed.

(** *** Delivery *)

Definition delivery_events (env : chain_env) (i : sdu_info) : list rx_event :=
  match reassemble_sdu env i with
  | None => [ev_lost]
  | Some sdu => [ev_sdu_metrics (zlen sdu); ev_new_sdu sdu]
  end.

Definition emit_all s (l : list rx_event) : rlc_rx_am_entity := foldl emit s l.

Lemma deliver_sdu_ok env s sn i :
  window_wf W (rx_window s) -> wget W (rx_window s) sn = Some i ->
  exists w, deliver_sdu cfg env s sn
     = ok (set_window (emit_all s (delivery_events env i)) w) /\ window_wf W w /\
    forall k, wget W w k = if decide (k = sn)
      then Some (mk_sdu_info (fully_received i) (has_gap i) (full_slice []))
      else wget W (rx_window s) k.
Proof.
  intros Hwf Hi. unfold deliver_sdu, delivery_events. rewrite (cm_at_ok _ _ _ _ Hi). simpl.
  destruct (cm_set_ok W (rx_window s) _ (mk_sdu_info (fully_received i) (has_gap i) (full_slice []))
    _ Hwf Hi) as (w & Ew & Hwf' & _ & Hget).
  exists w. split; [|done]. destruct (reassemble_sdu env i); simpl; by rewrite Ew.
Qed.

(** *** The timer *)

Lemma top_of_distance_one x w sn :
  window_inv x w -> 0 <= sn < md -> dist x sn = 1 -> follows_received w sn ->
  exists i, wget W w (rx_next x) = Some i.
Proof.
  intros Hw Hsn Hd (k & [i Hi] & Ek). destruct (wi_in _ _ Hw k) as [Hk Hdk]; [eauto|].
  rewrite <- Ek, (dist_next_lt _ _ _ Hw Hdk) in Hd.
  assert (k = rx_next x) as ->; [|eauto].
  apply (sn_dist_inj (m := md) (W := W) (rx_next x)); [done|apply (wi_next _ _ Hw)|].
  rewrite sn_dist_self. lia.
Qed.

(** When the running t-Reassembly is stopped. *)
Definition trigger_passed x w : bool :=
  (rx_next_status_trigger x =? rx_next x) ||
  ((dist x (rx_next_status_trigger x) =? 1) && negb (gap_of w (rx_next x))) ||
  (W <=? dist x (rx_next_status_trigger x)).

Lemma stop_reassembly_timer_ok s :
  window_inv (st s) (rx_window s) ->
  (is_running (reassembly_timer s) = true -> trigger_mid (st s) (rx_window s)) ->
  let stop := is_running (reassembly_timer s) && trigger_passed (st s) (rx_window s) in
  stop_reassembly_timer cfg s =
    ok (set_reassembly_timer s (if stop then timer_stopped else reassembly_timer s)) /\
  (is_running (reassembly_timer s) = true -> stop = false -> trigger_ok (st s) (rx_window s)).
Proof.
  intros Hw Htr stop. unfold stop, stop_reassembly_timer, inside_rx_window, rx_mod_base, trigger_passed.
  assert (E0 : s = set_reassembly_timer s (reassembly_timer s)) by by destruct s.
  destruct (is_running (reassembly_timer s)) eqn:Er; simpl; [|split; [by rewrite <- E0|done]].
  assert (Hts : timer_stop (reassembly_timer s) = timer_stopped)
    by (unfold timer_stop; by rewrite Er).
  specialize (Htr eq_refl). destruct Htr as [Hrg Hcase]. pose proof W_facts.
  set (x := st s) in *. set (trig := rx_next_status_trigger x) in *.
  assert (E1 : dist x (rx_next x + 1) = 1).
  { rewrite sn_dist_succ, sn_dist_next_lt; rewrite sn_dist_self; lia. }
  rewrite E1, Hts. split.
  - assert (Hgap : dist x trig = 1 ->
      cm_at W (rx_window s) (rx_next x) ≫= (fun info => ok (if negb (has_gap info) then true else trig =? rx_next x))
      = ok (negb (gap_of (rx_window s) (rx_next x)) || (trig =? rx_next x))).
    { intros Ed. destruct Hcase as [Htok|[Heq|Hout]]; [|rewrite Heq, sn_dist_self in Ed; lia|lia].
      destruct (top_of_distance_one _ _ _ Hw Hrg Ed (tr_top _ _ Htok)) as [i Hi].
      unfold gap_of. rewrite Hi, (cm_at_ok _ _ _ _ Hi). simpl. by destruct (has_gap i). }
    rewrite Z.leb_antisym.
    destruct (Z.eqb_spec (dist x trig) 1) as [Ed|Ed]; [rewrite Hgap by done|]; simpl; rewrite <- ?E0;
      destruct (trig =? rx_next x), (dist x trig <? W), (gap_of (rx_window s) (rx_next x));
      simpl; rewrite <- ?E0; done.
  - intros _ [[Hne _]%orb_false_iff Hle]%orb_false_iff. apply Z.eqb_neq in Hne. apply Z.leb_gt in Hle.
    destruct Hcase as [Htok|[Heq|Hout]]; [done|congruence|lia].
Qed.

Lemma run_trigger_ok x w :
  window_inv x w -> 0 < dist x (rx_next_highest x) ->
  trigger_ok (set_rx_next_status_trigger x (rx_next_highest x)) w.
Proof.
  intros Hw Hpos. constructor; simpl; [apply (wi_nh _ _ Hw)|lia|by apply (wi_top _ _ Hw)].
Qed.

(** When t-Reassembly has to run: something before RX_Next_Highest is missing. *)
Definition reassembly_missing x w (base : Z) : bool :=
  (dist x (base + 1) <? dist x (rx_next_highest x)) ||
  ((dist x (base + 1) =? dist x (rx_next_highest x)) && gap_of w base).

Lemma reassembly_needed_eq s base :
  reassembly_needed cfg s base = ok (reassembly_missing (st s) (rx_window s) base).
Proof.
  unfold reassembly_needed, reassembly_missing, rx_mod_base. rewrite sn_has_gap_eq.
  rewrite (Z.eqb_sym (dist (st s) (rx_next_highest (st s)))).
  destruct (_ =? _), (gap_of _ _), (_ <? _); done.
Qed.

(** The timer runs only while something was received at or after [base]. *)
Lemma reassembly_missing_pos x w base :
  window_inv x w -> 0 <= base < md -> dist x base <= dist x (rx_next_highest x) ->
  reassembly_missing x w base = true -> 0 < dist x (rx_next_highest x).
Proof.
  intros Hw Hb Hd Hm. pose proof (sn_dist_range (m := md) (W := W) (rx_next x)) as Hr.
  pose proof (Hr (rx_next_highest x)). pose proof (Hr (base + 1)). pose proof W_facts.
  unfold reassembly_missing in Hm. apply orb_true_iff in Hm as [Hm%Z.ltb_lt|[Hm%Z.eqb_eq Hg]%andb_true_iff].
  - lia.
  - destruct (decide (dist x (rx_next_highest x) = 0)) as [E0|]; [|lia]. exfalso.
    assert (dist x (base + 1) = dist x base + 1).
    { rewrite sn_dist_succ, sn_dist_next_lt; [done|]. lia. }
    pose proof (Hr base). lia.
Qed.

Lemma start_reassembly_timer_ok s :
  window_inv (st s) (rx_window s) ->
  (is_running (reassembly_timer s) = true -> trigger_ok (st s) (rx_window s)) ->
  let start := negb (is_running (reassembly_timer s)) &&
    reassembly_missing (st s) (rx_window s) (rx_next (st s)) in
  let s' := if start then run_reassembly_timer s else s in
  start_reassembly_timer cfg s = ok s' /\ window_inv (st s') (rx_window s') /\
  (is_running (reassembly_timer s') = true -> trigger_ok (st s') (rx_window s')).
Proof.
  intros Hw Htr start s'. unfold s', start, start_reassembly_timer.
  destruct (is_running (reassembly_timer s)) eqn:Er; simpl; [split_and!; auto|].
  rewrite reassembly_needed_eq. simpl.
  destruct (reassembly_missing _ _ _) eqn:Em; simpl; split_and!; auto.
  - destruct Hw. constructor; done.
  - intros _. apply run_trigger_ok; [done|].
    eapply reassembly_missing_pos; [done|apply (wi_next _ _ Hw)| |done].
    rewrite sn_dist_self. apply (sn_dist_range (W := W)).
  - by rewrite Er.
Qed.

(** *** A data PDU placed in the window *)

(** What is complete once the PDU is stored. *)
Definition received_after w (header : rlc_am_pdu_header) (payload : bytes) (k : Z) : bool :=
  if decide (k = h_sn header) then fully_received (stored_entry w header payload).2
  else is_full w k.

(** Everything but the window, the state variables, the timer and the events. *)
Definition same_rest s s' : Prop :=
  do_status s' = do_status s /\ status_builder s' = status_builder s /\
  status_cached s' = status_cached s /\ status_shared s' = status_shared s /\
  status_report_size s' = status_report_size s /\
  max_nof_sn_per_status_report s' = max_nof_sn_per_status_report s /\
  status_prohibit_timer_is_running s' = status_prohibit_timer_is_running s /\
  status_prohibit_timer s' = status_prohibit_timer s /\ stopped s' = stopped s.

(** An entry whose buffers are released once it is delivered. *)
Definition released (e : sdu_info) : sdu_info :=
  if fully_received e then mk_sdu_info true (has_gap e) (full_slice []) else e.

(** The receiver after [place_data_pdu], as TS 38.322, 5.2.3.2.3 has it. *)
Record placed (env : chain_env) s (header : rlc_am_pdu_header) (payload : bytes) s' : Prop := {
  pl_nh : rx_next_highest (st s') =
    if dist (st s) (rx_next_highest (st s)) <=? dist (st s) (h_sn header)
    then sn_next md (h_sn header) else rx_next_highest (st s);
  pl_out : out s' = out s ++
    (if fully_received (stored_entry (rx_window s) header payload).2
     then delivery_events env (stored_entry (rx_window s) header payload).2 else []);
  pl_hs :
    if fully_received (stored_entry (rx_window s) header payload).2
       && (h_sn header =? rx_highest_status (st s))
    then first_unreceived (rx_next (st s)) (rx_next_highest (st s'))
           (received_after (rx_window s) header payload) (sn_next md (h_sn header))
           (rx_highest_status (st s'))
    else rx_highest_status (st s') = rx_highest_status (st s);
  pl_next :
    first_unreceived (rx_next (st s)) (rx_next_highest (st s'))
      (received_after (rx_window s) header payload) (rx_next (st s)) (rx_next (st s'));
  pl_window : forall k, wget W (rx_window s') k =
    if decide (dist (st s) k < dist (st s) (rx_next (st s'))) then None
    else if decide (k = h_sn header) then
      Some (released (stored_entry (rx_window s) header payload).2)
    else wget W (rx_window s) k;
  pl_timer :
    let x' := set_rx_next_status_trigger (st s') (rx_next_status_trigger (st s)) in
    let stop := is_running (reassembly_timer s) && trigger_passed x' (rx_window s') in
    let start := (stop || negb (is_running (reassembly_timer s)))
                 && reassembly_missing x' (rx_window s') (rx_next (st s')) in
    reassembly_timer s' = (if start then timer_running
                           else if stop then timer_stopped else reassembly_timer s) /\
    rx_next_status_trigger (st s') =
      (if start then rx_next_highest (st s') else rx_next_status_trigger (st s));
  pl_frame : same_rest s s'
}.

Lemma emit_all_out s l : out (emit_all s l) = out s ++ l.
Proof.
  revert s. induction l as [|e l IH]; intros s; simpl; [by rewrite app_nil_r|].
  rewrite IH. simpl. by rewrite <- app_assoc.
Qed.

Lemma emit_all_rest s l :
  st (emit_all s l) = st s /\ rx_window (emit_all s l) = rx_window s /\
  reassembly_timer (emit_all s l) = reassembly_timer s /\ same_rest s (emit_all s l).
Proof.
  revert s. induction l as [|e l IH]; intros s; simpl; [done|].
  destruct (IH (emit s e)) as (-> & -> & -> & H). done.
Qed.

Lemma window_inv_pointwise x w w' :
  window_inv x w -> window_wf W w' ->
  (forall k, is_Some (wget W w' k) <-> is_Some (wget W w k)) ->
  (forall k i, wget W w' k = Some i -> entry_wf i) -> window_inv x w'.
Proof.
  intros [] Hwf Hdom Hent. constructor; try done.
  - intros k Hk%Hdom. auto.
  - intros Hpos. destruct (wi_top0 Hpos) as (k & Hk & Ek). exists k. by rewrite Hdom.
Qed.

Lemma trigger_ok_pointwise x w w' :
  trigger_ok x w -> (forall k, is_Some (wget W w k) -> is_Some (wget W w' k)) -> trigger_ok x w'.
Proof. intros [? ? (k & Hk & Ek)] Hdom. constructor; try done. exists k. auto. Qed.

(** Delivery and the moves of RX_Highest_Status and RX_Next. *)
Lemma deliver_and_advance_ok env s sn e :
  window_inv (st s) (rx_window s) -> 0 <= sn < md -> wget W (rx_window s) sn = Some e ->
  (sn <> rx_highest_status (st s) -> is_full (rx_window s) (rx_highest_status (st s)) = false) ->
  (sn <> rx_next (st s) -> is_full (rx_window s) (rx_next (st s)) = false) ->
  (is_running (reassembly_timer s) = true -> trigger_ok (st s) (rx_window s)) ->
  exists s', (if is_full (rx_window s) sn then
        s ← deliver_sdu cfg env s sn;
        s ← update_rx_highest_status cfg s sn;
        update_rx_next cfg s sn
      else ok s) = ok s' /\
    window_inv (st s') (rx_window s') /\
    is_full (rx_window s') (rx_next (st s')) = false /\
    is_full (rx_window s') (rx_highest_status (st s')) = false /\
    (is_running (reassembly_timer s) = true -> trigger_mid (st s') (rx_window s')) /\
    rx_next_highest (st s') = rx_next_highest (st s) /\
    rx_next_status_trigger (st s') = rx_next_status_trigger (st s) /\
    reassembly_timer s' = reassembly_timer s /\
    out s' = out s ++ (if fully_received e then delivery_events env e else []) /\
    (if fully_received e && (sn =? rx_highest_status (st s))
     then first_missing (st s) (rx_window s) (sn_next md sn) (rx_highest_status (st s'))
     else rx_highest_status (st s') = rx_highest_status (st s)) /\
    first_missing (st s) (rx_window s) (rx_next (st s)) (rx_next (st s')) /\
    (forall k, wget W (rx_window s') k =
      if decide (dist (st s) k < dist (st s) (rx_next (st s'))) then None
      else if decide (k = sn) then Some (released e) else wget W (rx_window s) k) /\
    same_rest s s'.
Proof.
  intros Hw Hsn He Hhs Hnx Htr.
  assert (Hfe : is_full (rx_window s) sn = fully_received e) by (unfold is_full; by rewrite He).
  pose proof (sn_dist_self (m := md) (W := W) (rx_next (st s))) as H0.
  pose proof (sn_dist_range (m := md) (W := W) (rx_next (st s))) as Hrg.
  destruct (is_full (rx_window s) sn) eqn:Hf; rewrite <- Hfe.
  - destruct (deliver_sdu_ok env s sn e (wi_wf _ _ Hw) He) as (w1 & -> & Hwf1 & Hget1). simpl.
    destruct (emit_all_rest s (delivery_events env e)) as (Es & Ew & Et & Hrest).
    pose proof (emit_all_out s (delivery_events env e)) as Eo.
    set (s1 := set_window (emit_all s (delivery_events env e)) w1).
    assert (E1 : st s1 = st s) by done.
    assert (Hfull1 : forall k, is_full w1 k = is_full (rx_window s) k).
    { intros k. unfold is_full. rewrite Hget1. destruct (decide (k = sn)) as [->|]; [by rewrite He|done]. }
    assert (Hdom1 : forall k, is_Some (wget W w1 k) <-> is_Some (wget W (rx_window s) k)).
    { intros k. rewrite Hget1. destruct (decide (k = sn)) as [->|]; [|done]. rewrite He. by split; eauto. }
    assert (Hw1 : window_inv (st s1) (rx_window s1)).
    { rewrite E1. apply (window_inv_pointwise _ _ _ Hw); [done..|].
      intros k i. rewrite Hget1. destruct (decide (k = sn)); [|apply (wi_entry _ _ Hw)].
      intros [= <-]. unfold entry_wf. simpl. by rewrite <- Hfe. }
    destruct (update_rx_highest_status_ok s1 sn) as (r1 & -> & Hw2 & Hr1 & Hsame1 & Hmove1); simpl;
      [done|done|by rewrite Hfull1|rewrite Es, Hfull1; done|].
    set (s2 := set_st s1 _).
    destruct (update_rx_next_ok s2 sn) as (r2 & w2 & -> & Hw3 & Hr2 & Hhs2 & Htr2 & Hfm & Hget2); simpl;
      [done|done|done|rewrite Hfull1; try rewrite Es; done| |].
    { rewrite Et. intros Hrun. pose proof (Htr Hrun) as Hok.
      destruct (trigger_ok_pointwise _ _ w1 Hok) as [T1 T2 T3]; [intros k; apply Hdom1|].
      rewrite Es. split; [exact T1|exact T2|]. exact T3. }
    eexists; split; [reflexivity|]. cbn [st rx_window set_st set_window set_rx_next] in *.
    rewrite E1 in *. simpl in *. rewrite ?Es, ?Et in *.
    split_and!; try done.
    + destruct (Z.eqb_spec sn (rx_highest_status (st s))) as [Eh|Nh]; [|auto].
      eapply first_unreceived_ext; [|by apply Hmove1]. auto.
    + eapply first_unreceived_ext; [|exact Hfm]. auto.
    + intros k. rewrite Hget2, Hget1. unfold released. rewrite <- Hfe. done.
  - exists s. assert (is_full (rx_window s) (rx_next (st s)) = false) as Hn.
    { destruct (decide (sn = rx_next (st s))) as [<-|]; auto. }
    assert (is_full (rx_window s) (rx_highest_status (st s)) = false) as Hh.
    { destruct (decide (sn = rx_highest_status (st s))) as [<-|]; auto. }
    rewrite app_nil_r. split_and!; try done.
    + intros Hrun. pose proof (Htr Hrun) as Hok. split; [apply (tr_range _ _ Hok)|auto].
    + unfold first_unreceived. rewrite H0. pose proof (Hrg (rx_next_highest (st s))).
      pose proof (wi_next _ _ Hw). split_and!; try done; lia.
    + intros k. rewrite H0. pose proof (Hrg k). rewrite decide_False by lia.
      unfold released. rewrite <- Hfe. destruct (decide (k = sn)) as [->|]; done.
Qed.

Lemma place_data_pdu_ok env s header payload :
  rx_inv s -> pdu_fits header payload -> dist (st s) (h_sn header) < W ->
  is_full (rx_window s) (h_sn header) = false ->
  exists s', place_data_pdu cfg env s header payload
      = ok ((stored_entry (rx_window s) header payload).1, s') /\
    rx_inv s' /\ placed env s header payload s'.
Proof.
  intros [Hw Hnx Hhs Htr Hlim Hb Hc Hsh] Hfit Hd Hnf. set (sn := h_sn header) in *.
  pose proof (pf_sn _ _ Hfit) as Hsn. set (e := (stored_entry (rx_window s) header payload).2).
  destruct (store_pdu_ok s header payload Hw Hsn Hd) as (w1 & Estore & Hwf1 & Hget1).
  fold sn e in Hsn, Hget1.
  assert (Hrecv : forall k, is_full w1 k = received_after (rx_window s) header payload k).
  { intros k. unfold is_full at 1, received_after. rewrite Hget1. fold sn e.
    by destruct (decide (k = sn)). }
  assert (Hent1 : forall k i, wget W w1 k = Some i -> entry_wf i).
  { intros k i. rewrite Hget1. destruct (decide (k = sn)); [|apply (wi_entry _ _ Hw)].
    intros [= <-]. by apply (stored_entry_wf (st s)). }
  destruct (window_inv_nh (st s) (rx_window s) w1 sn Hw Hsn Hd Hwf1) as
    (Hw2 & En & Eh & Et & _ & Hge); [|done|].
  { intros k. rewrite Hget1. destruct (decide (k = sn)) as [->|]; [split; eauto|].
    split; [auto|by intros [?|?]]. }
  set (x2 := if dist _ _ <=? _ then _ else _) in *.
  set (s2 := update_rx_next_highest cfg (set_window s w1) sn).
  assert (E2 : st s2 = x2 /\ rx_window s2 = w1 /\ reassembly_timer s2 = reassembly_timer s /\
    out s2 = out s /\ same_rest s s2).
  { unfold s2, update_rx_next_highest, x2, rx_mod_base. simpl.
    by destruct (dist (st s) (rx_next_highest (st s)) <=? dist (st s) sn). }
  destruct E2 as (Ex & Ew & Etm & Eo & Hrest2).
  assert (Es2 : update_rx_next_highest cfg (set_window s w1) sn = s2) by done. clearbody s2.
  destruct (deliver_and_advance_ok env s2 sn e) as
    (s3 & Eadv & Hw3 & Hnx3 & Hhs3 & Htr3 & Enh3 & Etr3 & Etm3 & Eo3 & Ehs3 & Enx3 & Hget3 & Hrest3);
    rewrite ?Ex, ?Ew, ?Etm, ?En, ?Eh in *; try done.
  { rewrite Hget1. by rewrite decide_True. }
  { intros Hne. rewrite Hrecv. unfold received_after. fold sn. by rewrite decide_False. }
  { intros Hne. rewrite Hrecv. unfold received_after. fold sn. by rewrite decide_False. }
  { intros Hrun. destruct (Htr Hrun) as [T1 T2 (k & Hk & Ek)]. constructor; rewrite ?En, ?Et; [done|lia|].
    exists k. split; [|done]. rewrite Hget1. destruct (decide (k = sn)); [eauto|done]. }
  destruct (stop_reassembly_timer_ok s3 Hw3) as [Estop Htr4]; [by rewrite Etm3|].
  rewrite Etm3 in Estop, Htr4.
  set (s4 := set_reassembly_timer s3 _) in Estop.
  destruct (start_reassembly_timer_ok s4) as (Estart & Hw5 & Htr5); [done| |].
  { simpl. destruct (is_running (reassembly_timer s)) eqn:Er; simpl in *.
    - destruct (trigger_passed _ _) eqn:Ep; simpl; auto.
    - rewrite Er. done. }
  set (s5 := if _ && _ then run_reassembly_timer s4 else s4) in *.
  exists s5. split.
  { unfold place_data_pdu. rewrite Estore, bind_ok. cbv beta match zeta.
    fold sn. rewrite Es2, Ew, sn_fully_received_eq, bind_ok, Eadv, bind_ok, Estop, bind_ok, Estart, bind_ok. done. }
  assert (E5 : same_rest s s5 /\ rx_window s5 = rx_window s3 /\ out s5 = out s3 /\
    rx_next (st s5) = rx_next (st s3) /\ rx_highest_status (st s5) = rx_highest_status (st s3) /\
    rx_next_highest (st s5) = rx_next_highest (st s3)).
  { unfold same_rest in *. unfold s5.
    match goal with |- context [if ?c then run_reassembly_timer _ else _] => destruct c end;
      simpl; intuition congruence. }
  destruct E5 as (Hr5 & Ew5 & Eo5 & En5 & Eh5 & Enh5).
  pose proof Hr5 as (R1 & R2 & R3 & R4 & R5 & R6 & R7 & R8 & R9).
  split; [constructor; try done; rewrite ?R2, ?R3, ?R4, ?R6, ?Ew5, ?En5, ?Eh5; done|].
  assert (Hnh : rx_next_highest x2 = if dist (st s) (rx_next_highest (st s)) <=? dist (st s) sn
    then sn_next md sn else rx_next_highest (st s)).
  { unfold x2. by destruct (_ <=? _). }
  constructor; fold sn e.
  - congruence.
  - by rewrite Eo5, Eo3, Eo.
  - rewrite Enh5, Enh3, Eh5. destruct (_ && _); [|congruence].
    by eapply first_unreceived_ext; [|exact Ehs3].
  - rewrite Enh5, Enh3, En5. by eapply first_unreceived_ext; [|exact Enx3].
  - intros k. rewrite Ew5, Hget3, En5, Hget1. fold sn e. unfold released.
    by destruct (decide (k = sn)).
  - simpl. rewrite <- Et, <- Etr3.
    assert (Ex4 : st s4 = st s3) by done. assert (Ew4 : rx_window s4 = rx_window s3) by done.
    assert (Em4 : reassembly_timer s4 = if is_running (reassembly_timer s) && trigger_passed (st s3) (rx_window s3)
      then timer_stopped else reassembly_timer s) by done.
    assert (Hx : set_rx_next_status_trigger (st s5) (rx_next_status_trigger (st s3)) = st s3).
    { unfold s5.
      match goal with |- context [if ?c then run_reassembly_timer _ else _] => destruct c end;
        simpl; by destruct (st s3). }
    rewrite Hx, Ew5, En5. unfold s5. rewrite Ex4, Ew4, Em4.
    destruct (is_running (reassembly_timer s)) eqn:Er; simpl.
    + destruct (trigger_passed (st s3) (rx_window s3)); simpl; [|by rewrite Er].
      destruct (reassembly_missing _ _ _); done.
    + rewrite Er. simpl. destruct (reassembly_missing _ _ _); done.
  - done.
Qed.

(** *** Status reports *)

Lemma nack_segments_total sn segs builder last_so have_last :
  0 <= last_so -> segments_from last_so segs ->
  exists b lo hl, nack_segments sn segs builder last_so have_last = ok (b, lo, hl) /\
    s_sn_size b = s_sn_size builder.
Proof.
  revert builder last_so have_last.
  induction segs as [|s segs IH]; intros builder last_so hl Hlo Hwf; [by eexists _, _, _|].
  destruct Hwf as (H1 & H2%payload_pos & H3 & H4). simpl.
  replace (u32 (seg_end s)) with (seg_end s) by (unfold u32; rewrite Z.mod_small; lia).
  destruct (Z.eqb_spec (seg_so s) last_so); simpl.
  - apply IH; [lia|done].
  - unfold u16. rewrite !Z.mod_small by lia. rewrite (proj2 (Z.leb_le _ _)) by lia. simpl.
    destruct (IH (push_nack builder (mk_nack sn true last_so (seg_so s - 1) false 0)) (seg_end s)
      (if decide (seg_si s = last_segment) then true else hl)) as (b & lo & hl' & E & Esz); [lia|done|].
    eexists _, _, _. split; [exact E|]. by rewrite Esz, push_nack_sn_size.
Qed.

Lemma nack_sdu_total x w i builder :
  window_inv x w ->
  exists b, nack_sdu cfg w i builder = ok b /\ s_sn_size b = s_sn_size builder.
Proof.
  intros Hw. unfold nack_sdu. rewrite sn_fully_received_eq. simpl.
  destruct (is_full w i) eqn:Hf; [by eexists|]. rewrite has_sn_wget. unfold is_full in Hf.
  destruct (wget W w i) as [e|] eqn:Ei; simpl; [|eexists; split; [done|apply push_nack_sn_size]].
  rewrite (cm_at_ok _ _ _ _ Ei). simpl.
  destruct (wi_entry _ _ Hw _ _ Ei Hf) as (segs & -> & Hs & _). unfold nack_partial.
  destruct (nack_segments_total i segs builder 0 false) as (b & lo & hl & -> & Esz); [lia|done|].
  simpl. destruct hl; simpl; [by eexists|]. unfold u16, so_end_of_sdu.
  rewrite (proj2 (Z.leb_le _ _)) by divmod. simpl. eexists. split; [done|].
  by rewrite push_nack_sn_size.
Qed.

Lemma status_stop_sn_ok s :
  rx_inv s -> 0 <= status_stop_sn cfg s < md /\
  dist (st s) (status_stop_sn cfg s) =
    Z.min (dist (st s) (rx_highest_status (st s))) (max_nof_sn_per_status_report s).
Proof.
  intros [Hw _ _ _ Hlim _ _ _]. unfold status_stop_sn, rx_mod_base. pose proof W_facts.
  rewrite u32_mod.
  assert (E : dist (st s) ((rx_next (st s) + max_nof_sn_per_status_report s) mod md)
    = max_nof_sn_per_status_report s) by (rewrite sn_dist_mod_r; apply sn_dist_add; lia).
  rewrite E. destruct (Z.ltb_spec (max_nof_sn_per_status_report s)
    (dist (st s) (rx_highest_status (st s)))); [rewrite E|].
  - split; [apply Z.mod_pos_bound|]; lia.
  - split; [apply (wi_hs _ _ Hw)|lia].
Qed.

Lemma refresh_status_report_total s :
  rx_inv s -> exists b, refresh_status_report cfg s = ok (store_status_report
      (set_status s (set_ack_sn b (status_stop_sn cfg s)) (status_cached s) (status_shared s)
         (status_report_size s))) /\
    s_sn_size b = sz.
Proof.
  intros Hinv. destruct (status_stop_sn_ok s Hinv) as [Hr Hds].
  pose proof (inv_window _ Hinv) as Hw. pose proof W_facts.
  pose proof (wi_nh_dist _ _ Hw). pose proof (wi_hs_dist _ _ Hw).
  unfold refresh_status_report, rx_mod_base. set (x := st s) in *. set (stop := status_stop_sn cfg s) in *.
  edestruct (for_loop_rule
    (fun i b => 0 <= i < md /\ dist x i <= dist x stop /\ s_sn_size b = sz)
    (fun _ b => s_sn_size b = sz)
    (fun i _ => Z.to_nat (dist x stop - dist x i))) as (r & b & Eloop & Hb);
    [| | | |rewrite Eloop; by exists b]; simpl.
  - split_and!; [apply (wi_next _ _ Hw)..| |apply (inv_builder _ Hinv)].
    rewrite sn_dist_self. apply (sn_dist_range (W := W)).
  - apply loop_fuel_enough; apply sn_dist_range.
  - tauto.
  - intros i b (Hi & Hdi & Hb) Hc%Z.ltb_lt.
    destruct (nack_sdu_total _ _ i b Hw) as (b' & -> & Eb). simpl.
    assert (En : dist x (sn_next md i) = dist x i + 1) by (apply sn_dist_next_lt; lia).
    eexists _, _. split; [done|]. split; [done|]. intros _. split; [|lia].
    pose proof (sn_next_range (m := md) (W := W) i). split_and!; [lia..|congruence].
Qed.

(** *** The entity *)

Lemma rx_inv_frame s s' :
  st s' = st s -> rx_window s' = rx_window s -> reassembly_timer s' = reassembly_timer s ->
  max_nof_sn_per_status_report s' = max_nof_sn_per_status_report s ->
  s_sn_size (status_builder s') = sz -> s_sn_size (status_cached s') = sz ->
  s_sn_size (status_shared s') = sz -> rx_inv s -> rx_inv s'.
Proof. intros E1 E2 E3 E4 ??? []. constructor; rewrite ?E1, ?E2, ?E3, ?E4; done. Qed.

(** The SDUs delivered to the upper layer. *)
Definition delivered (l : list rx_event) : list bytes :=
  omap (fun e => match e with ev_new_sdu sdu => Some sdu | _ => None end) l.

Lemma delivered_app l1 l2 : delivered (l1 ++ l2) = delivered l1 ++ delivered l2.
Proof. apply omap_app. Qed.

(** What the post-processing of a data PDU, or a status report, may change. *)
Definition only_status s s' : Prop :=
  st s' = st s /\ rx_window s' = rx_window s /\ reassembly_timer s' = reassembly_timer s /\
  delivered (out s') = delivered (out s).

Lemma notify_only_status s : only_status s (notify_status_report_changed s).
Proof.
  unfold notify_status_report_changed. destruct (status_report_required s); [|done].
  unfold only_status; simpl. rewrite delivered_app. simpl. by rewrite app_nil_r.
Qed.

Lemma notify_inv s : rx_inv s -> rx_inv (notify_status_report_changed s).
Proof.
  intros H. unfold notify_status_report_changed. destruct (status_report_required s); [|done].
  apply (rx_inv_frame s); try done; apply H.
Qed.

Lemma set_do_status_inv s b : rx_inv s -> rx_inv (set_do_status s b).
Proof. intros H. apply (rx_inv_frame s); try done; apply H. Qed.

Lemma emit_inv s e : rx_inv s -> rx_inv (emit s e).
Proof. intros H. apply (rx_inv_frame s); try done; apply H. Qed.

Lemma refresh_status_report_ok s :
  rx_inv s -> exists s', refresh_status_report cfg s = ok s' /\ rx_inv s' /\ only_status s s' /\
    do_status s' = do_status s.
Proof.
  intros H. destruct (refresh_status_report_total s H) as (b & -> & Hb).
  eexists. split; [done|]. split; [|done]. apply (rx_inv_frame s); try done; apply H.
Qed.

Lemma on_function_exit_ok s changed requested :
  rx_inv s -> exists s', on_function_exit cfg s changed requested = ok s' /\ rx_inv s' /\
    only_status s s' /\ do_status s' = do_status s || requested.
Proof.
  intros H. unfold on_function_exit.
  assert (exists s1, (if changed then refresh_status_report cfg s else ok s) = ok s1 /\
    rx_inv s1 /\ only_status s s1 /\ do_status s1 = do_status s) as (s1 & -> & H1 & O1 & D1).
  { destruct changed; [by apply refresh_status_report_ok|by exists s]. }
  simpl. eexists. split; [done|].
  set (s2 := if requested then set_do_status s1 true else s1).
  assert (rx_inv s2 /\ only_status s s2 /\ do_status s2 = do_status s || requested) as (H2 & O2 & D2).
  { unfold s2. destruct requested; simpl.
    - split_and!; [by apply set_do_status_inv|done|by rewrite orb_true_r].
    - by rewrite orb_false_r. }
  destruct (changed || requested); [|done]. split; [by apply notify_inv|].
  unfold only_status. destruct (notify_only_status s2) as (-> & -> & -> & ->). split; [done|].
  unfold notify_status_report_changed. by destruct (status_report_required s2).
Qed.

(** A data PDU the receiver takes: its header, its payload. *)
Definition data_pdu (buf : bytes) : option (rlc_am_pdu_header * bytes) :=
  match rlc_am_read_data_pdu_header buf sz with
  | None => None
  | Some header =>
      if zlen buf <=? get_packed_size header then None
      else Some (header, slice buf (get_packed_size header) (zlen buf - get_packed_size header))
  end.

(** The bytes of a segment are addressable by the 16 bits of SO. *)
Definition pdu_bounded (buf : bytes) : Prop :=
  forall header payload, data_pdu buf = Some (header, payload) ->
    h_si header <> full_sdu -> h_so header + zlen payload <= 2 ^ 16 - 1.

Lemma data_pdu_fits buf header payload :
  pdu_bounded buf -> data_pdu buf = Some (header, payload) -> pdu_fits header payload.
Proof.
  intros Hb Hd. pose proof (Hb _ _ Hd) as He. unfold data_pdu in Hd.
  destruct (rlc_am_read_data_pdu_header buf sz) as [h|] eqn:Eh; [|done].
  destruct (Z.leb_spec (zlen buf) (get_packed_size h)); [done|]. injection Hd as -> <-.
  destruct (read_header_range _ _ _ Eh) as (_ & _ & Hsn & Hso & _).
  constructor; [done|lia| |done]. intros E. apply (f_equal length) in E. simpl in E.
  assert (0 <= get_packed_size header).
  { unfold get_packed_size. destruct (si_has_so _), (h_sn_size _); vm_compute; congruence. }
  pose proof (slice_length buf (get_packed_size header) (zlen buf - get_packed_size header)). lia.
Qed.

(** What becomes of a data PDU: thrown away, or placed in the window. *)
Definition accepted s (header : rlc_am_pdu_header) : Prop :=
  dist (st s) (h_sn header) < W /\ is_full (rx_window s) (h_sn header) = false.

Lemma handle_data_pdu_discard env s buf :
  rx_inv s -> (forall header payload, data_pdu buf = Some (header, payload) -> ~ accepted s header) ->
  exists s', handle_data_pdu cfg env s buf = ok s' /\ rx_inv s' /\ only_status s s' /\
    do_status s' = do_status s ||
      match data_pdu buf with Some (header, _) => negb (h_p header =? 0) | None => false end.
Proof.
  intros H Hno. unfold handle_data_pdu, data_pdu in *.
  destruct (rlc_am_read_data_pdu_header buf sz) as [header|].
  2:{ destruct (on_function_exit_ok (emit s ev_malformed) false false) as (s' & -> & H' & O' & D');
        [by apply emit_inv|]. eexists; split; [done|]. split; [done|]. split; [|done].
      unfold only_status. destruct O' as (-> & -> & -> & ->). simpl.
      rewrite delivered_app. simpl. by rewrite app_nil_r. }
  destruct (Z.leb_spec (zlen buf) (get_packed_size header)); [by apply on_function_exit_ok|].
  specialize (Hno _ _ eq_refl). unfold accepted in Hno. unfold inside_rx_window, rx_mod_base.
  destruct (Z.ltb_spec (dist (st s) (h_sn header)) W) as [Hd|]; simpl; [|by apply on_function_exit_ok].
  rewrite sn_fully_received_eq. simpl. destruct (is_full _ _) eqn:Hf; [by apply on_function_exit_ok|].
  destruct Hno. auto.
Qed.

Lemma handle_data_pdu_accept env s buf header payload :
  rx_inv s -> data_pdu buf = Some (header, payload) -> pdu_fits header payload -> accepted s header ->
  exists s1 s', handle_data_pdu cfg env s buf = ok s' /\ rx_inv s' /\ rx_inv s1 /\
    placed env s header payload s1 /\
    on_function_exit cfg s1 (stored_entry (rx_window s) header payload).1 (negb (h_p header =? 0)) = ok s' /\
    only_status s1 s' /\ do_status s' = do_status s || negb (h_p header =? 0).
Proof.
  intros H Hd Hfit [Hin Hf]. unfold handle_data_pdu, data_pdu in *.
  destruct (rlc_am_read_data_pdu_header buf sz) as [h|]; [|done].
  destruct (Z.leb_spec (zlen buf) (get_packed_size h)); [done|]. injection Hd as -> <-.
  unfold inside_rx_window, rx_mod_base. rewrite (proj2 (Z.ltb_lt _ _) Hin). simpl.
  rewrite sn_fully_received_eq, bind_ok, Hf.
  destruct (place_data_pdu_ok env s header _ H Hfit Hin Hf) as (s1 & -> & H1 & Hp).
  rewrite bind_ok.
  destruct (on_function_exit_ok s1 (stored_entry (rx_window s) header
    (slice buf (get_packed_size header) (zlen buf - get_packed_size header))).1
    (negb (h_p header =? 0)) H1) as (s' & E & H' & O' & D').
  exists s1, s'. split_and!; try done. destruct (pl_frame _ _ _ _ _ Hp) as [<- _]. done.
Qed.

Lemma accepted_dec s header : {accepted s header} + {~ accepted s header}.
Proof.
  unfold accepted. destruct (decide (dist (st s) (h_sn header) < W)); [|right; tauto].
  destruct (is_full _ _); [right|left]; by intuition.
Qed.

Lemma handle_data_pdu_ok env s buf :
  rx_inv s -> pdu_bounded buf -> exists s', handle_data_pdu cfg env s buf = ok s' /\ rx_inv s'.
Proof.
  intros H Hb. destruct (data_pdu buf) as [[header payload]|] eqn:Hd.
  - destruct (accepted_dec s header) as [Ha|Ha].
    + edestruct handle_data_pdu_accept as (s1 & s' & E & H' & _); eauto using data_pdu_fits.
    + edestruct handle_data_pdu_discard as (s' & E & H' & _); [done| |eauto].
      intros h p. rewrite Hd. by intros [= <- <-].
  - edestruct handle_data_pdu_discard as (s' & E & H' & _); [done| |eauto]. by rewrite Hd.
Qed.

Lemma handle_pdu_ok env s buf :
  rx_inv s -> pdu_bounded buf -> exists s', handle_pdu cfg env s buf = ok s' /\ rx_inv s'.
Proof.
  intros H Hb. unfold handle_pdu. destruct (bool_decide (buf = [])).
  { eexists. split; [done|]. by apply emit_inv. }
  destruct (is_control_pdu buf).
  - unfold handle_control_pdu.
    destruct (unpack_ok (status_ctor sz) buf) as [o ->]. simpl. eexists. split; [done|].
    destruct o; repeat apply emit_inv; done.
  - apply handle_data_pdu_ok; [|done]. by repeat apply emit_inv.
Qed.

(** What the expiry of t-Reassembly does, TS 38.322, 5.2.3.2.4: [s2] is the entity
    when the status report is made, [s3] after it. *)
Record expired_reassembly s s2 s3 s' : Prop := {
  er_hs : first_missing (st s) (rx_window s) (rx_next_status_trigger (st s)) (rx_highest_status (st s'));
  er_next : rx_next (st s') = rx_next (st s);
  er_nh : rx_next_highest (st s') = rx_next_highest (st s);
  er_window : rx_window s' = rx_window s;
  er_timer :
    let restart := reassembly_missing (st s') (rx_window s) (rx_highest_status (st s')) in
    reassembly_timer s' = (if restart then timer_running else reassembly_timer s) /\
    rx_next_status_trigger (st s') =
      (if restart then rx_next_highest (st s) else rx_next_status_trigger (st s));
  er_report : refresh_status_report cfg s2 = ok s3 /\ only_status s2 s' /\
    s' = notify_status_report_changed (set_do_status s3 true);
  er_delivered : delivered (out s') = delivered (out s)
}.

Lemma on_expired_reassembly_timer_ok s :
  rx_inv s -> is_running (reassembly_timer s) = false -> trigger_ok (st s) (rx_window s) ->
  exists s2 s3 s', on_expired_reassembly_timer cfg s = ok s' /\ rx_inv s2 /\ rx_inv s' /\
    expired_reassembly s s2 s3 s'.
Proof.
  intros H Hr [T1 T2 T3]. pose proof (inv_window _ H) as Hw.
  pose proof (wi_nh_dist _ _ Hw) as Hnd.
  unfold on_expired_reassembly_timer, valid_ack_sn, rx_mod_base. rewrite Hr.
  do 2 ztrue. simpl.
  destruct (scan_fully_received_ok s (rx_next_status_trigger (st s)) Hw T1) as (r & -> & Hfm); [lia|].
  rewrite bind_ok. pose proof Hfm as (F1 & F2 & F3 & F4). do 2 ztrue. cbn [andb srsran_assert].
  rewrite bind_ok. set (s1 := set_st s (set_rx_highest_status (st s) r)).
  assert (H1 : rx_inv s1).
  { destruct H as [W1 ? ? ? ? ? ? ?]. constructor; simpl; try done.
    destruct W1. constructor; simpl; try done. lia. }
  rewrite reassembly_needed_eq, bind_ok. cbn [st s1 set_st rx_highest_status set_rx_highest_status].
  set (restart := reassembly_missing _ _ _).
  set (s2 := if restart then run_reassembly_timer s1 else s1).
  assert (H2 : rx_inv s2).
  { unfold s2. destruct restart eqn:Em; [|done]. constructor; simpl; try apply H1.
    - destruct (inv_window _ H1). constructor; done.
    - intros _. apply (run_trigger_ok (st s1)); [apply H1|].
      eapply reassembly_missing_pos; [apply H1| | |exact Em]; [done|]. simpl. lia. }
  destruct (refresh_status_report_ok s2 H2) as (s3 & E3 & H3 & O3 & _).
  rewrite E3, bind_ok. exists s2, s3. eexists. split; [done|].
  assert (H3' : rx_inv (set_do_status s3 true)) by by apply set_do_status_inv.
  split_and!; [done|by apply notify_inv|].
  assert (O : only_status s2 (notify_status_report_changed (set_do_status s3 true))).
  { unfold only_status. destruct (notify_only_status (set_do_status s3 true)) as (-> & -> & -> & ->). done. }
  pose proof O as (Es & Ew & Et & Ed).
  assert (F : rx_highest_status (st s2) = r /\ rx_next (st s2) = rx_next (st s) /\
    rx_next_highest (st s2) = rx_next_highest (st s) /\ rx_window s2 = rx_window s /\
    delivered (out s2) = delivered (out s)).
  { unfold s2. by destruct restart. }
  destruct F as (G1 & G2 & G3 & G4 & G5).
  constructor; rewrite ?Es, ?Ew, ?Et, ?Ed, ?G1, ?G2, ?G3, ?G4, ?G5; try done.
  assert (Hm : reassembly_missing (st s2) (rx_window s) r = restart).
  { unfold s2, reassembly_missing. by destruct restart eqn:Em. }
  cbv zeta. rewrite Hm. unfold s2. by destruct restart.
Qed.

Lemma reassembly_timer_expiry_ok s :
  rx_inv s -> is_running (reassembly_timer s) = true ->
  exists s', reassembly_timer_expiry cfg s = ok s' /\ rx_inv s' /\
    (0 < t_reassembly cfg ->
      exists s2 s3, rx_inv s2 /\ expired_reassembly (set_reassembly_timer s timer_expired) s2 s3 s').
Proof.
  intros H Hr. unfold reassembly_timer_expiry.
  assert (H1 : rx_inv (set_reassembly_timer s timer_expired)).
  { destruct H. constructor; simpl; try done. }
  destruct (Z.ltb_spec 0 (t_reassembly cfg)); [|eexists; split_and!; [done|done|lia]].
  destruct (on_expired_reassembly_timer_ok (set_reassembly_timer s timer_expired)) as
    (s2 & s3 & s' & E & H2 & H' & Hex); [done|done|by apply (inv_trigger _ H)|].
  exists s'. split_and!; eauto.
Qed.

(** *** The life of an entity *)

Lemma rx_ctor_ok :
  (forall n, max_sn_per_status cfg = Some n -> 0 < n <= W) ->
  exists s, rlc_rx_am_entity_ctor cfg = ok s /\ rx_inv s /\ out s = [] /\
    st s = rx_state_init /\ forall k, wget W (rx_window s) k = None.
Proof.
  intros Hm. unfold rlc_rx_am_entity_ctor. pose proof W_facts.
  assert (exists n, (match max_sn_per_status cfg with
    | Some n => _ ← srsran_assert (n <=? W); _ ← srsran_assert (0 <? n); ok n
    | None => ok W end : outcome Z) = ok n /\ 0 < n <= W) as (n & -> & Hn).
  { destruct (max_sn_per_status cfg) as [n|]; [|exists W; split; [done|lia]].
    specialize (Hm n eq_refl). exists n. do 2 ztrue. done. }
  simpl. eexists. split; [done|]. split_and!; try done.
  pose proof (sn_dist_self (m := md) (W := W) 0).
  constructor; simpl; try done.
  constructor; simpl; try done; try lia. by intros k [i Hi].
Qed.

Lemma get_status_pdu_inv defer_ok s : rx_inv s -> rx_inv (get_status_pdu cfg defer_ok s).2.
Proof.
  intros H. unfold get_status_pdu.
  destruct (0 <? t_status_prohibit cfg), defer_ok; simpl;
    apply (rx_inv_frame s); try done; apply H.
Qed.

(** One event in the life of an entity: a PDU from below, an expiring timer, a
    status report fetched by the transmitting entity, the executor's task,
    [stop]. *)
Inductive rx_step : rlc_rx_am_entity -> rlc_rx_am_entity -> Prop :=
| step_pdu env buf s s' :
    pdu_bounded buf -> handle_pdu cfg env s buf = ok s' -> rx_step s s'
| step_reassembly s s' :
    is_running (reassembly_timer s) = true -> reassembly_timer_expiry cfg s = ok s' -> rx_step s s'
| step_prohibit s :
    is_running (status_prohibit_timer s) = true -> rx_step s (status_prohibit_timer_expiry cfg s)
| step_get_status defer_ok s : rx_step s (get_status_pdu cfg defer_ok s).2
| step_run_prohibit s : rx_step s (run_status_prohibit_timer s)
| step_stop s : rx_step s (stop s).

Definition rx_reachable s : Prop :=
  exists s0, rlc_rx_am_entity_ctor cfg = ok s0 /\ rtc rx_step s0 s.

Lemma rx_step_inv s s' : rx_step s s' -> rx_inv s -> rx_inv s'.
Proof.
  intros Hstep H. destruct Hstep as [env buf s s' Hb E|s s' Hr E|s Hr|d s|s|s].
  - destruct (handle_pdu_ok env s buf H Hb) as (s1 & E1 & H1). congruence.
  - destruct (reassembly_timer_expiry_ok s H Hr) as (s1 & E1 & H1 & _). congruence.
  - unfold status_prohibit_timer_expiry, on_expired_status_prohibit_timer.
    destruct (0 <? _); [apply notify_inv|]; apply (rx_inv_frame s); try done; apply H.
  - by apply get_status_pdu_inv.
  - apply (rx_inv_frame s); try done; apply H.
  - unfold stop. destruct (negb (stopped s)); [|done]. destruct H. constructor; try done.
    simpl. unfold timer_stop. destruct (is_running (reassembly_timer s)) eqn:E; [done|]. by rewrite E.
Qed.

Lemma rx_ctor_limit s n :
  rlc_rx_am_entity_ctor cfg = ok s -> max_sn_per_status cfg = Some n -> 0 < n <= W.
Proof.
  unfold rlc_rx_am_entity_ctor. intros E Hn. rewrite Hn in E.
  destruct (Z.leb_spec n W); [|done]. destruct (Z.ltb_spec 0 n); done.
Qed.

Lemma rx_reachable_inv s : rx_reachable s -> rx_inv s.
Proof.
  intros (s0 & E & Hs). assert (H0 : rx_inv s0).
  { destruct rx_ctor_ok as (s1 & E1 & H1 & _); [eauto using rx_ctor_limit|congruence]. }
  clear E. induction Hs; eauto using rx_step_inv.
Qed.
End invariant.
