(* ===== verification/RlcRxAmReport.v ===== *)
(** * The status reports of the receiving RLC AM entity

    What a status report built by [refresh_status_report] says, byte by byte,
    against what the receive window holds. *)

From S2P Require Import Prelude SduWindow RlcAmPdu RlcSegments RlcRxAm RlcRxAmInv.

Section report.
Context (cfg : rlc_rx_am_config).

Abbreviation sz := (sn_field_length cfg).
Abbreviation md := (am_mod sz).
Abbreviation W := (am_window sz).
Abbreviation dist x sn := (sn_dist md (rx_next x) sn).
Abbreviation is_full := (is_full cfg).
Abbreviation rx_inv := (rx_inv cfg).
Abbreviation window_inv := (window_inv cfg).

Implicit Types (s : rlc_rx_am_entity) (x : rlc_rx_am_state) (w : circular_map sdu_info).

(** ** What a status report says *)

(** The last segment of the SDU has been received. *)
Definition has_last (segs : list sdu_segment) : Prop := exists sg, sg ∈ segs /\ seg_si sg = last_segment.

(** Byte [j] is missing from a set of segments: not covered, and, when the last
    segment is there, in front of a received one. *)
Definition missing_byte (segs : list sdu_segment) (j : Z) : Prop :=
  0 <= j <= so_end_of_sdu /\ ~ covered segs j /\ (has_last segs -> exists sg, sg ∈ segs /\ j < seg_so sg).

Definition missing_at w (k j : Z) : Prop :=
  match wget W w k with
  | None => 0 <= j <= so_end_of_sdu
  | Some i => missing_byte (segments_of (sdu_buf i)) j
  end.

(** The receiver holds less than 4095 segments of every incomplete SDU: more
    than that, and the size of a report over a full window of 18-bit SNs would
    not fit its 32-bit counter. *)
Definition few_segments w : Prop :=
  forall k i, wget W w k = Some i -> zlen (segments_of (sdu_buf i)) <= 4094.

(** One pushed NACK, in terms of missing bytes. *)
Lemma push_nack_reported b sn hs a e :
  status_wf b -> s_sn_size b = sz -> 0 <= sn < md -> 0 <= a <= e -> e <= so_end_of_sdu ->
  (hs = false -> a = 0 /\ e = so_end_of_sdu) -> 8 * zlen (nacks b) + 11 < 2 ^ 32 ->
  let b' := push_nack b (mk_nack sn hs a e false 0) in
  status_wf b' /\ s_sn_size b' = sz /\ ack_sn b' = ack_sn b /\
  zlen (nacks b') <= zlen (nacks b) + 1 /\
  forall k j, reported (status_meaning b') k j <->
    reported (status_meaning b) k j \/ (k = sn /\ a <= j <= e).
Proof.
  intros Hb Hsz Hsn Ha He Hhs Hlen b'.
  assert (Hn : nack_wf (s_sn_size b) (mk_nack sn hs a e false 0)).
  { rewrite Hsz. unfold so_end_of_sdu in *. constructor; simpl; try done; try lia. }
  pose proof (sw_size _ Hb) as Hs. pose proof (nacks_size_bounds (s_sn_size b) (nacks b)).
  unfold sizeof_header_ack_sn in Hs. pose proof (push_nack_length b (mk_nack sn hs a e false 0)).
  unfold b'. split_and!; [apply push_nack_wf; [done..|lia]| |apply push_nack_ack_sn|lia|].
  - by rewrite push_nack_sn_size.
  - intros k j. rewrite push_nack_meaning, reported_app by done.
    assert (E : nack_meaning (am_mod (s_sn_size b)) (mk_nack sn hs a e false 0) = [(sn, a, e)]).
    { unfold nack_meaning, nack_unit, eff_start, eff_end, range_or_one. simpl. rewrite Hsz.
      rewrite Z.add_0_r, Z.mod_small by done. destruct hs; [done|].
      by destruct Hhs as [-> ->]. }
    rewrite E, reported_one. done.
Qed.

Lemma missing_before segs lo sg j :
  segments_from lo segs -> sg ∈ segs -> j < seg_so sg -> j <= so_end_of_sdu.
Proof.
  intros Hwf Hin Hj. destruct (segments_from_elem _ _ _ Hwf Hin) as (_ & ?%payload_pos & ?).
  unfold so_end_of_sdu. lia.
Qed.

(** The segment loop reports the bytes in front of a received segment. *)
Lemma nack_segments_reported sn segs b lo hl :
  status_wf b -> s_sn_size b = sz -> 0 <= sn < md -> 0 <= lo -> segments_from lo segs ->
  8 * (zlen (nacks b) + zlen segs) + 11 < 2 ^ 32 ->
  exists b' lo' hl', nack_segments sn segs b lo hl = ok (b', lo', hl') /\
    status_wf b' /\ s_sn_size b' = sz /\ zlen (nacks b') <= zlen (nacks b) + zlen segs /\
    lo <= lo' /\ (segs <> [] -> lo' <= so_end_of_sdu) /\ (segs = [] -> lo' = lo) /\
    (forall sg, sg ∈ segs -> seg_end sg <= lo') /\
    (forall j, lo <= j < lo' -> ~ covered segs j -> exists sg, sg ∈ segs /\ j < seg_so sg) /\
    (hl' = true <-> hl = true \/ has_last segs) /\
    forall k j, reported (status_meaning b') k j <-> reported (status_meaning b) k j \/
      (k = sn /\ lo <= j /\ ~ covered segs j /\ exists sg, sg ∈ segs /\ j < seg_so sg).
Proof.
  revert b lo hl. induction segs as [|s0 segs IH]; intros b lo hl Hb Hsz Hsn Hlo Hwf Hlen.
  - exists b, lo, hl. split_and!; try done; try lia.
    + by intros sg ?%elem_of_nil.
    + unfold has_last. split; [auto|]. by intros [?|(sg & ?%elem_of_nil & _)].
    + intros k j. split; [auto|]. intros [?|(_ & _ & _ & sg & ?%elem_of_nil & _)]; done.
  - destruct Hwf as (H1 & H2%payload_pos & H3 & H4). simpl. rewrite length_cons in Hlen.
    assert (Hlo' : u32 (seg_end s0) = seg_end s0) by (unfold u32; rewrite Z.mod_small; lia).
    set (hl1 := if decide (seg_si s0 = last_segment) then true else hl).
    assert (Hhl1 : hl1 = true <-> hl = true \/ seg_si s0 = last_segment).
    { unfold hl1. destruct (decide _); tauto. }
    assert (exists b1, (if negb (seg_so s0 =? lo) then
        _ ← srsran_assert (u16 lo <=? u16 (seg_so s0 - 1));
        ok (push_nack b (mk_nack sn true (u16 lo) (u16 (seg_so s0 - 1)) false 0))
      else ok b) = ok b1 /\ status_wf b1 /\ s_sn_size b1 = sz /\
      zlen (nacks b1) <= zlen (nacks b) + 1 /\
      forall k j, reported (status_meaning b1) k j <-> reported (status_meaning b) k j \/
        (k = sn /\ lo <= j < seg_so s0)) as (b1 & E1 & Hb1 & Hsz1 & Hlen1 & Hrep1).
    { destruct (Z.eqb_spec (seg_so s0) lo); simpl.
      - exists b. split_and!; try done; try lia. intros k j. split; [auto|]. intros [?|?]; [done|lia].
      - unfold u16. rewrite !Z.mod_small by lia. rewrite (proj2 (Z.leb_le _ _)) by lia. simpl.
        destruct (push_nack_reported b sn true lo (seg_so s0 - 1)) as (P1 & P2 & _ & P3 & P4);
          try done; try (unfold so_end_of_sdu; lia).
        eexists. split; [done|]. split_and!; try done. intros k j. rewrite P4. intuition lia. }
    rewrite E1, bind_ok, Hlo'. fold hl1.
    destruct (IH b1 (seg_end s0) hl1 Hb1 Hsz1 Hsn) as
      (b' & lo' & hl' & -> & R1 & R2 & R3 & R4 & R5 & R6 & R7 & R8 & R9 & R10); [lia|done|lia|].
    eexists _, _, _. split; [done|]. split_and!; try done; try lia.
    + intros _. destruct segs as [|s1 segs]; [rewrite R6 by done; unfold so_end_of_sdu; lia|by apply R5].
    + intros sg [->|Hin]%elem_of_cons; [lia|auto].
    + intros j Hj Hc. rewrite covered_cons in Hc. unfold covers in Hc.
      destruct (decide (j < seg_so s0)); [exists s0; rewrite elem_of_cons; auto|].
      destruct (R8 j) as (sg & Hin & Hlt); [lia|tauto|]. exists sg. rewrite elem_of_cons. auto.
    + rewrite R9, Hhl1. unfold has_last. setoid_rewrite elem_of_cons. split.
      * intros [[?|?]|(sg & ? & ?)]; eauto.
      * intros [?|(sg & [->|?] & ?)]; eauto.
    + intros k j. rewrite R10, Hrep1, covered_cons. unfold covers. setoid_rewrite elem_of_cons. split.
      * intros [[?|(-> & Hj)]|(-> & Hj & Hc & sg & Hin & Hlt)]; [auto| |].
        -- right. split_and!; [done|lia| |exists s0; split; [auto|lia]].
           intros [?|Hc]; [lia|]. by apply (not_covered_before _ _ j H4) in Hc; [|lia].
        -- right. split_and!; [done|lia| |eauto]. intros [?|?]; [lia|done].
      * intros [?|(-> & Hj & Hc & sg & [->|Hin] & Hlt)]; [auto|left; right; lia|].
        destruct (decide (j < seg_so s0)); [left; right; lia|]. right. split_and!; eauto. lia.
Qed.

Lemma nack_partial_reported sn segs b :
  status_wf b -> s_sn_size b = sz -> 0 <= sn < md -> segments_wf segs ->
  8 * (zlen (nacks b) + zlen segs + 1) + 11 < 2 ^ 32 ->
  exists b', nack_partial sn segs b = ok b' /\ status_wf b' /\ s_sn_size b' = sz /\
    zlen (nacks b') <= zlen (nacks b) + zlen segs + 1 /\
    forall k j, reported (status_meaning b') k j <->
      reported (status_meaning b) k j \/ (k = sn /\ missing_byte segs j).
Proof.
  intros Hb Hsz Hsn Hwf Hlen. unfold nack_partial.
  destruct (nack_segments_reported sn segs b 0 false Hb Hsz Hsn) as
    (b1 & lo & hl & -> & R1 & R2 & R3 & R4 & R5 & R6 & R7 & R8 & R9 & R10); [lia|done|lia|].
  rewrite bind_ok. cbv beta match zeta.
  assert (Hneg : forall j, covered segs j -> 0 <= j < lo).
  { intros j (sg & Hin & Hc). destruct (segments_from_elem _ _ _ Hwf Hin). specialize (R7 _ Hin).
    unfold covers in Hc. lia. }
  assert (Hpart : forall j, (0 <= j /\ ~ covered segs j /\ (exists sg, sg ∈ segs /\ j < seg_so sg)) ->
    j <= so_end_of_sdu).
  { intros j (_ & _ & sg & Hin & Hj). by apply (missing_before segs 0 sg). }
  destruct hl; simpl.
  - exists b1. split_and!; try done; [lia|]. intros k j. rewrite R10. unfold missing_byte.
    assert (has_last segs) by (destruct R9 as [[?|?] _]; done). specialize (Hpart j). intuition.
  - assert (Hnl : ~ has_last segs) by (intros Hl; destruct R9 as [_ R9]; by specialize (R9 (or_intror Hl))).
    assert (Hlo : lo <= so_end_of_sdu).
    { destruct segs as [|s0 segs]; [rewrite R6 by done; vm_compute; done|by apply R5]. }
    unfold u16. unfold so_end_of_sdu in Hlo. rewrite Z.mod_small by lia.
    rewrite (proj2 (Z.leb_le _ _)) by (unfold so_end_of_sdu; lia). simpl.
    destruct (push_nack_reported b1 sn true lo so_end_of_sdu) as (P1 & P2 & _ & P3 & P4);
      try done; try (unfold so_end_of_sdu; lia).
    eexists. split; [done|]. split_and!; try done; [lia|]. intros k j. rewrite P4, R10. unfold missing_byte.
    specialize (Hpart j). split.
    + intros [[?|(-> & Hj)]|(-> & Hj)]; [auto|right; tauto|]. right. split; [done|].
      split_and!; [lia|lia| |done]. intros Hc%Hneg. lia.
    + intros [?|(-> & Hj & Hc & _)]; [auto|]. destruct (decide (j < lo)) as [Hlt|]; [|right; lia].
      left; right. split_and!; [done|lia|done|]. apply R8; [lia|done].
Qed.

(** Every missing byte of the SDUs from RX_Next up to [stop_sn], and nothing else. *)
Definition report_of s (r : rlc_am_status_pdu) : Prop :=
  status_wf r /\ s_sn_size r = sz /\ ack_sn r = status_stop_sn cfg s /\
  forall k j, reported (status_meaning r) k j <->
    (0 <= k < md /\ dist (st s) k < dist (st s) (ack_sn r)) /\
    is_full (rx_window s) k = false /\ missing_at (rx_window s) k j.

Lemma nack_sdu_reported x w i b :
  window_inv x w -> few_segments w -> 0 <= i < md -> status_wf b -> s_sn_size b = sz ->
  8 * (zlen (nacks b) + 4095) + 11 < 2 ^ 32 ->
  exists b', nack_sdu cfg w i b = ok b' /\ status_wf b' /\ s_sn_size b' = sz /\
    zlen (nacks b') <= zlen (nacks b) + 4095 /\
    forall k j, reported (status_meaning b') k j <->
      reported (status_meaning b) k j \/ (k = i /\ is_full w i = false /\ missing_at w i j).
Proof.
  intros Hw Hfew Hi Hb Hsz Hlen. unfold nack_sdu. rewrite sn_fully_received_eq, bind_ok.
  destruct (is_full w i) eqn:Hf.
  { exists b. split_and!; try done; [lia|]. intros k j. split; [auto|]. intros [?|(_ & ? & _)]; done. }
  rewrite has_sn_wget. unfold is_full, RlcRxAmInv.is_full, missing_at in *.
  destruct (wget W w i) as [e|] eqn:Ei; simpl.
  - rewrite (cm_at_ok _ _ _ _ Ei), bind_ok.
    destruct (wi_entry _ _ _ Hw _ _ Ei Hf) as (segs & Es & Hs & _).
    pose proof (Hfew _ _ Ei) as Hn. rewrite Es in *. simpl in Hn |- *.
    destruct (nack_partial_reported i segs b) as (b' & E & ? & ? & ? & Hr); [done..|lia|].
    exists b'. split_and!; try done; [lia|]. intros k j. rewrite Hr. tauto.
  - destruct (push_nack_reported b i false 0 so_end_of_sdu) as (P1 & P2 & _ & P3 & P4);
      try done; try (unfold so_end_of_sdu; lia).
    eexists. split; [done|]. split_and!; try done; [lia|]. intros k j. rewrite P4. tauto.
Qed.

Lemma status_reset_wf b : status_wf (status_reset b).
Proof. constructor; vm_compute; done. Qed.

Lemma refresh_status_report_reported s :
  rx_inv s -> few_segments (rx_window s) ->
  exists s', refresh_status_report cfg s = ok s' /\ report_of s (status_cached s') /\
    status_report_size s' = packed_size (status_cached s').
Proof.
  intros Hinv Hfew. destruct (status_stop_sn_ok _ s Hinv) as [Hr Hds].
  pose proof (inv_window _ _ Hinv) as Hw. pose proof (W_facts cfg).
  pose proof (wi_nh_dist _ _ _ Hw). pose proof (wi_hs_dist _ _ _ Hw).
  unfold refresh_status_report, rx_mod_base. set (x := st s) in *.
  set (stop := status_stop_sn cfg s) in *.
  assert (HW : W <= 2 ^ 17) by (destruct sz; vm_compute; done).
  edestruct (for_loop_rule
    (fun i b => 0 <= i < md /\ dist x i <= dist x stop /\ status_wf b /\ s_sn_size b = sz /\
       zlen (nacks b) <= 4095 * dist x i /\
       forall k j, reported (status_meaning b) k j <-> (0 <= k < md /\ dist x k < dist x i) /\
         is_full (rx_window s) k = false /\ missing_at (rx_window s) k j)
    (fun _ b => status_wf b /\ s_sn_size b = sz /\
       forall k j, reported (status_meaning b) k j <-> (0 <= k < md /\ dist x k < dist x stop) /\
         is_full (rx_window s) k = false /\ missing_at (rx_window s) k j)
    (fun i _ => Z.to_nat (dist x stop - dist x i))) as (r & b & Eloop & Hb1 & Hb2 & Hb3);
    [| | | |rewrite Eloop; eexists; split; [done|]; split; [|done]]; simpl.
  - pose proof (sn_dist_range (m := md) (W := W) (rx_next x)) as Hrg.
    rewrite sn_dist_self. pose proof (Hrg stop).
    split_and!; try done; try lia; try apply (wi_next _ _ _ Hw); try apply (inv_builder _ _ Hinv).
    intros k j. pose proof (Hrg k). split; [intros (a & e & ?%elem_of_nil & _); done|lia].
  - apply loop_fuel_enough; apply sn_dist_range.
  - intros i b (Hi & Hdi & Hb & Hsz & Hlen & Hrep) Hc%Z.ltb_ge. split_and!; try done.
    replace (dist x stop) with (dist x i) by lia. done.
  - intros i b (Hi & Hdi & Hb & Hsz & Hlen & Hrep) Hc%Z.ltb_lt.
    destruct (nack_sdu_reported x (rx_window s) i b) as (b' & -> & B1 & B2 & B3 & B4); try done; [lia|].
    assert (En : dist x (sn_next md i) = dist x i + 1) by (apply sn_dist_next_lt; lia).
    eexists _, _. split; [done|]. split; [done|]. intros _. split; [|lia].
    pose proof (sn_next_range (m := md) (W := W) i). split_and!; try done; try lia.
    intros k j. rewrite B4, Hrep, En. split.
    + intros [?|(-> & ? & ?)]; [intuition lia|]. split_and!; try done; lia.
    + intros ((Hk & Hdk) & ? & ?). destruct (decide (dist x k = dist x i)) as [E|].
      * apply (sn_dist_inj (m := md) (W := W)) in E as ->; auto.
      * left. split_and!; try done; lia.
  - unfold report_of. simpl. split_and!; [|done..].
    destruct Hb1. constructor; done.
Qed.
End report.
