(* ===== verification/RlcRxAmProps.v ===== *)
(** * Properties of the receiving RLC AM entity

    No assertion fails and every handler returns; what a data PDU does to the
    state variables; SDUs are delivered once and are the SDUs that were sent; what
    a status report says; and two behaviours the code does not mean to have. *)

From S2P Require Import Prelude SduWindow RlcAmPdu RlcSegments RlcRxAm RlcRxAmInv RlcRxAmReport.

Section properties.
Context (cfg : rlc_rx_am_config).

Abbreviation sz := (sn_field_length cfg).
Abbreviation md := (am_mod sz).
Abbreviation W := (am_window sz).
Abbreviation dist x sn := (sn_dist md (rx_next x) sn).
Abbreviation is_full := (is_full cfg).
Abbreviation rx_inv := (rx_inv cfg).
Abbreviation window_inv := (window_inv cfg).

Implicit Types (s : rlc_rx_am_entity) (x : rlc_rx_am_state) (w : circular_map sdu_info).
Abbreviation accepted := (accepted cfg).
Abbreviation pdu_bounded := (pdu_bounded cfg).
Abbreviation data_pdu := (data_pdu cfg).
Abbreviation stored_entry := (stored_entry cfg).
Abbreviation held_segments := (held_segments cfg).

(** ** Auxiliary lemmas *)

(** A data PDU, at the entry of the entity. *)
Lemma handle_pdu_data env s buf header payload :
  is_control_pdu buf = false -> data_pdu buf = Some (header, payload) ->
  exists s0, handle_pdu cfg env s buf = handle_data_pdu cfg env s0 buf /\
    only_status s s0 /\ (rx_inv s -> rx_inv s0) /\ do_status s0 = do_status s.
Proof.
  intros Hc Hd. unfold handle_pdu. rewrite bool_decide_eq_false_2.
  2:{ intros ->. unfold RlcRxAmInv.data_pdu in Hd. by destruct sz. }
  rewrite Hc. eexists. split; [done|]. split_and!.
  - unfold only_status. simpl. rewrite !delivered_app. simpl. by rewrite !app_nil_r.
  - intros H. by repeat apply emit_inv.
  - done.
Qed.

(** The window is all that acceptance and storing depend on. *)
Lemma only_status_accepted s s' header :
  only_status s s' -> accepted s' header <-> accepted s header.
Proof. intros (E1 & E2 & _). unfold RlcRxAmInv.accepted. by rewrite E1, E2. Qed.

(** After an SDU became complete its SN takes no PDU any more. *)
Lemma placed_complete_rejects env s header payload s' h :
  rx_inv s -> rx_inv s' -> pdu_fits cfg header payload -> accepted s header ->
  placed cfg env s header payload s' ->
  fully_received (stored_entry (rx_window s) header payload).2 = true ->
  h_sn h = h_sn header -> ~ accepted s' h.
Proof.
  intros H H' Hfit [Hd _] Hp Hfull Eh [Hd' Hf']. rewrite Eh in *.
  pose proof (pf_sn _ _ _ Hfit) as Hsn.
  pose proof (pl_window _ _ _ _ _ _ Hp (h_sn header)) as Hget.
  pose proof (pl_next _ _ _ _ _ _ Hp) as (N1 & N2 & _).
  pose proof (wi_nh_dist _ _ _ (inv_window _ _ H')) as Hnh'. pose proof (W_facts cfg).
  destruct (decide _) as [Hlt|Hge] in Hget.
  - rewrite (sn_dist_rebase (W := W) (rx_next (st s))) in Hd'.
    pose proof (sn_dist_range (m := md) (W := W) (rx_next (st s)) (h_sn header)).
    assert (Hle : dist (st s) (rx_next (st s')) <= W).
    { pose proof (pl_nh _ _ _ _ _ _ Hp) as En.
      pose proof (wi_nh_dist _ _ _ (inv_window _ _ H)).
      rewrite En in N2. destruct (Z.leb_spec (dist (st s) (rx_next_highest (st s))) (dist (st s) (h_sn header)));
        [rewrite sn_dist_next_lt in N2 by lia|]; lia. }
    destruct (Z.leb_spec (dist (st s) (rx_next (st s'))) (dist (st s) (h_sn header))); lia.
  - rewrite decide_True in Hget by done. unfold is_full, RlcRxAmInv.is_full in Hf'.
    rewrite Hget in Hf'. unfold released in Hf'. rewrite Hfull in Hf'. done.
Qed.

Lemma data_pdu_accept_ok env s buf header payload :
  rx_inv s -> is_control_pdu buf = false -> data_pdu buf = Some (header, payload) ->
  pdu_fits cfg header payload -> accepted s header ->
  exists s0 s1 s', handle_pdu cfg env s buf = ok s' /\ rx_inv s' /\ rx_inv s1 /\
    only_status s s0 /\ rx_inv s0 /\ placed cfg env s0 header payload s1 /\ only_status s1 s' /\
    do_status s' = do_status s || negb (h_p header =? 0).
Proof.
  intros H Hc Hd Hfit Ha.
  destruct (handle_pdu_data env s buf _ _ Hc Hd) as (s0 & -> & O0 & H0 & Hds).
  specialize (H0 H). destruct (handle_data_pdu_accept cfg env s0 buf header payload) as
    (s1 & s' & E & H' & H1 & Hp & _ & O1 & D); [done..|by eapply only_status_accepted|].
  exists s0, s1, s'. split_and!; try done. by rewrite D, Hds.
Qed.

(** Storing looks only at what the window holds for the SN. *)
Lemma placed_delivered env s header payload s' :
  placed cfg env s header payload s' ->
  delivered (out s') = delivered (out s) ++
    (if fully_received (stored_entry (rx_window s) header payload).2
     then option_list (reassemble_sdu env (stored_entry (rx_window s) header payload).2) else []).
Proof.
  intros Hp. rewrite (pl_out _ _ _ _ _ _ Hp), delivered_app. f_equal.
  destruct (fully_received _); [|done]. unfold delivery_events.
  by destruct (reassemble_sdu _ _).
Qed.

(** A stored segment of [d], when all held ones are of [d]. *)
Lemma stored_segment_genuine s header payload d :
  rx_inv s -> pdu_fits cfg header payload -> accepted s header -> h_si header <> full_sdu ->
  0 < zlen d ->
  Forall (genuine d) (held_segments (rx_window s) (h_sn header)) ->
  genuine d (mk_segment (h_si header) (h_so header) payload) ->
  let new := mk_segment (h_si header) (h_so header) payload in
  let held := held_segments (rx_window s) (h_sn header) in
  let segs := (store_segment held new).2 in
  (stored_entry (rx_window s) header payload).2
    = mk_sdu_info (update_segment_inventory segs).2 (update_segment_inventory segs).1 (segment_set segs) /\
  segments_wf segs /\ Forall (genuine d) segs /\
  (forall i, covered segs i <-> covered held i \/ covers new i) /\
  ((update_segment_inventory segs).2 = true <->
   forall i, 0 <= i < zlen d -> covered held i \/ covers new i).
Proof.
  intros H [_ Hso Hpay Hend] [_ Hf] Hsi Hd Hheld Hnew new held segs.
  pose proof (held_segments_wf _ _ _ _ (inv_window _ _ H) Hf) as Hwf.
  destruct (store_segment_spec held new Hwf) as (S1 & S2 & _ & S4); [done|done|by apply Hend|].
  unfold RlcRxAmInv.stored_entry. rewrite decide_False by done. split_and!; try done; [by apply S4|].
  unfold update_segment_inventory. rewrite (inventory_full_iff d) by (done || lia || by apply S4).
  split; intros G i Hi; apply S2; auto.
Qed.

Lemma received_after_self w header payload :
  received_after cfg w header payload (h_sn header)
  = fully_received (stored_entry w header payload).2.
Proof. unfold received_after. by rewrite decide_True. Qed.

(** ** The properties *)

(** C25: in every state an entity reaches by PDUs whose segments end within the 16 bits of SO
    ([pdu_bounded]), and by expiries of t-Reassembly, the invariant of the receive window holds, no further
    PDU of this kind makes a handler fail an assertion or run forever, and neither does the expiry
    of t-Reassembly. PDUs of the peer that are not of this kind are excluded, and have to be: see
    [oversized_segment_fails_assertion]. *)
Theorem rx_never_fails s :
  rx_reachable cfg s ->
  rx_inv s /\
  (forall env buf, pdu_bounded buf -> exists s', handle_pdu cfg env s buf = ok s') /\
  (is_running (reassembly_timer s) = true -> exists s', reassembly_timer_expiry cfg s = ok s').
Proof.
  intros H%rx_reachable_inv. split_and!; [done| |].
  - intros env buf Hb. destruct (handle_pdu_ok cfg env s buf H Hb) as (s' & E & _). eauto.
  - intros Hr. destruct (reassembly_timer_expiry_ok cfg s H Hr) as (s' & E & _). eauto.
Qed.

(** A data PDU inside the window that is no duplicate changes the
    state as TS 38.322, 5.2.3.2.3 says: RX_Next_Highest, RX_Highest_Status, RX_Next
    move to the first SDU that is not fully received, what RX_Next passed leaves
    the window, and t-Reassembly is stopped and started by the conditions of the
    standard; a poll requests a status report. *)
Theorem data_pdu_placed env s buf header payload :
  rx_inv s -> is_control_pdu buf = false -> data_pdu buf = Some (header, payload) ->
  pdu_bounded buf -> accepted s header ->
  exists s0 s1 s', handle_pdu cfg env s buf = ok s' /\ rx_inv s' /\
    only_status s s0 /\ placed cfg env s0 header payload s1 /\ only_status s1 s' /\
    do_status s' = do_status s || negb (h_p header =? 0).
Proof.
  intros H Hc Hd Hb Ha.
  destruct (data_pdu_accept_ok env s buf header payload) as
    (s0 & s1 & s' & E & H' & _ & O0 & _ & Hp & O1 & D); eauto using data_pdu_fits.
  exists s0, s1, s'. split_and!; done.
Qed.

(** A malformed data PDU, one outside the window and a duplicate
    change neither the state variables nor the window nor the timer and deliver
    nothing, but their poll bit is honoured. *)
Theorem data_pdu_discarded env s buf :
  rx_inv s -> buf <> [] -> is_control_pdu buf = false ->
  (forall header payload, data_pdu buf = Some (header, payload) -> ~ accepted s header) ->
  exists s', handle_pdu cfg env s buf = ok s' /\ only_status s s' /\
    do_status s' = do_status s ||
      match data_pdu buf with Some (header, _) => negb (h_p header =? 0) | None => false end.
Proof.
  intros H Hne Hc Hno. unfold handle_pdu. rewrite bool_decide_eq_false_2, Hc by done.
  set (s0 := emit (emit s _) _).
  assert (O0 : only_status s s0).
  { unfold only_status, s0; simpl. rewrite !delivered_app. simpl. by rewrite !app_nil_r. }
  destruct (handle_data_pdu_discard cfg env s0 buf) as (s' & E & _ & O & D).
  - by repeat apply emit_inv.
  - intros h p Hd. rewrite (only_status_accepted s s0) by done. by apply (Hno h p).
  - exists s'. split_and!; [done| |done]. unfold only_status in *.
    destruct O as (-> & -> & -> & ->), O0 as (-> & -> & -> & ->). done.
Qed.

(** A PDU with a whole SDU is delivered as it came, once: afterwards
    every PDU with its SN is refused, until the window has moved on. *)
Theorem full_sdu_delivered_once env s buf header payload :
  rx_inv s -> is_control_pdu buf = false -> data_pdu buf = Some (header, payload) ->
  h_si header = full_sdu -> accepted s header ->
  pool_ok env = true -> (0 < max_slices env)%nat ->
  exists s', handle_pdu cfg env s buf = ok s' /\
    delivered (out s') = delivered (out s) ++ [payload] /\
    forall h, h_sn h = h_sn header -> ~ accepted s' h.
Proof.
  intros H Hc Hd Hsi Ha Hpool Hsl.
  assert (Hfit : pdu_fits cfg header payload).
  { eapply data_pdu_fits; [|done]. unfold RlcRxAmInv.pdu_bounded. intros h p. rewrite Hd.
    by intros [= <- <-]. }
  destruct (data_pdu_accept_ok env s buf header payload) as
    (s0 & s1 & s' & E & H' & H1 & O0 & H0 & Hp & O1 & _); [done..|].
  assert (Ha0 : accepted s0 header) by by eapply only_status_accepted.
  assert (Est : stored_entry (rx_window s0) header payload
    = (true, mk_sdu_info true false (full_slice payload))).
  { unfold RlcRxAmInv.stored_entry. by rewrite decide_True. }
  exists s'. split_and!; [done| |].
  - destruct O1 as (_ & _ & _ & ->), O0 as (_ & _ & _ & E0).
    rewrite (placed_delivered _ _ _ _ _ Hp), E0, Est. simpl.
    unfold reassemble_sdu. simpl. rewrite build_chain_ok by (done || simpl; lia). simpl.
    by rewrite app_nil_r.
  - intros h Eh Hacc%(only_status_accepted s1 s'); [|done].
    by eapply (placed_complete_rejects env s0 header payload s1 h); rewrite ?Est.
Qed.

(** C2: segments of an SDU, in any order and overlapping, are reassembled to
    that SDU: when the new segment brings the last missing byte, exactly the SDU
    that was segmented is delivered, and its SN is refused from then on; before
    that nothing is delivered and the segments held stay segments of the SDU. *)
Theorem segments_reassembled env s buf header payload d :
  rx_inv s -> is_control_pdu buf = false -> data_pdu buf = Some (header, payload) ->
  h_si header <> full_sdu -> 0 < zlen d <= 2 ^ 16 - 1 -> accepted s header ->
  Forall (genuine d) (held_segments (rx_window s) (h_sn header)) ->
  genuine d (mk_segment (h_si header) (h_so header) payload) ->
  let new := mk_segment (h_si header) (h_so header) payload in
  let held := held_segments (rx_window s) (h_sn header) in
  exists s', handle_pdu cfg env s buf = ok s' /\
    ((forall i, 0 <= i < zlen d -> covered held i \/ covers new i) ->
       pool_ok env = true -> (length (store_segment held new).2 <= max_slices env)%nat ->
       delivered (out s') = delivered (out s) ++ [d] /\
       forall h, h_sn h = h_sn header -> ~ accepted s' h) /\
    (~ (forall i, 0 <= i < zlen d -> covered held i \/ covers new i) ->
       delivered (out s') = delivered (out s) /\
       Forall (genuine d) (held_segments (rx_window s') (h_sn header)) /\
       forall i, covered (held_segments (rx_window s') (h_sn header)) i <->
         covered held i \/ covers new i).
Proof.
  intros H Hc Hd Hsi Hlen Ha Hheld Hnew new held.
  assert (Hfit : pdu_fits cfg header payload).
  { eapply data_pdu_fits; [|done]. unfold RlcRxAmInv.pdu_bounded. intros h p. rewrite Hd.
    intros [= <- <-] _. pose proof (g_end _ _ Hnew). simpl in *. lia. }
  destruct (data_pdu_accept_ok env s buf header payload) as
    (s0 & s1 & s' & E & H' & H1 & O0 & H0 & Hp & O1 & _); [done..|].
  assert (Ha0 : accepted s0 header) by by eapply only_status_accepted.
  pose proof O0 as (Es0 & Ew0 & _ & Ed0). pose proof O1 as (Es1 & Ew1 & _ & Ed1).
  destruct (stored_segment_genuine s0 header payload d) as (Est & G1 & G2 & G3 & G4);
    [done..|lia|by rewrite Ew0|done|].
  rewrite Ew0 in Est, G1, G2, G3, G4. fold new held in Est, G1, G2, G3, G4.
  exists s'. split_and!; [done| |].
  - intros Hall Hpool Hsl. apply G4 in Hall. rewrite Ed1, (placed_delivered _ _ _ _ _ Hp), Ed0, Ew0, Est.
    cbn [fully_received]. rewrite Hall. split.
    + unfold reassemble_sdu. cbn [fully_received sdu_buf negb].
      rewrite build_chain_ok by (done || by rewrite length_fmap). cbn [option_list].
      rewrite (inventory_full d (store_segment held new).2 0) by (done || lia). by rewrite Z.sub_0_r, slice_full.
    + intros h Eh Hacc%(only_status_accepted s1 s'); [|done].
      eapply (placed_complete_rejects env s0 header payload s1 h); try done. by rewrite Ew0, Est.
  - intros Hnot. assert (Hinc : (update_segment_inventory (store_segment held new).2).2 = false).
    { destruct (update_segment_inventory _).2; [|done]. by destruct Hnot; apply G4. }
    rewrite Ed1, (placed_delivered _ _ _ _ _ Hp), Ed0, Ew0, Est. cbn [fully_received]. rewrite Hinc.
    split; [by rewrite app_nil_r|].
    assert (Hkeep : held_segments (rx_window s') (h_sn header) = (store_segment held new).2).
    { unfold RlcRxAmInv.held_segments. rewrite Ew1, (pl_window _ _ _ _ _ _ Hp), Ew0, Est, Es0.
      rewrite (decide_True (P := h_sn header = h_sn header)) by done.
      unfold released. cbn [fully_received]. rewrite Hinc. cbn [sdu_buf segments_of].
      destruct (decide _) as [Hlt|]; [exfalso|done].
      destruct (pl_next _ _ _ _ _ _ Hp) as (_ & _ & _ & N4). rewrite Es0 in N4.
      specialize (N4 (h_sn header) (pf_sn _ _ _ Hfit)). rewrite sn_dist_self in N4.
      pose proof (sn_dist_range (m := md) (W := W) (rx_next (st s)) (h_sn header)).
      rewrite received_after_self, Ew0, Est in N4. cbn [fully_received] in N4.
      rewrite Hinc in N4. rewrite N4 in *; done || lia. }
    rewrite Hkeep. auto.
Qed.

(** C3: a status report says exactly what is missing: byte [j] of SDU [k]
    is covered by one of its NACKs if and only if [k] lies between RX_Next and the
    reported ACK_SN and the receiver does not have the byte; the transmitting
    entity gets this report, and the length it was told is the length it packs
    to. *)
Theorem status_report_exact defer_ok s :
  rx_inv s -> few_segments cfg (rx_window s) ->
  exists s' report s'', refresh_status_report cfg s = ok s' /\
    get_status_pdu cfg defer_ok s' = (report, s'') /\
    ack_sn report = status_stop_sn cfg s /\
    (forall k j, reported (status_meaning report) k j <->
       (0 <= k < md /\ dist (st s) k < dist (st s) (ack_sn report)) /\
       is_full (rx_window s) k = false /\ missing_at cfg (rx_window s) k j) /\
    get_status_pdu_length s' = zlen (pack report).
Proof.
  intros H Hfew. destruct (refresh_status_report_reported cfg s H Hfew) as (s' & E & (R1 & R2 & R3 & R4) & Hl).
  assert (Hget : (get_status_pdu cfg defer_ok s').1 = status_cached s').
  { unfold get_status_pdu. by destruct (0 <? _), defer_ok. }
  exists s', (status_cached s'), (get_status_pdu cfg defer_ok s').2. split_and!; try done.
  - rewrite <- Hget. by destruct (get_status_pdu cfg defer_ok s').
  - unfold get_status_pdu_length. by rewrite pack_size.
Qed.

(** When t-Reassembly expires, RX_Highest_Status becomes the first SDU
    from RX_Next_Status_Trigger on that is not fully received, a status report is
    made for it and requested, and the timer runs again exactly when something
    before RX_Next_Highest is still missing. *)
Theorem reassembly_expiry s :
  rx_inv s -> is_running (reassembly_timer s) = true -> 0 < t_reassembly cfg ->
  exists s', reassembly_timer_expiry cfg s = ok s' /\ rx_inv s' /\
    first_unreceived cfg (rx_next (st s)) (rx_next_highest (st s)) (is_full (rx_window s))
      (rx_next_status_trigger (st s)) (rx_highest_status (st s')) /\
    rx_next (st s') = rx_next (st s) /\ rx_next_highest (st s') = rx_next_highest (st s) /\
    rx_window s' = rx_window s /\ delivered (out s') = delivered (out s) /\
    do_status s' = true /\ ack_sn (status_cached s') = status_stop_sn cfg s' /\
    (is_running (reassembly_timer s') = true <->
       reassembly_missing cfg (st s') (rx_window s) (rx_highest_status (st s')) = true).
Proof.
  intros H Hr Ht. destruct (reassembly_timer_expiry_ok cfg s H Hr) as (s' & E & H' & Hex).
  destruct (Hex Ht) as (s2 & s3 & H2 & [X1 X2 X3 X4 X5 (X6 & X7 & X8) X9]). exists s'.
  destruct (refresh_status_report_total cfg s2 H2) as (b & E3 & _).
  rewrite X6 in E3. injection E3 as ->.
  split_and!; try done.
  - rewrite X8. unfold notify_status_report_changed. by destruct (status_report_required _).
  - assert (E1 : status_cached s' = set_ack_sn b (status_stop_sn cfg s2)).
    { rewrite X8. unfold notify_status_report_changed. by destruct (status_report_required _). }
    rewrite E1. simpl. destruct X7 as (Es & _). unfold status_stop_sn, rx_mod_base. rewrite Es.
    assert (Em : max_nof_sn_per_status_report s2 = max_nof_sn_per_status_report s').
    { rewrite X8. unfold notify_status_report_changed. by destruct (status_report_required _). }
    by rewrite Em.
  - destruct X5 as [-> _]. cbn [reassembly_timer set_reassembly_timer set_timers].
    by destruct (reassembly_missing _ _ _ _).
Qed.
End properties.

(** ** Concrete runs *)

Definition cfg12 : rlc_rx_am_config := mk_rx_config size12bits 35 0 None.
Definition env16 : chain_env := mk_chain_env true 16.

(** A PDU as the peer writes it. *)
Definition am_pdu (poll : Z) (si : rlc_si_field) (sn so : Z) (payload : bytes) : bytes :=
  rlc_am_write_data_pdu_header (mk_header data poll si size12bits sn so) ++ payload.

Fixpoint rx_run (s : rlc_rx_am_entity) (pdus : list bytes) : outcome rlc_rx_am_entity :=
  match pdus with
  | [] => ok s
  | p :: pdus => s ← handle_pdu cfg12 env16 s p; rx_run s pdus
  end.

Definition rx_after (pdus : list bytes) : rlc_rx_am_entity :=
  match (s ← rlc_rx_am_entity_ctor cfg12; rx_run s pdus) with
  | ok s => s
  | fail _ => mk_rx rx_state_init 0 false cm_empty (status_ctor size12bits) (status_ctor size12bits)
                (status_ctor size12bits) 0 false timer_stopped timer_stopped false []
  end.

Definition pdu_bounded_b (buf : bytes) : bool :=
  match data_pdu cfg12 buf with
  | Some (header, payload) =>
      bool_decide (h_si header = full_sdu) || (h_so header + zlen payload <=? 2 ^ 16 - 1)
  | None => true
  end.

Lemma pdu_bounded_b_ok buf : pdu_bounded_b buf = true -> pdu_bounded cfg12 buf.
Proof.
  unfold pdu_bounded_b, pdu_bounded. intros Hb header payload Hd Hsi. rewrite Hd in Hb.
  rewrite bool_decide_eq_false_2 in Hb by done. simpl in Hb. by apply Z.leb_le.
Qed.

Lemma rx_run_steps s pdus s' :
  rx_run s pdus = ok s' -> forallb pdu_bounded_b pdus = true -> rtc (rx_step cfg12) s s'.
Proof.
  revert s. induction pdus as [|p pdus IH]; intros s E Hb; simpl in *.
  - injection E as ->. apply rtc_refl.
  - apply andb_true_iff in Hb as [Hp Hb]. apply bind_ok_inv in E as (s1 & E1 & E).
    eapply rtc_l; [|by apply IH]. by eapply step_pdu; [apply pdu_bounded_b_ok|].
Qed.

Lemma rx_after_reachable pdus :
  forallb pdu_bounded_b pdus = true ->
  match (s ← rlc_rx_am_entity_ctor cfg12; rx_run s pdus) with ok _ => true | fail _ => false end = true ->
  rx_reachable cfg12 (rx_after pdus).
Proof.
  unfold rx_after. intros Hb He.
  destruct (rlc_rx_am_entity_ctor cfg12) as [s0|] eqn:E0; [|done]. simpl in *.
  destruct (rx_run s0 pdus) as [s|] eqn:E1; [|done]. exists s0. split; [done|].
  by eapply rx_run_steps.
Qed.

(** Two segments of the SDU [1..6], the second one first. *)
Definition two_segments : list bytes :=
  [am_pdu 0 last_segment 0 3 [4; 5; 6]; am_pdu 1 first_segment 0 0 [1; 2; 3]].

Example two_segments_deliver : delivered (out (rx_after two_segments)) = [[1; 2; 3; 4; 5; 6]].
Proof. vm_compute. reflexivity. Qed.

(** The status report the transmitting entity gets is not always the
    latest one: [get_status_pdu] swaps the cached with the shared report, and only a
    change of the window makes a new one. When the report for the SDU with SN 0 has
    been fetched and the peer polls again with a duplicate of it, the report
    required and fetched is the initial one with no valid ACK_SN, though SN 0 has
    been received. *)
Theorem duplicate_poll_reports_stale_status :
  exists s1 s2, rx_reachable cfg12 s2 /\
    s1 = rx_after [am_pdu 1 full_sdu 0 0 [7]] /\
    ack_sn (get_status_pdu cfg12 true s1).1 = 1 /\
    handle_pdu cfg12 env16 (get_status_pdu cfg12 true s1).2 (am_pdu 1 full_sdu 0 0 [7]) = ok s2 /\
    status_report_required s2 = true /\ rx_highest_status (st s2) = 1 /\
    ack_sn (get_status_pdu cfg12 true s2).1 = INVALID_RLC_SN.
Proof.
  set (s1 := rx_after [am_pdu 1 full_sdu 0 0 [7]]).
  destruct (handle_pdu cfg12 env16 (get_status_pdu cfg12 true s1).2 (am_pdu 1 full_sdu 0 0 [7])) as [s2|] eqn:E.
  2:{ by vm_compute in E. }
  exists s1, s2. split.
  - destruct (rx_after_reachable [am_pdu 1 full_sdu 0 0 [7]]) as (s0 & E0 & Hs); [done|by vm_compute|].
    exists s0. split; [done|]. eapply rtc_r; [eapply rtc_r; [exact Hs|apply (step_get_status _ true)]|].
    eapply step_pdu; [|exact E]. by apply pdu_bounded_b_ok.
  - vm_compute in E. injection E as <-. by vm_compute.
Qed.

(** Segments that reach beyond byte 65535, which no length check refuses,
    break the order of the stored segments: the offset of a trimmed segment wraps
    around, and the status report made when t-Reassembly expires fails its
    assertion, so that three PDUs of a peer stop the process. *)
Theorem oversized_segment_fails_assertion :
  let pdus := [am_pdu 0 middle_segment 0 200 (replicate 100 0);
               am_pdu 0 middle_segment 0 65000 (replicate 700 0);
               am_pdu 0 middle_segment 0 65100 (replicate 1600 0)] in
  (s ← rlc_rx_am_entity_ctor cfg12; rx_run s pdus) = ok (rx_after pdus) /\
  is_running (reassembly_timer (rx_after pdus)) = true /\
  reassembly_timer_expiry cfg12 (rx_after pdus) = fail assertion.
Proof. cbv zeta. split_and!; vm_compute; reflexivity. Qed.

(** ** Witnesses *)

Lemma rx_after_inv pdus :
  forallb pdu_bounded_b pdus = true ->
  match (s ← rlc_rx_am_entity_ctor cfg12; rx_run s pdus) with ok _ => true | fail _ => false end = true ->
  rx_inv cfg12 (rx_after pdus).
Proof. intros Hb He. by apply rx_reachable_inv, rx_after_reachable. Qed.

Abbreviation second_half := (am_pdu 0 last_segment 0 3 [4; 5; 6]).
Abbreviation first_half := (am_pdu 1 first_segment 0 0 [1; 2; 3]).

Lemma rx_never_fails_witness :
  exists s', handle_pdu cfg12 env16 (rx_after [second_half]) first_half = ok s'.
Proof.
  assert (H : rx_reachable cfg12 (rx_after [second_half])) by by apply rx_after_reachable; vm_compute.
  destruct (rx_never_fails cfg12 _ H) as (_ & Hpdu & _). apply Hpdu. by apply pdu_bounded_b_ok.
Defined.

Lemma data_pdu_placed_witness :
  exists s0 s1 s', handle_pdu cfg12 env16 (rx_after [second_half]) first_half = ok s' /\
    rx_inv cfg12 s' /\ only_status (rx_after [second_half]) s0 /\
    placed cfg12 env16 s0 (mk_header data 1 first_segment size12bits 0 0) [1; 2; 3] s1 /\
    only_status s1 s' /\ do_status s' = true.
Proof.
  apply (data_pdu_placed cfg12 env16 (rx_after [second_half]) first_half
           (mk_header data 1 first_segment size12bits 0 0) [1; 2; 3]).
  - by apply rx_after_inv; vm_compute.
  - reflexivity.
  - reflexivity.
  - by apply pdu_bounded_b_ok.
  - split; vm_compute; reflexivity.
Defined.

Lemma data_pdu_discarded_witness :
  exists s', handle_pdu cfg12 env16 (rx_after two_segments) first_half = ok s' /\
    only_status (rx_after two_segments) s' /\ do_status s' = true.
Proof.
  apply (data_pdu_discarded cfg12 env16 (rx_after two_segments) first_half).
  - by apply rx_after_inv; vm_compute.
  - discriminate.
  - reflexivity.
  - intros header payload Hd. injection Hd as <- _. intros [Hw _]. by vm_compute in Hw.
Defined.

Lemma full_sdu_delivered_once_witness :
  exists s', handle_pdu cfg12 env16 (rx_after [second_half]) (am_pdu 0 full_sdu 1 0 [9]) = ok s' /\
    delivered (out s') = [[9]] /\
    forall h, h_sn h = 1 -> ~ accepted cfg12 s' h.
Proof.
  apply (full_sdu_delivered_once cfg12 env16 (rx_after [second_half]) (am_pdu 0 full_sdu 1 0 [9])
           (mk_header data 0 full_sdu size12bits 1 0) [9]).
  - by apply rx_after_inv; vm_compute.
  - reflexivity.
  - reflexivity.
  - reflexivity.
  - split; vm_compute; reflexivity.
  - reflexivity.
  - simpl. lia.
Defined.

Lemma segments_reassembled_witness :
  exists s', handle_pdu cfg12 env16 (rx_after [second_half]) first_half = ok s' /\
    delivered (out s') = [[1; 2; 3; 4; 5; 6]].
Proof.
  destruct (segments_reassembled cfg12 env16 (rx_after [second_half]) first_half
    (mk_header data 1 first_segment size12bits 0 0) [1; 2; 3] [1; 2; 3; 4; 5; 6]) as (s' & E & Hall & _).
  - by apply rx_after_inv; vm_compute.
  - reflexivity.
  - reflexivity.
  - discriminate.
  - simpl. lia.
  - split; vm_compute; reflexivity.
  - vm_compute. constructor; [|constructor].
    constructor; try done; by vm_compute.
  - constructor; try done; by vm_compute.
  - exists s'. split; [exact E|]. destruct Hall as [Hd _]; [|reflexivity|vm_compute; lia|exact Hd].
    intros i Hi. destruct (decide (i < 3)).
    + right. unfold covers. simpl. simpl in Hi. lia.
    + left. exists (mk_segment last_segment 3 [4; 5; 6]). split; [vm_compute; constructor|].
      unfold covers. simpl. simpl in Hi. lia.
Defined.

Lemma few_segments_b w :
  map_Forall (fun _ (p : Z * sdu_info) => zlen (segments_of (sdu_buf p.2)) <= 4094) (slots w) ->
  few_segments cfg12 w.
Proof. intros Hall k i Hi. apply wget_slot in Hi. by apply (Hall _ _ Hi). Qed.

Lemma status_report_exact_witness :
  exists s' report s'', refresh_status_report cfg12 (rx_after [am_pdu 0 full_sdu 0 0 [7]]) = ok s' /\
    get_status_pdu cfg12 true s' = (report, s'') /\ ack_sn report = 1 /\
    get_status_pdu_length s' = zlen (pack report).
Proof.
  destruct (status_report_exact cfg12 true (rx_after [am_pdu 0 full_sdu 0 0 [7]])) as
    (s' & r & s'' & E & G & A & _ & L).
  - by apply rx_after_inv; vm_compute.
  - apply few_segments_b. apply (bool_decide_eq_true_1 _). vm_compute. reflexivity.
  - exists s', r, s''. split; [exact E|]. split; [exact G|]. split; [exact A|exact L].
Defined.

Lemma reassembly_expiry_witness :
  exists s', reassembly_timer_expiry cfg12 (rx_after [am_pdu 0 full_sdu 2 0 [7]]) = ok s' /\
    first_unreceived cfg12 0 3 (is_full cfg12 (rx_window (rx_after [am_pdu 0 full_sdu 2 0 [7]])))
      3 (rx_highest_status (st s')) /\ do_status s' = true.
Proof.
  destruct (reassembly_expiry cfg12 (rx_after [am_pdu 0 full_sdu 2 0 [7]])) as
    (s' & E & _ & F & _ & _ & _ & _ & D & _).
  - by apply rx_after_inv; vm_compute.
  - reflexivity.
  - reflexivity.
  - exists s'. split; [exact E|]. split; [exact F|exact D].
Defined.
