(* ===== verification/RlcSduQueue.v ===== *)
(** * The SDU queue of the transmitting RLC entities

    [rlc_sdu_queue_lockfree] of [lib/rlc/rlc_sdu_queue_lockfree.h]: a bounded FIFO of
    SDUs between the upper and the lower layer, in which the upper layer can
    discard an SDU by its PDCP SN, and whose numbers of SDUs and bytes are kept in
    the halves of one 64-bit word. Each atomic access of the code is one access of
    the model; the operations are taken one after the other.

    The specification is the list of the SDUs that were written, not discarded, and
    not yet read. *)

From S2P Require Import Prelude.

(** [rlc_sdu], without the time of arrival. *)
Record rlc_sdu := mk_sdu {
  sdu_bytes : bytes;
  sdu_is_retx : bool;
  sdu_pdcp_sn : option Z
}.

Definition no_sdu : rlc_sdu := mk_sdu [] false None.

(** The FIFO [queue] of the class, its slots by [PDCP SN mod capacity] and the
    packed counters. *)
Record sdu_queue := mk_queue {
  q_items : list rlc_sdu;
  q_states : gmap Z Z;
  q_sizes : gmap Z Z;
  q_state : Z
}.

Definition STATE_FREE : Z := 0xffffffff.
Definition STATE_DISCARDED : Z := 0xfffffffe.

Section sdu_queue.
Context (capacity byte_limit : Z).

Definition queue_init : sdu_queue := mk_queue [] ∅ ∅ 0.

Definition slot_state (q : sdu_queue) (idx : Z) : Z := default STATE_FREE (q_states q !! idx).
Definition slot_size (q : sdu_queue) (idx : Z) : Z := default 0 (q_sizes q !! idx).

Definition set_slot_state (q : sdu_queue) (idx s : Z) : sdu_queue :=
  mk_queue (q_items q) (<[idx := s]> (q_states q)) (q_sizes q) (q_state q).
Definition set_slot_size (q : sdu_queue) (idx n : Z) : sdu_queue :=
  mk_queue (q_items q) (q_states q) (<[idx := n]> (q_sizes q)) (q_state q).
Definition set_items (q : sdu_queue) (l : list rlc_sdu) : sdu_queue :=
  mk_queue l (q_states q) (q_sizes q) (q_state q).

(** One SDU of the given size, as a change of the packed counters. *)
Definition state_change (sdu_size : Z) : Z := Z.lor (Z.shiftl 1 32) (u32 sdu_size).
Definition state_add (q : sdu_queue) (sdu_size : Z) : sdu_queue :=
  mk_queue (q_items q) (q_states q) (q_sizes q) (u64 (q_state q + state_change sdu_size)).
Definition state_sub (q : sdu_queue) (sdu_size : Z) : sdu_queue :=
  mk_queue (q_items q) (q_states q) (q_sizes q) (u64 (q_state q - state_change sdu_size)).

(** [get_state]: the numbers of SDUs and of bytes. *)
Definition n_bytes (q : sdu_queue) : Z := Z.land (q_state q) 0xffffffff.
Definition n_sdus (q : sdu_queue) : Z := u32 (Z.shiftr (q_state q) 32).

Definition queue_is_empty (q : sdu_queue) : bool := bool_decide (q_items q = []).
Definition queue_is_full (q : sdu_queue) : bool := capacity <=? zlen (q_items q).

(** [queue->try_push] *)
Definition try_push (q : sdu_queue) (sdu : rlc_sdu) : bool * sdu_queue :=
  if zlen (q_items q) <? capacity then (true, set_items q (q_items q ++ [sdu])) else (false, q).

Definition write (q : sdu_queue) (sdu : rlc_sdu) : bool * sdu_queue :=
  let sdu_size := zlen (sdu_bytes sdu) in
  if byte_limit <=? sdu_size + n_bytes q then (false, q)
  else
    let slot_ok := match sdu_pdcp_sn sdu with
                   | Some sn => slot_state q (sn mod capacity) =? STATE_FREE
                   | None => true
                   end in
    if negb slot_ok then (false, q)
    else
      let q := match sdu_pdcp_sn sdu with
               | Some sn => set_slot_state (set_slot_size q (sn mod capacity) sdu_size) (sn mod capacity) sn
               | None => q
               end in
      let '(pushed, q) := try_push q sdu in
      if negb pushed then
        (false, match sdu_pdcp_sn sdu with
                | Some sn => set_slot_state q (sn mod capacity) STATE_FREE
                | None => q
                end)
      else (true, state_add q sdu_size).

Definition try_discard (q : sdu_queue) (pdcp_sn : Z) : bool * sdu_queue :=
  let idx := pdcp_sn mod capacity in
  if slot_state q idx =? pdcp_sn then
    let sdu_size := u32 (slot_size q idx) in
    (true, state_sub (set_slot_state q idx STATE_DISCARDED) sdu_size)
  else (false, q).

Definition check_and_release (q : sdu_queue) (pdcp_sn : Z) : bool * sdu_queue :=
  let idx := pdcp_sn mod capacity in
  let sdu_size := u32 (slot_size q idx) in
  let old_state := slot_state q idx in
  let q := set_slot_state q idx STATE_FREE in
  if old_state =? pdcp_sn then (true, state_sub q sdu_size)
  else if old_state =? STATE_DISCARDED then (false, q)
  else (false, state_sub q sdu_size).

(** The do-while loop of [read]: [items] is the content of the FIFO, and [sdu] the variable of the
    caller, into which every SDU is popped, discarded ones too. *)
Fixpoint read_loop (items : list rlc_sdu) (sdu : rlc_sdu) (q : sdu_queue) : bool * rlc_sdu * sdu_queue :=
  match items with
  | [] => (false, sdu, set_items q [])
  | sdu :: items =>
      match sdu_pdcp_sn sdu with
      | Some sn =>
          let '(sdu_is_valid, q) := check_and_release q sn in
          if sdu_is_valid : bool then (true, sdu, set_items q items) else read_loop items sdu q
      | None => (true, sdu, set_items (state_sub q (zlen (sdu_bytes sdu))) items)
      end
  end.

(** [read(sdu)]: its result, and the variable and the queue after it. *)
Definition read_into (sdu : rlc_sdu) (q : sdu_queue) : bool * rlc_sdu * sdu_queue := read_loop (q_items q) sdu q.

(** A read into a fresh variable, which nothing uses when the read fails. *)
Definition read (q : sdu_queue) : option rlc_sdu * sdu_queue :=
  let '(success, sdu, q) := read_into no_sdu q in (if success : bool then Some sdu else None, q).

(** ** Specification *)

Definition is_valid (states : gmap Z Z) (s : rlc_sdu) : bool :=
  match sdu_pdcp_sn s with
  | Some sn => default STATE_FREE (states !! (sn mod capacity)) =? sn
  | None => true
  end.

(** The SDUs that are in the queue for the user. *)
Definition content (q : sdu_queue) : list rlc_sdu := List.filter (is_valid (q_states q)) (q_items q).

Definition total_bytes (l : list rlc_sdu) : Z := foldr (fun s acc => zlen (sdu_bytes s) + acc) 0 l.

Definition slots_of (l : list rlc_sdu) : list Z :=
  omap (fun s => (fun sn => sn mod capacity) <$> sdu_pdcp_sn s) l.

Definition sn_ok (s : rlc_sdu) : Prop :=
  match sdu_pdcp_sn s with Some sn => 0 <= sn < STATE_DISCARDED | None => True end.

Record queue_inv (q : sdu_queue) : Prop := {
  qi_sn : Forall sn_ok (q_items q);
  qi_nodup : NoDup (slots_of (q_items q));
  qi_slot : forall s sn, s ∈ q_items q -> sdu_pdcp_sn s = Some sn ->
    slot_state q (sn mod capacity) = STATE_DISCARDED \/
    (slot_state q (sn mod capacity) = sn /\ slot_size q (sn mod capacity) = zlen (sdu_bytes s));
  qi_used : forall idx, slot_state q idx <> STATE_FREE -> idx ∈ slots_of (q_items q);
  qi_length : zlen (q_items q) <= capacity;
  qi_state : q_state q = zlen (content q) * 2 ^ 32 + total_bytes (content q);
  qi_bytes : total_bytes (content q) < 2 ^ 32
}.


(** ** The operations keep the invariant *)
Context (Hcap : 0 < capacity < 2 ^ 16) (Hlimit : 0 <= byte_limit < 2 ^ 32).


Lemma slots_of_app l1 l2 : slots_of (l1 ++ l2) = slots_of l1 ++ slots_of l2.
Proof. apply omap_app. Qed.

Lemma slots_of_cons s l :
  slots_of (s :: l) =
  match sdu_pdcp_sn s with Some sn => sn mod capacity :: slots_of l | None => slots_of l end.
Proof. unfold slots_of. simpl. by destruct (sdu_pdcp_sn s). Qed.

Lemma elem_of_slots l idx :
  idx ∈ slots_of l <-> exists s sn, s ∈ l /\ sdu_pdcp_sn s = Some sn /\ idx = sn mod capacity.
Proof.
  unfold slots_of. rewrite list_elem_of_omap. split.
  - intros (s & Hs & E). destruct (sdu_pdcp_sn s) as [sn|] eqn:Esn; simplify_eq/=. eauto.
  - intros (s & sn & Hs & E & ->). exists s. by rewrite E.
Qed.

Lemma total_bytes_app l1 l2 : total_bytes (l1 ++ l2) = total_bytes l1 + total_bytes l2.
Proof. induction l1 as [|s l1 IH]; simpl in *; lia. Qed.

Lemma total_bytes_nonneg l : 0 <= total_bytes l.
Proof. induction l; simpl; lia. Qed.

(** The validity of an SDU only depends on its own slot. *)
Lemma valid_filter_insert states idx v l :
  idx ∉ slots_of l ->
  List.filter (is_valid (<[idx := v]> states)) l = List.filter (is_valid states) l.
Proof.
  intros Hidx. apply List.filter_ext_in. intros s Hs%list_elem_of_In.
  unfold is_valid. destruct (sdu_pdcp_sn s) as [sn|] eqn:E; [|done].
  rewrite lookup_insert_ne; [done|]. intros ->. apply Hidx, elem_of_slots. eauto.
Qed.

(** ** The packed counters *)
Lemma n_sdus_bytes q k b :
  q_state q = k * 2 ^ 32 + b -> 0 <= k < 2 ^ 32 -> 0 <= b < 2 ^ 32 -> n_sdus q = k /\ n_bytes q = b.
Proof.
  intros E Hk Hb. unfold n_sdus, n_bytes. change 0xffffffff with (2 ^ 32 - 1).
  rewrite E, land_mask, Z.shiftr_div_pow2 by lia. unfold u32. divmod.
Qed.

Lemma state_change_eq n : 0 <= n < 2 ^ 32 -> state_change n = 2 ^ 32 + n.
Proof.
  intros. unfold state_change, u32. rewrite Z.mod_small by lia.
  rewrite lor_shiftl_add by lia. lia.
Qed.

Lemma slot_state_not_free q s sn :
  queue_inv q -> s ∈ q_items q -> sdu_pdcp_sn s = Some sn -> slot_state q (sn mod capacity) <> STATE_FREE.
Proof.
  intros HI Hs E. pose proof (qi_sn _ HI) as Hok. rewrite Forall_forall in Hok.
  pose proof (Hok s Hs) as Hs'. unfold sn_ok in Hs'. rewrite E in Hs'.
  unfold STATE_DISCARDED, STATE_FREE in *.
  destruct (qi_slot _ HI s sn Hs E) as [->|[-> _]]; unfold STATE_DISCARDED; lia.
Qed.

Lemma free_slot_unused q idx : queue_inv q -> slot_state q idx = STATE_FREE -> idx ∉ slots_of (q_items q).
Proof.
  intros HI Hf (s & sn & Hs & E & ->)%elem_of_slots. by eapply slot_state_not_free.
Qed.

Lemma content_length q : queue_inv q -> zlen (content q) <= zlen (q_items q).
Proof. intros. unfold content. pose proof (List.filter_length_le (is_valid (q_states q)) (q_items q)). lia. Qed.

Lemma queue_counters q :
  queue_inv q -> n_sdus q = zlen (content q) /\ n_bytes q = total_bytes (content q).
Proof.
  intros HI. pose proof (content_length q HI). pose proof (qi_length _ HI).
  apply n_sdus_bytes; [apply (qi_state _ HI)|lia|].
  pose proof (total_bytes_nonneg (content q)). pose proof (qi_bytes _ HI). lia.
Qed.

Lemma queue_init_inv : queue_inv queue_init.
Proof.
  split; simpl; try done.
  - constructor.
  - intros s sn Hs. by apply elem_of_nil in Hs.
  - lia.
Qed.


(** ** Writing *)
Definition slot_free (q : sdu_queue) (sdu : rlc_sdu) : bool :=
  match sdu_pdcp_sn sdu with Some sn => slot_state q (sn mod capacity) =? STATE_FREE | None => true end.

Definition write_ok (q : sdu_queue) (sdu : rlc_sdu) : bool :=
  (zlen (sdu_bytes sdu) + n_bytes q <? byte_limit) && slot_free q sdu && (zlen (q_items q) <? capacity).

Lemma slot_state_insert q idx v i :
  slot_state (set_slot_state q idx v) i = if decide (i = idx) then v else slot_state q i.
Proof.
  unfold slot_state. simpl. destruct (decide (i = idx)) as [->|].
  - by rewrite lookup_insert_eq.
  - by rewrite lookup_insert_ne.
Qed.

(** The queue after an accepted [write]. *)
Definition pushed (q : sdu_queue) (sdu : rlc_sdu) : sdu_queue :=
  let n := zlen (sdu_bytes sdu) in
  mk_queue (q_items q ++ [sdu])
    (match sdu_pdcp_sn sdu with Some sn => <[sn mod capacity := sn]> (q_states q) | None => q_states q end)
    (match sdu_pdcp_sn sdu with Some sn => <[sn mod capacity := n]> (q_sizes q) | None => q_sizes q end)
    (u64 (q_state q + state_change n)).

Lemma write_accepted q sdu : write_ok q sdu = true -> write q sdu = (true, pushed q sdu).
Proof.
  unfold write_ok, write, slot_free. intros [[H1 H2]%andb_prop H3]%andb_prop.
  rewrite Z.leb_antisym, H1. cbn [negb]. unfold try_push, pushed.
  destruct (sdu_pdcp_sn sdu) as [sn|].
  - rewrite H2. cbn -[Z.mul state_change u64]. by rewrite H3.
  - cbn -[Z.mul state_change u64]. by rewrite H3.
Qed.

Lemma pushed_content q sdu :
  slot_free q sdu = true -> queue_inv q -> content (pushed q sdu) = content q ++ [sdu].
Proof.
  intros Hfree HI. unfold content, pushed. simpl. rewrite List.filter_app. simpl.
  unfold slot_free in Hfree. unfold is_valid at 2. destruct (sdu_pdcp_sn sdu) as [sn|] eqn:E; [|done].
  apply Z.eqb_eq in Hfree. rewrite lookup_insert_eq. simpl. rewrite Z.eqb_refl.
  rewrite valid_filter_insert; [done|]. by apply free_slot_unused.
Qed.

Lemma pushed_inv q sdu :
  sn_ok sdu -> write_ok q sdu = true -> queue_inv q -> queue_inv (pushed q sdu).
Proof.
  unfold write_ok. intros Hsn [[H1%Z.ltb_lt Hfree]%andb_prop H3%Z.ltb_lt]%andb_prop HI.
  pose proof (pushed_content q sdu Hfree HI) as HC.
  destruct (queue_counters q HI) as [_ Hb]. rewrite Hb in H1.
  pose proof (total_bytes_nonneg (content q)).
  split.
  - simpl. apply Forall_app. split; [apply (qi_sn _ HI)|by constructor].
  - simpl. rewrite slots_of_app, slots_of_cons. apply NoDup_app. split; [apply (qi_nodup _ HI)|].
    unfold slot_free in Hfree. destruct (sdu_pdcp_sn sdu) as [sn|].
    + apply Z.eqb_eq in Hfree. split; [|apply NoDup_singleton].
      intros x Hx Hs%list_elem_of_singleton. subst x. by apply (free_slot_unused q (sn mod capacity)).
    + split; [|constructor]. intros x _ Hnil. by apply elem_of_nil in Hnil.
  - unfold slot_free in Hfree. unfold slot_state, slot_size, pushed; simpl. intros s sn Hs E.
    apply elem_of_app in Hs as [Hs|Hs%list_elem_of_singleton].
    2: subst s. 
    + destruct (sdu_pdcp_sn sdu) as [sn'|].
      * apply Z.eqb_eq in Hfree. pose proof (slot_state_not_free q s sn HI Hs E).
        rewrite !lookup_insert_ne by congruence. by apply (qi_slot _ HI).
      * by apply (qi_slot _ HI).
    + rewrite E, !lookup_insert_eq. by right.
  - intros idx Hidx. simpl. rewrite slots_of_app, slots_of_cons. apply elem_of_app.
    unfold slot_state, pushed in Hidx; simpl in Hidx. destruct (sdu_pdcp_sn sdu) as [sn|].
    + destruct (decide (idx = sn mod capacity)) as [->|Hne]; [right; left|].
      rewrite lookup_insert_ne in Hidx by done. left. by apply (qi_used _ HI).
    + left. by apply (qi_used _ HI).
  - simpl. rewrite length_app. simpl. lia.
  - rewrite HC, length_app, total_bytes_app. simpl. pose proof (qi_state _ HI) as Hst.
    pose proof (content_length q HI). rewrite Hst, state_change_eq by lia.
    unfold u64. rewrite Z.mod_small by lia. lia.
  - rewrite HC, total_bytes_app. simpl. lia.
Qed.

Lemma write_refused q sdu :
  write_ok q sdu = false -> queue_inv q ->
  exists q', write q sdu = (false, q') /\ content q' = content q /\ queue_inv q'.
Proof.
  unfold write_ok, write, slot_free. rewrite Z.leb_antisym. intros H HI.
  destruct (zlen (sdu_bytes sdu) + n_bytes q <? byte_limit); simpl in *; [|eauto].
  destruct (sdu_pdcp_sn sdu) as [sn|] eqn:E.
  2: { simpl in H. unfold try_push. rewrite H. simpl. eauto. }
  destruct (slot_state q (sn mod capacity) =? STATE_FREE) eqn:Ef; simpl in *; [|eauto].
  unfold try_push. simpl. rewrite H. simpl. apply Z.eqb_eq in Ef.
  pose proof (free_slot_unused q _ HI Ef) as Hun.
  eexists; split; [reflexivity|].
  match goal with |- content ?q' = _ /\ _ => set (q1 := q') end.
  assert (HC : content q1 = content q).
  { unfold content, q1. simpl. by rewrite !valid_filter_insert. }
  assert (Hsl : forall i, slot_state q1 i = slot_state q i).
  { intros i. unfold q1. rewrite !slot_state_insert.
    destruct (decide (i = sn mod capacity)) as [->|]; done. }
  split; [done|]. split; rewrite ?HC; try apply HI.
  - intros s sn' Hs Es. rewrite !Hsl. destruct (qi_slot _ HI s sn' Hs Es) as [?|[? Hsz]]; [by left|].
    right. split; [done|]. rewrite <- Hsz. unfold slot_size, q1. simpl.
    rewrite lookup_insert_ne; [done|]. intros Heq. apply Hun, elem_of_slots. eauto.
  - intros idx. rewrite Hsl. apply (qi_used _ HI).
Qed.

(** ** Discarding *)
Definition holds_sn (pdcp_sn : Z) (s : rlc_sdu) : bool := bool_decide (sdu_pdcp_sn s = Some pdcp_sn).

Lemma state_change_sub q n :
  0 <= n <= total_bytes (content q) -> 0 < zlen (content q) -> queue_inv q ->
  u64 (q_state q - state_change n) =
  ((zlen (content q) - 1) * 2 ^ 32 + (total_bytes (content q) - n)).
Proof.
  intros Hn Hl HI. pose proof (qi_bytes _ HI). pose proof (content_length q HI).
  pose proof (qi_length _ HI). rewrite (qi_state _ HI), state_change_eq by lia.
  unfold u64. rewrite Z.mod_small by lia. lia.
Qed.

(** The items around the one that uses a given slot. *)
Lemma slot_split l idx :
  NoDup (slots_of l) -> idx ∈ slots_of l ->
  exists l1 s l2 sn, l = (l1 ++ s :: l2) /\ sdu_pdcp_sn s = Some sn /\ idx = sn mod capacity /\
    (idx ∉ slots_of l1) /\ (idx ∉ slots_of l2).
Proof.
  intros Hnd (s & sn & Hs & E & ->)%elem_of_slots.
  apply list_elem_of_split in Hs as (l1 & l2 & ->).
  exists l1, s, l2, sn. split; [done|]. split; [done|]. split; [done|].
  rewrite slots_of_app, slots_of_cons, E in Hnd.
  apply NoDup_app in Hnd as (_ & H1 & H2). apply NoDup_cons in H2 as [H2 _].
  split; [|done]. intros Hin. apply (H1 _ Hin). left.
Qed.

Lemma filter_holds_sn_other pdcp_sn l :
  pdcp_sn mod capacity ∉ slots_of l -> List.filter (fun s => negb (holds_sn pdcp_sn s)) l = l.
Proof.
  intros Hn. rewrite (List.filter_ext_in _ (fun _ => true)).
  - apply List.filter_true.
  - intros s Hs%list_elem_of_In. unfold holds_sn. rewrite bool_decide_false; [done|].
    intros E. apply Hn, elem_of_slots. eauto.
Qed.

Lemma slots_of_filter f l idx : idx ∈ slots_of (List.filter f l) -> idx ∈ slots_of l.
Proof.
  intros (s & sn & Hs & E & ->)%elem_of_slots. apply elem_of_slots. exists s, sn.
  split; [|done]. apply list_elem_of_In in Hs. apply List.filter_In in Hs as [Hs _].
  by apply list_elem_of_In.
Qed.

Lemma valid_discarded states l1 s l2 sn idx :
  sdu_pdcp_sn s = Some sn -> idx = sn mod capacity -> sn <> STATE_DISCARDED ->
  idx ∉ slots_of l1 -> idx ∉ slots_of l2 ->
  List.filter (is_valid (<[idx := STATE_DISCARDED]> states)) (l1 ++ s :: l2) =
  List.filter (is_valid states) l1 ++ List.filter (is_valid states) l2.
Proof.
  intros E -> Hne H1 H2. rewrite List.filter_app. simpl. rewrite !valid_filter_insert by done.
  assert (is_valid (<[sn mod capacity := STATE_DISCARDED]> states) s = false) as ->; [|done].
  unfold is_valid. rewrite E, lookup_insert_eq. apply Z.eqb_neq. simpl. congruence.
Qed.

Lemma try_discard_spec q pdcp_sn :
  0 <= pdcp_sn < STATE_DISCARDED -> queue_inv q ->
  exists q', try_discard q pdcp_sn = (existsb (holds_sn pdcp_sn) (content q), q') /\
    content q' = List.filter (fun s => negb (holds_sn pdcp_sn s)) (content q) /\ queue_inv q'.
Proof.
  intros Hsn HI. unfold try_discard. destruct (Z.eqb_spec (slot_state q (pdcp_sn mod capacity)) pdcp_sn) as [Hst|Hst].
  - (* the slot holds the SDU *)
    assert (Hidx : pdcp_sn mod capacity ∈ slots_of (q_items q)).
    { apply (qi_used _ HI). rewrite Hst. unfold STATE_FREE, STATE_DISCARDED in *. lia. }
    destruct (slot_split _ _ (qi_nodup _ HI) Hidx) as (l1 & s & l2 & sn & Hl & E & Hmod & H1 & H2).
    assert (Hs : s ∈ q_items q) by (rewrite Hl, elem_of_app, elem_of_cons; tauto).
    destruct (qi_slot _ HI s sn Hs E) as [Hd|[Hd Hsz]]; rewrite <- Hmod, Hst in Hd; [lia|]. subst sn.
    assert (HCq : content q = List.filter (is_valid (q_states q)) l1 ++ s :: List.filter (is_valid (q_states q)) l2).
    { unfold content. rewrite Hl, List.filter_app. simpl.
      assert (is_valid (q_states q) s = true) as ->; [|done].
      unfold is_valid. rewrite E. apply Z.eqb_eq. apply Hst. }
    eexists. split; [|split].
    + f_equal. symmetry. apply existsb_exists. exists s. split; [|by apply bool_decide_eq_true].
      rewrite HCq. apply list_elem_of_In. rewrite elem_of_app, elem_of_cons. tauto.
    + unfold content at 1. simpl. rewrite Hl, (valid_discarded _ _ _ _ pdcp_sn) by (done || lia).
      rewrite HCq, List.filter_app. simpl.
      assert (holds_sn pdcp_sn s = true) as -> by (by apply bool_decide_eq_true). simpl.
      rewrite !filter_holds_sn_other; [done|..]; by intros ?%slots_of_filter.
    + match goal with |- queue_inv ?q' => set (q1 := q') end.
      assert (HC1 : content q1 = List.filter (is_valid (q_states q)) l1 ++ List.filter (is_valid (q_states q)) l2).
      { unfold content. simpl. rewrite Hl. apply (valid_discarded _ _ _ _ pdcp_sn); (done || lia). }
      assert (Hlen : zlen (content q) = zlen (content q1) + 1) by (rewrite HCq, HC1, !length_app; simpl; lia).
      assert (Htot : total_bytes (content q) = total_bytes (content q1) + zlen (sdu_bytes s))
        by (rewrite HCq, HC1, !total_bytes_app; simpl; lia).
      pose proof (total_bytes_nonneg (content q1)). pose proof (qi_bytes _ HI).
      split; try apply HI.
      * intros s' sn' Hs' E'. unfold q1, state_sub, set_slot_state, slot_state, slot_size; simpl.
        destruct (decide (sn' mod capacity = pdcp_sn mod capacity)) as [->|Hne].
        -- left. by rewrite lookup_insert_eq.
        -- rewrite !lookup_insert_ne by done. by apply (qi_slot _ HI).
      * intros idx. unfold q1, state_sub, set_slot_state, slot_state; simpl.
        destruct (decide (idx = pdcp_sn mod capacity)) as [->|Hne]; [done|].
        rewrite lookup_insert_ne by done. apply (qi_used _ HI).
      * unfold q1 at 1. cbn [q_state state_sub set_slot_state]. rewrite Hsz.
        unfold u32. rewrite Z.mod_small by lia. rewrite state_change_sub by (done || lia). lia.
      * lia.
  - exists q. assert (Hno : forall s, s ∈ content q -> holds_sn pdcp_sn s = false).
    { intros s Hs%list_elem_of_In. apply List.filter_In in Hs as [Hs Hv]. apply bool_decide_eq_false.
      intros E. unfold is_valid in Hv. rewrite E in Hv. by apply Z.eqb_eq in Hv. }
    split; [|split; [|done]].
    + f_equal. symmetry. apply not_true_iff_false. intros (s & Hs & Hh)%existsb_exists.
      apply list_elem_of_In in Hs. by rewrite Hno in Hh.
    + rewrite (List.filter_ext_in _ (fun _ => true)); [by rewrite List.filter_true|].
      intros s Hs%list_elem_of_In. by rewrite Hno.
Qed.

(** ** Reading *)

(** The queue when its first item has been popped and its slot released. *)
Lemma popped_inv s items q sn :
  sdu_pdcp_sn s = Some sn -> q_items q = s :: items -> queue_inv q ->
  forall st', st' = (if is_valid (q_states q) s then u64 (q_state q - state_change (zlen (sdu_bytes s))) else q_state q) ->
  let q' := mk_queue items (<[sn mod capacity := STATE_FREE]> (q_states q)) (q_sizes q) st' in
  content q = (if is_valid (q_states q) s then s :: content q' else content q') /\ queue_inv q'.
Proof.
  intros E Hi HI st' Hst q'.
  pose proof (qi_nodup _ HI) as Hnd. rewrite Hi, slots_of_cons, E in Hnd. apply NoDup_cons in Hnd as [Hnin Hnd].
  assert (HC : content q = (if is_valid (q_states q) s then s :: content q' else content q')).
  { unfold content, q'. rewrite Hi. simpl. by rewrite valid_filter_insert. }
  split; [done|].
  assert (Hin : forall s', s' ∈ items -> s' ∈ q_items q) by (intros s' ?; rewrite Hi; by right).
  assert (Hb : total_bytes (content q') <= total_bytes (content q)).
  { rewrite HC. destruct (is_valid _ s); simpl; lia. }
  split.
  - pose proof (qi_sn _ HI) as Hsn. rewrite Hi in Hsn. by apply Forall_inv_tail in Hsn.
  - done.
  - intros s' sn' Hs' E'. unfold q', slot_state, slot_size; simpl. rewrite lookup_insert_ne.
    + by apply (qi_slot _ HI); [apply Hin|].
    + intros Heq. apply Hnin, elem_of_slots. eauto.
  - intros idx. unfold q', slot_state; simpl. destruct (decide (idx = sn mod capacity)) as [->|Hne].
    + by rewrite lookup_insert_eq.
    + rewrite lookup_insert_ne by done. intros Hidx%(qi_used _ HI).
      rewrite Hi, slots_of_cons, E in Hidx. by apply elem_of_cons in Hidx as [?|?].
  - pose proof (qi_length _ HI) as Hlen. rewrite Hi in Hlen. simpl in *. lia.
  - simpl. pose proof (qi_state _ HI) as Hq. destruct (is_valid (q_states q) s) eqn:Ev; [|by rewrite Hst, Hq, HC].
    pose proof (total_bytes_nonneg (content q')).
    rewrite Hst, state_change_sub; [rewrite HC; simpl; lia|rewrite HC; simpl; lia|rewrite HC; simpl; lia|done].
  - pose proof (qi_bytes _ HI). lia.
Qed.

Lemma check_and_release_spec s items q sn :
  sdu_pdcp_sn s = Some sn -> q_items q = s :: items -> queue_inv q ->
  exists q', check_and_release q sn = (is_valid (q_states q) s, q') /\
    content q = (if is_valid (q_states q) s then s :: content (set_items q' items) else content (set_items q' items)) /\
    queue_inv (set_items q' items).
Proof.
  intros E Hi HI. pose proof (popped_inv s items q sn E Hi HI _ eq_refl) as [HC HI'].
  assert (Hs : s ∈ q_items q) by (rewrite Hi; left).
  pose proof (qi_bytes _ HI) as Hb. pose proof (total_bytes_nonneg (content (mk_queue items (<[sn mod capacity := STATE_FREE]> (q_states q)) (q_sizes q) 0))).
  assert (Hv : is_valid (q_states q) s = (slot_state q (sn mod capacity) =? sn)) by (unfold is_valid; by rewrite E).
  unfold check_and_release.
  destruct (qi_slot _ HI s sn Hs E) as [Hd|[Hd Hsz]].
  - assert (sn <> STATE_DISCARDED) as Hne.
    { pose proof (qi_sn _ HI) as Hok. rewrite Forall_forall in Hok. specialize (Hok s Hs).
      unfold sn_ok in Hok. rewrite E in Hok. lia. }
    assert (Hf : (slot_state q (sn mod capacity) =? sn) = false) by (apply Z.eqb_neq; congruence).
    rewrite Hv, Hf in *. rewrite Hd, Z.eqb_refl.
    eexists; split; [reflexivity|]. split; [exact HC|exact HI'].
  - assert (Hf : (slot_state q (sn mod capacity) =? sn) = true) by (by apply Z.eqb_eq).
    rewrite Hv, Hf in *. rewrite Hsz. unfold u32. rewrite (Z.mod_small (zlen _)).
    + eexists; split; [reflexivity|]. split; [exact HC|exact HI'].
    + rewrite HC in Hb. simpl in Hb.
      match type of Hb with _ + total_bytes ?l < _ => pose proof (total_bytes_nonneg l) end. lia.
Qed.

Lemma read_untagged s items q :
  sdu_pdcp_sn s = None -> q_items q = s :: items -> queue_inv q ->
  let q' := set_items (state_sub q (zlen (sdu_bytes s))) items in
  content q = s :: content q' /\ queue_inv q'.
Proof.
  intros E Hi HI q'.
  assert (HC : content q = s :: content q').
  { unfold content, q'. rewrite Hi. simpl. unfold is_valid at 1. by rewrite E. }
  split; [done|]. pose proof (total_bytes_nonneg (content q')). pose proof (qi_bytes _ HI) as Hb.
  pose proof (qi_length _ HI) as Hlen. rewrite Hi in Hlen. simpl in Hlen.
  assert (Hslots : slots_of (q_items q) = slots_of items) by (rewrite Hi, slots_of_cons, E; done).
  split; simpl.
  - pose proof (qi_sn _ HI) as Hsn. rewrite Hi in Hsn. by apply Forall_inv_tail in Hsn.
  - rewrite <- Hslots. apply (qi_nodup _ HI).
  - intros s' sn' Hs' E'. apply (qi_slot _ HI); [rewrite Hi; by right|done].
  - intros idx Hidx. rewrite <- Hslots. by apply (qi_used _ HI).
  - lia.
  - fold q'. rewrite state_change_sub; [rewrite HC; simpl; lia..|done].
  - fold q'. rewrite HC in Hb. simpl in Hb. lia.
Qed.

(** The queue of the specification. *)
Definition fifo_read (l : list rlc_sdu) : option rlc_sdu * list rlc_sdu :=
  match l with [] => (None, []) | s :: l => (Some s, l) end.

Lemma check_and_release_items q l sn :
  check_and_release (set_items q l) sn =
  ((check_and_release q sn).1, set_items (check_and_release q sn).2 l).
Proof.
  unfold check_and_release. change (slot_state (set_items q l)) with (slot_state q).
  destruct (slot_state q (sn mod capacity) =? sn); [done|].
  by destruct (slot_state q (sn mod capacity) =? STATE_DISCARDED).
Qed.

Lemma filter_pointwise {A} (p p' : A -> bool) (l : list A) x : List.filter p l = List.filter p' l -> x ∈ l -> p x = p' x.
Proof.
  intros E Hx%list_elem_of_In. destruct (p x) eqn:E1, (p' x) eqn:E2; try done; exfalso.
  - assert (Hin : In x (List.filter p' l)) by (rewrite <- E; by apply List.filter_In). apply List.filter_In in Hin as [_ ?]. congruence.
  - assert (Hin : In x (List.filter p l)) by (rewrite E; by apply List.filter_In). apply List.filter_In in Hin as [_ ?]. congruence.
Qed.

(** What has been popped of a queue: valid SDUs and discarded ones. *)
Definition popped_from (q q' : sdu_queue) : Prop :=
  exists popped, q_items q = popped ++ q_items q' /\ content q = List.filter (is_valid (q_states q)) popped ++ content q'.

(** What a read leaves in the variable of its caller: the first valid SDU, or else the last of the discarded ones. *)
Definition read_result (sdu : rlc_sdu) (q : sdu_queue) : bool * rlc_sdu :=
  match content q with
  | s :: _ => (true, s)
  | [] => (false, default sdu (last (q_items q)))
  end.

Record read_done (sdu : rlc_sdu) (q : sdu_queue) (r : bool * rlc_sdu * sdu_queue) : Prop := {
  rd_result : r.1 = read_result sdu q;
  rd_content : content r.2 = (fifo_read (content q)).2;
  rd_inv : queue_inv r.2;
  rd_popped : popped_from q r.2;
  rd_empty : content q = [] -> q_items r.2 = []
}.

Lemma read_loop_spec items : forall sdu q, queue_inv (set_items q items) -> read_done sdu (set_items q items) (read_loop items sdu q).
Proof.
  induction items as [|s items IH]; intros sdu q HI.
  { split; try done. by exists []. }
  simpl. destruct (sdu_pdcp_sn s) as [sn|] eqn:E.
  - destruct (check_and_release_spec s items (set_items q (s :: items)) sn E eq_refl HI) as (q' & Hcr & HC & HI').
    rewrite check_and_release_items in Hcr.
    assert (Hcr' : exists q1, check_and_release q sn = (is_valid (q_states q) s, q1) /\ set_items q1 items = set_items q' items).
    { destruct (check_and_release q sn) as [b q1]. simpl in Hcr. injection Hcr as -> <-. by exists q1. }
    destruct Hcr' as (q1 & -> & Hq1). cbn [q_states set_items] in HC. rewrite <- Hq1 in HC, HI'.
    destruct (is_valid (q_states q) s) eqn:Ev.
    + split; unfold read_result; rewrite ?HC; try done. exists [s]. split; [done|]. rewrite HC. simpl. by rewrite Ev.
    + destruct (IH s q1 HI') as [R1 R2 R3 (popped & P1 & P2) R5]. unfold read_result in R1.
      split; unfold read_result; rewrite ?HC; try done.
      * rewrite R1. cbn [q_items set_items]. rewrite last_cons. by destruct (content (set_items q1 items)), (last items).
      * exists (s :: popped). cbn [q_items set_items] in P1 |- *. split; [exact (f_equal (cons s) P1)|].
        rewrite HC, P2. simpl. rewrite Ev. f_equal. apply List.filter_ext_in. intros x Hx%list_elem_of_In.
        apply (filter_pointwise _ _ items); [|by apply (elem_of_prefix popped); [|eexists]].
        unfold content in HC. simpl in HC. by rewrite Ev in HC.
  - pose proof (read_untagged s items (set_items q (s :: items)) E eq_refl HI) as [HC HI'].
    split; unfold read_result; rewrite ?HC; try done. exists [s]. split; [done|]. rewrite HC. simpl. unfold is_valid at 1. by rewrite E.
Qed.

Lemma read_into_done sdu q : queue_inv q -> read_done sdu q (read_into sdu q).
Proof. intros HI. unfold read_into. pose proof (read_loop_spec (q_items q) sdu q) as H. destruct q. by apply H. Qed.

Lemma read_spec q :
  queue_inv q ->
  exists q', read q = ((fifo_read (content q)).1, q') /\ content q' = (fifo_read (content q)).2 /\ queue_inv q'.
Proof.
  intros HI. unfold read. destruct (read_into_done no_sdu q HI) as [R1 R2 R3 _ _]. destruct (read_into no_sdu q) as [[b sdu] q'].
  exists q'. simpl in *. split; [|done]. unfold read_result in R1. destruct (content q); injection R1 as -> ->; done.
Qed.

(** ** What is stored *)
Lemma write_items q sdu : q_items (write q sdu).2 = q_items q ++ (if (write q sdu).1 then [sdu] else []).
Proof.
  unfold write, try_push. destruct (byte_limit <=? _); [by rewrite app_nil_r|]. destruct (negb _); [by rewrite app_nil_r|].
  destruct (sdu_pdcp_sn sdu); cbn [q_items set_slot_state set_slot_size]; destruct (_ <? capacity); cbn [negb fst snd q_items]; by rewrite ?app_nil_r.
Qed.

Lemma try_discard_items q sn : q_items (try_discard q sn).2 = q_items q.
Proof. unfold try_discard. by destruct (_ =? sn). Qed.

(** The last SDU that is stored, if it has been discarded: what a read that fails leaves in the variable of its caller. *)
Definition discarded_tail (q : sdu_queue) : list rlc_sdu :=
  match last (q_items q) with
  | Some s => if is_valid (q_states q) s then [] else [s]
  | None => []
  end.

Lemma failed_read_result sdu q : content q = [] -> (read_result sdu q).2 = default sdu (head (discarded_tail q)) /\ (discarded_tail q = [] -> q_items q = []).
Proof.
  intros HC. unfold read_result, discarded_tail. rewrite HC. destruct (last (q_items q)) as [s|] eqn:El; [|split; [done|]; intros _; by apply last_None].
  apply last_Some_elem_of in El. replace (is_valid (q_states q) s) with false; [done|]. symmetry.
  apply (filter_pointwise (is_valid (q_states q)) (fun _ => false) (q_items q)); [|done]. change (content q = List.filter (fun _ => false) (q_items q)). rewrite HC.
  clear. by induction (q_items q).
Qed.

Lemma discarded_tail_popped q q' : popped_from q q' -> discarded_tail q' = discarded_tail q \/ q_items q' = [].
Proof.
  intros (popped & E & HC). destruct (decide (q_items q' = [])) as [|Hne]; [by right|left]. unfold discarded_tail.
  rewrite E, last_app. destruct (last (q_items q')) as [s|] eqn:El; [|by apply last_None in El].
  replace (is_valid (q_states q) s) with (is_valid (q_states q') s); [done|].
  apply (filter_pointwise _ _ (q_items q')); [|by apply last_Some_elem_of].
  unfold content in HC. rewrite E, List.filter_app in HC. by apply app_inv_head in HC.
Qed.

(** A read, as its callers use it. *)
Lemma read_into_spec sdu q :
  queue_inv q ->
  exists q', queue_inv q' /\ popped_from q q' /\
    match content q with
    | s :: l => read_into sdu q = (true, s, q') /\ content q' = l
    | [] => read_into sdu q = (false, default sdu (head (discarded_tail q)), q') /\ content q' = [] /\ q_items q' = []
    end.
Proof.
  intros HI. destruct (read_into_done sdu q HI) as [R1 R2 R3 R4 R5]. pose proof (failed_read_result sdu q) as Hf.
  destruct (read_into sdu q) as [r q']. exists q'. split; [done|]. split; [done|]. simpl in *. subst r. unfold read_result in *.
  destruct (content q) as [|s l]; [|done]. destruct Hf as [Hf _]; [done|]. simpl in Hf. rewrite Hf. auto.
Qed.

(** As long as nothing is discarded. *)
Lemma content_undiscarded q : length (content q) = length (q_items q) -> content q = q_items q /\ discarded_tail q = [].
Proof.
  unfold content, discarded_tail. generalize (q_items q) as l. intros l Hl.
  assert (Hv : forall s, s ∈ l -> is_valid (q_states q) s = true).
  { induction l as [|x l IH]; [by intros s ?%elem_of_nil|]. simpl in Hl. pose proof (List.filter_length_le (is_valid (q_states q)) l).
    destruct (is_valid (q_states q) x) eqn:Ex; simpl in Hl; [|lia]. intros s [->|Hs]%elem_of_cons; [done|]. apply IH; [lia|done]. }
  split.
  - rewrite (List.filter_ext_in _ (fun _ => true)); [apply List.filter_true|]. intros s Hs%list_elem_of_In. by apply Hv.
  - destruct (last l) as [s|] eqn:El; [|done]. by rewrite Hv by (by apply last_Some_elem_of).
Qed.

Lemma popped_undiscarded q q' : popped_from q q' -> length (content q) = length (q_items q) -> length (content q') = length (q_items q').
Proof.
  intros (popped & E & HC) Hl. rewrite E, HC, !length_app in Hl. pose proof (List.filter_length_le (is_valid (q_states q)) popped).
  pose proof (List.filter_length_le (is_valid (q_states q')) (q_items q')). fold (content q') in *. lia.
Qed.

(** ** Refinement of the FIFO *)
Inductive queue_op := op_write (sdu : rlc_sdu) | op_discard (pdcp_sn : Z) | op_read.
Inductive queue_result := res_written (b : bool) | res_discarded (b : bool) | res_read (s : option rlc_sdu).

Definition queue_step (q : sdu_queue) (o : queue_op) : queue_result * sdu_queue :=
  match o with
  | op_write sdu => let '(b, q) := write q sdu in (res_written b, q)
  | op_discard sn => let '(b, q) := try_discard q sn in (res_discarded b, q)
  | op_read => let '(s, q) := read q in (res_read s, q)
  end.

Fixpoint queue_run (q : sdu_queue) (l : list queue_op) : list queue_result * sdu_queue :=
  match l with
  | [] => ([], q)
  | o :: l => let '(r, q) := queue_step q o in let '(rs, q) := queue_run q l in (r :: rs, q)
  end.

(** PDCP SNs are below the sentinel values of the slots. *)
Definition op_ok (o : queue_op) : Prop :=
  match o with
  | op_write sdu => sn_ok sdu
  | op_discard sn => 0 <= sn < STATE_DISCARDED
  | op_read => True
  end.

(** What an operation does to the FIFO of the user's SDUs, given its result. *)
Definition fifo_step (l : list rlc_sdu) (o : queue_op) (r : queue_result) (l' : list rlc_sdu) : Prop :=
  match o, r with
  | op_write sdu, res_written b => l' = if b then l ++ [sdu] else l
  | op_discard sn, res_discarded b =>
      b = existsb (holds_sn sn) l /\ l' = List.filter (fun s => negb (holds_sn sn s)) l
  | op_read, res_read s => (s, l') = fifo_read l
  | _, _ => False
  end.

Inductive fifo_trace : list rlc_sdu -> list queue_op -> list queue_result -> list rlc_sdu -> Prop :=
| fifo_trace_nil l : fifo_trace l [] [] l
| fifo_trace_cons l o r l1 os rs l2 :
    fifo_step l o r l1 -> fifo_trace l1 os rs l2 -> fifo_trace l (o :: os) (r :: rs) l2.

Lemma queue_step_refines q o :
  op_ok o -> queue_inv q ->
  fifo_step (content q) o (queue_step q o).1 (content (queue_step q o).2) /\ queue_inv (queue_step q o).2.
Proof.
  intros Ho HI. destruct o as [sdu|sn|]; simpl in *.
  - destruct (write_ok q sdu) eqn:Hw.
    + rewrite (write_accepted _ _ Hw). split; [|by apply pushed_inv].
      apply pushed_content; [|done]. unfold write_ok in Hw. by apply andb_prop in Hw as [[_ ?]%andb_prop _].
    + by destruct (write_refused _ _ Hw HI) as (q' & -> & HC & HI').
  - by destruct (try_discard_spec q sn Ho HI) as (q' & -> & HC & HI').
  - destruct (read_spec q HI) as (q' & -> & HC & HI'). simpl. split; [|done].
    rewrite HC. symmetry. apply surjective_pairing.
Qed.

Lemma queue_run_refines os : forall q,
  Forall op_ok os -> queue_inv q ->
  fifo_trace (content q) os (queue_run q os).1 (content (queue_run q os).2) /\ queue_inv (queue_run q os).2.
Proof.
  induction os as [|o os IH]; intros q Hos HI; [split; [constructor|done]|].
  inversion_clear Hos as [|? ? Ho Hos']. simpl.
  destruct (queue_step_refines q o Ho HI) as [Hs HI']. destruct (queue_step q o) as [r q1]. simpl in *.
  destruct (IH q1 Hos' HI') as [Ht HI2]. destruct (queue_run q1 os) as [rs q2]. simpl in *.
  split; [|done]. by econstructor.
Qed.
End sdu_queue.

(** ** Properties *)

(** C40: on any sequence of writes, discards and reads, the lock-free queue answers
    as the FIFO of the SDUs written, not discarded and not yet read: reads return them in the
    order of writing, a discard succeeds exactly when the SDU is still there, and the packed
    counters are the number of these SDUs and of their bytes. *)
Theorem sdu_queue_refines_fifo capacity byte_limit os rs q :
  0 < capacity < 2 ^ 16 -> 0 <= byte_limit < 2 ^ 32 -> Forall op_ok os ->
  queue_run capacity byte_limit queue_init os = (rs, q) ->
  fifo_trace [] os rs (content capacity q) /\
  n_sdus q = zlen (content capacity q) /\ n_bytes q = total_bytes (content capacity q).
Proof.
  intros Hcap Hlim Hos Hrun.
  destruct (queue_run_refines capacity byte_limit Hcap Hlim os queue_init Hos) as [Ht HI].
  { by apply queue_init_inv. }
  rewrite Hrun in Ht, HI. split; [exact Ht|]. by apply (queue_counters capacity byte_limit).
Qed.

Definition queue_example : list queue_op :=
  [op_write (mk_sdu [1; 2] false (Some 3)); op_write (mk_sdu [4] false (Some 4)); op_write (mk_sdu [9] false (Some 11));
   op_discard 3; op_read; op_discard 4].

Lemma sdu_queue_refines_fifo_witness :
  fifo_trace [] queue_example (queue_run 8 100 queue_init queue_example).1
    (content 8 (queue_run 8 100 queue_init queue_example).2) /\
  (queue_run 8 100 queue_init queue_example).1 =
    [res_written true; res_written true; res_written false; res_discarded true;
     res_read (Some (mk_sdu [4] false (Some 4))); res_discarded false].
Proof.
  split; [|vm_compute; reflexivity].
  refine (proj1 (sdu_queue_refines_fifo 8 100 queue_example _ _ _ _ _ _)); [lia|lia| |apply surjective_pairing].
  repeat constructor; unfold STATE_DISCARDED; simpl; lia.
Defined.

(** A write is refused exactly when the byte limit would be reached, an SDU with the same
    PDCP SN modulo the capacity (discarded or not) is still stored, or the queue is full. *)
Theorem write_refused_iff capacity byte_limit os sdu :
  0 < capacity < 2 ^ 16 -> 0 <= byte_limit < 2 ^ 32 -> Forall op_ok os ->
  let q := (queue_run capacity byte_limit queue_init os).2 in
  (write capacity byte_limit q sdu).1 = false <->
  byte_limit <= zlen (sdu_bytes sdu) + total_bytes (content capacity q) \/
  (exists sn, sdu_pdcp_sn sdu = Some sn /\ sn mod capacity ∈ slots_of capacity (q_items q)) \/
  capacity <= zlen (q_items q).
Proof.
  intros Hcap Hlim Hos q.
  destruct (queue_run_refines capacity byte_limit Hcap Hlim os queue_init Hos) as [_ HI].
  { by apply queue_init_inv. }
  fold q in HI. destruct (queue_counters capacity byte_limit Hcap Hlim q HI) as [_ Hb].
  assert (Hslot : slot_free capacity q sdu = true <->
    ~ (exists sn, sdu_pdcp_sn sdu = Some sn /\ sn mod capacity ∈ slots_of capacity (q_items q))).
  { unfold slot_free. destruct (sdu_pdcp_sn sdu) as [sn|]; [|split; [intros _ (? & ? & _)|]; done].
    rewrite Z.eqb_eq. split.
    - intros Hf (sn' & [= <-] & Hin). eapply free_slot_unused; eauto.
    - intros Hn. destruct (decide (slot_state q (sn mod capacity) = STATE_FREE)) as [|Hne]; [done|].
      exfalso. apply Hn. exists sn. split; [done|]. by apply (qi_used _ _ HI). }
  transitivity (write_ok capacity byte_limit q sdu = false).
  - destruct (write_ok capacity byte_limit q sdu) eqn:Hw.
    + by rewrite (write_accepted capacity byte_limit q sdu Hw).
    + by destruct (write_refused capacity byte_limit q sdu Hw HI) as (q' & -> & _).
  - assert (Hdec : Decision (exists sn, sdu_pdcp_sn sdu = Some sn /\ sn mod capacity ∈ slots_of capacity (q_items q))).
    { destruct (sdu_pdcp_sn sdu) as [sn|]; [|right; by intros (? & ? & _)].
      destruct (decide (sn mod capacity ∈ slots_of capacity (q_items q))); [left; eauto|right].
      by intros (? & [= <-] & ?). }
    unfold write_ok. rewrite <- Hb, !andb_false_iff, !Z.ltb_ge, <- not_true_iff_false, Hslot.
    destruct Hdec; tauto.
Qed.

Lemma write_refused_iff_witness :
  (write 8 100 (queue_run 8 100 queue_init [op_write (mk_sdu [1] false (Some 3)); op_discard 3]).2
     (mk_sdu [7] false (Some 11))).1 = false.
Proof.
  refine (proj2 (write_refused_iff 8 100 [op_write (mk_sdu [1] false (Some 3)); op_discard 3] (mk_sdu [7] false (Some 11)) _ _ _) _);
    [lia|lia|repeat constructor; unfold STATE_DISCARDED; simpl; lia|].
  right. left. exists 11. split; [done|]. vm_compute. constructor.
Defined.
