(* ===== verification/RlcRetxQueue.v ===== *)
(** * The retransmission queue of the transmitting AM entity

    [rlc_retx_queue] of [lib/rlc/rlc_retx_queue.h]: a ring buffer of retransmissions, some of
    which are marked as removed ("zombies"), with the counters from which the buffer state is
    computed. The ring buffer is the list of its elements from the front on.

    The specification is the list of the valid retransmissions. *)

From S2P Require Import Prelude.

(** [rlc_tx_amd_retx] *)
Record rlc_tx_amd_retx := mk_retx { r_sn : Z; r_so : Z; r_length : Z }.

Definition includes (r : rlc_tx_amd_retx) (segment_offset segment_length : Z) : bool :=
  (r_so r <=? segment_offset) && (u32 (segment_offset + segment_length) <=? u32 (r_so r + r_length r)).

Record rlc_retx_queue_state := mk_retx_state {
  retx_bytes : Z;
  n_retx_so_zero : Z;
  n_retx_so_nonzero : Z
}.

Definition retx_state_init : rlc_retx_queue_state := mk_retx_state 0 0 0.

Definition retx_add (st : rlc_retx_queue_state) (elem : rlc_tx_amd_retx) : rlc_retx_queue_state :=
  mk_retx_state (u32 (retx_bytes st + r_length elem))
    (if r_so elem =? 0 then u32 (n_retx_so_zero st + 1) else n_retx_so_zero st)
    (if r_so elem =? 0 then n_retx_so_nonzero st else u32 (n_retx_so_nonzero st + 1)).

Definition retx_subtract (st : rlc_retx_queue_state) (elem : rlc_tx_amd_retx) : rlc_retx_queue_state :=
  mk_retx_state (if r_length elem <=? retx_bytes st then retx_bytes st - r_length elem else 0)
    (if r_so elem =? 0 then
       if 0 <? n_retx_so_zero st then n_retx_so_zero st - 1 else n_retx_so_zero st
     else n_retx_so_zero st)
    (if r_so elem =? 0 then n_retx_so_nonzero st
     else if 0 <? n_retx_so_nonzero st then n_retx_so_nonzero st - 1 else n_retx_so_nonzero st).

(** [rlc_retx_queue_item] *)
Record rlc_retx_queue_item := mk_item { invalid : bool; item_retx : rlc_tx_amd_retx }.

Record rlc_retx_queue := mk_retx_queue {
  rq_items : list rlc_retx_queue_item;
  rq_st : rlc_retx_queue_state
}.

Definition retx_queue_init : rlc_retx_queue := mk_retx_queue [] retx_state_init.

Section rlc_retx_queue.
Context (capacity : Z).

Definition retx_try_push (q : rlc_retx_queue) (retx : rlc_tx_amd_retx) : bool * rlc_retx_queue :=
  if zlen (rq_items q) <? capacity then
    (true, mk_retx_queue (rq_items q ++ [mk_item false retx]) (retx_add (rq_st q) retx))
  else (false, q).

(** [clean_invalid_front] on the content of the ring buffer. *)
Fixpoint clean_invalid_front (items : list rlc_retx_queue_item) : list rlc_retx_queue_item :=
  match items with
  | [] => []
  | top :: rest => if invalid top then clean_invalid_front rest else items
  end.

Definition retx_pop (q : rlc_retx_queue) : rlc_retx_queue :=
  match rq_items q with
  | [] => q
  | top :: rest => mk_retx_queue (clean_invalid_front rest) (retx_subtract (rq_st q) (item_retx top))
  end.

Definition retx_front (q : rlc_retx_queue) : outcome rlc_tx_amd_retx :=
  match rq_items q with
  | [] => fail assertion
  | top :: _ => if invalid top then fail assertion else ok (item_retx top)
  end.

Definition replace_front (q : rlc_retx_queue) (retx : rlc_tx_amd_retx) : outcome rlc_retx_queue :=
  match rq_items q with
  | [] => fail assertion
  | top :: rest =>
      if invalid top then fail assertion
      else ok (mk_retx_queue (mk_item false retx :: rest)
                 (retx_add (retx_subtract (rq_st q) (item_retx top)) retx))
  end.

Definition retx_clear (q : rlc_retx_queue) : rlc_retx_queue := mk_retx_queue [] retx_state_init.

Definition retx_size (q : rlc_retx_queue) : Z := zlen (rq_items q).
Definition retx_empty (q : rlc_retx_queue) : bool := bool_decide (rq_items q = []).

Definition retx_has_sn (q : rlc_retx_queue) (sn : Z) : bool :=
  existsb (fun elem => negb (invalid elem) && (r_sn (item_retx elem) =? sn)) (rq_items q).

Definition retx_has_segment (q : rlc_retx_queue) (sn so length : Z) : bool :=
  existsb (fun elem => negb (invalid elem) && (r_sn (item_retx elem) =? sn)
                       && includes (item_retx elem) so length) (rq_items q).

(** The loop of [remove_sn]; an element marked as invalid is passed in the next iteration. *)
Fixpoint remove_sn_loop (sn : Z) (items : list rlc_retx_queue_item) (st : rlc_retx_queue_state)
    : bool * list rlc_retx_queue_item * rlc_retx_queue_state :=
  match items with
  | [] => (false, [], st)
  | elem :: rest =>
      if negb (invalid elem) && (r_sn (item_retx elem) =? sn) then
        let '(_, rest, st) := remove_sn_loop sn rest (retx_subtract st (item_retx elem)) in
        (true, mk_item true (item_retx elem) :: rest, st)
      else
        let '(b, rest, st) := remove_sn_loop sn rest st in (b, elem :: rest, st)
  end.

Definition retx_remove_sn (q : rlc_retx_queue) (sn : Z) : bool * rlc_retx_queue :=
  match rq_items q with
  | [] => (false, q)
  | _ =>
      let '(result, items, st) := remove_sn_loop sn (rq_items q) (rq_st q) in
      (result, mk_retx_queue (clean_invalid_front items) st)
  end.

(** ** Specification *)

(** The retransmissions in the queue. *)
Definition valid_retx (items : list rlc_retx_queue_item) : list rlc_tx_amd_retx :=
  item_retx <$> List.filter (fun it => negb (invalid it)) items.
Definition retx_content (q : rlc_retx_queue) : list rlc_tx_amd_retx := valid_retx (rq_items q).

Definition sum_length (l : list rlc_tx_amd_retx) : Z := foldr (fun r acc => r_length r + acc) 0 l.
Definition count_so_zero (l : list rlc_tx_amd_retx) : Z :=
  foldr (fun r acc => (if r_so r =? 0 then 1 else 0) + acc) 0 l.

Record counts (l : list rlc_tx_amd_retx) (st : rlc_retx_queue_state) : Prop := {
  cnt_bytes : retx_bytes st = sum_length l;
  cnt_zero : n_retx_so_zero st = count_so_zero l;
  cnt_nonzero : n_retx_so_nonzero st = zlen l - count_so_zero l;
  cnt_length : Forall (fun r => 0 <= r_length r) l;
  cnt_bound : sum_length l < 2 ^ 32 /\ zlen l < 2 ^ 32
}.

Record retx_inv (q : rlc_retx_queue) : Prop := {
  ri_front : clean_invalid_front (rq_items q) = rq_items q;
  ri_capacity : zlen (rq_items q) <= capacity;
  ri_counts : counts (retx_content q) (rq_st q)
}.

(** ** Lemmas *)
Lemma count_so_zero_cons r l : count_so_zero (r :: l) = (if r_so r =? 0 then 1 else 0) + count_so_zero l.
Proof. done. Qed.

Lemma count_so_zero_bound l : 0 <= count_so_zero l <= zlen l.
Proof.
  induction l as [|r l IH]; [done|]. rewrite count_so_zero_cons, length_cons. destruct (r_so r =? 0); lia.
Qed.

Lemma sum_length_nonneg l : Forall (fun r => 0 <= r_length r) l -> 0 <= sum_length l.
Proof. induction 1; simpl; lia. Qed.

Lemma sum_length_app l1 l2 : sum_length (l1 ++ l2) = sum_length l1 + sum_length l2.
Proof. induction l1 as [|r l IH]; simpl in *; lia. Qed.

Lemma count_so_zero_app l1 l2 : count_so_zero (l1 ++ l2) = count_so_zero l1 + count_so_zero l2.
Proof. induction l1 as [|r l IH]; [done|]. cbn [app]. rewrite !count_so_zero_cons. lia. Qed.

Lemma counts_add l1 l2 r st :
  counts (l1 ++ l2) st -> 0 <= r_length r -> sum_length (l1 ++ l2) + r_length r < 2 ^ 32 ->
  zlen (l1 ++ l2) + 1 < 2 ^ 32 -> counts (l1 ++ r :: l2) (retx_add st r).
Proof.
  intros [H1 H2 H3 H4 [H5 H6]] Hr Hs Hl. pose proof (sum_length_nonneg _ H4).
  pose proof (count_so_zero_bound (l1 ++ l2)).
  assert (Esum : sum_length (l1 ++ r :: l2) = sum_length (l1 ++ l2) + r_length r)
    by (rewrite !sum_length_app; simpl; lia).
  assert (Ecnt : count_so_zero (l1 ++ r :: l2) = count_so_zero (l1 ++ l2) + if r_so r =? 0 then 1 else 0)
    by (rewrite !count_so_zero_app, count_so_zero_cons; lia).
  assert (Elen : zlen (l1 ++ r :: l2) = zlen (l1 ++ l2) + 1) by (rewrite !length_app; simpl; lia).
  unfold retx_add, u32.
  split; cbn [retx_bytes n_retx_so_zero n_retx_so_nonzero]; rewrite ?Esum, ?Ecnt, ?Elen.
  - rewrite H1, Z.mod_small by lia. done.
  - destruct (r_so r =? 0); [rewrite H2, Z.mod_small by lia; done|lia].
  - destruct (r_so r =? 0); [lia|rewrite H3, Z.mod_small by lia; lia].
  - apply Forall_app in H4 as [? ?]. apply Forall_app. split; [done|by constructor].
  - lia.
Qed.

Lemma counts_subtract l1 l2 r st : counts (l1 ++ r :: l2) st -> counts (l1 ++ l2) (retx_subtract st r).
Proof.
  intros [H1 H2 H3 H4 [H5 H6]]. apply Forall_app in H4 as [F1 [Hr F2]%Forall_cons].
  pose proof (sum_length_nonneg _ F1). pose proof (sum_length_nonneg _ F2).
  pose proof (count_so_zero_bound (l1 ++ l2)).
  assert (Esum : sum_length (l1 ++ r :: l2) = sum_length (l1 ++ l2) + r_length r)
    by (rewrite !sum_length_app; simpl; lia).
  assert (Ecnt : count_so_zero (l1 ++ r :: l2) = count_so_zero (l1 ++ l2) + if r_so r =? 0 then 1 else 0)
    by (rewrite !count_so_zero_app, count_so_zero_cons; lia).
  assert (Elen : zlen (l1 ++ r :: l2) = zlen (l1 ++ l2) + 1) by (rewrite !length_app; simpl; lia).
  rewrite Esum, Elen in *. rewrite Ecnt in *. rewrite sum_length_app in *. unfold retx_subtract.
  split; cbn [retx_bytes n_retx_so_zero n_retx_so_nonzero]; rewrite ?sum_length_app; [| | |by apply Forall_app|lia].
  - ztrue. lia.
  - destruct (r_so r =? 0); zcases; lia.
  - destruct (r_so r =? 0); zcases; lia.
Qed.

Lemma valid_retx_app l1 l2 : valid_retx (l1 ++ l2) = valid_retx l1 ++ valid_retx l2.
Proof. unfold valid_retx. by rewrite List.filter_app, fmap_app. Qed.

Lemma valid_retx_clean items : valid_retx (clean_invalid_front items) = valid_retx items.
Proof.
  induction items as [|it items IH]; [done|]. simpl. unfold valid_retx in *. simpl.
  destruct (invalid it) eqn:E; simpl; [done|]. by rewrite E.
Qed.

Lemma clean_idemp items : clean_invalid_front (clean_invalid_front items) = clean_invalid_front items.
Proof. induction items as [|it items IH]; [done|]. simpl. destruct (invalid it) eqn:E; [done|]. simpl. by rewrite E. Qed.

Lemma clean_length items : (length (clean_invalid_front items) <= length items)%nat.
Proof. induction items as [|it items IH]; [done|]. simpl. destruct (invalid it); simpl; lia. Qed.

(** The front of the ring buffer is the front of the content. *)
Lemma retx_front_content q :
  retx_inv q -> rq_items q = [] /\ retx_content q = [] \/
  exists r rest, rq_items q = mk_item false r :: rest /\ retx_content q = r :: valid_retx rest.
Proof.
  intros [Hf _ _]. unfold retx_content. destruct (rq_items q) as [|[inv r] rest]; [by left|right].
  simpl in Hf. destruct inv.
  - apply (f_equal length) in Hf. pose proof (clean_length rest). simpl in Hf. lia.
  - eauto.
Qed.

Context (Hcap : 0 <= capacity < 2 ^ 32).

Lemma valid_retx_length items : (length (valid_retx items) <= length items)%nat.
Proof. unfold valid_retx. rewrite length_fmap. apply List.filter_length_le. Qed.

Lemma retx_init_inv : retx_inv retx_queue_init.
Proof. split; [done|simpl; lia|]. split; try done; by constructor. Qed.

Lemma retx_try_push_ok q r :
  retx_inv q -> 0 <= r_length r -> sum_length (retx_content q) + r_length r < 2 ^ 32 ->
  exists q', retx_try_push q r = (zlen (rq_items q) <? capacity, q') /\ retx_inv q' /\
    retx_content q' = if zlen (rq_items q) <? capacity then retx_content q ++ [r] else retx_content q.
Proof.
  intros HI Hr Hs. unfold retx_try_push. destruct (Z.ltb_spec (zlen (rq_items q)) capacity); [|eauto].
  eexists. split; [reflexivity|]. pose proof HI as [Hf Hl Hc].
  pose proof (valid_retx_length (rq_items q)) as Hv. unfold retx_content in *. cbn [rq_items rq_st].
  rewrite valid_retx_app. split; [|done]. split; cbn [rq_items rq_st].
  - destruct (retx_front_content q HI) as [[-> _]|(r0 & rest & -> & _)]; done.
  - rewrite length_app. simpl. lia.
  - unfold retx_content; cbn [rq_items]. rewrite valid_retx_app.
    apply (counts_add _ []); rewrite ?app_nil_r; [done|lia|lia|lia].
Qed.

Lemma retx_pop_ok q : retx_inv q -> retx_inv (retx_pop q) /\ retx_content (retx_pop q) = tail (retx_content q).
Proof.
  intros HI. pose proof HI as [Hf Hl Hc]. unfold retx_pop, retx_content.
  destruct (retx_front_content q HI) as [[E1 E2]|(r & rest & E1 & E2)].
  - rewrite E1. simpl. by rewrite E1.
  - rewrite E1 in *. rewrite E2 in Hc. cbn [rq_items rq_st item_retx]. rewrite valid_retx_clean.
    split; [|done]. split; cbn [rq_items rq_st].
    + apply clean_idemp.
    + pose proof (clean_length rest). simpl in Hl. lia.
    + unfold retx_content; cbn [rq_items]. rewrite valid_retx_clean. by apply (counts_subtract []).
Qed.

Lemma retx_front_ok q r l : retx_inv q -> retx_content q = r :: l -> retx_front q = ok r.
Proof.
  intros HI E. unfold retx_front.
  destruct (retx_front_content q HI) as [[E1 E2]|(r' & rest & E1 & E2)]; [congruence|].
  rewrite E1. simpl. congruence.
Qed.

Lemma retx_front_none q : retx_inv q -> retx_content q = [] -> retx_front q = fail assertion.
Proof.
  intros HI E. unfold retx_front.
  destruct (retx_front_content q HI) as [[E1 E2]|(r' & rest & E1 & E2)]; [by rewrite E1|congruence].
Qed.

Lemma replace_front_ok q r l r' :
  retx_inv q -> retx_content q = r :: l -> 0 <= r_length r' <= r_length r ->
  exists q', replace_front q r' = ok q' /\ retx_inv q' /\ retx_content q' = r' :: l.
Proof.
  intros HI E Hr. pose proof HI as [Hf Hl Hc]. unfold replace_front.
  destruct (retx_front_content q HI) as [[E1 E2]|(r1 & rest & E1 & E2)]; [congruence|].
  rewrite E1 in *. cbn [invalid item_retx]. rewrite E in E2. injection E2 as <- ->.
  eexists. split; [reflexivity|]. split; [|done]. rewrite E in Hc.
  pose proof (counts_subtract [] _ _ _ Hc) as Hc'. destruct Hc as [_ _ _ _ [B1 B2]]. simpl in B1.
  split; cbn [rq_items rq_st]; [done|simpl in *; lia|].
  unfold retx_content; cbn [rq_items]. change (valid_retx (mk_item false r' :: rest)) with ([] ++ r' :: valid_retx rest).
  apply (counts_add []); cbn [app]; [done|lia|lia|]. rewrite length_cons in B2. lia.
Qed.

Lemma retx_empty_content q : retx_inv q -> retx_empty q = bool_decide (retx_content q = []).
Proof.
  intros HI. unfold retx_empty. destruct (retx_front_content q HI) as [[-> ->]|(r & rest & -> & ->)]; done.
Qed.

Lemma remove_sn_loop_ok sn items : forall pre st,
  counts (pre ++ valid_retx items) st ->
  let '(b, items', st') := remove_sn_loop sn items st in
  b = existsb (fun r => r_sn r =? sn) (valid_retx items) /\
  valid_retx items' = List.filter (fun r => negb (r_sn r =? sn)) (valid_retx items) /\
  length items' = length items /\ counts (pre ++ valid_retx items') st'.
Proof.
  induction items as [|[inv r] items IH]; intros pre st Hc; [done|]. simpl in *.
  destruct inv; simpl in *.
  - specialize (IH pre st Hc). destruct (remove_sn_loop sn items st) as [[b items'] st'].
    destruct IH as (H1 & H2 & H3 & H4). split_and!; [exact H1|exact H2|simpl; by rewrite H3|exact H4].
  - change (valid_retx (mk_item false r :: items)) with (r :: valid_retx items) in *.
    cbn [existsb List.filter]. destruct (r_sn r =? sn) eqn:E; simpl.
    + specialize (IH pre _ (counts_subtract _ _ _ _ Hc)).
      destruct (remove_sn_loop sn items _) as [[b items'] st']. destruct IH as (H1 & H2 & H3 & H4).
      split_and!; [done|exact H2|simpl; f_equal; exact H3|exact H4].
    + rewrite cons_middle, app_assoc in Hc. specialize (IH _ st Hc).
      destruct (remove_sn_loop sn items st) as [[b items'] st']. destruct IH as (H1 & H2 & H3 & H4).
      change (valid_retx (mk_item false r :: items')) with (r :: valid_retx items').
      split_and!; [exact H1|f_equal; exact H2|simpl; f_equal; exact H3|]. by rewrite cons_middle, app_assoc.
Qed.

Lemma retx_remove_sn_ok q sn :
  retx_inv q ->
  exists q', retx_remove_sn q sn = (existsb (fun r => r_sn r =? sn) (retx_content q), q') /\ retx_inv q' /\
    retx_content q' = List.filter (fun r => negb (r_sn r =? sn)) (retx_content q).
Proof.
  intros HI. pose proof HI as [Hf Hl Hc]. unfold retx_remove_sn, retx_content.
  pose proof (remove_sn_loop_ok sn (rq_items q) [] (rq_st q) Hc) as H.
  destruct (rq_items q) as [|it items] eqn:E; [exists q; rewrite E; done|].
  destruct (remove_sn_loop sn (it :: items) (rq_st q)) as [[b items'] st'].
  destruct H as (-> & H2 & H3 & H4). eexists. split; [reflexivity|]. cbn [rq_items].
  rewrite valid_retx_clean. split; [|done]. split; cbn [rq_items rq_st].
  - apply clean_idemp.
  - pose proof (clean_length items'). lia.
  - unfold retx_content; cbn [rq_items]. by rewrite valid_retx_clean.
Qed.

Lemma existsb_filter_fmap (p : rlc_tx_amd_retx -> bool) items :
  existsb (fun elem => negb (invalid elem) && p (item_retx elem)) items = existsb p (valid_retx items).
Proof.
  induction items as [|[inv r] items IH]; [done|]. simpl. rewrite IH. by destruct inv.
Qed.

Lemma retx_has_sn_content q sn : retx_has_sn q sn = existsb (fun r => r_sn r =? sn) (retx_content q).
Proof. apply (existsb_filter_fmap (fun r => r_sn r =? sn)). Qed.

Lemma retx_has_segment_content q sn so n :
  retx_has_segment q sn so n = existsb (fun r => (r_sn r =? sn) && includes r so n) (retx_content q).
Proof.
  unfold retx_has_segment, retx_content. rewrite <- existsb_filter_fmap.
  induction (rq_items q) as [|it items IH]; [done|]. simpl. by rewrite IH, andb_assoc.
Qed.
End rlc_retx_queue.

(** The retransmission queue behaves as the list of its valid elements, and its counters
    are exact: whatever elements were marked as removed in between, the front is valid, pushing,
    popping, replacing and removing do to the list what they say, and the bytes and the numbers of
    small and large headers from which the buffer state is computed are those of the list. *)
Theorem retx_queue_refines_list capacity q r sn :
  0 <= capacity < 2 ^ 32 -> retx_inv capacity q -> 0 <= r_length r ->
  sum_length (retx_content q) + r_length r < 2 ^ 32 ->
  let l := retx_content q in
  (exists q', retx_try_push capacity q r = (zlen (rq_items q) <? capacity, q') /\ retx_inv capacity q' /\
     retx_content q' = if zlen (rq_items q) <? capacity then l ++ [r] else l) /\
  (retx_inv capacity (retx_pop q) /\ retx_content (retx_pop q) = tail l) /\
  (exists q', retx_remove_sn q sn = (existsb (fun x => r_sn x =? sn) l, q') /\ retx_inv capacity q' /\
     retx_content q' = List.filter (fun x => negb (r_sn x =? sn)) l) /\
  retx_front q = match l with [] => fail assertion | x :: _ => ok x end /\
  (forall x rest, l = x :: rest -> r_length r <= r_length x ->
     exists q', replace_front q r = ok q' /\ retx_inv capacity q' /\ retx_content q' = r :: rest) /\
  retx_empty q = bool_decide (l = []) /\ retx_has_sn q sn = existsb (fun x => r_sn x =? sn) l /\
  retx_bytes (rq_st q) = sum_length l /\ n_retx_so_zero (rq_st q) = count_so_zero l /\
  n_retx_so_nonzero (rq_st q) = zlen l - count_so_zero l.
Proof.
  intros Hcap HI Hr Hs l. split; [by apply retx_try_push_ok|]. split; [by apply retx_pop_ok|].
  split; [by apply retx_remove_sn_ok|]. split.
  { unfold l. destruct (retx_content q) as [|x rest] eqn:E; [by eapply retx_front_none|by eapply retx_front_ok]. }
  split; [intros x rest E Hx; by eapply replace_front_ok|].
  split; [by eapply retx_empty_content|]. split; [apply retx_has_sn_content|].
  destruct (ri_counts _ _ HI). by split_and!.
Qed.

Definition retx_example : rlc_retx_queue :=
  (retx_remove_sn (retx_try_push 4 (retx_try_push 4 (retx_try_push 4 retx_queue_init
     (mk_retx 1 0 10)).2 (mk_retx 2 5 7)).2 (mk_retx 3 0 4)).2 2).2.

Lemma retx_example_inv : retx_inv 4 retx_example.
Proof.
  split; [done|simpl; lia|]. split; vm_compute; try done; repeat constructor; done.
Qed.

Lemma retx_queue_refines_list_witness :
  retx_content (retx_pop retx_example) = [mk_retx 3 0 4] /\ retx_bytes (rq_st retx_example) = 14.
Proof.
  destruct (retx_queue_refines_list 4 retx_example (mk_retx 1 0 1) 3) as (_ & [_ H1] & _ & _ & _ & _ & _ & H2 & _);
    [lia|apply retx_example_inv|simpl; lia|vm_compute; done|].
  split; [exact H1|exact H2].
Defined.
