(* ===== verification/RlcTxAm.v ===== *)
(** * The transmitting RLC AM entity

    [rlc_tx_am_entity] of [lib/rlc/rlc_tx_am_entity.{h,cpp}]: the SDU queue, segmentation, the
    transmit window, retransmissions, polling, the handling of status reports, and the buffer
    state. An event of the entity is one function from its state to its state; what it does to the
    upper layers, the lower layer, the executors and the status handler are the events of [tx_out],
    in order. Log output, PCAP and metrics are left out.

    The receiving entity is used through the interface [StatusProvider]. *)

From S2P Require Import Prelude SduWindow PdcpSnUtil RlcAmPdu RlcSduQueue RlcRetxQueue.

(** ** Data *)

(** [rlc_tx_am_sdu_info], without the time of arrival. *)
Record tx_sdu_info := mk_tx_sdu_info {
  info_sdu : bytes;
  info_is_retx : bool;
  info_pdcp_sn : option Z;
  next_so : Z;
  retx_count : Z
}.

Definition tx_sdu_info_init : tx_sdu_info := mk_tx_sdu_info [] false None 0 RETX_COUNT_NOT_STARTED.

Definition set_next_so (i : tx_sdu_info) (n : Z) : tx_sdu_info :=
  mk_tx_sdu_info (info_sdu i) (info_is_retx i) (info_pdcp_sn i) n (retx_count i).
Definition set_retx_count (i : tx_sdu_info) (n : Z) : tx_sdu_info :=
  mk_tx_sdu_info (info_sdu i) (info_is_retx i) (info_pdcp_sn i) (next_so i) n.

Record rlc_tx_am_state := mk_tx_state {
  tx_next_ack : Z;
  tx_next : Z;
  poll_sn : Z;
  pdu_without_poll : Z;
  byte_without_poll : Z
}.

Definition tx_state_init : rlc_tx_am_state := mk_tx_state 0 0 0 0 0.

Record rlc_tx_am_config := mk_tx_config {
  tx_sn_field_length : rlc_am_sn_size;
  pdcp_sn_len : pdcp_sn_size;
  t_poll_retx : Z;
  max_retx_thresh : Z;
  poll_pdu : Z;
  poll_byte : Z;
  queue_size : Z;
  queue_size_bytes : Z;
  max_window : Z
}.

(** [rlc_pdu_recycler]: the bins behind its three pointers. *)
Record rlc_pdu_recycler := mk_recycler {
  to_fill : list bytes;
  to_swap : list bytes;
  to_dump : list bytes
}.

(** What the entity does to its environment. *)
Inductive tx_event :=
| ev_transmitted_sdu (pdcp_sn desired_buf_size : Z)  (* upper_dn.on_transmitted_sdu *)
| ev_retransmitted_sdu (pdcp_sn : Z)                 (* upper_dn.on_retransmitted_sdu *)
| ev_delivered_sdu (pdcp_sn : Z)                     (* upper_dn.on_delivered_sdu *)
| ev_delivered_retx_sdu (pdcp_sn : Z)                (* upper_dn.on_delivered_retransmitted_sdu *)
| ev_max_retx                                        (* upper_cn.on_max_retx *)
| ev_protocol_failure                                (* upper_cn.on_protocol_failure *)
| ev_defer_protocol_failure                          (* the same, put on the UE executor *)
| ev_defer_buffer_state                              (* update_mac_buffer_state, put on the cell executor *)
| ev_buffer_state (bs : Z)                           (* lower_dn.on_buffer_state_update *)
| ev_recycle.                                        (* pdu_recycler.clear, put on the UE executor *)

Record rlc_tx_am_entity := mk_tx {
  tx_st : rlc_tx_am_state;
  tx_queue : sdu_queue;
  sn_under_segmentation : Z;
  retx_queue : rlc_retx_queue;
  retx_sn : Z;
  tx_window : circular_map tx_sdu_info;
  pdu_recycler : rlc_pdu_recycler;
  poll_retransmit_timer : timer_state;
  is_poll_retransmit_timer_expired : bool;
  prev_buffer_state : Z;
  pending_buffer_state : bool;
  tx_stopped : bool;
  tx_out : list tx_event
}.

(** Assignments to single members. *)
Definition with_st s x := mk_tx x (tx_queue s) (sn_under_segmentation s) (retx_queue s) (retx_sn s)
  (tx_window s) (pdu_recycler s) (poll_retransmit_timer s) (is_poll_retransmit_timer_expired s)
  (prev_buffer_state s) (pending_buffer_state s) (tx_stopped s) (tx_out s).
Definition with_queue s x := mk_tx (tx_st s) x (sn_under_segmentation s) (retx_queue s) (retx_sn s)
  (tx_window s) (pdu_recycler s) (poll_retransmit_timer s) (is_poll_retransmit_timer_expired s)
  (prev_buffer_state s) (pending_buffer_state s) (tx_stopped s) (tx_out s).
Definition with_segmentation s x := mk_tx (tx_st s) (tx_queue s) x (retx_queue s) (retx_sn s)
  (tx_window s) (pdu_recycler s) (poll_retransmit_timer s) (is_poll_retransmit_timer_expired s)
  (prev_buffer_state s) (pending_buffer_state s) (tx_stopped s) (tx_out s).
Definition with_retx s x := mk_tx (tx_st s) (tx_queue s) (sn_under_segmentation s) x (retx_sn s)
  (tx_window s) (pdu_recycler s) (poll_retransmit_timer s) (is_poll_retransmit_timer_expired s)
  (prev_buffer_state s) (pending_buffer_state s) (tx_stopped s) (tx_out s).
Definition with_retx_sn s x := mk_tx (tx_st s) (tx_queue s) (sn_under_segmentation s) (retx_queue s) x
  (tx_window s) (pdu_recycler s) (poll_retransmit_timer s) (is_poll_retransmit_timer_expired s)
  (prev_buffer_state s) (pending_buffer_state s) (tx_stopped s) (tx_out s).
Definition with_window s x := mk_tx (tx_st s) (tx_queue s) (sn_under_segmentation s) (retx_queue s) (retx_sn s)
  x (pdu_recycler s) (poll_retransmit_timer s) (is_poll_retransmit_timer_expired s)
  (prev_buffer_state s) (pending_buffer_state s) (tx_stopped s) (tx_out s).
Definition with_recycler s x := mk_tx (tx_st s) (tx_queue s) (sn_under_segmentation s) (retx_queue s) (retx_sn s)
  (tx_window s) x (poll_retransmit_timer s) (is_poll_retransmit_timer_expired s)
  (prev_buffer_state s) (pending_buffer_state s) (tx_stopped s) (tx_out s).
Definition with_poll_timer s timer expired := mk_tx (tx_st s) (tx_queue s) (sn_under_segmentation s)
  (retx_queue s) (retx_sn s) (tx_window s) (pdu_recycler s) timer expired
  (prev_buffer_state s) (pending_buffer_state s) (tx_stopped s) (tx_out s).
Definition with_buffer_state s prev pending := mk_tx (tx_st s) (tx_queue s) (sn_under_segmentation s)
  (retx_queue s) (retx_sn s) (tx_window s) (pdu_recycler s) (poll_retransmit_timer s)
  (is_poll_retransmit_timer_expired s) prev pending (tx_stopped s) (tx_out s).
Definition with_stopped s x := mk_tx (tx_st s) (tx_queue s) (sn_under_segmentation s)
  (retx_queue s) (retx_sn s) (tx_window s) (pdu_recycler s) (poll_retransmit_timer s)
  (is_poll_retransmit_timer_expired s) (prev_buffer_state s) (pending_buffer_state s) x (tx_out s).
Definition tx_emit s e := mk_tx (tx_st s) (tx_queue s) (sn_under_segmentation s) (retx_queue s) (retx_sn s)
  (tx_window s) (pdu_recycler s) (poll_retransmit_timer s) (is_poll_retransmit_timer_expired s)
  (prev_buffer_state s) (pending_buffer_state s) (tx_stopped s) (tx_out s ++ [e]).

Definition set_tx_next_ack (x : rlc_tx_am_state) n :=
  mk_tx_state n (tx_next x) (poll_sn x) (pdu_without_poll x) (byte_without_poll x).
Definition set_tx_next (x : rlc_tx_am_state) n :=
  mk_tx_state (tx_next_ack x) n (poll_sn x) (pdu_without_poll x) (byte_without_poll x).
Definition set_poll (x : rlc_tx_am_state) sn pdus nbytes :=
  mk_tx_state (tx_next_ack x) (tx_next x) sn pdus nbytes.

(** ** The interface of the receiving entity

    [rlc_rx_am_status_provider] of [lib/rlc/rlc_am_interconnect.h]. [get_status_pdu] returns a
    reference, through which the transmitting entity trims the report: [sp_write] is the assignment
    through that reference. *)
Class StatusProvider (P : Type) := {
  sp_required : P -> bool;
  sp_length : P -> Z;
  sp_get : P -> rlc_am_status_pdu * P;
  sp_write : P -> rlc_am_status_pdu -> P
}.

(** Whether the executors accept the tasks that one event puts on them. *)
Record tx_env := mk_tx_env { pcell_defer_ok : bool; ue_defer_ok : bool }.

(** [MAX_DL_PDU_LENGTH] of [include/srsran/ran/pdsch/pdsch_constants.h]. *)
Definition MAX_DL_PDU_LENGTH : Z := 156 * 275 * 4 * 8 / 8.

(** [copy_segments(view, buf)] into a buffer of [size] bytes. *)
Definition copy_segments (view : bytes) (size : Z) : bytes := take (Z.to_nat size) view.

Section rlc_tx_am_entity.
Context (cfg : rlc_tx_am_config) (is_srb : bool).

Abbreviation sz := (tx_sn_field_length cfg).
Abbreviation md := (am_mod sz).
Abbreviation am_window_size := (am_window sz).
Abbreviation head_min_size := (rlc_am_pdu_header_min_size sz).
Abbreviation head_max_size := (rlc_am_pdu_header_max_size sz).

Definition tx_init : rlc_tx_am_entity :=
  mk_tx tx_state_init queue_init INVALID_RLC_SN retx_queue_init INVALID_RLC_SN cm_empty
    (mk_recycler [] [] []) timer_stopped false 0 false false [].

Definition rlc_tx_am_entity_ctor : outcome rlc_tx_am_entity :=
  _ ← srsran_assert (bool_decide (pdcp_sn_len cfg = pdcp_sn_12bits) || bool_decide (pdcp_sn_len cfg = pdcp_sn_18bits));
  ok tx_init.

(** ** Window helpers *)
Definition tx_mod_base s (x : Z) : Z := sn_dist md (tx_next_ack (tx_st s)) x.

Definition inside_tx_window s (sn : Z) : bool := tx_mod_base s sn <? am_window_size.

Definition is_tx_window_full s : bool :=
  cm_full am_window_size (tx_window s)
  || (negb (max_window cfg =? 0) && (max_window cfg <? tx_mod_base s (tx_next (tx_st s)))).

Definition tx_valid_ack_sn s (sn : Z) : bool := (0 <? tx_mod_base s sn) && (tx_mod_base s sn <=? am_window_size).

(** ** Polling *)

(** Nothing is left to send: the condition of the polling bit and of t-PollRetransmit. *)
Definition nothing_to_send s : bool :=
  (queue_is_empty (tx_queue s) && retx_empty (retx_queue s) && (sn_under_segmentation s =? INVALID_RLC_SN))
  || is_tx_window_full s.

Definition start_poll_retransmit_timer (t : timer_state) : timer_state :=
  if negb (is_running t) then timer_run t else timer_run (timer_stop t).

Definition get_polling_bit s (sn : Z) (is_retx : bool) (payload_size : Z) : Z * rlc_tx_am_entity :=
  let st := tx_st s in
  let st := if is_retx then st
            else set_poll st (poll_sn st) (u32 (pdu_without_poll st + 1)) (u32 (byte_without_poll st + payload_size)) in
  let poll := negb is_retx &&
              (((0 <? poll_pdu cfg) && (poll_pdu cfg <=? pdu_without_poll st))
               || ((0 <? poll_byte cfg) && (poll_byte cfg <=? byte_without_poll st))) in
  let poll := poll || nothing_to_send s || is_poll_retransmit_timer_expired s in
  let s := with_poll_timer (with_st s st) (poll_retransmit_timer s) false in
  if poll then
    let st := set_poll st (if is_retx then poll_sn st else sn) 0 0 in
    let timer := if 0 <? t_poll_retx cfg then start_poll_retransmit_timer (poll_retransmit_timer s)
                 else poll_retransmit_timer s in
    (1, with_poll_timer (with_st s st) timer false)
  else (0, s).

(** ** Building data PDUs

    Each function returns the PDU it has written, the empty one for a return of 0. *)

(** Header and payload of [len] bytes of the SDU at the header's offset. *)
Definition assemble_pdu (grant_len : Z) (hdr : rlc_am_pdu_header) (sdu : bytes) (len : Z) : option bytes :=
  let header := rlc_am_write_data_pdu_header hdr in
  let payload := copy_segments (slice sdu (h_so hdr) len) (grant_len - zlen header) in
  if (zlen header =? 0) || (zlen payload =? 0) || negb (zlen payload =? len) then None
  else Some (header ++ payload).

Definition build_first_sdu_segment (grant_len : Z) s (info : tx_sdu_info) : outcome (bytes * rlc_tx_am_entity) :=
  if zlen (info_sdu info) + head_min_size <=? grant_len then ok ([], s)
  else if grant_len <=? head_min_size then ok ([], s)
  else
    let segment_payload_len := u32 (grant_len - head_min_size) in
    let sn := tx_next (tx_st s) in
    let s := with_segmentation s sn in
    let '(p, s) := get_polling_bit s sn false segment_payload_len in
    let hdr := mk_header data p first_segment sz sn (u16 (next_so info)) in
    match assemble_pdu grant_len hdr (info_sdu info) segment_payload_len with
    | None => ok ([], s)
    | Some pdu =>
        w ← cm_set am_window_size (tx_window s) sn (set_next_so info (u32 (next_so info + segment_payload_len)));
        ok (pdu, with_window s w)
    end.

(** [sn] is the key of [info] in the window. *)
Definition build_continued_sdu_segment (grant_len : Z) s (sn : Z) (info : tx_sdu_info)
    : outcome (bytes * rlc_tx_am_entity) :=
  if next_so info =? 0 then ok ([], with_segmentation s INVALID_RLC_SN)
  else if zlen (info_sdu info) <=? next_so info then ok ([], with_segmentation s INVALID_RLC_SN)
  else if grant_len <=? head_max_size then ok ([], s)
  else
    let rest_len := u32 (zlen (info_sdu info) - next_so info) in
    let more := grant_len <? rest_len + head_max_size in
    let si := if more then middle_segment else last_segment in
    let segment_payload_len := if more then u32 (grant_len - head_max_size) else rest_len in
    let s := if more then s else with_segmentation s INVALID_RLC_SN in
    let '(p, s) := get_polling_bit s (tx_next (tx_st s)) false segment_payload_len in
    let hdr := mk_header data p si sz (tx_next (tx_st s)) (u16 (next_so info)) in
    match assemble_pdu grant_len hdr (info_sdu info) segment_payload_len with
    | None => ok ([], s)
    | Some pdu =>
        w ← cm_set am_window_size (tx_window s) sn (set_next_so info (u32 (next_so info + segment_payload_len)));
        let s := with_window s w in
        ok (pdu, if more then s else with_st s (set_tx_next (tx_st s) (sn_next md (tx_next (tx_st s)))))
    end.

(** The notification about the beginning of the transfer of an SDU. *)
Definition notify_transfer s (sdu : rlc_sdu) : rlc_tx_am_entity :=
  match sdu_pdcp_sn sdu with
  | None => s
  | Some sn => if sdu_is_retx sdu then tx_emit s (ev_retransmitted_sdu sn)
               else tx_emit s (ev_transmitted_sdu sn (queue_size_bytes cfg))
  end.

(** The full SDU in one PDU. The payload size given to [get_polling_bit] is the length of a buffer
    that has been moved from, which is 0. *)
Definition build_full_sdu (grant_len : Z) s (info : tx_sdu_info) : bytes * rlc_tx_am_entity :=
  let sn := tx_next (tx_st s) in
  let '(p, s) := get_polling_bit s sn false 0 in
  let header := rlc_am_write_data_pdu_header (mk_header data p full_sdu sz sn 0) in
  let payload := copy_segments (info_sdu info) (grant_len - zlen header) in
  if (zlen header =? 0) || (zlen payload =? 0) then ([], s)
  else (header ++ payload, with_st s (set_tx_next (tx_st s) (sn_next md (tx_next (tx_st s))))).

Definition build_new_pdu (grant_len : Z) s : outcome (bytes * rlc_tx_am_entity) :=
  if grant_len <=? head_min_size then ok ([], s)
  else if is_tx_window_full s then ok ([], s)
  else
    match read (queue_size cfg) (tx_queue s) with
    | (None, q) => ok ([], with_queue s q)
    | (Some sdu, q) =>
        let s := with_queue s q in
        let sn := tx_next (tx_st s) in
        w ← add_sn am_window_size tx_sdu_info_init (tx_window s) sn;
        let info := mk_tx_sdu_info (sdu_bytes sdu) (sdu_is_retx sdu) (sdu_pdcp_sn sdu) 0 RETX_COUNT_NOT_STARTED in
        w ← cm_set am_window_size w sn info;
        let s := notify_transfer (with_window s w) sdu in
        if grant_len <? zlen (info_sdu info) + head_min_size then build_first_sdu_segment grant_len s info
        else ok (build_full_sdu grant_len s info)
    end.

(** ** Retransmissions *)
Definition get_retx_expected_hdr_len (retx : rlc_tx_amd_retx) : Z :=
  if r_so retx =? 0 then head_min_size else head_max_size.

(** The loop that drops retransmissions of SDUs that left the window; [false] is the early return
    on the empty queue. *)
Fixpoint drop_missing_retx (fuel : nat) s : outcome (bool * rlc_tx_am_entity) :=
  match fuel with
  | O => fail out_of_fuel
  | S fuel =>
      retx ← retx_front (retx_queue s);
      if has_sn am_window_size (tx_window s) (r_sn retx) then ok (true, s)
      else
        let s := with_retx s (retx_pop (retx_queue s)) in
        if retx_empty (retx_queue s) then ok (false, s) else drop_missing_retx fuel s
  end.

Definition retx_si (retx : rlc_tx_amd_retx) (sdu_complete : bool) : rlc_si_field :=
  if r_so retx =? 0 then if sdu_complete then full_sdu else first_segment
  else if sdu_complete then last_segment else middle_segment.

(** The retransmission that is left of the front of the queue. *)
Definition update_retx_front s (retx_complete : bool) (retx_payload_len : Z) : outcome rlc_tx_am_entity :=
  if retx_complete then ok (with_retx s (retx_pop (retx_queue s)))
  else
    front ← retx_front (retx_queue s);
    q ← replace_front (retx_queue s)
          (mk_retx (r_sn front) (u32 (r_so front + retx_payload_len)) (u32 (r_length front - retx_payload_len)));
    ok (with_retx s q).

Definition build_retx_pdu (grant_len : Z) s : outcome (bytes * rlc_tx_am_entity) :=
  if retx_empty (retx_queue s) then ok ([], s)
  else
    '(found, s) ← drop_missing_retx (S (Z.to_nat (retx_size (retx_queue s)))) s;
    if negb found then ok ([], s)
    else
      retx ← retx_front (retx_queue s);
      let s := with_retx_sn s (r_sn retx) in
      info ← cm_at am_window_size (tx_window s) (r_sn retx);
      if zlen (info_sdu info) <? u32 (r_so retx + r_length retx) then
        ok ([], with_retx s (retx_pop (retx_queue s)))
      else if grant_len <=? get_retx_expected_hdr_len retx then ok ([], s)
      else
        let retx_payload_len := Z.min (r_length retx) (grant_len - get_retx_expected_hdr_len retx) in
        let sdu_complete := zlen (info_sdu info) <=? r_so retx + retx_payload_len in
        s ← update_retx_front s (retx_payload_len =? r_length retx) retx_payload_len;
        let '(p, s) := get_polling_bit s (r_sn retx) true 0 in
        let hdr := mk_header data p (retx_si retx sdu_complete) sz (r_sn retx) (u16 (r_so retx)) in
        _ ← srsran_assert (zlen (rlc_am_write_data_pdu_header hdr) =? get_retx_expected_hdr_len retx);
        ok (default [] (assemble_pdu grant_len hdr (info_sdu info) retx_payload_len), s).

(** ** The buffer state *)
Section status_provider.
Context {P : Type} `{StatusProvider P}.

Definition get_buffer_state_nolock (p : P) s : outcome Z :=
  let queue_bytes := u32 (n_bytes (tx_queue s) + n_sdus (tx_queue s) * head_min_size) in
  segment_bytes ←
    if negb (sn_under_segmentation s =? INVALID_RLC_SN) then
      if has_sn am_window_size (tx_window s) (sn_under_segmentation s) then
        info ← cm_at am_window_size (tx_window s) (sn_under_segmentation s);
        ok (u32 (zlen (info_sdu info) - next_so info + head_max_size))
      else ok 0
    else ok 0;
  let retx_state := rq_st (retx_queue s) in
  let retx_total := u32 (retx_bytes retx_state + n_retx_so_zero retx_state * head_min_size
                         + n_retx_so_nonzero retx_state * head_max_size) in
  let status_bytes := if sp_required p then sp_length p else 0 in
  ok (u32 (queue_bytes + segment_bytes + retx_total + status_bytes)).

Definition update_mac_buffer_state (p : P) s (force_notify : bool) : outcome rlc_tx_am_entity :=
  let s := with_buffer_state s (prev_buffer_state s) false in
  bs ← get_buffer_state_nolock p s;
  let s := if force_notify || (bs <=? MAX_DL_PDU_LENGTH) || (prev_buffer_state s <=? MAX_DL_PDU_LENGTH)
           then tx_emit s (ev_buffer_state bs) else s in
  ok (with_buffer_state s bs (pending_buffer_state s)).

Definition handle_changed_buffer_state (env : tx_env) s : rlc_tx_am_entity :=
  if negb (pending_buffer_state s) then
    let s := with_buffer_state s (prev_buffer_state s) true in
    if pcell_defer_ok env then tx_emit s ev_defer_buffer_state else s
  else s.

Definition on_status_report_changed (env : tx_env) s : rlc_tx_am_entity := handle_changed_buffer_state env s.

(** ** The upper layer *)
Definition handle_sdu (env : tx_env) s (sdu_buf : bytes) (is_retx : bool) : outcome rlc_tx_am_entity :=
  pdcp_sn ← get_pdcp_sn sdu_buf (pdcp_sn_len cfg) is_srb;
  let is_retx := if is_srb && is_retx then false else is_retx in
  let '(written, q) := write (queue_size cfg) (queue_size_bytes cfg) (tx_queue s) (mk_sdu sdu_buf is_retx pdcp_sn) in
  let s := with_queue s q in
  ok (if written : bool then handle_changed_buffer_state env s else s).

Definition discard_sdu (env : tx_env) s (pdcp_sn : Z) : rlc_tx_am_entity :=
  let '(discarded, q) := try_discard (queue_size cfg) (tx_queue s) pdcp_sn in
  let s := with_queue s q in
  if discarded : bool then handle_changed_buffer_state env s else s.

(** ** The lower layer *)

(** The status PDU of [pull_pdu], trimmed in place to the grant. *)
Definition pull_status_pdu (grant_len : Z) (p : P) : outcome (bytes * P) :=
  let '(status_pdu, p) := sp_get p in
  if grant_len <? packed_size status_pdu then
    '(trimmed, status_pdu) ← trim status_pdu grant_len;
    let p := sp_write p status_pdu in
    if negb (trimmed : bool) then ok ([], p) else ok (pack status_pdu, p)
  else ok (pack status_pdu, p).

(** Where an SDU under segmentation is no longer in the window, the segmentation is given up and a
    new SDU is tried. *)
Definition pull_new_pdu (grant_len : Z) s : outcome (bytes * rlc_tx_am_entity) :=
  if queue_is_empty (tx_queue s) then ok ([], s) else build_new_pdu grant_len s.

Definition pull_pdu (grant_len : Z) (p : P) s : outcome (bytes * P * rlc_tx_am_entity) :=
  if sp_required p then
    if grant_len <? sizeof_header_ack_sn then ok ([], p, s)
    else '(pdu, p) ← pull_status_pdu grant_len p; ok (pdu, p, s)
  else if negb (retx_empty (retx_queue s)) then
    '(pdu, s) ← build_retx_pdu grant_len s; ok (pdu, p, s)
  else
    '(pdu, s) ←
      if negb (sn_under_segmentation s =? INVALID_RLC_SN) then
        if has_sn am_window_size (tx_window s) (sn_under_segmentation s) then
          info ← cm_at am_window_size (tx_window s) (sn_under_segmentation s);
          build_continued_sdu_segment grant_len s (sn_under_segmentation s) info
        else pull_new_pdu grant_len (with_segmentation s INVALID_RLC_SN)
      else pull_new_pdu grant_len s;
    ok (pdu, p, s).

(** ** Status reports *)
Definition defer_protocol_failure (env : tx_env) s : rlc_tx_am_entity :=
  if ue_defer_ok env then tx_emit s ev_defer_protocol_failure else s.

(** The last SN that a NACK covers. *)
Definition nack_last_sn (nack : rlc_am_status_nack) : Z :=
  if has_nack_range nack then u32 (nack_sn nack + nack_range nack - 1) else nack_sn nack.

Definition valid_nack (env : tx_env) s (ack : Z) (nack : rlc_am_status_nack) : bool * rlc_tx_am_entity :=
  if tx_mod_base s ack <=? tx_mod_base s (nack_sn nack) then (false, s)
  else if has_nack_range nack && (tx_mod_base s ack <=? tx_mod_base s (nack_last_sn nack)) then (false, s)
  else if negb (inside_tx_window s (nack_sn nack)) then (false, s)
  else if has_nack_range nack && negb (inside_tx_window s (nack_last_sn nack)) then (false, s)
  else if tx_mod_base s (tx_next (tx_st s)) <? tx_mod_base s (nack_sn nack) then (false, defer_protocol_failure env s)
  else if has_nack_range nack && (tx_mod_base s (tx_next (tx_st s)) <? tx_mod_base s (nack_last_sn nack)) then
    (false, defer_protocol_failure env s)
  else (true, s).

Fixpoint valid_nacks (env : tx_env) s (ack : Z) (l : list rlc_am_status_nack) : bool * rlc_tx_am_entity :=
  match l with
  | [] => (true, s)
  | nack :: l =>
      let '(valid, s) := valid_nack env s ack nack in
      if valid : bool then valid_nacks env s ack l else (false, s)
  end.

Definition check_sn_reached_max_retx s (sn : Z) : outcome rlc_tx_am_entity :=
  info ← cm_at am_window_size (tx_window s) sn;
  ok (if retx_count info =? max_retx_thresh cfg then tx_emit s ev_max_retx else s).

Definition incremented_retx_count (count : Z) : Z :=
  if count =? RETX_COUNT_NOT_STARTED then 0 else u32 (count + 1).
Definition decremented_retx_count (count : Z) : Z :=
  if count =? RETX_COUNT_NOT_STARTED then count else if count =? 0 then RETX_COUNT_NOT_STARTED else count - 1.

Definition increment_retx_count s (sn : Z) : outcome rlc_tx_am_entity :=
  info ← cm_at am_window_size (tx_window s) sn;
  w ← cm_set am_window_size (tx_window s) sn (set_retx_count info (incremented_retx_count (retx_count info)));
  check_sn_reached_max_retx (with_window s w) sn.

Definition decrement_retx_count s (sn : Z) : outcome rlc_tx_am_entity :=
  info ← cm_at am_window_size (tx_window s) sn;
  w ← cm_set am_window_size (tx_window s) sn (set_retx_count info (decremented_retx_count (retx_count info)));
  ok (with_window s w).

(** [rlc_pdu_recycler::add_discarded_pdu], [clear_by_executor] and [clear]. *)
Definition add_discarded_pdu (r : rlc_pdu_recycler) (pdu : bytes) : bool * rlc_pdu_recycler :=
  if am_window_size <=? zlen (to_fill r) then (false, r)
  else (true, mk_recycler (to_fill r ++ [pdu]) (to_swap r) (to_dump r)).
Definition recycler_clear_by_executor (r : rlc_pdu_recycler) : rlc_pdu_recycler :=
  mk_recycler (to_swap r) (to_fill r) (to_dump r).
Definition recycler_clear (r : rlc_pdu_recycler) : rlc_pdu_recycler :=
  mk_recycler (to_fill r) (to_dump r) [].

(** The most recent PDCP SNs of acknowledged SDUs: of first transmissions and of PDCP
    retransmissions. *)
Record delivered_sns := mk_delivered { max_deliv_pdcp_sn : option Z; max_deliv_retx_pdcp_sn : option Z }.

Definition note_delivered (d : delivered_sns) (info : tx_sdu_info) : delivered_sns :=
  match info_pdcp_sn info with
  | None => d
  | Some sn => if info_is_retx info then mk_delivered (max_deliv_pdcp_sn d) (Some sn)
               else mk_delivered (Some sn) (max_deliv_retx_pdcp_sn d)
  end.

(** One iteration of the loop over the acknowledged SDUs. *)
Definition ack_sdu (sn : Z) (x : rlc_tx_am_entity * delivered_sns)
    : outcome (rlc_tx_am_entity * delivered_sns * bool) :=
  let '(s, d) := x in
  if has_sn am_window_size (tx_window s) sn then
    info ← cm_at am_window_size (tx_window s) sn;
    let s := with_recycler s (add_discarded_pdu (pdu_recycler s) (info_sdu info)).2 in
    w ← remove_sn am_window_size (tx_window s) sn;
    let s := with_st (with_window s w) (set_tx_next_ack (tx_st s) (sn_next md sn)) in
    ok (s, note_delivered d info, false)
  else ok (s, d, true).

Definition ack_loop_fuel : nat := S (Z.to_nat md).

Definition process_acks s (stop_sn : Z) : outcome (rlc_tx_am_entity * delivered_sns) :=
  r ← for_loop ack_loop_fuel
        (fun sn x => tx_mod_base x.1 sn <? tx_mod_base x.1 stop_sn)
        (sn_next md) ack_sdu (tx_next_ack (tx_st s)) (s, mk_delivered None None);
  ok r.2.

Definition notify_delivered s (d : delivered_sns) : rlc_tx_am_entity :=
  let s := match max_deliv_pdcp_sn d with Some sn => tx_emit s (ev_delivered_sdu sn) | None => s end in
  match max_deliv_retx_pdcp_sn d with Some sn => tx_emit s (ev_delivered_retx_sdu sn) | None => s end.

(** The loop that clears the ReTx queue and rewinds the counters, once per SN. *)
Fixpoint clear_retx_queue (fuel : nat) s : outcome rlc_tx_am_entity :=
  match fuel with
  | O => fail out_of_fuel
  | S fuel =>
      if retx_empty (retx_queue s) then ok s
      else
        retx ← retx_front (retx_queue s);
        s ← if negb (retx_sn s =? r_sn retx) then
              s ← if has_sn am_window_size (tx_window s) (r_sn retx) then decrement_retx_count s (r_sn retx) else ok s;
              ok (with_retx_sn s (r_sn retx))
            else ok s;
        clear_retx_queue fuel (with_retx s (retx_pop (retx_queue s)))
  end.

(** The range of a NACK in the SDU: [None] when the NACK is to be ignored. *)
Definition nack_segment s (info : tx_sdu_info) (nack : rlc_am_status_nack) : option (Z * Z) :=
  let sdu_length := u32 (zlen (info_sdu info)) in
  let '(so_start, so_end) := if has_so nack then (so_start nack, so_end nack) else (0, u16 (sdu_length - 1)) in
  if so_end =? so_end_of_sdu then
    if negb (nack_sn nack =? sn_under_segmentation s) then Some (so_start, u16 (sdu_length - 1))
    else if next_so info =? 0 then None
    else if next_so info <? so_start then None
    else if so_start =? next_so info then None
    else Some (so_start, u16 (next_so info - 1))
  else Some (so_start, so_end).

(** The sanity checks on the range, with the protocol failures they report. *)
Definition sanitize_segment (env : tx_env) s (sdu_length : Z) (range : Z * Z) : Z * Z * rlc_tx_am_entity :=
  let '(so_start, so_end) := range in
  let '(so_start, s) := if so_end <? so_start then (0, defer_protocol_failure env s) else (so_start, s) in
  let '(so_start, s) := if sdu_length <=? so_start then (0, defer_protocol_failure env s) else (so_start, s) in
  if sdu_length <=? so_end then
    (so_start, u16 (sdu_length - 1), defer_protocol_failure env (tx_emit s ev_protocol_failure))
  else (so_start, so_end, s).

Definition handle_nack (env : tx_env) s (nack : rlc_am_status_nack) : outcome (bool * rlc_tx_am_entity) :=
  if has_nack_range nack then ok (false, s)
  else if negb ((tx_mod_base s (tx_next_ack (tx_st s)) <=? tx_mod_base s (nack_sn nack))
                && (tx_mod_base s (nack_sn nack) <=? tx_mod_base s (tx_next (tx_st s)))) then ok (false, s)
  else
    info ← cm_at am_window_size (tx_window s) (nack_sn nack);
    match nack_segment s info nack with
    | None => ok (false, s)
    | Some range =>
        let '(so_start, so_end, s) := sanitize_segment env s (u32 (zlen (info_sdu info))) range in
        let retx := mk_retx (nack_sn nack) so_start (u32 (so_end - so_start + 1)) in
        let '(pushed, q) := retx_try_push am_window_size (retx_queue s) retx in
        ok (pushed, with_retx s q)
    end.

(** [handle_nack], and the retransmission counter of its SN once. *)
Definition handle_one_nack (env : tx_env) (nack : rlc_am_status_nack) (x : rlc_tx_am_entity * Z)
    : outcome (rlc_tx_am_entity * Z) :=
  let '(s, prev_retx_sn) := x in
  '(handled, s) ← handle_nack env s nack;
  if handled && negb (prev_retx_sn =? nack_sn nack) then
    s ← increment_retx_count s (nack_sn nack); ok (s, nack_sn nack)
  else ok (s, prev_retx_sn).

(** The NACK of one SDU of a NACK range. *)
Definition nack_of_range (nack : rlc_am_status_nack) (range_sn : Z) : rlc_am_status_nack :=
  if has_so nack then
    let so_start := if range_sn =? nack_sn nack then so_start nack else 0 in
    let so_end := if range_sn =? u32 (nack_sn nack + nack_range nack - 1) mod md then so_end nack else so_end_of_sdu in
    mk_nack range_sn (negb (so_start =? 0) || negb (so_end =? so_end_of_sdu)) so_start so_end false 0
  else mk_nack range_sn false 0 so_end_of_sdu false 0.

Definition range_loop_fuel : nat := S (Z.to_nat md).

Definition handle_nack_item (env : tx_env) (ack : Z) (nack : rlc_am_status_nack) (x : rlc_tx_am_entity * Z)
    : outcome (rlc_tx_am_entity * Z) :=
  if has_nack_range nack then
    r ← for_loop range_loop_fuel
          (fun range_sn _ => negb (range_sn =? u32 (nack_sn nack + nack_range nack) mod md))
          (sn_next md)
          (fun range_sn x =>
             if range_sn =? ack then ok (x, true)
             else x ← handle_one_nack env (nack_of_range nack range_sn) x; ok (x, false))
          (nack_sn nack) x;
    ok r.2
  else handle_one_nack env nack x.

Fixpoint handle_nacks (env : tx_env) (ack : Z) (l : list rlc_am_status_nack) (x : rlc_tx_am_entity * Z)
    : outcome (rlc_tx_am_entity * Z) :=
  match l with
  | [] => ok x
  | nack :: l => x ← handle_nack_item env ack nack x; handle_nacks env ack l x
  end.

(** The checks on a received report before it is applied. *)
Definition status_accepted (env : tx_env) s (status : rlc_am_status_pdu) : bool * rlc_tx_am_entity :=
  if negb (tx_valid_ack_sn s (ack_sn status)) then (false, s)
  else if tx_mod_base s (tx_next (tx_st s) + 1) <? tx_mod_base s (ack_sn status) then
    (false, defer_protocol_failure env s)
  else valid_nacks env s (ack_sn status) (nacks status).

Definition stop_poll_retransmit s (ack : Z) : rlc_tx_am_entity :=
  if (tx_mod_base s (poll_sn (tx_st s)) <? tx_mod_base s ack) && is_running (poll_retransmit_timer s)
  then with_poll_timer s (timer_stop (poll_retransmit_timer s)) (is_poll_retransmit_timer_expired s) else s.

(** ACKs are processed up to the first NACK, if there is one. *)
Definition ack_stop_sn (status : rlc_am_status_pdu) : Z :=
  match nacks status with [] => ack_sn status | nack :: _ => nack_sn nack end.

Definition handle_status_pdu (env : tx_env) (p : P) s (status : rlc_am_status_pdu) : outcome rlc_tx_am_entity :=
  let '(accepted, s) := status_accepted env s status in
  if negb accepted then ok s
  else
    let s := stop_poll_retransmit s (ack_sn status) in
    '(s, d) ← process_acks s (ack_stop_sn status);
    let s := notify_delivered s d in
    s ← clear_retx_queue (S (Z.to_nat (retx_size (retx_queue s)))) s;
    let s := with_retx_sn s INVALID_RLC_SN in
    '(s, _) ← handle_nacks env (ack_sn status) (nacks status) (s, INVALID_RLC_SN);
    s ← update_mac_buffer_state p s true;
    ok (tx_emit (with_recycler s (recycler_clear_by_executor (pdu_recycler s))) ev_recycle).

(** ** Expiry of t-PollRetransmit *)
Definition on_expired_poll_retransmit_timer (p : P) s : outcome rlc_tx_am_entity :=
  let expired s := with_poll_timer s (poll_retransmit_timer s) true in
  if nothing_to_send s then
    if cm_is_empty (tx_window s) then ok s
    else if negb (has_sn am_window_size (tx_window s) (tx_next_ack (tx_st s))) then ok s
    else
      info ← cm_at am_window_size (tx_window s) (tx_next_ack (tx_st s));
      let retx := mk_retx (tx_next_ack (tx_st s)) 0 (u32 (zlen (info_sdu info))) in
      let '(retx_enqueued, q) := retx_try_push am_window_size (retx_queue s) retx in
      let s := with_retx s q in
      s ← if retx_enqueued : bool then increment_retx_count s (tx_next_ack (tx_st s)) else ok s;
      s ← update_mac_buffer_state p s true;
      ok (expired s)
  else ok (expired s).

End status_provider.

Definition tx_stop s : rlc_tx_am_entity :=
  if tx_stopped s then s
  else with_stopped (with_poll_timer s (timer_stop (poll_retransmit_timer s)) (is_poll_retransmit_timer_expired s)) true.

End rlc_tx_am_entity.
