(* ===== verification/RlcTxAmInv.v ===== *)
(** * The transmitting AM entity: invariant

    What the transmit window, the segmentation state and the retransmission queue always satisfy,
    and that every event keeps it ([tx_inv]). The events that report what the peer received are
    restricted to reports that acknowledge nothing that was not sent ([sent_status]). *)

From S2P Require Import Prelude SduWindow PdcpSnUtil RlcAmPdu RlcSegments RlcSduQueue RlcRetxQueue RlcTxAm.

(** The SI of the bytes [[so, so + len)] of an SDU of [n] bytes. *)
Definition segment_si (n so len : Z) : rlc_si_field :=
  if so =? 0 then if so + len =? n then full_sdu else first_segment
  else if so + len =? n then last_segment else middle_segment.

(** A PDU that a receiver reads as the bytes of SDU [d] from the header's SO on. *)
Record carries (sz : rlc_am_sn_size) (d pdu : bytes) (h : rlc_am_pdu_header) (payload : bytes) : Prop := {
  ca_read : rlc_am_read_data_pdu_header pdu sz = Some h;
  ca_data : h_dc h = data;
  ca_payload : payload = drop (Z.to_nat (get_packed_size h)) pdu;
  ca_so : 0 <= h_so h;
  ca_nonempty : payload <> [];
  ca_end : h_so h + zlen payload <= zlen d;
  ca_bytes : payload = slice d (h_so h) (zlen payload);
  ca_si : h_si h = segment_si (zlen d) (h_so h) (zlen payload)
}.

Section tx_inv.
Context (cfg : rlc_tx_am_config) (is_srb : bool).
Context (Hqueue : 0 < queue_size cfg < 2 ^ 16) (Hbytes : 0 <= queue_size_bytes cfg < 2 ^ 32).

Local Abbreviation sz := (tx_sn_field_length cfg).
Local Abbreviation md := (am_mod sz).
Local Abbreviation W := (am_window sz).
Local Abbreviation hmin := (rlc_am_pdu_header_min_size sz).
Local Abbreviation hmax := (rlc_am_pdu_header_max_size sz).
Local Abbreviation dist s x := (sn_dist md (tx_next_ack (tx_st s)) x).
Local Abbreviation get s k := (wget W (tx_window s) k).

(** SDUs are not empty and shorter than 32768 bytes (PDCP SDUs have at most 9000). *)
Definition sdu_ok (d : bytes) : Prop := 0 < zlen d < 2 ^ 15.

Definition segmenting s : bool := sn_under_segmentation s =? tx_next (tx_st s).

Record info_ok s (k : Z) (i : tx_sdu_info) : Prop := {
  io_sdu : sdu_ok (info_sdu i);
  io_next_so : 0 <= next_so i <= zlen (info_sdu i);
  io_segmenting : k = tx_next (tx_st s) -> 0 < next_so i < zlen (info_sdu i);
  io_retx : 0 <= retx_count i < 2 ^ 32
}.

(** A retransmission of bytes of an SDU in the window. *)
Definition retx_ok s (r : rlc_tx_amd_retx) : Prop :=
  exists i, get s (r_sn r) = Some i /\ 0 <= r_so r /\ 0 < r_length r /\ r_so r + r_length r <= zlen (info_sdu i).

Record tx_inv s : Prop := {
  ti_ack : 0 <= tx_next_ack (tx_st s) < md;
  ti_next : 0 <= tx_next (tx_st s) < md;
  ti_dist : dist s (tx_next (tx_st s)) <= W;
  ti_window : window_wf W (tx_window s);
  ti_member : forall k, is_Some (get s k) <->
    0 <= k < md /\ (dist s k < dist s (tx_next (tx_st s)) \/ (k = tx_next (tx_st s) /\ segmenting s = true));
  ti_count : count (tx_window s) = dist s (tx_next (tx_st s)) + if segmenting s then 1 else 0;
  ti_segmenting : sn_under_segmentation s = INVALID_RLC_SN \/
    (segmenting s = true /\ dist s (tx_next (tx_st s)) < W);
  ti_info : forall k i, get s k = Some i -> info_ok s k i;
  ti_queue : queue_inv (queue_size cfg) (tx_queue s);
  ti_sdus : Forall (fun x => sdu_ok (sdu_bytes x)) (content (queue_size cfg) (tx_queue s));
  ti_retx : retx_inv W (retx_queue s);
  ti_retx_ok : Forall (retx_ok s) (retx_content (retx_queue s))
}.

(** The part of the state that the invariant is about. *)
Definition same_core s s' : Prop :=
  tx_next_ack (tx_st s') = tx_next_ack (tx_st s) /\ tx_next (tx_st s') = tx_next (tx_st s) /\
  tx_queue s' = tx_queue s /\ sn_under_segmentation s' = sn_under_segmentation s /\
  retx_queue s' = retx_queue s /\ tx_window s' = tx_window s.

Lemma same_core_refl s : same_core s s.
Proof. by repeat split. Qed.

Lemma same_core_trans s1 s2 s3 : same_core s1 s2 -> same_core s2 s3 -> same_core s1 s3.
Proof. intros (?&?&?&?&?&?) (?&?&?&?&?&?). unfold same_core. split_and!; congruence. Qed.

Lemma tx_inv_core s s' : same_core s s' -> tx_inv s -> tx_inv s'.
Proof.
  intros (E1 & E2 & E3 & E4 & E5 & E6) [? ? ? ? ? ? ? Hi ? ? ? Hr].
  assert (Hseg : segmenting s' = segmenting s) by (unfold segmenting; by rewrite E4, E2).
  split; rewrite ?E1, ?E2, ?E3, ?E4, ?E5, ?E6, ?Hseg; try done.
  - intros k i Hk. destruct (Hi k i Hk) as [? ? Hs ?]. split; rewrite ?E2; done.
  - eapply Forall_impl; [exact Hr|]. intros r (i & Hg & ?). exists i. by rewrite E6.
Qed.

Lemma W_bounds : 2 <= W /\ md = 2 * W /\ W <= 2 ^ 17 /\ md < INVALID_RLC_SN.
Proof. unfold window_size, cardinality. destruct sz; vm_compute; split_and!; congruence. Qed.

Lemma header_sizes : (hmin = 2 \/ hmin = 3) /\ hmax = hmin + 2.
Proof. unfold rlc_am_pdu_header_max_size, rlc_am_pdu_header_min_size. destruct sz; lia. Qed.

Lemma tx_window_in s : tx_inv s -> window_in (m := md) (W := W) (tx_next_ack (tx_st s)) (tx_window s).
Proof.
  intros H k Hk. pose proof (ti_dist _ H). apply (ti_member _ H) in Hk as [Hk [?|[-> Hs]]]; split; try done; [lia|].
  destruct (ti_segmenting _ H) as [E|[_ ?]]; [|done].
  unfold segmenting in Hs. apply Z.eqb_eq in Hs. pose proof (ti_next _ H). pose proof W_bounds. lia.
Qed.

Lemma segmenting_true s :
  tx_inv s -> segmenting s = negb (sn_under_segmentation s =? INVALID_RLC_SN).
Proof.
  intros H. pose proof W_bounds. pose proof (ti_next _ H). destruct (ti_segmenting _ H) as [E|[E ?]].
  - unfold segmenting. rewrite E. zcases; simpl; try done; lia.
  - rewrite E. unfold segmenting in E. apply Z.eqb_eq in E. rewrite E. zcases; simpl; try done; lia.
Qed.

(** The entity under segmentation is in the window. *)
Lemma segmenting_info s :
  tx_inv s -> segmenting s = true -> sn_under_segmentation s = tx_next (tx_st s) /\
  exists i, get s (tx_next (tx_st s)) = Some i /\ info_ok s (tx_next (tx_st s)) i.
Proof.
  intros H Hs. split; [unfold segmenting in Hs; by apply Z.eqb_eq|].
  destruct (proj2 (ti_member _ H (tx_next (tx_st s)))) as [i Hi].
  { split; [apply (ti_next _ H)|by right]. }
  exists i. split; [done|]. by apply (ti_info _ H).
Qed.

(** The next SN is free while no SDU is under segmentation. *)
Lemma next_free s : tx_inv s -> segmenting s = false -> get s (tx_next (tx_st s)) = None.
Proof.
  intros H Hs. destruct (get s (tx_next (tx_st s))) as [i|] eqn:E; [|done].
  assert (Hm : is_Some (get s (tx_next (tx_st s)))) by eauto.
  apply (ti_member _ H) in Hm as [_ [?|[_ ?]]]; [lia|congruence].
Qed.

Lemma window_not_full s :
  tx_inv s -> segmenting s = false -> is_tx_window_full cfg s = false -> dist s (tx_next (tx_st s)) < W.
Proof.
  intros H Hs Hf. pose proof (ti_count _ H) as Hc. rewrite Hs in Hc. pose proof (ti_dist _ H).
  unfold is_tx_window_full, cm_full in Hf. apply orb_false_iff in Hf as [Hf _]. apply Z.eqb_neq in Hf. lia.
Qed.

Lemma tx_init_inv : tx_inv tx_init.
Proof.
  pose proof W_bounds. split; simpl.
  - lia.
  - lia.
  - rewrite sn_dist_self. lia.
  - apply window_wf_empty.
  - intros k. rewrite wget_empty, sn_dist_self. split; [by intros [? ?]|].
    intros [? [Hd|[_ ?]]]; [|done]. pose proof (sn_dist_range (m := md) 0 k). lia.
  - by rewrite sn_dist_self.
  - by left.
  - intros k i Hk. by rewrite wget_empty in Hk.
  - by apply queue_init_inv.
  - constructor.
  - apply retx_init_inv. lia.
  - constructor.
Qed.

(** ** Polling and the assembly of PDUs *)
Lemma get_polling_bit_core s sn r n :
  exists p s', get_polling_bit cfg s sn r n = (p, s') /\ 0 <= p < 2 /\ same_core s s'.
Proof.
  unfold get_polling_bit.
  match goal with |- context [if ?b then (1, _) else _] => destruct b end; eexists _, _;
    (split; [reflexivity|split; [lia|]]); destruct r; by repeat split.
Qed.

Lemma assemble_pdu_ok grant hdr sdu len :
  header_wf hdr -> h_sn_size hdr = sz -> h_dc hdr = data -> 0 < len -> len <= grant - get_packed_size hdr ->
  h_so hdr + len <= zlen sdu -> h_si hdr = segment_si (zlen sdu) (h_so hdr) len ->
  exists pdu payload, assemble_pdu grant hdr sdu len = Some pdu /\ zlen pdu = get_packed_size hdr + len /\
    zlen payload = len /\ carries sz sdu pdu hdr payload.
Proof.
  intros Hw Hsz Hdc Hlen Hgrant Hend Hsi. pose proof (write_header_length hdr Hw) as Hh.
  pose proof (hw_so _ Hw) as Hso. pose proof header_sizes.
  assert (Hsl : zlen (slice sdu (h_so hdr) len) = len) by (apply slice_length; lia).
  assert (Hcopy : copy_segments (slice sdu (h_so hdr) len) (grant - zlen (rlc_am_write_data_pdu_header hdr)) = slice sdu (h_so hdr) len).
  { unfold copy_segments. apply take_ge. lia. }
  assert (Hpos : 0 < get_packed_size hdr).
  { unfold get_packed_size. rewrite Hsz. destruct (si_has_so _); lia. }
  unfold assemble_pdu. rewrite Hcopy, Hsl, Hh. do 2 zfalse. rewrite Z.eqb_refl. simpl.
  eexists _, _. split; [reflexivity|]. rewrite length_app.
  assert (Hne : slice sdu (h_so hdr) len <> []) by (intros E; rewrite E in Hsl; simpl in Hsl; lia).
  split; [lia|]. split; [exact Hsl|]. split; rewrite ?Hsl; try done; [| |lia].
  - rewrite <- Hsz. by apply read_written_header.
  - rewrite drop_app_length'; [done|]. lia.
Qed.

(** A data PDU that fits the grant and carries bytes of an SDU of the window. *)
Definition data_pulled (grant : Z) s (pdu : bytes) : Prop :=
  pdu = [] \/ zlen pdu <= grant /\
    exists h payload i, carries sz (info_sdu i) pdu h payload /\ get s (h_sn h) = Some i.

(** ** Moving TX_Next *)
Lemma retx_ok_mono s s' r :
  (forall k i, get s k = Some i -> exists i', get s' k = Some i' /\ info_sdu i' = info_sdu i) ->
  retx_ok s r -> retx_ok s' r.
Proof. intros Hm (i & Hg & ? & ? & ?). destruct (Hm _ _ Hg) as (i' & Hg' & E). exists i'. by rewrite E. Qed.

(** What building a PDU may change: the queue, the window at TX_Next, the segmentation. *)
Record building s s' (i : tx_sdu_info) : Prop := {
  bu_ack : tx_next_ack (tx_st s') = tx_next_ack (tx_st s);
  bu_retx : retx_queue s' = retx_queue s;
  bu_queue : queue_inv (queue_size cfg) (tx_queue s');
  bu_sdus : Forall (fun x => sdu_ok (sdu_bytes x)) (content (queue_size cfg) (tx_queue s'));
  bu_window : window_wf W (tx_window s');
  bu_count : count (tx_window s') = dist s (tx_next (tx_st s)) + 1;
  bu_get : forall k, get s' k = if decide (k = tx_next (tx_st s)) then Some i else get s k;
  bu_same_sdu : forall j, get s (tx_next (tx_st s)) = Some j -> info_sdu i = info_sdu j;
  bu_info : sdu_ok (info_sdu i) /\ 0 <= next_so i <= zlen (info_sdu i) /\ 0 <= retx_count i < 2 ^ 32
}.

Lemma building_member s s' i :
  tx_inv s -> building s s' i ->
  forall k, is_Some (get s' k) <-> 0 <= k < md /\ (dist s k < dist s (tx_next (tx_st s)) \/ k = tx_next (tx_st s)).
Proof.
  intros H B k. pose proof (ti_next _ H). rewrite (bu_get _ _ _ B). destruct (decide (k = tx_next (tx_st s))) as [->|Hne].
  - split; [auto|eauto].
  - rewrite (ti_member _ H). tauto.
Qed.

Lemma building_sdu s s' i :
  building s s' i -> forall k j, get s k = Some j -> exists j', get s' k = Some j' /\ info_sdu j' = info_sdu j.
Proof.
  intros B k j Hj. rewrite (bu_get _ _ _ B). destruct (decide (k = tx_next (tx_st s))) as [->|]; [|eauto].
  exists i. split; [done|]. by apply (bu_same_sdu _ _ _ B).
Qed.

(** The SDU at TX_Next is (still) under segmentation. *)
Lemma building_segment_inv s s' i :
  tx_inv s -> building s s' i -> dist s (tx_next (tx_st s)) < W -> 0 < next_so i < zlen (info_sdu i) ->
  tx_next (tx_st s') = tx_next (tx_st s) -> sn_under_segmentation s' = tx_next (tx_st s) -> tx_inv s'.
Proof.
  intros H B Hd Hi En Es. pose proof (building_member s s' i H B) as Hm.
  assert (Hseg : segmenting s' = true) by (unfold segmenting; rewrite Es, En; apply Z.eqb_refl).
  split; rewrite ?(bu_ack _ _ _ B), ?En, ?Hseg.
  - apply (ti_ack _ H).
  - apply (ti_next _ H).
  - apply (ti_dist _ H).
  - apply (bu_window _ _ _ B).
  - intros k. rewrite Hm. tauto.
  - apply (bu_count _ _ _ B).
  - by right.
  - intros k j Hj. rewrite (bu_get _ _ _ B) in Hj. destruct (bu_info _ _ _ B) as (? & ? & ?).
    destruct (decide (k = tx_next (tx_st s))) as [->|].
    + injection Hj as <-. by split.
    + destruct (ti_info _ H _ _ Hj). split; try done. by rewrite En.
  - apply (bu_queue _ _ _ B).
  - apply (bu_sdus _ _ _ B).
  - rewrite (bu_retx _ _ _ B). apply (ti_retx _ H).
  - rewrite (bu_retx _ _ _ B). eapply Forall_impl; [apply (ti_retx_ok _ H)|].
    intros r. apply retx_ok_mono. by eapply building_sdu.
Qed.

(** The SDU at TX_Next has been sent to its end. *)
Lemma building_advance_inv s s' i :
  tx_inv s -> building s s' i -> dist s (tx_next (tx_st s)) < W ->
  tx_next (tx_st s') = sn_next md (tx_next (tx_st s)) -> sn_under_segmentation s' = INVALID_RLC_SN -> tx_inv s'.
Proof.
  intros H B Hd En Es. pose proof (building_member s s' i H B) as Hm. pose proof (W_bounds).
  pose proof (sn_next_range (m := md) (tx_next (tx_st s))) as Hr.
  assert (Hdn : dist s (sn_next md (tx_next (tx_st s))) = dist s (tx_next (tx_st s)) + 1)
    by (apply sn_dist_next_lt; lia).
  assert (Hseg : segmenting s' = false) by (unfold segmenting; rewrite Es, En; apply Z.eqb_neq; lia).
  assert (Hnot : forall k, is_Some (get s' k) -> k <> sn_next md (tx_next (tx_st s))).
  { intros k [_ [?| ->]]%Hm Heq; [rewrite Heq in *; lia|]. rewrite <- Heq in Hdn at 1. lia. }
  split; rewrite ?(bu_ack _ _ _ B), ?En, ?Hseg, ?Hdn.
  - apply (ti_ack _ H).
  - done.
  - lia.
  - apply (bu_window _ _ _ B).
  - intros k. rewrite Hm. split.
    + intros [Hk [?| ->]]; (split; [done|left; lia]).
    + intros [Hk [?|[_ ?]]]; [|done]. split; [done|].
      destruct (decide (dist s k < dist s (tx_next (tx_st s)))); [by left|right].
      apply (sn_dist_inj (tx_next_ack (tx_st s))); [done|apply (ti_next _ H)|lia].
  - rewrite (bu_count _ _ _ B). lia.
  - by left.
  - intros k j Hj. pose proof (Hnot k ltac:(eauto)) as Hk. rewrite (bu_get _ _ _ B) in Hj.
    destruct (bu_info _ _ _ B) as (? & ? & ?). destruct (decide (k = tx_next (tx_st s))) as [->|].
    + injection Hj as <-. split; try done. by rewrite En.
    + destruct (ti_info _ H _ _ Hj). split; try done. by rewrite En.
  - apply (bu_queue _ _ _ B).
  - apply (bu_sdus _ _ _ B).
  - rewrite (bu_retx _ _ _ B). apply (ti_retx _ H).
  - rewrite (bu_retx _ _ _ B). eapply Forall_impl; [apply (ti_retx_ok _ H)|].
    intros r. apply retx_ok_mono. by eapply building_sdu.
Qed.

(** ** New SDUs and segments *)
Lemma building_update s s1 s2 i i' w :
  building s s1 i -> cm_set W (tx_window s1) (tx_next (tx_st s)) i' = ok w ->
  tx_next_ack (tx_st s2) = tx_next_ack (tx_st s1) -> retx_queue s2 = retx_queue s1 -> tx_queue s2 = tx_queue s1 ->
  tx_window s2 = w -> info_sdu i' = info_sdu i -> 0 <= next_so i' <= zlen (info_sdu i') ->
  retx_count i' = retx_count i -> building s s2 i'.
Proof.
  intros B Hset E1 E2 E3 E4 E5 Hn Er. destruct (bu_info _ _ _ B) as (? & ? & ?).
  assert (Hg : get s1 (tx_next (tx_st s)) = Some i) by (rewrite (bu_get _ _ _ B), decide_True; done).
  destruct (cm_set_ok _ _ _ i' _ (bu_window _ _ _ B) Hg) as (w' & Hw & Hwf & Hc & Hget).
  rewrite Hset in Hw. injection Hw as <-. subst w. split; rewrite ?E1, ?E2, ?E3, ?E5, ?Er; try apply B; try done.
  - rewrite Hc. apply B.
  - intros k. rewrite Hget, (bu_get _ _ _ B). by destruct (decide _).
  - split; [done|]. rewrite E5 in Hn. done.
Qed.

Lemma cm_set_building s s1 i x : building s s1 i -> exists w, cm_set W (tx_window s1) (tx_next (tx_st s)) x = ok w.
Proof.
  intros B. assert (Hg : get s1 (tx_next (tx_st s)) = Some i) by (rewrite (bu_get _ _ _ B), decide_True; done).
  destruct (cm_set_ok _ _ _ x _ (bu_window _ _ _ B) Hg) as (w & -> & _). eauto.
Qed.

Lemma building_core s s1 s2 x i : building s s1 i -> same_core (with_segmentation s1 x) s2 -> building s s2 i.
Proof.
  intros [? ? ? ? ? ? ? ? ?] (E1 & E2 & E3 & E4 & E5 & E6). simpl in *.
  split; rewrite ?E1, ?E2, ?E3, ?E5, ?E6; done.
Qed.

Lemma building_same s s1 s2 i : building s s1 i -> same_core s1 s2 -> building s s2 i.
Proof.
  intros [? ? ? ? ? ? ? ? ?] (E1 & E2 & E3 & E4 & E5 & E6). split; rewrite ?E1, ?E2, ?E3, ?E5, ?E6; done.
Qed.

(** The result of a function that builds data PDUs. *)
Definition built (grant : Z) (r : outcome (bytes * rlc_tx_am_entity)) : Prop :=
  exists pdu s', r = ok (pdu, s') /\ tx_inv s' /\ data_pulled grant s' pdu.

Lemma build_first_sdu_segment_ok grant s s1 i :
  tx_inv s -> building s s1 i -> dist s (tx_next (tx_st s)) < W ->
  tx_next (tx_st s1) = tx_next (tx_st s) -> next_so i = 0 ->
  hmin < grant < zlen (info_sdu i) + hmin -> built grant (build_first_sdu_segment cfg grant s1 i).
Proof.
  intros H B Hd En Hso Hg. pose proof header_sizes. pose proof (ti_next _ H).
  destruct (bu_info _ _ _ B) as (Hsdu & _ & Hrc). unfold sdu_ok in Hsdu.
  unfold build_first_sdu_segment. do 2 zfalse. rewrite (u32_small (grant - hmin)) by lia.
  destruct (get_polling_bit_core (with_segmentation s1 (tx_next (tx_st s1))) (tx_next (tx_st s1)) false (grant - hmin))
    as (p & s2 & -> & Hp & Hcore).
  cbv beta match zeta. rewrite Hso, Z.add_0_l. change (u16 0) with 0. rewrite En in *.
  destruct (assemble_pdu_ok grant (mk_header data p first_segment sz (tx_next (tx_st s)) 0) (info_sdu i) (grant - hmin))
    as (pdu & payload & -> & Hlen & Hpay & Hcar); cbn [h_so h_si]; unfold get_packed_size; simpl; try done; try lia.
  { unfold segment_si. simpl. by zfalse. }
  pose proof (building_core _ _ _ _ _ B Hcore) as B2. destruct Hcore as (E1 & E2 & E3 & E4 & E5 & E6). simpl in *.
  set (i' := set_next_so i (u32 (grant - hmin))).
  assert (Hi' : next_so i' = grant - hmin) by (unfold i'; simpl; rewrite u32_small; lia).
  destruct (cm_set_building _ _ _ i' B2) as (w & Hw). rewrite Hw, bind_ok.
  assert (B3 : building s (with_window s2 w) i').
  { eapply building_update; try done. rewrite Hi'. simpl. lia. }
  eexists _, _. split; [reflexivity|]. split.
  - eapply building_segment_inv; try done; [rewrite Hi'; simpl; lia|simpl; congruence].
  - right. unfold get_packed_size in Hlen. simpl in Hlen. split; [lia|].
    eexists _, payload, i'. split; [exact Hcar|]. cbn [h_sn].
    rewrite (bu_get _ _ _ B3), decide_True; done.
Qed.

(** A state in which nothing has been built yet. *)
Lemma building_refl s i :
  tx_inv s -> segmenting s = true -> get s (tx_next (tx_st s)) = Some i -> building s s i.
Proof.
  intros H Hs Hi. destruct (ti_info _ H _ _ Hi). split; try done; try apply H.
  - rewrite (ti_count _ H), Hs. done.
  - intros k. by destruct (decide (k = tx_next (tx_st s))) as [->|].
  - intros j Hj. congruence.
Qed.

Lemma build_continued_sdu_segment_ok grant s i :
  tx_inv s -> segmenting s = true -> get s (tx_next (tx_st s)) = Some i ->
  built grant (build_continued_sdu_segment cfg grant s (tx_next (tx_st s)) i).
Proof.
  intros H Hs Hi. pose proof header_sizes. pose proof (ti_next _ H).
  destruct (ti_info _ H _ _ Hi) as [Hsdu Hn Hseg Hrc]. specialize (Hseg eq_refl). unfold sdu_ok in Hsdu.
  assert (Hd : dist s (tx_next (tx_st s)) < W).
  { destruct (ti_segmenting _ H) as [E|[_ ?]]; [|done]. unfold segmenting in Hs. rewrite E in Hs.
    apply Z.eqb_eq in Hs. pose proof W_bounds. lia. }
  unfold build_continued_sdu_segment. do 2 zfalse.
  destruct (Z.leb_spec grant hmax) as [Hg|Hg]; [exists [], s; split; [done|split; [done|by left]]|].
  rewrite (u32_small (zlen (info_sdu i) - next_so i)) by lia. cbv zeta.
  set (more := grant <? zlen (info_sdu i) - next_so i + hmax).
  set (len := if more then u32 (grant - hmax) else zlen (info_sdu i) - next_so i).
  assert (Hlen : 0 < len /\ len <= grant - hmax /\ next_so i + len <= zlen (info_sdu i) /\
    (next_so i + len = zlen (info_sdu i) <-> more = false)).
  { unfold len, more. destruct (Z.ltb_spec grant (zlen (info_sdu i) - next_so i + hmax)); [rewrite u32_small by lia|];
      split_and!; try lia; split; intros; (done || lia). }
  destruct Hlen as (L1 & L2 & L3 & L4). clearbody len more.
  set (s1 := if more then s else with_segmentation s INVALID_RLC_SN).
  assert (Hs1 : tx_next (tx_st s1) = tx_next (tx_st s) /\ exists x, same_core (with_segmentation s x) s1 /\
    x = if more then tx_next (tx_st s) else INVALID_RLC_SN).
  { unfold s1. destruct more; (split; [done|]); eexists; (split; [|reflexivity]); repeat split; simpl.
    unfold segmenting in Hs. by apply Z.eqb_eq. }
  destruct Hs1 as (En1 & x & Hc1 & Hx). rewrite En1.
  destruct (get_polling_bit_core s1 (tx_next (tx_st s)) false len) as (p & s2 & -> & Hp & Hcore).
  cbv beta match zeta. pose proof (same_core_trans _ _ _ Hc1 Hcore) as Hc2. rewrite (u16_small (next_so i)) by lia.
  pose proof Hc2 as (E1 & E2 & E3 & E4 & E5 & E6). simpl in E1, E2, E3, E4, E5, E6. rewrite E2.
  destruct (assemble_pdu_ok grant (mk_header data p (if more then middle_segment else last_segment) sz
    (tx_next (tx_st s)) (next_so i)) (info_sdu i) len) as (pdu & payload & -> & Hplen & Hpay & Hcar);
    cbn [h_so h_si h_sn_size h_dc]; try done.
  { split; cbn [h_p h_sn h_so h_si]; [done|done|lia|]. zfalse. by destruct more. }
  { unfold get_packed_size. cbn [h_si h_sn_size]. destruct more; simpl; lia. }
  { unfold segment_si. zfalse. destruct more.
    - destruct (Z.eqb_spec (next_so i + len) (zlen (info_sdu i))); [|done]. by apply L4 in e.
    - destruct (Z.eqb_spec (next_so i + len) (zlen (info_sdu i))); [done|]. destruct n. by apply L4. }
  pose proof (building_core _ _ _ _ _ (building_refl s i H Hs Hi) Hc2) as B2.
  set (i' := set_next_so i (u32 (next_so i + len))).
  assert (Hi' : next_so i' = next_so i + len) by (unfold i'; simpl; rewrite u32_small; lia).
  destruct (cm_set_building _ _ _ i' B2) as (w & Hw). rewrite Hw, bind_ok.
  assert (B3 : building s (with_window s2 w) i').
  { eapply building_update; try done. rewrite Hi'. simpl. lia. }
  assert (Hpulled : forall s3, same_core (with_window s2 w) s3 \/ (exists y, s3 = with_st (with_window s2 w) y) ->
    data_pulled grant s3 pdu).
  { intros s3 Hs3. right. unfold get_packed_size in Hplen. cbn [h_si h_sn_size] in Hplen.
    split; [destruct more; simpl in Hplen; lia|]. exists (mk_header data p (if more then middle_segment else last_segment) sz
    (tx_next (tx_st s)) (next_so i)), payload, i'. split; [exact Hcar|]. cbn [h_sn].
    assert (tx_window s3 = tx_window (with_window s2 w)) as ->
      by (destruct Hs3 as [(_ & _ & _ & _ & _ & ->)|[y ->]]; done).
    rewrite (bu_get _ _ _ B3), decide_True; done. }
  destruct more.
  - eexists _, _. split; [reflexivity|]. split; [|apply Hpulled; left; apply same_core_refl].
    eapply building_segment_inv; try done; [|simpl; congruence]. rewrite Hi'. simpl.
    assert (next_so i + len <> zlen (info_sdu i)) by (intros E; by apply L4 in E). lia.
  - eexists _, _. split; [reflexivity|]. split; [|apply Hpulled; right; eexists; reflexivity].
    assert (B4 : building s (with_st (with_window s2 w) (set_tx_next (tx_st (with_window s2 w))
      (sn_next md (tx_next (tx_st (with_window s2 w)))))) i') by (destruct B3; by split).
    eapply building_advance_inv; try done; simpl; congruence.
Qed.

Lemma build_full_sdu_ok grant s s1 i :
  tx_inv s -> building s s1 i -> dist s (tx_next (tx_st s)) < W ->
  tx_next (tx_st s1) = tx_next (tx_st s) -> sn_under_segmentation s1 = INVALID_RLC_SN ->
  hmin + zlen (info_sdu i) <= grant -> built grant (ok (build_full_sdu cfg grant s1 i)).
Proof.
  intros H B Hd En Eseg Hg. pose proof header_sizes. pose proof (ti_next _ H).
  destruct (bu_info _ _ _ B) as (Hsdu & _ & _). unfold sdu_ok in Hsdu. unfold build_full_sdu. rewrite En.
  destruct (get_polling_bit_core s1 (tx_next (tx_st s)) false 0) as (p & s2 & -> & Hp & Hcore). cbv beta match zeta.
  set (hdr := mk_header data p full_sdu sz (tx_next (tx_st s)) 0).
  destruct (assemble_pdu_ok grant hdr (info_sdu i) (zlen (info_sdu i))) as (pdu & payload & Hpdu & Hplen & Hpay & Hcar);
    cbn [hdr h_so h_si h_sn_size h_dc]; unfold get_packed_size; simpl; try done; try lia.
  { unfold segment_si. simpl. by rewrite Z.eqb_refl. }
  unfold assemble_pdu in Hpdu. cbn [hdr h_so] in Hpdu. rewrite slice_full in Hpdu. fold hdr in Hpdu.
  destruct (zlen (rlc_am_write_data_pdu_header hdr) =? 0); [done|]. simpl in Hpdu |- *.
  destruct (zlen (copy_segments (info_sdu i) (grant - zlen (rlc_am_write_data_pdu_header hdr))) =? 0); [done|].
  simpl in Hpdu. destruct (negb _); [done|]. injection Hpdu as ->.
  pose proof (building_same _ _ _ _ B Hcore) as B3.
  destruct Hcore as (E1 & E2 & E3 & E4 & E5 & E6).
  unfold get_packed_size in Hplen. cbn [hdr h_si h_sn_size si_has_so] in Hplen.
  eexists _, _. split; [reflexivity|]. split.
  - assert (B4 : building s (with_st s2 (set_tx_next (tx_st s2) (sn_next md (tx_next (tx_st s2))))) i)
      by (destruct B3; by split).
    eapply building_advance_inv; try done; simpl; congruence.
  - right. split; [lia|]. exists hdr, payload, i. split; [done|]. cbn [hdr h_sn].
    change (tx_window (with_st s2 _)) with (tx_window s2). rewrite (bu_get _ _ _ B3), decide_True; done.
Qed.

(** Reading an SDU for a new PDU. *)
Lemma building_new s q w info :
  tx_inv s -> segmenting s = false -> dist s (tx_next (tx_st s)) < W ->
  queue_inv (queue_size cfg) q -> Forall (fun x => sdu_ok (sdu_bytes x)) (content (queue_size cfg) q) ->
  sdu_ok (info_sdu info) -> next_so info = 0 -> retx_count info = RETX_COUNT_NOT_STARTED ->
  add_sn W tx_sdu_info_init (tx_window s) (tx_next (tx_st s)) = ok w ->
  exists w', cm_set W w (tx_next (tx_st s)) info = ok w' /\ building s (with_window (with_queue s q) w') info.
Proof.
  intros H Hs Hd Hq Hc Hi Hn Hr Hadd.
  destruct (window_add (m := md) (W := W) tx_sdu_info_init _ (tx_window s) (tx_next (tx_st s)) (ti_window _ H)
    (tx_window_in s H) (ti_next _ H) Hd (next_free s H Hs)) as (w1 & Hw1 & Hwf1 & Hc1 & Hget1).
  rewrite Hadd in Hw1. injection Hw1 as <-.
  assert (Hg : wget W w (tx_next (tx_st s)) = Some tx_sdu_info_init) by (rewrite Hget1, decide_True; done).
  destruct (cm_set_ok _ _ _ info _ Hwf1 Hg) as (w' & Hw' & Hwf' & Hc' & Hget').
  exists w'. split; [done|]. split; try done.
  - simpl. rewrite Hc', Hc1, (ti_count _ H), Hs. lia.
  - intros k. simpl. rewrite Hget', Hget1. by destruct (decide (k = tx_next (tx_st s))).
  - intros j Hj. by rewrite (next_free s H Hs) in Hj.
  - split; [done|]. unfold sdu_ok in Hi. rewrite Hn, Hr. unfold RETX_COUNT_NOT_STARTED. lia.
Qed.

Lemma notify_transfer_core s sdu : same_core s (notify_transfer cfg s sdu).
Proof. unfold notify_transfer. destruct (sdu_pdcp_sn sdu); [|by repeat split]. destruct (sdu_is_retx sdu); by repeat split. Qed.

Lemma with_queue_inv s q :
  tx_inv s -> queue_inv (queue_size cfg) q ->
  Forall (fun x => sdu_ok (sdu_bytes x)) (content (queue_size cfg) q) -> tx_inv (with_queue s q).
Proof.
  intros [? ? ? ? ? ? ? Hi ? ? ? Hr] Hq Hc. split; try done.
  intros k i Hk. destruct (Hi k i Hk). by split.
Qed.

Lemma build_new_pdu_ok grant s : tx_inv s -> segmenting s = false -> built grant (build_new_pdu cfg grant s).
Proof.
  intros H Hs. unfold build_new_pdu.
  destruct (Z.leb_spec grant hmin); [exists [], s; split; [done|split; [done|by left]]|].
  destruct (is_tx_window_full cfg s) eqn:Hf; [exists [], s; split; [done|split; [done|by left]]|].
  pose proof (window_not_full s H Hs Hf) as Hd.
  destruct (read_spec (queue_size cfg) Hqueue (tx_queue s) (ti_queue _ H)) as (q & -> & Hc & Hq).
  pose proof (ti_sdus _ H) as Hsdus. destruct (content (queue_size cfg) (tx_queue s)) as [|sdu l]; simpl in Hc |- *.
  { eexists [], _. split; [reflexivity|]. split; [|by left]. apply with_queue_inv; try done. by rewrite Hc. }
  apply Forall_cons in Hsdus as [Hsdu Hl].
  destruct (window_add (m := md) (W := W) tx_sdu_info_init _ (tx_window s) (tx_next (tx_st s)) (ti_window _ H)
    (tx_window_in s H) (ti_next _ H) Hd (next_free s H Hs)) as (w & Hw & _). rewrite Hw, bind_ok.
  set (info := mk_tx_sdu_info (sdu_bytes sdu) (sdu_is_retx sdu) (sdu_pdcp_sn sdu) 0 RETX_COUNT_NOT_STARTED).
  destruct (building_new s q w info H Hs Hd Hq) as (w' & Hw' & B); try done; [by rewrite Hc|].
  rewrite Hw', bind_ok. set (s1 := with_window (with_queue s q) w') in *.
  pose proof (notify_transfer_core s1 sdu) as Hcore. change (with_window (with_queue s q) w') with s1.
  assert (B1 : building s (notify_transfer cfg s1 sdu) info).
  { by eapply building_same. }
  destruct Hcore as (E1 & E2 & E3 & E4 & E5 & E6).
  destruct (Z.ltb_spec grant (zlen (sdu_bytes sdu) + hmin)).
  - eapply build_first_sdu_segment_ok; done.
  - eapply build_full_sdu_ok; try done; [|simpl; lia]. rewrite E4. simpl.
    pose proof (segmenting_true s H) as Hst. rewrite Hs in Hst. symmetry in Hst. apply negb_false_iff, Z.eqb_eq in Hst. done.
Qed.

(** ** Retransmissions *)
Lemma with_retx_inv s q :
  tx_inv s -> retx_inv W q -> Forall (retx_ok s) (retx_content q) -> tx_inv (with_retx s q).
Proof.
  intros [? ? ? ? ? ? ? Hi ? ? ? ?] Hq Hc. split; try done.
  intros k i Hk. destruct (Hi k i Hk). by split.
Qed.

Lemma W_retx_bound : 0 <= W < 2 ^ 32.
Proof. pose proof W_bounds. lia. Qed.

Lemma retx_front_info s r l :
  tx_inv s -> retx_content (retx_queue s) = r :: l ->
  retx_front (retx_queue s) = ok r /\ has_sn W (tx_window s) (r_sn r) = true /\
  exists i, get s (r_sn r) = Some i /\ cm_at W (tx_window s) (r_sn r) = ok i /\ sdu_ok (info_sdu i) /\
    0 <= r_so r /\ 0 < r_length r /\ r_so r + r_length r <= zlen (info_sdu i).
Proof.
  intros H E. pose proof (ti_retx_ok _ H) as Hr. rewrite E in Hr. apply Forall_cons in Hr as [(i & Hi & ? & ? & ?) _].
  split; [by eapply retx_front_ok; [apply (ti_retx _ H)|]|]. split; [by eapply has_sn_true|].
  exists i. split_and!; try done; [by apply cm_at_ok|]. apply (ti_info _ H _ _ Hi).
Qed.

Lemma drop_missing_retx_ok fuel s r l :
  tx_inv s -> retx_content (retx_queue s) = r :: l -> drop_missing_retx cfg (S fuel) s = ok (true, s).
Proof.
  intros H E. destruct (retx_front_info s r l H E) as (Hf & Hh & _). simpl. by rewrite Hf, bind_ok, Hh.
Qed.

(** The retransmission that is left after [len] of its bytes were sent. *)
Lemma update_retx_front_ok s r l len :
  tx_inv s -> retx_content (retx_queue s) = r :: l -> 0 < len <= r_length r ->
  exists q, update_retx_front s (len =? r_length r) len = ok (with_retx s q) /\ tx_inv (with_retx s q).
Proof.
  intros H E Hlen. destruct (retx_front_info s r l H E) as (Hf & _ & i & Hi & _ & Hsdu & H1 & H2 & H3).
  unfold sdu_ok in Hsdu. pose proof W_retx_bound. pose proof (ti_retx_ok _ H) as Hall. rewrite E in Hall.
  apply Forall_cons in Hall as [_ Hl]. unfold update_retx_front. destruct (Z.eqb_spec len (r_length r)).
  - exists (retx_pop (retx_queue s)). split; [done|].
    destruct (retx_pop_ok W (retx_queue s) (ti_retx _ H)) as [Hq Hc].
    apply with_retx_inv; try done. by rewrite Hc, E.
  - rewrite Hf, bind_ok. rewrite (u32_small (r_so r + len)), (u32_small (r_length r - len)) by lia.
    destruct (replace_front_ok W (retx_queue s) r l (mk_retx (r_sn r) (r_so r + len) (r_length r - len))
      (ti_retx _ H) E) as (q & Hq & Hinv & Hc); [simpl; lia|]. rewrite Hq, bind_ok.
    exists q. split; [done|]. apply with_retx_inv; try done. rewrite Hc. constructor; [|done].
    exists i. simpl. split_and!; try done; lia.
Qed.

Lemma retx_si_ok r i len :
  0 < len <= r_length r -> r_so r + r_length r <= zlen (info_sdu i) ->
  retx_si r (zlen (info_sdu i) <=? r_so r + len) = segment_si (zlen (info_sdu i)) (r_so r) len.
Proof.
  intros. unfold retx_si, segment_si.
  destruct (Z.leb_spec (zlen (info_sdu i)) (r_so r + len)), (Z.eqb_spec (r_so r + len) (zlen (info_sdu i))); try lia; done.
Qed.

Lemma segment_si_has_so n so len : si_has_so (segment_si n so len) = negb (so =? 0).
Proof. unfold segment_si. by destruct (so =? 0), (so + len =? n). Qed.

Lemma build_retx_pdu_ok grant s :
  tx_inv s -> retx_empty (retx_queue s) = false -> built grant (build_retx_pdu cfg grant s).
Proof.
  intros H He. unfold build_retx_pdu. rewrite He. pose proof header_sizes.
  rewrite (retx_empty_content W) in He by apply (ti_retx _ H). apply bool_decide_eq_false in He.
  destruct (retx_content (retx_queue s)) as [|r l] eqn:E; [done|].
  rewrite (drop_missing_retx_ok _ s r l H E), bind_ok. cbv beta match. cbn [negb].
  destruct (retx_front_info s r l H E) as (Hf & _ & i & Hi & Hat & Hsdu & H1 & H2 & H3). unfold sdu_ok in Hsdu.
  rewrite Hf, bind_ok. change (tx_window (with_retx_sn s (r_sn r))) with (tx_window s). rewrite Hat, bind_ok.
  rewrite (u32_small (r_so r + r_length r)) by lia. zfalse.
  assert (H' : tx_inv (with_retx_sn s (r_sn r))) by (by apply (tx_inv_core s)).
  set (s1 := with_retx_sn s (r_sn r)) in *.
  destruct (Z.leb_spec grant (get_retx_expected_hdr_len cfg r)) as [|Hg]; [exists [], s1; split; [done|split; [done|by left]]|].
  set (len := Z.min (r_length r) (grant - get_retx_expected_hdr_len cfg r)).
  assert (Hlen : 0 < len <= r_length r) by lia.
  destruct (update_retx_front_ok s1 r l len H' E Hlen) as (q & -> & H2'). rewrite bind_ok.
  destruct (get_polling_bit_core (with_retx s1 q) (r_sn r) true 0) as (p & s2 & -> & Hp & Hcore). cbv beta match zeta.
  rewrite retx_si_ok by done. rewrite (u16_small (r_so r)) by lia.
  set (hdr := mk_header data p (segment_si (zlen (info_sdu i)) (r_so r) len) sz (r_sn r) (r_so r)).
  assert (Hmem : is_Some (get s (r_sn r))) by eauto. apply (ti_member _ H) in Hmem as [Hsn _].
  assert (Hw : header_wf hdr) by (split; simpl; [done|done|lia|apply segment_si_has_so]).
  assert (Hsize : get_packed_size hdr = get_retx_expected_hdr_len cfg r).
  { unfold get_packed_size, get_retx_expected_hdr_len. simpl. rewrite segment_si_has_so. by destruct (r_so r =? 0). }
  rewrite (write_header_length hdr Hw), Hsize, Z.eqb_refl. simpl.
  destruct (assemble_pdu_ok grant hdr (info_sdu i) len) as (pdu & payload & -> & Hplen & Hpay & Hcar);
    cbn [hdr h_so h_si h_sn_size h_dc]; try done; try lia.
  simpl. eexists _, _. split; [reflexivity|]. split; [by eapply tx_inv_core|].
  right. split; [lia|]. exists hdr, payload, i. split; [done|]. destruct Hcore as (_ & _ & _ & _ & _ & ->). done.
Qed.
End tx_inv.
