(* ===== verification/RlcTxAmStatus.v ===== *)
(** * The transmitting AM entity: status reports, buffer state and events

    The second half of the proof that the invariant [tx_inv] holds in every reachable state: the
    handling of status reports, which takes acknowledged SDUs out of the window and queues the
    reported bytes for retransmission, the expiry of t-PollRetransmit, the upper layer's calls and
    [pull_pdu]. The receiving entity is any [StatusProvider] that satisfies [StatusProviderLaws]. *)

From S2P Require Import Prelude SduWindow PdcpSnUtil RlcAmPdu RlcSegments RlcSduQueue RlcRetxQueue RlcTxAm RlcTxAmInv.

(** What the receiving entity promises to the transmitting one: reports that can be packed. *)
Class StatusProviderLaws (P : Type) `{StatusProvider P} (sz : rlc_am_sn_size) (Inv : P -> Prop) : Prop := {
  spl_get p : Inv p -> status_wf (sp_get p).1 /\ s_sn_size (sp_get p).1 = sz /\ Inv (sp_get p).2;
  spl_write p r : Inv p -> status_wf r -> s_sn_size r = sz -> Inv (sp_write p r)
}.

(** Between two states only events are appended, and the polling counters stay as they are. *)
Definition only_emits s s' : Prop :=
  tx_out s `prefix_of` tx_out s' /\ pdu_without_poll (tx_st s') = pdu_without_poll (tx_st s) /\
  byte_without_poll (tx_st s') = byte_without_poll (tx_st s).

Lemma only_emits_refl s : only_emits s s.
Proof. by split_and!. Qed.

Lemma only_emits_trans s1 s2 s3 : only_emits s1 s2 -> only_emits s2 s3 -> only_emits s1 s3.
Proof. intros (?&?&?) (?&?&?). split_and!; [by etrans|congruence..]. Qed.

Lemma only_emits_emit s s1 e : only_emits s s1 -> only_emits s (tx_emit s1 e).
Proof. intros (?&?&?). split_and!; [by apply prefix_app_r|done..]. Qed.

Ltac solve_emits := unfold only_emits; split_and!; simpl; rewrite <- ?app_assoc; first [reflexivity | by apply prefix_app_r].

Section tx_status.
Context (cfg : rlc_tx_am_config) (is_srb : bool).
Context (Hqueue : 0 < queue_size cfg < 2 ^ 16) (Hbytes : 0 <= queue_size_bytes cfg < 2 ^ 32).

Local Abbreviation sz := (tx_sn_field_length cfg).
Local Abbreviation md := (am_mod sz).
Local Abbreviation W := (am_window sz).
Local Abbreviation hmin := (rlc_am_pdu_header_min_size sz).
Local Abbreviation hmax := (rlc_am_pdu_header_max_size sz).
Local Abbreviation dist s x := (sn_dist md (tx_next_ack (tx_st s)) x).
Local Abbreviation get s k := (wget W (tx_window s) k).
Local Abbreviation tx_inv := (tx_inv cfg).
Local Abbreviation segmenting := segmenting.

Lemma ti_retx_content s : tx_inv s -> retx_empty (retx_queue s) = bool_decide (retx_content (retx_queue s) = []).
Proof. intros H. eapply retx_empty_content, (ti_retx _ _ H). Qed.

(** What is sent of an SDU: its bytes and how many of them went out. *)
Definition sdu_sent (i : tx_sdu_info) : bytes * Z := (info_sdu i, next_so i).

(** ** Counters of retransmissions *)

(** A change of the counter of one SDU. *)
Record recounted s s' : Prop := {
  rc_ack : tx_next_ack (tx_st s') = tx_next_ack (tx_st s);
  rc_next : tx_next (tx_st s') = tx_next (tx_st s);
  rc_queue : tx_queue s' = tx_queue s;
  rc_seg : sn_under_segmentation s' = sn_under_segmentation s;
  rc_retx : retx_queue s' = retx_queue s;
  rc_get : forall k, option_map sdu_sent (get s' k) = option_map sdu_sent (get s k);
  rc_out : only_emits s s'
}.

Lemma set_count_ok s sn f :
  tx_inv s -> is_Some (get s sn) -> (forall n, 0 <= n < 2 ^ 32 -> 0 <= f n < 2 ^ 32) ->
  exists i w, cm_at W (tx_window s) sn = ok i /\ get s sn = Some i /\
    cm_set W (tx_window s) sn (set_retx_count i (f (retx_count i))) = ok w /\
    tx_inv (with_window s w) /\ recounted s (with_window s w) /\
    wget W w sn = Some (set_retx_count i (f (retx_count i))).
Proof.
  intros H [i Hi] Hf. destruct (ti_info _ _ H _ _ Hi) as [Hsdu Hn Hseg Hr].
  destruct (cm_set_ok _ _ _ (set_retx_count i (f (retx_count i))) _ (ti_window _ _ H) Hi) as (w & Hw & Hwf & Hc & Hget).
  assert (Hsome : forall k, is_Some (wget W w k) <-> is_Some (get s k)).
  { intros k. rewrite Hget. destruct (decide (k = sn)) as [->|]; [|done]. rewrite Hi. split; eauto. }
  assert (Hmap : forall k, option_map sdu_sent (wget W w k) = option_map sdu_sent (get s k)).
  { intros k. rewrite Hget. destruct (decide (k = sn)) as [->|]; [|done]. by rewrite Hi. }
  exists i, w. split; [by apply cm_at_ok|]. split; [done|]. split; [done|].
  split; [|split; [by split|rewrite Hget, decide_True; done]].
  destruct H. split; try done.
  - intros k. simpl. by rewrite Hsome.
  - simpl. by rewrite Hc.
  - intros k j Hj. simpl in Hj. rewrite Hget in Hj. destruct (decide (k = sn)) as [->|].
    + injection Hj as <-. split; simpl; try done. by apply Hf.
    + destruct (ti_info k j Hj). by split.
  - eapply Forall_impl; [done|]. intros r (j & Hj & ?). specialize (Hmap (r_sn r)). simpl. rewrite Hj in Hmap.
    simpl in *. destruct (wget W w (r_sn r)) as [j'|] eqn:E; simpl in Hmap; [|done]. injection Hmap as Hmap _.
    exists j'. split; [done|]. by rewrite Hmap.
Qed.

Lemma incremented_range n : 0 <= n < 2 ^ 32 -> 0 <= incremented_retx_count n < 2 ^ 32.
Proof. intros. unfold incremented_retx_count. destruct (n =? _); [lia|]. apply Z.mod_pos_bound. lia. Qed.

Lemma decremented_range n : 0 <= n < 2 ^ 32 -> 0 <= decremented_retx_count n < 2 ^ 32.
Proof. intros. unfold decremented_retx_count, RETX_COUNT_NOT_STARTED. zcases; lia. Qed.

Lemma recounted_emit s s1 e : recounted s s1 -> recounted s (tx_emit s1 e).
Proof. intros [? ? ? ? ? ? ?]. split; try done. by apply only_emits_emit. Qed.

Lemma increment_retx_count_ok s sn :
  tx_inv s -> is_Some (get s sn) ->
  exists s', increment_retx_count cfg s sn = ok s' /\ tx_inv s' /\ recounted s s'.
Proof.
  intros H Hi. destruct (set_count_ok s sn _ H Hi incremented_range) as (i & w & Ha & Hg & Hw & Hinv & Hrc & Hget).
  unfold increment_retx_count, check_sn_reached_max_retx. rewrite Ha, bind_ok, Hw, bind_ok.
  simpl. rewrite (cm_at_ok _ _ _ _ Hget), bind_ok. eexists. split; [reflexivity|].
  destruct (_ =? _); [|done]. split; [by apply (tx_inv_core _ (with_window s w))|by apply recounted_emit].
Qed.

Lemma decrement_retx_count_ok s sn :
  tx_inv s -> is_Some (get s sn) ->
  exists s', decrement_retx_count cfg s sn = ok s' /\ tx_inv s' /\ recounted s s'.
Proof.
  intros H Hi. destruct (set_count_ok s sn _ H Hi decremented_range) as (i & w & Ha & Hg & Hw & Hinv & Hrc & _).
  unfold decrement_retx_count. rewrite Ha, bind_ok, Hw, bind_ok. eauto.
Qed.

Lemma W_large : 2 ^ 8 <= W.
Proof. unfold window_size, cardinality. destruct sz; vm_compute; done. Qed.

Lemma md_large : 2 ^ 8 < md.
Proof. pose proof (W_bounds cfg). pose proof W_large. lia. Qed.

(** ** The buffer state *)
Section provider.
Context {P : Type} `{StatusProvider P} (Inv : P -> Prop) {Hlaws : StatusProviderLaws P sz Inv}.

(** What has to be sent, headers included. *)
Definition bytes_to_send (p : P) s : Z :=
  let l := content (queue_size cfg) (tx_queue s) in
  let rl := retx_content (retx_queue s) in
  (total_bytes l + zlen l * hmin)
  + (if segmenting s then
       match get s (tx_next (tx_st s)) with Some i => zlen (info_sdu i) - next_so i + hmax | None => 0 end
     else 0)
  + (sum_length rl + count_so_zero rl * hmin + (zlen rl - count_so_zero rl) * hmax)
  + (if sp_required p then sp_length p else 0).

Lemma u32_add a b c d : u32 (u32 a + u32 b + u32 c + d) = u32 (a + b + c + d).
Proof. unfold u32. rewrite <- (Zplus_mod_idemp_l (_ + _ + _) d), <- (Zplus_mod_idemp_l (a + b + c) d). f_equal. f_equal.
  rewrite (Zplus_mod (a mod 2 ^ 32 + b mod 2 ^ 32)), Zmod_mod, <- (Zplus_mod a b), <- Zplus_mod. done. Qed.

Lemma get_buffer_state_ok p s : tx_inv s -> get_buffer_state_nolock cfg p s = ok (u32 (bytes_to_send p s)).
Proof.
  intros Hi. unfold get_buffer_state_nolock, bytes_to_send. pose proof (segmenting_true _ _ Hi) as Hseg.
  destruct (queue_counters (queue_size cfg) (queue_size_bytes cfg) Hqueue Hbytes (tx_queue s) (ti_queue _ _ Hi)) as [-> ->].
  destruct (ri_counts _ _ (ti_retx _ _ Hi)) as [-> -> -> _ _]. rewrite <- Hseg.
  destruct (segmenting s) eqn:Es.
  - destruct (segmenting_info _ s Hi Es) as (-> & i & Hg & _). rewrite (has_sn_true _ _ _ _ Hg), Hg.
    rewrite (cm_at_ok _ _ _ _ Hg), bind_ok, bind_ok. rewrite u32_add. done.
  - rewrite bind_ok. change 0 with (u32 0) at 1. rewrite u32_add. done.
Qed.

Lemma update_mac_buffer_state_ok p s force :
  tx_inv s -> exists s', update_mac_buffer_state cfg p s force = ok s' /\ same_core s s'.
Proof.
  intros Hi. unfold update_mac_buffer_state.
  rewrite get_buffer_state_ok by (by apply (tx_inv_core _ s)). rewrite bind_ok.
  eexists. split; [reflexivity|]. by destruct (force || _ || _).
Qed.

Lemma update_mac_buffer_state_out p s force s' :
  update_mac_buffer_state cfg p s force = ok s' -> only_emits s s'.
Proof.
  unfold update_mac_buffer_state. destruct (get_buffer_state_nolock _ _ _); [|done]. rewrite bind_ok. intros [= <-].
  destruct (force || _ || _); solve_emits.
Qed.

Lemma handle_changed_buffer_state_core env s : same_core s (handle_changed_buffer_state env s).
Proof. unfold handle_changed_buffer_state. destruct (negb _); [|done]. by destruct (pcell_defer_ok env). Qed.

Lemma handle_changed_buffer_state_out env s : only_emits s (handle_changed_buffer_state env s).
Proof. unfold handle_changed_buffer_state. destruct (negb _); [destruct (pcell_defer_ok env)|]; solve_emits. Qed.

Lemma handle_sdu_out env s buf r s' : handle_sdu cfg is_srb env s buf r = ok s' -> only_emits s s'.
Proof.
  unfold handle_sdu. destruct (get_pdcp_sn _ _ _); [|done]. rewrite bind_ok. destruct (write _ _ _ _) as [b q].
  intros [= <-]. destruct b; [|solve_emits].
  eapply only_emits_trans; [|apply handle_changed_buffer_state_out]. solve_emits.
Qed.

Lemma discard_sdu_out env s sn : only_emits s (discard_sdu cfg env s sn).
Proof.
  unfold discard_sdu. destruct (try_discard _ _ _) as [b q]. destruct b; [|solve_emits].
  eapply only_emits_trans; [|apply handle_changed_buffer_state_out]. solve_emits.
Qed.

(** ** The upper layer *)
Lemma handle_sdu_ok env s buf r :
  tx_inv s -> is_bytes buf -> sdu_ok buf ->
  exists s', handle_sdu cfg is_srb env s buf r = ok s' /\ tx_inv s'.
Proof.
  intros Hi Hb Hs. unfold handle_sdu. destruct (get_pdcp_sn_ok buf (pdcp_sn_len cfg) is_srb Hb) as (o & -> & Ho).
  rewrite bind_ok. set (sdu := mk_sdu buf (if is_srb && r then false else r) o).
  assert (Hsn : sn_ok sdu).
  { unfold sn_ok. simpl. destruct o as [sn|]; [|done]. specialize (Ho sn eq_refl). unfold STATE_DISCARDED. lia. }
  assert (Hw : exists b q, write (queue_size cfg) (queue_size_bytes cfg) (tx_queue s) sdu = (b, q) /\
    queue_inv (queue_size cfg) q /\ Forall (fun x => sdu_ok (sdu_bytes x)) (content (queue_size cfg) q)).
  { destruct (write_ok (queue_size cfg) (queue_size_bytes cfg) (tx_queue s) sdu) eqn:E.
    - rewrite (write_accepted _ _ _ _ E). eexists _, _. split; [reflexivity|].
      split; [apply (pushed_inv _ (queue_size_bytes cfg)); try done; apply (ti_queue _ _ Hi)|].
      rewrite pushed_content; [|unfold write_ok in E; by apply andb_prop in E as [[_ ?]%andb_prop _]|apply (ti_queue _ _ Hi)].
      apply Forall_app. split; [apply (ti_sdus _ _ Hi)|by constructor].
    - destruct (write_refused _ _ _ _ E (ti_queue _ _ Hi)) as (q & -> & Hc & Hq).
      eexists _, _. split; [reflexivity|]. split; [done|]. rewrite Hc. apply (ti_sdus _ _ Hi). }
  destruct Hw as (b & q & -> & Hq & Hc). eexists. split; [reflexivity|].
  assert (Hi' : tx_inv (with_queue s q)) by (by apply with_queue_inv).
  destruct b; [|done]. eapply tx_inv_core; [apply handle_changed_buffer_state_core|done].
Qed.

Lemma discard_sdu_ok env s sn :
  tx_inv s -> 0 <= sn < STATE_DISCARDED -> tx_inv (discard_sdu cfg env s sn).
Proof.
  intros Hi Hsn. unfold discard_sdu.
  destruct (try_discard_spec (queue_size cfg) (queue_size_bytes cfg) Hqueue Hbytes (tx_queue s) sn Hsn (ti_queue _ _ Hi))
    as (q & -> & Hc & Hq).
  assert (Hi' : tx_inv (with_queue s q)).
  { apply with_queue_inv; try done. rewrite Hc. apply Forall_forall. intros x Hx%list_elem_of_In.
    apply List.filter_In in Hx as [Hx _]. pose proof (ti_sdus _ _ Hi) as Hall. rewrite Forall_forall in Hall.
    apply Hall. by apply list_elem_of_In. }
  destruct (existsb _ _); [|done]. eapply tx_inv_core; [apply handle_changed_buffer_state_core|done].
Qed.

(** ** Polling *)
Lemma retx_push_ok s r :
  tx_inv s -> retx_ok cfg s r ->
  exists b q, retx_try_push W (retx_queue s) r = (b, q) /\ tx_inv (with_retx s q) /\
    retx_content q = (if b then retx_content (retx_queue s) ++ [r] else retx_content (retx_queue s)) /\
    b = (zlen (rq_items (retx_queue s)) <? W) /\ zlen (rq_items q) <= zlen (rq_items (retx_queue s)) + 1.
Proof.
  intros Hi Hr. pose proof (W_bounds cfg). pose proof (ti_retx _ _ Hi) as Hq.
  assert (Hlen : forall x, retx_ok cfg s x -> 0 < r_length x < 2 ^ 15).
  { intros x (i & Hg & ? & ? & ?). destruct (ti_info _ _ Hi _ _ Hg) as [[? ?] _ _ _]. lia. }
  assert (Hsum : forall l, Forall (retx_ok cfg s) l -> sum_length l <= zlen l * (2 ^ 15 - 1)).
  { induction 1 as [|x l Hx Hl IH]; [simpl; lia|]. specialize (Hlen x Hx). cbn [sum_length foldr].
    fold (sum_length l). rewrite length_cons. lia. }
  specialize (Hsum _ (ti_retx_ok _ _ Hi)). specialize (Hlen r Hr).
  destruct (Z.ltb_spec (zlen (rq_items (retx_queue s))) W) as [Hlt|Hge].
  - pose proof (valid_retx_length (rq_items (retx_queue s))) as Hv. fold (retx_content (retx_queue s)) in Hv.
    destruct (retx_try_push_ok W (W_retx_bound cfg) (retx_queue s) r Hq) as (q & Hpush & Hq' & Hc); [lia|lia|].
    unfold retx_try_push in *. destruct (Z.ltb_spec (zlen (rq_items (retx_queue s))) W); [|lia].
    injection Hpush as Hpush. exists true, q. split; [by f_equal|].
    split; [|split_and!; try done; subst q; cbn [rq_items]; rewrite length_app; simpl; lia]. apply with_retx_inv; try done. rewrite Hc.
    apply Forall_app. split; [apply (ti_retx_ok _ _ Hi)|by constructor].
  - exists false, (retx_queue s). unfold retx_try_push. destruct (Z.ltb_spec (zlen (rq_items (retx_queue s))) W); [lia|].
    split; [done|]. split; [|split_and!; try done; lia]. apply with_retx_inv; try done. apply (ti_retx_ok _ _ Hi).
Qed.

(** Byte [j] of SDU [k] is waiting for its retransmission. *)
Definition queued s (k j : Z) : Prop :=
  exists r, r ∈ retx_content (retx_queue s) /\ r_sn r = k /\ r_so r <= j < r_so r + r_length r.

(** What the expiry of t-PollRetransmit does while nothing else could carry the poll. *)
Record poll_repeated s s' (i : tx_sdu_info) : Prop := {
  pr_flag : is_poll_retransmit_timer_expired s' = true;
  pr_queue : zlen (rq_items (retx_queue s)) < W ->
    forall j, 0 <= j < zlen (info_sdu i) -> queued s' (tx_next_ack (tx_st s)) j;
  pr_reported : exists bs, ev_buffer_state bs ∈ tx_out s'
}.

Lemma expired_window s : tx_inv s -> cm_is_empty (tx_window s) = false -> is_Some (get s (tx_next_ack (tx_st s))).
Proof.
  intros Hi He. apply (ti_member _ _ Hi). split; [apply (ti_ack _ _ Hi)|]. rewrite sn_dist_self.
  unfold cm_is_empty in He. apply Z.eqb_neq in He. rewrite (ti_count _ _ Hi) in He.
  pose proof (sn_dist_range (m := md) (tx_next_ack (tx_st s)) (tx_next (tx_st s))).
  destruct (decide (0 < dist s (tx_next (tx_st s)))) as [|Hd]; [by left|right].
  assert (E : dist s (tx_next (tx_st s)) = 0) by lia. rewrite E in He.
  apply (sn_dist_0 _ _ (ti_ack _ _ Hi) (ti_next _ _ Hi)) in E. split; [done|]. revert He. by destruct (segmenting s).
Qed.

Lemma on_expired_poll_retransmit_timer_ok p s :
  tx_inv s ->
  exists s', on_expired_poll_retransmit_timer cfg p s = ok s' /\ tx_inv s' /\ only_emits s s' /\
    (if nothing_to_send cfg s then
       if cm_is_empty (tx_window s) then s' = s
       else exists i, get s (tx_next_ack (tx_st s)) = Some i /\ poll_repeated s s' i
     else s' = with_poll_timer s (poll_retransmit_timer s) true).
Proof.
  intros Hi. unfold on_expired_poll_retransmit_timer.
  destruct (nothing_to_send cfg s).
  2: { eexists. split; [reflexivity|]. split; [by apply (tx_inv_core _ s)|]. split; [solve_emits|done]. }
  destruct (cm_is_empty (tx_window s)) eqn:He.
  { exists s. split_and!; try done. }
  destruct (expired_window s Hi He) as [i E]. clear He.
  rewrite (has_sn_true _ _ _ _ E), (cm_at_ok _ _ _ _ E), bind_ok. cbn [negb].
  destruct (ti_info _ _ Hi _ _ E) as [[Hl1 Hl2] _ _ _]. rewrite (u32_small (zlen _)) by lia.
  destruct (retx_push_ok s (mk_retx (tx_next_ack (tx_st s)) 0 (zlen (info_sdu i))) Hi) as (b & q & -> & Hi' & Hc & Hb & _).
  { exists i. simpl. split_and!; try done; lia. }
  assert (Hcnt : exists s1, (if b then increment_retx_count cfg (with_retx s q) (tx_next_ack (tx_st (with_retx s q)))
    else ok (with_retx s q)) = ok s1 /\ tx_inv s1 /\ only_emits s s1 /\ retx_queue s1 = q).
  { destruct b; [|exists (with_retx s q); split_and!; [done|done|solve_emits|done]].
    change (tx_next_ack (tx_st (with_retx s q))) with (tx_next_ack (tx_st s)).
    destruct (increment_retx_count_ok (with_retx s q) (tx_next_ack (tx_st s)) Hi') as (s1 & -> & ? & Hrc); [eauto|].
    exists s1. split_and!; [done|done| |apply (rc_retx _ _ Hrc)].
    eapply only_emits_trans; [|apply (rc_out _ _ Hrc)]. solve_emits. }
  destruct Hcnt as (s1 & Hs1 & Hi1 & Ho1 & Hq1). cbv zeta. rewrite Hs1, bind_ok.
  destruct (update_mac_buffer_state_ok p s1 true Hi1) as (s2 & Hup & Hcore). rewrite Hup, bind_ok.
  assert (Hev : exists bs, ev_buffer_state bs ∈ tx_out s2).
  { revert Hup. unfold update_mac_buffer_state. destruct (get_buffer_state_nolock _ _ _) as [bs|]; [|done].
    rewrite bind_ok. intros [= <-]. exists bs. simpl. apply elem_of_app. right. by left. }
  apply update_mac_buffer_state_out in Hup.
  eexists. split; [reflexivity|]. split; [apply (tx_inv_core _ s2); [done|]; by eapply tx_inv_core|].
  split; [eapply only_emits_trans; [exact Ho1|exact Hup]|]. exists i. split; [done|].
  split; [done| |exact Hev]. intros Hlen j Hj. rewrite (proj2 (Z.ltb_lt _ _) Hlen) in Hb. subst b.
  destruct Hcore as (_&_&_&_&E5&_). exists (mk_retx (tx_next_ack (tx_st s)) 0 (zlen (info_sdu i))). simpl.
  rewrite E5, Hq1, Hc. split; [apply elem_of_app; right; by left|]. split; [done|lia].
Qed.

(** ** [pull_pdu] *)

(** A status PDU: a report of the receiving entity, as a whole or trimmed to the grant. *)
Definition status_pulled (grant : Z) (p : P) (pdu : bytes) : Prop :=
  exists report dropped, pdu = pack report /\ zlen pdu <= grant /\ status_wf report /\ s_sn_size report = sz /\
    nacks (sp_get p).1 = nacks report ++ dropped /\
    ack_sn report = match dropped with [] => ack_sn (sp_get p).1 | d :: _ => nack_sn d end.

Lemma pull_status_pdu_ok grant p :
  Inv p -> sizeof_header_ack_sn <= grant ->
  exists pdu p', pull_status_pdu grant p = ok (pdu, p') /\ Inv p' /\ status_pulled grant p pdu.
Proof.
  intros Hp Hg. unfold pull_status_pdu, status_pulled. destruct (spl_get p Hp) as (Hwf & Hsz & Hp').
  destruct (sp_get p) as [r p1]. cbn [fst snd] in *. destruct (Z.ltb_spec grant (packed_size r)) as [Hlt|Hge].
  - destruct (trim_ok r grant Hwf) as (b & r' & -> & Hb & _ & Ht). rewrite bind_ok. cbv beta match.
    destruct b; [|exfalso; pose proof (proj1 Hb eq_refl); lia].
    destruct (Ht eq_refl) as (Hwf' & Hsz' & Hfit & dropped & Hd & Hack). simpl.
    eexists _, _. split; [reflexivity|]. split; [apply spl_write; congruence|].
    exists r', dropped. rewrite (pack_size r' Hwf'). split_and!; try done; [congruence|..].
  - eexists _, _. split; [reflexivity|]. split; [done|]. exists r, []. rewrite (pack_size r Hwf), app_nil_r.
    by split_and!.
Qed.

(** What [pull_pdu] hands to the lower layer. *)
Definition pulled (grant : Z) (p : P) s s' (pdu : bytes) : Prop :=
  if sp_required p then (grant < sizeof_header_ack_sn /\ pdu = [] \/ status_pulled grant p pdu) /\ s' = s
  else data_pulled cfg grant s' pdu.

Lemma pull_pdu_ok grant p s :
  tx_inv s -> Inv p ->
  exists pdu p' s', pull_pdu cfg grant p s = ok (pdu, p', s') /\ tx_inv s' /\ Inv p' /\ pulled grant p s s' pdu.
Proof.
  intros Hi Hp. unfold pull_pdu, pulled. destruct (sp_required p).
  { destruct (Z.ltb_spec grant sizeof_header_ack_sn) as [Hlt|Hge].
    - exists [], p, s. split; [done|]. split_and!; try done. by left.
    - destruct (pull_status_pdu_ok grant p Hp Hge) as (pdu & p' & -> & Hp' & Hst). rewrite bind_ok.
      eexists _, _, _. split; [reflexivity|]. split_and!; try done. by right. }
  destruct (negb (retx_empty (retx_queue s))) eqn:He.
  { apply negb_true_iff in He. destruct (build_retx_pdu_ok cfg grant s Hi He) as (pdu & s' & -> & Hi' & Hd).
    rewrite bind_ok. eexists _, _, _. split; [reflexivity|]. by split_and!. }
  assert (Hnew : forall s1, tx_inv s1 -> segmenting s1 = false -> built cfg grant (pull_new_pdu cfg grant s1)).
  { intros s1 H1 Hs1. unfold pull_new_pdu. destruct (queue_is_empty _); [|by apply build_new_pdu_ok].
    exists [], s1. split; [done|]. split; [done|]. by left. }
  pose proof (segmenting_true _ _ Hi) as Hseg. destruct (segmenting s) eqn:Es; rewrite <- Hseg.
  - destruct (segmenting_info _ s Hi Es) as (Esn & i & Hg & _). rewrite Esn, (has_sn_true _ _ _ _ Hg).
    rewrite (cm_at_ok _ _ _ _ Hg), bind_ok.
    destruct (build_continued_sdu_segment_ok cfg Hqueue Hbytes grant s i Hi Es Hg) as (pdu & s' & -> & Hi' & Hd).
    rewrite bind_ok. eexists _, _, _. split; [reflexivity|]. by split_and!.
  - destruct (Hnew s Hi Es) as (pdu & s' & -> & Hi' & Hd).
    rewrite bind_ok. eexists _, _, _. split; [reflexivity|]. by split_and!.
Qed.

(** ** Acknowledged SDUs

    While SDUs leave the window, the retransmission queue still names them; it is emptied
    afterwards. [no_retx s] is the state without it. *)
Definition no_retx s : rlc_tx_am_entity := with_retx s retx_queue_init.

Lemma ack_one_inv s i :
  tx_inv (no_retx s) -> 0 < dist s (tx_next (tx_st s)) -> get s (tx_next_ack (tx_st s)) = Some i ->
  exists w, remove_sn W (tx_window s) (tx_next_ack (tx_st s)) = ok w /\
    (forall k, wget W w k = if decide (k = tx_next_ack (tx_st s)) then None else get s k) /\
    tx_inv (no_retx (with_st (with_window s w) (set_tx_next_ack (tx_st s) (sn_next md (tx_next_ack (tx_st s)))))).
Proof.
  intros Hi Hd Hg. destruct Hi as [Ha Hn Hdn Hw Hm Hc Hs Hinf Hq Hsd Hr Hro]. simpl in *.
  destruct (remove_sn_ok _ _ _ _ Hw Hg) as (w & Hrm & Hwf & Hcnt & Hget).
  exists w. split; [done|]. split; [done|]. pose proof (W_bounds cfg).
  set (a := tx_next_ack (tx_st s)) in *. set (n := tx_next (tx_st s)) in *.
  assert (Hna : n <> a) by (intros E; rewrite E, sn_dist_self in Hd; lia).
  assert (Hdist : forall k, 0 <= k < md -> k <> a -> sn_dist md (sn_next md a) k = sn_dist md a k - 1)
    by (intros; by apply sn_dist_base_next).
  assert (Hself : sn_dist md (sn_next md a) a = md - 1).
  { rewrite (sn_dist_rebase a), sn_dist_self, sn_dist_next_lt; rewrite ?sn_dist_self; [zfalse; lia|lia]. }
  split; simpl; fold a n; try done.
  - apply sn_next_range.
  - rewrite Hdist by done. lia.
  - intros k. rewrite Hget. destruct (decide (k = a)) as [->|Hne].
    + split; [by intros [? ?]|]. intros [_ [Hlt|[? _]]]; [|congruence]. exfalso.
      rewrite (Hdist n) in Hlt by done. lia.
    + rewrite Hm. split; intros [Hk [Hlt|Hseg]]; (split; [done|]); try (by right); left.
      * rewrite !Hdist by done. lia.
      * rewrite !Hdist in Hlt by done. lia.
  - rewrite Hcnt, Hc, Hdist by done. unfold segmenting. simpl. lia.
  - destruct Hs as [?|[? ?]]; [by left|right]. split; [done|]. rewrite Hdist by done. lia.
  - intros k j Hj. rewrite Hget in Hj. destruct (decide (k = a)); [done|]. destruct (Hinf _ _ Hj). by split.
Qed.

(** The SDUs that are acknowledged, from TX_Next_Ack on. *)
Definition acked_infos s (n : nat) : list tx_sdu_info :=
  omap (fun j => get s ((tx_next_ack (tx_st s) + Z.of_nat j) mod md)) (seq 0 n).

Definition delivered_by (l : list tx_sdu_info) : delivered_sns := foldl note_delivered (mk_delivered None None) l.

(** The state after the SDUs before [sn] have been acknowledged. *)
Record acked s s' (sn : Z) : Prop := {
  ak_inv : tx_inv (no_retx s');
  ak_ack : tx_next_ack (tx_st s') = sn;
  ak_next : tx_next (tx_st s') = tx_next (tx_st s);
  ak_seg : sn_under_segmentation s' = sn_under_segmentation s;
  ak_queue : tx_queue s' = tx_queue s;
  ak_retx : retx_queue s' = retx_queue s;
  ak_get : forall k, 0 <= k < md -> get s' k = if dist s k <? dist s sn then None else get s k;
  ak_out : tx_out s' = tx_out s;
  ak_emits : only_emits s s'
}.

Lemma acked_infos_next s sn i :
  0 <= tx_next_ack (tx_st s) < md -> 0 <= sn < md -> get s sn = Some i ->
  acked_infos s (S (Z.to_nat (dist s sn))) = acked_infos s (Z.to_nat (dist s sn)) ++ [i].
Proof.
  intros Ha Hsn Hg. unfold acked_infos. rewrite seq_S, omap_app. simpl.
  pose proof (sn_dist_range (m := md) (tx_next_ack (tx_st s)) sn).
  replace (Z.of_nat (Z.to_nat (dist s sn))) with (dist s sn) by lia.
  rewrite <- (sn_dist_inv (m := md) (tx_next_ack (tx_st s)) sn Hsn), Hg. done.
Qed.

Lemma process_acks_ok s stop :
  tx_inv (no_retx s) -> 0 <= stop < md -> dist s stop <= dist s (tx_next (tx_st s)) ->
  exists s', process_acks cfg s stop = ok (s', delivered_by (acked_infos s (Z.to_nat (dist s stop)))) /\ acked s s' stop.
Proof.
  intros Hi Hstop Hd. pose proof (W_bounds cfg). pose proof (ti_ack _ _ Hi) as Hack. simpl in Hack.
  unfold process_acks.
  destruct (for_loop_rule
    (fun sn x => 0 <= sn < md /\ dist s sn <= dist s stop /\ acked s x.1 sn /\
       x.2 = delivered_by (acked_infos s (Z.to_nat (dist s sn))))
    (fun sn x => acked s x.1 stop /\ x.2 = delivered_by (acked_infos s (Z.to_nat (dist s stop))))
    (fun sn x => Z.to_nat (dist s stop - dist s sn))
    (ack_loop_fuel cfg) (fun sn x => tx_mod_base cfg x.1 sn <? tx_mod_base cfg x.1 stop)
    (sn_next md) (ack_sdu cfg) (tx_next_ack (tx_st s)) (s, mk_delivered None None))
    as (sn' & [s' d] & -> & HQ & Hdl).
  - split; [done|]. rewrite sn_dist_self. pose proof (sn_dist_range (m := md) (tx_next_ack (tx_st s)) stop).
    split; [lia|]. split; [|done]. split; try done. intros k Hk. rewrite sn_dist_self.
    pose proof (sn_dist_range (m := md) (tx_next_ack (tx_st s)) k). by zfalse.
  - unfold ack_loop_fuel. pose proof (sn_dist_range (m := md) (tx_next_ack (tx_st s)) stop).
    rewrite sn_dist_self. lia.
  - intros sn [s1 d] (Hsn & Hle & Hak & Hdl) Hc. apply Z.ltb_ge in Hc. simpl in *. unfold tx_mod_base in Hc.
    rewrite (ak_ack _ _ _ Hak), sn_dist_self in Hc. pose proof (sn_dist_range (m := md) sn stop).
    assert (E : sn_dist md sn stop = 0) by lia. apply sn_dist_0 in E as ->; [|done|done]. done.
  - intros sn [s1 d] (Hsn & Hle & Hak & Hdl) Hc. apply Z.ltb_lt in Hc. simpl in *. unfold tx_mod_base in Hc.
    rewrite (ak_ack _ _ _ Hak), sn_dist_self in Hc.
    assert (Hlt : dist s sn < dist s stop).
    { destruct (decide (dist s sn = dist s stop)) as [E|]; [|lia]. exfalso.
      apply (sn_dist_inj _ _ _ Hsn Hstop) in E. subst. rewrite sn_dist_self in Hc. lia. }
    assert (Hin : is_Some (get s sn)) by (apply (ti_member _ _ Hi sn); split; [done|left; simpl; lia]).
    destruct Hin as [i Hgi].
    assert (Hg1 : get s1 sn = Some i) by (rewrite (ak_get _ _ _ Hak) by done; rewrite Z.ltb_irrefl; done).
    rewrite (has_sn_true _ _ _ _ Hg1), (cm_at_ok _ _ _ _ Hg1), bind_ok. cbn [tx_window with_recycler].
    assert (Hd1 : 0 < dist s1 (tx_next (tx_st s1))).
    { pose proof (ti_member _ _ (ak_inv _ _ _ Hak) sn) as Hm. simpl in Hm.
      rewrite (ak_ack _ _ _ Hak), (ak_next _ _ _ Hak) in *.
      pose proof (sn_dist_range (m := md) sn (tx_next (tx_st s))). 
      destruct (decide (sn_dist md sn (tx_next (tx_st s)) = 0)) as [E|]; [|lia].
      apply (sn_dist_0 sn (tx_next (tx_st s)) Hsn (ti_next _ _ Hi)) in E. rewrite <- E in Hlt. lia. }
    assert (Hg1' : get s1 (tx_next_ack (tx_st s1)) = Some i) by (rewrite (ak_ack _ _ _ Hak); done).
    destruct (ack_one_inv s1 i (ak_inv _ _ _ Hak) Hd1 Hg1') as (w & Hrm & Hget & Hinv).
    rewrite (ak_ack _ _ _ Hak) in *. rewrite Hrm, bind_ok.
    pose proof (sn_dist_range (m := md) (tx_next_ack (tx_st s)) stop).
    assert (Hnx : dist s (sn_next md sn) = dist s sn + 1) by (apply sn_dist_next_lt; lia).
    eexists _, _. split; [reflexivity|]. split; [done|]. intros _. cbn [fst snd].
    split; [|lia]. split; [apply sn_next_range|]. split; [lia|]. split.
    + destruct Hak as [_ _ ? ? ? ? Hakg ?]. split; simpl; try done; [eapply tx_inv_core; [|exact Hinv]; by repeat split|].
      intros k Hk. rewrite Hget. destruct (decide (k = sn)) as [->|Hne].
      * rewrite Hnx. by ztrue.
      * rewrite Hakg by done. rewrite Hnx.
        assert (dist s k <> dist s sn) by (intros E; apply Hne; by apply (sn_dist_inj (tx_next_ack (tx_st s)) _ _ Hk Hsn)).
        zcases; (lia || done).
    + rewrite Hdl, Hnx. replace (Z.to_nat (dist s sn + 1)) with (S (Z.to_nat (dist s sn)))
        by (pose proof (sn_dist_range (m := md) (tx_next_ack (tx_st s)) sn); lia).
      rewrite (acked_infos_next s sn i) by done. unfold delivered_by. by rewrite foldl_app.
  - simpl in *. exists s'. split; [by rewrite Hdl|done].
Qed.

(** ** Negative acknowledgements *)

(** What the handling of NACKs leaves as it is: everything but retransmissions and their counters. *)
Record kept s s' : Prop := {
  kp_ack : tx_next_ack (tx_st s') = tx_next_ack (tx_st s);
  kp_next : tx_next (tx_st s') = tx_next (tx_st s);
  kp_queue : tx_queue s' = tx_queue s;
  kp_seg : sn_under_segmentation s' = sn_under_segmentation s;
  kp_get : forall k, option_map sdu_sent (get s' k) = option_map sdu_sent (get s k);
  kp_out : only_emits s s'
}.

Lemma kept_refl s : kept s s.
Proof. by split. Qed.

Lemma kept_trans s1 s2 s3 : kept s1 s2 -> kept s2 s3 -> kept s1 s3.
Proof. intros [? ? ? ? H1 O1] [? ? ? ? H2 O2]. split; try congruence. by eapply only_emits_trans. Qed.

Lemma recounted_kept s s' : recounted s s' -> kept s s'.
Proof. by intros [? ? ? ? ? ? ?]. Qed.

Lemma core_kept s s' : same_core s s' -> only_emits s s' -> kept s s'.
Proof. intros (?&?&?&?&?&E) ?. split; try done. by rewrite E. Qed.

Lemma kept_some s s' k : kept s s' -> is_Some (get s' k) <-> is_Some (get s k).
Proof.
  intros Hk. pose proof (kp_get _ _ Hk k) as E.
  destruct (get s' k), (get s k); simpl in E; try done; split; intros; eauto.
Qed.

Lemma decrement_with_retx s q sn :
  decrement_retx_count cfg (with_retx s q) sn = (x ← decrement_retx_count cfg s sn; ok (with_retx x q)).
Proof.
  unfold decrement_retx_count. simpl. destruct (cm_at W (tx_window s) sn); [|done]. simpl.
  by destruct (cm_set _ _ _ _).
Qed.

Lemma with_retx_self s : with_retx (no_retx s) (retx_queue s) = s.
Proof. by destruct s. Qed.

(** The queue is emptied, and only counters of SDUs change. *)
Lemma clear_retx_queue_ok fuel : forall s,
  tx_inv (no_retx s) -> retx_inv W (retx_queue s) -> (length (retx_content (retx_queue s)) < fuel)%nat ->
  exists s', clear_retx_queue cfg fuel s = ok s' /\ tx_inv s' /\ retx_content (retx_queue s') = [] /\
    kept s s' /\ tx_out s' = tx_out s.
Proof.
  induction fuel as [|fuel IH]; intros s Hi Hq Hf; [lia|]. simpl.
  rewrite (retx_empty_content W _ Hq). destruct (retx_content (retx_queue s)) as [|r l] eqn:E.
  { exists s. split; [done|]. split; [|split; [done|split; [apply kept_refl|done]]].
    rewrite <- (with_retx_self s). apply with_retx_inv; try done. by rewrite E. }
  rewrite bool_decide_false by done. rewrite (retx_front_ok W _ r l Hq E), bind_ok.
  destruct (retx_pop_ok W _ Hq) as [Hq' Hc']. rewrite E in Hc'. simpl in Hc', Hf.
  assert (Hstep : exists s1, (if negb (retx_sn s =? r_sn r) then
      s0 ← if has_sn W (tx_window s) (r_sn r) then decrement_retx_count cfg s (r_sn r) else ok s;
      ok (with_retx_sn s0 (r_sn r)) else ok s) = ok s1 /\
    tx_inv (no_retx s1) /\ kept s s1 /\ retx_queue s1 = retx_queue s /\ tx_out s1 = tx_out s).
  { destruct (negb (retx_sn s =? r_sn r)); [|exists s; split_and!; try done; apply kept_refl].
    destruct (get s (r_sn r)) as [i|] eqn:Eg.
    - rewrite (has_sn_true _ _ _ _ Eg).
      destruct (set_count_ok (no_retx s) (r_sn r) _ Hi (ex_intro _ i Eg) decremented_range)
        as (j & w & Ha & Hgj & Hw & Hinv & Hrc & _). cbn [no_retx tx_window with_retx] in Ha, Hw.
      unfold decrement_retx_count. rewrite Ha, bind_ok, Hw, !bind_ok.
      eexists. split; [reflexivity|]. split; [eapply tx_inv_core; [|exact Hinv]; by repeat split|].
      split; [|done]. destruct Hrc. by split.
    - rewrite (has_sn_false _ _ _ Eg), bind_ok. eexists. split; [reflexivity|].
      split; [eapply tx_inv_core; [|exact Hi]; by repeat split|]. split; [|done]. by apply core_kept. }
  destruct Hstep as (s1 & Hs1 & Hi1 & Hk1 & Hr1 & Ho1). rewrite Hs1, bind_ok, Hr1.
  destruct (IH (with_retx s1 (retx_pop (retx_queue s)))) as (s' & -> & Hi' & He' & Hk' & Ho').
  - eapply tx_inv_core; [|exact Hi1]. by repeat split.
  - done.
  - simpl. rewrite Hc'. lia.
  - exists s'. split_and!; try done; [|by rewrite Ho'].
    eapply kept_trans; [exact Hk1|]. destruct Hk'. by split.
Qed.

(** Byte [j] of SDU [k] has been sent, and the SDU is still in the window. *)
Definition sent_byte s (k j : Z) : Prop :=
  exists i, get s k = Some i /\ 0 <= j < if k =? sn_under_segmentation s then next_so i else zlen (info_sdu i).

(** From [s] to [s'] the bytes of [l] that were sent have been queued, and nothing was taken out. *)
Record requeued (l : list missing) s s' : Prop := {
  rq_kept : kept s s';
  rq_inv : tx_inv s';
  rq_length : zlen (rq_items (retx_queue s')) <= zlen (rq_items (retx_queue s)) + zlen l;
  rq_old : forall r, r ∈ retx_content (retx_queue s) -> r ∈ retx_content (retx_queue s');
  rq_new : zlen (rq_items (retx_queue s)) + zlen l <= W ->
    forall k j, reported l k j -> sent_byte s k j -> queued s' k j
}.

Lemma sent_byte_kept s s' k j : kept s s' -> sent_byte s k j -> sent_byte s' k j.
Proof.
  intros Hk (i & Hg & Hj). pose proof (kp_get _ _ Hk k) as E. rewrite Hg in E.
  destruct (get s' k) as [i'|] eqn:E'; [|done]. unfold sdu_sent in E. injection E as E1 E2.
  exists i'. split; [done|]. by rewrite (kp_seg _ _ Hk), E1, E2.
Qed.

Lemma requeued_refl s : tx_inv s -> requeued [] s s.
Proof. split; [apply kept_refl|done|simpl; lia|done|]. intros _ k j (? & ? & []%elem_of_nil & _). Qed.

Lemma requeued_weaken l s s' : zlen (rq_items (retx_queue s')) <= zlen (rq_items (retx_queue s)) ->
  (forall k j, reported l k j -> ~ sent_byte s k j) ->
  (forall r, r ∈ retx_content (retx_queue s) -> r ∈ retx_content (retx_queue s')) ->
  kept s s' -> tx_inv s' -> requeued l s s'.
Proof. intros Hl Hn ? ? ?. split; try done; [lia|]. intros _ k j Hr Hs. by destruct (Hn k j). Qed.

Lemma requeued_trans l1 l2 s s1 s2 : requeued l1 s s1 -> requeued l2 s1 s2 -> requeued (l1 ++ l2) s s2.
Proof.
  intros [K1 I1 L1 O1 N1] [K2 I2 L2 O2 N2]. rewrite ?length_app in *. split; auto.
  - by eapply kept_trans.
  - rewrite length_app. lia.
  - intros Hb k j [Hr|Hr]%reported_app Hs; rewrite length_app in Hb.
    + destruct (N1 ltac:(lia) k j Hr Hs) as (r & Hin & ?). exists r. auto.
    + apply N2; [lia|done|]. by eapply sent_byte_kept.
Qed.

Lemma requeued_recounted l s s1 s2 : requeued l s s1 -> recounted s1 s2 -> tx_inv s2 -> requeued l s s2.
Proof.
  intros [K1 I1 L1 O1 N1] Hrc I2. pose proof (rc_retx _ _ Hrc) as E. split; rewrite ?E; try done.
  - eapply kept_trans; [done|by apply recounted_kept].
  - intros Hb k j Hr Hs. unfold queued. rewrite E. by apply N1.
Qed.


(** The bytes that a NACK is resolved to contain the missing ones that were sent. *)
Lemma sanitize_segment_ok env s n a b :
  0 < n < 2 ^ 15 -> 0 <= a -> 0 <= b ->
  let '(a', b', s') := sanitize_segment env s n (a, b) in
  0 <= a' <= b' /\ b' < n /\ same_core s s' /\ only_emits s s' /\ forall j, a <= j <= b -> 0 <= j < n -> a' <= j <= b'.
Proof.
  intros Hn Ha Hb. unfold sanitize_segment, defer_protocol_failure.
  destruct (Z.ltb_spec b a); destruct (ue_defer_ok env); zcases; rewrite ?u16_small by lia;
    (split; [lia|split; [lia|split; [by repeat split|split; [solve_emits|intros; lia]]]]).
Qed.

(** The fields of a NACK as they come out of a PDU. *)
Record nack_fields (nack : rlc_am_status_nack) : Prop := {
  nf_sn : 0 <= nack_sn nack < md;
  nf_start : 0 <= so_start nack < 2 ^ 16;
  nf_end : 0 <= so_end nack < 2 ^ 16;
  nf_range : 0 <= nack_range nack < 2 ^ 8
}.

Lemma nack_segment_range s i nack a b :
  nack_fields nack -> nack_segment s i nack = Some (a, b) -> 0 <= a /\ 0 <= b.
Proof.
  intros [_ H1 H2 _]. unfold nack_segment.
  assert (Hu : forall x, 0 <= u16 x) by (intros; apply Z.mod_pos_bound; lia).
  destruct (has_so nack); repeat case_match; intros; simplify_eq; try done; split; (lia || apply Hu).
Qed.

(** What a NACK of a single SDU says. *)
Definition nack_missing (nack : rlc_am_status_nack) : missing := (nack_sn nack, eff_start nack, eff_end nack).

Lemma nack_segment_covers s i nack j :
  info_ok s (nack_sn nack) i -> nack_fields nack -> eff_start nack <= j <= eff_end nack ->
  0 <= j < (if nack_sn nack =? sn_under_segmentation s then next_so i else zlen (info_sdu i)) ->
  exists a b, nack_segment s i nack = Some (a, b) /\ a <= j <= b.
Proof.
  intros [[Hl1 Hl2] Hn _ _] [_ Hst Hen _]. unfold nack_segment, eff_start, eff_end, so_end_of_sdu in *.
  rewrite (u32_small (zlen _)) by lia. rewrite (u16_small (zlen _ - 1)) by lia.
  destruct (nack_sn nack =? sn_under_segmentation s); cbn [negb]; intros Hj Hjl.
  - rewrite (u16_small (next_so i - 1)) by lia.
    destruct (has_so nack); zcases; try lia; eexists _, _; (split; [reflexivity|lia]).
  - destruct (has_so nack); zcases; eexists _, _; (split; [reflexivity|lia]).
Qed.

Lemma handle_nack_ok env s nack :
  tx_inv s -> nack_fields nack -> has_nack_range nack = false ->
  (nack_sn nack = tx_next (tx_st s) -> segmenting s = true) ->
  exists b s', handle_nack cfg env s nack = ok (b, s') /\ requeued [nack_missing nack] s s' /\
    (b = true -> is_Some (get s (nack_sn nack))).
Proof.
  intros Hi Hf Hnr Hseg. unfold handle_nack. rewrite Hnr.
  assert (Hrep : forall k j, reported [nack_missing nack] k j <-> k = nack_sn nack /\ eff_start nack <= j <= eff_end nack).
  { intros k j. apply reported_one. }
  destruct (negb _) eqn:Hc.
  { exists false, s. split; [done|]. split; [|done]. apply requeued_weaken; [lia| |done|apply kept_refl|done].
    intros k j [-> _]%Hrep (i & Hg & _). apply negb_true_iff in Hc. unfold tx_mod_base in Hc.
    assert (Hm : is_Some (get s (nack_sn nack))) by eauto.
    apply (ti_member _ _ Hi) in Hm as [_ Hd]. rewrite sn_dist_self in Hc.
    pose proof (sn_dist_range (m := md) (tx_next_ack (tx_st s)) (nack_sn nack)).
    apply andb_false_iff in Hc as [Hc%Z.leb_gt|Hc%Z.leb_gt]; [lia|]. destruct Hd as [?|[E _]]; [lia|rewrite E in *; lia]. }
  apply negb_false_iff, andb_prop in Hc as [_ Hc%Z.leb_le]. unfold tx_mod_base in Hc.
  assert (Hin : is_Some (get s (nack_sn nack))).
  { apply (ti_member _ _ Hi). split; [apply (nf_sn _ Hf)|].
    destruct (decide (nack_sn nack = tx_next (tx_st s))) as [E|E]; [right; auto|left].
    assert (dist s (nack_sn nack) <> dist s (tx_next (tx_st s))); [|lia].
    intros E'. apply E. apply (sn_dist_inj (tx_next_ack (tx_st s))); [apply (nf_sn _ Hf)|apply (ti_next _ _ Hi)|done]. }
  pose proof Hin as [i Hg]. rewrite (cm_at_ok _ _ _ _ Hg), bind_ok.
  pose proof (nack_segment_covers s i nack) as Hcov. specialize (Hcov).
  assert (Hsent : forall k j, reported [nack_missing nack] k j -> sent_byte s k j ->
    k = nack_sn nack /\ exists a b, nack_segment s i nack = Some (a, b) /\ a <= j <= b /\ 0 <= j < zlen (info_sdu i)).
  { intros k j [-> Hj]%Hrep (i' & Hg' & Hj'). rewrite Hg in Hg'. injection Hg' as <-. split; [done|].
    destruct (Hcov j (ti_info _ _ Hi _ _ Hg) Hf Hj Hj') as (a & b & ? & ?). exists a, b. split_and!; try done; try lia.
    destruct (ti_info _ _ Hi _ _ Hg) as [_ ? _ _]. destruct (_ =? _); lia. }
  destruct (nack_segment s i nack) as [[a b]|] eqn:Er.
  2: { exists false, s. split; [done|]. split; [|done]. apply requeued_weaken; [lia| |done|apply kept_refl|done].
    intros k j Hr Hs. by destruct (Hsent k j Hr Hs) as (_ & ? & ? & ? & _). }
  destruct (nack_segment_range _ _ _ _ _ Hf Er) as [Ha Hb].
  destruct (ti_info _ _ Hi _ _ Hg) as [[Hl1 Hl2] _ _ _]. rewrite (u32_small (zlen _)) by lia.
  pose proof (sanitize_segment_ok env s (zlen (info_sdu i)) a b ltac:(lia) Ha Hb) as Hsan.
  destruct (sanitize_segment env s (zlen (info_sdu i)) (a, b)) as [[a' b'] s1].
  destruct Hsan as (Ha' & Hb' & Hcore & Hout & Hin').
  rewrite (u32_small (b' - a' + 1)) by lia.
  pose proof (tx_inv_core _ _ _ Hcore Hi) as Hi1. pose proof Hcore as (_&_&_&_&Eq&Ew).
  destruct (retx_push_ok s1 (mk_retx (nack_sn nack) a' (b' - a' + 1)) Hi1) as (pushed & q & -> & Hi2 & Hc' & Hp & Hlen).
  { exists i. rewrite Ew. simpl. split_and!; try done; lia. }
  rewrite Eq in *. exists pushed, (with_retx s1 q). split; [done|]. split; [|done].
  assert (Hkept : kept s (with_retx s1 q)) by (pose proof (core_kept _ _ Hcore Hout) as Hk; destruct Hk; by split).
  split; try done; cbn [retx_queue with_retx].
  - intros r Hr. rewrite Hc'. destruct pushed; [|done]. apply elem_of_app. by left.
  - intros Hw k j Hr Hs. destruct (Hsent k j Hr Hs) as (-> & a0 & b0 & [= <- <-] & Hj & Hjn).
    rewrite (proj2 (Z.ltb_lt _ _)) in Hp by (simpl in Hw; lia). subst pushed.
    exists (mk_retx (nack_sn nack) a' (b' - a' + 1)). cbn [retx_queue with_retx r_sn r_so r_length]. rewrite Hc'.
    specialize (Hin' j Hj Hjn). split_and!; [apply elem_of_app; right; by left|done|lia|lia].
Qed.

(** A NACK that only names SDUs of which something was sent. *)
Definition nack_safe s (nack : rlc_am_status_nack) : Prop :=
  nack_fields nack /\
  forall j, 0 <= j < Z.max 1 (if has_nack_range nack then nack_range nack else 1) ->
    (nack_sn nack + j) mod md = tx_next (tx_st s) -> segmenting s = true.

Lemma kept_segmenting s s' : kept s s' -> segmenting s' = segmenting s.
Proof. intros [? E ? E' _]. unfold segmenting. by rewrite E, E'. Qed.

Lemma nack_safe_kept s s' nack : kept s s' -> nack_safe s nack -> nack_safe s' nack.
Proof.
  intros Hk [? Hs]. split; [done|]. intros j Hj. rewrite (kp_next _ _ Hk), (kept_segmenting _ _ Hk). by apply Hs.
Qed.

Lemma handle_one_nack_ok env s nack prev :
  tx_inv s -> nack_fields nack -> has_nack_range nack = false ->
  (nack_sn nack = tx_next (tx_st s) -> segmenting s = true) ->
  exists s' prev', handle_one_nack cfg env nack (s, prev) = ok (s', prev') /\ requeued [nack_missing nack] s s'.
Proof.
  intros Hi Hf Hnr Hseg. unfold handle_one_nack.
  destruct (handle_nack_ok env s nack Hi Hf Hnr Hseg) as (b & s1 & -> & Hk1 & Hb). rewrite bind_ok. cbv beta match.
  destruct b; cbn [andb]; [|eauto]. destruct (negb (prev =? nack_sn nack)); [|eauto].
  destruct (increment_retx_count_ok s1 (nack_sn nack) (rq_inv _ _ _ Hk1)) as (s2 & -> & Hi2 & Hrc).
  { apply (kept_some _ _ _ (rq_kept _ _ _ Hk1)). auto. }
  rewrite bind_ok. eexists _, _. split; [reflexivity|]. by eapply requeued_recounted.
Qed.

Lemma nack_of_range_fields nack sn : nack_fields nack -> 0 <= sn < md -> nack_fields (nack_of_range cfg nack sn).
Proof.
  intros [? ? ? ?] Hsn. unfold nack_of_range, so_end_of_sdu. split; destruct (has_so nack); simpl; try lia;
    destruct (_ =? _); lia.
Qed.

Lemma nack_of_range_sn nack sn : nack_sn (nack_of_range cfg nack sn) = sn.
Proof. unfold nack_of_range. by destruct (has_so nack). Qed.

Lemma sn_offset_inj b j k : 0 <= j < md -> 0 <= k < md -> (b + j) mod md = (b + k) mod md -> j = k.
Proof.
  intros Hj Hk E. rewrite <- (sn_dist_add (m := md) b j), <- (sn_dist_add (m := md) b k) by done.
  by rewrite <- sn_dist_mod_r, E, sn_dist_mod_r.
Qed.

(** The NACKs that a range is taken apart into are the units of its meaning. *)
Lemma nack_of_range_missing nack j :
  nack_fields nack -> has_nack_range nack = true -> 0 <= j < nack_range nack ->
  nack_missing (nack_of_range cfg nack ((nack_sn nack + j) mod md)) = nack_unit md nack (Z.to_nat j).
Proof.
  intros [Hsn _ _ Hr] Hhr Hj. pose proof md_large. unfold nack_missing, nack_unit, range_or_one.
  rewrite nack_of_range_sn, Hhr. rewrite Z2Nat.id by lia.
  assert (E0 : ((nack_sn nack + j) mod md =? nack_sn nack) = Nat.eqb (Z.to_nat j) 0).
  { destruct (Nat.eqb_spec (Z.to_nat j) 0) as [E|E]; [apply Z.eqb_eq|apply Z.eqb_neq].
    - replace j with 0 by lia. rewrite Z.add_0_r, Z.mod_small; lia.
    - intros E'. apply E. assert (j = 0) as ->; [|done]. apply (sn_offset_inj (nack_sn nack)); [lia|lia|].
      rewrite E', Z.add_0_r, Z.mod_small; done. }
  assert (E1 : ((nack_sn nack + j) mod md =? u32 (nack_sn nack + nack_range nack - 1) mod md) = (j =? nack_range nack - 1)).
  { rewrite u32_mod. replace (nack_sn nack + nack_range nack - 1) with (nack_sn nack + (nack_range nack - 1)) by lia.
    destruct (Z.eqb_spec j (nack_range nack - 1)) as [->|E]; [apply Z.eqb_refl|]. apply Z.eqb_neq. intros E'.
    apply E. apply (sn_offset_inj (nack_sn nack)); (lia || done). }
  unfold nack_of_range, eff_start, eff_end. rewrite E0, E1. unfold so_end_of_sdu in *.
  destruct (has_so nack); cbn [so_start so_end has_so]; [|destruct (Nat.eqb _ 0), (j =? nack_range nack - 1); done].
  f_equal; [f_equal|]; destruct (Nat.eqb _ 0), (j =? _); zcases; cbn [negb orb]; congruence.
Qed.

Lemma handle_nack_item_ok env ack s nack prev :
  tx_inv s -> nack_safe s nack ->
  (forall j, 0 <= j < range_or_one nack -> (nack_sn nack + j) mod md <> ack) ->
  exists s' prev', handle_nack_item cfg env ack nack (s, prev) = ok (s', prev') /\ requeued (nack_meaning md nack) s s'.
Proof.
  intros Hi [Hf Hsafe] Hnack. pose proof (W_bounds cfg). pose proof Hf as [Hsn Hst Hen Hr]. pose proof md_large.
  unfold handle_nack_item, nack_meaning, range_or_one in *. destruct (has_nack_range nack) eqn:Ehr.
  2: { destruct (handle_one_nack_ok env s nack prev Hi Hf Ehr) as (s' & p' & -> & Hk).
    { intros E. apply (Hsafe 0); [lia|]. rewrite Z.add_0_r, Z.mod_small; done. }
    eexists _, _. split; [reflexivity|]. revert Hk. unfold nack_missing, nack_unit, range_or_one. rewrite Ehr. simpl.
    by rewrite Z.add_0_r, Z.mod_small by done. }
  assert (Hnext : forall j, sn_next md ((nack_sn nack + j) mod md) = (nack_sn nack + (j + 1)) mod md).
  { intros j. rewrite sn_next_mod, Zplus_mod_idemp_l. f_equal. lia. }
  rewrite u32_mod. unfold range_loop_fuel.
  set (P0 := fun (sn : Z) (x : rlc_tx_am_entity * Z) => exists j, 0 <= j <= nack_range nack /\
      sn = (nack_sn nack + j) mod md /\ requeued (nack_unit md nack <$> seq 0 (Z.to_nat j)) s x.1).
  destruct (for_loop_rule P0 (fun _ x => requeued (nack_unit md nack <$> seq 0 (Z.to_nat (nack_range nack))) s x.1)
    (fun sn x => Z.to_nat (nack_range nack - sn_dist md (nack_sn nack) sn))
    (S (Z.to_nat md)) (fun range_sn _ => negb (range_sn =? (nack_sn nack + nack_range nack) mod md)) (sn_next md)
    (fun range_sn x => if range_sn =? ack then ok (x, true)
       else x ← handle_one_nack cfg env (nack_of_range cfg nack range_sn) x; ok (x, false))
    (nack_sn nack) (s, prev)) as (sn' & [s' prev'] & -> & HQ).
  - exists 0. rewrite Z.add_0_r, Z.mod_small by done. split; [lia|]. split; [done|]. by apply requeued_refl.
  - rewrite sn_dist_self. lia.
  - intros sn x (j & Hj & -> & Hk) Hc. apply negb_false_iff, Z.eqb_eq in Hc.
    apply sn_offset_inj in Hc as ->; [done|lia|lia].
  - intros sn [s1 p1] (j & Hj & -> & Hk1) Hc. apply negb_true_iff, Z.eqb_neq in Hc.
    assert (Hjr : j < nack_range nack) by (destruct (decide (j = nack_range nack)) as [->|]; [done|lia]).
    assert (Hrange : 0 <= (nack_sn nack + j) mod md < md) by (apply Z.mod_pos_bound; lia).
    rewrite (proj2 (Z.eqb_neq _ _)) by (apply Hnack; lia). simpl in Hk1.
    destruct (handle_one_nack_ok env s1 (nack_of_range cfg nack ((nack_sn nack + j) mod md)) p1 (rq_inv _ _ _ Hk1))
      as (s2 & p2 & -> & Hk2).
    { by apply nack_of_range_fields. }
    { unfold nack_of_range. by destruct (has_so nack). }
    { rewrite nack_of_range_sn, (kp_next _ _ (rq_kept _ _ _ Hk1)), (kept_segmenting _ _ (rq_kept _ _ _ Hk1)).
      apply Hsafe. lia. }
    rewrite bind_ok. eexists _, _. split; [reflexivity|]. split; [done|]. intros _. rewrite Hnext. split.
    + exists (j + 1). split; [lia|]. split; [done|]. replace (Z.to_nat (j + 1)) with (S (Z.to_nat j)) by lia.
      rewrite seq_S, fmap_app. simpl. rewrite <- nack_of_range_missing by (done || lia). by eapply requeued_trans.
    + rewrite !sn_dist_mod_r, !sn_dist_add by lia. lia.
  - rewrite bind_ok. eexists _, _. split; [reflexivity|]. exact HQ.
Qed.

Lemma handle_nacks_ok env ack l : forall s prev,
  tx_inv s ->
  Forall (fun nack => nack_safe s nack /\ forall j, 0 <= j < range_or_one nack -> (nack_sn nack + j) mod md <> ack) l ->
  exists s' prev', handle_nacks cfg env ack l (s, prev) = ok (s', prev') /\ requeued (l ≫= nack_meaning md) s s'.
Proof.
  induction l as [|nack l IH]; intros s prev Hi Hl; [exists s, prev; split; [done|by apply requeued_refl]|].
  apply Forall_cons in Hl as [[Hn Hna] Hl]. simpl.
  destruct (handle_nack_item_ok env ack s nack prev Hi Hn Hna) as (s1 & p1 & -> & Hk1). rewrite bind_ok.
  destruct (IH s1 p1 (rq_inv _ _ _ Hk1)) as (s2 & p2 & -> & Hk2).
  - eapply Forall_impl; [exact Hl|]. intros x [? ?]. split; [|done]. eapply nack_safe_kept; [by eapply rq_kept|done].
  - eexists _, _. split; [reflexivity|]. by eapply requeued_trans.
Qed.

(** ** Status reports *)

(** A report that acknowledges nothing that was not sent: ACK_SN is at most TX_Next, or the SN after
    the one under segmentation if something of that one (or of an earlier SDU) is missing. *)
Record sent_status s (status : rlc_am_status_pdu) : Prop := {
  ss_ack : 0 <= ack_sn status < md;
  ss_fields : Forall nack_fields (nacks status);
  ss_sent : dist s (ack_sn status) <= dist s (tx_next (tx_st s)) \/
    (segmenting s = true /\ dist s (ack_sn status) = dist s (tx_next (tx_st s)) + 1 /\ nacks status <> [])
}.

Definition nack_below s (ack : Z) (nack : rlc_am_status_nack) : Prop :=
  dist s (nack_sn nack) < dist s ack /\ (has_nack_range nack = true -> dist s (nack_last_sn nack) < dist s ack).

Lemma defer_protocol_failure_core env s : same_core s (defer_protocol_failure env s).
Proof. unfold defer_protocol_failure. by destruct (ue_defer_ok env). Qed.

(** Nothing happened but events: the outcome of a report that is not accepted. *)
Definition silent s s' : Prop := same_core s s' /\ only_emits s s'.

Lemma silent_refl s : silent s s.
Proof. split; [apply same_core_refl|apply only_emits_refl]. Qed.

Lemma defer_protocol_failure_silent env s : silent s (defer_protocol_failure env s).
Proof. split; [apply defer_protocol_failure_core|]. unfold defer_protocol_failure. destruct (ue_defer_ok env); solve_emits. Qed.

Lemma valid_nack_ok env s ack nack :
  exists b s1, valid_nack cfg env s ack nack = (b, s1) /\ silent s s1 /\
    (b = true -> s1 = s /\ nack_below s ack nack).
Proof.
  unfold valid_nack, nack_below, tx_mod_base. destruct (Z.leb_spec (dist s ack) (dist s (nack_sn nack))).
  { exists false, s. split_and!; [done|apply silent_refl|done]. }
  destruct (has_nack_range nack); simpl.
  - destruct (Z.leb_spec (dist s ack) (dist s (nack_last_sn nack))); [exists false, s; split_and!; [done|apply silent_refl|done]|].
    repeat match goal with |- context [if ?b then _ else _] => destruct b end;
      eexists _, _; (split; [reflexivity|]); (split; [by (apply defer_protocol_failure_silent || apply silent_refl)|]); done.
  - repeat match goal with |- context [if ?b then _ else _] => destruct b end;
      eexists _, _; (split; [reflexivity|]); (split; [by (apply defer_protocol_failure_silent || apply silent_refl)|]); done.
Qed.

Lemma valid_nacks_ok env s ack l :
  exists b s1, valid_nacks cfg env s ack l = (b, s1) /\ silent s s1 /\
    (b = true -> s1 = s /\ Forall (nack_below s ack) l).
Proof.
  induction l as [|nack l IH]; simpl; [exists true, s; split_and!; [done|apply silent_refl|done]|].
  destruct (valid_nack_ok env s ack nack) as (b & s1 & -> & Hc & Hb). destruct b; [|exists false, s1; by split_and!].
  destruct (Hb eq_refl) as [-> Hn]. destruct IH as (b & s2 & -> & Hc2 & Hb2). exists b, s2. split_and!; try done.
  intros ->. destruct (Hb2 eq_refl) as [-> Hl]. split; [done|]. by constructor.
Qed.

Lemma status_accepted_ok env s status :
  exists b s1, status_accepted cfg env s status = (b, s1) /\ silent s s1 /\
    (b = true -> s1 = s /\ 0 < dist s (ack_sn status) <= W /\ Forall (nack_below s (ack_sn status)) (nacks status)).
Proof.
  unfold status_accepted. destruct (tx_valid_ack_sn cfg s (ack_sn status)) eqn:E; simpl; [|exists false, s; split_and!; [done|apply silent_refl|done]].
  destruct (_ <? _); [eexists _, _; split; [reflexivity|]; split; [apply defer_protocol_failure_silent|done]|].
  destruct (valid_nacks_ok env s (ack_sn status) (nacks status)) as (b & s1 & -> & Hc & Hb).
  exists b, s1. split_and!; try done. intros Et. destruct (Hb Et) as [-> Hl]. split_and!; try done;
    unfold tx_valid_ack_sn, tx_mod_base in E; apply andb_prop in E as [?%Z.ltb_lt ?%Z.leb_le]; lia.
Qed.

Lemma sent_nack_safe s status nack :
  tx_inv s -> sent_status s status -> dist s (ack_sn status) <= W -> nack ∈ nacks status ->
  nack_below s (ack_sn status) nack ->
  nack_safe s nack /\ forall j, 0 <= j < range_or_one nack -> (nack_sn nack + j) mod md <> ack_sn status.
Proof.
  intros Hi [Ha Hf Hs] HW Hin [Hb1 Hb2]. rewrite Forall_forall in Hf. specialize (Hf _ Hin).
  pose proof Hf as [Hsn _ _ Hr]. pose proof (W_bounds cfg).
  pose proof W_large.
  pose proof (sn_dist_range (m := md) (tx_next_ack (tx_st s)) (nack_sn nack)) as Hd.
  assert (Hadd : forall n, 0 <= n < 2 ^ 8 -> sn_dist md (tx_next_ack (tx_st s)) (nack_sn nack + n) = dist s (nack_sn nack) + n).
  { intros n Hn. rewrite (sn_dist_inv (m := md) (tx_next_ack (tx_st s)) (nack_sn nack) Hsn) at 1.
    rewrite <- sn_dist_mod_r, Zplus_mod_idemp_l, sn_dist_mod_r, <- Z.add_assoc, sn_dist_add; lia. }
  assert (Hlt : forall j, 0 <= j < Z.max 1 (if has_nack_range nack then nack_range nack else 1) ->
    dist s (nack_sn nack) + j < dist s (ack_sn status) /\ sn_dist md (tx_next_ack (tx_st s)) (nack_sn nack + j) = dist s (nack_sn nack) + j).
  { intros j Hj. split; [|apply Hadd; destruct (has_nack_range nack); lia].
    destruct (has_nack_range nack) eqn:Er; [|lia]. specialize (Hb2 eq_refl). unfold nack_last_sn in Hb2. rewrite Er in Hb2.
    destruct (decide (nack_range nack = 0)); [lia|].
    rewrite <- sn_dist_mod_r, u32_mod, sn_dist_mod_r in Hb2.
    replace (nack_sn nack + nack_range nack - 1) with (nack_sn nack + (nack_range nack - 1)) in Hb2 by lia.
    rewrite Hadd in Hb2 by lia. lia. }
  split; [split; [done|]|]; intros j Hj.
  - intros Ej. destruct (Hlt j Hj) as [Hl1 Hl2]. rewrite <- sn_dist_mod_r, Ej in Hl2. destruct Hs as [?|[? _]]; [lia|done].
  - intros Ej. destruct (Hlt j) as [Hl1 Hl2]; [unfold range_or_one in Hj; lia|].
    rewrite <- sn_dist_mod_r, Ej in Hl2. lia.
Qed.

Lemma notify_delivered_core s d : same_core s (notify_delivered s d).
Proof. unfold notify_delivered. by destruct (max_deliv_pdcp_sn d), (max_deliv_retx_pdcp_sn d). Qed.

Lemma no_retx_inv s : tx_inv s -> tx_inv (no_retx s).
Proof. intros Hi. apply with_retx_inv; [done|apply retx_init_inv; pose proof (W_retx_bound cfg); lia|constructor]. Qed.

Lemma stop_poll_retransmit_core s ack : same_core s (stop_poll_retransmit cfg s ack).
Proof. unfold stop_poll_retransmit. by destruct (_ && _). Qed.

Definition delivered_events (d : delivered_sns) : list tx_event :=
  (ev_delivered_sdu <$> option_list (max_deliv_pdcp_sn d)) ++
  (ev_delivered_retx_sdu <$> option_list (max_deliv_retx_pdcp_sn d)).

Lemma notify_delivered_out s d : tx_out (notify_delivered s d) = tx_out s ++ delivered_events d.
Proof.
  unfold notify_delivered, delivered_events. destruct (max_deliv_pdcp_sn d), (max_deliv_retx_pdcp_sn d); simpl;
    rewrite ?app_nil_r; try done. by rewrite <- app_assoc.
Qed.

Lemma notify_delivered_emits s d : only_emits s (notify_delivered s d).
Proof.
  unfold notify_delivered. destruct (max_deliv_pdcp_sn d), (max_deliv_retx_pdcp_sn d);
    solve_emits.
Qed.

(** The state after a report: the SDUs before the first NACK, or ACK_SN, have left the window, the
    last PDCP SNs among them are reported to the upper layer, and every reported byte that was sent
    and is still in the window waits for its retransmission. *)
Record applied s s' (status : rlc_am_status_pdu) : Prop := {
  ap_ack : tx_next_ack (tx_st s') = ack_stop_sn status;
  ap_next : tx_next (tx_st s') = tx_next (tx_st s);
  ap_seg : sn_under_segmentation s' = sn_under_segmentation s;
  ap_queue : tx_queue s' = tx_queue s;
  ap_get : forall k, 0 <= k < md -> option_map sdu_sent (get s' k) =
    if dist s k <? dist s (ack_stop_sn status) then None else option_map sdu_sent (get s k);
  ap_out : tx_out s ++ delivered_events (delivered_by (acked_infos s (Z.to_nat (dist s (ack_stop_sn status)))))
    `prefix_of` tx_out s';
  ap_emits : only_emits s s';
  ap_retx : zlen (nacks status ≫= nack_meaning md) <= W ->
    forall k j, reported (nacks status ≫= nack_meaning md) k j -> sent_byte s' k j -> queued s' k j
}.

Lemma ack_stop_sent s status :
  sent_status s status -> Forall (nack_below s (ack_sn status)) (nacks status) ->
  0 <= ack_stop_sn status < md /\ dist s (ack_stop_sn status) <= dist s (tx_next (tx_st s)).
Proof.
  intros [Ha Hf Hs] Hbelow. unfold ack_stop_sn. destruct (nacks status) as [|n l].
  - split; [done|]. destruct Hs as [?|(_ & _ & ?)]; done.
  - apply Forall_cons in Hf as [[? _ _ _] _]. apply Forall_cons in Hbelow as [[? _] _].
    split; [done|]. destruct Hs as [?|(_ & ? & _)]; lia.
Qed.

(** The state between the acknowledgements and the NACKs: the retransmission queue is empty. *)
Lemma acks_and_clear_ok s stop ack :
  tx_inv s -> 0 <= stop < md -> dist s stop <= dist s (tx_next (tx_st s)) ->
  exists s1 s2 s3, s1 = stop_poll_retransmit cfg s ack /\
    process_acks cfg s1 stop = ok (s2, delivered_by (acked_infos s (Z.to_nat (dist s stop)))) /\
    let s2' := notify_delivered s2 (delivered_by (acked_infos s (Z.to_nat (dist s stop)))) in
    clear_retx_queue cfg (S (Z.to_nat (retx_size (retx_queue s2')))) s2' = ok s3 /\
    tx_inv s3 /\ rq_items (retx_queue s3) = [] /\ acked s s2 stop /\ kept s2 s3 /\
    tx_out s ++ delivered_events (delivered_by (acked_infos s (Z.to_nat (dist s stop)))) `prefix_of` tx_out s3.
Proof.
  intros Hi Hstop Hle. pose proof (stop_poll_retransmit_core s ack) as Hc1.
  assert (Ho1 : tx_out (stop_poll_retransmit cfg s ack) = tx_out s) by (unfold stop_poll_retransmit; by destruct (_ && _)).
  set (s1 := stop_poll_retransmit cfg s ack) in *. pose proof Hc1 as (E1 & E2 & E3 & E4 & E5 & E6).
  destruct (process_acks_ok s1 stop) as (s2 & Hpa & Hak).
  { apply no_retx_inv. by eapply tx_inv_core. } { done. } { by rewrite E1, E2. }
  assert (Einf : acked_infos s1 (Z.to_nat (dist s1 stop)) = acked_infos s (Z.to_nat (dist s stop)))
    by (unfold acked_infos; by rewrite E1, E6).
  rewrite Einf in Hpa. set (d := delivered_by _) in *. set (s2' := notify_delivered s2 d).
  assert (Hc3 : same_core s2 s2') by apply notify_delivered_core. pose proof Hc3 as (F1 & F2 & F3 & F4 & F5 & F6).
  assert (Hr3 : retx_queue s2' = retx_queue s) by (rewrite F5, (ak_retx _ _ _ Hak); done).
  assert (Ho2 : tx_out s2' = tx_out s ++ delivered_events d) by (unfold s2'; rewrite notify_delivered_out, (ak_out _ _ _ Hak); congruence).
  destruct (clear_retx_queue_ok (S (Z.to_nat (retx_size (retx_queue s2')))) s2') as (s3 & Hcl & Hi3 & He & Hk3 & Ho3).
  { eapply (tx_inv_core _ (no_retx s2)); [|apply (ak_inv _ _ _ Hak)]. unfold same_core, no_retx. simpl. by split_and!. }
  { rewrite Hr3. apply (ti_retx _ _ Hi). }
  { unfold retx_size. pose proof (valid_retx_length (rq_items (retx_queue s2'))). unfold retx_content. lia. }
  exists s1, s2, s3. split; [done|]. split; [done|]. split; [done|]. split; [done|]. split_and!.
  - destruct (retx_front_content W _ (ti_retx _ _ Hi3)) as [[? _]|(r & rest & _ & ?)]; [done|congruence].
  - destruct Hak as [A1 A2 A3 A4 A5 A6 A7 A8 A9]. split; try congruence.
    + intros k Hk. rewrite A7, E1, E6 by done. done.
    + eapply only_emits_trans; [|exact A9]. unfold s1, stop_poll_retransmit. destruct (_ && _); solve_emits.
  - eapply kept_trans; [|exact Hk3]. apply core_kept; [done|]. apply notify_delivered_emits.
  - by rewrite Ho3, Ho2.
Qed.

Lemma handle_status_pdu_ok env p s status :
  tx_inv s -> sent_status s status ->
  exists s', handle_status_pdu cfg env p s status = ok s' /\ tx_inv s' /\
    if (status_accepted cfg env s status).1 then applied s s' status else silent s s'.
Proof.
  intros Hi Hss. unfold handle_status_pdu.
  destruct (status_accepted_ok env s status) as (b & s0 & -> & Hc & Hb). cbn [fst]. destruct b; cbn [negb].
  2: { exists s0. split_and!; try done. eapply tx_inv_core, Hi. apply Hc. }
  destruct (Hb eq_refl) as (-> & Hack & Hbelow). clear Hb Hc.
  destruct (ack_stop_sent s status Hss Hbelow) as [Hstop Hle].
  destruct (acks_and_clear_ok s (ack_stop_sn status) (ack_sn status) Hi Hstop Hle)
    as (s1 & s2 & s3 & -> & -> & Hcl & Hi3 & He3 & Hak & Hk3 & Ho3).
  rewrite bind_ok. cbv beta match zeta. cbv zeta in Hcl. rewrite Hcl, bind_ok. set (s4 := with_retx_sn s3 INVALID_RLC_SN).
  assert (Hc4 : same_core s3 s4) by by repeat split.
  assert (Hk4 : kept s2 s4) by (eapply kept_trans; [exact Hk3|by apply core_kept]).
  destruct (handle_nacks_ok env (ack_sn status) (nacks status) s4 INVALID_RLC_SN) as (s5 & prev & -> & Hrq).
  { by eapply tx_inv_core. }
  { apply Forall_forall. intros nack Hin. rewrite Forall_forall in Hbelow.
    destruct (sent_nack_safe s status nack Hi Hss) as [[Hf Hj] Hna]; [lia|done|auto|]. split; [|done].
    apply (nack_safe_kept s2 s4 nack Hk4). split; [done|]. intros j Hjr. rewrite (ak_next _ _ _ Hak).
    unfold segmenting, RlcTxAmInv.segmenting. rewrite (ak_seg _ _ _ Hak), (ak_next _ _ _ Hak). apply (Hj j Hjr). }
  rewrite bind_ok. cbv beta match. pose proof (rq_kept _ _ _ Hrq) as Hk5.
  destruct (update_mac_buffer_state_ok p s5 true (rq_inv _ _ _ Hrq)) as (s6 & Hup & Hc6). rewrite Hup, bind_ok.
  apply update_mac_buffer_state_out in Hup. eexists. split; [reflexivity|].
  match goal with |- tx_inv ?x /\ _ => set (s7 := x) end.
  assert (Hc7 : same_core s5 s7) by (destruct Hc6 as (?&?&?&?&?&?); by repeat split).
  assert (Hk7 : kept s5 s7) by (apply core_kept; [done|]; apply (only_emits_emit _ (with_recycler _ _)); done).
  split; [eapply tx_inv_core, (rq_inv _ _ _ Hrq); exact Hc7|].
  pose proof (kept_trans _ _ _ Hk4 (kept_trans _ _ _ Hk5 Hk7)) as [G1 G2 G3 G4 G5 G6].
  split.
  - by rewrite G1, (ak_ack _ _ _ Hak).
  - by rewrite G2, (ak_next _ _ _ Hak).
  - by rewrite G4, (ak_seg _ _ _ Hak).
  - by rewrite G3, (ak_queue _ _ _ Hak).
  - intros k Hk. rewrite G5, (ak_get _ _ _ Hak) by done. by destruct (_ <? _).
  - etrans; [exact Ho3|]. etrans; [apply (kp_out _ _ Hk5)|apply (kp_out _ _ Hk7)].
  - by eapply only_emits_trans; [apply (ak_emits _ _ _ Hak)|].
  - intros Hn k j Hr Hs.
    assert (Hs4 : sent_byte s4 k j).
    { destruct Hs as (i & Hg & Hj). pose proof (kept_trans _ _ _ Hk5 Hk7) as Hk. pose proof (kp_get _ _ Hk k) as E.
      rewrite Hg in E. destruct (get s4 k) as [i'|] eqn:E'; [|done]. unfold sdu_sent in E. injection E as E1 E2.
      exists i'. split; [done|]. rewrite <- (kp_seg _ _ Hk), <- E1, <- E2. done. }
    destruct (rq_new _ _ _ Hrq) with (k := k) (j := j) as (r & Hin & ?); try done.
    { change (retx_queue s4) with (retx_queue s3). rewrite He3. simpl. lia. }
    exists r. destruct Hc7 as (_&_&_&_&->&_). done.
Qed.
End provider.
End tx_status.

(** * The transmitting AM entity: polling

    When the P bit of a data PDU is set, and what that does to the polling counters and to
    t-PollRetransmit (TS 38.322, 5.3.3.2), for every PDU that [pull_pdu] can return. *)

(** The P bit of a PDU that starts with a written header. *)
Lemma written_poll_bit hdr rest sz h :
  0 <= h_p hdr < 2 -> rlc_am_read_data_pdu_header (rlc_am_write_data_pdu_header hdr ++ rest) sz = Some h ->
  h_p h = h_p hdr.
Proof.
  intros Hp. unfold rlc_am_read_data_pdu_header, rlc_am_write_data_pdu_header.
  destruct (_ <=? _); [done|]. destruct (h_sn_size hdr).
  - fold (header_octet (h_dc hdr) (h_p hdr) (h_si hdr) (Z.land (Z.shiftr (h_sn hdr) 8) 0x0f)).
    assert (Hx : 0 <= Z.land (Z.shiftr (h_sn hdr) 8) 0x0f < 16) by (change 0x0f with (2 ^ 4 - 1); rewrite land_mask by lia; divmod).
    destruct (header_octet_fields (h_dc hdr) (h_p hdr) (h_si hdr) _ Hp Hx) as (_ & E & _). simpl.
    rewrite E. destruct (read_header_sn _ _ _) as [[sn r]|]; [|done]. simpl. destruct (read_header_so _ _) as [[so r']|]; [|done].
    by intros [= <-].
  - fold (header_octet (h_dc hdr) (h_p hdr) (h_si hdr) (Z.land (Z.shiftr (h_sn hdr) 16) 0x03)).
    assert (Hx : 0 <= Z.land (Z.shiftr (h_sn hdr) 16) 0x03 < 16) by (change 0x03 with (2 ^ 2 - 1); rewrite land_mask by lia; divmod).
    destruct (header_octet_fields (h_dc hdr) (h_p hdr) (h_si hdr) _ Hp Hx) as (_ & E & _). simpl.
    rewrite E. destruct (read_header_sn _ _ _) as [[sn r]|]; [|done]. simpl. destruct (read_header_so _ _) as [[so r']|]; [|done].
    by intros [= <-].
Qed.

Section tx_poll.
Context (cfg : rlc_tx_am_config).

Local Abbreviation sz := (tx_sn_field_length cfg).
Local Abbreviation W := (am_window sz).

(** The polling counters are below their thresholds. *)
Definition poll_inv s : Prop :=
  (0 < poll_pdu cfg -> 0 <= pdu_without_poll (tx_st s) < poll_pdu cfg) /\
  (0 < poll_byte cfg -> 0 <= byte_without_poll (tx_st s) < poll_byte cfg).

(** Every SDU and every retransmission has been handed over. *)
Definition all_sent s : bool :=
  queue_is_empty (tx_queue s) && retx_empty (retx_queue s) && (sn_under_segmentation s =? INVALID_RLC_SN).

(** What polling has to guarantee between the state before and the one after a PDU with P bit [p]. *)
Record polled s s' (p : Z) : Prop := {
  pd_bit : 0 <= p < 2;
  pd_last : all_sent s' = true -> p = 1;
  pd_expired : is_poll_retransmit_timer_expired s = true -> p = 1;
  pd_poll : p = 1 -> pdu_without_poll (tx_st s') = 0 /\ byte_without_poll (tx_st s') = 0 /\
    (0 < t_poll_retx cfg -> is_running (poll_retransmit_timer s') = true);
  pd_no_poll : p = 0 -> poll_retransmit_timer s' = poll_retransmit_timer s;
  pd_flag : is_poll_retransmit_timer_expired s' = false;
  pd_counters : poll_inv s -> poll_inv s'
}.

(** The members that polling reads and writes, and those that decide whether all is sent. *)
Definition poll_fields s := (pdu_without_poll (tx_st s), byte_without_poll (tx_st s), poll_retransmit_timer s,
  is_poll_retransmit_timer_expired s).
Definition send_fields s := (tx_queue s, retx_queue s, sn_under_segmentation s).

Lemma get_polling_bit_polled s sn r n p s' :
  get_polling_bit cfg s sn r n = (p, s') -> polled s s' p /\ send_fields s' = send_fields s.
Proof.
  unfold get_polling_bit. intros H.
  assert (Hlast : all_sent s = true -> nothing_to_send cfg s = true).
  { unfold nothing_to_send, all_sent. by intros ->. }
  assert (Hu : forall x, 0 <= u32 x) by (intros x; apply Z.mod_pos_bound; lia).
  set (st1 := if r then tx_st s else _) in *.
  set (due := negb r && _) in *.
  destruct (due || nothing_to_send cfg s || is_poll_retransmit_timer_expired s) eqn:E; injection H as <- <-.
  - split; [|done]. split; simpl; try done; try lia.
    intros _. split_and!; try done. intros Ht. rewrite (proj2 (Z.ltb_lt _ _) Ht). unfold start_poll_retransmit_timer.
    by destruct (poll_retransmit_timer s).
  - apply orb_false_iff in E as [[Ed En]%orb_false_iff Ee]. split; [|done]. split; simpl; try done; try lia.
    + intros Ha. change (all_sent s = true) in Ha. rewrite Hlast in En; done.
    + congruence.
    + unfold poll_inv. simpl. unfold due, st1 in *. destruct r; [done|]. cbn [negb andb] in Ed.
      apply orb_false_iff in Ed as [Ed1 Ed2]. simpl in *. intros [Hp Hb]. split; intros Hpos.
      * rewrite (proj2 (Z.ltb_lt _ _) Hpos) in Ed1. apply Z.leb_gt in Ed1. split; [apply Hu|lia].
      * rewrite (proj2 (Z.ltb_lt _ _) Hpos) in Ed2. apply Z.leb_gt in Ed2. split; [apply Hu|lia].
Qed.

Lemma polled_frame s s1 s2 s' p :
  polled s1 s2 p -> poll_fields s1 = poll_fields s -> poll_fields s' = poll_fields s2 -> send_fields s' = send_fields s2 ->
  polled s s' p.
Proof.
  unfold poll_fields, send_fields. intros [P1 P2 P3 P4 P5 P6 P7] E1 E2 E3.
  injection E1 as A1 A2 A3 A4. injection E2 as B1 B2 B3 B4. injection E3 as C1 C2 C3.
  split; unfold all_sent, poll_inv in *; rewrite ?B1, ?B2, ?B3, ?B4, ?C1, ?C2, ?C3, <- ?A1, <- ?A2, <- ?A3, <- ?A4; done.
Qed.

(** What a function that builds PDUs returns: nothing, or a PDU with a written header and its P bit. *)
Definition poll_built s (r : outcome (bytes * rlc_tx_am_entity)) : Prop :=
  forall pdu s', r = ok (pdu, s') ->
    pdu = [] /\ (poll_inv s -> poll_inv s') \/
    (exists hdr rest, pdu = rlc_am_write_data_pdu_header hdr ++ rest /\ polled s s' (h_p hdr)).

Lemma assemble_pdu_shape grant hdr sdu len pdu :
  assemble_pdu grant hdr sdu len = Some pdu -> exists rest, pdu = rlc_am_write_data_pdu_header hdr ++ rest.
Proof. unfold assemble_pdu. destruct (_ || _); [done|]. intros [= <-]. eauto. Qed.

Lemma poll_built_none s s' : poll_fields s' = poll_fields s -> poll_built s (ok ([], s')).
Proof. intros E pdu s2 [= <- <-]. left. split; [done|]. unfold poll_inv. injection E as -> -> _ _. done. Qed.

(** The end of every function: the PDU is assembled, and the members of polling stay. *)
Lemma poll_built_assembled s s1 s2 p grant hdr sdu len (k : bytes -> outcome (bytes * rlc_tx_am_entity)) :
  polled s1 s2 p -> poll_fields s1 = poll_fields s -> h_p hdr = p ->
  (forall pdu pdu' s', k pdu = ok (pdu', s') -> pdu' = pdu /\ poll_fields s' = poll_fields s2 /\ send_fields s' = send_fields s2) ->
  poll_built s (match assemble_pdu grant hdr sdu len with None => ok ([], s2) | Some pdu => k pdu end).
Proof.
  intros Hp E <- Hk pdu s' Hr. destruct (assemble_pdu _ _ _ _) as [pdu1|] eqn:Ea.
  - apply assemble_pdu_shape in Ea as [rest ->]. apply Hk in Hr as (-> & ? & ?). right. exists hdr, rest.
    split; [done|]. by eapply polled_frame.
  - injection Hr as <- <-. left. split; [done|]. by eapply pd_counters, polled_frame.
Qed.

Lemma poll_built_frame s s1 r : poll_fields s1 = poll_fields s -> poll_built s1 r -> poll_built s r.
Proof.
  intros E H pdu s' Hr. destruct (H pdu s' Hr) as [[-> Hi]|(hdr & rest & ? & ?)]; [left; split; [done|]|right].
  - unfold poll_inv in *. by injection E as <- <- _ _.
  - exists hdr, rest. split; [done|]. by eapply polled_frame.
Qed.

Lemma build_first_poll grant s i : poll_built s (build_first_sdu_segment cfg grant s i).
Proof.
  unfold build_first_sdu_segment. destruct (_ <=? grant); [by apply poll_built_none|].
  destruct (grant <=? _); [by apply poll_built_none|].
  destruct (get_polling_bit _ _ _ _ _) as [p s2] eqn:Ep. apply get_polling_bit_polled in Ep as [Hp Hs].
  eapply poll_built_assembled; [exact Hp|done|done|]. intros pdu pdu' s'.
  destruct (cm_set _ _ _ _) as [w|]; [|done]. by intros [= <- <-].
Qed.

Lemma build_continued_poll grant s sn i : poll_built s (build_continued_sdu_segment cfg grant s sn i).
Proof.
  unfold build_continued_sdu_segment. destruct (_ =? 0); [by apply poll_built_none|].
  destruct (_ <=? next_so i); [by apply poll_built_none|]. destruct (grant <=? _); [by apply poll_built_none|].
  cbv zeta. set (more := grant <? _). clearbody more.
  destruct (get_polling_bit _ _ _ _ _) as [p s2] eqn:Ep. apply get_polling_bit_polled in Ep as [Hp Hs].
  eapply poll_built_assembled; [exact Hp|by destruct more|done|]. intros pdu pdu' s'.
  destruct (cm_set _ _ _ _) as [w|]; [|done]. intros [= <- <-]. by destruct more.
Qed.

Lemma build_full_poll grant s i : poll_built s (ok (build_full_sdu cfg grant s i)).
Proof.
  unfold build_full_sdu. destruct (get_polling_bit _ _ _ _ _) as [p s2] eqn:Ep. apply get_polling_bit_polled in Ep as [Hp Hs].
  intros pdu s'. destruct (_ || _); intros [= <- <-]; [left|right].
  - split; [done|]. exact (pd_counters _ _ _ Hp).
  - eexists _, _. split; [reflexivity|]. by eapply polled_frame.
Qed.

Lemma notify_transfer_fields s sdu :
  poll_fields (notify_transfer cfg s sdu) = poll_fields s /\ send_fields (notify_transfer cfg s sdu) = send_fields s.
Proof. unfold notify_transfer. destruct (sdu_pdcp_sn sdu); [|done]. by destruct (sdu_is_retx sdu). Qed.

Lemma build_new_poll grant s : poll_built s (build_new_pdu cfg grant s).
Proof.
  unfold build_new_pdu. destruct (grant <=? _); [by apply poll_built_none|].
  destruct (is_tx_window_full cfg s); [by apply poll_built_none|].
  destruct (read _ _) as [[sdu|] q]; [|by apply poll_built_none].
  destruct (add_sn _ _ _ _) as [w|]; [|done]. rewrite bind_ok.
  destruct (cm_set _ _ _ _) as [w'|]; [|done]. rewrite bind_ok.
  set (s1 := with_window (with_queue s q) w'). destruct (notify_transfer_fields s1 sdu) as [E1 E2].
  apply (poll_built_frame s (notify_transfer cfg s1 sdu)); [done|].
  destruct (grant <? _); [apply build_first_poll|apply build_full_poll].
Qed.

Lemma drop_missing_fields fuel : forall s b s', drop_missing_retx cfg fuel s = ok (b, s') -> poll_fields s' = poll_fields s.
Proof.
  induction fuel as [|fuel IH]; intros s b s'; simpl; [done|]. destruct (retx_front _) as [r|]; [|done]. simpl.
  destruct (has_sn _ _ _); [by intros [= <- <-]|]. destruct (retx_empty _); [by intros [= <- <-]|]. by intros ->%IH.
Qed.

Lemma update_retx_front_fields s c len s' : update_retx_front s c len = ok s' -> poll_fields s' = poll_fields s.
Proof.
  unfold update_retx_front. destruct c; [by intros [= <-]|]. destruct (retx_front _); [|done]. rewrite bind_ok.
  destruct (replace_front _ _); [|done]. by intros [= <-].
Qed.

Lemma build_retx_poll grant s : poll_built s (build_retx_pdu cfg grant s).
Proof.
  unfold build_retx_pdu. destruct (retx_empty _); [by apply poll_built_none|].
  destruct (drop_missing_retx _ _ _) as [[found s1]|] eqn:Ed; [|done]. apply drop_missing_fields in Ed. rewrite bind_ok.
  destruct found; [|by apply poll_built_none]. cbn [negb].
  destruct (retx_front _) as [r|]; [|done]. rewrite bind_ok. destruct (cm_at _ _ _) as [i|]; [|done]. rewrite bind_ok.
  destruct (_ <? u32 _); [by apply poll_built_none|]. destruct (grant <=? _); [by apply poll_built_none|].
  set (len := Z.min _ _). clearbody len.
  destruct (update_retx_front _ _ _) as [s2|] eqn:Eu; [|done]. apply update_retx_front_fields in Eu. rewrite bind_ok.
  destruct (get_polling_bit _ _ _ _ _) as [p s3] eqn:Ep. apply get_polling_bit_polled in Ep as [Hp Hs].
  destruct (srsran_assert _); [|done]. rewrite bind_ok.
  assert (Hp' : polled s s3 p) by (eapply polled_frame; [exact Hp|etrans; [exact Eu|exact Ed]|done|done]).
  intros pdu s'. destruct (assemble_pdu _ _ _ _) as [pdu'|] eqn:Ea; intros [= <- <-].
  - apply assemble_pdu_shape in Ea as [rest ->]. right. eexists _, rest. split; [reflexivity|done].
  - left. split; [done|]. exact (pd_counters _ _ _ Hp').
Qed.

Context {P : Type} `{StatusProvider P}.

(** Polling of [pull_pdu]. *)
Lemma pull_pdu_poll grant p s pdu p' s' :
  sp_required p = false -> pull_pdu cfg grant p s = ok (pdu, p', s') ->
  pdu = [] /\ (poll_inv s -> poll_inv s') \/
  (exists hdr rest, pdu = rlc_am_write_data_pdu_header hdr ++ rest /\ polled s s' (h_p hdr)).
Proof.
  intros Hreq. unfold pull_pdu. rewrite Hreq.
  assert (Hfin : forall r, poll_built s r -> ('(pdu, s) ← r; ok (pdu, p, s)) = ok (pdu, p', s') ->
    pdu = [] /\ (poll_inv s -> poll_inv s') \/
    (exists hdr rest, pdu = rlc_am_write_data_pdu_header hdr ++ rest /\ polled s s' (h_p hdr))).
  { intros r Hr Hok. destruct r as [[pdu1 s2]|] eqn:Er; [|done]. simpl in Hok. injection Hok as -> <- ->. by apply Hr. }
  assert (Hnew : forall s1, poll_built s1 (pull_new_pdu cfg grant s1)).
  { intros s1. unfold pull_new_pdu. destruct (queue_is_empty _); [by apply poll_built_none|apply build_new_poll]. }
  destruct (negb (retx_empty _)); [apply Hfin, build_retx_poll|].
  destruct (negb _); [|apply Hfin, Hnew].
  destruct (has_sn _ _ _); [|apply Hfin, (poll_built_frame s (with_segmentation s INVALID_RLC_SN)); [done|apply Hnew]].
  destruct (cm_at _ _ _) as [i|]; [|done]. rewrite bind_ok. apply Hfin, build_continued_poll.
Qed.
End tx_poll.
