(* ===== verification/RlcTxAmProps.v ===== *)
(** * Properties of the transmitting AM entity

    The entity never fails; every PDU it hands over carries bytes of an SDU of its window and fits
    the grant; what a status report does; the rules of polling; the buffer state; and behaviours
    the code does not mean to have. The receiving entity is any status provider that keeps to
    [StatusProviderLaws]; [rlc_rx_am_entity] is one. *)

From S2P Require Import Prelude SduWindow PdcpSnUtil RlcAmPdu RlcSegments RlcRxAm RlcRxAmInv RlcRxAmReport.
From S2P Require Import RlcSduQueue RlcRetxQueue RlcTxAm RlcTxAmInv RlcTxAmStatus.

(** ** The receiving entity as status provider *)

#[export] Instance rx_status_provider (rx_cfg : rlc_rx_am_config) (defer_ok : bool) : StatusProvider rlc_rx_am_entity := {
  sp_required := status_report_required;
  sp_length := get_status_pdu_length;
  sp_get := get_status_pdu rx_cfg defer_ok;
  sp_write s r := set_status s (status_builder s) (status_cached s) r (status_report_size s)
}.

(** Its two published reports can be packed. *)
Record reports_wf (sz : rlc_am_sn_size) (s : rlc_rx_am_entity) : Prop := {
  rw_cached : status_wf (status_cached s);
  rw_cached_size : s_sn_size (status_cached s) = sz;
  rw_shared : status_wf (status_shared s);
  rw_shared_size : s_sn_size (status_shared s) = sz
}.

#[export] Instance rx_status_provider_laws rx_cfg defer_ok sz :
  @StatusProviderLaws rlc_rx_am_entity (rx_status_provider rx_cfg defer_ok) sz (reports_wf sz).
Proof.
  split.
  - intros s [H1 H2 H3 H4]. simpl. unfold get_status_pdu. destruct (0 <? _), defer_ok; simpl; by split_and!.
  - intros s r [H1 H2 H3 H4] Hr Hsz. by split.
Qed.

(** ** Reachable states *)
Section tx_properties.
Context (cfg : rlc_tx_am_config) (is_srb : bool).
Context {P : Type} `{StatusProvider P} (Inv : P -> Prop).

Local Abbreviation sz := (tx_sn_field_length cfg).
Local Abbreviation md := (am_mod sz).
Local Abbreviation W := (am_window sz).
Local Abbreviation hmin := (rlc_am_pdu_header_min_size sz).
Local Abbreviation dist s x := (sn_dist md (tx_next_ack (tx_st s)) x).
Local Abbreviation get s k := (wget W (tx_window s) k).

(** The events of the entity; each sees the receiving entity in a state that satisfies [Inv], and
    a status report acknowledges nothing that was not sent. *)
Inductive tx_step : rlc_tx_am_entity -> rlc_tx_am_entity -> Prop :=
| step_sdu env buf r s s' : is_bytes buf -> sdu_ok buf -> handle_sdu cfg is_srb env s buf r = ok s' -> tx_step s s'
| step_discard env sn s : 0 <= sn < STATE_DISCARDED -> tx_step s (discard_sdu cfg env s sn)
| step_pull grant p s pdu p' s' : Inv p -> pull_pdu cfg grant p s = ok (pdu, p', s') -> tx_step s s'
| step_status env p status s s' : sent_status cfg s status -> handle_status_pdu cfg env p s status = ok s' -> tx_step s s'
| step_status_changed env s : tx_step s (on_status_report_changed env s)
| step_buffer_state p force s s' : update_mac_buffer_state cfg p s force = ok s' -> tx_step s s'
| step_poll_expiry p s s' : on_expired_poll_retransmit_timer cfg p
      (with_poll_timer s timer_expired (is_poll_retransmit_timer_expired s)) = ok s' -> tx_step s s'
| step_recycle s : tx_step s (with_recycler s (recycler_clear (pdu_recycler s)))
| step_stop s : tx_step s (tx_stop s).

Definition tx_reachable s : Prop := exists s0, rlc_tx_am_entity_ctor cfg = ok s0 /\ rtc tx_step s0 s.

Definition config_ok : Prop := 0 < queue_size cfg < 2 ^ 16 /\ 0 <= queue_size_bytes cfg < 2 ^ 32.

Definition good s : Prop := tx_inv cfg s /\ poll_inv cfg s.

Lemma good_core s s' : same_core s s' -> only_emits s s' -> good s -> good s'.
Proof.
  intros Hc (_ & E1 & E2) [H1 H2]. split; [by eapply tx_inv_core|]. unfold poll_inv in *. by rewrite E1, E2.
Qed.

Lemma good_emits s s' : tx_inv cfg s' -> only_emits s s' -> good s -> good s'.
Proof. intros Hi (_ & E1 & E2) [_ H2]. split; [done|]. unfold poll_inv in *. by rewrite E1, E2. Qed.

Lemma applied_or_silent_emits b s s' status :
  (if b : bool then applied cfg s s' status else silent s s') -> only_emits s s'.
Proof. destruct b; [apply ap_emits|by intros [? ?]]. Qed.

Context {Hlaws : StatusProviderLaws P sz Inv}.

(** A PDU that was pulled leaves the counters in order. *)
Lemma pull_poll_inv grant p s pdu p' s' :
  good s -> pull_pdu cfg grant p s = ok (pdu, p', s') -> config_ok -> Inv p -> good s'.
Proof.
  intros [Hi Hp] E [Hq Hb] Hip.
  destruct (pull_pdu_ok cfg Hq Hb Inv (Hlaws := Hlaws) grant p s Hi Hip) as (pdu1 & p1 & s1 & E1 & Hi1 & _ & Hpulled).
  rewrite E in E1. injection E1 as <- <- <-. split; [done|]. destruct (sp_required p) eqn:Er.
  { unfold pulled in Hpulled. rewrite Er in Hpulled. by destruct Hpulled as [_ ->]. }
  destruct (pull_pdu_poll cfg grant p s pdu p' s' Er E) as [[_ ?]|(hdr & rest & _ & Hpd)]; [auto|].
  by apply (pd_counters _ _ _ _ Hpd).
Qed.

Lemma tx_step_good s s' : config_ok -> tx_step s s' -> good s -> good s'.
Proof.
  intros Hc Hstep Hg. pose proof Hc as [Hq Hb]. pose proof Hg as [Hi _]. destruct Hstep.
  - destruct (handle_sdu_ok cfg is_srb Hq Hb env s buf r Hi) as (s1 & E & ?); [done..|].
    assert (s1 = s') as -> by congruence. eapply good_emits; [done| |done]. by eapply handle_sdu_out.
  - eapply good_emits; [by apply discard_sdu_ok|apply discard_sdu_out|done].
  - by eapply pull_poll_inv.
  - destruct (handle_status_pdu_ok cfg Hq Hb env p s status Hi) as (s1 & E & ? & Ha); [done|].
    assert (s1 = s') as -> by congruence. eapply good_emits; [done| |done]. by eapply applied_or_silent_emits.
  - eapply good_core; [apply handle_changed_buffer_state_core|apply handle_changed_buffer_state_out|done].
  - destruct (update_mac_buffer_state_ok cfg Hq Hb p s force Hi) as (s1 & E & ?). assert (s1 = s') as -> by congruence.
    eapply good_core; [done|by eapply update_mac_buffer_state_out|done].
  - set (s0 := with_poll_timer s timer_expired (is_poll_retransmit_timer_expired s)) in *.
    assert (Hg0 : good s0) by (eapply good_core, Hg; [by repeat split|solve_emits]).
    destruct (on_expired_poll_retransmit_timer_ok cfg Hq Hb p s0 (proj1 Hg0)) as (s1 & E & ? & ? & _).
    assert (s1 = s') as -> by congruence. by eapply good_emits.
  - eapply good_core, Hg; [by repeat split|solve_emits].
  - eapply good_core, Hg; unfold tx_stop; destruct (tx_stopped s); try (by repeat split); solve_emits.
Qed.

Lemma tx_reachable_good s : config_ok -> tx_reachable s -> good s.
Proof.
  intros Hc (s0 & H0 & Hs). unfold rlc_tx_am_entity_ctor in H0. destruct (srsran_assert _); [|done].
  injection H0 as <-. assert (Hg : good tx_init).
  { split; [by apply tx_init_inv, Hc|]. unfold poll_inv. simpl. lia. }
  induction Hs as [|s1 s2 s3 Hstep _ IH]; [done|]. apply IH. by eapply tx_step_good.
Qed.

(** ** The properties *)

(** C26: in every state the transmitting entity reaches by grants, discards, timer expiries, SDUs that
    are neither empty nor longer than 2^15 - 1 octets ([sdu_ok]) and status reports, with fields as the parser
    gives them, whose ACK_SN is not beyond what was sent ([sent_status]), the invariant of its transmit window holds,
    the polling counters are below their thresholds, and none of these events makes it fail an assertion or run
    forever. Other reports of the peer and empty SDUs are excluded, and have to be: see
    [unsent_nack_fails_assertion] and [empty_sdu_blocks_sn]. *)
Theorem tx_never_fails s :
  config_ok -> tx_reachable s ->
  tx_inv cfg s /\ poll_inv cfg s /\
  (forall env buf r, is_bytes buf -> sdu_ok buf -> exists s', handle_sdu cfg is_srb env s buf r = ok s') /\
  (forall grant p, Inv p -> exists pdu p' s', pull_pdu cfg grant p s = ok (pdu, p', s')) /\
  (forall env p status, sent_status cfg s status -> exists s', handle_status_pdu cfg env p s status = ok s') /\
  (forall p, exists s', on_expired_poll_retransmit_timer cfg p s = ok s') /\
  (forall p force, exists s', update_mac_buffer_state cfg p s force = ok s').
Proof.
  intros Hc Hr. destruct (tx_reachable_good s Hc Hr) as [Hi Hp]. pose proof Hc as [Hq Hb]. split_and!; try done.
  - intros env buf r ? ?. destruct (handle_sdu_ok cfg is_srb Hq Hb env s buf r Hi) as (? & ? & _); eauto.
  - intros grant p Hip. destruct (pull_pdu_ok cfg Hq Hb Inv (Hlaws := Hlaws) grant p s Hi Hip) as (? & ? & ? & ? & _). eauto.
  - intros env p status Hs. destruct (handle_status_pdu_ok cfg Hq Hb env p s status Hi Hs) as (? & ? & _). eauto.
  - intros p. destruct (on_expired_poll_retransmit_timer_ok cfg Hq Hb p s Hi) as (? & ? & _). eauto.
  - intros p force. destruct (update_mac_buffer_state_ok cfg Hq Hb p s force Hi) as (? & ? & _). eauto.
Qed.

(** C24: what is handed to the lower layer fits the grant. It is a report of the receiving entity
    (as a whole, or cut after some of its NACKs) whenever one is required, and otherwise a data PDU
    whose header and payload are, for the receiver that reads them, bytes of the SDU that the
    window holds for its SN, with the SI that tells whether its first and last byte are among
    them. *)
Theorem pulled_pdu_genuine grant p s :
  config_ok -> tx_inv cfg s -> Inv p ->
  exists pdu p' s', pull_pdu cfg grant p s = ok (pdu, p', s') /\ tx_inv cfg s' /\ Inv p' /\
    pulled cfg grant p s s' pdu.
Proof. intros [Hq Hb] Hi Hp. by apply pull_pdu_ok. Qed.

(** C17: a status report that is accepted moves TX_Next_Ack to its first NACK, or to ACK_SN, and
    takes exactly the SDUs before it out of the window, reports the last PDCP SNs among them to the
    upper layer, and queues for retransmission every byte it reports missing that was sent and is
    in the window; a report that is not accepted changes nothing. *)
Theorem status_report_applied env p s status :
  config_ok -> tx_inv cfg s -> sent_status cfg s status ->
  exists s', handle_status_pdu cfg env p s status = ok s' /\ tx_inv cfg s' /\
    if (status_accepted cfg env s status).1 then applied cfg s s' status else silent s s'.
Proof. intros [Hq Hb]. by apply handle_status_pdu_ok. Qed.

(** The P bit of a data PDU. It is set when the PDU is the last one there is to send and when
    t-PollRetransmit has expired; with it the counters restart and t-PollRetransmit runs; without
    it the counters stay below pollPDU and pollByte. *)
Theorem polling_rules grant p s pdu p' s' :
  config_ok -> tx_inv cfg s -> Inv p -> sp_required p = false ->
  pull_pdu cfg grant p s = ok (pdu, p', s') -> pdu <> [] ->
  exists h, rlc_am_read_data_pdu_header pdu sz = Some h /\ polled cfg s s' (h_p h).
Proof.
  intros [Hq Hb] Hi Hip Hreq E Hne.
  destruct (pull_pdu_ok cfg Hq Hb Inv (Hlaws := Hlaws) grant p s Hi Hip) as (pdu1 & p1 & s1 & E1 & _ & _ & Hpulled).
  rewrite E in E1. injection E1 as <- <- <-. unfold pulled in Hpulled. rewrite Hreq in Hpulled.
  destruct Hpulled as [?|(_ & h & payload & i & Hcar & _)]; [done|].
  destruct (pull_pdu_poll cfg grant p s pdu p' s' Hreq E) as [[? _]|(hdr & rest & Epdu & Hpd)]; [done|].
  pose proof (ca_read _ _ _ _ _ Hcar) as Hread. exists h. split; [done|]. rewrite Epdu in Hread.
  by rewrite (written_poll_bit _ _ _ _ (pd_bit _ _ _ _ Hpd) Hread).
Qed.

(** The buffer state is the number of bytes to send - SDUs in the queue, the rest of the SDU
    under segmentation, retransmissions, each with its header, and the status report - modulo
    2^32, and it is reported when it is forced or when the old or the new one is at most the
    largest PDU. *)
Theorem buffer_state_exact p s force :
  config_ok -> tx_inv cfg s ->
  let bs := u32 (bytes_to_send cfg p s) in
  exists s', update_mac_buffer_state cfg p s force = ok s' /\ tx_inv cfg s' /\
    prev_buffer_state s' = bs /\ pending_buffer_state s' = false /\
    tx_out s' = tx_out s ++
      (if force || (bs <=? MAX_DL_PDU_LENGTH) || (prev_buffer_state s <=? MAX_DL_PDU_LENGTH) then [ev_buffer_state bs] else []).
Proof.
  intros [Hq Hb] Hi bs. destruct (update_mac_buffer_state_ok cfg Hq Hb p s force Hi) as (s1 & E & Hcore).
  exists s1. split; [done|]. split; [by eapply tx_inv_core|]. unfold update_mac_buffer_state in E.
  rewrite (get_buffer_state_ok cfg Hq Hb) in E by (by apply (tx_inv_core _ s)). rewrite bind_ok in E.
  injection E as <-. simpl. change (bytes_to_send cfg p (with_buffer_state s (prev_buffer_state s) false))
    with (bytes_to_send cfg p s). fold bs. destruct (force || _ || _); simpl; rewrite ?app_nil_r; done.
Qed.

(** When t-PollRetransmit expires while nothing new could carry the poll, the SDU at
    TX_Next_Ack is queued for retransmission as a whole, the lower layer is told of the new buffer
    state, and the next data PDU will poll; with nothing unacknowledged nothing happens; with
    something else to send only the next PDU is made to poll. *)
Theorem poll_expiry_retransmits p s :
  config_ok -> tx_inv cfg s ->
  exists s', on_expired_poll_retransmit_timer cfg p s = ok s' /\ tx_inv cfg s' /\ only_emits s s' /\
    (if nothing_to_send cfg s then
       if cm_is_empty (tx_window s) then s' = s
       else exists i, get s (tx_next_ack (tx_st s)) = Some i /\ poll_repeated cfg s s' i
     else s' = with_poll_timer s (poll_retransmit_timer s) true).
Proof. intros [Hq Hb]. by apply on_expired_poll_retransmit_timer_ok. Qed.
End tx_properties.

(** ** Concrete runs *)

Definition tx_cfg12 : rlc_tx_am_config := mk_tx_config size12bits pdcp_sn_12bits 45 4 4 100 16 1000 0.
Definition env_ok : tx_env := mk_tx_env true true.
Definition rx_cfg12 : rlc_rx_am_config := mk_rx_config size12bits 35 0 None.

(** A receiving entity that has received nothing. *)
Definition idle_rx : rlc_rx_am_entity :=
  mk_rx rx_state_init 2048 false cm_empty (status_ctor size12bits) (set_ack_sn (status_ctor size12bits) 0)
    (status_ctor size12bits) 3 false timer_stopped timer_stopped false [].

Local Instance concrete_provider : StatusProvider rlc_rx_am_entity := rx_status_provider rx_cfg12 true.

(** The calls of a run: an SDU with its PDCP SN in the second octet, or a grant. *)
Inductive tx_call := call_sdu (buf : bytes) | call_grant (grant : Z).

Fixpoint tx_run (s : rlc_tx_am_entity) (l : list tx_call) : outcome (list bytes * rlc_tx_am_entity) :=
  match l with
  | [] => ok ([], s)
  | call_sdu buf :: l => s ← handle_sdu tx_cfg12 false env_ok s buf false; tx_run s l
  | call_grant grant :: l =>
      '(pdu, _, s) ← pull_pdu tx_cfg12 grant idle_rx s;
      '(pdus, s) ← tx_run s l;
      ok (pdu :: pdus, s)
  end.

Definition tx_after (l : list tx_call) : rlc_tx_am_entity :=
  match tx_run tx_init l with ok (_, s) => s | fail _ => tx_init end.

Definition call_ok (c : tx_call) : bool :=
  match c with
  | call_sdu buf => forallb (fun b => (0 <=? b) && (b <? 256)) buf && (0 <? zlen buf) && (zlen buf <? 2 ^ 15)
  | call_grant _ => true
  end.

Lemma idle_rx_wf : reports_wf size12bits idle_rx.
Proof. split; try done; split; vm_compute; done. Qed.

Lemma tx_run_steps l : forall s pdus s',
  forallb call_ok l = true -> tx_run s l = ok (pdus, s') ->
  rtc (tx_step tx_cfg12 false (reports_wf size12bits)) s s'.
Proof.
  induction l as [|[buf|grant] l IH]; intros s pdus s' Hl E; simpl in Hl, E.
  - injection E as <- <-. apply rtc_refl.
  - apply andb_prop in Hl as [[[Hb Hl1%Z.ltb_lt]%andb_prop Hl2%Z.ltb_lt]%andb_prop Hl].
    apply bind_ok_inv in E as (s1 & E1 & E). eapply rtc_l; [|by eapply IH].
    eapply step_sdu; [|by split|exact E1]. apply Forall_forall. intros b Hin. rewrite forallb_forall in Hb.
    apply list_elem_of_In in Hin. specialize (Hb b Hin). unfold is_byte. lia.
  - apply bind_ok_inv in E as ([[pdu p'] s1] & E1 & E). apply bind_ok_inv in E as ([pdus' s2] & E2 & E).
    injection E as _ <-. eapply rtc_l; [|by eapply IH]. eapply step_pull; [apply idle_rx_wf|exact E1].
Qed.

Lemma tx_after_reachable l :
  forallb call_ok l = true -> match tx_run tx_init l with ok _ => true | fail _ => false end = true ->
  tx_reachable tx_cfg12 false (reports_wf size12bits) (tx_after l).
Proof.
  intros Hl He. exists tx_init. split; [done|]. unfold tx_after. destruct (tx_run tx_init l) as [[pdus s]|] eqn:E; [|done].
  by eapply tx_run_steps.
Qed.

Lemma tx_cfg12_ok : config_ok tx_cfg12.
Proof. split; vm_compute; split; done. Qed.

Lemma tx_after_inv l :
  forallb call_ok l = true -> match tx_run tx_init l with ok _ => true | fail _ => false end = true ->
  tx_inv tx_cfg12 (tx_after l).
Proof.
  intros Hl He. eapply (tx_reachable_good tx_cfg12 false (reports_wf size12bits)); [apply tx_cfg12_ok|].
  by apply tx_after_reachable.
Qed.

(** Two SDUs, the second one in two segments. *)
Definition two_sdus : list tx_call :=
  [call_sdu [128; 1; 7]; call_sdu [128; 2; 9; 8]; call_grant 5; call_grant 5; call_grant 8; call_grant 8].

Example two_sdus_pdus :
  tx_run tx_init two_sdus
  = ok ([[128; 0; 128; 1; 7]; [144; 1; 128; 2; 9]; [224; 1; 0; 3; 8]; []], tx_after two_sdus).
Proof. vm_compute. reflexivity. Qed.

(** ** Behaviours the code does not mean to have *)

(** A NACK for the SN that TX_Next is to use next passes the checks on received reports - they
    allow ACK_SN up to TX_Next + 1 - and fails the assertion of the transmit window: two fields of
    one STATUS PDU of the peer stop the process, before anything was sent. *)
Theorem unsent_nack_fails_assertion :
  handle_status_pdu tx_cfg12 env_ok idle_rx tx_init
    (mk_status size12bits [mk_nack 0 false 0 so_end_of_sdu false 0] 5 1) = fail assertion.
Proof. vm_compute. reflexivity. Qed.

(** SDUs that are sent whole do not count for pollByte: [build_new_pdu] asks for the length of
    a buffer that it has moved into the window. With pollByte = 100, 250 bytes in two PDUs leave
    the byte counter at 0, and neither PDU polls. *)
Theorem full_sdus_do_not_count_bytes :
  let sdu n := 128 :: n :: replicate 123 7 in
  let l := [call_sdu (sdu 1); call_sdu (sdu 2); call_sdu (sdu 3); call_grant 200; call_grant 200] in
  match tx_run tx_init l with
  | ok (pdus, s) =>
      byte_without_poll (tx_st s) = 0 /\ pdu_without_poll (tx_st s) = 2 /\
      map (fun pdu => option_map h_p (rlc_am_read_data_pdu_header pdu size12bits)) pdus = [Some 0; Some 0] /\
      zlen (concat pdus) = 254
  | fail _ => False
  end.
Proof. vm_compute. split_and!; reflexivity. Qed.

(** An SDU without bytes, which no caller sends, blocks its SN: the next PDU fails an assertion. *)
Theorem empty_sdu_blocks_sn :
  tx_run tx_init [call_sdu []; call_grant 5; call_sdu [128; 2; 9]; call_grant 8] = fail assertion.
Proof. vm_compute. reflexivity. Qed.

(** ** Witnesses *)
Lemma tx_never_fails_witness :
  exists pdu p' s', pull_pdu tx_cfg12 8 idle_rx (tx_after two_sdus) = ok (pdu, p', s').
Proof.
  destruct (tx_never_fails tx_cfg12 false (reports_wf size12bits) (tx_after two_sdus)) as (_ & _ & _ & Hpull & _).
  - apply tx_cfg12_ok.
  - apply tx_after_reachable; vm_compute; reflexivity.
  - apply Hpull. apply idle_rx_wf.
Defined.

Lemma pulled_pdu_genuine_witness :
  exists pdu p' s', pull_pdu tx_cfg12 5 idle_rx (tx_after [call_sdu [128; 1; 7; 7]]) = ok (pdu, p', s') /\
    pulled tx_cfg12 5 idle_rx (tx_after [call_sdu [128; 1; 7; 7]]) s' pdu.
Proof.
  destruct (pulled_pdu_genuine tx_cfg12 (reports_wf size12bits) 5 idle_rx (tx_after [call_sdu [128; 1; 7; 7]]))
    as (pdu & p' & s' & E & _ & _ & Hp).
  - apply tx_cfg12_ok.
  - apply tx_after_inv; vm_compute; reflexivity.
  - apply idle_rx_wf.
  - exists pdu, p', s'. split; [exact E|exact Hp].
Defined.

Definition second_missing : rlc_am_status_pdu := mk_status size12bits [mk_nack 1 true 0 2 false 0] 9 2.

Lemma second_missing_sent : sent_status tx_cfg12 (tx_after two_sdus) second_missing.
Proof. split; [vm_compute; done|repeat constructor; vm_compute; done|left; vm_compute; done]. Qed.

Lemma status_report_applied_witness :
  exists s', handle_status_pdu tx_cfg12 env_ok idle_rx (tx_after two_sdus) second_missing = ok s' /\
    applied tx_cfg12 (tx_after two_sdus) s' second_missing.
Proof.
  destruct (status_report_applied tx_cfg12 env_ok idle_rx (tx_after two_sdus) second_missing) as (s' & E & _ & Ha).
  - apply tx_cfg12_ok.
  - apply tx_after_inv; vm_compute; reflexivity.
  - apply second_missing_sent.
  - exists s'. split; [exact E|exact Ha].
Defined.

Lemma polling_rules_witness :
  let s := tx_after [call_sdu [128; 1; 7; 7]] in
  exists pdu s' h, pull_pdu tx_cfg12 8 idle_rx s = ok (pdu, idle_rx, s') /\
    rlc_am_read_data_pdu_header pdu size12bits = Some h /\ h_p h = 1 /\ polled tx_cfg12 s s' (h_p h).
Proof.
  destruct (pull_pdu tx_cfg12 8 idle_rx (tx_after [call_sdu [128; 1; 7; 7]])) as [[[pdu p'] s']|] eqn:E;
    [|vm_compute in E; discriminate].
  assert (Hne : pdu <> [] /\ p' = idle_rx) by (vm_compute in E; injection E as <- <- _; split; [discriminate|reflexivity]).
  destruct Hne as [Hne ->].
  destruct (polling_rules tx_cfg12 (reports_wf size12bits) 8 idle_rx (tx_after [call_sdu [128; 1; 7; 7]]) pdu idle_rx s')
    as (h & Hr & Hp).
  - apply tx_cfg12_ok.
  - apply tx_after_inv; vm_compute; reflexivity.
  - apply idle_rx_wf.
  - reflexivity.
  - exact E.
  - exact Hne.
  - exists pdu, s', h. split; [exact E|]. split; [exact Hr|]. split; [|exact Hp].
    apply (pd_last _ _ _ _ Hp). vm_compute in E. injection E as _ <-. reflexivity.
Defined.

Lemma buffer_state_exact_witness :
  let s := tx_after [call_sdu [128; 1; 7; 7]; call_grant 5] in
  u32 (bytes_to_send tx_cfg12 idle_rx s) = 5 /\
  exists s', update_mac_buffer_state tx_cfg12 idle_rx s false = ok s' /\ prev_buffer_state s' = 5.
Proof.
  split; [vm_compute; reflexivity|].
  destruct (buffer_state_exact tx_cfg12 idle_rx (tx_after [call_sdu [128; 1; 7; 7]; call_grant 5]) false) as (s' & E & _ & Hp & _).
  - apply tx_cfg12_ok.
  - apply tx_after_inv; vm_compute; reflexivity.
  - exists s'. split; [exact E|]. rewrite Hp. vm_compute. reflexivity.
Defined.

Lemma poll_expiry_retransmits_witness :
  exists s' i, on_expired_poll_retransmit_timer tx_cfg12 idle_rx (tx_after two_sdus) = ok s' /\
    info_sdu i = [128; 1; 7] /\ poll_repeated tx_cfg12 (tx_after two_sdus) s' i.
Proof.
  destruct (poll_expiry_retransmits tx_cfg12 idle_rx (tx_after two_sdus)) as (s' & E & _ & _ & Hx).
  - apply tx_cfg12_ok.
  - apply tx_after_inv; vm_compute; reflexivity.
  - assert (En : nothing_to_send tx_cfg12 (tx_after two_sdus) = true) by (vm_compute; reflexivity).
    assert (Ee : cm_is_empty (tx_window (tx_after two_sdus)) = false) by (vm_compute; reflexivity).
    rewrite En, Ee in Hx. destruct Hx as (i & Hi & Hr). exists s', i. split; [exact E|]. split; [|exact Hr].
    vm_compute in Hi. injection Hi as <-. reflexivity.
Defined.
