(* ===== verification/RlcRxUm.v ===== *)
(** * The receiving RLC UM entity

    [rlc_rx_um_entity] of [lib/rlc/rlc_rx_um_entity.{h,cpp}]: the reassembly window, which ends at
    RX_Next_Highest, the delivery of SDUs, and t-Reassembly. An event of the entity is one function
    from its state to its state; what it does to the upper layer and to the metrics are the events
    of [um_out], in order. Log output and the latency measurement are left out. *)

From S2P Require Import Prelude SduWindow RlcAmPdu RlcUmPdu RlcSegments RlcRxAm.

(** ** Data *)

(** [rlc_rx_um_sdu_info]; its segments are those of the AM entity under another name. *)
Record um_sdu_info := mk_um_sdu_info {
  um_fully_received : bool;
  um_has_gap : bool;
  um_segments : list sdu_segment
}.

Definition um_sdu_info_init : um_sdu_info := mk_um_sdu_info false false [].

Record rlc_rx_um_state := mk_um_state {
  rx_next_reassembly : Z;
  rx_timer_trigger : Z;
  um_rx_next_highest : Z
}.

Definition um_state_init : rlc_rx_um_state := mk_um_state 0 0 0.

Record rlc_rx_um_config := mk_rx_um_config {
  um_sn_field_length : rlc_um_sn_size;
  um_t_reassembly : Z
}.

Record rlc_rx_um_entity := mk_rx_um {
  um_st : rlc_rx_um_state;
  um_rx_window : circular_map um_sdu_info;
  um_reassembly_timer : timer_state;
  um_out : list rx_event
}.

(** Assignments to single members. *)
Definition um_set_st s x := mk_rx_um x (um_rx_window s) (um_reassembly_timer s) (um_out s).
Definition um_set_window s x := mk_rx_um (um_st s) x (um_reassembly_timer s) (um_out s).
Definition um_set_timer s x := mk_rx_um (um_st s) (um_rx_window s) x (um_out s).
Definition um_emit s e := mk_rx_um (um_st s) (um_rx_window s) (um_reassembly_timer s) (um_out s ++ [e]).

Definition set_rx_next_reassembly (x : rlc_rx_um_state) n := mk_um_state n (rx_timer_trigger x) (um_rx_next_highest x).
Definition set_rx_timer_trigger (x : rlc_rx_um_state) n := mk_um_state (rx_next_reassembly x) n (um_rx_next_highest x).
Definition set_um_rx_next_highest (x : rlc_rx_um_state) n := mk_um_state (rx_next_reassembly x) (rx_timer_trigger x) n.

Section rlc_rx_um_entity.
Context (cfg : rlc_rx_um_config).

Abbreviation sz := (um_sn_field_length cfg).
Abbreviation md := (um_mod sz).
Abbreviation um_window_size := (um_window sz).

Definition rlc_rx_um_entity_ctor : rlc_rx_um_entity := mk_rx_um um_state_init cm_empty timer_stopped [].

(** ** Window helpers *)

(** [(x - st.rx_next_highest - um_window_size) % mod] *)
Definition um_rx_mod_base s (x : Z) : Z := sn_dist md (um_rx_next_highest (um_st s) + um_window_size) x.

Definition sn_in_reassembly_window s (sn : Z) : bool :=
  (um_rx_mod_base s (um_rx_next_highest (um_st s) - um_window_size) <=? um_rx_mod_base s sn)
  && (um_rx_mod_base s sn <? um_rx_mod_base s (um_rx_next_highest (um_st s))).

Definition sn_invalid_for_rx_buffer s (sn : Z) : bool :=
  (um_rx_mod_base s (um_rx_next_highest (um_st s) - um_window_size) <=? um_rx_mod_base s sn)
  && (um_rx_mod_base s sn <? um_rx_mod_base s (rx_next_reassembly (um_st s))).

Definition um_sn_fully_received s (sn : Z) : outcome bool :=
  if has_sn um_window_size (um_rx_window s) sn then
    i ← cm_at um_window_size (um_rx_window s) sn; ok (um_fully_received i)
  else ok false.

Definition um_sn_gap s (sn : Z) : outcome (option bool) :=
  if has_sn um_window_size (um_rx_window s) sn then
    i ← cm_at um_window_size (um_rx_window s) sn; ok (Some (um_has_gap i))
  else ok None.

Definition um_remove_sn s (sn : Z) : outcome rlc_rx_um_entity :=
  w ← remove_sn um_window_size (um_rx_window s) sn; ok (um_set_window s w).

(** ** Segments *)

(** [store_segment] and [update_segment_inventory] of the UM entity have, statement by statement, the
    bodies of those of the AM entity. *)
Definition um_store_segment (segs : list sdu_segment) (new : sdu_segment) : bool * list sdu_segment :=
  store_segment segs new.
Definition um_update_segment_inventory (segs : list sdu_segment) : bool * bool := update_segment_inventory segs.

Definition um_handle_segment_data_sdu s (header : rlc_um_pdu_header) (payload : bytes) : outcome (bool * rlc_rx_um_entity) :=
  if bool_decide (um_si header = full_sdu) then ok (false, s)
  else
    let sn := um_sn header in
    w ← (if has_sn um_window_size (um_rx_window s) sn then ok (um_rx_window s)
         else add_sn um_window_size um_sdu_info_init (um_rx_window s) sn);
    rx_sdu ← cm_at um_window_size w sn;
    let '(stored, segments) :=
      um_store_segment (um_segments rx_sdu) (mk_segment (um_si header) (um_so header) payload) in
    let '(gap, full) := um_update_segment_inventory segments in
    w ← cm_set um_window_size w sn (mk_um_sdu_info full gap segments);
    ok (stored, um_set_window s w).

Definition um_reassemble_sdu (env : chain_env) (info : um_sdu_info) : option bytes :=
  if negb (um_fully_received info) then None else build_chain env (seg_payload <$> um_segments info).

(** ** Actions when a UMD PDU is placed in the reception buffer *)
Definition um_loop_fuel : nat := S (Z.to_nat md).

(** The SDU is complete: it is delivered and its segments are released. *)
Definition um_deliver_sdu (env : chain_env) s (sn : Z) : outcome rlc_rx_um_entity :=
  sdu_info ← cm_at um_window_size (um_rx_window s) sn;
  let s := match um_reassemble_sdu env sdu_info with
           | None => um_emit s ev_lost
           | Some sdu => um_emit (um_emit s (ev_sdu_metrics (zlen sdu))) (ev_new_sdu sdu)
           end in
  w ← cm_set um_window_size (um_rx_window s) sn (mk_um_sdu_info (um_fully_received sdu_info) (um_has_gap sdu_info) []);
  ok (um_set_window s w).

(** Fully received SDUs are removed, from [sn] to RX_Next_Highest. *)
Definition um_remove_received (sn : Z) s : outcome (Z * rlc_rx_um_entity) :=
  for_loop um_loop_fuel
    (fun i s => um_rx_mod_base s i <? um_rx_mod_base s (um_rx_next_highest (um_st s))) (sn_next md)
    (fun i s =>
       full ← um_sn_fully_received s i;
       if full : bool then s ← um_remove_sn s i; ok (s, false) else ok (s, true))
    sn s.

Definition um_update_rx_next_reassembly s (sn : Z) : outcome rlc_rx_um_entity :=
  if sn =? rx_next_reassembly (um_st s) then
    '(sn_upd, s) ← um_remove_received (rx_next_reassembly (um_st s) mod md) s;
    ok (um_set_st s (set_rx_next_reassembly (um_st s) sn_upd))
  else ok s.

(** An SN leaves the window: what was not fully received is counted as lost. *)
Definition um_discard_sn (sn : Z) s : outcome rlc_rx_um_entity :=
  if has_sn um_window_size (um_rx_window s) sn then
    i ← cm_at um_window_size (um_rx_window s) sn;
    um_remove_sn (if um_fully_received i then s else um_emit s ev_lost) sn
  else ok (um_emit s ev_lost).

(** [sn] is beyond the window: the window moves up to it. *)
Definition um_move_window s (sn : Z) : outcome rlc_rx_um_entity :=
  let s := um_set_st s (set_um_rx_next_highest (um_st s) (sn_next md sn)) in
  '(sn_upd, s) ← for_loop um_loop_fuel
    (fun i s => negb (sn_in_reassembly_window s i)) (sn_next md)
    (fun i s => s ← um_discard_sn i s; ok (s, false)) (rx_next_reassembly (um_st s) mod md) s;
  '(sn_upd, s) ← um_remove_received sn_upd s;
  ok (um_set_st s (set_rx_next_reassembly (um_st s) sn_upd)).

Definition um_stop_reassembly_timer s : outcome rlc_rx_um_entity :=
  if is_running (um_reassembly_timer s) then
    let st := um_st s in
    let stop := rx_timer_trigger st <=? rx_next_reassembly st in
    let stop := if negb (sn_in_reassembly_window s (rx_timer_trigger st))
                   && negb (rx_timer_trigger st =? um_rx_next_highest st) then true else stop in
    stop ← (if um_rx_next_highest st =? u32 (rx_next_reassembly st + 1) then
              gap ← um_sn_gap s (um_rx_next_highest st);
              ok (match gap with Some false => true | _ => stop end)
            else ok stop);
    ok (if stop : bool then um_set_timer s (timer_stop (um_reassembly_timer s)) else s)
  else ok s.

(** Whether t-Reassembly is (re)started. *)
Definition um_reassembly_needed s : outcome bool :=
  let st := um_st s in
  let nh := um_rx_mod_base s (um_rx_next_highest st) in
  let next := um_rx_mod_base s (rx_next_reassembly st + 1) in
  let restart := next <? nh in
  if nh =? next then
    gap ← um_sn_gap s (um_rx_next_highest st);
    ok (match gap with Some true => true | _ => restart end)
  else ok restart.

Definition um_run_reassembly_timer s : rlc_rx_um_entity :=
  um_set_st (um_set_timer s (timer_run (um_reassembly_timer s)))
            (set_rx_timer_trigger (um_st s) (um_rx_next_highest (um_st s))).

Definition um_start_reassembly_timer s : outcome rlc_rx_um_entity :=
  if negb (is_running (um_reassembly_timer s)) then
    restart ← um_reassembly_needed s;
    ok (if restart : bool then um_run_reassembly_timer s else s)
  else ok s.

(** What follows the storing of a segment of [sn]. *)
Definition um_place_segment (env : chain_env) s (sn : Z) : outcome rlc_rx_um_entity :=
  full ← um_sn_fully_received s sn;
  s ← (if full : bool then
         s ← um_deliver_sdu env s sn;
         um_update_rx_next_reassembly s sn
       else if negb (sn_in_reassembly_window s sn) then um_move_window s sn
       else ok s);
  s ← um_stop_reassembly_timer s;
  um_start_reassembly_timer s.

Definition um_handle_full_sdu (env : chain_env) s (payload : bytes) : rlc_rx_um_entity :=
  match build_chain env [payload] with
  | None => um_emit s ev_lost
  | Some sdu => um_emit (um_emit s (ev_sdu_metrics (zlen sdu))) (ev_new_sdu sdu)
  end.

Definition um_handle_pdu (env : chain_env) s (buf : bytes) : outcome rlc_rx_um_entity :=
  let s := um_emit (um_emit s (ev_pdu (zlen buf))) (ev_pcap buf) in
  match rlc_um_read_data_pdu_header buf sz with
  | None => ok (um_emit s ev_malformed)
  | Some header =>
      let header_len := rlc_um_nr_packed_length header in
      if zlen buf <=? header_len then ok s
      else
        let payload := slice buf header_len (zlen buf - header_len) in
        if bool_decide (um_si header = full_sdu) then ok (um_handle_full_sdu env s payload)
        else if sn_invalid_for_rx_buffer s (um_sn header) then ok s
        else
          '(_, s) ← um_handle_segment_data_sdu s header payload;
          um_place_segment env s (um_sn header)
  end.

(** ** t-Reassembly *)
Definition um_on_expired_reassembly_timer s : outcome rlc_rx_um_entity :=
  '(sn_upd, s) ← for_loop um_loop_fuel
    (fun i s => um_rx_mod_base s i <? um_rx_mod_base s (um_rx_next_highest (um_st s))) (sn_next md)
    (fun i s =>
       if um_rx_mod_base s i <? um_rx_mod_base s (rx_timer_trigger (um_st s)) then
         s ← um_discard_sn i s; ok (s, false)
       else
         full ← um_sn_fully_received s i;
         if full : bool then s ← um_remove_sn s i; ok (s, false) else ok (s, true))
    (rx_next_reassembly (um_st s)) s;
  let s := um_set_st s (set_rx_next_reassembly (um_st s) sn_upd) in
  restart ← um_reassembly_needed s;
  ok (if restart : bool then um_run_reassembly_timer s else s).

(** Expiry as [timer_manager] runs it. *)
Definition um_reassembly_timer_expiry s : outcome rlc_rx_um_entity :=
  let s := um_set_timer s timer_expired in
  if 0 <? um_t_reassembly cfg then um_on_expired_reassembly_timer s else ok s.

Definition um_stop s : rlc_rx_um_entity := um_set_timer s (timer_stop (um_reassembly_timer s)).

End rlc_rx_um_entity.
