(* ===== verification/RlcRxUmProps.v ===== *)
(** * Properties of the receiving UM entity

    What every function of the entity does to the reassembly window, for windows of any content;
    that no PDU makes it fail; the reassembly of SDUs; the expiry of t-Reassembly; and two
    behaviours of t-Reassembly that the code does not mean to have. *)

From S2P Require Import Prelude SduWindow RlcAmPdu RlcUmPdu RlcSegments RlcRxAm RlcRxAmInv RlcRxUm.

Section um_rx.
Context (cfg : rlc_rx_um_config).

Local Abbreviation sz := (um_sn_field_length cfg).
Local Abbreviation md := (um_mod sz).
Local Abbreviation W := (um_window sz).
Local Abbreviation get s k := (wget W (um_rx_window s) k).
Local Abbreviation pos s x := (um_rx_mod_base cfg s x).

Implicit Types (s : rlc_rx_um_entity).

(** What holds in every state, whatever was received. *)
Record um_ok s : Prop := {
  uo_window : window_wf W (um_rx_window s);
  uo_next : 0 <= rx_next_reassembly (um_st s) < md;
  uo_nh : 0 <= um_rx_next_highest (um_st s) < md;
  uo_trigger : 0 <= rx_timer_trigger (um_st s) < md
}.

Lemma um_facts : 2 <= W /\ md = 2 * W /\ md <= 2 ^ 12.
Proof. unfold window_size, cardinality. destruct sz; vm_compute; split_and!; congruence. Qed.

(** ** Positions in the window *)
Lemma pos_range s x : 0 <= pos s x < md.
Proof. apply sn_dist_range. Qed.

Lemma pos_nh s : pos s (um_rx_next_highest (um_st s)) = W.
Proof.
  unfold um_rx_mod_base. rewrite sn_dist_mod. pose proof um_facts as (? & -> & _).
  replace (um_rx_next_highest (um_st s) - (um_rx_next_highest (um_st s) + W)) with (W + (-1) * (2 * W)) by lia.
  rewrite Z.mod_add, Z.mod_small; lia.
Qed.

Lemma pos_low s : pos s (um_rx_next_highest (um_st s) - W) = 0.
Proof.
  unfold um_rx_mod_base. rewrite sn_dist_mod. pose proof um_facts as (? & -> & _).
  replace (um_rx_next_highest (um_st s) - W - (um_rx_next_highest (um_st s) + W)) with (0 + (-1) * (2 * W)) by lia.
  rewrite Z.mod_add, Z.mod_small; lia.
Qed.

Lemma in_window s x : sn_in_reassembly_window cfg s x = (pos s x <? W).
Proof.
  unfold sn_in_reassembly_window. rewrite pos_low, pos_nh. pose proof (pos_range s x).
  by rewrite (proj2 (Z.leb_le _ _)) by lia.
Qed.

Lemma invalid_sn s x : sn_invalid_for_rx_buffer cfg s x = (pos s x <? pos s (rx_next_reassembly (um_st s))).
Proof.
  unfold sn_invalid_for_rx_buffer. rewrite pos_low. pose proof (pos_range s x).
  by rewrite (proj2 (Z.leb_le _ _)) by lia.
Qed.

Lemma pos_next s x : pos s x + 1 < md -> pos s (sn_next md x) = pos s x + 1.
Proof. apply sn_dist_next_lt. Qed.

Lemma pos_next_mod s x : pos s (sn_next md x) = if pos s x + 1 =? md then 0 else pos s x + 1.
Proof. apply sn_dist_next. Qed.

Lemma pos_inj s x y : 0 <= x < md -> 0 <= y < md -> pos s x = pos s y -> x = y.
Proof. apply sn_dist_inj. Qed.

Definition full s (k : Z) : bool := match get s k with Some i => um_fully_received i | None => false end.

Lemma um_sn_fully_received_eq s k : um_sn_fully_received cfg s k = ok (full s k).
Proof.
  unfold um_sn_fully_received, full. rewrite has_sn_wget.
  destruct (get s k) as [i|] eqn:E; simpl; [|done]. by rewrite (cm_at_ok _ _ _ _ E), bind_ok.
Qed.

Lemma um_sn_gap_eq s k : um_sn_gap cfg s k = ok (option_map um_has_gap (get s k)).
Proof.
  unfold um_sn_gap. rewrite has_sn_wget. destruct (get s k) as [i|] eqn:E; simpl; [|done].
  by rewrite (cm_at_ok _ _ _ _ E), bind_ok.
Qed.

(** ** The loops over the window *)

(** [s'] is [s] without the SNs from [a] up to [b]. *)
Record removed s s' (a b : Z) : Prop := {
  rm_st : um_st s' = um_st s;
  rm_timer : um_reassembly_timer s' = um_reassembly_timer s;
  rm_window : window_wf W (um_rx_window s');
  rm_get : forall k, get s' k = if decide (0 <= k < md /\ pos s a <= pos s k < pos s b) then None else get s k;
  rm_delivered : delivered (um_out s') = delivered (um_out s)
}.

Lemma removed_refl s a : window_wf W (um_rx_window s) -> removed s s a a.
Proof. intros. split; try done. intros k. rewrite decide_False; [done|lia]. Qed.

Lemma removed_pos s s' a b x : removed s s' a b -> pos s' x = pos s x.
Proof. intros H. unfold um_rx_mod_base. by rewrite (rm_st _ _ _ _ H). Qed.

Lemma emit_removed s e a : window_wf W (um_rx_window s) -> delivered [e] = [] -> removed s (um_emit s e) a a.
Proof.
  intros Hw He. split; try done.
  - intros k. rewrite decide_False; [done|lia].
  - cbn [um_out um_emit]. rewrite delivered_app, He. apply app_nil_r.
Qed.

(** One SN further. *)
Lemma removed_step s s1 s2 a i :
  removed s s1 a i -> 0 <= i < md -> pos s a <= pos s i -> pos s i + 1 < md ->
  um_st s2 = um_st s1 -> um_reassembly_timer s2 = um_reassembly_timer s1 -> window_wf W (um_rx_window s2) ->
  (forall k, get s2 k = if decide (k = i) then None else get s1 k) ->
  delivered (um_out s2) = delivered (um_out s1) -> removed s s2 a (sn_next md i).
Proof.
  intros [E1 E2 E3 E4 E5] Hi Ha Hlt F1 F2 F3 F4 F5. split; try congruence.
  intros k. rewrite F4, E4, (pos_next s i Hlt). destruct (decide (k = i)) as [->|Hne].
  - rewrite decide_True; [done|lia].
  - destruct (decide (0 <= k < md /\ pos s a <= pos s k < pos s i)).
    + rewrite decide_True; [done|lia].
    + destruct (decide _) as [[Hk ?]|]; [|done]. destruct Hne. apply (pos_inj s); [done..|lia].
Qed.

Lemma um_remove_sn_ok s k i :
  window_wf W (um_rx_window s) -> get s k = Some i ->
  exists w', um_remove_sn cfg s k = ok (um_set_window s w') /\ window_wf W w' /\
    forall j, wget W w' j = if decide (j = k) then None else get s j.
Proof.
  intros Hw Hi. destruct (remove_sn_ok _ _ _ _ Hw Hi) as (w' & Hr & Hw' & _ & Hg).
  unfold um_remove_sn. rewrite Hr, bind_ok. eauto.
Qed.

(** The first SN from [a] on that is not fully received. *)
Definition first_open s (a r : Z) : Prop :=
  0 <= r < md /\ (W <= pos s a -> r = a) /\
  (pos s a < W -> pos s a <= pos s r <= W) /\
  (forall k, 0 <= k < md -> pos s a <= pos s k < pos s r -> full s k = true) /\
  (pos s r < W -> full s r = false).

Lemma um_remove_received_ok s a :
  window_wf W (um_rx_window s) -> 0 <= a < md ->
  exists r s', um_remove_received cfg a s = ok (r, s') /\ removed s s' a r /\ first_open s a r /\
    um_out s' = um_out s.
Proof.
  intros Hw Ha. pose proof um_facts. pose proof (pos_range s a). unfold um_remove_received.
  destruct (for_loop_rule
    (fun i x => removed s x a i /\ 0 <= i < md /\ (W <= pos s a -> i = a) /\ (pos s a < W -> pos s a <= pos s i <= W) /\
       (forall k, 0 <= k < md -> pos s a <= pos s k < pos s i -> full s k = true) /\ um_out x = um_out s)
    (fun i x => removed s x a i /\ first_open s a i /\ um_out x = um_out s)
    (fun i _ => Z.to_nat (md - pos s i)) (um_loop_fuel cfg)
    (fun i s => um_rx_mod_base cfg s i <? um_rx_mod_base cfg s (um_rx_next_highest (um_st s))) (sn_next md)
    (fun i s => full ← um_sn_fully_received cfg s i;
       if full : bool then s ← um_remove_sn cfg s i; ok (s, false) else ok (s, true)) a s)
    as (r & s' & -> & HQ); [| | | |destruct HQ as (? & ? & ?); eauto 6].
  - split_and!; try done; try lia; by apply removed_refl.
  - unfold um_loop_fuel. lia.
  - intros i x (Hr & Hi & H1 & H2 & H3 & Ho) Hc%Z.ltb_ge. rewrite pos_nh, (removed_pos _ _ _ _ i Hr) in Hc.
    split; [done|]. split; [|done]. unfold first_open. split_and!; try done; try lia; intros; lia.
  - intros i x (Hr & Hi & H1 & H2 & H3 & Ho) Hc%Z.ltb_lt. rewrite pos_nh, (removed_pos _ _ _ _ i Hr) in Hc.
    rewrite um_sn_fully_received_eq, bind_ok.
    assert (Hfull : full x i = full s i).
    { unfold full. rewrite (rm_get _ _ _ _ Hr), decide_False; [done|lia]. }
    assert (Hlow : pos s a < W) by (destruct (decide (pos s a < W)); [done|rewrite H1 in Hc by lia; lia]).
    rewrite Hfull. destruct (full s i) eqn:Ef.
    + assert (Hsome : exists e, get x i = Some e).
      { unfold full in Hfull. destruct (get x i); [eauto|done]. }
      destruct Hsome as [e He]. destruct (um_remove_sn_ok x i e (rm_window _ _ _ _ Hr) He) as (w & -> & Hw' & Hg).
      rewrite bind_ok. eexists _, _. split; [reflexivity|]. split; [done|]. intros _.
      specialize (H2 Hlow). pose proof (pos_next s i). pose proof (sn_next_range (m := md) i).
      split; [|lia]. split; [by eapply removed_step; try done; lia|]. split_and!; try done; try lia.
      intros k Hk Hkp. destruct (decide (pos s k = pos s i)) as [E|]; [|apply H3; lia].
      by apply (pos_inj s) in E as ->.
    + eexists _, _. split; [reflexivity|]. split; [|done]. intros _. split; [done|]. split; [|done].
      split_and!; try done; lia.
Qed.

Lemma um_discard_sn_ok s k :
  window_wf W (um_rx_window s) ->
  exists s', um_discard_sn cfg k s = ok s' /\ um_st s' = um_st s /\ um_reassembly_timer s' = um_reassembly_timer s /\
    window_wf W (um_rx_window s') /\ (forall j, get s' j = if decide (j = k) then None else get s j) /\
    delivered (um_out s') = delivered (um_out s).
Proof.
  intros Hw. unfold um_discard_sn. rewrite has_sn_wget. destruct (get s k) as [i|] eqn:E; simpl.
  - rewrite (cm_at_ok _ _ _ _ E), bind_ok. set (s1 := if um_fully_received i then s else um_emit s ev_lost).
    assert (Hs1 : um_st s1 = um_st s /\ um_reassembly_timer s1 = um_reassembly_timer s /\ um_rx_window s1 = um_rx_window s /\
      delivered (um_out s1) = delivered (um_out s)).
    { unfold s1. destruct (um_fully_received i); [done|]. split_and!; try done. cbn [um_out um_emit].
      rewrite delivered_app. apply app_nil_r. }
    destruct Hs1 as (E1 & E2 & E3 & E4). destruct (um_remove_sn_ok s1 k i) as (w & -> & Hw' & Hg); [congruence..|].
    eexists. split; [reflexivity|]. split_and!; try done. intros j. cbn. by rewrite Hg, E3.
  - eexists. split; [reflexivity|]. split_and!; try done.
    + intros j. destruct (decide (j = k)) as [->|]; done.
    + cbn [um_out um_emit]. rewrite delivered_app. apply app_nil_r.
Qed.
(** Everything from [a] on to the start of the window leaves it. *)
Lemma um_discard_below_ok s a :
  window_wf W (um_rx_window s) -> 0 <= a < md ->
  exists r s', for_loop (um_loop_fuel cfg) (fun i s => negb (sn_in_reassembly_window cfg s i)) (sn_next md)
      (fun i s => s ← um_discard_sn cfg i s; ok (s, false)) a s = ok (r, s') /\
    um_st s' = um_st s /\ um_reassembly_timer s' = um_reassembly_timer s /\ window_wf W (um_rx_window s') /\
    delivered (um_out s') = delivered (um_out s) /\ 0 <= r < md /\ pos s r < W /\
    (pos s a < W -> r = a) /\ (W <= pos s a -> pos s r = 0) /\
    forall k, get s' k = if decide (0 <= k < md /\ W <= pos s a <= pos s k) then None else get s k.
Proof.
  intros Hw Ha. pose proof um_facts. pose proof (pos_range s a).
  destruct (decide (pos s a < W)) as [Hlt|Hge].
  { exists a, s. unfold um_loop_fuel. simpl. rewrite in_window, (proj2 (Z.ltb_lt _ _)) by done. simpl.
    split_and!; try done; try lia. intros k. rewrite decide_False; [done|lia]. }
  set (e := fun i => if pos s i <? W then md else pos s i).
  assert (Hpos : forall x i, um_st x = um_st s -> pos x i = pos s i) by (intros x i E; unfold um_rx_mod_base; by rewrite E).
  set (P := fun i x => um_st x = um_st s /\ um_reassembly_timer x = um_reassembly_timer s /\ window_wf W (um_rx_window x) /\
    delivered (um_out x) = delivered (um_out s) /\ 0 <= i < md /\ (pos s i < W -> pos s i = 0) /\ pos s a <= e i /\
    forall k, get x k = if decide (0 <= k < md /\ pos s a <= pos s k < e i) then None else get s k).
  destruct (for_loop_rule P (fun i x => P i x /\ pos s i < W) (fun i _ => Z.to_nat (md - e i)) (um_loop_fuel cfg)
    (fun i s => negb (sn_in_reassembly_window cfg s i)) (sn_next md)
    (fun i s => s ← um_discard_sn cfg i s; ok (s, false)) a s) as (r & s' & -> & (E1 & E2 & E3 & E4 & E5 & E7 & _ & E6) & Hr).
  - unfold P, e. rewrite (proj2 (Z.ltb_ge _ _)) by lia. split_and!; try done; try lia.
    intros k. rewrite decide_False; [done|lia].
  - unfold um_loop_fuel, e. zcases; lia.
  - intros i x Hx Hc. split; [done|]. destruct Hx as (Ex & _). rewrite in_window, (Hpos x i Ex) in Hc.
    apply negb_false_iff, Z.ltb_lt in Hc. done.
  - intros i x (X1 & X2 & X3 & X4 & X5 & X6 & X7 & X8) Hc. rewrite in_window, (Hpos x i X1) in Hc.
    apply negb_true_iff, Z.ltb_ge in Hc. destruct (um_discard_sn_ok x i X3) as (x' & -> & Y1 & Y2 & Y3 & Y4 & Y5).
    rewrite bind_ok. eexists _, _. split; [reflexivity|]. split; [done|]. intros _.
    pose proof (sn_next_range (m := md) i) as Hnr. pose proof (pos_range s i).
    assert (Hei : e i = pos s i) by (unfold e; by rewrite (proj2 (Z.ltb_ge _ _)) by lia).
    assert (Hen : e (sn_next md i) = pos s i + 1 /\ (pos s (sn_next md i) < W -> pos s (sn_next md i) = 0)).
    { pose proof (pos_next_mod s i) as Hp. unfold e. rewrite Hp.
      destruct (Z.eqb_spec (pos s i + 1) md) as [E|E]; zcases; lia. }
    destruct Hen as [Hen Hz]. split; [|lia]. unfold P. rewrite Hen. split_and!; try done; try congruence; try lia.
    intros k. rewrite Y4, X8, Hei. destruct (decide (k = i)) as [->|Hne].
    + rewrite decide_True; [done|lia].
    + destruct (decide (0 <= k < md /\ pos s a <= pos s k < pos s i)).
      * rewrite decide_True; [done|lia].
      * destruct (decide _) as [[Hk ?]|]; [|done]. destruct Hne. apply (pos_inj s); [done..|lia].
  - exists r, s'. split_and!; try done; try lia. intros k. rewrite E6. unfold e.
    rewrite (proj2 (Z.ltb_lt _ _) Hr). pose proof (pos_range s k).
    destruct (decide (0 <= k < md /\ pos s a <= pos s k < md)), (decide _); (done || lia).
Qed.

(** ** Storing a segment *)
Definition held s (k : Z) : list sdu_segment := match get s k with Some i => um_segments i | None => [] end.

(** The entry of an SN after a segment was stored. *)
Definition stored_um (segs : list sdu_segment) (header : rlc_um_pdu_header) (payload : bytes) : um_sdu_info :=
  let segs := (store_segment segs (mk_segment (um_si header) (um_so header) payload)).2 in
  mk_um_sdu_info (update_segment_inventory segs).2 (update_segment_inventory segs).1 segs.

Lemma um_handle_segment_ok s header payload :
  window_wf W (um_rx_window s) -> um_si header <> full_sdu ->
  exists b s', um_handle_segment_data_sdu cfg s header payload = ok (b, s') /\
    um_st s' = um_st s /\ um_reassembly_timer s' = um_reassembly_timer s /\ um_out s' = um_out s /\
    window_wf W (um_rx_window s') /\
    (forall k, get s' k = if decide (k = um_sn header) then Some (stored_um (held s (um_sn header)) header payload)
       else if decide (get s (um_sn header) = None /\ k mod W = um_sn header mod W) then None else get s k).
Proof.
  intros Hw Hsi. unfold um_handle_segment_data_sdu. rewrite bool_decide_false by done. set (sn := um_sn header).
  assert (Hadd : exists w e, (if has_sn W (um_rx_window s) sn then ok (um_rx_window s)
      else add_sn W um_sdu_info_init (um_rx_window s) sn) = ok w /\ window_wf W w /\ wget W w sn = Some e /\
    um_segments e = held s sn /\
    forall k, k <> sn -> wget W w k = if decide (get s sn = None /\ k mod W = sn mod W) then None else get s k).
  { rewrite has_sn_wget. unfold held. destruct (get s sn) as [e|] eqn:E; simpl.
    - exists (um_rx_window s), e. split_and!; try done.
    - destruct (add_sn_overwrites W um_sdu_info_init (um_rx_window s) sn Hw E) as (w & -> & Hw' & Hg).
      exists w, um_sdu_info_init. split_and!; try done; [rewrite Hg; by rewrite decide_True|].
      intros k Hk. rewrite Hg, decide_False by done. destruct (decide (k mod W = sn mod W)).
      + by rewrite decide_True.
      + rewrite decide_False; [done|]. by intros []. }
  destruct Hadd as (w & e & -> & Hw1 & He & Hseg & Hg). rewrite bind_ok, (cm_at_ok _ _ _ _ He), bind_ok, Hseg.
  unfold um_store_segment, um_update_segment_inventory, stored_um.
  destruct (store_segment (held s sn) (mk_segment (um_si header) (um_so header) payload)) as [b segs] eqn:Es. cbn [snd].
  destruct (update_segment_inventory segs) as [gap fl].
  destruct (cm_set_ok _ _ _ (mk_um_sdu_info fl gap segs) _ Hw1 He) as (w' & -> & Hw' & _ & Hg'). rewrite bind_ok.
  eexists _, _. split; [reflexivity|]. split_and!; try done. intros k. cbn. rewrite Hg'.
  destruct (decide (k = sn)); [done|]. by apply Hg.
Qed.

(** ** Delivery *)
Definition um_delivery (env : chain_env) (i : um_sdu_info) : list bytes := option_list (um_reassemble_sdu env i).

Lemma um_deliver_ok env s sn i :
  window_wf W (um_rx_window s) -> get s sn = Some i ->
  exists s', um_deliver_sdu cfg env s sn = ok s' /\ um_st s' = um_st s /\ um_reassembly_timer s' = um_reassembly_timer s /\
    window_wf W (um_rx_window s') /\
    (forall k, get s' k = if decide (k = sn) then Some (mk_um_sdu_info (um_fully_received i) (um_has_gap i) []) else get s k) /\
    delivered (um_out s') = delivered (um_out s) ++ um_delivery env i.
Proof.
  intros Hw Hi. unfold um_deliver_sdu, um_delivery. rewrite (cm_at_ok _ _ _ _ Hi), bind_ok.
  set (s1 := match um_reassemble_sdu env i with None => _ | Some sdu => _ end).
  assert (Hs1 : um_st s1 = um_st s /\ um_reassembly_timer s1 = um_reassembly_timer s /\ um_rx_window s1 = um_rx_window s /\
    delivered (um_out s1) = delivered (um_out s) ++ option_list (um_reassemble_sdu env i)).
  { unfold s1. destruct (um_reassemble_sdu env i); split_and!; try done; cbn [um_out um_emit];
      rewrite !delivered_app; simpl; rewrite ?app_nil_r; done. }
  destruct Hs1 as (E1 & E2 & E3 & E4). rewrite E3.
  destruct (cm_set_ok _ _ _ (mk_um_sdu_info (um_fully_received i) (um_has_gap i) []) _ Hw Hi) as (w & -> & Hw' & _ & Hg).
  rewrite bind_ok. eexists. split; [reflexivity|]. split_and!; done.
Qed.

(** ** t-Reassembly *)

(** A running timer waits for an SN of the window or its end. *)
Definition um_trigger_ok s : Prop :=
  is_running (um_reassembly_timer s) = true -> pos s (rx_timer_trigger (um_st s)) <= W.

(** A change of the timer and its trigger alone. *)
Definition timer_only s s' : Prop :=
  (rx_timer_trigger (um_st s') = rx_timer_trigger (um_st s) \/
   rx_timer_trigger (um_st s') = um_rx_next_highest (um_st s)) /\
  rx_next_reassembly (um_st s') = rx_next_reassembly (um_st s) /\
  um_rx_next_highest (um_st s') = um_rx_next_highest (um_st s) /\
  um_rx_window s' = um_rx_window s /\ um_out s' = um_out s.

Lemma timer_only_refl s : timer_only s s.
Proof. split_and!; auto. Qed.

(** The condition to stop the timer. *)
Lemma um_stop_ok s :
  0 <= rx_timer_trigger (um_st s) < md -> 0 <= um_rx_next_highest (um_st s) < md ->
  exists s1, um_stop_reassembly_timer cfg s = ok s1 /\ timer_only s s1 /\ um_trigger_ok s1.
Proof.
  intros Ht Hn. unfold um_stop_reassembly_timer, um_trigger_ok. destruct (is_running _) eqn:Er; [|exists s; split; [done|split; [apply timer_only_refl|by rewrite Er]]].
  cbv zeta. rewrite um_sn_gap_eq, in_window.
  set (b := if negb _ && negb _ then true else _).
  assert (Hb : b = false -> pos s (rx_timer_trigger (um_st s)) <= W).
  { unfold b. destruct (Z.ltb_spec (pos s (rx_timer_trigger (um_st s))) W) as [|Hge]; [lia|].
    destruct (Z.eqb_spec (rx_timer_trigger (um_st s)) (um_rx_next_highest (um_st s))) as [->|]; [|done].
    by rewrite pos_nh. }
  assert (Hs : is_running (timer_stop (um_reassembly_timer s)) = false) by by destruct (um_reassembly_timer s).
  destruct (_ =? u32 _); rewrite ?bind_ok; eexists; (split; [reflexivity|]).
  - destruct (option_map _ _) as [[]|], b; (split; [by split_and!; auto|]); intros Hr; cbn in Hr; try congruence; by apply Hb.
  - destruct b; (split; [by split_and!; auto|]); intros Hr; cbn in Hr; try congruence; by apply Hb.
Qed.

Lemma timer_only_trans s s1 s2 : timer_only s s1 -> timer_only s1 s2 -> timer_only s s2.
Proof. intros (A1 & A2 & A3 & A4 & A5) (B1 & B2 & B3 & B4 & B5). split_and!; try congruence. rewrite A3 in B1. destruct B1 as [->| ->]; auto. Qed.

Lemma run_timer_ok s : timer_only s (um_run_reassembly_timer s) /\ um_trigger_ok (um_run_reassembly_timer s).
Proof. split; [split_and!; simpl; auto|]. intros _. change (pos s (um_rx_next_highest (um_st s)) <= W). by rewrite pos_nh. Qed.

Lemma um_reassembly_needed_ok s : exists b, um_reassembly_needed cfg s = ok b.
Proof. unfold um_reassembly_needed. rewrite um_sn_gap_eq. destruct (_ =? _); rewrite ?bind_ok; eauto. Qed.

Lemma um_start_ok s :
  um_trigger_ok s -> exists s1, um_start_reassembly_timer cfg s = ok s1 /\ timer_only s s1 /\ um_trigger_ok s1.
Proof.
  intros Ht. unfold um_start_reassembly_timer. destruct (negb _); [|by exists s; split; [|split; [apply timer_only_refl|]]].
  destruct (um_reassembly_needed_ok s) as [b ->]. rewrite bind_ok. eexists. split; [reflexivity|].
  destruct b; [apply run_timer_ok|]. split; [apply timer_only_refl|done].
Qed.

Lemma timers_ok s :
  0 <= rx_timer_trigger (um_st s) < md -> 0 <= um_rx_next_highest (um_st s) < md ->
  exists s1 s2, um_stop_reassembly_timer cfg s = ok s1 /\ um_start_reassembly_timer cfg s1 = ok s2 /\
    timer_only s s2 /\ um_trigger_ok s2.
Proof.
  intros Ht Hn. destruct (um_stop_ok s Ht Hn) as (s1 & E1 & T1 & H1). destruct (um_start_ok s1 H1) as (s2 & E2 & T2 & H2).
  exists s1, s2. split_and!; try done. by eapply timer_only_trans.
Qed.

(** ** Moving the window *)

(** How far the window moves when [sn] is beyond it. *)
Lemma pos_moved s s' sn x :
  W <= pos s sn -> um_rx_next_highest (um_st s') = sn_next md sn ->
  pos s' x = if pos s sn + 1 - W <=? pos s x then pos s x - (pos s sn + 1 - W) else pos s x - (pos s sn + 1 - W) + md.
Proof.
  intros Hsn Hn. pose proof um_facts. pose proof (pos_range s sn). unfold um_rx_mod_base at 1. rewrite Hn.
  set (b := um_rx_next_highest (um_st s) + W).
  assert (E : sn_dist md b (sn_next md sn + W) = pos s sn + 1 - W).
  { rewrite sn_next_mod, !sn_dist_mod. change (pos s sn) with (sn_dist md b sn) in *. rewrite sn_dist_mod in *.
    rewrite <- (Zminus_mod_idemp_l _ b), Zplus_mod_idemp_l, Zminus_mod_idemp_l.
    replace (sn + 1 + W - b) with ((sn - b) + (1 + W)) by lia. rewrite <- Zplus_mod_idemp_l.
    set (z := (sn - b) mod md) in *. replace (z + (1 + W)) with (z + 1 - W + 1 * md) by lia.
    rewrite Z.mod_add, Z.mod_small; lia. }
  rewrite (sn_dist_rebase b), E. done.
Qed.

(** From [a] on, the first SN that is not fully received, or the end of the window of [s']. *)
Definition opens_at s' (recv : Z -> bool) (a r : Z) : Prop :=
  0 <= r < md /\ pos s' a <= pos s' r <= W /\ (forall k, 0 <= k < md -> pos s' a <= pos s' k < pos s' r -> recv k = true) /\ (pos s' r < W -> recv r = false).

Lemma um_move_window_ok s sn :
  window_wf W (um_rx_window s) -> 0 <= rx_next_reassembly (um_st s) < md -> 0 <= sn < md ->
  exists s' a, um_move_window cfg s sn = ok s' /\
    um_rx_next_highest (um_st s') = sn_next md sn /\ rx_timer_trigger (um_st s') = rx_timer_trigger (um_st s) /\
    um_reassembly_timer s' = um_reassembly_timer s /\ window_wf W (um_rx_window s') /\
    delivered (um_out s') = delivered (um_out s) /\
    0 <= a < md /\ (pos s' (rx_next_reassembly (um_st s)) < W -> a = rx_next_reassembly (um_st s)) /\
    (W <= pos s' (rx_next_reassembly (um_st s)) -> pos s' a = 0) /\
    opens_at s' (full s) a (rx_next_reassembly (um_st s')) /\
    forall k, get s' k =
      if decide (0 <= k < md /\ (pos s' a <= pos s' k < pos s' (rx_next_reassembly (um_st s')) \/
                                 W <= pos s' (rx_next_reassembly (um_st s)) <= pos s' k))
      then None else get s k.
Proof.
  intros Hw Hnr Hsn. unfold um_move_window. cbv zeta.
  set (s0 := um_set_st s (set_um_rx_next_highest (um_st s) (sn_next md sn))).
  rewrite Z.mod_small by (cbn; lia). change (rx_next_reassembly (um_st s0)) with (rx_next_reassembly (um_st s)).
  destruct (um_discard_below_ok s0 (rx_next_reassembly (um_st s)) Hw Hnr)
    as (a & s1 & -> & A1 & A2 & A3 & A4 & A5 & A6 & A7 & A8 & A9).
  rewrite bind_ok. destruct (um_remove_received_ok s1 a A3 A5) as (r & s2 & -> & B1 & (B2 & _ & B3 & B4 & B5) & B6).
  rewrite bind_ok. set (s' := um_set_st s2 _).
  assert (P1 : forall x, pos s1 x = pos s0 x) by (intros; unfold um_rx_mod_base; by rewrite A1).
  assert (Es : um_st s2 = um_st s0) by (rewrite (rm_st _ _ _ _ B1); done).
  assert (P2 : forall x, pos s' x = pos s0 x) by (intros; unfold um_rx_mod_base, s'; cbn; by rewrite Es).
  assert (Hf : forall k, 0 <= k < md -> pos s0 a <= pos s0 k < W -> full s1 k = full s k).
  { intros k Hk Hp. unfold full. rewrite A9, decide_False; [done|lia]. }
  exists s', a. split; [done|]. change (rx_next_reassembly (um_st s')) with r. split_and!; try done.
  - cbn. by rewrite Es.
  - cbn. by rewrite Es.
  - cbn. rewrite (rm_timer _ _ _ _ B1). done.
  - by apply (rm_window _ _ _ _ B1).
  - change (um_out s') with (um_out s2). by rewrite B6.
  - lia.
  - lia.
  - by rewrite P2.
  - by rewrite !P2.
  - unfold opens_at. rewrite !P1 in *. specialize (B3 A6). rewrite !P2. split_and!; try lia.
    + intros k Hk. rewrite P2. intros Hp. rewrite <- Hf by lia. apply B4; [done|]. by rewrite !P1.
    + intros Hr. rewrite <- Hf by lia. by apply B5.
  - intros k. rewrite !P2. change (get s' k) with (get s2 k). rewrite (rm_get _ _ _ _ B1), A9, !P1.
    destruct (decide (0 <= k < md /\ pos s0 a <= pos s0 k < pos s0 r)) as [?|H1]; [by rewrite decide_True by lia|].
    destruct (decide (0 <= k < md /\ W <= pos s0 (rx_next_reassembly (um_st s)) <= pos s0 k)) as [?|H2].
    + rewrite decide_True; [done|]. split; [lia|]. right. lia.
    + rewrite decide_False; [done|]. intros [? [?|?]]; [by apply H1|by apply H2].
Qed.

(** ** Placing a segment *)

(** The entries are those from RX_Next_Reassembly up to RX_Next_Highest, and RX_Next_Reassembly is
    not fully received. It holds as long as no whole SDU arrives as a segment. *)
Record um_tight s : Prop := {
  ut_nr : pos s (rx_next_reassembly (um_st s)) <= W;
  ut_in : forall k, is_Some (get s k) -> 0 <= k < md /\ pos s (rx_next_reassembly (um_st s)) <= pos s k < W;
  ut_open : full s (rx_next_reassembly (um_st s)) = false
}.

(** The window between the storing of a segment of [sn] and what follows from it. *)
Record before_placing s (sn : Z) : Prop := {
  bp_nr : pos s (rx_next_reassembly (um_st s)) <= W;
  bp_sn : pos s (rx_next_reassembly (um_st s)) <= pos s sn;
  bp_in : forall k, is_Some (get s k) -> k = sn \/ 0 <= k < md /\ pos s (rx_next_reassembly (um_st s)) <= pos s k < W;
  bp_open : rx_next_reassembly (um_st s) <> sn -> full s (rx_next_reassembly (um_st s)) = false;
  bp_full : full s sn = true -> pos s sn < W
}.

(** What becomes of the entries of [s]: those in the window remain, but for the segments of a
    delivered SDU; what leaves was fully received, or is more than a window behind [sn]. *)
Record kept s (sn : Z) s' : Prop := {
  kp_full : forall k, 0 <= k < md -> pos s' (rx_next_reassembly (um_st s')) <= pos s' k < W -> full s' k = full s k;
  kp_held : forall k, 0 <= k < md -> pos s' (rx_next_reassembly (um_st s')) <= pos s' k < W ->
    held s' k = if decide (k = sn /\ full s sn = true) then [] else held s k;
  kp_lost : forall k, is_Some (get s k) -> get s' k = None -> full s k = true \/ pos s k + W <= pos s sn;
  kp_nr : full s (rx_next_reassembly (um_st s)) = false -> pos s' (rx_next_reassembly (um_st s)) < W ->
    rx_next_reassembly (um_st s') = rx_next_reassembly (um_st s);
  kp_forward : full s sn = true -> pos s' (rx_next_reassembly (um_st s)) <= pos s' (rx_next_reassembly (um_st s'))
}.

Lemma timer_only_carries s s' :
  timer_only s s' -> (forall x, pos s' x = pos s x) /\ (um_ok s -> um_ok s') /\
  (um_tight s -> um_tight s') /\ forall x sn, kept x sn s -> kept x sn s'.
Proof.
  destruct s as [[nr tr nh] w t o], s' as [[nr' tr' nh'] w' t' o']. intros (E0 & E1 & E2 & E3 & E4). cbn in *. subst.
  split_and!; [done|intros []; split; cbn in *; try done; by destruct E0 as [->| ->]|by intros []|by intros ?? []].
Qed.

Lemma full_some s k : full s k = true -> is_Some (get s k).
Proof. unfold full. by destruct (get s k). Qed.

(** Delivery of a complete SDU, and the step of RX_Next_Reassembly. *)
Lemma um_complete_ok env s sn e :
  um_ok s -> 0 <= sn < md -> get s sn = Some e ->
  exists s1 s2, um_deliver_sdu cfg env s sn = ok s1 /\ um_update_rx_next_reassembly cfg s1 sn = ok s2 /\ um_ok s2 /\
    um_rx_next_highest (um_st s2) = um_rx_next_highest (um_st s) /\
    delivered (um_out s2) = delivered (um_out s) ++ um_delivery env e /\
    um_reassembly_timer s2 = um_reassembly_timer s /\
    (before_placing s sn -> full s sn = true -> um_tight s2 /\ kept s sn s2).
Proof.
  intros [Hw Hnr Hnh Htr] Hsn He. destruct (um_deliver_ok env s sn e Hw He) as (s1 & E1 & D1 & D2 & D3 & D4 & D5).
  exists s1. assert (P1 : forall x, pos s1 x = pos s x) by (intros; unfold um_rx_mod_base; by rewrite D1).
  assert (F1 : forall k, full s1 k = full s k).
  { intros k. unfold full. rewrite D4. destruct (decide (k = sn)) as [->|]; [by rewrite He|done]. }
  assert (H1 : forall k, held s1 k = if decide (k = sn) then [] else held s k).
  { intros k. unfold held. rewrite D4. by destruct (decide (k = sn)). }
  assert (S1 : forall k, is_Some (get s1 k) <-> is_Some (get s k)).
  { intros k. rewrite D4. destruct (decide (k = sn)) as [->|]; [by rewrite He|done]. }
  unfold um_update_rx_next_reassembly. rewrite D1. destruct (Z.eqb_spec sn (rx_next_reassembly (um_st s))) as [->|Hne].
  - rewrite Z.mod_small by done. destruct (um_remove_received_ok s1 _ D3 Hnr) as (r & s2 & -> & R1 & R2 & R3).
    rewrite bind_ok. pose proof R2 as (Q1 & Q2 & Q3 & Q4 & Q5). set (s' := um_set_st s2 _).
    exists s'. assert (P2 : forall x, pos s' x = pos s x).
    { intros x. rewrite <- P1. unfold um_rx_mod_base, s'. cbn. by rewrite (rm_st _ _ _ _ R1). }
    assert (G2 : forall k, get s' k = if decide (0 <= k < md /\ pos s (rx_next_reassembly (um_st s)) <= pos s k < pos s r)
      then None else get s1 k) by (intros k; change (get s' k) with (get s2 k); by rewrite (rm_get _ _ _ _ R1), !P1).
    rewrite !P1 in *. split; [done|]. split; [done|]. split_and!.
    + split; cbn; [apply (rm_window _ _ _ _ R1)|done|..]; by rewrite (rm_st _ _ _ _ R1), D1.
    + cbn. by rewrite (rm_st _ _ _ _ R1), D1.
    + change (um_out s') with (um_out s2). by rewrite R3.
    + cbn. by rewrite (rm_timer _ _ _ _ R1).
    + intros [B1 B2 B3 B4 B5] Hf. specialize (Q3 (B5 Hf)). split; split; rewrite ?P2; cbn [um_st um_set_st s' rx_next_reassembly set_rx_next_reassembly].
      * lia.
      * intros k Hk. rewrite P2. rewrite G2 in Hk. destruct (decide _) as [|Hn]; [by destruct Hk|].
        apply S1, B3 in Hk as [->|?]; [|lia]. pose proof (B5 Hf). split; [done|].
        destruct (decide (pos s r <= pos s (rx_next_reassembly (um_st s)))); [lia|]. destruct Hn. lia.
      * unfold full. rewrite G2, decide_False by lia. destruct (decide (pos s r < W)) as [Hr|Hr].
        -- apply Q5, Hr.
        -- destruct (get s1 r) as [i|] eqn:Ei; [|done]. destruct (B3 r) as [->|]; [apply S1; eauto|pose proof (B5 Hf); lia|lia].
      * intros k Hk. rewrite P2. intros Hp. unfold full. rewrite G2, decide_False by lia. apply F1.
      * intros k Hk. rewrite P2. intros Hp. unfold held at 1. rewrite G2, decide_False by lia. fold (held s1 k). rewrite H1.
        destruct (decide (k = _)) as [->|]; [by rewrite decide_True|]. rewrite decide_False; [done|]. by intros [].
      * intros k Hk. rewrite G2. destruct (decide _) as [[? ?]|].
        -- intros _. left. rewrite <- F1. apply Q4; [done|]. by rewrite P1.
        -- intros Hn. apply S1 in Hk. rewrite Hn in Hk. by destruct Hk.
      * rewrite Hf. done.
      * intros _. lia.
  - exists s1. split; [done|]. split; [done|]. split_and!.
    + split; by rewrite ?D1.
    + by rewrite D1.
    + done.
    + done.
    + intros [B1 B2 B3 B4 B5] Hf. split; split; rewrite ?D1, ?P1.
      * done.
      * intros k Hk%S1. rewrite P1. destruct (B3 k Hk) as [->|?]; [|done]. specialize (B5 Hf). lia.
      * rewrite F1. by apply B4.
      * intros k _ _. apply F1.
      * intros k _ _. rewrite H1. destruct (decide (k = sn)) as [->|]; [by rewrite decide_True|].
        rewrite decide_False; [done|]. by intros [].
      * intros k Hk%S1 Hn. rewrite Hn in Hk. by destruct Hk.
      * done.
      * done.
Qed.

(** The window moved past what it no longer holds. *)
Lemma um_moved_tight s sn s' :
  um_ok s -> 0 <= sn < md -> W <= pos s sn -> full s sn = false -> before_placing s sn ->
  um_move_window cfg s sn = ok s' -> um_tight s' /\ kept s sn s'.
Proof.
  intros [Hw Hnr Hnh _] Hsn Hout Hnf [B1 B2 B3 B4 _] E. pose proof um_facts.
  destruct (um_move_window_ok s sn Hw Hnr Hsn) as (x & a & Ex & A1 & _ & _ & A2 & _ & A3 & A4 & A5 & (A6 & A7 & A8 & A9) & A10).
  rewrite E in Ex. injection Ex as <-.
  assert (P : forall x, pos s' x = if pos s sn + 1 - W <=? pos s x then pos s x - (pos s sn + 1 - W)
    else pos s x - (pos s sn + 1 - W) + md) by (intros; by apply pos_moved).
  pose proof (pos_range s sn). assert (Psn : pos s' sn = W - 1) by (rewrite P; zcases; lia).
  set (nr := rx_next_reassembly (um_st s)) in *. set (nr' := rx_next_reassembly (um_st s')) in *.
  assert (Hnr_open : nr <> sn -> full s nr = false) by done.
  assert (Hpn : pos s' nr < W -> pos s' nr = pos s nr - (pos s sn + 1 - W)) by (rewrite P; pose proof (pos_range s nr); zcases; lia).
  assert (Hin : forall k, is_Some (get s k) -> 0 <= k < md /\
    (pos s' k < W /\ pos s' a <= pos s' k \/ W <= pos s' nr <= pos s' k /\ pos s k + W <= pos s sn)).
  { intros k Hk. destruct (B3 k Hk) as [->|[Hk1 Hk2]].
    - split; [done|]. left. split; [lia|]. destruct (decide (pos s' nr < W)) as [Hl|Hl]; [|rewrite A5 by lia; lia].
      rewrite A4 by done. rewrite Hpn, Psn by done. lia.
    - split; [done|]. pose proof (P nr) as Pn. pose proof (P k) as Pk. pose proof (pos_range s nr).
      destruct (Z.leb_spec (pos s sn + 1 - W) (pos s k)).
      + left. split; [lia|]. destruct (decide (pos s' nr < W)) as [Hl|Hl]; [|rewrite A5 by lia; lia].
        rewrite A4 by done. rewrite Hpn by done. lia.
      + right. destruct (Z.leb_spec (pos s sn + 1 - W) (pos s nr)); lia. }
  assert (Hkeep : forall k, 0 <= k < md -> pos s' nr' <= pos s' k < W -> get s' k = get s k).
  { intros k Hk Hp. rewrite A10, decide_False; [done|]. lia. }
  split; split; fold nr nr'.
  - lia.
  - intros k Hk. pose proof Hk as Hk'. rewrite A10 in Hk'. destruct (decide _) as [|Hn]; [by destruct Hk'|].
    destruct (Hin k Hk') as [Hk1 [Hk2|Hk2]]; [|destruct Hn; split; [done|right; lia]]. split; [done|].
    destruct (decide (pos s' nr' <= pos s' k)); [lia|]. destruct Hn. split; [done|left; lia].
  - unfold full. destruct (decide (pos s' nr' < W)) as [Hl|Hl].
    + rewrite Hkeep by lia. by apply A9.
    + rewrite A10. destruct (decide _); [done|]. destruct (get s nr') as [i|] eqn:Ei; [|done].
      destruct (Hin nr') as [_ [?|?]]; [eauto|lia|]. destruct n. split; [done|right; lia].
  - intros k Hk Hp. unfold full. by rewrite Hkeep.
  - intros k Hk Hp. unfold held. rewrite Hkeep by done. rewrite decide_False; [done|]. by intros [-> ?]; congruence.
  - intros k Hk Hn. rewrite A10 in Hn. destruct (decide _) as [[Hk1 [Hk2|Hk2]]|].
    + left. by apply A8.
    + right. destruct (Hin k Hk) as [_ [?|?]]; lia.
    + rewrite Hn in Hk. by destruct Hk.
  - intros Hf Hl. assert (Ha : a = nr) by (by apply A4). rewrite Ha in *. symmetry. apply (pos_inj s'); [done..|].
    destruct (decide (pos s' nr < pos s' nr')) as [Hlt|]; [|lia]. rewrite A8 in Hf; [done|done|lia].
  - congruence.
Qed.

(** Without entry for RX_Next_Highest, more than one SN must be open for the timer to start. *)
Lemma um_reassembly_needed_tight s :
  um_tight s -> um_reassembly_needed cfg s = ok (pos s (rx_next_reassembly (um_st s)) + 1 <? W).
Proof.
  intros [T1 T2 _]. pose proof um_facts. pose proof (pos_range s (rx_next_reassembly (um_st s))).
  unfold um_reassembly_needed. rewrite um_sn_gap_eq, pos_nh.
  assert (Hn : get s (um_rx_next_highest (um_st s)) = None).
  { destruct (get s _) as [i|] eqn:E; [|done]. destruct (T2 (um_rx_next_highest (um_st s))) as [_ ?]; [eauto|].
    rewrite pos_nh in *. lia. }
  assert (Hp : pos s (rx_next_reassembly (um_st s) + 1) = pos s (rx_next_reassembly (um_st s)) + 1).
  { unfold um_rx_mod_base. rewrite sn_dist_succ. apply sn_dist_next_lt. unfold um_rx_mod_base in *. lia. }
  rewrite Hn, Hp. by destruct (_ =? _).
Qed.

(** A stopped timer runs afterwards exactly when more than one SN is open. *)
Lemma started_timer s s1 s2 :
  um_tight s -> is_running (um_reassembly_timer s) = false ->
  um_stop_reassembly_timer cfg s = ok s1 -> um_start_reassembly_timer cfg s1 = ok s2 ->
  is_running (um_reassembly_timer s2) = (pos s (rx_next_reassembly (um_st s)) + 1 <? W).
Proof.
  intros HT Hr. unfold um_stop_reassembly_timer, um_start_reassembly_timer. rewrite Hr. intros [= <-].
  rewrite Hr. cbn [negb]. rewrite (um_reassembly_needed_tight s HT), bind_ok. intros [= <-].
  by destruct (_ <? W).
Qed.

Lemma um_place_segment_ok env s sn e :
  um_ok s -> 0 <= sn < md -> get s sn = Some e ->
  exists s', um_place_segment cfg env s sn = ok s' /\ um_ok s' /\ um_trigger_ok s' /\
    um_rx_next_highest (um_st s') =
      (if um_fully_received e || (pos s sn <? W) then um_rx_next_highest (um_st s) else sn_next md sn) /\
    delivered (um_out s') = delivered (um_out s) ++ (if um_fully_received e then um_delivery env e else []) /\
    (before_placing s sn -> um_tight s' /\ kept s sn s' /\
       (is_running (um_reassembly_timer s) = false ->
        is_running (um_reassembly_timer s') = (pos s' (rx_next_reassembly (um_st s')) + 1 <? W))).
Proof.
  intros Hok Hsn He. pose proof Hok as [Hw Hnr Hnh Htr]. unfold um_place_segment. rewrite um_sn_fully_received_eq, bind_ok.
  assert (Hfe : full s sn = um_fully_received e) by (unfold full; by rewrite He). rewrite Hfe.
  assert (G : exists s1, (if um_fully_received e : bool then
         s ← um_deliver_sdu cfg env s sn; um_update_rx_next_reassembly cfg s sn
       else if negb (sn_in_reassembly_window cfg s sn) then um_move_window cfg s sn else ok s) = ok s1 /\
    um_ok s1 /\ um_rx_next_highest (um_st s1) =
      (if um_fully_received e || (pos s sn <? W) then um_rx_next_highest (um_st s) else sn_next md sn) /\
    delivered (um_out s1) = delivered (um_out s) ++ (if um_fully_received e then um_delivery env e else []) /\
    um_reassembly_timer s1 = um_reassembly_timer s /\ (before_placing s sn -> um_tight s1 /\ kept s sn s1)).
  { destruct (um_fully_received e) eqn:Ee; simpl.
    - destruct (um_complete_ok env s sn e Hok Hsn He) as (s1 & s2 & -> & E2 & C1 & C2 & C3 & C5 & C4). rewrite bind_ok.
      exists s2. auto 7.
    - rewrite in_window, app_nil_r. destruct (Z.ltb_spec (pos s sn) W) as [Hl|Hl]; simpl.
      + exists s. split_and!; try done. intros [B1 B2 B3 B4 _].
        assert (Ho : full s (rx_next_reassembly (um_st s)) = false).
        { destruct (decide (rx_next_reassembly (um_st s) = sn)) as [->|]; [done|by apply B4]. }
        split; split; try done.
        * intros k Hk. destruct (B3 k Hk) as [->|?]; [|done]. lia.
        * intros k _ _. rewrite decide_False; [done|]. by intros [_ ?]; congruence.
        * intros k Hk Hn. rewrite Hn in Hk. by destruct Hk.
      + destruct (um_move_window_ok s sn Hw Hnr Hsn) as (s1 & a & E1 & A1 & At & Atm & A2 & A3 & _ & _ & _ & (A6 & _) & _).
        exists s1. split_and!; try done.
        * split; [done..| |by rewrite At]. rewrite A1. apply sn_next_range.
        * intros Hb. by apply um_moved_tight; rewrite ?Hfe. }
  destruct G as (s1 & -> & G1 & G2 & G3 & Gt & G4). rewrite bind_ok.
  destruct (timers_ok s1 (uo_trigger _ G1) (uo_nh _ G1)) as (s2 & s3 & Est & E3 & T & Tt). rewrite Est, bind_ok. exists s3.
  destruct (timer_only_carries _ _ T) as (Tp & T1 & T2 & T3). destruct T as (_ & T6 & T4 & _ & T5).
  split_and!; [done|by apply T1|done|by rewrite T4|by rewrite T5|]. intros Hb. destruct (G4 Hb) as [G5 G6].
  split; [by apply T2|]. split; [by apply T3|]. rewrite Tp, T6. intros Hr. rewrite <- Gt in Hr.
  by apply (started_timer s1 s2 s3).
Qed.

(** A stored segment prepares for the placing. *)
Lemma stored_before_placing s header payload s1 :
  um_ok s -> um_tight s -> 0 <= um_sn header < md -> sn_invalid_for_rx_buffer cfg s (um_sn header) = false ->
  um_st s1 = um_st s ->
  (forall k, get s1 k = if decide (k = um_sn header) then Some (stored_um (held s (um_sn header)) header payload)
     else if decide (get s (um_sn header) = None /\ k mod W = um_sn header mod W) then None else get s k) ->
  (full s1 (um_sn header) = true -> pos s (um_sn header) < W) ->
  before_placing s1 (um_sn header) /\
  forall k, k <> um_sn header -> get s1 k = get s k \/ get s1 k = None /\ pos s k + W <= pos s (um_sn header).
Proof.
  intros Hok [T1 T2 T3] Hsn Hv Est Hg Hf. set (sn := um_sn header) in *. rewrite invalid_sn in Hv. apply Z.ltb_ge in Hv.
  assert (P : forall x, pos s1 x = pos s x) by (intros; unfold um_rx_mod_base; by rewrite Est).
  pose proof um_facts. split.
  - split; rewrite ?Est, ?P; try done.
    + intros k Hk. rewrite P. rewrite Hg in Hk. destruct (decide (k = sn)); [by left|right].
      destruct (decide _); [by destruct Hk|]. by apply T2.
    + intros Hne. unfold full in *. rewrite Hg, decide_False by done. by destruct (decide _).
  - intros k Hk. rewrite Hg, decide_False by done. destruct (decide _) as [[Hn Hmod]|]; [|by left].
    destruct (get s k) as [i|] eqn:Ek; [right|by left]. split; [done|]. destruct (T2 k) as [Hkr Hkp]; [eauto|].
    destruct (decide (pos s k + W <= pos s sn)); [done|]. destruct Hk.
    destruct (decide (pos s sn < pos s k)).
    + apply (sn_slot_inj (um_rx_next_highest (um_st s) + W)); try done; unfold um_rx_mod_base in *; lia.
    + apply (sn_slot_inj k); try done.
      * rewrite sn_dist_self. lia.
      * rewrite (sn_dist_rebase (um_rx_next_highest (um_st s) + W)). unfold um_rx_mod_base in *. zcases; lia.
Qed.

(** ** Receiving a PDU *)

(** Header and payload of a PDU that the entity can read. *)
Definition um_data_pdu (buf : bytes) : option (rlc_um_pdu_header * bytes) :=
  match rlc_um_read_data_pdu_header buf sz with
  | None => None
  | Some h => let len := rlc_um_nr_packed_length h in
      if zlen buf <=? len then None else Some (h, slice buf len (zlen buf - len))
  end.

Lemma um_data_pdu_sn buf h p : um_data_pdu buf = Some (h, p) -> 0 <= um_sn h < md.
Proof.
  unfold um_data_pdu. destruct (rlc_um_read_data_pdu_header buf sz) as [h'|] eqn:E; [|done].
  destruct (_ <=? _); [done|]. intros [= <- _]. by apply read_um_header_range in E as (_ & ? & _).
Qed.

(** The traces that every PDU leaves. *)
Lemma um_traced s e : delivered [e] = [] ->
  (um_ok s -> um_ok (um_emit s e)) /\ delivered (um_out (um_emit s e)) = delivered (um_out s).
Proof. intros He. split; [by intros []|]. cbn [um_out um_emit]. by rewrite delivered_app, He, app_nil_r. Qed.

Lemma um_emit_ok s e : um_ok s /\ um_trigger_ok s -> um_ok (um_emit s e) /\ um_trigger_ok (um_emit s e).
Proof. intros [[] ?]. done. Qed.

Definition um_received s (buf : bytes) : rlc_rx_um_entity := um_emit (um_emit s (ev_pdu (zlen buf))) (ev_pcap buf).

Lemma um_received_delivered s buf : delivered (um_out (um_received s buf)) = delivered (um_out s).
Proof. unfold um_received. by rewrite !(fun s e He => proj2 (um_traced s e He)). Qed.

(** A segment that the buffer takes is stored and placed. *)
Lemma um_handle_segment_pdu env s buf header payload :
  um_data_pdu buf = Some (header, payload) -> um_si header <> full_sdu ->
  sn_invalid_for_rx_buffer cfg s (um_sn header) = false ->
  um_handle_pdu cfg env s buf =
    ('(_, s) ← um_handle_segment_data_sdu cfg (um_received s buf) header payload; um_place_segment cfg env s (um_sn header)).
Proof.
  unfold um_data_pdu, um_handle_pdu. intros Hd Hsi Hv. destruct (rlc_um_read_data_pdu_header buf sz) as [h|]; [|done].
  cbv zeta in *. destruct (_ <=? _); [done|]. injection Hd as <- <-. rewrite bool_decide_false by done.
  change (sn_invalid_for_rx_buffer cfg _ (um_sn h)) with (sn_invalid_for_rx_buffer cfg s (um_sn h)). by rewrite Hv.
Qed.

Lemma um_handle_pdu_ok env s buf :
  um_ok s -> um_trigger_ok s -> exists s', um_handle_pdu cfg env s buf = ok s' /\ um_ok s' /\ um_trigger_ok s'.
Proof.
  intros Hok Ht. destruct (um_data_pdu buf) as [[header payload]|] eqn:Hd.
  - destruct (decide (um_si header = full_sdu)) as [Hsi|Hsi].
    + unfold um_data_pdu, um_handle_pdu in *. destruct (rlc_um_read_data_pdu_header buf sz) as [h|]; [|done].
      cbv zeta in *. destruct (_ <=? _); [done|]. injection Hd as <- <-. rewrite bool_decide_true by done.
      eexists. split; [reflexivity|]. unfold um_handle_full_sdu. destruct (build_chain _ _); auto 6 using um_emit_ok.
    + destruct (sn_invalid_for_rx_buffer cfg s (um_sn header)) eqn:Hv.
      * unfold um_data_pdu, um_handle_pdu in *. destruct (rlc_um_read_data_pdu_header buf sz) as [h|]; [|done].
        cbv zeta in *. destruct (_ <=? _); [done|]. injection Hd as <- <-. rewrite bool_decide_false by done.
        change (sn_invalid_for_rx_buffer cfg _ (um_sn h)) with (sn_invalid_for_rx_buffer cfg s (um_sn h)). rewrite Hv.
        eexists. split; [reflexivity|]. auto 6 using um_emit_ok.
      * rewrite (um_handle_segment_pdu env s buf _ _ Hd Hsi Hv).
        destruct (um_handle_segment_ok (um_received s buf) header payload (uo_window _ Hok) Hsi)
          as (b & s1 & -> & E1 & E2 & _ & E3 & E4). rewrite bind_ok.
        destruct (um_place_segment_ok env s1 (um_sn header) (stored_um (held (um_received s buf) (um_sn header)) header payload))
          as (s' & E' & H1 & H2 & _); [| | |by eauto].
        -- destruct Hok. by split; rewrite ?E1.
        -- by eapply um_data_pdu_sn.
        -- rewrite E4. by rewrite decide_True.
  - unfold um_data_pdu, um_handle_pdu in *. destruct (rlc_um_read_data_pdu_header buf sz) as [h|]; cbv zeta in *.
    + destruct (_ <=? _); [|done]. eexists. split; [reflexivity|]. auto 6 using um_emit_ok.
    + eexists. split; [reflexivity|]. auto 6 using um_emit_ok.
Qed.

(** ** Expiry of t-Reassembly *)
Definition um_timed_out s : rlc_rx_um_entity := um_set_timer s timer_expired.

(** [r] is the first SN from RX_Next_Reassembly on that is neither below the trigger nor fully
    received. *)
Definition um_next_after_expiry s (r : Z) : Prop :=
  let nr := rx_next_reassembly (um_st s) in let trigger := rx_timer_trigger (um_st s) in
  0 <= r < md /\ (pos s nr <= W -> pos s nr <= pos s r <= W) /\
  (forall k, 0 <= k < md -> pos s nr <= pos s k < pos s r -> pos s k < pos s trigger \/ full s k = true) /\
  (pos s r < W -> pos s trigger <= pos s r /\ full s r = false).

Lemma um_expiry_loop_ok s :
  um_ok s ->
  exists r s', for_loop (um_loop_fuel cfg)
    (fun i s => um_rx_mod_base cfg s i <? um_rx_mod_base cfg s (um_rx_next_highest (um_st s))) (sn_next md)
    (fun i s =>
       if um_rx_mod_base cfg s i <? um_rx_mod_base cfg s (rx_timer_trigger (um_st s)) then
         s ← um_discard_sn cfg i s; ok (s, false)
       else
         full ← um_sn_fully_received cfg s i;
         if full : bool then s ← um_remove_sn cfg s i; ok (s, false) else ok (s, true))
    (rx_next_reassembly (um_st s)) s = ok (r, s') /\
    removed s s' (rx_next_reassembly (um_st s)) r /\ um_next_after_expiry s r.
Proof.
  intros [Hw Hnr _ _]. pose proof um_facts. set (a := rx_next_reassembly (um_st s)) in *. pose proof (pos_range s a).
  destruct (for_loop_rule
    (fun i x => removed s x a i /\ 0 <= i < md /\ (pos s a <= W -> pos s a <= pos s i <= W) /\ (W <= pos s a -> i = a) /\
       (forall k, 0 <= k < md -> pos s a <= pos s k < pos s i -> pos s k < pos s (rx_timer_trigger (um_st s)) \/ full s k = true))
    (fun i x => removed s x a i /\ um_next_after_expiry s i)
    (fun i _ => Z.to_nat (md - pos s i)) (um_loop_fuel cfg)
    (fun i s => um_rx_mod_base cfg s i <? um_rx_mod_base cfg s (um_rx_next_highest (um_st s))) (sn_next md)
    (fun i s =>
       if um_rx_mod_base cfg s i <? um_rx_mod_base cfg s (rx_timer_trigger (um_st s)) then
         s ← um_discard_sn cfg i s; ok (s, false)
       else
         full ← um_sn_fully_received cfg s i;
         if full : bool then s ← um_remove_sn cfg s i; ok (s, false) else ok (s, true)) a s)
    as (r & s' & -> & HQ); [| | | |by destruct HQ; eauto].
  - split_and!; try done; try lia; by apply removed_refl.
  - unfold um_loop_fuel. lia.
  - intros i x (Hr & Hi & H1 & H2 & H3) Hc%Z.ltb_ge. rewrite pos_nh, (removed_pos _ _ _ _ i Hr) in Hc.
    split; [done|]. unfold um_next_after_expiry. split_and!; try done; lia.
  - intros i x (Hr & Hi & H1 & H2 & H3) Hc%Z.ltb_lt. rewrite pos_nh, (removed_pos _ _ _ _ i Hr) in Hc.
    rewrite (rm_st _ _ _ _ Hr), !(removed_pos _ _ _ _ _ Hr).
    assert (Hlow : pos s a < W) by (destruct (decide (pos s a < W)); [done|rewrite H2 in Hc by lia; lia]).
    specialize (H1 ltac:(lia)). pose proof (pos_next s i). pose proof (sn_next_range (m := md) i).
    assert (Hnext : forall x', um_st x' = um_st x -> um_reassembly_timer x' = um_reassembly_timer x ->
      window_wf W (um_rx_window x') -> (forall k, get x' k = if decide (k = i) then None else get x k) ->
      delivered (um_out x') = delivered (um_out x) ->
      pos s i < pos s (rx_timer_trigger (um_st s)) \/ full s i = true ->
      (removed s x' a (sn_next md i) /\ 0 <= sn_next md i < md /\
       (pos s a <= W -> pos s a <= pos s (sn_next md i) <= W) /\ (W <= pos s a -> sn_next md i = a) /\
       (forall k, 0 <= k < md -> pos s a <= pos s k < pos s (sn_next md i) ->
          pos s k < pos s (rx_timer_trigger (um_st s)) \/ full s k = true)) /\
      (Z.to_nat (md - pos s (sn_next md i)) < Z.to_nat (md - pos s i))%nat).
    { intros x' X1 X2 X3 X4 X5 Hi'. split; [|lia]. split; [by eapply removed_step; try done; lia|]. split_and!; try done; try lia.
      intros k Hk Hkp. destruct (decide (pos s k = pos s i)) as [E|]; [|apply H3; lia]. by apply (pos_inj s) in E as ->. }
    destruct (Z.ltb_spec (pos s i) (pos s (rx_timer_trigger (um_st s)))) as [Htr|Htr].
    + destruct (um_discard_sn_ok x i (rm_window _ _ _ _ Hr)) as (x' & -> & X1 & X2 & X3 & X4 & X5). rewrite bind_ok.
      eexists _, _. split; [reflexivity|]. split; [done|]. intros _. apply Hnext; auto.
    + rewrite um_sn_fully_received_eq, bind_ok.
      assert (Hfull : full x i = full s i).
      { unfold full. rewrite (rm_get _ _ _ _ Hr), decide_False; [done|lia]. }
      rewrite Hfull. destruct (full s i) eqn:Ef.
      * destruct (full_some x i Hfull) as [e He].
        destruct (um_remove_sn_ok x i e (rm_window _ _ _ _ Hr) He) as (w & -> & Hw' & Hg). rewrite bind_ok.
        eexists _, _. split; [reflexivity|]. split; [done|]. intros _. apply Hnext; auto.
      * eexists _, _. split; [reflexivity|]. split; [|done]. intros _. split; [done|].
        unfold um_next_after_expiry. split_and!; try done; lia.
Qed.

(** What the expiry of t-Reassembly does. *)
Record expired_um s s' : Prop := {
  xu_next : um_next_after_expiry s (rx_next_reassembly (um_st s'));
  xu_nh : um_rx_next_highest (um_st s') = um_rx_next_highest (um_st s);
  xu_get : forall k, get s' k =
    if decide (0 <= k < md /\ pos s (rx_next_reassembly (um_st s)) <= pos s k < pos s (rx_next_reassembly (um_st s')))
    then None else get s k;
  xu_delivered : delivered (um_out s') = delivered (um_out s);
  xu_timer : um_tight s ->
    is_running (um_reassembly_timer s') = (pos s (rx_next_reassembly (um_st s')) + 1 <? W) /\
    (is_running (um_reassembly_timer s') = true -> rx_timer_trigger (um_st s') = um_rx_next_highest (um_st s))
}.

Lemma um_expiry_ok s :
  um_ok s -> 0 < um_t_reassembly cfg ->
  exists s', um_reassembly_timer_expiry cfg s = ok s' /\ um_ok s' /\ um_trigger_ok s' /\ expired_um s s' /\
    (um_tight s -> um_tight s').
Proof.
  intros Hok Ht. unfold um_reassembly_timer_expiry. rewrite (proj2 (Z.ltb_lt _ _) Ht). cbv zeta.
  set (s0 := um_set_timer s timer_expired). assert (H0 : um_ok s0) by (by destruct Hok).
  unfold um_on_expired_reassembly_timer. destruct (um_expiry_loop_ok s0 H0) as (r & s1 & -> & R1 & R2). rewrite bind_ok.
  pose proof R2 as (Q1 & Q2 & Q3 & Q4). set (s2 := um_set_st s1 _).
  assert (E2 : um_st s2 = set_rx_next_reassembly (um_st s) r) by (cbn; by rewrite (rm_st _ _ _ _ R1)).
  assert (P2 : forall x, pos s2 x = pos s x) by (intros; unfold um_rx_mod_base; by rewrite E2).
  assert (G2 : forall k, get s2 k = if decide (0 <= k < md /\ pos s (rx_next_reassembly (um_st s)) <= pos s k < pos s r)
    then None else get s k) by apply (rm_get _ _ _ _ R1).
  assert (Hok2 : um_ok s2).
  { destruct Hok. split; rewrite ?E2; try done. apply (rm_window _ _ _ _ R1). }
  assert (Htight : um_tight s -> um_tight s2).
  { intros [T1 T2 T3]. specialize (Q2 T1). split; rewrite E2; cbn [rx_next_reassembly set_rx_next_reassembly]; rewrite ?P2.
    - apply Q2.
    - intros k Hk. rewrite P2. rewrite G2 in Hk. destruct (decide _) as [|Hn]; [by destruct Hk|].
      destruct (T2 k Hk) as [? ?]. split; [done|]. change (pos s0 r) with (pos s r) in *.
      destruct (decide (pos s r <= pos s k)); [lia|]. destruct Hn. lia.
    - unfold full. rewrite G2, decide_False by lia. change (pos s0 r) with (pos s r) in *.
      destruct (decide (pos s r < W)) as [Hr|Hr]; [by apply Q4|].
      destruct (get s r) as [i|] eqn:Ei; [|done]. destruct (T2 r) as [_ ?]; [eauto|lia]. }
  destruct (um_reassembly_needed_ok s2) as [b Hb]. rewrite Hb, bind_ok.
  assert (Hrun : b = true -> timer_only s2 (um_run_reassembly_timer s2) /\ um_trigger_ok (um_run_reassembly_timer s2))
    by (intros; apply run_timer_ok).
  eexists. split; [reflexivity|].
  assert (Hto : timer_only s2 (if b then um_run_reassembly_timer s2 else s2)) by (destruct b; [by apply Hrun|apply timer_only_refl]).
  assert (Hrt : um_reassembly_timer s2 = timer_expired) by (cbn; by rewrite (rm_timer _ _ _ _ R1)).
  destruct (timer_only_carries _ _ Hto) as (P3 & C1 & C2 & _). destruct Hto as (_ & O1 & O2 & O3 & O4).
  split_and!.
  - by apply C1.
  - destruct b; [by apply Hrun|]. intros Hr. by rewrite Hrt in Hr.
  - split; rewrite ?O1, ?O2, ?O3, ?O4, ?E2; try done.
    + apply (rm_delivered _ _ _ _ R1).
    + intros HT. rewrite (um_reassembly_needed_tight _ (Htight HT)), E2, P2 in Hb. injection Hb as <-.
      cbn [rx_next_reassembly set_rx_next_reassembly]. destruct (_ <? W); [split; [done|]|].
      * intros _. cbn. by rewrite (rm_st _ _ _ _ R1).
      * rewrite Hrt. done.
  - intros HT. by apply C2, Htight.
Qed.

(** ** Segments of an SDU *)

(** Every segment in the window is a segment of the SDU with that SN. *)
Definition um_holds (sdus : Z -> bytes) s : Prop :=
  forall k, segments_wf (held s k) /\ Forall (genuine (sdus k)) (held s k).

Lemma um_holds_kept sdus s sn s1 :
  um_holds sdus s -> um_tight s1 -> kept s sn s1 -> um_holds sdus s1.
Proof.
  intros Hh [_ T _] [_ K _ _] k. unfold held at 1 2. destruct (get s1 k) as [i|] eqn:E; [|done].
  destruct (T k) as [Hk Hp]; [eauto|]. specialize (K k Hk Hp). unfold held at 1 in K. rewrite E in K. rewrite K.
  destruct (decide _); [done|]. apply Hh.
Qed.

(** What a segment of SDU [d] makes of the segments already held. *)
Lemma um_stored_genuine d segs header payload :
  segments_wf segs -> Forall (genuine d) segs -> genuine d (mk_segment (um_si header) (um_so header) payload) ->
  zlen d <= 2 ^ 16 - 1 ->
  let new := mk_segment (um_si header) (um_so header) payload in
  let e := stored_um segs header payload in
  segments_wf (um_segments e) /\ Forall (genuine d) (um_segments e) /\
  (forall i, covered (um_segments e) i <-> covered segs i \/ covers new i) /\
  (um_fully_received e = true <-> forall i, 0 <= i < zlen d -> covered segs i \/ covers new i) /\
  (um_fully_received e = true -> forall env, pool_ok env = true -> (length (um_segments e) <= max_slices env)%nat ->
     um_delivery env e = [d]).
Proof.
  intros Hwf Hall Hg Hd new e. pose proof Hg as [G1 G2 G3 _ _]. cbn [seg_so seg_payload] in *.
  destruct (store_segment_spec segs new Hwf) as (S1 & S2 & _ & S4); [done|done|cbn; lia|].
  assert (Hpos : 0 < zlen d) by (destruct payload; [done|]; cbn in G3; lia).
  specialize (S4 d Hall Hg). unfold e, stored_um. cbn [um_segments um_fully_received]. fold new.
  split_and!; try done.
  - unfold update_segment_inventory. rewrite (inventory_full_iff d) by (done || lia). split; intros H i Hi; apply S2; auto.
  - intros Hf env Hp Hl. unfold um_delivery, um_reassemble_sdu. cbn [um_segments um_fully_received]. rewrite Hf. cbn [negb].
    rewrite build_chain_ok by (done || by rewrite length_fmap). cbn [option_list].
    rewrite (inventory_full d _ 0) by (done || lia). by rewrite Z.sub_0_r, slice_full.
Qed.

(** The whole effect of a segment. *)
Record took_segment env s header payload s' : Prop := {
  tk_ok : um_ok s' /\ um_trigger_ok s' /\ um_tight s';
  tk_nh : um_rx_next_highest (um_st s') =
    (if um_fully_received (stored_um (held s (um_sn header)) header payload) || (pos s (um_sn header) <? W)
     then um_rx_next_highest (um_st s) else sn_next md (um_sn header));
  tk_delivered : delivered (um_out s') = delivered (um_out s) ++
    (let e := stored_um (held s (um_sn header)) header payload in
     if um_fully_received e then um_delivery env e else []);
  tk_timer : is_running (um_reassembly_timer s) = false ->
    is_running (um_reassembly_timer s') = (pos s' (rx_next_reassembly (um_st s')) + 1 <? W);
  tk_held : um_fully_received (stored_um (held s (um_sn header)) header payload) = false ->
    held s' (um_sn header) = um_segments (stored_um (held s (um_sn header)) header payload);
  tk_done : um_fully_received (stored_um (held s (um_sn header)) header payload) = true ->
    held s' (um_sn header) = [] /\ rx_next_reassembly (um_st s') <> um_sn header;
  tk_next : if um_fully_received (stored_um (held s (um_sn header)) header payload)
    then pos s' (rx_next_reassembly (um_st s)) <= pos s' (rx_next_reassembly (um_st s'))
    else pos s' (rx_next_reassembly (um_st s)) < W -> rx_next_reassembly (um_st s') = rx_next_reassembly (um_st s);
  tk_others : forall k, 0 <= k < md -> k <> um_sn header ->
    pos s' (rx_next_reassembly (um_st s')) <= pos s' k < W -> held s' k = held s k
}.

Lemma um_take_segment env s buf header payload d :
  um_ok s -> um_tight s -> um_data_pdu buf = Some (header, payload) -> um_si header <> full_sdu ->
  sn_invalid_for_rx_buffer cfg s (um_sn header) = false ->
  segments_wf (held s (um_sn header)) -> Forall (genuine d) (held s (um_sn header)) ->
  genuine d (mk_segment (um_si header) (um_so header) payload) -> zlen payload < zlen d <= 2 ^ 16 - 1 ->
  exists s', um_handle_pdu cfg env s buf = ok s' /\ took_segment env s header payload s'.
Proof.
  intros Hok HT Hd Hsi Hv Hwf Hall Hg Hlen. set (sn := um_sn header) in *. pose proof (um_data_pdu_sn _ _ _ Hd) as Hsn. fold sn in Hsn.
  rewrite (um_handle_segment_pdu env s buf _ _ Hd Hsi Hv).
  destruct (um_handle_segment_ok (um_received s buf) header payload (uo_window _ Hok) Hsi)
    as (b & s1 & -> & E1 & E2 & E3 & E4 & E5). rewrite bind_ok. fold sn in E5 |- *.
  change (held (um_received s buf) sn) with (held s sn) in E5. change (um_rx_window (um_received s buf)) with (um_rx_window s) in E5.
  change (um_st (um_received s buf)) with (um_st s) in E1.
  set (e := stored_um (held s sn) header payload) in *.
  destruct (um_stored_genuine d (held s sn) header payload Hwf Hall Hg) as (S1 & S2 & S3 & S4 & _); [lia|]. fold e in S1, S2, S3, S4.
  assert (Hfe : full s1 sn = um_fully_received e) by (unfold full; rewrite E5; by rewrite decide_True).
  assert (Hin : full s1 sn = true -> pos s sn < W).
  { rewrite Hfe. intros Hf. destruct (decide (pos s sn < W)); [done|]. exfalso.
    assert (Hnil : held s sn = []).
    { unfold held. destruct (get s sn) as [i|] eqn:E; [|done]. destruct (ut_in _ HT sn) as [_ ?]; [eauto|lia]. }
    destruct Hg as [G1 G2 G3 _ _]. cbn [seg_so seg_payload] in *.
    assert (Hcov : forall i, 0 <= i < zlen d -> um_so header <= i < um_so header + zlen payload).
    { intros i Hi. apply S4 in Hi; [|done]. rewrite Hnil in Hi. destruct Hi as [Hi|Hi]; [by apply covered_nil in Hi|exact Hi]. }
    pose proof (Hcov 0). pose proof (Hcov (zlen d - 1)). lia. }
  destruct (stored_before_placing s header payload s1 Hok HT Hsn Hv E1 E5 Hin) as [Hb Hoth]. fold sn in Hb, Hoth.
  assert (Hok1 : um_ok s1) by (destruct Hok; by split; rewrite ?E1).
  assert (He1 : get s1 sn = Some e) by (rewrite E5; by rewrite decide_True).
  destruct (um_place_segment_ok env s1 sn e Hok1 Hsn He1) as (s' & Es' & H1 & H2 & H3 & H4 & H5).
  destruct (H5 Hb) as (HT' & [K1 K2 K3 K4 K5] & Htm). exists s'. split; [done|].
  assert (P1 : forall x, pos s1 x = pos s x) by (intros; unfold um_rx_mod_base; by rewrite E1). rewrite P1, E1 in H3.
  split; fold sn e; try done.
  - rewrite H4, E3. by rewrite um_received_delivered.
  - intros Hr. apply Htm. by rewrite E2.
  - intros Hf. assert (Hs : is_Some (get s' sn)).
    { destruct (get s' sn) eqn:En; [done|]. destruct (K3 sn) as [Hc|Hc]; [eauto|done|congruence|]. pose proof um_facts. lia. }
    destruct (ut_in _ HT' sn Hs) as [_ Hp]. rewrite (K2 sn Hsn Hp), decide_False by (intros [_ ?]; congruence).
    unfold held. by rewrite He1.
  - intros Hf. split.
    + unfold held. destruct (get s' sn) as [i|] eqn:En; [|done]. destruct (ut_in _ HT' sn) as [_ Hp]; [eauto|].
      specialize (K2 sn Hsn Hp). rewrite decide_True in K2 by (split; congruence). unfold held in K2. by rewrite En in K2.
    + intros Hnr. pose proof (ut_open _ HT') as Ho. rewrite Hnr in Ho.
      destruct (decide (pos s' sn < W)) as [Hp|Hp].
      * rewrite (K1 sn Hsn) in Ho by (rewrite Hnr; lia). congruence.
      * pose proof (ut_nr _ HT'). rewrite Hnr in *.
        rewrite Hf in H3. cbn [orb] in H3. assert (pos s' sn = pos s sn) by (unfold um_rx_mod_base; by rewrite H3).
        rewrite Hfe in Hin. specialize (Hin Hf). lia.
  - rewrite E1 in K4, K5. destruct (um_fully_received e) eqn:Ef; [by apply K5|].
    apply K4. destruct (decide (rx_next_reassembly (um_st s) = sn)) as [->|Hne]; [done|].
    pose proof (bp_open _ _ Hb) as Ho. rewrite E1 in Ho. by apply Ho.
  - intros k Hk Hne Hp. rewrite (K2 k Hk Hp), decide_False by (by intros []).
    unfold held. destruct (Hoth k Hne) as [->|[_ Hfar]]; [done|exfalso].
    pose proof (pos_range s k). pose proof (pos_range s' (rx_next_reassembly (um_st s'))). pose proof um_facts. pose proof (pos_range s sn).
    assert (Hf : um_fully_received e = false) by (destruct (um_fully_received e) eqn:Ef; [specialize (Hin Hfe); lia|done]).
    rewrite Hf, (proj2 (Z.ltb_ge _ _)) in H3 by lia.
    rewrite (pos_moved s s' sn k) in Hp by (done || lia). revert Hp. zcases; lia.
Qed.

(** ** The life of an entity *)
Inductive um_rx_event :=
  | um_rx_pdu (env : chain_env) (buf : bytes)
  | um_rx_timer
  | um_rx_stop.

(** t-Reassembly expires only when it runs. *)
Definition um_rx_step (e : um_rx_event) s : outcome rlc_rx_um_entity :=
  match e with
  | um_rx_pdu env buf => um_handle_pdu cfg env s buf
  | um_rx_timer => if is_running (um_reassembly_timer s) then um_reassembly_timer_expiry cfg s else ok s
  | um_rx_stop => ok (um_stop s)
  end.

Fixpoint um_rx_run (es : list um_rx_event) s : outcome rlc_rx_um_entity :=
  match es with
  | [] => ok s
  | e :: es => s ← um_rx_step e s; um_rx_run es s
  end.

Lemma um_ctor_ok : um_ok rlc_rx_um_entity_ctor /\ um_trigger_ok rlc_rx_um_entity_ctor /\ um_tight rlc_rx_um_entity_ctor.
Proof.
  pose proof um_facts. split_and!.
  - split; [apply window_wf_empty|cbn; lia..].
  - done.
  - split.
    + change (pos rlc_rx_um_entity_ctor (um_rx_next_highest (um_st rlc_rx_um_entity_ctor)) <= W). by rewrite pos_nh.
    + intros k Hk. by destruct Hk.
    + done.
Qed.

Lemma um_rx_step_ok e s :
  um_ok s -> um_trigger_ok s -> exists s', um_rx_step e s = ok s' /\ um_ok s' /\ um_trigger_ok s'.
Proof.
  intros Hok Ht. destruct e as [env buf| |]; simpl.
  - by apply um_handle_pdu_ok.
  - destruct (is_running _); [|by eauto]. destruct (decide (0 < um_t_reassembly cfg)) as [Hc|Hc].
    + destruct (um_expiry_ok s Hok Hc) as (s' & E & H1 & H2 & _). eauto.
    + unfold um_reassembly_timer_expiry. rewrite (proj2 (Z.ltb_ge _ _)) by lia. eexists. split; [reflexivity|].
      split; [by destruct Hok|done].
  - eexists. split; [reflexivity|]. split; [by destruct Hok|]. intros Hr. exfalso. cbn in Hr.
    by destruct (um_reassembly_timer s).
Qed.
End um_rx.

(** ** Properties *)
Section properties.
Context (cfg : rlc_rx_um_config).

Local Abbreviation sz := (um_sn_field_length cfg).
Local Abbreviation md := (um_mod sz).
Local Abbreviation W := (um_window sz).
Local Abbreviation pos s x := (um_rx_mod_base cfg s x).
Local Abbreviation nr s := (rx_next_reassembly (um_st s)).

(** Whatever PDUs arrive, and whenever t-Reassembly expires, the receiving UM entity fails no
    assertion and every loop of it ends; its window stays consistent, its state variables stay SNs,
    and a running t-Reassembly waits for an SN of the window or for the end of the window. *)
Theorem um_rx_never_fails es :
  exists s, um_rx_run cfg es rlc_rx_um_entity_ctor = ok s /\ um_ok cfg s /\ um_trigger_ok cfg s.
Proof.
  destruct (um_ctor_ok cfg) as (H1 & H2 & _). revert H1 H2. generalize (rlc_rx_um_entity_ctor).
  induction es as [|e es IH]; intros s H1 H2; simpl; [eauto|].
  destruct (um_rx_step_ok cfg e s H1 H2) as (s' & -> & H1' & H2'). rewrite bind_ok. auto.
Qed.

(** A segment of an SDU adds its bytes to those held for its SN: when they are complete, exactly
    the SDU that was segmented is delivered and nothing of it is held any more; before that nothing
    is delivered and the held segments cover the union. What is held for the other SNs of the window is
    kept. *)
Theorem um_segments_reassembled sdus env s buf header payload :
  um_ok cfg s -> um_tight cfg s -> um_holds cfg sdus s ->
  um_data_pdu cfg buf = Some (header, payload) -> um_si header <> full_sdu ->
  sn_invalid_for_rx_buffer cfg s (um_sn header) = false ->
  let sn := um_sn header in let new := mk_segment (um_si header) (um_so header) payload in
  genuine (sdus sn) new -> zlen payload < zlen (sdus sn) <= 2 ^ 16 - 1 ->
  exists s', um_handle_pdu cfg env s buf = ok s' /\ um_ok cfg s' /\ um_tight cfg s' /\ um_holds cfg sdus s' /\
    ((forall i, 0 <= i < zlen (sdus sn) -> covered (held cfg s sn) i \/ covers new i) ->
       pool_ok env = true -> (length (store_segment (held cfg s sn) new).2 <= max_slices env)%nat ->
       delivered (um_out s') = delivered (um_out s) ++ [sdus sn] /\ held cfg s' sn = []) /\
    (~ (forall i, 0 <= i < zlen (sdus sn) -> covered (held cfg s sn) i \/ covers new i) ->
       delivered (um_out s') = delivered (um_out s) /\
       forall i, covered (held cfg s' sn) i <-> covered (held cfg s sn) i \/ covers new i) /\
    (forall k, 0 <= k < md -> k <> sn -> pos s' (nr s') <= pos s' k < W ->
       held cfg s' k = held cfg s k).
Proof.
  intros Hok HT Hh Hd Hsi Hv sn new Hg Hlen. destruct (Hh sn) as [Hwf Hall].
  destruct (um_take_segment cfg env s buf header payload (sdus sn) Hok HT Hd Hsi Hv Hwf Hall Hg Hlen) as (s' & E & T).
  destruct (um_stored_genuine (sdus sn) (held cfg s sn) header payload Hwf Hall Hg) as (S1 & S2 & S3 & S4 & S5); [lia|].
  fold sn new in T, S3, S4. destruct T as [(T1 & _ & T2) _ T3 _ T4 T5 _ T6]. fold sn in T3, T4, T5, T6.
  set (e := stored_um (held cfg s sn) header payload) in *. exists s'. split; [done|]. split; [done|]. split; [done|]. split_and!.
  - intros k. unfold held at 1 2. destruct (wget W (um_rx_window s') k) as [i|] eqn:Ek; [|done].
    assert (Hi : um_segments i = held cfg s' k) by (unfold held; by rewrite Ek). rewrite Hi.
    destruct (ut_in _ _ T2 k) as [Hk Hp]; [eauto|]. destruct (decide (k = sn)) as [->|Hne].
    + destruct (um_fully_received e) eqn:Ef; [by destruct (T5 eq_refl) as [-> _]|]. by rewrite (T4 eq_refl).
    + rewrite T6 by done. apply Hh.
  - intros Hc. apply S4 in Hc. intros Hp Hl. rewrite T3. cbv zeta. rewrite Hc. destruct (T5 Hc) as [-> _]. by rewrite S5.
  - intros Hc. assert (Hf : um_fully_received e = false) by (destruct (um_fully_received e) eqn:Ef; [by destruct Hc; apply S4|done]).
    rewrite T3. cbv zeta. rewrite Hf, app_nil_r. split; [done|]. by rewrite (T4 Hf).
  - done.
Qed.

(** When t-Reassembly expires, RX_Next_Reassembly moves to the first SN, from the trigger on,
    that is not fully received; everything below it leaves the window and nothing else, nothing is
    delivered, and the timer is started again, for the SDUs up to RX_Next_Highest, when more than
    one SN is still open. *)
Theorem um_rx_expiry s :
  um_ok cfg s -> um_tight cfg s -> 0 < um_t_reassembly cfg ->
  exists s', um_reassembly_timer_expiry cfg s = ok s' /\ um_ok cfg s' /\ um_tight cfg s' /\
    (let first := nr s in let r := nr s' in let trigger := rx_timer_trigger (um_st s) in
     pos s first <= pos s r <= W /\
     (forall k, 0 <= k < md -> pos s first <= pos s k < pos s r -> pos s k < pos s trigger \/ full cfg s k = true) /\
     (pos s r < W -> pos s trigger <= pos s r /\ full cfg s r = false) /\
     (forall k, wget W (um_rx_window s') k =
        if decide (0 <= k < md /\ pos s first <= pos s k < pos s r) then None else wget W (um_rx_window s) k) /\
     is_running (um_reassembly_timer s') = (pos s r + 1 <? W)) /\
    um_rx_next_highest (um_st s') = um_rx_next_highest (um_st s) /\
    (is_running (um_reassembly_timer s') = true -> rx_timer_trigger (um_st s') = um_rx_next_highest (um_st s)) /\
    delivered (um_out s') = delivered (um_out s).
Proof.
  intros Hok HT Ht. destruct (um_expiry_ok cfg s Hok Ht) as (s' & E & H1 & _ & [X1 X2 X3 X4 X5] & H2).
  destruct X1 as (_ & N1 & N2 & N3). destruct (X5 HT) as [R1 R2]. pose proof (N1 (ut_nr _ _ HT)).
  exists s'. cbv zeta. split_and!; auto; lia.
Qed.
End properties.

(** ** t-Reassembly, as the code does not mean it *)
Definition um_cfg6 : rlc_rx_um_config := mk_rx_um_config um_size6bits 50.
Definition chains : chain_env := mk_chain_env true 16.

(** A segment PDU with a 6-bit SN. *)
Definition segment_pdu (si : rlc_si_field) (sn so : Z) (payload : bytes) : um_rx_event :=
  um_rx_pdu chains (rlc_um_write_data_pdu_header (mk_um_header si um_size6bits sn so) ++ payload).

Definition um_after (es : list um_rx_event) : rlc_rx_um_entity :=
  match um_rx_run um_cfg6 es rlc_rx_um_entity_ctor with ok s => s | fail _ => rlc_rx_um_entity_ctor end.

(** A gap inside the only SDU of the window does not start t-Reassembly, although the specification
    demands it when RX_Next_Highest = RX_Next_Reassembly + 1: the code looks for the gap in the
    entry of RX_Next_Highest, where there is none, instead of RX_Next_Reassembly. Here bytes 0 to 4 of
    SDU 0 are missing before the received last segment, and nothing waits for them. *)
Theorem um_gap_starts_no_timer :
  let s := um_after [segment_pdu last_segment 0 5 [6; 7]] in
  um_ok um_cfg6 s /\ um_rx_next_highest (um_st s) = rx_next_reassembly (um_st s) + 1 /\
  option_map um_has_gap (wget (um_window um_size6bits) (um_rx_window s) (rx_next_reassembly (um_st s))) = Some true /\
  is_running (um_reassembly_timer s) = false.
Proof.
  intros s. split_and!; try (vm_compute; reflexivity).
  destruct (um_rx_step_ok um_cfg6 (segment_pdu last_segment 0 5 [6; 7]) rlc_rx_um_entity_ctor) as (x & E & H & _);
    [apply um_ctor_ok..|].
  unfold s, um_after. cbn [um_rx_run]. by rewrite E, bind_ok.
Qed.

(** First segments whose SNs reach the end of the SN space: then t-Reassembly runs for SN 63, with
    the trigger 2. *)
Definition wrapping_segments : list um_rx_event :=
  [segment_pdu first_segment 20 0 [1]; segment_pdu first_segment 40 0 [1]; segment_pdu first_segment 62 0 [1];
   um_rx_timer; segment_pdu first_segment 63 0 [1]; segment_pdu first_segment 1 0 [1]].

(** The stop condition compares the trigger and RX_Next_Reassembly as numbers, not relative to the
    window: once the trigger has wrapped around, every segment that arrives stops the timer and
    starts it anew for a later SN. Here t-Reassembly waits, with trigger 2, for SN 63; a segment of
    SN 3 restarts it with trigger 4, and one of SN 5 with trigger 6, although SN 63 is still open. *)
Theorem um_wrapped_trigger_restarts :
  let at_next es := let s := um_after (wrapping_segments ++ es) in
    (rx_next_reassembly (um_st s), is_running (um_reassembly_timer s), rx_timer_trigger (um_st s)) in
  at_next [] = (63, true, 2) /\
  at_next [segment_pdu first_segment 3 0 [1]] = (63, true, 4) /\
  at_next [segment_pdu first_segment 3 0 [1]; segment_pdu first_segment 5 0 [1]] = (63, true, 6).
Proof. vm_compute. done. Qed.

(** ** Witnesses *)
Definition pdu_of (e : um_rx_event) : bytes := match e with um_rx_pdu _ buf => buf | _ => [] end.

Lemma um_ctor_holds sdus : um_holds um_cfg6 sdus rlc_rx_um_entity_ctor.
Proof. done. Qed.

(** Two segments of the SDU [1; 2; 3]. *)
Lemma um_segments_reassembled_witness :
  exists s' s'', um_handle_pdu um_cfg6 chains rlc_rx_um_entity_ctor (pdu_of (segment_pdu last_segment 0 1 [2; 3])) = ok s' /\
    um_handle_pdu um_cfg6 chains s' (pdu_of (segment_pdu first_segment 0 0 [1; 2])) = ok s'' /\
    delivered (um_out s') = [] /\ delivered (um_out s'') = [[1; 2; 3]].
Proof.
  destruct (um_ctor_ok um_cfg6) as (I1 & _ & I2).
  destruct (um_segments_reassembled um_cfg6 (fun _ => [1; 2; 3]) chains rlc_rx_um_entity_ctor
    (pdu_of (segment_pdu last_segment 0 1 [2; 3])) (mk_um_header last_segment um_size6bits 0 1) [2; 3])
    as (s' & E & H1 & H2 & H3 & _ & Hinc & _).
  { exact I1. } { exact I2. } { apply um_ctor_holds. } { reflexivity. } { discriminate. } { reflexivity. }
  { split; [simpl; lia|discriminate|simpl; lia|reflexivity|split; reflexivity]. } { simpl; lia. }
  destruct (um_segments_reassembled um_cfg6 (fun _ => [1; 2; 3]) chains s'
    (pdu_of (segment_pdu first_segment 0 0 [1; 2])) (mk_um_header first_segment um_size6bits 0 0) [1; 2])
    as (s'' & E' & _ & _ & _ & Hall & _).
  { exact H1. } { exact H2. } { exact H3. } { reflexivity. } { discriminate. }
  { vm_compute in E. injection E as <-. reflexivity. }
  { split; [simpl; lia|discriminate|simpl; lia|reflexivity|split; discriminate]. } { simpl; lia. }
  exists s', s''. split; [exact E|]. split; [exact E'|].
  assert (Hd : delivered (um_out s') = []).
  { vm_compute in E. injection E as <-. reflexivity. }
  assert (Hh : held um_cfg6 s' 0 = [mk_segment last_segment 1 [2; 3]]).
  { vm_compute in E. injection E as <-. reflexivity. }
  split; [exact Hd|]. simpl um_sn in Hall. rewrite Hh, Hd in Hall. apply Hall.
  - intros i Hi. simpl in Hi. destruct (decide (i < 1)); [right; unfold covers; simpl; lia|].
    left. exists (mk_segment last_segment 1 [2; 3]). split; [apply list_elem_of_here|unfold covers; simpl; lia].
  - reflexivity.
  - simpl. lia.
Defined.

Lemma um_rx_expiry_witness :
  exists s', um_reassembly_timer_expiry um_cfg6 rlc_rx_um_entity_ctor = ok s' /\
    um_rx_next_highest (um_st s') = 0 /\ delivered (um_out s') = [].
Proof.
  destruct (um_ctor_ok um_cfg6) as (I1 & _ & I2).
  destruct (um_rx_expiry um_cfg6 rlc_rx_um_entity_ctor I1 I2) as (s' & E & _ & _ & _ & H1 & _ & H2); [reflexivity|].
  exists s'. split; [exact E|]. split; [exact H1|exact H2].
Defined.
