(* ===== verification/RlcTxUm.v ===== *)
(** * The transmitting RLC UM entity

    [rlc_tx_um_entity] of [lib/rlc/rlc_tx_um_entity.{h,cpp}]: the SDU queue, segmentation into the
    grants of the lower layer, and the buffer state. Log output, PCAP and metrics are left out; the
    sanity checks, which the default build does not evaluate, are theorems ([um_tx_inv]). *)

From S2P Require Import Prelude PdcpSnUtil RlcAmPdu RlcUmPdu RlcSduQueue RlcTxAm.

(** ** Data *)
Record rlc_tx_um_config := mk_tx_um_config {
  txu_sn_field_length : rlc_um_sn_size;
  txu_pdcp_sn_len : pdcp_sn_size;
  txu_queue_size : Z;
  txu_queue_size_bytes : Z
}.

(** The events are those of the AM entity. *)
Record rlc_tx_um_entity := mk_tx_um {
  txu_next : Z;
  txu_queue : sdu_queue;
  txu_sdu : rlc_sdu;
  txu_next_so : Z;
  txu_prev_buffer_state : Z;
  txu_pending_buffer_state : bool;
  txu_out : list tx_event
}.

Definition txu_set_queue s q :=
  mk_tx_um (txu_next s) q (txu_sdu s) (txu_next_so s) (txu_prev_buffer_state s) (txu_pending_buffer_state s) (txu_out s).
Definition txu_set_sdu s sdu so :=
  mk_tx_um (txu_next s) (txu_queue s) sdu so (txu_prev_buffer_state s) (txu_pending_buffer_state s) (txu_out s).
Definition txu_set_next s n :=
  mk_tx_um n (txu_queue s) (txu_sdu s) (txu_next_so s) (txu_prev_buffer_state s) (txu_pending_buffer_state s) (txu_out s).
Definition txu_set_buffer_state s prev pending :=
  mk_tx_um (txu_next s) (txu_queue s) (txu_sdu s) (txu_next_so s) prev pending (txu_out s).
Definition txu_emit s e :=
  mk_tx_um (txu_next s) (txu_queue s) (txu_sdu s) (txu_next_so s) (txu_prev_buffer_state s) (txu_pending_buffer_state s)
    (txu_out s ++ [e]).

Section rlc_tx_um_entity.
Context (cfg : rlc_tx_um_config).

Abbreviation sz := (txu_sn_field_length cfg).
Abbreviation md := (um_mod sz).
Abbreviation head_len_full := rlc_um_pdu_header_size_complete_sdu.
Abbreviation head_len_first := (rlc_um_pdu_header_size_no_so sz).
Abbreviation head_len_not_first := (rlc_um_pdu_header_size_with_so sz).

Definition txu_init : rlc_tx_um_entity := mk_tx_um 0 queue_init no_sdu 0 0 false [].

Definition rlc_tx_um_entity_ctor : outcome rlc_tx_um_entity :=
  _ ← srsran_assert (bool_decide (txu_pdcp_sn_len cfg = pdcp_sn_12bits) || bool_decide (txu_pdcp_sn_len cfg = pdcp_sn_18bits));
  ok txu_init.

(** ** The buffer state *)
Definition txu_get_buffer_state s : Z :=
  let queue_bytes := u32 (n_bytes (txu_queue s) + n_sdus (txu_queue s) * head_len_full) in
  let segment_bytes := if bool_decide (sdu_bytes (txu_sdu s) = []) then 0
                       else u32 (zlen (sdu_bytes (txu_sdu s)) - txu_next_so s + head_len_not_first) in
  u32 (queue_bytes + segment_bytes).

Definition txu_update_mac_buffer_state s : rlc_tx_um_entity :=
  let s := txu_set_buffer_state s (txu_prev_buffer_state s) false in
  let bs := txu_get_buffer_state s in
  let s := if negb ((MAX_DL_PDU_LENGTH <? bs) && (MAX_DL_PDU_LENGTH <? txu_prev_buffer_state s))
           then txu_emit s (ev_buffer_state bs) else s in
  txu_set_buffer_state s bs (txu_pending_buffer_state s).

Definition txu_handle_changed_buffer_state (env : tx_env) s : rlc_tx_um_entity :=
  if negb (txu_pending_buffer_state s) then
    let s := txu_set_buffer_state s (txu_prev_buffer_state s) true in
    if pcell_defer_ok env then txu_emit s ev_defer_buffer_state else s
  else s.

(** ** The upper layer *)

(** [is_retx] is ignored. *)
Definition txu_handle_sdu (env : tx_env) s (sdu_buf : bytes) (is_retx : bool) : outcome rlc_tx_um_entity :=
  pdcp_sn ← get_pdcp_sn sdu_buf (txu_pdcp_sn_len cfg) false;
  let '(written, q) := write (txu_queue_size cfg) (txu_queue_size_bytes cfg) (txu_queue s) (mk_sdu sdu_buf false pdcp_sn) in
  let s := txu_set_queue s q in
  ok (if written : bool then txu_handle_changed_buffer_state env s else s).

Definition txu_discard_sdu (env : tx_env) s (pdcp_sn : Z) : rlc_tx_um_entity :=
  let '(discarded, q) := try_discard (txu_queue_size cfg) (txu_queue s) pdcp_sn in
  let s := txu_set_queue s q in
  if discarded : bool then txu_handle_changed_buffer_state env s else s.

(** ** The lower layer *)

(** [None] is a return of [false]. *)
Definition get_si_and_expected_header_size (so sdu_len grant_len : Z) : option (rlc_si_field * Z) :=
  if so =? 0 then
    if sdu_len <=? u32 (grant_len - head_len_full) then Some (full_sdu, head_len_full)
    else if grant_len <=? head_len_first then None
    else Some (first_segment, head_len_first)
  else if grant_len <=? head_len_not_first then None
  else if u32 (sdu_len - so) <=? u32 (grant_len - head_len_not_first) then Some (last_segment, head_len_not_first)
  else Some (middle_segment, head_len_not_first).

(** The SDU to transmit: the one under segmentation, or a new one from the queue. The queue pops into the member [sdu], and a
    read that fails leaves there the last discarded SDU it has popped. *)
Definition txu_fetch_sdu s : bool * rlc_tx_um_entity :=
  if bool_decide (sdu_bytes (txu_sdu s) = []) then
    let '(success, sdu, q) := read_into (txu_queue_size cfg) (txu_sdu s) (txu_queue s) in
    let s := txu_set_sdu (txu_set_queue s q) sdu (txu_next_so s) in
    if success : bool then
      (true, match sdu_pdcp_sn sdu with
             | Some sn => txu_emit s (ev_transmitted_sdu sn (txu_queue_size_bytes cfg))
             | None => s
             end)
    else (false, s)
  else (true, s).

(** The PDU of the SDU at hand, and the progress it makes. *)
Definition txu_build_pdu (grant_len : Z) s : bytes * rlc_tx_um_entity :=
  let sdu := sdu_bytes (txu_sdu s) in
  match get_si_and_expected_header_size (txu_next_so s) (zlen sdu) grant_len with
  | None => ([], s)
  | Some (si, _) =>
      let header := mk_um_header si sz (txu_next s) (u16 (txu_next_so s)) in
      let packed := rlc_um_write_data_pdu_header header in
      let space := u32 (grant_len - zlen packed) in
      let payload_len := if u32 (zlen sdu - txu_next_so s) <=? space then u32 (zlen sdu - txu_next_so s) else space in
      let payload := copy_segments (slice sdu (txu_next_so s) payload_len) (grant_len - zlen packed) in
      if (zlen payload =? 0) || negb (zlen payload =? payload_len) then ([], s)
      else
        let s := if bool_decide (si = full_sdu) || bool_decide (si = last_segment)
                 then txu_set_sdu s (mk_sdu [] (sdu_is_retx (txu_sdu s)) (sdu_pdcp_sn (txu_sdu s))) 0
                 else txu_set_sdu s (txu_sdu s) (u32 (txu_next_so s + payload_len)) in
        let s := if bool_decide (si = last_segment) then txu_set_next s (sn_next md (txu_next s)) else s in
        (packed ++ payload, s)
  end.

Definition txu_pull_pdu (grant_len : Z) s : bytes * rlc_tx_um_entity :=
  if grant_len <=? head_len_full then ([], s)
  else
    let '(available, s) := txu_fetch_sdu s in
    if available : bool then txu_build_pdu grant_len s else ([], s).

End rlc_tx_um_entity.
