(* ===== verification/RlcTxUmProps.v ===== *)
(** * Properties of the transmitting UM entity

    The invariant of the SDU under segmentation and the queue, what a grant takes of them, and that
    no event fails. The SDUs that the entity still has to send, in order, are [txu_todo]; an SDU that was discarded joins them when a
    pull finds nothing else ([txu_revived]). *)

From S2P Require Import Prelude BitEncoding PdcpSnUtil RlcAmPdu RlcUmPdu RlcSegments RlcSduQueue RlcTxAm RlcTxUm.

(** SDUs are not empty, and their bytes are addressable by the 16 bits of SO. *)
Definition um_sdu_ok (d : bytes) : Prop := 0 < zlen d < 2 ^ 16.

Section tx_um.
Context (cfg : rlc_tx_um_config).
Context (Hqueue : 0 < txu_queue_size cfg < 2 ^ 16) (Hbytes : 0 <= txu_queue_size_bytes cfg < 2 ^ 32).

Local Abbreviation sz := (txu_sn_field_length cfg).
Local Abbreviation md := (um_mod sz).
Local Abbreviation queued s := (content (txu_queue_size cfg) (txu_queue s)).
Local Abbreviation current s := (sdu_bytes (txu_sdu s)).

Implicit Types (s : rlc_tx_um_entity).

(** [next_so == 0] when a new SDU is read: the sanity check of [pull_pdu]. *)
Record txu_inv s : Prop := {
  ui_next : 0 <= txu_next s < md;
  ui_queue : queue_inv (txu_queue_size cfg) (txu_queue s);
  ui_sdus : Forall (fun x => um_sdu_ok (sdu_bytes x)) (q_items (txu_queue s));
  ui_sdu : current s = [] /\ txu_next_so s = 0 \/ um_sdu_ok (current s) /\ 0 <= txu_next_so s < zlen (current s)
}.

Definition txu_todo s : list bytes :=
  (if bool_decide (current s = []) then [] else [current s]) ++ (sdu_bytes <$> queued s).

(** What a pull that finds nothing to send leaves in the member [sdu]: the next pull transmits it. *)
Definition txu_revived s : list bytes :=
  if bool_decide (txu_todo s = []) then sdu_bytes <$> discarded_tail (txu_queue_size cfg) (txu_queue s) else [].

Lemma queued_sdus s : txu_inv s -> Forall (fun x => um_sdu_ok (sdu_bytes x)) (queued s).
Proof.
  intros H. pose proof (ui_sdus _ H) as Hs. rewrite !List.Forall_forall in *. intros x [Hx _]%List.filter_In. by apply Hs.
Qed.

Lemma txu_init_inv : txu_inv txu_init.
Proof.
  split; [| |done|by left].
  - cbn. pose proof (um_mod_6). pose proof um_mod_12. destruct sz; lia.
  - by apply queue_init_inv.
Qed.

(** ** One PDU *)

(** The SI of [n] bytes from [so] on, of an SDU of [len] bytes. *)
Definition um_si_of (so n len : Z) : rlc_si_field :=
  if so =? 0 then (if n =? len then full_sdu else first_segment)
  else if so + n =? len then last_segment else middle_segment.

(** A PDU with the bytes of the SDU [d] from [so] on, as the receiver reads it. *)
Record um_pdu_sent (d : bytes) (so sn grant : Z) (pdu : bytes) (h : rlc_um_pdu_header) (payload : bytes) : Prop := {
  us_read : rlc_um_read_data_pdu_header pdu sz = Some h;
  us_bytes : exists packed, pdu = packed ++ payload /\ zlen packed = rlc_um_nr_packed_length h;
  us_fits : zlen pdu <= grant;
  us_payload : payload = slice d so (zlen payload);
  us_some : 0 < zlen payload /\ so + zlen payload <= zlen d;
  us_uses : so + zlen payload = zlen d \/ grant - 4 <= zlen payload;
  us_si : um_si h = um_si_of so (zlen payload) (zlen d);
  us_sn : um_si h <> full_sdu -> um_sn h = sn /\ um_so h = so
}.

(** The entity after a PDU with [n] bytes. *)
Record um_progress s (n : Z) s' : Prop := {
  pg_queue : txu_queue s' = txu_queue s;
  pg_sdu : if txu_next_so s + n =? zlen (current s) then current s' = [] /\ txu_next_so s' = 0
           else current s' = current s /\ txu_next_so s' = txu_next_so s + n;
  pg_next : txu_next s' = if bool_decide (um_si_of (txu_next_so s) n (zlen (current s)) = last_segment)
                          then sn_next md (txu_next s) else txu_next s
}.

Definition um_header_of s (si : rlc_si_field) : rlc_um_pdu_header := mk_um_header si sz (txu_next s) (txu_next_so s).

(** What the receiver makes of the header: a complete SDU carries no SN. *)
Lemma um_header_read s si payload :
  txu_inv s -> current s <> [] -> si_has_so si = negb (txu_next_so s =? 0) -> (si = full_sdu -> txu_next_so s = 0) ->
  exists h, rlc_um_read_data_pdu_header (rlc_um_write_data_pdu_header (um_header_of s si) ++ payload) sz = Some h /\
    um_si h = si /\ (si <> full_sdu -> um_sn h = txu_next s /\ um_so h = txu_next_so s) /\
    zlen (rlc_um_write_data_pdu_header (um_header_of s si)) = rlc_um_nr_packed_length h /\
    rlc_um_nr_packed_length h =
      match si with
      | full_sdu => 1
      | first_segment => rlc_um_pdu_header_size_no_so sz
      | _ => rlc_um_pdu_header_size_with_so sz
      end.
Proof.
  intros [Hn _ _ [[? _]|[Hd Hso]]] Hne Hsi Hfull; [done|]. unfold um_sdu_ok in Hd.
  set (h := if bool_decide (si = full_sdu) then mk_um_header full_sdu sz 0 0 else um_header_of s si).
  assert (Hw : rlc_um_write_data_pdu_header (um_header_of s si) = rlc_um_write_data_pdu_header h).
  { unfold h. destruct (decide (si = full_sdu)) as [->|]; [by rewrite bool_decide_true|by rewrite bool_decide_false]. }
  assert (Hwf : um_header_wf h).
  { unfold h, um_header_of. destruct (decide (si = full_sdu)) as [->|].
    - rewrite bool_decide_true by done. split; simpl; try done; lia.
    - rewrite bool_decide_false by done. split; simpl; try done; lia. }
  assert (Hsz : um_sn_size h = sz) by (unfold h; by destruct (bool_decide _)).
  exists h. rewrite Hw. split_and!.
  - rewrite <- Hsz. by apply read_written_um_header.
  - unfold h. destruct (decide (si = full_sdu)) as [->|]; [by rewrite bool_decide_true|by rewrite bool_decide_false].
  - intros Hnf. unfold h. by rewrite bool_decide_false.
  - by apply write_um_header_length.
  - unfold rlc_um_nr_packed_length, h, um_header_of. destruct si; simpl in *; rewrite <- ?Hsi; simpl; by destruct sz.
Qed.

(** The choice of the SI. *)
Lemma si_and_header_size s grant :
  txu_inv s -> current s <> [] -> 1 < grant < 2 ^ 32 ->
  let so := txu_next_so s in let len := zlen (current s) in
  match get_si_and_expected_header_size cfg so len grant with
  | None => grant <= 4
  | Some (si, hl) =>
      hl < grant /\ hl = match si with
                         | full_sdu => 1
                         | first_segment => rlc_um_pdu_header_size_no_so sz
                         | _ => rlc_um_pdu_header_size_with_so sz
                         end /\ hl <= 4 /\
      si = um_si_of so (Z.min (len - so) (grant - hl)) len
  end.
Proof.
  intros [_ _ _ [[? _]|[Hd Hso]]] Hne Hg; [done|]. cbv zeta. unfold um_sdu_ok in Hd.
  unfold get_si_and_expected_header_size, um_si_of, rlc_um_pdu_header_size_complete_sdu, u32.
  assert (Hs : rlc_um_pdu_header_size_no_so sz <= 2 /\ 1 <= rlc_um_pdu_header_size_no_so sz /\
    rlc_um_pdu_header_size_with_so sz <= 4) by (destruct sz; simpl; lia).
  destruct (Z.eqb_spec (txu_next_so s) 0) as [E|E].
  - rewrite Z.mod_small by lia. destruct (Z.leb_spec (zlen (current s)) (grant - 1)).
    + split_and!; try done; try lia. by rewrite (proj2 (Z.eqb_eq _ _)) by lia.
    + destruct (Z.leb_spec grant (rlc_um_pdu_header_size_no_so sz)); [lia|].
      split_and!; try done; try lia. by rewrite (proj2 (Z.eqb_neq _ _)) by lia.
  - destruct (Z.leb_spec grant (rlc_um_pdu_header_size_with_so sz)); [lia|].
    rewrite !Z.mod_small by (destruct sz; simpl in *; lia).
    destruct (Z.leb_spec (zlen (current s) - txu_next_so s) (grant - rlc_um_pdu_header_size_with_so sz)).
    + split_and!; try done; try lia. by rewrite (proj2 (Z.eqb_eq _ _)) by lia.
    + split_and!; try done; try lia. by rewrite (proj2 (Z.eqb_neq _ _)) by lia.
Qed.

Lemma um_si_has_so so n len :
  0 <= so -> 0 < n -> so + n <= len ->
  si_has_so (um_si_of so n len) = negb (so =? 0) /\ (um_si_of so n len = full_sdu <-> so = 0 /\ n = len) /\
  (um_si_of so n len = last_segment <-> so <> 0 /\ so + n = len).
Proof. intros. unfold um_si_of. zcases; simpl; split_and!; try done; split; try done; lia. Qed.

Lemma txu_build_ok s grant :
  txu_inv s -> current s <> [] -> 1 < grant < 2 ^ 32 ->
  exists pdu s', txu_build_pdu cfg grant s = (pdu, s') /\ txu_inv s' /\
    (pdu = [] /\ s' = s /\ grant <= 4 \/
     exists h payload, um_pdu_sent (current s) (txu_next_so s) (txu_next s) grant pdu h payload /\ um_progress s (zlen payload) s').
Proof.
  intros H Hne Hg. pose proof (si_and_header_size s grant H Hne Hg) as Hsi. cbv zeta in Hsi. unfold txu_build_pdu.
  pose proof H as [Hn Hq Hsd [[? _]|[Hd Hso]]]; [done|]. unfold um_sdu_ok in Hd.
  destruct (get_si_and_expected_header_size cfg _ _ grant) as [[si hl]|]; [|eexists _, _; split; [reflexivity|]; auto].
  destruct Hsi as (Hlt & Hhl & Hhl4 & Hsi). set (n := Z.min (zlen (current s) - txu_next_so s) (grant - hl)) in *.
  destruct (um_si_has_so (txu_next_so s) n (zlen (current s))) as (I1 & I2 & I3); [lia..|]. rewrite <- Hsi in I1, I2, I3.
  set (payload := slice (current s) (txu_next_so s) n).
  assert (Hlen : zlen payload = n) by (apply slice_length; lia).
  destruct (um_header_read s si payload H Hne I1) as (h & R1 & R2 & R3 & R4 & R5); [intros Hf; by apply I2 in Hf as [? _]|].
  assert (Hpk : zlen (rlc_um_write_data_pdu_header (um_header_of s si)) = hl) by (rewrite R4, R5; by destruct si).
  cbv zeta. assert (H16 : u16 (txu_next_so s) = txu_next_so s) by (unfold u16; rewrite Z.mod_small; lia). rewrite !H16. change (mk_um_header si sz (txu_next s) (txu_next_so s)) with (um_header_of s si).
  rewrite !Hpk. unfold u32. rewrite !(Z.mod_small (zlen (current s) - txu_next_so s)), !(Z.mod_small (grant - hl)) by (destruct sz; simpl in *; lia).
  assert (Hpl : (if zlen (current s) - txu_next_so s <=? grant - hl then zlen (current s) - txu_next_so s else grant - hl) = n)
    by (unfold n; zcases; lia).
  rewrite Hpl. fold payload. unfold copy_segments. rewrite take_ge by lia. rewrite Hlen.
  rewrite (proj2 (Z.eqb_neq n 0)), (Z.eqb_refl n) by lia. cbn [negb orb].
  assert (Hlast : bool_decide (si = full_sdu) || bool_decide (si = last_segment) = (txu_next_so s + n =? zlen (current s))).
  { destruct (Z.eqb_spec (txu_next_so s + n) (zlen (current s))) as [E|E].
    - destruct (decide (txu_next_so s = 0)); [rewrite bool_decide_true by (apply I2; lia); done|].
      rewrite (bool_decide_true (si = last_segment)) by (by apply I3). apply orb_true_r.
    - rewrite !bool_decide_false; [done| |]; [intros [_ ?]%I3; lia|intros [? ?]%I2; lia]. }
  rewrite Hlast. eexists _, _. split; [reflexivity|].
  match goal with |- txu_inv ?s' /\ _ => set (s1 := s') end.
  assert (Hprog : um_progress s n s1).
  { unfold s1. rewrite (Z.mod_small (txu_next_so s + n)) by lia. rewrite Hsi.
    split; destruct (bool_decide (um_si_of _ _ _ = last_segment)), (_ =? zlen _); simpl; done. }
  split.
  - destruct Hprog as [P1 P2 P3]. split.
    + rewrite P3. destruct (bool_decide (um_si_of _ _ _ = last_segment)); [apply sn_next_range|done].
    + by rewrite P1.
    + by rewrite P1.
    + destruct (Z.eqb_spec (txu_next_so s + n) (zlen (current s))); destruct P2 as [-> ->]; [by left|right]. split; [done|lia].
  - right. exists h, payload. rewrite Hlen. split; [|done]. split; rewrite ?Hlen.
    + done.
    + exists (rlc_um_write_data_pdu_header (um_header_of s si)). by rewrite R4.
    + rewrite length_app, Nat2Z.inj_add, Hpk, Hlen. lia.
    + done.
    + lia.
    + lia.
    + by rewrite R2.
    + rewrite R2. done.
Qed.

(** The SDU at hand: the one under segmentation, the first of the queue, or a discarded one that is left behind. *)
Lemma txu_fetch_ok s :
  txu_inv s ->
  exists s', txu_fetch_sdu cfg s = (negb (bool_decide (txu_todo s = [])), s') /\ txu_inv s' /\
    txu_todo s' = txu_todo s ++ txu_revived s /\ txu_next s' = txu_next s /\ txu_next_so s' = txu_next_so s /\
    (txu_todo s <> [] -> current s' <> [] /\ head (txu_todo s) = Some (current s')) /\
    popped_from (txu_queue_size cfg) (txu_queue s) (txu_queue s') /\ (txu_todo s = [] -> q_items (txu_queue s') = []).
Proof.
  intros H. pose proof H as [Hn Hq Hsd Hc]. pose proof (queued_sdus _ H) as Hqs. unfold txu_fetch_sdu, txu_revived.
  destruct (decide (current s = [])) as [E|E].
  - assert (Ht : txu_todo s = sdu_bytes <$> queued s) by (unfold txu_todo; by rewrite bool_decide_true).
    assert (Hso : txu_next_so s = 0) by (destruct Hc as [[_ ?]|[[? _] _]]; [done|rewrite E in *; simpl in *; lia]).
    rewrite (bool_decide_true (current s = [])), Ht by done.
    destruct (read_into_spec (txu_queue_size cfg) Hqueue (txu_sdu s) (txu_queue s) Hq) as (q & HI & Hp & HR).
    assert (Hsd' : Forall (fun x => um_sdu_ok (sdu_bytes x)) (q_items q)).
    { destruct Hp as (popped & P1 & _). rewrite P1 in Hsd. by apply Forall_app in Hsd as [_ ?]. }
    destruct (queued s) as [|sdu l] eqn:El; simpl.
    + destruct HR as (-> & HC & Hnil). eexists. split; [reflexivity|]. cbn [txu_queue txu_sdu txu_set_queue txu_set_sdu txu_next txu_next_so].
      assert (Hd : discarded_tail (txu_queue_size cfg) (txu_queue s) = [] \/
        exists x, discarded_tail (txu_queue_size cfg) (txu_queue s) = [x] /\ um_sdu_ok (sdu_bytes x)).
      { unfold discarded_tail. destruct (last _) as [x|] eqn:Ex; [|by left]. destruct (is_valid _ _ x); [by left|right]. exists x. split; [done|].
        rewrite Forall_forall in Hsd. by apply Hsd, last_Some_elem_of. }
      unfold txu_todo. cbn [txu_queue txu_sdu txu_set_queue txu_set_sdu]. rewrite HC.
      destruct Hd as [->|(x & -> & Hx)]; cbn [head default].
      * rewrite bool_decide_true by done. split; [|done]. split; done || by left.
      * assert (sdu_bytes x <> []) by (intros Hz; unfold um_sdu_ok in Hx; rewrite Hz in Hx; simpl in Hx; lia).
        rewrite bool_decide_false by done. split; [|done]. split; try done. cbn. rewrite Hso. right. unfold um_sdu_ok in *. split; [done|lia].
    + destruct HR as (-> & HC). apply Forall_cons in Hqs as [Hs _]. set (s1 := match sdu_pdcp_sn sdu with Some _ => _ | None => _ end).
      assert (Hs1 : txu_next s1 = txu_next s /\ txu_queue s1 = q /\ txu_sdu s1 = sdu /\ txu_next_so s1 = txu_next_so s)
        by (unfold s1; by destruct (sdu_pdcp_sn sdu)).
      destruct Hs1 as (E1 & E2 & E3 & E4). exists s1. split; [done|]. unfold txu_todo. rewrite E1, E2, E3, E4, HC.
      assert (Hne : sdu_bytes sdu <> []) by (intros Hz; unfold um_sdu_ok in Hs; rewrite Hz in Hs; simpl in Hs; lia).
      rewrite bool_decide_false by done. split_and!; try done.
      * split; rewrite ?E1, ?E2, ?E3, ?E4; try done. right. unfold um_sdu_ok in *. split; [done|lia].
      * by rewrite app_nil_r.
  - assert (Hne : txu_todo s <> []) by (unfold txu_todo; by rewrite bool_decide_false).
    rewrite (bool_decide_false (current s = [])), (bool_decide_false (txu_todo s = [])) by done. eexists. split; [reflexivity|].
    rewrite app_nil_r. split_and!; try done; [|by exists []]. intros _. unfold txu_todo. by rewrite bool_decide_false.
Qed.

(** What a grant takes: nothing, or bytes of the first SDU to send. A grant that has room for an SDU and finds none brings back the
    discarded SDU at the end of the queue, if there is one. *)
Definition um_pulled s (grant : Z) (pdu : bytes) s' : Prop :=
  pdu = [] /\ (txu_todo s = [] \/ grant <= 4) /\
    txu_todo s' = txu_todo s ++ (if grant <=? 1 then [] else txu_revived s) /\
    txu_next s' = txu_next s /\ txu_next_so s' = txu_next_so s \/
  exists d rest h payload, let so := txu_next_so s in
    txu_todo s = d :: rest /\ um_sdu_ok d /\ 0 <= so < zlen d /\
    um_pdu_sent d so (txu_next s) grant pdu h payload /\
    (if so + zlen payload =? zlen d then txu_todo s' = rest /\ txu_next_so s' = 0
     else txu_todo s' = d :: rest /\ txu_next_so s' = so + zlen payload) /\
    txu_next s' = if bool_decide (um_si h = last_segment) then sn_next md (txu_next s) else txu_next s.

Lemma txu_pull_ok s grant :
  txu_inv s -> 0 <= grant < 2 ^ 32 ->
  exists pdu s', txu_pull_pdu cfg grant s = (pdu, s') /\ txu_inv s' /\ um_pulled s grant pdu s' /\
    popped_from (txu_queue_size cfg) (txu_queue s) (txu_queue s') /\ (1 < grant -> txu_todo s = [] -> q_items (txu_queue s') = []).
Proof.
  intros H Hg. unfold um_pulled, txu_pull_pdu, rlc_um_pdu_header_size_complete_sdu.
  destruct (Z.leb_spec grant 1).
  { eexists _, _. split; [reflexivity|]. split; [done|]. split; [|split; [by exists []|lia]]. left. rewrite app_nil_r. split_and!; try done. right. lia. }
  destruct (txu_fetch_ok s H) as (s1 & -> & H1 & T1 & N1 & O1 & F1 & Hp & Hnil).
  destruct (decide (txu_todo s = [])) as [E|E].
  { rewrite bool_decide_true by done. eexists _, _. split; [reflexivity|]. split; [done|]. split; [|by auto]. left. split_and!; auto. }
  assert (Hr : txu_revived s = []) by (unfold txu_revived; by rewrite bool_decide_false). rewrite Hr, app_nil_r in *.
  rewrite bool_decide_false by done. cbn [negb]. destruct (F1 E) as [Hne Hhd].
  destruct (txu_build_ok s1 grant H1 Hne) as (pdu & s' & Eb & H' & [(-> & -> & ?)|(h & payload & Hs & [P1 P2 P3])]); [lia| |].
  - eexists _, _. split; [exact Eb|]. split; [done|]. split; [|by split]. left. split_and!; auto.
  - exists pdu, s'. split; [exact Eb|]. split; [done|]. split; [right|by rewrite P1; split]. rewrite N1, O1 in *.
    destruct (txu_todo s) as [|d rest] eqn:Etodo; [done|]. simpl in Hhd. injection Hhd as Hd. subst d.
    exists (current s1), rest, h, payload. split; [done|].
    destruct (ui_sdu _ H1) as [[? _]|[Hok Hso]]; [done|]. rewrite O1 in Hso. split; [done|]. split; [done|]. split; [done|].
    assert (Hrest : sdu_bytes <$> queued s1 = rest).
    { unfold txu_todo in T1 at 1. rewrite bool_decide_false in T1 by done. simpl in T1. by injection T1. }
    split; [|by rewrite P3, (us_si _ _ _ _ _ _ _ Hs)].
    unfold txu_todo. rewrite P1, Hrest. destruct (_ =? _); destruct P2 as [-> ->].
    + by rewrite bool_decide_true.
    + by rewrite bool_decide_false.
Qed.

(** ** The upper layer *)

(** Whether an SDU is taken into the queue. *)
Definition txu_accepts s (buf : bytes) : bool :=
  match get_pdcp_sn buf (txu_pdcp_sn_len cfg) false with
  | ok sn => write_ok (txu_queue_size cfg) (txu_queue_size_bytes cfg) (txu_queue s) (mk_sdu buf false sn)
  | fail _ => false
  end.

(** Apart from the buffer state and the events. *)
Definition txu_same s s' : Prop :=
  txu_next s' = txu_next s /\ txu_queue s' = txu_queue s /\ txu_sdu s' = txu_sdu s /\ txu_next_so s' = txu_next_so s.

Lemma txu_same_ok s s' : txu_same s s' -> (txu_inv s -> txu_inv s') /\ txu_todo s' = txu_todo s.
Proof.
  intros (E1 & E2 & E3 & E4). unfold txu_todo. rewrite E2, E3. split; [|done].
  intros []. split; by rewrite ?E1, ?E2, ?E3, ?E4.
Qed.

Lemma txu_changed_same env s : txu_same s (txu_handle_changed_buffer_state env s).
Proof. unfold txu_handle_changed_buffer_state. destruct (negb _), (pcell_defer_ok env); done. Qed.

Lemma txu_update_same s : txu_same s (txu_update_mac_buffer_state cfg s).
Proof. unfold txu_update_mac_buffer_state. by destruct (negb _). Qed.

Lemma txu_queue_changed s q :
  txu_inv s -> queue_inv (txu_queue_size cfg) q ->
  Forall (fun x => um_sdu_ok (sdu_bytes x)) (q_items q) -> txu_inv (txu_set_queue s q).
Proof. intros []. by split. Qed.

Lemma txu_handle_sdu_ok env s buf r :
  txu_inv s -> is_bytes buf -> um_sdu_ok buf ->
  exists s', txu_handle_sdu cfg env s buf r = ok s' /\ txu_inv s' /\
    txu_todo s' = txu_todo s ++ (if txu_accepts s buf then [buf] else []) /\
    txu_next s' = txu_next s /\ txu_next_so s' = txu_next_so s /\
    exists sdu, queued s' = queued s ++ (if txu_accepts s buf then [sdu] else []) /\ sdu_bytes sdu = buf /\
      q_items (txu_queue s') = q_items (txu_queue s) ++ (if txu_accepts s buf then [sdu] else []).
Proof.
  intros H Hb Hok. unfold txu_handle_sdu, txu_accepts.
  destruct (get_pdcp_sn_ok buf (txu_pdcp_sn_len cfg) false Hb) as (o & -> & Ho). rewrite bind_ok. cbv beta match.
  set (sdu := mk_sdu buf false o). assert (Hsn : sn_ok sdu).
  { unfold sn_ok, sdu, STATE_DISCARDED. simpl. destruct o as [sn|]; [specialize (Ho sn eq_refl); lia|done]. }
  pose proof (write_items (txu_queue_size cfg) (txu_queue_size_bytes cfg) (txu_queue s) sdu) as Hi.
  destruct (write_ok (txu_queue_size cfg) (txu_queue_size_bytes cfg) (txu_queue s) sdu) eqn:Hw.
  - rewrite (write_accepted _ _ _ _ Hw) in *. cbn [fst snd] in Hi. set (s1 := txu_set_queue s _).
    assert (HC : content (txu_queue_size cfg) (txu_queue s1) = queued s ++ [sdu]).
    { apply pushed_content; [|apply (ui_queue _ H)].
      unfold write_ok in Hw. by apply andb_prop in Hw as [[_ ?]%andb_prop _]. }
    destruct (txu_changed_same env s1) as (C1 & C2 & C3 & C4).
    destruct (txu_same_ok s1 _ (txu_changed_same env s1)) as [Hk Ht]. eexists. split; [reflexivity|].
    split; [|split].
    + apply Hk, txu_queue_changed; [done| |].
      * apply (pushed_inv _ (txu_queue_size_bytes cfg)); try done. apply (ui_queue _ H).
      * rewrite Hi. apply Forall_app. split; [apply (ui_sdus _ H)|]. by constructor.
    + rewrite Ht. unfold txu_todo. rewrite HC, fmap_app, app_assoc. done.
    + rewrite C1, C4, C2. split; [done|]. split; [done|]. by exists sdu.
  - destruct (write_refused _ _ _ _ Hw (ui_queue _ H)) as (q & Ew & HC & HI). rewrite Ew in *. cbn [fst snd] in Hi. rewrite app_nil_r in Hi.
    eexists. split; [reflexivity|]. split; [|split; [|split_and!; try done]]; [|unfold txu_todo; simpl; by rewrite HC, app_nil_r|].
    + apply txu_queue_changed; [done..|]. rewrite Hi. apply (ui_sdus _ H).
    + exists sdu. cbn [txu_queue txu_set_queue]. by rewrite HC, Hi, !app_nil_r.
Qed.

Lemma txu_discard_ok env s sn :
  txu_inv s -> 0 <= sn < STATE_DISCARDED ->
  txu_inv (txu_discard_sdu cfg env s sn) /\
  txu_todo (txu_discard_sdu cfg env s sn) =
    (if bool_decide (current s = []) then [] else [current s]) ++
    (sdu_bytes <$> List.filter (fun x => negb (holds_sn sn x)) (queued s)) /\
  txu_next (txu_discard_sdu cfg env s sn) = txu_next s /\
  txu_next_so (txu_discard_sdu cfg env s sn) = txu_next_so s /\
  q_items (txu_queue (txu_discard_sdu cfg env s sn)) = q_items (txu_queue s) /\
  queued (txu_discard_sdu cfg env s sn) = List.filter (fun x => negb (holds_sn sn x)) (queued s).
Proof.
  intros H Hsn. unfold txu_discard_sdu. pose proof (try_discard_items (txu_queue_size cfg) (txu_queue s) sn) as Hi.
  destruct (try_discard_spec (txu_queue_size cfg) (txu_queue_size_bytes cfg) Hqueue Hbytes (txu_queue s) sn Hsn (ui_queue _ H)) as (q & Ed & HC & HI).
  rewrite Ed in *. cbn [snd] in Hi. set (s1 := txu_set_queue s q).
  assert (H1 : txu_inv s1) by (apply txu_queue_changed; [done..|]; rewrite Hi; apply (ui_sdus _ H)).
  assert (T1 : txu_todo s1 = (if bool_decide (current s = []) then [] else [current s]) ++
    (sdu_bytes <$> List.filter (fun x => negb (holds_sn sn x)) (queued s))) by (unfold txu_todo; simpl; by rewrite HC).
  destruct (existsb _ _); [|done]. destruct (txu_changed_same env s1) as (C1 & C2 & C3 & C4).
  destruct (txu_same_ok s1 _ (txu_changed_same env s1)) as [Hk Ht]. rewrite Ht, T1, C1, C2, C4.
  split_and!; try done. by apply Hk.
Qed.

(** The buffer state. *)
Lemma txu_buffer_state s :
  txu_inv s ->
  txu_get_buffer_state cfg s =
  u32 (total_bytes (queued s) + zlen (queued s) +
       (if bool_decide (current s = []) then 0
        else zlen (current s) - txu_next_so s + rlc_um_pdu_header_size_with_so sz)).
Proof.
  intros H. destruct (queue_counters _ _ Hqueue Hbytes _ (ui_queue _ H)) as [E1 E2].
  unfold txu_get_buffer_state. rewrite E1, E2. unfold rlc_um_pdu_header_size_complete_sdu, u32. rewrite Z.mul_1_r.
  destruct (bool_decide _); rewrite ?Zplus_mod_idemp_l, ?Zplus_mod_idemp_r; done.
Qed.
End tx_um.

(** ** The life of an entity *)
Inductive um_tx_event :=
  | um_tx_sdu (env : tx_env) (buf : bytes) (is_retx : bool)
  | um_tx_discard (env : tx_env) (pdcp_sn : Z)
  | um_tx_pull (grant : Z)
  | um_tx_update.

Section properties.
Context (cfg : rlc_tx_um_config).

Local Abbreviation sz := (txu_sn_field_length cfg).

Definition um_tx_step (e : um_tx_event) (s : rlc_tx_um_entity) : outcome rlc_tx_um_entity :=
  match e with
  | um_tx_sdu env buf r => txu_handle_sdu cfg env s buf r
  | um_tx_discard env sn => ok (txu_discard_sdu cfg env s sn)
  | um_tx_pull grant => ok (txu_pull_pdu cfg grant s).2
  | um_tx_update => ok (txu_update_mac_buffer_state cfg s)
  end.

Fixpoint um_tx_run (es : list um_tx_event) (s : rlc_tx_um_entity) : outcome rlc_tx_um_entity :=
  match es with
  | [] => ok s
  | e :: es => s ← um_tx_step e s; um_tx_run es s
  end.

(** SDUs as PDCP produces them, SNs of at most 18 bits, grants as [uint32_t]. *)
Definition um_tx_event_ok (e : um_tx_event) : Prop :=
  match e with
  | um_tx_sdu _ buf _ => is_bytes buf /\ um_sdu_ok buf
  | um_tx_discard _ sn => 0 <= sn < STATE_DISCARDED
  | um_tx_pull grant => 0 <= grant < 2 ^ 32
  | um_tx_update => True
  end.

Definition um_tx_config_ok : Prop := 0 < txu_queue_size cfg < 2 ^ 16 /\ 0 <= txu_queue_size_bytes cfg < 2 ^ 32.

Lemma um_tx_step_ok e s :
  um_tx_config_ok -> um_tx_event_ok e -> txu_inv cfg s -> exists s', um_tx_step e s = ok s' /\ txu_inv cfg s'.
Proof.
  intros [Hq Hb] He H. destruct e as [env buf r|env sn|grant|]; simpl in *.
  - destruct (txu_handle_sdu_ok cfg Hq Hb env s buf r H) as (s' & E & H' & _); [apply He..|]. eauto.
  - eexists. split; [reflexivity|]. by apply (txu_discard_ok cfg Hq Hb env s sn H).
  - destruct (txu_pull_ok cfg Hq s grant H He) as (pdu & s' & E & H' & _). eexists. split; [reflexivity|]. by rewrite E.
  - eexists. split; [reflexivity|]. by apply (txu_same_ok cfg s), H; apply txu_update_same.
Qed.

(** Whatever SDUs of 1 to 65535 octets, discards and grants the transmitting UM entity sees, no event fails, no SDU is
    under segmentation without bytes left to send, and the buffer state is the number of bytes to
    send: the SDUs in the queue that are not discarded, each with the header of a complete SDU, and what is left of the SDU
    under segmentation with the header of a segment. *)
Theorem um_tx_never_fails es :
  um_tx_config_ok -> Forall um_tx_event_ok es ->
  exists s, um_tx_run es txu_init = ok s /\ txu_inv cfg s /\
    txu_get_buffer_state cfg s =
    u32 (total_bytes (content (txu_queue_size cfg) (txu_queue s)) + zlen (content (txu_queue_size cfg) (txu_queue s)) +
         (if bool_decide (sdu_bytes (txu_sdu s) = []) then 0
          else zlen (sdu_bytes (txu_sdu s)) - txu_next_so s + rlc_um_pdu_header_size_with_so sz)).
Proof.
  intros Hc Hes. enough (G : forall s, txu_inv cfg s -> exists s', um_tx_run es s = ok s' /\ txu_inv cfg s').
  { destruct (G txu_init) as (s & E & H); [by apply txu_init_inv, Hc|]. exists s. split; [done|]. split; [done|].
    apply txu_buffer_state; [apply Hc..|done]. }
  induction Hes as [|e es He _ IH]; intros s H; simpl; [eauto|].
  destruct (um_tx_step_ok e s Hc He H) as (s' & -> & H'). rewrite bind_ok. by apply IH.
Qed.

(** A PDU that is handed to the lower layer fits the grant, and the receiver that reads it finds the
    next bytes of the first SDU to send: as a complete SDU, without SN, when they all fit, and as a
    first, middle or last segment with TX_Next and their offset otherwise. It uses the grant but for
    at most four bytes, unless the SDU ends; TX_Next moves with the last segment. Nothing is sent
    only when there is no SDU or the grant has no room beyond a header; a discarded SDU at the end of the queue is then the next to
    be sent. *)
Theorem um_pulled_pdu_genuine s grant :
  um_tx_config_ok -> txu_inv cfg s -> 0 <= grant < 2 ^ 32 ->
  exists pdu s', txu_pull_pdu cfg grant s = (pdu, s') /\ txu_inv cfg s' /\ um_pulled cfg s grant pdu s'.
Proof. intros [Hq Hb] H Hg. destruct (txu_pull_ok cfg Hq s grant H Hg) as (pdu & s' & ? & ? & ? & _). by exists pdu, s'. Qed.
End properties.

(** ** Witnesses *)
Definition um_tx_cfg6 : rlc_tx_um_config := mk_tx_um_config um_size6bits pdcp_sn_12bits 64 1000.
Definition um_env : tx_env := mk_tx_env true true.

Lemma um_tx_never_fails_witness :
  exists s, um_tx_run um_tx_cfg6 [um_tx_sdu um_env [128; 1; 7; 7; 7] false; um_tx_pull 4] txu_init = ok s /\
    txu_get_buffer_state um_tx_cfg6 s = 5.
Proof.
  destruct (um_tx_never_fails um_tx_cfg6 [um_tx_sdu um_env [128; 1; 7; 7; 7] false; um_tx_pull 4]) as (s & E & _ & Hbs).
  - split; vm_compute; split; congruence.
  - repeat constructor; unfold is_byte; simpl; lia.
  - exists s. split; [exact E|]. vm_compute in E. injection E as <-. reflexivity.
Defined.

(** The first three bytes of an SDU of five. *)
Lemma um_pulled_pdu_genuine_witness :
  exists s s', txu_handle_sdu um_tx_cfg6 um_env txu_init [128; 1; 7; 8; 9] false = ok s /\
    txu_pull_pdu um_tx_cfg6 4 s = ([64; 128; 1; 7], s') /\ txu_next_so s' = 3 /\ um_pulled um_tx_cfg6 s 4 [64; 128; 1; 7] s'.
Proof.
  assert (Hc : um_tx_config_ok um_tx_cfg6) by (split; vm_compute; split; congruence).
  destruct (txu_handle_sdu_ok um_tx_cfg6 (proj1 Hc) (proj2 Hc) um_env txu_init [128; 1; 7; 8; 9] false) as (s & E & Hs & _).
  { apply txu_init_inv, Hc. } { repeat constructor; unfold is_byte; lia. } { split; reflexivity. }
  destruct (um_pulled_pdu_genuine um_tx_cfg6 s 4 Hc Hs) as (pdu & s' & E' & _ & HP).
  { split; [lia|reflexivity]. }
  exists s, s'. split; [exact E|]. assert (Hp : pdu = [64; 128; 1; 7] /\ txu_next_so s' = 3).
  { vm_compute in E. injection E as <-. vm_compute in E'. injection E' as <- <-. split; reflexivity. }
  destruct Hp as [-> Hso]. split; [exact E'|]. split; [exact Hso|exact HP].
Defined.
