(* ===== verification/RlcUmTransfer.v ===== *)
(** * From the transmitting to the receiving UM entity

    The two UM entities of a bearer composed: what the lower layer pulls from the one is handed to
    the other, in order and without loss. The composition is what the entities promise together:
    the SDUs that were accepted come out complete, unchanged and in order, with enough grants
    all of them that are not discarded, and now and then one that is ([um_discarded_sdu_sent]). *)

From S2P Require Import Prelude BitEncoding SduWindow RlcAmPdu RlcUmPdu RlcSegments RlcSduQueue RlcRxAm RlcRxAmInv.
From S2P Require Import RlcRxUm RlcRxUmProps RlcTxAm RlcTxUm RlcTxUmProps.

Record um_link := mk_link {
  lk_tx : rlc_tx_um_entity;
  lk_rx : rlc_rx_um_entity;
  lk_submitted : list bytes       (* the SDUs that the TX entity accepted *)
}.

Inductive um_link_event :=
  | link_sdu (env : tx_env) (buf : bytes)
  | link_discard (env : tx_env) (pdcp_sn : Z)
  | link_pull (grant : Z)
  | link_update
  | link_timer.

Section link.
Context (tx_cfg : rlc_tx_um_config) (rx_cfg : rlc_rx_um_config) (env : chain_env) (min_grant : Z).

Local Abbreviation sz := (um_sn_field_length rx_cfg).
Local Abbreviation md := (um_mod sz).
Local Abbreviation W := (um_window sz).
Local Abbreviation todo l := (txu_todo tx_cfg (lk_tx l)).
Local Abbreviation got l := (delivered (um_out (lk_rx l))).
Local Abbreviation revived l := (txu_revived tx_cfg (lk_tx l)).

Implicit Types (l : um_link).

(** An empty PDU is none. *)
Definition link_step (e : um_link_event) l : outcome um_link :=
  match e with
  | link_sdu tenv buf =>
      tx ← txu_handle_sdu tx_cfg tenv (lk_tx l) buf false;
      ok (mk_link tx (lk_rx l) (lk_submitted l ++ (if txu_accepts tx_cfg (lk_tx l) buf then [buf] else [])))
  | link_discard tenv sn => ok (mk_link (txu_discard_sdu tx_cfg tenv (lk_tx l) sn) (lk_rx l) (lk_submitted l))
  | link_pull grant =>
      let '(pdu, tx) := txu_pull_pdu tx_cfg grant (lk_tx l) in
      rx ← (if bool_decide (pdu = []) then ok (lk_rx l) else um_handle_pdu rx_cfg env (lk_rx l) pdu);
      ok (mk_link tx rx (lk_submitted l))
  | link_update => ok (mk_link (txu_update_mac_buffer_state tx_cfg (lk_tx l)) (lk_rx l) (lk_submitted l))
  | link_timer => rx ← um_rx_step rx_cfg um_rx_timer (lk_rx l); ok (mk_link (lk_tx l) rx (lk_submitted l))
  end.

Fixpoint link_run (es : list um_link_event) l : outcome um_link :=
  match es with
  | [] => ok l
  | e :: es => l ← link_step e l; link_run es l
  end.

Definition link_init : um_link := mk_link txu_init rlc_rx_um_entity_ctor [].

(** The two sides agree on the SN length; a reassembled SDU fits the slices of a chain when every
    grant has [min_grant] bytes, of which at most four are header. *)
Record link_config_ok : Prop := {
  lc_tx : um_tx_config_ok tx_cfg;
  lc_sz : um_sn_field_length rx_cfg = txu_sn_field_length tx_cfg;
  lc_pool : pool_ok env = true;
  lc_grant : 4 < min_grant
}.

Definition reassemblable (d : bytes) : Prop := zlen d <= (min_grant - 4) * Z.of_nat (max_slices env).

Definition link_event_ok (e : um_link_event) : Prop :=
  match e with
  | link_sdu _ buf => is_bytes buf /\ um_sdu_ok buf /\ reassemblable buf
  | link_discard _ sn => 0 <= sn < STATE_DISCARDED
  | link_pull grant => min_grant <= grant < 2 ^ 32
  | _ => True
  end.

(** The receiver holds exactly what was sent of the SDU under segmentation. *)
Record in_transit l (d : bytes) : Prop := {
  it_head : head (todo l) = Some d;
  it_nh : um_rx_next_highest (um_st (lk_rx l)) = sn_next md (txu_next (lk_tx l));
  it_wf : segments_wf (held rx_cfg (lk_rx l) (txu_next (lk_tx l)));
  it_genuine : Forall (genuine d) (held rx_cfg (lk_rx l) (txu_next (lk_tx l)));
  it_covered : forall i, covered (held rx_cfg (lk_rx l) (txu_next (lk_tx l))) i <-> 0 <= i < txu_next_so (lk_tx l);
  it_slices : zlen (held rx_cfg (lk_rx l) (txu_next (lk_tx l))) * (min_grant - 4) <= txu_next_so (lk_tx l)
}.

Record link_inv l : Prop := {
  li_tx : txu_inv tx_cfg (lk_tx l);
  li_rx : um_ok rx_cfg (lk_rx l);
  li_tight : um_tight rx_cfg (lk_rx l);
  li_timer : is_running (um_reassembly_timer (lk_rx l)) = false;
  li_todo : Forall reassemblable (todo l);
  li_next : rx_next_reassembly (um_st (lk_rx l)) = txu_next (lk_tx l);
  li_transit : if txu_next_so (lk_tx l) =? 0 then um_rx_next_highest (um_st (lk_rx l)) = txu_next (lk_tx l)
               else exists d, in_transit l d;
  li_items : Forall (fun x => reassemblable (sdu_bytes x)) (q_items (txu_queue (lk_tx l)))
}.

Lemma link_init_inv : link_config_ok -> link_inv link_init.
Proof.
  intros [Hc _ _ _]. destruct (um_ctor_ok rx_cfg) as (H1 & _ & H2). split; try done. by apply txu_init_inv, Hc.
Qed.

(** ** One PDU on the link *)

Lemma um_data_pdu_sent d so sn grant pdu h payload :
  link_config_ok -> um_pdu_sent tx_cfg d so sn grant pdu h payload ->
  um_data_pdu rx_cfg pdu = Some (h, payload) /\ pdu <> [].
Proof.
  intros Hc [H1 (packed & -> & H2) _ _ [H3 _] _ _ _]. unfold um_data_pdu.
  rewrite (lc_sz Hc), H1. cbv zeta. rewrite length_app, Nat2Z.inj_add, H2.
  rewrite (proj2 (Z.leb_gt _ _)) by lia. split.
  - do 2 f_equal. rewrite <- H2. replace (zlen packed + zlen payload - zlen packed) with (zlen payload) by lia.
    unfold slice. rewrite Nat2Z.id, Nat2Z.id, drop_app_length, take_ge by lia. done.
  - destruct payload; [done|]. by intros [_ ?]%app_eq_nil.
Qed.

Lemma um_sent_genuine d so sn grant pdu h payload :
  um_pdu_sent tx_cfg d so sn grant pdu h payload -> 0 <= so -> um_si h <> full_sdu ->
  um_so h = so /\ genuine d (mk_segment (um_si h) (um_so h) payload) /\ zlen payload < zlen d.
Proof.
  intros [_ _ _ H1 [H2 H3] _ H4 H5] Hso Hnf. destruct (H5 Hnf) as [_ ->].
  destruct (um_si_has_so so (zlen payload) (zlen d)) as (_ & I1 & I2); [lia..|]. rewrite <- H4 in I1, I2.
  split; [done|]. assert (Hlt : zlen payload < zlen d).
  { destruct (decide (so = 0 /\ zlen payload = zlen d)); [by destruct Hnf; apply I1|lia]. }
  split; [|done]. split; simpl; try done.
  - intros ->. simpl in H2. lia.
  - rewrite I2. split; [intros [_ ?]; done|]. intros ?. split; [lia|done].
Qed.

(** A complete SDU is delivered at once, and changes nothing else. *)
Lemma link_full d grant pdu h payload so sn rx :
  link_config_ok -> reassemblable d -> um_pdu_sent tx_cfg d so sn grant pdu h payload -> 0 <= so -> um_si h = full_sdu ->
  exists rx', um_handle_pdu rx_cfg env rx pdu = ok rx' /\ um_st rx' = um_st rx /\ um_rx_window rx' = um_rx_window rx /\
    um_reassembly_timer rx' = um_reassembly_timer rx /\ delivered (um_out rx') = delivered (um_out rx) ++ [d] /\
    so = 0 /\ zlen payload = zlen d.
Proof.
  intros Hc Hr Hs Hso Hfull. destruct (um_data_pdu_sent _ _ _ _ _ _ _ Hc Hs) as [Hd _].
  destruct Hs as [_ _ _ H1 [H2 H3] _ H4 _].
  destruct (um_si_has_so so (zlen payload) (zlen d)) as (_ & I1 & _); [lia..|]. rewrite <- H4 in I1.
  apply I1 in Hfull as HH. destruct HH as [-> Hlen]. assert (Hp : payload = d) by (rewrite H1, Hlen; apply slice_full).
  subst payload. unfold um_data_pdu, um_handle_pdu in *. destruct (rlc_um_read_data_pdu_header pdu sz) as [h'|]; [|done].
  cbv zeta in *. destruct (_ <=? _); [done|]. injection Hd as <- Hsl. rewrite bool_decide_true by done.
  eexists. split; [reflexivity|]. rewrite Hsl. unfold um_handle_full_sdu.
  assert (Hm : (1 <= max_slices env)%nat).
  { unfold reassemblable in Hr. pose proof (lc_grant Hc). destruct (max_slices env); [lia|lia]. }
  rewrite build_chain_ok by (done || apply Hc). split_and!; try done. simpl concat. rewrite app_nil_r.
  cbn [um_out um_emit]. rewrite !delivered_app. simpl. by rewrite !app_nil_r.
Qed.

(** Appending to what is held. *)
Lemma held_append segs so s :
  segments_wf segs -> (forall i, covered segs i <-> 0 <= i < so) -> seg_so s = so -> so < 2 ^ 32 ->
  (store_segment segs s).2 = segs ++ [s].
Proof.
  intros Hwf Hcov Hso Hlt. rewrite store_segment_append; [done| |by rewrite Hso].
  apply List.Forall_forall. intros x Hx%list_elem_of_In. rewrite Hso.
  destruct (segments_from_elem 0 segs x Hwf Hx) as (_ & Hne & _).
  assert (Hl : 0 < zlen (seg_payload x)) by (destruct (seg_payload x); simpl in *; done || lia).
  assert (Hc : forall i, covers x i -> 0 <= i < so) by (intros i Hi; apply Hcov; by exists x).
  pose proof (Hc (seg_so x)). pose proof (Hc (seg_end x - 1)). unfold covers in *. split_and!; try done; lia.
Qed.

(** What is held of the first SDU to send, also before its first segment. *)
Lemma link_held l d rest :
  link_config_ok -> link_inv l -> todo l = d :: rest ->
  let segs := held rx_cfg (lk_rx l) (txu_next (lk_tx l)) in let so := txu_next_so (lk_tx l) in
  segments_wf segs /\ Forall (genuine d) segs /\ (forall i, covered segs i <-> 0 <= i < so) /\
  zlen segs * (min_grant - 4) <= so /\
  um_rx_mod_base rx_cfg (lk_rx l) (txu_next (lk_tx l)) = (if so =? 0 then W else W - 1).
Proof.
  intros Hc [H1 H2 H3 H4 H5 H6 H7 _] Ht segs so. fold so in H7. destruct (Z.eqb_spec so 0) as [E|E].
  - assert (Hp : um_rx_mod_base rx_cfg (lk_rx l) (txu_next (lk_tx l)) = W) by (rewrite <- H7; apply pos_nh).
    assert (Hnil : segs = []).
    { unfold segs, held. destruct (wget W _ _) as [i|] eqn:Ei; [|done].
      destruct (ut_in _ _ H3 (txu_next (lk_tx l))) as [_ ?]; [eauto|lia]. }
    rewrite Hnil, E. split_and!; try done. intros i. split; [by intros ?%covered_nil|lia].
  - destruct H7 as [d' [I1 I2 I3 I4 I5 I6]]. rewrite Ht in I1. injection I1 as <-. split_and!; try done.
    pose proof (um_facts rx_cfg) as (? & ? & _). pose proof (pos_nh rx_cfg (lk_rx l)) as Hn. rewrite I2 in Hn.
    rewrite pos_next_mod in Hn. destruct (Z.eqb_spec (um_rx_mod_base rx_cfg (lk_rx l) (txu_next (lk_tx l)) + 1) md); lia.
Qed.

Definition remaining l : Z := foldr (fun d acc => zlen d + acc) 0 (todo l) - txu_next_so (lk_tx l).

(** A segment on the link. *)
Lemma link_segment l tx' d rest grant pdu h payload :
  link_config_ok -> link_inv l -> txu_inv tx_cfg tx' -> Forall (fun x => reassemblable (sdu_bytes x)) (q_items (txu_queue tx')) ->
  todo l = d :: rest -> um_sdu_ok d ->
  0 <= txu_next_so (lk_tx l) < zlen d -> min_grant <= grant ->
  um_pdu_sent tx_cfg d (txu_next_so (lk_tx l)) (txu_next (lk_tx l)) grant pdu h payload -> um_si h <> full_sdu ->
  (if txu_next_so (lk_tx l) + zlen payload =? zlen d then txu_todo tx_cfg tx' = rest /\ txu_next_so tx' = 0
   else txu_todo tx_cfg tx' = d :: rest /\ txu_next_so tx' = txu_next_so (lk_tx l) + zlen payload) ->
  txu_next tx' = (if bool_decide (um_si h = last_segment) then sn_next md (txu_next (lk_tx l)) else txu_next (lk_tx l)) ->
  exists rx', um_handle_pdu rx_cfg env (lk_rx l) pdu = ok rx' /\ link_inv (mk_link tx' rx' (lk_submitted l)) /\
    delivered (um_out rx') ++ txu_todo tx_cfg tx' = got l ++ todo l /\ got l `prefix_of` delivered (um_out rx').
Proof.
  intros Hc Hl Htx' Hitems Ht Hd Hso Hg Hs Hnf Htodo Hnext. destruct (link_held l d rest Hc Hl Ht) as (L1 & L2 & L3 & L4 & L5).
  set (rx := lk_rx l) in *. set (n := txu_next (lk_tx l)) in *. set (so := txu_next_so (lk_tx l)) in *.
  destruct (um_data_pdu_sent _ _ _ _ _ _ _ Hc Hs) as [Hdata _].
  destruct (um_sent_genuine _ _ _ _ _ _ _ Hs) as (Eso & Hgen & Hlen); [lia|done|].
  pose proof Hs as [_ _ _ _ [S2 S3] S4 S5 S6]. destruct (S6 Hnf) as [Esn _].
  destruct (um_si_has_so so (zlen payload) (zlen d)) as (_ & _ & I2); [lia..|]. rewrite <- S5 in I2.
  pose proof Hl as [K1 K2 K3 K4 K5 K6 K7 K8]. fold rx in K2, K3, K4, K6, K7. fold n so in K6, K7.
  pose proof (um_facts rx_cfg) as (F1 & F2 & _). unfold um_sdu_ok in Hd.
  assert (Hn : 0 <= n < md) by (rewrite (lc_sz Hc); apply (ui_next _ _ K1)).
  destruct (um_take_segment rx_cfg env rx pdu h payload d K2 K3 Hdata Hnf) as (rx' & Erx & T);
    rewrite ?Esn; try done; [by rewrite invalid_sn, K6; apply Z.ltb_irrefl|lia|].
  exists rx'. split; [done|].
  destruct T as [(T1 & T2 & T3) T4 T5 T6 T7 T8 T9 _]. rewrite Esn in *. rewrite K6 in T9.
  destruct (um_stored_genuine d (held rx_cfg rx n) h payload L1 L2 Hgen) as (G1 & G2 & G3 & G4 & G5); [lia|].
  assert (Happ : um_segments (stored_um (held rx_cfg rx n) h payload) = held rx_cfg rx n ++ [mk_segment (um_si h) (um_so h) payload])
    by (apply (held_append _ so); simpl; done || lia).
  set (e := stored_um (held rx_cfg rx n) h payload) in *.
  assert (Hfull : um_fully_received e = true <-> so + zlen payload = zlen d).
  { rewrite G4. unfold covers; simpl. rewrite Eso. split.
    - intros Hall. specialize (Hall (zlen d - 1)). rewrite L3 in Hall. lia.
    - intros Eend i Hi. rewrite L3. lia. }
  specialize (T6 K4). destruct (Z.eqb_spec (so + zlen payload) (zlen d)) as [Eend|Eend].
  - (* the last segment *)
    assert (Hf : um_fully_received e = true) by by apply Hfull. rewrite Hf in *. destruct (T8 eq_refl) as [_ Hnr]. cbn [orb] in T4.
    destruct Htodo as [Hrest Hso']. rewrite bool_decide_true in Hnext by (apply I2; lia).
    assert (P : forall x, um_rx_mod_base rx_cfg rx' x = um_rx_mod_base rx_cfg rx x) by (intros; unfold um_rx_mod_base; by rewrite T4).
    assert (Hso0 : so <> 0) by lia. rewrite (proj2 (Z.eqb_neq so 0) Hso0) in K7, L5. destruct K7 as [d' [_ I3 _ _ _ _]]. fold rx n in I3.
    assert (Hnr' : rx_next_reassembly (um_st rx') = sn_next md n).
    { apply (pos_inj rx_cfg rx'); [apply (uo_next _ _ T1)|apply sn_next_range|].
      pose proof (ut_nr _ _ T3). rewrite <- I3, <- T4, pos_nh. rewrite !P in *. destruct (decide (um_rx_mod_base rx_cfg rx (rx_next_reassembly (um_st rx')) = W - 1)) as [Ep|]; [|lia].
      destruct Hnr. apply (pos_inj rx_cfg rx); [apply (uo_next _ _ T1)|done|lia]. }
    split.
    + split; simpl; try done.
      * rewrite T6, P, Hnr', <- I3, pos_nh. apply Z.ltb_ge. lia.
      * rewrite Hrest. rewrite Ht in K5. by inversion K5.
      * by rewrite Hnr'.
      * rewrite Hso'. simpl. by rewrite T4, Hnext.
    + split; [|rewrite T5; cbv zeta; rewrite Hf; by eexists].
      rewrite T5. cbv zeta. rewrite Hf, Hrest, Ht, <- app_assoc, (G5 eq_refl); [done|apply Hc|].
      rewrite Happ, length_app. simpl. pose proof (lc_grant Hc).
      rewrite Ht in K5. inversion K5 as [|? ? Hr _]. unfold reassemblable in Hr. nia.
  - (* another segment *)
    assert (Hf : um_fully_received e = false) by (destruct (um_fully_received e); [by destruct Eend; apply Hfull|done]).
    rewrite Hf in *. destruct Htodo as [Hrest Hso']. cbn [orb] in T4.
    rewrite bool_decide_false in Hnext by (intros [_ ?]%I2; lia).
    assert (Hnh : um_rx_next_highest (um_st rx') = sn_next md n).
    { rewrite T4, L5. destruct (Z.eqb_spec so 0) as [E0|E0]; [by rewrite Z.ltb_irrefl|].
      rewrite (proj2 (Z.ltb_lt _ _)) by lia. destruct K7 as [d' [_ I3 _ _ _ _]]. done. }
    assert (Pn : um_rx_mod_base rx_cfg rx' n = W - 1).
    { pose proof (pos_nh rx_cfg rx') as Hp. rewrite Hnh, pos_next_mod in Hp.
      destruct (Z.eqb_spec (um_rx_mod_base rx_cfg rx' n + 1) md); lia. }
    assert (Hnr : rx_next_reassembly (um_st rx') = n) by (apply T9; lia).
    split.
    + split; simpl; try done.
      * rewrite T6, Hnr, Pn. apply Z.ltb_ge. lia.
      * rewrite Hrest, <- Ht. done.
      * by rewrite Hnr.
      * rewrite (proj2 (Z.eqb_neq _ _)) by lia. exists d. split; simpl; rewrite ?Hnext; fold n; rewrite ?(T7 eq_refl); try done.
        -- by rewrite Hrest.
        -- intros i. rewrite G3, L3, Hso'. unfold covers; simpl. rewrite Eso. lia.
        -- rewrite Happ, length_app, Hso'. simpl length. nia.
    + rewrite T5. cbv zeta. rewrite Hf, Hrest, app_nil_r, Ht. done.
Qed.

Lemma revived_reassemblable l : link_inv l -> Forall reassemblable (revived l).
Proof.
  intros Hl. pose proof (li_items _ Hl) as Hi. unfold txu_revived, discarded_tail. destruct (bool_decide _); [|done].
  destruct (last _) as [x|] eqn:E; [|done]. destruct (is_valid _ _ x); [done|]. apply last_Some_elem_of in E.
  rewrite Forall_forall in Hi. repeat constructor. by apply Hi.
Qed.

(** A grant: at most one PDU crosses the link. *)
Lemma link_pull_ok l grant :
  link_config_ok -> link_inv l -> min_grant <= grant < 2 ^ 32 ->
  exists l', link_step (link_pull grant) l = ok l' /\ link_inv l' /\ lk_submitted l' = lk_submitted l /\
    got l' ++ todo l' = got l ++ todo l ++ revived l /\ (todo l <> [] -> remaining l' < remaining l) /\
    got l `prefix_of` got l' /\
    popped_from (txu_queue_size tx_cfg) (txu_queue (lk_tx l)) (txu_queue (lk_tx l')) /\ (todo l = [] -> q_items (txu_queue (lk_tx l')) = []).
Proof.
  intros Hc Hl Hg. pose proof (lc_grant Hc). pose proof Hl as [K1 K2 K3 K4 K5 K6 K7 K8].
  destruct (txu_pull_ok tx_cfg (proj1 (lc_tx Hc)) (lk_tx l) grant K1) as (pdu & tx' & E & K1' & HP & Hpop & Hnil); [lia|].
  specialize (Hnil ltac:(lia)).
  assert (K8' : Forall (fun x => reassemblable (sdu_bytes x)) (q_items (txu_queue tx'))).
  { destruct Hpop as (popped & P1 & _). rewrite P1 in K8. by apply Forall_app in K8 as [_ ?]. }
  cbn [link_step]. rewrite E. cbv beta match.
  destruct HP as [(-> & Hnone & T1 & T2 & T3)|(d & rest & h & payload & Ht & Hd & Hso & Hs & Htodo & Hnext)].
  - rewrite (proj2 (Z.leb_gt grant 1)) in T1 by lia.
    rewrite bool_decide_true, bind_ok by done. eexists. split; [reflexivity|]. unfold remaining. simpl. rewrite T1.
    split_and!; try done; [|intros; destruct Hnone; [done|lia]].
    split; simpl; rewrite ?T1, ?T2, ?T3; try done; [apply Forall_app; split; [done|by apply revived_reassemblable]|].
    destruct (_ =? 0); [done|]. destruct K7 as [d []]. exists d.
    split; simpl; rewrite ?T1, ?T2, ?T3; try done. by destruct (todo l).
  - destruct (um_data_pdu_sent _ _ _ _ _ _ _ Hc Hs) as [_ Hne]. rewrite bool_decide_false by done.
    destruct (us_some _ _ _ _ _ _ _ _ Hs) as [S2 S3]. unfold remaining.
    assert (Hrem : foldr (fun d acc => zlen d + acc) 0 (txu_todo tx_cfg tx') - txu_next_so tx' <
      foldr (fun d acc => zlen d + acc) 0 (todo l) - txu_next_so (lk_tx l)).
    { rewrite Ht. destruct (Z.eqb_spec (txu_next_so (lk_tx l) + zlen payload) (zlen d)); destruct Htodo as [-> ->]; simpl; lia. }
    assert (Hrev : revived l = []) by (unfold txu_revived; by rewrite Ht, bool_decide_false). rewrite Hrev, app_nil_r.
    destruct (decide (um_si h = full_sdu)) as [Hf|Hnf].
    + assert (Hr : reassemblable d) by (rewrite Ht in K5; by inversion K5).
      destruct (link_full d grant pdu h payload _ _ (lk_rx l) Hc Hr Hs (proj1 Hso) Hf) as (rx' & -> & X1 & X2 & X3 & X4 & X5 & X6).
      rewrite bind_ok. eexists. split; [reflexivity|]. simpl. rewrite X5 in *. rewrite (proj2 (Z.eqb_eq _ _)) in Htodo by lia.
      destruct Htodo as [Hrest Hso']. rewrite bool_decide_false in Hnext by congruence.
      split_and!; try done; [|by rewrite X4, Hrest, Ht, <- app_assoc|rewrite X4; by eexists].
      split; simpl; rewrite ?X1, ?X3, ?Hnext; try done.
      * destruct K2. by split; rewrite ?X1, ?X2.
      * assert (P : forall x, um_rx_mod_base rx_cfg rx' x = um_rx_mod_base rx_cfg (lk_rx l) x) by (intros; unfold um_rx_mod_base; by rewrite X1).
        destruct K3 as [U1 U2 U3]. split; rewrite ?X1, ?X2, ?P; try done.
        -- intros k. rewrite P. apply U2.
        -- unfold full in *. by rewrite X2.
      * rewrite Hrest. rewrite Ht in K5. by inversion K5.
      * by rewrite Hso'.
    + rewrite <- (lc_sz Hc) in Hnext. destruct (link_segment l tx' d rest grant pdu h payload) as (rx' & -> & Hl' & Hout & Hpre); try done; try lia.
      rewrite bind_ok. eexists. split; [reflexivity|]. split_and!; try done.
Qed.

(** The SDU under segmentation stays first while the queue changes. *)
Lemma link_queue_changed l tx' sub :
  link_inv l -> txu_inv tx_cfg tx' -> Forall reassemblable (txu_todo tx_cfg tx') ->
  txu_next tx' = txu_next (lk_tx l) -> txu_next_so tx' = txu_next_so (lk_tx l) ->
  (txu_next_so (lk_tx l) <> 0 -> head (txu_todo tx_cfg tx') = head (todo l)) ->
  Forall (fun x => reassemblable (sdu_bytes x)) (q_items (txu_queue tx')) ->
  link_inv (mk_link tx' (lk_rx l) sub).
Proof.
  intros [K1 K2 K3 K4 K5 K6 K7 K8] H1 H2 E1 E2 H3 H4. split; simpl; rewrite ?E1, ?E2; try done.
  destruct (Z.eqb_spec (txu_next_so (lk_tx l)) 0) as [|Hne]; [done|]. destruct K7 as [d []]. exists d.
  split; simpl; rewrite ?E1, ?E2, ?H3 by done; done.
Qed.

Lemma link_current l : link_inv l -> txu_next_so (lk_tx l) <> 0 -> sdu_bytes (txu_sdu (lk_tx l)) <> [].
Proof. intros H Hso Hn. destruct (ui_sdu _ _ (li_tx _ H)) as [[_ ?]|[[? _] _]]; [done|rewrite Hn in *; simpl in *; lia]. Qed.

Lemma filter_sublist {A B} (f : A -> B) p (l : list A) : (f <$> List.filter p l) `sublist_of` (f <$> l).
Proof. induction l as [|x l IH]; simpl; [constructor|]. destruct (p x); by constructor. Qed.

Lemma sublist_Forall {A} (P : A -> Prop) (x y : list A) : x `sublist_of` y -> Forall P y -> Forall P x.
Proof. induction 1; rewrite ?Forall_cons; intuition. Qed.

Definition is_discard (e : um_link_event) : bool := match e with link_discard _ _ => true | _ => false end.

(** The SDUs that are on their way, or through. *)
Definition accounted l : list bytes := got l ++ todo l.

(** What an event makes of them: an accepted SDU is added, a discard takes out the SDUs with its SN that are in the queue, and a
    grant that finds nothing to send adds the discarded SDU at the end of the queue, if there is one. *)
Definition accounted_after (e : um_link_event) l : list bytes :=
  match e with
  | link_sdu _ buf => accounted l ++ (if txu_accepts tx_cfg (lk_tx l) buf then [buf] else [])
  | link_discard _ sn =>
      got l ++ (if bool_decide (sdu_bytes (txu_sdu (lk_tx l)) = []) then [] else [sdu_bytes (txu_sdu (lk_tx l))]) ++
      (sdu_bytes <$> List.filter (fun x => negb (holds_sn sn x)) (content (txu_queue_size tx_cfg) (txu_queue (lk_tx l))))
  | link_pull _ => accounted l ++ revived l
  | link_update | link_timer => accounted l
  end.

(** What an event does to the queue, and to the record of what was accepted. *)
Definition queue_moved (e : um_link_event) l l' : Prop :=
  let q := txu_queue (lk_tx l) in let q' := txu_queue (lk_tx l') in let content := content (txu_queue_size tx_cfg) in
  match e with
  | link_sdu _ buf => exists new : list rlc_sdu, (sdu_bytes <$> new) = (if txu_accepts tx_cfg (lk_tx l) buf then [buf] else []) /\
      q_items q' = q_items q ++ new /\ content q' = content q ++ new /\ lk_submitted l' = lk_submitted l ++ (sdu_bytes <$> new)
  | link_discard _ sn => q_items q' = q_items q /\ content q' = List.filter (fun x => negb (holds_sn sn x)) (content q) /\
      lk_submitted l' = lk_submitted l
  | link_pull _ => popped_from (txu_queue_size tx_cfg) q q' /\ (todo l = [] -> q_items q' = []) /\ lk_submitted l' = lk_submitted l
  | _ => q' = q /\ lk_submitted l' = lk_submitted l
  end.

(** One event: its effect on what is accounted for, and what stays true of it. *)
Lemma link_step_ok e l :
  link_config_ok -> link_event_ok e -> link_inv l ->
  exists l', link_step e l = ok l' /\ link_inv l' /\ accounted l' = accounted_after e l /\ queue_moved e l l'.
Proof.
  intros Hc He Hl. pose proof (lc_tx Hc) as [Hq Hb]. pose proof Hl as [K1 K2 K3 K4 K5 K6 K7 K8].
  unfold accounted_after, accounted. destruct e as [tenv buf|tenv sn|grant| |]; simpl in He.
  - destruct He as (He1 & He2 & He3).
    destruct (txu_handle_sdu_ok tx_cfg Hq Hb tenv (lk_tx l) buf false K1 He1 He2) as (tx' & E & H1 & H2 & H3 & H4 & sdu & H6 & Hsdu & H5).
    cbn [link_step]. rewrite E, bind_ok. eexists. split; [reflexivity|]. simpl. rewrite H2, app_assoc. split; [|split; [done|exists (if txu_accepts tx_cfg (lk_tx l) buf then [sdu] else []);
      rewrite <- Hsdu in *; by destruct (txu_accepts _ _ _)]].
    apply (link_queue_changed l); try done.
    + rewrite H2. apply Forall_app. split; [done|]. destruct (txu_accepts _ _ _); by repeat constructor.
    + intros Hso. rewrite H2. pose proof (link_current l Hl Hso). unfold txu_todo. by rewrite bool_decide_false.
    + rewrite H5. apply Forall_app. split; [done|]. rewrite <- Hsdu in He3. destruct (txu_accepts _ _ _); by repeat constructor.
  - destruct (txu_discard_ok tx_cfg Hq Hb tenv (lk_tx l) sn K1 He) as (H1 & H2 & H3 & H4 & H5 & H6).
    eexists. split; [reflexivity|]. simpl. split; [|by rewrite H2, H5, H6].
    apply (link_queue_changed l); try done; [| |by rewrite H5].
    + rewrite H2. eapply sublist_Forall; [|exact K5]. unfold txu_todo. apply sublist_app; [done|apply filter_sublist].
    + intros Hso. rewrite H2. pose proof (link_current l Hl Hso). unfold txu_todo. by rewrite bool_decide_false.
  - destruct (link_pull_ok l grant Hc Hl He) as (l' & E & H1 & H2 & H3 & _ & _ & H4 & H5). exists l'. rewrite H3, app_assoc.  by split_and!.
  - eexists. split; [reflexivity|]. simpl.
    destruct (txu_same_ok tx_cfg _ _ (txu_update_same tx_cfg (lk_tx l))) as [H1 H2].
    destruct (txu_update_same tx_cfg (lk_tx l)) as (E1 & E3 & _ & E2). rewrite H2. split; [|done].
    apply (link_queue_changed l); rewrite ?H2, ?E3; auto.
  - cbn [link_step um_rx_step]. rewrite K4, bind_ok. eexists. split; [reflexivity|]. simpl. split; [by destruct l|done].
Qed.

(** The log of a link: the SDUs that were accepted have left the queue or are in it, and those sent or to be sent first come, in
    order, from those that have left. *)
Definition link_log l : Prop :=
  exists gone started,
    lk_submitted l = gone ++ (sdu_bytes <$> q_items (txu_queue (lk_tx l))) /\
    accounted l = started ++ (sdu_bytes <$> content (txu_queue_size tx_cfg) (txu_queue (lk_tx l))) /\
    started `sublist_of` gone.

(** Nothing in the queue is discarded. *)
Definition undiscarded l : Prop :=
  length (content (txu_queue_size tx_cfg) (txu_queue (lk_tx l))) = length (q_items (txu_queue (lk_tx l))).

Lemma link_log_accounted l : link_log l -> accounted l `sublist_of` lk_submitted l.
Proof.
  intros (gone & started & -> & -> & Hs). apply sublist_app; [done|]. apply filter_sublist.
Qed.

Lemma revived_sublist l : revived l `sublist_of` (sdu_bytes <$> q_items (txu_queue (lk_tx l))).
Proof.
  unfold txu_revived, discarded_tail. destruct (bool_decide _); [|apply sublist_nil_l]. destruct (last _) as [x|] eqn:E; [|apply sublist_nil_l].
  destruct (is_valid _ _ x); [apply sublist_nil_l|]. apply last_Some in E as [pre ->]. rewrite fmap_app. simpl. by apply sublist_inserts_l.
Qed.

Lemma link_log_step e l l' :
  link_log l -> accounted l' = accounted_after e l -> queue_moved e l l' -> link_log l'.
Proof.
  intros (gone & started & Hg & Ha & Hs) Ea Hm. unfold link_log. rewrite Ea. unfold accounted_after. destruct e as [tenv buf|tenv sn|grant| |]; simpl in Hm.
  - destruct Hm as (new & <- & -> & -> & ->). exists gone, started. by rewrite Hg, Ha, !fmap_app, !app_assoc.
  - destruct Hm as (-> & -> & ->). exists gone, started. split; [done|]. split; [|done].
    unfold accounted, txu_todo in Ha. rewrite !app_assoc in *. apply app_inv_tail in Ha. by rewrite Ha.
  - destruct Hm as ((popped & Hi & HC) & Hnil & ->). pose proof (revived_sublist l) as Hr. unfold txu_revived in *.
    destruct (decide (todo l = [])) as [E|E].
    + rewrite bool_decide_true in * by done. rewrite Hnil in * by done. rewrite app_nil_r in Hi. subst popped.
      assert (Hc : content (txu_queue_size tx_cfg) (txu_queue (lk_tx l)) = []).
      { unfold txu_todo in E. apply app_eq_nil in E as [_ E]. by apply fmap_nil_inv in E. }
      rewrite Hc in *. symmetry in HC. apply app_eq_nil in HC as [_ ->]. rewrite app_nil_r in Ha.
      exists (gone ++ (sdu_bytes <$> q_items (txu_queue (lk_tx l)))), (accounted l ++ (sdu_bytes <$> discarded_tail (txu_queue_size tx_cfg) (txu_queue (lk_tx l)))).
      rewrite !app_nil_r. rewrite Ha. split; [done|]. split; [done|]. by apply sublist_app.
    + rewrite bool_decide_false in * by done. rewrite app_nil_r, Hg, Ha, Hi, HC, !fmap_app, !app_assoc.
      eexists _, _. split; [reflexivity|]. split; [reflexivity|]. apply sublist_app; [done|apply filter_sublist].
  - destruct Hm as [-> ->]. exists gone, started. auto.
  - destruct Hm as [-> ->]. exists gone, started. auto.
Qed.

Lemma undiscarded_step e l l' :
  undiscarded l -> is_discard e = false -> accounted l' = accounted_after e l -> queue_moved e l l' ->
  undiscarded l' /\ exists new, lk_submitted l' = lk_submitted l ++ new /\ accounted l' = accounted l ++ new.
Proof.
  unfold undiscarded. intros Hu Hd Ea Hm. rewrite Ea. unfold accounted_after. destruct e as [tenv buf|tenv sn|grant| |]; simpl in Hm; try done.
  - destruct Hm as (new & <- & -> & -> & ->). split; [rewrite !length_app; lia|by eexists].
  - destruct Hm as (Hp & _ & ->). split; [by eapply popped_undiscarded|]. exists []. rewrite !app_nil_r. split; [done|].
    destruct (content_undiscarded _ _ Hu) as [_ Ht]. unfold txu_revived. rewrite Ht. destruct (bool_decide _); by rewrite app_nil_r.
  - destruct Hm as [-> ->]. split; [done|]. exists []. by rewrite !app_nil_r.
  - destruct Hm as [-> ->]. split; [done|]. exists []. by rewrite !app_nil_r.
Qed.

Lemma link_run_ok es : forall l,
  link_config_ok -> Forall link_event_ok es -> link_inv l -> link_log l ->
  exists l', link_run es l = ok l' /\ link_inv l' /\ link_log l' /\
    (forallb (fun e => negb (is_discard e)) es = true -> undiscarded l -> accounted l = lk_submitted l ->
     undiscarded l' /\ accounted l' = lk_submitted l').
Proof.
  induction es as [|e es IH]; intros l Hc Hes Hl Hlog; simpl; [by exists l|].
  inversion Hes as [|? ? He Hes']; subst. destruct (link_step_ok e l Hc He Hl) as (l1 & -> & H1 & H2 & H3).
  rewrite bind_ok. destruct (IH l1 Hc Hes' H1) as (l2 & -> & I1 & I2 & I3); [by eapply link_log_step|]. exists l2. split_and!; try done.
  intros [Hd Hds]%andb_prop Hu Ea. apply negb_true_iff in Hd. destruct (undiscarded_step e l l1 Hu Hd H2 H3) as (Hu' & new & E1 & E2).
  apply I3; try done. by rewrite E1, E2, Ea.
Qed.

(** Grants alone empty the link. *)
Lemma sum_bytes_nonneg (x : list bytes) :
  Forall um_sdu_ok x -> 0 <= foldr (fun d acc => zlen d + acc) 0 x /\ (foldr (fun d acc => zlen d + acc) 0 x = 0 -> x = []).
Proof. induction 1 as [|d x Hd _ [IH _]]; simpl; [done|]. unfold um_sdu_ok in Hd. split; [lia|]. lia. Qed.

Lemma remaining_nonneg l : link_inv l -> 0 <= remaining l /\ (remaining l = 0 -> todo l = []).
Proof.
  intros Hl. pose proof (queued_sdus _ _ (li_tx _ Hl)) as Hall. pose proof (li_tx _ Hl) as [_ _ _ Hs]. unfold remaining, txu_todo. apply Forall_fmap, sum_bytes_nonneg in Hall.
  destruct Hall as [Hq1 Hq2]. destruct Hs as [[Hn ->]|[Hd Hso]].
  - rewrite bool_decide_true by done. simpl app. split; [lia|]. intros E. apply Hq2. lia.
  - rewrite bool_decide_false by (intros E; rewrite E in Hso; simpl in Hso; lia). simpl foldr. lia.
Qed.

Lemma link_pulls_ok grants : forall l,
  link_config_ok -> link_inv l -> Forall (fun g => min_grant <= g < 2 ^ 32) grants ->
  exists l', link_run (map link_pull grants) l = ok l' /\ link_inv l' /\ got l `prefix_of` got l'.
Proof.
  induction grants as [|g grants IH]; intros l Hc Hl Hg; simpl; [by exists l|].
  inversion Hg as [|? ? Hg1 Hg2]; subst. destruct (link_pull_ok l g Hc Hl Hg1) as (l1 & E & Hl1 & _ & _ & _ & H5 & _).
  cbn [link_step] in E. rewrite E, bind_ok. destruct (IH l1 Hc Hl1 Hg2) as (l2 & E2 & Hl2 & Hp). exists l2. split; [done|]. split; [done|]. by etrans.
Qed.

Lemma link_drain grants : forall l,
  link_config_ok -> link_inv l -> Forall (fun g => min_grant <= g < 2 ^ 32) grants -> remaining l <= zlen grants ->
  exists l', link_run (map link_pull grants) l = ok l' /\ accounted l `prefix_of` got l'.
Proof.
  induction grants as [|g grants IH]; intros l Hc Hl Hg Hr; simpl.
  - destruct (remaining_nonneg l Hl) as [H1 H2]. exists l. unfold accounted. rewrite H2 by (simpl in Hr; lia). by rewrite app_nil_r.
  - inversion Hg as [|? ? Hg1 Hg2]; subst. destruct (link_pull_ok l g Hc Hl Hg1) as (l1 & E & Hl1 & _ & H3 & H4 & H5 & _).
    cbn [link_step] in E. rewrite E, bind_ok. destruct (decide (todo l = [])) as [Et|Et].
    + destruct (link_pulls_ok grants l1 Hc Hl1 Hg2) as (l2 & E2 & _ & Hp). exists l2. split; [done|]. unfold accounted. rewrite Et, app_nil_r. by etrans.
    + specialize (H4 Et). destruct (IH l1 Hc Hl1 Hg2) as (l2 & E2 & H6); [simpl in Hr; lia|]. exists l2. split; [done|].
      unfold accounted in *. rewrite H3 in H6. unfold txu_revived in H6. by rewrite bool_decide_false, app_nil_r in H6.
Qed.
End link.

(** ** Properties *)
Section properties.
Context (tx_cfg : rlc_tx_um_config) (rx_cfg : rlc_rx_um_config) (env : chain_env) (min_grant : Z).

Local Abbreviation todo l := (txu_todo tx_cfg (lk_tx l)).
Local Abbreviation got l := (delivered (um_out (lk_rx l))).
Local Abbreviation run := (link_run tx_cfg rx_cfg env).
Local Abbreviation events_ok := (Forall (link_event_ok env min_grant)).

(** C14: over a link that neither loses nor reorders PDUs, whatever SDUs, discards, grants and timer
    events come in whatever order, what the receiving entity has delivered followed by what the transmitting one
    has still to send ([accounted]) is made of SDUs that were accepted, unchanged, in order and each at most once, and
    of all of them as long as nothing was discarded. Each further event changes it exactly as [accounted_after] says: an
    accepted SDU is added at the end; a discard takes out the SDU with its SN if it is still in the queue, and never the one
    under segmentation; a grant moves SDUs from the one side to the other, except that one that finds nothing to send while
    discarded SDUs are left in the queue puts the last of them up for transmission. *)
Theorem um_lossless_transfer es e :
  link_config_ok tx_cfg rx_cfg env min_grant -> events_ok es -> link_event_ok env min_grant e ->
  exists l l', run es link_init = ok l /\ link_step tx_cfg rx_cfg env e l = ok l' /\
    (got l ++ todo l) `sublist_of` lk_submitted l /\
    (forallb (fun e => negb (is_discard e)) es = true -> got l ++ todo l = lk_submitted l) /\
    got l' ++ todo l' = accounted_after tx_cfg e l.
Proof.
  intros Hc Hes He. destruct (link_run_ok tx_cfg rx_cfg env min_grant es link_init Hc Hes (link_init_inv _ _ _ _ Hc))
    as (l & E & Hl & Hlog & H3); [by exists [], []|].
  destruct (link_step_ok tx_cfg rx_cfg env min_grant e l Hc He Hl) as (l' & E' & _ & H4 & _).
  exists l, l'. split_and!; try done; [by apply link_log_accounted|]. intros Hd. by apply H3.
Qed.

(** No SDU is stuck: from every state the link can reach, as many grants as there are bytes left to
    send deliver everything that there was to send, in order. *)
Theorem um_transfer_drains es grants :
  link_config_ok tx_cfg rx_cfg env min_grant -> events_ok es ->
  Forall (fun g => min_grant <= g < 2 ^ 32) grants ->
  exists l, run es link_init = ok l /\
    (remaining tx_cfg l <= zlen grants ->
     exists l', run (map link_pull grants) l = ok l' /\ (got l ++ todo l) `prefix_of` got l').
Proof.
  intros Hc Hes Hg. destruct (link_run_ok tx_cfg rx_cfg env min_grant es link_init Hc Hes (link_init_inv _ _ _ _ Hc))
    as (l & E & Hl & _); [by exists [], []|].
  exists l. split; [done|]. intros Hr. by apply (link_drain _ _ _ min_grant).
Qed.
End properties.

(** ** Witnesses: an SDU of five bytes in grants of five bytes *)
Definition link_events : list um_link_event := [link_sdu um_env [128; 1; 7; 8; 9]; link_pull 5; link_timer].

Lemma link_example_ok : link_config_ok um_tx_cfg6 um_cfg6 chains 5 /\ Forall (link_event_ok chains 5) link_events.
Proof.
  split; [split; [split; vm_compute; split; congruence|reflexivity|reflexivity|lia]|].
  repeat constructor; simpl; try lia; try (unfold is_byte; lia). unfold reassemblable. simpl. lia.
Qed.

Lemma um_lossless_transfer_witness :
  exists l l', link_run um_tx_cfg6 um_cfg6 chains link_events link_init = ok l /\
    link_step um_tx_cfg6 um_cfg6 chains (link_pull 5) l = ok l' /\
    delivered (um_out (lk_rx l')) = [[128; 1; 7; 8; 9]].
Proof.
  destruct link_example_ok as [Hc He].
  destruct (um_lossless_transfer um_tx_cfg6 um_cfg6 chains 5 link_events (link_pull 5) Hc He) as (l & l' & E & E' & _ & H & H').
  - simpl; lia.
  - exists l, l'. split; [exact E|]. split; [exact E'|]. specialize (H eq_refl).
    assert (Hs : lk_submitted l = [[128; 1; 7; 8; 9]] /\ txu_revived um_tx_cfg6 (lk_tx l) = []).
    { vm_compute in E. injection E as <-. split; reflexivity. }
    assert (Ht : txu_todo um_tx_cfg6 (lk_tx l') = []).
    { vm_compute in E. injection E as <-. vm_compute in E'. injection E' as <-. reflexivity. }
    destruct Hs as [Hs Hr]. unfold accounted_after, accounted in H'. rewrite H, Hs, Hr, Ht, !app_nil_r in H'. exact H'.
Defined.

Lemma um_transfer_drains_witness :
  exists l l', link_run um_tx_cfg6 um_cfg6 chains link_events link_init = ok l /\
    link_run um_tx_cfg6 um_cfg6 chains [link_pull 5; link_pull 6] l = ok l' /\
    (delivered (um_out (lk_rx l)) ++ txu_todo um_tx_cfg6 (lk_tx l)) `prefix_of` delivered (um_out (lk_rx l')).
Proof.
  destruct link_example_ok as [Hc He].
  destruct (um_transfer_drains um_tx_cfg6 um_cfg6 chains 5 link_events [5; 6] Hc He) as (l & E & H).
  - repeat constructor; lia.
  - exists l. assert (Hr : remaining um_tx_cfg6 l <= 2).
    { vm_compute in E. injection E as <-. vm_compute. discriminate. }
    destruct (H Hr) as (l' & E' & Hd). exists l'. split; [exact E|]. split; [exact E'|exact Hd].
Defined.

(** ** A discarded SDU is transmitted

    The only SDU of the queue (with PDCP SN 1) is discarded. The next grant gets nothing, but the SDU stays in the member [sdu], and the grant
    after it transmits it, without [on_transmitted_sdu]; the peer delivers it. *)
Definition discarded_events : list um_link_event := [link_sdu um_env [128; 1; 7; 8; 9]; link_discard um_env 1; link_pull 9].

Example um_discarded_sdu_sent :
  exists l l', link_run um_tx_cfg6 um_cfg6 chains discarded_events link_init = ok l /\
    delivered (um_out (lk_rx l)) = [] /\ content 64 (txu_queue (lk_tx l)) = [] /\ txu_get_buffer_state um_tx_cfg6 (lk_tx l) = 8 /\
    link_step um_tx_cfg6 um_cfg6 chains (link_pull 9) l = ok l' /\
    delivered (um_out (lk_rx l')) = [[128; 1; 7; 8; 9]] /\
    txu_out (lk_tx l') = [ev_defer_buffer_state].
Proof.
  eexists _, _. split; [vm_compute; reflexivity|]. split; [reflexivity|]. split; [vm_compute; reflexivity|]. split; [vm_compute; reflexivity|].
  split; [vm_compute; reflexivity|]. split; vm_compute; reflexivity.
Qed.
