(* ===== verification/RlcTm.v ===== *)
(** * The RLC TM entities

    [rlc_tx_tm_entity] of [lib/rlc/rlc_tx_tm_entity.{h,cpp}] and [rlc_rx_tm_entity] of
    [lib/rlc/rlc_rx_tm_entity.cpp]: SDUs are PDUs, without header and without segmentation. Log
    output, PCAP of the transmitter and its metrics are left out. *)

From S2P Require Import Prelude RlcSegments RlcSduQueue RlcRxAm RlcRxAmInv RlcTxAm RlcTxUm.

(** ** The transmitting entity *)
Record rlc_tx_tm_config := mk_tx_tm_config { tmc_queue_size : Z; tmc_queue_size_bytes : Z }.

Record rlc_tx_tm_entity := mk_tx_tm {
  tm_queue : sdu_queue;
  tm_sdu : rlc_sdu;
  tm_pending_buffer_state : bool;
  tm_out : list tx_event
}.

Definition tm_set_queue s q := mk_tx_tm q (tm_sdu s) (tm_pending_buffer_state s) (tm_out s).
Definition tm_set_sdu s x := mk_tx_tm (tm_queue s) x (tm_pending_buffer_state s) (tm_out s).
Definition tm_set_pending s b := mk_tx_tm (tm_queue s) (tm_sdu s) b (tm_out s).
Definition tm_emit s e := mk_tx_tm (tm_queue s) (tm_sdu s) (tm_pending_buffer_state s) (tm_out s ++ [e]).

Definition tm_init : rlc_tx_tm_entity := mk_tx_tm queue_init no_sdu false [].

Section rlc_tx_tm_entity.
Context (cfg : rlc_tx_tm_config).

Definition tm_get_buffer_state s : Z := u32 (n_bytes (tm_queue s) + zlen (sdu_bytes (tm_sdu s))).

Definition tm_update_mac_buffer_state s : rlc_tx_tm_entity :=
  let s := tm_set_pending s false in
  tm_emit s (ev_buffer_state (tm_get_buffer_state s)).

Definition tm_handle_changed_buffer_state (env : tx_env) s : rlc_tx_tm_entity :=
  if negb (tm_pending_buffer_state s) then
    let s := tm_set_pending s true in
    if pcell_defer_ok env then tm_emit s ev_defer_buffer_state else s
  else s.

(** The SDU gets no PDCP SN. *)
Definition tm_handle_sdu (env : tx_env) s (sdu_buf : bytes) (is_retx : bool) : rlc_tx_tm_entity :=
  let '(written, q) := write (tmc_queue_size cfg) (tmc_queue_size_bytes cfg) (tm_queue s) (mk_sdu sdu_buf false None) in
  let s := tm_set_queue s q in
  if written : bool then tm_handle_changed_buffer_state env s else s.

(** Discards are ignored. *)
Definition tm_discard_sdu s (pdcp_sn : Z) : rlc_tx_tm_entity := s.

Definition tm_send (grant_len : Z) s : bytes * rlc_tx_tm_entity :=
  let sdu := tm_sdu s in
  if grant_len <? zlen (sdu_bytes sdu) then ([], s)
  else
    let s := match sdu_pdcp_sn sdu with
             | Some sn => tm_emit s (ev_transmitted_sdu sn (tmc_queue_size_bytes cfg))
             | None => s
             end in
    (sdu_bytes sdu, tm_set_sdu s (mk_sdu [] (sdu_is_retx sdu) (sdu_pdcp_sn sdu))).

Definition tm_pull_pdu (grant_len : Z) s : bytes * rlc_tx_tm_entity :=
  if bool_decide (sdu_bytes (tm_sdu s) = []) then
    let '(success, sdu, q) := read_into (tmc_queue_size cfg) (tm_sdu s) (tm_queue s) in
    let s := tm_set_sdu (tm_set_queue s q) sdu in
    if success : bool then tm_send grant_len s else ([], s)
  else tm_send grant_len s.
End rlc_tx_tm_entity.

(** ** The receiving entity: its state is what it has done. *)
Definition tm_handle_pdu (env : chain_env) (out : list rx_event) (buf : bytes) : list rx_event :=
  out ++ [ev_pdu (zlen buf); ev_pcap buf] ++
  match build_chain env [buf] with
  | None => [ev_lost]
  | Some sdu => [ev_sdu_metrics (zlen sdu); ev_new_sdu sdu]
  end.

(** ** The two entities composed *)
Inductive tm_event :=
  | tm_ev_sdu (env : tx_env) (buf : bytes)
  | tm_ev_discard (pdcp_sn : Z)
  | tm_ev_pull (grant : Z)
  | tm_ev_update.

Record tm_link := mk_tm_link { tml_tx : rlc_tx_tm_entity; tml_rx : list rx_event; tml_submitted : list bytes }.

Section tm_link.
Context (cfg : rlc_tx_tm_config) (env : chain_env).
Context (Hqueue : 0 < tmc_queue_size cfg < 2 ^ 16) (Hbytes : 0 <= tmc_queue_size_bytes cfg < 2 ^ 32).

Local Abbreviation queued s := (content (tmc_queue_size cfg) (tm_queue s)).

Definition tm_accepts s (buf : bytes) : bool :=
  write_ok (tmc_queue_size cfg) (tmc_queue_size_bytes cfg) (tm_queue s) (mk_sdu buf false None).

Definition tm_step (e : tm_event) (l : tm_link) : tm_link :=
  match e with
  | tm_ev_sdu tenv buf =>
      mk_tm_link (tm_handle_sdu cfg tenv (tml_tx l) buf false) (tml_rx l)
        (tml_submitted l ++ if tm_accepts (tml_tx l) buf then [buf] else [])
  | tm_ev_discard sn => mk_tm_link (tm_discard_sdu (tml_tx l) sn) (tml_rx l) (tml_submitted l)
  | tm_ev_pull grant =>
      let '(pdu, tx) := tm_pull_pdu cfg grant (tml_tx l) in
      mk_tm_link tx (if bool_decide (pdu = []) then tml_rx l else tm_handle_pdu env (tml_rx l) pdu) (tml_submitted l)
  | tm_ev_update => mk_tm_link (tm_update_mac_buffer_state (tml_tx l)) (tml_rx l) (tml_submitted l)
  end.

Definition tm_todo s : list bytes :=
  (if bool_decide (sdu_bytes (tm_sdu s) = []) then [] else [sdu_bytes (tm_sdu s)]) ++ (sdu_bytes <$> queued s).

Definition tm_event_ok (e : tm_event) : Prop :=
  match e with tm_ev_sdu _ buf => 0 < zlen buf < 2 ^ 16 | _ => True end.

Record tm_inv s : Prop := {
  tmi_queue : queue_inv (tmc_queue_size cfg) (tm_queue s);
  tmi_sdus : Forall (fun x => sdu_bytes x <> []) (queued s);
  tmi_untagged : Forall (fun x => sdu_pdcp_sn x = None) (q_items (tm_queue s))
}.

(** SDUs without a PDCP SN cannot be discarded. *)
Lemma untagged_tail capacity q : Forall (fun x => sdu_pdcp_sn x = None) (q_items q) -> discarded_tail capacity q = [].
Proof.
  intros Hu. unfold discarded_tail. destruct (last (q_items q)) as [x|] eqn:E; [|done].
  apply last_Some_elem_of in E. rewrite Forall_forall in Hu. unfold is_valid. by rewrite (Hu _ E).
Qed.

(** The SDU that a grant takes, and what is left. *)
Definition tm_taken (grant : Z) (todo : list bytes) : bytes * list bytes :=
  match todo with
  | d :: rest => if grant <? zlen d then ([], todo) else (d, rest)
  | [] => ([], [])
  end.

Lemma tm_received out buf :
  pool_ok env = true -> (0 < max_slices env)%nat -> buf <> [] ->
  delivered (tm_handle_pdu env out buf) = delivered out ++ [buf].
Proof.
  intros Hp Hm Hne. unfold tm_handle_pdu. rewrite build_chain_ok by (done || simpl; lia).
  rewrite !delivered_app. simpl. by rewrite app_nil_r.
Qed.

Lemma tm_send_ok grant s d rest :
  tm_inv s -> sdu_bytes (tm_sdu s) <> [] -> tm_todo s = d :: rest ->
  exists s', tm_send cfg grant s = ((tm_taken grant (tm_todo s)).1, s') /\ tm_inv s' /\ tm_todo s' = (tm_taken grant (tm_todo s)).2.
Proof.
  intros [Hq Hs Hu] Hne Ht. unfold tm_todo in Ht. rewrite bool_decide_false in Ht by done. injection Ht as Hd Hrest.
  assert (Ht : tm_todo s = d :: rest) by (unfold tm_todo; rewrite bool_decide_false by done; by rewrite Hd, <- Hrest).
  rewrite Ht. unfold tm_send, tm_taken. rewrite Hd. destruct (grant <? zlen d).
  - exists s. split; [done|]. split; [by split|done].
  - eexists. split; [reflexivity|]. destruct (sdu_pdcp_sn (tm_sdu s)); (split; [by split|]);
      unfold tm_todo; simpl; done.
Qed.

Lemma tm_pull_ok grant s :
  tm_inv s ->
  exists s', tm_pull_pdu cfg grant s = ((tm_taken grant (tm_todo s)).1, s') /\ tm_inv s' /\ tm_todo s' = (tm_taken grant (tm_todo s)).2.
Proof using Hqueue.
  intros H. pose proof H as [Hq Hs Hu]. unfold tm_pull_pdu. destruct (decide (sdu_bytes (tm_sdu s) = [])) as [E|E].
  - rewrite bool_decide_true by done. pose proof (untagged_tail (tmc_queue_size cfg) _ Hu) as Htail.
    destruct (read_into_spec (tmc_queue_size cfg) Hqueue (tm_sdu s) (tm_queue s) Hq) as (q & HI & (popped & P1 & _) & HR).
    rewrite P1 in Hu. apply Forall_app in Hu as [_ Hu].
    assert (Ht : tm_todo s = sdu_bytes <$> queued s) by (unfold tm_todo; by rewrite bool_decide_true).
    destruct (queued s) as [|sdu l] eqn:El.
    + destruct HR as (-> & HC & _). rewrite Htail, Ht. eexists. split; [reflexivity|]. split; [split; simpl; [done|by rewrite HC|done]|].
      unfold tm_todo. simpl. rewrite HC. by rewrite bool_decide_true.
    + destruct HR as (-> & HC). apply Forall_cons in Hs as [Hs1 Hs2]. set (s1 := tm_set_sdu _ sdu).
      assert (Ht1 : tm_todo s1 = tm_todo s).
      { rewrite Ht. unfold tm_todo, s1. simpl. rewrite HC. by rewrite bool_decide_false. }
      assert (H1 : tm_inv s1) by (split; simpl; [done|by rewrite HC|done]).
      rewrite <- Ht1. apply (tm_send_ok grant s1 (sdu_bytes sdu) (sdu_bytes <$> l)); try done.
      by rewrite Ht1, Ht.
  - rewrite bool_decide_false by done.
    apply (tm_send_ok grant s (sdu_bytes (tm_sdu s)) (sdu_bytes <$> queued s)); try done.
    unfold tm_todo. by rewrite bool_decide_false.
Qed.

Lemma tm_handle_sdu_ok tenv s buf r :
  tm_inv s -> buf <> [] ->
  tm_inv (tm_handle_sdu cfg tenv s buf r) /\
  tm_todo (tm_handle_sdu cfg tenv s buf r) = tm_todo s ++ if tm_accepts s buf then [buf] else [].
Proof using Hqueue Hbytes.
  intros [Hq Hs Hu] Hne. unfold tm_handle_sdu, tm_accepts. set (sdu := mk_sdu buf false None).
  destruct (write_ok (tmc_queue_size cfg) (tmc_queue_size_bytes cfg) (tm_queue s) sdu) eqn:Hw.
  - rewrite (write_accepted _ _ _ _ Hw). set (s1 := tm_set_queue s _).
    assert (HC : content (tmc_queue_size cfg) (tm_queue s1) = queued s ++ [sdu]).
    { apply pushed_content; [|done]. unfold write_ok in Hw. by apply andb_prop in Hw as [[_ ?]%andb_prop _]. }
    assert (Hi : q_items (tm_queue s1) = q_items (tm_queue s) ++ [sdu]).
    { pose proof (write_items (tmc_queue_size cfg) (tmc_queue_size_bytes cfg) (tm_queue s) sdu) as Hi. by rewrite (write_accepted _ _ _ _ Hw) in Hi. }
    assert (H1 : tm_inv s1 /\ tm_todo s1 = tm_todo s ++ [buf]).
    { split; [split|].
      - by apply (pushed_inv _ (tmc_queue_size_bytes cfg)).
      - rewrite HC. apply Forall_app. split; [done|]. by constructor.
      - rewrite Hi. apply Forall_app. split; [done|]. by constructor.
      - unfold tm_todo. by rewrite HC, fmap_app, app_assoc. }
    unfold tm_handle_changed_buffer_state. destruct H1 as [[] ?]. by destruct (negb _), (pcell_defer_ok tenv).
  - pose proof (write_items (tmc_queue_size cfg) (tmc_queue_size_bytes cfg) (tm_queue s) sdu) as Hi.
    destruct (write_refused _ _ _ _ Hw Hq) as (q & Ew & HC & HI). rewrite Ew in *. cbn [fst snd] in Hi. rewrite app_nil_r in *.
    split; [split; simpl; [done|by rewrite HC|by rewrite Hi]|]. unfold tm_todo. simpl. by rewrite HC.
Qed.

(** Delivered and still to be sent make up what was accepted. *)
Lemma tm_step_ok e l :
  pool_ok env = true -> (0 < max_slices env)%nat -> tm_event_ok e -> tm_inv (tml_tx l) ->
  delivered (tml_rx l) ++ tm_todo (tml_tx l) = tml_submitted l ->
  tm_inv (tml_tx (tm_step e l)) /\
  delivered (tml_rx (tm_step e l)) ++ tm_todo (tml_tx (tm_step e l)) = tml_submitted (tm_step e l).
Proof using Hqueue Hbytes.
  intros Hp Hm He H Hl. destruct e as [tenv buf|sn|grant|]; simpl.
  - destruct (tm_handle_sdu_ok tenv (tml_tx l) buf false H) as [H1 H2]; [by intros ->; simpl in He; lia|].
    split; [done|]. by rewrite H2, app_assoc, Hl.
  - done.
  - destruct (tm_pull_ok grant (tml_tx l) H) as (s' & -> & H1 & H2). simpl. split; [done|]. rewrite H2, <- Hl.
    destruct (tm_todo (tml_tx l)) as [|d rest] eqn:Et; simpl; [done|].
    destruct (grant <? zlen d); simpl; [done|].
    assert (Hd : d <> []).
    { unfold tm_todo in Et. destruct (decide (sdu_bytes (tm_sdu (tml_tx l)) = [])) as [E|E].
      - rewrite bool_decide_true in Et by done. pose proof (tmi_sdus _ H) as Hs. destruct (queued (tml_tx l)); [done|].
        inversion Hs; subst. simpl in Et. by injection Et as <- _.
      - rewrite bool_decide_false in Et by done. by injection Et as <- _. }
    rewrite bool_decide_false by done. by rewrite tm_received, <- app_assoc.
  - destruct H. done.
Qed.
End tm_link.

Definition tm_link_init : tm_link := mk_tm_link tm_init [] [].

(** The TM entities are transparent: whatever SDUs, grants and discards come in, the receiver delivers the
    accepted SDUs unchanged and in order; a grant takes the first SDU as a whole or, when it is too
    small, nothing of it; and the buffer state is the number of bytes that are left. *)
Theorem tm_transparent cfg env es grant :
  0 < tmc_queue_size cfg < 2 ^ 16 -> 0 <= tmc_queue_size_bytes cfg < 2 ^ 32 ->
  pool_ok env = true -> (0 < max_slices env)%nat -> Forall tm_event_ok es ->
  let l := foldl (fun l e => tm_step cfg env e l) tm_link_init es in let s := tml_tx l in
  delivered (tml_rx l) ++ tm_todo cfg s = tml_submitted l /\
  (tm_pull_pdu cfg grant s).1 = (tm_taken grant (tm_todo cfg s)).1 /\
  tm_todo cfg (tm_pull_pdu cfg grant s).2 = (tm_taken grant (tm_todo cfg s)).2 /\
  tm_get_buffer_state s = u32 (zlen (concat (tm_todo cfg s))).
Proof.
  intros Hq Hb Hp Hm Hes. cbv zeta.
  assert (H0 : tm_inv cfg (tml_tx tm_link_init)) by (split; [by apply queue_init_inv|done|done]).
  assert (H1 : delivered (tml_rx tm_link_init) ++ tm_todo cfg (tml_tx tm_link_init) = tml_submitted tm_link_init) by done.
  revert H0 H1. generalize tm_link_init. induction Hes as [|e es He _ IH]; intros l H Hl; simpl.
  - split; [done|]. destruct (tm_pull_ok cfg Hq grant (tml_tx l) H) as (s' & -> & _ & H2). split; [done|]. split; [done|].
    unfold tm_get_buffer_state. destruct (queue_counters _ _ Hq Hb _ (tmi_queue _ _ H)) as [_ ->]. f_equal.
    assert (Hc : forall x, zlen (concat (sdu_bytes <$> x)) = total_bytes x).
    { induction x as [|y x IHx]; [done|]. simpl. rewrite length_app, Nat2Z.inj_add. by rewrite <- IHx. }
    unfold tm_todo. rewrite concat_app, length_app, Nat2Z.inj_add, Hc.
    destruct (decide (sdu_bytes (tm_sdu (tml_tx l)) = [])) as [E|E].
    + rewrite bool_decide_true, E by done. simpl. lia.
    + rewrite bool_decide_false by done. simpl. rewrite app_nil_r. lia.
  - destruct (tm_step_ok cfg env Hq Hb e l Hp Hm He H Hl). by apply IH.
Qed.

Lemma tm_transparent_witness :
  let l := foldl (fun l e => tm_step (mk_tx_tm_config 8 100) (mk_chain_env true 4) e l) tm_link_init
             [tm_ev_sdu (mk_tx_env true true) [1; 2; 3]; tm_ev_pull 2; tm_ev_sdu (mk_tx_env true true) [4]; tm_ev_pull 3] in
  delivered (tml_rx l) = [[1; 2; 3]] /\ tm_get_buffer_state (tml_tx l) = 1.
Proof.
  destruct (tm_transparent (mk_tx_tm_config 8 100) (mk_chain_env true 4)
    [tm_ev_sdu (mk_tx_env true true) [1; 2; 3]; tm_ev_pull 2; tm_ev_sdu (mk_tx_env true true) [4]; tm_ev_pull 3] 0)
    as (_ & _ & _ & Hbs).
  - simpl; lia.
  - simpl; lia.
  - reflexivity.
  - simpl; lia.
  - repeat constructor; simpl; lia.
  - split; [reflexivity|exact Hbs].
Defined.
