(* ===== verification/MacDlRlc.v ===== *)
(** * RLC bearers under the MAC

    The transmitting entities of RLC behind [mac_sdu_tx_adapter] ([lib/du/du_high/du_manager/du_ue/du_ue_adapters.h]) are bearers of the MAC; and what becomes of an
    unacknowledged-mode bearer: the octets that a UE reads out of the transport blocks are those the entity had to send, in order. *)
From S2P Require Import Prelude BitEncoding SduWindow RlcAmPdu RlcUmPdu RlcSegments RlcSduQueue RlcTxAm RlcTxAmInv RlcTxAmStatus RlcTxUm RlcTxUmProps RlcTm.
From S2P Require Import MacUlPdu MacRnti MacUl MacDlPdu MacDl MacDlProps.

Section bearers.
Context {P : Type} `{StatusProvider P} (PInv : rlc_am_sn_size -> P -> Prop) {HP : forall sz, StatusProviderLaws P sz (PInv sz)}.

(** ** The entities *)
Inductive rlc_tx_bearer :=
| tm_bearer (cfg : rlc_tx_tm_config) (s : rlc_tx_tm_entity)
| um_bearer (cfg : rlc_tx_um_config) (s : rlc_tx_um_entity)
| am_bearer (cfg : rlc_tx_am_config) (p : P) (s : rlc_tx_am_entity).

Record mac_sdu_tx_adapter := mk_tx_adapter { connected : bool; rlc_handler : rlc_tx_bearer }.

Definition rlc_pull_pdu (b : rlc_tx_bearer) (n : Z) : outcome (bytes * rlc_tx_bearer) :=
  match b with
  | tm_bearer cfg s => let '(pdu, s) := tm_pull_pdu cfg n s in ok (pdu, tm_bearer cfg s)
  | um_bearer cfg s => let '(pdu, s) := txu_pull_pdu cfg n s in ok (pdu, um_bearer cfg s)
  | am_bearer cfg p s => '(pdu, p, s) ← pull_pdu cfg n p s; ok (pdu, am_bearer cfg p s)
  end.

(** After [disconnect] nothing is sent. *)
#[export] Instance adapter_builder : MacSduTxBuilder mac_sdu_tx_adapter := fun a n =>
  if connected a then '(pdu, b) ← rlc_pull_pdu (rlc_handler a) n; ok (pdu, mk_tx_adapter (connected a) b) else ok ([], a).

Definition bearer_inv (b : rlc_tx_bearer) : Prop :=
  match b with
  | tm_bearer cfg s => 0 < tmc_queue_size cfg < 2 ^ 16 /\ tm_inv cfg s
  | um_bearer cfg s => 0 < txu_queue_size cfg < 2 ^ 16 /\ 0 <= txu_queue_size_bytes cfg < 2 ^ 32 /\ txu_inv cfg s
  | am_bearer cfg p s => 0 < queue_size cfg < 2 ^ 16 /\ 0 <= queue_size_bytes cfg < 2 ^ 32 /\ tx_inv cfg s /\ PInv (tx_sn_field_length cfg) p
  end.

Definition adapter_inv (a : mac_sdu_tx_adapter) : Prop := bearer_inv (rlc_handler a).

(** No entity writes more than its grant, whatever the grant. *)
Lemma rlc_pull_fits b n :
  bearer_inv b -> 0 <= n < 2 ^ 32 -> exists pdu b', rlc_pull_pdu b n = ok (pdu, b') /\ zlen pdu <= n /\ bearer_inv b'.
Proof.
  intros Hb Hn. destruct b as [cfg s|cfg s|cfg p s]; cbn [rlc_pull_pdu bearer_inv] in *.
  - destruct Hb as [Hq Hi]. destruct (tm_pull_ok cfg Hq n s Hi) as (s' & -> & Hi' & _). eexists _, _. split; [reflexivity|]. split; [|done].
    unfold tm_taken. destruct (tm_todo cfg s) as [|d rest]; [cbn; lia|]. destruct (Z.ltb_spec n (zlen d)); cbn [fst length]; lia.
  - destruct Hb as (Hq & Hbs & Hi). destruct (txu_pull_ok cfg Hq s n Hi Hn) as (pdu & s' & -> & Hi' & Hp & _). eexists _, _. split; [reflexivity|]. split; [|done].
    destruct Hp as [(-> & _)|(d & rest & h & payload & _ & _ & _ & Hs & _)]; [cbn; lia|]. exact (us_fits _ _ _ _ _ _ _ _ Hs).
  - destruct Hb as (Hq & Hbs & Hi & Hp). destruct (pull_pdu_ok cfg Hq Hbs (PInv (tx_sn_field_length cfg)) n p s Hi Hp) as (pdu & p' & s' & -> & Hi' & Hp' & Hpd).
    cbn [mbind outcome_bind]. eexists _, _. split; [reflexivity|]. split; [|done]. unfold pulled in Hpd. destruct (sp_required p).
    + destruct Hpd as [[[_ ->]|(r & dr & _ & Hl & _)] _]; [cbn|]; lia.
    + destruct Hpd as [->|[Hl _]]; [cbn|]; lia.
Qed.

#[export] Instance adapter_builder_laws : MacSduTxBuilderLaws mac_sdu_tx_adapter adapter_inv.
Proof.
  constructor. intros [c b] n Hi Hn. unfold adapter_inv in *. cbn [rlc_handler] in Hi. unfold on_new_tx_sdu, adapter_builder. cbn [connected rlc_handler].
  destruct c; [|exists [], (mk_tx_adapter false b); split; [done|]; split; [cbn; lia|done]].
  destruct (rlc_pull_fits b n Hi Hn) as (pdu & b' & -> & Hl & Hi'). cbn [mbind outcome_bind]. by eexists _, _.
Qed.

(** ** A UM bearer *)

(** The octets that the entity still has to send. *)
Definition um_rest (cfg : rlc_tx_um_config) (s : rlc_tx_um_entity) : bytes := drop (Z.to_nat (txu_next_so s)) (concat (txu_todo cfg s)).

(** A PDU, its header as the peer reads it, and its data. *)
Definition um_pdu_of (sz : rlc_um_sn_size) (pdu : bytes) (payload : bytes) : Prop :=
  exists h packed, rlc_um_read_data_pdu_header pdu sz = Some h /\ pdu = packed ++ payload /\ zlen packed = rlc_um_nr_packed_length h /\ payload <> [].

(** The octets of the discarded SDU at the end of the queue, if there is one. *)
Definition um_discarded_tail (cfg : rlc_tx_um_config) (s : rlc_tx_um_entity) : bytes :=
  concat (sdu_bytes <$> discarded_tail (txu_queue_size cfg) (txu_queue s)).

Lemma um_discarded_tail_popped cfg s s' :
  popped_from (txu_queue_size cfg) (txu_queue s) (txu_queue s') ->
  um_discarded_tail cfg s' = um_discarded_tail cfg s \/ um_discarded_tail cfg s' = [].
Proof.
  intros Hp. unfold um_discarded_tail. destruct (discarded_tail_popped _ _ _ Hp) as [->|E]; [by left|right]. unfold discarded_tail. by rewrite E.
Qed.

(** A grant takes octets of what is to be sent, or finds nothing to send and brings back what was discarded last. *)
Lemma um_pull_rest cfg s n :
  0 < txu_queue_size cfg < 2 ^ 16 -> txu_inv cfg s -> 0 <= n < 2 ^ 32 ->
  exists pdu s', txu_pull_pdu cfg n s = (pdu, s') /\ txu_inv cfg s' /\
    (pdu = [] /\ (um_rest cfg s' = um_rest cfg s \/
                  um_rest cfg s' = um_rest cfg s ++ um_discarded_tail cfg s /\ um_discarded_tail cfg s' = []) \/
     exists payload, um_pdu_of (txu_sn_field_length cfg) pdu payload /\ um_rest cfg s = payload ++ um_rest cfg s') /\
    (um_discarded_tail cfg s' = um_discarded_tail cfg s \/ um_discarded_tail cfg s' = []).
Proof.
  intros Hq Hi Hn. destruct (txu_pull_ok cfg Hq s n Hi Hn) as (pdu & s' & E & Hi' & Hp & Hpop & Hnil). exists pdu, s'. split; [done|]. split; [done|].
  split; [|by apply um_discarded_tail_popped].
  destruct Hp as [(-> & _ & Et & _ & Eo)|(d & rest & h & payload & Et & Hd & Hso & Hs & Hnext & _)].
  { left. split; [done|]. unfold um_rest. rewrite Et, Eo. destruct (Z.leb_spec n 1); [left; by rewrite app_nil_r|].
    unfold txu_revived. destruct (decide (txu_todo cfg s = [])) as [E0|E0]; [right|left; by rewrite bool_decide_false, app_nil_r].
    rewrite bool_decide_true, E0 by done. cbn [concat app]. rewrite drop_nil. split.
    - destruct (ui_sdu _ _ Hi) as [[_ ->]|[Hs Hso]]; [done|]. unfold txu_todo in E0. rewrite bool_decide_false in E0; [done|].
      intros Hz. unfold um_sdu_ok in Hs. rewrite Hz in Hs. simpl in Hs. lia.
    - unfold um_discarded_tail, discarded_tail. by rewrite Hnil by done. }
  right. exists payload. destruct Hs as [Hr (packed & Ep & El) _ Epay [Hpos Hle] _ _ _]. split; [exists h, packed; split_and!; try done; by intros ->|].
  unfold um_rest. rewrite Et. cbn [concat]. set (so := txu_next_so s) in *.
  assert (Esplit : drop (Z.to_nat so) (d ++ concat rest) = payload ++ drop (Z.to_nat (so + zlen payload)) (d ++ concat rest)).
  { rewrite Epay at 1. unfold slice. rewrite Nat2Z.id. replace (Z.to_nat (so + zlen payload)) with (Z.to_nat so + length payload)%nat by lia.
    rewrite <- drop_drop. rewrite (drop_app_le d) by lia. rewrite <- (take_drop (length payload) (drop (Z.to_nat so) d)) at 1. rewrite <- app_assoc. f_equal.
    rewrite drop_app_le; [done|]. rewrite length_drop. lia. }
  rewrite Esplit. f_equal. destruct (Z.eqb_spec (so + zlen payload) (zlen d)) as [Ed|Ed]; destruct Hnext as [-> ->].
  - rewrite Ed, Nat2Z.id, drop_app_length. by rewrite drop_0.
  - done.
Qed.

(** Successive calls of the MAC. *)
Lemma um_pulled_rest cfg a sdus a' :
  sdus_pulled a sdus a' -> forall s, 0 < txu_queue_size cfg < 2 ^ 16 -> txu_inv cfg s -> a = mk_tx_adapter true (um_bearer cfg s) ->
  exists s' payloads, a' = mk_tx_adapter true (um_bearer cfg s') /\ txu_inv cfg s' /\
    Forall2 (um_pdu_of (txu_sn_field_length cfg)) sdus payloads /\
    (um_rest cfg s = concat payloads ++ um_rest cfg s' \/ um_rest cfg s ++ um_discarded_tail cfg s = concat payloads ++ um_rest cfg s').
Proof.
  induction 1 as [a|a n a1 l a' Hn E _ IH|a n sdu a1 l a' Hn E Hne _ IH]; intros s Hq Hi ->.
  - exists s, []. split_and!; try done. by left.
  - unfold on_new_tx_sdu, adapter_builder in E. cbn [connected rlc_handler rlc_pull_pdu] in E.
    destruct (um_pull_rest cfg s n Hq Hi Hn) as (pdu & s1 & Ep & Hi1 & Hr & Ht). rewrite Ep in E. cbn [mbind outcome_bind] in E. injection E as -> <-.
    destruct (IH s1 Hq Hi1 eq_refl) as (s' & payloads & -> & Hi' & Hf & Er). exists s', payloads. split_and!; try done.
    destruct Hr as [[_ [<-|[E1 E2]]]|(payload & (h & packed & _ & Ee & _ & Hne) & _)].
    + destruct Er as [?|Er]; [by left|]. destruct Ht as [Ht|Ht]; rewrite Ht in Er; [by right|left]. by rewrite app_nil_r in Er.
    + right. destruct Er as [<-|Er]; [done|]. by rewrite E2, app_nil_r, E1 in Er.
    + symmetry in Ee. apply app_eq_nil in Ee as [_ ?]. done.
  - unfold on_new_tx_sdu, adapter_builder in E. cbn [connected rlc_handler rlc_pull_pdu] in E.
    destruct (um_pull_rest cfg s n Hq Hi Hn) as (pdu & s1 & Ep & Hi1 & Hr & Ht). rewrite Ep in E. cbn [mbind outcome_bind] in E. injection E as -> <-.
    destruct Hr as [[? _]|(payload & Hp & Er1)]; [done|]. destruct (IH s1 Hq Hi1 eq_refl) as (s' & payloads & -> & Hi' & Hf & Er).
    exists s', (payload :: payloads). split_and!; try done; [by constructor|]. cbn [concat]. rewrite Er1, <- !app_assoc.
    destruct Er as [<-|Er]; [by left|]. destruct Ht as [Ht|Ht]; rewrite Ht in Er; [right|left]; rewrite ?app_nil_r in Er; by rewrite Er.
Qed.

(** The SDUs of a logical channel among the subPDUs. *)
Definition lc_sdus (lcid : Z) (l : list dl_subpdu) : list bytes := dl_payload <$> filter (fun s => dl_lcid s = lcid) l.

Lemma lc_sdus_app lcid l l' : lc_sdus lcid (l ++ l') = lc_sdus lcid l ++ lc_sdus lcid l'.
Proof. unfold lc_sdus. by rewrite filter_app, fmap_app. Qed.

Lemma lc_sdus_subpdus lcid lcid' sdus : lc_sdus lcid (sdu_subpdus lcid' sdus) = if decide (lcid' = lcid) then sdus else [].
Proof.
  unfold lc_sdus, sdu_subpdus. induction sdus as [|x l IH]; [by case_decide|]. cbn [fmap list_fmap]. rewrite filter_cons. cbn [dl_lcid].
  case_decide; cbn [fmap list_fmap dl_payload]; rewrite IH; done.
Qed.
End bearers.

Lemma sdus_pulled_app {B} `{MacSduTxBuilder B} (b b1 b2 : B) l l' : sdus_pulled b l b1 -> sdus_pulled b1 l' b2 -> sdus_pulled b (l ++ l') b2.
Proof. induction 1; intros Hp; [done|by eapply pulled_empty; eauto|]. cbn [app]. eapply pulled_sdu; eauto. Qed.

(** What one bearer writes, of all that goes into a transport block. *)
Lemma lcs_built_bearer {B} `{MacSduTxBuilder B} t db rnti lcid id min room (bs : gmap Z B) lcs l bs' :
  lcs_built t db rnti min room bs lcs l bs' -> lcid <= LCID32 -> get_lc_sdu_builder t db rnti lcid = ok (Some id) ->
  (forall lcid', get_lc_sdu_builder t db rnti lcid' = ok (Some id) -> lcid' = lcid) ->
  forall b, bs !! id = Some b -> exists b', bs' !! id = Some b' /\ sdus_pulled b (lc_sdus lcid l) b'.
Proof.
  intros Hb Hl Hid Huniq.
  induction Hb as [min room bs|min room bs lc lcs id' b0 sdus b0' l bs' first Hs Hid' Hb0 _ Hg _ IH|min room bs lc lcs conres l bs' El _ _ IH|min room bs lc lcs ce l bs' El _ _ IH];
    intros b Hb.
  - exists b. split; [done|constructor].
  - apply granted_pulled in Hg as Hp; [|unfold get_mac_sdu_required_bytes, u32; divmod].
    rewrite lc_sdus_app, lc_sdus_subpdus. case_decide as E.
    + rewrite E, Hid in Hid'. injection Hid' as <-. rewrite Hb in Hb0. injection Hb0 as <-. destruct (IH b0') as (b' & Hb' & Hp'); [by rewrite lookup_insert_eq|].
      exists b'. split; [done|]. by eapply sdus_pulled_app.
    + destruct (IH b) as (b' & Hb' & Hp'); [|by exists b']. rewrite lookup_insert_ne; [done|]. intros ->. by apply E, Huniq.
  - destruct (IH b Hb) as (b' & Hb' & Hp'). exists b'. split; [done|]. unfold lc_sdus in *. rewrite filter_cons. cbn [dl_lcid].
    rewrite decide_False by (unfold UE_CON_RES_ID, LCID32 in *; lia). done.
  - destruct (IH b Hb) as (b' & Hb' & Hp'). exists b'. split; [done|]. unfold lc_sdus in *. rewrite filter_cons. cbn [dl_lcid].
    rewrite decide_False by (unfold TA_CMD, LCID32 in *; lia). done.
Qed.

(** A grant of five octets or more moves a bearer that has something to send. *)
Definition granted_for (lcid : Z) (lc : dl_msg_lc_info) : Prop := lc_lcid lc = lcid /\ 5 <= sched_bytes lc < 2 ^ 16.

Section progress.
Context {P : Type} `{StatusProvider P}.

Lemma um_granted_progress first lcid room rem cfg s sdus (a' : mac_sdu_tx_adapter) :
  0 < txu_queue_size cfg < 2 ^ 16 -> txu_inv cfg s -> um_rest cfg s <> [] -> first <= 5 -> 7 <= rem <= room -> rem < 2 ^ 32 ->
  sdus_granted first lcid room rem (mk_tx_adapter true (um_bearer cfg s)) sdus a' -> sdus <> [].
Proof.
  intros Hq Hi Hne Hf Hr Hr32 Hg. inversion Hg as [? ? ? Hn|? ? n ? ? _ _ (_ & Hfit & Hmax) E|]; subst; [|intros _|done].
  - exfalso. unfold min_mac_subhdr_and_sdu_space_required, MIN_MAC_SDU_SUBHEADER_SIZE, RLC_HEADER_SIZE_ESTIM in Hn. destruct (negb _); lia.
  - assert (Hn : 4 < n < 2 ^ 32).
    { destruct (Z.lt_ge_cases n 5) as [Hlt|]; [specialize (Hmax 5 Hlt); unfold subheader_octets in Hmax; cbn in Hmax; lia|]. unfold subheader_octets in Hfit. zcases; lia. }
    unfold on_new_tx_sdu, adapter_builder in E. cbn [connected rlc_handler rlc_pull_pdu] in E.
    destruct (txu_pull_ok cfg Hq s n Hi) as (pdu & s1 & Ep & _ & Hp & _); [lia|]. rewrite Ep in E. cbn [mbind outcome_bind] in E. injection E as -> _.
    destruct Hp as [(_ & [Ht|?] & _)|(d & rest & h & payload & _ & _ & _ & Hs & _)]; [|lia|].
    + apply Hne. unfold um_rest. rewrite Ht. cbn [concat]. by rewrite drop_nil.
    + destruct (us_bytes _ _ _ _ _ _ _ _ Hs) as (packed & Epk & _). destruct (us_some _ _ _ _ _ _ _ _ Hs) as [Hpos _].
      symmetry in Epk. apply app_eq_nil in Epk as [_ ->]. simpl in Hpos. lia.
Qed.

Lemma lcs_built_um_progress cfg t db rnti lcid id min room (bs : gmap Z mac_sdu_tx_adapter) lcs l bs' :
  lcs_built t db rnti min room bs lcs l bs' -> lcid <= LCID32 -> get_lc_sdu_builder t db rnti lcid = ok (Some id) ->
  (forall lcid', get_lc_sdu_builder t db rnti lcid' = ok (Some id) -> lcid' = lcid) -> 0 < txu_queue_size cfg < 2 ^ 16 ->
  default 5 min <= 5 -> Exists (granted_for lcid) lcs ->
  forall s, txu_inv cfg s -> bs !! id = Some (mk_tx_adapter true (um_bearer cfg s)) -> um_rest cfg s <> [] -> lc_sdus lcid l <> [].
Proof.
  intros Hb Hl Hid Huniq Hq.
  induction Hb as [min room bs|min room bs lc lcs id' b0 sdus b0' l bs' first Hs Hid' Hb0 Hroom Hg _ IH|min room bs lc lcs conres l bs' El _ _ IH|min room bs lc lcs ce l bs' El _ _ IH];
    intros Hmin Hex s Hi Hb Hne; [by apply Exists_nil in Hex| |apply Exists_cons in Hex as [[E _]|Hex]..].
  - assert (Hf : first <= 5).
    { unfold first, min_mac_subhdr_and_sdu_space_required, MIN_MAC_SDU_SUBHEADER_SIZE, RLC_HEADER_SIZE_ESTIM. destruct min; cbn in *; [done|]. destruct (negb _); lia. }
    rewrite lc_sdus_app, lc_sdus_subpdus. intros [Hnil Hrest]%app_eq_nil. apply Exists_cons in Hex. destruct (decide (lc_lcid lc = lcid)) as [E|E].
    + rewrite E, Hid in Hid'. injection Hid' as <-. rewrite Hb in Hb0. injection Hb0 as <-. subst sdus. destruct Hex as [[_ H5]|Hex].
      * assert (Hreq : 7 <= get_mac_sdu_required_bytes (sched_bytes lc) < 2 ^ 32).
        { destruct (required_bytes_bound (sched_bytes lc)) as [Hb1 Hb2]; [lia|]. rewrite Hb2 in *. rewrite subheader_size by lia. destruct (256 <=? _); lia. }
        by destruct (um_granted_progress _ _ _ _ _ _ _ _ Hq Hi Hne Hf (conj (proj1 Hreq) Hroom) (proj2 Hreq) Hg).
      * apply granted_pulled in Hg as Hp; [|unfold get_mac_sdu_required_bytes, u32; divmod].
        destruct (um_pulled_rest cfg _ _ _ Hp s Hq Hi eq_refl) as (s' & payloads & -> & Hi' & Hf2 & Er). inversion Hf2; subst payloads. cbn [concat app] in Er.
        apply (IH Hf Hex s' Hi'); [by rewrite lookup_insert_eq| |done]. destruct Er as [<-|<-]; [done|]. by intros [? _]%app_eq_nil.
    + apply (IH Hf) with (s := s); try done; [by destruct Hex as [[? _]|?]|]. rewrite lookup_insert_ne; [done|]. intros ->. by apply E, Huniq.
  - rewrite El in E. unfold UE_CON_RES_ID, LCID32 in *. lia.
  - unfold lc_sdus in *. rewrite filter_cons. cbn [dl_lcid]. rewrite decide_False by (unfold UE_CON_RES_ID, LCID32 in *; lia). by apply (IH Hmin Hex s).
  - rewrite El in E. unfold TA_CMD, LCID32 in *. lia.
  - unfold lc_sdus in *. rewrite filter_cons. cbn [dl_lcid]. rewrite decide_False by (unfold TA_CMD, LCID32 in *; lia). by apply (IH Hmin Hex s).
Qed.
End progress.

(** C12: an unacknowledged-mode bearer under the MAC: of a transport block, whatever else is in it, the UE reads for the logical channel of the bearer RLC PDUs that its own entity
    can parse, and their data, one after the other, is exactly what the bearer's entity had to send, up to what it still has to send. What it had to send are the octets left
    of the SDU under segmentation and the SDUs of its queue, without the discarded ones; once these are through, the discarded SDU at the end of the queue, if there is one, may
    follow them, because the entity keeps the SDU that the failed read of its queue has popped. If there is something to send and the channel is granted at least five octets,
    the UE gets at least one PDU. *)
Theorem mac_um_octets_in_order {P} `{StatusProvider P} (PInv : rlc_am_sn_size -> P -> Prop) {HP : forall sz, StatusProviderLaws P sz (PInv sz)}
    (m : mac_dl mac_sdu_tx_adapter) rnti h_id lcs tb ue buffer lcid id cfg s :
  dl_inv (adapter_inv PInv) m -> is_crnti rnti = true -> get_ue_index (dl_rntis m) rnti = ok ue -> is_du_ue_index_valid ue = true ->
  dl_harq_buffer (dl_harqs m) ue h_id = ok buffer -> 0 <= tb <= zlen buffer -> tb < 2 ^ 31 -> Forall (lc_ok m rnti) lcs -> lcs_size lcs <= tb ->
  lcid <= LCID32 -> get_lc_sdu_builder (dl_rntis m) (dl_ues m) rnti lcid = ok (Some id) ->
  (forall lcid', get_lc_sdu_builder (dl_rntis m) (dl_ues m) rnti lcid' = ok (Some id) -> lcid' = lcid) ->
  dl_builders m !! id = Some (mk_tx_adapter true (um_bearer cfg s)) ->
  exists m' pdu l s' payloads,
    assemble_newtx_pdu m rnti h_id lcs tb = ok (m', pdu) /\ ue_parse (S (length pdu)) pdu = Some l /\
    dl_builders m' !! id = Some (mk_tx_adapter true (um_bearer cfg s')) /\
    Forall2 (um_pdu_of (txu_sn_field_length cfg)) (lc_sdus lcid l) payloads /\
    (um_rest cfg s = concat payloads ++ um_rest cfg s' \/ um_rest cfg s ++ um_discarded_tail cfg s = concat payloads ++ um_rest cfg s') /\
    (um_rest cfg s <> [] -> Exists (granted_for lcid) lcs -> default 5 (min_mac_sdu_size m) <= 5 -> payloads <> []).
Proof.
  intros Hm Hr Ht Hv Hb Htb Hsm Hl Hs Hlc Hid Huniq Hbm.
  destruct (assemble_newtx_ok (adapter_inv PInv) m rnti h_id lcs tb ue buffer Hm Hr Ht Hv Hb Htb Hsm Hl Hs) as (m' & pdu & l & mem & E & _ & _ & Hp & Hbuilt & _).
  destruct (lcs_built_bearer _ _ _ lcid id _ _ _ _ _ _ Hbuilt Hlc Hid Huniq _ Hbm) as (a' & Ha' & Hpull).
  destruct (di_builders _ m Hm id _ Hbm) as (Hq & _ & Hi).
  destruct (um_pulled_rest cfg _ _ _ Hpull s Hq Hi eq_refl) as (s' & payloads & -> & _ & Hf & Er). exists m', pdu, l, s', payloads. split_and!; try done.
  intros Hne Hex Hmin ->. inversion Hf as [Hnil|]. by apply (lcs_built_um_progress cfg _ _ _ lcid id _ _ _ _ _ _ Hbuilt Hlc Hid Huniq Hq Hmin Hex s Hi Hbm Hne).
Qed.
