(* ===== verification/MacDlExamples.v ===== *)
(** * The transmitting side of the MAC: a cell with one UE

    A UE with an unacknowledged-mode bearer in logical channel 4 and two HARQ processes with buffers of 24 octets, what the theorems say of its transport blocks, and the
    behaviour of the assembler in the cases that the theorems leave out. *)
From S2P Require Import Prelude BitEncoding SduWindow RlcAmPdu RlcUmPdu RlcSegments RlcSduQueue RlcRxAm RlcTxAm RlcTxAmInv RlcTxAmStatus RlcTxAmProps.
From S2P Require Import RlcTxUm RlcTxUmProps RlcTm MacUlPdu MacRnti MacUl MacDlPdu MacDl MacDlProps MacDlRlc.

(** ** The cell *)
Local Instance cell_provider : StatusProvider rlc_rx_am_entity := rx_status_provider rx_cfg12 true.
Local Abbreviation cell_inv := (dl_inv (adapter_inv reports_wf)).

Definition cell_rnti : Z := 0x4601.

Definition cell_tm_cfg : rlc_tx_tm_config := mk_tx_tm_config 16 1000.

(** The entities of SRB0 and of the unacknowledged-mode bearer, with one SDU each in the queue. *)
Definition cell_tm : rlc_tx_tm_entity := tm_handle_sdu cell_tm_cfg um_env tm_init [9; 9] false.
Definition cell_um : rlc_tx_um_entity :=
  match txu_handle_sdu um_tx_cfg6 um_env txu_init [128; 1; 7; 8; 9] false with ok s => s | fail _ => txu_init end.

Definition cell : mac_dl (mac_sdu_tx_adapter (P:=rlc_rx_am_entity)) :=
  mk_mac_dl (mk_rnti_table {[cell_rnti := 0]} 1) {[0 := mk_dl_ue 0 {[0 := 30; 4 := 40]} [1; 2; 3; 4; 5; 6]]}
    {[30 := mk_tx_adapter true (tm_bearer cell_tm_cfg cell_tm); 40 := mk_tx_adapter true (um_bearer um_tx_cfg6 cell_um)]}
    (mk_harq_pool 24 {[0 := [replicate 24 0; replicate 24 0]]} [] 0) None.

(** A timing advance command, the contention resolution identity and octets of the bearer. *)
Definition cell_lcs (n : Z) : list dl_msg_lc_info :=
  [mk_lc_info TA_CMD 0 (Some (mk_ta_cmd 0 31)); mk_lc_info UE_CON_RES_ID 0 None; mk_lc_info 4 n None].

Lemma cell_um_inv : txu_inv um_tx_cfg6 cell_um.
Proof.
  destruct (txu_handle_sdu_ok um_tx_cfg6 ltac:(done) ltac:(done) um_env txu_init [128; 1; 7; 8; 9] false) as (s & E & Hs & _).
  - by apply txu_init_inv.
  - repeat constructor; unfold is_byte; lia.
  - by split.
  - unfold cell_um. by rewrite E.
Qed.

Lemma cell_dl_inv : cell_inv cell.
Proof.
  split; cbn [cell dl_rntis dl_ues dl_builders min_mac_sdu_size].
  - intros rnti Hr. unfold is_crnti in Hr. apply andb_prop in Hr as [H1 H2]. eexists. unfold table_get. rewrite H2.
    replace (rnti - MIN_CRNTI <? RNTI_RANGE) with true; [reflexivity|]. symmetry. apply Z.ltb_lt. apply Z.leb_le in H1. unfold RNTI_RANGE. lia.
  - by intros ue u [<- <-]%lookup_singleton_Some.
  - intros id b [[<- <-]|[_ [<- <-]%lookup_singleton_Some]]%lookup_insert_Some; unfold adapter_inv; cbn [rlc_handler bearer_inv].
    + split; [done|]. apply tm_handle_sdu_ok; [done..| |done]. split; [by apply queue_init_inv|constructor|constructor].
    + split_and!; [done..|apply cell_um_inv].
  - done.
Qed.

Lemma cell_lcs_ok n : 0 <= n < 2 ^ 16 -> Forall (lc_ok cell cell_rnti) (cell_lcs n).
Proof.
  intros Hn. repeat (apply Forall_cons; split); [| | |done].
  - right; right. split; [reflexivity|by eexists].
  - right; left. reflexivity.
  - left. cbn [lc_lcid sched_bytes]. split; [done|]. split; [done|]. exists 40. split; [reflexivity|]. by eexists.
Qed.

(** What the theorems have as hypotheses of the cell. *)
Lemma cell_ready : exists buffer, cell_inv cell /\ is_crnti cell_rnti = true /\ get_ue_index (dl_rntis cell) cell_rnti = ok 0 /\
  is_du_ue_index_valid 0 = true /\ dl_harq_buffer (dl_harqs cell) 0 0 = ok buffer /\ zlen buffer = 24.
Proof. exists (replicate 24 0). split; [exact cell_dl_inv|]. by split_and!. Qed.

(** ** The theorems, of this cell *)
Lemma mac_dl_assembled_witness :
  exists m' pdu, assemble_newtx_pdu cell cell_rnti 0 (cell_lcs 9) 24 = ok (m', pdu) /\ zlen pdu = 24 /\
    ue_parse 25 pdu = Some [mk_dl_subpdu 61 [31]; mk_dl_subpdu 62 [1; 2; 3; 4; 5; 6]; mk_dl_subpdu 4 [0; 128; 1; 7; 8; 9]] /\ cell_inv m'.
Proof.
  destruct cell_ready as (buffer & Hm & Hr & Ht & Hv & Hb & Hlen).
  destruct (mac_dl_assembled (adapter_inv reports_wf) cell cell_rnti 0 (cell_lcs 9) 24 0 buffer Hm Hr Ht Hv Hb ltac:(lia) ltac:(lia))
    as (m' & pdu & l & E & Hlp & Hp & _ & Hm'); [apply cell_lcs_ok; lia|vm_compute; congruence|].
  exists m', pdu. split; [exact E|]. split; [exact Hlp|]. split; [|exact Hm']. vm_compute in E. injection E as <- <-. reflexivity.
Defined.

(** The bearer sends a segment, the rest of the SDU goes into another HARQ process, then the first block is retransmitted. *)
Lemma mac_dl_retx_repeats_witness :
  exists m' pdu m'', assemble_newtx_pdu cell cell_rnti 0 (cell_lcs 5) 24 = ok (m', pdu) /\
    dl_run m' [dlo_newtx cell_rnti 1 [mk_lc_info 4 5 None] 24; dlo_allocate false 1 2; dlo_deallocate 1; dlo_bearers ∅] = ok m'' /\
    pdu <> replicate 24 0 /\ assemble_retx_pdu m'' cell_rnti 0 24 = ok pdu.
Proof.
  destruct cell_ready as (buffer & Hm & Hr & Ht & Hv & Hb & Hlen).
  destruct (assemble_newtx_pdu cell cell_rnti 0 (cell_lcs 5) 24) as [[m' pdu]|] eqn:E; [|by vm_compute in E].
  set (ops := [dlo_newtx cell_rnti 1 [mk_lc_info 4 5 None] 24; dlo_allocate false 1 2; dlo_deallocate 1; dlo_bearers ∅]).
  destruct (dl_run m' ops) as [m''|] eqn:Er; [|by vm_compute in E; injection E as <- <-; vm_compute in Er].
  exists m', pdu, m''. split; [done|]. split; [done|]. split; [by vm_compute in E; injection E as <- <-|].
  apply (mac_dl_retx_repeats (adapter_inv reports_wf) cell cell_rnti 0 (cell_lcs 5) 24 0 buffer m' pdu ops m'' Hm Hr Ht Hv ltac:(lia) Hb); try lia;
    [apply cell_lcs_ok; lia|vm_compute; congruence|exact E| |exact Er].
  unfold ops. apply Forall_cons; split; [cbn [dl_op_other]; split; [lia|intros _; lia]|]. apply Forall_cons; split; [exact I|].
  apply Forall_cons; split; [cbn [dl_op_other]; lia|]. apply Forall_cons; split; [exact I|constructor].
Defined.

Lemma mac_um_octets_in_order_witness :
  exists m' pdu l s', assemble_newtx_pdu cell cell_rnti 0 (cell_lcs 5) 24 = ok (m', pdu) /\ ue_parse (S (length pdu)) pdu = Some l /\
    lc_sdus 4 l = [[64; 128; 1; 7; 8]] /\ um_rest um_tx_cfg6 s' = [9] /\ lc_sdus 4 l <> [] /\
    exists payloads, um_rest um_tx_cfg6 cell_um = concat payloads ++ um_rest um_tx_cfg6 s'.
Proof.
  destruct cell_ready as (buffer & Hm & Hr & Ht & Hv & Hb & Hlen).
  destruct (mac_um_octets_in_order reports_wf cell cell_rnti 0 (cell_lcs 5) 24 0 buffer 4 40 um_tx_cfg6 cell_um Hm Hr Ht Hv Hb)
    as (m' & pdu & l & s' & payloads & E & Hp & Hs' & Hf & Er & Hmore); try lia; [apply cell_lcs_ok; lia|vm_compute; congruence|done|reflexivity| |reflexivity|].
  - intros lcid' E. vm_compute in E. destruct lcid' as [|[[]|[[]|[]|]|]|]; try discriminate; done.
  - assert (Hne : payloads <> []).
    { apply Hmore; [by vm_compute| |done]. do 2 apply Exists_cons_tl. apply Exists_cons_hd. split; [reflexivity|cbn; lia]. }
    exists m', pdu, l, s'. split; [exact E|]. split; [exact Hp|]. vm_compute in E. injection E as <- <-. vm_compute in Hp. injection Hp as <-.
    split; [reflexivity|]. vm_compute in Hs'. injection Hs' as <-. split; [reflexivity|]. split; [intros El; rewrite El in Hf; inversion Hf; by subst|].
    exists payloads. destruct Er as [Er|Er]; [exact Er|]. replace (um_discarded_tail um_tx_cfg6 cell_um) with (@nil Z) in Er by reflexivity.
    rewrite app_nil_r in Er. exact Er.
Defined.

(** ** What the theorems leave out *)

(** SRB0 has an SDU of 2 octets. In a first call it goes into 4 octets of grant; after a call for another logical channel, whose minimum the static variable
    remembers, the same grant is left empty. *)
Example static_min_sdu_size :
  (exists m, assemble_newtx_pdu cell cell_rnti 0 [mk_lc_info 0 2 None] 4 = ok (m, [0; 2; 9; 9])) /\
  (exists m m' pdu, assemble_newtx_pdu cell cell_rnti 0 [mk_lc_info 4 2 None] 4 = ok (m, pdu) /\
     assemble_newtx_pdu m cell_rnti 1 [mk_lc_info 0 2 None] 4 = ok (m', [63; 0; 0; 0])).
Proof. split; repeat eexists; vm_compute; reflexivity. Qed.

(** Of the tag of a timing advance command the two high bits of the octet are taken: tags 0 to 3 are sent as tag 0. *)
Example tag_id_lost tag cmd : 0 <= tag < 4 -> 0 <= cmd < 64 -> ta_octet (mk_ta_cmd tag cmd) = cmd.
Proof.
  intros Ht Hc. rewrite ta_octet_value. cbn [tag_id ta_cmd]. rewrite (Z.div_small tag 64), (Z.mod_small cmd 64) by lia. reflexivity.
Qed.

(** The assertion of [dl_harq_buffer] lets the number of buffers pass; it is that of the vector that stops the access. *)
Example harq_id_off_by_one :
  zlen (ue_buffers (dl_harqs cell) 0) = 2 /\ srsran_assert (2 <=? zlen (ue_buffers (dl_harqs cell) 0)) = ok tt /\ dl_harq_buffer (dl_harqs cell) 0 2 = fail assertion.
Proof. by split_and!. Qed.

(** [add_sdu] of 6 octets to a PDU with room for 5: it returns 0, but the octets behind the PDU have been overwritten; without such octets it writes out of the buffer. *)
Example add_sdu_overruns :
  add_sdu (mk_dl_pdu [0; 0; 0; 0; 0; 0; 7; 7] 5 0) 4 [1; 2; 3; 4; 5; 6] = ok (mk_dl_pdu [0; 0; 1; 2; 3; 4; 5; 6] 5 0, 0) /\
  add_sdu (mk_dl_pdu [0; 0; 0; 0; 0] 5 0) 4 [1; 2; 3; 4; 5; 6] = fail invalid_access.
Proof. by split. Qed.

(** Control elements that exceed the transport block: an assertion, before the size is compared. *)
Example control_elements_exceed : assemble_newtx_pdu cell cell_rnti 0 (cell_lcs 9) 1 = fail assertion.
Proof. vm_compute. reflexivity. Qed.
