(* ===== verification/SlotPoint.v ===== *)
(** * Slots

    Slots that wrap around with the system frame number ([include/srsran/ran/slot_point.h]) and the size of rings that are indexed by slots
    ([include/srsran/scheduler/resource_grid_util.h]). *)
From S2P Require Import Prelude.

Definition NOF_SUBFRAMES_PER_FRAME : Z := 10.
Definition NOF_SFNS : Z := 1024.
Definition NOF_NUMEROLOGIES : Z := 5.

Definition nof_slots_per_subframe (numerology : Z) : Z := u32 (Z.shiftl 1 numerology).
Definition nof_slots_per_frame (numerology : Z) : Z := u32 (nof_slots_per_subframe numerology * NOF_SUBFRAMES_PER_FRAME).
Definition nof_slots_per_system_frame (numerology : Z) : Z := u32 (nof_slots_per_frame numerology * NOF_SFNS).

(** The two bit fields, of 3 and of 29 bits. *)
Record slot_point := mk_slot { numerology_val : Z; count_val : Z }.

#[export] Instance slot_point_eq_dec : EqDecision slot_point.
Proof. solve_decision. Defined.

(** ** Construction and parts *)
Definition slot_init : slot_point := mk_slot NOF_NUMEROLOGIES 0.

Definition slot_of_count (numerology count : Z) : outcome slot_point :=
  _ ← srsran_assert (numerology <? NOF_NUMEROLOGIES);
  _ ← srsran_assert (count <? nof_slots_per_system_frame numerology);
  ok (mk_slot numerology count).

Definition slot_of_sfn (numerology sfn_val slot_radio_frame_idx : Z) : outcome slot_point :=
  _ ← srsran_assert (numerology <? NOF_NUMEROLOGIES);
  _ ← srsran_assert (sfn_val <? NOF_SFNS);
  _ ← srsran_assert (slot_radio_frame_idx <? nof_slots_per_frame numerology);
  ok (mk_slot numerology (u32 (slot_radio_frame_idx + sfn_val * nof_slots_per_frame numerology))).

Definition slot_of_subframe (numerology sfn_val subframe_index slot_subframe_index : Z) : outcome slot_point :=
  _ ← srsran_assert (numerology <? NOF_NUMEROLOGIES);
  _ ← srsran_assert (sfn_val <? NOF_SFNS);
  _ ← srsran_assert (subframe_index <? NOF_SUBFRAMES_PER_FRAME);
  _ ← srsran_assert (slot_subframe_index <? nof_slots_per_subframe numerology);
  ok (mk_slot numerology
        (u32 (slot_subframe_index + subframe_index * nof_slots_per_subframe numerology + sfn_val * nof_slots_per_frame numerology))).

Definition slot_clear (s : slot_point) : slot_point := mk_slot NOF_NUMEROLOGIES (count_val s).
Definition slot_valid (s : slot_point) : bool := numerology_val s <? NOF_NUMEROLOGIES.
Definition slot_index (s : slot_point) : Z := count_val s mod nof_slots_per_frame (numerology_val s).
Definition slot_sfn (s : slot_point) : Z := count_val s / nof_slots_per_frame (numerology_val s).
Definition slot_subframe_index (s : slot_point) : Z := slot_index s / nof_slots_per_subframe (numerology_val s).
Definition subframe_slot_index (s : slot_point) : Z := count_val s mod nof_slots_per_subframe (numerology_val s).
Definition nof_hrf_slots (s : slot_point) : Z := nof_slots_per_frame (numerology_val s) / 2.
Definition is_odd_hrf (s : slot_point) : bool := NOF_SUBFRAMES_PER_FRAME / 2 <=? slot_subframe_index s.
Definition hrf_slot_index (s : slot_point) : Z := count_val s mod nof_hrf_slots s.

(** ** Order *)
Definition slot_lt (s other : slot_point) : outcome bool :=
  _ ← srsran_assert (numerology_val s =? numerology_val other);
  let half := nof_slots_per_system_frame (numerology_val s) / 2 in
  let v := count_val other - count_val s in
  ok (if 0 <? v then v <? half else v <? - half).

Definition slot_eq (s other : slot_point) : bool := bool_decide (s = other).
Definition slot_le (s other : slot_point) : outcome bool := if slot_eq s other then ok true else slot_lt s other.
Definition slot_ge (s other : slot_point) : outcome bool := b ← slot_lt s other; ok (negb b).
Definition slot_gt (s other : slot_point) : outcome bool := if slot_eq s other then ok false else slot_ge s other.
Definition slot_in_interval (s start stop : slot_point) : outcome bool := b ← slot_ge s start; if b : bool then slot_lt s stop else ok false.

(** ** Arithmetic *)
Definition slot_diff (s other : slot_point) : Z :=
  let n := nof_slots_per_system_frame (numerology_val s) in
  let a := count_val s - count_val other in
  if n / 2 <=? a then a - n else if a <? - (n / 2) then a + n else a.

Definition slot_next (s : slot_point) : slot_point :=
  let count := count_val s + 1 in
  mk_slot (numerology_val s) (if count =? nof_slots_per_system_frame (numerology_val s) then 0 else count).

(** [operator+=] for an unsigned and for a signed jump. *)
Definition slot_add (s : slot_point) (jump : Z) : slot_point :=
  mk_slot (numerology_val s) (u32 (count_val s + jump) mod nof_slots_per_system_frame (numerology_val s)).

Definition slot_add_int (s : slot_point) (jump : Z) : slot_point :=
  let n := nof_slots_per_system_frame (numerology_val s) in
  let tmp := Z.rem (count_val s + jump) n in
  mk_slot (numerology_val s) (tmp + (if tmp <? 0 then n else 0)).

Definition slot_sub (s : slot_point) (jump : Z) : slot_point := slot_add_int s (- jump).

Definition slot_max (lhs rhs : slot_point) : outcome slot_point := b ← slot_gt lhs rhs; ok (if b : bool then lhs else rhs).
Definition slot_min (lhs rhs : slot_point) : outcome slot_point := b ← slot_lt lhs rhs; ok (if b : bool then lhs else rhs).

Definition set_slot_numerology (sl : slot_point) (new_numerology : Z) : outcome slot_point :=
  let old_numerology := numerology_val sl in
  if new_numerology <? old_numerology then slot_of_count new_numerology (Z.shiftr (count_val sl) (old_numerology - new_numerology))
  else if old_numerology <? new_numerology then slot_of_count new_numerology (u32 (Z.shiftl (count_val sl) (new_numerology - old_numerology)))
  else ok sl.

(** ** Rings *)
Fixpoint power2_loop (fuel : nat) (x power : Z) : outcome Z :=
  match fuel with
  | O => fail out_of_fuel
  | S fuel => let x := Z.shiftr x 1 in if x =? 0 then ok power else power2_loop fuel x (u32 (Z.shiftl power 1))
  end.

Definition power2_ceil (x : Z) : outcome Z := if x <=? 1 then ok 1 else power2_loop 32 (x - 1) 2.

Definition divide_ceil (num den : Z) : Z := u32 (num + (den - 1)) / den.

Definition get_allocator_ring_size_gt_min (minimum_value numerology : Z) : outcome Z :=
  let slots_per_frame := u32 (10 * nof_slots_per_subframe numerology) in
  p ← power2_ceil (divide_ceil minimum_value slots_per_frame);
  ok (u32 (p * slots_per_frame)).

Definition SCHEDULER_MAX_K0 : Z := 15.
Definition SCHEDULER_MAX_K1 : Z := 15.
Definition SCHEDULER_MAX_K2 : Z := 11.
Definition MAX_MSG3_DELTA : Z := 6.

Definition get_max_slot_ul_alloc_delay (ntn_cs_koffset : Z) : Z :=
  SCHEDULER_MAX_K0 + Z.max SCHEDULER_MAX_K1 (SCHEDULER_MAX_K2 + MAX_MSG3_DELTA) + ntn_cs_koffset.

(** * Properties *)

(** ** Lengths of frames *)
Abbreviation nsf := nof_slots_per_system_frame.

Definition slot_ok (mu : Z) (s : slot_point) : Prop := 0 <= mu < NOF_NUMEROLOGIES /\ numerology_val s = mu /\ 0 <= count_val s < nsf mu.

Lemma slots_per mu :
  0 <= mu < NOF_NUMEROLOGIES ->
  nof_slots_per_subframe mu = 2 ^ mu /\ nof_slots_per_frame mu = 10 * 2 ^ mu /\ nsf mu = 10240 * 2 ^ mu /\ 1 <= 2 ^ mu <= 16.
Proof. unfold NOF_NUMEROLOGIES. intros H. assert (mu = 0 \/ mu = 1 \/ mu = 2 \/ mu = 3 \/ mu = 4) as [->|[->|[->|[->| ->]]]] by lia; by vm_compute. Qed.

Lemma N_even mu : 0 <= mu < NOF_NUMEROLOGIES -> nsf mu = 2 * (nsf mu / 2) /\ 5120 <= nsf mu / 2 /\ nsf mu < 2 ^ 29.
Proof. intros H. destruct (slots_per mu H) as (_ & _ & -> & H2). split; [|split]; divmod. Qed.

(** Slots as positions on a circle. *)
Definition slot_dist (a b : slot_point) : Z := (count_val b - count_val a) mod nsf (numerology_val a).

Lemma slot_dist_range mu a b : slot_ok mu a -> 0 <= slot_dist a b < nsf mu.
Proof. intros (Hm & E & _). unfold slot_dist. rewrite E. apply Z.mod_pos_bound. pose proof (N_even mu Hm). lia. Qed.

Lemma mod_cases x n : 0 < n -> - n <= x < n -> x mod n = if x <? 0 then x + n else x.
Proof. intros Hn Hx. destruct (Z.ltb_spec x 0); [|apply Z.mod_small; lia]. rewrite <- (Z.mod_add x 1 n), Z.mod_small by lia. lia. Qed.

Lemma slot_dist_cases mu a b :
  slot_ok mu a -> slot_ok mu b -> slot_dist a b = if count_val b <? count_val a then count_val b - count_val a + nsf mu else count_val b - count_val a.
Proof.
  intros (Hm & Ea & Ha) (_ & Eb & Hb). unfold slot_dist. rewrite Ea. rewrite mod_cases by lia.
  destruct (Z.ltb_spec (count_val b) (count_val a)); [rewrite (proj2 (Z.ltb_lt _ 0)) by lia|rewrite (proj2 (Z.ltb_ge _ 0)) by lia]; lia.
Qed.

(** ** Arithmetic *)
Lemma slot_add_ok mu s jump :
  slot_ok mu s -> 0 <= jump < 2 ^ 31 -> slot_ok mu (slot_add s jump) /\ count_val (slot_add s jump) = (count_val s + jump) mod nsf mu.
Proof.
  intros (Hm & E & H) Hj. pose proof (N_even mu Hm). unfold slot_add, slot_ok. cbn [numerology_val count_val]. rewrite E, u32_small by lia. split; [|done].
  split; [done|]. split; [done|]. apply Z.mod_pos_bound; lia.
Qed.

Lemma slot_add_int_ok mu s jump :
  slot_ok mu s -> slot_ok mu (slot_add_int s jump) /\ count_val (slot_add_int s jump) = (count_val s + jump) mod nsf mu.
Proof.
  intros (Hm & E & H). pose proof (N_even mu Hm). unfold slot_add_int, slot_ok. cbn [numerology_val count_val]. rewrite E. set (x := count_val s + jump).
  assert (Hc : Z.rem x (nsf mu) + (if Z.rem x (nsf mu) <? 0 then nsf mu else 0) = x mod nsf mu).
  { pose proof (Z.quot_rem x (nsf mu) ltac:(lia)) as Eq. pose proof (Z.rem_bound_abs x (nsf mu) ltac:(lia)) as Hr.
    assert (Em : x mod nsf mu = Z.rem x (nsf mu) mod nsf mu) by (rewrite Eq at 1; rewrite Z.add_comm, Z.mul_comm, Z.mod_add by lia; done).
    rewrite Em, mod_cases by lia. case_match; lia. }
  rewrite Hc. split; [|done]. split; [done|]. split; [done|]. apply Z.mod_pos_bound; lia.
Qed.

Lemma slot_dist_add mu s jump : slot_ok mu s -> 0 <= jump < nsf mu -> slot_dist s (slot_add s jump) = jump.
Proof.
  intros Hs Hj. pose proof Hs as (Hm & E & Hc). pose proof (N_even mu Hm). destruct (slot_add_ok mu s jump Hs ltac:(lia)) as [_ Ec].
  unfold slot_dist. rewrite E, Ec. rewrite Zminus_mod_idemp_l. replace (count_val s + jump - count_val s) with jump by lia. by apply Z.mod_small.
Qed.

Lemma slot_next_add mu s : slot_ok mu s -> slot_next s = slot_add s 1.
Proof.
  intros (Hm & E & H). pose proof (N_even mu Hm). unfold slot_next, slot_add. rewrite E, u32_small by lia. f_equal.
  destruct (Z.eqb_spec (count_val s + 1) (nsf mu)) as [->|]; [by rewrite Z.mod_same by lia|rewrite Z.mod_small; lia].
Qed.

Lemma slot_dist_inj mu a b c : slot_ok mu a -> slot_ok mu b -> slot_ok mu c -> slot_dist a b = slot_dist a c -> b = c.
Proof.
  intros Ha Hb Hc. rewrite (slot_dist_cases mu a b), (slot_dist_cases mu a c) by done. destruct Hb as (_ & Eb & Hb), Hc as (_ & Ec & Hc).
  intros E. destruct b as [nb cb], c as [nc cc]. cbn [numerology_val count_val] in *. subst. f_equal. repeat case_match; lia.
Qed.

(** ** The order is that of the circle *)

Lemma slot_lt_dist mu a b : slot_ok mu a -> slot_ok mu b -> slot_lt a b = ok ((0 <? slot_dist a b) && (slot_dist a b <? nsf mu / 2)).
Proof.
  intros Ha Hb. rewrite (slot_dist_cases mu a b) by done. destruct Ha as (Hm & Ea & Ha), Hb as (_ & Eb & Hb). pose proof (N_even mu Hm) as (E2 & H2 & _).
  unfold slot_lt. rewrite Ea, Eb, Z.eqb_refl. cbn [srsran_assert mbind outcome_bind]. f_equal. set (n := nsf mu) in *.
  destruct (Z.ltb_spec (count_val b) (count_val a)).
  - rewrite (proj2 (Z.ltb_ge 0 _)), (proj2 (Z.ltb_lt 0 _)) by lia. cbn [andb]. zcases; lia.
  - destruct (Z.ltb_spec 0 (count_val b - count_val a)); cbn [andb]; [done|]. apply Z.ltb_ge. lia.
Qed.

Lemma slot_diff_range mu a b : slot_ok mu a -> slot_ok mu b -> - (nsf mu / 2) <= slot_diff a b < nsf mu / 2 /\ slot_diff a b mod nsf mu = slot_dist b a.
Proof.
  intros Ha Hb. pose proof Ha as (Hm & Ea & Hca). pose proof Hb as (_ & Eb & Hcb). pose proof (N_even mu Hm) as (E2 & H2 & _).
  unfold slot_diff, slot_dist. rewrite Ea, Eb. set (n := nsf mu) in *. destruct (Z.leb_spec (n / 2) (count_val a - count_val b)).
  - split; [lia|]. rewrite <- (Z.mod_add (count_val a - count_val b) (-1) n) by lia. f_equal; lia.
  - destruct (Z.ltb_spec (count_val a - count_val b) (- (n / 2))); (split; [lia|]).
    + rewrite <- (Z.mod_add (count_val a - count_val b) 1 n) by lia. f_equal; lia.
    + done.
Qed.

(** Slots of one numerology are ordered and subtracted as points of a circle of 1024 frames: one is before another if the way forward to it is less than half of the
    circle, the difference is the shorter way, and jumping by the difference of two slots leads from the one to the other. *)
Theorem slot_order_exact mu a b :
  slot_ok mu a -> slot_ok mu b ->
  slot_lt a b = ok ((0 <? slot_dist a b) && (slot_dist a b <? nsf mu / 2)) /\
  slot_add_int b (slot_diff a b) = a /\
  - (nsf mu / 2) <= slot_diff a b < nsf mu / 2 /\
  (slot_diff a b <> - (nsf mu / 2) -> slot_lt a b = ok (slot_diff a b <? 0)) /\
  (forall k, 0 < k < nsf mu / 2 -> slot_lt a (slot_add a k) = ok true /\ slot_diff (slot_add a k) a = k).
Proof.
  intros Ha Hb. pose proof Ha as (Hm & Ea & Hca). pose proof Hb as (_ & Eb & Hcb). pose proof (N_even mu Hm) as (E2 & H2 & Hn).
  destruct (slot_diff_range mu a b Ha Hb) as [Hr Hd]. split; [by apply slot_lt_dist|]. split; [|split; [done|split]].
  - destruct (slot_add_int_ok mu b (slot_diff a b) Hb) as [Hok Ec]. apply (slot_dist_inj mu b); try done.
    rewrite <- Hd. unfold slot_dist. rewrite Eb, Ec, Zminus_mod_idemp_l. f_equal. lia.
  - intros Hne. rewrite (slot_lt_dist mu) by done. f_equal. rewrite (slot_dist_cases mu a b) by done. unfold slot_diff in *. rewrite Ea in *.
    set (n := nsf mu) in *. destruct (Z.leb_spec (n / 2) (count_val a - count_val b)); [|destruct (Z.ltb_spec (count_val a - count_val b) (- (n / 2)))];
      destruct (Z.ltb_spec (count_val b) (count_val a)); zcases; cbn [andb]; lia || (zcases; lia).
  - intros k Hk. destruct (slot_add_ok mu a k Ha ltac:(lia)) as [Hok Ec]. pose proof (slot_dist_add mu a k Ha ltac:(lia)) as Edist.
    rewrite (slot_lt_dist mu) by done. rewrite Edist, (proj2 (Z.ltb_lt 0 k)), (proj2 (Z.ltb_lt k _)) by lia. split; [done|].
    destruct (slot_diff_range mu (slot_add a k) a Hok Ha) as [Hr' Hd']. rewrite Edist in Hd'. set (d := slot_diff (slot_add a k) a) in *.
    rewrite mod_cases in Hd' by lia. destruct (d <? 0); lia.
Qed.

(** Half a circle apart neither is before the other. *)
Example slots_half_apart : slot_lt (mk_slot 0 0) (mk_slot 0 5120) = ok false /\ slot_lt (mk_slot 0 5120) (mk_slot 0 0) = ok false /\
  slot_diff (mk_slot 0 0) (mk_slot 0 5120) = -5120 /\ slot_diff (mk_slot 0 5120) (mk_slot 0 0) = -5120.
Proof. by split_and!. Qed.

(** ** Parts *)
Lemma slot_parts mu s :
  slot_ok mu s ->
  slot_of_sfn mu (slot_sfn s) (slot_index s) = ok s /\ slot_of_subframe mu (slot_sfn s) (slot_subframe_index s) (subframe_slot_index s) = ok s.
Proof.
  intros (Hm & E & H). destruct (slots_per mu Hm) as (E1 & E2 & E3 & Hp). destruct s as [n c]. cbn [numerology_val count_val] in *. subst n.
  unfold slot_of_sfn, slot_of_subframe, slot_sfn, slot_subframe_index, subframe_slot_index, slot_index. cbn [numerology_val count_val]. rewrite E1, E2 in *.
  unfold NOF_SFNS, NOF_SUBFRAMES_PER_FRAME. set (p := 2 ^ mu) in *. rewrite E3 in H. assert (Hn : mu < NOF_NUMEROLOGIES) by lia.
  assert (Hi : 0 <= c mod (10 * p) < 10 * p) by (apply Z.mod_pos_bound; lia).
  assert (Hs : 0 <= c / (10 * p) < 1024) by (split; [apply Z.div_pos; lia|apply Z.div_lt_upper_bound; lia]).
  assert (Hj : 0 <= c mod p < p) by (apply Z.mod_pos_bound; lia).
  assert (Hk : 0 <= c mod (10 * p) / p < 10) by (split; [apply Z.div_pos; lia|apply Z.div_lt_upper_bound; lia]).
  pose proof (Z.div_mod c (10 * p) ltac:(lia)) as Ec. pose proof (Z.div_mod (c mod (10 * p)) p ltac:(lia)) as Ed.
  assert (Em : (c mod (10 * p)) mod p = c mod p).
  { rewrite Ec at 2. replace (10 * p * (c / (10 * p)) + c mod (10 * p)) with (c mod (10 * p) + (10 * (c / (10 * p))) * p) by ring. by rewrite Z.mod_add by lia. }
  rewrite Em in Ed. rewrite !(proj2 (Z.ltb_lt _ _)) by lia. cbn [srsran_assert mbind outcome_bind]. rewrite !u32_small by nia. split; do 2 f_equal; nia.
Qed.

(** ** Rings *)
Lemma power2_loop_ok fuel : forall x power, 0 < x < 2 ^ Z.of_nat fuel -> 0 < power -> power * x < 2 ^ 32 -> power2_loop fuel x power = ok (power * 2 ^ Z.log2 x).
Proof.
  induction fuel as [|fuel IH]; intros x power Hx Hp Hb; [change (2 ^ Z.of_nat 0) with 1 in Hx; lia|]. cbn [power2_loop].
  rewrite Nat2Z.inj_succ, Z.pow_succ_r in Hx by lia. rewrite Z.shiftr_div_pow2 by lia. change (2 ^ 1) with 2.
  destruct (Z.eqb_spec (x / 2) 0) as [E|E].
  - assert (x = 1) as -> by divmod. change (Z.log2 1) with 0. f_equal. lia.
  - assert (Hx2 : 2 <= x) by divmod. rewrite Z.shiftl_mul_pow2 by lia. change (2 ^ 1) with 2. rewrite u32_small by nia.
    rewrite IH; [|divmod|lia|]. 2:{ assert (2 * (x / 2) <= x) by divmod. nia. }
    f_equal. assert (El : Z.log2 x = Z.succ (Z.log2 (x / 2))).
    { pose proof (Z.log2_shiftr x 1 ltac:(lia)) as El. rewrite Z.shiftr_div_pow2 in El by lia. change (2 ^ 1) with 2 in El. rewrite El.
      pose proof (Z.log2_le_mono 2 x ltac:(lia)) as Hl. change (Z.log2 2) with 1 in Hl. lia. }
    rewrite El, Z.pow_succ_r by apply Z.log2_nonneg. ring.
Qed.

Lemma power2_ceil_ok x : 0 <= x < 2 ^ 31 -> power2_ceil x = ok (2 ^ Z.log2_up x).
Proof.
  intros Hx. unfold power2_ceil. destruct (Z.leb_spec x 1).
  - rewrite Z.log2_up_eqn0 by lia. done.
  - rewrite power2_loop_ok by (cbn; lia). rewrite Z.log2_up_eqn by lia. rewrite Z.pow_succ_r by apply Z.log2_nonneg. by rewrite Z.sub_1_r.
Qed.

(** A ring for 5120 slots or less has at least that many places, and the number of slots of the system frame is a multiple of its size, so that the indices go on where the
    slots wrap around. *)
Lemma ring_size_ok minimum_value mu :
  0 <= minimum_value <= 5120 -> 0 <= mu < NOF_NUMEROLOGIES ->
  exists size, get_allocator_ring_size_gt_min minimum_value 0 = ok size /\ minimum_value <= size /\ 10 <= size <= 5120 /\ nsf mu mod size = 0.
Proof.
  intros Hm Hmu. destruct (slots_per mu Hmu) as (_ & _ & -> & Hp). unfold get_allocator_ring_size_gt_min. change (u32 (10 * nof_slots_per_subframe 0)) with 10.
  unfold divide_ceil. rewrite u32_small by lia. set (f := (minimum_value + (10 - 1)) / 10). assert (Hf : 0 <= f <= 512 /\ minimum_value <= 10 * f) by (unfold f; divmod).
  rewrite power2_ceil_ok by lia. cbn [mbind outcome_bind]. set (k := Z.log2_up f). pose proof (Z.log2_up_nonneg f) as Hk0. fold k in Hk0.
  assert (Hk : k <= 9) by (unfold k; apply (Z.log2_up_le_mono f 512); lia).
  assert (Hle : f <= 2 ^ k) by (unfold k; destruct (decide (0 < f)); [by apply Z.log2_log2_up_spec|pose proof (Z.pow_pos_nonneg 2 (Z.log2_up f) ltac:(lia) ltac:(apply Z.log2_up_nonneg)); lia]).
  assert (Hpk : 1 <= 2 ^ k <= 512) by (split; [apply (Z.pow_le_mono_r 2 0 k); lia|apply (Z.pow_le_mono_r 2 k 9); lia]).
  eexists. split; [reflexivity|]. rewrite u32_small by lia. split; [lia|]. split; [lia|].
  replace (10240 * 2 ^ mu) with (2 ^ (10 - k) * 2 ^ mu * (2 ^ k * 10)); [apply Z.mod_mul; lia|].
  replace (10240 * 2 ^ mu) with (2 ^ (10 - k) * 2 ^ k * (10 * 2 ^ mu)); [ring|]. rewrite <- Z.pow_add_r by lia. replace (10 - k + k) with 10 by lia. ring.
Qed.
