(* ===== verification/HarqManager.v ===== *)
(** * HARQ processes

    The HARQ processes of a cell ([lib/scheduler/cell/cell_harq_manager.{h,cpp}]), outside of non-terrestrial networks: the repository of one direction, for any parameters of a
    transmission, the processes of both directions, and the manager. Slots are those of [SlotPoint]; a SNR is an IEEE 754 number. *)
From Stdlib Require Import SpecFloat.
From S2P Require Import Prelude SlotPoint MacDl.

(** ** Processes *)
Inductive harq_state_t := harq_empty | harq_pending_retx | harq_waiting_ack.

#[export] Instance harq_state_t_eq_dec : EqDecision harq_state_t.
Proof. solve_decision. Defined.

(** [h_params]: what only one direction has. *)
Record harq_process (X : Type) := mk_harq {
  h_ue_idx : Z; h_rnti : Z; h_id : Z; h_status : harq_state_t;
  h_slot_tx : slot_point; h_slot_ack : slot_point; h_slot_ack_timeout : slot_point;
  h_ndi : bool; h_nof_retxs : Z; h_max_nof_retxs : Z; h_ack_on_timeout : bool; h_retxs_cancelled : bool; h_params : X }.
Arguments mk_harq {X}. Arguments h_ue_idx {X}. Arguments h_rnti {X}. Arguments h_id {X}. Arguments h_status {X}. Arguments h_slot_tx {X}.
Arguments h_slot_ack {X}. Arguments h_slot_ack_timeout {X}. Arguments h_ndi {X}. Arguments h_nof_retxs {X}. Arguments h_max_nof_retxs {X}.
Arguments h_ack_on_timeout {X}. Arguments h_retxs_cancelled {X}. Arguments h_params {X}.

(** The process of a UE with an identity; also the pointer to it. *)
Abbreviation harq_ptr := (Z * Z)%type.

Record ue_harq_entity := mk_ue_harqs { nof_harqs : Z; free_harq_ids : list Z }.

(** [ues] is the vector of UEs, the free identities with the last of the vector first; [harqs] the processes of all of them; [timeouts] what has been notified. *)
Record cell_harq_repository (X : Type) := mk_repo {
  max_ack_wait_in_slots : Z; repo_max_ues : Z; last_sl_ind : slot_point; ues : gmap Z ue_harq_entity; harqs : gmap harq_ptr (harq_process X);
  harq_pending_retx_list : list harq_ptr; harq_timeout_wheel : gmap Z (list harq_ptr); wheel_size : Z; timeouts : list (Z * bool) }.
Arguments mk_repo {X}. Arguments max_ack_wait_in_slots {X}. Arguments repo_max_ues {X}. Arguments last_sl_ind {X}. Arguments ues {X}. Arguments harqs {X}.
Arguments harq_pending_retx_list {X}. Arguments harq_timeout_wheel {X}. Arguments wheel_size {X}. Arguments timeouts {X}.

Section repository.
Context {X : Type}.
Implicit Types (r : cell_harq_repository X) (h : harq_process X).

Definition repo_init (max_ues max_ack_wait_timeout : Z) : outcome (cell_harq_repository X) :=
  size ← get_allocator_ring_size_gt_min (u32 (max_ack_wait_timeout + get_max_slot_ul_alloc_delay 0)) 0;
  ok (mk_repo max_ack_wait_timeout max_ues slot_init ∅ ∅ [] ∅ size []).

Definition set_last r sl : cell_harq_repository X := mk_repo (max_ack_wait_in_slots r) (repo_max_ues r) sl (ues r) (harqs r) (harq_pending_retx_list r) (harq_timeout_wheel r) (wheel_size r) (timeouts r).
Definition set_ues r u : cell_harq_repository X := mk_repo (max_ack_wait_in_slots r) (repo_max_ues r) (last_sl_ind r) u (harqs r) (harq_pending_retx_list r) (harq_timeout_wheel r) (wheel_size r) (timeouts r).
Definition set_harqs r m : cell_harq_repository X := mk_repo (max_ack_wait_in_slots r) (repo_max_ues r) (last_sl_ind r) (ues r) m (harq_pending_retx_list r) (harq_timeout_wheel r) (wheel_size r) (timeouts r).
Definition set_pending r l : cell_harq_repository X := mk_repo (max_ack_wait_in_slots r) (repo_max_ues r) (last_sl_ind r) (ues r) (harqs r) l (harq_timeout_wheel r) (wheel_size r) (timeouts r).
Definition set_wheel r w : cell_harq_repository X := mk_repo (max_ack_wait_in_slots r) (repo_max_ues r) (last_sl_ind r) (ues r) (harqs r) (harq_pending_retx_list r) w (wheel_size r) (timeouts r).
Definition notify r n : cell_harq_repository X := mk_repo (max_ack_wait_in_slots r) (repo_max_ues r) (last_sl_ind r) (ues r) (harqs r) (harq_pending_retx_list r) (harq_timeout_wheel r) (wheel_size r) (timeouts r ++ [n]).

(** *** Access *)
Definition ue_entity r ue_idx : ue_harq_entity := default (mk_ue_harqs 0 []) (ues r !! ue_idx).
Definition get_ue r ue_idx : outcome ue_harq_entity :=
  if (0 <=? ue_idx) && (ue_idx <? repo_max_ues r) then ok (ue_entity r ue_idx) else fail invalid_access.
Definition set_free r ue_idx l : cell_harq_repository X := set_ues r (<[ue_idx := mk_ue_harqs (nof_harqs (ue_entity r ue_idx)) l]> (ues r)).

Definition get_harq r p : outcome (harq_process X) := match harqs r !! p with None => fail invalid_access | Some h => ok h end.
Definition set_harq r p h : cell_harq_repository X := set_harqs r (<[p := h]> (harqs r)).

Definition with_status h st : harq_process X := mk_harq (h_ue_idx h) (h_rnti h) (h_id h) st (h_slot_tx h) (h_slot_ack h) (h_slot_ack_timeout h) (h_ndi h) (h_nof_retxs h) (h_max_nof_retxs h)
  (h_ack_on_timeout h) (h_retxs_cancelled h) (h_params h).
Definition with_ack_timeout h sl : harq_process X := mk_harq (h_ue_idx h) (h_rnti h) (h_id h) (h_status h) (h_slot_tx h) (h_slot_ack h) sl (h_ndi h) (h_nof_retxs h) (h_max_nof_retxs h)
  (h_ack_on_timeout h) (h_retxs_cancelled h) (h_params h).
Definition with_ack_on_timeout h b : harq_process X := mk_harq (h_ue_idx h) (h_rnti h) (h_id h) (h_status h) (h_slot_tx h) (h_slot_ack h) (h_slot_ack_timeout h) (h_ndi h) (h_nof_retxs h)
  (h_max_nof_retxs h) b (h_retxs_cancelled h) (h_params h).
Definition with_params h x : harq_process X := mk_harq (h_ue_idx h) (h_rnti h) (h_id h) (h_status h) (h_slot_tx h) (h_slot_ack h) (h_slot_ack_timeout h) (h_ndi h) (h_nof_retxs h)
  (h_max_nof_retxs h) (h_ack_on_timeout h) (h_retxs_cancelled h) x.

(** *** Intrusive lists; an element that is not in its list is corrupted. *)
Definition list_pop (p : harq_ptr) (l : list harq_ptr) : outcome (list harq_ptr) := if bool_decide (p ∈ l) then ok (filter (.≠ p) l) else fail invalid_access.

Definition bucket_of r (sl : slot_point) : Z := count_val sl mod wheel_size r.
Definition wheel_list r k : list harq_ptr := default [] (harq_timeout_wheel r !! k).
Definition ack_wheel_push r k p : cell_harq_repository X := set_wheel r (<[k := p :: wheel_list r k]> (harq_timeout_wheel r)).
Definition ack_wheel_pop r k p : outcome (cell_harq_repository X) := l ← list_pop p (wheel_list r k); ok (set_wheel r (<[k := l]> (harq_timeout_wheel r))).
Definition pending_pop r p : outcome (cell_harq_repository X) := l ← list_pop p (harq_pending_retx_list r); ok (set_pending r l).

(** *** Operations *)
Definition alloc_harq r ue_idx (sl_tx sl_ack : slot_point) (max_nof_harq_retxs : Z) : outcome (cell_harq_repository X * option harq_ptr) :=
  e ← get_ue r ue_idx;
  match free_harq_ids e with
  | [] => ok (r, None)
  | id :: free =>
      let r := set_free r ue_idx free in
      h ← get_harq r (ue_idx, id);
      let slot_ack_timeout := slot_add sl_ack (max_ack_wait_in_slots r) in
      let r := set_harq r (ue_idx, id)
        (mk_harq (h_ue_idx h) (h_rnti h) (h_id h) harq_waiting_ack sl_tx sl_ack slot_ack_timeout (negb (h_ndi h)) 0 max_nof_harq_retxs false false (h_params h)) in
      ok (ack_wheel_push r (bucket_of r slot_ack_timeout) (ue_idx, id), Some (ue_idx, id))
  end.

Definition dealloc_harq r p : outcome (cell_harq_repository X) :=
  h ← get_harq r p;
  if bool_decide (h_status h = harq_empty) then ok r
  else
    r ← (if bool_decide (h_status h = harq_waiting_ack) then ack_wheel_pop r (bucket_of r (h_slot_ack_timeout h)) p else pending_pop r p);
    let r := set_harq r p (with_status h harq_empty) in
    e ← get_ue r (h_ue_idx h);
    ok (set_free r (h_ue_idx h) (h_id h :: free_harq_ids e)).

Definition set_pending_retx r p : outcome (cell_harq_repository X) :=
  h ← get_harq r p;
  if bool_decide (h_status h = harq_pending_retx) then ok r
  else
    r ← ack_wheel_pop r (bucket_of r (h_slot_ack_timeout h)) p;
    ok (set_harq (set_pending r (harq_pending_retx_list r ++ [p])) p (with_status h harq_pending_retx)).

Definition handle_ack r p (ack : bool) : outcome (cell_harq_repository X) :=
  h ← get_harq r p;
  if ack || (h_max_nof_retxs h <=? h_nof_retxs h) then dealloc_harq r p else set_pending_retx r p.

Definition handle_new_retx r p (sl_tx sl_ack : slot_point) : outcome (cell_harq_repository X * bool) :=
  h ← get_harq r p;
  if negb (bool_decide (h_status h = harq_pending_retx)) then ok (r, false)
  else
    r ← pending_pop r p;
    let slot_ack_timeout := slot_add sl_ack (max_ack_wait_in_slots r) in
    let r := set_harq r p
      (mk_harq (h_ue_idx h) (h_rnti h) (h_id h) harq_waiting_ack sl_tx sl_ack slot_ack_timeout (h_ndi h) (u32 (h_nof_retxs h + 1)) (h_max_nof_retxs h) false
         (h_retxs_cancelled h) (h_params h)) in
    ok (ack_wheel_push r (bucket_of r slot_ack_timeout) p, true).

(** The status of a process that has not been used is empty, and its slots are invalid. *)
Definition new_harq (x : X) (ue_idx rnti id : Z) : harq_process X :=
  mk_harq ue_idx rnti id harq_empty slot_init slot_init slot_init false 0 0 false false x.

Definition reserve_ue_harqs r (x : X) ue_idx rnti nof : outcome (cell_harq_repository X) :=
  _ ← get_ue r ue_idx;
  ok (set_ues (set_harqs r (foldr (fun id m => <[(ue_idx, id) := new_harq x ue_idx rnti id]> m) (harqs r) (seqZ 0 nof)))
        (<[ue_idx := mk_ue_harqs nof (seqZ 0 nof)]> (ues r))).

Fixpoint dealloc_all r ue_idx (ids : list Z) : outcome (cell_harq_repository X) :=
  match ids with
  | [] => ok r
  | id :: ids => r ← dealloc_harq r (ue_idx, id); dealloc_all r ue_idx ids
  end.

Definition destroy_harqs r ue_idx : outcome (cell_harq_repository X) :=
  e ← get_ue r ue_idx;
  r ← dealloc_all r ue_idx (seqZ 0 (nof_harqs e));
  ok (set_ues (set_harqs r (foldr (fun id m => delete (ue_idx, id) m) (harqs r) (seqZ 0 (nof_harqs e)))) (<[ue_idx := mk_ue_harqs 0 []]> (ues r))).

Definition cancel_retxs r p : outcome (cell_harq_repository X) :=
  h ← get_harq r p;
  match h_status h with
  | harq_empty => ok r
  | harq_pending_retx => dealloc_harq r p
  | harq_waiting_ack =>
      ok (set_harq r p (mk_harq (h_ue_idx h) (h_rnti h) (h_id h) (h_status h) (h_slot_tx h) (h_slot_ack h) (h_slot_ack_timeout h) (h_ndi h) (h_nof_retxs h)
        (h_nof_retxs h) (h_ack_on_timeout h) true (h_params h)))
  end.

Definition harq_matches r (f : harq_process X -> bool) p : bool := match harqs r !! p with None => false | Some h => f h end.
Definition find_harq r ue_idx (f : harq_process X -> bool) : outcome (option harq_ptr) :=
  e ← get_ue r ue_idx;
  ok (List.find (harq_matches r f) (pair ue_idx <$> seqZ 0 (nof_harqs e))).

Definition find_ue_harq_in_state r ue_idx (state : harq_state_t) : outcome (option harq_ptr) :=
  find_harq r ue_idx (fun h => bool_decide (h_status h = state)).

(** *** Slots *)
Definition handle_harq_ack_timeout r p : outcome (cell_harq_repository X) :=
  h ← get_harq r p;
  r ← dealloc_harq r p;
  ok (if negb (max_ack_wait_in_slots r =? 1) then notify r (h_ue_idx h, h_ack_on_timeout h) else r).

Fixpoint ack_timeouts (fuel : nat) r k : outcome (cell_harq_repository X) :=
  match fuel with
  | O => fail out_of_fuel
  | S fuel => match wheel_list r k with [] => ok r | p :: _ => r ← handle_harq_ack_timeout r p; ack_timeouts fuel r k end
  end.

Definition max_nof_slots_for_retx r : Z := nof_slots_per_system_frame (numerology_val (last_sl_ind r)) / 4.

Fixpoint trapped_retxs (fuel : nat) r : outcome (cell_harq_repository X) :=
  match fuel with
  | O => fail out_of_fuel
  | S fuel =>
      match harq_pending_retx_list r with
      | [] => ok r
      | p :: _ =>
          h ← get_harq r p;
          early ← slot_lt (last_sl_ind r) (slot_add (h_slot_ack h) (max_nof_slots_for_retx r));
          if early : bool then ok r else r ← dealloc_harq r p; trapped_retxs fuel (notify r (h_ue_idx h, false))
      end
  end.

Definition repo_slot_indication r (sl_tx : slot_point) : outcome (cell_harq_repository X) :=
  let r := set_last r sl_tx in
  let k := bucket_of r sl_tx in
  r ← ack_timeouts (S (length (wheel_list r k))) r k;
  trapped_retxs (S (length (harq_pending_retx_list r))) r.
End repository.

(** ** Both directions *)
Inductive vrb_alloc := vrb_type1 (start stop : Z) | vrb_type0 (rbgs : list bool).

#[export] Instance vrb_alloc_eq_dec : EqDecision vrb_alloc.
Proof. solve_decision. Defined.

(** Enumerations, MCS and CQI are their numbers. *)
Record dl_alloc_params := mk_dl_alloc {
  dla_dci_cfg_type : Z; dla_rbs : vrb_alloc; dla_nof_symbols : Z; dla_nof_layers : Z; dla_is_fallback : bool; dla_cqi : Z; dla_mcs_table : Z; dla_mcs : Z; dla_tbs_bytes : Z;
  dla_slice_id : option Z; dla_olla_mcs : option Z }.

Record ul_alloc_params := mk_ul_alloc {
  ula_dci_cfg_type : Z; ula_rbs : vrb_alloc; ula_mcs_table : Z; ula_mcs : Z; ula_tbs_bytes : Z; ula_nof_symbols : Z; ula_nof_layers : Z;
  ula_slice_id : option Z; ula_olla_mcs : option Z }.

Inductive mac_harq_ack_report_status := report_nack | report_ack | report_dtx.

#[export] Instance mac_harq_ack_report_status_eq_dec : EqDecision mac_harq_ack_report_status.
Proof. solve_decision. Defined.

Record dl_harq_params := mk_dl_params {
  dl_prev_tx_params : dl_alloc_params; harq_bit_idx : Z; pucch_ack_to_receive : Z; chosen_ack : mac_harq_ack_report_status; last_pucch_snr : option spec_float }.

Definition no_dl_alloc : dl_alloc_params := mk_dl_alloc 0 (vrb_type1 0 0) 0 1 false 0 0 0 0 None None.
Definition no_ul_alloc : ul_alloc_params := mk_ul_alloc 0 (vrb_type1 0 0) 0 0 0 0 0 None None.
Definition dl_params_init : dl_harq_params := mk_dl_params no_dl_alloc 0 0 report_dtx None.

Abbreviation dl_harq_repository := (cell_harq_repository dl_harq_params).
Abbreviation ul_harq_repository := (cell_harq_repository ul_alloc_params).

(** *** New transmissions and retransmissions *)
Definition update_params {X} (r : cell_harq_repository X) (p : harq_ptr) (f : X -> X) : outcome (cell_harq_repository X) :=
  h ← get_harq r p; ok (set_harq r p (with_params h (f (h_params h)))).

Definition new_dl_tx (r : dl_harq_repository) (ue_idx : Z) (pdsch_slot : slot_point) (k1 max_harq_nof_retxs bit_idx : Z) : outcome (dl_harq_repository * option harq_ptr) :=
  '(r, o) ← alloc_harq r ue_idx pdsch_slot (slot_add pdsch_slot k1) max_harq_nof_retxs;
  match o with
  | None => ok (r, None)
  | Some p => r ← update_params r p (fun _ => mk_dl_params no_dl_alloc bit_idx 0 report_dtx None); ok (r, Some p)
  end.

Definition dl_new_retx (r : dl_harq_repository) (p : harq_ptr) (pdsch_slot : slot_point) (k1 bit_idx : Z) : outcome (dl_harq_repository * bool) :=
  '(r, b) ← handle_new_retx r p pdsch_slot (slot_add pdsch_slot k1);
  if negb b then ok (r, false)
  else r ← update_params r p (fun x => mk_dl_params (dl_prev_tx_params x) bit_idx 0 report_dtx None); ok (r, true).

Definition new_ul_tx (r : ul_harq_repository) (ue_idx : Z) (pusch_slot : slot_point) (max_harq_nof_retxs : Z) : outcome (ul_harq_repository * option harq_ptr) :=
  '(r, o) ← alloc_harq r ue_idx pusch_slot pusch_slot max_harq_nof_retxs;
  match o with None => ok (r, None) | Some p => r ← update_params r p (fun _ => no_ul_alloc); ok (r, Some p) end.

Definition ul_new_retx (r : ul_harq_repository) (p : harq_ptr) (pusch_slot : slot_point) : outcome (ul_harq_repository * bool) := handle_new_retx r p pusch_slot pusch_slot.

(** *** Acknowledgements *)
Inductive status_update := su_acked | su_nacked | su_no_update | su_error.

#[export] Instance status_update_eq_dec : EqDecision status_update.
Proof. solve_decision. Defined.

Definition SHORT_ACK_TIMEOUT_DTX : Z := 8.

(** Whether a report takes the place of the one that has been chosen. *)
Definition report_chosen (ack : mac_harq_ack_report_status) (last snr : option spec_float) : bool :=
  negb (bool_decide (ack = report_dtx)) &&
  match last with None => true | Some l => match snr with None => false | Some s => SFltb l s end end.

Definition choose_report (x : dl_harq_params) (ack : mac_harq_ack_report_status) (snr : option spec_float) : dl_harq_params :=
  if report_chosen ack (last_pucch_snr x) snr then mk_dl_params (dl_prev_tx_params x) (harq_bit_idx x) (pucch_ack_to_receive x) ack snr else x.

Definition set_pucch_ack_to_receive (x : dl_harq_params) (n : Z) : dl_harq_params :=
  mk_dl_params (dl_prev_tx_params x) (harq_bit_idx x) n (chosen_ack x) (last_pucch_snr x).

(** The time that is left for the next report is cut short. *)
Definition shorten_ack_timeout {X} (r : cell_harq_repository X) (p : harq_ptr) : outcome (cell_harq_repository X) :=
  h ← get_harq r p;
  r ← ack_wheel_pop r (bucket_of r (h_slot_ack_timeout h)) p;
  let slot_ack_timeout := slot_add (last_sl_ind r) SHORT_ACK_TIMEOUT_DTX in
  ok (ack_wheel_push (set_harq r p (with_ack_timeout h slot_ack_timeout)) (bucket_of r slot_ack_timeout) p).

Definition dl_ack_info (r : dl_harq_repository) (p : harq_ptr) (ack : mac_harq_ack_report_status) (pucch_snr : option spec_float)
    : outcome (dl_harq_repository * status_update) :=
  h ← get_harq r p;
  if negb (bool_decide (h_status h = harq_waiting_ack)) then ok (r, su_error)
  else
    let x := choose_report (h_params h) ack pucch_snr in
    let r := set_harq r p (with_params h x) in
    let final_ack := bool_decide (chosen_ack x = report_ack) in
    if pucch_ack_to_receive x <=? 1 then r ← handle_ack r p final_ack; ok (r, if final_ack then su_acked else su_nacked)
    else
      let r := set_harq r p (with_ack_on_timeout (with_params h (set_pucch_ack_to_receive x (pucch_ack_to_receive x - 1))) final_ack) in
      r ← shorten_ack_timeout r p;
      ok (r, su_no_update).

Definition increment_pucch_counter (r : dl_harq_repository) (p : harq_ptr) : outcome dl_harq_repository :=
  update_params r p (fun x => set_pucch_ack_to_receive x (u32 (pucch_ack_to_receive x + 1))).

Definition ul_crc_info (r : ul_harq_repository) (p : harq_ptr) (ack : bool) : outcome (ul_harq_repository * Z) :=
  h ← get_harq r p;
  if negb (bool_decide (h_status h = harq_waiting_ack)) then ok (r, -1)
  else r ← handle_ack r p ack; ok (r, if ack then ula_tbs_bytes (h_params h) else 0).

(** *** Parameters of grants *)
Record dl_harq_alloc_context := mk_dl_context { dlc_dci_cfg_type : Z; dlc_olla_mcs : option Z; dlc_slice_id : option Z; dlc_cqi : option Z; dlc_is_fallback : bool }.
Record ul_harq_alloc_context := mk_ul_context { ulc_dci_cfg_type : Z; ulc_olla_mcs : option Z; ulc_slice_id : option Z }.

(** What of a PDSCH or PUSCH is read. *)
Record pdsch_codeword := mk_codeword { cw_mcs_table : Z; cw_mcs_index : Z; cw_tb_size_bytes : Z }.
Record pdsch_information := mk_pdsch { pdsch_codewords : list pdsch_codeword; pdsch_rbs : vrb_alloc; pdsch_nof_symbols : Z; pdsch_nof_layers : Z }.
Record pusch_information := mk_pusch { pusch_rbs : vrb_alloc; pusch_nof_symbols : Z; pusch_nof_layers : Z; pusch_mcs_table : Z; pusch_mcs_index : Z; pusch_tb_size_bytes : Z }.

Definition dl_save_grant_params (r : dl_harq_repository) (p : harq_ptr) (ctx : dl_harq_alloc_context) (pdsch : pdsch_information) : outcome dl_harq_repository :=
  h ← get_harq r p;
  match pdsch_codewords pdsch with
  | [cw] =>
      _ ← srsran_assert (bool_decide (h_status h = harq_waiting_ack));
      let prev := dl_prev_tx_params (h_params h) in
      prev ← (if h_nof_retxs h =? 0 then
                ok (mk_dl_alloc (dlc_dci_cfg_type ctx) (dla_rbs prev) (dla_nof_symbols prev) (pdsch_nof_layers pdsch) (dlc_is_fallback ctx) (default 1 (dlc_cqi ctx))
                      (dla_mcs_table prev) (dla_mcs prev) (cw_tb_size_bytes cw) (dlc_slice_id ctx) (dlc_olla_mcs ctx))
              else
                _ ← srsran_assert (dlc_dci_cfg_type ctx =? dla_dci_cfg_type prev);
                _ ← srsran_assert (dla_tbs_bytes prev =? cw_tb_size_bytes cw);
                _ ← srsran_assert (dla_nof_layers prev =? pdsch_nof_layers pdsch);
                _ ← srsran_assert (Bool.eqb (dla_is_fallback prev) (dlc_is_fallback ctx));
                ok prev);
      let prev := mk_dl_alloc (dla_dci_cfg_type prev) (pdsch_rbs pdsch) (pdsch_nof_symbols pdsch) (dla_nof_layers prev) (dla_is_fallback prev) (dla_cqi prev)
                    (cw_mcs_table cw) (cw_mcs_index cw) (dla_tbs_bytes prev) (dla_slice_id prev) (dla_olla_mcs prev) in
      update_params r p (fun x => mk_dl_params prev (harq_bit_idx x) (pucch_ack_to_receive x) (chosen_ack x) (last_pucch_snr x))
  | _ => fail assertion
  end.

Definition ul_save_grant_params (r : ul_harq_repository) (p : harq_ptr) (ctx : ul_harq_alloc_context) (pusch : pusch_information) : outcome ul_harq_repository :=
  h ← get_harq r p;
  _ ← srsran_assert (bool_decide (h_status h = harq_waiting_ack));
  let prev := h_params h in
  prev ← (if h_nof_retxs h =? 0 then
            ok (mk_ul_alloc (ulc_dci_cfg_type ctx) (ula_rbs prev) (ula_mcs_table prev) (ula_mcs prev) (pusch_tb_size_bytes pusch) (ula_nof_symbols prev) (ula_nof_layers prev)
                  (ulc_slice_id ctx) (ulc_olla_mcs ctx))
          else
            _ ← srsran_assert (ulc_dci_cfg_type ctx =? ula_dci_cfg_type prev);
            _ ← srsran_assert (ula_tbs_bytes prev =? pusch_tb_size_bytes pusch);
            ok prev);
  update_params r p (fun _ => mk_ul_alloc (ula_dci_cfg_type prev) (pusch_rbs pusch) (pusch_mcs_table pusch) (pusch_mcs_index pusch) (ula_tbs_bytes prev)
    (pusch_nof_symbols pusch) (pusch_nof_layers pusch) (ula_slice_id prev) (ula_olla_mcs prev)).

(** *** Of one UE *)
Definition ue_harq {X} (r : cell_harq_repository X) (ue_idx h_id : Z) : outcome (option harq_ptr) :=
  e ← get_ue r ue_idx;
  if h_id <? nof_harqs e then h ← get_harq r (ue_idx, h_id); ok (if bool_decide (h_status h = harq_empty) then None else Some (ue_idx, h_id)) else ok None.

Definition has_empty_harqs {X} (r : cell_harq_repository X) (ue_idx : Z) : outcome bool := e ← get_ue r ue_idx; ok (negb (bool_decide (free_harq_ids e = []))).

Definition find_dl_harq_waiting_ack (r : dl_harq_repository) (ue_idx : Z) (uci_slot : slot_point) (bit_idx : Z) : outcome (option harq_ptr) :=
  find_harq r ue_idx (fun h => bool_decide (h_status h = harq_waiting_ack) && slot_eq (h_slot_ack h) uci_slot && (harq_bit_idx (h_params h) =? bit_idx)).

Definition find_ul_harq_waiting_ack (r : ul_harq_repository) (ue_idx : Z) (pusch_slot : slot_point) : outcome (option harq_ptr) :=
  find_harq r ue_idx (fun h => bool_decide (h_status h = harq_waiting_ack) && slot_eq (h_slot_tx h) pusch_slot).

Fixpoint dtx_reports (n : nat) (r : dl_harq_repository) (p : harq_ptr) : outcome dl_harq_repository :=
  match n with O => ok r | S n => '(r, _) ← dl_ack_info r p report_dtx None; dtx_reports n r p end.

Fixpoint fail_uci (r : dl_harq_repository) (ue_idx : Z) (uci_slot : slot_point) (ids : list Z) : outcome dl_harq_repository :=
  match ids with
  | [] => ok r
  | id :: ids =>
      h ← get_harq r (ue_idx, id);
      r ← (if bool_decide (h_status h = harq_waiting_ack) && slot_eq (h_slot_ack h) uci_slot
           then dtx_reports (Z.to_nat (Z.max (pucch_ack_to_receive (h_params h)) 1)) r (ue_idx, id) else ok r);
      fail_uci r ue_idx uci_slot ids
  end.

Definition uci_sched_failed (r : dl_harq_repository) (ue_idx : Z) (uci_slot : slot_point) : outcome dl_harq_repository :=
  e ← get_ue r ue_idx; fail_uci r ue_idx uci_slot (seqZ 0 (nof_harqs e)).

Definition ul_bytes_waiting (r : ul_harq_repository) (p : harq_ptr) : Z :=
  match harqs r !! p with None => 0 | Some h => if bool_decide (h_status h = harq_empty) then 0 else ula_tbs_bytes (h_params h) end.
Definition total_ul_bytes_waiting_ack (r : ul_harq_repository) (ue_idx : Z) : outcome Z :=
  e ← get_ue r ue_idx; ok (foldl (fun sum id => u32 (sum + ul_bytes_waiting r (ue_idx, id))) 0 (seqZ 0 (nof_harqs e))).

(** ** The manager *)
Record cell_harq_manager := mk_harq_manager { max_harqs_per_ue : Z; mgr_dl : dl_harq_repository; mgr_ul : ul_harq_repository }.

Definition DEFAULT_ACK_TIMEOUT_SLOTS : Z := 256.

Definition cell_harq_manager_ctor (max_ues max_harqs max_ack_wait_timeout : Z) : outcome cell_harq_manager :=
  dl ← repo_init max_ues max_ack_wait_timeout;
  ul ← repo_init max_ues max_ack_wait_timeout;
  ok (mk_harq_manager max_harqs dl ul).

Definition harq_slot_indication (m : cell_harq_manager) (sl_tx : slot_point) : outcome cell_harq_manager :=
  dl ← repo_slot_indication (mgr_dl m) sl_tx;
  ul ← repo_slot_indication (mgr_ul m) sl_tx;
  ok (mk_harq_manager (max_harqs_per_ue m) dl ul).

Definition harq_contains (m : cell_harq_manager) (ue_idx : Z) : bool := (ue_idx <? repo_max_ues (mgr_dl m)) && negb (nof_harqs (ue_entity (mgr_dl m) ue_idx) =? 0).

Definition harq_add_ue (m : cell_harq_manager) (ue_idx crnti nof_dl_harq_procs nof_ul_harq_procs : Z) : outcome cell_harq_manager :=
  _ ← srsran_assert ((nof_dl_harq_procs <=? max_harqs_per_ue m) && (0 <? nof_dl_harq_procs));
  _ ← srsran_assert ((nof_ul_harq_procs <=? max_harqs_per_ue m) && (0 <? nof_ul_harq_procs));
  _ ← srsran_assert (ue_idx <? repo_max_ues (mgr_dl m));
  _ ← srsran_assert (negb (harq_contains m ue_idx));
  dl ← reserve_ue_harqs (mgr_dl m) dl_params_init ue_idx crnti nof_dl_harq_procs;
  ul ← reserve_ue_harqs (mgr_ul m) no_ul_alloc ue_idx crnti nof_ul_harq_procs;
  ok (mk_harq_manager (max_harqs_per_ue m) dl ul).

Definition harq_destroy_ue (m : cell_harq_manager) (ue_idx : Z) : outcome cell_harq_manager :=
  dl ← destroy_harqs (mgr_dl m) ue_idx;
  ul ← destroy_harqs (mgr_ul m) ue_idx;
  ok (mk_harq_manager (max_harqs_per_ue m) dl ul).
