(* ===== verification/HarqInv.v ===== *)
(** * HARQ processes: the invariant of a repository

    Every process is in one place: an empty one is free, one that waits for its acknowledgement is in the place of the wheel of its timeout, one with a pending retransmission
    is in the list of these. [exc] is a process that has been taken out of its place. *)
From S2P Require Import Prelude SlotPoint HarqManager.

Section invariant.
Context {X : Type} (mu : Z).
Implicit Types (r : cell_harq_repository X) (h : harq_process X) (p q : harq_ptr) (exc : option harq_ptr).

(** ** The invariant *)

(** The slots that are left to acknowledge a process. *)
Definition ack_left r h : Z := slot_dist (last_sl_ind r) (h_slot_ack_timeout h).

Record harq_ok r p h : Prop := {
  ho_id : h_ue_idx h = p.1 /\ h_id h = p.2;
  ho_retxs : 0 <= h_nof_retxs h <= h_max_nof_retxs h /\ h_max_nof_retxs h < 2 ^ 31;
  ho_pending : h_status h = harq_pending_retx -> h_nof_retxs h < h_max_nof_retxs h;
  ho_waiting : h_status h = harq_waiting_ack -> slot_ok mu (h_slot_ack_timeout h) /\ 1 <= ack_left r h <= wheel_size r;
  ho_ack : h_status h <> harq_empty -> slot_ok mu (h_slot_ack h)
}.

Definition status_at r p (st : harq_state_t) : Prop := exists h, harqs r !! p = Some h /\ h_status h = st.

Record repo_inv exc r : Prop := {
  ri_last : slot_ok mu (last_sl_ind r);
  ri_size : 10 <= wheel_size r < nsf mu /\ nsf mu mod wheel_size r = 0;
  ri_wait : 1 <= max_ack_wait_in_slots r < 2 ^ 31 /\ max_ack_wait_in_slots r + get_max_slot_ul_alloc_delay 0 <= wheel_size r;
  ri_ues : forall ue e, ues r !! ue = Some e -> 0 <= ue < repo_max_ues r;
  ri_dom : forall p, is_Some (harqs r !! p) <-> 0 <= p.2 < nof_harqs (ue_entity r p.1);
  ri_harq : forall p h, harqs r !! p = Some h -> harq_ok r p h;
  ri_free_nodup : forall ue, NoDup (free_harq_ids (ue_entity r ue));
  ri_free : forall ue id, id ∈ free_harq_ids (ue_entity r ue) <-> exc <> Some (ue, id) /\ status_at r (ue, id) harq_empty;
  ri_wheel_nodup : forall k, NoDup (wheel_list r k);
  ri_wheel : forall k p, p ∈ wheel_list r k <->
    exc <> Some p /\ exists h, harqs r !! p = Some h /\ h_status h = harq_waiting_ack /\ bucket_of r (h_slot_ack_timeout h) = k;
  ri_pending_nodup : NoDup (harq_pending_retx_list r);
  ri_pending : forall p, p ∈ harq_pending_retx_list r <-> exc <> Some p /\ status_at r p harq_pending_retx
}.

(** What a change of one process leaves as it is. *)
Record only_process p r r' : Prop := {
  op_last : last_sl_ind r' = last_sl_ind r;
  op_wait : max_ack_wait_in_slots r' = max_ack_wait_in_slots r;
  op_size : wheel_size r' = wheel_size r;
  op_ues : repo_max_ues r' = repo_max_ues r;
  op_nof : forall ue, nof_harqs (ue_entity r' ue) = nof_harqs (ue_entity r ue);
  op_harqs : forall q, q <> p -> harqs r' !! q = harqs r !! q;
  op_timeouts : timeouts r' = timeouts r
}.

Lemma only_refl p r : only_process p r r.
Proof. by split. Qed.

Lemma only_trans p r1 r2 r3 : only_process p r1 r2 -> only_process p r2 r3 -> only_process p r1 r3.
Proof.
  intros [? ? ? ? ? H1 ?] [? ? ? ? ? H2 ?]. split; try congruence. intros q Hq. rewrite H2, H1 by done. done.
Qed.

(** ** Places *)
Lemma get_harq_ok r p h : harqs r !! p = Some h -> get_harq r p = ok h.
Proof. unfold get_harq. by intros ->. Qed.

Lemma ue_of_harq exc r p h : repo_inv exc r -> harqs r !! p = Some h -> get_ue r p.1 = ok (ue_entity r p.1) /\ h_ue_idx h = p.1 /\ h_id h = p.2.
Proof.
  intros Hi Hp. split; [|by apply (ho_id _ _ _ (ri_harq _ _ Hi p h Hp))]. unfold get_ue.
  assert (Hr : 0 <= p.1 < repo_max_ues r); [|rewrite (proj2 (Z.leb_le _ _)), (proj2 (Z.ltb_lt _ _)) by lia; done].
  pose proof (proj1 (ri_dom _ _ Hi p) (mk_is_Some _ _ Hp)) as Hn. unfold ue_entity in Hn.
  destruct (ues r !! p.1) eqn:E; [by eapply ri_ues|cbn in Hn; lia].
Qed.

Lemma list_pop_ok p l : p ∈ l -> list_pop p l = ok (filter (.≠ p) l).
Proof. intros H. unfold list_pop. by rewrite bool_decide_eq_true_2. Qed.

Lemma elem_of_popped q p (l : list harq_ptr) : q ∈ filter (.≠ p) l <-> q <> p /\ q ∈ l.
Proof. by rewrite list_elem_of_filter. Qed.

Lemma wheel_list_push r k p k' : wheel_list (ack_wheel_push r k p) k' = if decide (k' = k) then p :: wheel_list r k else wheel_list r k'.
Proof. unfold wheel_list, ack_wheel_push. cbn [set_wheel harq_timeout_wheel]. case_decide as E; [by rewrite E, lookup_insert_eq|by rewrite lookup_insert_ne by congruence]. Qed.

Lemma harq_ok_frame r r' p h : last_sl_ind r' = last_sl_ind r -> wheel_size r' = wheel_size r -> harq_ok r p h -> harq_ok r' p h.
Proof. intros El Es []. split; try done. unfold ack_left in *. by rewrite El, Es. Qed.

(** A place that a process is not in is not affected by its being taken out, or put back. *)
Lemma exclude {A} (S P : A -> Prop) (p : A) : (forall q : A, S q <-> None <> Some q /\ P q) -> ~ P p -> forall q : A, S q <-> Some p <> Some q /\ P q.
Proof. intros H Hp q. rewrite H. split; intros [_ Hq]; (split; [|done]); congruence. Qed.

Lemma include {A} (S P : A -> Prop) (p : A) : (forall q : A, S q <-> Some p <> Some q /\ P q) -> ~ P p -> forall q : A, S q <-> None <> Some q /\ P q.
Proof. intros H Hp q. rewrite H. split; intros [_ Hq]; (split; [|done]); congruence. Qed.

Lemma popped {A} `{EqDecision A} (l : list A) (P : A -> Prop) (p : A) :
  (forall q : A, q ∈ l <-> None <> Some q /\ P q) -> forall q : A, q ∈ filter (.≠ p) l <-> Some p <> Some q /\ P q.
Proof. intros H q. rewrite list_elem_of_filter, H. split; [intros (? & _ & ?)|intros (? & ?)]; split_and!; congruence. Qed.

Lemma other_status r p h st : harqs r !! p = Some h -> h_status h <> st -> ~ status_at r p st.
Proof. intros Hp Hs (h' & Hp' & Hs'). congruence. Qed.

Lemma not_waiting r p h k :
  harqs r !! p = Some h -> h_status h <> harq_waiting_ack -> ~ exists h, harqs r !! p = Some h /\ h_status h = harq_waiting_ack /\ bucket_of r (h_slot_ack_timeout h) = k.
Proof. intros Hp Hs (h' & Hp' & Hs' & _). congruence. Qed.

Lemma free_ptr r exc :
  (forall ue id, id ∈ free_harq_ids (ue_entity r ue) <-> exc <> Some (ue, id) /\ status_at r (ue, id) harq_empty) <->
  (forall q, q.2 ∈ free_harq_ids (ue_entity r q.1) <-> exc <> Some q /\ status_at r q harq_empty).
Proof. split; [intros H [ue id]; apply H|intros H ue id; apply (H (ue, id))]. Qed.

Lemma detach_wheel r p h :
  repo_inv None r -> harqs r !! p = Some h -> h_status h = harq_waiting_ack ->
  exists r', ack_wheel_pop r (bucket_of r (h_slot_ack_timeout h)) p = ok r' /\ repo_inv (Some p) r' /\ only_process p r r' /\ harqs r' = harqs r.
Proof.
  intros Hi Hp Hs. unfold ack_wheel_pop. set (k := bucket_of r (h_slot_ack_timeout h)).
  assert (Hin : p ∈ wheel_list r k) by (apply (ri_wheel _ _ Hi); split; [done|by exists h]).
  rewrite list_pop_ok by done. cbn [mbind outcome_bind]. eexists. split; [reflexivity|]. split; [|by split].
  assert (Ew : forall k', wheel_list (set_wheel r (<[k := filter (.≠ p) (wheel_list r k)]> (harq_timeout_wheel r))) k' =
            if decide (k' = k) then filter (.≠ p) (wheel_list r k) else wheel_list r k').
  { intros k'. unfold wheel_list. cbn [set_wheel harq_timeout_wheel]. case_decide as E; [by rewrite E, lookup_insert_eq|by rewrite lookup_insert_ne by congruence]. }
  destruct Hi. split; try done.
  - intros q h' Hq. by apply (harq_ok_frame r), ri_harq0.
  - apply free_ptr, exclude; [by apply free_ptr|]. by eapply other_status; [done|congruence].
  - intros k'. rewrite Ew. case_decide; [by apply NoDup_filter|done].
  - intros k' q. rewrite Ew. case_decide as Ek; [subst k'; exact (popped _ _ p (ri_wheel0 k) q)|]. apply (exclude _ _ p (ri_wheel0 k')).
    intros (h' & Hp' & _ & Eb). apply Ek. rewrite <- Eb. unfold k. congruence.
  - apply exclude; [done|]. by eapply other_status; [done|congruence].
Qed.

Lemma detach_pending r p h :
  repo_inv None r -> harqs r !! p = Some h -> h_status h = harq_pending_retx ->
  exists r', pending_pop r p = ok r' /\ repo_inv (Some p) r' /\ only_process p r r' /\ harqs r' = harqs r.
Proof.
  intros Hi Hp Hs. unfold pending_pop. assert (Hin : p ∈ harq_pending_retx_list r) by (apply (ri_pending _ _ Hi); split; [done|by exists h]).
  rewrite list_pop_ok by done. cbn [mbind outcome_bind]. eexists. split; [reflexivity|]. split; [|by split].
  destruct Hi. split; try done.
  - intros q h' Hq. by apply (harq_ok_frame r), ri_harq0.
  - apply free_ptr, exclude; [by apply free_ptr|]. by eapply other_status; [done|congruence].
  - intros k. apply exclude; [apply ri_wheel0|]. by eapply not_waiting; [done|congruence].
  - by apply NoDup_filter.
  - by apply popped.
Qed.

Lemma ue_entity_set_free r ue free ue' :
  ue_entity (set_free r ue free) ue' = if decide (ue' = ue) then mk_ue_harqs (nof_harqs (ue_entity r ue)) free else ue_entity r ue'.
Proof. unfold ue_entity at 1, set_free. cbn [set_ues ues]. case_decide as E; [by rewrite E, lookup_insert_eq|by rewrite lookup_insert_ne by congruence]. Qed.

Lemma nof_set_free r ue free ue' : nof_harqs (ue_entity (set_free r ue free) ue') = nof_harqs (ue_entity r ue').
Proof. rewrite ue_entity_set_free. case_decide as E; [by rewrite E|done]. Qed.

Lemma get_ue_range r ue e : get_ue r ue = ok e -> 0 <= ue < repo_max_ues r /\ e = ue_entity r ue.
Proof. unfold get_ue. destruct (0 <=? ue) eqn:E1, (ue <? repo_max_ues r) eqn:E2; cbn [andb]; try done. intros E. injection E as <-. split; [lia|done]. Qed.

(** The free list of a UE changes by one process. *)
Lemma set_free_inv exc exc' r ue free :
  repo_inv exc r -> get_ue r ue = ok (ue_entity r ue) -> NoDup free ->
  (forall id, id ∈ free <-> exc' <> Some (ue, id) /\ status_at r (ue, id) harq_empty) ->
  (forall ue' id, ue' <> ue -> id ∈ free_harq_ids (ue_entity r ue') <-> exc' <> Some (ue', id) /\ status_at r (ue', id) harq_empty) ->
  (forall k p, p ∈ wheel_list r k <-> exc' <> Some p /\ exists h, harqs r !! p = Some h /\ h_status h = harq_waiting_ack /\ bucket_of r (h_slot_ack_timeout h) = k) ->
  (forall p, p ∈ harq_pending_retx_list r <-> exc' <> Some p /\ status_at r p harq_pending_retx) ->
  repo_inv exc' (set_free r ue free).
Proof.
  intros Hi Hr Hn Hf Hf' Hw Hp. apply get_ue_range in Hr as [Hr _]. destruct Hi. split; try done.
  - intros ue' e. cbn [set_free set_ues ues]. intros [[<- <-]|[_ H]]%lookup_insert_Some; [done|by eapply ri_ues0].
  - intros q. rewrite nof_set_free. apply ri_dom0.
  - intros q h' Hq. by apply (harq_ok_frame r), ri_harq0.
  - intros ue'. rewrite ue_entity_set_free. by case_decide.
  - intros ue' id. rewrite ue_entity_set_free. case_decide as E; [subst ue'; apply Hf|by apply Hf'].
Qed.

Lemma detach_free r ue id free :
  repo_inv None r -> get_ue r ue = ok (ue_entity r ue) -> free_harq_ids (ue_entity r ue) = id :: free ->
  exists h, harqs r !! (ue, id) = Some h /\ h_status h = harq_empty /\ repo_inv (Some (ue, id)) (set_free r ue free) /\ only_process (ue, id) r (set_free r ue free).
Proof.
  intros Hi Hr Hf. assert (Hin : id ∈ free_harq_ids (ue_entity r ue)) by (rewrite Hf; left).
  destruct (proj1 (ri_free _ _ Hi ue id) Hin) as [_ (h & Hp & Hs)]. exists h. split; [done|]. split; [done|].
  split; [|by split; [..|intros; apply nof_set_free| |]]. pose proof (ri_free_nodup _ _ Hi ue) as Hnd. rewrite Hf in Hnd. apply NoDup_cons in Hnd as [Hni Hnd].
  apply (set_free_inv None); try done.
  - intros id'. pose proof (ri_free _ _ Hi ue id') as Hfi. rewrite Hf, elem_of_cons in Hfi. split.
    + intros H. split; [intros [= <-]; done|]. by apply Hfi; right.
    + intros [Hne H]. destruct (proj2 Hfi) as [->|]; [split; [congruence|done]|done|done].
  - intros ue' id' Hne. rewrite (ri_free _ _ Hi). split; intros [_ ?]; (split; [congruence|done]).
  - intros k. apply exclude; [apply (ri_wheel _ _ Hi)|]. by eapply not_waiting; [done|congruence].
  - apply exclude; [apply (ri_pending _ _ Hi)|]. by eapply other_status; [done|congruence].
Qed.

(** A process may change where it is in no place, and also in its place as long as that is still the right one. *)
Lemma set_harq_inv exc r p h0 h :
  repo_inv exc r -> harqs r !! p = Some h0 -> harq_ok r p h -> (exc = Some p \/ h_status h = h_status h0 /\ h_slot_ack_timeout h = h_slot_ack_timeout h0) ->
  repo_inv exc (set_harq r p h) /\ only_process p r (set_harq r p h) /\ harqs (set_harq r p h) = <[p := h]> (harqs r).
Proof.
  intros Hi Hp Hok Hsame. assert (Hst : forall q st, exc <> Some q -> status_at (set_harq r p h) q st <-> status_at r q st).
  { intros q st Hq. unfold status_at, set_harq, set_harqs. cbn [harqs]. destruct (decide (q = p)) as [->|Hne]; [|by rewrite lookup_insert_ne].
    destruct Hsame as [?|[Es _]]; [done|]. rewrite lookup_insert_eq, Hp. split; intros (h' & [= <-] & <-); eauto. }
  split; [|split; [split; try done; intros q Hq; unfold set_harq, set_harqs; cbn [harqs]; by rewrite lookup_insert_ne|done]].
  destruct Hi. split; try done.
  - intros q. unfold set_harq, set_harqs. cbn [harqs]. rewrite <- ri_dom0. destruct (decide (q = p)) as [->|Hne]; [|by rewrite lookup_insert_ne].
    rewrite lookup_insert_eq, Hp. split; eauto.
  - intros q h' Hq. apply (harq_ok_frame r); [done..|]. revert Hq. unfold set_harq, set_harqs. cbn [harqs]. intros [[<- <-]|[_ Hq]]%lookup_insert_Some; [done|by apply ri_harq0].
  - intros ue id. rewrite (ri_free0 ue id). split; intros [Hne H]; (split; [done|]); by apply (Hst _ _ Hne).
  - intros k q. rewrite (ri_wheel0 k q). split; intros (Hne & h' & H); (split; [done|]); revert H; unfold set_harq, set_harqs; cbn [harqs];
      (destruct (decide (q = p)) as [->|Hnp]; [|rewrite lookup_insert_ne by done; eauto]); destruct Hsame as [?|[Es Et]]; try done; rewrite lookup_insert_eq, Hp.
    + intros ([= <-] & Hs & <-). exists h. unfold bucket_of in *. cbn [wheel_size]. split_and!; congruence.
    + intros ([= <-] & Hs & <-). exists h0. unfold bucket_of in *. cbn [wheel_size]. split_and!; congruence.
  - intros q. rewrite (ri_pending0 q). split; intros [Hne H]; (split; [done|]); by apply (Hst _ _ Hne).
Qed.

(** A process that is in no place is put in the one of its status. *)
Lemma put_back {A} `{EqDecision A} (S S' P : A -> Prop) (p : A) :
  (forall q : A, S q <-> Some p <> Some q /\ P q) -> P p -> (forall q : A, S' q <-> q = p \/ S q) -> forall q : A, S' q <-> None <> Some q /\ P q.
Proof.
  intros H Hp HS q. rewrite HS, H. split; [intros [->|[_ Hq]]; (split; [congruence|done])|]. intros [_ Hq].
  destruct (decide (q = p)) as [->|Hne]; [by left|right]. split; [congruence|done].
Qed.

Lemma attach_wheel r p h :
  repo_inv (Some p) r -> harqs r !! p = Some h -> h_status h = harq_waiting_ack ->
  repo_inv None (ack_wheel_push r (bucket_of r (h_slot_ack_timeout h)) p) /\ only_process p r (ack_wheel_push r (bucket_of r (h_slot_ack_timeout h)) p).
Proof.
  intros Hi Hp Hs. set (k := bucket_of r (h_slot_ack_timeout h)). split; [|by split]. pose proof (wheel_list_push r k p) as Ew.
  assert (Hn : p ∉ wheel_list r k) by (intros H; by apply (ri_wheel _ _ Hi) in H as [? _]).
  destruct Hi. split; try done.
  - intros q h' Hq. by apply (harq_ok_frame r), ri_harq0.
  - apply free_ptr. apply include with p; [by apply free_ptr|]. by eapply other_status; [done|congruence].
  - intros k'. rewrite Ew. case_decide; [by apply NoDup_cons|done].
  - intros k' q. rewrite Ew. case_decide as Ek.
    + subst k'. revert q. apply (put_back (.∈ wheel_list r k) _ _ p (ri_wheel0 k)); [by exists h|]. intros q. by rewrite elem_of_cons.
    + revert q. apply include with p; [apply ri_wheel0|]. intros (h' & Hp' & _ & Eb). change (harqs r !! p = Some h') in Hp'. rewrite Hp in Hp'. injection Hp' as <-. by apply Ek; rewrite <- Eb.
  - apply include with p; [done|]. by eapply other_status; [done|congruence].
Qed.

Lemma attach_pending r p h :
  repo_inv (Some p) r -> harqs r !! p = Some h -> h_status h = harq_pending_retx -> repo_inv None (set_pending r (harq_pending_retx_list r ++ [p])) /\
  only_process p r (set_pending r (harq_pending_retx_list r ++ [p])).
Proof.
  intros Hi Hp Hs. split; [|by split]. assert (Hn : p ∉ harq_pending_retx_list r) by (intros H; by apply (ri_pending _ _ Hi) in H as [? _]).
  destruct Hi. split; try done.
  - intros q h' Hq. by apply (harq_ok_frame r), ri_harq0.
  - apply free_ptr. apply include with p; [by apply free_ptr|]. by eapply other_status; [done|congruence].
  - intros k. apply include with p; [apply ri_wheel0|]. by eapply not_waiting; [done|congruence].
  - cbn [set_pending harq_pending_retx_list]. apply NoDup_app. split_and!; [done| |by apply NoDup_singleton]. intros q Hq. rewrite list_elem_of_singleton. congruence.
  - apply (put_back (.∈ harq_pending_retx_list r) _ _ p ri_pending0); [by exists h|]. intros q. cbn [set_pending harq_pending_retx_list].
    rewrite elem_of_app, list_elem_of_singleton. tauto.
Qed.

Lemma attach_free r p h :
  repo_inv (Some p) r -> harqs r !! p = Some h -> h_status h = harq_empty -> get_ue r p.1 = ok (ue_entity r p.1) ->
  repo_inv None (set_free r p.1 (p.2 :: free_harq_ids (ue_entity r p.1))) /\ only_process p r (set_free r p.1 (p.2 :: free_harq_ids (ue_entity r p.1))).
Proof.
  intros Hi Hp Hs Hr. split; [|by split; [..|intros; apply nof_set_free| |]].
  assert (Hf := put_back (fun q => q.2 ∈ free_harq_ids (ue_entity r q.1)) (fun q => q = p \/ q.2 ∈ free_harq_ids (ue_entity r q.1)) _ p (proj1 (free_ptr _ _) (ri_free _ _ Hi))
    (ex_intro _ h (conj Hp Hs)) (fun q => iff_refl _)). cbn beta in Hf.
  assert (Hn : p.2 ∉ free_harq_ids (ue_entity r p.1)) by (intros H; apply (ri_free _ _ Hi) in H as [H _]; by destruct p).
  apply (set_free_inv (Some p)); try done.
  - apply NoDup_cons. split; [done|]. apply (ri_free_nodup _ _ Hi).
  - intros id. rewrite elem_of_cons, <- (Hf (p.1, id)). cbn [fst snd]. destruct p as [ue i]. cbn [fst snd]. split; (intros [E|]; [left; congruence|by right]).
  - intros ue' id Hne. rewrite <- (Hf (ue', id)). cbn [fst snd]. split; [by right|]. intros [E|]; [|done]. by destruct p; injection E as -> _.
  - intros k. apply include with p; [apply (ri_wheel _ _ Hi)|]. by eapply not_waiting; [done|congruence].
  - apply include with p; [apply (ri_pending _ _ Hi)|]. by eapply other_status; [done|congruence].
Qed.
End invariant.
