(* ===== verification/HarqOps.v ===== *)
(** * HARQ processes: the operations

    What each operation of a repository does to the process it is about; the rest stays as it is, and every process is in its place afterwards. *)
From S2P Require Import Prelude SlotPoint HarqManager HarqInv.

Section operations.
Context {X : Type} (mu : Z).
Implicit Types (r : cell_harq_repository X) (h : harq_process X) (p q : harq_ptr).

(** ** One process *)

(** The result of an operation on one process. *)
Definition one_done r p h r' : Prop := repo_inv mu None r' /\ only_process p r r' /\ harqs r' !! p = Some h.

Lemma with_same_status h st : h_status h = st -> with_status h st = h.
Proof. destruct h. by intros <-. Qed.

Lemma lookup_set_harq r p h : harqs (set_harq r p h) !! p = Some h.
Proof. unfold set_harq, set_harqs. cbn [harqs]. apply lookup_insert_eq. Qed.

Lemma get_ue_frame p r r' ue : only_process p r r' -> get_ue r ue = ok (ue_entity r ue) -> get_ue r' ue = ok (ue_entity r' ue).
Proof. intros Ho Hr. apply get_ue_range in Hr as [Hr _]. unfold get_ue. rewrite (op_ues _ _ _ Ho), (proj2 (Z.leb_le _ _)), (proj2 (Z.ltb_lt _ _)) by lia. done. Qed.

(** A process that has been taken out of its place is freed. *)
Lemma free_ok r p h :
  repo_inv mu (Some p) r -> harqs r !! p = Some h ->
  let r1 := set_harq r p (with_status h harq_empty) in
  exists r', (e ← get_ue r1 (h_ue_idx h); ok (set_free r1 (h_ue_idx h) (h_id h :: free_harq_ids e))) = ok r' /\ one_done r p (with_status h harq_empty) r' /\
    harq_timeout_wheel r' = harq_timeout_wheel r /\ harq_pending_retx_list r' = harq_pending_retx_list r.
Proof.
  intros Hi Hp r1. pose proof (ri_harq _ _ _ Hi p h Hp) as Hok. destruct (ho_id _ _ _ _ Hok) as [Eu Ei]. destruct (ue_of_harq _ _ _ _ _ Hi Hp) as [Hr _].
  assert (Hok1 : harq_ok mu r p (with_status h harq_empty)) by (destruct Hok; split; [done|done|cbn; done|cbn; done|cbn; done]).
  destruct (set_harq_inv mu (Some p) r p h _ Hi Hp Hok1 (or_introl eq_refl)) as (Hi1 & Ho1 & _). fold r1 in Hi1, Ho1.
  rewrite Eu, Ei. pose proof (get_ue_frame _ _ _ _ Ho1 Hr) as Hr1. rewrite Hr1. cbn [mbind outcome_bind]. eexists. split; [reflexivity|].
  destruct (attach_free mu r1 p _ Hi1 (lookup_set_harq _ _ _) eq_refl Hr1) as [Hi2 Ho2]. split; [|done]. split; [done|]. split; [by eapply only_trans|]. apply lookup_set_harq.
Qed.

Lemma filter_other p (l : list harq_ptr) : p ∉ l -> filter (.≠ p) l = l.
Proof. intros Hn. induction l as [|q l IH]; [done|]. apply not_elem_of_cons in Hn as [Hq Hn]. rewrite filter_cons_True by done. by rewrite IH. Qed.

Lemma wheel_list_popped r k p k' :
  wheel_list (set_wheel r (<[k := filter (.≠ p) (wheel_list r k)]> (harq_timeout_wheel r))) k' = if decide (k' = k) then filter (.≠ p) (wheel_list r k') else wheel_list r k'.
Proof. unfold wheel_list. cbn [set_wheel harq_timeout_wheel]. case_decide as E; [by rewrite E, lookup_insert_eq|by rewrite lookup_insert_ne by congruence]. Qed.

Lemma dealloc_ok r p h :
  repo_inv mu None r -> harqs r !! p = Some h ->
  exists r', dealloc_harq r p = ok r' /\ one_done r p (with_status h harq_empty) r' /\
    (forall k, wheel_list r' k = filter (.≠ p) (wheel_list r k)) /\ harq_pending_retx_list r' = filter (.≠ p) (harq_pending_retx_list r).
Proof.
  intros Hi Hp. unfold dealloc_harq. rewrite (get_harq_ok _ _ _ Hp). cbn [mbind outcome_bind].
  assert (Hw : forall k, h_status h <> harq_waiting_ack -> filter (.≠ p) (wheel_list r k) = wheel_list r k).
  { intros k Hs. apply filter_other. intros Hin. apply (ri_wheel _ _ _ Hi) in Hin as (_ & h' & ? & ? & _). congruence. }
  assert (Hl : h_status h <> harq_pending_retx -> filter (.≠ p) (harq_pending_retx_list r) = harq_pending_retx_list r).
  { intros Hs. apply filter_other. intros Hin. apply (ri_pending _ _ _ Hi) in Hin as (_ & h' & ? & ?). congruence. }
  case_bool_decide as He.
  - exists r. rewrite with_same_status by done. split; [done|]. split; [by split; [|split; [apply only_refl|]]|]. split; [intros k; by rewrite Hw by congruence|by rewrite Hl by congruence].
  - case_bool_decide as Hs.
    + destruct (detach_wheel mu r p h Hi Hp Hs) as (r1 & E1 & Hi1 & Ho1 & Eh1). rewrite E1. cbn [mbind outcome_bind].
      destruct (free_ok r1 p h Hi1) as (r' & E' & (Hi' & Ho' & Hp') & Ew & El); [by rewrite Eh1|]. exists r'. split; [done|]. split; [by split; [|split; [eapply only_trans|]]|].
      unfold ack_wheel_pop in E1. apply bind_ok_inv in E1 as (l & El1 & E1). unfold list_pop in El1. case_bool_decide; [|done]. injection El1 as <-. injection E1 as <-.
      split; [|rewrite Hl by congruence; done]. intros k. unfold wheel_list at 1. rewrite Ew. fold (wheel_list (set_wheel r (<[bucket_of r (h_slot_ack_timeout h) := filter (.≠ p) (wheel_list r (bucket_of r (h_slot_ack_timeout h)))]> (harq_timeout_wheel r))) k).
      rewrite wheel_list_popped. case_decide as Ek; [done|]. rewrite filter_other; [done|]. intros Hin.
      apply (ri_wheel _ _ _ Hi) in Hin as (_ & h' & Hp2 & _ & Eb). apply Ek. rewrite <- Eb. congruence.
    + assert (Hpend : h_status h = harq_pending_retx) by (by destruct (h_status h)).
      destruct (detach_pending mu r p h Hi Hp Hpend) as (r1 & E1 & Hi1 & Ho1 & Eh1). rewrite E1. cbn [mbind outcome_bind].
      destruct (free_ok r1 p h Hi1) as (r' & E' & (Hi' & Ho' & Hp') & Ew & El); [by rewrite Eh1|]. exists r'. split; [done|]. split; [by split; [|split; [eapply only_trans|]]|].
      unfold pending_pop in E1. apply bind_ok_inv in E1 as (l & El1 & E1). unfold list_pop in El1. case_bool_decide; [|done]. injection El1 as <-. injection E1 as <-.
      split; [|by rewrite El]. intros k. unfold wheel_list at 1. rewrite Ew. by rewrite Hw.
Qed.

(** ** Acknowledgements *)
Lemma set_pending_ok r p h :
  repo_inv mu None r -> harqs r !! p = Some h -> h_status h = harq_waiting_ack -> h_nof_retxs h < h_max_nof_retxs h ->
  exists r', set_pending_retx r p = ok r' /\ one_done r p (with_status h harq_pending_retx) r'.
Proof.
  intros Hi Hp Hs Hlt. unfold set_pending_retx. rewrite (get_harq_ok _ _ _ Hp). cbn [mbind outcome_bind]. rewrite bool_decide_eq_false_2 by (by rewrite Hs).
  destruct (detach_wheel mu r p h Hi Hp Hs) as (r1 & E1 & Hi1 & Ho1 & Eh1). rewrite E1. cbn [mbind outcome_bind]. eexists. split; [reflexivity|].
  assert (Hp1 : harqs r1 !! p = Some h) by (by rewrite Eh1).
  assert (Hok : harq_ok mu r1 p (with_status h harq_pending_retx)).
  { destruct (ri_harq _ _ _ Hi1 p h Hp1) as [? ? ? ? Ha]. split; [done|done|done|cbn; done|]. intros _. apply Ha. by rewrite Hs. }
  destruct (set_harq_inv mu (Some p) r1 p h _ Hi1 Hp1 Hok (or_introl eq_refl)) as (Hi2 & Ho2 & _).
  destruct (attach_pending mu _ p _ Hi2 (lookup_set_harq _ _ _) eq_refl) as [Hi3 Ho3].
  split; [exact Hi3|]. split; [|apply lookup_set_harq]. eapply only_trans; [exact Ho1|]. eapply only_trans; [exact Ho2|exact Ho3].
Qed.

Lemma handle_ack_ok r p h ack :
  repo_inv mu None r -> harqs r !! p = Some h -> h_status h = harq_waiting_ack ->
  exists r', handle_ack r p ack = ok r' /\
    one_done r p (with_status h (if ack || (h_max_nof_retxs h <=? h_nof_retxs h) then harq_empty else harq_pending_retx)) r'.
Proof.
  intros Hi Hp Hs. unfold handle_ack. rewrite (get_harq_ok _ _ _ Hp). cbn [mbind outcome_bind]. destruct (ack || _) eqn:E.
  - destruct (dealloc_ok r p h Hi Hp) as (r' & ? & ? & _). by exists r'.
  - apply orb_false_iff in E as [_ E]. apply set_pending_ok; [done..|]. lia.
Qed.

(** ** Transmissions *)

(** A slot in which an acknowledgement may be scheduled. *)
Definition ack_slot_ok r sl_ack : Prop := slot_ok mu sl_ack /\ slot_dist (last_sl_ind r) sl_ack <= get_max_slot_ul_alloc_delay 0.

Lemma slot_dist_add_gen a s j : slot_ok mu a -> slot_ok mu s -> 0 <= j < 2 ^ 31 -> slot_dist a s + j < nsf mu -> slot_dist a (slot_add s j) = slot_dist a s + j.
Proof.
  intros Ha Hs Hj Hlt. pose proof (slot_dist_range mu a s Ha) as Hr. destruct (slot_add_ok mu s j Hs Hj) as [_ Ec]. pose proof Ha as (Hm & Ea & _).
  unfold slot_dist in *. rewrite Ea in *. rewrite Ec, Zminus_mod_idemp_l. pose proof (N_even mu Hm) as HN.
  replace (count_val s + j - count_val a) with (count_val s - count_val a + j) by lia. rewrite <- Zplus_mod_idemp_l. apply Z.mod_small. lia.
Qed.

Lemma timeout_ok exc r sl_ack :
  repo_inv mu exc r -> ack_slot_ok r sl_ack ->
  let t := slot_add sl_ack (max_ack_wait_in_slots r) in
  slot_ok mu t /\ slot_dist (last_sl_ind r) t = slot_dist (last_sl_ind r) sl_ack + max_ack_wait_in_slots r /\ 1 <= slot_dist (last_sl_ind r) t <= wheel_size r.
Proof.
  intros Hi [Hs Hd] t. destruct (ri_wait _ _ _ Hi) as [Hw Hws]. destruct (ri_size _ _ _ Hi) as [Hsz _]. pose proof (ri_last _ _ _ Hi) as Hl.
  pose proof (slot_dist_range mu _ sl_ack Hl) as Hr. unfold t. split; [apply slot_add_ok; [done|lia]|]. rewrite slot_dist_add_gen by (done || lia). lia.
Qed.

(** What a process is after it has been transmitted. *)
Definition sent_harq r h (sl_tx sl_ack : slot_point) (ndi : bool) (retxs max_retxs : Z) (cancelled : bool) : harq_process X :=
  mk_harq (h_ue_idx h) (h_rnti h) (h_id h) harq_waiting_ack sl_tx sl_ack (slot_add sl_ack (max_ack_wait_in_slots r)) ndi retxs max_retxs false cancelled (h_params h).

Lemma sent_harq_frame p r r' : only_process p r r' -> sent_harq r' = sent_harq r.
Proof. intros Ho. unfold sent_harq. by rewrite (op_wait _ _ _ Ho). Qed.

Lemma sent_ok r p h sl_tx sl_ack ndi retxs max_retxs cancelled :
  repo_inv mu (Some p) r -> harqs r !! p = Some h -> ack_slot_ok r sl_ack -> 0 <= retxs <= max_retxs -> max_retxs < 2 ^ 31 ->
  let h' := sent_harq r h sl_tx sl_ack ndi retxs max_retxs cancelled in
  one_done r p h' (ack_wheel_push (set_harq r p h') (bucket_of (set_harq r p h') (h_slot_ack_timeout h')) p).
Proof.
  intros Hi Hp Ha Hn Hm h'. destruct (timeout_ok _ _ _ Hi Ha) as (Ht & _ & Hd).
  assert (Hok : harq_ok mu r p h') by (destruct (ri_harq _ _ _ Hi p h Hp); split; [done|done|done|done|intros _; apply Ha]).
  destruct (set_harq_inv mu (Some p) r p h _ Hi Hp Hok (or_introl eq_refl)) as (Hi2 & Ho2 & _).
  destruct (attach_wheel mu _ p _ Hi2 (lookup_set_harq _ _ _) eq_refl) as [Hi3 Ho3].
  split; [exact Hi3|]. split; [|apply lookup_set_harq]. eapply only_trans; [exact Ho2|exact Ho3].
Qed.

Lemma ack_slot_frame p r r' sl : only_process p r r' -> ack_slot_ok r sl -> ack_slot_ok r' sl.
Proof. intros Ho. unfold ack_slot_ok. by rewrite (op_last _ _ _ Ho). Qed.

Lemma alloc_ok r ue sl_tx sl_ack max_retxs :
  repo_inv mu None r -> 0 <= ue < repo_max_ues r -> ack_slot_ok r sl_ack -> 0 <= max_retxs < 2 ^ 31 ->
  alloc_harq r ue sl_tx sl_ack max_retxs = ok (r, None) /\ free_harq_ids (ue_entity r ue) = [] \/
  exists id h r', harqs r !! (ue, id) = Some h /\ h_status h = harq_empty /\ alloc_harq r ue sl_tx sl_ack max_retxs = ok (r', Some (ue, id)) /\
    one_done r (ue, id) (sent_harq r h sl_tx sl_ack (negb (h_ndi h)) 0 max_retxs false) r'.
Proof.
  intros Hi Hu Ha Hm. assert (Hr : get_ue r ue = ok (ue_entity r ue)) by (unfold get_ue; by rewrite (proj2 (Z.leb_le _ _)), (proj2 (Z.ltb_lt _ _)) by lia).
  unfold alloc_harq. rewrite Hr. cbn [mbind outcome_bind]. destruct (free_harq_ids (ue_entity r ue)) as [|id free] eqn:Ef; [by left|right].
  destruct (detach_free mu r ue id free Hi Hr Ef) as (h & Hp & Hs & Hi1 & Ho1). exists id, h.
  pose proof (sent_ok _ (ue, id) h sl_tx sl_ack (negb (h_ndi h)) 0 max_retxs false Hi1 Hp (ack_slot_frame _ _ _ _ Ho1 Ha) ltac:(lia) ltac:(lia)) as (Hi2 & Ho2 & Hp2).
  eexists. split; [done|]. split; [done|]. rewrite (get_harq_ok (set_free r ue free) _ _ Hp). cbn [mbind outcome_bind]. split; [reflexivity|].
  split; [exact Hi2|]. split; [eapply only_trans; [exact Ho1|exact Ho2]|exact Hp2].
Qed.

Lemma new_retx_ok r p h sl_tx sl_ack :
  repo_inv mu None r -> harqs r !! p = Some h -> ack_slot_ok r sl_ack ->
  if decide (h_status h = harq_pending_retx)
  then exists r', handle_new_retx r p sl_tx sl_ack = ok (r', true) /\
         one_done r p (sent_harq r h sl_tx sl_ack (h_ndi h) (h_nof_retxs h + 1) (h_max_nof_retxs h) (h_retxs_cancelled h)) r'
  else handle_new_retx r p sl_tx sl_ack = ok (r, false).
Proof.
  intros Hi Hp Ha. unfold handle_new_retx. rewrite (get_harq_ok _ _ _ Hp). cbn [mbind outcome_bind].
  case_decide as Hs; [rewrite bool_decide_eq_true_2 by done|by rewrite bool_decide_eq_false_2 by done]. cbn [negb].
  destruct (ri_harq _ _ _ Hi p h Hp) as [_ Hn Hlt _ _]. specialize (Hlt Hs).
  destruct (detach_pending mu r p h Hi Hp Hs) as (r1 & E1 & Hi1 & Ho1 & Eh1). rewrite E1. cbn [mbind outcome_bind]. rewrite u32_small by lia.
  eexists. split; [reflexivity|]. rewrite <- Eh1 in Hp.
  destruct (sent_ok r1 p h sl_tx sl_ack (h_ndi h) (h_nof_retxs h + 1) (h_max_nof_retxs h) (h_retxs_cancelled h) Hi1 Hp (ack_slot_frame _ _ _ _ Ho1 Ha) ltac:(lia) ltac:(lia)) as (Hi2 & Ho2 & Hp2).
  split; [exact Hi2|]. split; [eapply only_trans; [exact Ho1|exact Ho2]|]. rewrite <- (sent_harq_frame _ _ _ Ho1). exact Hp2.
Qed.

(** ** Other changes of one process *)
Definition cancelled_harq h : harq_process X :=
  match h_status h with
  | harq_empty => h
  | harq_pending_retx => with_status h harq_empty
  | harq_waiting_ack =>
      mk_harq (h_ue_idx h) (h_rnti h) (h_id h) (h_status h) (h_slot_tx h) (h_slot_ack h) (h_slot_ack_timeout h) (h_ndi h) (h_nof_retxs h) (h_nof_retxs h) (h_ack_on_timeout h) true (h_params h)
  end.

Lemma cancel_ok r p h : repo_inv mu None r -> harqs r !! p = Some h -> exists r', cancel_retxs r p = ok r' /\ one_done r p (cancelled_harq h) r'.
Proof.
  intros Hi Hp. unfold cancel_retxs, cancelled_harq. rewrite (get_harq_ok _ _ _ Hp). cbn [mbind outcome_bind]. destruct (h_status h) eqn:Es.
  - exists r. split; [done|]. split; [done|split; [apply only_refl|done]].
  - destruct (dealloc_ok r p h Hi Hp) as (r' & ? & ? & _). by exists r'.
  - eexists. split; [reflexivity|]. destruct (ri_harq _ _ _ Hi p h Hp) as [? Hn ? Hw Ha].
    lazymatch goal with |- one_done _ _ ?x _ => set (h' := x) end.
    destruct (set_harq_inv mu None r p h h' Hi Hp) as (Hi2 & Ho2 & _); [|by right|split; [exact Hi2|split; [exact Ho2|apply lookup_set_harq]]].
    split; [done|cbn [h' h_nof_retxs h_max_nof_retxs]; lia|done|intros _; by apply Hw|intros _; apply Ha; congruence].
Qed.

(** Parameters that are not about the place of a process. *)
Lemma same_place_ok r p h h' :
  repo_inv mu None r -> harqs r !! p = Some h -> (exists x b, h' = with_ack_on_timeout (with_params h x) b) -> one_done r p h' (set_harq r p h').
Proof.
  intros Hi Hp (x & b & ->). destruct (set_harq_inv mu None r p h (with_ack_on_timeout (with_params h x) b) Hi Hp) as (Hi2 & Ho2 & _); [|by right|split; [exact Hi2|split; [exact Ho2|apply lookup_set_harq]]].
  by destruct (ri_harq _ _ _ Hi p h Hp).
Qed.

Lemma update_ok r p h f : repo_inv mu None r -> harqs r !! p = Some h -> exists r', update_params r p f = ok r' /\ one_done r p (with_params h (f (h_params h))) r'.
Proof.
  intros Hi Hp. unfold update_params. rewrite (get_harq_ok _ _ _ Hp). cbn [mbind outcome_bind]. eexists. split; [reflexivity|].
  apply same_place_ok with h; [done..|]. by exists (f (h_params h)), (h_ack_on_timeout h).
Qed.

Lemma shorten_ok r p h :
  repo_inv mu None r -> harqs r !! p = Some h -> h_status h = harq_waiting_ack ->
  exists r', shorten_ack_timeout r p = ok r' /\ one_done r p (with_ack_timeout h (slot_add (last_sl_ind r) SHORT_ACK_TIMEOUT_DTX)) r'.
Proof.
  intros Hi Hp Hs. unfold shorten_ack_timeout. rewrite (get_harq_ok _ _ _ Hp). cbn [mbind outcome_bind].
  destruct (detach_wheel mu r p h Hi Hp Hs) as (r1 & E1 & Hi1 & Ho1 & Eh1). rewrite E1. cbn [mbind outcome_bind]. eexists. split; [reflexivity|].
  rewrite <- Eh1 in Hp. rewrite <- (op_last _ _ _ Ho1). set (h' := with_ack_timeout h _). pose proof (ri_last _ _ _ Hi1) as Hl. destruct (ri_size _ _ _ Hi1) as [Hsz _].
  assert (Hok : harq_ok mu r1 p h').
  { destruct (ri_harq _ _ _ Hi1 p h Hp) as [? ? ? ? ?]. split; [done|done|done| |done]. intros _. unfold ack_left, h', with_ack_timeout, SHORT_ACK_TIMEOUT_DTX.
    cbn [h_slot_ack_timeout]. rewrite (slot_dist_add mu) by (done || lia). split; [apply slot_add_ok; [done|lia]|lia]. }
  destruct (set_harq_inv mu (Some p) r1 p h _ Hi1 Hp Hok (or_introl eq_refl)) as (Hi2 & Ho2 & _).
  destruct (attach_wheel mu _ p _ Hi2 (lookup_set_harq _ _ _) Hs) as [Hi3 Ho3].
  split; [exact Hi3|]. split; [|apply lookup_set_harq]. eapply only_trans; [exact Ho1|]. eapply only_trans; [exact Ho2|exact Ho3].
Qed.
End operations.

(** * HARQ processes: slots and UEs

    The indication of a slot frees the processes whose time is up, and exactly these; UEs come with their processes and go. *)

Section slots.
Context {X : Type} (mu : Z).
Implicit Types (r : cell_harq_repository X) (h : harq_process X) (p q : harq_ptr).

(** What no operation on processes changes. *)
Record same_cell r r' : Prop := {
  sc_last : last_sl_ind r' = last_sl_ind r;
  sc_wait : max_ack_wait_in_slots r' = max_ack_wait_in_slots r;
  sc_size : wheel_size r' = wheel_size r;
  sc_ues : repo_max_ues r' = repo_max_ues r;
  sc_nof : forall ue, nof_harqs (ue_entity r' ue) = nof_harqs (ue_entity r ue)
}.

Lemma only_same p r r' : only_process p r r' -> same_cell r r'.
Proof. intros []. by split. Qed.

Lemma same_refl r : same_cell r r.
Proof. by split. Qed.

Lemma same_trans r1 r2 r3 : same_cell r1 r2 -> same_cell r2 r3 -> same_cell r1 r3.
Proof. intros [] []. split; congruence. Qed.

Lemma same_get_ue r r' ue : same_cell r r' -> get_ue r ue = ok (ue_entity r ue) -> get_ue r' ue = ok (ue_entity r' ue).
Proof. intros [] Hr. apply get_ue_range in Hr as [Hr _]. unfold get_ue. rewrite sc_ues0, (proj2 (Z.leb_le _ _)), (proj2 (Z.ltb_lt _ _)) by lia. done. Qed.

(** ** Processes whose time is up *)

(** The processes of [l] are freed, and the owners are told what is left of the acknowledgement. *)
Definition freed (l : list harq_ptr) p h : harq_process X := if decide (p ∈ l) then with_status h harq_empty else h.

Definition notice r p : Z * bool := (p.1, match harqs r !! p with None => false | Some h => h_ack_on_timeout h end).

Definition told r (l : list harq_ptr) : list (Z * bool) := if max_ack_wait_in_slots r =? 1 then [] else notice r <$> l.

Lemma freed_one r r1 p h : harqs r !! p = Some h -> one_done mu r p (with_status h harq_empty) r1 -> forall q, harqs r1 !! q = freed [p] q <$> harqs r !! q.
Proof.
  intros Hp (_ & Ho & Hp1) q. unfold freed. case_decide as Hq; rewrite list_elem_of_singleton in Hq; [subst q; by rewrite Hp1, Hp|].
  rewrite (op_harqs _ _ _ Ho) by done. by destruct (harqs r !! q).
Qed.

Lemma harq_notify_inv exc r n : repo_inv mu exc r -> repo_inv mu exc (notify r n).
Proof. intros []. split; try done. intros q h' Hq. apply (harq_ok_frame mu r); [done..|]. by apply ri_harq. Qed.

Lemma timeout_one r p h :
  repo_inv mu None r -> harqs r !! p = Some h ->
  exists r', handle_harq_ack_timeout r p = ok r' /\ repo_inv mu None r' /\ same_cell r r' /\
    (forall q, harqs r' !! q = (freed [p] q) <$> harqs r !! q) /\ timeouts r' = timeouts r ++ told r [p] /\
    (forall k, wheel_list r' k = filter (.≠ p) (wheel_list r k)) /\ harq_pending_retx_list r' = filter (.≠ p) (harq_pending_retx_list r).
Proof.
  intros Hi Hp. unfold handle_harq_ack_timeout. rewrite (get_harq_ok _ _ _ Hp). cbn [mbind outcome_bind].
  destruct (dealloc_ok mu r p h Hi Hp) as (r1 & E1 & (Hi1 & Ho1 & Hp1) & Hw & Hl). rewrite E1. cbn [mbind outcome_bind]. rewrite (op_wait _ _ _ Ho1).
  destruct (ue_of_harq _ _ _ _ _ Hi Hp) as (_ & Eu & _). rewrite Eu.
  assert (Hf := freed_one r r1 p h Hp (conj Hi1 (conj Ho1 Hp1))).
  eexists. split; [reflexivity|]. pose proof (op_timeouts _ _ _ Ho1) as Et.
  assert (En : told r [p] = if max_ack_wait_in_slots r =? 1 then [] else [(p.1, h_ack_on_timeout h)]) by (unfold told, notice; cbn; by rewrite Hp).
  rewrite En. destruct (max_ack_wait_in_slots r =? 1); cbn [negb].
  - rewrite app_nil_r. split_and!; [done|by eapply only_same|done|done|done|done].
  - split_and!; [by apply harq_notify_inv|by destruct (only_same _ _ _ Ho1)|done|cbn [notify timeouts]; by rewrite Et|done|done].
Qed.

Lemma freed_cons p l q h : freed l q (freed [p] q h) = freed (p :: l) q h.
Proof. unfold freed. pose proof (elem_of_cons l q p) as H1. pose proof (list_elem_of_singleton q p) as H2. repeat case_decide; done || tauto. Qed.

Lemma ack_timeouts_ok fuel : forall r k,
  repo_inv mu None r -> (length (wheel_list r k) < fuel)%nat ->
  exists r', ack_timeouts fuel r k = ok r' /\ repo_inv mu None r' /\ same_cell r r' /\
    (forall q, harqs r' !! q = (freed (wheel_list r k) q) <$> harqs r !! q) /\ timeouts r' = timeouts r ++ told r (wheel_list r k).
Proof.
  induction fuel as [|fuel IH]; intros r k Hi Hf; [lia|]. cbn [ack_timeouts]. destruct (wheel_list r k) as [|p l] eqn:El.
  - exists r. unfold told, freed. split; [done|]. split; [done|]. split; [apply same_refl|]. split; [intros q; by destruct (harqs r !! q)|]. destruct (_ =? _); by rewrite app_nil_r.
  - assert (Hin : p ∈ wheel_list r k) by (rewrite El; left). destruct (proj1 (ri_wheel _ _ _ Hi k p) Hin) as (_ & h & Hp & _).
    destruct (timeout_one r p h Hi Hp) as (r1 & E1 & Hi1 & Hs1 & Hh1 & Ht1 & Hw1 & _). rewrite E1. cbn [mbind outcome_bind].
    pose proof (ri_wheel_nodup _ _ _ Hi k) as Hnd. rewrite El in Hnd. apply NoDup_cons in Hnd as [Hn Hnd].
    assert (El1 : wheel_list r1 k = l) by (rewrite Hw1, El, filter_cons_False by (intros H; by apply H); by apply filter_other).
    destruct (IH r1 k Hi1) as (r' & E' & Hi' & Hs' & Hh' & Ht'); [rewrite El1; cbn [length] in Hf; lia|]. exists r'. split; [done|]. split; [done|].
    split; [by eapply same_trans|]. rewrite El1 in *. split.
    + intros q. rewrite Hh', Hh1. destruct (harqs r !! q); [cbn; by rewrite freed_cons|done].
    + rewrite Ht', Ht1, <- app_assoc. f_equal. unfold told. rewrite (sc_wait _ _ Hs1). destruct (_ =? _); [done|]. cbn. f_equal.
      apply list_fmap_ext. intros i q Hq. unfold notice. rewrite Hh1. f_equal. destruct (harqs r !! q); [cbn|done]. unfold freed. by case_decide.
Qed.

(** ** Retransmissions that are not scheduled *)
Definition trapped r p : bool :=
  match harqs r !! p with
  | None => false
  | Some h => negb (bool_decide (slot_lt (last_sl_ind r) (slot_add (h_slot_ack h) (max_nof_slots_for_retx r)) = ok true))
  end.

Fixpoint take_trapped r (l : list harq_ptr) : list harq_ptr := match l with [] => [] | p :: l => if trapped r p then p :: take_trapped r l else [] end.

Lemma retx_slots_ok mu' : 0 <= mu' < NOF_NUMEROLOGIES -> 0 <= nof_slots_per_system_frame mu' / 4 < 2 ^ 31.
Proof. intros H. destruct (N_even mu' H) as (_ & ? & ?). divmod. Qed.

Lemma take_trapped_frame r r' p l :
  same_cell r r' -> p ∉ l -> (forall q, harqs r' !! q = (freed [p] q) <$> harqs r !! q) -> take_trapped r' l = take_trapped r l.
Proof.
  intros Hs Hp Hh. induction l as [|q l IH]; [done|]. apply not_elem_of_cons in Hp as [Hq Hp]. cbn [take_trapped]. rewrite IH by done. unfold trapped. rewrite Hh.
  unfold max_nof_slots_for_retx. rewrite (sc_last _ _ Hs). destruct (harqs r !! q); [cbn|done]. unfold freed. rewrite decide_False by (rewrite list_elem_of_singleton; congruence). done.
Qed.

Lemma trapped_ok fuel : forall r,
  repo_inv mu None r -> (length (harq_pending_retx_list r) < fuel)%nat ->
  let l := take_trapped r (harq_pending_retx_list r) in
  exists r', trapped_retxs fuel r = ok r' /\ repo_inv mu None r' /\ same_cell r r' /\ (forall q, harqs r' !! q = (freed l q) <$> harqs r !! q) /\
    timeouts r' = timeouts r ++ ((fun p => (p.1, false)) <$> l).
Proof.
  induction fuel as [|fuel IH]; intros r Hi Hf l; [lia|]. unfold l. clear l. cbn [trapped_retxs]. destruct (harq_pending_retx_list r) as [|p l] eqn:El; cbn [take_trapped].
  { exists r. unfold freed. split; [done|]. split; [done|]. split; [apply same_refl|]. split; [intros q; by destruct (harqs r !! q)|]. by rewrite app_nil_r. }
  assert (Hin : p ∈ harq_pending_retx_list r) by (rewrite El; left). destruct (proj1 (ri_pending _ _ _ Hi p) Hin) as (_ & h & Hp & Hs).
  rewrite (get_harq_ok _ _ _ Hp). cbn [mbind outcome_bind]. unfold trapped. rewrite Hp. pose proof (ri_last _ _ _ Hi) as Hl.
  assert (Ha : slot_ok mu (slot_add (h_slot_ack h) (max_nof_slots_for_retx r))).
  { apply slot_add_ok; [apply (ho_ack _ _ _ _ (ri_harq _ _ _ Hi p h Hp)); congruence|]. unfold max_nof_slots_for_retx. apply retx_slots_ok. destruct Hl as (? & -> & _). done. }
  rewrite (slot_lt_dist mu) by done. cbn [mbind outcome_bind]. destruct (_ && _) eqn:Eb.
  { rewrite bool_decide_eq_true_2 by done. cbn [negb]. exists r. unfold freed. split; [done|]. split; [done|]. split; [apply same_refl|].
    split; [intros q; by destruct (harqs r !! q)|]. by rewrite app_nil_r. }
  rewrite bool_decide_eq_false_2 by done. cbn [negb]. destruct (dealloc_ok mu r p h Hi Hp) as (r1 & E1 & (Hi1 & Ho1 & Hp1) & _ & Hw). rewrite E1. cbn [mbind outcome_bind].
  destruct (ue_of_harq _ _ _ _ _ Hi Hp) as (_ & Eu & _). rewrite Eu. set (r2 := notify r1 (p.1, false)).
  pose proof (ri_pending_nodup _ _ _ Hi) as Hnd. rewrite El in Hnd. apply NoDup_cons in Hnd as [Hn Hnd].
  assert (El2 : harq_pending_retx_list r2 = l) by (unfold r2; cbn [notify harq_pending_retx_list]; rewrite Hw, El, filter_cons_False by (intros H; by apply H); by apply filter_other).
  assert (Hi2 : repo_inv mu None r2) by (by apply harq_notify_inv).
  assert (Hs2 : same_cell r r2) by (destruct (only_same _ _ _ Ho1); by split).
  assert (Hf2 := freed_one r r1 p h Hp (conj Hi1 (conj Ho1 Hp1)) : forall q, harqs r2 !! q = freed [p] q <$> harqs r !! q).
  destruct (IH r2 Hi2) as (r' & E' & Hi' & Hs' & Hh' & Ht'); [rewrite El2; cbn [length] in Hf; lia|]. exists r'. split; [done|]. split; [done|]. split; [by eapply same_trans|].
  rewrite El2, (take_trapped_frame r r2 p l) in * by done. split.
  - intros q. rewrite Hh', Hf2. destruct (harqs r !! q); [cbn; by rewrite freed_cons|done].
  - rewrite Ht'. unfold r2. cbn [notify timeouts fmap list_fmap]. rewrite (op_timeouts _ _ _ Ho1). by rewrite <- app_assoc.
Qed.

(** ** The indication of a slot *)

(** To free processes before the slot is taken over and after it is the same. *)
Lemma dealloc_set_last r p sl : dealloc_harq (set_last r sl) p = (r ← dealloc_harq r p; ok (set_last r sl)).
Proof.
  unfold dealloc_harq, get_harq. cbn [set_last harqs]. destruct (harqs r !! p) as [h|]; cbn [mbind outcome_bind]; [|done]. case_bool_decide; [done|].
  unfold ack_wheel_pop, pending_pop, list_pop, get_ue. change (wheel_list (set_last r sl)) with (wheel_list r). change (bucket_of (set_last r sl)) with (bucket_of r).
  cbn [set_last harq_pending_retx_list]. repeat (case_bool_decide; cbn [mbind outcome_bind]; try done).
  all: cbn [set_harq set_harqs set_wheel set_pending set_last repo_max_ues]; destruct (_ && _); done.
Qed.

Lemma ack_timeouts_set_last fuel : forall r k sl, ack_timeouts fuel (set_last r sl) k = (r ← ack_timeouts fuel r k; ok (set_last r sl)).
Proof.
  induction fuel as [|fuel IH]; intros r k sl; [done|]. cbn [ack_timeouts]. change (wheel_list (set_last r sl) k) with (wheel_list r k).
  destruct (wheel_list r k) as [|p l]; [done|]. unfold handle_harq_ack_timeout. change (get_harq (set_last r sl) p) with (get_harq r p).
  destruct (get_harq r p) as [h|e]; cbn [mbind outcome_bind]; [|done]. rewrite dealloc_set_last.
  destruct (dealloc_harq r p) as [r1|e1]; cbn [mbind outcome_bind]; [|done]. cbn [set_last max_ack_wait_in_slots]. destruct (negb _); cbn [mbind outcome_bind]; [|apply IH].
  apply (IH (notify r1 _)).
Qed.

Lemma bucket_dist r a t : slot_ok mu a -> 0 < wheel_size r -> nsf mu mod wheel_size r = 0 -> bucket_of r t = (count_val a + slot_dist a t) mod wheel_size r.
Proof.
  intros (Hm & Ea & _) Hs Hd. pose proof (N_even mu Hm) as HN. unfold bucket_of, slot_dist. rewrite Ea. set (n := nsf mu) in *. set (w := wheel_size r) in *.
  pose proof (Z.div_mod (count_val t - count_val a) n ltac:(lia)) as E1. pose proof (Z.div_mod n w ltac:(lia)) as E2. rewrite Hd, Z.add_0_r in E2.
  rewrite <- (Z.mod_add (count_val a + _) (n / w * ((count_val t - count_val a) / n)) w) by lia. f_equal.
  rewrite E2 in E1 at 1. lia.
Qed.

Lemma slot_dist_next a t : slot_ok mu a -> slot_ok mu t -> 1 <= slot_dist a t -> slot_dist (slot_next a) t = slot_dist a t - 1.
Proof.
  intros Ha Ht H1. rewrite (slot_next_add mu a Ha). pose proof Ha as (Hm & Ea & _). destruct (slot_add_ok mu a 1 Ha ltac:(lia)) as [(_ & En & _) Ec].
  pose proof (slot_dist_range mu a t Ha) as Hr. unfold slot_dist in *. rewrite En, Ec, Zminus_mod_idemp_r. rewrite Ea in *. pose proof (N_even mu Hm) as HN.
  replace (count_val t - (count_val a + 1)) with (count_val t - count_val a + -1) by lia. rewrite <- Zplus_mod_idemp_l. apply Z.mod_small. lia.
Qed.

Lemma slot_next_ok a : slot_ok mu a -> slot_ok mu (slot_next a).
Proof. intros Ha. rewrite (slot_next_add mu a Ha). by apply slot_add_ok. Qed.

(** The place of the wheel that is visited holds the processes with one slot left. *)
Lemma wheel_due r p :
  repo_inv mu None r ->
  p ∈ wheel_list r (bucket_of r (slot_next (last_sl_ind r))) <-> exists h, harqs r !! p = Some h /\ h_status h = harq_waiting_ack /\ ack_left r h = 1.
Proof.
  intros Hi. pose proof (ri_last _ _ _ Hi) as Hl. destruct (ri_size _ _ _ Hi) as [Hs Hd]. rewrite (ri_wheel _ _ _ Hi).
  assert (Hb : bucket_of r (slot_next (last_sl_ind r)) = (count_val (last_sl_ind r) + 1) mod wheel_size r).
  { rewrite (bucket_dist r (last_sl_ind r)) by (done || lia). rewrite (slot_next_add mu) by done. by rewrite (slot_dist_add mu) by (done || lia). }
  rewrite Hb. split.
  - intros (_ & h & Hp & Hst & Eb). exists h. split; [done|]. split; [done|]. destruct (ho_waiting _ _ _ _ (ri_harq _ _ _ Hi p h Hp) Hst) as [Ht Hr].
    rewrite (bucket_dist r (last_sl_ind r)) in Eb by (done || lia). fold (ack_left r h) in Eb. set (c := count_val _) in *. set (w := wheel_size r) in *. set (x := ack_left r h) in *.
    assert (E : (x - 1) mod w = 0).
    { replace (x - 1) with ((c + x) - (c + 1)) by lia. by rewrite Zminus_mod, Eb, Z.sub_diag. }
    rewrite Z.mod_small in E by lia. lia.
  - intros (h & Hp & Hst & E). split; [done|]. exists h. split; [done|]. split; [done|]. rewrite (bucket_dist r (last_sl_ind r)) by (done || lia). by fold (ack_left r h); rewrite E.
Qed.

Lemma advance_inv r :
  repo_inv mu None r -> wheel_list r (bucket_of r (slot_next (last_sl_ind r))) = [] -> repo_inv mu None (set_last r (slot_next (last_sl_ind r))).
Proof.
  intros Hi Hw. assert (Hne : forall p h, harqs r !! p = Some h -> h_status h = harq_waiting_ack -> ack_left r h <> 1).
  { intros p h Hp Hs E. assert (Hin : p ∈ wheel_list r (bucket_of r (slot_next (last_sl_ind r)))) by (apply wheel_due; eauto). rewrite Hw in Hin. by apply not_elem_of_nil in Hin. }
  pose proof (ri_last _ _ _ Hi) as Hl. destruct Hi. split; try done; [by apply slot_next_ok|].
  intros p h Hp. pose proof (ri_harq p h Hp) as []. split; try done. intros Hs. destruct (ho_waiting Hs) as [Ht Hr]. split; [done|].
  specialize (Hne p h Hp Hs). unfold ack_left in *. cbn [set_last last_sl_ind]. rewrite slot_dist_next by (done || lia). cbn [set_last wheel_size]. lia.
Qed.

(** What the next slot brings: the processes with one slot left are freed, and some of those that are not retransmitted. *)
Record slot_done r r' (l : list harq_ptr) : Prop := {
  sd_inv : repo_inv mu None r';
  sd_last : last_sl_ind r' = slot_next (last_sl_ind r);
  sd_frame : max_ack_wait_in_slots r' = max_ack_wait_in_slots r /\ wheel_size r' = wheel_size r /\ repo_max_ues r' = repo_max_ues r;
  sd_nof : forall ue, nof_harqs (ue_entity r' ue) = nof_harqs (ue_entity r ue);
  sd_pending : forall p, p ∈ l -> status_at r p harq_pending_retx;
  sd_harqs : forall p, harqs r' !! p = (freed (wheel_list r (bucket_of r (slot_next (last_sl_ind r))) ++ l) p) <$> harqs r !! p;
  sd_told : timeouts r' = timeouts r ++ told r (wheel_list r (bucket_of r (slot_next (last_sl_ind r)))) ++ ((fun p => (p.1, false)) <$> l)
}.

Lemma take_trapped_sub r l p : p ∈ take_trapped r l -> p ∈ l.
Proof. induction l as [|q l IH]; cbn [take_trapped]; [done|]. destruct (trapped r q); [|by intros H%not_elem_of_nil]. rewrite !elem_of_cons. tauto. Qed.

Lemma freed_app l1 l2 p h : freed l2 p (freed l1 p h) = freed (l1 ++ l2) p h.
Proof. unfold freed. pose proof (elem_of_app l1 l2 p) as H1. repeat case_decide; done || tauto. Qed.

Lemma slot_indication_ok r : repo_inv mu None r -> exists r' l, repo_slot_indication r (slot_next (last_sl_ind r)) = ok r' /\ slot_done r r' l.
Proof.
  intros Hi. unfold repo_slot_indication. change (bucket_of (set_last r ?sl)) with (bucket_of r). set (k := bucket_of r (slot_next (last_sl_ind r))).
  change (wheel_list (set_last r ?sl) k) with (wheel_list r k). rewrite ack_timeouts_set_last.
  destruct (ack_timeouts_ok (S (length (wheel_list r k))) r k Hi ltac:(lia)) as (r1 & E1 & Hi1 & Hs1 & Hh1 & Ht1). rewrite E1. cbn [mbind outcome_bind].
  assert (Ek : forall sl, bucket_of r1 sl = bucket_of r sl) by (intros; unfold bucket_of; by rewrite (sc_size _ _ Hs1)).
  assert (Hw1 : wheel_list r1 (bucket_of r1 (slot_next (last_sl_ind r1))) = []).
  { destruct (wheel_list r1 _) as [|p l] eqn:El; [done|]. assert (Hin : p ∈ p :: l) by left. rewrite <- El in Hin. apply (wheel_due r1 p Hi1) in Hin as (h1 & Hp1 & Hst & E).
    rewrite Hh1 in Hp1. destruct (harqs r !! p) as [h|] eqn:Hp; [|done]. cbn [fmap option_fmap option_map] in Hp1. injection Hp1 as <-. unfold freed in *. revert Hst E.
    case_decide as Hd; [done|]. intros Hst E. destruct Hd. apply (wheel_due r p Hi). exists h. unfold ack_left in *. by rewrite <- (sc_last _ _ Hs1). }
  pose proof (advance_inv r1 Hi1 Hw1) as Hi2. rewrite (sc_last _ _ Hs1) in Hi2. set (r2 := set_last r1 _) in *.
  destruct (trapped_ok _ r2 Hi2 (Nat.lt_succ_diag_r _)) as (r' & E' & Hi' & Hs' & Hh' & Ht'). exists r', (take_trapped r2 (harq_pending_retx_list r2)).
  split; [exact E'|]. split; [done|by rewrite (sc_last _ _ Hs')| | | | |].
  - rewrite (sc_wait _ _ Hs'), (sc_size _ _ Hs'), (sc_ues _ _ Hs'). by destruct Hs1.
  - intros ue. rewrite (sc_nof _ _ Hs'). apply (sc_nof _ _ Hs1).
  - intros p Hin%take_trapped_sub. apply (ri_pending _ _ _ Hi2) in Hin as (_ & h & Hp & Hs). change (harqs r1 !! p = Some h) in Hp. rewrite Hh1 in Hp.
    destruct (harqs r !! p) as [h0|] eqn:Hp0; [|done]. cbn [fmap option_fmap option_map] in Hp. injection Hp as <-. exists h0. split; [done|]. unfold freed in Hs. by case_decide.
  - intros p. rewrite Hh'. change (harqs r2 !! p) with (harqs r1 !! p). rewrite Hh1. destruct (harqs r !! p); [cbn; by rewrite freed_app|done].
  - rewrite Ht'. change (timeouts r2) with (timeouts r1). by rewrite Ht1, <- app_assoc.
Qed.

(** ** UEs *)
Lemma dealloc_all_ok ue (ids : list Z) : forall r,
  repo_inv mu None r -> (forall id, id ∈ ids -> is_Some (harqs r !! (ue, id))) ->
  exists r', dealloc_all r ue ids = ok r' /\ repo_inv mu None r' /\ same_cell r r' /\ timeouts r' = timeouts r /\
    forall p, harqs r' !! p = (freed (pair ue <$> ids) p) <$> harqs r !! p.
Proof.
  induction ids as [|id ids IH]; intros r Hi Hd; cbn [dealloc_all].
  { exists r. split; [done|]. split; [done|]. split; [apply same_refl|]. split; [done|]. intros p. by destruct (harqs r !! p). }
  destruct (Hd id ltac:(left)) as [h Hp]. destruct (dealloc_ok mu r _ h Hi Hp) as (r1 & E1 & Ho1 & _). rewrite E1. cbn [mbind outcome_bind].
  pose proof (freed_one _ _ _ _ Hp Ho1) as Hf1. destruct Ho1 as (Hi1 & Ho1 & _). destruct (IH r1 Hi1) as (r' & E' & Hi' & Hs' & Ht' & Hh').
  { intros id' Hin. rewrite Hf1. destruct (Hd id' ltac:(by right)) as [h' ->]. by eexists. }
  exists r'. split; [done|]. split; [done|]. split; [eapply same_trans; [by eapply only_same|done]|]. split; [by rewrite Ht', (op_timeouts _ _ _ Ho1)|].
  intros p. rewrite Hh', Hf1. destruct (harqs r !! p); [cbn; by rewrite freed_cons|done].
Qed.

Lemma elem_of_seqZ0 n id : id ∈ seqZ 0 n <-> 0 <= id < n.
Proof. rewrite elem_of_seqZ. lia. Qed.

Lemma foldr_insert_lookup (f : Z -> harq_process X) (ue : Z) (ids : list Z) (m : gmap harq_ptr (harq_process X)) p :
  foldr (fun id m => <[(ue, id) := f id]> m) m ids !! p = if decide (p.1 = ue /\ p.2 ∈ ids) then Some (f p.2) else m !! p.
Proof.
  induction ids as [|id ids IH]; cbn [foldr]; [rewrite decide_False; [done|]; by intros [_ ?%not_elem_of_nil]|].
  destruct (decide (p = (ue, id))) as [->|Hne]; [rewrite lookup_insert_eq, decide_True; [done|]; split; [done|left]|].
  rewrite lookup_insert_ne by done. rewrite IH. destruct p as [u i]. cbn [fst snd]. apply decide_ext. rewrite elem_of_cons. split; [tauto|]. intros [-> [->|]]; done.
Qed.

Lemma foldr_delete_lookup (ue : Z) (ids : list Z) (m : gmap harq_ptr (harq_process X)) p :
  foldr (fun id m => delete (ue, id) m) m ids !! p = if decide (p.1 = ue /\ p.2 ∈ ids) then None else m !! p.
Proof.
  induction ids as [|id ids IH]; cbn [foldr]; [rewrite decide_False; [done|]; by intros [_ ?%not_elem_of_nil]|].
  destruct (decide (p = (ue, id))) as [->|Hne]; [rewrite lookup_delete_eq, decide_True; [done|]; split; [done|left]|].
  rewrite lookup_delete_ne by done. rewrite IH. destruct p as [u i]. cbn [fst snd]. apply decide_ext. rewrite elem_of_cons. split; [tauto|]. intros [-> [->|]]; done.
Qed.

Lemma ue_entity_insert r m ue e ue' : ue_entity (set_ues (set_harqs r m) (<[ue := e]> (ues r))) ue' = if decide (ue' = ue) then e else ue_entity r ue'.
Proof. unfold ue_entity. cbn [set_ues ues]. case_decide as E; [by rewrite E, lookup_insert_eq|by rewrite lookup_insert_ne by congruence]. Qed.

(** A UE is given all of its processes, or loses them; none of them is in a place other than the free ones. *)
Lemma replace_ue_inv r m ue e :
  repo_inv mu None r -> 0 <= ue < repo_max_ues r -> NoDup (free_harq_ids e) ->
  (forall p, p.1 <> ue -> m !! p = harqs r !! p) ->
  (forall id h, harqs r !! (ue, id) = Some h -> h_status h = harq_empty) ->
  (forall id, id ∈ free_harq_ids e <-> 0 <= id < nof_harqs e) ->
  (forall id, if decide (0 <= id < nof_harqs e) then exists x rnti, m !! (ue, id) = Some (new_harq x ue rnti id) else m !! (ue, id) = None) ->
  repo_inv mu None (set_ues (set_harqs r m) (<[ue := e]> (ues r))).
Proof.
  intros Hi Hu Hnd Hm He Hf Hnew. pose proof (ue_entity_insert r m ue e) as Ee.
  assert (Hst : forall q h, h_status h <> harq_empty -> m !! q = Some h <-> harqs r !! q = Some h).
  { intros [u id] h Hne. destruct (decide (u = ue)) as [->|Hu']; [|by rewrite Hm]. specialize (Hnew id). split; intros Hp.
    - case_decide; [destruct Hnew as (x & rnti & E)|]; rewrite Hp in *; [injection E as ->; by destruct Hne|done].
    - destruct Hne. by eapply He. }
  destruct Hi. split; try done.
  - intros ue' e'. cbn [set_ues ues]. intros [[<- _]|[_ H]]%lookup_insert_Some; [done|by eapply ri_ues].
  - intros [u id]. cbn [set_ues set_harqs harqs fst snd]. rewrite Ee. case_decide as Hu'; [subst u|rewrite Hm by done; apply (ri_dom (u, id))].
    specialize (Hnew id). case_decide; [destruct Hnew as (x & rnti & ->); by split|rewrite Hnew]. split; [by intros [? ?]|done].
  - intros [u id] h. cbn [set_ues set_harqs harqs]. intros Hp. apply (harq_ok_frame mu r); [done..|]. destruct (decide (u = ue)) as [->|Hu']; [|rewrite Hm in Hp by done; by apply ri_harq].
    specialize (Hnew id). case_decide; [destruct Hnew as (x & rnti & E)|]; rewrite Hp in *; [injection E as ->; split; done || cbn; lia|done].
  - intros u. rewrite Ee. by case_decide.
  - intros u id. rewrite Ee. unfold status_at. cbn [set_ues set_harqs harqs]. case_decide as Hu'; [subst u; rewrite Hf|rewrite Hm by done; apply ri_free].
    specialize (Hnew id). case_decide; [destruct Hnew as (x & rnti & E)|]; (split; [|done || intros (_ & h & Hp & _); congruence]); [|done]. intros _. split; [done|]. eexists. by split.
  - intros k q. rewrite (ri_wheel k q). cbn [set_ues set_harqs harqs]. split; intros (? & h & Hp & Hs & Hb); (split; [done|]); exists h; split_and!; [apply Hst|done|exact Hb|apply Hst in Hp|done|exact Hb]; congruence.
  - intros q. rewrite (ri_pending q). unfold status_at. cbn [set_ues set_harqs harqs]. split; intros (? & h & Hp & Hs); (split; [done|]); exists h; split; [apply Hst|done|apply Hst in Hp|done]; congruence.
Qed.

Lemma get_ue_in r ue : 0 <= ue < repo_max_ues r -> get_ue r ue = ok (ue_entity r ue).
Proof. intros H. unfold get_ue. by rewrite (proj2 (Z.leb_le _ _)), (proj2 (Z.ltb_lt _ _)) by lia. Qed.

(** A UE that has no processes gets its own. *)
Lemma reserve_ok r x ue rnti nof :
  repo_inv mu None r -> 0 <= ue < repo_max_ues r -> nof_harqs (ue_entity r ue) <= 0 ->
  exists r', reserve_ue_harqs r x ue rnti nof = ok r' /\ repo_inv mu None r' /\ last_sl_ind r' = last_sl_ind r /\ repo_max_ues r' = repo_max_ues r /\ timeouts r' = timeouts r /\
    (forall ue', nof_harqs (ue_entity r' ue') = if decide (ue' = ue) then nof else nof_harqs (ue_entity r ue')) /\
    (forall p, p.1 <> ue -> harqs r' !! p = harqs r !! p) /\ (forall id, 0 <= id < nof -> harqs r' !! (ue, id) = Some (new_harq x ue rnti id)).
Proof.
  intros Hi Hu Hn. unfold reserve_ue_harqs. rewrite get_ue_in by done. cbn [mbind outcome_bind]. set (m := foldr _ _ _).
  assert (Hm : forall p, m !! p = if decide (p.1 = ue /\ p.2 ∈ seqZ 0 nof) then Some (new_harq x ue rnti p.2) else harqs r !! p) by (intros p; apply foldr_insert_lookup).
  assert (Hno : forall id, harqs r !! (ue, id) = None).
  { intros id. destruct (harqs r !! (ue, id)) as [h|] eqn:Hp; [|done]. pose proof (proj1 (ri_dom _ _ _ Hi (ue, id)) (mk_is_Some _ _ Hp)) as Hr. cbn [fst snd] in Hr. lia. }
  eexists. split; [reflexivity|]. split; [|split; [done|split; [done|split; [done|split; [|split]]]]].
  - apply replace_ue_inv; [done..|apply NoDup_seqZ| | |intros id; apply elem_of_seqZ0|].
    + intros p Hp. rewrite Hm. by rewrite decide_False by tauto.
    + intros id h Hp. by rewrite Hno in Hp.
    + intros id. rewrite Hm. cbn [fst snd nof_harqs]. pose proof (elem_of_seqZ0 nof id) as Hz. repeat case_decide; try tauto; [by exists x, rnti|apply Hno].
  - intros ue'. rewrite ue_entity_insert. by case_decide.
  - intros p Hp. cbn [set_ues set_harqs harqs]. rewrite Hm. by rewrite decide_False by tauto.
  - intros id Hid. cbn [set_ues set_harqs harqs]. rewrite Hm. cbn [fst snd]. rewrite decide_True; [done|]. split; [done|by apply elem_of_seqZ0].
Qed.

(** A UE that leaves has its processes freed and taken away. *)
Lemma destroy_ok r ue :
  repo_inv mu None r -> 0 <= ue < repo_max_ues r ->
  exists r', destroy_harqs r ue = ok r' /\ repo_inv mu None r' /\ last_sl_ind r' = last_sl_ind r /\ repo_max_ues r' = repo_max_ues r /\ timeouts r' = timeouts r /\
    (forall ue', nof_harqs (ue_entity r' ue') = if decide (ue' = ue) then 0 else nof_harqs (ue_entity r ue')) /\
    (forall p, harqs r' !! p = if decide (p.1 = ue) then None else harqs r !! p).
Proof.
  intros Hi Hu. unfold destroy_harqs. rewrite get_ue_in by done. cbn [mbind outcome_bind]. set (ids := seqZ 0 _).
  destruct (dealloc_all_ok ue ids r Hi) as (r1 & E1 & Hi1 & Hs1 & Ht1 & Hh1).
  { intros id Hid. apply (ri_dom _ _ _ Hi (ue, id)). by apply elem_of_seqZ0. }
  rewrite E1. cbn [mbind outcome_bind]. set (m := foldr _ _ _).
  assert (Hm : forall p, m !! p = if decide (p.1 = ue /\ p.2 ∈ ids) then None else harqs r1 !! p) by (intros p; apply foldr_delete_lookup).
  assert (Hids : forall id h, harqs r1 !! (ue, id) = Some h -> id ∈ ids).
  { intros id h Hp. apply elem_of_seqZ0. rewrite <- (sc_nof _ _ Hs1). apply (ri_dom _ _ _ Hi1 (ue, id)). by eexists. }
  assert (Hno : forall id, m !! (ue, id) = None).
  { intros id. rewrite Hm. cbn [fst snd]. case_decide as Hd; [done|]. destruct (harqs r1 !! (ue, id)) eqn:Hp; [|done]. apply Hids in Hp. tauto. }
  assert (Hne : forall p, p.1 <> ue -> m !! p = harqs r1 !! p) by (intros p Hp; rewrite Hm; by rewrite decide_False by tauto).
  eexists. split; [reflexivity|]. split; [|split; [apply Hs1|split; [apply Hs1|split; [done|split]]]].
  - apply replace_ue_inv; [done|by rewrite (sc_ues _ _ Hs1)|apply NoDup_nil; done|done| | |].
    + intros id h Hp. pose proof (Hids _ _ Hp) as Hin. rewrite Hh1 in Hp. destruct (harqs r !! (ue, id)); [|done]. cbn [fmap option_fmap option_map] in Hp. injection Hp as <-.
      unfold freed. rewrite decide_True; [done|]. by apply list_elem_of_fmap_2.
    + intros id. cbn. split; [by intros ?%not_elem_of_nil|lia].
    + intros id. cbn [nof_harqs]. rewrite decide_False by lia. apply Hno.
  - intros ue'. rewrite ue_entity_insert. case_decide; [done|]. apply (sc_nof _ _ Hs1).
  - intros [u id]. cbn [set_ues set_harqs harqs fst]. case_decide as Hd; [subst u; apply Hno|]. rewrite Hne by done. rewrite Hh1. destruct (harqs r !! (u, id)); [cbn|done].
    unfold freed. rewrite decide_False; [done|]. intros (i & E & _)%list_elem_of_fmap. congruence.
Qed.
End slots.
