(* ===== verification/HarqRun.v ===== *)
(** * HARQ processes: both directions

    The operations on downlink and uplink processes as moves of one process: which states follow which, when the indicator of new data changes, how reports are weighed. *)
From Stdlib Require Import SpecFloat.
From S2P Require Import Prelude MacDl SlotPoint HarqManager HarqInv HarqOps.

(** ** Moves *)
Section moves.
Context {X : Type} (mu : Z).
Implicit Types (r : cell_harq_repository X) (h : harq_process X) (p q : harq_ptr).

(** A new transmission, and a retransmission, as they are seen from outside. *)
Definition started h h' : bool := bool_decide (h_status h = harq_empty) && bool_decide (h_status h' = harq_waiting_ack).
Definition resent h h' : bool := bool_decide (h_status h = harq_pending_retx) && bool_decide (h_status h' = harq_waiting_ack).

Record moves h h' : Prop := {
  mv_ids : h_ue_idx h' = h_ue_idx h /\ h_rnti h' = h_rnti h /\ h_id h' = h_id h;
  mv_ndi : h_ndi h' = xorb (h_ndi h) (started h h');
  mv_retxs : h_nof_retxs h' = if started h h' then 0 else if resent h h' then h_nof_retxs h + 1 else h_nof_retxs h;
  mv_pending : h_status h = harq_empty -> h_status h' <> harq_pending_retx
}.

Lemma moves_refl h : moves h h.
Proof. split; [done| | |congruence]; unfold started, resent; by destruct (h_status h), (h_ndi h). Qed.

Lemma moves_same h h' h2 :
  moves h h' -> (h_ue_idx h2, h_rnti h2, h_id h2, h_status h2, h_ndi h2, h_nof_retxs h2) = (h_ue_idx h', h_rnti h', h_id h', h_status h', h_ndi h', h_nof_retxs h') -> moves h h2.
Proof. intros [] E. injection E as E1 E2 E3 E4 E5 E6. split; unfold started, resent in *; rewrite ?E1, ?E2, ?E3, ?E4, ?E5, ?E6; assumption. Qed.

Lemma moves_freed h : moves h (with_status h harq_empty).
Proof. split; [done| | |done]; unfold started, resent; cbn; by destruct (h_status h), (h_ndi h). Qed.

Lemma moves_pending h : h_status h = harq_waiting_ack -> moves h (with_status h harq_pending_retx).
Proof. intros E. split; [done| | |congruence]; unfold started, resent; rewrite E; cbn; by destruct (h_ndi h). Qed.

Lemma moves_sent r h sl_tx sl_ack max_retxs : h_status h = harq_empty -> moves h (sent_harq r h sl_tx sl_ack (negb (h_ndi h)) 0 max_retxs false).
Proof. intros E. split; [done| | |done]; unfold started, resent; rewrite E; cbn; by destruct (h_ndi h). Qed.

Lemma moves_resent r h sl_tx sl_ack m c : h_status h = harq_pending_retx -> moves h (sent_harq r h sl_tx sl_ack (h_ndi h) (h_nof_retxs h + 1) m c).
Proof. intros E. split; [done| | |done]; unfold started, resent; rewrite E; cbn; by destruct (h_ndi h). Qed.

(** A step of a repository that changes the processes of [T] only, each by a move. *)
Record repo_step (T : list harq_ptr) r r' : Prop := {
  rs_inv : repo_inv mu None r';
  rs_cell : same_cell r r';
  rs_timeouts : timeouts r' = timeouts r;
  rs_other : forall p, p ∉ T -> harqs r' !! p = harqs r !! p;
  rs_moves : forall p h h', harqs r !! p = Some h -> harqs r' !! p = Some h' -> moves h h'
}.

Lemma repo_step_refl T r : repo_inv mu None r -> repo_step T r r.
Proof. intros Hi. split; [done|apply same_refl|done|done|]. intros p h h' -> [= <-]. apply moves_refl. Qed.

Lemma one_step r p h h' r' : harqs r !! p = Some h -> moves h h' -> one_done mu r p h' r' -> repo_step [p] r r'.
Proof.
  intros Hp Hm (Hi & Ho & Hp'). split; [done|by eapply only_same|by apply Ho| |].
  - intros q Hq. rewrite list_elem_of_singleton in Hq. by apply Ho.
  - intros q h1 h2 Hq Hq'. destruct (decide (q = p)) as [->|Hne]; [|rewrite (op_harqs _ _ _ Ho), Hq in Hq' by done; injection Hq' as <-; apply moves_refl].
    rewrite Hp in Hq. rewrite Hp' in Hq'. by injection Hq as <-; injection Hq' as <-.
Qed.

Lemma repo_step_trans T1 T2 r1 r2 r3 : (forall p, p ∈ T1 -> p ∉ T2) -> repo_step T1 r1 r2 -> repo_step T2 r2 r3 -> repo_step (T1 ++ T2) r1 r3.
Proof.
  intros Hd [] []. split; [done|by eapply same_trans|congruence| |].
  - intros p Hp. rewrite elem_of_app in Hp. rewrite rs_other1, rs_other0 by tauto. done.
  - intros p h h' Hp Hp'. destruct (decide (p ∈ T1)) as [H|H].
    + rewrite rs_other1 in Hp' by (by apply Hd). by eapply rs_moves0.
    + rewrite <- rs_other0 in Hp by done. by eapply rs_moves1.
Qed.

Lemma one_done_trans r1 r2 r3 p h1 h2 : one_done mu r1 p h1 r2 -> one_done mu r2 p h2 r3 -> one_done mu r1 p h2 r3.
Proof. intros (_ & Ho1 & _) (? & Ho2 & ?). split; [done|]. split; [by eapply only_trans|done]. Qed.
End moves.

(** ** Transmissions *)
Lemma new_dl_tx_ok mu (r : dl_harq_repository) ue sl k1 max_retxs bit :
  repo_inv mu None r -> 0 <= ue < repo_max_ues r -> ack_slot_ok mu r (slot_add sl k1) -> 0 <= max_retxs < 2 ^ 31 ->
  new_dl_tx r ue sl k1 max_retxs bit = ok (r, None) \/
  exists id h r', harqs r !! (ue, id) = Some h /\ h_status h = harq_empty /\ new_dl_tx r ue sl k1 max_retxs bit = ok (r', Some (ue, id)) /\ repo_step mu [(ue, id)] r r' /\
    harqs r' !! (ue, id) = Some (with_params (sent_harq r h sl (slot_add sl k1) (negb (h_ndi h)) 0 max_retxs false) (mk_dl_params no_dl_alloc bit 0 report_dtx None)).
Proof.
  intros Hi Hu Ha Hm. unfold new_dl_tx. destruct (alloc_ok mu r ue sl (slot_add sl k1) max_retxs Hi Hu Ha Hm) as [[E _]|(id & h & r1 & Hp & Hs & E & H1)]; rewrite E; cbn [mbind outcome_bind]; [by left|right].
  pose proof H1 as (Hi1 & _ & Hp1). exists id, h. destruct (update_ok mu r1 _ _ (fun _ => mk_dl_params no_dl_alloc bit 0 report_dtx None) Hi1 Hp1) as (r' & E' & H').
  exists r'. rewrite E'. split; [done|]. split; [done|]. split; [done|]. pose proof (one_done_trans _ _ _ _ _ _ _ H1 H') as H2. split; [|apply H2].
  eapply one_step; [exact Hp| |exact H2]. by apply (moves_same h _ _ (moves_sent r h sl (slot_add sl k1) max_retxs Hs)).
Qed.

Lemma new_ul_tx_ok mu (r : ul_harq_repository) ue sl max_retxs :
  repo_inv mu None r -> 0 <= ue < repo_max_ues r -> ack_slot_ok mu r sl -> 0 <= max_retxs < 2 ^ 31 ->
  new_ul_tx r ue sl max_retxs = ok (r, None) \/
  exists id h r', harqs r !! (ue, id) = Some h /\ h_status h = harq_empty /\ new_ul_tx r ue sl max_retxs = ok (r', Some (ue, id)) /\ repo_step mu [(ue, id)] r r'.
Proof.
  intros Hi Hu Ha Hm. unfold new_ul_tx. destruct (alloc_ok mu r ue sl sl max_retxs Hi Hu Ha Hm) as [[E _]|(id & h & r1 & Hp & Hs & E & H1)]; rewrite E; cbn [mbind outcome_bind]; [by left|right].
  pose proof H1 as (Hi1 & _ & Hp1). exists id, h. destruct (update_ok mu r1 _ _ (fun _ => no_ul_alloc) Hi1 Hp1) as (r' & E' & H').
  exists r'. rewrite E'. split; [done|]. split; [done|]. split; [done|]. eapply one_step; [exact Hp| |exact (one_done_trans _ _ _ _ _ _ _ H1 H')].
  by apply (moves_same h _ _ (moves_sent r h sl sl max_retxs Hs)).
Qed.

Lemma dl_new_retx_ok mu (r : dl_harq_repository) p h sl k1 bit :
  repo_inv mu None r -> harqs r !! p = Some h -> ack_slot_ok mu r (slot_add sl k1) ->
  exists r', dl_new_retx r p sl k1 bit = ok (r', bool_decide (h_status h = harq_pending_retx)) /\ repo_step mu [p] r r'.
Proof.
  intros Hi Hp Ha. pose proof (new_retx_ok mu r p h sl _ Hi Hp Ha) as H. unfold dl_new_retx. case_decide as Hs.
  - destruct H as (r1 & E & H1). rewrite E. cbn [mbind outcome_bind negb]. pose proof H1 as (Hi1 & _ & Hp1).
    destruct (update_ok mu r1 p _ (fun x => mk_dl_params (dl_prev_tx_params x) bit 0 report_dtx None) Hi1 Hp1) as (r' & E' & H'). exists r'. rewrite E', bool_decide_eq_true_2 by done.
    split; [done|]. eapply one_step; [exact Hp| |exact (one_done_trans _ _ _ _ _ _ _ H1 H')]. by apply (moves_same h _ _ (moves_resent r h sl (slot_add sl k1) (h_max_nof_retxs h) (h_retxs_cancelled h) Hs)).
  - rewrite H. cbn. exists r. rewrite bool_decide_eq_false_2 by done. split; [done|by apply repo_step_refl].
Qed.

Lemma ul_new_retx_ok mu (r : ul_harq_repository) p h sl :
  repo_inv mu None r -> harqs r !! p = Some h -> ack_slot_ok mu r sl ->
  exists r', ul_new_retx r p sl = ok (r', bool_decide (h_status h = harq_pending_retx)) /\ repo_step mu [p] r r'.
Proof.
  intros Hi Hp Ha. pose proof (new_retx_ok mu r p h sl _ Hi Hp Ha) as H. unfold ul_new_retx. case_decide as Hs.
  - destruct H as (r1 & E & H1). exists r1. rewrite E, bool_decide_eq_true_2 by done. split; [done|]. eapply one_step; [exact Hp| |exact H1]. by apply moves_resent.
  - exists r. rewrite H, bool_decide_eq_false_2 by done. split; [done|by apply repo_step_refl].
Qed.

(** ** Reports *)

(** A process after a report, and what the caller is told. *)
Definition reported (last : slot_point) (h : harq_process dl_harq_params) (ack : mac_harq_ack_report_status) (snr : option spec_float) : harq_process dl_harq_params * status_update :=
  let x := choose_report (h_params h) ack snr in
  let final := bool_decide (chosen_ack x = report_ack) in
  if negb (bool_decide (h_status h = harq_waiting_ack)) then (h, su_error)
  else if pucch_ack_to_receive x <=? 1 then
    (with_status (with_params h x) (if final || (h_max_nof_retxs h <=? h_nof_retxs h) then harq_empty else harq_pending_retx), if final then su_acked else su_nacked)
  else (with_ack_timeout (with_ack_on_timeout (with_params h (set_pucch_ack_to_receive x (pucch_ack_to_receive x - 1))) final) (slot_add last SHORT_ACK_TIMEOUT_DTX), su_no_update).

Lemma moves_reported last h ack snr : moves h (reported last h ack snr).1.
Proof.
  unfold reported. case_bool_decide as Hs; cbn [negb]; [|apply moves_refl]. destruct (_ <=? 1); cbn [fst].
  - destruct (_ || _); [apply (moves_same h _ _ (moves_freed h))|apply (moves_same h _ _ (moves_pending h Hs))]; done.
  - by apply (moves_same h _ _ (moves_refl h)).
Qed.

Lemma dl_ack_info_ok mu (r : dl_harq_repository) p h ack snr :
  repo_inv mu None r -> harqs r !! p = Some h ->
  let '(h', u) := reported (last_sl_ind r) h ack snr in exists r', dl_ack_info r p ack snr = ok (r', u) /\ one_done mu r p h' r'.
Proof.
  intros Hi Hp. unfold dl_ack_info, reported. rewrite (get_harq_ok _ _ _ Hp). cbn [mbind outcome_bind]. case_bool_decide as Hs; cbn [negb].
  2:{ exists r. split; [done|]. split; [done|]. by split; [apply only_refl|]. }
  set (x := choose_report (h_params h) ack snr). set (final := bool_decide _).
  destruct (_ <=? 1).
  - destruct (same_place_ok mu r p h (with_params h x) Hi Hp) as (Hi1 & Ho1 & Hp1); [by exists x, (h_ack_on_timeout h)|].
    destruct (handle_ack_ok mu _ p _ final Hi1 Hp1 Hs) as (r' & E & H'). exists r'. rewrite E. cbn [mbind outcome_bind]. split; [done|].
    exact (one_done_trans mu _ _ _ _ _ _ (conj Hi1 (conj Ho1 Hp1)) H').
  - set (h1 := with_ack_on_timeout _ _). set (r0 := set_harq r p (with_params h x)).
    assert (E0 : set_harq r0 p h1 = set_harq r p h1) by (unfold r0, set_harq, set_harqs; cbn [harqs last_sl_ind max_ack_wait_in_slots]; by rewrite insert_insert_eq).
    rewrite E0. destruct (same_place_ok mu r p h h1 Hi Hp) as (Hi1 & Ho1 & Hp1); [by eexists _, _|].
    destruct (shorten_ok mu _ p h1 Hi1 Hp1 Hs) as (r' & E & H'). rewrite E. cbn [mbind outcome_bind]. exists r'. split; [done|].
    exact (one_done_trans mu _ _ _ _ _ _ (conj Hi1 (conj Ho1 Hp1)) H').
Qed.

Lemma dl_ack_info_step mu (r : dl_harq_repository) p h ack snr :
  repo_inv mu None r -> harqs r !! p = Some h -> exists r' u, dl_ack_info r p ack snr = ok (r', u) /\ repo_step mu [p] r r'.
Proof.
  intros Hi Hp. pose proof (dl_ack_info_ok mu r p h ack snr Hi Hp) as H. pose proof (moves_reported (last_sl_ind r) h ack snr) as Hm.
  destruct (reported _ h ack snr) as [h' u]. destruct H as (r' & E & H). exists r', u. split; [done|]. by eapply one_step.
Qed.

Lemma ul_crc_info_ok mu (r : ul_harq_repository) p h ack :
  repo_inv mu None r -> harqs r !! p = Some h ->
  exists r', ul_crc_info r p ack = ok (r', if bool_decide (h_status h = harq_waiting_ack) then if ack then ula_tbs_bytes (h_params h) else 0 else -1) /\ repo_step mu [p] r r'.
Proof.
  intros Hi Hp. unfold ul_crc_info. rewrite (get_harq_ok _ _ _ Hp). cbn [mbind outcome_bind]. case_bool_decide as Hs; cbn [negb]; [|exists r; split; [done|by apply repo_step_refl]].
  destruct (handle_ack_ok mu r p h ack Hi Hp Hs) as (r' & E & H'). rewrite E. cbn [mbind outcome_bind]. exists r'. split; [done|]. eapply one_step; [exact Hp| |exact H'].
  destruct (_ || _); [apply moves_freed|by apply moves_pending].
Qed.

(** As many empty reports as are expected. *)
Lemma dtx_reports_ok mu p n : forall (r : dl_harq_repository) h,
  repo_inv mu None r -> harqs r !! p = Some h ->
  exists r' h', dtx_reports n r p = ok r' /\ one_done mu r p h' r' /\
    (h_status h <> harq_empty -> h_nof_retxs h' = h_nof_retxs h /\ h_ndi h' = h_ndi h /\ (h_ue_idx h', h_rnti h', h_id h') = (h_ue_idx h, h_rnti h, h_id h) /\
      (h_status h <> harq_waiting_ack -> h_status h' = h_status h)) /\ (h_status h = harq_empty -> h' = h).
Proof.
  induction n as [|n IH]; intros r h Hi Hp; cbn [dtx_reports].
  { exists r, h. split; [done|]. split; [split; [done|split; [apply only_refl|done]]|]. by split. }
  pose proof (dl_ack_info_ok mu r p h report_dtx None Hi Hp) as H. destruct (reported _ h report_dtx None) as [h1 u] eqn:Er. destruct H as (r1 & E1 & H1). rewrite E1.
  cbn [mbind outcome_bind]. pose proof H1 as (Hi1 & _ & Hp1). destruct (IH r1 h1 Hi1 Hp1) as (r' & h' & E' & H' & Hf & He). exists r', h'. split; [done|].
  split; [exact (one_done_trans mu _ _ _ _ _ _ H1 H')|]. unfold reported in Er. case_bool_decide as Hs; cbn [negb] in Er; [|injection Er as <- <-; by split].
  split; [|congruence]. intros _. destruct (_ <=? 1); injection Er as <- _; cbn in Hf, He.
  - destruct (_ || _); cbn in Hf, He; [rewrite He by done; by split_and!|]. destruct Hf as (-> & -> & -> & _); [done|]. by split_and!.
  - rewrite Hs in Hf. destruct Hf as (-> & -> & -> & _); [done|]. by split_and!.
Qed.

Lemma fail_uci_ok mu ue sl (ids : list Z) : forall (r : dl_harq_repository),
  repo_inv mu None r -> NoDup ids -> (forall id, id ∈ ids -> is_Some (harqs r !! (ue, id))) -> exists r', fail_uci r ue sl ids = ok r' /\ repo_step mu (pair ue <$> ids) r r'.
Proof.
  induction ids as [|id ids IH]; intros r Hi Hn Hd; cbn [fail_uci]; [exists r; split; [done|by apply repo_step_refl]|].
  apply NoDup_cons in Hn as [Hni Hn]. destruct (Hd id ltac:(left)) as [h Hp]. rewrite (get_harq_ok _ _ _ Hp). cbn [mbind outcome_bind].
  assert (H1 : exists r1, (if bool_decide (h_status h = harq_waiting_ack) && slot_eq (h_slot_ack h) sl
             then dtx_reports (Z.to_nat (Z.max (pucch_ack_to_receive (h_params h)) 1)) r (ue, id) else ok r) = ok r1 /\ repo_step mu [(ue, id)] r r1).
  { case_bool_decide as Hs; [|exists r; split; [done|by apply repo_step_refl]]. destruct (slot_eq _ _); cbn [andb]; [|exists r; split; [done|by apply repo_step_refl]].
    destruct (dtx_reports_ok mu (ue, id) (Z.to_nat (Z.max (pucch_ack_to_receive (h_params h)) 1)) r h Hi Hp) as (r1 & h' & E & H' & Hf & _). exists r1. split; [done|].
    eapply one_step; [exact Hp| |exact H']. destruct Hf as (E1 & E2 & E3 & _); [congruence|]. injection E3 as E3 E4 E5. split; [done| | |congruence]; unfold started, resent; rewrite Hs; cbn.
    - rewrite E2. by destruct (h_ndi h).
    - done. }
  destruct H1 as (r1 & E1 & Hs1). rewrite E1. cbn [mbind outcome_bind]. destruct (IH r1 (rs_inv _ _ _ _ Hs1) Hn) as (r' & E' & Hs').
  { intros id' Hin. apply (ri_dom _ _ _ (rs_inv _ _ _ _ Hs1) (ue, id')). cbn [fst snd]. rewrite (sc_nof _ _ (rs_cell _ _ _ _ Hs1)). apply (ri_dom _ _ _ Hi (ue, id')). apply Hd. by right. }
  exists r'. split; [done|]. change (pair ue <$> id :: ids) with ([(ue, id)] ++ (pair ue <$> ids)). eapply repo_step_trans; [|exact Hs1|exact Hs'].
  intros q ->%list_elem_of_singleton (i & E & Hi')%list_elem_of_fmap. injection E as <-. done.
Qed.

(** ** Cancellation *)
Lemma cancel_step {X} mu (r : cell_harq_repository X) p h : repo_inv mu None r -> harqs r !! p = Some h -> exists r', cancel_retxs r p = ok r' /\ repo_step mu [p] r r'.
Proof.
  intros Hi Hp. destruct (cancel_ok mu r p h Hi Hp) as (r' & E & H'). exists r'. split; [done|]. eapply one_step; [exact Hp| |exact H'].
  unfold cancelled_harq. destruct (h_status h) eqn:Es; [apply moves_refl|apply moves_freed|]. apply (moves_same h _ _ (moves_refl h)). by rewrite Es.
Qed.

Lemma reset_step {X} mu (r : cell_harq_repository X) p h : repo_inv mu None r -> harqs r !! p = Some h -> exists r', dealloc_harq r p = ok r' /\ repo_step mu [p] r r'.
Proof. intros Hi Hp. destruct (dealloc_ok mu r p h Hi Hp) as (r' & E & H' & _). exists r'. split; [done|]. eapply one_step; [exact Hp|apply moves_freed|exact H']. Qed.

Lemma update_step {X} mu (r : cell_harq_repository X) p h f : repo_inv mu None r -> harqs r !! p = Some h -> exists r', update_params r p f = ok r' /\ repo_step mu [p] r r'.
Proof.
  intros Hi Hp. destruct (update_ok mu r p h f Hi Hp) as (r' & E & H'). exists r'. split; [done|]. eapply one_step; [exact Hp| |exact H']. by apply (moves_same h _ _ (moves_refl h)).
Qed.

(** ** Parameters of grants *)

(** What is saved for a retransmission agrees with the first transmission. *)
Definition dl_grant_agrees (h : harq_process dl_harq_params) (ctx : dl_harq_alloc_context) (pdsch : pdsch_information) : Prop :=
  h_status h = harq_waiting_ack /\
  exists cw, pdsch_codewords pdsch = [cw] /\
    (h_nof_retxs h <> 0 -> let prev := dl_prev_tx_params (h_params h) in
       dlc_dci_cfg_type ctx = dla_dci_cfg_type prev /\ cw_tb_size_bytes cw = dla_tbs_bytes prev /\ pdsch_nof_layers pdsch = dla_nof_layers prev /\ dlc_is_fallback ctx = dla_is_fallback prev).

Definition ul_grant_agrees (h : harq_process ul_alloc_params) (ctx : ul_harq_alloc_context) (pusch : pusch_information) : Prop :=
  h_status h = harq_waiting_ack /\
  (h_nof_retxs h <> 0 -> ulc_dci_cfg_type ctx = ula_dci_cfg_type (h_params h) /\ pusch_tb_size_bytes pusch = ula_tbs_bytes (h_params h)).

Lemma dl_save_ok mu (r : dl_harq_repository) p h ctx pdsch :
  repo_inv mu None r -> harqs r !! p = Some h -> dl_grant_agrees h ctx pdsch -> exists r', dl_save_grant_params r p ctx pdsch = ok r' /\ repo_step mu [p] r r'.
Proof.
  intros Hi Hp (Hs & cw & Ec & Ha). unfold dl_save_grant_params. rewrite (get_harq_ok _ _ _ Hp). cbn [mbind outcome_bind]. rewrite Ec, bool_decide_eq_true_2 by done.
  cbn [srsran_assert mbind outcome_bind]. destruct (Z.eqb_spec (h_nof_retxs h) 0) as [_|Hn]; cbn [mbind outcome_bind]; [by eapply update_step|].
  destruct (Ha Hn) as (-> & -> & -> & ->). rewrite !Z.eqb_refl, Bool.eqb_reflx. cbn [srsran_assert mbind outcome_bind]. by eapply update_step.
Qed.

Lemma ul_save_ok mu (r : ul_harq_repository) p h ctx pusch :
  repo_inv mu None r -> harqs r !! p = Some h -> ul_grant_agrees h ctx pusch -> exists r', ul_save_grant_params r p ctx pusch = ok r' /\ repo_step mu [p] r r'.
Proof.
  intros Hi Hp (Hs & Ha). unfold ul_save_grant_params. rewrite (get_harq_ok _ _ _ Hp). cbn [mbind outcome_bind]. rewrite bool_decide_eq_true_2 by done.
  cbn [srsran_assert mbind outcome_bind]. destruct (Z.eqb_spec (h_nof_retxs h) 0) as [_|Hn]; cbn [mbind outcome_bind]; [by eapply update_step|].
  destruct (Ha Hn) as (-> & ->). rewrite !Z.eqb_refl. cbn [srsran_assert mbind outcome_bind]. by eapply update_step.
Qed.

(** * HARQ processes: the manager in use

    Sequences of slots and of calls of the scheduler. Calls are those the scheduler makes: on processes it has, with acknowledgements that are scheduled no later than a grant can be,
    and with the parameters of the first transmission saved again for a retransmission. *)

(** ** Calls *)
Inductive harq_call :=
  | call_slot
  | call_add_ue (ue_idx crnti nof_dl nof_ul : Z)
  | call_destroy_ue (ue_idx : Z)
  | call_new_dl_tx (ue_idx : Z) (pdsch_slot : slot_point) (k1 max_nof_retxs bit_idx : Z)
  | call_dl_retx (p : harq_ptr) (pdsch_slot : slot_point) (k1 bit_idx : Z)
  | call_dl_ack (p : harq_ptr) (ack : mac_harq_ack_report_status) (snr : option spec_float)
  | call_dl_pucch (p : harq_ptr)
  | call_dl_save (p : harq_ptr) (ctx : dl_harq_alloc_context) (pdsch : pdsch_information)
  | call_dl_cancel (p : harq_ptr)
  | call_dl_reset (p : harq_ptr)
  | call_uci_failed (ue_idx : Z) (uci_slot : slot_point)
  | call_new_ul_tx (ue_idx : Z) (pusch_slot : slot_point) (max_nof_retxs : Z)
  | call_ul_retx (p : harq_ptr) (pusch_slot : slot_point)
  | call_ul_crc (p : harq_ptr) (ack : bool)
  | call_ul_save (p : harq_ptr) (ctx : ul_harq_alloc_context) (pusch : pusch_information)
  | call_ul_cancel (p : harq_ptr)
  | call_ul_reset (p : harq_ptr).

Definition on_dl (m : cell_harq_manager) (o : outcome dl_harq_repository) : outcome cell_harq_manager := r ← o; ok (mk_harq_manager (max_harqs_per_ue m) r (mgr_ul m)).
Definition on_ul (m : cell_harq_manager) (o : outcome ul_harq_repository) : outcome cell_harq_manager := r ← o; ok (mk_harq_manager (max_harqs_per_ue m) (mgr_dl m) r).
Definition first {A B} (o : outcome (A * B)) : outcome A := '(a, _) ← o; ok a.

Definition harq_step (m : cell_harq_manager) (c : harq_call) : outcome cell_harq_manager :=
  let dl := mgr_dl m in
  let ul := mgr_ul m in
  match c with
  | call_slot => harq_slot_indication m (slot_next (last_sl_ind dl))
  | call_add_ue ue crnti nof_dl nof_ul => harq_add_ue m ue crnti nof_dl nof_ul
  | call_destroy_ue ue => harq_destroy_ue m ue
  | call_new_dl_tx ue sl k1 max_nof_retxs bit => on_dl m (first (new_dl_tx dl ue sl k1 max_nof_retxs bit))
  | call_dl_retx p sl k1 bit => on_dl m (first (dl_new_retx dl p sl k1 bit))
  | call_dl_ack p ack snr => on_dl m (first (dl_ack_info dl p ack snr))
  | call_dl_pucch p => on_dl m (increment_pucch_counter dl p)
  | call_dl_save p ctx pdsch => on_dl m (dl_save_grant_params dl p ctx pdsch)
  | call_dl_cancel p => on_dl m (cancel_retxs dl p)
  | call_dl_reset p => on_dl m (dealloc_harq dl p)
  | call_uci_failed ue sl => on_dl m (uci_sched_failed dl ue sl)
  | call_new_ul_tx ue sl max_nof_retxs => on_ul m (first (new_ul_tx ul ue sl max_nof_retxs))
  | call_ul_retx p sl => on_ul m (first (ul_new_retx ul p sl))
  | call_ul_crc p ack => on_ul m (first (ul_crc_info ul p ack))
  | call_ul_save p ctx pusch => on_ul m (ul_save_grant_params ul p ctx pusch)
  | call_ul_cancel p => on_ul m (cancel_retxs ul p)
  | call_ul_reset p => on_ul m (dealloc_harq ul p)
  end.

Fixpoint harq_calls (m : cell_harq_manager) (cs : list harq_call) : outcome cell_harq_manager :=
  match cs with [] => ok m | c :: cs => m ← harq_step m c; harq_calls m cs end.

(** ** What the scheduler keeps to *)
Definition max_retxs_ok (n : Z) : Prop := 0 <= n < 2 ^ 31.

Definition admissible (mu : Z) (m : cell_harq_manager) (c : harq_call) : Prop :=
  let dl := mgr_dl m in
  let ul := mgr_ul m in
  let has_ue ue := 0 <= ue < repo_max_ues dl in
  match c with
  | call_slot => True
  | call_add_ue ue _ nof_dl nof_ul => has_ue ue /\ harq_contains m ue = false /\ 0 < nof_dl <= max_harqs_per_ue m /\ 0 < nof_ul <= max_harqs_per_ue m
  | call_destroy_ue ue | call_uci_failed ue _ => has_ue ue
  | call_new_dl_tx ue sl k1 n _ => has_ue ue /\ ack_slot_ok mu dl (slot_add sl k1) /\ max_retxs_ok n
  | call_dl_retx p sl k1 _ => is_Some (harqs dl !! p) /\ ack_slot_ok mu dl (slot_add sl k1)
  | call_dl_ack p _ _ | call_dl_pucch p | call_dl_cancel p | call_dl_reset p => is_Some (harqs dl !! p)
  | call_dl_save p ctx pdsch => exists h, harqs dl !! p = Some h /\ dl_grant_agrees h ctx pdsch
  | call_new_ul_tx ue sl n => has_ue ue /\ ack_slot_ok mu ul sl /\ max_retxs_ok n
  | call_ul_retx p sl => is_Some (harqs ul !! p) /\ ack_slot_ok mu ul sl
  | call_ul_crc p _ | call_ul_cancel p | call_ul_reset p => is_Some (harqs ul !! p)
  | call_ul_save p ctx pusch => exists h, harqs ul !! p = Some h /\ ul_grant_agrees h ctx pusch
  end.

Fixpoint scheduled (mu : Z) (m : cell_harq_manager) (cs : list harq_call) : Prop :=
  match cs with [] => True | c :: cs => admissible mu m c /\ forall m', harq_step m c = ok m' -> scheduled mu m' cs end.

(** ** The invariant of the manager *)
Record mgr_inv (mu : Z) (m : cell_harq_manager) : Prop := {
  mi_dl : repo_inv mu None (mgr_dl m);
  mi_ul : repo_inv mu None (mgr_ul m);
  mi_last : last_sl_ind (mgr_ul m) = last_sl_ind (mgr_dl m);
  mi_ues : repo_max_ues (mgr_ul m) = repo_max_ues (mgr_dl m);
  mi_nof : forall ue, 0 <= nof_harqs (ue_entity (mgr_dl m) ue) /\ (nof_harqs (ue_entity (mgr_dl m) ue) = 0 -> nof_harqs (ue_entity (mgr_ul m) ue) <= 0)
}.

Section steps.
Context (mu : Z).
Implicit Types (m : cell_harq_manager) (c : harq_call) (p : harq_ptr).

Lemma on_dl_inv m T (o : outcome dl_harq_repository) :
  mgr_inv mu m -> (exists r', o = ok r' /\ repo_step mu T (mgr_dl m) r') ->
  exists m', on_dl m o = ok m' /\ mgr_inv mu m' /\ mgr_ul m' = mgr_ul m /\ repo_step mu T (mgr_dl m) (mgr_dl m').
Proof.
  intros [] (r' & -> & Hs). eexists. split; [reflexivity|]. split; [|done]. pose proof (rs_cell _ _ _ _ Hs) as []. split; cbn [mgr_dl mgr_ul]; [apply Hs|done|congruence|congruence|].
  intros ue. rewrite sc_nof. apply mi_nof0.
Qed.

Lemma on_ul_inv m T (o : outcome ul_harq_repository) :
  mgr_inv mu m -> (exists r', o = ok r' /\ repo_step mu T (mgr_ul m) r') ->
  exists m', on_ul m o = ok m' /\ mgr_inv mu m' /\ mgr_dl m' = mgr_dl m /\ repo_step mu T (mgr_ul m) (mgr_ul m').
Proof.
  intros [] (r' & -> & Hs). eexists. split; [reflexivity|]. split; [|done]. pose proof (rs_cell _ _ _ _ Hs) as []. split; cbn [mgr_dl mgr_ul]; [done|apply Hs|congruence|congruence|].
  intros ue. rewrite sc_nof. apply mi_nof0.
Qed.

Lemma first_ok {A B} (o : outcome (A * B)) (a : A) (b : B) : o = ok (a, b) -> first o = ok a.
Proof. by intros ->. Qed.

(** A call that is not about a downlink process, or an uplink process. *)
Definition dl_alone c p : Prop :=
  match c with
  | call_dl_retx q _ _ _ | call_dl_ack q _ _ | call_dl_pucch q | call_dl_save q _ _ | call_dl_cancel q | call_dl_reset q => q <> p
  | call_uci_failed ue _ | call_destroy_ue ue => ue <> p.1
  | _ => True
  end.

Definition ul_alone c p : Prop :=
  match c with
  | call_ul_retx q _ | call_ul_crc q _ | call_ul_save q _ _ | call_ul_cancel q | call_ul_reset q => q <> p
  | call_destroy_ue ue => ue <> p.1
  | _ => True
  end.

Definition is_dl_call c : bool :=
  match c with
  | call_new_dl_tx _ _ _ _ _ | call_dl_retx _ _ _ _ | call_dl_ack _ _ _ | call_dl_pucch _ | call_dl_save _ _ _ | call_dl_cancel _ | call_dl_reset _ | call_uci_failed _ _ => true
  | _ => false
  end.

Definition is_ul_call c : bool :=
  match c with call_new_ul_tx _ _ _ | call_ul_retx _ _ | call_ul_crc _ _ | call_ul_save _ _ _ | call_ul_cancel _ | call_ul_reset _ => true | _ => false end.

(** The processes of [T] are free or named by the call. *)
Definition touches {X} (alone : harq_ptr -> Prop) (r : cell_harq_repository X) (T : list harq_ptr) : Prop :=
  forall p h, alone p -> harqs r !! p = Some h -> h_status h <> harq_empty -> p ∉ T.

Lemma touches_one {X} (alone : harq_ptr -> Prop) (r : cell_harq_repository X) q : (forall p, alone p -> q <> p) -> touches alone r [q].
Proof. intros H p h Ha _ _ ->%list_elem_of_singleton. by apply (H q Ha). Qed.

Lemma touches_free {X} (alone : harq_ptr -> Prop) (r : cell_harq_repository X) q h : harqs r !! q = Some h -> h_status h = harq_empty -> touches alone r [q].
Proof. intros Hq Hs p h' _ Hp Hs' ->%list_elem_of_singleton. congruence. Qed.

Lemma touches_none {X} (alone : harq_ptr -> Prop) (r : cell_harq_repository X) : touches alone r [].
Proof. intros p h _ _ _ []%not_elem_of_nil. Qed.

(** Closes the calls that are about one process. *)
Ltac one_call H := destruct H as (r' & E & Hs); eexists; split; [|by apply touches_one]; eexists; split; [by rewrite ?E|exact Hs].

Lemma dl_call_ok m c :
  is_dl_call c = true -> mgr_inv mu m -> admissible mu m c ->
  exists T m', touches (dl_alone c) (mgr_dl m) T /\ harq_step m c = ok m' /\ mgr_inv mu m' /\ mgr_ul m' = mgr_ul m /\ repo_step mu T (mgr_dl m) (mgr_dl m').
Proof.
  intros Hc Hm Ha. pose proof (mi_dl _ _ Hm) as Hi.
  enough (exists T, (exists r', (match c with
      | call_new_dl_tx ue sl k1 n bit => first (new_dl_tx (mgr_dl m) ue sl k1 n bit)
      | call_dl_retx p sl k1 bit => first (dl_new_retx (mgr_dl m) p sl k1 bit)
      | call_dl_ack p ack snr => first (dl_ack_info (mgr_dl m) p ack snr)
      | call_dl_pucch p => increment_pucch_counter (mgr_dl m) p
      | call_dl_save p ctx pdsch => dl_save_grant_params (mgr_dl m) p ctx pdsch
      | call_dl_cancel p => cancel_retxs (mgr_dl m) p
      | call_dl_reset p => dealloc_harq (mgr_dl m) p
      | call_uci_failed ue sl => uci_sched_failed (mgr_dl m) ue sl
      | _ => fail assertion end) = ok r' /\ repo_step mu T (mgr_dl m) r') /\ touches (dl_alone c) (mgr_dl m) T) as (T & H & HT).
  { exists T. destruct (on_dl_inv m T _ Hm H) as (m' & E & Hm' & Hu & Hs). exists m'. split; [done|]. split; [|done]. by destruct c. }
  destruct c; try done; cbn [admissible dl_alone] in *.
  - destruct Ha as (Hu & Hk & Hn). destruct (new_dl_tx_ok mu (mgr_dl m) ue_idx pdsch_slot k1 max_nof_retxs bit_idx Hi Hu Hk Hn) as [E|(id & h & r' & Hp & Hs & E & Hst & _)].
    + exists []. split; [|apply touches_none]. exists (mgr_dl m). split; [by rewrite E|by apply repo_step_refl].
    + exists [(ue_idx, id)]. split; [|by eapply touches_free]. exists r'. by rewrite E.
  - destruct Ha as ([h Hp] & Hk). one_call (dl_new_retx_ok mu (mgr_dl m) p h pdsch_slot k1 bit_idx Hi Hp Hk).
  - destruct Ha as [h Hp]. destruct (dl_ack_info_step mu (mgr_dl m) p h ack snr Hi Hp) as (r' & u & E & Hs). exists [p]. split; [|by apply touches_one]. exists r'. by rewrite E.
  - destruct Ha as [h Hp]. one_call (update_step mu (mgr_dl m) p h (fun x => set_pucch_ack_to_receive x (u32 (pucch_ack_to_receive x + 1))) Hi Hp).
  - destruct Ha as (h & Hp & Hg). one_call (dl_save_ok mu (mgr_dl m) p h ctx pdsch Hi Hp Hg).
  - destruct Ha as [h Hp]. one_call (cancel_step mu (mgr_dl m) p h Hi Hp).
  - destruct Ha as [h Hp]. one_call (reset_step mu (mgr_dl m) p h Hi Hp).
  - unfold uci_sched_failed. rewrite get_ue_in by done. cbn [mbind outcome_bind]. exists (pair ue_idx <$> seqZ 0 (nof_harqs (ue_entity (mgr_dl m) ue_idx))). split.
    + apply fail_uci_ok; [done|apply NoDup_seqZ|]. intros id Hid. apply (ri_dom _ _ _ Hi (ue_idx, id)). by apply elem_of_seqZ0.
    + intros p h Hne _ _ (id & -> & _)%list_elem_of_fmap. done.
Qed.

Lemma ul_call_ok m c :
  is_ul_call c = true -> mgr_inv mu m -> admissible mu m c ->
  exists T m', touches (ul_alone c) (mgr_ul m) T /\ harq_step m c = ok m' /\ mgr_inv mu m' /\ mgr_dl m' = mgr_dl m /\ repo_step mu T (mgr_ul m) (mgr_ul m').
Proof.
  intros Hc Hm Ha. pose proof (mi_ul _ _ Hm) as Hi.
  enough (exists T, (exists r', (match c with
      | call_new_ul_tx ue sl n => first (new_ul_tx (mgr_ul m) ue sl n)
      | call_ul_retx p sl => first (ul_new_retx (mgr_ul m) p sl)
      | call_ul_crc p ack => first (ul_crc_info (mgr_ul m) p ack)
      | call_ul_save p ctx pusch => ul_save_grant_params (mgr_ul m) p ctx pusch
      | call_ul_cancel p => cancel_retxs (mgr_ul m) p
      | call_ul_reset p => dealloc_harq (mgr_ul m) p
      | _ => fail assertion end) = ok r' /\ repo_step mu T (mgr_ul m) r') /\ touches (ul_alone c) (mgr_ul m) T) as (T & H & HT).
  { exists T. destruct (on_ul_inv m T _ Hm H) as (m' & E & Hm' & Hu & Hs). exists m'. split; [done|]. split; [|done]. by destruct c. }
  destruct c; try done; cbn [admissible ul_alone] in *.
  - destruct Ha as (Hu & Hk & Hn). rewrite <- (mi_ues _ _ Hm) in Hu. destruct (new_ul_tx_ok mu (mgr_ul m) ue_idx pusch_slot max_nof_retxs Hi Hu Hk Hn) as [E|(id & h & r' & Hp & Hs & E & Hst)].
    + exists []. split; [|apply touches_none]. exists (mgr_ul m). split; [by rewrite E|by apply repo_step_refl].
    + exists [(ue_idx, id)]. split; [|by eapply touches_free]. exists r'. by rewrite E.
  - destruct Ha as ([h Hp] & Hk). one_call (ul_new_retx_ok mu (mgr_ul m) p h pusch_slot Hi Hp Hk).
  - destruct Ha as [h Hp]. one_call (ul_crc_info_ok mu (mgr_ul m) p h ack Hi Hp).
  - destruct Ha as (h & Hp & Hg). one_call (ul_save_ok mu (mgr_ul m) p h ctx pusch Hi Hp Hg).
  - destruct Ha as [h Hp]. one_call (cancel_step mu (mgr_ul m) p h Hi Hp).
  - destruct Ha as [h Hp]. one_call (reset_step mu (mgr_ul m) p h Hi Hp).
Qed.
End steps.

(** ** Slots and UEs *)
Section manager.
Context (mu : Z).
Implicit Types (m : cell_harq_manager) (c : harq_call) (p : harq_ptr).

Lemma slot_call_ok m :
  mgr_inv mu m -> exists m' ld lu, harq_step m call_slot = ok m' /\ mgr_inv mu m' /\ slot_done mu (mgr_dl m) (mgr_dl m') ld /\ slot_done mu (mgr_ul m) (mgr_ul m') lu.
Proof.
  intros []. cbn [harq_step]. unfold harq_slot_indication. destruct (slot_indication_ok mu (mgr_dl m) mi_dl0) as (dl & ld & Ed & Hd). rewrite Ed. cbn [mbind outcome_bind].
  rewrite <- mi_last0. destruct (slot_indication_ok mu (mgr_ul m) mi_ul0) as (ul & lu & Eu & Hu). rewrite Eu. cbn [mbind outcome_bind].
  exists (mk_harq_manager (max_harqs_per_ue m) dl ul), ld, lu. split; [done|]. split; [|done]. pose proof Hd as [? ? (_ & _ & ?) ? _ _ _]. pose proof Hu as [? ? (_ & _ & ?) ? _ _ _].
  split; cbn [mgr_dl mgr_ul]; [done|done|congruence|congruence|]. intros ue. rewrite sd_nof, sd_nof0. apply mi_nof0.
Qed.

Lemma add_call_ok m ue crnti nof_dl nof_ul :
  mgr_inv mu m -> admissible mu m (call_add_ue ue crnti nof_dl nof_ul) ->
  exists m', harq_step m (call_add_ue ue crnti nof_dl nof_ul) = ok m' /\ mgr_inv mu m' /\ nof_harqs (ue_entity (mgr_dl m) ue) = 0 /\
    (forall p, p.1 <> ue -> harqs (mgr_dl m') !! p = harqs (mgr_dl m) !! p /\ harqs (mgr_ul m') !! p = harqs (mgr_ul m) !! p) /\
    last_sl_ind (mgr_dl m') = last_sl_ind (mgr_dl m) /\ timeouts (mgr_dl m') = timeouts (mgr_dl m).
Proof.
  intros [] (Hu & Hc & Hd & Hl). cbn [harq_step]. unfold harq_add_ue. rewrite Hc, !(proj2 (Z.leb_le _ _)), !(proj2 (Z.ltb_lt _ _)) by lia. cbn [srsran_assert andb negb mbind outcome_bind].
  unfold harq_contains in Hc. rewrite (proj2 (Z.ltb_lt _ _)) in Hc by lia. cbn [andb] in Hc. apply negb_false_iff, Z.eqb_eq in Hc.
  destruct (reserve_ok mu (mgr_dl m) dl_params_init ue crnti nof_dl mi_dl0 Hu ltac:(lia)) as (dl & Ed & Hdi & Hdl & Hdu & Hdt & Hdn & Hdo & _). rewrite Ed. cbn [mbind outcome_bind].
  destruct (reserve_ok mu (mgr_ul m) no_ul_alloc ue crnti nof_ul mi_ul0) as (ul & Eu & Hui & Hul & Huu & _ & Hun & Huo & _); [by rewrite mi_ues0|by apply mi_nof0|]. rewrite Eu.
  cbn [mbind outcome_bind]. eexists. split; [reflexivity|]. cbn [mgr_dl mgr_ul]. split; [|split; [done|split; [intros p Hp; split; [by apply Hdo|by apply Huo]|done]]].
  split; cbn [mgr_dl mgr_ul]; [done|done|congruence|congruence|]. intros ue'. rewrite Hdn, Hun. case_decide; [lia|apply mi_nof0].
Qed.

Lemma destroy_call_ok m ue :
  mgr_inv mu m -> admissible mu m (call_destroy_ue ue) ->
  exists m', harq_step m (call_destroy_ue ue) = ok m' /\ mgr_inv mu m' /\
    (forall p, harqs (mgr_dl m') !! p = (if decide (p.1 = ue) then None else harqs (mgr_dl m) !! p)) /\
    (forall p, harqs (mgr_ul m') !! p = (if decide (p.1 = ue) then None else harqs (mgr_ul m) !! p)) /\
    last_sl_ind (mgr_dl m') = last_sl_ind (mgr_dl m) /\ timeouts (mgr_dl m') = timeouts (mgr_dl m).
Proof.
  intros [] Hu. cbn [harq_step admissible] in *. unfold harq_destroy_ue.
  destruct (destroy_ok mu (mgr_dl m) ue mi_dl0 Hu) as (dl & Ed & Hdi & Hdl & Hdu & Hdt & Hdn & Hdo). rewrite Ed. cbn [mbind outcome_bind].
  destruct (destroy_ok mu (mgr_ul m) ue mi_ul0) as (ul & Eu & Hui & Hul & Huu & _ & Hun & Huo); [by rewrite mi_ues0|]. rewrite Eu.
  cbn [mbind outcome_bind]. eexists. split; [reflexivity|]. cbn [mgr_dl mgr_ul]. split; [|done].
  split; cbn [mgr_dl mgr_ul]; [done|done|congruence|congruence|]. intros ue'. rewrite Hdn, Hun. case_decide; [lia|apply mi_nof0].
Qed.

Lemma call_cases c : is_dl_call c = true \/ is_ul_call c = true \/ c = call_slot \/ (exists ue r d u, c = call_add_ue ue r d u) \/ exists ue, c = call_destroy_ue ue.
Proof. destruct c; auto; right; right; right; [left; eauto|right; eauto]. Qed.

Lemma harq_step_ok m c : mgr_inv mu m -> admissible mu m c -> exists m', harq_step m c = ok m' /\ mgr_inv mu m'.
Proof.
  intros Hm Ha. destruct (call_cases c) as [Hc|[Hc|[->|[(ue & r & d & u & ->)|(ue & ->)]]]].
  - destruct (dl_call_ok mu m c Hc Hm Ha) as (T & m' & _ & E & Hm' & _). eauto.
  - destruct (ul_call_ok mu m c Hc Hm Ha) as (T & m' & _ & E & Hm' & _). eauto.
  - destruct (slot_call_ok m Hm) as (m' & ld & lu & E & Hm' & _). eauto.
  - destruct (add_call_ok m _ _ _ _ Hm Ha) as (m' & E & Hm' & _). eauto.
  - destruct (destroy_call_ok m _ Hm Ha) as (m' & E & Hm' & _). eauto.
Qed.

Lemma harq_calls_ok cs : forall m, mgr_inv mu m -> scheduled mu m cs -> exists m', harq_calls m cs = ok m' /\ mgr_inv mu m'.
Proof.
  induction cs as [|c cs IH]; intros m Hm; cbn [harq_calls scheduled]; [eauto|]. intros [Ha Hs]. destruct (harq_step_ok m c Hm Ha) as (m1 & E & Hm1). rewrite E.
  cbn [mbind outcome_bind]. apply IH; [done|by apply Hs].
Qed.

(** ** The start *)
Definition harq_start (max_ues max_harqs max_ack_wait_timeout : Z) (sl : slot_point) : outcome cell_harq_manager :=
  m ← cell_harq_manager_ctor max_ues max_harqs max_ack_wait_timeout; harq_slot_indication m sl.

Lemma repo_init_ok {X} max_ues wait :
  0 <= mu < NOF_NUMEROLOGIES -> 1 <= wait <= 5088 ->
  exists size, repo_init max_ues wait = ok (mk_repo (X := X) wait max_ues slot_init ∅ ∅ [] ∅ size []) /\ wait + 32 <= size /\ 10 <= size < nsf mu /\ nsf mu mod size = 0.
Proof.
  intros Hmu Hw. unfold repo_init. change (get_max_slot_ul_alloc_delay 0) with 32. rewrite u32_small by lia.
  destruct (ring_size_ok (wait + 32) mu ltac:(lia) Hmu) as (size & -> & H1 & H2 & H3). exists size. cbn [mbind outcome_bind]. split; [done|]. pose proof (N_even mu Hmu). split_and!; lia.
Qed.

Lemma empty_repo_inv {X} max_ues wait size sl :
  slot_ok mu sl -> 1 <= wait <= 5088 -> wait + 32 <= size -> 10 <= size < nsf mu -> nsf mu mod size = 0 -> repo_inv mu None (mk_repo (X := X) wait max_ues sl ∅ ∅ [] ∅ size []).
Proof.
  intros Hs Hw H1 H2 H3. assert (Hno : forall p st, ~ status_at (mk_repo (X := X) wait max_ues sl ∅ ∅ [] ∅ size []) p st).
  { intros p st (h & Hp & _). cbn [harqs] in Hp. by rewrite lookup_empty in Hp. }
  split; cbn [last_sl_ind wheel_size max_ack_wait_in_slots repo_max_ues timeouts]; [done|done|change (get_max_slot_ul_alloc_delay 0) with 32; lia|..].
  - intros ue e He. cbn [ues] in He. by rewrite lookup_empty in He.
  - intros p. cbn [harqs]. rewrite lookup_empty. unfold ue_entity. cbn [ues]. rewrite lookup_empty. cbn. split; [by intros []|lia].
  - intros p h Hp. cbn [harqs] in Hp. by rewrite lookup_empty in Hp.
  - intros ue. unfold ue_entity. cbn [ues]. rewrite lookup_empty. apply NoDup_nil; done.
  - intros ue id. unfold ue_entity. cbn [ues]. rewrite lookup_empty. split; [by intros ?%not_elem_of_nil|]. by intros [_ []%Hno].
  - intros k. unfold wheel_list. cbn [harq_timeout_wheel]. rewrite lookup_empty. apply NoDup_nil; done.
  - intros k p. unfold wheel_list. cbn [harq_timeout_wheel harqs]. rewrite lookup_empty. split; [by intros ?%not_elem_of_nil|]. intros (_ & h & Hp & _). by rewrite lookup_empty in Hp.
  - apply NoDup_nil; done.
  - intros p. cbn [harq_pending_retx_list]. split; [by intros ?%not_elem_of_nil|]. by intros [_ []%Hno].
Qed.

Lemma harq_start_ok max_ues max_harqs wait sl : slot_ok mu sl -> 1 <= wait <= 5088 -> exists m, harq_start max_ues max_harqs wait sl = ok m /\ mgr_inv mu m.
Proof.
  intros Hs Hw. unfold harq_start, cell_harq_manager_ctor.
  destruct (repo_init_ok (X := dl_harq_params) max_ues wait (proj1 Hs) Hw) as (sz & E1 & H1 & H2 & H3). destruct (repo_init_ok (X := ul_alloc_params) max_ues wait (proj1 Hs) Hw) as (sz' & E1' & H1' & H2' & H3').
  rewrite E1, E1'. cbn [mbind outcome_bind]. unfold harq_slot_indication, repo_slot_indication. cbn [mgr_dl mgr_ul].
  unfold set_last, bucket_of. cbn [max_ack_wait_in_slots repo_max_ues ues harqs harq_pending_retx_list harq_timeout_wheel wheel_size timeouts length].
  unfold wheel_list. cbn [harq_timeout_wheel]. rewrite !lookup_empty. cbn [default from_option id length ack_timeouts]. unfold wheel_list. cbn [harq_timeout_wheel]. rewrite !lookup_empty.
  cbn [default from_option id mbind outcome_bind harq_pending_retx_list length trapped_retxs]. eexists. split; [reflexivity|].
  split; cbn [mgr_dl mgr_ul]; [by apply empty_repo_inv|by apply empty_repo_inv|done|done|]. intros ue. unfold ue_entity. cbn [ues]. rewrite lookup_empty. cbn. lia.
Qed.
End manager.
