(* ===== verification/HarqProps.v ===== *)
(** * HARQ processes: properties

    The manager never fails, acknowledgements that do not come are given up in the slot that was set for them, the indicator of new data changes with new transmissions and with
    nothing else, and the reports of several PUCCHs are weighed as they should. *)
From Stdlib Require Import SpecFloat.
From S2P Require Import Prelude MacDl SlotPoint HarqManager HarqInv HarqOps HarqRun.

(** ** No failure *)

(** C22: from its creation on, with one indication for each slot and the calls a scheduler makes, the manager of the processes of a cell never fails: no process is taken out of a
    list it is not in, and every process stays in exactly one place: free, in the place of the wheel that is visited when its time is up, or in the list of pending
    retransmissions. *)
Theorem harq_never_fails mu max_ues max_harqs wait sl cs :
  slot_ok mu sl -> 1 <= wait <= 5088 ->
  exists m, harq_start max_ues max_harqs wait sl = ok m /\ (scheduled mu m cs -> exists m', harq_calls m cs = ok m' /\ mgr_inv mu m').
Proof.
  intros Hs Hw. destruct (harq_start_ok mu max_ues max_harqs wait sl Hs Hw) as (m & E & Hm). exists m. split; [done|]. by apply harq_calls_ok.
Qed.

(** ** Timeouts *)
Section alone.
Context (mu : Z).
Implicit Types (m : cell_harq_manager) (c : harq_call) (p : harq_ptr).

Definition is_slot c : bool := match c with call_slot => true | _ => false end.
Definition nof_slots (cs : list harq_call) : Z := Z.of_nat (length (List.filter is_slot cs)).

Lemma not_of_new {X} (r : cell_harq_repository X) p h ue : repo_inv mu None r -> harqs r !! p = Some h -> nof_harqs (ue_entity r ue) <= 0 -> p.1 <> ue.
Proof. intros Hi Hp Hn Hp1. pose proof (proj1 (ri_dom _ _ _ Hi p) (mk_is_Some _ _ Hp)) as Hr. rewrite Hp1 in Hr. lia. Qed.

Lemma alone_call m m' c p h :
  mgr_inv mu m -> admissible mu m c -> harq_step m c = ok m' -> harqs (mgr_dl m) !! p = Some h -> h_status h = harq_waiting_ack -> dl_alone c p -> is_slot c = false ->
  harqs (mgr_dl m') !! p = Some h /\ last_sl_ind (mgr_dl m') = last_sl_ind (mgr_dl m).
Proof.
  intros Hm Ha E Hp Hs Hal Hc. destruct (call_cases c) as [Hd|[Hu|[->|[(ue & r & d & u & ->)|(ue & ->)]]]]; [| |done|..].
  - destruct (dl_call_ok mu m c Hd Hm Ha) as (T & m1 & HT & E1 & _ & _ & Hst). rewrite E1 in E. injection E as <-.
    split; [|apply (sc_last _ _ (rs_cell _ _ _ _ Hst))]. rewrite (rs_other _ _ _ _ Hst); [done|]. apply (HT p h Hal Hp). by rewrite Hs.
  - destruct (ul_call_ok mu m c Hu Hm Ha) as (T & m1 & _ & E1 & _ & Hd & _). rewrite E1 in E. injection E as <-. by rewrite Hd.
  - destruct (add_call_ok mu m _ _ _ _ Hm Ha) as (m1 & E1 & _ & Hn & Ho & Hl & _). rewrite E1 in E. injection E as <-. split; [|done].
    by rewrite (proj1 (Ho p (not_of_new (mgr_dl m) p h ue (mi_dl _ _ Hm) Hp ltac:(lia)))).
  - destruct (destroy_call_ok mu m _ Hm Ha) as (m1 & E1 & _ & Ho & _ & Hl & _). rewrite E1 in E. injection E as <-. split; [|done]. rewrite Ho, decide_False; [done|]. intros Hx. by apply Hal.
Qed.

Lemma slot_call m m' p h :
  mgr_inv mu m -> harq_step m call_slot = ok m' -> harqs (mgr_dl m) !! p = Some h -> h_status h = harq_waiting_ack ->
  last_sl_ind (mgr_dl m') = slot_next (last_sl_ind (mgr_dl m)) /\
  if decide (ack_left (mgr_dl m) h = 1)
  then harqs (mgr_dl m') !! p = Some (with_status h harq_empty) /\
       exists l, timeouts (mgr_dl m') = timeouts (mgr_dl m) ++ l /\ (max_ack_wait_in_slots (mgr_dl m) <> 1 -> (p.1, h_ack_on_timeout h) ∈ l)
  else harqs (mgr_dl m') !! p = Some h.
Proof.
  intros Hm E Hp Hs. destruct (slot_call_ok mu m Hm) as (m1 & ld & lu & E1 & _ & Hd & _). rewrite E1 in E. injection E as <-. split; [apply Hd|].
  pose proof (sd_harqs _ _ _ _ Hd p) as Hh. rewrite Hp in Hh. cbn [fmap option_fmap option_map] in Hh. pose proof (wheel_due mu _ p (mi_dl _ _ Hm)) as Hw.
  assert (Hl : p ∉ ld) by (intros Hin; apply (sd_pending _ _ _ _ Hd) in Hin as (h' & Hp' & Hs'); congruence).
  case_decide as Ea.
  - assert (Hin : p ∈ wheel_list (mgr_dl m) (bucket_of (mgr_dl m) (slot_next (last_sl_ind (mgr_dl m))))) by (apply Hw; by exists h).
    split; [rewrite Hh; unfold freed; by rewrite decide_True by (apply elem_of_app; by left)|]. eexists. split; [apply (sd_told _ _ _ _ Hd)|]. intros Hne. apply elem_of_app. left.
    unfold told. rewrite (proj2 (Z.eqb_neq _ _)) by done. apply list_elem_of_fmap. exists p. split; [|done]. unfold notice. by rewrite Hp.
  - rewrite Hh. unfold freed. rewrite decide_False; [done|]. intros [Hin|Hin]%elem_of_app; [|done]. apply Hw in Hin as (h' & Hp' & _ & Ea'). congruence.
Qed.

Lemma alone_calls cs : forall m p h,
  mgr_inv mu m -> scheduled mu m cs -> harqs (mgr_dl m) !! p = Some h -> h_status h = harq_waiting_ack -> Forall (fun c => dl_alone c p) cs ->
  nof_slots cs < ack_left (mgr_dl m) h ->
  exists m', harq_calls m cs = ok m' /\ mgr_inv mu m' /\ harqs (mgr_dl m') !! p = Some h /\ ack_left (mgr_dl m') h = ack_left (mgr_dl m) h - nof_slots cs.
Proof.
  induction cs as [|c cs IH]; intros m p h Hm Hsc Hp Hs Hal Hn; cbn [harq_calls].
  { exists m. split_and!; [done|done|done|]. change (nof_slots []) with 0. lia. }
  destruct Hsc as [Ha Hsc]. apply Forall_cons in Hal as [Hc Hal]. destruct (harq_step_ok mu m c Hm Ha) as (m1 & E1 & Hm1). rewrite E1. cbn [mbind outcome_bind].
  assert (H1 : harqs (mgr_dl m1) !! p = Some h /\ ack_left (mgr_dl m1) h = ack_left (mgr_dl m) h - (if is_slot c then 1 else 0)).
  { destruct (is_slot c) eqn:Esl.
    - assert (c = call_slot) as -> by (by destruct c). destruct (slot_call m m1 p h Hm E1 Hp Hs) as [Hl Hx]. rewrite decide_False in Hx.
      + split; [done|]. unfold ack_left. rewrite Hl. pose proof (ri_harq _ _ _ (mi_dl _ _ Hm) p h Hp) as Hok. destruct (ho_waiting _ _ _ _ Hok Hs) as [Ht Hr].
        apply (slot_dist_next mu); [apply (ri_last _ _ _ (mi_dl _ _ Hm))|done|unfold ack_left in Hr; lia].
      + unfold nof_slots in Hn. cbn in Hn. lia.
    - destruct (alone_call m m1 c p h Hm Ha E1 Hp Hs Hc Esl) as [Hp1 Hl]. split; [done|]. unfold ack_left. rewrite Hl. lia. }
  destruct H1 as [Hp1 Hl1]. assert (Enof : nof_slots (c :: cs) = (if is_slot c then 1 else 0) + nof_slots cs).
  { unfold nof_slots. cbn [List.filter]. destruct (is_slot c); cbn [length]; lia. }
  destruct (IH m1 p h Hm1 (Hsc m1 E1) Hp1 Hs Hal) as (m' & E' & Hm' & Hp' & Hl'); [lia|]. exists m'. split_and!; [done|done|done|lia].
Qed.

(** C23: a downlink process that waits for its acknowledgement and is left alone, whatever happens to the others, goes on waiting in every slot before the one that was set for
    it, and is freed with the indication of that slot, the owner being told what the reports that did come amount to. *)
Theorem harq_ack_timeout_exact m p h cs :
  mgr_inv mu m -> scheduled mu m cs -> harqs (mgr_dl m) !! p = Some h -> h_status h = harq_waiting_ack -> Forall (fun c => dl_alone c p) cs ->
  nof_slots cs = ack_left (mgr_dl m) h - 1 ->
  exists m' m'' l, harq_calls m cs = ok m' /\ harqs (mgr_dl m') !! p = Some h /\ slot_next (last_sl_ind (mgr_dl m')) = h_slot_ack_timeout h /\
    harq_step m' call_slot = ok m'' /\ harqs (mgr_dl m'') !! p = Some (with_status h harq_empty) /\
    timeouts (mgr_dl m'') = timeouts (mgr_dl m') ++ l /\ (max_ack_wait_in_slots (mgr_dl m') <> 1 -> (p.1, h_ack_on_timeout h) ∈ l).
Proof.
  intros Hm Hsc Hp Hs Hal Hn. destruct (alone_calls cs m p h Hm Hsc Hp Hs Hal ltac:(lia)) as (m' & E & Hm' & Hp' & Hl'). assert (H1 : ack_left (mgr_dl m') h = 1) by lia.
  destruct (slot_call_ok mu m' Hm') as (m'' & _ & _ & E' & _). destruct (slot_call m' m'' p h Hm' E' Hp' Hs) as [_ H]. rewrite decide_True in H by done.
  destruct H as (Hf & l & Hl & Hin). exists m', m'', l. split; [done|]. split; [done|]. split; [|done]. pose proof (ri_last _ _ _ (mi_dl _ _ Hm')) as Hlast.
  destruct (ho_waiting _ _ _ _ (ri_harq _ _ _ (mi_dl _ _ Hm') p h Hp') Hs) as [Ht _]. apply (slot_dist_inj mu (last_sl_ind (mgr_dl m'))); [done|by apply slot_next_ok|done|].
  unfold ack_left in H1. rewrite H1, (slot_next_add mu) by done. destruct Hlast as (Hmu & Hl0 & Hc). pose proof (N_even mu Hmu). by apply (slot_dist_add mu); [|lia].
Qed.
End alone.

(** ** New data *)
Section new_data.
Context (mu : Z).

Lemma moves_slot {X} (r r' : cell_harq_repository X) l p h h' : slot_done mu r r' l -> harqs r !! p = Some h -> harqs r' !! p = Some h' -> moves h h'.
Proof.
  intros Hd Hp Hp'. rewrite (sd_harqs _ _ _ _ Hd), Hp in Hp'. cbn [fmap option_fmap option_map] in Hp'. injection Hp' as <-. unfold freed. case_decide; [apply moves_freed|apply moves_refl].
Qed.

Lemma moves_eq {X} (h h' : harq_process X) : Some h = Some h' -> moves h h'.
Proof. intros E. injection E as <-. apply moves_refl. Qed.

(** C29: in every step of the manager, and for every process that exists before and after it, the indicator of new data changes exactly when a free process starts to be used; the
    number of retransmissions is then 0, grows by one exactly when a process with a pending retransmission is transmitted again, and stays as it is otherwise; and a process that
    is free is not given a pending retransmission. *)
Theorem harq_ndi_tells_new_data m m' c :
  mgr_inv mu m -> admissible mu m c -> harq_step m c = ok m' ->
  (forall p h h', harqs (mgr_dl m) !! p = Some h -> harqs (mgr_dl m') !! p = Some h' -> moves h h') /\
  (forall p h h', harqs (mgr_ul m) !! p = Some h -> harqs (mgr_ul m') !! p = Some h' -> moves h h').
Proof.
  intros Hm Ha E. destruct (call_cases c) as [Hd|[Hu|[->|[(ue & r & d & u & ->)|(ue & ->)]]]].
  - destruct (dl_call_ok mu m c Hd Hm Ha) as (T & m1 & _ & E1 & _ & Hu & Hs). rewrite E1 in E. injection E as <-. split; [apply (rs_moves _ _ _ _ Hs)|].
    intros p h h' Hp Hp'. apply moves_eq. congruence.
  - destruct (ul_call_ok mu m c Hu Hm Ha) as (T & m1 & _ & E1 & _ & Hd & Hs). rewrite E1 in E. injection E as <-. split; [|apply (rs_moves _ _ _ _ Hs)].
    intros p h h' Hp Hp'. apply moves_eq. congruence.
  - destruct (slot_call_ok mu m Hm) as (m1 & ld & lu & E1 & _ & Hd & Hu). rewrite E1 in E. injection E as <-. by split; intros; eapply moves_slot.
  - destruct (add_call_ok mu m _ _ _ _ Hm Ha) as (m1 & E1 & _ & Hn & Ho & _). rewrite E1 in E. injection E as <-.
    split; intros p h h' Hp Hp'; apply moves_eq.
    + by rewrite <- Hp', (proj1 (Ho p (not_of_new mu (mgr_dl m) p h ue (mi_dl _ _ Hm) Hp ltac:(lia)))).
    + by rewrite <- Hp', (proj2 (Ho p (not_of_new mu (mgr_ul m) p h ue (mi_ul _ _ Hm) Hp (proj2 (mi_nof _ _ Hm ue) Hn)))).
  - destruct (destroy_call_ok mu m _ Hm Ha) as (m1 & E1 & _ & Hd & Hu & _). rewrite E1 in E. injection E as <-.
    split; intros p h h' Hp Hp'; apply moves_eq; [rewrite Hd in Hp'|rewrite Hu in Hp']; case_decide; done || congruence.
Qed.
End new_data.

(** ** Reports *)
Abbreviation report := (mac_harq_ack_report_status * option spec_float)%type.

Fixpoint dl_acks (r : dl_harq_repository) (p : harq_ptr) (rs : list report) : outcome (dl_harq_repository * list status_update) :=
  match rs with
  | [] => ok (r, [])
  | (a, s) :: rs => '(r, u) ← dl_ack_info r p a s; '(r, us) ← dl_acks r p rs; ok (r, u :: us)
  end.

(** *** The order of floating-point numbers

    Numbers are compared as their keys: the class (of infinities, signs and zero), the exponent and the mantissa, one after the other; NaN has none. *)
Definition float_key (f : spec_float) : option (Z * Z * Z) :=
  match f with
  | S754_nan => None
  | S754_infinity s => Some (if s then -2 else 2, 0, 0)
  | S754_zero _ => Some (0, 0, 0)
  | S754_finite true m e => Some (-1, - e, Z.neg m)
  | S754_finite false m e => Some (1, e, Z.pos m)
  end.

Definition key_lt (k k' : Z * Z * Z) : Prop :=
  let '(a, b, c) := k in let '(a', b', c') := k' in a < a' \/ a = a' /\ (b < b' \/ b = b' /\ c < c').

Lemma SFcompare_key f g : SFcompare f g =
  match float_key f, float_key g with
  | Some (a, b, c), Some (a', b', c') => Some match a ?= a' with Eq => match b ?= b' with Eq => c ?= c' | r => r end | r => r end
  | _, _ => None
  end.
Proof.
  destruct f as [s|[]| |[] m e], g as [s'|[]| |[] m' e']; cbn -[Z.compare]; try done.
  rewrite Z.compare_opp. change (Z.neg m ?= Z.neg m') with (CompOpp (Pos.compare m m')). rewrite (Z.compare_antisym e e').
  by destruct (e ?= e').
Qed.

Lemma SFltb_key f g : SFltb f g = true <-> exists k k', float_key f = Some k /\ float_key g = Some k' /\ key_lt k k'.
Proof.
  unfold SFltb. rewrite SFcompare_key. destruct (float_key f) as [[[a b] c]|], (float_key g) as [[[a' b'] c']|]; try (split; [done|by intros (? & ? & ? & ? & _)]).
  assert (H : (exists k k', Some (a, b, c) = Some k /\ Some (a', b', c') = Some k' /\ key_lt k k') <-> key_lt (a, b, c) (a', b', c')) by (split; [by intros (? & ? & [= <-] & [= <-] & ?)|eauto]).
  rewrite H. unfold key_lt. destruct (Z.compare_spec a a'), (Z.compare_spec b b'), (Z.compare_spec c c'); (split; [try done; lia|try done; lia]).
Qed.

Lemma SFleb_key f g : SFleb f g = true <-> exists k k', float_key f = Some k /\ float_key g = Some k' /\ ~ key_lt k' k.
Proof.
  unfold SFleb. rewrite SFcompare_key. destruct (float_key f) as [[[a b] c]|], (float_key g) as [[[a' b'] c']|]; try (split; [done|by intros (? & ? & ? & ? & _)]).
  assert (H : (exists k k', Some (a, b, c) = Some k /\ Some (a', b', c') = Some k' /\ ~ key_lt k' k) <-> ~ key_lt (a', b', c') (a, b, c)) by (split; [by intros (? & ? & [= <-] & [= <-] & ?)|eauto]).
  rewrite H. unfold key_lt. destruct (Z.compare_spec a a'), (Z.compare_spec b b'), (Z.compare_spec c c'); (split; [try done; lia|try done; lia]).
Qed.

Lemma key_lt_trans k1 k2 k3 : key_lt k1 k2 -> ~ key_lt k3 k2 -> key_lt k1 k3.
Proof. destruct k1 as [[? ?] ?], k2 as [[? ?] ?], k3 as [[? ?] ?]. unfold key_lt. lia. Qed.

Lemma key_lt_asym k1 k2 : key_lt k1 k2 -> ~ key_lt k2 k1.
Proof. destruct k1 as [[? ?] ?], k2 as [[? ?] ?]. unfold key_lt. lia. Qed.

Definition above (l t : spec_float) : Prop := SFltb l t = true.

(** [l < t <= x] *)
Lemma above_trans l t x : above l t -> SFleb t x = true -> above l x.
Proof.
  unfold above. rewrite !SFltb_key, SFleb_key. intros (k1 & k2 & E1 & E2 & H) (k2' & k3 & E2' & E3 & H'). rewrite E2 in E2'. injection E2' as <-.
  exists k1, k3. split; [done|]. split; [done|]. by eapply key_lt_trans.
Qed.

Lemma above_not_le l t : above l t -> SFleb t l = false.
Proof. unfold above. rewrite SFltb_key. intros (k1 & k2 & E1 & E2 & H). apply not_true_iff_false. rewrite SFleb_key. intros (? & ? & E1' & E2' & H'). congruence. Qed.

Lemma above_le l t : above l t -> SFleb l t = true.
Proof. unfold above. rewrite SFltb_key, SFleb_key. intros (k1 & k2 & E1 & E2 & H). exists k1, k2. split_and!; try done. by apply key_lt_asym. Qed.

(** *** The report that decides *)

(** A report that is not decoded, or not with a SNR above [s]: it changes nothing after a report of [s]. *)
Definition not_beaten (s : option spec_float) (q : report) : Prop :=
  q.1 = report_dtx \/ exists l, s = Some l /\ match q.2 with None => True | Some s' => SFltb l s' = false end.

(** A report that is not decoded, without a SNR, or whose SNR [s] does not fail to exceed: it is given up for a later report of [s]. *)
Definition outdone (s : option spec_float) (q : report) : Prop :=
  q.1 = report_dtx \/ match q.2 with None => True | Some x => exists l, s = Some l /\ SFleb l x = false end.

(** The decoded report with the best SNR, the first of them, that none before it reaches and none after it exceeds; any SNR is better than none, and of reports without SNR the last
    one counts. *)
Definition winner (rs : list report) (a : mac_harq_ack_report_status) : Prop :=
  exists i s, rs !! i = Some (a, s) /\ a <> report_dtx /\
    (forall j q, rs !! j = Some q -> (i < j)%nat -> not_beaten s q) /\ (forall j q, rs !! j = Some q -> (j < i)%nat -> outdone s q).

Definition all_dtx (rs : list report) : Prop := Forall (fun q : report => q.1 = report_dtx) rs.

(** Every SNR is a number. *)
Definition snr_numbers (rs : list report) : Prop := Forall (fun q : report => match q.2 with Some x => x <> S754_nan | None => True end) rs.

(** Then only one of the two can win. *)
Lemma winner_unique rs a b : snr_numbers rs -> winner rs a -> winner rs b -> a = b.
Proof.
  assert (Hlt : forall a b i j s t, snr_numbers rs -> rs !! i = Some (a, s) -> rs !! j = Some (b, t) -> a <> report_dtx -> b <> report_dtx ->
    not_beaten s (b, t) -> outdone t (a, s) -> (i < j)%nat -> False).
  { intros a' b' i j s t Hn Ei Ej Ha Hb [?|(l & -> & H1)] [?|H2] _; try done. cbn in H1, H2. destruct H2 as (l' & -> & H2).
    apply (Forall_lookup_1 _ _ _ _ Hn) in Ei, Ej. cbn in Ei, Ej. apply not_true_iff_false in H1, H2. rewrite SFltb_key in H1. rewrite SFleb_key in H2.
    destruct (float_key l) as [k|] eqn:E1; [|by destruct l as [| | |[]]]. destruct (float_key l') as [k'|] eqn:E2; [|by destruct l' as [| | |[]]].
    apply H2. exists k', k. split_and!; try done. intros Hk. apply H1. by exists k, k'. }
  intros Hn (i & s & Ei & Ha & H1 & H2) (j & t & Ej & Hb & H3 & H4). destruct (Nat.lt_total i j) as [Hij|[->|Hij]].
  - exfalso. eapply (Hlt a b i j s t); eauto.
  - congruence.
  - exfalso. eapply (Hlt b a j i t s); eauto.
Qed.

Definition chosen_of (x : dl_harq_params) (rs : list report) : dl_harq_params := foldl (fun x q => choose_report x q.1 q.2) x rs.

Lemma choose_count x n a s : choose_report (set_pucch_ack_to_receive x n) a s = set_pucch_ack_to_receive (choose_report x a s) n.
Proof. unfold choose_report. cbn [set_pucch_ack_to_receive last_pucch_snr]. by destruct (report_chosen _ _ _). Qed.

Lemma chosen_count x n rs : chosen_of (set_pucch_ack_to_receive x n) rs = set_pucch_ack_to_receive (chosen_of x rs) n.
Proof. revert x. induction rs as [|[a s] rs IH]; intros x; cbn [chosen_of foldl fst snd]; [done|]. rewrite choose_count. apply IH. Qed.

Lemma report_chosen_spec a s s' :
  report_chosen a s s' = true <-> a <> report_dtx /\ match s with None => True | Some l => exists x, s' = Some x /\ above l x end.
Proof.
  unfold report_chosen, above. rewrite andb_true_iff, negb_true_iff, bool_decide_eq_false. destruct s as [l|]; [|tauto].
  destruct s' as [x|]; split; intros [? H]; split; try done; [by exists x|by destruct H as (? & [= <-] & ?)|by destruct H as (? & ? & _)].
Qed.

Lemma not_chosen a s s' : report_chosen a s s' = false -> not_beaten s (a, s').
Proof.
  unfold report_chosen, not_beaten. cbn [fst snd]. case_bool_decide as Ha; [by left|]. cbn [negb andb]. destruct s as [l|]; [|done]. intros E. right. exists l. split; [done|]. by destruct s'.
Qed.

(** A later report that is chosen outdoes what the chosen one had outdone or held off. *)
Lemma outdone_chosen s s' q : match s with None => True | Some l => exists x, s' = Some x /\ above l x end -> outdone s q \/ not_beaten s q -> outdone s' q.
Proof.
  unfold outdone, not_beaten. intros Hc [[?|H]|[?|(l & -> & H)]]; [by left|right|by left|right]; destruct (q.2) as [x|]; try done.
  - destruct H as (l & -> & H). destruct Hc as (t & -> & Ht). exists t. split; [done|]. apply not_true_iff_false in H. apply not_true_iff_false. intros Hle. apply H.
    apply above_le. by eapply above_trans.
  - destruct Hc as (t & -> & Ht). exists t. split; [done|]. apply not_true_iff_false in H. apply not_true_iff_false. intros Hle. apply H. by eapply above_trans.
Qed.

Lemma outdone_snr s s' a : match s with None => True | Some l => exists x, s' = Some x /\ above l x end -> outdone s' (a, s).
Proof. intros Hc. right. cbn. destruct s as [l|]; [|done]. destruct Hc as (t & -> & Ht). exists t. split; [done|]. by apply above_not_le. Qed.

Definition wins_at (rs : list report) (x : dl_harq_params) : Prop :=
  exists i, rs !! i = Some (chosen_ack x, last_pucch_snr x) /\ chosen_ack x <> report_dtx /\
    (forall j q, rs !! j = Some q -> (i < j)%nat -> not_beaten (last_pucch_snr x) q) /\ (forall j q, rs !! j = Some q -> (j < i)%nat -> outdone (last_pucch_snr x) q).

Lemma lookup_snoc_inv {A} (l : list A) x j q : (l ++ [x]) !! j = Some q -> l !! j = Some q \/ j = length l /\ q = x.
Proof. intros E. apply lookup_app_Some in E as [E|[Hle E]]; [by left|right]. apply list_lookup_singleton_Some in E as [E <-]. split; [lia|done]. Qed.

Lemma chosen_cases x rs :
  chosen_ack x = report_dtx -> last_pucch_snr x = None -> all_dtx rs /\ chosen_of x rs = x \/ wins_at rs (chosen_of x rs).
Proof.
  intros Hx Hs. induction rs as [|[b t] rs IH] using rev_ind; [left; by split; [apply Forall_nil|]|].
  unfold chosen_of. rewrite foldl_app. cbn [foldl fst snd]. fold (chosen_of x rs). unfold choose_report.
  destruct (report_chosen b (last_pucch_snr (chosen_of x rs)) t) eqn:Ec.
  - right. apply report_chosen_spec in Ec as [Hb Hc]. exists (length rs). cbn [chosen_ack last_pucch_snr]. split; [by rewrite lookup_app_r, Nat.sub_diag by lia|]. split; [done|].
    split; intros j q E Hj; apply lookup_snoc_inv in E as [E|[-> ->]]; try lia; [apply lookup_lt_Some in E; lia|].
    destruct IH as [[Hd _]|(i & Ei & _ & H1 & H2)]; [left; by apply (Forall_lookup_1 _ _ _ _ Hd E)|].
    destruct (Nat.lt_total i j) as [Hij|[->|Hij]]; [by eapply outdone_chosen; [exact Hc|right; eapply H1]| |by eapply outdone_chosen; [exact Hc|left; eapply H2]].
    rewrite Ei in E. injection E as <-. by apply outdone_snr.
  - destruct IH as [[Hd Ex]|(i & Ei & Ha & H1 & H2)].
    + left. rewrite Ex, Hs in *. split; [|done]. apply Forall_app. split; [done|]. apply Forall_singleton. cbn. apply not_chosen in Ec as [?|(? & ? & _)]; done.
    + right. exists i. pose proof (lookup_lt_Some _ _ _ Ei). split; [by rewrite lookup_app_l|]. split; [done|].
      split; intros j q E Hj; apply lookup_snoc_inv in E as [E|[-> ->]]; [by eapply H1|by apply not_chosen|by eapply H2|lia].
Qed.

Lemma acks_ok mu p rs : forall (r : dl_harq_repository) h,
  repo_inv mu None r -> harqs r !! p = Some h -> h_status h = harq_waiting_ack -> rs <> [] -> Z.of_nat (length rs) = Z.max 1 (pucch_ack_to_receive (h_params h)) ->
  let final := bool_decide (chosen_ack (chosen_of (h_params h) rs) = report_ack) in
  exists r' h', dl_acks r p rs = ok (r', repeat su_no_update (length rs - 1) ++ [if final then su_acked else su_nacked]) /\ repo_inv mu None r' /\ harqs r' !! p = Some h' /\
    h_status h' = if final || (h_max_nof_retxs h <=? h_nof_retxs h) then harq_empty else harq_pending_retx.
Proof.
  induction rs as [|[a s] rs IH]; intros r h Hi Hp Hs Hne Hl; [done|]. cbn [dl_acks]. pose proof (dl_ack_info_ok mu r p h a s Hi Hp) as H. unfold reported in H.
  rewrite bool_decide_eq_true_2 in H by done. cbn [negb] in H. set (x := choose_report (h_params h) a s) in *.
  assert (Ex : pucch_ack_to_receive x = pucch_ack_to_receive (h_params h)) by (unfold x, choose_report; by destruct (report_chosen _ _ _)). rewrite Ex in H.
  destruct rs as [|q rs].
  - cbn [length] in *. rewrite (proj2 (Z.leb_le _ _)) in H by lia. destruct H as (r' & E & Hi' & _ & Hp'). rewrite E. cbn [mbind outcome_bind dl_acks]. eexists r', _. split; [reflexivity|]. done.
  - cbn [length] in Hl. rewrite (proj2 (Z.leb_gt _ _)) in H by lia. destruct H as (r1 & E & Hi1 & _ & Hp1). rewrite E. cbn [mbind outcome_bind].
    destruct (IH r1 _ Hi1 Hp1 Hs ltac:(done)) as (r' & h' & E' & Hi' & Hp' & Hst').
    { cbn [with_ack_timeout with_ack_on_timeout with_params h_params set_pucch_ack_to_receive pucch_ack_to_receive length]. lia. }
    rewrite E'. cbn [mbind outcome_bind]. exists r', h'. cbn [with_ack_timeout with_ack_on_timeout with_params h_params h_max_nof_retxs h_nof_retxs] in *.
    assert (Ec : chosen_ack (chosen_of (set_pucch_ack_to_receive x (pucch_ack_to_receive (h_params h) - 1)) (q :: rs)) = chosen_ack (chosen_of (h_params h) ((a, s) :: q :: rs))) by (by rewrite chosen_count).
    rewrite Ec in Hst', E'. split; [|done]. replace (length ((a, s) :: q :: rs) - 1)%nat with (S (length (q :: rs) - 1)) by (cbn [length]; lia).
    by rewrite Ec.
Qed.

(** C28: a process that expects n reports of its acknowledgement, on different PUCCHs, makes no decision on the first n - 1 of them, and the last one decides: the process is
    acknowledged and freed if the decoded report with the highest SNR (the first of them) is an acknowledgement; it is to be retransmitted, unless its retransmissions are used up,
    if that report is a negative one or no report was decoded. When every SNR is a number only one of these reports can be the best one, and so the process is acknowledged exactly if
    it is an acknowledgement. *)
Theorem harq_reports_decide mu (r : dl_harq_repository) p h rs :
  repo_inv mu None r -> harqs r !! p = Some h -> h_status h = harq_waiting_ack -> chosen_ack (h_params h) = report_dtx -> last_pucch_snr (h_params h) = None ->
  Z.of_nat (length rs) = Z.max 1 (pucch_ack_to_receive (h_params h)) ->
  exists r' h' u, dl_acks r p rs = ok (r', repeat su_no_update (length rs - 1) ++ [u]) /\ repo_inv mu None r' /\ harqs r' !! p = Some h' /\
    (u = su_acked /\ winner rs report_ack /\ h_status h' = harq_empty \/
     u = su_nacked /\ (winner rs report_nack \/ all_dtx rs) /\ h_status h' = if h_max_nof_retxs h <=? h_nof_retxs h then harq_empty else harq_pending_retx) /\
    (snr_numbers rs -> (u = su_acked <-> winner rs report_ack)).
Proof.
  intros Hi Hp Hs Hd Hn Hl. assert (Hne : rs <> []) by (intros ->; cbn in Hl; lia). destruct (acks_ok mu p rs r h Hi Hp Hs Hne Hl) as (r' & h' & E & Hi' & Hp' & Hst).
  exists r', h'. eexists. split; [exact E|]. split; [done|]. split; [done|]. destruct (chosen_cases (h_params h) rs Hd Hn) as [[Hf Ec]|(i & Ei & Ha & H1 & H2)].
  - rewrite Ec, Hd in *. split; [right; split; [done|]; by split; [right|]|]. intros _. split; [done|]. intros (i & s & Ei & Hack & _).
    by apply (Forall_lookup_1 _ _ _ _ Hf) in Ei.
  - assert (Hw : winner rs (chosen_ack (chosen_of (h_params h) rs))) by (by exists i, (last_pucch_snr (chosen_of (h_params h) rs))).
    destruct (chosen_ack (chosen_of (h_params h) rs)) eqn:Eack; cbn in *; try done.
    + split; [right; split; [done|]; by split; [left|]|]. intros Hnum. split; [done|]. intros Hw'. by pose proof (winner_unique _ _ _ Hnum Hw Hw').
    + by split; [left|].
Qed.

(** * HARQ processes: instances of the properties *)

(** A cell with one UE: a transmission with two PUCCHs in the downlink, one in the uplink. *)
Definition ex_slot (n : Z) : slot_point := mk_slot 0 n.

Definition ex_calls : list harq_call :=
  [call_add_ue 0 17921 2 2; call_new_dl_tx 0 (ex_slot 10239) 4 4 0; call_dl_pucch (0, 0); call_dl_pucch (0, 0); call_new_ul_tx 0 (ex_slot 3) 4].

Definition ex_nothing : cell_harq_manager := mk_harq_manager 0 (mk_repo 0 0 slot_init ∅ ∅ [] ∅ 0 []) (mk_repo 0 0 slot_init ∅ ∅ [] ∅ 0 []).
Definition the (o : outcome cell_harq_manager) : cell_harq_manager := match o with ok m => m | fail _ => ex_nothing end.

Definition ex_m0 : cell_harq_manager := the (harq_start 4 16 4 (ex_slot 10239)).
Definition ex_m : cell_harq_manager := the (harq_calls ex_m0 ex_calls).

Lemma slot_ok0 n : 0 <= n < 10240 -> slot_ok 0 (ex_slot n).
Proof. intros H. split; [by split|]. split; [done|]. exact H. Qed.

(** Decides one call after another. *)
Ltac by_calls := repeat first
  [ exact I
  | split; [cbn [admissible]; try (split_and!); try done; try lia; try (by eexists); try (vm_compute; split_and!; congruence); try (split; [apply slot_ok0; lia|vm_compute; congruence])|];
    intros ? E; vm_compute in E; injection E as <- ].

Lemma ex_scheduled : scheduled 0 ex_m0 ex_calls.
Proof. by_calls. Qed.

Lemma ex_inv : mgr_inv 0 ex_m.
Proof.
  destruct (harq_start_ok 0 4 16 4 (ex_slot 10239) (slot_ok0 10239 ltac:(lia)) ltac:(lia)) as (m & E & Hm). assert (m = ex_m0) as -> by (unfold ex_m0; by rewrite E).
  destruct (harq_calls_ok 0 ex_calls ex_m0 Hm ex_scheduled) as (m & E' & Hm'). assert (m = ex_m) as -> by (unfold ex_m; by rewrite E'). done.
Qed.

Lemma harq_never_fails_witness : exists m m', harq_start 4 16 4 (ex_slot 10239) = ok m /\ harq_calls m ex_calls = ok m' /\ mgr_inv 0 m'.
Proof.
  destruct (harq_never_fails 0 4 16 4 (ex_slot 10239) ex_calls) as (m & E & H); [apply slot_ok0; lia|lia|].
  assert (Em : m = ex_m0) by (unfold ex_m0; rewrite E; reflexivity). destruct H as (m' & E' & Hm'); [rewrite Em; exact ex_scheduled|]. exists m, m'. auto.
Defined.

(** The downlink process waits for its acknowledgement in slot 3, and for 4 slots more. *)
Definition ex_process : harq_process dl_harq_params :=
  mk_harq 0 17921 0 harq_waiting_ack (ex_slot 10239) (ex_slot 3) (ex_slot 7) true 0 4 false false (mk_dl_params no_dl_alloc 0 2 report_dtx None).

Lemma ex_lookup : harqs (mgr_dl ex_m) !! (0, 0) = Some ex_process.
Proof. vm_compute. reflexivity. Qed.

Definition ex_others : list harq_call := [call_slot; call_new_dl_tx 0 (ex_slot 0) 4 4 1; call_dl_ack (0, 1) report_nack None; call_slot; call_slot; call_slot; call_slot; call_slot; call_slot].

Lemma harq_ack_timeout_exact_witness :
  exists m' m'' l, harq_calls ex_m ex_others = ok m' /\ harqs (mgr_dl m') !! (0, 0) = Some ex_process /\ slot_next (last_sl_ind (mgr_dl m')) = ex_slot 7 /\
    harq_step m' call_slot = ok m'' /\ harqs (mgr_dl m'') !! (0, 0) = Some (with_status ex_process harq_empty) /\
    timeouts (mgr_dl m'') = timeouts (mgr_dl m') ++ l /\ (max_ack_wait_in_slots (mgr_dl m') <> 1 -> (0, false) ∈ l).
Proof.
  apply (harq_ack_timeout_exact 0 ex_m (0, 0) ex_process ex_others); [exact ex_inv|by_calls|exact ex_lookup|reflexivity| |vm_compute; reflexivity].
  repeat (apply Forall_cons; split; [cbn; try exact I; discriminate|]). apply Forall_nil. exact I.
Defined.

(** The first of the two reports, a negative one, is beaten by the second. *)
Definition ex_reports : list report := [(report_nack, Some (S754_finite false 8388608 (-23))); (report_ack, Some (S754_finite false 8388608 (-22)))].

Lemma harq_reports_decide_witness :
  exists r' h' u, dl_acks (mgr_dl ex_m) (0, 0) ex_reports = ok (r', [su_no_update; u]) /\ repo_inv 0 None r' /\ harqs r' !! (0, 0) = Some h' /\ u = su_acked.
Proof.
  destruct (harq_reports_decide 0 (mgr_dl ex_m) (0, 0) ex_process ex_reports) as (r' & h' & u & E & Hi & Hp & _ & Hw); [exact (mi_dl _ _ ex_inv)|exact ex_lookup|reflexivity..|].
  exists r', h', u. split; [exact E|]. split; [exact Hi|]. split; [exact Hp|]. apply Hw; [by repeat constructor|].
  exists 1%nat, (Some (S754_finite false 8388608 (-22))). split; [reflexivity|]. split; [discriminate|]. split; intros [|[|j]] q Ej Hj; cbn in Ej; try lia; [done|].
  injection Ej as <-. right. cbn. eexists. split; [reflexivity|]. reflexivity.
Defined.

(** The order of the two reports does not matter. *)
Example ex_best_report_wins_reversed : (x ← dl_acks (mgr_dl ex_m) (0, 0) (rev ex_reports); ok x.2) = ok [su_no_update; su_acked].
Proof. vm_compute. reflexivity. Qed.

Example ex_best_report_wins : (x ← dl_acks (mgr_dl ex_m) (0, 0) ex_reports; ok x.2) = ok [su_no_update; su_acked].
Proof. vm_compute. reflexivity. Qed.

Lemma harq_ndi_tells_new_data_witness :
  exists m', harq_step ex_m (call_new_dl_tx 0 (ex_slot 10239) 4 4 0) = ok m' /\
    (forall p h h', harqs (mgr_dl ex_m) !! p = Some h -> harqs (mgr_dl m') !! p = Some h' -> moves h h') /\
    (forall p h h', harqs (mgr_ul ex_m) !! p = Some h -> harqs (mgr_ul m') !! p = Some h' -> moves h h').
Proof.
  destruct (harq_step ex_m (call_new_dl_tx 0 (ex_slot 10239) 4 4 0)) as [m'|e] eqn:E; [|vm_compute in E; discriminate E]. exists m'. split; [reflexivity|].
  apply (harq_ndi_tells_new_data 0 ex_m m' (call_new_dl_tx 0 (ex_slot 10239) 4 4 0)); [exact ex_inv| |exact E].
  cbn [admissible]. split; [vm_compute; split; congruence|]. split; [split; [apply (slot_ok0 3); lia|vm_compute; congruence]|unfold max_retxs_ok; lia].
Defined.

Lemma slot_order_exact_witness : slot_lt (ex_slot 10239) (ex_slot 0) = ok true.
Proof.
  destruct (slot_order_exact 0 (ex_slot 10239) (ex_slot 0)) as (E & _); [apply slot_ok0; lia|apply slot_ok0; lia|]. rewrite E. vm_compute. reflexivity.
Defined.

(** ** What the manager leaves to its environment *)

(** A process is given up in its slot or a revolution of the wheel later: a slot that is not indicated keeps it waiting. *)
Fixpoint indications (m : cell_harq_manager) (sls : list Z) : outcome cell_harq_manager :=
  match sls with [] => ok m | n :: sls => m ← harq_slot_indication m (ex_slot n); indications m sls end.

Example skipped_slot_keeps_waiting :
  (m ← indications ex_m [0; 1; 2; 3; 4; 5; 6; 8; 9; 10; 11; 12]; ok (h_status <$> harqs (mgr_dl m) !! (0, 0))) = ok (Some harq_waiting_ack).
Proof. vm_compute. reflexivity. Qed.

(** With a wait of one slot a timeout is not notified. *)
Definition ex_silent : outcome cell_harq_manager :=
  m ← harq_start 4 16 1 (ex_slot 10239); m ← harq_calls m ex_calls; indications m [0; 1; 2; 3; 4].

Example timeout_of_one_slot_is_silent : (m ← ex_silent; ok (timeouts (mgr_dl m), h_status <$> harqs (mgr_dl m) !! (0, 0))) = ok ([], Some harq_empty).
Proof. vm_compute. reflexivity. Qed.
