(* ===== verification/DlLogicalChannels.v ===== *)
(** * Downlink logical channels of the scheduler

    The buffer status and the pending control elements of a UE, and the transport blocks that are made of them ([lib/scheduler/ue_scheduling/dl_logical_channel_manager.{h,cpp}]
    and the two functions of [ue.cpp] that use it). The lists of logical channels are those that the MAC assembles ([MacDl]). *)
From S2P Require Import Prelude MacUlPdu MacDlPdu MacDl.

Definition LCID_SRB0 : Z := 0.
Definition LCID_SRB1 : Z := 1.
Definition LCID_MAX_DRB : Z := 32.
Definition MAX_NOF_RB_LCIDS : Z := 33.
Definition INVALID_LCID : Z := 64.
Definition MAX_LC_PER_TB : Z := 4.
Definition FIXED_SIZED_MAC_CE_SUBHEADER_SIZE : Z := 1.

Record channel_context := mk_channel { active : bool; buf_st : Z }.

(** The payload is that of a timing advance command, or a dummy. *)
Record mac_ce_info := mk_ce_info { ce_lcid : Z; ce_info_payload : option ta_cmd_ce_payload }.

Record dl_lc_manager := mk_dl_lc { channels : list channel_context; pending_con_res_id : bool; pending_ces : list mac_ce_info }.

Definition lc_set_channels (m : dl_lc_manager) c : dl_lc_manager := mk_dl_lc c (pending_con_res_id m) (pending_ces m).
Definition lc_set_con_res (m : dl_lc_manager) b : dl_lc_manager := mk_dl_lc (channels m) b (pending_ces m).
Definition lc_set_ces (m : dl_lc_manager) c : dl_lc_manager := mk_dl_lc (channels m) (pending_con_res_id m) c.

(** ** Channels *)
Definition channel (m : dl_lc_manager) (lcid : Z) : channel_context := default (mk_channel false 0) (channels m !! Z.to_nat lcid).

(** An access to the array of channels. *)
Definition set_channel (m : dl_lc_manager) (lcid : Z) (c : channel_context) : outcome dl_lc_manager :=
  if (0 <=? lcid) && (lcid <? MAX_NOF_RB_LCIDS) then ok (lc_set_channels m (<[Z.to_nat lcid := c]> (channels m))) else fail invalid_access.

Definition set_lc_status (m : dl_lc_manager) (lcid : Z) (b : bool) : outcome dl_lc_manager := set_channel m lcid (mk_channel b (buf_st (channel m lcid))).

Definition dl_lc_manager_ctor : outcome dl_lc_manager := set_lc_status (mk_dl_lc (replicate 33 (mk_channel false 0)) false []) LCID_SRB0 true.

Definition set_inactive (c : channel_context) : channel_context := mk_channel false (buf_st c).

Definition lc_deactivate (m : dl_lc_manager) : dl_lc_manager := lc_set_ces (lc_set_channels m (set_inactive <$> channels m)) [].

Fixpoint activate_all (m : dl_lc_manager) (lcids : list Z) : outcome dl_lc_manager :=
  match lcids with [] => ok m | lcid :: lcids => m ← set_lc_status m lcid true; activate_all m lcids end.

Definition lc_configure (m : dl_lc_manager) (log_channels_configs : list Z) : outcome dl_lc_manager :=
  activate_all (lc_set_channels m (match channels m with [] => [] | c :: cs => c :: (set_inactive <$> cs) end)) log_channels_configs.

Definition is_active (m : dl_lc_manager) (lcid : Z) : bool := if LCID_MAX_DRB <? lcid then false else active (channel m lcid).

Definition handle_dl_buffer_status_indication (m : dl_lc_manager) (lcid buffer_status : Z) : outcome dl_lc_manager :=
  set_channel m lcid (mk_channel (active (channel m lcid)) buffer_status).

(** ** Pending bytes *)
Definition lc_pending_bytes (m : dl_lc_manager) (lcid : Z) : Z := if is_active m lcid then get_mac_sdu_required_bytes (buf_st (channel m lcid)) else 0.

Definition has_pending_ces (m : dl_lc_manager) : bool := negb (bool_decide (length (pending_ces m) = 0%nat)).

Definition has_pending_bytes (m : dl_lc_manager) : bool := has_pending_ces m || existsb (fun c => active c && (0 <? buf_st c)) (drop 1 (channels m)).

Definition pending_ue_con_res_id_ce_bytes (m : dl_lc_manager) : Z :=
  if pending_con_res_id m then u32 (FIXED_SIZED_MAC_CE_SUBHEADER_SIZE + dl_sizeof_ce UE_CON_RES_ID) else 0.

Definition pending_ce_bytes (m : dl_lc_manager) : Z :=
  foldl (fun bytes ce => u32 (bytes + (FIXED_SIZED_MAC_CE_SUBHEADER_SIZE + dl_sizeof_ce (ce_lcid ce)))) (pending_ue_con_res_id_ce_bytes m) (pending_ces m).

Definition pending_bytes (m : dl_lc_manager) : Z := foldl (fun bytes i => u32 (bytes + lc_pending_bytes m i)) (pending_ce_bytes m) (seqZ 1 32).

(** ** Control elements *)
Definition is_ta_cmd (c : mac_ce_info) : bool := ce_lcid c =? TA_CMD.

(** The payload of the first timing advance command is replaced. *)
Fixpoint replace_ta (ces : list mac_ce_info) (payload : option ta_cmd_ce_payload) : list mac_ce_info :=
  match ces with
  | [] => []
  | c :: ces => if is_ta_cmd c then mk_ce_info (ce_lcid c) payload :: ces else c :: replace_ta ces payload
  end.

Definition handle_mac_ce_indication (m : dl_lc_manager) (ce : mac_ce_info) : dl_lc_manager :=
  if ce_lcid ce =? UE_CON_RES_ID then lc_set_con_res m true
  else if (ce_lcid ce =? TA_CMD) && existsb is_ta_cmd (pending_ces m) then lc_set_ces m (replace_ta (pending_ces m) (ce_info_payload ce))
  else lc_set_ces m (pending_ces m ++ [ce]).

(** The alternative that a variant holds at first. *)
Definition no_lc_info : dl_msg_lc_info := mk_lc_info MIN_RESERVED 0 (Some (mk_ta_cmd 0 0)).

Definition allocate_ue_con_res_id (m : dl_lc_manager) (rem_bytes : Z) : dl_lc_manager * dl_msg_lc_info * Z :=
  if negb (pending_con_res_id m) then (m, no_lc_info, 0)
  else
    let ce_size := dl_sizeof_ce UE_CON_RES_ID in
    let alloc_bytes := u32 (ce_size + FIXED_SIZED_MAC_CE_SUBHEADER_SIZE) in
    if rem_bytes <? alloc_bytes then (m, no_lc_info, 0)
    else (lc_set_con_res m false, mk_lc_info UE_CON_RES_ID ce_size (ce_payload no_lc_info), alloc_bytes).

Definition allocate_mac_ce (m : dl_lc_manager) (rem_bytes : Z) : dl_lc_manager * dl_msg_lc_info * Z :=
  let '(m, subpdu, alloc_bytes) := allocate_ue_con_res_id m rem_bytes in
  if 0 <? alloc_bytes then (m, subpdu, alloc_bytes)
  else
    match pending_ces m with
    | [] => (m, subpdu, 0)
    | ce :: ces =>
        let ce_size := dl_sizeof_ce (ce_lcid ce) in
        let alloc_bytes := u32 (ce_size + FIXED_SIZED_MAC_CE_SUBHEADER_SIZE) in
        if rem_bytes <? alloc_bytes then (m, subpdu, 0) else (lc_set_ces m ces, mk_lc_info (ce_lcid ce) ce_size (ce_info_payload ce), alloc_bytes)
    end.

(** ** SDUs *)
Definition get_mac_sdu_size (sdu_and_subheader_bytes : Z) : Z :=
  if sdu_and_subheader_bytes =? 0 then 0
  else let sdu_size := u32 (sdu_and_subheader_bytes - MIN_MAC_SDU_SUBHEADER_SIZE) in if sdu_size <? MAC_SDU_SUBHEADER_LENGTH_THRES then sdu_size else sdu_size - 1.

Definition get_max_prio_lcid (m : dl_lc_manager) : Z :=
  default INVALID_LCID (List.find (fun idx => active (channel m idx) && (0 <? buf_st (channel m idx))) (seqZ 0 33)).

Definition alloc_bytes_of (m : dl_lc_manager) (lch_bytes rem_bytes : Z) : Z :=
  let alloc_bytes := Z.min rem_bytes (get_mac_sdu_required_bytes lch_bytes) in
  let leftover_bytes := rem_bytes - alloc_bytes in
  let alloc_bytes := if (0 <? leftover_bytes) && ((leftover_bytes <=? MAX_MAC_SDU_SUBHEADER_SIZE + 1) || (pending_bytes m =? 0)) then alloc_bytes + leftover_bytes else alloc_bytes in
  if alloc_bytes =? MAC_SDU_SUBHEADER_LENGTH_THRES + MIN_MAC_SDU_SUBHEADER_SIZE then alloc_bytes - 1 else alloc_bytes.

Definition allocate_mac_sdu_of (m : dl_lc_manager) (lcid rem_bytes : Z) : outcome (dl_lc_manager * dl_msg_lc_info * Z) :=
  let lch_bytes := lc_pending_bytes m lcid in
  if (lch_bytes =? 0) || (rem_bytes <=? MIN_MAC_SDU_SUBHEADER_SIZE) then ok (m, no_lc_info, 0)
  else
    let alloc_bytes := alloc_bytes_of m lch_bytes rem_bytes in
    let sdu_size := get_mac_sdu_size alloc_bytes in
    let c := channel m lcid in
    m ← set_channel m lcid (mk_channel (active c) (buf_st c - Z.min sdu_size (buf_st c)));
    ok (m, mk_lc_info lcid sdu_size (ce_payload no_lc_info), alloc_bytes).

Definition allocate_mac_sdu (m : dl_lc_manager) (rem_bytes lcid : Z) : outcome (dl_lc_manager * dl_msg_lc_info * Z) :=
  let lcid_with_prio := if lcid =? INVALID_LCID then get_max_prio_lcid m else lcid in
  if lcid_with_prio =? INVALID_LCID then ok (m, no_lc_info, 0) else allocate_mac_sdu_of m lcid_with_prio rem_bytes.

(** ** Transport blocks; a turn of a loop adds an entry, of at most 4. *)
Definition lc_list_full (tb : list dl_msg_lc_info) : bool := MAX_LC_PER_TB <=? zlen tb.

Fixpoint mac_sdus_loop (fuel : nat) (tb : list dl_msg_lc_info) (m : dl_lc_manager) (rem_tbs lcid : Z) : outcome (list dl_msg_lc_info * dl_lc_manager * Z) :=
  match fuel with
  | O => fail out_of_fuel
  | S fuel =>
      if (MAX_MAC_SDU_SUBHEADER_SIZE <? rem_tbs) && negb (lc_list_full tb) then
        '(m, subpdu, alloc_bytes) ← allocate_mac_sdu m rem_tbs lcid;
        if alloc_bytes =? 0 then ok (tb, m, rem_tbs) else mac_sdus_loop fuel (tb ++ [subpdu]) m (rem_tbs - alloc_bytes) lcid
      else ok (tb, m, rem_tbs)
  end.

Definition allocate_mac_sdus (tb : list dl_msg_lc_info) (m : dl_lc_manager) (total_tbs lcid : Z) : outcome (list dl_msg_lc_info * dl_lc_manager * Z) :=
  '(tb, m, rem_tbs) ← mac_sdus_loop 5 tb m total_tbs lcid; ok (tb, m, total_tbs - rem_tbs).

Fixpoint mac_ces_loop (fuel : nat) (tb : list dl_msg_lc_info) (m : dl_lc_manager) (rem_tbs : Z) : outcome (list dl_msg_lc_info * dl_lc_manager * Z) :=
  match fuel with
  | O => fail out_of_fuel
  | S fuel =>
      if (pending_con_res_id m || has_pending_ces m) && negb (lc_list_full tb) then
        let '(m, subpdu, alloc_bytes) := allocate_mac_ce m rem_tbs in
        if alloc_bytes =? 0 then ok (tb, m, rem_tbs) else mac_ces_loop fuel (tb ++ [subpdu]) m (rem_tbs - alloc_bytes)
      else ok (tb, m, rem_tbs)
  end.

Definition allocate_mac_ces (tb : list dl_msg_lc_info) (m : dl_lc_manager) (total_tbs : Z) : outcome (list dl_msg_lc_info * dl_lc_manager * Z) :=
  '(tb, m, rem_tbs) ← mac_ces_loop 5 tb m total_tbs; ok (tb, m, total_tbs - rem_tbs).

Definition allocate_ue_con_res_id_mac_ce (tb : list dl_msg_lc_info) (m : dl_lc_manager) (total_tbs : Z) : list dl_msg_lc_info * dl_lc_manager * Z :=
  if lc_list_full tb then (tb, m, 0)
  else let '(m, subpdu, alloc_bytes) := allocate_ue_con_res_id m total_tbs in if negb (alloc_bytes =? 0) then (tb ++ [subpdu], m, alloc_bytes) else (tb, m, 0).

(** [lcids] are the positions of the bits that are set, in ascending order. *)
Fixpoint build_sdus (tb : list dl_msg_lc_info) (m : dl_lc_manager) (tb_size_bytes total_subpdu_bytes : Z) (lcids : list Z) : outcome (list dl_msg_lc_info * dl_lc_manager * Z) :=
  match lcids with
  | [] => ok (tb, m, total_subpdu_bytes)
  | lcid :: lcids =>
      '(tb, m, n) ← allocate_mac_sdus tb m (u32 (tb_size_bytes - total_subpdu_bytes)) lcid;
      build_sdus tb m tb_size_bytes (u32 (total_subpdu_bytes + n)) lcids
  end.

Definition build_dl_transport_block_info (m : dl_lc_manager) (tb_size_bytes : Z) (lcids : list Z) : outcome (list dl_msg_lc_info * dl_lc_manager * Z) :=
  '(tb, m, n) ← allocate_mac_ces [] m tb_size_bytes; build_sdus tb m tb_size_bytes n lcids.

Definition build_dl_fallback_transport_block_info (m : dl_lc_manager) (tb_size_bytes : Z) : outcome (list dl_msg_lc_info * dl_lc_manager * Z) :=
  let '(tb, m, n) := allocate_ue_con_res_id_mac_ce [] m tb_size_bytes in
  let lcid := if (0 <? lc_pending_bytes m LCID_SRB0) && (lc_pending_bytes m LCID_SRB0 <=? u32 (tb_size_bytes - n)) then LCID_SRB0 else LCID_SRB1 in
  '(tb, m, k) ← allocate_mac_sdus tb m (u32 (tb_size_bytes - n)) lcid;
  ok (tb, m, u32 (n + k)).
