(* ===== verification/DlLcProps.v ===== *)
(** * Downlink logical channels: properties

    What the scheduler puts into a transport block fits it, and the MAC can assemble it. *)
From S2P Require Import Prelude MacUlPdu MacRnti MacUl MacDlPdu MacDl MacDlProps RlcRxAm RlcTxAm RlcTxAmInv RlcTxAmStatus RlcTxAmProps MacDlRlc MacDlExamples DlLogicalChannels.

(** ** Well-formed managers *)
Record lcm_ok (m : dl_lc_manager) : Prop := {
  lm_channels : length (channels m) = 33%nat;
  lm_buf : forall lcid, 0 <= buf_st (channel m lcid) < 2 ^ 30;
  lm_ces : Forall (fun ce => dl_is_ce (ce_lcid ce) = true /\ ce_lcid ce <> UE_CON_RES_ID) (pending_ces m)
}.

Definition lcid_ok (lcid : Z) : Prop := 0 <= lcid < MAX_NOF_RB_LCIDS.

Lemma set_channel_ok m lcid c : lcm_ok m -> lcid_ok lcid -> 0 <= buf_st c < 2 ^ 30 ->
  exists m', set_channel m lcid c = ok m' /\ lcm_ok m' /\ channel m' lcid = c /\ (forall i, lcid_ok i -> i <> lcid -> channel m' i = channel m i) /\
    pending_ces m' = pending_ces m /\ pending_con_res_id m' = pending_con_res_id m.
Proof.
  intros [Hl Hb Hc] Hi Hr. unfold set_channel. unfold lcid_ok in *. rewrite (proj2 (Z.leb_le _ _)), (proj2 (Z.ltb_lt _ _)) by lia. cbn [andb]. eexists. split; [reflexivity|].
  unfold MAX_NOF_RB_LCIDS in *. assert (Es : channel (lc_set_channels m (<[Z.to_nat lcid := c]> (channels m))) lcid = c).
  { unfold channel. cbn [lc_set_channels channels]. rewrite list_lookup_insert_eq by lia. done. }
  assert (Eo : forall i, Z.to_nat i <> Z.to_nat lcid -> channel (lc_set_channels m (<[Z.to_nat lcid := c]> (channels m))) i = channel m i).
  { intros i Hne. unfold channel. cbn [lc_set_channels channels]. by rewrite list_lookup_insert_ne by done. }
  split; [|split; [done|split; [intros i Hi' Hne; apply Eo; lia|done]]]. split; [cbn; by rewrite length_insert| |done].
  intros i. destruct (decide (Z.to_nat i = Z.to_nat lcid)) as [E|E]; [|rewrite Eo by done; apply Hb]. unfold channel in *. rewrite E. by rewrite Es.
Qed.





(** ** One SDU *)


















(** ** Control elements *)
Definition con_res_info : dl_msg_lc_info := mk_lc_info UE_CON_RES_ID 6 (Some (mk_ta_cmd 0 0)).
Definition ce_info (ce : mac_ce_info) : dl_msg_lc_info := mk_lc_info (ce_lcid ce) (dl_sizeof_ce (ce_lcid ce)) (ce_info_payload ce).

(** The control elements that are to be sent. *)
Definition ces_of (m : dl_lc_manager) : list dl_msg_lc_info := (if pending_con_res_id m then [con_res_info] else []) ++ (ce_info <$> pending_ces m).


Definition ce_entry (lc : dl_msg_lc_info) : Prop := dl_is_ce (lc_lcid lc) = true /\ sched_bytes lc = dl_sizeof_ce (lc_lcid lc).


Lemma ces_entries m : lcm_ok m -> Forall ce_entry (ces_of m).
Proof.
  intros Hm. apply Forall_app. split; [destruct (pending_con_res_id m); [|by apply Forall_nil]; apply Forall_cons; split; [done|by apply Forall_nil]|].
  apply Forall_fmap. eapply Forall_impl; [apply (lm_ces m Hm)|]. intros ce [H _]. by split.
Qed.








(** ** Transport blocks *)







(** ** The other operations *)
Lemma channel_inactive (cs : list channel_context) (i : nat) : default (mk_channel false 0) ((set_inactive <$> cs) !! i) = set_inactive (default (mk_channel false 0) (cs !! i)).
Proof. rewrite list_lookup_fmap. by destruct (cs !! i). Qed.

Lemma lc_deactivate_ok m : lcm_ok m -> lcm_ok (lc_deactivate m) /\ forall lcid, is_active (lc_deactivate m) lcid = false.
Proof.
  intros [Hl Hb _]. split; [split|].
  - cbn. by rewrite length_fmap.
  - intros lcid. unfold channel. cbn [lc_deactivate lc_set_ces lc_set_channels channels]. rewrite channel_inactive. apply Hb.
  - by apply Forall_nil.
  - intros lcid. unfold is_active, channel. cbn [lc_deactivate lc_set_ces lc_set_channels channels]. rewrite channel_inactive. by destruct (_ <? _).
Qed.

Lemma activate_all_ok (lcids : list Z) : forall m, lcm_ok m -> Forall lcid_ok lcids ->
  exists m', activate_all m lcids = ok m' /\ lcm_ok m' /\ pending_ces m' = pending_ces m /\
    forall i, lcid_ok i -> channel m' i = mk_channel (bool_decide (i ∈ lcids) || active (channel m i)) (buf_st (channel m i)).
Proof.
  induction lcids as [|lcid lcids IH]; intros m Hm Hi; cbn [activate_all].
  { exists m. split; [done|]. split; [done|]. split; [done|]. intros i _. rewrite bool_decide_eq_false_2 by apply not_elem_of_nil. by destruct (channel m i). }
  apply Forall_cons in Hi as [Hi1 Hi]. unfold set_lc_status.
  destruct (set_channel_ok m lcid (mk_channel true (buf_st (channel m lcid))) Hm Hi1 (lm_buf m Hm lcid)) as (m1 & E1 & Hm1 & Hc & Ho & Hce & _). rewrite E1. cbn [mbind outcome_bind].
  destruct (IH m1 Hm1 Hi) as (m' & E' & Hm' & Hce' & Hc'). exists m'. split; [done|]. split; [done|]. split; [congruence|]. intros i Hok. rewrite Hc' by done.
  destruct (decide (i = lcid)) as [->|Hne].
  - rewrite Hc. cbn [active buf_st]. rewrite orb_true_r. by rewrite bool_decide_eq_true_2 by left.
  - rewrite Ho by done. f_equal. f_equal. apply bool_decide_ext. rewrite elem_of_cons. tauto.
Qed.

(** A configuration activates SRB0 as it was, and of the others exactly its logical channels; the buffers stay. *)
Lemma lc_configure_ok m (lcids : list Z) : lcm_ok m -> Forall lcid_ok lcids ->
  exists m', lc_configure m lcids = ok m' /\ lcm_ok m' /\
    forall i, lcid_ok i -> channel m' i = mk_channel (bool_decide (i ∈ lcids) || (if i =? 0 then active (channel m 0) else false)) (buf_st (channel m i)).
Proof.
  intros Hm Hi. unfold lc_configure. set (m0 := lc_set_channels m _).
  assert (H0 : forall i, lcid_ok i -> channel m0 i = mk_channel (if i =? 0 then active (channel m 0) else false) (buf_st (channel m i))).
  { intros i [Hi0 _]. unfold channel, m0. cbn [lc_set_channels channels]. destruct (Z.eqb_spec i 0) as [->|Hne].
    - destruct (channels m) as [|[a b] cs]; done.
    - destruct (channels m) as [|c cs]; [done|]. replace (Z.to_nat i) with (S (Z.to_nat (i - 1))) by lia. cbn [lookup list_lookup]. by rewrite channel_inactive. }
  assert (Hm0 : lcm_ok m0).
  { destruct Hm as [Hl Hb Hc]. split; [unfold m0; cbn; destruct (channels m); cbn in *; [done|by rewrite length_fmap]| |done]. intros i. destruct (channels m) as [|c cs] eqn:E; [done|].
    specialize (Hb i). unfold channel in *. unfold m0. cbn [lc_set_channels channels]. rewrite E in *. destruct (Z.to_nat i) as [|k]; [done|]. cbn [lookup list_lookup] in *. by rewrite channel_inactive. }
  destruct (activate_all_ok lcids m0 Hm0 Hi) as (m' & E & Hm' & _ & Hc). exists m'. split; [done|]. split; [done|]. intros i Hok. rewrite Hc, H0 by done. done.
Qed.

Lemma ctor_ok : exists m, dl_lc_manager_ctor = ok m /\ lcm_ok m /\ forall i, lcid_ok i -> channel m i = mk_channel (i =? 0) 0.
Proof.
  unfold dl_lc_manager_ctor, set_lc_status. set (m0 := mk_dl_lc _ _ _).
  assert (H0 : forall i, channel m0 i = mk_channel false 0).
  { intros i. unfold channel, m0. cbn [channels]. destruct (_ !! _) as [c|] eqn:E; [|done]. by apply lookup_replicate in E as [-> _]. }
  assert (Hm0 : lcm_ok m0) by (split; [done|intros i; rewrite H0; cbn; lia|by apply Forall_nil]).
  destruct (set_channel_ok m0 LCID_SRB0 (mk_channel true (buf_st (channel m0 LCID_SRB0)))) as (m & E & Hm & Hc & Ho & _); [done|done|by rewrite H0|].
  exists m. split; [done|]. split; [done|]. intros i Hi. destruct (Z.eqb_spec i 0) as [->|Hne]; [unfold LCID_SRB0 in Hc; by rewrite Hc, H0|by rewrite Ho, H0].
Qed.

(** No more than one timing advance command is pending. *)
Definition nof_ta (ces : list mac_ce_info) : nat := length (List.filter is_ta_cmd ces).

Lemma replace_ta_ok ces payload : nof_ta (replace_ta ces payload) = nof_ta ces /\ ce_lcid <$> replace_ta ces payload = ce_lcid <$> ces.
Proof.
  unfold nof_ta. induction ces as [|c ces [IH1 IH2]]; [done|]. cbn [replace_ta]. destruct (is_ta_cmd c) eqn:E; cbn [List.filter fmap list_fmap].
  - split; [|done]. change (is_ta_cmd (mk_ce_info (ce_lcid c) payload)) with (is_ta_cmd c). by rewrite E.
  - rewrite E. split; [done|]. by f_equal.
Qed.

Lemma handle_ce_ok m ce :
  lcm_ok m -> dl_is_ce (ce_lcid ce) = true -> (nof_ta (pending_ces m) <= 1)%nat ->
  lcm_ok (handle_mac_ce_indication m ce) /\ (nof_ta (pending_ces (handle_mac_ce_indication m ce)) <= 1)%nat.
Proof.
  intros [Hl Hb Hc] Hce Ht. unfold handle_mac_ce_indication. destruct (Z.eqb_spec (ce_lcid ce) UE_CON_RES_ID) as [|Hne]; [by split|].
  destruct ((ce_lcid ce =? TA_CMD) && existsb is_ta_cmd (pending_ces m)) eqn:E.
  - destruct (replace_ta_ok (pending_ces m) (ce_info_payload ce)) as [E1 E2]. split; [|cbn [lc_set_ces pending_ces]; by rewrite E1]. split; [done|done|]. cbn [lc_set_ces pending_ces].
    apply (Forall_fmap ce_lcid (fun l => dl_is_ce l = true /\ l <> UE_CON_RES_ID)). rewrite E2. by apply Forall_fmap.
  - split; [split; [done|done|]; cbn; apply Forall_app; split; [done|by apply Forall_cons]|]. cbn [lc_set_ces pending_ces]. unfold nof_ta in *. rewrite List.filter_app, length_app.
    cbn [List.filter]. unfold is_ta_cmd at 2. destruct (ce_lcid ce =? TA_CMD); [|cbn; lia]. cbn [andb] in E. cbn [length].
    assert (En : List.filter is_ta_cmd (pending_ces m) = []); [|rewrite En; cbn; lia]. clear -E. induction (pending_ces m) as [|c ces IH]; [done|]. cbn in *. apply orb_false_iff in E as [-> E]. by apply IH.
Qed.

(** ** The MAC assembles what the scheduler builds *)
Section assembly.
Context {B : Type} `{MacSduTxBuilder B} (Inv : B -> Prop) {HL : MacSduTxBuilderLaws B Inv}.




End assembly.

(** * Downlink logical channels: instances of the properties

    The UE of [MacDlExamples], as the scheduler sees it, and two cases in which an entry is not what the comments of the code say. *)

Local Existing Instance cell_provider.
Local Abbreviation cell_inv := (dl_inv (adapter_inv reports_wf)).

Definition lc_or_empty (o : outcome dl_lc_manager) : dl_lc_manager := match o with ok m => m | fail _ => mk_dl_lc [] false [] end.

(** Channels 4 and 5 with [a] and [b] octets. *)
Definition ex_lc (a b : Z) : dl_lc_manager := lc_or_empty (
  m ← dl_lc_manager_ctor;
  m ← lc_configure m [4; 5];
  m ← handle_dl_buffer_status_indication m 4 a;
  handle_dl_buffer_status_indication m 5 b).

(** The UE of the cell: a timing advance command, the contention resolution identity and octets of channel 4. *)
Definition cell_lc : dl_lc_manager := lc_or_empty (
  m ← dl_lc_manager_ctor;
  m ← lc_configure m [4];
  m ← handle_dl_buffer_status_indication m 4 5;
  ok (handle_mac_ce_indication (handle_mac_ce_indication m (mk_ce_info TA_CMD (Some (mk_ta_cmd 0 31)))) (mk_ce_info UE_CON_RES_ID None))).





(** The entries of a block, and their size. *)
Definition entries (m : dl_lc_manager) (tb : Z) (lcids : list Z) : outcome (list (Z * Z) * Z) :=
  '(l, _, n) ← build_dl_transport_block_info m tb lcids; ok (List.map (fun lc => (lc_lcid lc, sched_bytes lc)) l, n).

Example cell_block : entries cell_lc 24 [4] = ok ([(62, 6); (61, 1); (4, 7)], 18).
Proof. vm_compute. reflexivity. Qed.

(** ** Entries that are larger, and smaller, than the comments say *)

(** The subheader is counted twice: channel 4 is granted 12 octets for its 10. *)
Example subheader_counted_twice : entries (ex_lc 10 1000) 500 [4; 5] = ok ([(4, 12); (5, 483)], 500).
Proof. vm_compute. reflexivity. Qed.

(** The last SDU does not take what is left of the block, as its own octets still count as pending. *)
Example leftover_not_given : entries (ex_lc 10 0) 100 [4; 5] = ok ([(4, 12)], 14).
Proof. vm_compute. reflexivity. Qed.
